(* ===== verification/_CoqProject ===== *)
-Q . S2P
Prelude.v
ArithUint256.v
Endian.v
StrEncodings.v
Uint256.v
Serialize.v
Amount.v
ConsensusParams.v
Transaction.v
Chain.v
Script.v
Standard.v
Coins.v
Compressor.v
CoinsCodec.v
UpdateCoins.v
Interpreter.v
InterpreterFacts.v
SigHash.v
VerifyScript.v
LockTime.v
Merkle.v
PartialMerkle.v
Block.v
Pow.v
TxCheck.v
BlockCheck.v
HeaderCheck.v
HashStream.v
Sha2.v
Ripemd.v
Hash.v
SipHash.v
Bloom.v
BlockIndex.v
IndexInvariant.v
ActivateChain.v
StakeModifier.v
HashMap.v
Kernel.v
Base58.v
Names.v
NameFacts.v
BlockFiles.v
CheckQueue.v
