(* ===== verification/Prelude.v ===== *)
(** * A verification of the consensus core of MFCoin

    MFCoin is a Bitcoin-style node (a fork of Emercoin, hence of Peercoin and Bitcoin
    Core) with proof of stake, merged mining, Merkle-tree proofs of work and a name
    service.  This library models the part of it that decides which transactions, scripts
    and blocks are valid and what they do to the set of unspent outputs, and proves that
    part correct.  Everything is under [src/src/] of the repository; paths below are
    relative to it.

    ** The program's parts, and the files that model them

    Layers, from the bottom; each file opens with its own description.

    - Numbers and bytes.  [ArithUint256] models [arith_uint256.h/.cpp] (256-bit
      arithmetic in 32-bit limbs, the compact form of targets); [Endian] the byte-order
      functions ([crypto/common.h], [compat/*.h]); [StrEncodings] the hexadecimal part of
      [utilstrencodings.cpp]; [Uint256] the opaque blobs of [uint256.h/.cpp].
    - Wire formats.  [Serialize] models [serialize.h] as codecs (a writer and a reader over
      a stream, compact sizes, VarInts, vectors) with the class of lawful codecs;
      [Transaction] models [primitives/transaction.h/.cpp] on top of it, [Block]
      [primitives/block.h/.cpp] and [auxpow.h/.cpp], [Compressor] [compressor.h/.cpp],
      [CoinsCodec] the records of [coins.h] and [undo.h].
    - Money and parameters.  [Amount] is [amount.h/.cpp] and the fee rules,
      [ConsensusParams] [consensus/params.h] and the limits of [consensus/consensus.h].
    - Scripts.  [Script] models [script/script.h/.cpp] (script numbers, iteration over
      operations, the scans, name scripts of [namecoin.cpp]), [Standard]
      [script/standard.cpp], [Interpreter] and [InterpreterFacts] [EvalScript] of
      [script/interpreter.cpp], [SigHash] the signature hashes and the checker bound to a
      transaction, [VerifyScript] [VerifyScript] with P2SH and witness programs, [LockTime]
      [IsFinalTx] and the sequence locks of [validation.cpp] with the opcodes that rely on
      them.
    - State.  [Coins] models [coins.h/.cpp]: the stack of views and caches over a
      database; [UpdateCoins] the application and the undoing of transactions
      ([validation.cpp], [undo.h]); [Chain] models [chain.h/.cpp]: the tree of block index
      entries on a heap, skip pointers, the active chain, locators.
    - Commitments and work.  [Merkle] models [consensus/merkle.cpp], [PartialMerkle]
      [merkleblock.h/.cpp], [Pow] [pow.cpp] and the part of [bignum.h] it uses.
    - Digests and probabilistic sets.  [HashStream] is the block-streaming hasher the
      classes of [crypto/] share, [Sha2] models [crypto/sha256.cpp] and
      [crypto/sha512.cpp], [Ripemd] [crypto/ripemd160.cpp] and [crypto/sha1.cpp], [Hash]
      [hash.h], the HMACs of [crypto/] and [BIP32Hash]; [SipHash] the keyed and
      non-cryptographic hashes of [hash.cpp]; [Bloom] [bloom.h/.cpp].
    - Rules.  [TxCheck] models [CValidationState] ([consensus/validation.h]), the checks of
      [validation.cpp] on a transaction alone and against its inputs, rewards, and counts of
      signature operations; [BlockCheck] the checks of [validation.cpp] on headers and
      blocks, alone and in the context of the chain, with the commitment to witnesses and
      the block signature; [HeaderCheck] what the rules for headers ensure along a chain.
    - The block tree of [validation.cpp].  [BlockIndex] models the index of all known blocks
      with the candidates for the tip and the blocks that wait for an ancestor, and every
      operation that changes it ([AddToBlockIndex], [ReceivedBlockTransactions],
      [FindMostWorkChain], [InvalidBlockFound], ...); [IndexInvariant] the invariant these
      operations keep; [ActivateChain] the switch to the best chain ([ActivateBestChain] and
      its steps, [ConnectTip], [DisconnectTip]).
    - Proof of stake.  [StakeModifier] models the computation of stake modifiers in
      [kernel.cpp] (the sorting and the selection of blocks), [HashMap] the hash table of
      [uint256hm.h] that caches them, [Kernel] the rest of [kernel.cpp]: the modifier of a
      stake, the kernel hash, [CheckProofOfStake], and [ppcoinContextualBlockChecks] of
      [validation.cpp], which records their results in the index of blocks.
    - Addresses and names.  [Base58] models [base58.h/.cpp]: the texts of addresses; [Names]
      [namecoin.h/.cpp]: the records of names, the rules for name transactions, what a block
      does to the databases of names and addresses when it is connected and disconnected,
      fees (with the doubles they are computed in), expiration, pending names and queries.
      The databases are instances of the class [KeyValueStore] with its laws.  [NameFacts]
      holds the theorems.
    - Storage and threads.  [BlockFiles] models the files of blocks and undo data of
      [validation.cpp] with pruning; [CheckQueue] the queue of [checkqueue.h] that
      distributes script checks over threads, as interleaved steps.

    The components interact as in the program: a transaction is checked by [TxCheck]
    against the coins of [Coins] through the class [CoinsView]; its scripts are run by
    [VerifyScript] and [Interpreter] through the record [SignatureChecker], which [SigHash]
    implements for a transaction and [LockTime] relates to the block rules; its effect on
    the coins is [UpdateCoins]; a block is bound to its transactions by [Merkle], to the
    chain by [Chain], to work by [Pow]; [BlockIndex] keeps its entry in the tree of [Chain],
    and [ActivateChain] makes it the tip when its chain is the best one; [Kernel] checks its
    stake against the tree, with the scripts of [VerifyScript]; [BlockFiles] keeps the blocks
    of [Block] and the undo data of [UpdateCoins], and its pruning changes the index of
    [BlockIndex]; [Names] follows the blocks that are connected.

    ** How the code is modelled

    Machine integers are [Z] with the wrap-around of their width written out ([u32], [i64],
    ... below); bytes are numbers in [[0, 256)]; vectors are lists, and an index out of
    range, a failed assertion and an exception are outcomes ([option], [result], the monads
    of the components), never a default value, where the source would fail.  Functions that
    mutate an object return it.  Pointers between block index entries are addresses in a
    heap ([gmap]).  Host byte order is a parameter [be], so that the theorems hold on both
    kinds of machine.

    Loops are structural where the code counts something down; otherwise they have fuel,
    and the fuel passed is a bound the code cannot exceed: the length of the script or
    stream for scans and readers (each round consumes a byte), the height for walks of the
    chain, the number of levels for trees, the number of candidates for the choice of the
    best chain, the blocks in the queue or waiting for the linking of blocks, and for
    activation the blocks not marked as failed times the greatest height (each round connects
    a block or marks one), the square of the length for the sorting by swaps (each swap removes
    an inversion), the size of the table for probing.  That it suffices is proved, by theorems that
    describe the result for all inputs and do not mention the fuel.

    The rules and the wire formats take the hash function as a parameter, with at most the
    hypothesis that a digest has 32 bytes, so that what they need of it shows in their
    statements; [Hash] gives the program's own, and proves that hypothesis of it.  Code
    outside the repository's own sources is a parameter: ECDSA on secp256k1 ([CPubKey::Verify],
    [CheckLowS], [Decompress]), OpenSSL's BIGNUM (a class with its documented laws and the
    instance of the integers), [mtp::verify], memory usage of the allocator, the
    transaction index on disk.  Where a theorem speaks of security it concludes with the
    property or with a collision of the hash at hand.

    ** What the theorems show

    Round trips: every wire and disk format reads back what it writes, whatever follows, and
    the size computed is the size written; compression of amounts and scripts, script
    numbers, name scripts, standard scripts and the texts of addresses invert.  Equivalence with reference
    definitions: 256-bit arithmetic is arithmetic modulo 2^256, the streaming signature hash
    is the hash of the modified transaction, the constant-space Merkle computation is the
    tree, OP_CHECKMULTISIG is matching of a subsequence, the DER test accepts the grammar,
    the checks of transactions and of blocks accept exactly what the listed rules allow, the
    hash classes compute the functions of their standards (FIPS 180-4, RIPEMD-160, FIPS 198,
    SipHash-2-4) however their input is cut into pieces.  Refinement: a
    stack of coin caches behaves as one map of unspent outputs, flushing writes it down, the
    vector of the active chain is the path to its tip, the hash table is a finite map through
    its moves to larger arrays.  Proof of stake: the modifier is the one of the reference
    selection, a stake is accepted exactly when it has the age and its hash is below its weight
    times the target (modulo 2^256, from version 0.5 of the protocol on), and an accepted block
    of any version spends what it stakes.  Spending: which scripts and witnesses spend the two
    usual kinds of outputs, under every consistent combination of flags.  Names: the
    databases stay well formed and in agreement as blocks are connected that change no name
    twice, an active name changes
    only by a transaction that spends its last one, and disconnecting restores the record.
    Storage: what was written to a block file reads back after any operations that do not prune
    the file, even failing ones, and pruning, automatic or by command, spares the blocks near the tip.  Threads: in every
    interleaving the check queue returns whether all checks succeed, after a bounded number of
    steps, and no notification is lost.  The block tree: a block is a
    candidate for the tip when its ancestors have arrived, whatever the order of arrival; the
    best candidate is chosen, and activation ends with the best valid block as the tip, unless
    a block is rejected as corrupted, when it does not end.  Invariants and safety: the script
    machine stays within its limits and never asserts, leaves a vector or overflows;
    skip pointers lead to ancestors; disconnecting a block restores the coins, outside of fork
    blocks whose ordinary transactions the code takes for coinbases; the
    median time past never falls, so that what is final stays final; a Bloom filter forgets
    nothing, a rolling one nothing of its window.  Security of commitments: Merkle roots,
    partial trees, block hashes, signature hashes, headers with their witness commitments and
    merged-mining proofs bind what they should.  Errors: the inputs for which the code fails,
    where it does, are exhibited.

    ** Not modelled

    Networking, the wallet, the graphical interface, RPC (but [pruneblockchain]), the memory pool, mining, DNS and
    the threads that connect them: code whose behaviour is I/O, user interaction or
    scheduling, or whose state is spread over databases and locks.  Of [namecoin.cpp]: the
    commands of the wallet, the enumeration of all names, the creation of the databases by a
    scan and their dump.  Of [validation.cpp]: [AcceptBlock] as a whole, loading the index
    from the database, [FlushStateToDisk] beyond pruning, and the checks of [ConnectBlock],
    whose verdict on a block is a parameter of [ActivateChain]; its effect on the coins is in
    [UpdateCoins].  Of [crypto/]: AES and the Merkle-tree proof, which is a parameter of the
    rules.  Vendored
    libraries (leveldb, secp256k1, univalue, zlib, quazip, OpenSSL's tools) are not the
    program's own.

    ** This file

    The vocabulary shared by all files: machine integers, results, lists, tactics and
    hints. *)
From stdpp Require Export base tactics option list numbers gmap.
From Stdlib Require Export ZArith Lia.

#[global] Open Scope Z_scope.

(** ** Machine integers

    A w-bit unsigned quantity is a [Z] in [[0, 2^w)]; the wrap-around of the C
    types is written out with [uwrap] (and [swrap] for two's complement). *)

Definition uwrap (w x : Z) : Z := x mod 2 ^ w.

Definition swrap (w x : Z) : Z :=
  let y := x mod 2 ^ w in if y <? 2 ^ (w - 1) then y else y - 2 ^ w.

Abbreviation u8 := (uwrap 8).
Abbreviation u16 := (uwrap 16).
Abbreviation u32 := (uwrap 32).
Abbreviation u64 := (uwrap 64).
Abbreviation i8 := (swrap 8).
Abbreviation i16 := (swrap 16).
Abbreviation i32 := (swrap 32).
Abbreviation i64 := (swrap 64).

(** The values a w-bit unsigned (signed) variable can hold. *)
Definition is_u (w x : Z) : Prop := 0 <= x < 2 ^ w.
Definition is_s (w x : Z) : Prop := - 2 ^ (w - 1) <= x < 2 ^ (w - 1).

#[export] Instance is_u_dec w x : Decision (is_u w x).
Proof. unfold is_u. apply _. Defined.

#[export] Instance is_s_dec w x : Decision (is_s w x).
Proof. unfold is_s. apply _. Defined.

Create HintDb words.

Lemma uwrap_range w x : 0 <= w -> is_u w (uwrap w x).
Proof. intros. unfold is_u, uwrap. apply Z.mod_pos_bound. lia. Qed.

Lemma uwrap_small w x : is_u w x -> uwrap w x = x.
Proof. unfold is_u, uwrap. intros. by apply Z.mod_small. Qed.

Lemma uwrap_uwrap w x : uwrap w (uwrap w x) = uwrap w x.
Proof. unfold uwrap. destruct (decide (2 ^ w = 0)) as [->|]; [|by rewrite Z.mod_mod].
  by rewrite !Z.mod_0_r. Qed.

Lemma swrap_small w x : 0 < w -> is_s w x -> swrap w x = x.
Proof.
  intros Hw Hx. unfold swrap, is_s in *.
  assert (2 ^ w = 2 * 2 ^ (w - 1)) as E.
  { rewrite <- Z.pow_succ_r by lia. f_equal. lia. }
  assert (0 < 2 ^ (w - 1)) by lia.
  destruct (decide (0 <= x)).
  - rewrite Z.mod_small by lia. case (Z.ltb_spec x (2 ^ (w - 1))); lia.
  - replace (x mod 2 ^ w) with (x + 2 ^ w).
    + case (Z.ltb_spec (x + 2 ^ w) (2 ^ (w - 1))); lia.
    + rewrite E. rewrite <- (Z.mod_add x 1) by lia. rewrite Z.mod_small; lia.
Qed.

Lemma swrap_range w x : 0 < w -> is_s w (swrap w x).
Proof.
  intros Hw. unfold swrap, is_s.
  assert (2 ^ w = 2 * 2 ^ (w - 1)) as E.
  { rewrite <- Z.pow_succ_r by lia. f_equal. lia. }
  assert (0 < 2 ^ (w - 1)) by lia.
  pose proof (Z.mod_pos_bound x (2 ^ w) ltac:(lia)).
  case (Z.ltb_spec (x mod 2 ^ w) (2 ^ (w - 1))); lia.
Qed.

(** A two's-complement reinterpretation loses nothing: converting to unsigned
    and back is the identity on the signed range. *)
Lemma swrap_uwrap w x : 0 < w -> is_s w x -> swrap w (uwrap w x) = x.
Proof.
  intros Hw Hx. rewrite <- (swrap_small w x) at 2 by done.
  unfold swrap, uwrap. rewrite Z.mod_mod by lia. done.
Qed.

(** ** Bits *)

Lemma land_mask x n : 0 <= n -> Z.land x (2 ^ n - 1) = x mod 2 ^ n.
Proof. intros. rewrite <- Z.land_ones by done. f_equal. rewrite Z.ones_equiv. lia. Qed.

(** Or-ing a value below [2^n] into a multiple of [2^n] is addition. *)
Lemma lor_disjoint_add a b n :
  0 <= n -> 0 <= b < 2 ^ n -> Z.lor (a * 2 ^ n) b = a * 2 ^ n + b.
Proof.
  intros Hn Hb. rewrite <- Z.add_lor_land.
  assert (Z.land (a * 2 ^ n) b = 0) as ->; [|lia].
  apply Z.bits_inj'. intros i Hi. rewrite Z.land_spec, Z.bits_0.
  destruct (decide (i < n)).
  - by rewrite Z.mul_pow2_bits_low.
  - rewrite <- (Z.mod_small b (2 ^ n)) by lia.
    rewrite Z.mod_pow2_bits_high by lia. apply andb_false_r.
Qed.

Lemma lor_disjoint_add' a b n :
  0 <= n -> 0 <= b < 2 ^ n -> Z.lor b (a * 2 ^ n) = a * 2 ^ n + b.
Proof. intros. rewrite Z.lor_comm. by apply lor_disjoint_add. Qed.

Lemma lor_bound a b n : 0 <= n -> is_u n a -> is_u n b -> is_u n (Z.lor a b).
Proof.
  unfold is_u. intros Hn [] []. split; [by apply Z.lor_nonneg|].
  destruct (decide (Z.lor a b = 0)) as [->|]; [lia|].
  assert (0 < Z.lor a b) by (pose proof (Z.lor_nonneg a b); lia).
  apply Z.log2_lt_pow2; [done|]. rewrite Z.log2_lor by done.
  apply Z.max_lub_lt.
  - destruct (decide (a = 0)) as [->|]; [|apply Z.log2_lt_pow2; lia].
    simpl. destruct (decide (n = 0)) as [->|]; [|lia]. simpl in *.
    assert (b = 0) by lia. subst. done.
  - destruct (decide (b = 0)) as [->|]; [|apply Z.log2_lt_pow2; lia].
    simpl. destruct (decide (n = 0)) as [->|]; [|lia]. simpl in *.
    assert (a = 0) by lia. subst. done.
Qed.

Lemma shiftr_div x n : 0 <= n -> Z.shiftr x n = x / 2 ^ n.
Proof. apply Z.shiftr_div_pow2. Qed.

Lemma shiftl_mul x n : 0 <= n -> Z.shiftl x n = x * 2 ^ n.
Proof. apply Z.shiftl_mul_pow2. Qed.

Lemma land_pow2 x n : 0 <= n -> Z.land x (2 ^ n) = if Z.testbit x n then 2 ^ n else 0.
Proof.
  intros Hn. apply Z.bits_inj'. intros i Hi. rewrite Z.land_spec, Z.pow2_bits_eqb by done.
  destruct (Z.eqb_spec n i) as [->|Hne].
  - rewrite andb_true_r. destruct (Z.testbit x i); [by rewrite Z.pow2_bits_true|by rewrite Z.bits_0].
  - rewrite andb_false_r. destruct (Z.testbit x n); [by rewrite Z.pow2_bits_false|by rewrite Z.bits_0].
Qed.

Lemma testbit_top m n : 0 <= n -> 0 <= m < 2 ^ (n + 1) -> Z.testbit m n = (2 ^ n <=? m).
Proof.
  intros Hn Hm. rewrite Z.pow_add_r in Hm by lia. change (2 ^ 1) with 2 in Hm.
  rewrite Z.testbit_odd, shiftr_div by done. destruct (Z.leb_spec (2 ^ n) m).
  - replace (m / 2 ^ n) with 1; [done|]. apply Z.div_unique with (m - 2 ^ n); lia.
  - rewrite Z.div_small by lia. done.
Qed.

(** ** Counted loops: [for (i = start; i < start + n; i++) s = body i s] *)

Fixpoint for_range {S : Type} (start n : nat) (body : nat -> S -> S) (s : S) : S :=
  match n with
  | O => s
  | Datatypes.S n' => for_range (Datatypes.S start) n' body (body start s)
  end.

(** The loop-invariant rule of [for_range]. *)
Lemma for_range_ind {S : Type} (P : nat -> S -> Prop) start n body (s : S) :
  P start s ->
  (forall i s, (start <= i < start + n)%nat -> P i s -> P (Datatypes.S i) (body i s)) ->
  P (start + n)%nat (for_range start n body s).
Proof.
  revert start s. induction n as [|n IH]; intros start s H0 Hs; simpl.
  - by rewrite Nat.add_0_r.
  - replace (start + Datatypes.S n)%nat with (Datatypes.S start + n)%nat by lia.
    apply IH; [apply Hs; [lia|done]|]. intros i s' Hi. apply Hs. lia.
Qed.

(** ** Errors as values *)

Inductive result (E A : Type) : Type :=
| Ok (a : A)
| Err (e : E).
Arguments Ok {E A} _.
Arguments Err {E A} _.

#[export] Instance result_ret {E} : MRet (result E) := fun A a => Ok a.
#[export] Instance result_bind {E} : MBind (result E) := fun A B f m =>
  match m with Ok a => f a | Err e => Err e end.

(** Proof automation: split the tests of the source in a goal or hypothesis. *)
Ltac case_bool :=
  match goal with
  | |- context [Z.ltb ?a ?b] => destruct (Z.ltb_spec a b)
  | |- context [Z.leb ?a ?b] => destruct (Z.leb_spec a b)
  | |- context [Z.eqb ?a ?b] => destruct (Z.eqb_spec a b)
  | |- context [Z.gtb ?a ?b] => rewrite (Z.gtb_ltb a b); destruct (Z.ltb_spec b a)
  | |- context [Z.geb ?a ?b] => rewrite (Z.geb_leb a b); destruct (Z.leb_spec b a)
  | H : context [Z.ltb ?a ?b] |- _ => destruct (Z.ltb_spec a b)
  | H : context [Z.leb ?a ?b] |- _ => destruct (Z.leb_spec a b)
  | H : context [Z.eqb ?a ?b] |- _ => destruct (Z.eqb_spec a b)
  | H : context [Z.gtb ?a ?b] |- _ => rewrite (Z.gtb_ltb a b) in H; destruct (Z.ltb_spec b a)
  | H : context [Z.geb ?a ?b] |- _ => rewrite (Z.geb_leb a b) in H; destruct (Z.leb_spec b a)
  end.

(** Discharge a decidable side condition on concrete data by evaluation. *)
Ltac by_decide := apply (bool_decide_unpack _); vm_compute; exact I.

#[export] Hint Resolve uwrap_range lor_bound : words.

Lemma foldl_map {A B C} (f : A -> B -> A) (g : C -> B) (a : A) (l : list C) :
  foldl f a (map g l) = foldl (fun x y => f x (g y)) a l.
Proof. revert a. induction l as [|c l IH]; intros a; [done|]. apply IH. Qed.
