(* ===== verification/ArithUint256.v ===== *)
(** * ArithUint256: the 256-bit integer of proof-of-work targets

    Models [src/src/arith_uint256.h] and [src/src/arith_uint256.cpp]: the class
    template [base_uint<BITS>] at [BITS = 256], an array [pn] of eight 32-bit
    limbs (least significant first), its operators, and the compact format of
    [arith_uint256].  An operator that assigns through [*this] is a function
    from the old array to the new one; loops over the array are [for_range]
    loops with the same indices, and every C expression is wrapped at its type.

    The theorems show that each operator computes the operation on the number
    [val pn] modulo [2^256]. *)
From S2P Require Import Prelude.

(** ** Data *)

Definition WIDTH : nat := 8.

(** The array [uint32_t pn[WIDTH]]. *)
Abbreviation base_uint := (list Z).

Definition wf (a : base_uint) : Prop :=
  length a = WIDTH /\ Forall (is_u 32) a.

#[export] Instance wf_dec a : Decision (wf a).
Proof. unfold wf. apply _. Defined.

Definition zero256 : base_uint := replicate WIDTH 0.

(** [base_uint(uint64_t b)] and [operator=(uint64_t b)]. *)
Definition of_u64 (b : Z) : base_uint :=
  u32 b :: u32 (Z.shiftr b 32) :: replicate (WIDTH - 2) 0.

(** ** Operators of the header *)

Definition op_not (a : base_uint) : bool :=
  forallb (fun x => x =? 0) a.

(** [~x] on a 32-bit limb. *)
Definition not32 (x : Z) : Z := u32 (Z.lnot x).

Definition op_compl (a : base_uint) : base_uint :=
  for_range 0 WIDTH (fun i ret => <[i := not32 (a !!! i)]> ret) zero256.

(** [operator++]: [while (++pn[i] == 0 && i < WIDTH-1) i++]. *)
Fixpoint op_incr_from (fuel i : nat) (a : base_uint) : base_uint :=
  match fuel with
  | O => a
  | S fuel' =>
      let a' := <[i := u32 (a !!! i + 1)]> a in
      if (a' !!! i =? 0) && (i <? WIDTH - 1)%nat then op_incr_from fuel' (S i) a' else a'
  end.
Definition op_incr (a : base_uint) : base_uint := op_incr_from WIDTH 0 a.

(** [operator--]: [while (--pn[i] == (uint32_t)-1 && i < WIDTH-1) i++]. *)
Fixpoint op_decr_from (fuel i : nat) (a : base_uint) : base_uint :=
  match fuel with
  | O => a
  | S fuel' =>
      let a' := <[i := u32 (a !!! i - 1)]> a in
      if (a' !!! i =? u32 (-1)) && (i <? WIDTH - 1)%nat then op_decr_from fuel' (S i) a' else a'
  end.
Definition op_decr (a : base_uint) : base_uint := op_decr_from WIDTH 0 a.

Definition op_neg (a : base_uint) : base_uint := op_incr (op_compl a).

Definition op_xor_assign (a b : base_uint) : base_uint :=
  for_range 0 WIDTH (fun i pn => <[i := Z.lxor (pn !!! i) (b !!! i)]> pn) a.

Definition op_and_assign (a b : base_uint) : base_uint :=
  for_range 0 WIDTH (fun i pn => <[i := Z.land (pn !!! i) (b !!! i)]> pn) a.

Definition op_or_assign (a b : base_uint) : base_uint :=
  for_range 0 WIDTH (fun i pn => <[i := Z.lor (pn !!! i) (b !!! i)]> pn) a.

Definition op_xor_assign_u64 (a : base_uint) (b : Z) : base_uint :=
  let a := <[0%nat := Z.lxor (a !!! 0%nat) (u32 b)]> a in
  <[1%nat := Z.lxor (a !!! 1%nat) (u32 (Z.shiftr b 32))]> a.

Definition op_or_assign_u64 (a : base_uint) (b : Z) : base_uint :=
  let a := <[0%nat := Z.lor (a !!! 0%nat) (u32 b)]> a in
  <[1%nat := Z.lor (a !!! 1%nat) (u32 (Z.shiftr b 32))]> a.

Definition op_add_assign (a b : base_uint) : base_uint :=
  snd (for_range 0 WIDTH (fun i '(carry, pn) =>
         let n := u64 (carry + pn !!! i + b !!! i) in
         (Z.shiftr n 32, <[i := Z.land n 0xffffffff]> pn)) (0, a)).

Definition op_sub_assign (a b : base_uint) : base_uint := op_add_assign a (op_neg b).

Definition op_add_assign_u64 (a : base_uint) (b64 : Z) : base_uint :=
  op_add_assign a (of_u64 b64).

Definition op_sub_assign_u64 (a : base_uint) (b64 : Z) : base_uint :=
  op_add_assign a (op_neg (of_u64 b64)).

(** ** Operators of the source file *)

(** The body of the loop of [operator<<=]: [k] whole limbs and [shift] bits. *)
Definition op_shl_body (a : base_uint) (k : nat) (shift : Z) (i : nat) (pn : base_uint)
  : base_uint :=
  let pn := if (i + k + 1 <? WIDTH)%nat && negb (shift =? 0)
            then <[(i + k + 1)%nat := Z.lor (pn !!! (i + k + 1)%nat)
                                        (Z.shiftr (a !!! i) (32 - shift))]> pn
            else pn in
  if (i + k <? WIDTH)%nat
  then <[(i + k)%nat := Z.lor (pn !!! (i + k)%nat) (u32 (Z.shiftl (a !!! i) shift))]> pn
  else pn.

Definition op_shl_assign (a : base_uint) (shift : Z) : base_uint :=
  for_range 0 WIDTH (op_shl_body a (Z.to_nat (shift / 32)) (shift mod 32)) zero256.

(** The body of the loop of [operator>>=]; [i - k - 1 >= 0] is written
    [k + 1 <= i], since the indices are signed in C. *)
Definition op_shr_body (a : base_uint) (k : nat) (shift : Z) (i : nat) (pn : base_uint)
  : base_uint :=
  let pn := if (k + 1 <=? i)%nat && negb (shift =? 0)
            then <[(i - k - 1)%nat := Z.lor (pn !!! (i - k - 1)%nat)
                                        (u32 (Z.shiftl (a !!! i) (32 - shift)))]> pn
            else pn in
  if (k <=? i)%nat
  then <[(i - k)%nat := Z.lor (pn !!! (i - k)%nat) (Z.shiftr (a !!! i) shift)]> pn
  else pn.

Definition op_shr_assign (a : base_uint) (shift : Z) : base_uint :=
  for_range 0 WIDTH (op_shr_body a (Z.to_nat (shift / 32)) (shift mod 32)) zero256.

Definition op_mul_assign_u32 (a : base_uint) (b32 : Z) : base_uint :=
  snd (for_range 0 WIDTH (fun i '(carry, pn) =>
         let n := u64 (carry + b32 * pn !!! i) in
         (Z.shiftr n 32, <[i := Z.land n 0xffffffff]> pn)) (0, a)).

(** The inner loop of [operator*=(const base_uint&)] for a fixed [j]. *)
Definition op_mul_row (a b : base_uint) (j : nat) (pn : base_uint) : base_uint :=
  snd (for_range 0 (WIDTH - j) (fun i '(carry, pn) =>
         let n := u64 (carry + pn !!! (i + j)%nat + a !!! j * b !!! i) in
         (Z.shiftr n 32, <[(i + j)%nat := Z.land n 0xffffffff]> pn)) (0, pn)).

Definition op_mul_assign (a b : base_uint) : base_uint :=
  for_range 0 WIDTH (op_mul_row a b) zero256.

(** [CompareTo], from the most significant limb down. *)
Fixpoint CompareTo_from (n : nat) (a b : base_uint) : Z :=
  match n with
  | O => 0
  | S i =>
      if a !!! i <? b !!! i then -1
      else if a !!! i >? b !!! i then 1
      else CompareTo_from i a b
  end.
Definition CompareTo (a b : base_uint) : Z := CompareTo_from WIDTH a b.

Definition EqualTo (a : base_uint) (b : Z) : bool :=
  forallb (fun i => a !!! i =? 0) (reverse (seq 2 (WIDTH - 2)))
  && (a !!! 1%nat =? Z.shiftr b 32) && (a !!! 0%nat =? Z.land b 0xffffffff).

(** The highest set bit of a non-zero limb, plus one. *)
Fixpoint limb_bits (x : Z) (bits : nat) : Z :=
  match bits with
  | O => 1
  | S bits' => if Z.testbit x (Z.of_nat bits) then Z.of_nat bits + 1 else limb_bits x bits'
  end.

Fixpoint bits_from (n : nat) (a : base_uint) : Z :=
  match n with
  | O => 0
  | S pos => if a !!! pos =? 0 then bits_from pos a
             else 32 * Z.of_nat pos + limb_bits (a !!! pos) 31
  end.
Definition bits (a : base_uint) : Z := bits_from WIDTH a.

(** The loop of [operator/=], one iteration per value of [shift] down to 0:
    (quotient, num, div). *)
Fixpoint div_loop (n : nat) (q num div : base_uint) : base_uint * base_uint :=
  match n with
  | O => (q, num)
  | S shift =>
      let '(q, num) :=
        if CompareTo num div >=? 0
        then (<[(shift / 32)%nat := Z.lor (q !!! (shift / 32)%nat)
                                      (u32 (Z.shiftl 1 (Z.land (Z.of_nat shift) 31)))]> q,
              op_sub_assign num div)
        else (q, num) in
      div_loop shift q num (op_shr_assign div 1)
  end.

Inductive uint_error : Set := division_by_zero.

(** [operator/=]: quotient and the remainder left in [num], or the exception. *)
Definition op_div_assign_rem (a b : base_uint) : result uint_error (base_uint * base_uint) :=
  let num_bits := bits a in
  let div_bits := bits b in
  if div_bits =? 0 then Err division_by_zero
  else if div_bits >? num_bits then Ok (zero256, a)
  else
    let shift := num_bits - div_bits in
    Ok (div_loop (Z.to_nat (shift + 1)) zero256 a (op_shl_assign b shift)).

Definition op_div_assign (a b : base_uint) : result uint_error base_uint :=
  '(q, _) ← op_div_assign_rem a b; mret q.

Definition GetLow64 (a : base_uint) : Z := Z.lor (a !!! 0%nat) (u64 (Z.shiftl (a !!! 1%nat) 32)).

(** [(nWord, *this, fNegative, fOverflow)] of [SetCompact]. *)
Definition SetCompact (nCompact : Z) : base_uint * bool * bool :=
  let nSize := Z.shiftr nCompact 24 in
  let nWord := Z.land nCompact 0x007fffff in
  let '(nWord, this) :=
    if nSize <=? 3
    then let nWord := Z.shiftr nWord (8 * (3 - nSize)) in (nWord, of_u64 nWord)
    else (nWord, op_shl_assign (of_u64 nWord) (8 * (nSize - 3))) in
  let fNegative := negb (nWord =? 0) && negb (Z.land nCompact 0x00800000 =? 0) in
  let fOverflow := negb (nWord =? 0) && ((nSize >? 34)
                     || ((nWord >? 0xff) && (nSize >? 33))
                     || ((nWord >? 0xffff) && (nSize >? 32))) in
  (this, fNegative, fOverflow).

(** [None] is an assertion failure. *)
Definition GetCompact (a : base_uint) (fNegative : bool) : option Z :=
  let nSize := (bits a + 7) / 8 in
  let nCompact :=
    if nSize <=? 3 then u32 (u64 (Z.shiftl (GetLow64 a) (8 * (3 - nSize))))
    else u32 (GetLow64 (op_shr_assign a (8 * (nSize - 3)))) in
  let '(nCompact, nSize) :=
    if negb (Z.land nCompact 0x00800000 =? 0)
    then (Z.shiftr nCompact 8, nSize + 1) else (nCompact, nSize) in
  if negb (Z.land nCompact (u32 (Z.lnot 0x007fffff)) =? 0) then None
  else if negb (nSize <? 256) then None
  else
    let nCompact := Z.lor nCompact (u32 (Z.shiftl nSize 24)) in
    Some (Z.lor nCompact (if fNegative && negb (Z.land nCompact 0x007fffff =? 0)
                          then 0x00800000 else 0)).

(** ** The number an array denotes *)

Definition val (l : list Z) : Z := foldr (fun x acc => x + 2 ^ 32 * acc) 0 l.

(** The weight of limb [i]. *)
Definition B (i : nat) : Z := 2 ^ (32 * Z.of_nat i).

Lemma B_S i : B (S i) = 2 ^ 32 * B i.
Proof. unfold B. rewrite <- Z.pow_add_r by lia. f_equal. lia. Qed.

Lemma B_add i j : B (i + j) = B i * B j.
Proof. unfold B. rewrite <- Z.pow_add_r by lia. f_equal. lia. Qed.

Lemma B_pos i : 0 < B i.
Proof. unfold B. lia. Qed.

Lemma B_WIDTH : B WIDTH = 2 ^ 256.
Proof. done. Qed.

#[local] Hint Resolve B_pos : words.
#[local] Opaque Z.pow.

Lemma val_app l1 l2 : val (l1 ++ l2) = val l1 + B (length l1) * val l2.
Proof.
  induction l1 as [|x l1 IH]; simpl.
  - change (B 0) with 1. lia.
  - fold (val (l1 ++ l2)) (val l1). rewrite IH, B_S. lia.
Qed.

Lemma val_take_S l i : (i < length l)%nat ->
  val (take (S i) l) = val (take i l) + l !!! i * B i.
Proof.
  intros Hi. destruct (lookup_lt_is_Some_2 l i Hi) as [x Hx].
  rewrite (take_S_r _ _ _ Hx), val_app, (list_lookup_total_correct _ _ _ Hx).
  rewrite length_take, Nat.min_l by lia. simpl. lia.
Qed.

Lemma val_insert l i x : (i < length l)%nat ->
  val (<[i := x]> l) = val l + (x - l !!! i) * B i.
Proof.
  intros Hi. rewrite insert_take_drop by done.
  rewrite <- (take_drop_middle l i (l !!! i)) at 3 by by apply list_lookup_lookup_total_lt.
  rewrite !val_app. simpl. fold (val (drop (S i) l)).
  rewrite length_take, Nat.min_l by lia. lia.
Qed.

Lemma Forall_lookup_u l i : Forall (is_u 32) l -> is_u 32 (l !!! i).
Proof.
  intros H. destruct (l !! i) as [x|] eqn:E.
  - rewrite (list_lookup_total_correct _ _ _ E). by eapply Forall_lookup_1.
  - rewrite list_lookup_total_alt, E. simpl. unfold is_u. simpl. lia.
Qed.

Lemma val_bound l : Forall (is_u 32) l -> 0 <= val l < B (length l).
Proof.
  induction 1 as [|x l Hx _ IH]; simpl.
  - change (B 0) with 1. lia.
  - fold (val l). rewrite B_S. unfold is_u in Hx. lia.
Qed.

Lemma wf_val_bound a : wf a -> 0 <= val a < 2 ^ 256.
Proof. intros [Hl Ha]. rewrite <- B_WIDTH, <- Hl. by apply val_bound. Qed.

Lemma wf_insert a i x : wf a -> is_u 32 x -> wf (<[i := x]> a).
Proof.
  intros [Hl Ha] Hx. split; [by rewrite length_insert|]. by apply Forall_insert.
Qed.

Lemma wf_lookup a i : wf a -> is_u 32 (a !!! i).
Proof. intros [_ Ha]. by apply Forall_lookup_u. Qed.

Lemma wf_zero : wf zero256.
Proof. split; [done|]. by apply Forall_replicate. Qed.

Lemma val_zero n : val (replicate n 0) = 0.
Proof. induction n as [|n IH]; simpl; [done|]. fold (val (replicate n 0)). lia. Qed.

Lemma val_take_mod l i : Forall (is_u 32) l -> (i <= length l)%nat ->
  val (take i l) = val l mod B i.
Proof.
  intros Hl Hi. rewrite <- (take_drop i l) at 2. rewrite val_app.
  rewrite length_take, Nat.min_l, Z.mul_comm, Z.mod_add by (pose proof (B_pos i); lia).
  symmetry. apply Z.mod_small.
  pose proof (val_bound (take i l) (Forall_take _ _ _ Hl)) as Hb.
  rewrite length_take, Nat.min_l in Hb by lia. done.
Qed.

Lemma val_inj l1 l2 : Forall (is_u 32) l1 -> Forall (is_u 32) l2 ->
  length l1 = length l2 -> val l1 = val l2 -> l1 = l2.
Proof.
  intros H1. revert l2. induction H1 as [|x l1 Hx H1 IH]; intros [|y l2] H2 Hlen Hv;
    try discriminate; [done|].
  apply Forall_cons in H2 as [Hy H2]. simpl in *. fold (val l1) (val l2) in Hv.
  unfold is_u in *. assert (val l1 = val l2 /\ x = y) as [? ->] by lia.
  f_equal. apply IH; [done|lia|done].
Qed.

Lemma wf_take_all (a : base_uint) : wf a -> take WIDTH a = a.
Proof. intros [Hl _]. rewrite <- Hl. apply take_ge. done. Qed.

(** Splitting a double-word [n] the way the loops do: low limb and carry. *)
Lemma limb_split n : 0 <= n -> Z.land n 0xffffffff + 2 ^ 32 * Z.shiftr n 32 = n.
Proof.
  intros. change 0xffffffff with (2 ^ 32 - 1). rewrite land_mask, shiftr_div by lia.
  pose proof (Z.div_mod n (2 ^ 32) ltac:(lia)). lia.
Qed.

Lemma limb_low n : is_u 32 (Z.land n 0xffffffff).
Proof.
  change 0xffffffff with (2 ^ 32 - 1). rewrite land_mask by lia.
  apply uwrap_range. lia.
Qed.

Lemma limb_carry n k : 0 <= n < 2 ^ 32 * k -> 0 <= Z.shiftr n 32 < k.
Proof.
  intros. rewrite shiftr_div by lia. split; [apply Z.div_pos; lia|].
  apply Z.div_lt_upper_bound; lia.
Qed.

(** ** Pointwise loops *)

(** A loop that overwrites each limb from its old value is a map over indices. *)
Lemma pointwise_loop (f : nat -> Z -> Z) (l : base_uint) n :
  length l = n ->
  for_range 0 n (fun i r => <[i := f i (r !!! i)]> r) l = imap f l.
Proof.
  intros Hn.
  pose (P := fun (i : nat) (r : base_uint) =>
    length r = n /\ forall j, r !! j = (if decide (j < i)%nat then f j <$> l !! j else l !! j)).
  assert (P (0 + n)%nat (for_range 0 n (fun i r => <[i := f i (r !!! i)]> r) l)) as [Hl Hj].
  { apply for_range_ind.
    - split; [done|]. intros j. case_decide; [lia|done].
    - intros i r Hi [Hl Hj]. split; [by rewrite length_insert|]. intros j.
      destruct (decide (i = j)) as [<-|Hne].
      + rewrite list_lookup_insert_eq by lia. case_decide; [|lia].
        destruct (lookup_lt_is_Some_2 l i) as [x Hx]; [lia|]. rewrite Hx. simpl.
        rewrite (list_lookup_total_correct r i x); [done|].
        rewrite Hj. case_decide; [lia|done].
      + rewrite list_lookup_insert_ne by done. rewrite Hj.
        repeat case_decide; done || lia. }
  apply list_eq. intros j. rewrite Hj, list_lookup_imap. simpl.
  case_decide; [done|]. rewrite lookup_ge_None_2 by lia. done.
Qed.

Lemma op_compl_map a : wf a -> op_compl a = map not32 a.
Proof.
  intros [Hl _]. unfold op_compl.
  rewrite (pointwise_loop (fun i _ => not32 (a !!! i))) by done.
  apply list_eq. intros i. rewrite list_lookup_imap, list_lookup_fmap.
  destruct (decide (i < WIDTH)%nat).
  - unfold zero256. rewrite lookup_replicate_2 by done. simpl.
    by rewrite list_lookup_lookup_total_lt by lia.
  - rewrite !lookup_ge_None_2 by (unfold zero256; rewrite ?length_replicate; lia). done.
Qed.

Lemma not32_spec x : is_u 32 x -> not32 x = 2 ^ 32 - 1 - x.
Proof.
  unfold not32, is_u, uwrap, Z.lnot. intros.
  rewrite <- (Z.mod_add _ 1) by lia. rewrite Z.mod_small; lia.
Qed.

Lemma val_map_not32 l : Forall (is_u 32) l -> val (map not32 l) = B (length l) - 1 - val l.
Proof.
  induction 1 as [|x l Hx _ IH]; simpl; [done|].
  fold (val (map not32 l)) (val l). rewrite IH, B_S, not32_spec by done. lia.
Qed.

Lemma op_compl_spec a : wf a -> wf (op_compl a) /\ val (op_compl a) = 2 ^ 256 - 1 - val a.
Proof.
  intros Ha. rewrite op_compl_map by done. destruct Ha as [Hl Ha]. split.
  - split; [by rewrite length_map|]. apply Forall_fmap, Forall_forall. intros x _.
    apply uwrap_range. lia.
  - rewrite val_map_not32, Hl by done. done.
Qed.

(** ** Increment, decrement, negation *)

(** A limb overwritten in place, as a congruence modulo [2^256]. *)
Lemma val_insert_wf a i x : wf a -> (i < WIDTH)%nat ->
  val (<[i := x]> a) = val a + (x - a !!! i) * B i.
Proof. intros [Hl _] Hi. apply val_insert. lia. Qed.

Lemma wf_val_mod a : wf a -> val a mod 2 ^ 256 = val a.
Proof. intros. apply Z.mod_small. by apply wf_val_bound. Qed.

Lemma op_incr_from_spec fuel i a : wf a -> (0 < fuel)%nat -> (i + fuel = WIDTH)%nat ->
  wf (op_incr_from fuel i a) /\ val (op_incr_from fuel i a) = (val a + B i) mod 2 ^ 256.
Proof.
  revert i a. induction fuel as [|fuel IH]; intros i a Ha Hf Hi; [lia|]. cbn [op_incr_from op_decr_from]. cbv zeta.
  set (a' := <[i := u32 (a !!! i + 1)]> a).
  assert (wf a') as Ha' by (apply wf_insert, uwrap_range; done || lia).
  assert (a' !!! i = u32 (a !!! i + 1)) as E.
  { apply list_lookup_total_insert_eq. destruct Ha as [-> _]. lia. }
  assert (val a' = val a + (u32 (a !!! i + 1) - a !!! i) * B i) as Hv.
  { apply val_insert_wf; [done|lia]. }
  pose proof (wf_lookup a i Ha) as Hx. unfold is_u in Hx.
  destruct (decide (a !!! i = 2 ^ 32 - 1)) as [Hm|Hm].
  - assert (u32 (a !!! i + 1) = 0) as Hz by (rewrite Hm; done).
    rewrite E, Hz, Z.eqb_refl. rewrite Hz, Hm in Hv. cbn [andb].
    destruct (Nat.ltb_spec i (WIDTH - 1)).
    + destruct (IH (S i) a' Ha') as [? ->]; [lia|lia|]. split; [done|].
      rewrite Hv, B_S. f_equal. lia.
    + split; [done|]. assert (i = 7%nat) as -> by (unfold WIDTH in *; lia).
      rewrite <- (wf_val_mod a') by done. rewrite Hv.
      replace (val a + (0 - (2 ^ 32 - 1)) * B 7) with (val a + B 7 + (-1) * 2 ^ 256)
        by (change (2 ^ 256) with (2 ^ 32 * B 7); lia).
      rewrite Z.mod_add by lia. done.
  - assert (u32 (a !!! i + 1) = a !!! i + 1) as Hz by (apply uwrap_small; unfold is_u; lia).
    rewrite E, Hz. replace (a !!! i + 1 =? 0) with false by lia. cbn [andb].
    split; [done|]. rewrite Hz in Hv. rewrite <- (wf_val_mod a') by done.
    rewrite Hv. f_equal. lia.
Qed.

Lemma op_incr_spec a : wf a -> wf (op_incr a) /\ val (op_incr a) = (val a + 1) mod 2 ^ 256.
Proof. intros. apply op_incr_from_spec; unfold WIDTH; done || lia. Qed.

Lemma op_decr_from_spec fuel i a : wf a -> (0 < fuel)%nat -> (i + fuel = WIDTH)%nat ->
  wf (op_decr_from fuel i a) /\ val (op_decr_from fuel i a) = (val a - B i) mod 2 ^ 256.
Proof.
  revert i a. induction fuel as [|fuel IH]; intros i a Ha Hf Hi; [lia|]. cbn [op_incr_from op_decr_from]. cbv zeta.
  set (a' := <[i := u32 (a !!! i - 1)]> a).
  assert (wf a') as Ha' by (apply wf_insert, uwrap_range; done || lia).
  assert (a' !!! i = u32 (a !!! i - 1)) as E.
  { apply list_lookup_total_insert_eq. destruct Ha as [-> _]. lia. }
  assert (val a' = val a + (u32 (a !!! i - 1) - a !!! i) * B i) as Hv.
  { apply val_insert_wf; [done|lia]. }
  pose proof (wf_lookup a i Ha) as Hx. unfold is_u in Hx.
  change (u32 (-1)) with (2 ^ 32 - 1).
  destruct (decide (a !!! i = 0)) as [Hm|Hm].
  - assert (u32 (a !!! i - 1) = 2 ^ 32 - 1) as Hz by (rewrite Hm; done).
    rewrite E, Hz, Z.eqb_refl. rewrite Hz, Hm in Hv. cbn [andb].
    destruct (Nat.ltb_spec i (WIDTH - 1)).
    + destruct (IH (S i) a' Ha') as [? ->]; [lia|lia|]. split; [done|].
      rewrite Hv, B_S. f_equal. lia.
    + split; [done|]. assert (i = 7%nat) as -> by (unfold WIDTH in *; lia).
      rewrite <- (wf_val_mod a') by done. rewrite Hv.
      replace (val a + (2 ^ 32 - 1 - 0) * B 7) with (val a - B 7 + 1 * 2 ^ 256)
        by (change (2 ^ 256) with (2 ^ 32 * B 7); lia).
      rewrite Z.mod_add by lia. done.
  - assert (u32 (a !!! i - 1) = a !!! i - 1) as Hz by (apply uwrap_small; unfold is_u; lia).
    rewrite E, Hz. replace (a !!! i - 1 =? 2 ^ 32 - 1) with false by lia. cbn [andb].
    split; [done|]. rewrite Hz in Hv. rewrite <- (wf_val_mod a') by done.
    rewrite Hv. f_equal. lia.
Qed.

Lemma op_decr_spec a : wf a -> wf (op_decr a) /\ val (op_decr a) = (val a - 1) mod 2 ^ 256.
Proof. intros. apply op_decr_from_spec; unfold WIDTH; done || lia. Qed.

Lemma op_neg_spec a : wf a -> wf (op_neg a) /\ val (op_neg a) = (- val a) mod 2 ^ 256.
Proof.
  intros Ha. destruct (op_compl_spec a Ha) as [Hw Hv].
  destruct (op_incr_spec _ Hw) as [? Hi]. split; [done|].
  unfold op_neg. rewrite Hi, Hv.
  replace (2 ^ 256 - 1 - val a + 1) with (- val a + 1 * 2 ^ 256) by lia.
  apply Z.mod_add. lia.
Qed.

(** ** Addition and subtraction *)

(** What a carry loop leaves: the final carry has weight [2^256] and is lost. *)
Lemma drop_carry a c n : wf a -> val a + c * 2 ^ 256 = n -> val a = n mod 2 ^ 256.
Proof. intros Ha <-. rewrite Z.mod_add by lia. symmetry. by apply wf_val_mod. Qed.

(** The invariant of a carry loop: limbs below [i] are final, limbs from [i] on
    are still those of [a], and [pn] with the pending carry is the sum so far. *)
Lemma op_add_assign_spec a b : wf a -> wf b ->
  wf (op_add_assign a b) /\ val (op_add_assign a b) = (val a + val b) mod 2 ^ 256.
Proof.
  intros Ha Hb. unfold op_add_assign.
  pose (P := fun (i : nat) (s : Z * base_uint) =>
    wf (snd s) /\ 0 <= fst s < 2 /\
    val (snd s) + fst s * B i = val a + val (take i b) /\
    forall j, (i <= j)%nat -> snd s !!! j = a !!! j).
  match goal with |- context [for_range 0 WIDTH ?f (0, a)] =>
    assert (P (0 + WIDTH)%nat (for_range 0 WIDTH f (0, a))) as HP end.
  { apply for_range_ind.
    - repeat split; simpl; try apply Ha; lia.
    - intros i [c pn] Hi (Hpn & Hc & Hv & Hj). unfold P in *. simpl in *.
      pose proof (wf_lookup pn i Hpn) as H1. pose proof (wf_lookup b i Hb) as H2.
      unfold is_u in H1, H2.
      assert (u64 (c + pn !!! i + b !!! i) = c + pn !!! i + b !!! i) as ->
        by (apply uwrap_small; unfold is_u; lia).
      set (n := c + pn !!! i + b !!! i).
      pose proof (limb_split n ltac:(lia)) as Hs.
      pose proof (limb_carry n 2 ltac:(lia)). repeat split.
      + rewrite length_insert. apply Hpn.
      + apply Forall_insert; [apply Hpn|apply limb_low].
      + lia.
      + lia.
      + rewrite val_insert_wf by (done || lia). rewrite val_take_S by (destruct Hb as [-> _]; lia).
        rewrite B_S. unfold n in *. nia.
      + intros j Hji. rewrite list_lookup_total_insert_ne by lia. apply Hj. lia. }
  destruct HP as (Hw & Hc & Hv & _). simpl Nat.add in Hv. split; [done|].
  rewrite wf_take_all in Hv by done. exact (drop_carry _ _ _ Hw Hv).
Qed.

Lemma op_sub_assign_spec a b : wf a -> wf b ->
  wf (op_sub_assign a b) /\ val (op_sub_assign a b) = (val a - val b) mod 2 ^ 256.
Proof.
  intros Ha Hb. destruct (op_neg_spec b Hb) as [Hn Hv].
  destruct (op_add_assign_spec a (op_neg b) Ha Hn) as [? Hs]. split; [done|].
  unfold op_sub_assign. rewrite Hs, Hv, Zplus_mod_idemp_r. f_equal.
Qed.

(** ** Multiplication *)

(** One step of a multiply-accumulate loop cannot overflow 64 bits. *)
Lemma mac_bound c p x y : 0 <= c < 2 ^ 32 -> is_u 32 p -> is_u 32 x -> is_u 32 y ->
  0 <= c + p + x * y < 2 ^ 32 * 2 ^ 32.
Proof. unfold is_u. intros. nia. Qed.

Lemma op_mul_assign_u32_spec a b32 : wf a -> is_u 32 b32 ->
  wf (op_mul_assign_u32 a b32) /\ val (op_mul_assign_u32 a b32) = (val a * b32) mod 2 ^ 256.
Proof.
  intros Ha Hb. unfold op_mul_assign_u32.
  pose (P := fun (i : nat) (s : Z * base_uint) =>
    wf (snd s) /\ 0 <= fst s < 2 ^ 32 /\
    val (snd s) + fst s * B i = val a + (b32 - 1) * val (take i a) /\
    forall j, (i <= j)%nat -> snd s !!! j = a !!! j).
  match goal with |- context [for_range 0 WIDTH ?f (0, a)] =>
    assert (P (0 + WIDTH)%nat (for_range 0 WIDTH f (0, a))) as HP end.
  { apply for_range_ind.
    - repeat split; simpl; try apply Ha; lia.
    - intros i [c pn] Hi (Hpn & Hc & Hv & Hj). unfold P in *. simpl in *.
      pose proof (wf_lookup pn i Hpn) as H1.
      pose proof (mac_bound c 0 b32 (pn !!! i) Hc ltac:(unfold is_u; lia) Hb H1) as Hn.
      rewrite Z.add_0_r in Hn. rewrite uwrap_small by (unfold is_u; lia).
      set (n := c + b32 * pn !!! i) in *.
      pose proof (limb_split n ltac:(lia)) as Hs.
      pose proof (limb_carry n (2 ^ 32) ltac:(lia)). repeat split; try lia.
      + rewrite length_insert. apply Hpn.
      + apply Forall_insert; [apply Hpn|apply limb_low].
      + rewrite val_insert_wf by (done || lia).
        rewrite val_take_S by (destruct Ha as [-> _]; lia).
        rewrite B_S. rewrite <- (Hj i) by lia. unfold n in *. nia.
      + intros j Hji. rewrite list_lookup_total_insert_ne by lia. apply Hj. lia. }
  destruct HP as (Hw & Hc & Hv & _). simpl Nat.add in Hv. split; [done|].
  rewrite wf_take_all in Hv by done.
  replace (val a * b32) with (val a + (b32 - 1) * val a) by lia.
  exact (drop_carry _ _ _ Hw Hv).
Qed.

Lemma op_mul_row_spec a b j pn : wf a -> wf b -> wf pn -> (j < WIDTH)%nat ->
  wf (op_mul_row a b j pn) /\
  val (op_mul_row a b j pn) = (val pn + a !!! j * B j * val b) mod 2 ^ 256.
Proof.
  intros Ha Hb Hpn0 Hj. unfold op_mul_row.
  pose (P := fun (i : nat) (s : Z * base_uint) =>
    wf (snd s) /\ 0 <= fst s < 2 ^ 32 /\
    val (snd s) + fst s * B (i + j) = val pn + a !!! j * B j * val (take i b)).
  match goal with |- context [for_range 0 _ ?f (0, pn)] =>
    assert (P (0 + (WIDTH - j))%nat (for_range 0 (WIDTH - j) f (0, pn))) as HP end.
  { apply for_range_ind.
    - repeat split; simpl; try apply Hpn0; lia.
    - intros i [c p] Hi (Hp & Hc & Hv). unfold P in *. simpl in *.
      pose proof (mac_bound c (p !!! (i + j)%nat) (a !!! j) (b !!! i) Hc
                    (wf_lookup _ _ Hp) (wf_lookup _ _ Ha) (wf_lookup _ _ Hb)) as Hn.
      rewrite uwrap_small by (unfold is_u; lia).
      set (n := c + p !!! (i + j)%nat + a !!! j * b !!! i) in *.
      pose proof (limb_split n ltac:(lia)) as Hs.
      pose proof (limb_carry n (2 ^ 32) ltac:(lia)). repeat split; try lia.
      + rewrite length_insert. apply Hp.
      + apply Forall_insert; [apply Hp|apply limb_low].
      + rewrite val_insert_wf by (done || lia).
        rewrite val_take_S by (destruct Hb as [-> _]; lia).
        rewrite B_S. rewrite B_add in Hv |- *. unfold n in *. nia. }
  destruct HP as (Hw & Hc & Hv). simpl Nat.add in Hv. split; [done|].
  replace (WIDTH - j + j)%nat with WIDTH in Hv by lia. rewrite B_WIDTH in Hv.
  rewrite (drop_carry _ _ _ Hw Hv).
  rewrite <- (take_drop (WIDTH - j) b) at 2. rewrite val_app.
  assert (length (take (WIDTH - j) b) = (WIDTH - j)%nat) as ->
    by (rewrite length_take; destruct Hb as [-> _]; lia).
  replace (val pn + a !!! j * B j * (val (take (WIDTH - j) b)
             + B (WIDTH - j) * val (drop (WIDTH - j) b)))
    with (val pn + a !!! j * B j * val (take (WIDTH - j) b)
          + a !!! j * val (drop (WIDTH - j) b) * (B j * B (WIDTH - j))) by lia.
  rewrite <- B_add. replace (j + (WIDTH - j))%nat with WIDTH by lia.
  rewrite B_WIDTH, Z.mod_add by lia. done.
Qed.

Lemma op_mul_assign_spec a b : wf a -> wf b ->
  wf (op_mul_assign a b) /\ val (op_mul_assign a b) = (val a * val b) mod 2 ^ 256.
Proof.
  intros Ha Hb. unfold op_mul_assign.
  pose (P := fun (j : nat) (pn : base_uint) =>
    wf pn /\ val pn = (val (take j a) * val b) mod 2 ^ 256).
  assert (P (0 + WIDTH)%nat (for_range 0 WIDTH (op_mul_row a b) zero256)) as [Hw Hv].
  { apply for_range_ind.
    - split; [apply wf_zero|]. done.
    - intros j pn Hj [Hp Hv]. destruct (op_mul_row_spec a b j pn) as [? Hr]; [done..|lia|].
      split; [done|]. rewrite Hr, Hv, Zplus_mod_idemp_l.
      rewrite val_take_S by (destruct Ha as [-> _]; lia). f_equal. lia. }
  split; [done|]. simpl Nat.add in Hv. by rewrite wf_take_all in Hv.
Qed.

(** ** Shifts *)

Lemma pow_split_32 (s : Z) : 0 <= s ->
  2 ^ s = B (Z.to_nat (s / 32)) * 2 ^ (s mod 32).
Proof.
  intros. unfold B. rewrite <- Z.pow_add_r by (pose proof (Z.mod_pos_bound s 32); lia).
  f_equal. rewrite Z2Nat.id by (apply Z.div_pos; lia). apply Z.div_mod. lia.
Qed.

(** A limb shifted left within a double word: high part and low part. *)
Lemma limb_shl x s : is_u 32 x -> 0 <= s < 32 ->
  Z.shiftr x (32 - s) * 2 ^ 32 + u32 (Z.shiftl x s) = x * 2 ^ s
  /\ is_u s (Z.shiftr x (32 - s))
  /\ exists t, u32 (Z.shiftl x s) = t * 2 ^ s.
Proof.
  unfold is_u. intros Hx Hs. rewrite shiftr_div, shiftl_mul by lia. unfold uwrap.
  assert (2 ^ 32 = 2 ^ (32 - s) * 2 ^ s) as E by (rewrite <- Z.pow_add_r by lia; f_equal; lia).
  assert ((x * 2 ^ s) mod 2 ^ 32 = x mod 2 ^ (32 - s) * 2 ^ s) as ->.
  { rewrite E. apply Z.mul_mod_distr_r; lia. }
  pose proof (Z.div_mod x (2 ^ (32 - s)) ltac:(lia)) as Hd.
  pose proof (Z.mod_pos_bound x (2 ^ (32 - s)) ltac:(lia)). repeat split.
  - rewrite E. rewrite Hd at 3. lia.
  - apply Z.div_pos; lia.
  - apply Z.div_lt_upper_bound; lia.
  - eauto.
Qed.

Lemma wf_length a : wf a -> length a = WIDTH.
Proof. by intros []. Qed.

(** Or-ing [y] into limb [i], where the two have no bit in common. *)
Lemma or_limb pn i y : wf pn -> (i < WIDTH)%nat -> is_u 32 y ->
  Z.lor (pn !!! i) y = pn !!! i + y ->
  let pn' := <[i := Z.lor (pn !!! i) y]> pn in
  wf pn' /\ val pn' = val pn + y * B i /\ pn' !!! i = pn !!! i + y
  /\ forall j, j <> i -> pn' !!! j = pn !!! j.
Proof.
  intros Hp Hi Hy E. simpl. rewrite E. repeat split.
  - rewrite length_insert. apply Hp.
  - apply Forall_insert; [apply Hp|]. rewrite <- E. apply lor_bound; [lia| |done].
    by apply wf_lookup.
  - rewrite val_insert_wf by done. lia.
  - apply list_lookup_total_insert_eq. rewrite wf_length by done. lia.
  - intros j Hj. by apply list_lookup_total_insert_ne.
Qed.

Lemma lor_0_add y : Z.lor 0 y = 0 + y.
Proof. rewrite Z.lor_0_l. lia. Qed.

Definition shl_inv (a : base_uint) (k : nat) (s : Z) (i : nat) (pn : base_uint) : Prop :=
  wf pn /\ (forall j, (i + k < j < WIDTH)%nat -> pn !!! j = 0) /\
  ((i + k < WIDTH)%nat -> 0 <= pn !!! (i + k)%nat < 2 ^ s) /\
  exists q, val pn + q * 2 ^ 256 = val (take i a) * (B k * 2 ^ s).

Lemma op_shl_body_inv a k s i pn : wf a -> 0 <= s < 32 -> (i < WIDTH)%nat ->
  shl_inv a k s i pn -> shl_inv a k s (S i) (op_shl_body a k s i pn).
Proof.
  intros Ha Hs Hi (Hp & Hj & Hlow & q & Hv). unfold op_shl_body.
  destruct (limb_shl (a !!! i) s (wf_lookup _ _ Ha) Hs) as (Hx & Hhi & t & Hlo).
  set (hi := Z.shiftr _ _) in *. set (lo := u32 _) in *.
  assert (is_u 32 lo) as Hlou by (apply uwrap_range; lia).
  assert (is_u 32 hi) as Hhiu.
  { unfold is_u in *. pose proof (Z.pow_le_mono_r 2 s 32). lia. }
  pose proof (val_take_S a i ltac:(rewrite wf_length by done; lia)) as Ht.
  assert ((i + k < WIDTH)%nat -> Z.lor (pn !!! (i + k)%nat) lo = pn !!! (i + k)%nat + lo) as Hor.
  { intros Hik. specialize (Hlow Hik). rewrite Hlo, lor_disjoint_add' by lia. lia. }
  destruct (Nat.ltb_spec (i + k + 1) WIDTH) as [H1|H1]; cbn [andb].
  - assert (exists pn1, wf pn1 /\ val pn1 = val pn + hi * B (i + k + 1) /\
              pn1 !!! (i + k + 1)%nat = hi /\
              (forall j, j <> (i + k + 1)%nat -> pn1 !!! j = pn !!! j) /\
              (if negb (s =? 0) then <[(i + k + 1)%nat := Z.lor (pn !!! (i + k + 1)%nat) hi]> pn
               else pn) = pn1) as (pn1 & Hw1 & Hv1 & Hh1 & Ho1 & ->).
    { destruct (Z.eqb_spec s 0) as [->|]; cbn [negb].
      - assert (hi = 0) as -> by (unfold is_u in Hhi; lia). exists pn.
        rewrite Hj by lia. repeat split; try apply Hp; lia.
      - destruct (or_limb pn (i + k + 1) hi) as (Hw & Hvw & E & Ho);
          [done|lia|done|rewrite Hj by lia; apply lor_0_add|].
        rewrite (Hj (i + k + 1)%nat) in E at 2 by lia.
        exact (ex_intro _ _ (conj Hw (conj Hvw (conj E (conj Ho eq_refl))))). }
    replace (i + k <? WIDTH)%nat with true by (symmetry; apply Nat.ltb_lt; lia).
    destruct (or_limb pn1 (i + k) lo) as (Hw2 & Hv2 & _ & Ho2);
      [done|lia|done|rewrite Ho1 by lia; apply Hor; lia|].
    split; [done|]. split; [|split].
    + intros j Hjk. rewrite Ho2, Ho1 by lia. apply Hj. lia.
    + intros _. replace (S i + k)%nat with (i + k + 1)%nat by lia. rewrite Ho2, Hh1 by lia. apply Hhi.
    + exists q. rewrite Hv2, Hv1, Ht. replace (i + k + 1)%nat with (S (i + k)) by lia.
      rewrite B_S, B_add. nia.
  - destruct (Nat.ltb_spec (i + k) WIDTH) as [H2|H2].
    + destruct (or_limb pn (i + k) lo) as (Hw2 & Hv2 & _ & Ho2); [done|lia|done|by apply Hor|].
      split; [done|]. split; [|split].
      * intros j Hjk. rewrite Ho2 by lia. apply Hj. lia.
      * lia.
      * exists (q + hi). rewrite Hv2, Ht. rewrite <- B_WIDTH in *.
        assert (WIDTH = S (i + k)) as E by lia. rewrite E in *. rewrite B_S, B_add in *. nia.
    + split; [done|]. split; [|split].
      * intros j Hjk. apply Hj. lia.
      * lia.
      * exists (q + a !!! i * 2 ^ s * B (i + k - WIDTH)). rewrite Ht.
        assert (B i * B k = B (i + k - WIDTH) * 2 ^ 256) as E.
        { rewrite <- B_WIDTH, <- !B_add. f_equal. lia. } nia.
Qed.

Lemma op_shl_assign_spec a shift : wf a -> 0 <= shift ->
  wf (op_shl_assign a shift) /\ val (op_shl_assign a shift) = (val a * 2 ^ shift) mod 2 ^ 256.
Proof.
  intros Ha Hs. unfold op_shl_assign.
  set (k := Z.to_nat (shift / 32)). set (s := shift mod 32).
  assert (0 <= s < 32) by (apply Z.mod_pos_bound; lia).
  assert (shl_inv a k s (0 + WIDTH) (for_range 0 WIDTH (op_shl_body a k s) zero256))
    as (Hw & _ & _ & q & Hv).
  { apply for_range_ind.
    - split; [apply wf_zero|]. unfold zero256. split; [|split].
      + intros j Hj. apply lookup_total_replicate_2. lia.
      + intros Hk. rewrite lookup_total_replicate_2 by done. lia.
      + exists 0. done.
    - intros i pn Hi. apply op_shl_body_inv; done || lia. }
  split; [done|]. simpl Nat.add in Hv. rewrite wf_take_all in Hv by done.
  rewrite (drop_carry _ _ _ Hw Hv), (pow_split_32 shift) by done. done.
Qed.

Definition shr_inv (a : base_uint) (k : nat) (s : Z) (i : nat) (pn : base_uint) : Prop :=
  wf pn /\ (forall j, (i <= j + k)%nat -> (j < WIDTH)%nat -> pn !!! j = 0) /\
  ((k + 1 <= i)%nat -> 0 <= pn !!! (i - k - 1)%nat < 2 ^ (32 - s)) /\
  val pn = val (take i a) / (B k * 2 ^ s).

(** The quotient gains exactly the shifted limb when a limb above the cut is added. *)
Lemma div_step V x i k s : 0 <= s < 32 -> (k + 1 <= i)%nat ->
  (V + x * B i) / (B k * 2 ^ s) = V / (B k * 2 ^ s) + x * 2 ^ (32 - s) * B (i - k - 1).
Proof.
  intros Hs Hk.
  assert (x * B i = x * 2 ^ (32 - s) * B (i - k - 1) * (B k * 2 ^ s)) as ->.
  { replace i with (S (i - k - 1) + k)%nat at 1 by lia. rewrite B_add, B_S.
    replace (2 ^ 32) with (2 ^ (32 - s) * 2 ^ s); [lia|].
    rewrite <- Z.pow_add_r by lia. f_equal. lia. }
  apply Z.div_add. pose proof (B_pos k). nia.
Qed.

Lemma shiftr_limb_bound x s : is_u 32 x -> 0 <= s < 32 -> 0 <= Z.shiftr x s < 2 ^ (32 - s).
Proof.
  unfold is_u. intros. rewrite shiftr_div by lia. split; [apply Z.div_pos; lia|].
  apply Z.div_lt_upper_bound; [lia|]. rewrite <- Z.pow_add_r by lia.
  replace (s + (32 - s)) with 32 by lia. lia.
Qed.

Lemma op_shr_body_inv a k s i pn : wf a -> 0 <= s < 32 -> (i < WIDTH)%nat ->
  shr_inv a k s i pn -> shr_inv a k s (S i) (op_shr_body a k s i pn).
Proof.
  intros Ha Hs Hi (Hp & Hj & Hlow & Hv). unfold op_shr_body.
  pose proof (wf_lookup a i Ha) as Hx.
  pose proof (val_take_S a i ltac:(rewrite wf_length by done; lia)) as Ht.
  pose proof (shiftr_limb_bound _ _ Hx Hs) as Hr.
  assert (is_u 32 (Z.shiftr (a !!! i) s)) as Hru.
  { unfold is_u. pose proof (Z.pow_le_mono_r 2 (32 - s) 32). lia. }
  destruct (Nat.leb_spec (k + 1) i) as [H1|H1]; cbn [andb].
  - assert (exists pn1, wf pn1 /\
              val pn1 + Z.shiftr (a !!! i) s * B (i - k)
                = val pn + a !!! i * 2 ^ (32 - s) * B (i - k - 1) /\
              (forall j, j <> (i - k - 1)%nat -> pn1 !!! j = pn !!! j) /\
              (if negb (s =? 0) then <[(i - k - 1)%nat := Z.lor (pn !!! (i - k - 1)%nat)
                 (u32 (Z.shiftl (a !!! i) (32 - s)))]> pn else pn) = pn1)
      as (pn1 & Hw1 & Hv1 & Ho1 & ->).
    { assert (B (i - k) = 2 ^ 32 * B (i - k - 1)) as ->
        by (rewrite <- B_S; f_equal; lia).
      destruct (Z.eqb_spec s 0) as [->|]; cbn [negb].
      - exists pn. rewrite Z.shiftr_0_r. repeat split; try apply Hp; lia.
      - destruct (limb_shl (a !!! i) (32 - s) Hx ltac:(lia)) as (Hsp & _ & t & Hlo).
        replace (32 - (32 - s)) with s in Hsp by lia.
        destruct (or_limb pn (i - k - 1) (u32 (Z.shiftl (a !!! i) (32 - s))))
          as (Hw & Hvw & _ & Ho); [done|lia|apply uwrap_range; lia| |].
        { rewrite Hlo, lor_disjoint_add' by (specialize (Hlow H1); lia). lia. }
        refine (ex_intro _ _ (conj Hw (conj _ (conj Ho eq_refl)))). rewrite Hvw. nia. }
    replace (k <=? i)%nat with true by (symmetry; apply Nat.leb_le; lia).
    destruct (or_limb pn1 (i - k) (Z.shiftr (a !!! i) s)) as (Hw2 & Hv2 & E2 & Ho2);
      [done|lia|done|rewrite Ho1, Hj by lia; apply lor_0_add|].
    split; [done|]. split; [|split].
    + intros j Hjk Hjw. rewrite Ho2, Ho1 by lia. apply Hj; lia.
    + intros _. replace (S i - k - 1)%nat with (i - k)%nat by lia.
      rewrite E2, Ho1, Hj by lia. lia.
    + rewrite Hv2, Hv1, Ht, Hv. symmetry. by apply div_step.
  - destruct (Nat.leb_spec k i) as [H2|H2].
    + assert (i = k) as -> by lia. replace (k - k)%nat with 0%nat by lia.
      destruct (or_limb pn 0 (Z.shiftr (a !!! k) s)) as (Hw2 & Hv2 & E2 & Ho2);
        [done|unfold WIDTH; lia|done|rewrite Hj by (unfold WIDTH in *; lia); apply lor_0_add|].
      pose proof (val_bound (take k a) (Forall_take _ _ _ (proj2 Ha))) as Hb.
      rewrite length_take, wf_length, Nat.min_l in Hb by (done || lia).
      split; [done|]. split; [|split].
      * intros j Hjk Hjw. rewrite Ho2 by lia. apply Hj; lia.
      * intros _. replace (S k - k - 1)%nat with 0%nat by lia.
        rewrite E2, Hj by (unfold WIDTH in *; lia). lia.
      * rewrite Hv2, Ht, Hv. change (B 0) with 1. rewrite Z.mul_1_r.
        pose proof (B_pos k). rewrite Z.div_small by nia.
        rewrite <- Z.div_div, Z.div_add, (Z.div_small (val (take k a))), shiftr_div by lia. done.
    + split; [done|]. split; [|split].
      * intros j Hjk Hjw. apply Hj; lia.
      * lia.
      * rewrite Hv. pose proof (val_bound (take (S i) a) (Forall_take _ _ _ (proj2 Ha))) as Hb.
        pose proof (val_bound (take i a) (Forall_take _ _ _ (proj2 Ha))) as Hb'.
        rewrite length_take, wf_length, Nat.min_l in Hb, Hb' by (done || lia).
        assert (B (S i) <= B k) by (unfold B; apply Z.pow_le_mono_r; lia).
        assert (B i <= B (S i)) by (unfold B; apply Z.pow_le_mono_r; lia).
        rewrite !Z.div_small; [done|split; [lia|nia]..].
Qed.

Lemma op_shr_assign_spec a shift : wf a -> 0 <= shift ->
  wf (op_shr_assign a shift) /\ val (op_shr_assign a shift) = val a / 2 ^ shift.
Proof.
  intros Ha Hs. unfold op_shr_assign.
  set (k := Z.to_nat (shift / 32)). set (s := shift mod 32).
  assert (0 <= s < 32) by (apply Z.mod_pos_bound; lia).
  assert (shr_inv a k s (0 + WIDTH) (for_range 0 WIDTH (op_shr_body a k s) zero256))
    as (Hw & _ & _ & Hv).
  { apply for_range_ind.
    - split; [apply wf_zero|]. split; [|split].
      + intros j _ Hj. by apply lookup_total_replicate_2.
      + lia.
      + rewrite take_0. unfold zero256. rewrite val_zero. simpl. pose proof (B_pos k).
        rewrite Z.div_0_l; nia.
    - intros i pn Hi. apply op_shr_body_inv; done || lia. }
  split; [done|]. simpl Nat.add in Hv. rewrite wf_take_all in Hv by done.
  rewrite Hv, (pow_split_32 shift) by done. done.
Qed.

(** ** Comparison *)

Lemma CompareTo_from_spec n a b : wf a -> wf b -> (n <= WIDTH)%nat ->
  CompareTo_from n a b =
    match val (take n a) ?= val (take n b) with Lt => -1 | Eq => 0 | Gt => 1 end.
Proof.
  intros Ha Hb. induction n as [|n IH]; intros Hn; [done|].
  cbn [CompareTo_from]. rewrite !val_take_S by (rewrite wf_length by done; lia).
  pose proof (val_bound (take n a) (Forall_take _ _ _ (proj2 Ha))) as H1.
  pose proof (val_bound (take n b) (Forall_take _ _ _ (proj2 Hb))) as H2.
  rewrite length_take, wf_length, Nat.min_l in H1, H2 by (done || lia).
  repeat case_bool.
  - replace (_ ?= _) with Lt; [done|]. symmetry. apply Z.compare_lt_iff. nia.
  - replace (_ ?= _) with Gt; [done|]. symmetry. apply Z.compare_gt_iff. nia.
  - rewrite IH by lia. assert (a !!! n = b !!! n) as -> by lia.
    rewrite !(Z.add_comm _ (b !!! n * B n)), Z.add_compare_mono_l. done.
Qed.

Lemma CompareTo_spec a b : wf a -> wf b ->
  CompareTo a b = match val a ?= val b with Lt => -1 | Eq => 0 | Gt => 1 end.
Proof.
  intros Ha Hb. unfold CompareTo. rewrite CompareTo_from_spec by done.
  by rewrite !wf_take_all.
Qed.

Lemma CompareTo_ge a b : wf a -> wf b -> (CompareTo a b >=? 0) = (val b <=? val a).
Proof.
  intros Ha Hb. rewrite CompareTo_spec by done.
  destruct (Z.compare_spec (val a) (val b)); symmetry;
    rewrite ?Z.leb_le, ?Z.leb_gt; lia.
Qed.

(** ** Bit length *)

(** The bit length of a number: position of the highest set bit plus one. *)
Definition bitlen (v : Z) : Z := if v =? 0 then 0 else Z.log2 v + 1.

Lemma bitlen_bounds v : 0 <= v -> v < 2 ^ bitlen v /\ (v <> 0 -> 2 ^ (bitlen v - 1) <= v)
  /\ 0 <= bitlen v.
Proof.
  intros. unfold bitlen. case_bool; [lia|].
  pose proof (Z.log2_spec v ltac:(lia)). pose proof (Z.log2_nonneg v).
  rewrite Z.add_simpl_r. lia.
Qed.

Lemma bitlen_unique v n : 0 < n -> 2 ^ (n - 1) <= v < 2 ^ n -> bitlen v = n.
Proof.
  intros Hn Hv. unfold bitlen. assert (0 < 2 ^ (n - 1)) by lia. case_bool; [lia|].
  rewrite (Z.log2_unique v (n - 1)); [lia|lia|]. replace (Z.succ (n - 1)) with n by lia. lia.
Qed.

Lemma bitlen_le v n : 0 <= n -> 0 <= v < 2 ^ n -> bitlen v <= n.
Proof.
  intros Hn Hv. unfold bitlen. case_bool; [lia|].
  apply Zlt_le_succ, Z.log2_lt_pow2; lia.
Qed.

Lemma limb_bits_spec x n : 0 < x < 2 ^ (Z.of_nat n + 1) -> limb_bits x n = Z.log2 x + 1.
Proof.
  induction n as [|n IH]; intros Hx.
  - change (2 ^ (Z.of_nat 0 + 1)) with 2 in Hx. assert (x = 1) as -> by lia. done.
  - cbn [limb_bits]. rewrite Z.testbit_odd, Z.shiftr_div_pow2 by lia.
    pose proof (Z.div_mod x (2 ^ Z.of_nat (S n)) ltac:(lia)) as Hd.
    pose proof (Z.mod_pos_bound x (2 ^ Z.of_nat (S n)) ltac:(lia)).
    assert (2 ^ (Z.of_nat (S n) + 1) = 2 * 2 ^ Z.of_nat (S n)) as E
      by (rewrite <- Z.pow_succ_r by lia; f_equal; lia).
    assert (x / 2 ^ Z.of_nat (S n) < 2) by (apply Z.div_lt_upper_bound; lia).
    assert (0 <= x / 2 ^ Z.of_nat (S n)) by (apply Z.div_pos; lia).
    destruct (decide (x / 2 ^ Z.of_nat (S n) = 0)) as [Hz|Hz].
    + rewrite Hz in *. simpl. apply IH. replace (Z.of_nat n + 1) with (Z.of_nat (S n)) by lia. lia.
    + assert (x / 2 ^ Z.of_nat (S n) = 1) as Ho by lia. rewrite Ho in *. simpl Z.odd.
      cbv iota. f_equal. symmetry. apply Z.log2_unique; [lia|].
      replace (Z.succ (Z.of_nat (S n))) with (Z.of_nat (S n) + 1) by lia. lia.
Qed.

Lemma bits_from_spec n a : wf a -> (n <= WIDTH)%nat -> bits_from n a = bitlen (val (take n a)).
Proof.
  intros Ha. induction n as [|n IH]; intros Hn; [done|]. cbn [bits_from].
  rewrite val_take_S by (rewrite wf_length by done; lia).
  pose proof (val_bound (take n a) (Forall_take _ _ _ (proj2 Ha))) as Hb.
  rewrite length_take, wf_length, Nat.min_l in Hb by (done || lia).
  pose proof (wf_lookup a n Ha) as Hx. unfold is_u in Hx.
  case_bool; [rewrite IH by lia; f_equal; lia|].
  rewrite limb_bits_spec by (change (Z.of_nat 31 + 1) with 32; lia).
  assert (0 < a !!! n) as Hpos by lia. pose proof (Z.log2_spec _ Hpos) as Hl. pose proof (Z.log2_nonneg (a !!! n)).
  symmetry. apply bitlen_unique; [lia|].
  replace (32 * Z.of_nat n + (Z.log2 (a !!! n) + 1) - 1) with (Z.log2 (a !!! n) + 32 * Z.of_nat n)
    by lia.
  replace (32 * Z.of_nat n + (Z.log2 (a !!! n) + 1))
    with (Z.succ (Z.log2 (a !!! n)) + 32 * Z.of_nat n) by lia.
  rewrite !Z.pow_add_r by lia. fold (B n). pose proof (B_pos n). nia.
Qed.

Lemma bits_spec a : wf a -> bits a = bitlen (val a).
Proof. intros. unfold bits. rewrite bits_from_spec, wf_take_all; done. Qed.

(** ** Division *)

Lemma val_lookup a i : wf a -> (i < WIDTH)%nat -> a !!! i = (val a / B i) mod 2 ^ 32.
Proof.
  intros Ha Hi. pose proof (wf_length a Ha) as Hl.
  rewrite <- (take_drop_middle a i (a !!! i)) at 2 by (apply list_lookup_lookup_total_lt; lia).
  rewrite val_app, length_take, Nat.min_l by lia.
  pose proof (val_bound (take i a) (Forall_take _ _ _ (proj2 Ha))) as Hb.
  rewrite length_take, Nat.min_l in Hb by lia. pose proof (B_pos i).
  rewrite (Z.mul_comm (B i)), Z.div_add, Z.div_small by lia. cbn [val foldr].
  rewrite Z.add_0_l, (Z.mul_comm (2 ^ 32)), Z.mod_add by lia.
  symmetry. apply Z.mod_small, wf_lookup. done.
Qed.

Lemma lor_pow2 x r : 0 <= r -> Z.testbit x r = false -> Z.lor x (2 ^ r) = x + 2 ^ r.
Proof.
  intros Hr Hx. rewrite <- Z.add_lor_land.
  assert (Z.land x (2 ^ r) = 0) as ->; [|lia].
  apply Z.bits_inj'. intros i Hi. rewrite Z.land_spec, Z.bits_0, Z.pow2_bits_eqb by done.
  destruct (Z.eqb_spec r i) as [<-|]; [by rewrite Hx|]. apply andb_false_r.
Qed.

(** Setting bit [n] of a quotient that has no bit at or below [n]. *)
Lemma set_bit q n : wf q -> (n < 256)%nat -> val q mod 2 ^ Z.of_nat (S n) = 0 ->
  let i := (n / 32)%nat in
  let q' := <[i := Z.lor (q !!! i) (u32 (Z.shiftl 1 (Z.land (Z.of_nat n) 31)))]> q in
  wf q' /\ val q' = val q + 2 ^ Z.of_nat n.
Proof.
  intros Hq Hn Hz i q'. set (r := Z.of_nat n mod 32).
  assert (0 <= r < 32) by (apply Z.mod_pos_bound; lia).
  assert (Z.of_nat n = 32 * Z.of_nat i + r) as En.
  { unfold i, r. rewrite Nat2Z.inj_div. apply Z.div_mod. done. }
  assert (i < WIDTH)%nat as Hi by (unfold WIDTH; lia).
  assert (u32 (Z.shiftl 1 (Z.land (Z.of_nat n) 31)) = 2 ^ r) as Es.
  { change 31 with (2 ^ 5 - 1). rewrite land_mask by lia. change (2 ^ 5) with 32. fold r.
    rewrite shiftl_mul, Z.mul_1_l by lia. apply uwrap_small. split; [lia|]. apply Z.pow_lt_mono_r; lia. }
  assert (Z.testbit (q !!! i) r = false) as Hb.
  { rewrite val_lookup, Z.mod_pow2_bits_low by (done || lia).
    unfold B. rewrite Z.div_pow2_bits by lia. replace (r + 32 * Z.of_nat i) with (Z.of_nat n) by lia.
    rewrite <- (Z.mod_pow2_bits_low _ (Z.of_nat (S n))) by lia. by rewrite Hz, Z.bits_0. }
  unfold q'. rewrite Es. destruct (or_limb q i (2 ^ r)) as (? & Hv & _); [done|done| |by apply lor_pow2; [lia|]|].
  { split; [lia|]. apply Z.pow_lt_mono_r; lia. }
  split; [done|]. rewrite Hv, En. unfold B. rewrite Z.pow_add_r by lia. lia.
Qed.

Definition div_inv (A D : Z) (n : nat) (q num div : base_uint) : Prop :=
  wf q /\ wf num /\ wf div /\ A = val q * D + val num /\ val q mod 2 ^ Z.of_nat n = 0
  /\ val num < D * 2 ^ Z.of_nat n
  /\ (n <> 0%nat -> val div = D * 2 ^ (Z.of_nat n - 1)).

Lemma pow_of_nat_S n : 2 ^ Z.of_nat (S n) = 2 * 2 ^ Z.of_nat n.
Proof. rewrite <- Z.pow_succ_r by lia. f_equal. lia. Qed.

(** [x] stays a multiple of [2^n] when it was one of [2^(n+1)], and gains [2^n]. *)
Lemma mod_pow2_weaken x n : x mod 2 ^ Z.of_nat (S n) = 0 ->
  x mod 2 ^ Z.of_nat n = 0 /\ (x + 2 ^ Z.of_nat n) mod 2 ^ Z.of_nat n = 0.
Proof.
  intros Hx. apply Z.mod_divide in Hx as [k ->]; [|lia]. rewrite pow_of_nat_S.
  split; apply Z.mod_divide; try lia; [exists (k * 2)|exists (k * 2 + 1)]; lia.
Qed.

Lemma div_loop_spec A D n q num div : 0 < D -> (n <= 256)%nat ->
  div_inv A D n q num div ->
  let '(q', num') := div_loop n q num div in
  wf q' /\ wf num' /\ val q' = A / D /\ val num' = A mod D.
Proof.
  intros HD. revert q num div. induction n as [|n IH]; intros q num div Hn
    (Hq & Hnum & Hdiv & HA & Hmod & Hlt & Hd).
  - simpl. pose proof (wf_val_bound num Hnum). change (2 ^ Z.of_nat 0) with 1 in Hlt.
    split; [done|]. split; [done|]. split.
    + apply Z.div_unique with (val num); lia.
    + apply Z.mod_unique with (val q); lia.
  - cbn [div_loop]. rewrite CompareTo_ge by done.
    rewrite Hd by lia. replace (Z.of_nat (S n) - 1) with (Z.of_nat n) by lia.
    destruct (op_shr_assign_spec div 1 Hdiv ltac:(lia)) as [Hws Hvs].
    destruct (mod_pow2_weaken _ _ Hmod) as [Hm0 Hm1]. rewrite pow_of_nat_S in Hlt.
    assert (n <> 0%nat -> val (op_shr_assign div 1) = D * 2 ^ (Z.of_nat n - 1)) as Hd'.
    { intros Hn0. rewrite Hvs, Hd by lia. replace (Z.of_nat (S n) - 1) with (1 + (Z.of_nat n - 1)) by lia.
      rewrite Z.pow_add_r by lia. change (2 ^ 1) with 2.
      replace (D * (2 * 2 ^ (Z.of_nat n - 1))) with (D * 2 ^ (Z.of_nat n - 1) * 2) by lia.
      by rewrite Z.div_mul. }
    case_bool.
    + destruct (set_bit q n Hq ltac:(lia) Hmod) as [Hwq Hvq].
      destruct (op_sub_assign_spec num div Hnum Hdiv) as [Hwn Hvn].
      rewrite Hd in Hvn by lia. replace (Z.of_nat (S n) - 1) with (Z.of_nat n) in Hvn by lia.
      pose proof (wf_val_bound num Hnum). rewrite Z.mod_small in Hvn by nia.
      apply IH; [lia|]. unfold div_inv. rewrite Hvq, Hvn.
      repeat (split; [first [done|lia]|]). done.
    + apply IH; [lia|]. unfold div_inv. repeat (split; [first [done|lia]|]). done.
Qed.

(** Quotient and remainder of [operator/=]. *)
Lemma op_div_assign_rem_spec a b : wf a -> wf b -> val b <> 0 ->
  exists q r, op_div_assign_rem a b = Ok (q, r) /\ wf q /\ wf r
    /\ val q = val a / val b /\ val r = val a mod val b.
Proof.
  intros Ha Hb Hnz. unfold op_div_assign_rem. rewrite !bits_spec by done.
  pose proof (wf_val_bound a Ha) as Hra. pose proof (wf_val_bound b Hb) as Hrb.
  destruct (bitlen_bounds (val a)) as (Ha1 & Ha2 & Ha3); [lia|].
  destruct (bitlen_bounds (val b)) as (Hb1 & Hb2 & Hb3); [lia|].
  specialize (Hb2 Hnz). pose proof (bitlen_le (val a) 256 ltac:(lia) ltac:(lia)).
  assert (0 < bitlen (val b)) as Hpos.
  { unfold bitlen. case_bool; [done|]. pose proof (Z.log2_nonneg (val b)). lia. }
  replace (bitlen (val b) =? 0) with false by lia.
  case_bool.
  - exists zero256, a. split; [done|]. split; [apply wf_zero|]. split; [done|].
    assert (val a < val b).
    { pose proof (Z.pow_le_mono_r 2 (bitlen (val a)) (bitlen (val b) - 1)). lia. }
    unfold zero256. rewrite val_zero. split; [by rewrite Z.div_small by lia|by rewrite Z.mod_small by lia].
  - set (sh := bitlen (val a) - bitlen (val b)). assert (0 <= sh) by lia.
    destruct (op_shl_assign_spec b sh Hb ltac:(lia)) as [Hws Hvs].
    assert (2 ^ bitlen (val a) = 2 ^ bitlen (val b) * 2 ^ sh) as Ep.
    { rewrite <- Z.pow_add_r by lia. f_equal. lia. }
    assert (2 ^ bitlen (val b) = 2 * 2 ^ (bitlen (val b) - 1)) as Eb.
    { rewrite <- Z.pow_succ_r by lia. f_equal. lia. }
    pose proof (Z.pow_le_mono_r 2 (bitlen (val a)) 256 ltac:(lia) ltac:(lia)).
    rewrite Z.mod_small in Hvs by nia.
    pose proof (div_loop_spec (val a) (val b) (Z.to_nat (sh + 1)) zero256 a (op_shl_assign b sh)
      ltac:(lia) ltac:(lia)) as HL.
    destruct (div_loop _ _ _ _) as [q r]. exists q, r. split; [done|]. apply HL.
    unfold div_inv, zero256. rewrite val_zero, Z2Nat.id, Z.mod_0_l, Hvs by lia.
    rewrite (Z.pow_add_r 2 sh 1), Z.add_simpl_r by lia. change (2 ^ 1) with 2.
    repeat (split; [first [apply wf_zero|done|nia]|]). done.
Qed.

Lemma op_div_assign_zero a b : wf b -> val b = 0 -> op_div_assign a b = Err division_by_zero.
Proof.
  intros Hb Hz. unfold op_div_assign, op_div_assign_rem.
  rewrite (bits_spec b) by done. rewrite Hz. done.
Qed.

(** ** The compact format *)

Lemma of_u64_spec b : is_u 64 b -> wf (of_u64 b) /\ val (of_u64 b) = b.
Proof.
  intros Hb. unfold of_u64. split.
  - split; [done|]. repeat (constructor; [by apply uwrap_range|]).
    apply Forall_replicate. done.
  - cbn [val foldr]. fold (val (replicate (WIDTH - 2) 0)). rewrite val_zero.
    unfold uwrap, is_u in *. rewrite shiftr_div by lia.
    rewrite (Z.mod_small (b / 2 ^ 32)).
    + pose proof (Z.div_mod b (2 ^ 32) ltac:(lia)). lia.
    + split; [apply Z.div_pos; lia|]. apply Z.div_lt_upper_bound; lia.
Qed.

Lemma GetLow64_spec a : wf a -> GetLow64 a = val a mod 2 ^ 64.
Proof.
  intros Ha. unfold GetLow64. pose proof (wf_lookup a 0 Ha) as H0.
  pose proof (wf_lookup a 1 Ha) as H1. unfold is_u in *.
  rewrite shiftl_mul, uwrap_small, lor_disjoint_add' by (unfold is_u; lia).
  change (2 ^ 64) with (B 2). pose proof (wf_length a Ha) as Hl.
  rewrite <- val_take_mod by (apply Ha || (rewrite Hl; unfold WIDTH; lia)).
  rewrite !val_take_S by (rewrite Hl; unfold WIDTH; lia). rewrite take_0.
  change (B 1) with (2 ^ 32). change (B 0) with 1. simpl. lia.
Qed.

(** The fields of a compact number: exponent, sign bit, mantissa. *)
Definition compact_fields (c : Z) : Z * bool * Z := (c / 2 ^ 24, Z.testbit c 23, c mod 2 ^ 23).

(** The number the fields stand for, without truncation to 256 bits. *)
Definition compact_value (nSize nWord : Z) : Z :=
  if nSize <=? 3 then nWord / 2 ^ (8 * (3 - nSize)) else nWord * 2 ^ (8 * (nSize - 3)).

Lemma SetCompact_val c : is_u 32 c ->
  let '(nSize, sign, nWord) := compact_fields c in
  exists a fNegative fOverflow, SetCompact c = (a, fNegative, fOverflow) /\ wf a
    /\ val a = compact_value nSize nWord mod 2 ^ 256
    /\ (fNegative = true <-> sign = true /\ compact_value nSize nWord <> 0)
    /\ (fOverflow = true <-> 2 ^ 256 <= compact_value nSize nWord).
Proof.
  intros Hc. unfold compact_fields, SetCompact, compact_value.
  change 0x7fffff with (2 ^ 23 - 1). change 0x800000 with (2 ^ 23).
  rewrite shiftr_div, land_mask, land_pow2 by lia.
  assert (0 <= c / 2 ^ 24) as Hs by (apply Z.div_pos; unfold is_u in Hc; lia).
  pose proof (Z.mod_pos_bound c (2 ^ 23) ltac:(lia)) as Hw.
  set (s := c / 2 ^ 24) in *. set (w := c mod 2 ^ 23) in *.
  replace (negb ((if Z.testbit c 23 then 2 ^ 23 else 0) =? 0)) with (Z.testbit c 23)
    by (destruct (Z.testbit c 23); done).
  case_bool.
  - rewrite shiftr_div by lia. set (n := w / 2 ^ (8 * (3 - s))).
    assert (0 <= n < 2 ^ 23) as Hn.
    { split; [apply Z.div_pos; lia|]. apply Z.div_lt_upper_bound; nia. }
    destruct (of_u64_spec n) as [Hwf Hv]; [unfold is_u; lia|].
    do 3 eexists. split; [done|]. split; [done|]. rewrite Hv, Z.mod_small by lia.
    repeat split; try lia; repeat case_bool; simpl; intuition (try lia; try congruence).
  - destruct (of_u64_spec w) as [Hwf Hv]; [unfold is_u; lia|].
    destruct (op_shl_assign_spec (of_u64 w) (8 * (s - 3)) Hwf ltac:(lia)) as [Hwf' Hv'].
    do 3 eexists. split; [done|]. split; [done|]. rewrite Hv', Hv.
    assert (0 < 2 ^ (8 * (s - 3))) by lia. split; [done|]. split.
    { case_bool; simpl; intuition (try lia; try congruence). }
    case_bool; [simpl; split; [done|nia]|]. cbn [negb andb].
    assert (s <= 32 \/ s = 33 \/ s = 34 \/ 35 <= s) as [H1|[->|[->|H1]]] by lia.
    + replace (s >? 34) with false by lia. replace (s >? 33) with false by lia.
      replace (s >? 32) with false by lia. rewrite !andb_false_r. simpl.
      pose proof (Z.pow_le_mono_r 2 (8 * (s - 3)) 232 ltac:(lia) ltac:(lia)).
      split; [done|]. change (2 ^ 256) with (2 ^ 24 * 2 ^ 232). nia.
    + change (2 ^ 256) with (2 ^ 16 * 2 ^ (8 * (33 - 3))). simpl. rewrite andb_false_r, andb_true_r.
      simpl. rewrite <- Z.mul_le_mono_pos_r by lia. case_bool; split; lia || done.
    + change (2 ^ 256) with (2 ^ 8 * 2 ^ (8 * (34 - 3))). simpl. rewrite !andb_true_r.
      rewrite <- Z.mul_le_mono_pos_r by lia. repeat case_bool; simpl; split; lia || done.
    + replace (s >? 34) with true by lia. simpl. split; [|done]. intros _.
      pose proof (Z.pow_le_mono_r 2 256 (8 * (s - 3)) ltac:(lia) ltac:(lia)). nia.
Qed.

(** The exponent and the 24-bit window [GetCompact] starts from, and the result
    after the window's top bit, which would be the sign, is shifted out. *)
Definition compact_size (v : Z) : Z := (bitlen v + 7) / 8.
Definition compact_window (v : Z) : Z :=
  let s := compact_size v in
  if s <=? 3 then v * 2 ^ (8 * (3 - s)) else v / 2 ^ (8 * (s - 3)).
Definition compact_norm (v : Z) : Z * Z :=
  let m := compact_window v in
  if 2 ^ 23 <=? m then (compact_size v + 1, m / 2 ^ 8) else (compact_size v, m).

Lemma compact_size_bounds v : 0 <= v < 2 ^ 256 ->
  0 <= compact_size v <= 32 /\ v < 2 ^ (8 * compact_size v)
  /\ (v <> 0 -> 2 ^ (8 * (compact_size v - 1)) <= v /\ 1 <= compact_size v).
Proof.
  intros Hv. destruct (bitlen_bounds v) as (H1 & H2 & H3); [lia|].
  pose proof (bitlen_le v 256 ltac:(lia) Hv). unfold compact_size.
  set (b := bitlen v) in *. pose proof (Z.div_mod (b + 7) 8 ltac:(lia)).
  pose proof (Z.mod_pos_bound (b + 7) 8 ltac:(lia)). split; [lia|]. split.
  - pose proof (Z.pow_le_mono_r 2 b (8 * ((b + 7) / 8))). lia.
  - intros Hnz. specialize (H2 Hnz).
    assert (b <> 0). { intros E. rewrite E in H1. change (2 ^ 0) with 1 in H1. lia. }
    split; [|lia]. pose proof (Z.pow_le_mono_r 2 (8 * ((b + 7) / 8 - 1)) (b - 1)). lia.
Qed.

Lemma compact_window_bounds v : 0 <= v < 2 ^ 256 ->
  0 <= compact_window v < 2 ^ 24 /\ (v <> 0 -> 2 ^ 16 <= compact_window v).
Proof.
  intros Hv. destruct (compact_size_bounds v Hv) as (Hs & Hlt & Hge). unfold compact_window.
  set (s := compact_size v) in *. case_bool.
  - assert (2 ^ 24 = 2 ^ (8 * s) * 2 ^ (8 * (3 - s))) as E24
      by (rewrite <- Z.pow_add_r by lia; f_equal; lia).
    split; [nia|]. intros Hnz. destruct (Hge Hnz) as [Hge' Hs1].
    assert (2 ^ 16 = 2 ^ (8 * (s - 1)) * 2 ^ (8 * (3 - s))) as ->
      by (rewrite <- Z.pow_add_r by lia; f_equal; lia). nia.
  - split; [split; [apply Z.div_pos; lia|]|].
    + apply Z.div_lt_upper_bound; [lia|]. rewrite <- Z.pow_add_r by lia.
      replace (8 * (s - 3) + 24) with (8 * s) by lia. done.
    + intros Hnz. destruct (Hge Hnz) as [Hge' _]. apply Z.div_le_lower_bound; [lia|].
      rewrite <- Z.pow_add_r by lia. replace (8 * (s - 3) + 16) with (8 * (s - 1)) by lia. done.
Qed.

Lemma compact_norm_bounds v : 0 <= v < 2 ^ 256 ->
  let '(s, m) := compact_norm v in
  0 <= s <= 33 /\ 0 <= m < 2 ^ 23 /\ (v <> 0 -> 2 ^ 15 <= m).
Proof.
  intros Hv. destruct (compact_window_bounds v Hv) as [Hw Hnz].
  destruct (compact_size_bounds v Hv) as (Hs & _). unfold compact_norm. case_bool.
  - split; [lia|]. split; [split; [apply Z.div_pos; lia|apply Z.div_lt_upper_bound; lia]|].
    intros _. apply Z.div_le_lower_bound; lia.
  - split; [lia|]. split; [lia|]. intros H0. specialize (Hnz H0). lia.
Qed.

(** [GetCompact] reads the value only, and its assertions never fail. *)
Lemma GetCompact_val a : wf a ->
  let '(s, m) := compact_norm (val a) in
  forall fNegative, GetCompact a fNegative =
    Some (Z.lor (s * 2 ^ 24 + m) (if fNegative && negb (m =? 0) then 2 ^ 23 else 0)).
Proof.
  intros Ha. pose proof (wf_val_bound a Ha) as Hv.
  pose proof (compact_norm_bounds _ Hv) as Hb.
  destruct (compact_window_bounds _ Hv) as [Hw _].
  destruct (compact_size_bounds _ Hv) as (Hs & Hlt & _).
  assert ((if compact_size (val a) <=? 3
           then u32 (u64 (Z.shiftl (GetLow64 a) (8 * (3 - compact_size (val a)))))
           else u32 (GetLow64 (op_shr_assign a (8 * (compact_size (val a) - 3)))))
          = compact_window (val a)) as E.
  { unfold compact_window in *. set (s := compact_size (val a)) in *. revert Hw. case_bool; intros Hw.
    - pose proof (Z.pow_le_mono_r 2 (8 * s) 24 ltac:(lia) ltac:(lia)).
      rewrite GetLow64_spec, Z.mod_small, shiftl_mul by (done || lia).
      rewrite (uwrap_small 64), uwrap_small by (unfold is_u; lia). done.
    - destruct (op_shr_assign_spec a (8 * (s - 3)) Ha ltac:(lia)) as [Hwf Hvs].
      rewrite GetLow64_spec, Hvs, Z.mod_small by (done || lia).
      apply uwrap_small. unfold is_u. lia. }
  unfold GetCompact. rewrite bits_spec by done. fold (compact_size (val a)). rewrite E.
  clear E. unfold compact_norm in *. set (m := compact_window (val a)) in *.
  set (s := compact_size (val a)) in *. cbv zeta in *.
  change 0x800000 with (2 ^ 23). rewrite land_pow2, (testbit_top m 23) by lia.
  assert (forall m' s', 0 <= s' <= 33 -> 0 <= m' < 2 ^ 23 -> forall fNegative : bool,
    (if negb (Z.land m' (u32 (Z.lnot 0x7fffff)) =? 0) then None
     else if negb (s' <? 256) then None
     else Some (Z.lor (Z.lor m' (u32 (Z.shiftl s' 24)))
            (if fNegative && negb (Z.land (Z.lor m' (u32 (Z.shiftl s' 24))) 0x7fffff =? 0)
             then 2 ^ 23 else 0)))
    = Some (Z.lor (s' * 2 ^ 24 + m') (if fNegative && negb (m' =? 0) then 2 ^ 23 else 0))) as Hfin.
  { intros m' s' Hs' Hm' neg.
    assert (Z.land m' (u32 (Z.lnot 0x7fffff)) = 0) as ->.
    { change (u32 (Z.lnot 0x7fffff)) with (511 * 2 ^ 23). apply Z.bits_inj'. intros i Hi.
      rewrite Z.land_spec, Z.bits_0. destruct (decide (i < 23)).
      - rewrite Z.mul_pow2_bits_low by done. apply andb_false_r.
      - rewrite <- (Z.mod_small m' (2 ^ 23)) by lia. by rewrite Z.mod_pow2_bits_high by lia. }
    replace (s' <? 256) with true by lia. cbn [negb Z.eqb].
    rewrite shiftl_mul, uwrap_small by (unfold is_u; lia).
    rewrite (lor_disjoint_add' s' m' 24) by lia. change 0x7fffff with (2 ^ 23 - 1). rewrite land_mask by lia.
    replace (s' * 2 ^ 24 + m') with (m' + s' * 2 * 2 ^ 23) at 2 by (change (2 ^ 24) with (2 * 2 ^ 23); lia).
    rewrite Z.mod_add, Z.mod_small by lia. done. }
  revert Hb. case_bool; intros Hb; cbn [negb].
  - destruct Hb as (? & ? & _). replace (2 ^ 23 =? 0) with false by lia. rewrite shiftr_div by lia. intros neg. by apply Hfin.
  - destruct Hb as (? & ? & _). intros neg. by apply Hfin.
Qed.

(** The unit of the last place of an encoding with exponent [s]. *)
Definition compact_ulp (s : Z) : Z := 2 ^ (8 * Z.max 0 (s - 3)).

Lemma compact_value_norm v : 0 <= v < 2 ^ 256 ->
  let '(s, m) := compact_norm v in compact_value s m = v / compact_ulp s * compact_ulp s.
Proof.
  intros Hv. destruct (compact_size_bounds v Hv) as (Hs & _).
  unfold compact_norm, compact_window, compact_value, compact_ulp.
  set (k := compact_size v) in *. destruct (Z.leb_spec k 3) as [Hk|Hk]; cbv zeta.
  - case_bool; case_bool.
    + rewrite Z.max_l by lia. change (2 ^ (8 * 0)) with 1. rewrite Z.div_1_r, Z.mul_1_r.
      replace (8 * (3 - k)) with (8 * (3 - (k + 1)) + 8) by lia.
      rewrite Z.pow_add_r, Z.mul_assoc, !Z.div_mul by lia. done.
    + assert (k = 3) as -> by lia. change (8 * (3 - 3)) with 0. change (2 ^ 0) with 1.
      rewrite Z.mul_1_r. done.
    + rewrite Z.max_l by lia. change (2 ^ (8 * 0)) with 1. rewrite Z.div_1_r, Z.mul_1_r.
      by rewrite Z.div_mul by lia.
    + lia.
  - case_bool; case_bool; try lia.
    + rewrite Z.max_r by lia. replace (8 * (k + 1 - 3)) with (8 * (k - 3) + 8) by lia.
      rewrite Z.pow_add_r, Z.div_div by lia. done.
    + rewrite Z.max_r by lia. done.
Qed.

Lemma compact_size_unique v k : 1 <= k -> 2 ^ (8 * (k - 1)) <= v < 2 ^ (8 * k) ->
  compact_size v = k.
Proof.
  intros Hk Hv. assert (0 < 2 ^ (8 * (k - 1))) by lia.
  destruct (bitlen_bounds v) as (H1 & H2 & H3); [lia|]. specialize (H2 ltac:(lia)).
  unfold compact_size. set (b := bitlen v) in *.
  assert (8 * (k - 1) < b).
  { apply (Z.pow_lt_mono_r_iff 2); lia. }
  assert (b - 1 < 8 * k). { apply (Z.pow_lt_mono_r_iff 2); lia. }
  symmetry. apply Z.div_unique with (b + 7 - 8 * k); lia.
Qed.

(** Encoding the truncated number again gives the same encoding. *)
Lemma compact_norm_idem v : 0 <= v < 2 ^ 256 ->
  let '(s, m) := compact_norm v in compact_norm (compact_value s m) = (s, m).
Proof.
  intros Hv. pose proof (compact_value_norm v Hv) as HE.
  destruct (decide (v = 0)) as [->|Hnz]; [done|].
  destruct (compact_size_bounds v Hv) as (Hs & Hlt & Hge). destruct (Hge Hnz) as [Hge' Hk1].
  destruct (compact_norm v) as [s m] eqn:En. rewrite HE.
  assert (s <= compact_size v + 1 /\ 0 <= s) as [Hsk Hs0].
  { unfold compact_norm in En. case_bool; injection En as <- <-; lia. }
  set (k := compact_size v) in *. set (P := compact_ulp s) in *.
  assert (0 < P) by (unfold P, compact_ulp; lia).
  assert (v / P * P <= v < v / P * P + P) as Hfl.
  { pose proof (Z.div_mod v P ltac:(lia)). pose proof (Z.mod_pos_bound v P ltac:(lia)). lia. }
  assert (2 ^ (8 * (k - 1)) <= v / P * P) as Hlow.
  { destruct (decide (s <= 3)).
    - assert (P = 1) as -> by (unfold P, compact_ulp; rewrite Z.max_l by lia; done).
      rewrite Z.div_1_r. lia.
    - assert (2 ^ (8 * (k - 1)) = 2 ^ (8 * (k - 1 - (s - 3))) * P) as E.
      { unfold P, compact_ulp. rewrite Z.max_r, <- Z.pow_add_r by lia. f_equal. lia. }
      rewrite E in Hge' |- *. apply Z.mul_le_mono_nonneg_r; [lia|].
      apply Z.div_le_lower_bound; lia. }
  assert (compact_size (v / P * P) = k) as Ek by (apply compact_size_unique; lia).
  unfold compact_norm in *. unfold compact_window in *. rewrite Ek. fold k in En.
  unfold P, compact_ulp in *. clear P.
  destruct (Z.leb_spec k 3) as [Hk|Hk]; cbv zeta in *.
  - destruct (Z.leb_spec (2 ^ 23) (v * 2 ^ (8 * (3 - k)))); injection En as <- <-.
    + destruct (decide (k = 3)) as [E3|].
      * rewrite E3 in *. change (2 ^ (8 * (3 - 3))) with 1 in *. rewrite !Z.mul_1_r in *.
        change (2 ^ (8 * Z.max 0 (3 + 1 - 3))) with (2 ^ 8) in *.
        assert (2 ^ 15 <= v / 2 ^ 8) by (apply Z.div_le_lower_bound; lia).
        replace (2 ^ 23 <=? v / 2 ^ 8 * 2 ^ 8) with true by lia. by rewrite Z.div_mul by lia.
      * rewrite Z.max_l by lia. change (2 ^ (8 * 0)) with 1. rewrite Z.div_1_r, Z.mul_1_r.
        case_bool; [done|lia].
    + rewrite Z.max_l by lia. change (2 ^ (8 * 0)) with 1. rewrite Z.div_1_r, Z.mul_1_r.
      case_bool; [lia|done].
  - set (Q := 2 ^ (8 * (k - 3))) in *. assert (0 < Q) by (unfold Q; lia).
    destruct (Z.leb_spec (2 ^ 23) (v / Q)) as [Ht|Ht]; injection En as <- <-.
    + rewrite Z.max_r by lia.
      replace (2 ^ (8 * (k + 1 - 3))) with (2 ^ 8 * Q)
        by (unfold Q; rewrite <- Z.pow_add_r by lia; f_equal; lia).
      rewrite Z.mul_assoc, Z.div_mul by lia. rewrite (Z.mul_comm (2 ^ 8) Q), <- Z.div_div by lia.
      assert (2 ^ 15 <= v / Q / 2 ^ 8) by (apply Z.div_le_lower_bound; lia).
      replace (2 ^ 23 <=? v / Q / 2 ^ 8 * 2 ^ 8) with true by lia. by rewrite Z.div_mul by lia.
    + rewrite Z.max_r by lia. fold Q. rewrite Z.div_mul by lia. case_bool; [lia|done].
Qed.

(** ** Bitwise operators *)

Lemma testbit_limb x v i : is_u 32 x -> 0 <= i ->
  Z.testbit (x + 2 ^ 32 * v) i = if i <? 32 then Z.testbit x i else Z.testbit v (i - 32).
Proof.
  intros Hx Hi. replace (x + 2 ^ 32 * v) with (Z.lor x (v * 2 ^ 32)).
  2:{ rewrite lor_disjoint_add' by (unfold is_u in Hx; lia). lia. }
  rewrite Z.lor_spec. case_bool.
  - by rewrite Z.mul_pow2_bits_low, orb_false_r by lia.
  - rewrite Z.mul_pow2_bits by lia. rewrite <- (uwrap_small 32 x) by done.
    unfold uwrap. by rewrite Z.mod_pow2_bits_high by lia.
Qed.

Section bitwise.
Variable op : Z -> Z -> Z.
Variable bop : bool -> bool -> bool.
Hypothesis op_spec : forall x y i, Z.testbit (op x y) i = bop (Z.testbit x i) (Z.testbit y i).
Hypothesis bop_ff : bop false false = false.

Lemma op_u32 x y : is_u 32 x -> is_u 32 y -> is_u 32 (op x y).
Proof.
  intros Hx Hy. replace (op x y) with (u32 (op x y)); [by apply uwrap_range|].
  apply Z.bits_inj'. intros i Hi. unfold uwrap. destruct (decide (i < 32)).
  - by rewrite Z.mod_pow2_bits_low.
  - rewrite Z.mod_pow2_bits_high, op_spec by lia.
    rewrite <- (uwrap_small 32 x), <- (uwrap_small 32 y) by done. unfold uwrap.
    by rewrite !Z.mod_pow2_bits_high, bop_ff by lia.
Qed.

Lemma val_zip_bitwise l1 l2 : Forall (is_u 32) l1 -> Forall (is_u 32) l2 ->
  length l1 = length l2 ->
  Forall (is_u 32) (zip_with op l1 l2) /\ val (zip_with op l1 l2) = op (val l1) (val l2).
Proof.
  intros H1. revert l2. induction H1 as [|x l1 Hx H1 IH]; intros [|y l2] H2 Hl;
    try discriminate.
  - split; [constructor|]. simpl. symmetry. apply Z.bits_inj'. intros i _.
    by rewrite op_spec, !Z.bits_0, bop_ff.
  - apply Forall_cons in H2 as [Hy H2]. simpl in Hl.
    destruct (IH l2 H2 ltac:(lia)) as [Hf Hv]. pose proof (op_u32 x y Hx Hy).
    split; [by constructor|]. cbn [val foldr zip_with].
    fold (val (zip_with op l1 l2)) (val l1) (val l2). rewrite Hv.
    apply Z.bits_inj'. intros i Hi. rewrite op_spec, !testbit_limb by done.
    case_bool; by rewrite op_spec.
Qed.

Lemma bitwise_loop_spec a b : wf a -> wf b ->
  let r := for_range 0 WIDTH (fun i pn => <[i := op (pn !!! i) (b !!! i)]> pn) a in
  wf r /\ val r = op (val a) (val b).
Proof.
  intros Ha Hb r. unfold r. clear r.
  rewrite (pointwise_loop (fun i x => op x (b !!! i)) a WIDTH) by by apply wf_length.
  assert (imap (fun i x => op x (b !!! i)) a = zip_with op a b) as ->.
  { apply list_eq. intros i. rewrite list_lookup_imap, lookup_zip_with.
    destruct (a !! i) as [x|] eqn:E; simpl; [|done].
    pose proof (lookup_lt_Some _ _ _ E) as Hi. rewrite wf_length in Hi by done.
    by rewrite (list_lookup_lookup_total_lt b i) by (rewrite wf_length; done). }
  destruct (val_zip_bitwise a b) as [Hf Hv];
    [apply Ha|apply Hb|by rewrite !wf_length|].
  split; [|done]. split; [|done]. rewrite length_zip_with, !wf_length by done. done.
Qed.
End bitwise.

Lemma op_xor_assign_spec a b : wf a -> wf b ->
  wf (op_xor_assign a b) /\ val (op_xor_assign a b) = Z.lxor (val a) (val b).
Proof. apply (bitwise_loop_spec _ xorb); [apply Z.lxor_spec|done]. Qed.

Lemma op_and_assign_spec a b : wf a -> wf b ->
  wf (op_and_assign a b) /\ val (op_and_assign a b) = Z.land (val a) (val b).
Proof. apply (bitwise_loop_spec _ andb); [apply Z.land_spec|done]. Qed.

Lemma op_or_assign_spec a b : wf a -> wf b ->
  wf (op_or_assign a b) /\ val (op_or_assign a b) = Z.lor (val a) (val b).
Proof. apply (bitwise_loop_spec _ orb); [apply Z.lor_spec|done]. Qed.

Lemma op_not_spec a : wf a -> op_not a = (val a =? 0).
Proof.
  intros [_ Ha]. unfold op_not. induction Ha as [|x l Hx Hl IH]; [done|].
  cbn [forallb val foldr]. fold (val l). rewrite IH. pose proof (val_bound l Hl).
  unfold is_u in Hx. destruct (Z.eqb_spec x 0), (Z.eqb_spec (val l) 0);
    destruct (Z.eqb_spec (x + 2 ^ 32 * val l) 0); try done; lia.
Qed.

(** [a == b] for a 64-bit [b]. *)
Lemma EqualTo_spec a b : wf a -> is_u 64 b -> EqualTo a b = (val a =? b).
Proof.
  intros Ha Hb. destruct (of_u64_spec b Hb) as [Hw Hv].
  transitivity (bool_decide (a = of_u64 b)).
  - destruct Ha as [Hl Hf]. do 8 (destruct a as [|? a]; [discriminate|]).
    destruct a; [|discriminate]. repeat apply Forall_cons in Hf as [? Hf].
    unfold EqualTo, of_u64. simpl. change 4294967295 with (2 ^ 32 - 1).
    rewrite land_mask by lia. unfold is_u in *.
    rewrite (uwrap_small 32 (Z.shiftr b 32)).
    2:{ rewrite shiftr_div by lia. split; [apply Z.div_pos; lia|apply Z.div_lt_upper_bound; lia]. }
    unfold uwrap. apply eq_true_iff_eq. rewrite bool_decide_eq_true, !andb_true_iff, !Z.eqb_eq.
    split; [intros ([(-> & -> & -> & -> & -> & -> & _) ->] & ->); done|].
    intros E. simplify_eq. done.
  - apply eq_true_iff_eq. rewrite bool_decide_eq_true, Z.eqb_eq. split; [by intros ->|].
    intros E. apply val_inj; [apply Ha|apply Hw| |by rewrite Hv].
    by rewrite !wf_length.
Qed.

Lemma op_add_assign_u64_spec a b : wf a -> is_u 64 b ->
  wf (op_add_assign_u64 a b) /\ val (op_add_assign_u64 a b) = (val a + b) mod 2 ^ 256.
Proof.
  intros Ha Hb. destruct (of_u64_spec b Hb) as [Hw Hv].
  destruct (op_add_assign_spec a _ Ha Hw) as [? E]. rewrite Hv in E. done.
Qed.

Lemma op_sub_assign_u64_spec a b : wf a -> is_u 64 b ->
  wf (op_sub_assign_u64 a b) /\ val (op_sub_assign_u64 a b) = (val a - b) mod 2 ^ 256.
Proof.
  intros Ha Hb. destruct (of_u64_spec b Hb) as [Hw Hv].
  destruct (op_sub_assign_spec a _ Ha Hw) as [? E]. rewrite Hv in E. done.
Qed.

(** The operators with a 64-bit operand change the two lower limbs only. *)
Lemma op_xor_assign_u64_spec a b : wf a -> is_u 64 b ->
  wf (op_xor_assign_u64 a b) /\ val (op_xor_assign_u64 a b) = Z.lxor (val a) b.
Proof.
  intros Ha Hb. destruct (of_u64_spec b Hb) as [Hw Hv]. pose proof (op_xor_assign_spec a _ Ha Hw) as H. rewrite Hv in H.
  assert (op_xor_assign_u64 a b = op_xor_assign a (of_u64 b)) as ->; [|exact H].
  destruct Ha as [Hl _]. do 8 (destruct a as [|? a]; [discriminate|]). destruct a; [|discriminate]. clear.
  unfold op_xor_assign_u64, op_xor_assign, of_u64. simpl. by rewrite !Z.lxor_0_r.
Qed.

Lemma op_or_assign_u64_spec a b : wf a -> is_u 64 b ->
  wf (op_or_assign_u64 a b) /\ val (op_or_assign_u64 a b) = Z.lor (val a) b.
Proof.
  intros Ha Hb. destruct (of_u64_spec b Hb) as [Hw Hv]. pose proof (op_or_assign_spec a _ Ha Hw) as H. rewrite Hv in H.
  assert (op_or_assign_u64 a b = op_or_assign a (of_u64 b)) as ->; [|exact H].
  destruct Ha as [Hl _]. do 8 (destruct a as [|? a]; [discriminate|]). destruct a; [|discriminate]. clear.
  unfold op_or_assign_u64, op_or_assign, of_u64. simpl. by rewrite !Z.lor_0_r.
Qed.

Lemma op_div_assign_spec a b : wf a -> wf b ->
  if val b =? 0 then op_div_assign a b = Err division_by_zero
  else exists q r, op_div_assign_rem a b = Ok (q, r) /\ op_div_assign a b = Ok q /\ wf q /\ wf r /\
    val q = val a / val b /\ val r = val a mod val b.
Proof.
  intros Ha Hb. destruct (Z.eqb_spec (val b) 0) as [Hz|Hz]; [by apply op_div_assign_zero|].
  destruct (op_div_assign_rem_spec a b Ha Hb Hz) as (q & r & E & H). exists q, r. split; [done|]. split; [|done].
  unfold op_div_assign. by rewrite E.
Qed.

(** Packed fields are found again. *)
Lemma compact_fields_pack s m : 0 <= m < 2 ^ 23 -> compact_fields (s * 2 ^ 24 + m) = (s, false, m).
Proof.
  intros Hm. unfold compact_fields. f_equal; [f_equal|].
  - rewrite Z.div_add_l, Z.div_small by lia. lia.
  - replace (s * 2 ^ 24 + m) with (s * 2 * 2 ^ 23 + m) by (change (2 ^ 24) with (2 * 2 ^ 23); lia).
    rewrite <- lor_disjoint_add', Z.lor_spec, Z.mul_pow2_bits, testbit_top by lia.
    replace (2 ^ 23 <=? m) with false by lia. rewrite orb_false_l, Z.sub_diag, Z.bit0_odd.
    by rewrite Z.odd_mul, andb_false_r.
  - replace (s * 2 ^ 24 + m) with (m + s * 2 * 2 ^ 23) by (change (2 ^ 24) with (2 * 2 ^ 23); lia).
    rewrite Z.mod_add, Z.mod_small by lia. done.
Qed.

(** Encoding loses less than one part in [2^15]. *)
Lemma compact_error v : 0 <= v < 2 ^ 256 ->
  let '(s, m) := compact_norm v in 0 <= compact_value s m <= v /\ (v - compact_value s m) * 2 ^ 15 <= v.
Proof.
  intros Hv. pose proof (compact_value_norm _ Hv) as HV. pose proof (compact_norm_bounds _ Hv) as HB.
  destruct (compact_norm v) as [s m] eqn:En. destruct HB as (Hs & Hm & Hnz). rewrite HV.
  assert (0 < compact_ulp s) by (unfold compact_ulp; lia).
  pose proof (Z.div_mod v (compact_ulp s) ltac:(lia)).
  pose proof (Z.mod_pos_bound v (compact_ulp s) ltac:(lia)).
  pose proof (Z.div_pos v (compact_ulp s) ltac:(lia) ltac:(lia)). split; [nia|].
  destruct (decide (v = 0)) as [->|Hv0]; [rewrite Z.div_0_l by lia; lia|].
  specialize (Hnz Hv0). destruct (decide (s <= 3)) as [Hs3|Hs3].
  - unfold compact_ulp. rewrite Z.max_l by lia. change (2 ^ (8 * 0)) with 1. rewrite Z.div_1_r. lia.
  - assert (m * compact_ulp s = v / compact_ulp s * compact_ulp s) as Em.
    { rewrite <- HV. unfold compact_value, compact_ulp. rewrite Z.max_r by lia. case_bool; [lia|done]. } nia.
Qed.

(** ** Main results *)

(** C40: every arithmetic, bitwise, shift and comparison operator of
    [base_uint<256>], with operands of the same type and of 64 and 32 bits, keeps
    the limb array well-formed and computes, on the number the limbs denote, the
    operation of its name modulo [2^256].  Division leaves quotient and remainder and
    raises its exception exactly for a zero divisor.  [bits] is the length of the
    number in binary and [GetLow64] the number modulo [2^64]. *)
Theorem base_uint_ops_mod_2_256 (a b : base_uint) (w32 w64 shift : Z) :
  wf a -> wf b -> is_u 32 w32 -> is_u 64 w64 -> 0 <= shift ->
  (wf (of_u64 w64) /\ val (of_u64 w64) = w64) /\
  (wf (op_add_assign a b) /\ val (op_add_assign a b) = (val a + val b) mod 2 ^ 256) /\
  (wf (op_sub_assign a b) /\ val (op_sub_assign a b) = (val a - val b) mod 2 ^ 256) /\
  (wf (op_mul_assign a b) /\ val (op_mul_assign a b) = (val a * val b) mod 2 ^ 256) /\
  (if val b =? 0 then op_div_assign a b = Err division_by_zero
   else exists q r, op_div_assign_rem a b = Ok (q, r) /\ op_div_assign a b = Ok q /\ wf q /\ wf r /\
     val q = val a / val b /\ val r = val a mod val b) /\
  (wf (op_add_assign_u64 a w64) /\ val (op_add_assign_u64 a w64) = (val a + w64) mod 2 ^ 256) /\
  (wf (op_sub_assign_u64 a w64) /\ val (op_sub_assign_u64 a w64) = (val a - w64) mod 2 ^ 256) /\
  (wf (op_mul_assign_u32 a w32)
     /\ val (op_mul_assign_u32 a w32) = (val a * w32) mod 2 ^ 256) /\
  (wf (op_neg a) /\ val (op_neg a) = (- val a) mod 2 ^ 256) /\
  (wf (op_incr a) /\ val (op_incr a) = (val a + 1) mod 2 ^ 256) /\
  (wf (op_decr a) /\ val (op_decr a) = (val a - 1) mod 2 ^ 256) /\
  (wf (op_compl a) /\ val (op_compl a) = 2 ^ 256 - 1 - val a) /\
  (wf (op_xor_assign a b) /\ val (op_xor_assign a b) = Z.lxor (val a) (val b)) /\
  (wf (op_and_assign a b) /\ val (op_and_assign a b) = Z.land (val a) (val b)) /\
  (wf (op_or_assign a b) /\ val (op_or_assign a b) = Z.lor (val a) (val b)) /\
  (wf (op_xor_assign_u64 a w64) /\ val (op_xor_assign_u64 a w64) = Z.lxor (val a) w64) /\
  (wf (op_or_assign_u64 a w64) /\ val (op_or_assign_u64 a w64) = Z.lor (val a) w64) /\
  (wf (op_shl_assign a shift) /\ val (op_shl_assign a shift) = (val a * 2 ^ shift) mod 2 ^ 256) /\
  (wf (op_shr_assign a shift) /\ val (op_shr_assign a shift) = val a / 2 ^ shift) /\
  op_not a = (val a =? 0) /\
  EqualTo a w64 = (val a =? w64) /\
  CompareTo a b = (match val a ?= val b with Lt => -1 | Eq => 0 | Gt => 1 end) /\
  bits a = (if val a =? 0 then 0 else Z.log2 (val a) + 1) /\
  GetLow64 a = val a mod 2 ^ 64.
Proof.
  intros Ha Hb Hw Hw64 Hs. split; [by apply of_u64_spec|].
  split; [by apply op_add_assign_spec|]. split; [by apply op_sub_assign_spec|].
  split; [by apply op_mul_assign_spec|]. split; [by apply op_div_assign_spec|].
  split; [by apply op_add_assign_u64_spec|]. split; [by apply op_sub_assign_u64_spec|].
  split; [by apply op_mul_assign_u32_spec|].
  split; [by apply op_neg_spec|]. split; [by apply op_incr_spec|].
  split; [by apply op_decr_spec|]. split; [by apply op_compl_spec|].
  split; [by apply op_xor_assign_spec|]. split; [by apply op_and_assign_spec|].
  split; [by apply op_or_assign_spec|]. split; [by apply op_xor_assign_u64_spec|].
  split; [by apply op_or_assign_u64_spec|]. split; [by apply op_shl_assign_spec|].
  split; [by apply op_shr_assign_spec|]. split; [by apply op_not_spec|].
  split; [by apply EqualTo_spec|]. split; [by apply CompareTo_spec|].
  split; [by apply bits_spec|by apply GetLow64_spec].
Qed.

Lemma base_uint_ops_mod_2_256_witness :
  let a := [1; 2; 3; 4; 5; 6; 7; 0xffffffff] in
  val (op_mul_assign a a) = (val a * val a) mod 2 ^ 256
  /\ op_add_assign a a = [2; 4; 6; 8; 10; 12; 14; 0xfffffffe].
Proof.
  destruct (base_uint_ops_mod_2_256 [1; 2; 3; 4; 5; 6; 7; 0xffffffff]
              [1; 2; 3; 4; 5; 6; 7; 0xffffffff] 7 9 33) as (_ & _ & _ & [_ H] & _);
    [by_decide..|lia|].
  split; [exact H|vm_compute; reflexivity].
Defined.

(** The shift-and-subtract loop of [operator/=] returns the quotient and
    leaves the remainder of the division of the two numbers, and raises the
    exception exactly for a zero divisor. *)
Theorem op_div_assign_correct (a b : base_uint) :
  wf a -> wf b ->
  (val b = 0 -> op_div_assign_rem a b = Err division_by_zero) /\
  (val b <> 0 -> exists q r, op_div_assign_rem a b = Ok (q, r)
     /\ op_div_assign a b = Ok q /\ wf q /\ wf r
     /\ val q = val a / val b /\ val r = val a mod val b).
Proof.
  intros Ha Hb. split.
  - intros Hz. unfold op_div_assign_rem. rewrite (bits_spec b), Hz by done. done.
  - intros Hz. destruct (op_div_assign_rem_spec a b Ha Hb Hz) as (q & r & E & H).
    exists q, r. split; [done|]. split; [|done]. unfold op_div_assign. by rewrite E.
Qed.

Lemma op_div_assign_correct_witness :
  exists q r, op_div_assign_rem [7; 0; 9; 0; 0; 0; 0; 1] [5; 3; 0; 0; 0; 0; 0; 0] = Ok (q, r)
    /\ val r = val [7; 0; 9; 0; 0; 0; 0; 1] mod val [5; 3; 0; 0; 0; 0; 0; 0].
Proof.
  destruct (op_div_assign_correct [7; 0; 9; 0; 0; 0; 0; 1] [5; 3; 0; 0; 0; 0; 0; 0])
    as [_ (q & r & E & _ & _ & _ & _ & Hr)];
    [by_decide..|by_decide|].
  exact (ex_intro _ q (ex_intro _ r (conj E Hr))).
Defined.

(** Decoding a compact target.  [SetCompact] stores the encoded number
    modulo [2^256]; it reports overflow exactly when the number does not fit in
    256 bits and a negative sign exactly when the sign bit is set on a non-zero
    number. *)
Theorem SetCompact_correct (c : Z) :
  is_u 32 c ->
  let '(nSize, sign, nWord) := compact_fields c in
  exists a fNegative fOverflow, SetCompact c = (a, fNegative, fOverflow) /\ wf a
    /\ val a = compact_value nSize nWord mod 2 ^ 256
    /\ (fNegative = true <-> sign = true /\ compact_value nSize nWord <> 0)
    /\ (fOverflow = true <-> 2 ^ 256 <= compact_value nSize nWord).
Proof. apply SetCompact_val. Qed.

Lemma SetCompact_correct_witness :
  exists a, SetCompact 0x05923456 = (a, true, false) /\ val a = 0x1234560000.
Proof.
  pose proof (SetCompact_correct 0x05923456 ltac:(by_decide)) as H.
  destruct H as (a & n & o & E & _ & Hv & _ & _). exists a.
  assert (n = true /\ o = false) as [-> ->] by (vm_compute in E; by simplify_eq).
  split; [exact E|exact Hv].
Defined.

(** Encoding a target.  The assertions of [GetCompact] never fail; the
    result decodes, without overflow or sign, to the number rounded down to a
    multiple of the unit of its last place (at least 15 significant bits are
    kept), and encoding the decoded number again gives the same 32 bits. *)
Theorem GetCompact_roundtrip (a : base_uint) :
  wf a ->
  exists c a', GetCompact a false = Some c /\ is_u 32 c
    /\ SetCompact c = (a', false, false) /\ wf a'
    /\ val a' = val a / compact_ulp (c / 2 ^ 24) * compact_ulp (c / 2 ^ 24)
    /\ (val a - val a') * 2 ^ 15 <= val a
    /\ GetCompact a' false = Some c.
Proof.
  intros Ha. pose proof (wf_val_bound a Ha) as Hv. pose proof (GetCompact_val a Ha) as HG.
  pose proof (compact_value_norm _ Hv) as HV. pose proof (compact_norm_idem _ Hv) as HI.
  pose proof (compact_norm_bounds _ Hv) as HB.
  destruct (compact_norm (val a)) as [s m] eqn:En. destruct HB as (Hs & Hm & Hnz).
  specialize (HG false). rewrite Z.lor_0_r in HG. set (c := s * 2 ^ 24 + m) in *.
  assert (is_u 32 c) as Hc by (unfold is_u, c; lia).
  assert (compact_fields c = (s, false, m)) as Ef by (by apply compact_fields_pack).
  pose proof (SetCompact_val c Hc) as HS. rewrite Ef in HS.
  destruct HS as (a' & neg & ov & ES & Hwf & Hva & Hneg & Hov).
  assert (0 < compact_ulp s) by (unfold compact_ulp; lia).
  pose proof (Z.div_mod (val a) (compact_ulp s) ltac:(lia)).
  pose proof (Z.mod_pos_bound (val a) (compact_ulp s) ltac:(lia)).
  pose proof (Z.div_pos (val a) (compact_ulp s) ltac:(lia) ltac:(lia)).
  assert (neg = false) as -> by (destruct neg; [|done]; destruct Hneg as [[] _]; done).
  assert (ov = false) as -> by (destruct ov; [|done]; destruct Hov as [Hov _]; specialize (Hov eq_refl); lia).
  assert (val a' = compact_value s m) as Ev by (rewrite Hva, Z.mod_small; [done|nia]).
  assert (c / 2 ^ 24 = s) as Ec by (injection Ef; done).
  exists c, a'. rewrite Ec. split; [done|]. split; [done|]. split; [done|]. split; [done|].
  split; [by rewrite Ev, HV|]. split.
  - pose proof (compact_error _ Hv) as HE. rewrite En in HE. rewrite Ev. apply HE.
  - pose proof (GetCompact_val a' Hwf) as HG'. rewrite Ev, HI in HG'.
    specialize (HG' false). by rewrite Z.lor_0_r in HG'.
Qed.

Lemma GetCompact_roundtrip_witness :
  exists c a', GetCompact (of_u64 0x123456789a) false = Some c /\ SetCompact c = (a', false, false).
Proof.
  destruct (GetCompact_roundtrip (of_u64 0x123456789a)) as (c & a' & H1 & _ & H2 & _);
    [by_decide|].
  exact (ex_intro _ c (ex_intro _ a' (conj H1 H2))).
Defined.
