(* ===== verification/Endian.v ===== *)
(** * Endian: integers as bytes in memory, on either kind of host

    Models [src/src/compat/byteswap.h], [src/src/compat/endian.h] and
    [src/src/crypto/common.h].  The host's byte order, chosen by the macro
    [WORDS_BIGENDIAN], is the parameter [be] of every definition; [host_store]
    and [host_load] are what [memcpy] between an integer variable and a byte
    array does on that host.  The theorems show that the [ReadLE]/[WriteLE] and
    [ReadBE]/[WriteBE] routines give the same bytes and numbers on both hosts. *)
From S2P Require Import Prelude.

(** ** Memory representation *)

(** The [n] low bytes of [x], least significant first. *)
Fixpoint le_bytes (n : nat) (x : Z) : list Z :=
  match n with
  | O => []
  | S n' => x mod 2 ^ 8 :: le_bytes n' (x / 2 ^ 8)
  end.

(** The number a byte string denotes, least significant byte first. *)
Definition le_val (l : list Z) : Z := foldr (fun b acc => b + 2 ^ 8 * acc) 0 l.

Definition host_store (be : bool) (n : nat) (x : Z) : list Z :=
  if be then reverse (le_bytes n x) else le_bytes n x.

Definition host_load (be : bool) (l : list Z) : Z :=
  if be then le_val (reverse l) else le_val l.

(** ** byteswap.h *)

Definition bswap_16 (x : Z) : Z :=
  u16 (Z.lor (Z.shiftr x 8) (Z.shiftl (Z.land x 0x00ff) 8)).

Definition bswap_32 (x : Z) : Z :=
  Z.lor (Z.lor (Z.lor (Z.shiftr (Z.land x 0xff000000) 24)
                      (Z.shiftr (Z.land x 0x00ff0000) 8))
               (u32 (Z.shiftl (Z.land x 0x0000ff00) 8)))
        (u32 (Z.shiftl (Z.land x 0x000000ff) 24)).

Definition bswap_64 (x : Z) : Z :=
  Z.lor (Z.lor (Z.lor (Z.lor (Z.lor (Z.lor (Z.lor
    (Z.shiftr (Z.land x 0xff00000000000000) 56)
    (Z.shiftr (Z.land x 0x00ff000000000000) 40))
    (Z.shiftr (Z.land x 0x0000ff0000000000) 24))
    (Z.shiftr (Z.land x 0x000000ff00000000) 8))
    (u64 (Z.shiftl (Z.land x 0x00000000ff000000) 8)))
    (u64 (Z.shiftl (Z.land x 0x0000000000ff0000) 24)))
    (u64 (Z.shiftl (Z.land x 0x000000000000ff00) 40)))
    (u64 (Z.shiftl (Z.land x 0x00000000000000ff) 56)).

(** ** endian.h *)

Section endian.
Variable be : bool.

Definition htobe16 (x : Z) : Z := if be then x else bswap_16 x.
Definition htole16 (x : Z) : Z := if be then bswap_16 x else x.
Definition be16toh (x : Z) : Z := if be then x else bswap_16 x.
Definition le16toh (x : Z) : Z := if be then bswap_16 x else x.
Definition htobe32 (x : Z) : Z := if be then x else bswap_32 x.
Definition htole32 (x : Z) : Z := if be then bswap_32 x else x.
Definition be32toh (x : Z) : Z := if be then x else bswap_32 x.
Definition le32toh (x : Z) : Z := if be then bswap_32 x else x.
Definition htobe64 (x : Z) : Z := if be then x else bswap_64 x.
Definition htole64 (x : Z) : Z := if be then bswap_64 x else x.
Definition be64toh (x : Z) : Z := if be then x else bswap_64 x.
Definition le64toh (x : Z) : Z := if be then bswap_64 x else x.

(** ** crypto/common.h: the pointer argument is the byte string it points to,
    of which the leading bytes are read; a write returns the bytes stored. *)

Definition ReadLE16 (ptr : list Z) : Z := le16toh (host_load be (take 2 ptr)).
Definition ReadLE32 (ptr : list Z) : Z := le32toh (host_load be (take 4 ptr)).
Definition ReadLE64 (ptr : list Z) : Z := le64toh (host_load be (take 8 ptr)).
Definition WriteLE16 (x : Z) : list Z := host_store be 2 (htole16 x).
Definition WriteLE32 (x : Z) : list Z := host_store be 4 (htole32 x).
Definition WriteLE64 (x : Z) : list Z := host_store be 8 (htole64 x).
Definition ReadBE32 (ptr : list Z) : Z := be32toh (host_load be (take 4 ptr)).
Definition ReadBE64 (ptr : list Z) : Z := be64toh (host_load be (take 8 ptr)).
Definition WriteBE32 (x : Z) : list Z := host_store be 4 (htobe32 x).
Definition WriteBE64 (x : Z) : list Z := host_store be 8 (htobe64 x).
End endian.

(** ** Byte strings and numbers *)

Abbreviation is_byte := (is_u 8).

Lemma length_le_bytes n x : length (le_bytes n x) = n.
Proof. revert x. induction n as [|n IH]; intros x; simpl; [done|]. by rewrite IH. Qed.

Lemma le_bytes_bytes n x : Forall is_byte (le_bytes n x).
Proof.
  revert x. induction n as [|n IH]; intros x; simpl; constructor; [|done].
  by apply (uwrap_range 8).
Qed.

Lemma pow_8_S n : 2 ^ (8 * Z.of_nat (S n)) = 2 ^ 8 * 2 ^ (8 * Z.of_nat n).
Proof. rewrite <- Z.pow_add_r by lia. f_equal. lia. Qed.

Lemma le_val_le_bytes n x : le_val (le_bytes n x) = x mod 2 ^ (8 * Z.of_nat n).
Proof.
  revert x. induction n as [|n IH]; intros x.
  - simpl. by rewrite Z.mod_1_r.
  - cbn [le_bytes le_val foldr]. fold (le_val (le_bytes n (x / 2 ^ 8))).
    rewrite IH, pow_8_S, Z.rem_mul_r by lia. done.
Qed.

Lemma le_val_bound l : Forall is_byte l -> 0 <= le_val l < 2 ^ (8 * Z.of_nat (length l)).
Proof.
  induction 1 as [|b l Hb _ IH]; [simpl; lia|].
  cbn [le_val foldr length]. fold (le_val l). rewrite pow_8_S. unfold is_u in Hb. lia.
Qed.

Lemma le_bytes_le_val l : Forall is_byte l -> le_bytes (length l) (le_val l) = l.
Proof.
  induction 1 as [|b l Hb _ IH]; [done|]. cbn [le_val foldr length le_bytes]. fold (le_val l).
  unfold is_u in Hb. f_equal.
  - rewrite Z.mul_comm, Z.mod_add, Z.mod_small by lia. done.
  - rewrite Z.mul_comm, Z.div_add, Z.div_small, Z.add_0_l by lia. done.
Qed.

Lemma le_val_inj l1 l2 : Forall is_byte l1 -> Forall is_byte l2 ->
  length l1 = length l2 -> le_val l1 = le_val l2 -> l1 = l2.
Proof.
  intros H1 H2 Hl Hv. rewrite <- (le_bytes_le_val l1), <- (le_bytes_le_val l2), Hl, Hv by done.
  done.
Qed.

Lemma le_bytes_mod n x : le_bytes n (x mod 2 ^ (8 * Z.of_nat n)) = le_bytes n x.
Proof.
  apply le_val_inj; try apply le_bytes_bytes; [by rewrite !length_le_bytes|].
  rewrite !le_val_le_bytes. by rewrite Z.mod_mod by lia.
Qed.

Lemma le_val_app l1 l2 : le_val (l1 ++ l2) = le_val l1 + 2 ^ (8 * Z.of_nat (length l1)) * le_val l2.
Proof.
  induction l1 as [|b l1 IH]; [simpl; lia|].
  cbn [app le_val foldr length]. fold (le_val (l1 ++ l2)) (le_val l1).
  rewrite IH, pow_8_S. lia.
Qed.

(** ** Byte swapping reverses the bytes *)

(** One masked byte of [x], in place. *)
Lemma land_byte x k : 0 <= k -> Z.land x (0xff * 2 ^ k) = (x / 2 ^ k) mod 2 ^ 8 * 2 ^ k.
Proof.
  intros Hk. apply Z.bits_inj'. intros i Hi. rewrite Z.land_spec.
  destruct (decide (i < k)).
  - rewrite !Z.mul_pow2_bits_low by lia. apply andb_false_r.
  - rewrite !Z.mul_pow2_bits by lia. change 0xff with (Z.ones 8).
    destruct (decide (i - k < 8)).
    + rewrite Z.ones_spec_low, Z.mod_pow2_bits_low, Z.div_pow2_bits by lia.
      rewrite andb_true_r. f_equal. lia.
    + rewrite Z.ones_spec_high, Z.mod_pow2_bits_high by lia. apply andb_false_r.
Qed.

(** The byte of weight [2^k] moved to weight [2^j]. *)
Lemma move_byte_right x k j d : 0 <= j -> 0 <= d -> k = j + d ->
  Z.shiftr (Z.land x (0xff * 2 ^ k)) d = (x / 2 ^ k) mod 2 ^ 8 * 2 ^ j.
Proof.
  intros ? ? ->. rewrite land_byte, shiftr_div by lia.
  rewrite (Z.pow_add_r 2 j d) at 2 by lia. by rewrite Z.mul_assoc, Z.div_mul by lia.
Qed.

Lemma move_byte_left w x k j d : 0 <= k -> 0 <= d -> j = k + d -> j + 8 <= w ->
  uwrap w (Z.shiftl (Z.land x (0xff * 2 ^ k)) d) = (x / 2 ^ k) mod 2 ^ 8 * 2 ^ j.
Proof.
  intros ? ? -> ?. rewrite land_byte, shiftl_mul, <- Z.mul_assoc, <- Z.pow_add_r by lia.
  apply uwrap_small. pose proof (Z.mod_pos_bound (x / 2 ^ k) (2 ^ 8) ltac:(lia)).
  split; [lia|]. apply Z.lt_le_trans with (2 ^ 8 * 2 ^ (k + d)); [nia|].
  rewrite <- Z.pow_add_r by lia. apply Z.pow_le_mono_r; lia.
Qed.

(** What [bswap] means: the number of the reversed byte string. *)
Definition byte_reverse (n : nat) (x : Z) : Z := le_val (reverse (le_bytes n x)).

Ltac or_bytes :=
  repeat match goal with
  | |- context [Z.lor ?a (?b * 2 ^ ?k)] =>
      lazymatch a with
      | context [Z.lor _ _] => fail
      | _ => rewrite (lor_disjoint_add' b a k) by lia
      end
  end.

Ltac norm_exp :=
  repeat match goal with
  | |- context [2 ^ (?a + 8)] => let v := eval compute in (a + 8) in change (a + 8) with v
  end.

(** Name the bytes of [x]. *)
Ltac name_byte x k :=
  pose proof (Z.mod_pos_bound (x / 2 ^ k) (2 ^ 8) ltac:(lia));
  generalize dependent ((x / 2 ^ k) mod 2 ^ 8); intros.

Lemma le_bytes_div n x k : 0 <= k ->
  le_bytes n (x / 2 ^ k) =
    match n with O => [] | S n' => (x / 2 ^ k) mod 2 ^ 8 :: le_bytes n' (x / 2 ^ (k + 8)) end.
Proof.
  intros. destruct n; [done|]. cbn [le_bytes]. do 2 f_equal.
  rewrite Z.pow_add_r, Z.div_div by lia. done.
Qed.

Lemma bswap_16_spec x : is_u 16 x -> bswap_16 x = byte_reverse 2 x.
Proof.
  intros Hx. unfold bswap_16, byte_reverse.
  assert (Z.shiftr x 8 = (x / 2 ^ 8) mod 2 ^ 8 * 2 ^ 0) as ->.
  { rewrite shiftr_div, Z.mul_1_r by lia. symmetry. apply Z.mod_small.
    unfold is_u in Hx. split; [apply Z.div_pos; lia|apply Z.div_lt_upper_bound; lia]. }
  assert (Z.shiftl (Z.land x 0x00ff) 8 = (x / 2 ^ 0) mod 2 ^ 8 * 2 ^ 8) as ->.
  { change 0x00ff with (0xff * 2 ^ 0). by rewrite land_byte, shiftl_mul, Z.mul_1_r by lia. }
  replace (le_bytes 2 x) with (le_bytes 2 (x / 2 ^ 0)) by by rewrite Z.div_1_r.
  rewrite !le_bytes_div by lia. norm_exp.
  name_byte x 0. name_byte x 8. or_bytes.
  rewrite uwrap_small by (unfold is_u; lia). cbn. lia.
Qed.

Lemma bswap_32_spec x : bswap_32 x = byte_reverse 4 x.
Proof.
  unfold bswap_32, byte_reverse.
  change 0x000000ff with (0xff * 2 ^ 0).
  change 0xff000000 with (0xff * 2 ^ 24). change 0x00ff0000 with (0xff * 2 ^ 16).
  change 0x0000ff00 with (0xff * 2 ^ 8).
  rewrite (move_byte_right x 24 0 24), (move_byte_right x 16 8 8), (move_byte_left 32 x 8 16 8),
    (move_byte_left 32 x 0 24 24) by lia.
  replace (le_bytes 4 x) with (le_bytes 4 (x / 2 ^ 0)) by by rewrite Z.div_1_r.
  rewrite !le_bytes_div by lia. norm_exp.
  name_byte x 0. name_byte x 8. name_byte x 16. name_byte x 24. or_bytes. cbn. lia.
Qed.

Lemma bswap_64_spec x : bswap_64 x = byte_reverse 8 x.
Proof.
  unfold bswap_64, byte_reverse.
  change 0x00000000000000ff with (0xff * 2 ^ 0).
  change 0xff00000000000000 with (0xff * 2 ^ 56). change 0x00ff000000000000 with (0xff * 2 ^ 48).
  change 0x0000ff0000000000 with (0xff * 2 ^ 40). change 0x000000ff00000000 with (0xff * 2 ^ 32).
  change 0x00000000ff000000 with (0xff * 2 ^ 24). change 0x0000000000ff0000 with (0xff * 2 ^ 16).
  change 0x000000000000ff00 with (0xff * 2 ^ 8).
  rewrite (move_byte_right x 56 0 56), (move_byte_right x 48 8 40), (move_byte_right x 40 16 24),
    (move_byte_right x 32 24 8), (move_byte_left 64 x 24 32 8), (move_byte_left 64 x 16 40 24),
    (move_byte_left 64 x 8 48 40), (move_byte_left 64 x 0 56 56) by lia.
  replace (le_bytes 8 x) with (le_bytes 8 (x / 2 ^ 0)) by by rewrite Z.div_1_r.
  rewrite !le_bytes_div by lia. norm_exp.
  name_byte x 0. name_byte x 8. name_byte x 16. name_byte x 24.
  name_byte x 32. name_byte x 40. name_byte x 48. name_byte x 56. or_bytes. cbn. lia.
Qed.

(** ** Host independence *)

Lemma le_bytes_byte_reverse n x : le_bytes n (byte_reverse n x) = reverse (le_bytes n x).
Proof.
  unfold byte_reverse. rewrite <- (le_bytes_le_val (reverse (le_bytes n x))) at 2
    by apply Forall_reverse, le_bytes_bytes.
  by rewrite length_reverse, length_le_bytes.
Qed.

Lemma byte_reverse_le_val n l : length l = n -> Forall is_byte l ->
  byte_reverse n (le_val (reverse l)) = le_val l.
Proof.
  intros <- Hl. unfold byte_reverse. rewrite <- (length_reverse l).
  rewrite le_bytes_le_val by by apply Forall_reverse. by rewrite reverse_involutive.
Qed.

(** Storing after a conditional swap, for a swap [f] that reverses bytes. *)
Lemma store_le (be : bool) n f x : f x = byte_reverse n x ->
  host_store be n (if be then f x else x) = le_bytes n x.
Proof.
  intros E. destruct be; simpl; [|done].
  by rewrite E, le_bytes_byte_reverse, reverse_involutive.
Qed.

Lemma store_be (be : bool) n f x : f x = byte_reverse n x ->
  host_store be n (if be then x else f x) = reverse (le_bytes n x).
Proof. intros E. destruct be; simpl; [done|]. by rewrite E, le_bytes_byte_reverse. Qed.

Lemma load_le (be : bool) n f l : length l = n -> Forall is_byte l ->
  f (le_val (reverse l)) = byte_reverse n (le_val (reverse l)) ->
  (if be then f (host_load be l) else host_load be l) = le_val l.
Proof.
  intros Hn Hl E. destruct be; simpl; [|done]. by rewrite E, byte_reverse_le_val.
Qed.

Lemma load_be (be : bool) n f l : length l = n -> Forall is_byte l ->
  f (le_val l) = byte_reverse n (le_val l) ->
  (if be then host_load be l else f (host_load be l)) = le_val (reverse l).
Proof.
  intros Hn Hl E. destruct be; simpl; [done|]. rewrite E.
  rewrite <- (reverse_involutive l) at 1. apply byte_reverse_le_val;
    [by rewrite length_reverse|by apply Forall_reverse].
Qed.

Lemma WriteLE16_bytes be x : is_u 16 x -> WriteLE16 be x = le_bytes 2 x.
Proof. intros. by apply store_le, bswap_16_spec. Qed.

Lemma WriteLE32_bytes be x : WriteLE32 be x = le_bytes 4 x.
Proof. by apply store_le, bswap_32_spec. Qed.

Lemma WriteLE64_bytes be x : WriteLE64 be x = le_bytes 8 x.
Proof. by apply store_le, bswap_64_spec. Qed.

Lemma WriteBE32_bytes be x : WriteBE32 be x = reverse (le_bytes 4 x).
Proof. by apply store_be, bswap_32_spec. Qed.

Lemma WriteBE64_bytes be x : WriteBE64 be x = reverse (le_bytes 8 x).
Proof. by apply store_be, bswap_64_spec. Qed.

Lemma ReadLE16_val be l : (2 <= length l)%nat -> Forall is_byte l ->
  ReadLE16 be l = le_val (take 2 l).
Proof.
  intros Hn Hl. assert (length (take 2 l) = 2%nat) as Ht by (rewrite length_take; lia).
  apply (load_le be 2); [done|by apply Forall_take|]. apply bswap_16_spec.
  pose proof (le_val_bound (reverse (take 2 l))) as Hb. rewrite length_reverse, Ht in Hb.
  apply Hb. by apply Forall_reverse, Forall_take.
Qed.

Lemma ReadLE32_val be l : (4 <= length l)%nat -> Forall is_byte l ->
  ReadLE32 be l = le_val (take 4 l).
Proof.
  intros Hn Hl. apply (load_le be 4); [rewrite length_take; lia|by apply Forall_take|].
  apply bswap_32_spec.
Qed.

Lemma ReadLE64_val be l : (8 <= length l)%nat -> Forall is_byte l ->
  ReadLE64 be l = le_val (take 8 l).
Proof.
  intros Hn Hl. apply (load_le be 8); [rewrite length_take; lia|by apply Forall_take|].
  apply bswap_64_spec.
Qed.

Lemma ReadBE32_val be l : (4 <= length l)%nat -> Forall is_byte l ->
  ReadBE32 be l = le_val (reverse (take 4 l)).
Proof.
  intros Hn Hl. apply (load_be be 4); [rewrite length_take; lia|by apply Forall_take|].
  apply bswap_32_spec.
Qed.

Lemma ReadBE64_val be l : (8 <= length l)%nat -> Forall is_byte l ->
  ReadBE64 be l = le_val (reverse (take 8 l)).
Proof.
  intros Hn Hl. apply (load_be be 8); [rewrite length_take; lia|by apply Forall_take|].
  apply bswap_64_spec.
Qed.

(** The byte-order routines are portable.  On a little-endian and on a
    big-endian host alike, [WriteLE]/[WriteBE] store the bytes of the number in
    little-/big-endian order, and the matching [Read] of such bytes, followed by
    anything, returns the number. *)
Theorem endian_portable (be : bool) (x16 x32 x64 : Z) (rest : list Z) :
  is_u 16 x16 -> is_u 32 x32 -> is_u 64 x64 -> Forall is_byte rest ->
  WriteLE16 be x16 = le_bytes 2 x16 /\ ReadLE16 be (WriteLE16 be x16 ++ rest) = x16 /\
  WriteLE32 be x32 = le_bytes 4 x32 /\ ReadLE32 be (WriteLE32 be x32 ++ rest) = x32 /\
  WriteLE64 be x64 = le_bytes 8 x64 /\ ReadLE64 be (WriteLE64 be x64 ++ rest) = x64 /\
  WriteBE32 be x32 = reverse (le_bytes 4 x32) /\ ReadBE32 be (WriteBE32 be x32 ++ rest) = x32 /\
  WriteBE64 be x64 = reverse (le_bytes 8 x64) /\ ReadBE64 be (WriteBE64 be x64 ++ rest) = x64.
Proof.
  intros H16 H32 H64 Hr.
  assert (forall n x, is_u (8 * Z.of_nat n) x -> le_val (le_bytes n x) = x) as Hval.
  { intros n x Hx. rewrite le_val_le_bytes. by apply Z.mod_small. }
  rewrite WriteLE16_bytes, WriteLE32_bytes, WriteLE64_bytes, WriteBE32_bytes,
    WriteBE64_bytes by done.
  rewrite ReadLE16_val, ReadLE32_val, ReadLE64_val, ReadBE32_val, ReadBE64_val;
    try (rewrite length_app, ?length_reverse, length_le_bytes; lia);
    try (apply Forall_app_2; [|done]; first [apply le_bytes_bytes|apply Forall_reverse, le_bytes_bytes]).
  rewrite !take_app_length' by by rewrite ?length_reverse, length_le_bytes.
  rewrite !reverse_involutive, !Hval by done. done.
Qed.

Lemma endian_portable_witness :
  ReadBE32 true (WriteBE32 true 0x01020304 ++ [9]) = 0x01020304
  /\ WriteBE32 false 0x01020304 = [1; 2; 3; 4].
Proof.
  destruct (endian_portable true 7 0x01020304 5 [9]) as (_&_&_&_&_&_&_&H&_);
    [by_decide..|].
  split; [exact H|vm_compute; reflexivity].
Defined.
