(* ===== verification/StrEncodings.v ===== *)
(** * StrEncodings: hexadecimal text and byte-string comparison

    Models the hexadecimal part of [src/src/utilstrencodings.cpp] and
    [src/src/utilstrencodings.h].  A character is a number in [[0, 256)]; a
    C string is the list of its characters, and a read at its end sees the
    terminating NUL. *)
From S2P Require Import Prelude.

(** ** Characters *)

(** [isspace] of the C locale. *)
Definition isspace (c : Z) : bool := ((9 <=? c) && (c <=? 13)) || (c =? 32).

(** [tolower] of the C locale. *)
Definition tolower (c : Z) : Z := if (65 <=? c) && (c <=? 90) then c + 32 else c.

(** The character a pointer at this suffix of the string points to. *)
Definition deref (psz : list Z) : Z := match psz with [] => 0 | c :: _ => c end.

Definition p_util_hexdigit : list Z :=
  replicate 48 (-1) ++ [0; 1; 2; 3; 4; 5; 6; 7; 8; 9] ++ replicate 7 (-1)
  ++ [0xa; 0xb; 0xc; 0xd; 0xe; 0xf] ++ replicate 26 (-1)
  ++ [0xa; 0xb; 0xc; 0xd; 0xe; 0xf] ++ replicate 153 (-1).

Definition HexDigit (c : Z) : Z := p_util_hexdigit !!! Z.to_nat (u8 c).

Definition IsHex (str : list Z) : bool :=
  forallb (fun c => negb (HexDigit c <? 0)) str
  && (0 <? length str)%nat && (length str mod 2 =? 0)%nat.

Fixpoint skip_space (psz : list Z) : list Z :=
  match psz with
  | c :: psz' => if isspace c then skip_space psz' else psz
  | [] => []
  end.

(** The loop of [ParseHex]; each iteration consumes a character, so [fuel] one
    above the length of the string is never exhausted. *)
Fixpoint ParseHex_loop (fuel : nat) (psz : list Z) : list Z :=
  match fuel with
  | O => []
  | S fuel' =>
      let psz := skip_space psz in
      let c := HexDigit (deref psz) in
      if c =? -1 then []
      else
        let psz := tail psz in
        let n := u8 (Z.shiftl c 4) in
        let c := HexDigit (deref psz) in
        if c =? -1 then []
        else Z.lor n c :: ParseHex_loop fuel' (tail psz)
  end.

Definition ParseHex (psz : list Z) : list Z := ParseHex_loop (S (length psz)) psz.

Definition hexmap : list Z :=
  [48; 49; 50; 51; 52; 53; 54; 55; 56; 57; 97; 98; 99; 100; 101; 102].

(** The two digits of one byte. *)
Definition hex_byte (val : Z) : list Z :=
  [hexmap !!! Z.to_nat (Z.shiftr val 4); hexmap !!! Z.to_nat (Z.land val 15)].

(** [HexStr], the separator written before every byte but the first. *)
Fixpoint HexStr_loop (first fSpaces : bool) (v : list Z) : list Z :=
  match v with
  | [] => []
  | val :: v' =>
      (if fSpaces && negb first then [32] else []) ++ hex_byte val
        ++ HexStr_loop false fSpaces v'
  end.
Definition HexStr (v : list Z) (fSpaces : bool) : list Z := HexStr_loop true fSpaces v.

Definition TimingResistantEqual (a b : list Z) : bool :=
  if (length b =? 0)%nat then (length a =? 0)%nat
  else
    let acc := Z.lxor (Z.of_nat (length a)) (Z.of_nat (length b)) in
    foldl (fun acc i => Z.lor acc (Z.lxor (a !!! i) (b !!! (i mod length b)%nat)))
          acc (seq 0 (length a)) =? 0.

(** ** Hexadecimal round trip *)

(** A property of all bytes, checked by evaluation on the 256 of them. *)
Lemma all_bytes (P : Z -> bool) :
  forallb P (seqZ 0 256) = true -> forall x, is_u 8 x -> P x = true.
Proof.
  intros H x Hx. rewrite forallb_forall in H. apply H, list_elem_of_In, elem_of_seqZ.
  unfold is_u in Hx. lia.
Qed.

Definition byte_ok (x : Z) : bool :=
  match hex_byte x with
  | [h; l] => negb (isspace h) && negb (isspace l) && negb (HexDigit h =? -1)
      && negb (HexDigit l =? -1) && (Z.lor (u8 (Z.shiftl (HexDigit h) 4)) (HexDigit l) =? x)
      && negb (HexDigit h <? 0) && negb (HexDigit l <? 0) && negb (h =? 120) && negb (l =? 120)
      && negb (tolower h =? 120) && negb (tolower l =? 120)
      && (HexDigit l =? Z.land x 15) && (HexDigit h =? Z.shiftr x 4)
      && (u8 (Z.lor (u8 (HexDigit l)) (Z.shiftl (u8 (HexDigit h)) 4)) =? x)
  | _ => false
  end.

Lemma byte_ok_all x : is_u 8 x -> byte_ok x = true.
Proof. apply all_bytes. vm_compute. reflexivity. Qed.

Lemma hex_byte_spec x : is_u 8 x -> exists h l, hex_byte x = [h; l]
  /\ isspace h = false /\ isspace l = false /\ HexDigit h = Z.shiftr x 4
  /\ HexDigit l = Z.land x 15 /\ HexDigit h <> -1 /\ HexDigit l <> -1
  /\ 0 <= HexDigit h /\ 0 <= HexDigit l
  /\ Z.lor (u8 (Z.shiftl (HexDigit h) 4)) (HexDigit l) = x
  /\ tolower h <> 120 /\ tolower l <> 120
  /\ u8 (Z.lor (u8 (HexDigit l)) (Z.shiftl (u8 (HexDigit h)) 4)) = x.
Proof.
  intros Hx. pose proof (byte_ok_all x Hx) as H. unfold byte_ok in H.
  unfold hex_byte in *. do 2 eexists. split; [done|].
  rewrite !andb_true_iff, !negb_true_iff in H. destruct_and!.
  repeat match goal with
  | H : (_ =? _) = true |- _ => apply Z.eqb_eq in H
  | H : (_ =? _) = false |- _ => apply Z.eqb_neq in H
  | H : (_ <? _) = false |- _ => apply Z.ltb_ge in H
  end. by repeat split.
Qed.

Lemma ParseHex_loop_HexStr fuel first fSpaces v : Forall (is_u 8) v -> (length v < fuel)%nat ->
  ParseHex_loop fuel (HexStr_loop first fSpaces v) = v.
Proof.
  intros Hv. revert fuel first. induction Hv as [|x v Hx _ IH]; intros fuel first Hf.
  - destruct fuel; [lia|]. done.
  - destruct fuel as [|fuel]; simpl in Hf; [lia|].
    destruct (hex_byte_spec x Hx) as (h & l & E & Hs & _ & _ & _ & Hh & Hl & _ & _ & Hval & _).
    cbn [HexStr_loop]. rewrite E. cbn [ParseHex_loop]. cbv zeta.
    assert (skip_space ((if fSpaces && negb first then [32] else []) ++ [h; l]
              ++ HexStr_loop false fSpaces v) = h :: l :: HexStr_loop false fSpaces v) as ->.
    { destruct (fSpaces && negb first); cbn; by rewrite Hs. }
    cbn [deref tail]. apply Z.eqb_neq in Hh, Hl. rewrite Hh, Hl, Hval. f_equal.
    apply IH. lia.
Qed.

Lemma length_HexStr_loop first fSpaces v : (length v <= length (HexStr_loop first fSpaces v))%nat.
Proof.
  revert first. induction v as [|x v IH]; intros first; [done|].
  cbn [HexStr_loop length]. rewrite !length_app. specialize (IH false). simpl. lia.
Qed.

Lemma length_HexStr v : length (HexStr v false) = (2 * length v)%nat.
Proof.
  unfold HexStr. generalize true. induction v as [|x v IH]; intros first; [done|].
  cbn [HexStr_loop andb app length hex_byte]. rewrite IH. lia.
Qed.

(** Hexadecimal text.  [ParseHex] inverts [HexStr] on every byte string, with
    and without separating spaces, and the text without spaces of a non-empty
    string is accepted by [IsHex]. *)
Theorem ParseHex_HexStr (v : list Z) (fSpaces : bool) :
  Forall (is_u 8) v ->
  ParseHex (HexStr v fSpaces) = v /\ IsHex (HexStr v false) = negb (length v =? 0)%nat.
Proof.
  intros Hv. split.
  - apply ParseHex_loop_HexStr; [done|]. pose proof (length_HexStr_loop true fSpaces v).
    unfold HexStr. lia.
  - unfold IsHex. rewrite length_HexStr.
    replace (2 * length v mod 2 =? 0)%nat with true
      by (symmetry; apply Nat.eqb_eq; rewrite Nat.mul_comm; apply Nat.Div0.mod_mul).
    assert (forall first,
      forallb (fun c => negb (HexDigit c <? 0)) (HexStr_loop first false v) = true) as Hf.
    { induction Hv as [|x v Hx _ IH]; intros first; [done|].
      destruct (hex_byte_spec x Hx) as (h & l & E & _ & _ & _ & _ & _ & _ & Hh & Hl & _).
      cbn [HexStr_loop andb app]. rewrite E. cbn [app forallb]. rewrite IH.
      apply Z.ltb_ge in Hh, Hl. by rewrite Hh, Hl. }
    unfold HexStr. rewrite Hf. destruct v; done.
Qed.

Lemma ParseHex_HexStr_witness :
  ParseHex (HexStr [0; 255; 18] true) = [0; 255; 18]
  /\ HexStr [0; 255; 18] true = [48; 48; 32; 102; 102; 32; 49; 50].
Proof.
  split; [|vm_compute; reflexivity].
  apply (ParseHex_HexStr [0; 255; 18] true). by_decide.
Defined.

(** ** Comparison without early exit *)

Lemma foldl_lor_zero (f : nat -> Z) acc l :
  foldl (fun acc i => Z.lor acc (f i)) acc l = 0 <-> acc = 0 /\ Forall (fun i => f i = 0) l.
Proof.
  revert acc. induction l as [|i l IH]; intros acc; simpl.
  - split; [|tauto]. intros. split; [done|constructor].
  - rewrite IH, Forall_cons. split.
    + intros [H Hl]. apply Z.lor_eq_0_iff in H. tauto.
    + intros (-> & -> & Hl). done.
Qed.

(** [TimingResistantEqual], which always visits every element of its first
    argument, decides equality of the two byte strings. *)
Theorem TimingResistantEqual_correct (a b : list Z) :
  TimingResistantEqual a b = true <-> a = b.
Proof.
  unfold TimingResistantEqual. destruct (Nat.eqb_spec (length b) 0) as [Hb|Hb].
  - apply nil_length_inv in Hb as ->. rewrite Nat.eqb_eq.
    split; [apply nil_length_inv|by intros ->].
  - rewrite Z.eqb_eq, foldl_lor_zero, Z.lxor_eq_0_iff, Nat2Z.inj_iff, Forall_forall. split.
    + intros [Hl Hi]. apply list_eq_same_length with (length a); [done|done|].
      intros i x y Hlt Hx Hy. specialize (Hi i). rewrite Z.lxor_eq_0_iff, Hl in Hi.
      rewrite Nat.mod_small in Hi by lia.
      rewrite (list_lookup_total_correct _ _ _ Hx), (list_lookup_total_correct _ _ _ Hy) in Hi.
      apply Hi, elem_of_seq. lia.
    + intros ->. split; [done|]. intros i Hi%elem_of_seq.
      rewrite Nat.mod_small by lia. apply Z.lxor_nilpotent.
Qed.
