(* ===== verification/Uint256.v ===== *)
(** * Uint256: opaque 160- and 256-bit blobs

    Models the class template [base_blob<BITS>] of [src/src/uint256.h] and
    [src/src/uint256.cpp] (the data of transaction and block identifiers), and the
    conversions to and from [arith_uint256] at the end of
    [src/src/arith_uint256.cpp].  A blob is its byte array [data]; [W] is the
    template's [WIDTH = BITS / 8] and [be] the byte order of the host. *)
From S2P Require Import Prelude Endian StrEncodings.
From S2P Require ArithUint256.

Definition blob_wf (W : nat) (data : list Z) : Prop := length data = W /\ Forall is_byte data.

#[export] Instance blob_wf_dec W data : Decision (blob_wf W data).
Proof. unfold blob_wf. apply _. Defined.

(** ** Operations *)

Definition SetNull (W : nat) : list Z := replicate W 0.

(** The constructor from a vector; [None] is the failed assertion. *)
Definition base_blob_of_vector (W : nat) (vch : list Z) : option (list Z) :=
  if (length vch =? W)%nat then Some (take W vch) else None.

(** [IsNull]: 64-bit (and one 32-bit) reads of the array on the host. *)
Definition IsNull (be : bool) (W : nat) (data : list Z) : bool :=
  let v (i : nat) := host_load be (take 8 (drop (8 * i) data)) in
  let w (i : nat) := host_load be (take 4 (drop (4 * (4 + i)) data)) in
  if (W =? 32)%nat then
    if negb (v 0%nat =? 0) then false
    else if negb (v 1%nat =? 0) then false
    else if negb (v 2%nat =? 0) then false
    else if negb (v 3%nat =? 0) then false
    else true
  else if (W =? 20)%nat then
    if negb (v 0%nat =? 0) then false
    else if negb (v 1%nat =? 0) then false
    else if negb (w 0%nat =? 0) then false
    else true
  else forallb (fun b => b =? 0) data.

(** [memcmp]: the sign of the first difference. *)
Fixpoint memcmp (a b : list Z) : Z :=
  match a, b with
  | x :: a', y :: b' => if x <? y then -1 else if x >? y then 1 else memcmp a' b'
  | _, _ => 0
  end.
Definition Compare (a b : list Z) : Z := memcmp a b.
Definition op_eq (a b : list Z) : bool := Compare a b =? 0.
Definition op_lt (a b : list Z) : bool := Compare a b <? 0.

(** ["%02x"] of a byte. *)
Definition GetHex (data : list Z) : list Z :=
  let W := length data in
  for_range 0 W (fun i psz => psz ++ hex_byte (data !!! (W - i - 1)%nat)) [].

Fixpoint take_hex (psz : list Z) : list Z :=
  match psz with
  | c :: psz' => if HexDigit c =? -1 then [] else c :: take_hex psz'
  | [] => []
  end.

(** The loop of [SetHex] from the last digit back: [psz] holds the digits not yet
    read, last one first, and [room] the bytes left between [p1] and [pend]. *)
Fixpoint SetHex_loop (room : nat) (psz : list Z) : list Z :=
  match room, psz with
  | S room', [c] => u8 (HexDigit c) :: replicate room' 0
  | S room', c :: d :: psz' =>
      u8 (Z.lor (u8 (HexDigit c)) (Z.shiftl (u8 (HexDigit d)) 4)) :: SetHex_loop room' psz'
  | _, _ => replicate room 0
  end.

Definition SetHex (W : nat) (psz : list Z) : list Z :=
  let psz := skip_space psz in
  let psz := if (deref psz =? 48) && (tolower (deref (tail psz)) =? 120)
             then tail (tail psz) else psz in
  SetHex_loop W (reverse (take_hex psz)).

Definition GetUint64 (data : list Z) (pos : nat) : Z :=
  let ptr := drop (pos * 8) data in
  let b (i : nat) := ptr !!! i in
  Z.lor (Z.lor (Z.lor (Z.lor (Z.lor (Z.lor (Z.lor (b 0%nat)
    (Z.shiftl (b 1%nat) 8)) (Z.shiftl (b 2%nat) 16)) (Z.shiftl (b 3%nat) 24))
    (Z.shiftl (b 4%nat) 32)) (Z.shiftl (b 5%nat) 40)) (Z.shiftl (b 6%nat) 48))
    (Z.shiftl (b 7%nat) 56).

Definition GetCheapHash (be : bool) (data : list Z) : Z := ReadLE64 be data.

(** [ArithToUint256] and [UintToArith256]: a limb is four bytes at offset [4x]. *)
Definition ArithToUint256 (be : bool) (a : list Z) : list Z :=
  for_range 0 ArithUint256.WIDTH (fun x b =>
    take (x * 4) b ++ WriteLE32 be (a !!! x) ++ drop (x * 4 + 4) b) (SetNull 32).

Definition UintToArith256 (be : bool) (a : list Z) : list Z :=
  for_range 0 ArithUint256.WIDTH (fun x b => <[x := ReadLE32 be (drop (x * 4) a)]> b)
    ArithUint256.zero256.

(** ** Lemmas *)

Lemma le_val_zero l : Forall is_byte l -> le_val l = 0 <-> Forall (eq 0) l.
Proof.
  induction 1 as [|b l Hb Hl IH]; [split; done|].
  cbn [le_val foldr]. fold (le_val l). pose proof (le_val_bound l Hl).
  unfold is_u in Hb. rewrite Forall_cons, <- IH. lia.
Qed.

Lemma host_load_zero be l : Forall is_byte l -> host_load be l = 0 <-> Forall (eq 0) l.
Proof.
  intros Hl. unfold host_load. destruct be; [|by apply le_val_zero].
  rewrite le_val_zero by by apply Forall_reverse. by rewrite Forall_reverse.
Qed.

Lemma memcmp_eq a b : length a = length b -> memcmp a b = 0 <-> a = b.
Proof.
  revert b. induction a as [|x a IH]; intros [|y b] Hl; try discriminate; [done|].
  simpl in *. repeat case_bool; try (split; [lia|intros; simplify_eq; lia]).
  rewrite IH by lia. assert (x = y) as -> by lia. split; [by intros ->|by intros [= ->]].
Qed.

Lemma memcmp_antisym a b : memcmp b a = - memcmp a b.
Proof.
  revert b. induction a as [|x a IH]; intros [|y b]; try done.
  cbn [memcmp]. repeat case_bool; try lia. apply IH.
Qed.

(** Pieces of the array read one after the other cover it. *)
Lemma Forall_pieces {A} (P : A -> Prop) n l :
  Forall P l <-> Forall P (take n l) /\ Forall P (drop n l).
Proof. rewrite <- Forall_app, take_drop. done. Qed.

Lemma SetHex_loop_bytes (room : nat) v : Forall is_byte v -> length v = room ->
  SetHex_loop room (reverse (foldr (fun x acc => acc ++ hex_byte x) [] v)) = v.
Proof.
  intros Hv. revert room. induction Hv as [|x v Hx _ IH]; intros room Hl; simpl in Hl; subst; [done|].
  cbn [foldr]. rewrite reverse_app.
  destruct (hex_byte_spec x Hx) as (h & l & -> & _ & _ & _ & _ & _ & _ & _ & _ & _ & _ & _ & E).
  change (reverse [h; l]) with [l; h]. cbn [app SetHex_loop]. by rewrite IH, E.
Qed.

Lemma GetHex_foldr data : GetHex data = foldr (fun x acc => acc ++ hex_byte x) [] data.
Proof.
  unfold GetHex.
  pose (P := fun (i : nat) (psz : list Z) =>
    psz = foldr (fun x acc => acc ++ hex_byte x) [] (drop (length data - i) data)).
  assert (P (0 + length data)%nat (for_range 0 (length data)
    (fun i psz => psz ++ hex_byte (data !!! (length data - i - 1)%nat)) [])) as HP.
  { apply for_range_ind.
    - unfold P. by rewrite Nat.sub_0_r, drop_all.
    - intros i psz Hi ->. unfold P.
      replace (length data - i)%nat with (S (length data - S i)) by lia.
      rewrite (drop_S data (data !!! (length data - S i)%nat) (length data - S i))
        by (apply list_lookup_lookup_total_lt; lia).
      cbn [foldr]. do 3 f_equal. lia. }
  unfold P in HP. simpl in HP. by rewrite Nat.sub_diag, drop_0 in HP.
Qed.

(** The characters of a hexadecimal dump are digits, none of them is 'x'. *)
Lemma GetHex_digits v : Forall is_byte v ->
  Forall (fun c => HexDigit c <> -1 /\ isspace c = false /\ tolower c <> 120)
    (foldr (fun x acc => acc ++ hex_byte x) [] v).
Proof.
  induction 1 as [|x v Hx _ IH]; [constructor|]. cbn [foldr]. apply Forall_app. split; [done|].
  destruct (hex_byte_spec x Hx) as (h & l & -> & ? & ? & _ & _ & ? & ? & _ & _ & _ & ? & ? & _).
  repeat constructor; done.
Qed.

Lemma SetHex_digits W s :
  Forall (fun c => HexDigit c <> -1 /\ isspace c = false /\ tolower c <> 120) s ->
  SetHex W s = SetHex_loop W (reverse s).
Proof.
  intros Hs. unfold SetHex.
  assert (skip_space s = s) as ->.
  { destruct Hs as [|c s (_ & Hc & _)]; [done|]. simpl. by rewrite Hc. }
  assert ((deref s =? 48) && (tolower (deref (tail s)) =? 120) = false) as ->.
  { apply andb_false_iff. right. apply Z.eqb_neq.
    destruct Hs as [|c s' _ [|d s'' (_ & _ & Hd)]]; [done|done|done]. }
  do 2 f_equal. induction Hs as [|c s (Hc & _) _ IH]; [done|]. simpl.
  apply Z.eqb_neq in Hc. by rewrite Hc, IH.
Qed.

(** ** Main results *)

(** Hexadecimal text of a blob.  [SetHex] restores any blob from its
    [GetHex] text (most significant byte first). *)
Theorem SetHex_GetHex (W : nat) (data : list Z) :
  blob_wf W data -> SetHex W (GetHex data) = data.
Proof.
  intros [Hl Hd]. rewrite GetHex_foldr, SetHex_digits by by apply GetHex_digits.
  by apply SetHex_loop_bytes.
Qed.

Lemma SetHex_GetHex_witness :
  SetHex 4 (GetHex [1; 0xab; 0; 0]) = [1; 0xab; 0; 0]
  /\ GetHex [1; 0xab; 0; 0] = [48; 48; 48; 48; 97; 98; 48; 49].
Proof.
  split; [|vm_compute; reflexivity]. apply (SetHex_GetHex 4). by_decide.
Defined.

Lemma ArithToUint256_concat be a : ArithUint256.wf a ->
  ArithToUint256 be a = concat (map (le_bytes 4) a).
Proof.
  intros Ha. pose proof (ArithUint256.wf_length a Ha) as Hl. unfold ArithToUint256.
  assert (forall x, length (concat (map (le_bytes 4) (take x a))) = (4 * Nat.min x 8)%nat) as Hlen.
  { intros x. change 8%nat with ArithUint256.WIDTH. rewrite <- Hl, <- length_take. generalize (take x a) as l. clear.
    induction l as [|y l IH]; [done|]. cbn [map concat length].
    rewrite length_app, length_le_bytes, IH. lia. }
  pose (P := fun (x : nat) (b : list Z) =>
    b = concat (map (le_bytes 4) (take x a)) ++ replicate (32 - 4 * x) 0).
  match goal with |- for_range 0 _ ?f ?s = _ =>
    assert (P (0 + ArithUint256.WIDTH)%nat (for_range 0 ArithUint256.WIDTH f s)) as HP end.
  { apply for_range_ind; [done|]. unfold P. intros x b Hx ->.
    unfold ArithUint256.WIDTH in *. rewrite WriteLE32_bytes.
    assert (length (concat (map (le_bytes 4) (take x a))) = (x * 4)%nat) as E
      by (rewrite Hlen; lia).
    rewrite take_app_length' by done. rewrite drop_app_ge by lia. rewrite E.
    rewrite drop_replicate.
    rewrite (take_S_r a x (a !!! x)) by (apply list_lookup_lookup_total_lt; lia).
    rewrite map_app, concat_app. cbn [map concat]. rewrite app_nil_r, <- app_assoc.
    do 3 f_equal. lia. }
  etransitivity; [exact HP|]. change (0 + ArithUint256.WIDTH)%nat with 8%nat.
  simpl replicate. rewrite app_nil_r, take_ge by (rewrite Hl; unfold ArithUint256.WIDTH; lia). done.
Qed.

Lemma concat_le_bytes (l : list Z) : Forall (is_u 32) l ->
  Forall is_byte (concat (map (le_bytes 4) l))
  /\ length (concat (map (le_bytes 4) l)) = (4 * length l)%nat
  /\ le_val (concat (map (le_bytes 4) l)) = ArithUint256.val l.
Proof.
  induction 1 as [|x l Hx _ (IH1 & IH2 & IH3)]; [done|]. cbn [map concat length].
  split; [apply Forall_app; split; [apply le_bytes_bytes|done]|].
  rewrite length_app, length_le_bytes, IH2. split; [lia|].
  rewrite le_val_app, le_val_le_bytes, length_le_bytes, IH3. cbn [ArithUint256.val foldr].
  fold (ArithUint256.val l). rewrite Z.mod_small by done. done.
Qed.

Lemma UintToArith256_map be d : blob_wf 32 d ->
  UintToArith256 be d = map (fun x => le_val (take 4 (drop (x * 4) d))) (seq 0 8).
Proof.
  intros [Hl Hd]. unfold UintToArith256.
  rewrite (ArithUint256.pointwise_loop (fun x _ => ReadLE32 be (drop (x * 4) d))) by done.
  assert (forall x, (x < 8)%nat ->
    ReadLE32 be (drop (x * 4) d) = le_val (take 4 (drop (x * 4) d))) as E.
  { intros x Hx. apply ReadLE32_val; [rewrite length_drop; lia|by apply Forall_drop]. }
  unfold ArithUint256.zero256, ArithUint256.WIDTH. cbn [replicate imap seq map].
  unfold compose. by rewrite !E by lia.
Qed.

Lemma concat_chunks (d : list Z) n :
  concat (map (fun x => take 4 (drop (x * 4) d)) (seq 0 n)) = take (n * 4) d.
Proof.
  induction n as [|n IH]; [done|]. rewrite seq_S, map_app, concat_app, IH. cbn [map concat].
  rewrite app_nil_r, take_take_drop. f_equal. lia.
Qed.

Lemma ArithToUint256_UintToArith256 be d : blob_wf 32 d ->
  ArithUint256.wf (UintToArith256 be d) /\ ArithToUint256 be (UintToArith256 be d) = d.
Proof.
  intros Hd. rewrite UintToArith256_map by done. destruct Hd as [Hl Hd].
  assert (forall x, (x < 8)%nat -> length (take 4 (drop (x * 4) d)) = 4%nat) as H4.
  { intros x Hx. rewrite length_take, length_drop. lia. }
  assert (forall x, Forall is_byte (take 4 (drop (x * 4) d))) as Hb.
  { intros x. by apply Forall_take, Forall_drop. }
  assert (ArithUint256.wf (map (fun x => le_val (take 4 (drop (x * 4) d))) (seq 0 8))) as Hw.
  { split; [done|]. apply Forall_fmap, Forall_forall. intros x Hx%elem_of_seq. simpl.
    pose proof (le_val_bound _ (Hb x)) as B. rewrite H4 in B by lia. exact B. }
  split; [done|]. rewrite ArithToUint256_concat by done. rewrite map_map.
  rewrite (map_ext_in _ (fun x => take 4 (drop (x * 4) d))).
  - rewrite concat_chunks. apply take_ge. lia.
  - intros x Hx%list_elem_of_In%elem_of_seq.
    rewrite <- (H4 x) at 1 by lia. by apply le_bytes_le_val.
Qed.

(** Identifiers as numbers.  On either host, converting an [arith_uint256]
    to a [uint256] stores its number in little-endian bytes, and the two
    conversions are inverse to each other. *)
Theorem arith_uint256_conversion (be : bool) (a d : list Z) :
  ArithUint256.wf a -> blob_wf 32 d ->
  (blob_wf 32 (ArithToUint256 be a) /\ le_val (ArithToUint256 be a) = ArithUint256.val a
   /\ UintToArith256 be (ArithToUint256 be a) = a) /\
  (ArithUint256.wf (UintToArith256 be d) /\ ArithUint256.val (UintToArith256 be d) = le_val d
   /\ ArithToUint256 be (UintToArith256 be d) = d).
Proof.
  assert (forall a, ArithUint256.wf a -> blob_wf 32 (ArithToUint256 be a)
    /\ le_val (ArithToUint256 be a) = ArithUint256.val a) as H1.
  { intros a0 Ha. rewrite ArithToUint256_concat by done.
    destruct (concat_le_bytes a0 (proj2 Ha)) as (Hb & Hl & Hv).
    rewrite (ArithUint256.wf_length a0 Ha) in Hl. done. }
  intros Ha Hd. destruct (H1 a Ha) as [Hb Hv]. destruct (ArithToUint256_UintToArith256 be d Hd)
    as [Hw Hr]. destruct (H1 _ Hw) as [_ Hv']. rewrite Hr in Hv'.
  split; [|done]. split; [done|]. split; [done|].
  destruct (ArithToUint256_UintToArith256 be _ Hb) as [Hw' Hr'].
  destruct (H1 _ Hw') as [_ Hv'']. rewrite Hr', Hv in Hv''.
  apply ArithUint256.val_inj; [apply Hw'|apply Ha| |done].
  rewrite !ArithUint256.wf_length by done. done.
Qed.

Lemma arith_uint256_conversion_witness :
  UintToArith256 true (ArithToUint256 true [1; 2; 3; 4; 5; 6; 7; 8]) = [1; 2; 3; 4; 5; 6; 7; 8].
Proof.
  destruct (arith_uint256_conversion true [1; 2; 3; 4; 5; 6; 7; 8] (SetNull 32))
    as [(_ & _ & H) _]; [by_decide..|exact H].
Defined.

Lemma all_zero_SetNull W data : length data = W -> Forall (eq 0) data <-> data = SetNull W.
Proof.
  intros <-. unfold SetNull. split; [|intros ->; by apply Forall_replicate].
  intros H. symmetry. apply replicate_as_elem_of. split; [done|].
  intros x Hx. rewrite Forall_forall in H. symmetry. by apply H.
Qed.

Lemma IsNull_spec be W data : blob_wf W data -> IsNull be W data = true <-> Forall (eq 0) data.
Proof.
  intros [Hl Hd]. unfold IsNull.
  assert (forall n m, (host_load be (take m (drop n data)) =? 0) = true
            <-> Forall (eq 0) (take m (drop n data))) as Hz
    by (intros; rewrite Z.eqb_eq; by apply host_load_zero, Forall_take, Forall_drop).
  assert (forall b c : bool, (if negb b then false else c) = true <-> b = true /\ c = true)
    as Hif by (intros [] []; simpl; intuition congruence).
  rewrite (Forall_pieces _ 8 data), (Forall_pieces _ 8 (drop 8 data)), drop_drop.
  destruct (Nat.eqb_spec W 32) as [E|_]; [|destruct (Nat.eqb_spec W 20) as [E|_]].
  - rewrite !Hif, !Hz. rewrite (Forall_pieces _ 8 (drop (8 + 8) data)), drop_drop.
    rewrite <- (take_ge (drop (8 + 8 + 8) data) 8) by (rewrite length_drop; lia).
    simpl. tauto.
  - rewrite !Hif, !Hz. rewrite <- (take_ge (drop (8 + 8) data) 4) by (rewrite length_drop; lia).
    simpl. tauto.
  - rewrite <- drop_drop, <- Forall_pieces, <- Forall_pieces. clear.
    rewrite forallb_forall, Forall_forall. setoid_rewrite list_elem_of_In.
    split; intros H x Hx; specialize (H x Hx); lia.
Qed.

Lemma GetUint64_val data pos : Forall is_byte data -> (pos * 8 + 8 <= length data)%nat ->
  GetUint64 data pos = le_val (take 8 (drop (pos * 8) data)).
Proof.
  intros Hd Hp. unfold GetUint64. set (l := drop (pos * 8) data).
  assert (Forall is_byte l) as Hl by by apply Forall_drop.
  assert (8 <= length l)%nat as H8 by (unfold l; rewrite length_drop; lia). clearbody l.
  do 8 (destruct l as [|? l]; [simpl in H8; lia|]).
  repeat apply Forall_cons in Hl as [? Hl]. unfold is_u in *. cbn [lookup_total list_lookup_total take].
  rewrite !shiftl_mul by lia. or_bytes. cbn [take le_val foldr]. rewrite take_0. cbn [foldr]. lia.
Qed.

(** Predicates on identifiers.  On either host, the word-wise [IsNull] test
    of 160- and 256-bit blobs accepts exactly the all-zero blob; [==] is equality
    and [<] is a strict order that is total on blobs of one width; [GetUint64]
    and [GetCheapHash] read little-endian words. *)
Theorem blob_predicates (be : bool) (W : nat) (a b : list Z) :
  blob_wf W a -> blob_wf W b ->
  (IsNull be W a = true <-> a = SetNull W) /\
  (op_eq a b = true <-> a = b) /\
  (op_lt a b = true <-> op_eq a b = false /\ op_lt b a = false) /\
  (forall pos, (pos * 8 + 8 <= W)%nat ->
     GetUint64 a pos = le_val (take 8 (drop (pos * 8) a))) /\
  ((8 <= W)%nat -> GetCheapHash be a = GetUint64 a 0).
Proof.
  intros Ha Hb. pose proof Ha as [Hla Hfa]. destruct Hb as [Hlb Hfb]. split; [|split; [|split; [|split]]].
  - rewrite (IsNull_spec be W a) by done. by apply all_zero_SetNull.
  - unfold op_eq, Compare. rewrite Z.eqb_eq. apply memcmp_eq. lia.
  - unfold op_lt, op_eq, Compare. rewrite (memcmp_antisym a b). rewrite Z.eqb_neq, Z.ltb_ge, Z.ltb_lt. lia.
  - intros pos Hp. apply GetUint64_val; [done|lia].
  - intros H8. rewrite GetUint64_val by (done || lia).
    change (0 * 8)%nat with 0%nat. rewrite drop_0. unfold GetCheapHash. apply ReadLE64_val; [lia|done].
Qed.

Lemma blob_predicates_witness :
  IsNull true 20 (SetNull 20) = true /\ op_lt (SetNull 20) (1 :: SetNull 19) = true.
Proof.
  destruct (blob_predicates true 20 (SetNull 20) (1 :: SetNull 19)) as (H & _ & _);
    [by_decide..|].
  split; [apply H; reflexivity|vm_compute; reflexivity].
Defined.
