(* ===== verification/Serialize.v ===== *)
(** * Serialize: the wire and disk format

    Models [src/src/serialize.h].  A template parameter [Stream] of a writing
    function is an instance of the class [OStream] (its [write] and the overloads
    of [WriteCompactSize] and [WriteVarInt], which differ for [CSizeComputer]); a
    stream that is read is the list of its unread bytes, and a read past the end
    or a [throw] is an [Err].  An overload of [Serialize]/[Unserialize] for one C++
    type is a [Codec]; [Lawful] is what the rest of the program relies on: the
    same bytes are appended to any stream, reading back gives the value, and
    [GetSerializeSize] is the number of bytes written.  [be] is the byte order of
    the host. *)
From stdpp Require Import sorting.
From S2P Require Import Prelude Endian.

Definition MAX_SIZE : Z := 0x02000000.

Inductive ser_error : Set :=
| end_of_data            (** read past the end of the stream *)
| non_canonical_size     (** "non-canonical ReadCompactSize()" *)
| size_too_large         (** "ReadCompactSize(): size too large" *)
| string_limit_exceeded  (** "String length limit exceeded" *)
| unknown_tx_data.       (** "Unknown transaction optional data" *)

(** ** Reading *)

Definition Reader (A : Type) : Type := list Z -> result ser_error (A * list Z).

#[export] Instance Reader_ret : MRet Reader := fun A a s => Ok (a, s).
#[export] Instance Reader_bind : MBind Reader := fun A B f m s =>
  match m s with Ok (a, s') => f a s' | Err e => Err e end.

Definition throw {A} (e : ser_error) : Reader A := fun _ => Err e.

(** [s.read(p, n)] *)
Definition read (n : Z) : Reader (list Z) := fun s =>
  if Z.of_nat (length s) <? n then Err end_of_data
  else Ok (take (Z.to_nat n) s, drop (Z.to_nat n) s).

Section host.
Variable be : bool.

Definition ser_readdata8 : Reader Z := bs ← read 1; mret (bs !!! 0%nat).
Definition ser_readdata16 : Reader Z := bs ← read 2; mret (le16toh be (host_load be bs)).
Definition ser_readdata32 : Reader Z := bs ← read 4; mret (le32toh be (host_load be bs)).
Definition ser_readdata64 : Reader Z := bs ← read 8; mret (le64toh be (host_load be bs)).

Definition ReadCompactSize : Reader Z :=
  chSize ← ser_readdata8;
  nSizeRet ←
    (if chSize <? 253 then mret chSize
     else if chSize =? 253 then
       n ← ser_readdata16;
       (if n <? 253 then throw non_canonical_size else mret n)
     else if chSize =? 254 then
       n ← ser_readdata32;
       (if n <? 0x10000 then throw non_canonical_size else mret n)
     else
       n ← ser_readdata64;
       (if n <? 0x100000000 then throw non_canonical_size else mret n));
  (if nSizeRet >? MAX_SIZE then throw size_too_large else mret nSizeRet).

(** [ReadVarInt<Stream, I>] for an unsigned [I] of [w] bits; every iteration
    consumes a byte of the stream. *)
Fixpoint ReadVarInt_from (w n : Z) (s : list Z) : result ser_error (Z * list Z) :=
  match s with
  | [] => Err end_of_data
  | chData :: s' =>
      let n := Z.lor (uwrap w (Z.shiftl n 7)) (Z.land chData 0x7F) in
      if negb (Z.land chData 0x80 =? 0) then ReadVarInt_from w (uwrap w (n + 1)) s'
      else Ok (n, s')
  end.
Definition ReadVarInt (w : Z) : Reader Z := ReadVarInt_from w 0.
End host.

(** ** Writing *)

Class OStream (St : Type) : Type := {
  write : list Z -> St -> St;
  WriteCompactSize : bool -> Z -> St -> St;
  WriteVarInt : Z -> Z -> St -> St;
}.

Section templates.
Context {St : Type} (wr : list Z -> St -> St) (be : bool).

Definition ser_writedata8 (obj : Z) (s : St) : St := wr [u8 obj] s.
Definition ser_writedata16 (obj : Z) (s : St) : St :=
  wr (host_store be 2 (htole16 be (u16 obj))) s.
Definition ser_writedata32 (obj : Z) (s : St) : St :=
  wr (host_store be 4 (htole32 be (u32 obj))) s.
Definition ser_writedata64 (obj : Z) (s : St) : St :=
  wr (host_store be 8 (htole64 be (u64 obj))) s.

(** The template [WriteCompactSize<Stream>]. *)
Definition WriteCompactSize_stream (nSize : Z) (os : St) : St :=
  if nSize <? 253 then ser_writedata8 nSize os
  else if nSize <=? 0xffff then ser_writedata16 nSize (ser_writedata8 253 os)
  else if nSize <=? 0xffffffff then ser_writedata32 nSize (ser_writedata8 254 os)
  else ser_writedata64 nSize (ser_writedata8 255 os).
End templates.

Definition GetSizeOfCompactSize (nSize : Z) : Z :=
  if nSize <? 253 then 1
  else if nSize <=? 0xffff then 1 + 2
  else if nSize <=? 0xffffffff then 1 + 4
  else 1 + 8.

(** The bytes [tmp[0], tmp[1], ..., tmp[len]] of [WriteVarInt].  [fuel] bounds the
    loop: seven bits are shifted out each time, so [w] iterations suffice. *)
Fixpoint varint_tmp (fuel : nat) (n : Z) (first : bool) : list Z :=
  let b := Z.lor (Z.land n 0x7F) (if first then 0x00 else 0x80) in
  match fuel with
  | O => [b]
  | S fuel' => if n <=? 0x7F then [b] else b :: varint_tmp fuel' (Z.shiftr n 7 - 1) false
  end.

Definition WriteVarInt_stream {St} (wr : list Z -> St -> St) (w n : Z) (os : St) : St :=
  foldl (fun os b => ser_writedata8 wr b os) os (reverse (varint_tmp (Z.to_nat w) n true)).

Fixpoint GetSizeOfVarInt_loop (fuel : nat) (n nRet : Z) : Z :=
  let nRet := nRet + 1 in
  match fuel with
  | O => nRet
  | S fuel' => if n <=? 0x7F then nRet else GetSizeOfVarInt_loop fuel' (Z.shiftr n 7 - 1) nRet
  end.
Definition GetSizeOfVarInt (w n : Z) : Z := GetSizeOfVarInt_loop (Z.to_nat w) n 0.

(** A stream that keeps the bytes written to it. *)
Definition append (bs s : list Z) : list Z := s ++ bs.

#[export] Instance DataStream : OStream (list Z) := {
  write := append;
  WriteCompactSize be := WriteCompactSize_stream append be;
  WriteVarInt := WriteVarInt_stream append;
}.

(** [CSizeComputer]: only [nSize] is kept; [write] and [seek] add to it. *)
Record CSizeComputer : Type := { nSize : Z }.
Definition seek (n : Z) (s : CSizeComputer) : CSizeComputer := {| nSize := u64 (nSize s + n) |}.

#[export] Instance SizeStream : OStream CSizeComputer := {
  write bs := seek (Z.of_nat (length bs));
  WriteCompactSize _ n := seek (GetSizeOfCompactSize n);
  WriteVarInt w n := seek (GetSizeOfVarInt w n);
}.

(** ** Overloads of [Serialize] and [Unserialize] *)

Record Codec (T : Type) : Type := {
  Serialize : forall {St : Type} {os : OStream St}, T -> St -> St;
  Unserialize : Reader T;
}.
Arguments Serialize {T} _ {St os} _ _.
Arguments Unserialize {T} _ _.

Definition GetSerializeSize {T} (c : Codec T) (t : T) : Z :=
  nSize (Serialize c t {| nSize := 0 |}).

(** The bytes a value is written as. *)
Definition bytes_of {T} (c : Codec T) (t : T) : list Z := Serialize c t ([] : list Z).

Section codecs.
Variable be : bool.

Definition ser_uint8 : Codec Z :=
  {| Serialize St os := ser_writedata8 write; Unserialize := ser_readdata8 |}.
Definition ser_int8 : Codec Z :=
  {| Serialize St os := ser_writedata8 write;
     Unserialize := n ← ser_readdata8; mret (i8 n) |}.
Definition ser_uint16 : Codec Z :=
  {| Serialize St os := ser_writedata16 write be; Unserialize := ser_readdata16 be |}.
Definition ser_int16 : Codec Z :=
  {| Serialize St os := ser_writedata16 write be;
     Unserialize := n ← ser_readdata16 be; mret (i16 n) |}.
Definition ser_uint32 : Codec Z :=
  {| Serialize St os := ser_writedata32 write be; Unserialize := ser_readdata32 be |}.
Definition ser_int32 : Codec Z :=
  {| Serialize St os := ser_writedata32 write be;
     Unserialize := n ← ser_readdata32 be; mret (i32 n) |}.
Definition ser_uint64 : Codec Z :=
  {| Serialize St os := ser_writedata64 write be; Unserialize := ser_readdata64 be |}.
Definition ser_int64 : Codec Z :=
  {| Serialize St os := ser_writedata64 write be;
     Unserialize := n ← ser_readdata64 be; mret (i64 n) |}.
Definition ser_bool : Codec bool :=
  {| Serialize St os a := ser_writedata8 write (Z.b2z a);
     Unserialize := f ← ser_readdata8; mret (negb (f =? 0)) |}.

(** Arrays of [n] bytes, [CFlatData] and the member functions of [base_blob]. *)
Definition ser_flat (n : Z) : Codec (list Z) :=
  {| Serialize St os := write; Unserialize := read n |}.

(** [VARINT(obj)] for an unsigned type of [w] bits. *)
Definition ser_varint (w : Z) : Codec Z :=
  {| Serialize St os := WriteVarInt w; Unserialize := ReadVarInt w |}.

Definition ser_compactsize : Codec Z :=
  {| Serialize St os := WriteCompactSize be; Unserialize := ReadCompactSize be |}.

Definition write_sized {St} {os : OStream St} (v : list Z) (s : St) : St :=
  let s := WriteCompactSize be (Z.of_nat (length v)) s in
  if (length v =? 0)%nat then s else write v s.

Definition ser_limited_string (Limit : Z) : Codec (list Z) :=
  {| Serialize St os := write_sized;
     Unserialize := size ← ReadCompactSize be;
       (if size >? Limit then throw string_limit_exceeded
        else if negb (size =? 0) then read size else mret []) |}.

Definition ser_string : Codec (list Z) :=
  {| Serialize St os := write_sized;
     Unserialize := nSize ← ReadCompactSize be;
       (if negb (nSize =? 0) then read nSize else mret []) |}.

(** [Unserialize_impl] for bytes: blocks of at most 5000000.  [fuel] counts the
    blocks. *)
Fixpoint read_blocks (fuel : nat) (i nSize : Z) (v : list Z) : Reader (list Z) :=
  match fuel with
  | O => mret v
  | S fuel' =>
      if i <? nSize then
        let blk := Z.min (nSize - i) (1 + 4999999 / 1) in
        bs ← read blk; read_blocks fuel' (i + blk) nSize (v ++ bs)
      else mret v
  end.

(** [std::vector<unsigned char>] and [prevector<N, unsigned char>]. *)
Definition ser_byte_vector : Codec (list Z) :=
  {| Serialize St os := write_sized;
     Unserialize := nSize ← ReadCompactSize be;
       read_blocks (Z.to_nat (nSize / 5000000 + 1)) 0 nSize [] |}.

Fixpoint read_n {T} (n : nat) (rd : Reader T) : Reader (list T) :=
  match n with
  | O => mret []
  | S n' => x ← rd; xs ← read_n n' rd; mret (x :: xs)
  end.

(** [Unserialize_impl] for other elements: room is made for [5000000 / sizeof(T)]
    elements at a time. *)
Fixpoint read_elems {T} (sizeofT : Z) (rd : Reader T) (fuel : nat) (i nMid nSize : Z)
    (v : list T) : Reader (list T) :=
  match fuel with
  | O => mret v
  | S fuel' =>
      if nMid <? nSize then
        let nMid := u32 (nMid + 5000000 / sizeofT) in
        let nMid := if nMid >? nSize then nSize else nMid in
        vs ← read_n (Z.to_nat (nMid - i)) rd;
        read_elems sizeofT rd fuel' nMid nMid nSize (v ++ vs)
      else mret v
  end.

Definition write_elems {T} (c : Codec T) {St} {os : OStream St} (v : list T) (s : St) : St :=
  foldl (fun s x => Serialize c x s) (WriteCompactSize be (Z.of_nat (length v)) s) v.

(** [std::vector<T>] and [prevector<N, T>] for [sizeof(T) = sizeofT]. *)
Definition ser_vector {T} (sizeofT : Z) (c : Codec T) : Codec (list T) :=
  {| Serialize St os := write_elems c;
     Unserialize := nSize ← ReadCompactSize be;
       read_elems sizeofT (Unserialize c)
         (Z.to_nat (nSize / (5000000 / sizeofT) + 1)) 0 0 nSize [] |}.

Definition ser_pair {A B} (ca : Codec A) (cb : Codec B) : Codec (A * B) :=
  {| Serialize St os p s := Serialize cb p.2 (Serialize ca p.1 s);
     Unserialize := a ← Unserialize ca; b ← Unserialize cb; mret (a, b) |}.

(** A [std::map] or [std::set] is the list of its entries in iteration order;
    [insert] does nothing when the key is present. *)
Fixpoint map_insert {K A} (lt : K -> K -> bool) (key : A -> K) (x : A) (m : list A) : list A :=
  match m with
  | [] => [x]
  | y :: m' => if lt (key x) (key y) then x :: m
               else if lt (key y) (key x) then y :: map_insert lt key x m'
               else m
  end.

Fixpoint read_map {K A} (lt : K -> K -> bool) (key : A -> K) (rd : Reader A) (n : nat)
    (m : list A) : Reader (list A) :=
  match n with
  | O => mret m
  | S n' => item ← rd; read_map lt key rd n' (map_insert lt key item m)
  end.

Definition ser_map {K A} (lt : K -> K -> bool) (key : A -> K) (c : Codec A) : Codec (list A) :=
  {| Serialize St os := write_elems c;
     Unserialize := nSize ← ReadCompactSize be;
       read_map lt key (Unserialize c) (Z.to_nat nSize) [] |}.

(** A class whose [SerializationOp] reads and writes its fields in order: the
    tuple of the fields, viewed as the record. *)
Definition ser_iso {A B} (to : B -> A) (from : A -> B) (c : Codec A) : Codec B :=
  {| Serialize St os b := Serialize c (to b);
     Unserialize := a ← Unserialize c; mret (from a) |}.
End codecs.

Arguments read_n {T} _ _ _.

(** ** Laws *)

Class Lawful {T : Type} (valid : T -> Prop) (c : Codec T) : Prop := {
  law_append t (s : list Z) : valid t -> Serialize c t s = s ++ bytes_of c t;
  law_bytes t : valid t -> Forall is_byte (bytes_of c t);
  law_size t (s : CSizeComputer) : valid t ->
    Serialize c t s = seek (Z.of_nat (length (bytes_of c t))) s;
  law_read t rest : valid t -> Unserialize c (bytes_of c t ++ rest) = Ok (t, rest);
}.

Lemma read_app n (l rest : list Z) : Z.of_nat (length l) = n -> read n (l ++ rest) = Ok (l, rest).
Proof.
  intros <-. unfold read. rewrite length_app. case_bool; [lia|].
  rewrite Nat2Z.id, take_app_length, drop_app_length. done.
Qed.

Lemma read_inv n s l rest : 0 <= n -> read n s = Ok (l, rest) ->
  s = l ++ rest /\ Z.of_nat (length l) = n.
Proof.
  unfold read. intros Hn. case_bool; [done|]. intros [= <- <-].
  rewrite take_drop, length_take. split; [done|lia].
Qed.

Lemma bind_Ok {A B} (m : Reader A) (f : A -> Reader B) s a s' :
  m s = Ok (a, s') -> (m ≫= f) s = f a s'.
Proof. intros E. unfold mbind, Reader_bind. by rewrite E. Qed.

Lemma bind_inv {A B} (m : Reader A) (f : A -> Reader B) s r :
  (m ≫= f) s = Ok r -> exists a s', m s = Ok (a, s') /\ f a s' = Ok r.
Proof.
  unfold mbind, Reader_bind. destruct (m s) as [[a s']|e] eqn:E; [|done]. eauto.
Qed.

Lemma seek_seek a b s : seek b (seek a s) = seek (a + b) s.
Proof.
  unfold seek. simpl. f_equal. unfold uwrap. rewrite Zplus_mod_idemp_l. f_equal. lia.
Qed.

(** *** Fixed-width integers *)

Section integers.
Variable be : bool.

Lemma store16 x : host_store be 2 (htole16 be (u16 x)) = le_bytes 2 x.
Proof.
  rewrite <- (le_bytes_mod 2 x). apply store_le, bswap_16_spec. by apply uwrap_range.
Qed.
Lemma store32 x : host_store be 4 (htole32 be (u32 x)) = le_bytes 4 x.
Proof. rewrite <- (le_bytes_mod 4 x). by apply store_le, bswap_32_spec. Qed.
Lemma store64 x : host_store be 8 (htole64 be (u64 x)) = le_bytes 8 x.
Proof. rewrite <- (le_bytes_mod 8 x). by apply store_le, bswap_64_spec. Qed.

Lemma load16 l : length l = 2%nat -> Forall is_byte l -> le16toh be (host_load be l) = le_val l.
Proof.
  intros Hl Hb. apply (load_le be 2); [done..|]. apply bswap_16_spec.
  pose proof (le_val_bound (reverse l)) as B. rewrite length_reverse, Hl in B.
  apply B. by apply Forall_reverse.
Qed.
Lemma load32 l : length l = 4%nat -> Forall is_byte l -> le32toh be (host_load be l) = le_val l.
Proof. intros. apply (load_le be 4); [done..|]. apply bswap_32_spec. Qed.
Lemma load64 l : length l = 8%nat -> Forall is_byte l -> le64toh be (host_load be l) = le_val l.
Proof. intros. apply (load_le be 8); [done..|]. apply bswap_64_spec. Qed.

Lemma readdata8_app x rest : ser_readdata8 (x :: rest) = Ok (x, rest).
Proof.
  unfold ser_readdata8. erewrite bind_Ok; [|by apply (read_app 1 [x] rest)]. done.
Qed.
Lemma readdata16_app x rest : ser_readdata16 be (le_bytes 2 x ++ rest) = Ok (u16 x, rest).
Proof.
  unfold ser_readdata16. erewrite bind_Ok; [|by apply read_app; rewrite length_le_bytes].
  rewrite load16 by (apply length_le_bytes || apply le_bytes_bytes). by rewrite le_val_le_bytes.
Qed.
Lemma readdata32_app x rest : ser_readdata32 be (le_bytes 4 x ++ rest) = Ok (u32 x, rest).
Proof.
  unfold ser_readdata32. erewrite bind_Ok; [|by apply read_app; rewrite length_le_bytes].
  rewrite load32 by (apply length_le_bytes || apply le_bytes_bytes). by rewrite le_val_le_bytes.
Qed.
Lemma readdata64_app x rest : ser_readdata64 be (le_bytes 8 x ++ rest) = Ok (u64 x, rest).
Proof.
  unfold ser_readdata64. erewrite bind_Ok; [|by apply read_app; rewrite length_le_bytes].
  rewrite load64 by (apply length_le_bytes || apply le_bytes_bytes). by rewrite le_val_le_bytes.
Qed.

Ltac int_codec :=
  split; intros; unfold bytes_of, ser_uint8, ser_int8, ser_uint16, ser_int16, ser_uint32,
    ser_int32, ser_uint64, ser_int64, ser_writedata8, ser_writedata16, ser_writedata32,
    ser_writedata64; cbn [Serialize Unserialize write DataStream SizeStream append app];
  rewrite ?store16, ?store32, ?store64, ?length_le_bytes;
  [ done
  | first [apply le_bytes_bytes | apply Forall_singleton, uwrap_range; done]
  | done
  | cbn [app]; unfold mbind, Reader_bind;
    rewrite ?readdata8_app, ?readdata16_app, ?readdata32_app, ?readdata64_app;
    rewrite ?uwrap_small, ?swrap_uwrap by (done || lia); done ].

#[export] Instance uint8_lawful : Lawful (is_u 8) ser_uint8.
Proof. int_codec. Qed.
#[export] Instance int8_lawful : Lawful (is_s 8) ser_int8.
Proof. int_codec. Qed.
#[export] Instance uint16_lawful : Lawful (is_u 16) (ser_uint16 be).
Proof. int_codec. Qed.
#[export] Instance int16_lawful : Lawful (is_s 16) (ser_int16 be).
Proof. int_codec. Qed.
#[export] Instance uint32_lawful : Lawful (is_u 32) (ser_uint32 be).
Proof. int_codec. Qed.
#[export] Instance int32_lawful : Lawful (is_s 32) (ser_int32 be).
Proof. int_codec. Qed.
#[export] Instance uint64_lawful : Lawful (is_u 64) (ser_uint64 be).
Proof. int_codec. Qed.
#[export] Instance int64_lawful : Lawful (is_s 64) (ser_int64 be).
Proof. int_codec. Qed.

#[export] Instance bool_lawful : Lawful (fun _ => True) ser_bool.
Proof.
  split; intros; unfold bytes_of, ser_bool, ser_writedata8;
    cbn [Serialize Unserialize write DataStream SizeStream append app].
  - done.
  - by apply Forall_singleton, uwrap_range.
  - done.
  - cbn [app]. unfold mbind, Reader_bind. rewrite readdata8_app. by destruct t.
Qed.

#[export] Instance flat_lawful n :
  Lawful (fun l => Z.of_nat (length l) = n /\ Forall is_byte l) (ser_flat n).
Proof.
  split; intros; unfold bytes_of, ser_flat;
    cbn [Serialize Unserialize write DataStream SizeStream append app].
  - done.
  - tauto.
  - done.
  - apply read_app. tauto.
Qed.
End integers.

(** *** Compact sizes *)

(** The canonical encoding, on any host. *)
Definition cs_bytes (n : Z) : list Z :=
  if n <? 253 then [n]
  else if n <=? 0xffff then 253 :: le_bytes 2 n
  else if n <=? 0xffffffff then 254 :: le_bytes 4 n
  else 255 :: le_bytes 8 n.

Section compact_size.
Variable be : bool.

Lemma WriteCompactSize_append n (s : list Z) : is_u 64 n ->
  WriteCompactSize be n s = s ++ cs_bytes n.
Proof.
  unfold is_u. intros Hn. cbn [WriteCompactSize DataStream].
  unfold WriteCompactSize_stream, cs_bytes, ser_writedata8, ser_writedata16, ser_writedata32,
    ser_writedata64, append.
  rewrite store16, store32, store64.
  repeat case_bool; rewrite <- ?app_assoc; try done.
  rewrite uwrap_small by (unfold is_u; lia). done.
Qed.

Lemma length_cs_bytes n : Z.of_nat (length (cs_bytes n)) = GetSizeOfCompactSize n.
Proof.
  unfold cs_bytes, GetSizeOfCompactSize. repeat case_bool; cbn [length];
    rewrite ?length_le_bytes; done.
Qed.

Lemma cs_bytes_bytes n : 0 <= n -> Forall is_byte (cs_bytes n).
Proof.
  intros Hn. unfold cs_bytes. repeat case_bool;
    (apply Forall_cons; split; [unfold is_u; lia|]);
    first [apply le_bytes_bytes|by apply Forall_nil].
Qed.

Lemma ReadCompactSize_app n rest : 0 <= n <= MAX_SIZE ->
  ReadCompactSize be (cs_bytes n ++ rest) = Ok (n, rest).
Proof.
  unfold MAX_SIZE. intros Hn. unfold ReadCompactSize, cs_bytes, mbind, Reader_bind.
  repeat case_bool; cbn [app]; rewrite readdata8_app; cbv iota beta;
    try (exfalso; lia).
  - replace (n <? 253) with true by lia. cbv [mret Reader_ret].
    replace (n >? MAX_SIZE) with false by (unfold MAX_SIZE; lia). done.
  - change (253 <? 253) with false. change (253 =? 253) with true. cbv iota beta.
    rewrite readdata16_app, uwrap_small by (unfold is_u; lia). cbv iota beta.
    replace (n <? 253) with false by lia. cbv [mret Reader_ret].
    replace (n >? MAX_SIZE) with false by (unfold MAX_SIZE; lia). done.
  - change (254 <? 253) with false. change (254 =? 253) with false.
    change (254 =? 254) with true. cbv iota beta.
    rewrite readdata32_app, uwrap_small by (unfold is_u; lia). cbv iota beta.
    replace (n <? 65536) with false by lia. cbv [mret Reader_ret].
    replace (n >? MAX_SIZE) with false by (unfold MAX_SIZE; lia). done.
Qed.

(** A read of [k] little-endian bytes, inverted. *)
Lemma readdata_inv k (conv : list Z -> Z) s n rest :
  (forall l, length l = k -> Forall is_byte l -> conv l = le_val l) ->
  Forall is_byte s ->
  (bs ← read (Z.of_nat k); mret (conv bs)) s = Ok (n, rest) ->
  s = le_bytes k n ++ rest /\ is_u (8 * Z.of_nat k) n.
Proof.
  intros Hc Hs H. apply bind_inv in H as (l & s' & Hr & E).
  apply read_inv in Hr as [-> Hl]; [|lia]. apply Nat2Z.inj in Hl.
  apply Forall_app in Hs as [Hb _]. injection E as <- <-. rewrite Hc by done.
  rewrite <- Hl at 1. rewrite le_bytes_le_val by done. split; [done|].
  pose proof (le_val_bound l Hb) as B. rewrite Hl in B. exact B.
Qed.

(** Only the canonical encoding of an admissible size is accepted. *)
Lemma ReadCompactSize_inv s n rest : Forall is_byte s ->
  ReadCompactSize be s = Ok (n, rest) -> 0 <= n <= MAX_SIZE /\ s = cs_bytes n ++ rest.
Proof.
  intros Hs H. unfold ReadCompactSize in H.
  destruct s as [|c s]; [done|]. apply bind_inv in H as (c' & s' & E & H).
  rewrite readdata8_app in E. injection E as <- <-.
  apply Forall_cons in Hs as [Hc Hs]. unfold is_u in Hc.
  apply bind_inv in H as (m & s' & Hm & H).
  assert (m = n /\ s' = rest /\ n <= MAX_SIZE) as (-> & -> & Hmax).
  { destruct (m >? MAX_SIZE) eqn:E; [done|]. injection H as -> ->.
    rewrite Z.gtb_ltb, Z.ltb_ge in E. done. }
  clear H. unfold cs_bytes, MAX_SIZE in *.
  destruct (Z.ltb_spec c 253);
    [injection Hm as -> ->; split; [lia|repeat case_bool; try (exfalso; lia); done]|].
  destruct (Z.eqb_spec c 253); [|destruct (Z.eqb_spec c 254)];
    apply bind_inv in Hm as (m & s' & Hm & Hk).
  - apply (readdata_inv 2) in Hm as [-> Hu]; [|apply load16|done]. unfold is_u in Hu.
    revert Hk. case_bool; [done|]. intros [= -> ->]. subst c.
    split; [lia|]. repeat case_bool; try (exfalso; lia). done.
  - apply (readdata_inv 4) in Hm as [-> Hu]; [|apply load32|done]. unfold is_u in Hu.
    revert Hk. case_bool; [done|]. intros [= -> ->]. subst c.
    split; [lia|]. repeat case_bool; try (exfalso; lia). done.
  - apply (readdata_inv 8) in Hm as [-> Hu]; [|apply load64|done]. unfold is_u in Hu.
    revert Hk. case_bool; [done|]. intros [= -> ->]. lia.
Qed.

#[export] Instance compactsize_lawful : Lawful (fun n => 0 <= n <= MAX_SIZE) (ser_compactsize be).
Proof.
  split; unfold bytes_of, ser_compactsize; cbn [Serialize Unserialize]; unfold MAX_SIZE; intros.
  - rewrite !WriteCompactSize_append by (unfold is_u; lia). done.
  - rewrite WriteCompactSize_append by (unfold is_u; lia). apply cs_bytes_bytes; lia.
  - rewrite WriteCompactSize_append, app_nil_l, length_cs_bytes by (unfold is_u; lia). done.
  - rewrite WriteCompactSize_append, app_nil_l by (unfold is_u; lia).
    by apply ReadCompactSize_app.
Qed.
End compact_size.

(** *** Variable-length integers *)

Definition varint_bytes (w n : Z) : list Z := reverse (varint_tmp (Z.to_nat w) n true).

Lemma low7 n : Z.land n 0x7F = n mod 2 ^ 7.
Proof. change 0x7F with (2 ^ 7 - 1). by rewrite land_mask. Qed.

(** One digit: seven bits and the continuation flag. *)
Lemma varint_digit n (first : bool) : 0 <= n ->
  let b := Z.lor (Z.land n 0x7F) (if first then 0x00 else 0x80) in
  is_byte b /\ Z.land b 0x7F = n mod 2 ^ 7 /\ (Z.land b 0x80 =? 0) = first /\ u8 b = b.
Proof.
  intros Hn b. unfold b. rewrite low7. pose proof (Z.mod_pos_bound n (2 ^ 7) ltac:(lia)) as Hm.
  set (d := n mod 2 ^ 7) in *. destruct first.
  - rewrite Z.lor_0_r, low7, Z.mod_small by done. change 0x80 with (2 ^ 7).
    rewrite land_pow2, testbit_top by lia. replace (2 ^ 7 <=? d) with false by lia.
    rewrite uwrap_small by (unfold is_u; lia). unfold is_u. repeat split; lia.
  - assert (Z.lor d 0x80 = d + 2 ^ 7) as ->
      by (change 0x80 with (1 * 2 ^ 7); rewrite lor_disjoint_add' by done; lia).
    change 0x80 with (2 ^ 7). rewrite low7, land_pow2, testbit_top by lia.
    replace ((d + 2 ^ 7) mod 2 ^ 7) with d by (apply Z.mod_unique with 1; lia).
    replace (2 ^ 7 <=? d + 2 ^ 7) with true by lia.
    rewrite uwrap_small by (unfold is_u; lia). unfold is_u. repeat split; lia.
Qed.

Lemma varint_next n : 0x7F < n -> 0 <= Z.shiftr n 7 - 1 /\ Z.shiftr n 7 = n / 2 ^ 7
  /\ n = n / 2 ^ 7 * 2 ^ 7 + n mod 2 ^ 7.
Proof.
  intros Hn. rewrite shiftr_div by lia.
  assert (1 <= n / 2 ^ 7) by (apply Z.div_le_lower_bound; lia).
  split; [lia|]. split; [done|]. pose proof (Z.div_mod n (2 ^ 7) ltac:(lia)). lia.
Qed.

Lemma varint_tmp_bytes fuel n first : 0 <= n -> Forall is_byte (varint_tmp fuel n first).
Proof.
  revert n first. induction fuel as [|fuel IH]; intros n first Hn; cbn [varint_tmp];
    destruct (varint_digit n first Hn) as (Hb & _); [by constructor|].
  case_bool; [by constructor|]. constructor; [done|]. apply IH, varint_next. lia.
Qed.

(** Reading the digits of [n], all with the continuation flag, leaves [n + 1]. *)
Lemma ReadVarInt_cont w fuel n rest : 0 <= n -> n + 1 < 2 ^ w -> 7 <= w ->
  n < 2 ^ (Z.of_nat fuel + 7) ->
  ReadVarInt_from w 0 (reverse (varint_tmp fuel n false) ++ rest) = ReadVarInt_from w (n + 1) rest.
Proof.
  intros Hn Hw Hw7 Hf. revert n rest Hn Hw Hf.
  assert (forall n m rest, 0 <= m -> n = m * 2 ^ 7 + n mod 2 ^ 7 -> 0 <= n -> n + 1 < 2 ^ w ->
    ReadVarInt_from w m (Z.lor (Z.land n 0x7F) 0x80 :: rest) = ReadVarInt_from w (n + 1) rest) as Hstep.
  { intros n m rest Hm E Hn Hw. cbn [ReadVarInt_from].
    destruct (varint_digit n false Hn) as (_ & E1 & E2 & _). cbv zeta in E1, E2.
    rewrite E1, E2. cbn [negb]. rewrite shiftl_mul by lia.
    pose proof (Z.mod_pos_bound n (2 ^ 7) ltac:(lia)).
    rewrite (uwrap_small w (m * 2 ^ 7)), lor_disjoint_add by (unfold is_u; lia).
    rewrite <- E, uwrap_small by (unfold is_u; lia). done. }
  induction fuel as [|fuel IH]; intros n rest Hn Hw Hf; cbn [varint_tmp].
  - apply Hstep; try lia.
    rewrite Z.mod_small by lia. lia.
  - case_bool.
    + apply Hstep; try lia. rewrite Z.mod_small by lia. lia.
    + destruct (varint_next n) as (H1 & H2 & H3); [lia|].
      rewrite reverse_cons, <- app_assoc. rewrite IH.
      * replace (Z.shiftr n 7 - 1 + 1) with (n / 2 ^ 7) by lia. apply Hstep; lia.
      * lia.
      * assert (n / 2 ^ 7 <= n) by (apply Z.div_le_upper_bound; lia). lia.
      * assert (n / 2 ^ 7 < 2 ^ (Z.of_nat fuel + 1)).
        { apply Z.div_lt_upper_bound; [lia|]. rewrite <- Z.pow_add_r by lia.
          replace (7 + (Z.of_nat fuel + 1)) with (Z.of_nat (S fuel) + 7) by lia. done. }
        pose proof (Z.pow_le_mono_r 2 (Z.of_nat fuel + 1) (Z.of_nat fuel + 7) ltac:(lia) ltac:(lia)).
        lia.
Qed.

Lemma ReadVarInt_app w n rest : 7 <= w -> is_u w n ->
  ReadVarInt w (varint_bytes w n ++ rest) = Ok (n, rest).
Proof.
  unfold is_u. intros Hw [Hn Hlt]. unfold ReadVarInt, varint_bytes.
  destruct (varint_digit n true Hn) as (_ & E1 & E2 & _). cbv zeta in E1, E2.
  destruct (Z.to_nat w) as [|fuel] eqn:Ef; [lia|]. cbn [varint_tmp]. case_bool.
  - cbn.
    rewrite E1, E2. cbn [negb]. rewrite Z.shiftl_0_l, Z.mod_small by lia.
    rewrite uwrap_small by (unfold is_u; lia). by rewrite Z.lor_0_l.
  - destruct (varint_next n) as (H1 & H2 & H3); [lia|].
    assert (n / 2 ^ 7 < 2 ^ (w - 7)).
    { apply Z.div_lt_upper_bound; [lia|]. rewrite <- Z.pow_add_r by lia.
      replace (7 + (w - 7)) with w by lia. done. }
    pose proof (Z.pow_le_mono_r 2 (w - 7) w ltac:(lia) ltac:(lia)).
    pose proof (Z.pow_le_mono_r 2 (w - 7) (Z.of_nat fuel + 7) ltac:(lia) ltac:(lia)).
    rewrite reverse_cons, <- app_assoc, ReadVarInt_cont by lia.
    replace (Z.shiftr n 7 - 1 + 1) with (n / 2 ^ 7) by lia. cbn [app ReadVarInt_from].
    rewrite E1, E2. cbn [negb]. pose proof (Z.mod_pos_bound n (2 ^ 7) ltac:(lia)).
    rewrite shiftl_mul, uwrap_small, lor_disjoint_add by (unfold is_u; lia).
    by rewrite <- H3.
Qed.

Lemma WriteVarInt_append w n (s : list Z) : 0 <= n -> WriteVarInt w n s = s ++ varint_bytes w n.
Proof.
  intros Hn. cbn [WriteVarInt DataStream]. unfold WriteVarInt_stream, varint_bytes.
  assert (Forall is_byte (reverse (varint_tmp (Z.to_nat w) n true))) as Hb
    by by apply Forall_reverse, varint_tmp_bytes.
  revert s. induction Hb as [|b l Hb _ IH]; intros s; cbn [foldl]; [by rewrite app_nil_r|].
  rewrite IH. unfold ser_writedata8, append. rewrite uwrap_small by done. by rewrite <- app_assoc.
Qed.

Lemma GetSizeOfVarInt_loop_spec fuel n first nRet :
  GetSizeOfVarInt_loop fuel n nRet = nRet + Z.of_nat (length (varint_tmp fuel n first)).
Proof.
  revert n first nRet. induction fuel as [|fuel IH]; intros n first nRet;
    cbn [GetSizeOfVarInt_loop varint_tmp]; [simpl; lia|].
  case_bool; [simpl; lia|]. rewrite (IH _ false). simpl length. lia.
Qed.

Lemma length_varint_bytes w n : Z.of_nat (length (varint_bytes w n)) = GetSizeOfVarInt w n.
Proof.
  unfold varint_bytes, GetSizeOfVarInt. rewrite length_reverse.
  by rewrite (GetSizeOfVarInt_loop_spec _ _ true).
Qed.

(** The array [tmp] of [(8 sizeof(n) + 6) / 7] bytes is never overrun. *)
Lemma length_varint_tmp fuel n first k : 0 <= n < 128 ^ Z.of_nat k -> (0 < k)%nat ->
  (length (varint_tmp fuel n first) <= k)%nat.
Proof.
  revert n first k. induction fuel as [|fuel IH]; intros n first k Hn Hk; cbn [varint_tmp];
    [simpl; lia|].
  case_bool; [simpl; lia|]. destruct (varint_next n) as (H1 & H2 & _); [lia|].
  assert (k <> 1%nat) by (intros ->; change (128 ^ Z.of_nat 1) with 128 in Hn; lia).
  cbn [length]. assert (length (varint_tmp fuel (Z.shiftr n 7 - 1) false) <= k - 1)%nat; [|lia].
  apply IH; [|lia]. split; [lia|]. rewrite H2.
  assert (n / 2 ^ 7 < 128 ^ Z.of_nat (k - 1)); [|lia].
  apply Z.div_lt_upper_bound; [lia|]. change (2 ^ 7) with 128.
  rewrite <- Z.pow_succ_r by lia. replace (Z.succ (Z.of_nat (k - 1))) with (Z.of_nat k) by lia. lia.
Qed.

#[export] Instance varint_lawful w `{!TCEq (7 <=? w) true} : Lawful (is_u w) (ser_varint w).
Proof.
  match goal with H : TCEq _ _ |- _ => apply TCEq_eq, Z.leb_le in H end.
  split; unfold bytes_of, ser_varint; cbn [Serialize Unserialize]; unfold is_u; intros.
  - rewrite !WriteVarInt_append by lia. done.
  - rewrite WriteVarInt_append by lia. apply Forall_reverse, varint_tmp_bytes. lia.
  - rewrite WriteVarInt_append, app_nil_l, length_varint_bytes by lia. done.
  - rewrite WriteVarInt_append, app_nil_l by lia. by apply ReadVarInt_app.
Qed.

(** The value the comment of the source gives to a byte string [a], here with the
    last byte first: [a[len-1] & 0x7F], plus [128^i ((a[len-1-i] & 0x7F) + 1)] for
    the bytes before it. *)
Fixpoint varint_value_cont (r : list Z) : Z :=
  match r with
  | [] => 0
  | c :: r' => (Z.land c 0x7F + 1) + 128 * varint_value_cont r'
  end.
Definition varint_value (bs : list Z) : Z :=
  match reverse bs with [] => 0 | c :: r => Z.land c 0x7F + 128 * varint_value_cont r end.

(** The shape of an encoding: the continuation flag on all bytes but the last. *)
Definition varint_shape (bs : list Z) : Prop :=
  exists l c, bs = l ++ [c] /\ is_byte c /\ Z.land c 0x80 = 0
    /\ Forall (fun b => is_byte b /\ Z.land b 0x80 <> 0) l.

Lemma varint_shape_single c : is_byte c -> Z.land c 0x80 = 0 -> varint_shape [c].
Proof. intros. exists [], c. repeat (split; [done|]). constructor. Qed.

Lemma land7F_bound c : 0 <= Z.land c 0x7F < 128.
Proof. rewrite low7. apply Z.mod_pos_bound. lia. Qed.

Lemma varint_value_cont_nonneg r : 0 <= varint_value_cont r.
Proof. induction r as [|c r IH]; simpl; [lia|]. pose proof (land7F_bound c). lia. Qed.

Lemma byte_split c : is_byte c ->
  c = Z.land c 0x7F + (if decide (Z.land c 0x80 = 0) then 0 else 128).
Proof.
  unfold is_u. intros Hc. rewrite low7. change 0x80 with (2 ^ 7).
  rewrite land_pow2, testbit_top by lia. pose proof (Z.div_mod c (2 ^ 7) ltac:(lia)).
  case_bool.
  - assert (c / 2 ^ 7 = 1) by (symmetry; apply Z.div_unique with (c - 128); lia).
    case_decide; lia.
  - rewrite Z.div_small in * by lia. case_decide; lia.
Qed.

(** Two encodings of the same number are equal. *)
Lemma varint_value_inj bs1 bs2 : varint_shape bs1 -> varint_shape bs2 ->
  varint_value bs1 = varint_value bs2 -> bs1 = bs2.
Proof.
  intros (l1 & c1 & -> & Hb1 & Hc1 & Hl1) (l2 & c2 & -> & Hb2 & Hc2 & Hl2).
  unfold varint_value. rewrite !reverse_app. change (reverse [?x]) with [x]. cbn [app].
  assert (forall r1 r2, Forall (fun b => is_byte b /\ Z.land b 0x80 <> 0) r1 ->
    Forall (fun b => is_byte b /\ Z.land b 0x80 <> 0) r2 ->
    varint_value_cont r1 = varint_value_cont r2 -> r1 = r2) as Hinj.
  { intros r1 r2 H1. revert r2. induction H1 as [|x r1 [Hx Hfx] _ IH]; intros r2 H2 E;
      destruct H2 as [|y r2 [Hy Hfy] H2]; cbn [varint_value_cont] in E; [done|..].
    - pose proof (land7F_bound y). pose proof (varint_value_cont_nonneg r2). lia.
    - pose proof (land7F_bound x). pose proof (varint_value_cont_nonneg r1). lia.
    - pose proof (land7F_bound x). pose proof (land7F_bound y).
      pose proof (byte_split x Hx) as Ex. pose proof (byte_split y Hy) as Ey.
      rewrite decide_False in Ex by done. rewrite decide_False in Ey by done. f_equal; [lia|]. apply IH; [done|lia]. }
  intros E. pose proof (land7F_bound c1). pose proof (land7F_bound c2).
  pose proof (byte_split c1 Hb1) as E1. pose proof (byte_split c2 Hb2) as E2.
  rewrite decide_True in E1 by done. rewrite decide_True in E2 by done. f_equal; [|f_equal; lia].
  apply (inj reverse), Hinj; [by apply Forall_reverse..|lia].
Qed.

Lemma varint_value_cont_snoc r c :
  varint_value_cont (r ++ [c]) =
    varint_value_cont r + 128 ^ Z.of_nat (length r) * (Z.land c 0x7F + 1).
Proof.
  induction r as [|x r IH]; cbn [app varint_value_cont length]; [simpl; lia|].
  rewrite IH, Nat2Z.inj_succ, Z.pow_succ_r by lia. lia.
Qed.

Lemma varint_value_cons c bs : bs <> [] ->
  varint_value (c :: bs) = varint_value bs + 128 ^ Z.of_nat (length bs) * (Z.land c 0x7F + 1).
Proof.
  intros Hne. unfold varint_value. rewrite reverse_cons.
  destruct (reverse bs) as [|x r] eqn:E.
  - apply (f_equal reverse) in E. rewrite reverse_involutive in E. by subst.
  - cbn [app]. rewrite varint_value_cont_snoc, <- (length_reverse bs), E. cbn [length].
    rewrite Nat2Z.inj_succ, Z.pow_succ_r by lia. lia.
Qed.

Lemma varint_acc_step w acc c : 7 <= w -> 0 <= acc ->
  Z.lor (uwrap w (Z.shiftl acc 7)) (Z.land c 0x7F) = uwrap w (acc * 128 + Z.land c 0x7F).
Proof.
  intros Hw Ha. pose proof (land7F_bound c). rewrite shiftl_mul by lia. unfold uwrap.
  assert (2 ^ w = 2 ^ (w - 7) * 2 ^ 7) as E by (rewrite <- Z.pow_add_r by lia; f_equal; lia).
  rewrite E, Z.mul_mod_distr_r, lor_disjoint_add by lia. change 128 with (2 ^ 7).
  pose proof (Z.mod_pos_bound acc (2 ^ (w - 7)) ltac:(lia)).
  apply Z.mod_unique with (acc / 2 ^ (w - 7)); [nia|].
  pose proof (Z.div_mod acc (2 ^ (w - 7)) ltac:(lia)). nia.
Qed.

Lemma ReadVarInt_from_inv w acc s n rest : 7 <= w -> 0 <= acc -> Forall is_byte s ->
  ReadVarInt_from w acc s = Ok (n, rest) ->
  exists bs, s = bs ++ rest /\ varint_shape bs
    /\ n = uwrap w (acc * 128 ^ Z.of_nat (length bs) + varint_value bs).
Proof.
  intros Hw Ha Hs. revert acc Ha. induction Hs as [|c s Hc Hs IH]; intros acc Ha H; [done|].
  cbn [ReadVarInt_from] in H. rewrite varint_acc_step in H by done.
  destruct (Z.eqb_spec (Z.land c 0x80) 0) as [E|E]; cbn [negb] in H.
  - injection H as <- <-. exists [c]. split; [done|]. split; [by apply varint_shape_single|].
    unfold varint_value. cbn. f_equal. lia.
  - apply IH in H as (bs & -> & (l & c' & -> & Hb' & Hc' & Hl) & ->).
    2:{ apply uwrap_range. lia. }
    exists (c :: l ++ [c']). split; [done|]. split.
    { exists (c :: l), c'. split; [done|]. split; [done|]. split; [done|]. by constructor. }
    set (bs := l ++ [c']). rewrite varint_value_cons by (unfold bs; by destruct l).
    cbn [length]. rewrite Nat2Z.inj_succ, Z.pow_succ_r by lia.
    unfold uwrap. rewrite Zplus_mod_idemp_l, <- Zplus_mod_idemp_l.
    rewrite Zmult_mod_idemp_l, Zplus_mod_idemp_l. f_equal. lia.
Qed.

Lemma varint_bytes_value w n : 7 <= w -> is_u w n ->
  varint_shape (varint_bytes w n) /\ varint_value (varint_bytes w n) = n.
Proof.
  assert (forall fuel n, 0 <= n -> n < 2 ^ (Z.of_nat fuel + 7) ->
    Forall (fun b => is_byte b /\ Z.land b 0x80 <> 0) (varint_tmp fuel n false)
    /\ varint_value_cont (varint_tmp fuel n false) = n + 1) as Hcont.
  { induction fuel as [|fuel IH]; intros m Hm Hlt; cbn [varint_tmp];
      destruct (varint_digit m false Hm) as (Hb & E1 & E2 & _); cbv zeta in E1, E2;
      apply Z.eqb_neq in E2.
    - split; [by apply Forall_singleton|]. cbn. rewrite E1, Z.mod_small by lia. lia.
    - case_bool.
      + split; [by apply Forall_singleton|]. cbn [varint_value_cont].
        rewrite E1, Z.mod_small by lia. lia.
      + destruct (varint_next m) as (H1 & H2 & H3); [lia|].
        destruct (IH (Z.shiftr m 7 - 1)) as [Hf Hv]; [done| |].
        { rewrite H2. assert (m / 2 ^ 7 < 2 ^ (Z.of_nat fuel + 1)).
          { apply Z.div_lt_upper_bound; [lia|]. rewrite <- Z.pow_add_r by lia.
            replace (7 + (Z.of_nat fuel + 1)) with (Z.of_nat (S fuel) + 7) by lia. done. }
          pose proof (Z.pow_le_mono_r 2 (Z.of_nat fuel + 1) (Z.of_nat fuel + 7) ltac:(lia) ltac:(lia)).
          lia. }
        split; [by constructor|]. cbn [varint_value_cont]. rewrite E1, Hv. lia. }
  intros Hw [Hn Hlt]. unfold varint_bytes, varint_value. rewrite reverse_involutive.
  destruct (Z.to_nat w) as [|fuel] eqn:Ef; [lia|]. cbn [varint_tmp].
  destruct (varint_digit n true Hn) as (Hb & E1 & E2 & _). cbv zeta in E1, E2.
  apply Z.eqb_eq in E2. case_bool.
  - split; [by apply varint_shape_single|].
    cbn [varint_value_cont]. rewrite E1, Z.mod_small by lia. lia.
  - destruct (varint_next n) as (H1 & H2 & H3); [lia|].
    destruct (Hcont fuel (Z.shiftr n 7 - 1)) as [Hf Hv]; [done| |].
    { rewrite H2. assert (n / 2 ^ 7 < 2 ^ (w - 7)).
      { apply Z.div_lt_upper_bound; [lia|]. rewrite <- Z.pow_add_r by lia.
        replace (7 + (w - 7)) with w by lia. done. }
      pose proof (Z.pow_le_mono_r 2 (w - 7) (Z.of_nat fuel + 7) ltac:(lia) ltac:(lia)). lia. }
    split; [|rewrite E1, Hv; lia].
    rewrite reverse_cons. eexists _, _. split; [done|]. split; [done|]. split; [done|].
    by apply Forall_reverse.
Qed.

(** *** Block-wise reading *)

Lemma read_0 s : read 0 s = Ok ([], s).
Proof. unfold read. case_bool; [lia|]. by rewrite take_0, drop_0. Qed.

Lemma read_read a b (v : list Z) s : 0 <= a -> 0 <= b ->
  (x ← read a; y ← read b; mret (v ++ x ++ y)) s = (z ← read (a + b); mret (v ++ z)) s.
Proof.
  intros Ha Hb. unfold mbind, Reader_bind, read.
  destruct (Z.ltb_spec (Z.of_nat (length s)) a) as [H1|H1].
  { case_bool; [done|lia]. }
  rewrite length_drop.
  destruct (Z.ltb_spec (Z.of_nat (length s - Z.to_nat a)) b) as [H2|H2].
  { case_bool; [done|lia]. }
  case_bool; [lia|]. cbv [mret Reader_ret]. rewrite Z2Nat.inj_add by done.
  rewrite <- take_take_drop, drop_drop. done.
Qed.

(** Reading in blocks is reading at once, short streams included. *)
Lemma read_blocks_read fuel i nSize v s :
  0 <= i <= nSize -> nSize - i <= 5000000 * Z.of_nat fuel ->
  read_blocks fuel i nSize v s = (bs ← read (nSize - i); mret (v ++ bs)) s.
Proof.
  revert i v s. induction fuel as [|fuel IH]; intros i v s Hi Hf; cbn [read_blocks].
  - replace (nSize - i) with 0 by lia. unfold mbind, Reader_bind.
    rewrite read_0. by rewrite app_nil_r.
  - case_bool.
    + change (1 + 4999999 / 1) with 5000000. set (blk := Z.min (nSize - i) 5000000).
      replace (nSize - i) with (blk + (nSize - (i + blk))) by lia.
      rewrite <- read_read by lia. unfold mbind, Reader_bind.
      destruct (read blk s) as [[bs s']|e]; [|done]. rewrite IH by lia.
      unfold mbind, Reader_bind. destruct (read _ s') as [[bs' s'']|e]; [|done].
      by rewrite <- app_assoc.
    + replace (nSize - i) with 0 by lia. unfold mbind, Reader_bind.
      rewrite read_0. by rewrite app_nil_r.
Qed.

Lemma read_blocks_whole n s : 0 <= n -> read_blocks (Z.to_nat (n / 5000000 + 1)) 0 n [] s = read n s.
Proof.
  intros Hn. pose proof (Z.div_mod n 5000000 ltac:(lia)). pose proof (Z.mod_pos_bound n 5000000 ltac:(lia)).
  rewrite read_blocks_read by lia. rewrite Z.sub_0_r. unfold mbind, Reader_bind.
  destruct (read n s) as [[bs s']|e]; done.
Qed.

Section elems.
Context {T : Type} (rd : Reader T).

Lemma read_n_app a b (v : list T) s :
  (x ← read_n a rd; y ← read_n b rd; mret (v ++ x ++ y)) s
    = (z ← read_n (a + b) rd; mret (v ++ z)) s.
Proof.
  revert v s. induction a as [|a IH]; intros v s; [done|]. cbn [read_n Nat.add].
  unfold mbind, Reader_bind in *. destruct (rd s) as [[x s']|e]; [|done].
  specialize (IH (v ++ [x]) s').
  destruct (read_n a rd s') as [[xs s'']|e]; simpl in *.
  - destruct (read_n b rd s'') as [[ys s3]|e]; destruct (read_n (a + b) rd s') as [[zs s4]|e'];
      cbv [mret Reader_ret] in *; try discriminate; [|injection IH as <-; done].
    injection IH as IH <-. rewrite <- !app_assoc in IH. cbn [app] in *. by rewrite IH.
  - destruct (read_n (a + b) rd s') as [[zs s4]|e']; cbv [mret Reader_ret] in *;
      [discriminate|injection IH as <-; done].
Qed.

(** The allocation steps of the element-wise reader do not change what is read. *)
Lemma read_elems_read_n sizeofT fuel i nSize v s :
  0 < sizeofT <= 5000000 -> 0 <= i <= nSize -> nSize <= MAX_SIZE ->
  nSize - i <= 5000000 / sizeofT * Z.of_nat fuel ->
  read_elems sizeofT rd fuel i i nSize v s =
    (vs ← read_n (Z.to_nat (nSize - i)) rd; mret (v ++ vs)) s.
Proof.
  unfold MAX_SIZE. intros HT. revert i v s. set (k := 5000000 / sizeofT).
  assert (1 <= k <= 5000000) as Hk.
  { split; [apply Z.div_le_lower_bound; lia|apply Z.div_le_upper_bound; nia]. }
  induction fuel as [|fuel IH]; intros i v s Hi Hmax Hf; cbn [read_elems]; fold k.
  - replace (nSize - i) with 0 by lia. unfold mbind, Reader_bind.
    change (Z.to_nat 0) with 0%nat. cbn [read_n]. cbv [mret Reader_ret]. by rewrite app_nil_r.
  - case_bool.
    + rewrite uwrap_small by (unfold is_u; lia).
      set (nMid := if i + k >? nSize then nSize else i + k).
      assert (i <= nMid <= nSize /\ nSize - nMid <= k * Z.of_nat fuel) as [Hm Hf'].
      { unfold nMid. case_bool; lia. }
      replace (Z.to_nat (nSize - i)) with (Z.to_nat (nMid - i) + Z.to_nat (nSize - nMid))%nat by lia.
      rewrite <- read_n_app. unfold mbind, Reader_bind.
      destruct (read_n (Z.to_nat (nMid - i)) rd s) as [[vs s']|e]; [|done].
      rewrite IH by lia. unfold mbind, Reader_bind.
      destruct (read_n _ rd s') as [[vs' s'']|e]; [|done]. by rewrite <- app_assoc.
    + replace (nSize - i) with 0 by lia. unfold mbind, Reader_bind.
    change (Z.to_nat 0) with 0%nat. cbn [read_n]. cbv [mret Reader_ret]. by rewrite app_nil_r.
Qed.

Lemma read_elems_whole sizeofT n s : 0 < sizeofT <= 5000000 -> 0 <= n <= MAX_SIZE ->
  read_elems sizeofT rd (Z.to_nat (n / (5000000 / sizeofT) + 1)) 0 0 n [] s
    = read_n (Z.to_nat n) rd s.
Proof.
  intros HT Hn. assert (1 <= 5000000 / sizeofT) by (apply Z.div_le_lower_bound; lia).
  pose proof (Z.div_mod n (5000000 / sizeofT) ltac:(lia)).
  pose proof (Z.mod_pos_bound n (5000000 / sizeofT) ltac:(lia)).
  pose proof (Z.div_pos n (5000000 / sizeofT) ltac:(lia) ltac:(lia)).
  rewrite read_elems_read_n by (done || lia). rewrite Z.sub_0_r. unfold mbind, Reader_bind.
  destruct (read_n _ rd s) as [[bs s']|e]; done.
Qed.
End elems.

(** *** Strings, vectors, pairs, maps *)

Definition sized_valid (v : list Z) : Prop :=
  Forall is_byte v /\ Z.of_nat (length v) <= MAX_SIZE.

Section containers.
Variable be : bool.

Lemma len_u64 n : Z.of_nat n <= MAX_SIZE -> is_u 64 (Z.of_nat n).
Proof. unfold MAX_SIZE, is_u. lia. Qed.

Lemma write_sized_append v (s : list Z) : Z.of_nat (length v) <= MAX_SIZE ->
  write_sized be v s = s ++ cs_bytes (Z.of_nat (length v)) ++ v.
Proof.
  intros Hl. unfold write_sized. rewrite WriteCompactSize_append by by apply len_u64.
  destruct (Nat.eqb_spec (length v) 0) as [E|_].
  - apply nil_length_inv in E as ->. by rewrite app_nil_r.
  - cbn [write DataStream]. unfold append. by rewrite <- app_assoc.
Qed.

Lemma write_sized_size v (s : CSizeComputer) :
  write_sized be v s = seek (GetSizeOfCompactSize (Z.of_nat (length v)) + Z.of_nat (length v)) s.
Proof.
  unfold write_sized. cbn [write WriteCompactSize SizeStream].
  destruct (Nat.eqb_spec (length v) 0) as [->|_]; [|by rewrite seek_seek].
  by rewrite Z.add_0_r.
Qed.

(** The part of the laws that only concerns writing. *)
Lemma sized_lawful_writing (rd : Reader (list Z)) (P : list Z -> Prop) :
  (forall v, P v -> sized_valid v) ->
  (forall v rest, P v -> rd (cs_bytes (Z.of_nat (length v)) ++ v ++ rest) = Ok (v, rest)) ->
  Lawful P {| Serialize St os := write_sized be; Unserialize := rd |}.
Proof.
  intros HP Hrd. split; unfold bytes_of; cbn [Serialize Unserialize]; intros t; intros.
  - destruct (HP t) as [_ Hl]; [done|]. rewrite !write_sized_append by done. done.
  - destruct (HP t) as [Hb Hl]; [done|]. rewrite write_sized_append by done. cbn [app].
    apply Forall_app. split; [apply cs_bytes_bytes; lia|done].
  - destruct (HP t) as [_ Hl]; [done|]. rewrite write_sized_append, write_sized_size by done.
    cbn [app]. by rewrite length_app, Nat2Z.inj_add, length_cs_bytes.
  - destruct (HP t) as [_ Hl]; [done|]. rewrite write_sized_append by done.
    cbn [app]. rewrite <- app_assoc. by apply Hrd.
Qed.

Lemma read_sized v rest (rd : Z -> Reader (list Z)) :
  Z.of_nat (length v) <= MAX_SIZE ->
  (n ← ReadCompactSize be; rd n) (cs_bytes (Z.of_nat (length v)) ++ v ++ rest)
    = rd (Z.of_nat (length v)) (v ++ rest).
Proof. intros Hl. apply bind_Ok, ReadCompactSize_app. lia. Qed.

#[export] Instance string_lawful : Lawful sized_valid (ser_string be).
Proof.
  apply sized_lawful_writing; [done|]. intros v rest [_ Hl]. rewrite read_sized by done.
  destruct v as [|x v]; [done|]. cbn [length Z.eqb Z.of_nat negb]. by apply read_app.
Qed.

#[export] Instance limited_string_lawful Limit :
  Lawful (fun v => sized_valid v /\ Z.of_nat (length v) <= Limit) (ser_limited_string be Limit).
Proof.
  apply sized_lawful_writing; [tauto|]. intros v rest [[_ Hl] Hlim].
  rewrite read_sized by done. replace (_ >? Limit) with false by lia.
  destruct v as [|x v]; [done|]. cbn [length Z.eqb Z.of_nat negb]. by apply read_app.
Qed.

#[export] Instance byte_vector_lawful : Lawful sized_valid (ser_byte_vector be).
Proof.
  apply sized_lawful_writing; [done|]. intros v rest [_ Hl]. rewrite read_sized by done.
  rewrite read_blocks_whole by lia. by apply read_app.
Qed.

Section elements.
Context {T : Type} (valid : T -> Prop) (c : Codec T) `{!Lawful valid c}.

Lemma foldl_append (v : list T) (s : list Z) : Forall valid v ->
  foldl (fun s x => Serialize c x s) s v = s ++ concat (map (bytes_of c) v).
Proof.
  intros Hv. revert s. induction Hv as [|x v Hx _ IH]; intros s; cbn [foldl map concat];
    [by rewrite app_nil_r|].
  rewrite IH, law_append by done. by rewrite <- app_assoc.
Qed.

Lemma foldl_size (v : list T) (s : CSizeComputer) : Forall valid v ->
  foldl (fun s x => Serialize c x s) s v
    = seek (Z.of_nat (length (concat (map (bytes_of c) v)))) s \/ v = [].
Proof.
  intros Hv. revert s. induction Hv as [|x v Hx _ IH]; intros s; [by right|]. left.
  cbn [foldl map concat]. rewrite law_size by done. rewrite length_app, Nat2Z.inj_add.
  destruct (IH (seek (Z.of_nat (length (bytes_of c x))) s)) as [->| ->]; [by rewrite seek_seek|].
  cbn. by rewrite Z.add_0_r.
Qed.

Definition elems_valid (v : list T) : Prop :=
  Forall valid v /\ Z.of_nat (length v) <= MAX_SIZE.

Lemma write_elems_append v (s : list Z) : elems_valid v ->
  write_elems be c v s = s ++ cs_bytes (Z.of_nat (length v)) ++ concat (map (bytes_of c) v).
Proof.
  intros [Hv Hl]. unfold write_elems. rewrite foldl_append by done.
  rewrite WriteCompactSize_append by by apply len_u64. by rewrite <- app_assoc.
Qed.

Lemma elems_lawful_writing (rd : Reader (list T)) (P : list T -> Prop) :
  (forall v, P v -> elems_valid v) ->
  (forall v rest, P v -> rd (cs_bytes (Z.of_nat (length v))
     ++ concat (map (bytes_of c) v) ++ rest) = Ok (v, rest)) ->
  Lawful P {| Serialize St os := write_elems be c; Unserialize := rd |}.
Proof.
  intros HP Hrd. split; unfold bytes_of at 1; cbn [Serialize Unserialize]; intros t; intros.
  - rewrite !write_elems_append by auto. done.
  - rewrite write_elems_append by auto. destruct (HP t) as [Hv _]; [done|]. cbn [app].
    apply Forall_app. split; [apply cs_bytes_bytes; lia|].
    apply Forall_concat, Forall_fmap. eapply Forall_impl; [done|]. apply law_bytes.
  - unfold bytes_of. cbn [Serialize]. rewrite (write_elems_append t []) by auto. unfold write_elems.
    destruct (HP t) as [Hv _]; [done|]. cbn [WriteCompactSize SizeStream app].
    rewrite length_app, Nat2Z.inj_add, length_cs_bytes.
    destruct (foldl_size t (seek (GetSizeOfCompactSize (Z.of_nat (length t))) s) Hv) as [->| ->].
    + by rewrite seek_seek.
    + cbn. done.
  - rewrite write_elems_append by auto. cbn [app]. rewrite <- app_assoc. auto.
Qed.

Lemma read_n_concat (v : list T) rest : Forall valid v ->
  read_n (length v) (Unserialize c) (concat (map (bytes_of c) v) ++ rest) = Ok (v, rest).
Proof.
  induction 1 as [|x v Hx _ IH]; [done|]. cbn [length read_n map concat].
  rewrite <- app_assoc. erewrite bind_Ok; [|by apply law_read]. by erewrite bind_Ok; [|exact IH].
Qed.

Lemma read_counted (v : list T) rest (rd : Z -> Reader (list T)) :
  Z.of_nat (length v) <= MAX_SIZE ->
  (n ← ReadCompactSize be; rd n) (cs_bytes (Z.of_nat (length v)) ++ rest)
    = rd (Z.of_nat (length v)) rest.
Proof. intros Hl. apply bind_Ok, ReadCompactSize_app. lia. Qed.

#[export] Instance vector_lawful sizeofT `{!TCEq ((0 <? sizeofT) && (sizeofT <=? 5000000)) true} :
  Lawful elems_valid (ser_vector be sizeofT c).
Proof.
  match goal with H : TCEq _ _ |- _ => apply TCEq_eq, andb_true_iff in H as [H1 H2] end.
  apply Z.ltb_lt in H1. apply Z.leb_le in H2.
  apply elems_lawful_writing; [done|]. intros v rest [Hv Hl]. rewrite read_counted by done.
  rewrite read_elems_whole by lia. rewrite Nat2Z.id. by apply read_n_concat.
Qed.

(** An ordered container: entries in strictly ascending key order. *)
Definition ascending {K} (lt : K -> K -> bool) (key : T -> K) : list T -> Prop :=
  StronglySorted (fun x y => lt (key x) (key y) = true /\ lt (key y) (key x) = false).

Lemma map_insert_last {K} (lt : K -> K -> bool) (key : T -> K) x m :
  Forall (fun y => lt (key y) (key x) = true /\ lt (key x) (key y) = false) m ->
  map_insert lt key x m = m ++ [x].
Proof. induction 1 as [|y m [H1 H2] _ IH]; [done|]. cbn. by rewrite H2, H1, IH. Qed.

Lemma read_map_concat {K} (lt : K -> K -> bool) (key : T -> K) (v m : list T) rest :
  Forall valid v -> ascending lt key (m ++ v) ->
  read_map lt key (Unserialize c) (length v) m (concat (map (bytes_of c) v) ++ rest)
    = Ok (m ++ v, rest).
Proof.
  intros Hv. revert m. induction Hv as [|x v Hx _ IH]; intros m Hs; cbn [length read_map map concat].
  { by rewrite app_nil_r. }
  rewrite <- app_assoc. erewrite bind_Ok; [|by apply law_read].
  rewrite map_insert_last.
  - rewrite IH; [by rewrite <- app_assoc|by rewrite <- app_assoc].
  - apply Forall_forall. intros y Hy.
    induction m as [|z m IHm]; [by apply not_elem_of_nil in Hy|].
    cbn [app] in Hs. apply StronglySorted_cons in Hs as [Hz Hs].
    apply elem_of_cons in Hy as [->|Hy]; [|by apply IHm].
    rewrite Forall_forall in Hz. apply Hz, elem_of_app. right. left.
Qed.

#[export] Instance map_lawful {K} (lt : K -> K -> bool) (key : T -> K) :
  Lawful (fun m => elems_valid m /\ ascending lt key m) (ser_map be lt key c).
Proof.
  apply elems_lawful_writing; [tauto|]. intros v rest [[Hv Hl] Hs].
  rewrite read_counted by done. rewrite Nat2Z.id. by apply (read_map_concat _ _ v []).
Qed.
End elements.
End containers.

#[export] Instance pair_lawful {A B} (va : A -> Prop) (vb : B -> Prop) ca cb
  `{!Lawful va ca} `{!Lawful vb cb} :
  Lawful (fun p => va p.1 /\ vb p.2) (ser_pair ca cb).
Proof.
  split; intros [a b]; intros; destruct_and!; simpl in *.
  - unfold bytes_of. cbn. rewrite !(law_append b), !(law_append a) by done.
    by rewrite app_nil_l, <- app_assoc.
  - unfold bytes_of. cbn. rewrite !(law_append b), !(law_append a) by done.
    rewrite app_nil_l. apply Forall_app. split; by apply law_bytes.
  - unfold bytes_of. cbn. rewrite !(law_append b), !(law_append a), law_size, law_size by done.
    rewrite app_nil_l, length_app, Nat2Z.inj_add. apply seek_seek.
  - unfold bytes_of. cbn. rewrite !(law_append b), !(law_append a) by done.
    rewrite app_nil_l, <- app_assoc. erewrite bind_Ok; [|by apply law_read].
    by erewrite bind_Ok; [|by apply law_read].
Qed.

Lemma pair_bytes {A B} (va : A -> Prop) (vb : B -> Prop) ca cb
  `{!Lawful va ca} `{!Lawful vb cb} a b : va a -> vb b ->
  bytes_of (ser_pair ca cb) (a, b) = bytes_of ca a ++ bytes_of cb b.
Proof.
  intros. unfold bytes_of. cbn. rewrite !(law_append b), !(law_append a) by done. done.
Qed.

Lemma lawful_weaken {T} (v w : T -> Prop) c : (forall t, w t -> v t) -> Lawful v c -> Lawful w c.
Proof.
  intros Hw Hc. split; intros.
  - apply law_append; auto.
  - apply law_bytes; auto.
  - apply law_size; auto.
  - apply law_read; auto.
Qed.

(** A class is read back when its fields are and determine it. *)
Lemma iso_lawful_on {A B} (va : A -> Prop) (vb : B -> Prop) (to : B -> A) (from : A -> B) c :
  Lawful va c -> (forall b, vb b -> va (to b) /\ from (to b) = b) -> Lawful vb (ser_iso to from c).
Proof.
  intros Hc Hv. split; intros b; intros; destruct (Hv b) as [Ha Hb]; try done;
    unfold bytes_of, ser_iso; cbn [Serialize Unserialize].
  - by apply law_append.
  - by apply law_bytes.
  - by apply law_size.
  - erewrite bind_Ok; [|by apply law_read]. cbv [mret Reader_ret]. by rewrite Hb.
Qed.

#[export] Instance iso_lawful {A B} (va : A -> Prop) (to : B -> A) (from : A -> B) c
  `{!Lawful va c} `{!Cancel (=) from to} :
  Lawful (fun b => va (to b)) (ser_iso to from c).
Proof. by eapply iso_lawful_on. Qed.

(** ** Main results *)

(** Compact sizes.  On a byte stream, on either host, [ReadCompactSize]
    succeeds with [n] exactly when [n] is at most [MAX_SIZE] and the stream starts
    with the bytes [WriteCompactSize] produces for [n]; these are as many as
    [GetSizeOfCompactSize] says. *)
Theorem CompactSize_canonical (be : bool) (s rest : list Z) (n : Z) :
  Forall is_byte s ->
  (ReadCompactSize be s = Ok (n, rest) <->
     0 <= n <= MAX_SIZE /\ s = WriteCompactSize be n ([] : list Z) ++ rest) /\
  (0 <= n <= MAX_SIZE ->
     Z.of_nat (length (WriteCompactSize be n ([] : list Z))) = GetSizeOfCompactSize n).
Proof.
  intros Hs. split; [split|].
  - intros H. destruct (ReadCompactSize_inv be s n rest Hs H) as [Hn ->]. split; [done|].
    rewrite WriteCompactSize_append by (unfold MAX_SIZE, is_u in *; lia). done.
  - intros [Hn ->]. rewrite WriteCompactSize_append by (unfold MAX_SIZE, is_u in *; lia).
    by apply ReadCompactSize_app.
  - intros Hn. rewrite WriteCompactSize_append by (unfold MAX_SIZE, is_u in *; lia).
    apply length_cs_bytes.
Qed.

Lemma CompactSize_canonical_witness :
  ReadCompactSize true [253; 44; 1; 7] = Ok (300, [7])
  /\ ReadCompactSize true [253; 44; 0; 7] = Err non_canonical_size.
Proof.
  split; [|vm_compute; reflexivity].
  destruct (CompactSize_canonical true [253; 44; 1; 7] [7] 300) as [H _]; [by_decide|].
  apply H. split; [by_decide|vm_compute; reflexivity].
Defined.

(** Variable-length integers of a [w]-bit type.  Writing and reading back is
    the identity; the scratch array of [(w + 6) / 7] bytes is not overrun; and a
    read yields, modulo [2^w], the value the documented formula gives to the bytes
    consumed, which are the only encoding of that value when it fits. *)
Theorem VarInt_roundtrip_canonical (w n : Z) (rest s : list Z) :
  7 <= w -> is_u w n -> Forall is_byte s ->
  ReadVarInt w (WriteVarInt w n ([] : list Z) ++ rest) = Ok (n, rest) /\
  Z.of_nat (length (WriteVarInt w n ([] : list Z))) = GetSizeOfVarInt w n /\
  GetSizeOfVarInt w n <= (w + 6) / 7 /\
  (forall m rest', ReadVarInt w s = Ok (m, rest') ->
     exists bs, s = bs ++ rest' /\ m = uwrap w (varint_value bs) /\
       (varint_value bs < 2 ^ w -> bs = WriteVarInt w m ([] : list Z))).
Proof.
  intros Hw Hn Hs. pose proof Hn as [Hn0 Hn1]. rewrite WriteVarInt_append, app_nil_l by done.
  split; [by apply ReadVarInt_app|]. split; [apply length_varint_bytes|]. split.
  - rewrite <- length_varint_bytes. unfold varint_bytes. rewrite length_reverse.
    assert (0 < (w + 6) / 7) by (apply Z.div_str_pos; lia).
    rewrite <- (Z2Nat.id ((w + 6) / 7)) by lia. apply inj_le, length_varint_tmp; [|lia].
    split; [done|]. rewrite Z2Nat.id by lia. change 128 with (2 ^ 7).
    rewrite <- Z.pow_mul_r by lia. eapply Z.lt_le_trans; [done|]. apply Z.pow_le_mono_r; [lia|].
    pose proof (Z.div_mod (w + 6) 7 ltac:(lia)). pose proof (Z.mod_pos_bound (w + 6) 7 ltac:(lia)). lia.
  - intros m rest' H. apply ReadVarInt_from_inv in H as (bs & -> & Hsh & ->); [|done..].
    rewrite Z.mul_0_l, Z.add_0_l. exists bs. split; [done|]. split; [done|]. intros Hlt.
    assert (0 <= varint_value bs) as H0.
    { unfold varint_value. destruct (reverse bs) as [|x r]; [done|].
      pose proof (land7F_bound x). pose proof (varint_value_cont_nonneg r). lia. }
    rewrite uwrap_small by done. rewrite WriteVarInt_append, app_nil_l by done.
    destruct (varint_bytes_value w (varint_value bs)) as [Hsh' Hv]; [done..|].
    by apply varint_value_inj.
Qed.

Lemma VarInt_roundtrip_canonical_witness :
  ReadVarInt 32 (WriteVarInt 32 65535 ([] : list Z) ++ [7]) = Ok (65535, [7])
  /\ WriteVarInt 32 65535 ([] : list Z) = [0x82; 0xFE; 0x7F].
Proof.
  destruct (VarInt_roundtrip_canonical 32 65535 [7] []) as [H _]; [by_decide..|].
  split; [exact H|vm_compute; reflexivity].
Defined.

(** The comment on variable-length integers says that every integer has
    exactly one encoding; [ReadVarInt] does not check for overflow, so two
    different byte strings are read as the same 32-bit number. *)
Theorem ReadVarInt_overflow_not_unique :
  exists bs1 bs2 : list Z, bs1 <> bs2 /\ Forall is_byte bs1 /\ Forall is_byte bs2 /\
    ReadVarInt 32 bs1 = Ok (5, []) /\ ReadVarInt 32 bs2 = Ok (5, []).
Proof.
  exists [5], (WriteVarInt 64 (2 ^ 32 + 5) []).
  split; [done|]. split; [by_decide|]. split; [by_decide|]. done.
Qed.

(** Containers.  For any element type whose codec is lawful, a
    [std::vector] of it and a [std::map] from [uint32_t] to it (both over the
    block-wise readers of the source) are read back from what was written, with
    the unread rest of the stream left in place, and [GetSerializeSize] is the
    number of bytes written. *)
Theorem container_roundtrip (be : bool) {T} (valid : T -> Prop) (c : Codec T) `{!Lawful valid c}
    (sizeofT : Z) (v : list T) (m : list (Z * T)) (rest : list Z) :
  0 < sizeofT <= 5000000 ->
  elems_valid valid v ->
  elems_valid (fun p => is_u 32 p.1 /\ valid p.2) m -> ascending Z.ltb fst m ->
  let cv := ser_vector be sizeofT c in
  let cm := ser_map be Z.ltb fst (ser_pair (ser_uint32 be) c) in
  (Unserialize cv (Serialize cv v ([] : list Z) ++ rest) = Ok (v, rest) /\
   GetSerializeSize cv v = u64 (Z.of_nat (length (Serialize cv v ([] : list Z))))) /\
  (Unserialize cm (Serialize cm m ([] : list Z) ++ rest) = Ok (m, rest) /\
   GetSerializeSize cm m = u64 (Z.of_nat (length (Serialize cm m ([] : list Z))))).
Proof.
  intros HT Hv Hm Hs cv cm.
  assert (TCEq ((0 <? sizeofT) && (sizeofT <=? 5000000)) true) as HTC.
  { apply TCEq_eq. replace (0 <? sizeofT) with true by lia. simpl. lia. }
  pose proof (map_lawful be (fun p => is_u 32 p.1 /\ valid p.2)
                (ser_pair (ser_uint32 be) c) Z.ltb fst) as Lm.
  unfold GetSerializeSize. split; split.
  - by apply (law_read (valid := elems_valid valid)).
  - by rewrite (law_size (valid := elems_valid valid)).
  - by apply (law_read (Lawful := Lm)).
  - by rewrite (law_size (Lawful := Lm)).
Qed.

Lemma container_roundtrip_witness :
  Unserialize (ser_vector true 4 (ser_uint32 true))
    (Serialize (ser_vector true 4 (ser_uint32 true)) [5; 70000] ([] : list Z) ++ [9])
  = Ok ([5; 70000], [9]).
Proof.
  destruct (container_roundtrip true (is_u 32) (ser_uint32 true) 4 [5; 70000] [] [9])
    as [[H _] _]; [lia|by_decide|by_decide|constructor|exact H].
Defined.
