(* ===== verification/Amount.v ===== *)
(** * Amount: money amounts and fee rates

    Models [src/src/amount.h] and [src/src/amount.cpp].  A [CAmount] is an
    [int64_t]; a product or sum that leaves its range is taken modulo 2^64 (what the
    compiled code does; the language leaves it undefined, and the theorems show
    where it cannot happen).  A failed [assert] is [None]. *)
From S2P Require Import Prelude.

Definition COIN : Z := 100000000.
Definition CENT : Z := 1000000.
Definition SUBCENT : Z := 10000.
Definition MIN_TX_FEE : Z := SUBCENT.
Definition MAX_MONEY : Z := 1000000000 * COIN.

Definition MoneyRange (nValue : Z) : bool := (nValue >=? 0) && (nValue <=? MAX_MONEY).

(** [CAmount GetMinFee(size_t nBytes)]: the product is computed in [size_t] and
    converted to [int64_t]. *)
Definition GetMinFee (nBytes : Z) : Z :=
  let nBaseFee := MIN_TX_FEE in
  let nMinFee := i64 (u64 ((1 + nBytes `div` (10 * 1024)) * nBaseFee)) in
  if negb (MoneyRange nMinFee) then MAX_MONEY else nMinFee.

Module CFeeRate.

Record t : Type := mk { nSatoshisPerK : Z }.

Definition zero : t := mk 0.

Definition of_fee (nFeePaid nBytes_ : Z) : option t :=
  if negb (nBytes_ <=? 2 ^ 63 - 1) then None
  else
    let nSize := i64 nBytes_ in
    if nSize >? 0 then Some (mk (i64 (Z.quot (i64 (nFeePaid * 1000)) nSize)))
    else Some (mk 0).

Definition GetFee (r : t) (nBytes_ : Z) : option Z :=
  if negb (nBytes_ <=? 2 ^ 63 - 1) then None
  else
    let nSize := i64 nBytes_ in
    let nFee := Z.quot (i64 (nSatoshisPerK r * nSize)) 1000 in
    let nFee :=
      if (nFee =? 0) && negb (nSize =? 0) then
        let nFee := if nSatoshisPerK r >? 0 then 1 else nFee in
        if nSatoshisPerK r <? 0 then -1 else nFee
      else nFee in
    Some (Z.max nFee (GetMinFee (u64 nSize))).

Definition GetFeePerK (r : t) : option Z := GetFee r 1000.

Definition op_lt (a b : t) : bool := nSatoshisPerK a <? nSatoshisPerK b.
Definition op_eq (a b : t) : bool := nSatoshisPerK a =? nSatoshisPerK b.
Definition op_add_assign (a b : t) : t := mk (i64 (nSatoshisPerK a + nSatoshisPerK b)).

End CFeeRate.

(** ** Properties *)

Lemma MoneyRange_spec v : MoneyRange v = true <-> 0 <= v <= MAX_MONEY.
Proof. unfold MoneyRange. rewrite andb_true_iff, Z.geb_le, Z.leb_le. done. Qed.

Lemma GetMinFee_spec n : is_u 64 n ->
  GetMinFee n = Z.min MAX_MONEY ((1 + n / 10240) * MIN_TX_FEE).
Proof.
  intros Hn. unfold is_u in Hn. unfold GetMinFee.
  change (10 * 1024) with 10240. change MIN_TX_FEE with 10000.
  assert (0 <= n / 10240 <= 2 ^ 64 / 10240) as Hd.
  { split; [apply Z.div_pos; lia|]. apply Z.div_le_mono; lia. }
  change (2 ^ 64 / 10240) with 1801439850948198 in Hd.
  rewrite (uwrap_small 64) by (unfold is_u; lia).
  set (x := (1 + n / 10240) * 10000).
  assert (0 <= x < 2 ^ 64) as Hx by (unfold x; lia).
  assert (MAX_MONEY = 100000000000000000) as EM by done.
  unfold swrap. rewrite Z.mod_small by done.
  destruct (x <? 2 ^ (64 - 1)) eqn:E.
  - destruct (MoneyRange x) eqn:EM'; cbn [negb].
    + apply MoneyRange_spec in EM'. lia.
    + apply not_true_iff_false in EM'. rewrite MoneyRange_spec in EM'. lia.
  - apply Z.ltb_ge in E. change (2 ^ (64 - 1)) with 9223372036854775808 in E.
    assert (MoneyRange (x - 2 ^ 64) = false) as ->; [|cbn [negb]; lia].
    apply not_true_iff_false. rewrite MoneyRange_spec. lia.
Qed.

(** The fee without the floor: rounded towards zero, but never zero for a
    non-zero rate and size. *)
Definition fee_at (rate size : Z) : Z :=
  let f := Z.quot (rate * size) 1000 in
  if decide (f = 0 /\ size <> 0) then Z.sgn rate else f.

Lemma GetFee_spec r n :
  0 <= n < 2 ^ 63 -> is_s 64 (CFeeRate.nSatoshisPerK r * n) ->
  CFeeRate.GetFee r n
    = Some (Z.max (fee_at (CFeeRate.nSatoshisPerK r) n)
                  (Z.min MAX_MONEY ((1 + n / 10240) * MIN_TX_FEE))).
Proof.
  intros Hn Hp. unfold CFeeRate.GetFee. replace (n <=? 2 ^ 63 - 1) with true by lia.
  cbn [negb]. f_equal.
  rewrite (swrap_small 64 n) by (unfold is_s; lia). rewrite (swrap_small 64 (_ * n)) by done.
  rewrite (uwrap_small 64 n), GetMinFee_spec by (unfold is_u; lia). f_equal.
  unfold fee_at. set (f := Z.quot _ 1000). set (k := CFeeRate.nSatoshisPerK r) in *.
  destruct (decide _) as [[Hf Hs]|Hc].
  - replace (f =? 0) with true by lia. replace (n =? 0) with false by lia. cbn [andb negb].
    repeat case_bool; lia.
  - destruct (f =? 0) eqn:E1, (n =? 0) eqn:E2; cbn [andb negb]; try done. lia.
Qed.

(** Fees are bounded and monotone.  [GetMinFee] is total and stays in the
    money range for every [size_t] (the conversion of a huge product to a negative
    amount is caught by the range check).  As long as [rate * size] fits in an
    [int64_t], [GetFee] is the rate times the size in kilobytes rounded towards
    zero, one unit away from zero when that would be free, and at least the minimum
    fee; it never decreases with the size when the rate is not negative. *)
Theorem fee_bounds (r : CFeeRate.t) (n m : Z) :
  0 <= n <= m -> m < 2 ^ 63 -> 0 <= CFeeRate.nSatoshisPerK r ->
  is_s 64 (CFeeRate.nSatoshisPerK r * m) ->
  GetMinFee n = Z.min MAX_MONEY ((1 + n / 10240) * MIN_TX_FEE) /\
  MoneyRange (GetMinFee n) = true /\
  exists fn fm, CFeeRate.GetFee r n = Some fn /\ CFeeRate.GetFee r m = Some fm /\
    fn = Z.max (fee_at (CFeeRate.nSatoshisPerK r) n) (GetMinFee n) /\ fn <= fm.
Proof.
  intros Hn Hm Hr Hp. unfold is_s in Hp. set (k := CFeeRate.nSatoshisPerK r) in *.
  assert (0 <= k * n <= k * m) as Hk by nia.
  assert (0 <= n / 10240 <= m / 10240) as Hd.
  { split; [apply Z.div_pos; lia|]. apply Z.div_le_mono; lia. }
  rewrite GetMinFee_spec by (unfold is_u; lia).
  change MIN_TX_FEE with 10000. assert (MAX_MONEY = 100000000000000000) as EM by done.
  split_and!; [done|apply MoneyRange_spec; lia|].
  eexists _, _. split_and!.
  - apply GetFee_spec; [lia|unfold is_s; fold k; lia].
  - apply GetFee_spec; [lia|done].
  - done.
  - fold k. change MIN_TX_FEE with 10000.
    assert (fee_at k n <= fee_at k m) as Hf.
    { unfold fee_at. rewrite !Z.quot_div_nonneg by lia.
      assert (0 <= (k * n) / 1000 <= (k * m) / 1000) as Hq.
      { split; [apply Z.div_pos; lia|]. apply Z.div_le_mono; lia. }
      destruct (decide _) as [[H1 H2]|H1], (decide _) as [[H3 H4]|H3]; lia. }
    lia.
Qed.

Lemma fee_bounds_witness :
  exists fn fm, CFeeRate.GetFee (CFeeRate.mk 20000) 250 = Some fn /\
    CFeeRate.GetFee (CFeeRate.mk 20000) 20000 = Some fm /\ fn <= fm /\
    fn = 10000 /\ fm = 400000.
Proof.
  destruct (fee_bounds (CFeeRate.mk 20000) 250 20000) as (_ & _ & fn & fm & H1 & H2 & _ & H3);
    [lia|lia|simpl; lia|by_decide|].
  exists fn, fm. split_and!; [exact H1|exact H2|exact H3|..].
  - vm_compute in H1. congruence.
  - vm_compute in H2. congruence.
Defined.
