(* ===== verification/ConsensusParams.v ===== *)
(** * ConsensusParams: the parameters of a network

    Models [struct Params] of [src/src/consensus/params.h] and the limits of
    [src/src/consensus/consensus.h] and [src/src/validation.h] that the rules refer to. *)
From S2P Require Import Prelude Amount.

Module Params.
Record t : Type := mk {
  hashGenesisBlock : list Z;
  BIP34Height : Z;
  BIP34Hash : list Z;
  BIP65Height : Z;
  BIP66Height : Z;
  MMHeight : Z;
  V7Height : Z;
  powLimit : list Z;
  fPowAllowMinDifficultyBlocks : bool;
  nTargetSpacing : Z;
  nTargetTimespan : Z;
  nMinimumChainTrust : list Z;
  defaultAssumeValid : list Z;
  bnInitialHashTarget : list Z;
  nStakeTargetSpacing : Z;
  nTargetSpacingMax : Z;
  nStakeMinAge : Z;
  nStakeMaxAge : Z;
  nStakeModifierInterval : Z;
  nRejectBlockOutdatedMajority : Z;
  nToCheckBlockUpgradeMajority : Z;
  nCoinbaseMaturity : Z;
  nCoinbaseMaturityOld : Z;
}.
End Params.

Definition MAX_BLOCK_WEIGHT : Z := 4000000.
Definition MAX_BLOCK_BASE_SIZE : Z := 2000000.
Definition MAX_BLOCK_SIGOPS_COST : Z := 80000.

Definition nMaxClockDrift : Z := 2 * 60 * 60.
Definition POW_REWARD : Z := 25 * COIN.
Definition POW_MIN_REWARD : Z := 1 * COIN.
Definition POW_HALVING_PERIOD : Z := 400000.
Definition MAX_TX_AGE : Z := 72 * 60 * 60.
Definition TX_DP_AMOUNT : Z := SUBCENT.
Definition MIN_TXOUT_AMOUNT : Z := MIN_TX_FEE.

Definition forkStartHeight : Z := 0.
Definition forkHeightRange : Z := 365.
Definition forkCBPerBlock : Z := 2000.
Definition isForkBlock (nHeight : Z) : bool :=
  (nHeight >? forkStartHeight) && (nHeight <=? forkStartHeight + forkHeightRange).

(** The main network, as [CMainParams] sets it up; the largest [int] stands for a rule
    that is not active.  The genesis block is computed elsewhere. *)
Definition INT_MAX : Z := 2 ^ 31 - 1.
Definition main_params (hashGenesisBlock : list Z) : Params.t :=
  let limit := replicate 31 0xff ++ [0x0f] in
  {| Params.hashGenesisBlock := hashGenesisBlock;
     Params.BIP34Height := INT_MAX; Params.BIP34Hash := 1 :: replicate 31 0;
     Params.BIP65Height := 0; Params.BIP66Height := 0; Params.MMHeight := INT_MAX; Params.V7Height := INT_MAX;
     Params.powLimit := limit; Params.fPowAllowMinDifficultyBlocks := false;
     Params.nTargetSpacing := 2 * 60; Params.nTargetTimespan := 24 * 60 * 60;
     Params.nMinimumChainTrust := replicate 32 0; Params.defaultAssumeValid := replicate 32 0;
     Params.bnInitialHashTarget := limit;
     Params.nStakeTargetSpacing := 2 * 60; Params.nTargetSpacingMax := 12 * (2 * 60);
     Params.nStakeMinAge := 60 * 60 * 24 * 14; Params.nStakeMaxAge := 60 * 60 * 24 * 90;
     Params.nStakeModifierInterval := 60 * 60;
     Params.nRejectBlockOutdatedMajority := 850; Params.nToCheckBlockUpgradeMajority := 1000;
     Params.nCoinbaseMaturity := 80; Params.nCoinbaseMaturityOld := 80 |}.
