(* ===== verification/Transaction.v ===== *)
(** * Transaction: transactions and their encoding

    Models [src/src/primitives/transaction.h] and [transaction.cpp].  Each class is
    a Module with its fields as a Record.  [nType] and [nVersion] are those of the
    stream ([GetType()], [GetVersion()]); they select the formats with and without
    witness data and, for transactions of merge-mined parent blocks, without
    [nTime].  The hash function of [SerializeHash] (double SHA-256) is a parameter
    of the functions that use it. *)
From S2P Require Import Prelude Endian Uint256 Serialize Amount.

Definition SER_NETWORK : Z := Z.shiftl 1 0.
Definition SER_DISK : Z := Z.shiftl 1 1.
Definition SER_GETHASH : Z := Z.shiftl 1 2.
Definition SER_POSMARKER : Z := Z.shiftl 1 18.
Definition SER_BTC_TX : Z := Z.shiftl 1 19.
Definition SERIALIZE_TRANSACTION_NO_WITNESS : Z := 0x40000000.
Definition PROTOCOL_VERSION : Z := 70015.
Definition WITNESS_SCALE_FACTOR : Z := 4.

(** [x & flag], used as a condition. *)
Definition flag_set (x flag : Z) : bool := negb (Z.land x flag =? 0).

Module COutPoint.

Record t : Type := mk { hash : list Z; n : Z }.

Definition null : t := mk (Uint256.SetNull 32) (u32 (-1)).
Definition IsNull (be : bool) (o : t) : bool :=
  Uint256.IsNull be 32 (hash o) && (n o =? u32 (-1)).
Definition op_lt (a b : t) : bool :=
  let cmp := Compare (hash a) (hash b) in
  (cmp <? 0) || ((cmp =? 0) && (n a <? n b)).
Definition op_eq (a b : t) : bool := Uint256.op_eq (hash a) (hash b) && (n a =? n b).

Definition codec (be : bool) : Codec t :=
  ser_iso (fun o => (hash o, n o)) (fun p => mk p.1 p.2) (ser_pair (ser_flat 32) (ser_uint32 be)).

Definition valid (o : t) : Prop := blob_wf 32 (hash o) /\ is_u 32 (n o).

End COutPoint.

Module CTxIn.

Record t : Type := mk {
  prevout : COutPoint.t;
  scriptSig : list Z;
  nSequence : Z;
  scriptWitness : list (list Z);
}.

Definition SEQUENCE_FINAL : Z := 0xffffffff.
Definition SEQUENCE_LOCKTIME_DISABLE_FLAG : Z := Z.shiftl 1 31.
Definition SEQUENCE_LOCKTIME_TYPE_FLAG : Z := Z.shiftl 1 22.
Definition SEQUENCE_LOCKTIME_MASK : Z := 0x0000ffff.

(** The witness is only serialized through the transaction; an input that is read
    has the empty one. *)
Definition codec (be : bool) : Codec t :=
  ser_iso (fun i => (prevout i, (scriptSig i, nSequence i)))
          (fun p => mk p.1 p.2.1 p.2.2 [])
          (ser_pair (COutPoint.codec be) (ser_pair (ser_byte_vector be) (ser_uint32 be))).

Definition op_eq (a b : t) : bool :=
  COutPoint.op_eq (prevout a) (prevout b) && bool_decide (scriptSig a = scriptSig b)
  && (nSequence a =? nSequence b).

Definition strip (i : t) : t := mk (prevout i) (scriptSig i) (nSequence i) [].
Definition with_witness (i : t) (w : list (list Z)) : t :=
  mk (prevout i) (scriptSig i) (nSequence i) w.

End CTxIn.

Module CTxOut.

Record t : Type := mk { nValue : Z; scriptPubKey : list Z }.

Definition null : t := mk (-1) [].
Definition IsNull (o : t) : bool := nValue o =? -1.
Definition empty : t := mk 0 [].
Definition IsEmpty (o : t) : bool := (nValue o =? 0) && bool_decide (scriptPubKey o = []).
Definition codec (be : bool) : Codec t :=
  ser_iso (fun o => (nValue o, scriptPubKey o)) (fun p => mk p.1 p.2)
          (ser_pair (ser_int64 be) (ser_byte_vector be)).
(** "there is no dust in mfcoin" *)
Definition IsDust (o : t) (minRelayTxFee : CFeeRate.t) : bool := false.

End CTxOut.

(** [CMutableTransaction] and [CTransaction] (whose cached [hash] is computed on
    demand below). *)
Record CTransaction : Type := {
  nVersion : Z;
  nTime : Z;
  vin : list CTxIn.t;
  vout : list CTxOut.t;
  nLockTime : Z;
}.

Definition HasWitness (tx : CTransaction) : bool :=
  existsb (fun i => match CTxIn.scriptWitness i with [] => false | _ => true end) (vin tx).

Definition IsCoinBase (be : bool) (tx : CTransaction) : bool :=
  match vin tx with
  | [i] => COutPoint.IsNull be (CTxIn.prevout i) && (1 <=? Z.of_nat (length (vout tx)))
  | _ => false
  end.

Definition IsCoinStake (be : bool) (tx : CTransaction) : bool :=
  match vin tx, vout tx with
  | i :: _, o :: _ :: _ => negb (COutPoint.IsNull be (CTxIn.prevout i)) && CTxOut.IsEmpty o
  | _, _ => false
  end.

(** [GetValueOut]: [None] is the exception "value out of range". *)
Fixpoint GetValueOut_from (nValueOut : Z) (outs : list CTxOut.t) : option Z :=
  match outs with
  | [] => Some nValueOut
  | o :: outs =>
      let nValueOut := i64 (nValueOut + CTxOut.nValue o) in
      if negb (MoneyRange (CTxOut.nValue o)) || negb (MoneyRange nValueOut) then None
      else GetValueOut_from nValueOut outs
  end.
Definition GetValueOut (tx : CTransaction) : option Z := GetValueOut_from 0 (vout tx).

(** ** Encoding *)

Section stream.
Context (be : bool) (nType nVer : Z).

(** [sizeof] on a 64-bit host; it only decides how many elements are made room for
    at a time. *)
Definition ser_vin : Codec (list CTxIn.t) := ser_vector be 96 (CTxIn.codec be).
Definition ser_vout : Codec (list CTxOut.t) := ser_vector be 40 (CTxOut.codec be).
Definition ser_stack : Codec (list (list Z)) := ser_vector be 24 (ser_byte_vector be).

Definition fAllowWitness : bool := negb (flag_set nVer SERIALIZE_TRANSACTION_NO_WITNESS).

Definition SerializeTransaction {St} {os : OStream St} (tx : CTransaction) (s : St) : St :=
  let s := Serialize (ser_int32 be) (nVersion tx) s in
  let s := if negb (flag_set nType SER_BTC_TX) then Serialize (ser_uint32 be) (nTime tx) s else s in
  let flags := if fAllowWitness then (if HasWitness tx then Z.lor 0 1 else 0) else 0 in
  let s := if negb (flags =? 0) then Serialize ser_uint8 flags (Serialize ser_vin [] s) else s in
  let s := Serialize ser_vin (vin tx) s in
  let s := Serialize ser_vout (vout tx) s in
  let s := if flag_set flags 1
           then foldl (fun s i => Serialize ser_stack (CTxIn.scriptWitness i) s) s (vin tx)
           else s in
  Serialize (ser_uint32 be) (nLockTime tx) s.

(** The loop over [tx.vin[i].scriptWitness.stack]. *)
Fixpoint read_witnesses (ins : list CTxIn.t) : Reader (list CTxIn.t) :=
  match ins with
  | [] => mret []
  | i :: ins =>
      w ← Unserialize ser_stack;
      rest ← read_witnesses ins;
      mret (CTxIn.with_witness i w :: rest)
  end.

(** [nTime0] is what [tx.nTime] held before: it is not read for a transaction of a
    parent block. *)
Definition UnserializeTransaction (nTime0 : Z) : Reader CTransaction :=
  ver ← Unserialize (ser_int32 be);
  time ← (if negb (flag_set nType SER_BTC_TX) then Unserialize (ser_uint32 be) else mret nTime0);
  ins ← Unserialize ser_vin;
  '(flags, ins, outs) ←
    (if (Z.of_nat (length ins) =? 0) && fAllowWitness then
       flags ← Unserialize ser_uint8;
       if negb (flags =? 0) then
         ins ← Unserialize ser_vin;
         outs ← Unserialize ser_vout;
         mret (flags, ins, outs)
       else mret (flags, ins, [])
     else
       outs ← Unserialize ser_vout;
       mret (0, ins, outs));
  '(flags, ins) ←
    (if flag_set flags 1 && fAllowWitness then
       ins ← read_witnesses ins;
       mret (Z.lxor flags 1, ins)
     else mret (flags, ins));
  (if negb (flags =? 0) then throw unknown_tx_data else
   lock ← Unserialize (ser_uint32 be);
   mret {| nVersion := ver; nTime := time; vin := ins; vout := outs; nLockTime := lock |}).

Definition tx_codec (nTime0 : Z) : Codec CTransaction :=
  {| Serialize St os := SerializeTransaction; Unserialize := UnserializeTransaction nTime0 |}.

End stream.

(** ** Identifiers, sizes *)

(** [SerializeHash(obj, nType, nVersion)] for a codec [c] of that stream. *)
Definition SerializeHash {T} (Hash : list Z -> list Z) (c : Codec T) (x : T) : list Z :=
  Hash (bytes_of c x).

Definition GetHash (Hash : list Z -> list Z) (be : bool) (tx : CTransaction) : list Z :=
  SerializeHash Hash (tx_codec be SER_GETHASH SERIALIZE_TRANSACTION_NO_WITNESS 0) tx.

Definition GetBtcHash (Hash : list Z -> list Z) (be : bool) (tx : CTransaction) : list Z :=
  SerializeHash Hash
    (tx_codec be (Z.lor SER_GETHASH SER_BTC_TX) SERIALIZE_TRANSACTION_NO_WITNESS 0) tx.

Definition GetWitnessHash (Hash : list Z -> list Z) (be : bool) (tx : CTransaction) : list Z :=
  if negb (HasWitness tx) then GetHash Hash be tx
  else SerializeHash Hash (tx_codec be SER_GETHASH 0 0) tx.

Definition GetTotalSize (be : bool) (tx : CTransaction) : Z :=
  u32 (GetSerializeSize (tx_codec be SER_NETWORK PROTOCOL_VERSION 0) tx).

Definition GetTransactionWeight (be : bool) (tx : CTransaction) : Z :=
  i64 (u64 (GetSerializeSize
         (tx_codec be SER_NETWORK (Z.lor PROTOCOL_VERSION SERIALIZE_TRANSACTION_NO_WITNESS) 0) tx
         * (WITNESS_SCALE_FACTOR - 1)
       + GetSerializeSize (tx_codec be SER_NETWORK PROTOCOL_VERSION 0) tx)).

Definition CalculateModifiedSize (be : bool) (tx : CTransaction) (nTxSize : Z) : Z :=
  let nTxSize :=
    if nTxSize =? 0 then
      u32 (Z.quot (GetTransactionWeight be tx + WITNESS_SCALE_FACTOR - 1) WITNESS_SCALE_FACTOR)
    else nTxSize in
  foldl (fun nTxSize i =>
    let offset := 41 + Z.min 110 (u32 (Z.of_nat (length (CTxIn.scriptSig i)))) in
    if nTxSize >? offset then nTxSize - offset else nTxSize) nTxSize (vin tx).

Definition CTransaction_GetMinFee (be : bool) (tx : CTransaction) : Z :=
  GetMinFee (GetSerializeSize (tx_codec be SER_NETWORK PROTOCOL_VERSION 0) tx).

(** ** Round trips *)

Section laws.
Context (be : bool).

#[export] Instance outpoint_lawful : Lawful COutPoint.valid (COutPoint.codec be).
Proof.
  eapply iso_lawful_on; [apply _|]. intros [h n] [[Hl Hb] Hn]. cbn in *. split; [|done].
  split_and!; [lia|done|done].
Qed.

(** An input as it is encoded: without its witness. *)
Definition txin_valid (i : CTxIn.t) : Prop :=
  COutPoint.valid (CTxIn.prevout i) /\ sized_valid (CTxIn.scriptSig i)
  /\ is_u 32 (CTxIn.nSequence i).

#[export] Instance txin_lawful :
  Lawful (fun i => txin_valid i /\ CTxIn.scriptWitness i = []) (CTxIn.codec be).
Proof.
  eapply iso_lawful_on; [apply _|]. intros [p sg q w] [(? & ? & ?) ?]. cbn in *. by subst.
Qed.

Definition txout_valid (o : CTxOut.t) : Prop :=
  is_s 64 (CTxOut.nValue o) /\ sized_valid (CTxOut.scriptPubKey o).

#[export] Instance txout_lawful : Lawful txout_valid (CTxOut.codec be).
Proof. eapply iso_lawful_on; [apply _|]. by intros [v sp] [? ?]. Qed.

Definition vin_valid : list CTxIn.t -> Prop :=
  elems_valid (fun i => txin_valid i /\ CTxIn.scriptWitness i = []).

#[export] Instance vin_lawful : Lawful vin_valid (ser_vin be).
Proof. unfold vin_valid, ser_vin. apply vector_lawful; [apply _|done]. Qed.
#[export] Instance vout_lawful : Lawful (elems_valid txout_valid) (ser_vout be).
Proof. unfold ser_vout. apply vector_lawful; [apply _|done]. Qed.
#[export] Instance stack_lawful : Lawful (elems_valid sized_valid) (ser_stack be).
Proof. unfold ser_stack. apply vector_lawful; [apply _|done]. Qed.

Lemma strip_write {St} {os : OStream St} (v : list CTxIn.t) (s : St) :
  Serialize (ser_vin be) v s = Serialize (ser_vin be) (map CTxIn.strip v) s.
Proof.
  unfold ser_vin, ser_vector, write_elems. cbn [Serialize]. rewrite length_map.
  generalize (WriteCompactSize be (Z.of_nat (length v)) s). induction v as [|i v IH]; intros s'; [done|].
  cbn [map foldl]. by rewrite <- IH.
Qed.

(** The witness stacks of the inputs, one after the other without a count. *)
Definition ser_stacks (n : nat) : Codec (list (list (list Z))) :=
  {| Serialize St os v s := foldl (fun s w => Serialize (ser_stack be) w s) s v;
     Unserialize := read_n n (Unserialize (ser_stack be)) |}.

Lemma stacks_lawful n :
  Lawful (fun v => length v = n /\ Forall (elems_valid sized_valid) v /\ v <> []) (ser_stacks n).
Proof.
  split; intros v; intros; destruct_and!; unfold bytes_of, ser_stacks; cbn [Serialize Unserialize].
  - by rewrite !(foldl_append _ (ser_stack be)).
  - rewrite (foldl_append _ (ser_stack be)) by done. cbn [app]. apply Forall_concat, Forall_fmap.
    eapply Forall_impl; [done|]. apply law_bytes.
  - rewrite (foldl_append _ (ser_stack be)) by done. cbn [app].
    by destruct (foldl_size _ (ser_stack be) v s) as [->| ->].
  - rewrite (foldl_append _ (ser_stack be)) by done. subst n. cbn [app].
    by rewrite (read_n_concat _ (ser_stack be)).
Qed.
End laws.

(** A transaction whose fields hold what their types can hold and whose vectors
    can be read back. *)
Record tx_wf (tx : CTransaction) : Prop := {
  wf_version : is_s 32 (nVersion tx);
  wf_time : is_u 32 (nTime tx);
  wf_vin : Forall txin_valid (vin tx) /\ Z.of_nat (length (vin tx)) <= MAX_SIZE;
  wf_stacks : Forall (fun i => elems_valid sized_valid (CTxIn.scriptWitness i)) (vin tx);
  wf_vout : elems_valid txout_valid (vout tx);
  wf_locktime : is_u 32 (nLockTime tx);
}.

(** What a stream of that type and version can carry of a transaction. *)
Definition carried (nType nVer nTime0 : Z) (tx : CTransaction) : CTransaction :=
  {| nVersion := nVersion tx;
     nTime := if flag_set nType SER_BTC_TX then nTime0 else nTime tx;
     vin := if fAllowWitness nVer then vin tx else map CTxIn.strip (vin tx);
     vout := vout tx;
     nLockTime := nLockTime tx |}.

Section roundtrip.
Context (be : bool) (nType nVer nTime0 : Z).

(** Version and time, as a stream carries them. *)
Definition ser_head : Codec (Z * Z) :=
  if flag_set nType SER_BTC_TX then ser_iso fst (fun v => (v, nTime0)) (ser_int32 be)
  else ser_pair (ser_int32 be) (ser_uint32 be).
Definition head_valid (p : Z * Z) : Prop :=
  is_s 32 p.1 /\ if flag_set nType SER_BTC_TX then p.2 = nTime0 else is_u 32 p.2.

#[local] Instance head_lawful : Lawful head_valid ser_head.
Proof.
  unfold head_valid, ser_head. destruct (flag_set nType SER_BTC_TX).
  - eapply iso_lawful_on; [apply _|]. intros [v t] [Hv Ht]. cbn in *. by subst.
  - apply _.
Qed.

(** The two formats as codecs of tuples. *)
Definition basic_codec := ser_pair ser_head (ser_pair (ser_vin be) (ser_pair (ser_vout be) (ser_uint32 be))).
Definition extended_codec (n : nat) :=
  ser_pair ser_head (ser_pair (ser_vin be) (ser_pair ser_uint8 (ser_pair (ser_vin be)
    (ser_pair (ser_vout be) (ser_pair (ser_stacks be n) (ser_uint32 be)))))).

Definition tx_head (tx : CTransaction) : Z * Z :=
  (nVersion tx, if flag_set nType SER_BTC_TX then nTime0 else nTime tx).
Definition extended (tx : CTransaction) : bool := fAllowWitness nVer && HasWitness tx.

Lemma SerializeTransaction_parts {St} {os : OStream St} tx (s : St) :
  SerializeTransaction be nType nVer tx s =
  if extended tx then
    Serialize (extended_codec (length (vin tx)))
      (tx_head tx, ([], (1, (map CTxIn.strip (vin tx),
        (vout tx, (map CTxIn.scriptWitness (vin tx), nLockTime tx)))))) s
  else
    Serialize basic_codec (tx_head tx, (map CTxIn.strip (vin tx), (vout tx, nLockTime tx))) s.
Proof.
  unfold SerializeTransaction, extended, extended_codec, basic_codec, ser_head, tx_head.
  cbn [ser_pair ser_stacks Serialize fst snd]. rewrite !foldl_map.
  destruct (flag_set nType SER_BTC_TX), (fAllowWitness nVer), (HasWitness tx); cbn [negb andb];
    change (flag_set (Z.lor 0 1) 1) with true; change (flag_set 0 1) with false;
    change (Z.lor 0 1 =? 0) with false; change (0 =? 0) with true; cbn [negb];
    rewrite (strip_write be (vin tx)); done.
Qed.

Lemma strip_valid tx : tx_wf tx -> vin_valid (map CTxIn.strip (vin tx)).
Proof.
  intros [_ _ [Hv Hl] _ _ _]. split; [|by rewrite length_map].
  apply Forall_map. eapply Forall_impl; [exact Hv|]. intros [p sg q w]. done.
Qed.

Lemma head_wf tx : tx_wf tx -> head_valid (tx_head tx).
Proof.
  intros []. unfold head_valid, tx_head. cbn. destruct (flag_set nType SER_BTC_TX); done.
Qed.

Lemma extended_nonempty tx : extended tx = true -> vin tx <> [].
Proof. unfold extended, HasWitness. intros E H. rewrite H in E. cbn in E. by rewrite andb_false_r in E. Qed.

Lemma extended_wf tx : tx_wf tx -> extended tx = true ->
  (fun v => length v = length (vin tx) /\ Forall (elems_valid sized_valid) v /\ v <> [])
    (map CTxIn.scriptWitness (vin tx)).
Proof.
  intros Hwf E. split_and!; [by rewrite length_map|apply Forall_map, Hwf|].
  intros H. apply map_eq_nil in H. by apply (extended_nonempty tx).
Qed.

Lemma vin_valid_nil : vin_valid [].
Proof. split; [by apply Forall_nil|done]. Qed.
Lemma flag1 : is_u 8 1.
Proof. done. Qed.

(** The laws that concern writing only, in both formats. *)
Lemma SerializeTransaction_writes tx : tx_wf tx ->
  (forall s : list Z, SerializeTransaction be nType nVer tx s
     = s ++ bytes_of (tx_codec be nType nVer nTime0) tx) /\
  Forall is_byte (bytes_of (tx_codec be nType nVer nTime0) tx) /\
  (forall s : CSizeComputer, SerializeTransaction be nType nVer tx s
     = seek (Z.of_nat (length (bytes_of (tx_codec be nType nVer nTime0) tx))) s).
Proof.
  intros Hwf. unfold bytes_of at 1 2 3. cbn [Serialize tx_codec].
  pose proof (strip_valid tx Hwf) as Hs. pose proof (head_wf tx Hwf) as Hh.
  pose proof (wf_vout tx Hwf) as Ho. pose proof (wf_locktime tx Hwf) as Hlt.
  pose proof (stacks_lawful be (length (vin tx))) as Hst.
  setoid_rewrite SerializeTransaction_parts. destruct (extended tx) eqn:E.
  - pose proof (extended_wf tx Hwf E) as Hw.
    split_and!; intros; [apply law_append|apply law_bytes|apply law_size];
      exact (conj Hh (conj vin_valid_nil (conj flag1 (conj Hs (conj Ho (conj Hw Hlt)))))).
  - split_and!; intros; [apply law_append|apply law_bytes|apply law_size];
      exact (conj Hh (conj Hs (conj Ho Hlt))).
Qed.
Lemma read_head {A} (k : Z -> Z -> Reader A) h rest : head_valid h ->
  (ver ← Unserialize (ser_int32 be);
   time ← (if negb (flag_set nType SER_BTC_TX) then Unserialize (ser_uint32 be) else mret nTime0);
   k ver time) (bytes_of ser_head h ++ rest) = k h.1 h.2 rest.
Proof.
  destruct h as [v t]. unfold head_valid, ser_head. cbn [fst snd].
  destruct (flag_set nType SER_BTC_TX); cbn [negb]; intros [Hv Ht].
  - subst t. erewrite bind_Ok; [|apply (law_read v rest Hv)]. reflexivity.
  - rewrite (pair_bytes (is_s 32) (is_u 32)) by (done || apply _). rewrite <- app_assoc.
    erewrite bind_Ok; [|by apply law_read]. by erewrite bind_Ok; [|by apply law_read].
Qed.

Lemma read_witnesses_app (ins : list CTxIn.t) rest :
  Forall (fun i => elems_valid sized_valid (CTxIn.scriptWitness i)) ins ->
  read_witnesses be (map CTxIn.strip ins)
    (foldl (fun s w => Serialize (ser_stack be) w s) [] (map CTxIn.scriptWitness ins) ++ rest)
  = Ok (ins, rest).
Proof.
  intros H. rewrite (foldl_append _ (ser_stack be)) by by apply Forall_map. cbn [app].
  induction H as [|[p sg q w] ins Hi _ IH]; [done|].
  cbn [map concat read_witnesses]. rewrite <- app_assoc.
  erewrite bind_Ok; [|by apply law_read]. by erewrite bind_Ok; [|exact IH].
Qed.

Lemma no_witness_strip tx : HasWitness tx = false -> map CTxIn.strip (vin tx) = vin tx.
Proof.
  unfold HasWitness. induction (vin tx) as [|[p sg q w] l IH]; cbn; [done|].
  intros [Hw Hl]%orb_false_iff. destruct w; [|done]. by rewrite IH.
Qed.

(** The bytes of the two formats, field by field. *)
Lemma extended_bytes tx : tx_wf tx -> extended tx = true ->
  bytes_of (tx_codec be nType nVer nTime0) tx =
  bytes_of ser_head (tx_head tx) ++ bytes_of (ser_vin be) [] ++ bytes_of ser_uint8 1 ++
  bytes_of (ser_vin be) (map CTxIn.strip (vin tx)) ++ bytes_of (ser_vout be) (vout tx) ++
  bytes_of (ser_stacks be (length (vin tx))) (map CTxIn.scriptWitness (vin tx)) ++
  bytes_of (ser_uint32 be) (nLockTime tx).
Proof.
  intros Hwf E. unfold bytes_of at 1. cbn [Serialize tx_codec]. rewrite SerializeTransaction_parts, E.
  change (Serialize ?c ?x []) with (bytes_of c x). unfold extended_codec.
  pose proof (strip_valid tx Hwf) as Hs. pose proof (head_wf tx Hwf) as Hh.
  pose proof (wf_vout tx Hwf) as Ho. pose proof (wf_locktime tx Hwf) as Hlt.
  pose proof (stacks_lawful be (length (vin tx))) as Hst. pose proof (extended_wf tx Hwf E) as Hw.
  rewrite (pair_bytes head_valid _) by
    first [apply _ | exact Hh | exact (conj vin_valid_nil (conj flag1 (conj Hs (conj Ho (conj Hw Hlt)))))].
  rewrite (pair_bytes vin_valid _) by
    first [apply _ | exact vin_valid_nil | exact (conj flag1 (conj Hs (conj Ho (conj Hw Hlt))))].
  rewrite (pair_bytes (is_u 8) _) by
    first [apply _ | exact flag1 | exact (conj Hs (conj Ho (conj Hw Hlt)))].
  rewrite (pair_bytes vin_valid _) by first [apply _ | exact Hs | exact (conj Ho (conj Hw Hlt))].
  rewrite (pair_bytes (elems_valid txout_valid) _) by first [apply _ | exact Ho | exact (conj Hw Hlt)].
  by rewrite (pair_bytes _ (is_u 32)) by first [apply _ | exact Hw | exact Hlt].
Qed.

Lemma basic_bytes tx : tx_wf tx -> extended tx = false ->
  bytes_of (tx_codec be nType nVer nTime0) tx =
  bytes_of ser_head (tx_head tx) ++ bytes_of (ser_vin be) (map CTxIn.strip (vin tx)) ++
  bytes_of (ser_vout be) (vout tx) ++ bytes_of (ser_uint32 be) (nLockTime tx).
Proof.
  intros Hwf E. unfold bytes_of at 1. cbn [Serialize tx_codec]. rewrite SerializeTransaction_parts, E.
  change (Serialize ?c ?x []) with (bytes_of c x). unfold basic_codec.
  pose proof (strip_valid tx Hwf) as Hs. pose proof (head_wf tx Hwf) as Hh.
  pose proof (wf_vout tx Hwf) as Ho. pose proof (wf_locktime tx Hwf) as Hlt.
  rewrite (pair_bytes head_valid _) by first [apply _ | exact Hh | exact (conj Hs (conj Ho Hlt))].
  rewrite (pair_bytes vin_valid _) by first [apply _ | exact Hs | exact (conj Ho Hlt)].
  by rewrite (pair_bytes (elems_valid txout_valid) (is_u 32)) by first [apply _ | exact Ho | exact Hlt].
Qed.

Lemma read_extended tx rest : tx_wf tx -> extended tx = true ->
  UnserializeTransaction be nType nVer nTime0 (bytes_of (tx_codec be nType nVer nTime0) tx ++ rest)
  = Ok (carried nType nVer nTime0 tx, rest).
Proof.
  intros Hwf E. rewrite extended_bytes by done. pose proof (strip_valid tx Hwf) as Hs.
  pose proof (wf_vout tx Hwf) as Ho. pose proof (wf_locktime tx Hwf) as Hlt.
  apply andb_true_iff in E as [Ea Eh].
  rewrite <- !app_assoc. unfold UnserializeTransaction. rewrite read_head by by apply head_wf.
  erewrite bind_Ok; [|apply law_read, vin_valid_nil]. rewrite Ea.
  change ((Z.of_nat (length (@nil CTxIn.t)) =? 0) && true) with true. cbn iota.
  erewrite bind_Ok.
  2: { erewrite bind_Ok; [|by apply law_read]. change (negb (1 =? 0)) with true. cbn iota.
       erewrite bind_Ok; [|by apply law_read]. erewrite bind_Ok; [|by apply law_read]. done. }
  cbn iota beta. change (flag_set 1 1) with true. cbn [andb].
  erewrite bind_Ok; [|by erewrite bind_Ok; [|by apply read_witnesses_app, Hwf]].
  cbn iota beta. change (Z.lxor 1 1) with 0. change (negb (0 =? 0)) with false. cbn iota.
  erewrite bind_Ok; [|by apply law_read]. unfold carried. by rewrite Ea.
Qed.

Lemma read_basic tx rest : tx_wf tx -> extended tx = false ->
  (fAllowWitness nVer = true -> vin tx = [] -> vout tx = []) ->
  UnserializeTransaction be nType nVer nTime0 (bytes_of (tx_codec be nType nVer nTime0) tx ++ rest)
  = Ok (carried nType nVer nTime0 tx, rest).
Proof.
  intros Hwf E Hne. rewrite basic_bytes by done. pose proof (strip_valid tx Hwf) as Hs.
  pose proof (wf_vout tx Hwf) as Ho. pose proof (wf_locktime tx Hwf) as Hlt.
  rewrite <- !app_assoc. unfold UnserializeTransaction. rewrite read_head by by apply head_wf.
  erewrite bind_Ok; [|apply law_read, Hs]. rewrite length_map.
  assert (carried nType nVer nTime0 tx =
    {| nVersion := (tx_head tx).1; nTime := (tx_head tx).2; vin := map CTxIn.strip (vin tx);
       vout := vout tx; nLockTime := nLockTime tx |}) as ->.
  { unfold carried, tx_head, extended in *. cbn [fst snd]. f_equal.
    destruct (fAllowWitness nVer); [|done]. by rewrite no_witness_strip. }
  destruct ((Z.of_nat (length (vin tx)) =? 0) && fAllowWitness nVer) eqn:Ec.
  - apply andb_true_iff in Ec as [El Ea]. apply Z.eqb_eq in El.
    assert (vin tx = []) as Ev by (apply nil_length_inv; lia). rewrite (Hne Ea Ev).
    change (bytes_of (ser_vout be) []) with (bytes_of ser_uint8 0).
    erewrite bind_Ok; [|by erewrite bind_Ok; [|by apply law_read]].
    cbn iota beta. change (flag_set 0 1) with false. cbn [andb].
    erewrite bind_Ok; [|done]. cbn iota beta. change (negb (0 =? 0)) with false. cbn iota. by erewrite bind_Ok; [|by apply law_read].
  - erewrite bind_Ok; [|by erewrite bind_Ok; [|by apply law_read]].
    cbn iota beta. change (flag_set 0 1) with false. cbn [andb].
    erewrite bind_Ok; [|done]. cbn iota beta. change (negb (0 =? 0)) with false. cbn iota. by erewrite bind_Ok; [|by apply law_read].
Qed.

Lemma UnserializeTransaction_app tx rest : tx_wf tx ->
  (fAllowWitness nVer = true -> vin tx = [] -> vout tx = []) ->
  UnserializeTransaction be nType nVer nTime0 (bytes_of (tx_codec be nType nVer nTime0) tx ++ rest)
  = Ok (carried nType nVer nTime0 tx, rest).
Proof.
  intros. destruct (extended tx) eqn:E; [by apply read_extended|by apply read_basic].
Qed.

(** A transaction that such a stream carries unchanged. *)
Definition tx_valid (tx : CTransaction) : Prop :=
  tx_wf tx /\ (fAllowWitness nVer = true -> vin tx = [] -> vout tx = [])
  /\ carried nType nVer nTime0 tx = tx.

#[export] Instance tx_lawful : Lawful tx_valid (tx_codec be nType nVer nTime0).
Proof.
  split; intros tx; intros; unfold tx_valid in *; destruct_and!.
  - by apply SerializeTransaction_writes.
  - by apply SerializeTransaction_writes.
  - by apply SerializeTransaction_writes.
  - cbn [Unserialize tx_codec]. rewrite UnserializeTransaction_app by done. congruence.
Qed.
End roundtrip.

(** ** Amounts *)

Definition sum_values (outs : list CTxOut.t) : Z := foldr (fun o acc => CTxOut.nValue o + acc) 0 outs.

Lemma sum_values_nonneg outs :
  Forall (fun o => MoneyRange (CTxOut.nValue o) = true) outs -> 0 <= sum_values outs.
Proof.
  induction 1 as [|o outs Ho _ IH]; [done|]. cbn. apply MoneyRange_spec in Ho.
  fold (sum_values outs). lia.
Qed.

Lemma GetValueOut_from_spec acc outs v : 0 <= acc <= MAX_MONEY ->
  Forall (fun o => is_s 64 (CTxOut.nValue o)) outs ->
  GetValueOut_from acc outs = Some v <->
  Forall (fun o => MoneyRange (CTxOut.nValue o) = true) outs /\
  acc + sum_values outs <= MAX_MONEY /\ v = acc + sum_values outs.
Proof.
  intros Hacc Ho. revert acc Hacc. induction Ho as [|o outs Ho _ IH]; intros acc Hacc.
  - cbn. rewrite Z.add_0_r. split; [intros [= <-]; auto using Forall_nil with lia|].
    intros (_ & _ & ->). done.
  - cbn [GetValueOut_from]. change (sum_values (o :: outs)) with (CTxOut.nValue o + sum_values outs).
    rewrite Forall_cons. assert (MAX_MONEY = 100000000000000000) as EM by done.
    destruct (MoneyRange (CTxOut.nValue o)) eqn:E; cbn [negb orb]; [|by split; [|intros [[? _] _]]].
    apply MoneyRange_spec in E. rewrite (swrap_small 64) by (unfold is_s; lia).
    destruct (MoneyRange (acc + CTxOut.nValue o)) eqn:E2; cbn [negb].
    + apply MoneyRange_spec in E2. rewrite IH by lia. rewrite Z.add_assoc. tauto.
    + split; [done|]. intros ((_ & Hr) & Hs & _). exfalso. apply not_true_iff_false in E2.
      apply E2, MoneyRange_spec. apply sum_values_nonneg in Hr. lia.
Qed.

(** ** Main results *)

(** C14: transactions round-trip.  A transaction whose fields are in range is
    written in full by [SerializeTransaction] and read back by
    [UnserializeTransaction] as what the stream can carry of it: all of it on a
    stream with witnesses, the inputs without their witnesses otherwise, and with
    the time found before when the stream carries a parent-chain transaction.  The
    bytes after it are left alone, the size computer gives the number of bytes, and
    the only transactions excluded are those without inputs but with outputs on a
    stream that allows witnesses (their encoding starts like the extended format). *)
Theorem transaction_roundtrip (be : bool) (nType nVer nTime0 : Z) (tx : CTransaction)
  (s rest : list Z) :
  tx_wf tx -> (fAllowWitness nVer = true -> vin tx = [] -> vout tx = []) ->
  exists bs, SerializeTransaction be nType nVer tx s = s ++ bs /\
    UnserializeTransaction be nType nVer nTime0 (bs ++ rest)
      = Ok (carried nType nVer nTime0 tx, rest) /\
    GetSerializeSize (tx_codec be nType nVer nTime0) tx = u64 (Z.of_nat (length bs)) /\
    Forall is_byte bs.
Proof.
  intros Hwf Hne. exists (bytes_of (tx_codec be nType nVer nTime0) tx).
  destruct (SerializeTransaction_writes be nType nVer nTime0 tx Hwf) as (H1 & H2 & H3).
  split_and!; [apply H1|by apply UnserializeTransaction_app| |done].
  unfold GetSerializeSize. cbn [Serialize tx_codec]. by rewrite H3.
Qed.

Definition sample_txin (w : list (list Z)) : CTxIn.t :=
  CTxIn.mk (COutPoint.mk (replicate 32 7) 1) [0x51] 0xffffffff w.
Definition sample_tx : CTransaction :=
  {| nVersion := 2; nTime := 1500000000; vin := [sample_txin [[1; 2]; []]];
     vout := [CTxOut.mk 5000 [0x6a]]; nLockTime := 0 |}.

Lemma sample_tx_wf : tx_wf sample_tx.
Proof.
  split; unfold elems_valid, txin_valid, txout_valid, COutPoint.valid, blob_wf, sized_valid, is_s, is_u;
    cbn -[Z.le Z.lt Z.pow]; repeat (constructor || lia); unfold MAX_SIZE; cbn; lia.
Qed.

Lemma transaction_roundtrip_witness :
  exists bs, SerializeTransaction false SER_NETWORK PROTOCOL_VERSION sample_tx [] = [] ++ bs /\
    UnserializeTransaction false SER_NETWORK PROTOCOL_VERSION 0 (bs ++ [9]) = Ok (sample_tx, [9]).
Proof.
  destruct (transaction_roundtrip false SER_NETWORK PROTOCOL_VERSION 0 sample_tx [] [9])
    as (bs & H1 & H2 & _); [exact sample_tx_wf|done|].
  exists bs. split; [exact H1|exact H2].
Defined.

(** Identifiers and weight.  The transaction id does not depend on the witnesses
    (for any hash function), [GetWitnessHash] is the id when there are none, and as
    long as sizes fit in 64 bits the weight is four times the size without
    witnesses, plus the marker, the flag and the witness stacks. *)
Theorem txid_and_weight (Hash : list Z -> list Z) (be : bool) (tx : CTransaction) :
  tx_wf tx ->
  let base := bytes_of (tx_codec be SER_NETWORK
                (Z.lor PROTOCOL_VERSION SERIALIZE_TRANSACTION_NO_WITNESS) 0) tx in
  let total := bytes_of (tx_codec be SER_NETWORK PROTOCOL_VERSION 0) tx in
  Z.of_nat (length base) < 2 ^ 60 -> Z.of_nat (length total) < 2 ^ 60 ->
  GetHash Hash be tx
    = GetHash Hash be (carried SER_GETHASH SERIALIZE_TRANSACTION_NO_WITNESS 0 tx) /\
  (HasWitness tx = false -> GetWitnessHash Hash be tx = GetHash Hash be tx) /\
  GetTransactionWeight be tx = 4 * Z.of_nat (length base) +
    (if HasWitness tx then
       2 + Z.of_nat (length (bytes_of (ser_stacks be (length (vin tx)))
                               (map CTxIn.scriptWitness (vin tx))))
     else 0).
Proof.
  intros Hwf base total Hb Ht. split_and!.
  - unfold GetHash, SerializeHash, bytes_of. cbn [Serialize tx_codec].
    rewrite !SerializeTransaction_parts with (nTime0 := 0). unfold extended, carried, tx_head.
    change (fAllowWitness SERIALIZE_TRANSACTION_NO_WITNESS) with false. cbn [andb vin nVersion vout nLockTime nTime].
    change (flag_set SER_GETHASH SER_BTC_TX) with false. by rewrite map_map.
  - unfold GetWitnessHash. by intros ->.
  - unfold GetTransactionWeight, GetSerializeSize. cbn [Serialize tx_codec].
    destruct (SerializeTransaction_writes be SER_NETWORK
      (Z.lor PROTOCOL_VERSION SERIALIZE_TRANSACTION_NO_WITNESS) 0 tx Hwf) as (_ & _ & ->).
    destruct (SerializeTransaction_writes be SER_NETWORK PROTOCOL_VERSION 0 tx Hwf) as (_ & _ & ->).
    fold base total. unfold seek. cbn [nSize]. rewrite !Z.add_0_l.
    rewrite !(uwrap_small 64 (Z.of_nat _)) by (unfold is_u; lia).
    change (WITNESS_SCALE_FACTOR - 1) with 3.
    rewrite (uwrap_small 64) by (unfold is_u; lia). rewrite swrap_small by (unfold is_s; lia).
    assert (Z.of_nat (length total) = Z.of_nat (length base) +
      if HasWitness tx then
       2 + Z.of_nat (length (bytes_of (ser_stacks be (length (vin tx)))
                               (map CTxIn.scriptWitness (vin tx))))
      else 0) as ->; [|lia].
    unfold base, total. rewrite (basic_bytes be SER_NETWORK (Z.lor _ _)) by done.
    destruct (HasWitness tx) eqn:E.
    + rewrite extended_bytes by done. rewrite !length_app.
      change (length (bytes_of (ser_vin be) [])) with 1%nat.
      change (length (bytes_of ser_uint8 1)) with 1%nat. unfold tx_head. lia.
    + rewrite basic_bytes by done. by rewrite Z.add_0_r.
Qed.

Lemma txid_and_weight_witness :
  GetTransactionWeight false sample_tx = 4 * 66 + 2 + 5 /\
  GetHash (fun l => l) false sample_tx
    = GetHash (fun l => l) false (carried SER_GETHASH SERIALIZE_TRANSACTION_NO_WITNESS 0 sample_tx).
Proof.
  destruct (txid_and_weight (fun l => l) false sample_tx sample_tx_wf) as (H1 & _ & H2);
    [vm_compute; reflexivity..|].
  split; [rewrite H2; vm_compute; reflexivity|exact H1].
Defined.

(** [GetValueOut] returns the sum of the outputs exactly when every output and
    the sum are amounts of money; in every other case, an output near the ends of
    [int64_t] included, it throws. *)
Theorem GetValueOut_correct (tx : CTransaction) (v : Z) :
  Forall (fun o => is_s 64 (CTxOut.nValue o)) (vout tx) ->
  GetValueOut tx = Some v <->
  Forall (fun o => 0 <= CTxOut.nValue o <= MAX_MONEY) (vout tx) /\
  sum_values (vout tx) <= MAX_MONEY /\ v = sum_values (vout tx).
Proof.
  intros Ho. unfold GetValueOut. rewrite GetValueOut_from_spec by (done || by vm_compute).
  rewrite !Z.add_0_l. f_equiv. apply Forall_iff. intros o. apply MoneyRange_spec.
Qed.

Lemma GetValueOut_correct_witness : GetValueOut sample_tx = Some 5000.
Proof.
  apply (GetValueOut_correct sample_tx 5000).
  - repeat constructor; cbn; lia.
  - repeat constructor; vm_compute; congruence.
Defined.

(** Coinbase and coinstake are disjoint, and neither is a transaction without
    inputs or outputs. *)
Theorem coinbase_coinstake_disjoint (be : bool) (tx : CTransaction) :
  (IsCoinBase be tx && IsCoinStake be tx = false) /\
  (IsCoinBase be tx || IsCoinStake be tx = true -> vin tx <> [] /\ vout tx <> []).
Proof.
  unfold IsCoinBase, IsCoinStake.
  destruct (vin tx) as [|i [|j ins]], (vout tx) as [|o [|o' outs]]; cbn [length andb orb];
    rewrite ?andb_false_r; try done.
  destruct (COutPoint.IsNull be (CTxIn.prevout i)); cbn [negb andb]; rewrite ?andb_false_r; done.
Qed.

Lemma coinbase_coinstake_disjoint_witness :
  vin {| nVersion := 2; nTime := 0; vin := [CTxIn.mk COutPoint.null [] 0 []]; vout := [CTxOut.mk 1 []];
         nLockTime := 0 |} <> [].
Proof.
  apply (coinbase_coinstake_disjoint false
    {| nVersion := 2; nTime := 0; vin := [CTxIn.mk COutPoint.null [] 0 []]; vout := [CTxOut.mk 1 []];
       nLockTime := 0 |}). vm_compute. reflexivity.
Defined.
