(* ===== verification/Chain.v ===== *)
(** * Chain: the block tree and the active chain

    Models [src/src/chain.h] and [src/src/chain.cpp].  Block index entries are
    mutable objects that point at each other, so they live in a heap, a finite map
    from addresses to [CBlockIndex.t]; a pointer is an [option] of an address and
    [None] is [NULL].  Following a null or dangling pointer, indexing a vector out
    of range and a failed [assert] are [fault]s. *)
From stdpp Require Import sorting.
From S2P Require Import Prelude ArithUint256 Uint256 Serialize Transaction.

Inductive fault : Set :=
| null_deref
| out_of_range
| assertion_failed
| uncaught_uint_error   (** the exception [uint_error] leaves the function *)
| out_of_fuel.          (** the model's bound on a loop was too small *)

(** ** Statistics of a block file *)

Module CBlockFileInfo.

Record t : Type := mk {
  nBlocks : Z;
  nSize : Z;
  nUndoSize : Z;
  nHeightFirst : Z;
  nHeightLast : Z;
  nTimeFirst : Z;
  nTimeLast : Z;
}.

Definition null : t := mk 0 0 0 0 0 0 0.

Definition AddBlock (nHeightIn nTimeIn : Z) (i : t) : t :=
  let nHeightFirst' :=
    if (nBlocks i =? 0) || (nHeightFirst i >? nHeightIn) then nHeightIn else nHeightFirst i in
  let nTimeFirst' :=
    if (nBlocks i =? 0) || (nTimeFirst i >? nTimeIn) then nTimeIn else nTimeFirst i in
  let nBlocks' := u32 (nBlocks i + 1) in
  let nHeightLast' := if nHeightIn >? nHeightLast i then nHeightIn else nHeightLast i in
  let nTimeLast' := if nTimeIn >? nTimeLast i then nTimeIn else nTimeLast i in
  mk nBlocks' (nSize i) (nUndoSize i) nHeightFirst' nHeightLast' nTimeFirst' nTimeLast'.

Definition codec : Codec t :=
  ser_iso (fun i => (nBlocks i, (nSize i, (nUndoSize i, (nHeightFirst i, (nHeightLast i,
             (nTimeFirst i, nTimeLast i)))))))
          (fun p => mk p.1 p.2.1 p.2.2.1 p.2.2.2.1 p.2.2.2.2.1 p.2.2.2.2.2.1 p.2.2.2.2.2.2)
    (ser_pair (ser_varint 32) (ser_pair (ser_varint 32) (ser_pair (ser_varint 32)
    (ser_pair (ser_varint 32) (ser_pair (ser_varint 32)
    (ser_pair (ser_varint 64) (ser_varint 64))))))).

End CBlockFileInfo.

Module CDiskBlockPos.

Record t : Type := mk { nFile : Z; nPos : Z }.

Definition null : t := mk (-1) 0.
Definition IsNull (p : t) : bool := nFile p =? -1.
Definition op_eq (a b : t) : bool := (nFile a =? nFile b) && (nPos a =? nPos b).

(** [VARINT] of a signed [int]. *)
Definition ser_varint_int : Codec Z :=
  {| Serialize St os := WriteVarInt 32; Unserialize := n ← ReadVarInt 32; mret (i32 n) |}.

Definition codec : Codec t :=
  ser_iso (fun p => (nFile p, nPos p)) (fun p => mk p.1 p.2) (ser_pair ser_varint_int (ser_varint 32)).

End CDiskBlockPos.

(** ** Block index entries *)

Module CBlockIndex.

Record t : Type := mk {
  phashBlock : option (list Z);
  pprev : option N;
  pskip : option N;
  nHeight : Z;
  nFile : Z;
  nDataPos : Z;
  nUndoPos : Z;
  nChainTrust : list Z;
  nTx : Z;
  nChainTx : Z;
  nStatus : Z;
  nVersion : Z;
  hashMerkleRoot : list Z;
  nTime : Z;
  nBits : Z;
  nNonce : Z;
  nVersionMTP : Z;
  mtpHashValue : list Z;
  nSequenceId : Z;
  nTimeMax : Z;
  nMint : Z;
  nMoneySupply : Z;
  nFlags : Z;
  nStakeModifier : Z;
  nStakeModifierChecksum : Z;
  prevoutStake : COutPoint.t;
  nStakeTime : Z;
  hashProofOfStake : list Z;
}.

(** [SetNull] *)
Definition null : t :=
  {| phashBlock := None; pprev := None; pskip := None; nHeight := 0; nFile := 0; nDataPos := 0;
     nUndoPos := 0; nChainTrust := zero256; nTx := 0; nChainTx := 0; nStatus := 0;
     nSequenceId := 0; nTimeMax := 0; nVersion := 0; hashMerkleRoot := Uint256.SetNull 32;
     nTime := 0; nBits := 0; nNonce := 0; nVersionMTP := 0; mtpHashValue := Uint256.SetNull 32;
     nMint := 0; nMoneySupply := 0; nFlags := 0; nStakeModifier := 0; nStakeModifierChecksum := 0;
     hashProofOfStake := Uint256.SetNull 32; prevoutStake := COutPoint.null; nStakeTime := 0 |}.

Definition set_pskip (p : option N) (b : t) : t :=
  {| phashBlock := phashBlock b; pprev := pprev b; pskip := p; nHeight := nHeight b;
     nFile := nFile b; nDataPos := nDataPos b; nUndoPos := nUndoPos b;
     nChainTrust := nChainTrust b; nTx := nTx b; nChainTx := nChainTx b; nStatus := nStatus b;
     nSequenceId := nSequenceId b; nTimeMax := nTimeMax b; nVersion := nVersion b;
     hashMerkleRoot := hashMerkleRoot b; nTime := nTime b; nBits := nBits b; nNonce := nNonce b;
     nVersionMTP := nVersionMTP b; mtpHashValue := mtpHashValue b; nMint := nMint b;
     nMoneySupply := nMoneySupply b; nFlags := nFlags b; nStakeModifier := nStakeModifier b;
     nStakeModifierChecksum := nStakeModifierChecksum b; hashProofOfStake := hashProofOfStake b;
     prevoutStake := prevoutStake b; nStakeTime := nStakeTime b |}.

Definition set_nStatus (v : Z) (b : t) : t :=
  {| phashBlock := phashBlock b; pprev := pprev b; pskip := pskip b; nHeight := nHeight b;
     nFile := nFile b; nDataPos := nDataPos b; nUndoPos := nUndoPos b;
     nChainTrust := nChainTrust b; nTx := nTx b; nChainTx := nChainTx b; nStatus := v;
     nSequenceId := nSequenceId b; nTimeMax := nTimeMax b; nVersion := nVersion b;
     hashMerkleRoot := hashMerkleRoot b; nTime := nTime b; nBits := nBits b; nNonce := nNonce b;
     nVersionMTP := nVersionMTP b; mtpHashValue := mtpHashValue b; nMint := nMint b;
     nMoneySupply := nMoneySupply b; nFlags := nFlags b; nStakeModifier := nStakeModifier b;
     nStakeModifierChecksum := nStakeModifierChecksum b; hashProofOfStake := hashProofOfStake b;
     prevoutStake := prevoutStake b; nStakeTime := nStakeTime b |}.

Definition set_stake (flags modifier : Z) (b : t) : t :=
  {| phashBlock := phashBlock b; pprev := pprev b; pskip := pskip b; nHeight := nHeight b;
     nFile := nFile b; nDataPos := nDataPos b; nUndoPos := nUndoPos b;
     nChainTrust := nChainTrust b; nTx := nTx b; nChainTx := nChainTx b; nStatus := nStatus b;
     nSequenceId := nSequenceId b; nTimeMax := nTimeMax b; nVersion := nVersion b;
     hashMerkleRoot := hashMerkleRoot b; nTime := nTime b; nBits := nBits b; nNonce := nNonce b;
     nVersionMTP := nVersionMTP b; mtpHashValue := mtpHashValue b; nMint := nMint b;
     nMoneySupply := nMoneySupply b; nFlags := flags; nStakeModifier := modifier;
     nStakeModifierChecksum := nStakeModifierChecksum b; hashProofOfStake := hashProofOfStake b;
     prevoutStake := prevoutStake b; nStakeTime := nStakeTime b |}.

Definition BLOCK_PROOF_OF_STAKE : Z := Z.shiftl 1 0.
Definition BLOCK_STAKE_ENTROPY : Z := Z.shiftl 1 1.
Definition BLOCK_STAKE_MODIFIER : Z := Z.shiftl 1 2.

Definition IsProofOfWork (b : t) : bool := negb (flag_set (nFlags b) BLOCK_PROOF_OF_STAKE).
Definition IsProofOfStake (b : t) : bool := flag_set (nFlags b) BLOCK_PROOF_OF_STAKE.
Definition SetProofOfStake (b : t) : t :=
  set_stake (Z.lor (nFlags b) BLOCK_PROOF_OF_STAKE) (nStakeModifier b) b.
Definition GetStakeEntropyBit (b : t) : Z := Z.shiftr (Z.land (nFlags b) BLOCK_STAKE_ENTROPY) 1.
Definition SetStakeEntropyBit (nEntropyBit : Z) (b : t) : bool * t :=
  if nEntropyBit >? 1 then (false, b)
  else (true, set_stake (Z.lor (nFlags b) (if negb (nEntropyBit =? 0) then BLOCK_STAKE_ENTROPY else 0))
                (nStakeModifier b) b).
Definition GeneratedStakeModifier (b : t) : bool := flag_set (nFlags b) BLOCK_STAKE_MODIFIER.
Definition SetStakeModifier (nModifier : Z) (fGeneratedStakeModifier : bool) (b : t) : t :=
  set_stake (if fGeneratedStakeModifier then Z.lor (nFlags b) BLOCK_STAKE_MODIFIER else nFlags b)
    nModifier b.

(** [enum BlockStatus] *)
Definition BLOCK_VALID_UNKNOWN : Z := 0.
Definition BLOCK_VALID_HEADER : Z := 1.
Definition BLOCK_VALID_TREE : Z := 2.
Definition BLOCK_VALID_TRANSACTIONS : Z := 3.
Definition BLOCK_VALID_CHAIN : Z := 4.
Definition BLOCK_VALID_SCRIPTS : Z := 5.
Definition BLOCK_VALID_MASK : Z :=
  Z.lor (Z.lor (Z.lor (Z.lor BLOCK_VALID_HEADER BLOCK_VALID_TREE) BLOCK_VALID_TRANSACTIONS)
               BLOCK_VALID_CHAIN) BLOCK_VALID_SCRIPTS.
Definition BLOCK_HAVE_DATA : Z := 8.
Definition BLOCK_HAVE_UNDO : Z := 16.
Definition BLOCK_HAVE_MASK : Z := Z.lor BLOCK_HAVE_DATA BLOCK_HAVE_UNDO.
Definition BLOCK_FAILED_VALID : Z := 32.
Definition BLOCK_FAILED_CHILD : Z := 64.
Definition BLOCK_FAILED_MASK : Z := Z.lor BLOCK_FAILED_VALID BLOCK_FAILED_CHILD.
Definition BLOCK_OPT_WITNESS : Z := 128.

(** [~mask] for a 32-bit [unsigned]. *)
Definition not_mask (mask : Z) : Z := u32 (Z.lnot mask).

Definition IsValid (nUpTo : Z) (b : t) : option bool :=
  if flag_set nUpTo (not_mask BLOCK_VALID_MASK) then None
  else if flag_set (nStatus b) BLOCK_FAILED_MASK then Some false
  else Some (Z.land (nStatus b) BLOCK_VALID_MASK >=? nUpTo).

Definition RaiseValidity (nUpTo : Z) (b : t) : option (bool * t) :=
  if flag_set nUpTo (not_mask BLOCK_VALID_MASK) then None
  else if flag_set (nStatus b) BLOCK_FAILED_MASK then Some (false, b)
  else if Z.land (nStatus b) BLOCK_VALID_MASK <? nUpTo then
    Some (true, set_nStatus (Z.lor (Z.land (nStatus b) (not_mask BLOCK_VALID_MASK)) nUpTo) b)
  else Some (false, b).

Definition GetBlockPos (b : t) : CDiskBlockPos.t :=
  if flag_set (nStatus b) BLOCK_HAVE_DATA then CDiskBlockPos.mk (nFile b) (nDataPos b)
  else CDiskBlockPos.null.
Definition GetUndoPos (b : t) : CDiskBlockPos.t :=
  if flag_set (nStatus b) BLOCK_HAVE_UNDO then CDiskBlockPos.mk (nFile b) (nUndoPos b)
  else CDiskBlockPos.null.

Definition GetBlockTime (b : t) : Z := nTime b.
Definition GetBlockTimeMax (b : t) : Z := nTimeMax b.
Definition GetBlockVersion (b : t) : Z := Z.land (nVersion b) 0xff.

End CBlockIndex.

(** ** The heap of block index entries *)

Abbreviation heap := (gmap N CBlockIndex.t).

Section tree.
Variable h : heap.

Definition deref (p : N) : result fault CBlockIndex.t :=
  match h !! p with Some b => Ok b | None => Err null_deref end.

(** Turn the lowest '1' bit in the binary representation of a number into a '0'. *)
Definition InvertLowestOne (n : Z) : Z := Z.land n (n - 1).

Definition GetSkipHeight (height : Z) : Z :=
  if height <? 2 then 0
  else if negb (Z.land height 1 =? 0) then InvertLowestOne (InvertLowestOne (height - 1)) + 1
  else InvertLowestOne height.

(** The condition under which the walk follows [pskip]: it exists and is not
    overtaken by the skip pointer of the predecessor. *)
Definition follow_skip (heightWalk height : Z) : bool :=
  let heightSkip := GetSkipHeight heightWalk in
  let heightSkipPrev := GetSkipHeight (heightWalk - 1) in
  (heightSkip =? height) ||
  ((heightSkip >? height) && negb ((heightSkipPrev <? heightSkip - 2) && (heightSkipPrev >=? height))).

Fixpoint GetAncestor_loop (fuel : nat) (pindexWalk : N) (heightWalk height : Z) : result fault N :=
  if heightWalk >? height then
    match fuel with
    | O => Err out_of_fuel
    | S fuel' =>
        b ← deref pindexWalk;
        match (if follow_skip heightWalk height then CBlockIndex.pskip b else None) with
        | Some q => GetAncestor_loop fuel' q (GetSkipHeight heightWalk) height
        | None =>
            match CBlockIndex.pprev b with
            | Some q => GetAncestor_loop fuel' q (heightWalk - 1) height
            | None => Err assertion_failed
            end
        end
    end
  else Ok pindexWalk.

Definition GetAncestor (this : N) (height : Z) : result fault (option N) :=
  b ← deref this;
  if (height >? CBlockIndex.nHeight b) || (height <? 0) then mret None
  else q ← GetAncestor_loop (Z.to_nat (CBlockIndex.nHeight b)) this (CBlockIndex.nHeight b) height;
       mret (Some q).

(** The pointer [BuildSkip] stores in [pskip]. *)
Definition BuildSkip_ptr (b : CBlockIndex.t) : result fault (option N) :=
  match CBlockIndex.pprev b with
  | Some q => GetAncestor q (GetSkipHeight (CBlockIndex.nHeight b))
  | None => mret (CBlockIndex.pskip b)
  end.

(** [GetMedianTimePast]: the times are stored from the end of the array. *)
Fixpoint median_times (i : nat) (pindex : option N) (pmedian : list Z) : result fault (list Z) :=
  match i, pindex with
  | S i', Some p =>
      b ← deref p;
      median_times i' (CBlockIndex.pprev b) (CBlockIndex.GetBlockTime b :: pmedian)
  | _, _ => Ok pmedian
  end.

Definition nMedianTimeSpan : nat := 11.

Definition GetMedianTimePast (this : N) : result fault Z :=
  pmedian ← median_times nMedianTimeSpan (Some this) [];
  match merge_sort Z.le pmedian !! (length pmedian / 2)%nat with
  | Some t => Ok t
  | None => Err out_of_range
  end.

(** [IsSuperMajority]: the loop runs at most [nToCheck] times. *)
Fixpoint supermajority_loop (i : nat) (minVersion nRequired nFound : Z) (pstart : option N)
    : result fault Z :=
  match i, pstart with
  | S i', Some p =>
      if nFound <? nRequired then
        b ← deref p;
        let nFound := if CBlockIndex.GetBlockVersion b >=? minVersion then u32 (nFound + 1) else nFound in
        supermajority_loop i' minVersion nRequired nFound (CBlockIndex.pprev b)
      else Ok nFound
  | _, _ => Ok nFound
  end.

Definition IsSuperMajority (minVersion : Z) (pstart : option N) (nRequired nToCheck : Z)
    : result fault bool :=
  nFound ← supermajority_loop (Z.to_nat nToCheck) minVersion nRequired 0 pstart;
  mret (nFound >=? nRequired).

End tree.

Definition BuildSkip (h : heap) (this : N) : result fault heap :=
  b ← deref h this;
  p ← BuildSkip_ptr h b;
  mret (<[this := CBlockIndex.set_pskip p b]> h).

(** ** Trust *)

Definition GetBlockTrust (block : CBlockIndex.t) : result fault (list Z) :=
  let '(bnTarget, fNegative, fOverflow) := SetCompact (CBlockIndex.nBits block) in
  if fNegative || fOverflow || EqualTo bnTarget 0 then Ok (of_u64 0)
  else if CBlockIndex.IsProofOfStake block then
    match op_div_assign (op_compl bnTarget) (op_add_assign bnTarget (of_u64 1)) with
    | Ok q => Ok (op_add_assign q (of_u64 1))
    | Err _ => Err uncaught_uint_error
    end
  else Ok (of_u64 1).

Definition GetBlockProofEquivalentTime (to from tip : CBlockIndex.t) (nTargetSpacing : Z)
    : result fault Z :=
  let '(r, sign) :=
    if CompareTo (CBlockIndex.nChainTrust to) (CBlockIndex.nChainTrust from) >? 0
    then (op_sub_assign (CBlockIndex.nChainTrust to) (CBlockIndex.nChainTrust from), 1)
    else (op_sub_assign (CBlockIndex.nChainTrust from) (CBlockIndex.nChainTrust to), -1) in
  trust ← GetBlockTrust tip;
  match op_div_assign (op_mul_assign r (of_u64 (u64 nTargetSpacing))) trust with
  | Err _ => Err uncaught_uint_error
  | Ok r => if bits r >? 63 then Ok (sign * (2 ^ 63 - 1))
            else Ok (i64 (u64 (sign * GetLow64 r)))
  end.

(** ** The active chain *)

Module CChain.

(** [std::vector<CBlockIndex*> vChain] *)
Abbreviation t := (list (option N)).

Definition at_ (vChain : t) (nHeight : Z) : option N :=
  if (nHeight <? 0) || (nHeight >=? Z.of_nat (length vChain)) then None
  else vChain !!! Z.to_nat nHeight.
Definition Genesis (vChain : t) : option N :=
  if Z.of_nat (length vChain) >? 0 then vChain !!! 0%nat else None.
Definition Tip (vChain : t) : option N :=
  if Z.of_nat (length vChain) >? 0 then vChain !!! (length vChain - 1)%nat else None.
Definition Height (vChain : t) : Z := Z.of_nat (length vChain) - 1.

Section ops.
Variable h : heap.

Definition Contains (vChain : t) (pindex : N) : result fault bool :=
  b ← deref h pindex;
  mret (bool_decide (at_ vChain (CBlockIndex.nHeight b) = Some pindex)).

Definition Next (vChain : t) (pindex : N) : result fault (option N) :=
  c ← Contains vChain pindex;
  if (c : bool) then b ← deref h pindex; mret (at_ vChain (CBlockIndex.nHeight b + 1)) else mret None.

Fixpoint SetTip_loop (fuel : nat) (pindex : option N) (vChain : t) : result fault t :=
  match pindex with
  | None => Ok vChain
  | Some p =>
      b ← deref h p;
      if (CBlockIndex.nHeight b <? 0) || (CBlockIndex.nHeight b >=? Z.of_nat (length vChain))
      then Err out_of_range
      else if bool_decide (vChain !! Z.to_nat (CBlockIndex.nHeight b) = Some (Some p)) then Ok vChain
      else match fuel with
           | O => Err out_of_fuel
           | S fuel' => SetTip_loop fuel' (CBlockIndex.pprev b)
                          (<[Z.to_nat (CBlockIndex.nHeight b) := Some p]> vChain)
           end
  end.

Definition SetTip (pindex : option N) (vChain : t) : result fault t :=
  match pindex with
  | None => Ok []
  | Some p =>
      b ← deref h p;
      let vChain := resize (Z.to_nat (CBlockIndex.nHeight b + 1)) None vChain in
      SetTip_loop (S (Z.to_nat (CBlockIndex.nHeight b))) (Some p) vChain
  end.

Fixpoint FindFork_loop (fuel : nat) (vChain : t) (pindex : option N) : result fault (option N) :=
  match pindex with
  | None => Ok None
  | Some p =>
      c ← Contains vChain p;
      if (c : bool) then Ok (Some p)
      else match fuel with
           | O => Err out_of_fuel
           | S fuel' => b ← deref h p; FindFork_loop fuel' vChain (CBlockIndex.pprev b)
           end
  end.

Definition FindFork (vChain : t) (pindex : option N) : result fault (option N) :=
  match pindex with
  | None => Ok None
  | Some p =>
      b ← deref h p;
      pindex ← (if CBlockIndex.nHeight b >? Height vChain then GetAncestor h p (Height vChain)
                else mret (Some p));
      FindFork_loop (S (Z.to_nat (CBlockIndex.nHeight b))) vChain pindex
  end.

(** [GetLocator]: every round goes to a lower height, so [nHeight] rounds suffice. *)
Fixpoint GetLocator_loop (fuel : nat) (vChain : t) (nStep : Z) (pindex : option N)
    (vHave : list (list Z)) : result fault (list (list Z)) :=
  match pindex with
  | None => Ok vHave
  | Some p =>
      b ← deref h p;
      match CBlockIndex.phashBlock b with
      | None => Err null_deref
      | Some hash =>
          let vHave := vHave ++ [hash] in
          if CBlockIndex.nHeight b =? 0 then Ok vHave
          else
            let nHeight := Z.max (CBlockIndex.nHeight b - nStep) 0 in
            c ← Contains vChain p;
            pindex ← (if (c : bool) then mret (at_ vChain nHeight) else GetAncestor h p nHeight);
            let nStep := if Z.of_nat (length vHave) >? 10 then i32 (nStep * 2) else nStep in
            match fuel with
            | O => Err out_of_fuel
            | S fuel' => GetLocator_loop fuel' vChain nStep pindex vHave
            end
      end
  end.

Definition GetLocator (vChain : t) (pindex : option N) : result fault (list (list Z)) :=
  let pindex := match pindex with None => Tip vChain | Some _ => pindex end in
  match pindex with
  | None => Ok []
  | Some p => b ← deref h p;
              GetLocator_loop (Z.to_nat (CBlockIndex.nHeight b)) vChain 1 pindex []
  end.

(** [std::lower_bound] with the comparison of [FindEarliestAtLeast]: the binary
    search halves [len], so [len] rounds suffice. *)
Fixpoint lower_bound_loop (fuel : nat) (vChain : t) (nTime : Z) (first len : nat)
    : result fault nat :=
  match fuel with
  | O => Ok first
  | S fuel' =>
      if (len =? 0)%nat then Ok first
      else
        let half := (len / 2)%nat in
        let middle := (first + half)%nat in
        match vChain !! middle with
        | Some (Some p) =>
            b ← deref h p;
            if CBlockIndex.GetBlockTimeMax b <? nTime
            then lower_bound_loop fuel' vChain nTime (S middle) (len - half - 1)
            else lower_bound_loop fuel' vChain nTime first half
        | _ => Err null_deref
        end
  end.

Definition FindEarliestAtLeast (vChain : t) (nTime : Z) : result fault (option N) :=
  lower ← lower_bound_loop (length vChain) vChain nTime 0 (length vChain);
  mret (if (lower =? length vChain)%nat then None else vChain !!! lower).

End ops.
End CChain.

(** ** Skip heights *)

Lemma land_le_l a b : 0 <= a -> Z.land a b <= a.
Proof.
  intros Ha. rewrite <- (Z.lor_ldiff_and a b) at 2.
  rewrite <- Z.lxor_lor, <- Z.add_nocarry_lxor.
  - assert (0 <= Z.ldiff a b) by (apply Z.ldiff_nonneg; auto). lia.
  - apply Z.bits_inj'. intros n _. rewrite !Z.land_spec, Z.ldiff_spec, Z.bits_0.
    destruct (Z.testbit a n), (Z.testbit b n); done.
  - apply Z.bits_inj'. intros n _. rewrite !Z.land_spec, Z.ldiff_spec, Z.bits_0.
    destruct (Z.testbit a n), (Z.testbit b n); done.
Qed.

Lemma InvertLowestOne_bounds n : 0 <= n -> 0 <= InvertLowestOne n <= Z.max 0 (n - 1).
Proof.
  intros Hn. unfold InvertLowestOne. destruct (decide (n = 0)) as [->|]; [done|].
  split; [apply Z.land_nonneg; lia|]. rewrite Z.land_comm.
  etrans; [apply land_le_l; lia|lia].
Qed.

Lemma GetSkipHeight_bounds n : 1 <= n -> 0 <= GetSkipHeight n < n.
Proof.
  intros Hn. unfold GetSkipHeight. case_bool; [lia|].
  destruct (negb (Z.land n 1 =? 0)).
  - pose proof (InvertLowestOne_bounds (n - 1)).
    pose proof (InvertLowestOne_bounds (InvertLowestOne (n - 1))). lia.
  - pose proof (InvertLowestOne_bounds n). lia.
Qed.

(** ** The naive walk *)

Section walk.
Variable h : heap.

(** [n] steps along [pprev]. *)
Fixpoint walk (n : nat) (p : N) : option N :=
  match n with
  | O => Some p
  | S n' => b ← h !! p; q ← CBlockIndex.pprev b; walk n' q
  end.

Definition height_of (p : N) : Z := from_option CBlockIndex.nHeight 0 (h !! p).

(** [q] is the ancestor of [p] at a height. *)
Definition ancestor_at (p : N) (height : Z) : option N := walk (Z.to_nat (height_of p - height)) p.

(** What holds of every entry: heights count the predecessors, and the skip
    pointer, when set, is the ancestor at [GetSkipHeight]. *)
Record block_ok (p : N) (b : CBlockIndex.t) : Prop := {
  ok_height : 0 <= CBlockIndex.nHeight b < 2 ^ 31;
  ok_prev : match CBlockIndex.pprev b with
            | None => CBlockIndex.nHeight b = 0
            | Some q => exists bq, h !! q = Some bq /\ CBlockIndex.nHeight b = CBlockIndex.nHeight bq + 1
            end;
  ok_skip : forall q, CBlockIndex.pskip b = Some q ->
            1 <= CBlockIndex.nHeight b /\ ancestor_at p (GetSkipHeight (CBlockIndex.nHeight b)) = Some q;
}.

Definition tree_ok : Prop := forall p b, h !! p = Some b -> block_ok p b.

Lemma walk_add n m p : walk (n + m) p = (q ← walk n p; walk m q).
Proof.
  revert p. induction n as [|n IH]; intros p; [done|]. cbn.
  destruct (h !! p) as [b|]; cbn; [|done]. destruct (CBlockIndex.pprev b); cbn; [|done]. apply IH.
Qed.

Lemma height_of_lookup p b : h !! p = Some b -> height_of p = CBlockIndex.nHeight b.
Proof. unfold height_of. by intros ->. Qed.

Context (Hok : tree_ok).

Lemma walk_total n p b : h !! p = Some b -> Z.of_nat n <= CBlockIndex.nHeight b ->
  exists q bq, walk n p = Some q /\ h !! q = Some bq /\
    CBlockIndex.nHeight bq = CBlockIndex.nHeight b - Z.of_nat n.
Proof.
  revert p b. induction n as [|n IH]; intros p b Hp Hn.
  - exists p, b. split_and!; [done..|lia].
  - cbn [walk]. rewrite Hp. cbn. destruct (Hok p b Hp) as [_ Hprev _].
    destruct (CBlockIndex.pprev b) as [q|]; [|lia]. destruct Hprev as (bq & Hq & Hh). cbn.
    destruct (IH q bq Hq) as (r & br & H1 & H2 & H3); [lia|]. exists r, br. split_and!; [done..|lia].
Qed.

Lemma ancestor_at_total p b height : h !! p = Some b -> 0 <= height <= CBlockIndex.nHeight b ->
  exists q bq, ancestor_at p height = Some q /\ h !! q = Some bq /\ CBlockIndex.nHeight bq = height.
Proof.
  intros Hp Hh. unfold ancestor_at. rewrite (height_of_lookup p b) by done.
  destruct (walk_total (Z.to_nat (CBlockIndex.nHeight b - height)) p b) as (q & bq & H1 & H2 & H3);
    [done|lia|]. exists q, bq. split_and!; [done..|lia].
Qed.

Lemma walk_height n p q b bq : walk n p = Some q -> h !! p = Some b -> h !! q = Some bq ->
  CBlockIndex.nHeight bq = CBlockIndex.nHeight b - Z.of_nat n.
Proof.
  revert p b. induction n as [|n IH]; intros p b; cbn [walk].
  - intros [= ->] H1 H2. simplify_eq. lia.
  - intros Hw Hp Hq. rewrite Hp in Hw. cbn in Hw. destruct (Hok p b Hp) as [_ Hprev _].
    destruct (CBlockIndex.pprev b) as [r|]; [|done]. destruct Hprev as (br & Hr & Hh). cbn in Hw.
    rewrite (IH r br) by done. lia.
Qed.

(** Ancestors of an ancestor. *)
Lemma ancestor_at_trans p b q bq k : h !! p = Some b -> h !! q = Some bq ->
  ancestor_at p (CBlockIndex.nHeight bq) = Some q ->
  CBlockIndex.nHeight bq <= CBlockIndex.nHeight b -> k <= CBlockIndex.nHeight bq ->
  ancestor_at q k = ancestor_at p k.
Proof.
  intros Hp Hq Ha Hle Hk. unfold ancestor_at in *.
  rewrite (height_of_lookup p b), (height_of_lookup q bq) in * by done.
  replace (Z.to_nat (CBlockIndex.nHeight b - k)) with
    (Z.to_nat (CBlockIndex.nHeight b - CBlockIndex.nHeight bq)
     + Z.to_nat (CBlockIndex.nHeight bq - k))%nat by lia.
  by rewrite walk_add, Ha.
Qed.

Lemma ancestor_at_self p b : h !! p = Some b -> ancestor_at p (CBlockIndex.nHeight b) = Some p.
Proof. intros Hp. unfold ancestor_at. by rewrite (height_of_lookup p b), Z.sub_diag. Qed.

Lemma ancestor_at_prev p b q : h !! p = Some b -> CBlockIndex.pprev b = Some q ->
  ancestor_at p (CBlockIndex.nHeight b - 1) = Some q.
Proof.
  intros Hp Hq. unfold ancestor_at. rewrite (height_of_lookup p b) by done.
  replace (Z.to_nat _) with 1%nat by lia. cbn. rewrite Hp. cbn. by rewrite Hq.
Qed.

(** The optimised walk reaches the same entry as the naive one, with as many rounds
    as there are heights to go. *)
Lemma GetAncestor_loop_spec fuel p b height : h !! p = Some b ->
  0 <= height <= CBlockIndex.nHeight b -> CBlockIndex.nHeight b - height <= Z.of_nat fuel ->
  exists q, GetAncestor_loop h fuel p (CBlockIndex.nHeight b) height = Ok q /\
    ancestor_at p height = Some q.
Proof.
  revert p b. induction fuel as [|fuel IH]; intros p b Hp Hh Hf; cbn [GetAncestor_loop];
    (rewrite Z.gtb_ltb; case_bool; [|exists p; split; [done|];
       replace height with (CBlockIndex.nHeight b) by lia; by apply ancestor_at_self]); [lia|].
  unfold deref. rewrite Hp. cbn [mbind result_bind].
  destruct (Hok p b Hp) as [_ Hprev Hskip].
  destruct (if follow_skip _ _ then _ else _) as [q|] eqn:Ef.
  - assert (CBlockIndex.pskip b = Some q /\ height <= GetSkipHeight (CBlockIndex.nHeight b)) as [Eq Hle].
    { unfold follow_skip in Ef. destruct (_ || _) eqn:Eor; [|done]. split; [done|].
      apply orb_true_iff in Eor as [?%Z.eqb_eq|[?%Z.gtb_lt _]%andb_true_iff]; lia. }
    destruct (Hskip q Eq) as [H1 Ha]. pose proof (GetSkipHeight_bounds _ H1) as Hb.
    destruct (ancestor_at_total p b (GetSkipHeight (CBlockIndex.nHeight b))) as (q' & bq & Hq & Hl & Hqh);
      [done|lia|]. assert (q' = q) as -> by congruence.
    rewrite <- Hqh in *. destruct (IH q bq Hl) as (r & Hr & Har); [lia..|].
    exists r. split; [done|]. by rewrite <- (ancestor_at_trans p b q bq) by (done || lia).
  - destruct (CBlockIndex.pprev b) as [q|] eqn:Eq; [|lia]. destruct Hprev as (bq & Hl & Hqh).
    destruct (IH q bq Hl) as (r & Hr & Har); [lia..|]. exists r.
    replace (CBlockIndex.nHeight b - 1) with (CBlockIndex.nHeight bq) by lia. split; [done|].
    rewrite <- (ancestor_at_trans p b q bq); try done; try lia.
    replace (CBlockIndex.nHeight bq) with (CBlockIndex.nHeight b - 1) by lia. by apply ancestor_at_prev.
Qed.

Lemma GetAncestor_spec p b height : h !! p = Some b ->
  GetAncestor h p height =
  Ok (if (height >? CBlockIndex.nHeight b) || (height <? 0) then None else ancestor_at p height).
Proof.
  intros Hp. unfold GetAncestor, deref. rewrite Hp. cbn [mbind result_bind].
  rewrite Z.gtb_ltb. destruct (Z.ltb_spec (CBlockIndex.nHeight b) height); [done|].
  destruct (Z.ltb_spec height 0); [done|]. cbn [orb].
  destruct (GetAncestor_loop_spec (Z.to_nat (CBlockIndex.nHeight b)) p b height) as (q & -> & ->);
    [done|lia..|]. done.
Qed.
End walk.

(** ** [BuildSkip] keeps the tree well formed *)

Lemma walk_congr (h h' : heap) n p :
  (forall q, CBlockIndex.pprev <$> h' !! q = CBlockIndex.pprev <$> h !! q) ->
  walk h' n p = walk h n p.
Proof.
  intros E. revert p. induction n as [|n IH]; intros p; [done|]. cbn [walk]. specialize (E p).
  destruct (h' !! p) as [b'|], (h !! p) as [b|]; try done. cbn in *. injection E as E. rewrite E.
  destruct (CBlockIndex.pprev b); [apply IH|done].
Qed.

Definition same_shape (h h' : heap) : Prop :=
  forall q, (fun b => (CBlockIndex.pprev b, CBlockIndex.nHeight b)) <$> h' !! q
          = (fun b => (CBlockIndex.pprev b, CBlockIndex.nHeight b)) <$> h !! q.

Lemma ancestor_at_congr h h' p k : same_shape h h' -> ancestor_at h' p k = ancestor_at h p k.
Proof.
  intros E. unfold ancestor_at, height_of.
  assert (from_option CBlockIndex.nHeight 0 (h' !! p) = from_option CBlockIndex.nHeight 0 (h !! p)) as ->.
  { specialize (E p). destruct (h' !! p), (h !! p); try done. by injection E as _ E. }
  apply walk_congr. intros q. specialize (E q). destruct (h' !! q), (h !! q); try done.
  cbn in *. congruence.
Qed.

Lemma set_pskip_shape (h : heap) p b s : h !! p = Some b ->
  same_shape h (<[p := CBlockIndex.set_pskip s b]> h).
Proof.
  intros Hp q. destruct (decide (p = q)) as [<-|Hne].
  - by rewrite lookup_insert_eq, Hp.
  - by rewrite lookup_insert_ne.
Qed.

Lemma tree_ok_shape h h' p b s : tree_ok h -> h !! p = Some b ->
  h' = <[p := CBlockIndex.set_pskip s b]> h ->
  (forall q, s = Some q -> 1 <= CBlockIndex.nHeight b /\
     ancestor_at h p (GetSkipHeight (CBlockIndex.nHeight b)) = Some q) ->
  tree_ok h'.
Proof.
  intros Hok Hp -> Hs r br Hr. pose proof (set_pskip_shape h p b s Hp) as Hsh.
  assert (forall q bq, h !! q = Some bq -> exists bq', (<[p := CBlockIndex.set_pskip s b]> h) !! q = Some bq'
    /\ CBlockIndex.nHeight bq' = CBlockIndex.nHeight bq) as Hlk.
  { intros q bq Hq. specialize (Hsh q). rewrite Hq in Hsh.
    destruct (<[p := CBlockIndex.set_pskip s b]> h !! q) as [bq'|]; [|done]. cbn in Hsh.
    exists bq'. split; [done|congruence]. }
  destruct (decide (p = r)) as [<-|Hne].
  - rewrite lookup_insert_eq in Hr. injection Hr as <-. destruct (Hok p b Hp) as [H1 H2 H3]. split; cbn.
    + done.
    + destruct (CBlockIndex.pprev b) as [q|]; [|done]. destruct H2 as (bq & Hq & Hh).
      destruct (Hlk q bq Hq) as (bq' & Hq' & Eh). exists bq'. rewrite Eh. done.
    + intros q Hq. rewrite (ancestor_at_congr h) by done. by apply Hs.
  - rewrite lookup_insert_ne in Hr by done. destruct (Hok r br Hr) as [H1 H2 H3]. split.
    + done.
    + destruct (CBlockIndex.pprev br) as [q|]; [|done]. destruct H2 as (bq & Hq & Hh).
      destruct (Hlk q bq Hq) as (bq' & Hq' & Eh). exists bq'. rewrite Eh. done.
    + intros q Hq. rewrite (ancestor_at_congr h) by done. by apply H3.
Qed.

Lemma BuildSkip_spec h p b : tree_ok h -> h !! p = Some b ->
  exists s, BuildSkip h p = Ok (<[p := CBlockIndex.set_pskip s b]> h) /\
    tree_ok (<[p := CBlockIndex.set_pskip s b]> h) /\
    (forall q, CBlockIndex.pprev b = Some q ->
       s = ancestor_at h p (GetSkipHeight (CBlockIndex.nHeight b)) /\ s <> None).
Proof.
  intros Hok Hp. unfold BuildSkip, BuildSkip_ptr, deref. rewrite Hp. cbn [mbind result_bind].
  destruct (Hok p b Hp) as [H1 H2 H3]. destruct (CBlockIndex.pprev b) as [q|] eqn:Eq.
  - destruct H2 as (bq & Hq & Hh). rewrite (GetAncestor_spec h Hok q bq) by done.
    assert (0 <= CBlockIndex.nHeight bq) by (by apply (Hok q bq)).
    pose proof (GetSkipHeight_bounds (CBlockIndex.nHeight b)) as Hb.
    replace (_ >? _) with false by lia. replace (_ <? 0) with false by lia. cbn [orb].
    cbn [mbind result_bind mret result_ret].
    assert (ancestor_at h q (GetSkipHeight (CBlockIndex.nHeight b))
      = ancestor_at h p (GetSkipHeight (CBlockIndex.nHeight b))) as ->.
    { apply (ancestor_at_trans h p b q bq); try done; try lia.
      replace (CBlockIndex.nHeight bq) with (CBlockIndex.nHeight b - 1) by lia. by apply ancestor_at_prev. }
    destruct (ancestor_at_total h Hok p b (GetSkipHeight (CBlockIndex.nHeight b))) as (r & br & Hr & _);
      [done|lia|]. eexists. split_and!; [done| |by rewrite Hr].
    eapply (tree_ok_shape h _ p b); [exact Hok|exact Hp|reflexivity|]. intros r' Hr'. split; [lia|done].
  - eexists. split_and!; [done| |done]. by eapply (tree_ok_shape h _ p b); [exact Hok|exact Hp|reflexivity|].
Qed.

(** ** The active chain as the path to its tip *)

Section chain.
Variable h : heap.
Context (Hok : tree_ok h).

(** The entries from the root to [p]. *)
Definition path (p : N) : CChain.t :=
  map (fun i => ancestor_at h p (Z.of_nat i)) (seq 0 (S (Z.to_nat (height_of h p)))).

(** The chain is empty or the path to an entry of the tree. *)
Definition chain_ok (v : CChain.t) : Prop := v = [] \/ exists p b, h !! p = Some b /\ v = path p.

Lemma length_path p : length (path p) = S (Z.to_nat (height_of h p)).
Proof. unfold path. by rewrite length_map, length_seq. Qed.

Lemma path_lookup p i : (i <= Z.to_nat (height_of h p))%nat ->
  path p !! i = Some (ancestor_at h p (Z.of_nat i)).
Proof.
  intros Hi. unfold path. change (map ?f ?l) with (f <$> l). rewrite list_lookup_fmap.
  rewrite lookup_seq_lt by lia. done.
Qed.

Lemma path_lookup_inv p i x : path p !! i = Some x ->
  (i <= Z.to_nat (height_of h p))%nat /\ x = ancestor_at h p (Z.of_nat i).
Proof.
  intros H. assert (i < length (path p))%nat by by apply lookup_lt_is_Some_1. rewrite length_path in *.
  rewrite path_lookup in H by lia. split; [lia|congruence].
Qed.

Lemma chain_lookup v i p : chain_ok v -> v !! i = Some p ->
  exists q b, p = Some q /\ h !! q = Some b /\ CBlockIndex.nHeight b = Z.of_nat i.
Proof.
  intros [->|(t & b & Ht & ->)]; [done|]. intros [Hi ->]%path_lookup_inv.
  rewrite (height_of_lookup h t b) in Hi by done. assert (0 <= CBlockIndex.nHeight b) by by apply (Hok t b).
  destruct (ancestor_at_total h Hok t b (Z.of_nat i)) as (q & bq & H1 & H2 & H3); [done|lia|]. eauto.
Qed.

(** Two chains with the same entry at a height agree below it. *)
Lemma chain_agree v p b i j q : chain_ok v -> h !! p = Some b ->
  v !! i = Some (Some q) -> ancestor_at h p (Z.of_nat i) = Some q ->
  (j <= i)%nat -> Z.of_nat i <= CBlockIndex.nHeight b ->
  v !! j = Some (ancestor_at h p (Z.of_nat j)).
Proof.
  intros [->|(t & bt & Ht & ->)] Hp Hi Ha Hj Hle; [done|].
  apply path_lookup_inv in Hi as [Hit Hq]. rewrite path_lookup by lia. f_equal.
  rewrite (height_of_lookup h t bt) in Hit by done. assert (0 <= CBlockIndex.nHeight bt) by by apply (Hok t bt).
  destruct (ancestor_at_total h Hok t bt (Z.of_nat i)) as (q' & bq & H1 & H2 & H3); [done|lia|].
  assert (q' = q) as -> by congruence.
  rewrite <- (ancestor_at_trans h t bt q bq (Z.of_nat j)); try done; try lia; [|by rewrite H3].
  by rewrite <- (ancestor_at_trans h p b q bq (Z.of_nat j)) by (done || lia || by rewrite H3).
Qed.

(** [SetTip]'s loop: the entries above [k] are final, those up to [k] are of the
    old chain or null. *)
Lemma SetTip_loop_spec fuel v vold p b k q :
  chain_ok vold -> h !! p = Some b -> 0 <= k <= CBlockIndex.nHeight b ->
  length v = S (Z.to_nat (CBlockIndex.nHeight b)) ->
  ancestor_at h p k = Some q -> (Z.to_nat k < fuel)%nat ->
  (forall i, (Z.to_nat k < i <= Z.to_nat (CBlockIndex.nHeight b))%nat ->
     v !! i = Some (ancestor_at h p (Z.of_nat i))) ->
  (forall i, (i <= Z.to_nat k)%nat -> v !! i = Some (default None (vold !! i))) ->
  CChain.SetTip_loop h fuel (Some q) v = Ok (path p).
Proof.
  intros Hold Hp. revert v k q. induction fuel as [|fuel IH]; intros v k q Hk Hl Hq Hf Hhi Hlo; [lia|].
  destruct (ancestor_at_total h Hok p b k) as (q' & bq & H1 & H2 & H3); [done|lia|].
  assert (q' = q) as -> by congruence. cbn [CChain.SetTip_loop]. unfold deref. rewrite H2.
  cbn [mbind result_bind]. rewrite H3, Hl.
  replace (k <? 0) with false by lia. rewrite Z.geb_leb, (proj2 (Z.leb_gt (Z.of_nat _) k)) by lia. cbn [orb].
  assert (forall w : CChain.t, length w = S (Z.to_nat (CBlockIndex.nHeight b)) ->
    (forall i, (i <= Z.to_nat (CBlockIndex.nHeight b))%nat -> w !! i = Some (ancestor_at h p (Z.of_nat i))) ->
    w = path p) as Hpath.
  { intros w Hw Hi. apply (list_eq_same_length _ _ (length w)); rewrite ?length_path, ?(height_of_lookup h p b); [done..|].
    intros i x y Hlt Hx Hy. rewrite Hi in Hx by lia. apply path_lookup_inv in Hy as [_ ->]. congruence. }
  destruct (bool_decide_reflect (v !! Z.to_nat k = Some (Some q))) as [Hs|Hs].
  - f_equal. apply Hpath; [done|]. intros i Hi.
    destruct (decide (Z.to_nat k < i)%nat) as [Hki|Hki]; [apply Hhi; lia|].
    rewrite Hlo in Hs by lia. rewrite Hlo by lia.
    assert (vold !! Z.to_nat k = Some (Some q)) as Hk'.
    { destruct (vold !! Z.to_nat k); cbn in *; congruence. }
    rewrite (chain_agree vold p b (Z.to_nat k) i q); try done; try lia. by rewrite Z2Nat.id by lia.
  - destruct (decide (k = 0)) as [->|Hk0].
    + destruct (Hok q bq H2) as [_ Hprev _]. rewrite H3 in Hprev.
      destruct (CBlockIndex.pprev bq) as [r|].
      { destruct Hprev as (br & Hr & ?). assert (0 <= CBlockIndex.nHeight br) by by apply (Hok r br). lia. }
      assert (CChain.SetTip_loop h fuel None (<[Z.to_nat 0:=Some q]> v) = Ok (<[Z.to_nat 0:=Some q]> v)) as ->
        by by destruct fuel.
      f_equal. apply Hpath; [by rewrite length_insert|]. intros i Hi.
      destruct (decide (i = 0)%nat) as [->|]; [rewrite list_lookup_insert_eq by lia; by f_equal|].
      rewrite list_lookup_insert_ne by lia. apply Hhi. lia.
    + destruct (Hok q bq H2) as [_ Hprev _]. destruct (CBlockIndex.pprev bq) as [r|] eqn:Er; [|lia].
      apply (IH _ (k - 1)); try lia.
      * by rewrite length_insert.
      * rewrite <- (ancestor_at_trans h p b q bq) by (done || lia || by rewrite H3).
        rewrite <- H3. by apply ancestor_at_prev.
      * intros i Hi. destruct (decide (i = Z.to_nat k)) as [->|].
        { rewrite list_lookup_insert_eq by lia. by rewrite Z2Nat.id, Hq by lia. }
        rewrite list_lookup_insert_ne by lia. apply Hhi. lia.
      * intros i Hi. rewrite list_lookup_insert_ne by lia. apply Hlo. lia.
Qed.

Lemma SetTip_spec v p b : chain_ok v -> h !! p = Some b -> CChain.SetTip h (Some p) v = Ok (path p).
Proof.
  intros Hv Hp. unfold CChain.SetTip, deref. rewrite Hp. cbn [mbind result_bind].
  assert (0 <= CBlockIndex.nHeight b) by by apply (Hok p b).
  apply (SetTip_loop_spec _ _ v p b (CBlockIndex.nHeight b)); try done; try lia.
  - rewrite length_resize. lia.
  - by apply ancestor_at_self.
  - intros i Hi. destruct (decide (i < length v)%nat) as [Hlt|Hge].
    + rewrite lookup_resize by lia. apply lookup_lt_is_Some_2 in Hlt as [x ->]. done.
    + rewrite lookup_resize_new by lia. by rewrite lookup_ge_None_2 by lia.
Qed.
(** [q] is in the chain. *)
Definition on_chain (v : CChain.t) (q : N) : Prop := Some q ∈ v.
#[export] Instance on_chain_dec v q : Decision (on_chain v q).
Proof. unfold on_chain. apply _. Defined.
Definition is_ancestor (q p : N) : Prop := exists k, 0 <= k <= height_of h p /\ ancestor_at h p k = Some q.

Lemma at_lookup v i : 0 <= i -> CChain.at_ v i = default None (v !! Z.to_nat i).
Proof.
  intros Hi. unfold CChain.at_. replace (i <? 0) with false by lia. cbn [orb]. rewrite Z.geb_leb.
  destruct (Z.leb_spec (Z.of_nat (length v)) i).
  - by rewrite lookup_ge_None_2 by lia.
  - destruct (v !! Z.to_nat i) as [x|] eqn:E; [by apply list_lookup_total_correct|].
    apply lookup_ge_None in E. lia.
Qed.

Lemma Contains_spec v q b : chain_ok v -> h !! q = Some b ->
  CChain.Contains h v q = Ok (bool_decide (on_chain v q)).
Proof.
  intros Hv Hq. unfold CChain.Contains, deref. rewrite Hq. cbn [mbind result_bind mret result_ret].
  f_equal. apply bool_decide_ext. assert (0 <= CBlockIndex.nHeight b) by by apply (Hok q b).
  rewrite at_lookup by done. unfold on_chain. rewrite list_elem_of_lookup. split.
  - intros E. exists (Z.to_nat (CBlockIndex.nHeight b)). destruct (v !! _); cbn in *; congruence.
  - intros [i Hi]. destruct (chain_lookup v i (Some q) Hv Hi) as (q' & b' & [= <-] & Hq' & Hh).
    simplify_eq. by rewrite Hh, Nat2Z.id, Hi.
Qed.

Lemma is_ancestor_prev q p b r : h !! p = Some b -> CBlockIndex.pprev b = Some r ->
  is_ancestor q p <-> q = p \/ is_ancestor q r.
Proof.
  intros Hp Hr. destruct (Hok p b Hp) as [Hb Hprev _]. rewrite Hr in Hprev.
  destruct Hprev as (br & Hlr & Hh). unfold is_ancestor.
  rewrite (height_of_lookup h p b), (height_of_lookup h r br) by done.
  assert (forall k, k <= CBlockIndex.nHeight br -> ancestor_at h r k = ancestor_at h p k) as E.
  { intros k Hk. apply (ancestor_at_trans h p b r br); try done; try lia.
    replace (CBlockIndex.nHeight br) with (CBlockIndex.nHeight b - 1) by lia. by apply ancestor_at_prev. }
  split.
  - intros (k & Hk & Ha). destruct (decide (k = CBlockIndex.nHeight b)) as [->|].
    + left. rewrite ancestor_at_self in Ha by done. congruence.
    + right. exists k. rewrite E by lia. split; [lia|done].
  - intros [->|(k & Hk & Ha)].
    + exists (CBlockIndex.nHeight b). split; [lia|by apply ancestor_at_self].
    + exists k. rewrite E in Ha by lia. split; [lia|done].
Qed.

Lemma is_ancestor_root q p b : h !! p = Some b -> CBlockIndex.pprev b = None -> is_ancestor q p -> q = p.
Proof.
  intros Hp Hr (k & Hk & Ha). destruct (Hok p b Hp) as [Hb Hprev _]. rewrite Hr in Hprev.
  rewrite (height_of_lookup h p b) in Hk by done. assert (k = CBlockIndex.nHeight b) as -> by lia.
  rewrite ancestor_at_self in Ha by done. congruence.
Qed.

Lemma is_ancestor_height q p b bq : h !! p = Some b -> h !! q = Some bq -> is_ancestor q p ->
  CBlockIndex.nHeight bq <= CBlockIndex.nHeight b /\ ancestor_at h p (CBlockIndex.nHeight bq) = Some q.
Proof.
  intros Hp Hq (k & Hk & Ha). rewrite (height_of_lookup h p b) in Hk by done.
  destruct (ancestor_at_total h Hok p b k) as (q' & bq' & H1 & H2 & H3); [done|lia|]. simplify_eq.
  split; [lia|done].
Qed.

(** The highest ancestor of [p] that is in the chain. *)
Definition last_common (v : CChain.t) (p : N) (r : option N) : Prop :=
  match r with
  | Some r => on_chain v r /\ is_ancestor r p /\
      (forall q, on_chain v q -> is_ancestor q p -> height_of h q <= height_of h r)
  | None => forall q, is_ancestor q p -> ~ on_chain v q
  end.

Lemma FindFork_loop_spec fuel v p b : chain_ok v -> h !! p = Some b ->
  CBlockIndex.nHeight b < Z.of_nat fuel ->
  exists r, CChain.FindFork_loop h fuel v (Some p) = Ok r /\ last_common v p r.
Proof.
  intros Hv. revert p b. induction fuel as [|fuel IH]; intros p b Hp Hf.
  { assert (0 <= CBlockIndex.nHeight b) by by apply (Hok p b). lia. }
  cbn [CChain.FindFork_loop]. rewrite (Contains_spec v p b) by done. cbn [mbind result_bind].
  destruct (bool_decide_reflect (on_chain v p)) as [Hc|Hc].
  - exists (Some p). split; [done|]. cbn. split_and!; [done| |].
    + exists (CBlockIndex.nHeight b). rewrite (height_of_lookup h p b) by done.
      split; [split; [by apply (Hok p b)|done]|by apply ancestor_at_self].
    + intros q Hq Ha. apply list_elem_of_lookup in Hq as [i Hi].
      destruct (chain_lookup v i (Some q) Hv Hi) as (q' & bq & [= <-] & Hl & _).
      rewrite (height_of_lookup h p b), (height_of_lookup h q bq) by done.
      by destruct (is_ancestor_height q p b bq).
  - unfold deref. rewrite Hp. cbn [mbind result_bind]. destruct (Hok p b Hp) as [_ Hprev _].
    destruct (CBlockIndex.pprev b) as [r|] eqn:Er.
    + destruct Hprev as (br & Hr & Hh). destruct (IH r br Hr) as (x & Hx & Hlc); [lia|].
      exists x. split; [done|]. destruct x as [x|]; cbn in *.
      * destruct Hlc as (H1 & H2 & H3). split_and!; [done|by eapply is_ancestor_prev; eauto|].
        intros q Hq Ha. apply (is_ancestor_prev q p b r) in Ha as [->|Ha]; [done|by apply H3|done..].
      * intros q Ha. apply (is_ancestor_prev q p b r) in Ha as [->|Ha]; [done|by apply Hlc|done..].
    + exists None. split; [by destruct fuel|]. cbn. intros q Ha. by rewrite (is_ancestor_root q p b).
Qed.

Lemma on_chain_height v q bq : chain_ok v -> h !! q = Some bq -> on_chain v q ->
  CBlockIndex.nHeight bq <= CChain.Height v.
Proof.
  intros Hv Hq Hc. apply list_elem_of_lookup in Hc as [i Hi].
  destruct (chain_lookup v i (Some q) Hv Hi) as (q' & b' & [= <-] & Hq' & Hh). simplify_eq.
  apply lookup_lt_Some in Hi. unfold CChain.Height. lia.
Qed.

(** Entries of the chain are not above its height, so cutting a branch off there
    keeps the common ancestors. *)
Lemma ancestor_restrict v p b q bq x : chain_ok v -> h !! p = Some b -> h !! q = Some bq ->
  CBlockIndex.nHeight bq = CChain.Height v -> CBlockIndex.nHeight bq <= CBlockIndex.nHeight b ->
  ancestor_at h p (CBlockIndex.nHeight bq) = Some q -> on_chain v x ->
  is_ancestor x p <-> is_ancestor x q.
Proof.
  intros Hv Hp Hq Hh Hle Ha Hx.
  assert (forall k, k <= CBlockIndex.nHeight bq -> ancestor_at h q k = ancestor_at h p k) as E
    by (intros; by apply (ancestor_at_trans h p b q bq)).
  unfold is_ancestor. rewrite (height_of_lookup h p b), (height_of_lookup h q bq) by done. split.
  - intros (k & Hk & Hak). exists k.
    destruct (ancestor_at_total h Hok p b k) as (x' & bx & H1 & H2 & H3); [done|lia|].
    assert (x' = x) as -> by congruence. pose proof (on_chain_height v x bx Hv H2 Hx).
    rewrite E by lia. split; [lia|done].
  - intros (k & Hk & Hak). exists k. rewrite E in Hak by lia. split; [lia|done].
Qed.

Lemma FindFork_spec v p b : chain_ok v -> h !! p = Some b ->
  exists r, CChain.FindFork h v (Some p) = Ok r /\ last_common v p r.
Proof.
  intros Hv Hp. unfold CChain.FindFork, deref. rewrite Hp. cbn [mbind result_bind].
  assert (0 <= CBlockIndex.nHeight b) by by apply (Hok p b).
  destruct (Z.gtb_spec (CBlockIndex.nHeight b) (CChain.Height v)) as [Hgt|Hle].
  - rewrite (GetAncestor_spec h Hok p b) by done. replace (_ >? _) with false by lia. cbn [orb].
    destruct (Z.ltb_spec (CChain.Height v) 0) as [Hneg|Hpos]; cbn [mbind result_bind].
    + exists None. split; [reflexivity|]. unfold CChain.Height in Hneg.
      destruct v; [|cbn [length] in Hneg; lia]. intros q _. unfold on_chain. apply not_elem_of_nil.
    + destruct (ancestor_at_total h Hok p b (CChain.Height v)) as (q & bq & Ha & Hq & Hh); [done|lia|].
      rewrite Ha. destruct (FindFork_loop_spec (S (Z.to_nat (CBlockIndex.nHeight b))) v q bq)
        as (r & Hr & Hlc); [done|done|lia|]. exists r. split; [done|].
      assert (forall x, on_chain v x -> is_ancestor x p <-> is_ancestor x q) as Hiff.
      { intros x Hx. apply (ancestor_restrict v p b q bq); try done; [lia|by rewrite Hh]. }
      destruct r as [r|]; cbn in *.
      * destruct Hlc as (H1 & H2 & H3). split_and!; [done|by apply Hiff|].
        intros x Hx Hxa. apply H3; [done|]. by apply Hiff.
      * intros x Hxa Hx. apply (Hlc x); [by apply Hiff|done].
  - cbn [mbind result_bind mret result_ret]. apply (FindFork_loop_spec _ v p b); [done|done|lia].
Qed.
(** *** Locators *)

(** The heights a locator names, by arithmetic alone: [n] entries came before. *)
Fixpoint locator_heights (fuel : nat) (height nStep n : Z) : list Z :=
  height ::
  (if height =? 0 then []
   else match fuel with
        | O => []
        | S fuel' => locator_heights fuel' (Z.max (height - nStep) 0)
                       (if n + 1 >? 10 then nStep * 2 else nStep) (n + 1)
        end).

Definition hash_at (p : N) (k : Z) : list Z :=
  default [] (q ← ancestor_at h p k; b ← h !! q; CBlockIndex.phashBlock b).

(** Every entry knows its hash. *)
Definition hashed : Prop := forall p b, h !! p = Some b -> CBlockIndex.phashBlock b <> None.

Context (Hhash : hashed).

Lemma at_on_chain v q bq k : chain_ok v -> h !! q = Some bq -> on_chain v q ->
  0 <= k <= CBlockIndex.nHeight bq -> CChain.at_ v k = ancestor_at h q k.
Proof.
  intros Hv Hq Hc Hk. rewrite at_lookup by lia. apply list_elem_of_lookup in Hc as [i Hi].
  destruct (chain_lookup v i (Some q) Hv Hi) as (q' & b' & [= <-] & Hq' & Hh). simplify_eq.
  rewrite (chain_agree v q bq i (Z.to_nat k) q); try done; try lia.
  - cbn. by rewrite Z2Nat.id by lia.
  - rewrite <- Hh. by apply ancestor_at_self.
Qed.

Lemma GetLocator_loop_spec fuel v p b q bq j vHave :
  chain_ok v -> h !! p = Some b -> h !! q = Some bq -> 0 <= j ->
  ancestor_at h p (CBlockIndex.nHeight bq) = Some q ->
  CBlockIndex.nHeight bq <= CBlockIndex.nHeight b -> CBlockIndex.nHeight b < 2 ^ 29 ->
  CBlockIndex.nHeight bq <= Z.of_nat fuel ->
  (CBlockIndex.nHeight bq = 0 \/ j <= 29) ->
  CChain.GetLocator_loop h fuel v (2 ^ j) (Some q) vHave
  = Ok (vHave ++ map (hash_at p) (locator_heights fuel (CBlockIndex.nHeight bq) (2 ^ j)
                                    (Z.of_nat (length vHave)))).
Proof.
  intros Hv Hp. revert q bq j vHave.
  induction fuel as [|fuel IH]; intros q bq j vHave Hq Hj Ha Hle Hb Hf Hsmall;
    cbn [CChain.GetLocator_loop locator_heights]; unfold deref; rewrite Hq; cbn [mbind result_bind];
    pose proof (Hhash q bq Hq); destruct (CBlockIndex.phashBlock bq) as [hq|] eqn:Eh; [|done| |done];
    assert (hash_at p (CBlockIndex.nHeight bq) = hq) as Ehq
      by (unfold hash_at; rewrite Ha; cbn; rewrite Hq; cbn; by rewrite Eh);
    assert (0 <= CBlockIndex.nHeight bq) by (by apply (Hok q bq));
    destruct (Z.eqb_spec (CBlockIndex.nHeight bq) 0) as [E0|E0]; cbn [map]; rewrite ?Ehq; try done; [lia|].
  rewrite (Contains_spec v q bq) by done. cbn [mbind result_bind].
  set (k := Z.max (CBlockIndex.nHeight bq - 2 ^ j) 0).
  assert (0 < 2 ^ j) by lia. assert (0 <= k < CBlockIndex.nHeight bq) as Hk by lia.
  assert (ancestor_at h q k = ancestor_at h p k) as Ek by (apply (ancestor_at_trans h p b q bq); done || lia).
  destruct (ancestor_at_total h Hok p b k) as (r & br & Hr & Hlr & Hhr); [done|lia|].
  assert ((if bool_decide (on_chain v q) then mret (CChain.at_ v k) else GetAncestor h q k)
    = Ok (Some r)) as ->.
  { case_bool_decide.
    - rewrite (at_on_chain v q bq) by (done || lia). by rewrite Ek, Hr.
    - rewrite (GetAncestor_spec h Hok q bq) by done. replace (_ >? _) with false by lia.
      replace (_ <? _) with false by lia. cbn [orb]. by rewrite Ek, Hr. }
  cbn [mbind result_bind]. rewrite length_app. cbn [length].
  replace (Z.of_nat (length vHave + 1)) with (Z.of_nat (length vHave) + 1) by lia.
  assert (j = 29 -> k = 0) as H29 by (intros ->; lia).
  assert (exists j', 0 <= j' /\ (if Z.of_nat (length vHave) + 1 >? 10 then i32 (2 ^ j * 2) else 2 ^ j) = 2 ^ j'
    /\ (if Z.of_nat (length vHave) + 1 >? 10 then 2 ^ j * 2 else 2 ^ j) = 2 ^ j' /\ (k = 0 \/ j' <= 29))
    as (j' & Hj' & -> & -> & Hs').
  { destruct (_ >? 10).
    - assert (2 ^ j <= 2 ^ 29) by (apply Z.pow_le_mono_r; lia).
      exists (j + 1). rewrite Z.pow_add_r, Z.pow_1_r by lia.
      rewrite (swrap_small 32) by (unfold is_s; lia).
      split_and!; [lia|done|done|]. destruct Hsmall; lia.
    - exists j. split_and!; [done..|]. destruct Hsmall; [lia|by right]. }
  rewrite <- Hhr in *. rewrite (IH r br j'); try done; try lia.
  rewrite length_app. cbn [length]. rewrite <- app_assoc. cbn [app].
  by replace (Z.of_nat (length vHave + 1)) with (Z.of_nat (length vHave) + 1) by lia.
Qed.

Lemma GetLocator_spec v p b : chain_ok v -> h !! p = Some b -> CBlockIndex.nHeight b < 2 ^ 29 ->
  CChain.GetLocator h v (Some p)
  = Ok (map (hash_at p) (locator_heights (Z.to_nat (CBlockIndex.nHeight b)) (CBlockIndex.nHeight b) 1 0)).
Proof.
  intros Hv Hp Hb. unfold CChain.GetLocator, deref. rewrite Hp. cbn [mbind result_bind].
  assert (0 <= CBlockIndex.nHeight b) by (by apply (Hok p b)).
  apply (GetLocator_loop_spec _ v p b p b 0 []); try done; try lia. by apply ancestor_at_self.
Qed.
End chain.

(** A locator starts at the block, goes down strictly, ends at height 0, and is
    short. *)
Lemma locator_heights_doubling fuel x j n m : 0 <= j -> 0 <= m -> 10 <= n ->
  0 <= x <= 2 ^ (j + m) - 2 ^ j -> x <= Z.of_nat fuel ->
  Z.of_nat (length (locator_heights fuel x (2 ^ j) n)) <= m + 1.
Proof.
  revert x j n m. induction fuel as [|fuel IH]; intros x j n m Hj Hm Hn Hx Hf; cbn [locator_heights].
  { replace (x =? 0) with true by lia. cbn. lia. }
  destruct (Z.eqb_spec x 0) as [->|Hx0]; [cbn; lia|]. cbn [length].
  replace (n + 1 >? 10) with true by lia.
  assert (m <> 0) by (intros ->; rewrite Z.add_0_r in Hx; lia).
  replace (2 ^ j * 2) with (2 ^ (j + 1)) by (rewrite Z.pow_add_r by lia; lia).
  assert (2 ^ (j + 1) = 2 * 2 ^ j) as E1 by (rewrite Z.pow_add_r by lia; lia).
  assert (0 < 2 ^ j) by lia. assert (2 ^ (j + 1) <= 2 ^ (j + m)) by (apply Z.pow_le_mono_r; lia).
  specialize (IH (Z.max (x - 2 ^ j) 0) (j + 1) (n + 1) (m - 1)).
  replace (j + 1 + (m - 1)) with (j + m) in IH by lia. rewrite Nat2Z.inj_succ. lia.
Qed.

Lemma locator_heights_length fuel x n m : 0 <= m -> 0 <= n <= 10 -> 0 <= x < 2 ^ m -> x <= Z.of_nat fuel ->
  Z.of_nat (length (locator_heights fuel x 1 n)) <= (10 - n) + m + 1.
Proof.
  revert x n. induction fuel as [|fuel IH]; intros x n Hm Hn Hx Hf.
  { cbn [locator_heights]. replace (x =? 0) with true by lia. cbn. lia. }
  destruct (decide (n = 10)) as [->|Hn10].
  - apply (locator_heights_doubling (S fuel) x 0 10 m); rewrite ?Z.add_0_l; lia.
  - cbn [locator_heights]. destruct (Z.eqb_spec x 0) as [->|Hx0]; [cbn; lia|]. cbn [length].
    replace (n + 1 >? 10) with false by lia. specialize (IH (Z.max (x - 1) 0) (n + 1)). lia.
Qed.

Lemma locator_heights_sorted fuel x nStep n : 0 <= x <= Z.of_nat fuel -> 1 <= nStep ->
  let l := locator_heights fuel x nStep n in
  StronglySorted Z.gt l /\ last l = Some 0 /\ Forall (fun y => 0 <= y <= x) l.
Proof.
  revert x nStep n. induction fuel as [|fuel IH]; intros x nStep n Hx Hs; cbn [locator_heights].
  { replace x with 0 by lia. cbn. split_and!; [repeat constructor|done|repeat constructor; lia]. }
  destruct (Z.eqb_spec x 0) as [->|Hx0].
  { cbn. split_and!; [repeat constructor|done|repeat constructor; lia]. }
  destruct (IH (Z.max (x - nStep) 0) (if n + 1 >? 10 then nStep * 2 else nStep) (n + 1))
    as (H1 & H2 & H3); [lia|destruct (_ >? _); lia|].
  split_and!.
  - constructor; [done|]. eapply Forall_impl; [exact H3|]. intros; cbn in *; lia.
  - rewrite last_cons, H2. done.
  - constructor; [lia|]. eapply Forall_impl; [exact H3|]. intros; cbn in *; lia.
Qed.

(** *** Searching the chain by time *)

Section by_time.
Variable h : heap.
Context (Hok : tree_ok h).

(** [nTimeMax] is the maximum of the times up to a block, so it never decreases. *)
Definition time_ok : Prop := forall p b q bq, h !! p = Some b -> CBlockIndex.pprev b = Some q ->
  h !! q = Some bq -> CBlockIndex.nTimeMax bq <= CBlockIndex.nTimeMax b.

Definition tmax (v : CChain.t) (i : nat) : option Z :=
  match v !! i with Some (Some p) => CBlockIndex.nTimeMax <$> h !! p | _ => None end.

Lemma tmax_total v i : chain_ok h v -> (i < length v)%nat ->
  exists p b, v !! i = Some (Some p) /\ h !! p = Some b /\ tmax v i = Some (CBlockIndex.nTimeMax b).
Proof.
  intros Hv Hi. apply lookup_lt_is_Some_2 in Hi as [x Hx].
  destruct (chain_lookup h Hok v i x Hv Hx) as (q & b & -> & Hq & _). exists q, b.
  unfold tmax. by rewrite Hx, Hq.
Qed.

Lemma chain_prev v i q b : chain_ok h v -> v !! S i = Some (Some q) -> h !! q = Some b ->
  exists r, CBlockIndex.pprev b = Some r /\ v !! i = Some (Some r).
Proof.
  intros Hv Hi Hq. destruct (chain_lookup h Hok v (S i) _ Hv Hi) as (q' & b' & [= <-] & Hq' & Hh).
  simplify_eq. destruct (Hok q b Hq) as [_ Hprev _].
  destruct (CBlockIndex.pprev b) as [r|] eqn:Er; [|lia]. exists r. split; [done|].
  rewrite (chain_agree h Hok v q b (S i) i q); try done; try lia.
  - f_equal. replace (Z.of_nat i) with (CBlockIndex.nHeight b - 1) by lia. by apply ancestor_at_prev.
  - rewrite <- Hh. by apply ancestor_at_self.
Qed.

Lemma tmax_mono v i j x y : chain_ok h v -> time_ok -> (i <= j)%nat ->
  tmax v i = Some x -> tmax v j = Some y -> x <= y.
Proof.
  intros Hv Ht Hij Hx. revert y. induction Hij as [|j Hij IH]; intros y Hy.
  { assert (x = y) by congruence. lia. }
  assert (exists q b, v !! S j = Some (Some q) /\ h !! q = Some b /\ CBlockIndex.nTimeMax b = y)
    as (q & b & Hq & Hb & Hy').
  { unfold tmax in Hy. destruct (v !! S j) as [[q|]|]; try done. destruct (h !! q) as [b|] eqn:E; try done.
    cbn in Hy. exists q, b. split_and!; [done..|congruence]. }
  destruct (chain_prev v j q b) as (r & Hr & Hj); [done..|].
  destruct (chain_lookup h Hok v j _ Hv Hj) as (r' & br & [= <-] & Hlr & _).
  assert (tmax v j = Some (CBlockIndex.nTimeMax br)) as Hj'. { unfold tmax. by rewrite Hj, Hlr. }
  specialize (IH _ Hj'). specialize (Ht q b r br Hb Hr Hlr). lia.
Qed.

Lemma lower_bound_loop_spec fuel v nTime first len : chain_ok h v -> time_ok ->
  (first + len <= length v)%nat -> (len <= fuel)%nat ->
  (forall i t, (i < first)%nat -> tmax v i = Some t -> t < nTime) ->
  (forall i t, (first + len <= i)%nat -> tmax v i = Some t -> nTime <= t) ->
  exists r, CChain.lower_bound_loop h fuel v nTime first len = Ok r /\ (r <= length v)%nat /\
    (forall i t, (i < r)%nat -> tmax v i = Some t -> t < nTime) /\
    (forall i t, (r <= i)%nat -> tmax v i = Some t -> nTime <= t).
Proof.
  intros Hv Ht. revert first len.
  induction fuel as [|fuel IH]; intros first len Hl Hf Hlo Hhi; cbn [CChain.lower_bound_loop].
  { exists first. split_and!; [done|lia|done|]. intros i t Hi. apply Hhi. lia. }
  destruct (Nat.eqb_spec len 0) as [->|Hne].
  { exists first. split_and!; [done|lia|done|]. intros i t Hi. apply Hhi. lia. }
  assert (len / 2 < len)%nat by (apply Nat.div_lt; lia).
  set (m := (first + len / 2)%nat). destruct (tmax_total v m) as (p & b & Hm & Hp & Htm); [done|lia|].
  rewrite Hm. unfold deref. rewrite Hp. cbn [mbind result_bind]. unfold CBlockIndex.GetBlockTimeMax.
  destruct (Z.ltb_spec (CBlockIndex.nTimeMax b) nTime) as [Hlt|Hge].
  - apply IH; [lia|lia| |].
    + intros i t Hi Hit. pose proof (tmax_mono v i m t (CBlockIndex.nTimeMax b) Hv Ht ltac:(lia) Hit Htm). lia.
    + intros i t Hi. apply Hhi. lia.
  - apply IH; [lia|lia|done|].
    intros i t Hi Hit. pose proof (tmax_mono v m i (CBlockIndex.nTimeMax b) t Hv Ht ltac:(lia) Htm Hit). lia.
Qed.

(** The lowest block of the chain whose [nTimeMax] is at least [nTime]. *)
Definition earliest (v : CChain.t) (nTime : Z) (r : option N) : Prop :=
  match r with
  | Some q => on_chain v q /\ (exists b, h !! q = Some b /\ nTime <= CBlockIndex.nTimeMax b) /\
      (forall x bx, on_chain v x -> h !! x = Some bx -> nTime <= CBlockIndex.nTimeMax bx ->
         height_of h q <= CBlockIndex.nHeight bx)
  | None => forall x bx, on_chain v x -> h !! x = Some bx -> CBlockIndex.nTimeMax bx < nTime
  end.

Lemma on_chain_tmax v x bx : chain_ok h v -> on_chain v x -> h !! x = Some bx ->
  exists i, v !! i = Some (Some x) /\ CBlockIndex.nHeight bx = Z.of_nat i /\
    tmax v i = Some (CBlockIndex.nTimeMax bx).
Proof.
  intros Hv Hx Hb. apply list_elem_of_lookup in Hx as [i Hi].
  destruct (chain_lookup h Hok v i _ Hv Hi) as (x' & b' & [= <-] & Hx' & Hh). simplify_eq.
  exists i. unfold tmax. by rewrite Hi, Hb.
Qed.

Lemma FindEarliestAtLeast_spec v nTime : chain_ok h v -> time_ok ->
  exists r, CChain.FindEarliestAtLeast h v nTime = Ok r /\ earliest v nTime r.
Proof.
  intros Hv Ht. unfold CChain.FindEarliestAtLeast.
  destruct (lower_bound_loop_spec (length v) v nTime 0 (length v)) as (r & -> & Hr & Hlo & Hhi);
    [done|done|lia|lia|lia| |].
  { intros i t Hi. unfold tmax. by rewrite lookup_ge_None_2 by lia. }
  cbn [mbind result_bind mret result_ret]. eexists. split; [done|].
  destruct (Nat.eqb_spec r (length v)) as [->|Hne].
  - intros x bx Hx Hb. destruct (on_chain_tmax v x bx) as (i & Hi & _ & Hti); [done..|].
    apply lookup_lt_Some in Hi. eapply Hlo; eauto.
  - destruct (tmax_total v r) as (q & b & Hq & Hb & Htq); [done|lia|].
    rewrite (list_lookup_total_correct _ _ _ Hq). split_and!.
    + by eapply list_elem_of_lookup_2.
    + exists b. split; [done|]. by apply (Hhi r).
    + intros x bx Hx Hbx Hge. destruct (on_chain_tmax v x bx) as (i & Hi & Hhi' & Hti); [done..|].
      destruct (chain_lookup h Hok v r _ Hv Hq) as (q' & b' & [= <-] & Hq' & Hh). simplify_eq.
      rewrite (height_of_lookup h q b) by done.
      destruct (decide (i < r)%nat) as [Hir|]; [|lia]. specialize (Hlo i _ Hir Hti). lia.
Qed.
End by_time.

(** *** Median time *)

Section median.
Variable h : heap.
Context (Hok : tree_ok h).

(** The times of [p] and its predecessors, at most [n] of them. *)
Fixpoint times_back (n : nat) (p : option N) : list Z :=
  match n, p with
  | S n', Some q => match h !! q with
                    | Some b => CBlockIndex.nTime b :: times_back n' (CBlockIndex.pprev b)
                    | None => []
                    end
  | _, _ => []
  end.

Lemma median_times_spec n p acc :
  match p with Some q => is_Some (h !! q) | None => True end ->
  median_times h n p acc = Ok (reverse (times_back n p) ++ acc).
Proof.
  revert p acc. induction n as [|n IH]; intros [q|] acc Hp; cbn [median_times times_back]; try done.
  destruct Hp as [b Hb]. unfold deref. rewrite Hb. cbn [mbind result_bind].
  rewrite IH. { by rewrite reverse_cons, <- app_assoc. }
  destruct (Hok q b Hb) as [_ Hprev _]. destruct (CBlockIndex.pprev b); [|done].
  destruct Hprev as (? & ? & _). eauto.
Qed.

(** [t] is a middle element of [l]: not more than half are below it and fewer than
    half are above. *)
Definition is_median (t : Z) (l : list Z) : Prop :=
  t ∈ l /\ (length (filter (fun x => (x < t)%Z) l) <= length l / 2)%nat /\
  (length (filter (fun x => (x > t)%Z) l) < length l - length l / 2)%nat.

Lemma filter_none (P : Z -> Prop) `{!forall x, Decision (P x)} (l : list Z) :
  Forall (fun x => ~ P x) l -> filter P l = [].
Proof. induction 1; [done|]. by rewrite filter_cons_False. Qed.

Lemma middle_median (l a c : list Z) t : l = a ++ t :: c -> StronglySorted Z.le l ->
  length a = (length l / 2)%nat -> is_median t l.
Proof.
  intros El Hs Hn. assert (length l = length a + S (length c))%nat as Ell by (subst; by rewrite length_app).
  split; [subst; apply elem_of_app; right; left|]. rewrite <- Hn, Ell, El, !filter_app, !length_app.
  rewrite El in Hs. apply StronglySorted_app in Hs as (Hle & _ & [Hge _]%StronglySorted_cons).
  rewrite !filter_cons, !decide_False by lia. split.
  - rewrite (filter_none _ c) by (eapply Forall_impl; [exact Hge|]; intros; cbn in *; lia).
    pose proof (length_filter (fun x => x < t) a). cbn [length]. lia.
  - rewrite (filter_none _ a).
    + pose proof (length_filter (fun x => x > t) c). cbn [length]. lia.
    + apply Forall_forall. intros x Hx. assert (x <= t) by (apply Hle; [done|left]). lia.
Qed.

Lemma sorted_median (l : list Z) t : Sorted Z.le l -> l !! (length l / 2)%nat = Some t -> is_median t l.
Proof.
  intros Hs Ht. assert (length l / 2 < length l)%nat by by apply lookup_lt_Some in Ht.
  apply (middle_median l (take (length l / 2) l) (drop (S (length l / 2)) l)).
  - by rewrite take_drop_middle.
  - apply Sorted_StronglySorted; [intros ?? ?; lia|done].
  - rewrite length_take. lia.
Qed.

#[export] Instance is_median_perm : Proper ((=) ==> (≡ₚ) ==> iff) is_median.
Proof.
  intros t ? <- l l' Hp. unfold is_median. by rewrite !Hp.
Qed.

Lemma GetMedianTimePast_spec p b : h !! p = Some b ->
  exists t, GetMedianTimePast h p = Ok t /\ is_median t (times_back nMedianTimeSpan (Some p)).
Proof.
  intros Hp. unfold GetMedianTimePast. rewrite median_times_spec by (cbn; eauto).
  cbn [mbind result_bind]. rewrite app_nil_r.
  set (l := reverse (times_back nMedianTimeSpan (Some p))).
  assert (l ≡ₚ times_back nMedianTimeSpan (Some p)) as El by apply reverse_Permutation.
  assert (length l <> 0)%nat as Hl.
  { rewrite El. unfold nMedianTimeSpan. cbn [times_back]. rewrite Hp. done. }
  assert (merge_sort Z.le l ≡ₚ l) as Em by apply merge_sort_Permutation.
  assert (length l / 2 < length l)%nat by (apply Nat.div_lt; lia).
  destruct (merge_sort Z.le l !! (length l / 2)%nat) as [t|] eqn:Et.
  - exists t. split; [done|]. rewrite <- El, <- Em. apply sorted_median.
    + apply Sorted_merge_sort. intros ??. lia.
    + rewrite <- Et. by rewrite (Permutation_length Em).
  - apply lookup_ge_None in Et. rewrite (Permutation_length Em) in Et. lia.
Qed.

(** *** Version majorities *)

(** The versions of [p] and its predecessors, at most [n] of them. *)
Fixpoint versions_back (n : nat) (p : option N) : list Z :=
  match n, p with
  | S n', Some q => match h !! q with
                    | Some b => CBlockIndex.GetBlockVersion b :: versions_back n' (CBlockIndex.pprev b)
                    | None => []
                    end
  | _, _ => []
  end.

Definition count_at_least (minVersion : Z) (l : list Z) : Z :=
  Z.of_nat (length (filter (fun v => (minVersion <= v)%Z) l)).

Lemma supermajority_loop_spec n minVersion nRequired nFound p :
  match p with Some q => is_Some (h !! q) | None => True end ->
  0 <= nFound -> nFound + Z.of_nat n < 2 ^ 32 ->
  exists r, supermajority_loop h n minVersion nRequired nFound p = Ok r /\
    (nRequired <= r <-> nRequired <= nFound + count_at_least minVersion (versions_back n p)).
Proof.
  revert nFound p. induction n as [|n IH]; intros nFound [q|] Hp H0 Hn;
    cbn [supermajority_loop versions_back];
    try (exists nFound; unfold count_at_least; cbn; split; [done|lia]).
  destruct Hp as [b Hb]. unfold deref. rewrite Hb. cbn [mbind result_bind].
  destruct (Z.ltb_spec nFound nRequired) as [Hlt|Hge].
  - set (f := if _ >=? _ then _ else _).
    assert (f = nFound + if decide (minVersion <= CBlockIndex.GetBlockVersion b) then 1 else 0) as Ef.
    { unfold f. rewrite Z.geb_leb. destruct (decide _), (Z.leb_spec minVersion (CBlockIndex.GetBlockVersion b));
        try lia. apply uwrap_small. unfold is_u. lia. }
    destruct (IH f (CBlockIndex.pprev b)) as (r & Hr & Hiff).
    + destruct (Hok q b Hb) as [_ Hprev _]. destruct (CBlockIndex.pprev b); [|done].
      destruct Hprev as (? & ? & _). eauto.
    + destruct (decide _); lia.
    + destruct (decide _); lia.
    + exists r. split; [done|]. rewrite Hiff, Ef. unfold count_at_least. rewrite filter_cons.
      destruct (decide _); cbn [length]; lia.
  - exists nFound. unfold count_at_least. split; [done|lia].
Qed.
End median.

(** *** Trust *)

(** The target a compact encoding stands for; [None] when it is negative, zero or
    too large. *)
Definition target_of (nBits : Z) : option Z :=
  let '(nSize, sign, nWord) := compact_fields nBits in
  let v := compact_value nSize nWord in
  if (sign : bool) || (2 ^ 256 <=? v) || (v =? 0) then None else Some v.

Lemma compact_value_even nSize nWord : 0 <= nWord < 2 ^ 23 -> 0 <= nSize ->
  compact_value nSize nWord <> 2 ^ 256 - 1.
Proof.
  intros Hw Hs. unfold compact_value. destruct (Z.leb_spec nSize 3).
  - assert (0 <= nWord / 2 ^ (8 * (3 - nSize)) <= nWord) by
      (split; [apply Z.div_pos; lia|apply Z.div_le_upper_bound; nia]). lia.
  - replace (8 * (nSize - 3)) with (1 + (8 * (nSize - 3) - 1)) by lia.
    rewrite Z.pow_add_r by lia. change (2 ^ 1) with 2. intros E.
    assert ((nWord * (2 * 2 ^ (8 * (nSize - 3) - 1))) mod 2 = (2 ^ 256 - 1) mod 2) as Em by by rewrite E.
    rewrite Z.mul_assoc, (Z.mul_comm nWord 2), <- Z.mul_assoc, Z.mul_comm, Z.mod_mul in Em by lia.
    vm_compute in Em. done.
Qed.

Lemma target_decoded nBits : is_u 32 nBits ->
  exists a fNegative fOverflow, SetCompact nBits = (a, fNegative, fOverflow) /\ wf a /\
    match target_of nBits with
    | None => fNegative || fOverflow || EqualTo a 0 = true
    | Some T => fNegative || fOverflow || EqualTo a 0 = false /\ val a = T /\ 0 < T < 2 ^ 256 - 1
    end.
Proof.
  intros Hb. pose proof (SetCompact_val nBits Hb) as H. unfold target_of.
  destruct (compact_fields nBits) as [[nSize sign] nWord] eqn:Ef.
  destruct H as (a & fN & fO & HS & Hwf & Hv & HN & HO). exists a, fN, fO. split_and!; [done..|].
  assert (0 <= nSize /\ 0 <= nWord < 2 ^ 23) as [Hs Hw].
  { unfold compact_fields in Ef. simplify_eq. split; [apply Z.div_pos; unfold is_u in Hb; lia|].
    apply Z.mod_pos_bound. lia. }
  pose proof (compact_value_even nSize nWord Hw Hs) as Hodd.
  rewrite EqualTo_spec by done. set (v := compact_value nSize nWord) in *.
  assert (0 <= v) as Hv0.
  { unfold v, compact_value. case_bool; [apply Z.div_pos; lia|]. apply Z.mul_nonneg_nonneg; lia. }
  destruct (Z.leb_spec (2 ^ 256) v) as [Hbig|Hsmall].
  { rewrite orb_true_r. cbn [orb]. assert (fO = true) as -> by by apply HO. by rewrite orb_true_r. }
  rewrite Z.mod_small in Hv by lia. rewrite Hv. assert (fO = false) as ->.
  { destruct fO; [|done]. assert (2 ^ 256 <= v) by by apply HO. lia. }
  destruct (Z.eqb_spec v 0) as [E0|E0]; rewrite ?orb_true_r, ?orb_false_r; [done|].
  destruct sign.
  - assert (fN = true) as -> by by apply HN. done.
  - assert (fN = false) as ->; [|split_and!; [done|done|lia|lia]].
    destruct fN; [|done]. by destruct HN as [[? _] _].
Qed.

Lemma GetBlockTrust_spec b : is_u 32 (CBlockIndex.nBits b) ->
  exists tr, GetBlockTrust b = Ok tr /\ wf tr /\
    val tr = match target_of (CBlockIndex.nBits b) with
             | None => 0
             | Some T => if CBlockIndex.IsProofOfStake b then 2 ^ 256 / (T + 1) else 1
             end.
Proof.
  intros Hb. unfold GetBlockTrust.
  destruct (target_decoded _ Hb) as (a & fN & fO & -> & Hwf & HT).
  destruct (target_of (CBlockIndex.nBits b)) as [T|].
  - destruct HT as (-> & Hv & HT). destruct (CBlockIndex.IsProofOfStake b).
    + destruct (of_u64_spec 1) as [Hw1 Hv1]; [done|].
      destruct (op_compl_spec a Hwf) as [Hwc Hvc].
      destruct (op_add_assign_spec a (of_u64 1) Hwf Hw1) as [Hwa Hva].
      rewrite Hv, Hv1, Z.mod_small in Hva by lia.
      destruct (op_div_assign_rem_spec (op_compl a) (op_add_assign a (of_u64 1)) Hwc Hwa)
        as (q & r & Hdiv & Hwq & _ & Hvq & _); [lia|].
      unfold op_div_assign. rewrite Hdiv. cbn [mbind result_bind fst].
      destruct (op_add_assign_spec q (of_u64 1) Hwq Hw1) as [Hwr Hvr].
      eexists. split_and!; [done|done|]. rewrite Hvr, Hv1, Hvq, Hvc, Hva, Hv.
      assert ((2 ^ 256 - 1 - T) / (T + 1) + 1 = 2 ^ 256 / (T + 1)) as ->.
      { rewrite <- Z.div_add by lia. f_equal. lia. }
      rewrite Z.mod_small; [done|]. split; [apply Z.div_pos; lia|].
      apply Z.div_lt_upper_bound; lia.
    + destruct (of_u64_spec 1) as [Hw1 Hv1]; [done|]. eauto.
  - rewrite HT. destruct (of_u64_spec 0) as [Hw0 Hv0]; [done|]. eauto.
Qed.

(** [bits() > 63] is the test for a value that does not fit in an [int64_t]. *)
Lemma clamp_int64 r sign : 0 <= r -> sign = 1 \/ sign = -1 ->
  (if bitlen r >? 63 then Ok (sign * (2 ^ 63 - 1)) else Ok (i64 (u64 (sign * (r mod 2 ^ 64)))))
  = (Ok (sign * Z.min r (2 ^ 63 - 1)) : result fault Z).
Proof.
  intros Hr Hs. destruct (bitlen_bounds r) as (H1 & H2 & H3); [done|].
  destruct (Z.gtb_spec (bitlen r) 63) as [Hb|Hb].
  - assert (r <> 0) by (intros ->; cbn in Hb; lia). specialize (H2 ltac:(done)).
    assert (2 ^ 63 <= 2 ^ (bitlen r - 1)) by (apply Z.pow_le_mono_r; lia).
    f_equal. f_equal. lia.
  - assert (2 ^ bitlen r <= 2 ^ 63) by (apply Z.pow_le_mono_r; lia).
    rewrite Z.mod_small by lia.
    assert (is_s 64 (sign * r)) by (unfold is_s; destruct Hs as [-> | ->]; lia).
    rewrite swrap_uwrap by (done || lia). f_equal. f_equal. lia.
Qed.

Lemma GetBlockProofEquivalentTime_spec to from tip spacing :
  wf (CBlockIndex.nChainTrust to) -> wf (CBlockIndex.nChainTrust from) ->
  is_u 32 (CBlockIndex.nBits tip) -> 0 <= spacing < 2 ^ 63 ->
  let d := val (CBlockIndex.nChainTrust to) - val (CBlockIndex.nChainTrust from) in
  Z.abs d * spacing < 2 ^ 256 ->
  GetBlockProofEquivalentTime to from tip spacing =
    match target_of (CBlockIndex.nBits tip) with
    | None => Err uncaught_uint_error
    | Some T =>
        let trust := if CBlockIndex.IsProofOfStake tip then 2 ^ 256 / (T + 1) else 1 in
        Ok ((if d >? 0 then 1 else -1) * Z.min (Z.abs d * spacing / trust) (2 ^ 63 - 1))
    end.
Proof.
  intros Ht Hf Hb Hs d Hd. unfold GetBlockProofEquivalentTime.
  assert (exists r, (if CompareTo (CBlockIndex.nChainTrust to) (CBlockIndex.nChainTrust from) >? 0
    then (op_sub_assign (CBlockIndex.nChainTrust to) (CBlockIndex.nChainTrust from), 1)
    else (op_sub_assign (CBlockIndex.nChainTrust from) (CBlockIndex.nChainTrust to), -1))
    = (r, if d >? 0 then 1 else -1) /\ wf r /\ val r = Z.abs d) as (r & -> & Hwr & Hvr).
  { pose proof (wf_val_bound _ Ht). pose proof (wf_val_bound _ Hf).
    rewrite CompareTo_spec by done. rewrite (Z.gtb_ltb d 0).
    destruct (op_sub_assign_spec _ _ Ht Hf) as [Hw1 Hv1].
    destruct (op_sub_assign_spec _ _ Hf Ht) as [Hw2 Hv2]. unfold d.
    destruct (Z.compare_spec (val (CBlockIndex.nChainTrust to)) (val (CBlockIndex.nChainTrust from)));
      cbn [Z.gtb Z.compare]; (eexists; split_and!; [f_equal; case_bool; lia|done|]);
      [rewrite Hv2|rewrite Hv2|rewrite Hv1]; rewrite Z.mod_small; lia. }
  destruct (GetBlockTrust_spec tip Hb) as (tr & -> & Hwt & Hvt). cbn [mbind result_bind].
  rewrite (uwrap_small 64 spacing) by (unfold is_u; lia).
  destruct (of_u64_spec spacing) as [Hws Hvs]; [unfold is_u; lia|].
  destruct (op_mul_assign_spec r (of_u64 spacing) Hwr Hws) as [Hwm Hvm].
  rewrite Hvr, Hvs, Z.mod_small in Hvm by (split; [apply Z.mul_nonneg_nonneg; lia|done]).
  destruct (target_of (CBlockIndex.nBits tip)) as [T|] eqn:ET; [|by rewrite op_div_assign_zero].
  set (trust := if CBlockIndex.IsProofOfStake tip then _ else _) in *.
  assert (0 < trust) as Htr.
  { unfold trust. destruct (CBlockIndex.IsProofOfStake tip); [|lia].
    destruct (target_decoded _ Hb) as (? & ? & ? & _ & _ & HT). rewrite ET in HT.
    destruct HT as (_ & _ & ?). apply Z.div_str_pos. lia. }
  destruct (op_div_assign_rem_spec (op_mul_assign r (of_u64 spacing)) tr Hwm Hwt)
    as (q & x & Hdiv & Hwq & _ & Hvq & _); [lia|].
  unfold op_div_assign. rewrite Hdiv. cbn [mbind result_bind mret result_ret].
  rewrite bits_spec, GetLow64_spec, Hvq, Hvm, Hvt by done.
  set (r' := Z.abs d * spacing / trust).
  assert (0 <= r') by (apply Z.div_pos; [apply Z.mul_nonneg_nonneg; lia|lia]).
  apply clamp_int64; [lia|destruct (d >? 0); auto].
Qed.

(** ** A small tree for the witnesses: 0 - 1 - 2 - 3 and a branch 1 - 4. *)

Definition sample_block (prev skip : option N) (height time : Z) : CBlockIndex.t :=
  {| CBlockIndex.phashBlock := Some [height; time]; CBlockIndex.pprev := prev;
     CBlockIndex.pskip := skip; CBlockIndex.nHeight := height; CBlockIndex.nFile := 0;
     CBlockIndex.nDataPos := 0; CBlockIndex.nUndoPos := 0; CBlockIndex.nChainTrust := zero256;
     CBlockIndex.nTx := 0; CBlockIndex.nChainTx := 0; CBlockIndex.nStatus := 0;
     CBlockIndex.nVersion := 8; CBlockIndex.hashMerkleRoot := []; CBlockIndex.nTime := time;
     CBlockIndex.nBits := 0x1d00ffff; CBlockIndex.nNonce := 0; CBlockIndex.nVersionMTP := 0;
     CBlockIndex.mtpHashValue := []; CBlockIndex.nSequenceId := 0; CBlockIndex.nTimeMax := time;
     CBlockIndex.nMint := 0; CBlockIndex.nMoneySupply := 0; CBlockIndex.nFlags := 1;
     CBlockIndex.nStakeModifier := 0; CBlockIndex.nStakeModifierChecksum := 0;
     CBlockIndex.prevoutStake := COutPoint.null; CBlockIndex.nStakeTime := 0;
     CBlockIndex.hashProofOfStake := [] |}.

Definition sample_tree : heap :=
  <[0%N := sample_block None None 0 100]>
  (<[1%N := sample_block (Some 0%N) (Some 0%N) 1 110]>
  (<[2%N := sample_block (Some 1%N) (Some 0%N) 2 120]>
  (<[3%N := sample_block (Some 2%N) (Some 1%N) 3 130]>
  (<[4%N := sample_block (Some 1%N) None 2 125]> ∅)))).

Lemma sample_tree_cases p b : sample_tree !! p = Some b ->
  (p, b) ∈ [(0%N, sample_block None None 0 100);
            (1%N, sample_block (Some 0%N) (Some 0%N) 1 110);
            (2%N, sample_block (Some 1%N) (Some 0%N) 2 120);
            (3%N, sample_block (Some 2%N) (Some 1%N) 3 130);
            (4%N, sample_block (Some 1%N) None 2 125)].
Proof.
  unfold sample_tree. intros H.
  repeat (apply lookup_insert_Some in H as [[<- <-]|[_ H]]; [rewrite !elem_of_cons; auto 10|]).
  by rewrite lookup_empty in H.
Qed.

Lemma sample_tree_ok : tree_ok sample_tree /\ hashed sample_tree /\ time_ok sample_tree.
Proof.
  split_and!.
  - intros p b Hp. apply sample_tree_cases in Hp.
    repeat (apply elem_of_cons in Hp as [[= -> ->]|Hp];
      [split; cbn;
        [lia | first [reflexivity | eexists; split; vm_compute; reflexivity]
        | intros q Hq; first [discriminate Hq | injection Hq as <-; split; [lia|vm_compute; reflexivity]]]|]).
    by apply not_elem_of_nil in Hp.
  - intros p b Hp. apply sample_tree_cases in Hp.
    repeat (apply elem_of_cons in Hp as [[= -> ->]|Hp]; [done|]). by apply not_elem_of_nil in Hp.
  - intros p b q bq Hp Hq Hl. apply sample_tree_cases in Hp.
    repeat (apply elem_of_cons in Hp as [[= -> ->]|Hp];
      [cbn in Hq; first [discriminate Hq | injection Hq as <-; vm_compute in Hl; injection Hl as <-; cbn; lia]|]).
    by apply not_elem_of_nil in Hp.
Qed.

Lemma sample_tree_3 : sample_tree !! 3%N = Some (sample_block (Some 2%N) (Some 1%N) 3 130).
Proof. vm_compute. reflexivity. Qed.
Lemma sample_tree_4 : sample_tree !! 4%N = Some (sample_block (Some 1%N) None 2 125).
Proof. vm_compute. reflexivity. Qed.

(** ** Main results *)

(** The skip list is only an optimisation.  In a well-formed tree [GetAncestor]
    never fails an assertion or follows a null pointer, ends within as many rounds
    as there are heights to go, and returns null for a height above the block or
    below zero and otherwise exactly the block reached by following [pprev], which
    exists and has that height. *)
Theorem GetAncestor_correct (h : heap) (p : N) (b : CBlockIndex.t) (height : Z) :
  tree_ok h -> h !! p = Some b ->
  (height > CBlockIndex.nHeight b \/ height < 0 -> GetAncestor h p height = Ok None) /\
  (0 <= height <= CBlockIndex.nHeight b -> exists q bq,
     GetAncestor h p height = Ok (Some q) /\
     walk h (Z.to_nat (CBlockIndex.nHeight b - height)) p = Some q /\
     h !! q = Some bq /\ CBlockIndex.nHeight bq = height).
Proof.
  intros Hok Hp. rewrite (GetAncestor_spec h Hok p b) by done. split.
  - intros Hh. rewrite Z.gtb_ltb.
    destruct (Z.ltb_spec (CBlockIndex.nHeight b) height), (Z.ltb_spec height 0); done || lia.
  - intros Hh. replace (_ >? _) with false by lia. replace (_ <? _) with false by lia. cbn [orb].
    destruct (ancestor_at_total h Hok p b height) as (q & bq & H1 & H2 & H3); [done|done|].
    exists q, bq. split_and!; [by rewrite H1| |done|done].
    unfold ancestor_at in H1. by rewrite (height_of_lookup h p b) in H1.
Qed.

Lemma GetAncestor_correct_witness : exists q bq,
  GetAncestor sample_tree 3 0 = Ok (Some q) /\ walk sample_tree 3 3 = Some q /\
  sample_tree !! q = Some bq /\ CBlockIndex.nHeight bq = 0.
Proof.
  destruct (GetAncestor_correct sample_tree 3 _ 0 (proj1 sample_tree_ok) sample_tree_3) as [_ H].
  apply H. cbn. lia.
Defined.

(** [BuildSkip] keeps the tree well formed and stores the ancestor at the skip
    height, for every block that has a predecessor. *)
Theorem BuildSkip_preserves_tree (h : heap) (p : N) (b : CBlockIndex.t) :
  tree_ok h -> h !! p = Some b ->
  exists h' b', BuildSkip h p = Ok h' /\ tree_ok h' /\ h' !! p = Some b' /\
    (forall q, q <> p -> h' !! q = h !! q) /\
    (forall q, CBlockIndex.pprev b = Some q ->
       CBlockIndex.pskip b' = ancestor_at h p (GetSkipHeight (CBlockIndex.nHeight b)) /\
       CBlockIndex.pskip b' <> None).
Proof.
  intros Hok Hp. destruct (BuildSkip_spec h p b Hok Hp) as (s & H1 & H2 & H3).
  eexists _, _. split_and!; [exact H1|exact H2|apply lookup_insert_eq| |exact H3].
  intros q Hq. by apply lookup_insert_ne.
Qed.

Lemma BuildSkip_preserves_tree_witness : exists h' b',
  BuildSkip sample_tree 4 = Ok h' /\ tree_ok h' /\ h' !! 4%N = Some b' /\
  CBlockIndex.pskip b' = ancestor_at sample_tree 4 (GetSkipHeight 2).
Proof.
  destruct (BuildSkip_preserves_tree sample_tree 4 _ (proj1 sample_tree_ok) sample_tree_4)
    as (h' & b' & H1 & H2 & H3 & _ & H4).
  exists h', b'. split_and!; [exact H1|exact H2|exact H3|]. exact (proj1 (H4 1%N eq_refl)).
Defined.

(** The active chain is the path to its tip.  Starting from any chain, [SetTip]
    (which stops as soon as it meets the old chain) leaves exactly the entries from
    the root to the new tip; then [Tip] and [Height] are those of the tip, and
    [Contains] decides whether an entry is an ancestor of the tip. *)
Theorem SetTip_refines_path (h : heap) (v : CChain.t) (p : N) (b : CBlockIndex.t) :
  tree_ok h -> chain_ok h v -> h !! p = Some b ->
  exists v', CChain.SetTip h (Some p) v = Ok v' /\ v' = path h p /\ chain_ok h v' /\
    CChain.Tip v' = Some p /\ CChain.Height v' = CBlockIndex.nHeight b /\
    forall q bq, h !! q = Some bq ->
      CChain.Contains h v' q = Ok (bool_decide (on_chain v' q)) /\
      (on_chain v' q <-> is_ancestor h q p).
Proof.
  intros Hok Hv Hp. exists (path h p). assert (0 <= CBlockIndex.nHeight b) by by apply (Hok p b).
  pose proof (height_of_lookup h p b Hp) as Eh.
  assert (chain_ok h (path h p)) as Hv' by (right; eauto).
  split_and!; [by apply (SetTip_spec h Hok v p b)|done|done| | |].
  - unfold CChain.Tip. rewrite length_path, Eh.
    rewrite (proj2 (Z.gtb_lt (Z.of_nat _) 0)) by lia. apply list_lookup_total_correct. rewrite path_lookup by lia. f_equal.
    replace (Z.of_nat _) with (CBlockIndex.nHeight b) by lia. by apply ancestor_at_self.
  - unfold CChain.Height. rewrite length_path, Eh. lia.
  - intros q bq Hq. split; [by apply (Contains_spec h Hok _ q bq)|].
    unfold on_chain, is_ancestor. rewrite list_elem_of_lookup, Eh. split.
    + intros [i [Hi Hx]%path_lookup_inv]. exists (Z.of_nat i). split; [lia|done].
    + intros (k & Hk & Ha). exists (Z.to_nat k). rewrite path_lookup by lia.
      by rewrite Z2Nat.id, Ha by lia.
Qed.

Lemma SetTip_refines_path_witness :
  exists v', CChain.SetTip sample_tree (Some 4%N) (path sample_tree 3) = Ok v' /\
    v' = path sample_tree 4 /\ CChain.Tip v' = Some 4%N.
Proof.
  destruct (SetTip_refines_path sample_tree (path sample_tree 3) 4 _ (proj1 sample_tree_ok)
    (or_intror (ex_intro _ 3%N (ex_intro _ _ (conj sample_tree_3 eq_refl)))) sample_tree_4)
    as (v' & H1 & H2 & _ & H3 & _).
  exists v'. split_and!; [exact H1|exact H2|exact H3].
Defined.

(** [FindFork] always ends, and returns the highest block that is both in the
    chain and an ancestor of the given block, or null when there is none; cutting
    the branch at the height of the chain first changes nothing. *)
Theorem FindFork_last_common (h : heap) (v : CChain.t) (p : N) (b : CBlockIndex.t) :
  tree_ok h -> chain_ok h v -> h !! p = Some b ->
  exists r, CChain.FindFork h v (Some p) = Ok r /\ last_common h v p r.
Proof. intros Hok Hv Hp. by apply (FindFork_spec h Hok v p b). Qed.

Lemma FindFork_last_common_witness :
  exists r, CChain.FindFork sample_tree (path sample_tree 3) (Some 4%N) = Ok r /\
    last_common sample_tree (path sample_tree 3) 4 r /\ r = Some 1%N.
Proof.
  destruct (FindFork_last_common sample_tree (path sample_tree 3) 4 _ (proj1 sample_tree_ok)
    (or_intror (ex_intro _ 3%N (ex_intro _ _ (conj sample_tree_3 eq_refl)))) sample_tree_4)
    as (r & H1 & H2).
  exists r. split_and!; [exact H1|exact H2|]. vm_compute in H1. congruence.
Defined.

(** Locators.  [GetLocator] names the ancestors at heights that depend on the
    height alone, whether they are found through the chain or through the skip list:
    the block itself first, then strictly lower, the genesis block last, and at most
    [11 + m] of them for a block below height [2 ^ m]. *)
Theorem GetLocator_correct (h : heap) (v : CChain.t) (p : N) (b : CBlockIndex.t) (m : Z) :
  tree_ok h -> hashed h -> chain_ok h v -> h !! p = Some b ->
  0 <= m <= 29 -> CBlockIndex.nHeight b < 2 ^ m ->
  exists l, CChain.GetLocator h v (Some p) = Ok (map (hash_at h p) l) /\
    l = locator_heights (Z.to_nat (CBlockIndex.nHeight b)) (CBlockIndex.nHeight b) 1 0 /\
    head l = Some (CBlockIndex.nHeight b) /\ last l = Some 0 /\ StronglySorted Z.gt l /\
    Z.of_nat (length l) <= 11 + m.
Proof.
  intros Hok Hh Hv Hp Hm Hlt. assert (0 <= CBlockIndex.nHeight b) by by apply (Hok p b).
  assert (2 ^ m <= 2 ^ 29) by (apply Z.pow_le_mono_r; lia).
  eexists. split_and!; [by apply (GetLocator_spec h Hok Hh v p b); [..|lia]|done|..].
  - by destruct (Z.to_nat (CBlockIndex.nHeight b)).
  - apply locator_heights_sorted; lia.
  - apply locator_heights_sorted; lia.
  - etrans; [apply (locator_heights_length _ _ _ m); lia|lia].
Qed.

Lemma GetLocator_correct_witness :
  exists l, CChain.GetLocator sample_tree (path sample_tree 3) (Some 4%N)
    = Ok (map (hash_at sample_tree 4) l) /\ last l = Some 0 /\ l = [2; 1; 0].
Proof.
  destruct (GetLocator_correct sample_tree (path sample_tree 3) 4 _ 2 (proj1 sample_tree_ok)
    (proj1 (proj2 sample_tree_ok))
    (or_intror (ex_intro _ 3%N (ex_intro _ _ (conj sample_tree_3 eq_refl)))) sample_tree_4)
    as (l & H1 & H2 & _ & H3 & _); [lia|cbn; lia|].
  exists l. split_and!; [exact H1|exact H3|]. rewrite H2. vm_compute. reflexivity.
Defined.

(** Queries by time and version.  [GetMedianTimePast] returns a median of the
    times of the last (at most) eleven blocks.  When [nTimeMax] never decreases along
    the chain, the binary search of [FindEarliestAtLeast] ends at the lowest block of
    the chain whose [nTimeMax] reaches the bound, or null when there is none.
    [IsSuperMajority], which stops counting early, tells whether at least
    [nRequired] of the last [nToCheck] blocks have the version. *)
Theorem chain_queries (h : heap) (v : CChain.t) (p : N) (b : CBlockIndex.t)
  (nTime minVersion nRequired nToCheck : Z) :
  tree_ok h -> time_ok h -> chain_ok h v -> h !! p = Some b -> is_u 32 nToCheck ->
  (exists t, GetMedianTimePast h p = Ok t /\ is_median t (times_back h nMedianTimeSpan (Some p))) /\
  (exists r, CChain.FindEarliestAtLeast h v nTime = Ok r /\ earliest h v nTime r) /\
  exists m, IsSuperMajority h minVersion (Some p) nRequired nToCheck = Ok m /\
    (m = true <-> nRequired <= count_at_least minVersion (versions_back h (Z.to_nat nToCheck) (Some p))).
Proof.
  intros Hok Ht Hv Hp Hn. split_and!.
  - by apply (GetMedianTimePast_spec h Hok p b).
  - by apply FindEarliestAtLeast_spec.
  - unfold IsSuperMajority.
    destruct (supermajority_loop_spec h Hok (Z.to_nat nToCheck) minVersion nRequired 0 (Some p))
      as (r & -> & Hiff); [cbn; eauto|lia|unfold is_u in Hn; lia|].
    cbn [mbind result_bind mret result_ret]. eexists. split; [done|].
    rewrite Z.geb_le, Hiff. by rewrite Z.add_0_l.
Qed.

Lemma chain_queries_witness :
  exists t r, GetMedianTimePast sample_tree 3 = Ok t /\ t = 120 /\
    CChain.FindEarliestAtLeast sample_tree (path sample_tree 3) 111 = Ok r /\
    earliest sample_tree (path sample_tree 3) 111 r /\ r = Some 2%N.
Proof.
  destruct (chain_queries sample_tree (path sample_tree 3) 3 _ 111 8 2 3 (proj1 sample_tree_ok)
    (proj2 (proj2 sample_tree_ok))
    (or_intror (ex_intro _ 3%N (ex_intro _ _ (conj sample_tree_3 eq_refl)))) sample_tree_3)
    as ((t & H1 & _) & (r & H2 & H3) & _); [by_decide|].
  exists t, r. split_and!; [exact H1| |exact H2|exact H3|].
  - vm_compute in H1. congruence.
  - vm_compute in H2. congruence.
Defined.

(** *** Status bits *)

(** [(s & ~(2^n - 1)) | l] for a 32-bit [s]: the bits from [n] on are kept. *)
Lemma replace_low s n l : is_u 32 s -> 0 <= n -> 0 <= l < 2 ^ n ->
  Z.lor (Z.land s (u32 (Z.lnot (2 ^ n - 1)))) l = s / 2 ^ n * 2 ^ n + l.
Proof.
  intros Hs Hn Hl. rewrite <- lor_disjoint_add by done. f_equal.
  rewrite <- shiftr_div, <- shiftl_mul, <- Z.ldiff_ones_r by lia.
  apply Z.bits_inj'. intros i Hi. rewrite Z.land_spec, Z.ldiff_spec. unfold uwrap.
  replace (2 ^ n - 1) with (Z.ones n) by (rewrite Z.ones_equiv; lia).
  destruct (decide (i < 32)) as [Hlt|Hge].
  - by rewrite Z.mod_pow2_bits_low, Z.lnot_spec by lia.
  - assert (Z.testbit s i = false) as ->; [|done].
    rewrite <- (Z.mod_small s (2 ^ 32)) by done. apply Z.mod_pow2_bits_high. lia.
Qed.

Lemma high_bits s n l i : 0 <= n <= i -> 0 <= l < 2 ^ n ->
  Z.testbit (s / 2 ^ n * 2 ^ n + l) i = Z.testbit s i.
Proof.
  intros Hi Hl. replace i with (i - n + n) by lia. rewrite <- !Z.shiftr_spec, !shiftr_div by lia. f_equal.
  rewrite Z.div_add_l by lia. rewrite (Z.div_small l) by done. lia.
Qed.

Lemma low_level s l : 0 <= l < 2 ^ 3 ->
  Z.land (s / 2 ^ 3 * 2 ^ 3 + l) CBlockIndex.BLOCK_VALID_MASK = l.
Proof.
  intros Hl. change CBlockIndex.BLOCK_VALID_MASK with (2 ^ 3 - 1). rewrite land_mask by lia.
  rewrite Z.add_comm, Z.mod_add by lia. by apply Z.mod_small.
Qed.

Lemma failed_high s l : 0 <= l < 2 ^ 3 ->
  flag_set (s / 2 ^ 3 * 2 ^ 3 + l) CBlockIndex.BLOCK_FAILED_MASK = flag_set s CBlockIndex.BLOCK_FAILED_MASK.
Proof.
  intros Hl. unfold flag_set. do 2 f_equal. apply Z.bits_inj'. intros i Hi. rewrite !Z.land_spec.
  destruct (decide (3 <= i)); [by rewrite high_bits by lia|].
  assert (Z.testbit CBlockIndex.BLOCK_FAILED_MASK i = false) as ->; [|by rewrite !andb_false_r].
  assert (i = 0 \/ i = 1 \/ i = 2) as [-> |[-> | ->]] by lia; done.
Qed.

Lemma level_mask l : 0 <= l <= 5 ->
  flag_set l (CBlockIndex.not_mask CBlockIndex.BLOCK_VALID_MASK) = false.
Proof.
  intros Hl. assert (l = 0 \/ l = 1 \/ l = 2 \/ l = 3 \/ l = 4 \/ l = 5) as
    [-> |[-> |[-> |[-> |[-> | ->]]]]] by lia; done.
Qed.

Lemma IsValid_spec l b : 0 <= l <= 5 ->
  CBlockIndex.IsValid l b =
  Some (negb (flag_set (CBlockIndex.nStatus b) CBlockIndex.BLOCK_FAILED_MASK)
        && (l <=? CBlockIndex.nStatus b mod 2 ^ 3)).
Proof.
  intros Hl. unfold CBlockIndex.IsValid. rewrite level_mask by done.
  destruct (flag_set _ _); [done|]. change CBlockIndex.BLOCK_VALID_MASK with (2 ^ 3 - 1).
  by rewrite land_mask, Z.geb_leb by lia.
Qed.

(** Validity levels.  [RaiseValidity] never lowers a level and never touches the
    other status bits; it reports a change exactly when the level was not reached;
    afterwards the block has the level unless it is marked failed, in which case
    nothing changes and no level is valid. *)
Theorem RaiseValidity_correct (nUpTo : Z) (b : CBlockIndex.t) :
  0 <= nUpTo <= 5 -> is_u 32 (CBlockIndex.nStatus b) ->
  exists changed b', CBlockIndex.RaiseValidity nUpTo b = Some (changed, b') /\
    is_u 32 (CBlockIndex.nStatus b') /\
    (forall i, 3 <= i -> Z.testbit (CBlockIndex.nStatus b') i = Z.testbit (CBlockIndex.nStatus b) i) /\
    (forall l, 0 <= l <= 5 -> CBlockIndex.IsValid l b = Some true -> CBlockIndex.IsValid l b' = Some true) /\
    (if flag_set (CBlockIndex.nStatus b) CBlockIndex.BLOCK_FAILED_MASK
     then changed = false /\ b' = b /\ CBlockIndex.IsValid nUpTo b' = Some false
     else CBlockIndex.IsValid nUpTo b' = Some true /\
          CBlockIndex.IsValid nUpTo b = Some (negb changed)).
Proof.
  intros Hl Hs. unfold CBlockIndex.RaiseValidity. rewrite level_mask by done.
  set (s := CBlockIndex.nStatus b) in *.
  destruct (flag_set s CBlockIndex.BLOCK_FAILED_MASK) eqn:Ef.
  { exists false, b. split_and!; try done. rewrite IsValid_spec by done. fold s. by rewrite Ef. }
  change CBlockIndex.BLOCK_VALID_MASK with (2 ^ 3 - 1). rewrite (land_mask s 3) by lia.
  destruct (Z.ltb_spec (s mod 2 ^ 3) nUpTo) as [Hlt|Hge].
  - exists true. eexists. split; [done|]. unfold CBlockIndex.not_mask.
    rewrite (replace_low s 3 nUpTo) by (done || lia).
    set (b' := CBlockIndex.set_nStatus _ b).
    assert (CBlockIndex.nStatus b' = s / 2 ^ 3 * 2 ^ 3 + nUpTo) as Es by done.
    assert (forall l, 0 <= l <= 5 -> CBlockIndex.IsValid l b' = Some (l <=? nUpTo)) as Hv.
    { intros l Hl'. rewrite IsValid_spec, Es, failed_high, Ef by lia. cbn [negb andb]. do 2 f_equal.
      rewrite Z.add_comm, Z.mod_add by lia. apply Z.mod_small. lia. }
    split_and!.
    + rewrite Es. pose proof (Z.div_mod s 8 ltac:(lia)). pose proof (Z.mod_pos_bound s 8 ltac:(lia)).
      unfold is_u in *. change (2 ^ 3) with 8. lia.
    + rewrite Es. intros i Hi. apply high_bits; lia.
    + intros l Hl'. rewrite Hv, IsValid_spec by done. fold s. rewrite Ef. cbn [negb andb].
      intros [= E]. f_equal. lia.
    + rewrite Hv by done. f_equal. lia.
    + rewrite IsValid_spec by done. fold s. rewrite Ef. cbn [negb andb]. f_equal. lia.
  - exists false, b. split_and!; [done..| |]; rewrite IsValid_spec by done; fold s; rewrite Ef;
      cbn [negb andb]; f_equal; lia.
Qed.

Lemma RaiseValidity_correct_witness :
  exists changed b', CBlockIndex.RaiseValidity 5 (CBlockIndex.set_nStatus 27 CBlockIndex.null)
      = Some (changed, b') /\
    CBlockIndex.IsValid 5 b' = Some true /\ CBlockIndex.nStatus b' = 29.
Proof.
  destruct (RaiseValidity_correct 5 (CBlockIndex.set_nStatus 27 CBlockIndex.null))
    as (c & b' & H1 & _ & _ & _ & H2); [lia|by_decide|].
  exists c, b'. split_and!; [exact H1|exact (proj1 H2)|].
  vm_compute in H1. injection H1 as <- <-. reflexivity.
Defined.

(** Trust.  For every [nBits], [GetBlockTrust] ends without a division by zero: a
    proof-of-stake block counts the expected number of hashes
    [2^256 / (target + 1)], a proof-of-work block one, a block whose target is
    negative, zero or too large nothing.  [GetBlockProofEquivalentTime] converts a
    difference of trust into seconds at the trust of the tip, rounding towards zero
    and saturating at the limits of [int64_t]; it fails exactly when the target of
    the tip is not valid. *)
Theorem block_trust_correct (to from tip : CBlockIndex.t) (spacing : Z) :
  wf (CBlockIndex.nChainTrust to) -> wf (CBlockIndex.nChainTrust from) ->
  is_u 32 (CBlockIndex.nBits tip) -> 0 <= spacing < 2 ^ 63 ->
  let d := val (CBlockIndex.nChainTrust to) - val (CBlockIndex.nChainTrust from) in
  Z.abs d * spacing < 2 ^ 256 ->
  exists tr, GetBlockTrust tip = Ok tr /\ wf tr /\
    val tr = match target_of (CBlockIndex.nBits tip) with
             | None => 0
             | Some T => if CBlockIndex.IsProofOfStake tip then 2 ^ 256 / (T + 1) else 1
             end /\
    GetBlockProofEquivalentTime to from tip spacing =
      match target_of (CBlockIndex.nBits tip) with
      | None => Err uncaught_uint_error
      | Some T => Ok ((if d >? 0 then 1 else -1) * Z.min (Z.abs d * spacing / val tr) (2 ^ 63 - 1))
      end.
Proof.
  intros Ht Hf Hb Hs d Hd. destruct (GetBlockTrust_spec tip Hb) as (tr & H1 & H2 & H3).
  exists tr. split_and!; [done..|]. rewrite GetBlockProofEquivalentTime_spec by done.
  rewrite H3. by destruct (target_of _).
Qed.

Lemma block_trust_correct_witness :
  let b := sample_block None None 0 100 in
  exists tr, GetBlockTrust b = Ok tr /\ val tr = 2 ^ 256 / (0xffff * 2 ^ 208 + 1).
Proof.
  destruct (block_trust_correct (sample_block None None 0 100) (sample_block None None 0 100)
    (sample_block None None 0 100) 600) as (tr & H1 & _ & H2 & _);
    [apply wf_zero|apply wf_zero|by_decide|lia|vm_compute; reflexivity|].
  exists tr. split; [exact H1|]. rewrite H2. vm_compute. reflexivity.
Defined.
