(* ===== verification/Script.v ===== *)
(** * Script: script bytes, numbers, and name scripts

    Models [src/src/script/script.h] and [script.cpp].  A [CScript] is the list of
    its bytes (its storage, a [prevector], is another component); an iterator is an
    index into it.  [GetOp2] returns the flag, the opcode, the operand and the
    iterator it leaves behind, also when it fails, because callers go on using it.
    Failed assertions are [None]; [scriptnum_error] is an error value. *)
From S2P Require Import Prelude Endian Serialize.

Definition MAX_SCRIPT_ELEMENT_SIZE : Z := 520.
Definition MAX_OPS_PER_SCRIPT : Z := 201.
Definition MAX_PUBKEYS_PER_MULTISIG : Z := 20.
Definition MAX_SCRIPT_SIZE : Z := 22000.
Definition LOCKTIME_THRESHOLD : Z := 500000000.

(** ** [enum opcodetype] *)

Definition OP_0 : Z := 0x00.
Definition OP_FALSE : Z := OP_0.
Definition OP_PUSHDATA1 : Z := 0x4c.
Definition OP_PUSHDATA2 : Z := 0x4d.
Definition OP_PUSHDATA4 : Z := 0x4e.
Definition OP_1NEGATE : Z := 0x4f.
Definition OP_RESERVED : Z := 0x50.
Definition OP_1 : Z := 0x51.
Definition OP_TRUE : Z := OP_1.
Definition OP_2 : Z := 0x52.
Definition OP_3 : Z := 0x53.
Definition OP_4 : Z := 0x54.
Definition OP_5 : Z := 0x55.
Definition OP_6 : Z := 0x56.
Definition OP_7 : Z := 0x57.
Definition OP_8 : Z := 0x58.
Definition OP_9 : Z := 0x59.
Definition OP_10 : Z := 0x5a.
Definition OP_11 : Z := 0x5b.
Definition OP_12 : Z := 0x5c.
Definition OP_13 : Z := 0x5d.
Definition OP_14 : Z := 0x5e.
Definition OP_15 : Z := 0x5f.
Definition OP_16 : Z := 0x60.
Definition OP_NOP : Z := 0x61.
Definition OP_VER : Z := 0x62.
Definition OP_IF : Z := 0x63.
Definition OP_NOTIF : Z := 0x64.
Definition OP_VERIF : Z := 0x65.
Definition OP_VERNOTIF : Z := 0x66.
Definition OP_ELSE : Z := 0x67.
Definition OP_ENDIF : Z := 0x68.
Definition OP_VERIFY : Z := 0x69.
Definition OP_RETURN : Z := 0x6a.
Definition OP_TOALTSTACK : Z := 0x6b.
Definition OP_FROMALTSTACK : Z := 0x6c.
Definition OP_2DROP : Z := 0x6d.
Definition OP_2DUP : Z := 0x6e.
Definition OP_3DUP : Z := 0x6f.
Definition OP_2OVER : Z := 0x70.
Definition OP_2ROT : Z := 0x71.
Definition OP_2SWAP : Z := 0x72.
Definition OP_IFDUP : Z := 0x73.
Definition OP_DEPTH : Z := 0x74.
Definition OP_DROP : Z := 0x75.
Definition OP_DUP : Z := 0x76.
Definition OP_NIP : Z := 0x77.
Definition OP_OVER : Z := 0x78.
Definition OP_PICK : Z := 0x79.
Definition OP_ROLL : Z := 0x7a.
Definition OP_ROT : Z := 0x7b.
Definition OP_SWAP : Z := 0x7c.
Definition OP_TUCK : Z := 0x7d.
Definition OP_CAT : Z := 0x7e.
Definition OP_SUBSTR : Z := 0x7f.
Definition OP_LEFT : Z := 0x80.
Definition OP_RIGHT : Z := 0x81.
Definition OP_SIZE : Z := 0x82.
Definition OP_INVERT : Z := 0x83.
Definition OP_AND : Z := 0x84.
Definition OP_OR : Z := 0x85.
Definition OP_XOR : Z := 0x86.
Definition OP_EQUAL : Z := 0x87.
Definition OP_EQUALVERIFY : Z := 0x88.
Definition OP_RESERVED1 : Z := 0x89.
Definition OP_RESERVED2 : Z := 0x8a.
Definition OP_1ADD : Z := 0x8b.
Definition OP_1SUB : Z := 0x8c.
Definition OP_2MUL : Z := 0x8d.
Definition OP_2DIV : Z := 0x8e.
Definition OP_NEGATE : Z := 0x8f.
Definition OP_ABS : Z := 0x90.
Definition OP_NOT : Z := 0x91.
Definition OP_0NOTEQUAL : Z := 0x92.
Definition OP_ADD : Z := 0x93.
Definition OP_SUB : Z := 0x94.
Definition OP_MUL : Z := 0x95.
Definition OP_DIV : Z := 0x96.
Definition OP_MOD : Z := 0x97.
Definition OP_LSHIFT : Z := 0x98.
Definition OP_RSHIFT : Z := 0x99.
Definition OP_BOOLAND : Z := 0x9a.
Definition OP_BOOLOR : Z := 0x9b.
Definition OP_NUMEQUAL : Z := 0x9c.
Definition OP_NUMEQUALVERIFY : Z := 0x9d.
Definition OP_NUMNOTEQUAL : Z := 0x9e.
Definition OP_LESSTHAN : Z := 0x9f.
Definition OP_GREATERTHAN : Z := 0xa0.
Definition OP_LESSTHANOREQUAL : Z := 0xa1.
Definition OP_GREATERTHANOREQUAL : Z := 0xa2.
Definition OP_MIN : Z := 0xa3.
Definition OP_MAX : Z := 0xa4.
Definition OP_WITHIN : Z := 0xa5.
Definition OP_RIPEMD160 : Z := 0xa6.
Definition OP_SHA1 : Z := 0xa7.
Definition OP_SHA256 : Z := 0xa8.
Definition OP_HASH160 : Z := 0xa9.
Definition OP_HASH256 : Z := 0xaa.
Definition OP_CODESEPARATOR : Z := 0xab.
Definition OP_CHECKSIG : Z := 0xac.
Definition OP_CHECKSIGVERIFY : Z := 0xad.
Definition OP_CHECKMULTISIG : Z := 0xae.
Definition OP_CHECKMULTISIGVERIFY : Z := 0xaf.
Definition OP_NOP1 : Z := 0xb0.
Definition OP_CHECKLOCKTIMEVERIFY : Z := 0xb1.
Definition OP_NOP2 : Z := OP_CHECKLOCKTIMEVERIFY.
Definition OP_CHECKSEQUENCEVERIFY : Z := 0xb2.
Definition OP_NOP3 : Z := OP_CHECKSEQUENCEVERIFY.
Definition OP_NOP4 : Z := 0xb3.
Definition OP_NOP5 : Z := 0xb4.
Definition OP_NOP6 : Z := 0xb5.
Definition OP_NOP7 : Z := 0xb6.
Definition OP_NOP8 : Z := 0xb7.
Definition OP_NOP9 : Z := 0xb8.
Definition OP_NOP10 : Z := 0xb9.
Definition OP_SMALLINTEGER : Z := 0xfa.
Definition OP_PUBKEYS : Z := 0xfb.
Definition OP_PUBKEYHASH : Z := 0xfd.
Definition OP_PUBKEY : Z := 0xfe.
Definition OP_INVALIDOPCODE : Z := 0xff.
Definition OP_NAME_NEW : Z := 0x01.
Definition OP_NAME_UPDATE : Z := 0x02.
Definition OP_NAME_DELETE : Z := 0x03.

(** ** Script numbers *)

Inductive scriptnum_error : Set :=
| script_number_overflow
| non_minimal_encoding.

Module CScriptNum.

Definition nDefaultMaxNumSize : Z := 4.

(** [set_vch]: the bytes are or-ed together in an [int64_t]. *)
Fixpoint or_bytes_from (i : Z) (vch : list Z) (result : Z) : Z :=
  match vch with
  | [] => result
  | b :: vch' => or_bytes_from (i + 1) vch' (Z.lor result (i64 (Z.shiftl b (8 * i))))
  end.

Definition set_vch (vch : list Z) : Z :=
  match last vch with
  | None => 0
  | Some back =>
      let result := or_bytes_from 0 vch 0 in
      if negb (Z.land back 0x80 =? 0) then
        - i64 (Z.land (u64 result)
                 (u64 (Z.lnot (u64 (Z.shiftl 0x80 (8 * (Z.of_nat (length vch) - 1)))))))
      else result
  end.

Definition of_vch (vch : list Z) (fRequireMinimal : bool) (nMaxNumSize : Z)
    : result scriptnum_error Z :=
  if Z.of_nat (length vch) >? nMaxNumSize then Err script_number_overflow
  else if fRequireMinimal && (Z.of_nat (length vch) >? 0)
          && (Z.land (default 0 (last vch)) 0x7f =? 0)
          && ((Z.of_nat (length vch) <=? 1)
              || (Z.land (vch !!! (length vch - 2)%nat) 0x80 =? 0))
       then Err non_minimal_encoding
  else Ok (set_vch vch).

(** [while (absvalue) ...]: eight bytes at most. *)
Fixpoint abs_bytes (fuel : nat) (absvalue : Z) : list Z :=
  match fuel with
  | O => []
  | S fuel' => if absvalue =? 0 then []
               else Z.land absvalue 0xff :: abs_bytes fuel' (Z.shiftr absvalue 8)
  end.

Definition serialize (value : Z) : list Z :=
  if value =? 0 then []
  else
    let neg := value <? 0 in
    let absvalue := u64 (if neg then - value else value) in
    let result := abs_bytes 8 absvalue in
    let back := default 0 (last result) in
    if negb (Z.land back 0x80 =? 0) then result ++ [if neg then 0x80 else 0]
    else if neg then take (length result - 1) result ++ [Z.lor back 0x80]
    else result.

Definition getvch (m_value : Z) : list Z := serialize m_value.

Definition getint (m_value : Z) : Z :=
  if m_value >? 2 ^ 31 - 1 then 2 ^ 31 - 1
  else if m_value <? - 2 ^ 31 then - 2 ^ 31
  else m_value.

Definition op_neg (m_value : Z) : option Z :=
  if m_value =? - 2 ^ 63 then None else Some (- m_value).

Definition op_add_assign (m_value rhs : Z) : option Z :=
  if (rhs =? 0) || ((rhs >? 0) && (m_value <=? 2 ^ 63 - 1 - rhs))
     || ((rhs <? 0) && (m_value >=? - 2 ^ 63 - rhs))
  then Some (m_value + rhs) else None.

Definition op_sub_assign (m_value rhs : Z) : option Z :=
  if (rhs =? 0) || ((rhs >? 0) && (m_value >=? - 2 ^ 63 + rhs))
     || ((rhs <? 0) && (m_value <=? 2 ^ 63 - 1 + rhs))
  then Some (m_value - rhs) else None.

(** Comparisons and the plain arithmetic; [None] where the [int64_t] result overflows,
    which the language leaves undefined. *)
Definition op_eq (m_value rhs : Z) : bool := m_value =? rhs.
Definition op_ne (m_value rhs : Z) : bool := negb (m_value =? rhs).
Definition op_le (m_value rhs : Z) : bool := m_value <=? rhs.
Definition op_lt (m_value rhs : Z) : bool := m_value <? rhs.
Definition op_ge (m_value rhs : Z) : bool := m_value >=? rhs.
Definition op_gt (m_value rhs : Z) : bool := m_value >? rhs.
Definition checked (n : Z) : option Z :=
  if (- 2 ^ 63 <=? n) && (n <=? 2 ^ 63 - 1) then Some n else None.
Definition op_add (m_value rhs : Z) : option Z := checked (m_value + rhs).
Definition op_sub (m_value rhs : Z) : option Z := checked (m_value - rhs).
Definition op_and (m_value rhs : Z) : Z := Z.land m_value rhs.

End CScriptNum.

(** ** Building and reading scripts *)

Module CScript.
Section host.
Variable be : bool.

Definition push_opcode (script : list Z) (opcode : Z) : option (list Z) :=
  if (opcode <? 0) || (opcode >? 0xff) then None else Some (script ++ [opcode]).

(** [operator<<(const std::vector<unsigned char>&)] *)
Definition push_vch (script b : list Z) : list Z :=
  let n := Z.of_nat (length b) in
  let script :=
    if n <? OP_PUSHDATA1 then script ++ [u8 n]
    else if n <=? 0xff then (script ++ [OP_PUSHDATA1]) ++ [u8 n]
    else if n <=? 0xffff then (script ++ [OP_PUSHDATA2]) ++ WriteLE16 be (u16 n)
    else (script ++ [OP_PUSHDATA4]) ++ WriteLE32 be (u32 n) in
  script ++ b.

Definition push_int64 (script : list Z) (n : Z) : list Z :=
  if (n =? -1) || ((n >=? 1) && (n <=? 16)) then script ++ [u8 (n + (OP_1 - 1))]
  else if n =? 0 then script ++ [OP_0]
  else push_vch script (CScriptNum.serialize n).

(** The size of an immediate operand: success, size, iterator. *)
Definition operand_size (script : list Z) (opcode : Z) (pc : nat) : bool * Z * nat :=
  let left := (length script - pc)%nat in
  if opcode <? OP_PUSHDATA1 then (true, opcode, pc)
  else if opcode =? OP_PUSHDATA1 then
    if (left <? 1)%nat then (false, 0, pc) else (true, script !!! pc, S pc)
  else if opcode =? OP_PUSHDATA2 then
    if (left <? 2)%nat then (false, 0, pc) else (true, ReadLE16 be (drop pc script), (pc + 2)%nat)
  else if opcode =? OP_PUSHDATA4 then
    if (left <? 4)%nat then (false, 0, pc) else (true, ReadLE32 be (drop pc script), (pc + 4)%nat)
  else (true, 0, pc).

Definition GetOp2 (script : list Z) (pc : nat) : bool * Z * list Z * nat :=
  if (length script <=? pc)%nat then (false, OP_INVALIDOPCODE, [], pc)
  else
    let opcode := script !!! pc in
    let pc := S pc in
    if opcode <=? OP_PUSHDATA4 then
      let '(ok, nSize, pc) := operand_size script opcode pc in
      if negb ok then (false, OP_INVALIDOPCODE, [], pc)
      else if Z.of_nat (length script - pc) <? nSize then (false, OP_INVALIDOPCODE, [], pc)
      else (true, opcode, take (Z.to_nat nSize) (drop pc script), (pc + Z.to_nat nSize)%nat)
    else (true, opcode, [], pc).

Definition DecodeOP_N (opcode : Z) : option Z :=
  if opcode =? OP_0 then Some 0
  else if (opcode >=? OP_1) && (opcode <=? OP_16) then Some (opcode - (OP_1 - 1))
  else None.

Definition EncodeOP_N (n : Z) : option Z :=
  if negb ((n >=? 0) && (n <=? 16)) then None
  else if n =? 0 then Some OP_0
  else Some (OP_1 + n - 1).

(** Loops over the operations of a script: every operation read takes at least a
    byte, so the length of the script bounds the rounds. *)
Fixpoint Find_loop (fuel : nat) (script : list Z) (pc : nat) (op nFound : Z) : Z :=
  match fuel with
  | O => nFound
  | S fuel' =>
      if (pc =? length script)%nat then nFound
      else let '(ok, opcode, _, pc) := GetOp2 script pc in
           if negb ok then nFound
           else Find_loop fuel' script pc op (if opcode =? op then nFound + 1 else nFound)
  end.
Definition Find (script : list Z) (op : Z) : Z := Find_loop (length script) script 0 op 0.

(** [FindAndDelete]: the inner loop skips the occurrences of [b] at [pc]. *)
Fixpoint skip_matches (fuel : nat) (script b : list Z) (pc : nat) (nFound : Z) : nat * Z :=
  match fuel with
  | O => (pc, nFound)
  | S fuel' =>
      if (length b <=? length script - pc)%nat && bool_decide (take (length b) (drop pc script) = b)
      then skip_matches fuel' script b (pc + length b) (nFound + 1)
      else (pc, nFound)
  end.

Fixpoint FindAndDelete_loop (fuel : nat) (script b result : list Z) (pc2 pc : nat) (nFound : Z)
    : list Z * nat * Z :=
  match fuel with
  | O => (result, pc2, nFound)
  | S fuel' =>
      let result := result ++ take (pc - pc2) (drop pc2 script) in
      let '(pc, nFound) := skip_matches (length script) script b pc nFound in
      let pc2 := pc in
      let '(ok, _, _, pc) := GetOp2 script pc in
      if (ok : bool) then FindAndDelete_loop fuel' script b result pc2 pc nFound
      else (result, pc2, nFound)
  end.

(** The number of occurrences and the script afterwards. *)
Definition FindAndDelete (script b : list Z) : Z * list Z :=
  match b with
  | [] => (0, script)
  | _ =>
      let '(result, pc2, nFound) := FindAndDelete_loop (S (length script)) script b [] 0 0 0 in
      (nFound, if nFound >? 0 then result ++ drop pc2 script else script)
  end.

Fixpoint GetSigOpCount_loop (fuel : nat) (script : list Z) (fAccurate : bool) (pc : nat)
    (lastOpcode n : Z) : option Z :=
  match fuel with
  | O => Some n
  | S fuel' =>
      if (pc <? length script)%nat then
        let '(ok, opcode, _, pc) := GetOp2 script pc in
        if negb ok then Some n
        else
          n ← (if (opcode =? OP_CHECKSIG) || (opcode =? OP_CHECKSIGVERIFY) then Some (u32 (n + 1))
               else if (opcode =? OP_CHECKMULTISIG) || (opcode =? OP_CHECKMULTISIGVERIFY) then
                 if fAccurate && (lastOpcode >=? OP_1) && (lastOpcode <=? OP_16)
                 then k ← DecodeOP_N lastOpcode; Some (u32 (n + k))
                 else Some (u32 (n + MAX_PUBKEYS_PER_MULTISIG))
               else Some n);
          GetSigOpCount_loop fuel' script fAccurate pc opcode n
      else Some n
  end.
Definition GetSigOpCount (script : list Z) (fAccurate : bool) : option Z :=
  GetSigOpCount_loop (length script) script fAccurate 0 OP_INVALIDOPCODE 0.

Fixpoint IsPushOnly_loop (fuel : nat) (script : list Z) (pc : nat) : bool :=
  if (pc <? length script)%nat then
    match fuel with
    | O => false
    | S fuel' =>
        let '(ok, opcode, _, pc) := GetOp2 script pc in
        if negb ok then false
        else if opcode >? OP_16 then false
        else IsPushOnly_loop fuel' script pc
    end
  else true.
Definition IsPushOnly (script : list Z) : bool := IsPushOnly_loop (length script) script 0.

Definition IsUnspendable (script : list Z) : bool :=
  ((Z.of_nat (length script) >? 0) && (script !!! 0%nat =? OP_RETURN))
  || (Z.of_nat (length script) >? MAX_SCRIPT_SIZE).

Definition IsPayToScriptHashInner (s : list Z) : bool :=
  (Z.of_nat (length s) =? 23) && (s !!! 0%nat =? OP_HASH160) && (s !!! 1%nat =? 0x14)
  && (s !!! 22%nat =? OP_EQUAL).

Definition IsPayToWitnessScriptHashInner (s : list Z) : bool :=
  (Z.of_nat (length s) =? 34) && (s !!! 0%nat =? OP_0) && (s !!! 1%nat =? 0x20).

(** The version and the program, when it is one. *)
Definition IsWitnessProgramInner (s : list Z) : option (Z * list Z) :=
  if (Z.of_nat (length s) <? 4) || (Z.of_nat (length s) >? 42) then None
  else if negb (s !!! 0%nat =? OP_0) && ((s !!! 0%nat <? OP_1) || (s !!! 0%nat >? OP_16)) then None
  else if s !!! 1%nat + 2 =? Z.of_nat (length s) then
    version ← DecodeOP_N (s !!! 0%nat); Some (version, drop 2 s)
  else None.

End host.
End CScript.

(** ** Name scripts *)

Definition NAMECOIN_TX_VERSION : Z := 0x0666.
Definition MAX_NAME_LENGTH : Z := 512.
Definition MAX_VALUE_LENGTH : Z := 20 * 1024.
Definition MAX_RENTAL_DAYS : Z := 366000000.

Record NameTxInfo : Type := {
  nti_name : list Z;
  nti_value : list Z;
  nti_nRentalDays : Z;
  nti_op : Z;
}.

(** [checkNameValues]: the error message is empty. *)
Definition checkNameValues (ret : NameTxInfo) : bool :=
  negb ((Z.of_nat (length (nti_name ret)) >? MAX_NAME_LENGTH)
     || (Z.of_nat (length (nti_value ret)) >? MAX_VALUE_LENGTH)
     || ((nti_op ret =? OP_NAME_NEW) && (nti_nRentalDays ret <? 1))
     || ((nti_op ret =? OP_NAME_UPDATE) && (nti_nRentalDays ret <? 0))
     || (nti_nRentalDays ret >? MAX_RENTAL_DAYS)).

Section names.
Variable be : bool.

Definition is_drop (opcode : Z) : bool := (opcode =? OP_DROP) || (opcode =? OP_2DROP).
Definition is_push (opcode : Z) : bool := (opcode >=? 0) && (opcode <=? OP_PUSHDATA4).

(** The pushes of the value, up to the first delimiter: value, number of pushes,
    the delimiter, iterator after it. *)
Fixpoint read_value (fuel : nat) (script : list Z) (pc : nat) (value : list Z) (valueSize : Z)
    : option (list Z * Z * Z * nat) :=
  match fuel with
  | O => None
  | S fuel' =>
      let '(ok, opcode, vch, pc) := CScript.GetOp2 be script pc in
      if negb ok then None
      else if is_drop opcode then Some (value, valueSize, opcode, pc)
      else if negb (is_push opcode) then None
      else read_value fuel' script pc (value ++ vch) (valueSize + 1)
  end.

(** The delimiters: how many elements they drop, iterator after the operation that
    ended the loop. *)
Fixpoint read_delimiters (fuel : nat) (script : list Z) (pc : nat) (opcode delimiterSize : Z)
    : Z * nat :=
  match fuel with
  | O => (delimiterSize, pc)
  | S fuel' =>
      if is_drop opcode then
        let '(ok, opcode, _, pc) := CScript.GetOp2 be script pc in
        if negb ok then (delimiterSize, pc)
        else
          let delimiterSize := if opcode =? OP_2DROP then delimiterSize + 2 else delimiterSize in
          let delimiterSize := if opcode =? OP_DROP then delimiterSize + 1 else delimiterSize in
          read_delimiters fuel' script pc opcode delimiterSize
      else (delimiterSize, pc)
  end.

(** [DecodeNameScript]: [None] is the result [false], an error is the exception of
    the script number.  On success also the iterator after the name. *)
Definition DecodeNameScript (script : list Z) (pc : nat)
    : result scriptnum_error (option (NameTxInfo * nat)) :=
  let '(ok, opcode, _, pc) := CScript.GetOp2 be script pc in
  if negb ok || (opcode <? OP_1) || (opcode >? OP_16) then Ok None
  else
    let op := opcode - OP_1 + 1 in
    if negb (op =? OP_NAME_NEW) && negb (op =? OP_NAME_UPDATE) && negb (op =? OP_NAME_DELETE)
    then Ok None
    else
      let '(ok, opcode, _, pc) := CScript.GetOp2 be script pc in
      if negb ok || negb (opcode =? OP_DROP) then Ok None
      else
        let '(ok, opcode, name, pc) := CScript.GetOp2 be script pc in
        if negb ok || is_drop opcode || negb (is_push opcode) then Ok None
        else if op =? OP_NAME_DELETE then
          let '(ok, opcode, _, pc) := CScript.GetOp2 be script pc in
          if negb ok || negb (opcode =? OP_DROP) then Ok None
          else Ok (Some ({| nti_name := name; nti_value := []; nti_nRentalDays := -1; nti_op := op |}, pc))
        else
          let '(ok, opcode, vch, pc) := CScript.GetOp2 be script pc in
          if negb ok || is_drop opcode || negb (is_push opcode) then Ok None
          else
            days ← CScriptNum.of_vch vch false CScriptNum.nDefaultMaxNumSize;
            let nRentalDays := CScriptNum.getint days in
            let '(ok, opcode, _, pc) := CScript.GetOp2 be script pc in
            if negb ok || negb (opcode =? OP_2DROP) then Ok None
            else
              match read_value (S (length script)) script pc [] 0 with
              | None => Ok None
              | Some (value, valueSize, opcode, pc) =>
                  let '(delimiterSize, pc) :=
                    read_delimiters (S (length script)) script (pc - 1) opcode 0 in
                  let pc := (pc - 1)%nat in
                  let ret := {| nti_name := name; nti_value := value;
                                nti_nRentalDays := nRentalDays; nti_op := op |} in
                  if negb (valueSize =? delimiterSize) then Ok None
                  else if negb (checkNameValues ret) then Ok None
                  else Ok (Some (ret, pc))
              end.

Definition RemoveNameScriptPrefix (scriptIn : list Z) : result scriptnum_error (option (list Z)) :=
  r ← DecodeNameScript scriptIn 0;
  mret (match r with Some (_, pc) => Some (drop pc scriptIn) | None => None end).

Definition IsPayToScriptHash (s : list Z) (nVersion : Z) : result scriptnum_error bool :=
  let ret := CScript.IsPayToScriptHashInner s in
  if negb ret && (nVersion =? NAMECOIN_TX_VERSION) then
    r ← RemoveNameScriptPrefix s;
    mret (match r with None => false | Some rest => CScript.IsPayToScriptHashInner rest end)
  else mret ret.

Definition IsPayToWitnessScriptHash (s : list Z) (nVersion : Z) : result scriptnum_error bool :=
  let ret := CScript.IsPayToWitnessScriptHashInner s in
  if negb ret && (nVersion =? NAMECOIN_TX_VERSION) then
    r ← RemoveNameScriptPrefix s;
    mret (match r with None => false | Some rest => CScript.IsPayToWitnessScriptHashInner rest end)
  else mret ret.

Definition IsWitnessProgram (s : list Z) (txVersion : Z) : result scriptnum_error (option (Z * list Z)) :=
  match CScript.IsWitnessProgramInner s with
  | Some r => mret (Some r)
  | None =>
      if txVersion =? NAMECOIN_TX_VERSION then
        r ← RemoveNameScriptPrefix s;
        mret (match r with None => None | Some rest => CScript.IsWitnessProgramInner rest end)
      else mret None
  end.

(** [GetSigOpCount(scriptSig, nVersion)]: the last push of [scriptSig]. *)
Fixpoint last_push (fuel : nat) (scriptSig : list Z) (pc : nat) (data : list Z) : option (list Z) :=
  if (pc <? length scriptSig)%nat then
    match fuel with
    | O => None
    | S fuel' =>
        let '(ok, opcode, vch, pc) := CScript.GetOp2 be scriptSig pc in
        if negb ok then None
        else if opcode >? OP_16 then None
        else last_push fuel' scriptSig pc vch
    end
  else Some data.

Definition GetSigOpCount_p2sh (s scriptSig : list Z) (nVersion : Z) : result scriptnum_error (option Z) :=
  p2sh ← IsPayToScriptHash s nVersion;
  mret (if negb (p2sh : bool) then CScript.GetSigOpCount be s true
        else match last_push (length scriptSig) scriptSig 0 [] with
             | None => Some 0
             | Some data => CScript.GetSigOpCount be data true
             end).

(** [createNameScript] of [src/src/namecoin.cpp] *)
Fixpoint push_chunks (n : nat) (script value : list Z) : list Z :=
  match n with
  | O => script
  | S n' => push_chunks n' (CScript.push_vch be script (take 520 value)) (drop 520 value)
  end.

Definition createNameScript (nameScript name value : list Z) (nRentalDays op : Z) : option (list Z) :=
  if op =? OP_NAME_DELETE then
    Some (CScript.push_vch be (CScript.push_int64 be nameScript op ++ [OP_DROP]) name ++ [OP_DROP])
  else if negb (checkNameValues {| nti_name := name; nti_value := value;
                                   nti_nRentalDays := nRentalDays; nti_op := op |}) then None
  else
    let vchRentalDays := CScriptNum.getvch nRentalDays in
    let s := CScript.push_vch be (CScript.push_int64 be nameScript op ++ [OP_DROP]) name in
    let s := CScript.push_vch be s vchRentalDays ++ [OP_2DROP] in
    let nChunks := ((length value + 519) / 520)%nat in
    let s := push_chunks nChunks s value in
    let s := s ++ replicate (nChunks / 2) OP_2DROP in
    Some (if (nChunks mod 2 =? 0)%nat then s else s ++ [OP_DROP]).

End names.

(** ** Script numbers: sign and magnitude *)

Section num.

(** The number a byte string stands for: little endian, the top bit is the sign. *)
Definition num_val (vch : list Z) : Z :=
  let n := 8 * Z.of_nat (length vch) - 1 in
  if le_val vch <? 2 ^ n then le_val vch else - (le_val vch - 2 ^ n).

Lemma mod_lor a b n : 0 <= n -> (Z.lor a b) mod 2 ^ n = Z.lor (a mod 2 ^ n) (b mod 2 ^ n).
Proof.
  intros Hn. apply Z.bits_inj'. intros i Hi. rewrite Z.lor_spec.
  destruct (decide (i < n)).
  - by rewrite !Z.mod_pow2_bits_low, Z.lor_spec by lia.
  - by rewrite !Z.mod_pow2_bits_high by lia.
Qed.

Lemma is_s_shiftr x : is_s 64 x <-> Z.shiftr x 63 = 0 \/ Z.shiftr x 63 = -1.
Proof.
  unfold is_s. rewrite shiftr_div by lia. change (2 ^ (64 - 1)) with (2 ^ 63).
  pose proof (Z.div_mod x (2 ^ 63) ltac:(lia)). pose proof (Z.mod_pos_bound x (2 ^ 63) ltac:(lia)).
  split; [|lia]. intros Hx. assert (-1 <= x / 2 ^ 63 < 1); [|lia].
  split; [apply Z.div_le_lower_bound; lia|apply Z.div_lt_upper_bound; lia].
Qed.

Lemma is_s_lor a b : is_s 64 a -> is_s 64 b -> is_s 64 (Z.lor a b).
Proof.
  rewrite !is_s_shiftr, Z.shiftr_lor. intros [-> | ->] [-> | ->]; auto.
Qed.

Lemma or_bytes_spec i vch acc : Forall is_byte vch -> 0 <= i ->
  i + Z.of_nat (length vch) <= 8 -> is_s 64 acc -> u64 acc < 2 ^ (8 * i) ->
  is_s 64 (CScriptNum.or_bytes_from i vch acc) /\
  u64 (CScriptNum.or_bytes_from i vch acc) = u64 acc + 2 ^ (8 * i) * le_val vch.
Proof.
  intros Hb. revert i acc. induction Hb as [|b vch Hb Hv IH]; intros i acc Hi Hl Hs Ha.
  { cbn. split; [done|lia]. }
  cbn [CScriptNum.or_bytes_from length] in *. unfold is_u in Hb.
  assert (0 <= u64 acc) by (by apply (uwrap_range 64)).
  assert (2 ^ (8 * (i + 1)) = 2 ^ 8 * 2 ^ (8 * i)) as Ep.
  { rewrite <- Z.pow_add_r by lia. f_equal. lia. }
  assert (2 ^ (8 * (i + 1)) <= 2 ^ 64) by (apply Z.pow_le_mono_r; lia).
  set (x := Z.lor acc (i64 (Z.shiftl b (8 * i)))).
  assert (u64 x = u64 acc + b * 2 ^ (8 * i)) as Ex.
  { unfold x, uwrap. rewrite mod_lor by lia. fold (u64 acc). rewrite shiftl_mul by lia.
    assert ((i64 (b * 2 ^ (8 * i))) mod 2 ^ 64 = b * 2 ^ (8 * i)) as ->.
    { unfold swrap. rewrite (Z.mod_small (b * 2 ^ (8 * i))) by nia.
      case_bool; [apply Z.mod_small; nia|]. rewrite <- (Z.mod_add _ 1) by lia. rewrite Z.mod_small; nia. }
    rewrite lor_disjoint_add' by lia. lia. }
  destruct (IH (i + 1) x) as [H1 H2]; [lia|lia|apply is_s_lor; [done|apply swrap_range; lia]|nia|].
  split; [done|]. rewrite H2, Ex. cbn [le_val foldr]. fold (le_val vch). rewrite Ep. nia.
Qed.

Lemma le_val_last vch b : Forall is_byte vch -> last vch = Some b ->
  exists l, vch = l ++ [b] /\ le_val vch = le_val l + 2 ^ (8 * (Z.of_nat (length vch) - 1)) * b /\
    0 <= le_val l < 2 ^ (8 * (Z.of_nat (length vch) - 1)).
Proof.
  intros Hv [l ->]%last_Some. exists l. apply Forall_app in Hv as [Hl _].
  rewrite le_val_app, length_app. cbn [length le_val foldr].
  replace (Z.of_nat (length l + 1) - 1) with (Z.of_nat (length l)) by lia.
  split_and!; [done|lia|by apply le_val_bound|by apply le_val_bound].
Qed.

Lemma top_bit_value vch b : Forall is_byte vch -> last vch = Some b ->
  negb (Z.land b 0x80 =? 0) = negb (le_val vch <? 2 ^ (8 * Z.of_nat (length vch) - 1)).
Proof.
  intros Hv Hb. destruct (le_val_last vch b Hv Hb) as (l & -> & El & Hl).
  apply Forall_app in Hv as [_ [Hb' _]%Forall_cons]. unfold is_u in Hb'.
  set (k := 8 * (Z.of_nat (length (l ++ [b])) - 1)) in *.
  assert (0 <= k) by (unfold k; rewrite length_app; cbn; lia).
  replace (8 * Z.of_nat (length (l ++ [b])) - 1) with (k + 7) by lia.
  rewrite Z.pow_add_r by lia. change 0x80 with (2 ^ 7). rewrite land_pow2 by lia.
  rewrite testbit_top by lia. rewrite El. change (2 ^ 7) with 128.
  destruct (Z.leb_spec 128 b), (Z.ltb_spec (le_val l + 2 ^ k * b) (2 ^ k * 128)); cbn; try done; nia.
Qed.

Lemma land_clear_top x n : 0 <= n -> 2 ^ n <= x < 2 ^ (n + 1) -> n < 64 ->
  Z.land x (u64 (Z.lnot (2 ^ n))) = x - 2 ^ n.
Proof.
  intros Hn Hx Hn64. rewrite Z.pow_add_r in Hx by lia.
  assert (x < 2 ^ 64). { assert (2 ^ (n + 1) <= 2 ^ 64) by (apply Z.pow_le_mono_r; lia).
    rewrite Z.pow_add_r in H by lia. lia. }
  assert (Z.land x (u64 (Z.lnot (2 ^ n))) = Z.ldiff x (2 ^ n)) as ->.
  { apply Z.bits_inj'. intros i Hi. rewrite Z.land_spec, Z.ldiff_spec. unfold uwrap.
    destruct (decide (i < 64)).
    - by rewrite Z.mod_pow2_bits_low, Z.lnot_spec by lia.
    - rewrite Z.mod_pow2_bits_high by lia. rewrite <- (Z.mod_small x (2 ^ 64)) by lia.
      by rewrite Z.mod_pow2_bits_high by lia. }
  assert (x = Z.lor (1 * 2 ^ n) (x - 2 ^ n)) as Ex by (rewrite lor_disjoint_add by lia; lia).
  apply Z.bits_inj'. intros i Hi. rewrite Z.ldiff_spec. rewrite Ex at 1.
  rewrite Z.lor_spec, Z.mul_1_l, Z.pow2_bits_eqb by lia.
  destruct (Z.eqb_spec n i) as [<-|]; cbn; [|by rewrite andb_true_r].
  rewrite testbit_top by (rewrite ?Z.pow_add_r; lia). symmetry. apply Z.leb_gt. lia.
Qed.

Lemma set_vch_spec vch : Forall is_byte vch -> (length vch <= 8)%nat ->
  CScriptNum.set_vch vch = num_val vch.
Proof.
  intros Hv Hl. unfold CScriptNum.set_vch, num_val.
  destruct (last vch) as [b|] eqn:Eb.
  2: { apply last_None in Eb as ->. done. }
  destruct (or_bytes_spec 0 vch 0) as [Hs Hu]; [done|lia|lia|by unfold is_s|done|].
  change (2 ^ (8 * 0)) with 1 in Hu. change (u64 0) with 0 in Hu. rewrite Z.add_0_l, Z.mul_1_l in Hu.
  set (r := CScriptNum.or_bytes_from 0 vch 0) in *.
  rewrite (top_bit_value vch b) by done. pose proof (le_val_bound vch Hv) as Hb.
  assert (vch <> []) by (by intros ->). assert (1 <= Z.of_nat (length vch)) by (destruct vch; cbn; [done|lia]).
  set (n := 8 * Z.of_nat (length vch) - 1) in *. replace (8 * Z.of_nat (length vch)) with (n + 1) in Hb by lia.
  assert (2 ^ (n + 1) = 2 * 2 ^ n) as E2 by (rewrite Z.pow_add_r by lia; lia).
  assert (2 ^ n <= 2 ^ 63) by (apply Z.pow_le_mono_r; lia).
  destruct (Z.ltb_spec (le_val vch) (2 ^ n)) as [Hlt|Hge]; cbn [negb].
  - rewrite <- Hu. rewrite <- (swrap_small 64 r) at 1 by done. unfold swrap, uwrap in *. rewrite Hu.
    case_bool; [done|]. change (2 ^ (64 - 1)) with (2 ^ 63) in *. lia.
  - rewrite Hu. rewrite shiftl_mul by lia.
    assert (u64 (0x80 * 2 ^ (8 * (Z.of_nat (length vch) - 1))) = 2 ^ n) as ->.
    { change 0x80 with (2 ^ 7). rewrite <- Z.pow_add_r by lia.
      replace (7 + 8 * (Z.of_nat (length vch) - 1)) with n by lia. apply uwrap_small. unfold is_u.
      split; [lia|]. apply Z.pow_lt_mono_r; lia. }
    rewrite land_clear_top by lia. rewrite swrap_small; [done|lia|unfold is_s; change (2 ^ (64-1)) with (2 ^ 63); lia].
Qed.
Lemma abs_bytes_spec fuel a : 0 <= a < 2 ^ (8 * Z.of_nat fuel) ->
  le_val (CScriptNum.abs_bytes fuel a) = a /\ Forall is_byte (CScriptNum.abs_bytes fuel a) /\
  (length (CScriptNum.abs_bytes fuel a) <= fuel)%nat /\
  (a <> 0 -> CScriptNum.abs_bytes fuel a <> [] /\
     2 ^ (8 * (Z.of_nat (length (CScriptNum.abs_bytes fuel a)) - 1)) <= a).
Proof.
  revert a. induction fuel as [|fuel IH]; intros a Ha; cbn [CScriptNum.abs_bytes].
  { cbn in Ha. assert (a = 0) as -> by lia. done. }
  destruct (Z.eqb_spec a 0) as [->|Hne]; [by split_and!; [| |cbn; lia|]|].
  rewrite pow_8_S in Ha. change 0xff with (2 ^ 8 - 1). rewrite land_mask, shiftr_div by lia.
  pose proof (Z.div_mod a (2 ^ 8) ltac:(lia)) as E. pose proof (Z.mod_pos_bound a (2 ^ 8) ltac:(lia)).
  destruct (IH (a / 2 ^ 8)) as (H1 & H2 & H3 & H4).
  { split; [apply Z.div_pos; lia|apply Z.div_lt_upper_bound; lia]. }
  split_and!.
  - cbn [le_val foldr]. fold (le_val (CScriptNum.abs_bytes fuel (a / 2 ^ 8))). rewrite H1. lia.
  - constructor; [done|done].
  - cbn [length]. lia.
  - intros _. split; [done|]. cbn [length]. rewrite Nat2Z.inj_succ.
    replace (8 * (Z.succ (Z.of_nat (length (CScriptNum.abs_bytes fuel (a / 2 ^ 8)))) - 1))
      with (8 * Z.of_nat (length (CScriptNum.abs_bytes fuel (a / 2 ^ 8)))) by lia.
    destruct (decide (a / 2 ^ 8 = 0)) as [E0|E0].
    + rewrite E0. cbn. destruct fuel; cbn; lia.
    + destruct (H4 E0) as [Hn Hb]. set (n := length (CScriptNum.abs_bytes fuel (a / 2 ^ 8))) in *.
      replace (8 * Z.of_nat n) with (8 + 8 * (Z.of_nat n - 1)) by lia.
      assert (n <> 0%nat) by (intros Hn0; by apply nil_length_inv in Hn0).
      rewrite Z.pow_add_r by lia. lia.
Qed.

(** No shorter encoding exists: the magnitude needs all the bytes. *)
Definition minimal (vch : list Z) : Prop :=
  match length vch with
  | O => True
  | 1%nat => 1 <= Z.abs (num_val vch)
  | S n => 2 ^ (8 * Z.of_nat n - 1) <= Z.abs (num_val vch)
  end.

Lemma num_val_abs l b : Forall is_byte l -> is_byte b ->
  Z.abs (num_val (l ++ [b])) = le_val l + 2 ^ (8 * Z.of_nat (length l)) * (b mod 2 ^ 7) /\
  (num_val (l ++ [b]) < 0 -> 2 ^ 7 <= b).
Proof.
  intros Hl Hb. unfold num_val. rewrite le_val_app, length_app. cbn [le_val foldr length].
  pose proof (le_val_bound l Hl) as Hv. set (k := 8 * Z.of_nat (length l)) in *.
  assert (0 <= k) by lia. replace (8 * Z.of_nat (length l + 1) - 1) with (k + 7) by lia.
  rewrite Z.pow_add_r by lia. rewrite Z.mul_0_r, Z.add_0_r. unfold is_u in Hb.
  pose proof (Z.div_mod b (2 ^ 7) ltac:(lia)) as E. pose proof (Z.mod_pos_bound b (2 ^ 7) ltac:(lia)).
  change (2 ^ 7) with 128 in *.
  assert (b / 128 = 0 \/ b / 128 = 1) as [E1|E1].
  { assert (0 <= b / 128 < 2); [|lia]. split; [apply Z.div_pos; lia|apply Z.div_lt_upper_bound; lia]. }
  - rewrite E1 in E. assert (b mod 128 = b) as -> by lia.
    destruct (Z.ltb_spec (le_val l + 2 ^ k * b) (2 ^ k * 128)); [|nia]. split; [nia|nia].
  - rewrite E1 in E. assert (b = 128 + b mod 128) as Eb by lia.
    destruct (Z.ltb_spec (le_val l + 2 ^ k * b) (2 ^ k * 128)); [nia|]. split; [nia|lia].
Qed.

Lemma land_7f b : Z.land b 0x7f = b mod 2 ^ 7.
Proof. change 0x7f with (2 ^ 7 - 1). apply land_mask. lia. Qed.

Lemma minimal_check vch : Forall is_byte vch ->
  ((Z.of_nat (length vch) >? 0) && (Z.land (default 0 (last vch)) 0x7f =? 0)
   && ((Z.of_nat (length vch) <=? 1) || (Z.land (vch !!! (length vch - 2)%nat) 0x80 =? 0)) = false)
  <-> minimal vch.
Proof.
  intros Hv. destruct (last vch) as [b|] eqn:Eb.
  2: { apply last_None in Eb as ->. done. }
  apply last_Some in Eb as [l ->]. apply Forall_app in Hv as [Hl [Hb _]%Forall_cons].
  destruct (num_val_abs l b Hl Hb) as [Ha _]. unfold minimal. rewrite Ha, length_app.
  change (default 0 (Some b)) with b. cbn [length].
  replace (length l + 1)%nat with (S (length l)) by lia. rewrite land_7f.
  rewrite (proj2 (Z.gtb_lt (Z.of_nat (S (length l))) 0)) by lia. cbn [andb].
  pose proof (Z.mod_pos_bound b (2 ^ 7) ltac:(lia)).
  destruct (last l) as [c|] eqn:Ec.
  - apply last_Some in Ec as [l' ->]. rewrite length_app. cbn [length].
    replace (length l' + 1)%nat with (S (length l')) by lia. 
    rewrite (proj2 (Z.leb_gt (Z.of_nat (S (S (length l')))) 1)) by lia. cbn [orb].
    replace (S (S (length l')) - 2)%nat with (length l') by lia.
    rewrite <- app_assoc. cbn [app]. rewrite lookup_total_app_r, Nat.sub_diag by lia. cbn.
    apply Forall_app in Hl as [Hl' [Hc _]%Forall_cons]. rewrite le_val_app. cbn [le_val foldr].
    pose proof (le_val_bound l' Hl') as Hb'. unfold is_u in Hc.
    set (k := 8 * Z.of_nat (length l')) in *. assert (0 <= k) by lia.
    replace (8 * Z.of_nat (S (length l'))) with (k + 8) by lia.
    replace (k + 8 - 1) with (k + 7) by lia. rewrite !Z.pow_add_r by lia.
    change 0x80 with (2 ^ 7). rewrite land_pow2, testbit_top by lia.
    change (2 ^ 7) with 128 in *. change (2 ^ 8) with 256.
    destruct (Z.eqb_spec (b mod 128) 0) as [E0|E0]; cbn [andb].
    + rewrite E0. destruct (Z.leb_spec 128 c); cbn; split; intros; try done; nia.
    + split; [|done]. intros _. nia.
  - apply last_None in Ec as ->. cbn [length]. change (Z.of_nat 1 <=? 1) with true. cbn [orb].
    rewrite andb_true_r. change (le_val []) with 0. change (2 ^ (8 * Z.of_nat 0)) with 1.
    destruct (Z.eqb_spec (b mod 2 ^ 7) 0) as [E0|E0].
    + split; [done|]. rewrite E0. lia.
    + split; [|done]. lia.
Qed.

Lemma minimal_length a b : minimal a -> minimal b -> Forall is_byte a -> Forall is_byte b ->
  num_val a = num_val b -> length a = length b.
Proof.
  assert (forall a b, minimal b -> Forall is_byte a -> Forall is_byte b ->
    Z.abs (num_val a) = Z.abs (num_val b) -> (length b <= length a)%nat) as H.
  { clear a b. intros a b Hm Ha Hb E. destruct (decide (length b <= length a)%nat) as [|Hlt]; [done|].
    exfalso. assert (Z.abs (num_val a) < if decide (length a = 0%nat) then 1 else 2 ^ (8 * Z.of_nat (length a) - 1)) as Hub.
    { destruct (last a) as [x|] eqn:Ex; [|by apply last_None in Ex as ->].
      apply last_Some in Ex as [l ->]. apply Forall_app in Ha as [Hl [Hx _]%Forall_cons].
      rewrite decide_False by (rewrite length_app; cbn; lia).
      rewrite (proj1 (num_val_abs l x Hl Hx)), length_app. cbn [length].
      pose proof (le_val_bound l Hl). pose proof (Z.mod_pos_bound x (2 ^ 7) ltac:(lia)).
      replace (8 * Z.of_nat (length l + 1) - 1) with (8 * Z.of_nat (length l) + 7) by lia.
      rewrite Z.pow_add_r by lia. nia. }
    rewrite E in Hub. unfold minimal in Hm. destruct (length b) as [|[|n]] eqn:El; [lia| |].
    - rewrite decide_True in Hub by lia. lia.
    - assert (2 ^ (8 * Z.of_nat (length a) - 1) <= 2 ^ (8 * Z.of_nat (S n) - 1)).
      { destruct (decide (length a = 0%nat)) as [->|]; [|apply Z.pow_le_mono_r; lia].
        assert (0 < 2 ^ (8 * Z.of_nat (S n) - 1)) by lia. change (2 ^ (8 * Z.of_nat 0 - 1)) with 0. lia. }
      destruct (decide (length a = 0%nat)); [|lia].
      assert (0 < 2 ^ (8 * Z.of_nat (S n) - 1)) by lia. lia. }
  intros. assert (length b <= length a)%nat by (apply H; congruence).
  assert (length a <= length b)%nat by (apply H; congruence). lia.
Qed.

Lemma num_val_le a b : length a = length b -> Forall is_byte a -> Forall is_byte b ->
  minimal a -> num_val a = num_val b -> a = b.
Proof.
  intros Hl Ha Hb Hm E. destruct (decide (a = [])) as [->|Hne].
  { symmetry. by apply nil_length_inv. }
  apply le_val_inj; try done. unfold num_val in E. rewrite <- Hl in E.
  pose proof (le_val_bound a Ha). pose proof (le_val_bound b Hb).
  assert (num_val a <> 0) as Hnz.
  { unfold minimal in Hm. destruct (length a) as [|[|n]] eqn:El; [by apply nil_length_inv in El|lia|].
    assert (0 < 2 ^ (8 * Z.of_nat (S n) - 1)) by lia. lia. }
  unfold num_val in Hnz. repeat case_bool; lia.
Qed.
Lemma minimal_of_bound vch a : vch <> [] -> Z.abs (num_val vch) = a -> 1 <= a ->
  ((2 <= length vch)%nat -> 2 ^ (8 * (Z.of_nat (length vch) - 1) - 1) <= a) -> minimal vch.
Proof.
  intros Hne Ha H1 H2. unfold minimal. rewrite Ha. destruct (length vch) as [|[|n]] eqn:E; [done|done|].
  replace (8 * Z.of_nat (S n) - 1) with (8 * (Z.of_nat (S (S n)) - 1) - 1) by lia. apply H2. lia.
Qed.

Lemma serialize_spec v : - 2 ^ 63 < v < 2 ^ 63 ->
  Forall is_byte (CScriptNum.serialize v) /\ (length (CScriptNum.serialize v) <= 8)%nat /\
  num_val (CScriptNum.serialize v) = v /\ minimal (CScriptNum.serialize v).
Proof.
  intros Hv. unfold CScriptNum.serialize. destruct (Z.eqb_spec v 0) as [->|Hne].
  { split_and!; [done|cbn; lia|done|done]. }
  assert (u64 (if v <? 0 then - v else v) = Z.abs v) as ->.
  { rewrite uwrap_small; [case_bool; lia|]. unfold is_u. case_bool; lia. }
  set (a := Z.abs v). assert (1 <= a < 2 ^ 63) as Ha by lia.
  destruct (abs_bytes_spec 8 a) as (Hval & Hb & Hlen & Hmin); [lia|].
  destruct Hmin as [Hnil Hmin]; [lia|]. set (r := CScriptNum.abs_bytes 8 a) in *.
  destruct (last r) as [back|] eqn:Er; [|by apply last_None in Er].
  pose proof (top_bit_value r back Hb Er) as Htop. change (default 0 (Some back)) with back.
  destruct (le_val_last r back Hb Er) as (l & El & Elv & Hlv).
  pose proof (le_val_bound r Hb) as Hub. rewrite Htop, Hval in *.
  assert (1 <= Z.of_nat (length r)) as Hr1 by (rewrite El, length_app; cbn; lia).
  set (k := 8 * Z.of_nat (length r)) in *.
  assert (2 ^ k = 2 * 2 ^ (k - 1)) as Ek.
  { replace k with (1 + (k - 1)) at 1 by lia. rewrite Z.pow_add_r by lia. lia. }
  destruct (Z.ltb_spec a (2 ^ (k - 1))) as [Hlt|Hge]; cbn [negb].
  - destruct (Z.ltb_spec v 0) as [Hneg|Hpos].
    + replace (take (length r - 1) r) with l by (rewrite El, length_app, Nat.add_sub, take_app_length; done).
      assert (is_byte back) as Hbk by (rewrite El in Hb; by apply Forall_app in Hb as [_ [? _]%Forall_cons]).
      assert (back < 2 ^ 7) as Hbk7.
      { replace (k - 1) with (8 * (Z.of_nat (length r) - 1) + 7) in Hlt by lia.
        rewrite Z.pow_add_r in Hlt by lia. nia. }
      unfold is_u in Hbk. assert (Z.lor back 0x80 = 1 * 2 ^ 7 + back) as -> by (change 0x80 with (1 * 2 ^ 7); apply (lor_disjoint_add' 1); lia).
      assert (num_val (l ++ [1 * 2 ^ 7 + back]) = v) as Hnv.
      { unfold num_val. rewrite le_val_app, length_app. cbn [length le_val foldr].
        assert (Z.of_nat (length l + 1) = Z.of_nat (length r)) as -> by (rewrite El, length_app; cbn; lia).
        fold k. replace (8 * Z.of_nat (length l)) with (k - 8) by (unfold k; rewrite El, length_app; cbn; lia).
        replace (8 * (Z.of_nat (length r) - 1)) with (k - 8) in Elv by lia.
        assert (2 ^ (k - 1) = 2 ^ (k - 8) * 2 ^ 7) as Ek7 by (rewrite <- Z.pow_add_r by lia; f_equal; lia).
        case_bool; nia. }
      split_and!; [|rewrite length_app; cbn; rewrite El, length_app in Hlen; cbn in Hlen; lia|done|].
      * rewrite El in Hb. apply Forall_app in Hb as [Hb _]. apply Forall_app; split; [done|].
        apply Forall_singleton. unfold is_u. lia.
      * apply (minimal_of_bound _ a); [by destruct l|rewrite Hnv; lia|lia|].
        intros H2. rewrite length_app in *. cbn [length] in *.
        replace (8 * (Z.of_nat (length l + 1) - 1) - 1) with (8 * (Z.of_nat (length r) - 1) - 1)
          by (rewrite El, length_app; cbn; lia).
        etrans; [|exact Hmin]. apply Z.pow_le_mono_r; lia.
    + assert (num_val r = v) as Hnv.
      { unfold num_val. rewrite Hval. fold k. case_bool; lia. }
      split_and!; [done|lia|done|]. apply (minimal_of_bound _ a); [done|rewrite Hnv; lia|lia|].
      intros H2. etrans; [|exact Hmin]. apply Z.pow_le_mono_r; lia.
  - assert (k - 1 < 63) as Hk63.
    { apply (Z.pow_lt_mono_r_iff 2); lia. }
    assert (num_val (r ++ [if v <? 0 then 0x80 else 0]) = v) as Hnv.
    { unfold num_val. rewrite le_val_app, length_app, Hval. cbn [length le_val foldr]. fold k.
      replace (8 * Z.of_nat (length r + 1) - 1) with (k + 7) by lia. rewrite Z.pow_add_r by lia.
      repeat case_bool; nia. }
    split_and!; [|rewrite length_app; cbn [length]; clear -Hk63; unfold k in Hk63; lia|done|].
    + apply Forall_app; split; [done|]. apply Forall_singleton. by case_bool.
    + apply (minimal_of_bound _ a); [by destruct r|rewrite Hnv; lia|lia|].
      intros _. rewrite length_app. cbn [length].
      by replace (8 * (Z.of_nat (length r + 1) - 1) - 1) with (k - 1) by lia.
Qed.

Lemma serialize_unique vch : Forall is_byte vch -> (length vch <= 8)%nat -> minimal vch ->
  CScriptNum.serialize (num_val vch) = vch /\ - 2 ^ 63 < num_val vch < 2 ^ 63.
Proof.
  intros Hv Hl Hm.
  assert (- 2 ^ 63 < num_val vch < 2 ^ 63) as Hr.
  { unfold num_val. pose proof (le_val_bound vch Hv) as Hb.
    destruct (decide (vch = [])) as [->|Hne]; [done|].
    assert (1 <= Z.of_nat (length vch)) by (destruct vch; cbn; [done|lia]).
    assert (2 ^ (8 * Z.of_nat (length vch) - 1) <= 2 ^ 63) by (apply Z.pow_le_mono_r; lia).
    assert (2 ^ (8 * Z.of_nat (length vch)) = 2 * 2 ^ (8 * Z.of_nat (length vch) - 1)) as E.
    { replace (8 * Z.of_nat (length vch)) with (1 + (8 * Z.of_nat (length vch) - 1)) at 1 by lia.
      rewrite Z.pow_add_r by lia. lia. }
    case_bool; lia. }
  split; [|done]. destruct (serialize_spec (num_val vch) Hr) as (H1 & H2 & H3 & H4).
  apply num_val_le; try done. apply minimal_length; done.
Qed.
End num.

(** Script numbers are canonical.  With the minimal-encoding check, reading bytes
    as a number of at most [nMax <= 8] bytes succeeds exactly on the encoding that
    [serialize] produces for the value, so every value has one accepted encoding;
    [getvch] always round-trips, and without the check the value of any byte string
    is its sign-and-magnitude reading. *)
Theorem CScriptNum_canonical (vch : list Z) (nMax v : Z) :
  Forall is_byte vch -> 0 <= nMax <= 8 ->
  (CScriptNum.of_vch vch true nMax = Ok v <->
     Z.of_nat (length vch) <= nMax /\ - 2 ^ 63 < v < 2 ^ 63 /\ vch = CScriptNum.getvch v) /\
  (Z.of_nat (length vch) <= nMax -> CScriptNum.of_vch vch false nMax = Ok (num_val vch)) /\
  (- 2 ^ 63 < v < 2 ^ 63 -> CScriptNum.set_vch (CScriptNum.getvch v) = v /\
     (length (CScriptNum.getvch v) <= 8)%nat).
Proof.
  intros Hv Hmax. split_and!.
  - unfold CScriptNum.of_vch, CScriptNum.getvch. rewrite Z.gtb_ltb, andb_true_l.
    destruct (Z.ltb_spec nMax (Z.of_nat (length vch))) as [Hlt|Hle]; [split; [done|lia]|].
    pose proof (minimal_check vch Hv) as Hmin.
    destruct (_ && _ && _) eqn:E.
    + split; [done|]. intros (_ & Hr & Evch). assert (minimal vch) as Hm; [|by apply Hmin in Hm].
      rewrite Evch. by apply serialize_spec.
    + assert (minimal vch) as Hm by by apply Hmin. rewrite set_vch_spec by (done || lia).
      destruct (serialize_unique vch) as [Hs Hr]; [done|lia|done|]. split.
      * intros [= <-]. done.
      * intros (_ & Hr' & Evch). f_equal. rewrite Evch. by apply serialize_spec.
  - intros Hle. unfold CScriptNum.of_vch. rewrite Z.gtb_ltb.
    destruct (Z.ltb_spec nMax (Z.of_nat (length vch))); [lia|]. cbn [andb].
    f_equal. apply set_vch_spec; [done|lia].
  - intros Hr. destruct (serialize_spec v Hr) as (H1 & H2 & H3 & _). unfold CScriptNum.getvch.
    by rewrite set_vch_spec.
Qed.

Lemma CScriptNum_canonical_witness :
  CScriptNum.of_vch [0xff; 0x80] true 4 = Ok (-255) /\
  CScriptNum.set_vch (CScriptNum.getvch (- 2 ^ 62)) = - 2 ^ 62.
Proof.
  split.
  - refine (proj2 (proj1 (CScriptNum_canonical [0xff; 0x80] 4 (-255) _ _)) _);
      [repeat constructor; by vm_compute|lia|split_and!; [cbn; lia|lia|lia|by vm_compute]].
  - refine (proj1 (proj2 (proj2 (CScriptNum_canonical [0xff; 0x80] 4 (- 2 ^ 62) _ _)) _));
      [repeat constructor; by vm_compute|lia|lia].
Defined.

(** ** Reading what was written *)

Section read.
Variable be : bool.

Lemma ReadLE16_app x rest : is_u 16 x -> ReadLE16 be (WriteLE16 be x ++ rest) = x.
Proof.
  intros Hx. rewrite WriteLE16_bytes by done.
  assert (length (le_bytes 2 x) = 2%nat) as Hl by apply length_le_bytes.
  assert (ReadLE16 be (le_bytes 2 x ++ rest) = ReadLE16 be (le_bytes 2 x)) as ->.
  { unfold ReadLE16. by rewrite take_app_le by lia. }
  rewrite ReadLE16_val by (rewrite ?Hl; auto using le_bytes_bytes with lia).
  rewrite take_ge by lia. rewrite le_val_le_bytes. by apply Z.mod_small.
Qed.

Lemma ReadLE32_app x rest : is_u 32 x -> ReadLE32 be (WriteLE32 be x ++ rest) = x.
Proof.
  intros Hx. rewrite WriteLE32_bytes.
  assert (length (le_bytes 4 x) = 4%nat) as Hl by apply length_le_bytes.
  assert (ReadLE32 be (le_bytes 4 x ++ rest) = ReadLE32 be (le_bytes 4 x)) as ->.
  { unfold ReadLE32. by rewrite take_app_le by lia. }
  rewrite ReadLE32_val by (rewrite ?Hl; auto using le_bytes_bytes with lia).
  rewrite take_ge by lia. rewrite le_val_le_bytes. by apply Z.mod_small.
Qed.

(** Reading at an offset does not depend on what precedes it. *)
Lemma GetOp2_shift pre suf k :
  CScript.GetOp2 be (pre ++ suf) (length pre + k) =
  let '(ok, opcode, vch, pc) := CScript.GetOp2 be suf k in (ok, opcode, vch, (length pre + pc)%nat).
Proof.
  unfold CScript.GetOp2, CScript.operand_size.
  assert (forall j, drop (length pre + j) (pre ++ suf) = drop j suf) as Hd.
  { intros j. by rewrite drop_app_add. }
  assert (forall j, (pre ++ suf) !!! (length pre + j)%nat = suf !!! j) as Hlk.
  { intros j. rewrite lookup_total_app_r by lia. f_equal. lia. }
  assert (forall j, (length (pre ++ suf) - (length pre + j))%nat = (length suf - j)%nat) as Hs.
  { intros j. rewrite length_app. lia. }
  replace (length (pre ++ suf) <=? length pre + k)%nat with (length suf <=? k)%nat.
  2:{ rewrite length_app. destruct (Nat.leb_spec (length suf) k); symmetry;
        [apply Nat.leb_le|apply Nat.leb_gt]; lia. }
  destruct (_ <=? _)%nat; [done|]. cbn zeta. rewrite <- !Nat.add_succ_r, !Hlk, !Hs, !Hd.
  repeat match goal with |- context [if ?b then _ else _] => destruct b eqn:?; cbn zeta beta iota end; 
    rewrite <- ?Nat.add_succ_r, <- ?Nat.add_assoc, ?Hd, ?Hs in *; try congruence; try done.
Qed.

Lemma GetOp2_at pre suf :
  CScript.GetOp2 be (pre ++ suf) (length pre) =
  let '(ok, opcode, vch, pc) := CScript.GetOp2 be suf 0 in (ok, opcode, vch, (length pre + pc)%nat).
Proof. rewrite <- GetOp2_shift. by rewrite Nat.add_0_r. Qed.

(** A successful read moves the iterator forward, within the script. *)
Lemma GetOp2_progress s pc o v pc' : CScript.GetOp2 be s pc = (true, o, v, pc') ->
  (pc < pc' <= length s)%nat.
Proof.
  unfold CScript.GetOp2, CScript.operand_size. destruct (Nat.leb_spec (length s) pc); [done|]. cbn zeta.
  repeat match goal with |- context [if ?b then _ else _] => destruct b eqn:? end; intros E; simplify_eq;
    repeat match goal with H : (_ <? _)%nat = false |- _ => apply Nat.ltb_ge in H
      | H : (_ <? _) = false |- _ => apply Z.ltb_ge in H end; try lia.
Qed.

Lemma push_vch_app s b : CScript.push_vch be s b = s ++ CScript.push_vch be [] b.
Proof. unfold CScript.push_vch. repeat case_bool; cbn [app]; rewrite <- ?app_assoc; done. Qed.

Lemma GetOp2_opcode opcode suf : OP_PUSHDATA4 < opcode ->
  CScript.GetOp2 be (opcode :: suf) 0 = (true, opcode, [], 1%nat).
Proof.
  intros H. unfold CScript.GetOp2. cbn [length Nat.leb].
  change ((opcode :: suf) !!! 0%nat) with opcode. case_bool; [lia|done].
Qed.

(** The opcode that pushes [b]. *)
Definition push_code (b : list Z) : Z :=
  let n := Z.of_nat (length b) in
  if n <? OP_PUSHDATA1 then n else if n <=? 0xff then OP_PUSHDATA1
  else if n <=? 0xffff then OP_PUSHDATA2 else OP_PUSHDATA4.

Lemma push_code_range b : 0 <= push_code b <= OP_PUSHDATA4.
Proof. unfold push_code, OP_PUSHDATA1, OP_PUSHDATA2, OP_PUSHDATA4. repeat case_bool; lia. Qed.

(** Every push is read back whole, whatever follows it. *)
Lemma GetOp2_push b suf : Z.of_nat (length b) < 2 ^ 32 ->
  CScript.GetOp2 be (CScript.push_vch be [] b ++ suf) 0 =
    (true, push_code b, b, length (CScript.push_vch be [] b)).
Proof.
  intros Hb. unfold push_code, CScript.push_vch, OP_PUSHDATA1. set (n := Z.of_nat (length b)) in *.
  assert (Z.to_nat n = length b) as En by lia.
  destruct (Z.ltb_spec n 0x4c); [|destruct (Z.leb_spec n 0xff); [|destruct (Z.leb_spec n 0xffff)]].
  - rewrite uwrap_small by (unfold is_u; lia).
    rewrite <- app_assoc. unfold CScript.GetOp2, CScript.operand_size. cbn [app length Nat.leb].
    change ((n :: b ++ suf) !!! 0%nat) with n. unfold OP_PUSHDATA4, OP_PUSHDATA1.
    rewrite (proj2 (Z.leb_le n 0x4e)), (proj2 (Z.ltb_lt n 0x4c)) by lia. cbn [negb drop].
    rewrite (proj2 (Z.ltb_ge _ _)) by (rewrite length_app; lia).
    rewrite En, ?drop_0, take_app_length. done.
  - rewrite uwrap_small by (unfold is_u; lia).
    rewrite <- !app_assoc. unfold CScript.GetOp2, CScript.operand_size. cbn [app length Nat.leb].
    change ((OP_PUSHDATA1 :: n :: b ++ suf) !!! 0%nat) with OP_PUSHDATA1.
    change ((OP_PUSHDATA1 :: n :: b ++ suf) !!! 1%nat) with n. cbn.
    rewrite (proj2 (Z.ltb_ge _ _)) by (rewrite length_app; lia).
    rewrite En, ?drop_0, take_app_length. done.
  - rewrite uwrap_small by (unfold is_u; lia).
    assert (length (WriteLE16 be n) = 2%nat) as Hl by (by rewrite WriteLE16_bytes by (unfold is_u; lia)).
    rewrite <- !app_assoc. unfold CScript.GetOp2, CScript.operand_size. cbn [app length Nat.leb].
    change ((OP_PUSHDATA2 :: _) !!! 0%nat) with OP_PUSHDATA2. cbn -[Nat.ltb].
    rewrite (proj2 (Nat.ltb_ge _ _)) by (rewrite length_app; lia). cbn -[Nat.ltb].
    rewrite drop_0, ReadLE16_app by (unfold is_u; lia).
    destruct (WriteLE16 be n) as [|x [|y [|]]]; try discriminate Hl. cbn.
    rewrite (proj2 (Z.ltb_ge _ _)) by (rewrite length_app; lia).
    rewrite En, ?drop_0, take_app_length. done.
  - rewrite uwrap_small by (unfold is_u; lia).
    assert (length (WriteLE32 be n) = 4%nat) as Hl by (by rewrite WriteLE32_bytes).
    rewrite <- !app_assoc. unfold CScript.GetOp2, CScript.operand_size. cbn [app length Nat.leb].
    change ((OP_PUSHDATA4 :: _) !!! 0%nat) with OP_PUSHDATA4. cbn -[Nat.ltb].
    rewrite (proj2 (Nat.ltb_ge _ _)) by (rewrite length_app; lia). cbn -[Nat.ltb].
    rewrite drop_0, ReadLE32_app by (unfold is_u; lia).
    destruct (WriteLE32 be n) as [|x [|y [|z [|w [|]]]]]; try discriminate Hl. cbn.
    rewrite (proj2 (Z.ltb_ge _ _)) by (rewrite length_app; lia).
    rewrite En, ?drop_0, take_app_length. done.
Qed.

(** *** Instruction lists: the reference view of a script *)

Inductive instr : Type :=
| IPush (b : list Z)
| IOp (opcode : Z).

#[global] Instance instr_eq_dec : EqDecision instr.
Proof. solve_decision. Defined.

Definition instr_ok (i : instr) : Prop :=
  match i with
  | IPush b => Z.of_nat (length b) < 2 ^ 32
  | IOp opcode => OP_PUSHDATA4 < opcode <= 0xff
  end.

Definition code (i : instr) : Z := match i with IPush b => push_code b | IOp opcode => opcode end.
Definition operand (i : instr) : list Z := match i with IPush b => b | IOp _ => [] end.

Definition asm1 (i : instr) : list Z :=
  match i with IPush b => CScript.push_vch be [] b | IOp opcode => [opcode] end.
Definition asm (l : list instr) : list Z := mjoin (map asm1 l).

Lemma asm_cons i l : asm (i :: l) = asm1 i ++ asm l. Proof. done. Qed.

Lemma asm_app l1 l2 : asm (l1 ++ l2) = asm l1 ++ asm l2.
Proof. unfold asm. by rewrite map_app, join_app. Qed.

Lemma asm1_length i : (1 <= length (asm1 i))%nat.
Proof.
  destruct i; cbn; [|lia]. unfold CScript.push_vch.
  repeat case_bool; rewrite !length_app; cbn; lia.
Qed.

Lemma asm_length l : (length l <= length (asm l))%nat.
Proof.
  induction l as [|i l IH]; [done|]. rewrite asm_cons, length_app. cbn [length].
  pose proof (asm1_length i). lia.
Qed.

Lemma GetOp2_asm1 i suf : instr_ok i ->
  CScript.GetOp2 be (asm1 i ++ suf) 0 = (true, code i, operand i, length (asm1 i)).
Proof.
  destruct i; cbn [instr_ok]; intros Hi; [by apply GetOp2_push|].
  exact (GetOp2_opcode opcode suf (proj1 Hi)).
Qed.

Lemma GetOp2_asm pre i l : instr_ok i ->
  CScript.GetOp2 be (pre ++ asm (i :: l)) (length pre) =
  (true, code i, operand i, length (pre ++ asm1 i)).
Proof. intros Hi. by rewrite GetOp2_at, asm_cons, GetOp2_asm1, length_app. Qed.

Lemma GetOp2_end pre : CScript.GetOp2 be (pre ++ asm []) (length pre) = (false, OP_INVALIDOPCODE, [], length pre).
Proof. rewrite GetOp2_at. cbn. by rewrite Nat.add_0_r. Qed.

Lemma code_range i : instr_ok i -> 0 <= code i <= 0xff.
Proof.
  destruct i as [b|o]; cbn; [intros _|unfold OP_PUSHDATA4; lia].
  pose proof (push_code_range b). unfold OP_PUSHDATA4 in *. lia.
Qed.

Lemma instr_inj i j : instr_ok i -> instr_ok j -> code i = code j -> operand i = operand j -> i = j.
Proof.
  destruct i as [b|o], j as [b'|o']; cbn; intros Hi Hj Hc Ho; try congruence.
  - pose proof (push_code_range b). lia.
  - pose proof (push_code_range b'). lia.
Qed.

(** No encoding is a prefix of a script that starts with another instruction. *)
Lemma asm_prefix i j l : instr_ok i -> instr_ok j ->
  ((length (asm1 i) <= length (asm (j :: l)))%nat /\ take (length (asm1 i)) (asm (j :: l)) = asm1 i) <-> j = i.
Proof.
  intros Hi Hj. split.
  - intros [_ E]. pose proof (GetOp2_asm1 j (asm l) Hj) as H1.
    rewrite <- asm_cons in H1. rewrite <- (take_drop (length (asm1 i)) (asm (j :: l))), E in H1.
    rewrite GetOp2_asm1 in H1 by done. simplify_eq. by apply instr_inj.
  - intros ->. rewrite asm_cons, take_app_length, length_app. split; [lia|done].
Qed.

(** *** The scanning loops on instruction lists *)

Definition count_code (op : Z) (l : list instr) : Z :=
  Z.of_nat (length (filter (fun i => code i = op) l)).

(** What an instruction adds to the signature operations, given the one before it. *)
Definition sigops1 (fAccurate : bool) (lastOpcode : Z) (i : instr) : Z :=
  let c := code i in
  if (c =? OP_CHECKSIG) || (c =? OP_CHECKSIGVERIFY) then 1
  else if (c =? OP_CHECKMULTISIG) || (c =? OP_CHECKMULTISIGVERIFY) then
    if fAccurate && (lastOpcode >=? OP_1) && (lastOpcode <=? OP_16) then lastOpcode - (OP_1 - 1)
    else MAX_PUBKEYS_PER_MULTISIG
  else 0.

Fixpoint sigops (fAccurate : bool) (lastOpcode : Z) (l : list instr) : Z :=
  match l with
  | [] => 0
  | i :: l' => sigops1 fAccurate lastOpcode i + sigops fAccurate (code i) l'
  end.

Lemma sigops1_bound f o i : 0 <= sigops1 true o i <= sigops1 false o i /\ 0 <= sigops1 f o i <= 20.
Proof.
  unfold sigops1, OP_1, OP_16, MAX_PUBKEYS_PER_MULTISIG. destruct f; cbn [andb];
    repeat match goal with |- context [if ?b then _ else _] => destruct b eqn:? end;
    split; try lia; apply andb_prop in Heqb1 as [? ?]; repeat case_bool; lia.
Qed.

Lemma sigops_bound f o l : 0 <= sigops true o l <= sigops false o l /\
  0 <= sigops f o l <= 20 * Z.of_nat (length l).
Proof.
  revert o. induction l as [|i l IH]; intros o; [cbn; lia|]. cbn [sigops length].
  pose proof (IH (code i)). pose proof (sigops1_bound f o i). lia.
Qed.

Lemma end_test pre i l' : (length pre <? length (pre ++ asm (i :: l')))%nat = true /\
  (length pre =? length (pre ++ asm (i :: l')))%nat = false.
Proof.
  rewrite asm_cons, !length_app. pose proof (asm1_length i).
  split; [apply Nat.ltb_lt|apply Nat.eqb_neq]; lia.
Qed.

Lemma end_test_nil (pre : list Z) : (length pre <? length (pre ++ asm []))%nat = false /\
  (length pre =? length (pre ++ asm []))%nat = true.
Proof. rewrite length_app. cbn. split; [apply Nat.ltb_ge|apply Nat.eqb_eq]; lia. Qed.

(** One step of a scan at the front of [asm (i :: l)]. *)
Ltac scan_step Hi :=
  rewrite ?(proj1 (end_test _ _ _)), ?(proj2 (end_test _ _ _)), (GetOp2_asm _ _ _ Hi);
  cbn [negb]; rewrite ?asm_cons, ?(app_assoc _ (asm1 _)).

Lemma Find_loop_asm fuel pre l op n : Forall instr_ok l -> (length l <= fuel)%nat ->
  CScript.Find_loop be fuel (pre ++ asm l) (length pre) op n = n + count_code op l.
Proof.
  intros Hl. revert fuel pre n. induction Hl as [|i l Hi Hl IH]; intros fuel pre n Hf.
  - destruct fuel; cbn [CScript.Find_loop]; rewrite ?(proj2 (end_test_nil _));
      unfold count_code; cbn; lia.
  - destruct fuel as [|fuel]; cbn [length] in Hf; [lia|]. cbn [CScript.Find_loop]. scan_step Hi.
    rewrite IH by lia. unfold count_code. rewrite filter_cons.
    case_bool; [rewrite decide_True by done|rewrite decide_False by done]; cbn [length]; lia.
Qed.

Lemma IsPushOnly_loop_asm fuel pre l : Forall instr_ok l -> (length l <= fuel)%nat ->
  CScript.IsPushOnly_loop be fuel (pre ++ asm l) (length pre) = forallb (fun i => code i <=? OP_16) l.
Proof.
  intros Hl. revert fuel pre. induction Hl as [|i l Hi Hl IH]; intros fuel pre Hf.
  - destruct fuel; cbn [CScript.IsPushOnly_loop]; by rewrite ?(proj1 (end_test_nil _)).
  - destruct fuel as [|fuel]; cbn [length] in Hf; [lia|]. cbn [CScript.IsPushOnly_loop]. scan_step Hi.
    rewrite IH by lia. cbn [forallb]. rewrite Z.gtb_ltb, Z.ltb_antisym. by destruct (_ <=? _).
Qed.

Lemma GetSigOpCount_loop_asm fuel pre l f o n : Forall instr_ok l -> (length l <= fuel)%nat ->
  0 <= n -> n + 20 * Z.of_nat (length l) < 2 ^ 32 ->
  CScript.GetSigOpCount_loop be fuel (pre ++ asm l) f (length pre) o n = Some (n + sigops f o l).
Proof.
  intros Hl. revert fuel pre o n. induction Hl as [|i l Hi Hl IH]; intros fuel pre o n Hf Hn Hb.
  - destruct fuel; cbn [CScript.GetSigOpCount_loop]; rewrite ?(proj1 (end_test_nil _));
      cbn; f_equal; lia.
  - destruct fuel as [|fuel]; cbn [length] in Hf, Hb; [lia|]. cbn [CScript.GetSigOpCount_loop]. scan_step Hi.
    pose proof (sigops1_bound f o i) as [_ Hs].
    transitivity (CScript.GetSigOpCount_loop be fuel ((pre ++ asm1 i) ++ asm l) f
      (length (pre ++ asm1 i)) (code i) (n + sigops1 f o i)).
    2:{ rewrite IH by lia. cbn [sigops]. f_equal. lia. }
    revert Hs. unfold sigops1. cbn [mbind option_bind].
    destruct (_ || _); [intros; cbn; f_equal; apply uwrap_small; unfold is_u; lia|].
    destruct (_ || _); [|intros; cbn; f_equal; lia].
    destruct (_ && _ && _) eqn:E; [|intros; cbn; f_equal; apply uwrap_small; unfold is_u, MAX_PUBKEYS_PER_MULTISIG in *; lia].
    intros Hs. apply andb_prop in E as [E1 E2]. apply andb_prop in E1 as [-> E1]. cbn [negb].
    unfold CScript.DecodeOP_N. rewrite (proj2 (Z.eqb_neq o OP_0)) by (unfold OP_0, OP_1 in *; repeat case_bool; lia).
    rewrite E1, E2. cbn [andb]. cbn. f_equal. apply uwrap_small. unfold is_u. lia.
Qed.

(** [skip_matches] passes over the occurrences at the front. *)
Fixpoint run_of (i : instr) (l : list instr) : nat :=
  match l with
  | [] => O
  | j :: l' => if decide (j = i) then S (run_of i l') else O
  end.

Lemma skip_matches_asm fuel pre i l n : instr_ok i -> Forall instr_ok l -> (length l <= fuel)%nat ->
  CScript.skip_matches fuel (pre ++ asm l) (asm1 i) (length pre) n =
  (length (pre ++ asm (take (run_of i l) l)), n + Z.of_nat (run_of i l)).
Proof.
  intros Hi Hl. revert fuel pre n. induction Hl as [|j l Hj Hl IH]; intros fuel pre n Hf.
  - cbn [run_of take]. rewrite app_nil_r at 1. destruct fuel; cbn [CScript.skip_matches].
    { by rewrite app_nil_r, Z.add_0_r. }
    rewrite (proj2 (Nat.leb_gt _ _)) by (pose proof (asm1_length i); lia).
    cbn [andb]. by rewrite app_nil_r, Z.add_0_r.
  - destruct fuel as [|fuel]; cbn [length] in Hf; [lia|]. cbn [CScript.skip_matches run_of].
    replace (length (pre ++ asm (j :: l)) - length pre)%nat with (length (asm (j :: l)))
      by (rewrite length_app; lia).
    rewrite drop_app_length. pose proof (asm_prefix i j l Hi Hj) as Hp.
    destruct (decide (j = i)) as [->|Hne].
    + destruct (proj2 Hp eq_refl) as [H1 H2]. rewrite (proj2 (Nat.leb_le _ _) H1), bool_decide_true by done.
      cbn [andb]. rewrite asm_cons, app_assoc, <- length_app, IH by lia. cbn [take].
      rewrite asm_cons, app_assoc. f_equal. lia.
    + destruct (_ && _) eqn:E.
      { exfalso. apply andb_prop in E as [E1 E2]. apply Hne, Hp.
        split; [by apply Nat.leb_le|by apply bool_decide_eq_true in E2]. }
      cbn [take]. by rewrite app_nil_r, Z.add_0_r.
Qed.

Lemma drop_run i l : (drop (run_of i l) l = [] \/ exists j l', drop (run_of i l) l = j :: l' /\ j <> i) /\
  filter (fun j => j <> i) (take (run_of i l) l) = [] /\
  filter (fun j => j = i) (take (run_of i l) l) = take (run_of i l) l /\
  (run_of i l <= length l)%nat.
Proof.
  induction l as [|j l IH]; cbn [run_of]; [split_and!; auto|].
  destruct (decide (j = i)) as [->|Hne]; cbn [take drop].
  - destruct IH as (H1 & H2 & H3 & H4). rewrite !filter_cons, decide_False, decide_True by tauto.
    rewrite H2, H3. cbn [length]. split_and!; auto with lia.
  - split_and!; auto with lia. right. eauto.
Qed.

Lemma FindAndDelete_loop_asm fuel pre pend i l res n :
  instr_ok i -> Forall instr_ok l -> (length l < fuel)%nat ->
  let '(res', pc2, n') := CScript.FindAndDelete_loop be fuel ((pre ++ pend) ++ asm l) (asm1 i) res
                            (length pre) (length (pre ++ pend)) n in
  res' ++ drop pc2 ((pre ++ pend) ++ asm l) = res ++ pend ++ asm (filter (fun j => j <> i) l) /\
  n' = n + Z.of_nat (length (filter (fun j => j = i) l)).
Proof.
  revert pre pend l res n. induction fuel as [|fuel IH]; intros pre pend l res n Hi Hl Hf; [lia|].
  cbn [CScript.FindAndDelete_loop].
  replace (take (length (pre ++ pend) - length pre) (drop (length pre) ((pre ++ pend) ++ asm l))) with pend.
  2:{ rewrite length_app, Nat.add_sub_swap, Nat.sub_diag by lia. cbn.
      by rewrite <- app_assoc, drop_app_length, take_app_length. }
  rewrite skip_matches_asm by (done || (rewrite !length_app; pose proof (asm_length l); lia)).
  destruct (drop_run i l) as (Hd & Hf1 & Hf2 & Hr).
  set (k := run_of i l) in *. assert (asm l = asm (take k l) ++ asm (drop k l)) as El
    by (by rewrite <- asm_app, take_drop).
  assert (filter (fun j => j <> i) l = filter (fun j => j <> i) (drop k l)) as ->.
  { rewrite <- (take_drop k l) at 1. by rewrite filter_app, Hf1. }
  assert (filter (fun j => j = i) l = take k l ++ filter (fun j => j = i) (drop k l)) as ->.
  { rewrite <- (take_drop k l) at 1. by rewrite filter_app, Hf2. }
  rewrite El, app_assoc. set (pre2 := (pre ++ pend) ++ asm (take k l)).
  assert (Forall instr_ok (drop k l)) as Hl2 by by apply Forall_drop.
  assert (length (take k l) = k) as Hk by (apply length_take_le; lia).
  destruct Hd as [->|(j & l' & Ed & Hne)].
  - rewrite GetOp2_end. cbn. rewrite app_nil_r, drop_ge by done. rewrite !app_nil_r, Hk.
    split; [done|lia].
  - rewrite Ed in *. apply Forall_cons in Hl2 as [Hj Hl2]. rewrite GetOp2_asm by done.
    assert (length (j :: l') + k = length l)%nat as Hlen by (rewrite <- Ed, length_drop; lia).
    cbn [length] in Hlen. specialize (IH pre2 (asm1 j) l' (res ++ pend) (n + Z.of_nat k) Hi Hl2 ltac:(lia)).
    rewrite asm_cons, app_assoc.
    destruct (CScript.FindAndDelete_loop _ _ _ _ _ _ _ _) as [[res' pc2] n']. destruct IH as [-> ->].
    rewrite !filter_cons, (decide_True (P := j <> i)), (decide_False (P := j = i)) by done.
    rewrite asm_cons, length_app, Hk, !app_assoc. split; [done|lia].
Qed.
End read.

(** Scripts read as they were written.  On a script assembled from opcodes and
    data pushes, the operation reader returns each instruction in turn with its
    operand and stops at the end, and the scanning loops compute the folds one
    expects over the instruction list: [Find] counts an opcode, [IsPushOnly] tests
    that no opcode exceeds OP_16, [GetSigOpCount] never fails an assertion, adds the
    signature operations (counting the preceding OP_n before a multisig when
    accurate, 20 otherwise), is at most 20 per instruction, and is never larger when
    accurate. *)
Theorem script_scans_correct (be : bool) (pre : list Z) (l1 l : list instr) (i : instr) (op : Z) (f : bool) :
  Forall instr_ok (l1 ++ i :: l) -> 20 * Z.of_nat (length (l1 ++ i :: l)) < 2 ^ 32 ->
  let s := asm be (l1 ++ i :: l) in
  CScript.GetOp2 be s (length (asm be l1)) = (true, code i, operand i, length (asm be (l1 ++ [i]))) /\
  CScript.GetOp2 be s (length s) = (false, OP_INVALIDOPCODE, [], length s) /\
  CScript.Find be s op = count_code op (l1 ++ i :: l) /\
  CScript.IsPushOnly be s = forallb (fun j => code j <=? OP_16) (l1 ++ i :: l) /\
  CScript.GetSigOpCount be s f = Some (sigops f OP_INVALIDOPCODE (l1 ++ i :: l)) /\
  0 <= sigops true OP_INVALIDOPCODE (l1 ++ i :: l) <= sigops false OP_INVALIDOPCODE (l1 ++ i :: l) /\
  sigops f OP_INVALIDOPCODE (l1 ++ i :: l) <= 20 * Z.of_nat (length (l1 ++ i :: l)).
Proof.
  intros Hok Hlen s. pose proof (asm_length be (l1 ++ i :: l)) as Hl.
  split_and!.
  - unfold s. rewrite !asm_app. apply Forall_app in Hok as [_ [Hi _]%Forall_cons].
    rewrite GetOp2_asm by done. unfold asm at 3. cbn. by rewrite app_nil_r.
  - pose proof (GetOp2_end be s) as E. change (asm be []) with (@nil Z) in E. by rewrite app_nil_r in E.
  - exact (Find_loop_asm be _ [] _ op 0 Hok Hl).
  - exact (IsPushOnly_loop_asm be _ [] _ Hok Hl).
  - apply (GetSigOpCount_loop_asm be (length s) []); [done|done|lia|lia].
  - by apply (sigops_bound f).
  - by apply (sigops_bound f).
  - by apply (sigops_bound f).
Qed.

Lemma script_scans_correct_witness :
  CScript.GetSigOpCount false
    (asm false ([IOp OP_2; IPush (replicate 33 7); IPush (replicate 33 9); IOp OP_2] ++ IOp OP_CHECKMULTISIG :: [])) true
  = Some 2 /\
  Forall instr_ok ([IOp OP_2; IPush (replicate 33 7); IPush (replicate 33 9); IOp OP_2] ++ [IOp OP_CHECKMULTISIG]).
Proof.
  assert (Forall instr_ok ([IOp OP_2; IPush (replicate 33 7); IPush (replicate 33 9); IOp OP_2]
            ++ [IOp OP_CHECKMULTISIG])) as Hok by (repeat constructor; by vm_compute).
  split; [|exact Hok].
  refine (eq_trans (proj1 (proj2 (proj2 (proj2 (proj2
    (script_scans_correct false [] _ _ _ OP_2 true Hok _)))))) _); [cbn; lia|by vm_compute].
Defined.

(** [FindAndDelete] of an encoded instruction removes from an assembled script
    exactly the instructions equal to it, at instruction boundaries only (never bytes
    inside another operand), and returns how many there were; the empty pattern
    changes nothing. *)
Theorem FindAndDelete_correct (be : bool) (l : list instr) (i : instr) :
  Forall instr_ok l -> instr_ok i ->
  CScript.FindAndDelete be (asm be l) (asm1 be i) =
    (Z.of_nat (length (filter (fun j => j = i) l)), asm be (filter (fun j => j <> i) l)) /\
  CScript.FindAndDelete be (asm be l) [] = (0, asm be l).
Proof.
  intros Hl Hi. split; [|done]. unfold CScript.FindAndDelete.
  destruct (asm1 be i) as [|x b] eqn:Eb; [pose proof (asm1_length be i) as H; rewrite Eb in H; cbn in H; lia|].
  rewrite <- Eb. clear x b Eb.
  pose proof (FindAndDelete_loop_asm be (S (length (asm be l))) [] [] i l [] 0 Hi Hl) as H.
  pose proof (asm_length be l). specialize (H ltac:(lia)). cbn [app length] in H.
  destruct (CScript.FindAndDelete_loop _ _ _ _ _ _ _ _) as [[res pc2] n]. destruct H as [-> ->].
  rewrite Z.add_0_l. f_equal. rewrite Z.gtb_ltb.
  destruct (Z.ltb_spec 0 (Z.of_nat (length (filter (fun j => j = i) l)))); [done|].
  assert (filter (fun j => j = i) l = []) as E by (apply nil_length_inv; lia).
  f_equal. symmetry. clear -E. induction l as [|j l IH]; [done|]. rewrite filter_cons in *.
  destruct (decide (j = i)); [discriminate E|]. rewrite decide_True by done. f_equal. by apply IH.
Qed.

Lemma FindAndDelete_correct_witness :
  CScript.FindAndDelete false (asm false [IPush [1; 2]; IOp OP_DUP; IPush [2; 1; 2]; IPush [1; 2]])
    (asm1 false (IPush [1; 2])) = (2, asm false [IOp OP_DUP; IPush [2; 1; 2]]).
Proof.
  refine (eq_trans (proj1 (FindAndDelete_correct false _ _ _ _)) _);
    [repeat constructor; by vm_compute|by vm_compute|by vm_compute].
Defined.

(** ** Name scripts: decoding what [createNameScript] builds *)

Section name_scripts.
Variable be : bool.
#[local] Abbreviation push := (CScript.push_vch be []).

Lemma push_chunks_app n s v : push_chunks be n s v = s ++ push_chunks be n [] v.
Proof.
  revert s v. induction n as [|n IH]; intros s v; cbn [push_chunks]; [by rewrite app_nil_r|].
  rewrite IH, (IH (push _)), app_assoc. f_equal. apply push_vch_app.
Qed.

Lemma push_chunks_length n s v : (length s + n <= length (push_chunks be n s v))%nat.
Proof.
  revert s v. induction n as [|n IH]; intros s v; cbn [push_chunks]; [lia|].
  specialize (IH (CScript.push_vch be s (take 520 v)) (drop 520 v)).
  rewrite push_vch_app, length_app in IH. pose proof (asm1_length be (IPush (take 520 v))) as H.
  cbn [asm1] in H. rewrite push_vch_app. lia.
Qed.

Lemma GetOp2_push_at pre b suf : Z.of_nat (length b) < 2 ^ 32 ->
  CScript.GetOp2 be (pre ++ push b ++ suf) (length pre) =
    (true, push_code b, b, length (pre ++ push b)).
Proof. intros Hb. by rewrite GetOp2_at, GetOp2_push, length_app. Qed.

Lemma GetOp2_opcode_at pre o suf : OP_PUSHDATA4 < o ->
  CScript.GetOp2 be (pre ++ o :: suf) (length pre) = (true, o, [], length (pre ++ [o])).
Proof. intros Ho. by rewrite GetOp2_at, GetOp2_opcode, length_app. Qed.

Lemma push_code_push b : is_drop (push_code b) = false /\ is_push (push_code b) = true.
Proof.
  pose proof (push_code_range b) as Hr. unfold is_drop, is_push, OP_PUSHDATA4, OP_DROP, OP_2DROP in *.
  split; repeat case_bool; (done || lia).
Qed.

(** The chunks of the value are read back up to the first delimiter. *)
Lemma read_value_chunks n fuel pre value acc cnt d suf :
  (length value <= 520 * n)%nat -> (n < fuel)%nat -> is_drop d = true -> OP_PUSHDATA4 < d ->
  read_value be fuel (push_chunks be n pre value ++ d :: suf) (length pre) acc cnt =
  Some (acc ++ value, cnt + Z.of_nat n, d, length (push_chunks be n pre value ++ [d])).
Proof.
  revert fuel pre value acc cnt. induction n as [|n IH]; intros fuel pre value acc cnt Hv Hf Hd Hd'.
  - destruct fuel as [|fuel]; [lia|]. assert (value = []) as -> by (apply nil_length_inv; lia).
    cbn [push_chunks read_value]. rewrite GetOp2_opcode_at by done. cbn [negb].
    rewrite Hd, app_nil_r, Z.add_0_r. done.
  - destruct fuel as [|fuel]; [lia|]. cbn [push_chunks read_value].
    rewrite (push_chunks_app n (CScript.push_vch be pre _)), push_vch_app, <- !app_assoc.
    rewrite GetOp2_push_at by (rewrite length_take; lia). cbn [negb].
    destruct (push_code_push (take 520 value)) as [-> ->]. cbn [negb].
    rewrite !app_assoc. rewrite <- (push_chunks_app n (pre ++ push _)).
    rewrite IH by (rewrite ?length_drop; done || lia).
    rewrite <- app_assoc, take_drop.
    by replace (cnt + 1 + Z.of_nat n) with (cnt + Z.of_nat (S n)) by lia.
Qed.

Definition drop_weight (d : Z) : Z := if d =? OP_2DROP then 2 else 1.

(** The delimiters are counted up to the operation after them, which is consumed. *)
Lemma read_delimiters_drops fuel pre ds rest o cnt r v k :
  (length ds < fuel)%nat -> is_drop o = true -> Forall (fun d => is_drop d = true) ds ->
  CScript.GetOp2 be rest 0 = (true, r, v, k) -> is_drop r = false ->
  read_delimiters be (S fuel) (pre ++ ds ++ rest) (length pre) o cnt =
  (cnt + foldr Z.add 0 (map drop_weight ds), (length (pre ++ ds) + k)%nat).
Proof.
  intros Hf Ho Hds Hr Hrd. revert fuel pre o cnt Hf Ho.
  induction Hds as [|d ds Hd Hds IH]; intros fuel pre o cnt Hf Ho.
  - cbn [read_delimiters app]. rewrite Ho, GetOp2_at, Hr. cbn [negb].
    unfold is_drop in Hrd. apply orb_false_elim in Hrd as [Hr1 Hr2]. rewrite Hr1, Hr2.
    destruct fuel; [lia|]. cbn [read_delimiters]. unfold is_drop. rewrite Hr1, Hr2. cbn [orb].
    rewrite app_nil_r. cbn. f_equal. lia.
  - destruct fuel as [|fuel]; cbn [length] in Hf; [lia|].
    assert (d = OP_DROP \/ d = OP_2DROP) as Hd' by (unfold is_drop in Hd; repeat case_bool; auto; discriminate Hd).
    change (read_delimiters be (S (S fuel))) with
      (fun script pc opcode delimiterSize => if is_drop opcode then
        let '(ok, opcode, _, pc) := CScript.GetOp2 be script pc in
        if negb ok then (delimiterSize, pc)
        else
          let delimiterSize := if opcode =? OP_2DROP then delimiterSize + 2 else delimiterSize in
          let delimiterSize := if opcode =? OP_DROP then delimiterSize + 1 else delimiterSize in
          read_delimiters be (S fuel) script pc opcode delimiterSize
      else (delimiterSize, pc)).
    cbn beta. rewrite Ho. cbn [app]. rewrite GetOp2_opcode_at by (by destruct Hd' as [-> | ->]).
    cbn [negb]. cbn zeta. replace (pre ++ d :: ds ++ rest) with ((pre ++ [d]) ++ ds ++ rest)
      by (by rewrite <- !app_assoc).
    rewrite IH by (done || lia). rewrite <- app_assoc. cbn [map foldr app]. f_equal.
    unfold drop_weight. destruct Hd' as [-> | ->]; cbn; lia.
Qed.

Lemma step_op S pre o suf : S = pre ++ o :: suf -> OP_PUSHDATA4 < o ->
  CScript.GetOp2 be S (length pre) = (true, o, [], length (pre ++ [o])).
Proof. intros ->. apply GetOp2_opcode_at. Qed.

Lemma step_push S pre b suf : S = pre ++ push b ++ suf -> Z.of_nat (length b) < 2 ^ 32 ->
  CScript.GetOp2 be S (length pre) = (true, push_code b, b, length (pre ++ push b)).
Proof. intros ->. apply GetOp2_push_at. Qed.

(** Rental days in the allowed range are read back from their four bytes at most. *)
Lemma days_roundtrip d : 0 <= d <= MAX_RENTAL_DAYS ->
  (length (CScriptNum.getvch d) <= 4)%nat /\
  CScriptNum.of_vch (CScriptNum.getvch d) false CScriptNum.nDefaultMaxNumSize = Ok d /\
  CScriptNum.getint d = d.
Proof.
  unfold MAX_RENTAL_DAYS, CScriptNum.getvch. intros Hd.
  destruct (serialize_spec d ltac:(lia)) as (Hb & Hl & Hv & Hm).
  assert (length (CScriptNum.serialize d) <= 4)%nat as H4.
  { unfold minimal in Hm. rewrite Hv in Hm. destruct (length (CScriptNum.serialize d)) as [|[|n]]; [lia|lia|].
    assert (~ (3 <= n)%nat); [|lia]. intros Hn.
    assert (2 ^ 31 <= 2 ^ (8 * Z.of_nat (S n) - 1)) by (apply Z.pow_le_mono_r; lia). lia. }
  split_and!; [done| |].
  - unfold CScriptNum.of_vch, CScriptNum.nDefaultMaxNumSize.
    rewrite Z.gtb_ltb, (proj2 (Z.ltb_ge _ _)) by lia. cbn [andb]. f_equal.
    rewrite set_vch_spec by (done || lia). done.
  - unfold CScriptNum.getint. rewrite !Z.gtb_ltb. repeat case_bool; lia.
Qed.

(** The delimiters [createNameScript] writes for [n] chunks. *)
Definition delimiters (n : nat) : list Z :=
  replicate (n / 2) OP_2DROP ++ (if (n mod 2 =? 0)%nat then [] else [OP_DROP]).

Lemma delimiters_spec n : Forall (fun d => is_drop d = true) (delimiters n) /\
  foldr Z.add 0 (map drop_weight (delimiters n)) = Z.of_nat n /\ (n <> 0%nat -> delimiters n <> []).
Proof.
  assert (Z.of_nat n = 2 * Z.of_nat (n / 2) + Z.of_nat (n mod 2)) as E
    by (pose proof (Nat.div_mod_eq n 2); lia).
  pose proof (Nat.mod_upper_bound n 2 ltac:(lia)).
  assert (forall k l, foldr Z.add 0 (map drop_weight (replicate k OP_2DROP ++ l)) =
            2 * Z.of_nat k + foldr Z.add 0 (map drop_weight l)) as Hsum.
  { intros k l. induction k as [|k IH]; [cbn; lia|]. cbn [replicate app map foldr]. rewrite IH.
    change (drop_weight OP_2DROP) with 2. lia. }
  unfold delimiters. split_and!.
  - apply Forall_app; split; [by apply Forall_replicate|]. destruct (_ =? _)%nat; by repeat constructor.
  - rewrite Hsum. destruct (Nat.eqb_spec (n mod 2) 0); cbn [map foldr];
      try change (drop_weight OP_DROP) with 1; lia.
  - intros Hn. destruct (Nat.eqb_spec (n mod 2) 0); [|by destruct (replicate _ _)].
    destruct (n / 2)%nat; [lia|done].
Qed.

Lemma createNameScript_shape name value days op s :
  op = OP_NAME_NEW \/ op = OP_NAME_UPDATE -> createNameScript be [] name value days op = Some s ->
  checkNameValues {| nti_name := name; nti_value := value; nti_nRentalDays := days; nti_op := op |} = true /\
  let n := ((length value + 519) / 520)%nat in
  s = push_chunks be n ((([OP_1 + op - 1; OP_DROP] ++ push name) ++ push (CScriptNum.getvch days)) ++ [OP_2DROP]) value
      ++ delimiters n.
Proof.
  intros Hop. unfold createNameScript.
  assert (CScript.push_int64 be [] op ++ [OP_DROP] = [OP_1 + op - 1; OP_DROP]) as -> by (by destruct Hop as [-> | ->]).
  rewrite (proj2 (Z.eqb_neq op OP_NAME_DELETE)) by (by destruct Hop as [-> | ->]).
  destruct (checkNameValues _); cbn [negb]; [|done]. intros [= <-]. split; [done|]. unfold delimiters.
  rewrite (push_vch_app be [_; _] name), (push_vch_app be (_ ++ push name)).
  destruct (_ =? _)%nat; by rewrite <- ?app_assoc, ?app_nil_r.
Qed.

Lemma checkNameValues_ranges ret : checkNameValues ret = true ->
  nti_op ret = OP_NAME_NEW \/ nti_op ret = OP_NAME_UPDATE ->
  Z.of_nat (length (nti_name ret)) <= 512 /\ Z.of_nat (length (nti_value ret)) <= 20480 /\
  0 <= nti_nRentalDays ret <= MAX_RENTAL_DAYS.
Proof.
  unfold checkNameValues, MAX_NAME_LENGTH, MAX_VALUE_LENGTH. rewrite !Z.gtb_ltb, negb_true_iff.
  intros H Hop. repeat apply orb_false_elim in H as [H ?].
  destruct Hop as [Ho|Ho]; rewrite Ho in *; cbn [Z.eqb andb OP_NAME_NEW OP_NAME_UPDATE] in *;
    repeat case_bool; try done; lia.
Qed.

(** The value and its delimiters, up to the operation that follows them. *)
Lemma read_name_tail n p5 value rest r v k :
  n <> 0%nat -> (length value <= 520 * n)%nat ->
  CScript.GetOp2 be rest 0 = (true, r, v, k) -> is_drop r = false ->
  let p6 := push_chunks be n p5 value in
  let S := p6 ++ delimiters n ++ rest in
  exists d, read_value be (Datatypes.S (length S)) S (length p5) [] 0
              = Some (value, Z.of_nat n, d, length (p6 ++ [d])) /\
    read_delimiters be (Datatypes.S (length S)) S (length p6) d 0
      = (Z.of_nat n, (length (p6 ++ delimiters n) + k)%nat).
Proof.
  intros Hn Hv Hr Hrd p6 S. destruct (delimiters_spec n) as (Hdf & Hdw & Hdn). specialize (Hdn Hn).
  pose proof (push_chunks_length n p5 value) as Hp6. fold p6 in Hp6.
  destruct (delimiters n) as [|d ds]; [done|]. exists d.
  assert (is_drop d = true) as Hd by exact (Forall_inv Hdf).
  assert (OP_PUSHDATA4 < d) as Hd'
    by (clear -Hd; unfold is_drop, OP_DROP, OP_2DROP, OP_PUSHDATA4 in *; repeat case_bool; (lia || discriminate Hd)).
  assert (length S = length p6 + length (d :: ds) + length rest)%nat as HS
    by (unfold S; rewrite !length_app; lia). cbn [length] in HS. split.
  - unfold S at 2. cbn [app]. unfold p6 at 1. rewrite read_value_chunks by (done || lia). done.
  - unfold S at 2. rewrite (read_delimiters_drops _ p6 (d :: ds) rest d 0 r v k) by (done || (cbn [length]; lia)).
    by rewrite Hdw.
Qed.

Lemma DecodeNameScript_value name value days op s rest r v k :
  op = OP_NAME_NEW \/ op = OP_NAME_UPDATE -> value <> [] ->
  createNameScript be [] name value days op = Some s ->
  CScript.GetOp2 be rest 0 = (true, r, v, k) -> is_drop r = false ->
  DecodeNameScript be (s ++ rest) 0 =
  Ok (Some ({| nti_name := name; nti_value := value; nti_nRentalDays := days; nti_op := op |},
            (length s + k - 1)%nat)).
Proof.
  intros Hop Hval Hs Hr Hrd. apply createNameScript_shape in Hs as [Hck Es]; [|done]. cbn zeta in Es.
  destruct (checkNameValues_ranges _ Hck Hop) as (Hname & Hvl & Hdays). cbn in Hname, Hvl, Hdays.
  destruct (days_roundtrip days Hdays) as (Hd4 & Hdays_ok & Hdays_int).
  set (n := ((length value + 519) / 520)%nat) in *.
  assert (length value <= 520 * n)%nat as Hvn.
  { pose proof (Nat.div_mod_eq (length value + 519) 520) as H. fold n in H.
    pose proof (Nat.mod_upper_bound (length value + 519) 520 ltac:(lia)). lia. }
  assert (n <> 0%nat) as Hn0 by (destruct value; [done|cbn [length] in Hvn; lia]).
  set (o := OP_1 + op - 1) in *. set (dv := CScriptNum.getvch days) in *.
  assert (OP_PUSHDATA4 < o /\ OP_1 <= o <= OP_16 /\ o - OP_1 + 1 = op) as (Ho1 & Ho2 & Ho3)
    by (unfold o, OP_1, OP_16, OP_PUSHDATA4, OP_NAME_NEW, OP_NAME_UPDATE in *; lia).
  set (p3 := [o; OP_DROP] ++ push name) in *. set (p4 := p3 ++ push dv) in *.
  destruct (read_name_tail n (p4 ++ [OP_2DROP]) value rest r v k Hn0 Hvn Hr Hrd) as (d & Hrv & Hrdl).
  cbn zeta in Hrv, Hrdl. set (p6 := push_chunks be n (p4 ++ [OP_2DROP]) value) in *.
  rewrite app_assoc, <- Es in Hrv, Hrdl. set (S := s ++ rest) in *.
  assert (S = p3 ++ push dv ++ OP_2DROP :: push_chunks be n [] value ++ delimiters n ++ rest) as ES3.
  { unfold S. rewrite Es. unfold p6. rewrite push_chunks_app. unfold p4. by rewrite <- !app_assoc. }
  unfold DecodeNameScript. change 0%nat with (length (@nil Z)) at 1.
  rewrite (step_op S [] o (OP_DROP :: drop 2 S)) by (done || (rewrite ES3; done)).
  cbn [negb orb app]. rewrite (proj2 (Z.ltb_ge o OP_1)) by lia.
  rewrite Z.gtb_ltb, (proj2 (Z.ltb_ge OP_16 o)) by lia. cbn [orb]. rewrite Ho3.
  assert (negb (op =? OP_NAME_NEW) && negb (op =? OP_NAME_UPDATE) && negb (op =? OP_NAME_DELETE) = false /\
          (op =? OP_NAME_DELETE) = false) as [-> ->] by (by destruct Hop as [-> | ->]).
  rewrite (step_op S [o] OP_DROP (drop 2 S)) by (done || (rewrite ES3; done)). cbn [negb orb app Z.eqb OP_DROP].
  rewrite (step_push S [o; OP_DROP] name (drop (length p3) S))
    by (lia || (rewrite ES3, drop_app_length; unfold p3; by rewrite <- app_assoc)).
  fold p3. destruct (push_code_push name) as [-> ->]. cbn [negb orb].
  rewrite (step_push S p3 dv _ ES3) by lia. fold p4.
  destruct (push_code_push dv) as [-> ->]. cbn [negb orb]. rewrite Hdays_ok. cbn [mbind result_bind].
  rewrite Hdays_int, (step_op S p4 OP_2DROP (push_chunks be n [] value ++ delimiters n ++ rest))
    by (done || (rewrite ES3; unfold p4; by rewrite <- app_assoc)).
  cbn [negb orb Z.eqb OP_2DROP Pos.eqb]. rewrite Hrv.
  replace (length (p6 ++ [d]) - 1)%nat with (length p6) by (rewrite length_app; cbn; lia).
  rewrite Hrdl, Z.eqb_refl, Hck. done.
Qed.

Lemma DecodeNameScript_delete name value days s rest :
  Z.of_nat (length name) < 2 ^ 32 ->
  createNameScript be [] name value days OP_NAME_DELETE = Some s ->
  DecodeNameScript be (s ++ rest) 0 =
  Ok (Some ({| nti_name := name; nti_value := []; nti_nRentalDays := -1; nti_op := OP_NAME_DELETE |}, length s)).
Proof.
  intros Hname [= <-]. change (u8 (OP_NAME_DELETE + (OP_1 - 1))) with OP_3.
  rewrite push_vch_app. set (p3 := [OP_3; OP_DROP] ++ push name).
  assert ((p3 ++ [OP_DROP]) ++ rest = [OP_3; OP_DROP] ++ push name ++ OP_DROP :: rest) as E
    by (unfold p3; by rewrite <- !app_assoc).
  assert ((p3 ++ [OP_DROP]) ++ rest = p3 ++ OP_DROP :: rest) as E3 by by rewrite <- app_assoc.
  set (S := (p3 ++ [OP_DROP]) ++ rest) in *. clearbody S. unfold DecodeNameScript.
  assert (CScript.GetOp2 be S 0 = (true, OP_3, [], 1%nat)) as -> by exact (step_op S [] OP_3 _ E eq_refl).
  assert (CScript.GetOp2 be S 1 = (true, OP_DROP, [], 2%nat)) as Hdrop
    by exact (step_op S [OP_3] OP_DROP _ E eq_refl).
  pose proof (step_push S [OP_3; OP_DROP] name _ E Hname) as Hp. cbn [length] in Hp. fold p3 in Hp.
  cbn -[CScript.GetOp2 is_drop is_push]. rewrite Hdrop. cbn -[CScript.GetOp2 is_drop is_push]. rewrite Hp.
  destruct (push_code_push name) as [-> ->]. cbn [negb orb].
  rewrite (step_op S p3 OP_DROP rest E3) by done. done.
Qed.
End name_scripts.

(** Name scripts decode to what they were built from.  [DecodeNameScript] on the
    output of [createNameScript] followed by an output script returns the name, the
    value (split into 520-byte pushes), the rental days and the operation.  After a
    registration or an update the iterator is left one byte before the end of the
    first operation of the output script (a [pc--] that takes back a whole operation):
    [RemoveNameScriptPrefix] therefore returns the output script when its first
    operation is a single byte, and otherwise only the part of it from the last byte of
    that operation on.  After a deletion it always returns the output script. *)
Theorem name_script_roundtrip (be : bool) (name value rest s : list Z) (days op : Z) (r : Z) (v : list Z) (k : nat) :
  createNameScript be [] name value days op = Some s ->
  CScript.GetOp2 be rest 0 = (true, r, v, k) -> is_drop r = false ->
  (op = OP_NAME_NEW \/ op = OP_NAME_UPDATE -> value <> [] ->
    DecodeNameScript be (s ++ rest) 0 =
      Ok (Some ({| nti_name := name; nti_value := value; nti_nRentalDays := days; nti_op := op |},
                (length s + k - 1)%nat)) /\
    RemoveNameScriptPrefix be (s ++ rest) = Ok (Some (drop (k - 1) rest)) /\
    (RemoveNameScriptPrefix be (s ++ rest) = Ok (Some rest) <-> k = 1%nat)) /\
  (op = OP_NAME_DELETE -> Z.of_nat (length name) < 2 ^ 32 ->
    DecodeNameScript be (s ++ rest) 0 =
      Ok (Some ({| nti_name := name; nti_value := []; nti_nRentalDays := -1; nti_op := op |}, length s)) /\
    RemoveNameScriptPrefix be (s ++ rest) = Ok (Some rest)).
Proof.
  intros Hs Hr Hrd. destruct (GetOp2_progress be rest 0 r v k Hr) as [Hk1 Hk2]. split.
  - intros Hop Hv. pose proof (DecodeNameScript_value be name value days op s rest r v k Hop Hv Hs Hr Hrd) as E.
    assert (RemoveNameScriptPrefix be (s ++ rest) = Ok (Some (drop (k - 1) rest))) as Erm.
    { unfold RemoveNameScriptPrefix. rewrite E. cbn [mbind result_bind mret result_ret].
      replace (length s + k - 1)%nat with (length s + (k - 1))%nat by lia. by rewrite drop_app_add. }
    rewrite Erm. split_and!; [done|done|]. split; [|intros ->; by rewrite drop_0].
    intros [= Ed]. apply (f_equal length) in Ed. rewrite length_drop in Ed. lia.
  - intros -> Hn. pose proof (DecodeNameScript_delete be name value days s rest Hn Hs) as E.
    split; [done|]. unfold RemoveNameScriptPrefix. rewrite E. cbn. by rewrite drop_app_length.
Qed.

Definition sample_name_script : list Z :=
  default [] (createNameScript false [] [100; 110; 115] (replicate 530 1) 100 OP_NAME_NEW).

Lemma name_script_roundtrip_witness :
  RemoveNameScriptPrefix false (sample_name_script ++ [OP_DUP; OP_HASH160; 1; 5; OP_EQUALVERIFY; OP_CHECKSIG]) =
    Ok (Some [OP_DUP; OP_HASH160; 1; 5; OP_EQUALVERIFY; OP_CHECKSIG]) /\
  RemoveNameScriptPrefix false (sample_name_script ++ [2; 9; 7; OP_CHECKSIG]) = Ok (Some [7; OP_CHECKSIG]).
Proof.
  assert (createNameScript false [] [100; 110; 115] (replicate 530 1) 100 OP_NAME_NEW = Some sample_name_script)
    as Hs by (vm_compute; reflexivity).
  split.
  - destruct (name_script_roundtrip false _ _ [OP_DUP; OP_HASH160; 1; 5; OP_EQUALVERIFY; OP_CHECKSIG] _ _ _
      OP_DUP [] 1 Hs) as [H _]; [vm_compute; reflexivity|vm_compute; reflexivity|].
    apply H; [by left|discriminate|reflexivity].
  - destruct (name_script_roundtrip false _ _ [2; 9; 7; OP_CHECKSIG] _ _ _
      2 [9; 7] 3 Hs) as [H _]; [vm_compute; reflexivity|vm_compute; reflexivity|].
    destruct H as (_ & H & _); [by left|discriminate|]. exact H.
Defined.
