(* ===== verification/Standard.v ===== *)
(** * Standard: the kinds of output scripts

    Models [src/src/script/standard.h] and [standard.cpp] (and the length rules of
    [CPubKey], [src/src/pubkey.h]): recognizing the scripts that pay to keys, hashes,
    multisignatures and witness programs, with and without a name in front, and building
    them.  [Hash160] and [SHA256] are parameters. *)
From S2P Require Import Prelude Uint256 Serialize Script.

Inductive txnouttype : Set :=
| TX_NONSTANDARD
| TX_PUBKEY
| TX_PUBKEYHASH
| TX_SCRIPTHASH
| TX_MULTISIG
| TX_NULL_DATA
| TX_WITNESS_V0_SCRIPTHASH
| TX_WITNESS_V0_KEYHASH
| TX_NAME_PUBKEYHASH
| TX_NAME_SCRIPTHASH
| TX_NAME_WITNESS_V0_SCRIPTHASH
| TX_NAME_WITNESS_V0_KEYHASH.

#[export] Instance txnouttype_eq_dec : EqDecision txnouttype.
Proof. solve_decision. Defined.

(** Public keys. *)
Module CPubKey.
Definition GetLen (chHeader : Z) : Z :=
  if (chHeader =? 2) || (chHeader =? 3) then 33
  else if (chHeader =? 4) || (chHeader =? 6) || (chHeader =? 7) then 65
  else 0.

(** The bytes stored; an invalid key has only its first byte set. *)
Definition Invalidate : list Z := [0xFF].

Definition Set_ (v : list Z) : list Z :=
  let len := match v with [] => 0 | b :: _ => GetLen b end in
  if negb (len =? 0) && (len =? Z.of_nat (length v)) then v else Invalidate.

Definition size (vch : list Z) : Z := GetLen (vch !!! 0%nat).
(** From [begin()] to [end()]. *)
Definition bytes (vch : list Z) : list Z := take (Z.to_nat (size vch)) vch.
Definition IsValid (vch : list Z) : bool := size vch >? 0.
Definition IsCompressed (vch : list Z) : bool := size vch =? 33.
End CPubKey.

Inductive CTxDestination : Type :=
| CNoDestination
| CKeyID (id : list Z)
| CScriptID (id : list Z).

Section solver.
Context (be : bool).

(** The templates, in the order of the map; every opcode of one is a single byte. *)
Definition mTemplates : list (txnouttype * list Z) :=
  [ (TX_PUBKEY, [OP_PUBKEY; OP_CHECKSIG]);
    (TX_PUBKEYHASH, [OP_DUP; OP_HASH160; OP_PUBKEYHASH; OP_EQUALVERIFY; OP_CHECKSIG]);
    (TX_MULTISIG, [OP_SMALLINTEGER; OP_PUBKEYS; OP_SMALLINTEGER; OP_CHECKMULTISIG]) ].

Definition key_size (vch : list Z) : bool := (Z.of_nat (length vch) >=? 33) && (Z.of_nat (length vch) <=? 65).

(** [while (vch1.size() >= 33 && vch1.size() <= 65)]: the last operation read, the
    position and the keys.  Every round but the last reads a key. *)
Fixpoint read_pubkeys (fuel : nat) (script1 : list Z) (opcode1 : Z) (vch1 : list Z) (pc1 : nat) (vSolutions : list (list Z))
    : Z * list Z * nat * list (list Z) :=
  match fuel with
  | O => (opcode1, vch1, pc1, vSolutions)
  | S fuel' =>
      if key_size vch1 then
        let vSolutions := vSolutions ++ [vch1] in
        let '(ok, opcode1, vch1, pc1) := CScript.GetOp2 be script1 pc1 in
        if negb ok then (opcode1, vch1, pc1, vSolutions)
        else read_pubkeys fuel' script1 opcode1 vch1 pc1 vSolutions
      else (opcode1, vch1, pc1, vSolutions)
  end.

(** The part of a round after the operations are read: the solutions, or [None] for a
    [break]. *)
Definition match_op (opcode1 : Z) (vch1 : list Z) (opcode2 : Z) (vch2 : list Z) (vSolutions : list (list Z))
    : option (list (list Z)) :=
  if opcode2 =? OP_PUBKEY then
    if (Z.of_nat (length vch1) <? 33) || (Z.of_nat (length vch1) >? 65) then None else Some (vSolutions ++ [vch1])
  else if opcode2 =? OP_PUBKEYHASH then
    if negb (Z.of_nat (length vch1) =? 20) then None else Some (vSolutions ++ [vch1])
  else if opcode2 =? OP_SMALLINTEGER then
    if (opcode1 =? OP_0) || ((opcode1 >=? OP_1) && (opcode1 <=? OP_16)) then
      n ← CScript.DecodeOP_N opcode1; Some (vSolutions ++ [[n]])
    else None
  else if negb (opcode1 =? opcode2) || negb (bool_decide (vch1 = vch2)) then None
  else Some vSolutions.

(** The comparison with one template: [None] is a [break] out of the outer loop. *)
Fixpoint match_template (fuel : nat) (ty : txnouttype) (script1 script2 : list Z) (pc1 pc2 : nat) (vSolutions : list (list Z))
    : option (bool * list (list Z)) :=
  if (pc1 =? length script1)%nat && (pc2 =? length script2)%nat then
    if decide (ty = TX_MULTISIG) then
      let m := default 0 (head vSolutions ≫= head) in
      let n := default 0 (last vSolutions ≫= head) in
      if (m <? 1) || (n <? 1) || (m >? n) || negb (Z.of_nat (length vSolutions) - 2 =? n)
      then Some (false, vSolutions) else Some (true, vSolutions)
    else Some (true, vSolutions)
  else
    match fuel with
    | O => None
    | S fuel' =>
        let '(ok1, opcode1, vch1, pc1) := CScript.GetOp2 be script1 pc1 in
        if negb ok1 then None
        else
          let '(ok2, opcode2, vch2, pc2) := CScript.GetOp2 be script2 pc2 in
          if negb ok2 then None
          else if opcode2 =? OP_PUBKEYS then
            let '(opcode1, vch1, pc1, vSolutions) := read_pubkeys (length script1) script1 opcode1 vch1 pc1 vSolutions in
            let '(ok2, opcode2, vch2, pc2) := CScript.GetOp2 be script2 pc2 in
            if negb ok2 then None
            else vSolutions ← match_op opcode1 vch1 opcode2 vch2 vSolutions;
                 match_template fuel' ty script1 script2 pc1 pc2 vSolutions
          else
            vSolutions ← match_op opcode1 vch1 opcode2 vch2 vSolutions;
            match_template fuel' ty script1 script2 pc1 pc2 vSolutions
    end.

(** [BOOST_FOREACH] over the templates; a template has at most five operations. *)
Fixpoint scan_templates (templates : list (txnouttype * list Z)) (script1 : list Z) : bool * txnouttype * list (list Z) :=
  match templates with
  | [] => (false, TX_NONSTANDARD, [])
  | (ty, script2) :: rest =>
      match match_template (length script2) ty script1 script2 0 0 [] with
      | Some (ret, vSolutions) => (ret, ty, vSolutions)
      | None => scan_templates rest script1
      end
  end.

(** The result, the type and the solutions; [typeRet] is what the caller's variable held. *)
Definition SolverInner (scriptPubKey : list Z) (typeRet : txnouttype) : bool * txnouttype * list (list Z) :=
  if CScript.IsPayToScriptHashInner scriptPubKey then
    (true, TX_SCRIPTHASH, [take 20 (drop 2 scriptPubKey)])
  else
    match CScript.IsWitnessProgramInner scriptPubKey with
    | Some (witnessversion, witnessprogram) =>
        if (witnessversion =? 0) && (Z.of_nat (length witnessprogram) =? 20) then
          (true, TX_WITNESS_V0_KEYHASH, [witnessprogram])
        else if (witnessversion =? 0) && (Z.of_nat (length witnessprogram) =? 32) then
          (true, TX_WITNESS_V0_SCRIPTHASH, [witnessprogram])
        else (false, typeRet, [])
    | None =>
        if (Z.of_nat (length scriptPubKey) >=? 1) && (scriptPubKey !!! 0%nat =? OP_RETURN)
           && CScript.IsPushOnly_loop be (length scriptPubKey) scriptPubKey 1 then (true, TX_NULL_DATA, [])
        else scan_templates mTemplates scriptPubKey
    end.

Definition name_type (ty : txnouttype) : option txnouttype :=
  match ty with
  | TX_PUBKEYHASH => Some TX_NAME_PUBKEYHASH
  | TX_SCRIPTHASH => Some TX_NAME_SCRIPTHASH
  | TX_WITNESS_V0_KEYHASH => Some TX_NAME_WITNESS_V0_KEYHASH
  | TX_WITNESS_V0_SCRIPTHASH => Some TX_NAME_WITNESS_V0_SCRIPTHASH
  | _ => None
  end.

Definition Solver (scriptPubKey : list Z) (typeRet : txnouttype) : result scriptnum_error (bool * txnouttype * list (list Z)) :=
  let '(ret, typeRet, vSolutions) := SolverInner scriptPubKey typeRet in
  if ret : bool then Ok (ret, typeRet, vSolutions)
  else
    r ← RemoveNameScriptPrefix be scriptPubKey;
    match r with
    | None => Ok (ret, typeRet, vSolutions)
    | Some scriptWithoutName =>
        let '(ret, typeRet, vSolutions) := SolverInner scriptWithoutName typeRet in
        if ret : bool then
          match name_type typeRet with
          | Some ty => Ok (true, ty, vSolutions)
          | None => Ok (false, TX_NONSTANDARD, vSolutions)
          end
        else Ok (ret, typeRet, vSolutions)
    end.

Context (Hash160 SHA256 : list Z -> list Z).

Definition ExtractDestination (scriptPubKey : list Z) : result scriptnum_error (option CTxDestination) :=
  '(ok, whichType, vSolutions) ← Solver scriptPubKey TX_NONSTANDARD;
  let first := default [] (head vSolutions) in
  Ok (if negb ok then None
      else match whichType with
           | TX_PUBKEY =>
               let pubKey := CPubKey.Set_ first in
               if negb (CPubKey.IsValid pubKey) then None else Some (CKeyID (Hash160 (CPubKey.bytes pubKey)))
           | TX_PUBKEYHASH | TX_NAME_PUBKEYHASH => Some (CKeyID first)
           | TX_SCRIPTHASH | TX_NAME_SCRIPTHASH => Some (CScriptID first)
           | _ => None
           end).

(** The addresses and the number of signatures they need. *)
Definition ExtractDestinations (scriptPubKey : list Z) : result scriptnum_error (option (txnouttype * list CTxDestination * Z)) :=
  '(ok, typeRet, vSolutions) ← Solver scriptPubKey TX_NONSTANDARD;
  if negb ok then Ok None
  else match typeRet with
  | TX_NULL_DATA => Ok None
  | TX_MULTISIG =>
      let nRequired := default 0 (head vSolutions ≫= head) in
      let keys := map CPubKey.Set_ (take (length vSolutions - 2) (drop 1 vSolutions)) in
      let addresses := map (fun k => CKeyID (Hash160 (CPubKey.bytes k))) (List.filter CPubKey.IsValid keys) in
      match addresses with [] => Ok None | _ => Ok (Some (typeRet, addresses, nRequired)) end
  | _ =>
      d ← ExtractDestination scriptPubKey;
      Ok (match d with Some address => Some (typeRet, [address], 1) | None => None end)
  end.

Definition GetScriptForDestination (dest : CTxDestination) : list Z :=
  match dest with
  | CNoDestination => []
  | CKeyID keyID => CScript.push_vch be [OP_DUP; OP_HASH160] keyID ++ [OP_EQUALVERIFY; OP_CHECKSIG]
  | CScriptID scriptID => CScript.push_vch be [OP_HASH160] scriptID ++ [OP_EQUAL]
  end.

Definition GetScriptForRawPubKey (pubKey : list Z) : list Z := CScript.push_vch be [] (CPubKey.bytes pubKey) ++ [OP_CHECKSIG].

(** [None] is the failed assertion of [EncodeOP_N]. *)
Definition GetScriptForMultisig (nRequired : Z) (keys : list (list Z)) : option (list Z) :=
  m ← CScript.EncodeOP_N nRequired;
  n ← CScript.EncodeOP_N (Z.of_nat (length keys));
  Some (foldl (CScript.push_vch be) [m] (map CPubKey.bytes keys) ++ [n; OP_CHECKMULTISIG]).

Definition GetScriptForWitness (redeemscript : list Z) : result scriptnum_error (list Z) :=
  '(ok, typ, vSolutions) ← Solver redeemscript TX_NONSTANDARD;
  let first := default [] (head vSolutions) in
  let by_script := CScript.push_vch be [OP_0] (SHA256 redeemscript) in
  Ok (if negb ok then by_script
      else match typ with
           | TX_PUBKEY => CScript.push_vch be [OP_0] (Hash160 first)
           | TX_PUBKEYHASH | TX_NAME_PUBKEYHASH => CScript.push_vch be [OP_0] first
           | _ => by_script
           end).

Definition GenerateScriptForRandPay (scriptPubKey : list Z) : result scriptnum_error (list Z) :=
  d ← ExtractDestination scriptPubKey;
  Ok (match d with Some address => GetScriptForDestination address | None => [OP_RETURN] end).
End solver.

(** ** Scripts as lists of instructions *)

Section matching.
Context (be : bool).

(** Where the [k]-th instruction of a script starts. *)
Definition off (l : list instr) (k : nat) : nat := length (asm be (take k l)).

Lemma off_end l : off l (length l) = length (asm be l).
Proof. unfold off. by rewrite take_ge. Qed.

Lemma GetOp2_nth l k i : Forall instr_ok l -> l !! k = Some i ->
  CScript.GetOp2 be (asm be l) (off l k) = (true, code i, operand i, off l (S k)).
Proof.
  intros Hl Hk. assert (instr_ok i) as Hi by (by eapply Forall_lookup_1).
  rewrite <- (take_drop_middle l k i Hk) at 1. rewrite asm_app. unfold off. rewrite GetOp2_asm by done.
  by rewrite (take_S_r l k i Hk), asm_app, asm_cons, app_nil_r.
Qed.

Lemma GetOp2_after l : CScript.GetOp2 be (asm be l) (off l (length l)) = (false, OP_INVALIDOPCODE, [], length (asm be l)).
Proof. rewrite off_end. unfold CScript.GetOp2. by rewrite (proj2 (Nat.leb_le _ _)) by lia. Qed.

Lemma GetOp2_inside s pc o v pc' : CScript.GetOp2 be s pc = (true, o, v, pc') -> (pc =? length s)%nat = false.
Proof. intros H. destruct (GetOp2_progress be s pc o v pc' H) as [? ?]. apply Nat.eqb_neq. lia. Qed.

(** One round of the comparison with a template. *)
Lemma match_step fuel ty s1 s2 pc1 pc2 sols o1 v1 p1 o2 v2 p2 :
  CScript.GetOp2 be s1 pc1 = (true, o1, v1, p1) -> CScript.GetOp2 be s2 pc2 = (true, o2, v2, p2) -> (o2 =? OP_PUBKEYS) = false ->
  match_template be (S fuel) ty s1 s2 pc1 pc2 sols =
    (sols' ← match_op o1 v1 o2 v2 sols; match_template be fuel ty s1 s2 p1 p2 sols').
Proof.
  intros E1 E2 Hne. cbn [match_template]. rewrite (GetOp2_inside _ _ _ _ _ E1), E1, E2. cbn [andb negb]. by rewrite Hne.
Qed.

Lemma match_step_keys fuel ty s1 s2 pc1 pc2 sols o1 v1 p1 v2 p2 o1' v1' p1' sols1 o2 v2' p2' :
  CScript.GetOp2 be s1 pc1 = (true, o1, v1, p1) -> CScript.GetOp2 be s2 pc2 = (true, OP_PUBKEYS, v2, p2) ->
  read_pubkeys be (length s1) s1 o1 v1 p1 sols = (o1', v1', p1', sols1) -> CScript.GetOp2 be s2 p2 = (true, o2, v2', p2') ->
  match_template be (S fuel) ty s1 s2 pc1 pc2 sols =
    (sols' ← match_op o1' v1' o2 v2' sols1; match_template be fuel ty s1 s2 p1' p2' sols').
Proof.
  intros E1 E2 Er E2'. cbn [match_template]. rewrite (GetOp2_inside _ _ _ _ _ E1), E1, E2. cbn [andb negb].
  rewrite Z.eqb_refl, Er, E2'. done.
Qed.

(** A run of keys is read up to the instruction after it. *)
Lemma read_pubkeys_run fuel l k keys i sols : Forall instr_ok l ->
  take (length keys) (drop k l) = map IPush keys -> Forall (fun v => key_size v = true) keys ->
  l !! (k + length keys)%nat = Some i -> key_size (operand i) = false -> (length keys < fuel)%nat ->
  match drop k l with
  | j :: _ => read_pubkeys be fuel (asm be l) (code j) (operand j) (off l (S k)) sols =
                (code i, operand i, off l (S (k + length keys)), sols ++ keys)
  | [] => False
  end.
Proof.
  intros Hl. revert k keys sols. induction fuel as [|fuel IH]; intros k keys sols Ek Hk Hi Hni Hf; [lia|].
  destruct (drop k l) as [|j rest] eqn:Ed.
  { apply (f_equal length) in Ed. rewrite length_drop in Ed. apply lookup_lt_Some in Hi. cbn in Ed. lia. }
  assert (l !! k = Some j) as Hj by (rewrite <- (Nat.add_0_r k), <- lookup_drop, Ed; done).
  cbn [read_pubkeys]. destruct keys as [|v keys]; cbn [length] in *.
  - rewrite Nat.add_0_r in *. rewrite Hj in Hi. injection Hi as ->. rewrite Hni. by rewrite app_nil_r.
  - cbn [take map] in Ek. injection Ek as -> Ek. apply Forall_cons in Hk as [Hv Hk]. cbn [code operand]. rewrite Hv.
    assert (drop (S k) l = rest) as Ed' by (rewrite <- (Nat.add_1_r k), <- drop_drop, Ed; done).
    assert (exists j', l !! S k = Some j') as [j' Hj'].
    { apply lookup_lt_is_Some. apply lookup_lt_Some in Hi. lia. }
    rewrite (GetOp2_nth l (S k) j' Hl Hj'). cbn [negb].
    specialize (IH (S k) keys (sols ++ [v])). rewrite Ed' in IH. replace (S k + length keys)%nat with (k + S (length keys))%nat in IH by lia.
    specialize (IH Ek Hk Hi Hni ltac:(lia)). destruct rest as [|j'' rest]; [done|].
    assert (j'' = j') as -> by (rewrite <- (Nat.add_0_r (S k)), <- lookup_drop, Ed' in Hj'; by injection Hj').
    rewrite IH. by rewrite <- app_assoc.
Qed.
End matching.

(** ** Keys *)

(** A key whose length is the one its first byte announces. *)
Definition pubkey_ok (k : list Z) : Prop := CPubKey.Set_ k = k /\ CPubKey.IsValid k = true.

Lemma pubkey_ok_len k : pubkey_ok k -> CPubKey.size k = Z.of_nat (length k) /\ (CPubKey.size k = 33 \/ CPubKey.size k = 65).
Proof.
  intros [Hs Hv]. destruct k as [|b k]; [done|]. unfold CPubKey.IsValid, CPubKey.size in *. change ((b :: k) !!! 0%nat) with b in *.
  split.
  - unfold CPubKey.Set_ in Hs. destruct (negb (CPubKey.GetLen b =? 0) && _) eqn:E; [|injection Hs as <- <-; discriminate Hv].
    apply andb_true_iff in E as [_ E]. by apply Z.eqb_eq.
  - revert Hv. unfold CPubKey.GetLen. destruct (_ || _); [by left|]. destruct (_ || _); [by right|done].
Qed.

Lemma pubkey_ok_bytes k : pubkey_ok k -> CPubKey.bytes k = k.
Proof. intros [E _]%pubkey_ok_len. unfold CPubKey.bytes. apply take_ge. lia. Qed.

Lemma pubkey_ok_size k : pubkey_ok k -> key_size k = true.
Proof. intros [E [H|H]]%pubkey_ok_len; unfold key_size; by rewrite <- E, H. Qed.

Lemma pubkeys_ok_bytes keys : Forall pubkey_ok keys -> map CPubKey.bytes keys = keys.
Proof. induction 1 as [|k keys Hk _ IH]; [done|]. cbn [map]. by rewrite pubkey_ok_bytes, IH. Qed.

(** ** Building and recognizing *)

(** One round, with the operation of the script read by [H] and the opcode [o] of the
    template, which is followed by position [p]. *)
Ltac match_round H o p := erewrite (match_step _ _ _ _ _ _ _ _ _ _ _ o [] p H); [|reflexivity|reflexivity].
(** The operations match, with solutions [r] afterwards. *)
Ltac matched r tac :=
  match goal with |- context [match_op ?o1 ?v1 ?o2 ?v2 ?sols] =>
    let E := fresh in assert (match_op o1 v1 o2 v2 sols = Some r) as E by (first [reflexivity | tac]); rewrite E; clear E
  end; cbn [mbind option_bind].

Ltac instrs_ok := repeat apply Forall_cons_2; try apply Forall_nil_2; cbn [instr_ok]; first [lia | split; [reflexivity|discriminate]].

Section recognize.
Context (be : bool).

Lemma SolverInner_templates s ty : CScript.IsPayToScriptHashInner s = false -> CScript.IsWitnessProgramInner s = None ->
  (s !!! 0%nat =? OP_RETURN) = false -> SolverInner be s ty = scan_templates be mTemplates s.
Proof. intros H1 H2 H3. unfold SolverInner. by rewrite H1, H2, H3, andb_false_r. Qed.

Lemma push_small v : Z.of_nat (length v) < 76 -> CScript.push_vch be [] v = Z.of_nat (length v) :: v.
Proof. intros Hv. unfold CScript.push_vch. rewrite (proj2 (Z.ltb_lt _ _)) by done. rewrite uwrap_small by (unfold is_u; lia). done. Qed.

Lemma asm_keyhash h : GetScriptForDestination be (CKeyID h) = asm be [IOp OP_DUP; IOp OP_HASH160; IPush h; IOp OP_EQUALVERIFY; IOp OP_CHECKSIG].
Proof. cbn [GetScriptForDestination]. rewrite push_vch_app. rewrite <- app_assoc. reflexivity. Qed.

Lemma asm_pubkey k : pubkey_ok k -> GetScriptForRawPubKey be k = asm be [IPush k; IOp OP_CHECKSIG].
Proof. intros Hk. unfold GetScriptForRawPubKey. by rewrite pubkey_ok_bytes. Qed.

Lemma mult_template1 s o v p : CScript.GetOp2 be s 0 = (true, o, v, p) -> key_size v = false ->
  match_template be 2 TX_PUBKEY s [OP_PUBKEY; OP_CHECKSIG] 0 0 [] = None.
Proof.
  intros E Hv. match_round E OP_PUBKEY 1%nat. unfold match_op. rewrite Z.eqb_refl.
  unfold key_size in Hv. repeat case_bool; cbn [andb orb] in *; (done || lia).
Qed.

Lemma mult_template2 s o v p : CScript.GetOp2 be s 0 = (true, o, v, p) -> (o =? OP_DUP) = false ->
  match_template be 5 TX_PUBKEYHASH s [OP_DUP; OP_HASH160; OP_PUBKEYHASH; OP_EQUALVERIFY; OP_CHECKSIG] 0 0 [] = None.
Proof. intros E Ho. match_round E OP_DUP 1%nat. unfold match_op. rewrite Ho. reflexivity. Qed.

Lemma solve_keyhash h ty : length h = 20%nat -> SolverInner be (GetScriptForDestination be (CKeyID h)) ty = (true, TX_PUBKEYHASH, [h]).
Proof.
  intros Hh. set (l := [IOp OP_DUP; IOp OP_HASH160; IPush h; IOp OP_EQUALVERIFY; IOp OP_CHECKSIG]).
  assert (Forall instr_ok l) as Hl by (unfold l; instrs_ok).
  assert (GetScriptForDestination be (CKeyID h) = OP_DUP :: OP_HASH160 :: 20 :: h ++ [OP_EQUALVERIFY; OP_CHECKSIG]) as Es.
  { rewrite asm_keyhash. unfold asm. cbn [map mjoin list_join asm1]. rewrite push_small, Hh by lia. reflexivity. }
  assert (length (asm be l) = 25%nat) as Elen by (unfold l; rewrite <- asm_keyhash, Es; cbn; rewrite length_app, Hh; reflexivity).
  rewrite SolverInner_templates.
  - rewrite asm_keyhash. fold l. cbn [scan_templates mTemplates length].
    rewrite (mult_template1 _ _ _ _ (GetOp2_nth be l 0 _ Hl eq_refl) eq_refl).
    match_round (GetOp2_nth be l 0 _ Hl eq_refl) OP_DUP 1%nat. matched (@nil (list Z)) idtac.
    match_round (GetOp2_nth be l 1 _ Hl eq_refl) OP_HASH160 2%nat. matched (@nil (list Z)) idtac.
    match_round (GetOp2_nth be l 2 _ Hl eq_refl) OP_PUBKEYHASH 3%nat. matched [h] ltac:(unfold match_op; cbn [operand]; by rewrite Hh).
    match_round (GetOp2_nth be l 3 _ Hl eq_refl) OP_EQUALVERIFY 4%nat. matched [h] idtac.
    match_round (GetOp2_nth be l 4 _ Hl eq_refl) OP_CHECKSIG 5%nat. matched [h] idtac.
    cbn [match_template]. change (off be l 5) with (off be l (length l)). by rewrite off_end, Nat.eqb_refl.
  - unfold CScript.IsPayToScriptHashInner. rewrite asm_keyhash. fold l. by rewrite Elen.
  - rewrite Es. unfold CScript.IsWitnessProgramInner. destruct (_ || _); done.
  - rewrite Es. reflexivity.
Qed.

Lemma solve_scripthash h ty : length h = 20%nat -> SolverInner be (GetScriptForDestination be (CScriptID h)) ty = (true, TX_SCRIPTHASH, [h]).
Proof.
  intros Hh. assert (GetScriptForDestination be (CScriptID h) = OP_HASH160 :: 20 :: h ++ [OP_EQUAL]) as ->.
  { cbn [GetScriptForDestination]. rewrite push_vch_app, push_small, Hh by lia. reflexivity. }
  unfold SolverInner. assert (CScript.IsPayToScriptHashInner (OP_HASH160 :: 20 :: h ++ [OP_EQUAL]) = true) as ->.
  { unfold CScript.IsPayToScriptHashInner. cbn [length]. rewrite length_app, Hh.
    assert ((OP_HASH160 :: 20 :: h ++ [OP_EQUAL]) !!! 22%nat = OP_EQUAL) as ->; [|reflexivity].
    change ((OP_HASH160 :: 20 :: h ++ [OP_EQUAL]) !!! 22%nat) with ((h ++ [OP_EQUAL]) !!! 20%nat).
    rewrite lookup_total_app_r by lia. by rewrite Hh. }
  cbn [drop]. by rewrite drop_0, take_app_le, take_ge by lia.
Qed.

Lemma solve_pubkey k ty : pubkey_ok k -> SolverInner be (GetScriptForRawPubKey be k) ty = (true, TX_PUBKEY, [k]).
Proof.
  intros Hk. assert (33 <= Z.of_nat (length k) <= 65) as Hlen by (pose proof (pubkey_ok_len k Hk); lia).
  set (l := [IPush k; IOp OP_CHECKSIG]). assert (Forall instr_ok l) as Hl by (unfold l; instrs_ok).
  assert (GetScriptForRawPubKey be k = Z.of_nat (length k) :: k ++ [OP_CHECKSIG]) as Es.
  { rewrite asm_pubkey by done. unfold asm. cbn [map mjoin list_join asm1]. by rewrite push_small by lia. }
  rewrite SolverInner_templates.
  - rewrite asm_pubkey by done. fold l. cbn [scan_templates mTemplates length].
    match_round (GetOp2_nth be l 0 _ Hl eq_refl) OP_PUBKEY 1%nat.
    matched [k] ltac:(unfold match_op; cbn [operand]; rewrite Z.eqb_refl; repeat case_bool; cbn [orb]; (done || lia)).
    match_round (GetOp2_nth be l 1 _ Hl eq_refl) OP_CHECKSIG 2%nat. matched [k] idtac.
    cbn [match_template]. change (off be l 2) with (off be l (length l)). by rewrite off_end, Nat.eqb_refl.
  - rewrite Es. unfold CScript.IsPayToScriptHashInner. change ((_ :: _) !!! 0%nat) with (Z.of_nat (length k)).
    rewrite (proj2 (Z.eqb_neq (Z.of_nat (length k)) OP_HASH160)) by (unfold OP_HASH160; lia). by rewrite andb_false_r.
  - rewrite Es. unfold CScript.IsWitnessProgramInner. destruct (_ || _); [done|]. change ((_ :: _) !!! 0%nat) with (Z.of_nat (length k)).
    rewrite (proj2 (Z.eqb_neq (Z.of_nat (length k)) OP_0)), (proj2 (Z.ltb_lt (Z.of_nat (length k)) OP_1)) by (unfold OP_0, OP_1; lia). done.
  - rewrite Es. change ((_ :: _) !!! 0%nat) with (Z.of_nat (length k)). apply Z.eqb_neq. unfold OP_RETURN. lia.
Qed.

Lemma asm_multisig m keys : 1 <= m <= 16 -> 1 <= Z.of_nat (length keys) <= 16 -> Forall pubkey_ok keys ->
  GetScriptForMultisig be m keys =
    Some (asm be (IOp (OP_1 + m - 1) :: map IPush keys ++ [IOp (OP_1 + Z.of_nat (length keys) - 1); IOp OP_CHECKMULTISIG])).
Proof.
  intros Hm Hn Hk. unfold GetScriptForMultisig. rewrite (pubkeys_ok_bytes keys Hk). assert (forall n, 1 <= n <= 16 -> CScript.EncodeOP_N n = Some (OP_1 + n - 1)) as He.
  { intros n Hn'. unfold CScript.EncodeOP_N. repeat case_bool; cbn; (done || lia). }
  assert (forall acc, foldl (CScript.push_vch be) acc keys = acc ++ asm be (map IPush keys)) as Hf.
  { clear. induction keys as [|k keys IH]; intros acc; cbn [foldl map]; [by rewrite app_nil_r|].
    by rewrite IH, push_vch_app, asm_cons, <- app_assoc. }
  rewrite !He by done. cbn [mbind option_bind]. rewrite Hf, asm_cons, asm_app, <- app_assoc. done.
Qed.

Lemma match_op_small n sols : 1 <= n <= 16 -> match_op (OP_1 + n - 1) [] OP_SMALLINTEGER [] sols = Some (sols ++ [[n]]).
Proof.
  intros Hn. unfold match_op, CScript.DecodeOP_N, OP_1, OP_0, OP_16. cbn [Z.eqb OP_SMALLINTEGER OP_PUBKEY OP_PUBKEYHASH].
  repeat case_bool; cbn; try lia; by replace (81 + n - 1 - (81 - 1)) with n by lia.
Qed.

(** The test at the end of both scripts. *)
Lemma match_multisig_end fuel s s2 m keys : 1 <= m <= Z.of_nat (length keys) ->
  match_template be fuel TX_MULTISIG s s2 (length s) (length s2) ([m] :: keys ++ [[Z.of_nat (length keys)]]) =
    Some (true, [m] :: keys ++ [[Z.of_nat (length keys)]]).
Proof.
  set (n := Z.of_nat (length keys)). intros Hm. remember ([m] :: keys ++ [[n]]) as sols eqn:Esols.
  assert (last sols = Some [n]) as El by (rewrite Esols, app_comm_cons; apply last_snoc).
  assert (head sols = Some [m]) as Eh by (by rewrite Esols).
  assert (Z.of_nat (length sols) = n + 2) as Ec by (rewrite Esols; cbn [length]; rewrite length_app; unfold n; cbn [length]; lia).
  assert ((m <? 1) || (n <? 1) || (m >? n) || negb (n + 2 - 2 =? n) = false) as E by (repeat case_bool; cbn; (done || lia)).
  destruct fuel; cbn [match_template]; rewrite !Nat.eqb_refl; cbn [andb];
    rewrite decide_True, El, Eh, Ec by done; cbn [head mbind option_bind default from_option id]; by rewrite E.
Qed.

(** The first two bytes of an m-of-n script: it is not a witness program. *)
Lemma multisig_bytes m k keys tl : key_size k = true ->
  let s := asm be (IOp (OP_1 + m - 1) :: IPush k :: map IPush keys ++ tl) in
  tl <> [] -> exists b, s = (OP_1 + m - 1) :: b :: drop 2 s /\ b + 2 < Z.of_nat (length s).
Proof.
  intros Hk s Htl. unfold key_size in Hk. exists (Z.of_nat (length k)). unfold s.
  rewrite !asm_cons. cbn [asm1 app]. rewrite push_small by (repeat case_bool; cbn in *; (done || lia)). cbn [app drop]. split; [done|].
  cbn [length]. rewrite length_app. pose proof (asm_length be (map IPush keys ++ tl)) as H. rewrite length_app in H. destruct tl; [done|]. cbn [length] in *. lia.
Qed.

Lemma solve_multisig m keys ty s : 1 <= m <= Z.of_nat (length keys) -> Z.of_nat (length keys) <= 16 ->
  Forall pubkey_ok keys -> GetScriptForMultisig be m keys = Some s ->
  SolverInner be s ty = (true, TX_MULTISIG, [m] :: keys ++ [[Z.of_nat (length keys)]]).
Proof.
  intros Hm Hn Hok Hs. rewrite asm_multisig in Hs by (done || lia). injection Hs as <-.
  assert (Forall (fun k => key_size k = true) keys) as Hk by (eapply Forall_impl; [exact Hok|apply pubkey_ok_size]). set (n := Z.of_nat (length keys)) in *.
  set (l := IOp (OP_1 + m - 1) :: map IPush keys ++ [IOp (OP_1 + n - 1); IOp OP_CHECKMULTISIG]).
  assert (Forall instr_ok l) as Hl.
  { unfold l. apply Forall_cons_2; [cbn; unfold OP_PUSHDATA4, OP_1; lia|]. apply Forall_app_2.
    - apply Forall_map. eapply Forall_impl; [exact Hk|]. intros k Hks. cbn. unfold key_size in Hks. repeat case_bool; cbn in *; (done || lia).
    - repeat apply Forall_cons_2; [cbn; unfold OP_PUSHDATA4, OP_1; lia|split; [reflexivity|discriminate]|apply Forall_nil_2]. }
  assert (l !! 0%nat = Some (IOp (OP_1 + m - 1))) as H0 by done.
  assert (l !! (1 + length keys)%nat = Some (IOp (OP_1 + n - 1))) as Hi.
  { change (l !! (1 + length keys)%nat) with ((map IPush keys ++ [IOp (OP_1 + n - 1); IOp OP_CHECKMULTISIG]) !! length keys).
    rewrite lookup_app_r by (rewrite length_map; lia). by rewrite length_map, Nat.sub_diag. }
  assert (l !! (2 + length keys)%nat = Some (IOp OP_CHECKMULTISIG)) as Hi2.
  { change (l !! (2 + length keys)%nat) with ((map IPush keys ++ [IOp (OP_1 + n - 1); IOp OP_CHECKMULTISIG]) !! S (length keys)).
    rewrite lookup_app_r by (rewrite length_map; lia). rewrite length_map.
    by replace (S (length keys) - length keys)%nat with 1%nat by lia. }
  assert (length l = (3 + length keys)%nat) as Hll by (unfold l; cbn [length]; rewrite length_app, length_map; cbn; lia).
  pose proof (asm_length be l) as Hal.
  pose proof (read_pubkeys_run be (length (asm be l)) l 1 keys (IOp (OP_1 + n - 1)) [[m]] Hl) as Hrun. specialize (Hrun ltac:(
    change (drop 1 l) with (map IPush keys ++ [IOp (OP_1 + n - 1); IOp OP_CHECKMULTISIG]);
    rewrite take_app_le, take_ge by (rewrite length_map; lia); done) Hk Hi eq_refl ltac:(lia)).
  destruct keys as [|k0 keys']; [cbn in n; lia|]. change (drop 1 l) with (map IPush (k0 :: keys') ++ [IOp (OP_1 + n - 1); IOp OP_CHECKMULTISIG]) in Hrun. cbn [map app] in Hrun.
  assert (l !! 1%nat = Some (IPush k0)) as H1 by done.
  assert (exists b, asm be l = (OP_1 + m - 1) :: b :: skipn 2 (asm be l) /\ b + 2 < Z.of_nat (length (asm be l))) as (b & Es & Hb).
  { apply Forall_cons in Hk as [Hk0 _]. by apply multisig_bytes. }
  rewrite SolverInner_templates.
  - cbn [scan_templates mTemplates length].
    rewrite (mult_template1 _ _ _ _ (GetOp2_nth be l 0 _ Hl H0) eq_refl).
    rewrite (mult_template2 _ _ _ _ (GetOp2_nth be l 0 _ Hl H0)) by (apply Z.eqb_neq; cbn; unfold OP_1, OP_DUP; lia).
    match_round (GetOp2_nth be l 0 _ Hl H0) OP_SMALLINTEGER 1%nat. cbn [code operand]. rewrite match_op_small by lia. cbn [mbind option_bind app].
    erewrite (match_step_keys be _ _ _ _ _ _ _ _ _ _ [] 2%nat _ _ _ _ OP_SMALLINTEGER [] 3%nat (GetOp2_nth be l 1 _ Hl H1)); [|reflexivity|exact Hrun|reflexivity].
    cbn [code operand]. rewrite match_op_small by lia. cbn [mbind option_bind].
    match_round (GetOp2_nth be l _ _ Hl Hi2) OP_CHECKMULTISIG 4%nat. matched ([m] :: (k0 :: keys') ++ [[n]]) idtac.
    change ((S (2 + length (k0 :: keys')))) with (3 + length (k0 :: keys'))%nat. rewrite <- Hll, off_end.
    by rewrite (match_multisig_end _ _ [_; _; _; _]).
  - unfold CScript.IsPayToScriptHashInner. assert (asm be l !!! 0%nat = OP_1 + m - 1) as -> by by rewrite Es.
    rewrite (proj2 (Z.eqb_neq (OP_1 + m - 1) OP_HASH160)) by (unfold OP_HASH160, OP_1; lia). by rewrite andb_false_r.
  - unfold CScript.IsWitnessProgramInner. assert (asm be l !!! 1%nat = b) as -> by by rewrite Es.
    rewrite (proj2 (Z.eqb_neq (b + 2) _)) by lia. by repeat destruct (_ && _), (_ || _).
  - assert (asm be l !!! 0%nat = OP_1 + m - 1) as -> by by rewrite Es. apply Z.eqb_neq. unfold OP_RETURN, OP_1. lia.
Qed.
Lemma solve_witness h ty : length h = 20%nat \/ length h = 32%nat ->
  SolverInner be (CScript.push_vch be [OP_0] h) ty =
    (true, if (length h =? 20)%nat then TX_WITNESS_V0_KEYHASH else TX_WITNESS_V0_SCRIPTHASH, [h]).
Proof.
  intros Hh. rewrite push_vch_app, push_small by lia. cbn [app]. unfold SolverInner.
  assert (CScript.IsPayToScriptHashInner (OP_0 :: Z.of_nat (length h) :: h) = false) as ->.
  { unfold CScript.IsPayToScriptHashInner. change ((_ :: _) !!! 0%nat) with OP_0. by rewrite andb_false_r. }
  assert (CScript.IsWitnessProgramInner (OP_0 :: Z.of_nat (length h) :: h) = Some (0, h)) as ->.
  { unfold CScript.IsWitnessProgramInner. change ((_ :: _) !!! 0%nat) with OP_0. change ((_ :: _) !!! 1%nat) with (Z.of_nat (length h)).
    cbn [length drop]. by destruct Hh as [-> | ->]. }
  by destruct Hh as [-> | ->].
Qed.

(** A script that begins like a name is none of the kinds by itself. *)
Lemma solve_name_prefix o t ty : OP_1 <= o <= OP_16 -> SolverInner be (o :: OP_DROP :: t) ty = (false, TX_NONSTANDARD, []).
Proof.
  intros Ho. set (s := o :: OP_DROP :: t).
  assert (CScript.GetOp2 be s 0 = (true, o, [], 1%nat)) as E0 by (apply GetOp2_opcode; unfold OP_PUSHDATA4, OP_1, OP_16 in *; lia).
  assert (CScript.GetOp2 be s 1 = (true, OP_DROP, [], 2%nat)) as E1 by (apply (GetOp2_opcode_at be [o]); reflexivity).
  unfold OP_1, OP_16 in Ho. rewrite SolverInner_templates.
  - cbn [scan_templates mTemplates length].
    rewrite (mult_template1 _ _ _ _ E0), (mult_template2 _ _ _ _ E0) by (try apply Z.eqb_neq; try done; unfold OP_DUP; lia).
    match_round E0 OP_SMALLINTEGER 1%nat. replace o with (OP_1 + (o - OP_1 + 1) - 1) by lia.
    rewrite match_op_small by (unfold OP_1; lia). cbn [mbind option_bind app].
    erewrite (match_step_keys be _ _ _ _ _ _ _ _ _ _ [] 2%nat OP_DROP [] 2%nat _ OP_SMALLINTEGER [] 3%nat E1); [|reflexivity|reflexivity|reflexivity].
    reflexivity.
  - unfold CScript.IsPayToScriptHashInner. change (s !!! 0%nat) with o.
    rewrite (proj2 (Z.eqb_neq o OP_HASH160)) by (unfold OP_HASH160; lia). by rewrite andb_false_r.
  - unfold CScript.IsWitnessProgramInner. change (s !!! 1%nat) with OP_DROP. destruct (_ || _) eqn:El; [done|].
    apply orb_false_elim in El as [_ El]. rewrite (proj2 (Z.eqb_neq (OP_DROP + 2) _)); [by destruct (_ && _)|]. unfold OP_DROP. case_bool; [done|lia].
  - change (s !!! 0%nat) with o. apply Z.eqb_neq. unfold OP_RETURN. lia.
Qed.
End recognize.

(** ** Names in front of scripts *)

Section named.
Context (be : bool).

(** A name that can be in front of an output script and is read back. *)
Definition name_prefix (name value : list Z) (days op : Z) (s : list Z) : Prop :=
  createNameScript be [] name value days op = Some s /\
  ((op = OP_NAME_NEW \/ op = OP_NAME_UPDATE) /\ value <> [] \/ op = OP_NAME_DELETE /\ Z.of_nat (length name) < 2 ^ 32).

Lemma name_prefix_head name value days op s : name_prefix name value days op s -> exists o t, s = o :: OP_DROP :: t /\ OP_1 <= o <= OP_16.
Proof.
  intros [Hs [[Hop _]|[-> _]]].
  - apply createNameScript_shape in Hs as [_ ->]; [|done]. rewrite push_chunks_app. cbn [app].
    eexists _, _. split; [reflexivity|]. destruct Hop as [-> | ->]; done.
  - revert Hs. unfold createNameScript. rewrite Z.eqb_refl. intros [= <-]. rewrite push_vch_app. cbn [app].
    eexists _, _. split; [reflexivity|]. done.
Qed.

(** The prefix is removed in front of a script that begins with a one-byte operation. *)
Lemma name_prefix_removed name value days op s r rest : name_prefix name value days op s ->
  CScript.GetOp2 be (r :: rest) 0 = (true, r, [], 1%nat) -> is_drop r = false ->
  RemoveNameScriptPrefix be (s ++ r :: rest) = Ok (Some (r :: rest)).
Proof.
  intros [Hs Hcase] Hr Hd. unfold RemoveNameScriptPrefix. destruct Hcase as [[Hop Hv]|[-> Hn]].
  - rewrite (DecodeNameScript_value be name value days op s (r :: rest) r [] 1 Hop Hv Hs Hr Hd).
    cbn [mbind result_bind mret result_ret]. by rewrite Nat.add_sub, drop_app_length.
  - rewrite (DecodeNameScript_delete be name value days s (r :: rest) Hn Hs). cbn [mbind result_bind mret result_ret]. by rewrite drop_app_length.
Qed.

Lemma Solver_named name value days op s r rest ty : name_prefix name value days op s ->
  CScript.GetOp2 be (r :: rest) 0 = (true, r, [], 1%nat) -> is_drop r = false ->
  Solver be (s ++ r :: rest) ty =
    let '(ret, ty, sols) := SolverInner be (r :: rest) TX_NONSTANDARD in
    if ret : bool then match name_type ty with Some ty => Ok (true, ty, sols) | None => Ok (false, TX_NONSTANDARD, sols) end
    else Ok (ret, ty, sols).
Proof.
  intros Hs Hr Hd. pose proof (name_prefix_removed _ _ _ _ _ _ _ Hs Hr Hd) as Hrm.
  destruct (name_prefix_head _ _ _ _ _ Hs) as (o & t & -> & Ho). unfold Solver.
  change ((o :: OP_DROP :: t) ++ r :: rest) with (o :: OP_DROP :: (t ++ r :: rest)) in *.
  by rewrite solve_name_prefix, Hrm.
Qed.
End named.

(** ** The round trip *)

(** An address with its hash of 20 bytes. *)
Definition dest_ok (d : CTxDestination) : Prop :=
  match d with CKeyID h | CScriptID h => length h = 20%nat | CNoDestination => False end.

Definition dest_type (d : CTxDestination) (named : bool) : txnouttype :=
  match d, named with
  | CKeyID _, false => TX_PUBKEYHASH
  | CKeyID _, true => TX_NAME_PUBKEYHASH
  | CScriptID _, false => TX_SCRIPTHASH
  | CScriptID _, true => TX_NAME_SCRIPTHASH
  | CNoDestination, _ => TX_NONSTANDARD
  end.

Definition dest_hash (d : CTxDestination) : list Z := match d with CKeyID h | CScriptID h => h | CNoDestination => [] end.

Lemma filter_valid keys : Forall pubkey_ok keys -> List.filter CPubKey.IsValid (map CPubKey.Set_ keys) = keys.
Proof. induction 1 as [|k keys [Hs Hv] Hkeys IH]; [done|]. cbn [map List.filter]. by rewrite Hs, Hv, IH. Qed.

Section roundtrip.
Context (be : bool) (Hash160 SHA256 : list Z -> list Z).

Lemma Solver_inner s ty ty' sols : SolverInner be s ty = (true, ty', sols) -> Solver be s ty = Ok (true, ty', sols).
Proof. intros E. unfold Solver. by rewrite E. Qed.

Lemma solve_dest d ty : dest_ok d -> SolverInner be (GetScriptForDestination be d) ty = (true, dest_type d false, [dest_hash d]).
Proof. destruct d as [|h|h]; [done|apply solve_keyhash|apply solve_scripthash]. Qed.

Lemma Solver_named_dest d name value days op s ty : dest_ok d -> name_prefix be name value days op s ->
  Solver be (s ++ GetScriptForDestination be d) ty = Ok (true, dest_type d true, [dest_hash d]).
Proof.
  intros Hd Hs. pose proof (solve_dest d TX_NONSTANDARD Hd) as E. revert E. destruct d as [|h|h]; [done|..];
    cbn [GetScriptForDestination]; rewrite push_vch_app; cbn [app]; intros E;
    by rewrite (Solver_named be name value days op s _ _ ty Hs), E by (reflexivity || by apply GetOp2_opcode).
Qed.

Lemma extract_dest s d named : dest_ok d -> Solver be s TX_NONSTANDARD = Ok (true, dest_type d named, [dest_hash d]) ->
  ExtractDestination be Hash160 s = Ok (Some d) /\
  ExtractDestinations be Hash160 s = Ok (Some (dest_type d named, [d], 1)).
Proof.
  intros Hd E. unfold ExtractDestinations, ExtractDestination. rewrite E. cbn [mbind result_bind negb head default].
  destruct d, named; try done.
Qed.

Lemma extract_pubkey k : pubkey_ok k -> ExtractDestination be Hash160 (GetScriptForRawPubKey be k) = Ok (Some (CKeyID (Hash160 k))).
Proof.
  intros Hk. unfold ExtractDestination. rewrite (Solver_inner _ _ _ _ (solve_pubkey be k _ Hk)).
  cbn [mbind result_bind negb head default from_option id]. pose proof (pubkey_ok_bytes k Hk) as Eb. destruct Hk as [-> Hv]. by rewrite Hv, Eb.
Qed.

Lemma extract_multisig m keys s : 1 <= m <= Z.of_nat (length keys) -> Z.of_nat (length keys) <= 16 ->
  Forall pubkey_ok keys -> GetScriptForMultisig be m keys = Some s ->
  ExtractDestinations be Hash160 s = Ok (Some (TX_MULTISIG, map (fun k => CKeyID (Hash160 k)) keys, m)).
Proof.
  intros Hm Hn Hk Hs.
  unfold ExtractDestinations. rewrite (Solver_inner _ _ _ _ (solve_multisig be m keys _ s Hm Hn Hk Hs)).
  cbn [mbind result_bind negb head default from_option id drop length option_bind]. rewrite length_app. cbn [length].
  replace (S (length keys + 1) - 2)%nat with (length keys) by lia. rewrite drop_0, take_app_length, filter_valid by done.
  rewrite <- (map_map CPubKey.bytes (fun k => CKeyID (Hash160 k))), pubkeys_ok_bytes by done. destruct keys; [cbn in Hm; lia|done].
Qed.

Lemma witness_program_of h : length h = 20%nat \/ length h = 32%nat ->
  Solver be (CScript.push_vch be [OP_0] h) TX_NONSTANDARD =
    Ok (true, if (length h =? 20)%nat then TX_WITNESS_V0_KEYHASH else TX_WITNESS_V0_SCRIPTHASH, [h]).
Proof. intros Hh. by apply Solver_inner, solve_witness. Qed.

(** The witness program a script is turned into. *)
Lemma witness_of_script s ty sols : Solver be s TX_NONSTANDARD = Ok (true, ty, sols) ->
  GetScriptForWitness be Hash160 SHA256 s = Ok (CScript.push_vch be [OP_0]
    (match ty with
     | TX_PUBKEY => Hash160 (default [] (head sols))
     | TX_PUBKEYHASH | TX_NAME_PUBKEYHASH => default [] (head sols)
     | _ => SHA256 s
     end)).
Proof. intros E. unfold GetScriptForWitness. rewrite E. cbn [mbind result_bind negb]. by destruct ty. Qed.
End roundtrip.

(** The functions that recognize output scripts invert the ones that build them.
    For an address of 20 bytes, [ExtractDestination] and [ExtractDestinations] return it
    from the script [GetScriptForDestination] builds, by itself and behind every name
    [createNameScript] makes (with the type that says so); from the script that pays to a
    valid public key they return its hash; from the m-of-n script of [GetScriptForMultisig]
    the hashes of all the keys and the number of signatures.  [GetScriptForWitness] turns
    the script of a key and the script of its hash into the same witness program of the key
    hash, and a script hash or a multisignature into the one of the script. *)
Theorem standard_scripts_roundtrip (be : bool) (Hash160 SHA256 : list Z -> list Z)
    (HH : forall v, length (Hash160 v) = 20%nat) (HS : forall v, length (SHA256 v) = 32%nat) :
  (forall d, dest_ok d ->
     ExtractDestination be Hash160 (GetScriptForDestination be d) = Ok (Some d) /\
     ExtractDestinations be Hash160 (GetScriptForDestination be d) = Ok (Some (dest_type d false, [d], 1))) /\
  (forall d name value days op s, dest_ok d -> name_prefix be name value days op s ->
     ExtractDestination be Hash160 (s ++ GetScriptForDestination be d) = Ok (Some d) /\
     ExtractDestinations be Hash160 (s ++ GetScriptForDestination be d) = Ok (Some (dest_type d true, [d], 1))) /\
  (forall k, pubkey_ok k ->
     ExtractDestination be Hash160 (GetScriptForRawPubKey be k) = Ok (Some (CKeyID (Hash160 k))) /\
     GetScriptForWitness be Hash160 SHA256 (GetScriptForRawPubKey be k) =
       GetScriptForWitness be Hash160 SHA256 (GetScriptForDestination be (CKeyID (Hash160 k))) /\
     exists w, GetScriptForWitness be Hash160 SHA256 (GetScriptForRawPubKey be k) = Ok w /\
       Solver be w TX_NONSTANDARD = Ok (true, TX_WITNESS_V0_KEYHASH, [Hash160 k])) /\
  (forall m keys s, 1 <= m <= Z.of_nat (length keys) -> Z.of_nat (length keys) <= 16 ->
     Forall pubkey_ok keys -> GetScriptForMultisig be m keys = Some s ->
     ExtractDestinations be Hash160 s = Ok (Some (TX_MULTISIG, map (fun k => CKeyID (Hash160 k)) keys, m)) /\
     exists w, GetScriptForWitness be Hash160 SHA256 s = Ok w /\
       Solver be w TX_NONSTANDARD = Ok (true, TX_WITNESS_V0_SCRIPTHASH, [SHA256 s])).
Proof.
  split_and!.
  - intros d Hd. by apply extract_dest, Solver_inner, solve_dest.
  - intros d name value days op s Hd Hs. eapply extract_dest, Solver_named_dest; done.
  - intros k Hk. pose proof (Solver_inner be _ _ _ _ (solve_pubkey be k TX_NONSTANDARD Hk)) as E1.
    pose proof (Solver_inner be _ _ _ _ (solve_keyhash be (Hash160 k) TX_NONSTANDARD (HH k))) as E2.
    pose proof (witness_of_script be Hash160 SHA256 _ _ _ E1) as W1. pose proof (witness_of_script be Hash160 SHA256 _ _ _ E2) as W2.
    split_and!; [by apply extract_pubkey|by rewrite W1, W2|]. eexists. split; [exact W1|]. cbn [head default from_option id].
    rewrite witness_program_of by (left; apply HH). by rewrite HH.
  - intros m keys s Hm Hn Hk Hs. split; [by apply extract_multisig|].
    pose proof (Solver_inner be _ _ _ _ (solve_multisig be m keys TX_NONSTANDARD s Hm Hn Hk Hs)) as E.
    eexists. split; [exact (witness_of_script be Hash160 SHA256 _ _ _ E)|]. cbn iota.
    rewrite witness_program_of by (right; apply HS). by rewrite HS.
Qed.

Lemma standard_scripts_roundtrip_witness :
  ExtractDestination false (fun _ => replicate 20 7) (sample_name_script ++ GetScriptForDestination false (CKeyID (replicate 20 5))) =
    Ok (Some (CKeyID (replicate 20 5))) /\
  ExtractDestinations false (fun _ => replicate 20 7)
    (default [] (GetScriptForMultisig false 2 [2 :: replicate 32 1; 3 :: replicate 32 9; 4 :: replicate 64 8])) =
    Ok (Some (TX_MULTISIG, replicate 3 (CKeyID (replicate 20 7)), 2)).
Proof.
  destruct (standard_scripts_roundtrip false (fun _ => replicate 20 7) (fun _ => replicate 32 7)) as (_ & H2 & _ & H4); [done|done|]. split.
  - refine (proj1 (H2 (CKeyID (replicate 20 5)) [100; 110; 115] (replicate 530 1) 100 OP_NAME_NEW sample_name_script eq_refl _)).
    split; [vm_compute; reflexivity|]. left. split; [by left|discriminate].
  - refine (proj1 (H4 2 [2 :: replicate 32 1; 3 :: replicate 32 9; 4 :: replicate 64 8] _ _ _ _ _)); [cbn; lia|cbn; lia| |vm_compute; reflexivity].
    repeat apply Forall_cons_2; try apply Forall_nil_2; (split; reflexivity).
Defined.
