(* ===== verification/Coins.v ===== *)
(** * Coins: the set of unspent outputs and its caches

    Models [src/src/coins.h] and [coins.cpp] (and the database view of [txdb.cpp]).
    [CCoins] is what is left of a transaction.  A view is an instance of the class
    [CoinsView]; its operations take and return the state, because even the [const]
    ones fill caches.  [CCoinsViewCache] is a view over any other view, so views can
    be stacked.  A backing view belongs to the one cache above it.  The promise of a
    view to its clients is the class [CoinsViewLaws]: it behaves as a map from
    transaction ids to coins, up to entries whose outputs are all spent. *)
From stdpp Require Import gmap.
From S2P Require Import Prelude Uint256 Serialize Amount Transaction Script.

Inductive coins_fault : Set :=
| coins_assertion    (** a failed [assert] *)
| coins_logic_error. (** [std::logic_error] *)

(** ** [CCoins] *)

#[export] Instance txout_eq_dec : EqDecision CTxOut.t.
Proof. solve_decision. Defined.

Module CCoins.

Record t : Type := mk {
  fCoinBase : bool;
  vout : list CTxOut.t;
  nHeight : Z;
  nVersion : Z;
  fCoinStake : bool;
  nTime : Z;
}.

Definition empty : t := mk false [] 0 0 false 0.

Definition set_vout (c : t) (v : list CTxOut.t) : t :=
  mk (fCoinBase c) v (nHeight c) (nVersion c) (fCoinStake c) (nTime c).

(** [Clear] leaves [fCoinStake] and [nTime] as they are. *)
Definition Clear (c : t) : t := mk false [] 0 0 (fCoinStake c) (nTime c).

(** The loop of [Cleanup]: one round per output at most. *)
Fixpoint Cleanup_loop (fuel : nat) (v : list CTxOut.t) : list CTxOut.t :=
  match fuel with
  | O => v
  | S fuel' =>
      match last v with
      | Some o => if CTxOut.IsNull o then Cleanup_loop fuel' (removelast v) else v
      | None => v
      end
  end.
Definition Cleanup (c : t) : t := set_vout c (Cleanup_loop (length (vout c)) (vout c)).

Definition ClearUnspendable (c : t) : t :=
  Cleanup (set_vout c (map (fun o => if CScript.IsUnspendable (CTxOut.scriptPubKey o)
                                     then CTxOut.null else o) (vout c))).

Definition FromTx (be : bool) (tx : CTransaction) (nHeightIn : Z) : t :=
  ClearUnspendable (mk (IsCoinBase be tx) (Transaction.vout tx) nHeightIn
                       (Transaction.nVersion tx) (IsCoinStake be tx) (Transaction.nTime tx)).

Definition IsPruned (c : t) : bool := forallb CTxOut.IsNull (vout c).

Definition IsAvailable (c : t) (nPos : Z) : bool :=
  (nPos <? Z.of_nat (length (vout c)))
  && match vout c !! Z.to_nat nPos with Some o => negb (CTxOut.IsNull o) | None => false end.

(** [Spend]: whether it was spent, and the coins afterwards. *)
Definition Spend (c : t) (nPos : Z) : bool * t :=
  if (nPos >=? Z.of_nat (length (vout c)))
     || match vout c !! Z.to_nat nPos with Some o => CTxOut.IsNull o | None => true end
  then (false, c)
  else (true, Cleanup (set_vout c (<[Z.to_nat nPos := CTxOut.null]> (vout c)))).

Definition op_eq (a b : t) : bool :=
  if IsPruned a && IsPruned b then true
  else Bool.eqb (fCoinBase a) (fCoinBase b) && (nHeight a =? nHeight b)
       && (nVersion a =? nVersion b) && bool_decide (vout a = vout b)
       && Bool.eqb (fCoinStake a) (fCoinStake b) && (nTime a =? nTime b).

(** [CalcMaskSize]: byte [b] of the mask stands for outputs [2+8b .. 2+8b+7]. *)
Definition mask_byte_used (v : list CTxOut.t) (b : nat) : bool :=
  existsb (fun o => negb (CTxOut.IsNull o)) (take 8 (drop (2 + b * 8) v)).

Fixpoint CalcMaskSize_loop (fuel : nat) (v : list CTxOut.t) (b nLastUsedByte nNonzeroBytes : nat)
    : nat * nat :=
  match fuel with
  | O => (nLastUsedByte, nNonzeroBytes)
  | S fuel' =>
      if (2 + b * 8 <? length v)%nat then
        if mask_byte_used v b then CalcMaskSize_loop fuel' v (S b) (S b) (S nNonzeroBytes)
        else CalcMaskSize_loop fuel' v (S b) nLastUsedByte nNonzeroBytes
      else (nLastUsedByte, nNonzeroBytes)
  end.
Definition CalcMaskSize (c : t) : nat * nat := CalcMaskSize_loop (length (vout c)) (vout c) 0 0 0.

End CCoins.

#[export] Instance coins_eq_dec : EqDecision CCoins.t.
Proof. solve_decision. Defined.

(** ** Cache entries *)

Definition DIRTY : Z := Z.shiftl 1 0.
Definition FRESH : Z := Z.shiftl 1 1.

Record CCoinsCacheEntry : Type := mk_entry { coins : CCoins.t; flags : Z }.

Definition new_entry : CCoinsCacheEntry := mk_entry CCoins.empty 0.
Definition is_dirty (e : CCoinsCacheEntry) : bool := flag_set (flags e) DIRTY.
Definition is_fresh (e : CCoinsCacheEntry) : bool := flag_set (flags e) FRESH.

Abbreviation CCoinsMap := (gmap (list Z) CCoinsCacheEntry).

(** ** Views *)

Class CoinsView (V : Type) : Type := {
  GetCoins : V -> list Z -> V * option CCoins.t;
  HaveCoins : V -> list Z -> V * bool;
  GetBestBlock : V -> V * list Z;
  BatchWrite : V -> CCoinsMap -> list Z -> result coins_fault (V * bool);
}.

(** The class [CCoinsView] itself: a view of nothing. *)
#[export] Instance CCoinsView_base : CoinsView unit := {
  GetCoins v _ := (v, None);
  HaveCoins v _ := (v, false);
  GetBestBlock v := (v, SetNull 32);
  BatchWrite v _ _ := Ok (v, false);
}.

(** [CCoinsViewBacked] passes every call to its base. *)
Record CCoinsViewBacked (V : Type) : Type := { backed_base : V }.
Arguments backed_base {V}.

#[export] Instance CCoinsViewBacked_view {V} `{CoinsView V} : CoinsView (CCoinsViewBacked V) := {
  GetCoins v txid := let '(b, r) := GetCoins (backed_base v) txid in ({| backed_base := b |}, r);
  HaveCoins v txid := let '(b, r) := HaveCoins (backed_base v) txid in ({| backed_base := b |}, r);
  GetBestBlock v := let '(b, r) := GetBestBlock (backed_base v) in ({| backed_base := b |}, r);
  BatchWrite v m h := '(b, r) ← BatchWrite (backed_base v) m h; mret ({| backed_base := b |}, r);
}.

(** [CCoinsViewDB]: the records of the key-value store. *)
Record CCoinsViewDB : Type := {
  db_coins : gmap (list Z) CCoins.t;
  db_best : option (list Z);
}.

(** One entry of the batch that [CCoinsViewDB::BatchWrite] builds. *)
Definition db_write_entry (kv : list Z * CCoinsCacheEntry) (m : gmap (list Z) CCoins.t)
    : gmap (list Z) CCoins.t :=
  if is_dirty kv.2 then
    if CCoins.IsPruned (coins kv.2) then delete kv.1 m else <[kv.1 := coins kv.2]> m
  else m.

Definition DB_BatchWrite (be : bool) (v : CCoinsViewDB) (m : CCoinsMap) (hashBlock : list Z)
    : CCoinsViewDB :=
  {| db_coins := foldl (fun acc kv => db_write_entry kv acc) (db_coins v) (map_to_list m);
     db_best := if Uint256.IsNull be 32 hashBlock then db_best v else Some hashBlock |}.

Section views.
Variable be : bool.
(** The heap memory a [CCoins] occupies; it depends on the capacity of its vectors
    and on the allocator. *)
Variable DynamicMemoryUsage : CCoins.t -> Z.

#[local] Instance CCoinsViewDB_view : CoinsView CCoinsViewDB := {
  GetCoins v txid := (v, db_coins v !! txid);
  HaveCoins v txid := (v, bool_decide (is_Some (db_coins v !! txid)));
  GetBestBlock v := (v, default (SetNull 32) (db_best v));
  BatchWrite v m h := Ok (DB_BatchWrite be v m h, true);
}.

(** ** [CCoinsViewCache] *)

Definition randpaytx : list Z := replicate 32 0xEC.

Record CCoinsViewCache (V : Type) : Type := mk_cache {
  base : V;
  hasModifier : bool;
  hashBlock : list Z;
  cacheCoins : CCoinsMap;
  cachedCoinsUsage : Z;
}.
Arguments mk_cache {V}.
Arguments base {V}.
Arguments hasModifier {V}.
Arguments hashBlock {V}.
Arguments cacheCoins {V}.
Arguments cachedCoinsUsage {V}.

Section cache.
Context {V : Type} `{CoinsView V}.
#[local] Abbreviation cache := (CCoinsViewCache V).

(** The constructor: the unlimited zero-value output is always present. *)
Definition randpay_coins : CCoins.t :=
  CCoins.mk false [CTxOut.mk 0 []] 0 1 false 0.

Definition new_cache (baseIn : V) : cache :=
  mk_cache baseIn false (SetNull 32) {[ randpaytx := mk_entry randpay_coins DIRTY ]} 0.

Definition set_base (c : cache) (b : V) : cache :=
  mk_cache b (hasModifier c) (hashBlock c) (cacheCoins c) (cachedCoinsUsage c).
Definition set_entries (c : cache) (m : CCoinsMap) (usage : Z) : cache :=
  mk_cache (base c) (hasModifier c) (hashBlock c) m (u64 usage).

Definition FetchCoins (c : cache) (txid : list Z) : cache * option CCoinsCacheEntry :=
  match cacheCoins c !! txid with
  | Some e => (c, Some e)
  | None =>
      let '(b, r) := GetCoins (base c) txid in
      let c := set_base c b in
      match r with
      | None => (c, None)
      | Some tmp =>
          let e := mk_entry tmp (if CCoins.IsPruned tmp then FRESH else 0) in
          (set_entries c (<[txid := e]> (cacheCoins c)) (cachedCoinsUsage c + DynamicMemoryUsage tmp), Some e)
      end
  end.

Definition cache_GetCoins (c : cache) (txid : list Z) : cache * option CCoins.t :=
  let '(c, it) := FetchCoins c txid in (c, coins <$> it).

Definition AccessCoins (c : cache) (txid : list Z) : cache * option CCoins.t :=
  let '(c, it) := FetchCoins c txid in (c, coins <$> it).

Definition cache_HaveCoins (c : cache) (txid : list Z) : cache * bool :=
  let '(c, it) := FetchCoins c txid in
  (c, match it with
      | Some e => match CCoins.vout (coins e) with [] => false | _ => true end
      | None => false
      end).

Definition HaveCoinsInCache (c : cache) (txid : list Z) : bool :=
  match cacheCoins c !! txid with Some _ => true | None => false end.

Definition cache_GetBestBlock (c : cache) : cache * list Z :=
  if Uint256.IsNull be 32 (hashBlock c) then
    let '(b, h) := GetBestBlock (base c) in
    (mk_cache b (hasModifier c) h (cacheCoins c) (cachedCoinsUsage c), h)
  else (c, hashBlock c).

Definition SetBestBlock (c : cache) (hashBlockIn : list Z) : cache :=
  mk_cache (base c) (hasModifier c) hashBlockIn (cacheCoins c) (cachedCoinsUsage c).

(** A modifier: the entry it refers to and the usage of the coins before. *)
Record CCoinsModifier : Type := { it : list Z; cachedCoinUsage : Z }.

Definition new_modifier (c : cache) (txid : list Z) (usage : Z)
    : result coins_fault (cache * CCoinsModifier) :=
  if hasModifier c then Err coins_assertion
  else Ok (mk_cache (base c) true (hashBlock c) (cacheCoins c) (cachedCoinsUsage c),
           {| it := txid; cachedCoinUsage := usage |}).

Definition ModifyCoins (c : cache) (txid : list Z) : result coins_fault (cache * CCoinsModifier) :=
  if hasModifier c then Err coins_assertion
  else
    let '(c, e, usage) :=
      match cacheCoins c !! txid with
      | None =>
          let '(b, r) := GetCoins (base c) txid in
          let e := match r with
                   | None => mk_entry (CCoins.Clear CCoins.empty) FRESH
                   | Some x => mk_entry x (if CCoins.IsPruned x then FRESH else 0)
                   end in
          (set_base c b, e, 0)
      | Some e => (c, e, DynamicMemoryUsage (coins e))
      end in
    let e := mk_entry (coins e) (Z.lor (flags e) DIRTY) in
    new_modifier (mk_cache (base c) (hasModifier c) (hashBlock c) (<[txid := e]> (cacheCoins c))
                    (cachedCoinsUsage c)) txid usage.

Definition ModifyNewCoins (c : cache) (txid : list Z) (coinbase : bool)
    : result coins_fault (cache * CCoinsModifier) :=
  if hasModifier c then Err coins_assertion
  else
    let e := default new_entry (cacheCoins c !! txid) in
    if negb coinbase && negb (CCoins.IsPruned (coins e)) then Err coins_logic_error
    else
      let f := if negb coinbase && negb (is_dirty e) then Z.lor (flags e) FRESH else flags e in
      let e := mk_entry (CCoins.Clear (coins e)) (Z.lor f DIRTY) in
      new_modifier (mk_cache (base c) (hasModifier c) (hashBlock c) (<[txid := e]> (cacheCoins c))
                      (cachedCoinsUsage c)) txid 0.

(** A write through the modifier. *)
Definition modify (c : cache) (m : CCoinsModifier) (f : CCoins.t -> CCoins.t) : cache :=
  mk_cache (base c) (hasModifier c) (hashBlock c)
    (alter (fun e => mk_entry (f (coins e)) (flags e)) (it m) (cacheCoins c)) (cachedCoinsUsage c).

(** [~CCoinsModifier] *)
Definition end_modifier (c : cache) (m : CCoinsModifier) : result coins_fault cache :=
  if negb (hasModifier c) then Err coins_assertion
  else match cacheCoins c !! it m with
  | None => Err coins_assertion
  | Some e =>
      let e := mk_entry (CCoins.Cleanup (coins e)) (flags e) in
      let usage := u64 (cachedCoinsUsage c - cachedCoinUsage m) in
      Ok (if is_fresh e && CCoins.IsPruned (coins e)
          then mk_cache (base c) false (hashBlock c) (delete (it m) (cacheCoins c)) usage
          else mk_cache (base c) false (hashBlock c) (<[it m := e]> (cacheCoins c))
                 (u64 (usage + DynamicMemoryUsage (coins e))))
  end.

(** One entry of [CCoinsViewCache::BatchWrite]. *)
Definition cache_write_entry (c : cache) (kv : list Z * CCoinsCacheEntry) : result coins_fault cache :=
  let '(k, e) := kv in
  if is_dirty e then
    match cacheCoins c !! k with
    | None =>
        if negb (is_fresh e && CCoins.IsPruned (coins e)) then
          let entry := mk_entry (coins e) (if is_fresh e then Z.lor DIRTY FRESH else DIRTY) in
          Ok (set_entries c (<[k := entry]> (cacheCoins c))
                (cachedCoinsUsage c + DynamicMemoryUsage (coins e)))
        else Ok c
    | Some us =>
        if is_fresh e && negb (CCoins.IsPruned (coins us)) then Err coins_logic_error
        else if is_fresh us && CCoins.IsPruned (coins e) then
          Ok (set_entries c (delete k (cacheCoins c))
                (cachedCoinsUsage c - DynamicMemoryUsage (coins us)))
        else
          Ok (set_entries c (<[k := mk_entry (coins e) (Z.lor (flags us) DIRTY)]> (cacheCoins c))
                (u64 (cachedCoinsUsage c - DynamicMemoryUsage (coins us)) + DynamicMemoryUsage (coins e)))
    end
  else Ok c.

Fixpoint cache_write_entries (c : cache) (l : list (list Z * CCoinsCacheEntry)) : result coins_fault cache :=
  match l with
  | [] => Ok c
  | kv :: l' => c ← cache_write_entry c kv; cache_write_entries c l'
  end.

(** The iteration order of the hash map is not specified; this is one of them. *)
Definition cache_BatchWrite (c : cache) (mapCoins : CCoinsMap) (hashBlockIn : list Z)
    : result coins_fault (cache * bool) :=
  if hasModifier c then Err coins_assertion
  else c ← cache_write_entries c (map_to_list mapCoins); mret (SetBestBlock c hashBlockIn, true).

Definition Flush (c : cache) : result coins_fault (cache * bool) :=
  '(b, fOk) ← BatchWrite (base c) (cacheCoins c) (hashBlock c);
  mret (mk_cache b (hasModifier c) (hashBlock c) ∅ 0, fOk).

Definition Uncache (c : cache) (hash : list Z) : cache :=
  match cacheCoins c !! hash with
  | Some e =>
      if flags e =? 0 then
        set_entries c (delete hash (cacheCoins c)) (cachedCoinsUsage c - DynamicMemoryUsage (coins e))
      else c
  | None => c
  end.

Definition GetCacheSize (c : cache) : Z := u32 (Z.of_nat (size (cacheCoins c))).

Definition GetOutputFor (c : cache) (input : CTxIn.t) : result coins_fault (cache * (CTxOut.t * Z)) :=
  let '(c, r) := AccessCoins c (COutPoint.hash (CTxIn.prevout input)) in
  match r with
  | Some x =>
      if CCoins.IsAvailable x (COutPoint.n (CTxIn.prevout input)) then
        match CCoins.vout x !! Z.to_nat (COutPoint.n (CTxIn.prevout input)) with
        | Some o => Ok (c, (o, CCoins.nVersion x))
        | None => Err coins_assertion
        end
      else Err coins_assertion
  | None => Err coins_assertion
  end.

Fixpoint GetValueIn_loop (c : cache) (ins : list CTxIn.t) (nResult : Z) : result coins_fault (cache * Z) :=
  match ins with
  | [] => Ok (c, nResult)
  | i :: ins' =>
      '(c, o) ← GetOutputFor c i;
      GetValueIn_loop c ins' (i64 (nResult + CTxOut.nValue o.1))
  end.
Definition GetValueIn (c : cache) (tx : CTransaction) : result coins_fault (cache * Z) :=
  if IsCoinBase be tx then Ok (c, 0) else GetValueIn_loop c (vin tx) 0.

Fixpoint HaveInputs_loop (c : cache) (ins : list CTxIn.t) : cache * bool :=
  match ins with
  | [] => (c, true)
  | i :: ins' =>
      let '(c, r) := AccessCoins c (COutPoint.hash (CTxIn.prevout i)) in
      match r with
      | Some x => if CCoins.IsAvailable x (COutPoint.n (CTxIn.prevout i)) then HaveInputs_loop c ins'
                  else (c, false)
      | None => (c, false)
      end
  end.
Definition HaveInputs (c : cache) (tx : CTransaction) : cache * bool :=
  if IsCoinBase be tx then (c, true) else HaveInputs_loop c (vin tx).

#[local] Instance CCoinsViewCache_view : CoinsView cache := {
  GetCoins := cache_GetCoins;
  HaveCoins := cache_HaveCoins;
  GetBestBlock := cache_GetBestBlock;
  BatchWrite := cache_BatchWrite;
}.

End cache.
End views.

Arguments mk_cache {V}.
Arguments base {V}.
Arguments hasModifier {V}.
Arguments hashBlock {V}.
Arguments cacheCoins {V}.
Arguments cachedCoinsUsage {V}.

(** ** Spent outputs *)

Section cleanup.
#[local] Abbreviation clean v := (CCoins.Cleanup_loop (length v) v).

Lemma clean_snoc v o : clean (v ++ [o]) = if CTxOut.IsNull o then clean v else v ++ [o].
Proof.
  rewrite length_app, Nat.add_1_r. cbn [CCoins.Cleanup_loop]. rewrite last_snoc.
  destruct (CTxOut.IsNull o); [|done]. by rewrite removelast_last.
Qed.

(** [Cleanup] drops exactly the spent outputs at the end. *)
Lemma clean_spec v : exists l, v = clean v ++ l /\ forallb CTxOut.IsNull l = true /\
  match last (clean v) with Some o => CTxOut.IsNull o = false | None => True end.
Proof.
  induction v as [|o v IH] using rev_ind; [by exists []|]. rewrite clean_snoc.
  destruct (CTxOut.IsNull o) eqn:Eo.
  - destruct IH as (l & Ev & Hl & Hlast). exists (l ++ [o]). rewrite app_assoc, <- Ev.
    split_and!; [done| |done]. rewrite forallb_app, Hl. cbn. by rewrite Eo.
  - exists []. rewrite app_nil_r, last_snoc. done.
Qed.

Lemma clean_id v : match last v with Some o => CTxOut.IsNull o = false | None => True end -> clean v = v.
Proof.
  destruct v as [|o v _] using rev_ind; [done|]. rewrite last_snoc, clean_snoc. by intros ->.
Qed.

Lemma clean_idem v : clean (clean v) = clean v.
Proof. apply clean_id. destruct (clean_spec v) as (l & _ & _ & Hl). done. Qed.

Lemma clean_pruned v : forallb CTxOut.IsNull (clean v) = forallb CTxOut.IsNull v.
Proof.
  destruct (clean_spec v) as (l & Ev & Hl & _). rewrite Ev at 3. by rewrite forallb_app, Hl, andb_true_r.
Qed.

Lemma clean_all_null v : forallb CTxOut.IsNull v = true -> clean v = [].
Proof.
  intros Hv. destruct (clean_spec v) as (l & Ev & Hl & Hlast).
  destruct (clean v) as [|o w _] using rev_ind; [done|]. rewrite last_snoc in Hlast.
  rewrite Ev, !forallb_app in Hv. cbn in Hv. by rewrite Hlast, !andb_false_r in Hv.
Qed.
End cleanup.

Lemma Cleanup_pruned c : CCoins.IsPruned (CCoins.Cleanup c) = CCoins.IsPruned c.
Proof. apply clean_pruned. Qed.

Lemma Clear_pruned c : CCoins.IsPruned (CCoins.Clear c) = true.
Proof. done. Qed.

(** ** What a view promises *)

(** Coins whose outputs are all spent count as absent. *)
Definition norm (r : option CCoins.t) : option CCoins.t :=
  match r with
  | Some c => if CCoins.IsPruned c then None else Some c
  | None => None
  end.

Definition apply_entry (e : CCoinsCacheEntry) (old : option CCoins.t) : option CCoins.t :=
  if is_dirty e then norm (Some (coins e)) else old.

Definition block_hash (h : list Z) : Prop := blob_wf 32 h /\ h <> SetNull 32.

Class CoinsViewLaws (V : Type) {cv : CoinsView V} : Type := {
  view_inv : V -> Prop;
  view : V -> list Z -> option CCoins.t;
  best : V -> list Z;
  GetCoins_law v k : view_inv v -> exists v', GetCoins v k = (v', view v k) /\
    view_inv v' /\ (forall k', view v' k' = view v k') /\ best v' = best v;
  HaveCoins_law v k : view_inv v -> exists v' r, HaveCoins v k = (v', r) /\
    view_inv v' /\ (forall k', view v' k' = view v k') /\ best v' = best v /\
    (norm (view v k) <> None -> r = true) /\ (view v k = None -> r = false);
  GetBestBlock_law v : view_inv v -> exists v', GetBestBlock v = (v', best v) /\
    view_inv v' /\ (forall k', view v' k' = view v k') /\ best v' = best v;
  BatchWrite_law v m h : view_inv v -> block_hash h ->
    (forall k e, m !! k = Some e -> is_dirty e = true -> is_fresh e = true -> norm (view v k) = None) ->
    exists v', BatchWrite v m h = Ok (v', true) /\ view_inv v' /\ best v' = h /\
    forall k, norm (view v' k) =
      match m !! k with Some e => apply_entry e (norm (view v k)) | None => norm (view v k) end;
}.
#[global] Hint Mode CoinsViewLaws ! - : typeclass_instances.

(** The unspent outputs a view stands for. *)
Definition utxo {V} `{CoinsViewLaws V} (v : V) (k : list Z) : option CCoins.t := norm (view v k).

Lemma block_hash_IsNull be h : block_hash h -> Uint256.IsNull be 32 h = false.
Proof.
  intros [Hw Hn]. destruct (Uint256.IsNull be 32 h) eqn:E; [|done]. exfalso. apply Hn.
  apply (IsNull_spec be 32 h Hw) in E. apply all_zero_SetNull; [apply Hw|done].
Qed.

Lemma flag_dirty f : flag_set (Z.lor f DIRTY) DIRTY = true.
Proof.
  unfold flag_set. destruct (Z.eqb_spec (Z.land (Z.lor f DIRTY) DIRTY) 0) as [E|]; [|done].
  rewrite Z.land_lor_distr_l in E. apply Z.lor_eq_0_iff in E as [_ E]. discriminate E.
Qed.
Lemma flag_fresh_dirty f : flag_set (Z.lor f DIRTY) FRESH = flag_set f FRESH.
Proof.
  unfold flag_set. rewrite Z.land_lor_distr_l. change (Z.land DIRTY FRESH) with 0. by rewrite Z.lor_0_r.
Qed.
Lemma flag_dirty_fresh f : flag_set (Z.lor f FRESH) DIRTY = flag_set f DIRTY.
Proof.
  unfold flag_set. rewrite Z.land_lor_distr_l. change (Z.land FRESH DIRTY) with 0. by rewrite Z.lor_0_r.
Qed.

(** ** The database is a lawful view *)

Section db.
Variable be : bool.
#[local] Existing Instance CCoinsViewDB_view.

Lemma db_write_entries m l k : NoDup l.*1 ->
  foldl (fun acc kv => db_write_entry kv acc) m l !! k =
  match list_to_map (M := gmap (list Z) CCoinsCacheEntry) l !! k with
  | Some e => if is_dirty e then norm (Some (coins e)) else m !! k
  | None => m !! k
  end.
Proof.
  revert m. induction l as [|[k' e] l IH]; intros m Hnd; [done|].
  cbn [foldl fst fmap list_fmap] in *. apply NoDup_cons in Hnd as [Hk Hnd].
  rewrite IH by done. change (list_to_map ((k', e) :: l)) with (<[k' := e]> (list_to_map (M := CCoinsMap) l)).
  unfold db_write_entry. cbn [fst snd].
  destruct (decide (k = k')) as [->|Hne].
  - rewrite lookup_insert_eq, not_elem_of_list_to_map_1 by done.
    destruct (is_dirty e); [|done]. cbn [norm].
    destruct (CCoins.IsPruned _); [apply lookup_delete_eq|apply lookup_insert_eq].
  - rewrite lookup_insert_ne by done. destruct (is_dirty e); [|done].
    destruct (CCoins.IsPruned _); [rewrite lookup_delete_ne|rewrite lookup_insert_ne]; done.
Qed.

#[local] Program Instance db_lawful : CoinsViewLaws CCoinsViewDB (cv := CCoinsViewDB_view be) := {
  view_inv v := True;
  view v k := db_coins v !! k;
  best v := default (SetNull 32) (db_best v);
}.
Next Obligation. intros. by eexists. Qed.
Next Obligation.
  intros v k _. do 2 eexists. split; [done|]. split_and!; [done..| |].
  - intros Hn. apply bool_decide_eq_true. destruct (db_coins v !! k); [by eexists|done].
  - intros ->. by apply bool_decide_eq_false, is_Some_None.
Qed.
Next Obligation. intros. by eexists. Qed.
Next Obligation.
  intros v m h _ Hh _. eexists. split; [done|]. split_and!; [done| |].
  - cbn -[Uint256.IsNull]. by rewrite block_hash_IsNull.
  - intros k. cbn. rewrite db_write_entries by apply NoDup_fst_map_to_list.
    rewrite list_to_map_to_list. destruct (m !! k) as [e|]; [|done]. unfold apply_entry.
    destruct (is_dirty e); [|done]. cbn. by destruct (CCoins.IsPruned (coins e)) eqn:E; cbn; rewrite ?E.
Qed.
End db.

(** ** A cache over a lawful view *)

Ltac ccbn := cbn [base hasModifier hashBlock cacheCoins cachedCoinsUsage set_base set_entries SetBestBlock
  coins flags norm fmap option_fmap option_map].

Section cache_laws.
Context (be : bool) (DynamicMemoryUsage : CCoins.t -> Z).
Context {V : Type} `{CoinsViewLaws V}.
#[local] Abbreviation cache := (CCoinsViewCache V).

(** A fresh entry is one the base does not have; an entry that is not dirty agrees
    with the base. *)
Definition entry_ok (b : V) (k : list Z) (e : CCoinsCacheEntry) : Prop :=
  (is_fresh e = true -> utxo b k = None) /\
  (is_dirty e = false -> norm (Some (coins e)) = utxo b k).

Definition entries_ok (c : cache) : Prop :=
  view_inv (base c) /\ map_Forall (entry_ok (base c)) (cacheCoins c).

(** Between operations there is no modifier. *)
Definition cache_inv (c : cache) : Prop := entries_ok c /\ hasModifier c = false.

Definition cache_view (c : cache) (k : list Z) : option CCoins.t :=
  match cacheCoins c !! k with Some e => Some (coins e) | None => view (base c) k end.

Definition cache_best (c : cache) : list Z :=
  if Uint256.IsNull be 32 (hashBlock c) then best (base c) else hashBlock c.

Lemma entry_ok_base b b' k e : (forall k', view b' k' = view b k') -> entry_ok b k e -> entry_ok b' k e.
Proof. unfold entry_ok, utxo. by intros ->. Qed.

(** Filling the cache from the base changes nothing. *)
Lemma FetchCoins_spec c k : entries_ok c ->
  exists c', FetchCoins DynamicMemoryUsage c k = (c', cacheCoins c' !! k) /\ entries_ok c' /\
    hasModifier c' = hasModifier c /\ (forall k', cache_view c' k' = cache_view c k') /\
    cache_best c' = cache_best c /\ (coins <$> cacheCoins c' !! k) = cache_view c k.
Proof.
  intros [Hb Hm]. unfold FetchCoins, cache_view. destruct (cacheCoins c !! k) as [e|] eqn:Ek.
  { exists c. rewrite Ek. done. }
  destruct (GetCoins_law (base c) k Hb) as (b' & -> & Hb' & Hv & Hbest).
  assert (map_Forall (entry_ok b') (cacheCoins c)) as Hm'
    by (intros k' e' He; apply (entry_ok_base (base c)), Hm; done).
  destruct (view (base c) k) as [tmp|] eqn:Ev.
  - match goal with |- exists _, (?c', _) = _ /\ _ => exists c' end.
    split; [ccbn; by rewrite lookup_insert_eq|]. split_and!; ccbn.
    + split; [done|]. apply map_Forall_insert_2; [|done]. split; unfold utxo; rewrite Hv, Ev; ccbn.
      * by destruct (CCoins.IsPruned tmp).
      * by destruct (CCoins.IsPruned tmp).
    + done.
    + intros k'. destruct (decide (k' = k)) as [->|Hne].
      * by rewrite lookup_insert_eq, Ek, Ev.
      * rewrite lookup_insert_ne by done. by rewrite Hv.
    + unfold cache_best. ccbn. by rewrite Hbest.
    + by rewrite lookup_insert_eq.
  - exists (set_base c b'). ccbn. rewrite Ek. split_and!; try done.
    + intros k'. by rewrite Hv.
    + unfold cache_best. ccbn. by rewrite Hbest.
Qed.

(** Writing one entry of a child's map. *)
Lemma cache_write_entry_spec c k e : entries_ok c ->
  (is_dirty e = true -> is_fresh e = true -> norm (cache_view c k) = None) ->
  exists c', cache_write_entry DynamicMemoryUsage c (k, e) = Ok c' /\ entries_ok c' /\
    base c' = base c /\ hasModifier c' = hasModifier c /\ hashBlock c' = hashBlock c /\
    (forall k', k' <> k -> cacheCoins c' !! k' = cacheCoins c !! k') /\
    norm (cache_view c' k) = apply_entry e (norm (cache_view c k)).
Proof.
  intros [Hb Hm] Hf. unfold cache_write_entry, apply_entry, cache_view in *.
  destruct (is_dirty e) eqn:Ed; [|by exists c]. specialize (Hf eq_refl).
  destruct (cacheCoins c !! k) as [us|] eqn:Ek.
  - pose proof (Hm k us Ek) as [Hus1 Hus2]. cbn [norm] in Hf.
    replace (is_fresh e && negb (CCoins.IsPruned (coins us))) with false.
    2:{ destruct (is_fresh e); [|done]. specialize (Hf eq_refl). by destruct (CCoins.IsPruned (coins us)). }
    destruct (is_fresh us && CCoins.IsPruned (coins e)) eqn:E.
    + apply andb_prop in E as [E1 E2]. eexists. split; [done|]. split_and!; ccbn; try done.
      * split; [done|]. by apply map_Forall_delete.
      * intros k' Hne. by rewrite lookup_delete_ne.
      * rewrite lookup_delete_eq, E2. by apply Hus1.
    + eexists. split; [done|]. split_and!; ccbn; try done.
      * split; [done|]. apply map_Forall_insert_2; [|done]. split; unfold is_fresh, is_dirty; cbn [flags coins].
        -- rewrite flag_fresh_dirty. apply Hus1.
        -- by rewrite flag_dirty.
      * intros k' Hne. by rewrite lookup_insert_ne.
      * by rewrite lookup_insert_eq.
  - destruct (is_fresh e && CCoins.IsPruned (coins e)) eqn:E; cbn [negb].
    + apply andb_prop in E as [E1 E2]. exists c. split_and!; try done. rewrite Ek. ccbn. rewrite E2. by apply Hf.
    + eexists. split; [done|]. split_and!; ccbn; try done.
      * split; [done|]. apply map_Forall_insert_2; [|done]. unfold is_fresh, is_dirty. split; cbn [flags coins].
        -- intros Hfr. apply Hf. unfold is_fresh; by destruct (flag_set (flags e) FRESH).
        -- by destruct (flag_set (flags e) FRESH).
      * intros k' Hne. by rewrite lookup_insert_ne.
      * by rewrite lookup_insert_eq.
Qed.

Lemma cache_write_entries_spec l c : NoDup l.*1 -> entries_ok c ->
  (forall k e, (k, e) ∈ l -> is_dirty e = true -> is_fresh e = true -> norm (cache_view c k) = None) ->
  exists c', cache_write_entries DynamicMemoryUsage c l = Ok c' /\ entries_ok c' /\
    base c' = base c /\ hasModifier c' = hasModifier c /\ hashBlock c' = hashBlock c /\
    forall k, norm (cache_view c' k) =
      match list_to_map (M := CCoinsMap) l !! k with
      | Some e => apply_entry e (norm (cache_view c k))
      | None => norm (cache_view c k)
      end.
Proof.
  revert c. induction l as [|[k e] l IH]; intros c Hnd Hok Hf; [by exists c|].
  cbn [fmap list_fmap fst] in Hnd. apply NoDup_cons in Hnd as [Hk Hnd].
  destruct (cache_write_entry_spec c k e Hok) as (c1 & E1 & Hok1 & B1 & M1 & H1 & Ho & Hn).
  { apply Hf. by left. }
  assert (forall k', k' <> k -> cache_view c1 k' = cache_view c k') as Hview.
  { intros k' Hne. unfold cache_view. by rewrite Ho, B1. }
  destruct (IH c1 Hnd Hok1) as (c2 & E2 & Hok2 & B2 & M2 & H2 & Hn2).
  { intros k' e' Hin. assert (k' <> k) by (intros ->; apply Hk, (list_elem_of_fmap_2 fst _ _ Hin)).
    rewrite Hview by done. apply Hf. by right. }
  exists c2. cbn [cache_write_entries]. rewrite E1. cbn [mbind result_bind].
  split_and!; [done|done|congruence|congruence|congruence|]. intros k'. rewrite Hn2.
  change (list_to_map ((k, e) :: l)) with (<[k := e]> (list_to_map (M := CCoinsMap) l)).
  destruct (decide (k' = k)) as [->|Hne].
  - by rewrite lookup_insert_eq, not_elem_of_list_to_map_1.
  - by rewrite lookup_insert_ne, Hview.
Qed.

#[local] Program Instance cache_lawful
    : CoinsViewLaws cache (cv := CCoinsViewCache_view be DynamicMemoryUsage) := {
  view_inv := cache_inv;
  view := cache_view;
  best := cache_best;
}.
Next Obligation.
  intros c k [Hok Hmod]. destruct (FetchCoins_spec c k Hok) as (c' & E & Hok' & Hm' & Hv & Hb & Hr).
  exists c'. cbn. unfold cache_GetCoins. rewrite E, Hr. split_and!; try done. split; [done|congruence].
Qed.
Next Obligation.
  intros c k [Hok Hmod]. destruct (FetchCoins_spec c k Hok) as (c' & E & Hok' & Hm' & Hv & Hb & Hr).
  cbn. unfold cache_HaveCoins. rewrite E. do 2 eexists. split; [done|].
  split_and!; try done; [split; [done|congruence]| |]; rewrite <- Hr;
    destruct (cacheCoins c' !! k) as [e|]; try done; cbn.
  destruct (CCoins.vout (coins e)) eqn:Ev; [|done].
  unfold CCoins.IsPruned. by rewrite Ev.
Qed.
Next Obligation.
  intros c [[Hb Hm] Hmod]. cbn. unfold cache_GetBestBlock, cache_best.
  destruct (Uint256.IsNull be 32 (hashBlock c)) eqn:En; [|exists c; by rewrite En].
  destruct (GetBestBlock_law (base c) Hb) as (b' & -> & Hb' & Hv & Hbest).
  eexists. split; [done|]. split_and!.
  - split; [|done]. split; [done|]. intros k' e' He. apply (entry_ok_base (base c)), Hm; done.
  - intros k'. unfold cache_view. ccbn. by rewrite Hv.
  - cbn -[Uint256.IsNull]. rewrite Hbest. by destruct (Uint256.IsNull be 32 (best (base c))).
Qed.
Next Obligation.
  intros c m h [Hok Hmod] Hh Hf. cbn [BatchWrite CCoinsViewCache_view]. unfold cache_BatchWrite. rewrite Hmod.
  destruct (cache_write_entries_spec (map_to_list m) c) as (c' & E & Hok' & B & M & _ & Hn).
  { apply NoDup_fst_map_to_list. } { done. }
  { intros k e Hin%elem_of_map_to_list. by apply Hf. }
  rewrite E. cbn [mbind result_bind mret result_ret]. eexists. split; [done|]. split_and!.
  - split; [done|]. cbn. congruence.
  - unfold cache_best. cbn -[Uint256.IsNull]. by rewrite block_hash_IsNull.
  - intros k. change (cache_view (SetBestBlock c' h) k) with (cache_view c' k).
    by rewrite Hn, list_to_map_to_list.
Qed.

(** *** Modifications *)

(** A write through a modifier, from its creation to its destruction, as in
    [ModifyCoins(txid)->Spend(n)]. *)
Definition with_ModifyCoins (c : cache) (k : list Z) (f : CCoins.t -> CCoins.t) : result coins_fault cache :=
  '(c, m) ← ModifyCoins DynamicMemoryUsage c k; end_modifier DynamicMemoryUsage (modify c m f) m.
Definition with_ModifyNewCoins (c : cache) (k : list Z) (coinbase : bool) (f : CCoins.t -> CCoins.t)
    : result coins_fault cache :=
  '(c, m) ← ModifyNewCoins c k coinbase; end_modifier DynamicMemoryUsage (modify c m f) m.

Lemma modifier_spec c k e usage f :
  entries_ok c -> hasModifier c = false -> is_dirty e = true ->
  (is_fresh e = true -> utxo (base c) k = None) ->
  exists c', ('(c, m) ← new_modifier (mk_cache (base c) (hasModifier c) (hashBlock c)
                           (<[k := e]> (cacheCoins c)) (cachedCoinsUsage c)) k usage;
              end_modifier DynamicMemoryUsage (modify c m f) m) = Ok c' /\
    cache_inv c' /\ hashBlock c' = hashBlock c /\ best (base c') = best (base c) /\
    (forall k', k' <> k -> cache_view c' k' = cache_view c k') /\
    norm (cache_view c' k) = norm (Some (CCoins.Cleanup (f (coins e)))).
Proof.
  intros [Hb Hm] Hmod Hd Hf. unfold new_modifier. rewrite Hmod. cbn [hasModifier mbind result_bind].
  unfold end_modifier, modify. cbn [hasModifier cacheCoins it cachedCoinUsage negb].
  rewrite lookup_alter_eq, lookup_insert_eq. cbn [fmap option_fmap option_map coins flags].
  set (x := CCoins.Cleanup (f (coins e))). change (is_fresh (mk_entry x (flags e))) with (is_fresh e).
  destruct (is_fresh e && CCoins.IsPruned x) eqn:E; (eexists; split; [done|]); split_and!; ccbn; try done.
  - split; [|done]. split; [done|]. ccbn. intros k' e' He.
    apply lookup_delete_Some in He as [Hne He]. rewrite lookup_alter_ne, lookup_insert_ne in He by done. by apply Hm.
  - intros k' Hne. unfold cache_view. ccbn. by rewrite lookup_delete_ne, lookup_alter_ne, lookup_insert_ne.
  - unfold cache_view. ccbn. apply andb_prop in E as [E1 E2]. rewrite lookup_delete_eq, E2. by apply Hf.
  - split; [|done]. split; [done|]. ccbn. intros k' e' He. apply lookup_insert_Some in He as [[<- <-]|[Hne He]].
    + split; [done|]. change (is_dirty (mk_entry x (flags e))) with (is_dirty e). by rewrite Hd.
    + rewrite lookup_alter_ne, lookup_insert_ne in He by done. by apply Hm.
  - intros k' Hne. unfold cache_view. ccbn. by rewrite lookup_insert_ne, lookup_alter_ne, lookup_insert_ne.
  - unfold cache_view. ccbn. by rewrite lookup_insert_eq.
Qed.

Lemma ModifyCoins_spec c k f : cache_inv c ->
  exists c', with_ModifyCoins c k f = Ok c' /\ cache_inv c' /\ hashBlock c' = hashBlock c /\
    best (base c') = best (base c) /\ (forall k', k' <> k -> cache_view c' k' = cache_view c k') /\
    norm (cache_view c' k) = norm (Some (CCoins.Cleanup (f (default CCoins.empty (cache_view c k))))).
Proof.
  intros [[Hb Hm] Hmod]. unfold with_ModifyCoins, ModifyCoins. rewrite Hmod.
  destruct (cacheCoins c !! k) as [e|] eqn:Ek.
  - assert (cache_view c k = Some (coins e)) as -> by (unfold cache_view; by rewrite Ek).
    destruct (modifier_spec c k (mk_entry (coins e) (Z.lor (flags e) DIRTY)) (DynamicMemoryUsage (coins e)) f)
      as (c' & E & Hr); [done|done|apply flag_dirty| |].
    { unfold is_fresh. cbn [flags]. rewrite flag_fresh_dirty. by apply (Hm k e Ek). }
    exists c'. split; [first [exact E|rewrite Hmod in E; exact E]|exact Hr].
  - assert (cache_view c k = view (base c) k) as -> by (unfold cache_view; by rewrite Ek).
    destruct (GetCoins_law (base c) k Hb) as (b' & -> & Hb' & Hv & Hbest).
    set (e := match view (base c) k with None => _ | Some x => _ end).
    assert (entries_ok (set_base c b')) as Hok'.
    { split; [done|]. ccbn. intros k' e' He. apply (entry_ok_base (base c)), Hm; done. }
    destruct (modifier_spec (set_base c b') k (mk_entry (coins e) (Z.lor (flags e) DIRTY)) 0 f)
      as (c' & E & Hi & Hh & Hbb & Hother & Hk); [done|done|apply flag_dirty| |].
    { unfold is_fresh, utxo. ccbn. rewrite flag_fresh_dirty, Hv. unfold e.
      destruct (view (base c) k) as [x|]; [|done]. ccbn. by destruct (CCoins.IsPruned x). }
    exists c'. split; [exact E|]. split_and!; [done|done|by rewrite Hbb| |].
    + intros k' Hne. rewrite Hother by done. unfold cache_view. ccbn. by rewrite Hv.
    + rewrite Hk. ccbn. unfold e. by destruct (view (base c) k).
Qed.

Lemma ModifyNewCoins_spec c k coinbase f : cache_inv c ->
  (coinbase = false -> norm (cache_view c k) = None) ->
  exists c' x, with_ModifyNewCoins c k coinbase f = Ok c' /\ CCoins.IsPruned x = true /\
    cache_inv c' /\ hashBlock c' = hashBlock c /\ best (base c') = best (base c) /\
    (forall k', k' <> k -> cache_view c' k' = cache_view c k') /\
    norm (cache_view c' k) = norm (Some (CCoins.Cleanup (f x))).
Proof.
  intros [[Hb Hm] Hmod] Hnew. unfold with_ModifyNewCoins, ModifyNewCoins. rewrite Hmod.
  set (e := default new_entry (cacheCoins c !! k)).
  assert (negb coinbase && negb (CCoins.IsPruned (coins e)) = false) as ->.
  { destruct coinbase; [done|]. specialize (Hnew eq_refl). unfold e, cache_view in *.
    destruct (cacheCoins c !! k) as [e'|]; [|done]. cbn in *. by destruct (CCoins.IsPruned (coins e')). }
  set (fl := if negb coinbase && negb (is_dirty e) then _ else _).
  destruct (modifier_spec c k (mk_entry (CCoins.Clear (coins e)) (Z.lor fl DIRTY)) 0 f)
    as (c' & E & Hr); [done|done|apply flag_dirty| |].
  - unfold is_fresh. cbn [flags]. rewrite flag_fresh_dirty. unfold fl, e in *.
    assert (is_fresh (default new_entry (cacheCoins c !! k)) = true -> utxo (base c) k = None) as Hfr.
    { destruct (cacheCoins c !! k) as [e'|] eqn:Ek; [|done]. apply (Hm k e' Ek). }
    destruct (negb coinbase && negb (is_dirty _)) eqn:Ec; [|exact Hfr]. intros _.
    apply andb_prop in Ec as [Ec1 Ec2]. destruct coinbase; [done|]. specialize (Hnew eq_refl).
    unfold cache_view in Hnew. destruct (cacheCoins c !! k) as [e'|] eqn:Ek; [|done].
    unfold utxo. rewrite <- Hnew. symmetry. apply (Hm k e' Ek). by apply negb_true_iff in Ec2.
  - exists c', (CCoins.Clear (coins e)). split; [first [exact E|rewrite Hmod in E; exact E]|]. split; [done|exact Hr].
Qed.

Lemma Uncache_spec c k : cache_inv c ->
  cache_inv (Uncache DynamicMemoryUsage c k) /\
  (forall k', norm (cache_view (Uncache DynamicMemoryUsage c k) k') = norm (cache_view c k')) /\
  hashBlock (Uncache DynamicMemoryUsage c k) = hashBlock c /\ base (Uncache DynamicMemoryUsage c k) = base c.
Proof.
  intros [[Hb Hm] Hmod]. unfold Uncache. destruct (cacheCoins c !! k) as [e|] eqn:Ek; [|done].
  destruct (Z.eqb_spec (flags e) 0) as [E|]; [|done]. split_and!; try done.
  - split; [|done]. split; [done|]. by apply map_Forall_delete.
  - intros k'. unfold cache_view. ccbn. destruct (decide (k' = k)) as [->|Hne].
    + rewrite lookup_delete_eq, Ek. symmetry. apply (Hm k e Ek). unfold is_dirty. by rewrite E.
    + by rewrite lookup_delete_ne.
Qed.

Lemma Flush_spec c : cache_inv c -> block_hash (hashBlock c) ->
  exists c', Flush c = Ok (c', true) /\ cache_inv c' /\ cacheCoins c' = ∅ /\
    hashBlock c' = hashBlock c /\ best (base c') = hashBlock c /\
    (forall k, utxo (base c') k = norm (cache_view c k)) /\
    (forall k, norm (cache_view c' k) = norm (cache_view c k)).
Proof.
  intros [[Hb Hm] Hmod] Hh. unfold Flush.
  destruct (BatchWrite_law (base c) (cacheCoins c) (hashBlock c) Hb Hh) as (b' & -> & Hb' & Hbest & Hv).
  { intros k e Ek _ Hfr. by apply (Hm k e Ek). }
  cbn [mbind result_bind mret result_ret].
  assert (forall k, norm (view b' k) = norm (cache_view c k)) as Hn.
  { intros k. rewrite Hv. unfold cache_view, apply_entry. destruct (cacheCoins c !! k) as [e|] eqn:Ek; [|done].
    destruct (is_dirty e) eqn:Ed; [done|]. symmetry. by apply (Hm k e Ek). }
  eexists. split; [done|]. split_and!; try done.
Qed.
End cache_laws.

(** ** The abstract set of unspent outputs *)

(** A modification that does not look at the metadata of fully spent coins. *)
Definition respects (f : CCoins.t -> CCoins.t) : Prop :=
  forall c, CCoins.IsPruned c = true ->
    norm (Some (CCoins.Cleanup (f c))) = norm (Some (CCoins.Cleanup (f CCoins.empty))).

Inductive cache_op : Type :=
| OpGet (k : list Z)
| OpHave (k : list Z)
| OpModify (k : list Z) (f : CCoins.t -> CCoins.t)
| OpModifyNew (k : list Z) (coinbase : bool) (f : CCoins.t -> CCoins.t)
| OpGetBest
| OpSetBest (h : list Z)
| OpUncache (k : list Z)
| OpFlush.

(** A map from transaction ids to coins with unspent outputs, the best block, and
    whether that is known to the cache itself. *)
Record abs_state : Type := mk_abs {
  a_utxo : list Z -> option CCoins.t;
  a_best : list Z;
  a_known : bool;
}.

Definition abs_set (a : abs_state) (k : list Z) (r : option CCoins.t) : abs_state :=
  mk_abs (fun k' => if decide (k' = k) then r else a_utxo a k') (a_best a) (a_known a).

Definition abs_step (a : abs_state) (op : cache_op) : abs_state :=
  match op with
  | OpGet _ | OpHave _ | OpUncache _ | OpFlush => a
  | OpModify k f => abs_set a k (norm (Some (CCoins.Cleanup (f (default CCoins.empty (a_utxo a k))))))
  | OpModifyNew k _ f => abs_set a k (norm (Some (CCoins.Cleanup (f CCoins.empty))))
  | OpGetBest => mk_abs (a_utxo a) (a_best a) true
  | OpSetBest h => mk_abs (a_utxo a) h true
  end.

(** What a caller must ensure: new coins of an ordinary transaction do not exist yet
    (BIP 30), and the best block is set or read before a flush. *)
Definition abs_pre (a : abs_state) (op : cache_op) : Prop :=
  match op with
  | OpModify _ f => respects f
  | OpModifyNew k coinbase f => respects f /\ (coinbase = false -> a_utxo a k = None)
  | OpGetBest => block_hash (a_best a)
  | OpSetBest h => block_hash h
  | OpFlush => a_known a = true
  | _ => True
  end.

Fixpoint abs_ok (a : abs_state) (ops : list cache_op) : Prop :=
  match ops with
  | [] => True
  | op :: ops' => abs_pre a op /\ abs_ok (abs_step a op) ops'
  end.

Definition abs_run (a : abs_state) (ops : list cache_op) : abs_state := foldl abs_step a ops.

Section refinement.
Context (be : bool) (DynamicMemoryUsage : CCoins.t -> Z).
Context {V : Type} `{CoinsViewLaws V}.
#[local] Abbreviation cache := (CCoinsViewCache V).

Definition exec (c : cache) (op : cache_op) : result coins_fault cache :=
  match op with
  | OpGet k => Ok (cache_GetCoins DynamicMemoryUsage c k).1
  | OpHave k => Ok (cache_HaveCoins DynamicMemoryUsage c k).1
  | OpModify k f => with_ModifyCoins DynamicMemoryUsage c k f
  | OpModifyNew k coinbase f => with_ModifyNewCoins DynamicMemoryUsage c k coinbase f
  | OpGetBest => Ok (cache_GetBestBlock be c).1
  | OpSetBest h => Ok (SetBestBlock c h)
  | OpUncache k => Ok (Uncache DynamicMemoryUsage c k)
  | OpFlush => '(c, fOk) ← Flush c; mret c
  end.

Fixpoint exec_all (c : cache) (ops : list cache_op) : result coins_fault cache :=
  match ops with
  | [] => Ok c
  | op :: ops' => c ← exec c op; exec_all c ops'
  end.

Record refines (c : cache) (a : abs_state) : Prop := {
  ref_inv : cache_inv c;
  ref_utxo k : norm (cache_view c k) = a_utxo a k;
  ref_best : cache_best be c = a_best a;
  ref_known : a_known a = true -> hashBlock c = a_best a /\ block_hash (a_best a);
}.

Lemma refines_same c c' a : refines c a -> cache_inv c' ->
  (forall k, norm (cache_view c' k) = norm (cache_view c k)) ->
  hashBlock c' = hashBlock c -> best (base c') = best (base c) -> refines c' a.
Proof.
  intros [H1 H2 H3 H4] Hi Hv Hh Hb. split; [done| | |].
  - intros k. by rewrite Hv.
  - unfold cache_best in *. by rewrite Hh, Hb.
  - intros Hk. rewrite Hh. by apply H4.
Qed.

Lemma refines_set c c' a k r : refines c a -> cache_inv c' ->
  (forall k', k' <> k -> cache_view c' k' = cache_view c k') -> norm (cache_view c' k) = r ->
  hashBlock c' = hashBlock c -> best (base c') = best (base c) -> refines c' (abs_set a k r).
Proof.
  intros [H1 H2 H3 H4] Hi Hv Hr Hh Hb. split; [done| | |].
  - intros k'. cbn. case_decide as E; [by subst|]. rewrite Hv by done. apply H2.
  - unfold cache_best in *. cbn. by rewrite Hh, Hb.
  - cbn. intros Hk. rewrite Hh. by apply H4.
Qed.

Lemma FetchCoins_hash c k : hashBlock (FetchCoins DynamicMemoryUsage c k).1 = hashBlock c.
Proof.
  unfold FetchCoins. destruct (cacheCoins c !! k); [done|].
  by destruct (GetCoins (base c) k) as [b [r|]].
Qed.

Lemma norm_default f r : respects f ->
  norm (Some (CCoins.Cleanup (f (default CCoins.empty r)))) =
  norm (Some (CCoins.Cleanup (f (default CCoins.empty (norm r))))).
Proof.
  intros Hf. destruct r as [c|]; [|done]. cbn [norm]. destruct (CCoins.IsPruned c) eqn:E; [|done].
  by apply Hf.
Qed.

Lemma fetch_refines c a k : refines c a -> refines (FetchCoins DynamicMemoryUsage c k).1 a.
Proof.
  intros Hr. pose proof Hr as [[Hok Hmod] H2 H3 H4].
  destruct (FetchCoins_spec be DynamicMemoryUsage c k Hok) as (c' & E & Hok' & Hm' & Hv & Hb & _).
  pose proof (FetchCoins_hash c k) as Hh. rewrite E in *. cbn [fst] in *.
  split; [split; [done|congruence]| |congruence|].
  - intros k'. by rewrite Hv.
  - intros Hk. rewrite Hh. by apply H4.
Qed.

Lemma exec_refines c a op : refines c a -> abs_pre a op ->
  exists c', exec c op = Ok c' /\ refines c' (abs_step a op).
Proof.
  intros Hr Hpre. pose proof Hr as [Hi H2 H3 H4]. destruct op; cbn [exec abs_pre abs_step] in *.
  - eexists. split; [done|]. pose proof (fetch_refines c a k Hr) as Hf.
    unfold cache_GetCoins. by destruct (FetchCoins _ c k).
  - eexists. split; [done|]. pose proof (fetch_refines c a k Hr) as Hf.
    unfold cache_HaveCoins. by destruct (FetchCoins _ c k).
  - destruct (ModifyCoins_spec DynamicMemoryUsage c k f Hi) as (c' & E & Hi' & Hh & Hb & Ho & Hk).
    exists c'. split; [done|]. apply (refines_set c); try done. rewrite Hk, <- H2. by apply norm_default.
  - destruct Hpre as [Hf Hnew].
    destruct (ModifyNewCoins_spec DynamicMemoryUsage c k coinbase f Hi) as (c' & x & E & Hx & Hi' & Hh & Hb & Ho & Hk).
    { intros Hcb. rewrite H2. by apply Hnew. }
    exists c'. split; [done|]. apply (refines_set c); try done. rewrite Hk. by apply Hf.
  - eexists. split; [done|]. destruct Hi as [[Hb Hm] Hmod]. unfold cache_GetBestBlock, cache_best in *.
    destruct (Uint256.IsNull be 32 (hashBlock c)) eqn:En.
    + destruct (GetBestBlock_law (base c) Hb) as (b' & -> & Hb' & Hv & Hbest).
      cbn [fst]. rewrite H3. split; cbn.
      * split; [|done]. split; [done|]. intros k e He. apply (entry_ok_base (base c)), Hm; done.
      * intros k. rewrite <- H2. unfold cache_view. ccbn. by rewrite Hv.
      * unfold cache_best. ccbn. by rewrite block_hash_IsNull.
      * done.
    + split; cbn; try done. unfold cache_best. by rewrite En.
  - eexists. split; [done|]. split; cbn; try done. unfold cache_best. ccbn. by rewrite block_hash_IsNull.
  - eexists. split; [done|]. destruct (Uncache_spec DynamicMemoryUsage c k Hi) as (Hi' & Hv & Hh & Hb).
    apply (refines_same c); try done. by rewrite Hb.
  - destruct (H4 Hpre) as [Hh Hbh]. rewrite <- Hh in Hbh.
    destruct (Flush_spec c Hi Hbh) as (c' & -> & Hi' & _ & Hh' & Hbest & _ & Hv).
    eexists. split; [done|]. split; cbn; try done.
    + intros k. by rewrite Hv.
    + unfold cache_best. rewrite Hh', block_hash_IsNull by done. congruence.
    + intros _. rewrite Hh', Hh. split; [done|by rewrite <- Hh].
Qed.
End refinement.

(** C3: the cache is a faithful copy of the coin set.  Over any lawful view, every
    sequence of cache operations (reads that fill the cache, modifications, creation of
    new coins, eviction, flushes) whose preconditions hold runs without a failed
    assertion or exception and keeps the cache equal to the abstract coin set: reads
    see exactly the last write, whatever has been cached, evicted or flushed. *)
Theorem cache_refines_utxo (be : bool) (DynamicMemoryUsage : CCoins.t -> Z) (V : Type)
    (cv : CoinsView V) (laws : CoinsViewLaws V) (ops : list cache_op) (c : CCoinsViewCache V) (a : abs_state) :
  refines be c a -> abs_ok a ops ->
  exists c', exec_all be DynamicMemoryUsage c ops = Ok c' /\ refines be c' (abs_run a ops) /\
    (forall k, norm (cache_GetCoins DynamicMemoryUsage c' k).2 = a_utxo (abs_run a ops) k) /\
    (cache_GetBestBlock be c').2 = a_best (abs_run a ops).
Proof.
  revert c a. induction ops as [|op ops IH]; intros c a Hr Hok.
  - exists c. split; [done|]. split; [done|]. pose proof Hr as [[[Hb Hm] Hmod] H2 H3 _]. split.
    + intros k. destruct (FetchCoins_spec be DynamicMemoryUsage c k) as (c' & E & _ & _ & _ & _ & Hk); [done|].
      unfold cache_GetCoins. rewrite E. cbn [snd]. rewrite Hk. apply H2.
    + unfold cache_GetBestBlock, cache_best in *. destruct (Uint256.IsNull be 32 (hashBlock c)); [|done].
      destruct (GetBestBlock_law (base c) Hb) as (b' & -> & _). done.
  - destruct Hok as [Hpre Hok]. destruct (exec_refines be DynamicMemoryUsage c a op Hr Hpre) as (c1 & E1 & Hr1).
    destruct (IH c1 (abs_step a op) Hr1 Hok) as (c' & E' & Hrest).
    exists c'. split; [|exact Hrest]. cbn [exec_all]. by rewrite E1.
Qed.

(** *** A new cache, and a stack of caches over the database *)

Section new_cache.
Context (be : bool) {V : Type} `{CoinsViewLaws V}.

(** A new cache shows what its base shows, and the output that can always be spent. *)
Lemma new_cache_refines (b : V) : view_inv b ->
  refines be (new_cache b)
    (mk_abs (fun k => if decide (k = randpaytx) then Some randpay_coins else utxo b k) (best b) false).
Proof.
  intros Hb. split; cbn [a_utxo a_best a_known]; try done.
  - split; [|done]. split; [done|]. intros k e He. cbn [new_cache cacheCoins] in He.
    apply lookup_singleton_Some in He as [<- <-]. done.
  - intros k. unfold cache_view, new_cache. ccbn. case_decide as E.
    + subst. by rewrite lookup_singleton_eq.
    + by rewrite lookup_singleton_ne.
  - unfold cache_best. by destruct be.
Qed.
End new_cache.

Lemma pruned_lookup c i o : CCoins.IsPruned c = true -> CCoins.vout c !! i = Some o -> CTxOut.IsNull o = true.
Proof.
  unfold CCoins.IsPruned. rewrite List.forallb_forall. intros Hp Hi.
  by apply Hp, list_elem_of_In, (list_elem_of_lookup_2 _ i).
Qed.

Lemma Spend_pruned c n : CCoins.IsPruned c = true -> (CCoins.Spend c n).2 = c.
Proof.
  intros Hp. unfold CCoins.Spend. destruct (CCoins.vout c !! Z.to_nat n) as [o|] eqn:E.
  - rewrite (pruned_lookup c _ o Hp E), orb_true_r. done.
  - by rewrite orb_true_r.
Qed.

Lemma respects_Spend n : respects (fun c => (CCoins.Spend c n).2).
Proof.
  intros c Hp. rewrite !Spend_pruned by done. cbn [norm]. by rewrite !Cleanup_pruned, Hp.
Qed.

Lemma respects_const x : respects (fun _ => x). Proof. done. Qed.

Definition sample_coins : CCoins.t :=
  CCoins.mk false [CTxOut.mk 5 [0x51]; CTxOut.mk 7 [0x51]] 10 1 false 100.
Definition sample_db : CCoinsViewDB :=
  {| db_coins := {[ replicate 32 1 := sample_coins ]}; db_best := Some (replicate 32 9) |}.
Definition sample_ops : list cache_op :=
  [OpGet (replicate 32 1); OpModify (replicate 32 1) (fun c => (CCoins.Spend c 1).2); OpUncache (replicate 32 1);
   OpModifyNew (replicate 32 2) false (fun _ => sample_coins); OpSetBest (replicate 32 8); OpFlush;
   OpModify (replicate 32 1) (fun c => (CCoins.Spend c 0).2); OpFlush].


(** Two caches over the database, as between a block under validation and disk. *)
Definition sample_mem : CCoins.t -> Z := fun _ => 100.
Definition cache_on_db : CoinsView (CCoinsViewCache CCoinsViewDB) :=
  CCoinsViewCache_view false sample_mem (H := CCoinsViewDB_view false).
Definition cache_on_db_laws : CoinsViewLaws (CCoinsViewCache CCoinsViewDB) (cv := cache_on_db) :=
  cache_lawful false sample_mem (H := db_lawful false).

Lemma sample_base_inv : view_inv (CoinsViewLaws := cache_on_db_laws) (new_cache sample_db).
Proof. exact (ref_inv _ _ _ (new_cache_refines (H := db_lawful false) false sample_db I)). Qed.

Lemma cache_refines_utxo_witness :
  exists c', exec_all (cv := cache_on_db) false sample_mem (new_cache (new_cache sample_db)) sample_ops = Ok c' /\
    norm (cache_GetCoins (H := cache_on_db) sample_mem c' (replicate 32 1)).2 = None /\
    norm (cache_GetCoins (H := cache_on_db) sample_mem c' (replicate 32 2)).2 = Some sample_coins.
Proof.
  destruct (cache_refines_utxo false sample_mem _ cache_on_db cache_on_db_laws sample_ops _ _
    (new_cache_refines (H := cache_on_db_laws) false _ sample_base_inv)) as (c' & E & _ & Hg & _).
  - cbn [abs_ok sample_ops abs_pre abs_step]. split_and!; try done; auto using respects_Spend, respects_const.
    split; [by_decide|]. discriminate.
  - exists c'. split; [exact E|]. rewrite !Hg. split; vm_compute; reflexivity.
Defined.

(** Flushing is complete and independent of the order of the hash map.  For a
    cache over a cache over any lawful view, handing the child's entries to the parent
    in any order raises no exception and leaves the parent with exactly the child's
    coins; [Flush] empties the child, keeps its best block, and neither the child's nor
    the parent's visible coins differ from what the child showed before. *)
Theorem flush_correct (be : bool) (DynamicMemoryUsage : CCoins.t -> Z) (V : Type) (cv : CoinsView V)
    (laws : CoinsViewLaws V) (c : CCoinsViewCache (CCoinsViewCache V)) (l : list (list Z * CCoinsCacheEntry)) :
  cache_inv (H := cache_lawful be DynamicMemoryUsage) c -> block_hash (hashBlock c) ->
  l ≡ₚ map_to_list (cacheCoins c) ->
  (exists p, cache_write_entries DynamicMemoryUsage (base c) l = Ok p /\ cache_inv p /\
     forall k, norm (cache_view p k) = norm (cache_view (H := cache_lawful be DynamicMemoryUsage) c k)) /\
  (exists c', Flush (H := CCoinsViewCache_view be DynamicMemoryUsage) c = Ok (c', true) /\
     cacheCoins c' = ∅ /\ hashBlock c' = hashBlock c /\ cache_best be (base c') = hashBlock c /\
     cache_inv (base c') /\
     (forall k, norm (cache_view (base c') k) = norm (cache_view (H := cache_lawful be DynamicMemoryUsage) c k)) /\
     (forall k, norm (cache_view (H := cache_lawful be DynamicMemoryUsage) c' k)
                = norm (cache_view (H := cache_lawful be DynamicMemoryUsage) c k))).
Proof.
  intros Hi Hh Hl. pose proof Hi as [[[Hb Hbm] Hm] Hmod].
  assert (forall k, norm (cache_view (H := cache_lawful be DynamicMemoryUsage) c k) =
    match cacheCoins c !! k with Some e => apply_entry e (norm (cache_view (base c) k))
    | None => norm (cache_view (base c) k) end) as Hview.
  { intros k. unfold cache_view at 1, apply_entry. destruct (cacheCoins c !! k) as [e|] eqn:Ek; [|done].
    destruct (is_dirty e) eqn:Ed; [done|]. exact (proj2 (Hm k e Ek) Ed). }
  assert (NoDup l.*1) as Hnd by (rewrite Hl; apply NoDup_fst_map_to_list).
  split.
  - destruct (cache_write_entries_spec DynamicMemoryUsage l (base c) Hnd Hb) as (p & E & Hok & B & M & _ & Hn).
    { intros k e Hin _ Hf. rewrite Hl in Hin. apply elem_of_map_to_list in Hin. exact (proj1 (Hm k e Hin) Hf). }
    exists p. split; [done|]. split; [split; [done|by rewrite M]|]. intros k. rewrite Hn, Hview.
    by rewrite (list_to_map_proper l _ Hnd Hl), list_to_map_to_list.
  - destruct (Flush_spec (H := cache_lawful be DynamicMemoryUsage) c Hi Hh)
      as (c' & E & Hi' & He & Hh' & Hbest & Hu & Hv).
    exists c'. split_and!; try done; apply Hi'.
Qed.

Lemma flush_correct_witness :
  exists c', Flush (H := cache_on_db) (SetBestBlock (new_cache (new_cache sample_db)) (replicate 32 8)) = Ok (c', true) /\
    norm (cache_view (H := db_lawful false) (base c') randpaytx) = Some randpay_coins.
Proof.
  set (c := SetBestBlock (new_cache (new_cache sample_db)) (replicate 32 8)).
  assert (cache_inv (H := cache_on_db_laws) c) as Hi.
  { exact (ref_inv _ _ _ (new_cache_refines (H := cache_on_db_laws) false _ sample_base_inv)). }
  destruct (flush_correct false sample_mem _ _ (db_lawful false) c (map_to_list (cacheCoins c)) Hi)
    as [_ (c' & E & _ & _ & _ & _ & Hv & _)]; [split; [by_decide|discriminate]|reflexivity|].
  exists c'. split; [exact E|]. rewrite Hv. vm_compute. reflexivity.
Defined.

(** ** Inputs of a transaction *)

(** The output an input refers to, when it is unspent. *)
Definition abs_output (U : list Z -> option CCoins.t) (i : CTxIn.t) : option CTxOut.t :=
  x ← U (COutPoint.hash (CTxIn.prevout i));
  o ← CCoins.vout x !! Z.to_nat (COutPoint.n (CTxIn.prevout i));
  if CTxOut.IsNull o then None else Some o.

Section inputs.
Context (be : bool) (DynamicMemoryUsage : CCoins.t -> Z).
Context {V : Type} `{CoinsViewLaws V}.

Lemma IsAvailable_lookup x n : 0 <= n ->
  CCoins.IsAvailable x n = match CCoins.vout x !! Z.to_nat n with
    Some o => negb (CTxOut.IsNull o) | None => false end.
Proof.
  intros Hn. unfold CCoins.IsAvailable. destruct (CCoins.vout x !! Z.to_nat n) as [o|] eqn:E.
  - apply lookup_lt_Some in E. rewrite (proj2 (Z.ltb_lt _ _)) by lia. done.
  - apply andb_false_r.
Qed.

Lemma access_refines c a i : refines be c a -> 0 <= COutPoint.n (CTxIn.prevout i) ->
  exists c' r, AccessCoins DynamicMemoryUsage c (COutPoint.hash (CTxIn.prevout i)) = (c', r) /\ refines be c' a /\
    match abs_output (a_utxo a) i with
    | Some o => exists x, r = Some x /\ CCoins.IsAvailable x (COutPoint.n (CTxIn.prevout i)) = true /\
        CCoins.vout x !! Z.to_nat (COutPoint.n (CTxIn.prevout i)) = Some o
    | None => forall x, r = Some x -> CCoins.IsAvailable x (COutPoint.n (CTxIn.prevout i)) = false
    end.
Proof.
  intros Hr Hn. set (k := COutPoint.hash (CTxIn.prevout i)). pose proof (fetch_refines be DynamicMemoryUsage c a k Hr) as Hf.
  pose proof Hr as [[Hok _] Hu _ _].
  destruct (FetchCoins_spec be DynamicMemoryUsage c k Hok) as (c' & E & _ & _ & _ & _ & Hk).
  unfold AccessCoins. rewrite E in *. cbn [fst] in Hf. do 2 eexists. split; [done|]. split; [done|].
  rewrite Hk. unfold abs_output. fold k. rewrite <- Hu.
  destruct (cache_view c k) as [x|]; [|done]. cbn [norm].
  destruct (CCoins.IsPruned x) eqn:Ep; cbn [mbind option_bind].
  - intros x' [= <-]. rewrite IsAvailable_lookup by done.
    destruct (CCoins.vout x !! _) as [o|] eqn:Eo; [|done]. by rewrite (pruned_lookup x _ o Ep Eo).
  - destruct (CCoins.vout x !! _) as [o|] eqn:Eo; cbn [mbind option_bind].
    + destruct (CTxOut.IsNull o) eqn:Eno.
      * intros x' [= <-]. by rewrite IsAvailable_lookup, Eo, Eno.
      * exists x. by rewrite IsAvailable_lookup, Eo, Eno.
    + intros x' [= <-]. by rewrite IsAvailable_lookup, Eo.
Qed.

Lemma HaveInputs_loop_spec ins c a : refines be c a -> Forall (fun i => 0 <= COutPoint.n (CTxIn.prevout i)) ins ->
  exists c', HaveInputs_loop DynamicMemoryUsage c ins =
    (c', forallb (fun i => bool_decide (is_Some (abs_output (a_utxo a) i))) ins) /\ refines be c' a.
Proof.
  intros Hr Hi. revert c Hr. induction Hi as [|i ins Hn Hi IH]; intros c Hr; [by exists c|].
  cbn [HaveInputs_loop forallb]. destruct (access_refines c a i Hr Hn) as (c1 & r & -> & Hr1 & Hm).
  destruct (abs_output (a_utxo a) i) as [o|].
  - destruct Hm as (x & -> & -> & _). destruct (IH c1 Hr1) as (c' & -> & Hr'). exists c'. done.
  - exists c1. destruct r as [x|]; [rewrite (Hm x eq_refl)|]; done.
Qed.

Lemma GetValueIn_loop_spec ins c a outs nResult : refines be c a ->
  Forall (fun i => 0 <= COutPoint.n (CTxIn.prevout i)) ins ->
  mapM (abs_output (a_utxo a)) ins = Some outs ->
  exists c', GetValueIn_loop DynamicMemoryUsage c ins nResult =
    Ok (c', foldl (fun s o => i64 (s + CTxOut.nValue o)) nResult outs) /\ refines be c' a.
Proof.
  intros Hr Hi. revert c outs nResult Hr. induction Hi as [|i ins Hn Hi IH]; intros c outs nResult Hr Ho.
  { injection Ho as <-. by exists c. }
  cbn [mapM] in Ho. destruct (access_refines c a i Hr Hn) as (c1 & r & E & Hr1 & Hm).
  destruct (abs_output (a_utxo a) i) as [o|]; [|done]. cbn [mbind option_bind] in Ho.
  destruct (mapM _ ins) as [os|] eqn:Eos; [|done]. injection Ho as <-. destruct Hm as (x & -> & Ha & Hx).
  cbn [GetValueIn_loop foldl]. unfold GetOutputFor at 1. rewrite E, Ha, Hx. cbn [mbind result_bind fst].
  by apply IH.
Qed.
End inputs.

Lemma foldl_i64_sum outs s : 0 <= s -> Forall (fun o => 0 <= CTxOut.nValue o) outs ->
  s + foldr Z.add 0 (map CTxOut.nValue outs) < 2 ^ 63 ->
  foldl (fun s o => i64 (s + CTxOut.nValue o)) s outs = s + foldr Z.add 0 (map CTxOut.nValue outs).
Proof.
  intros Hs Ho. revert s Hs. induction Ho as [|o outs Ho Hos IH]; intros s Hs Hb; cbn [foldl map foldr] in *; [lia|].
  assert (0 <= foldr Z.add 0 (map CTxOut.nValue outs)).
  { clear -Hos. induction Hos; cbn; lia. }
  rewrite swrap_small by (unfold is_s; lia). rewrite IH by lia. lia.
Qed.

(** The inputs of a transaction are judged by the unspent outputs.  On any cache
    that represents the coin set, [HaveInputs] is true exactly when the transaction is a
    coinbase or every input refers to an unspent output, and then [GetValueIn] fails no
    assertion and returns the sum of those outputs (0 for a coinbase), provided they are
    not negative and their sum fits in an amount; both leave the coin set unchanged. *)
Theorem inputs_correct (be : bool) (DynamicMemoryUsage : CCoins.t -> Z) (V : Type) (cv : CoinsView V)
    (laws : CoinsViewLaws V) (c : CCoinsViewCache V) (a : abs_state) (tx : CTransaction) :
  refines be c a -> Forall (fun i => 0 <= COutPoint.n (CTxIn.prevout i)) (vin tx) ->
  exists c' r, HaveInputs be DynamicMemoryUsage c tx = (c', r) /\ refines be c' a /\
    (r = true <-> IsCoinBase be tx = true \/ Forall (fun i => is_Some (abs_output (a_utxo a) i)) (vin tx)) /\
    forall outs, IsCoinBase be tx = false -> mapM (abs_output (a_utxo a)) (vin tx) = Some outs ->
      Forall (fun o => 0 <= CTxOut.nValue o) outs -> foldr Z.add 0 (map CTxOut.nValue outs) < 2 ^ 63 ->
      r = true /\ exists c'', GetValueIn be DynamicMemoryUsage c' tx
        = Ok (c'', foldr Z.add 0 (map CTxOut.nValue outs)) /\ refines be c'' a.
Proof.
  intros Hr Hi. unfold HaveInputs, GetValueIn. destruct (IsCoinBase be tx).
  { exists c, true. split_and!; try done. tauto. }
  destruct (HaveInputs_loop_spec be DynamicMemoryUsage (vin tx) c a Hr Hi) as (c' & E & Hr').
  exists c', (forallb (fun i => bool_decide (is_Some (abs_output (a_utxo a) i))) (vin tx)). split_and!; [done|done| |].
  - rewrite List.forallb_forall, Forall_forall. setoid_rewrite bool_decide_eq_true.
    setoid_rewrite list_elem_of_In. split; [by right|]. by intros [|?].
  - intros outs _ Ho Hpos Hsum. split.
    + rewrite List.forallb_forall. intros i Hin. apply bool_decide_eq_true. apply list_elem_of_In in Hin.
      apply mapM_Some in Ho. apply list_elem_of_lookup_1 in Hin as [j Hj].
      destruct (Forall2_lookup_l _ _ _ j i Ho Hj) as (o & _ & Eo). by exists o.
    + destruct (GetValueIn_loop_spec be DynamicMemoryUsage (vin tx) c' a outs 0 Hr' Hi Ho) as (c'' & E'' & Hr'').
      exists c''. rewrite E'', foldl_i64_sum by (done || lia). by rewrite Z.add_0_l.
Qed.

Lemma inputs_correct_witness :
  exists c' c'', HaveInputs (H := CCoinsViewDB_view false) false sample_mem (new_cache sample_db)
      {| Transaction.nVersion := 1; Transaction.nTime := 200;
         vin := [CTxIn.mk (COutPoint.mk (replicate 32 1) 1) [] 0 []; CTxIn.mk (COutPoint.mk randpaytx 0) [] 0 []];
         vout := []; nLockTime := 0 |} = (c', true) /\
    GetValueIn (H := CCoinsViewDB_view false) false sample_mem c'
      {| Transaction.nVersion := 1; Transaction.nTime := 200;
         vin := [CTxIn.mk (COutPoint.mk (replicate 32 1) 1) [] 0 []; CTxIn.mk (COutPoint.mk randpaytx 0) [] 0 []];
         vout := []; nLockTime := 0 |} = Ok (c'', 7).
Proof.
  destruct (inputs_correct false sample_mem _ _ (db_lawful false) (new_cache sample_db) _
    {| Transaction.nVersion := 1; Transaction.nTime := 200;
       vin := [CTxIn.mk (COutPoint.mk (replicate 32 1) 1) [] 0 []; CTxIn.mk (COutPoint.mk randpaytx 0) [] 0 []];
       vout := []; nLockTime := 0 |}
    (new_cache_refines (H := db_lawful false) false sample_db I)) as (c' & r & E & _ & _ & Hv);
    [repeat constructor; cbn; lia|].
  destruct (Hv [CTxOut.mk 7 [0x51]; CTxOut.mk 0 []]) as [-> (c'' & E'' & _)];
    [vm_compute; reflexivity|vm_compute; reflexivity|repeat constructor; cbn; lia|by vm_compute|].
  exists c', c''. split; [exact E|exact E''].
Defined.
