(* ===== verification/Compressor.v ===== *)
(** * Compressor: compact encodings of scripts, amounts and outputs

    Models [src/src/compressor.h] and [compressor.cpp].  The operations on public keys
    that need elliptic-curve arithmetic, [CPubKey::IsFullyValid] and
    [CPubKey::Decompress], are parameters. *)
From S2P Require Import Prelude Endian Serialize Amount Transaction Script.

Definition nSpecialScripts : Z := 6.

Section compressor.
(** On the 65 bytes of an uncompressed key, and on the 33 bytes of a compressed one. *)
Variable IsFullyValid : list Z -> bool.
Variable PubKey_Decompress : list Z -> option (list Z).

Definition IsToKeyID (script : list Z) : option (list Z) :=
  if (Z.of_nat (length script) =? 25) && (script !!! 0%nat =? OP_DUP) && (script !!! 1%nat =? OP_HASH160)
     && (script !!! 2%nat =? 20) && (script !!! 23%nat =? OP_EQUALVERIFY)
     && (script !!! 24%nat =? OP_CHECKSIG)
  then Some (take 20 (drop 3 script)) else None.

Definition IsToScriptID (script : list Z) : option (list Z) :=
  if (Z.of_nat (length script) =? 23) && (script !!! 0%nat =? OP_HASH160) && (script !!! 1%nat =? 20)
     && (script !!! 22%nat =? OP_EQUAL)
  then Some (take 20 (drop 2 script)) else None.

Definition IsToPubKey (script : list Z) : option (list Z) :=
  if (Z.of_nat (length script) =? 35) && (script !!! 0%nat =? 33) && (script !!! 34%nat =? OP_CHECKSIG)
     && ((script !!! 1%nat =? 0x02) || (script !!! 1%nat =? 0x03))
  then Some (take 33 (drop 1 script))
  else if (Z.of_nat (length script) =? 67) && (script !!! 0%nat =? 65) && (script !!! 66%nat =? OP_CHECKSIG)
          && (script !!! 1%nat =? 0x04)
  then let pubkey := take 65 (drop 1 script) in if IsFullyValid pubkey then Some pubkey else None
  else None.

Definition Compress (script : list Z) : option (list Z) :=
  match IsToKeyID script with
  | Some keyID => Some (0x00 :: keyID)
  | None =>
      match IsToScriptID script with
      | Some scriptID => Some (0x01 :: scriptID)
      | None =>
          match IsToPubKey script with
          | Some pubkey =>
              let x := take 32 (drop 1 pubkey) in
              if (pubkey !!! 0%nat =? 0x02) || (pubkey !!! 0%nat =? 0x03) then Some (pubkey !!! 0%nat :: x)
              else if pubkey !!! 0%nat =? 0x04
              then Some (Z.lor 0x04 (Z.land (pubkey !!! 64%nat) 0x01) :: x)
              else None
          | None => None
          end
      end
  end.

Definition GetSpecialSize (nSize : Z) : Z :=
  if (nSize =? 0) || (nSize =? 1) then 20
  else if (nSize =? 2) || (nSize =? 3) || (nSize =? 4) || (nSize =? 5) then 32
  else 0.

(** [None] when the result is [false] and the script is left as it was. *)
Definition Decompress (nSize : Z) (inp : list Z) : option (list Z) :=
  if nSize =? 0x00 then Some ([OP_DUP; OP_HASH160; 20] ++ take 20 inp ++ [OP_EQUALVERIFY; OP_CHECKSIG])
  else if nSize =? 0x01 then Some ([OP_HASH160; 20] ++ take 20 inp ++ [OP_EQUAL])
  else if (nSize =? 0x02) || (nSize =? 0x03) then Some ([33; nSize] ++ take 32 inp ++ [OP_CHECKSIG])
  else if (nSize =? 0x04) || (nSize =? 0x05) then
    pubkey ← PubKey_Decompress ((nSize - 2) :: take 32 inp);
    Some ([65] ++ pubkey ++ [OP_CHECKSIG])
  else None.

(** A script that is read starts out empty. *)
Definition ser_script : Codec (list Z) :=
  {| Serialize St os script s :=
       match Compress script with
       | Some compr => write compr s
       | None => write script (WriteVarInt 32 (u32 (Z.of_nat (length script) + nSpecialScripts)) s)
       end;
     Unserialize :=
       nSize ← ReadVarInt 32;
       if nSize <? nSpecialScripts then
         vch ← read (GetSpecialSize nSize);
         mret (default [] (Decompress nSize vch))
       else
         let nSize := nSize - nSpecialScripts in
         if nSize >? MAX_SCRIPT_SIZE then _ ← read nSize; mret [OP_RETURN]
         else read nSize |}.

(** ** Amounts *)

(** [while (((n % 10) == 0) && e < 9)] *)
Fixpoint strip_zeros (fuel : nat) (n e : Z) : Z * Z :=
  match fuel with
  | O => (n, e)
  | S fuel' => if (n mod 10 =? 0) && (e <? 9) then strip_zeros fuel' (n / 10) (e + 1) else (n, e)
  end.

Definition CompressAmount (n : Z) : Z :=
  if n =? 0 then 0
  else
    let '(n, e) := strip_zeros 9 n 0 in
    if e <? 9 then
      let d := n mod 10 in
      let n := n / 10 in
      u64 (1 + (n * 9 + d - 1) * 10 + e)
    else u64 (1 + (n - 1) * 10 + 9).

(** [while (e) { n *= 10; e--; }] *)
Fixpoint times_ten (e : nat) (n : Z) : Z :=
  match e with O => n | S e' => times_ten e' (u64 (n * 10)) end.

Definition DecompressAmount (x : Z) : Z :=
  if x =? 0 then 0
  else
    let x := x - 1 in
    let e := x mod 10 in
    let x := x / 10 in
    let n := if e <? 9 then u64 (x / 9 * 10 + (x mod 9 + 1)) else u64 (x + 1) in
    times_ten (Z.to_nat e) n.

(** [CTxOutCompressor] *)
Definition ser_txout : Codec CTxOut.t :=
  {| Serialize St os txout s :=
       Serialize ser_script (CTxOut.scriptPubKey txout)
         (WriteVarInt 64 (CompressAmount (u64 (CTxOut.nValue txout))) s);
     Unserialize :=
       nVal ← ReadVarInt 64;
       script ← Unserialize ser_script;
       mret (CTxOut.mk (i64 (DecompressAmount nVal)) script) |}.

End compressor.

(** ** Scripts *)

Lemma drop_cons (s : list Z) i : (i < length s)%nat -> drop i s = s !!! i :: drop (S i) s.
Proof.
  intros Hi. destruct (lookup_lt_is_Some_2 s i Hi) as [x Hx].
  rewrite (list_lookup_total_correct s i x Hx). by apply drop_S.
Qed.

(** A script as its first bytes, a block, and the rest. *)
Lemma split_script (s : list Z) i n : (i <= length s)%nat ->
  s = map (fun j => s !!! j) (seq 0 i) ++ take n (drop i s) ++ drop (i + n) s.
Proof.
  intros Hi. rewrite <- drop_drop, take_drop. rewrite <- (take_drop i s) at 1. f_equal.
  apply list_eq. intros j. rewrite list_lookup_fmap. destruct (decide (j < i)%nat).
  - rewrite lookup_take_lt, lookup_seq_lt by done. cbn. apply list_lookup_lookup_total_lt. lia.
  - rewrite lookup_take_ge, lookup_seq_ge by lia. done.
Qed.

Section roundtrip.
Variable IsFullyValid : list Z -> bool.
Variable PubKey_Decompress : list Z -> option (list Z).
(** A valid key is recovered from its first coordinate and the parity of the second. *)
Hypothesis Decompress_valid : forall x y, length x = 32%nat -> length y = 32%nat ->
  Forall is_byte x -> Forall is_byte y -> IsFullyValid (0x04 :: x ++ y) = true ->
  PubKey_Decompress ((2 + Z.land (y !!! 31%nat) 0x01) :: x) = Some (0x04 :: x ++ y).

#[local] Abbreviation Compress := (Compress IsFullyValid).
#[local] Abbreviation Decompress := (Decompress PubKey_Decompress).
#[local] Abbreviation codec := (ser_script IsFullyValid PubKey_Decompress).

(** What an encoding must satisfy to be read back. *)
Definition special (s c : list Z) : Prop :=
  exists b x, c = b :: x /\ 0 <= b < nSpecialScripts /\ Z.of_nat (length x) = GetSpecialSize b /\
    Forall is_byte x /\ Decompress b x = Some s.

Ltac bool_hyps H := repeat (apply andb_prop in H as [H ?]); repeat match goal with
  | E : (_ =? _) = true |- _ => apply Z.eqb_eq in E end.

Lemma IsToKeyID_special s h : Forall is_byte s -> IsToKeyID s = Some h -> special s (0x00 :: h).
Proof.
  unfold IsToKeyID. intros Hs. destruct (_ && _) eqn:E; [|done]. intros [= <-]. bool_hyps E.
  exists 0, (take 20 (drop 3 s)).
  assert (length (take 20 (drop 3 s)) = 20%nat) as Hl by (rewrite length_take, length_drop; lia).
  split_and!; [done|done|done|by rewrite Hl|by apply Forall_take, Forall_drop|].
  cbn [Compressor.Decompress Z.eqb]. f_equal. rewrite (take_ge (take 20 _)) by lia.
  pose proof (split_script s 3 20 ltac:(lia)) as E0. cbn [Nat.add map seq] in E0.
  set (h := take 20 (drop 3 s)) in *.
  rewrite (drop_cons s 23), (drop_cons s 24), (drop_ge s 25) in E0 by lia.
  etrans; [|symmetry; exact E0]. cbn [map seq app]. congruence.
Qed.

Lemma IsToScriptID_special s h : Forall is_byte s -> IsToScriptID s = Some h -> special s (0x01 :: h).
Proof.
  unfold IsToScriptID. intros Hs. destruct (_ && _) eqn:E; [|done]. intros [= <-]. bool_hyps E.
  exists 1, (take 20 (drop 2 s)).
  assert (length (take 20 (drop 2 s)) = 20%nat) as Hl by (rewrite length_take, length_drop; lia).
  split_and!; [done|done|done|by rewrite Hl|by apply Forall_take, Forall_drop|].
  cbn [Compressor.Decompress Z.eqb]. f_equal. rewrite (take_ge (take 20 _)) by lia.
  pose proof (split_script s 2 20 ltac:(lia)) as E0. cbn [Nat.add map seq] in E0.
  set (h := take 20 (drop 2 s)) in *.
  rewrite (drop_cons s 22), (drop_ge s 23) in E0 by lia.
  etrans; [|symmetry; exact E0]. cbn [map seq app]. congruence.
Qed.

Lemma IsToPubKey_special s k c : Forall is_byte s -> IsToPubKey IsFullyValid s = Some k ->
  (if (k !!! 0%nat =? 0x02) || (k !!! 0%nat =? 0x03) then Some (k !!! 0%nat :: take 32 (drop 1 k))
   else if k !!! 0%nat =? 0x04
   then Some (Z.lor 0x04 (Z.land (k !!! 64%nat) 0x01) :: take 32 (drop 1 k)) else None) = Some c ->
  special s c.
Proof.
  unfold IsToPubKey. intros Hs. destruct (_ && _) eqn:E.
  - intros [= <-]. bool_hyps E.
    assert (Z.of_nat (length s) = 35) as Hlen by congruence.
    assert (drop 1 s = s !!! 1%nat :: take 32 (drop 2 s) ++ [OP_CHECKSIG]) as Ed.
    { rewrite (drop_cons s 1) by lia. f_equal. rewrite <- (take_drop 32 (drop 2 s)) at 1. f_equal.
      rewrite drop_drop. cbn. rewrite (drop_cons s 34), (drop_ge s 35) by lia. congruence. }
    assert (length (take 32 (drop 2 s)) = 32%nat) as Hl by (rewrite length_take, length_drop; lia).
    rewrite Ed. cbn [take]. rewrite take_app_length' by done.
    change ((s !!! 1%nat :: take 32 (drop 2 s)) !!! 0%nat) with (s !!! 1%nat). cbn [drop].
    rewrite drop_0, (take_ge (take 32 _)) by lia.
    assert ((s !!! 1%nat =? 2) || (s !!! 1%nat =? 3) = true) as E1 by done. rewrite E1. intros [= <-].
    exists (s !!! 1%nat), (take 32 (drop 2 s)).
    assert (s !!! 1%nat = 2 \/ s !!! 1%nat = 3) as Hb.
    { apply orb_prop in E1. by rewrite !Z.eqb_eq in E1. }
    split_and!; [done|destruct Hb as [-> | ->]; done|destruct Hb as [-> | ->]; done
      |rewrite Hl; by destruct Hb as [-> | ->]|by apply Forall_take, Forall_drop|].
    assert (Decompress (s !!! 1%nat) (take 32 (drop 2 s)) = Some ([33; s !!! 1%nat] ++ take 32 (take 32 (drop 2 s)) ++ [OP_CHECKSIG]))
      as -> by (by destruct Hb as [-> | ->]).
    rewrite (take_ge (take 32 _)) by lia. f_equal. change s with (drop 0 s) at 3.
    rewrite (drop_cons s 0), Ed by lia. cbn [app]. congruence.
  - clear E. destruct (_ && _) eqn:E; [|done]. destruct (IsFullyValid _) eqn:Ev; [|done].
    intros [= <-]. bool_hyps E.
    assert (Z.of_nat (length s) = 67) as Hlen by congruence.
    set (x := take 32 (drop 2 s)) in *. set (y := take 32 (drop 34 s)).
    assert (length x = 32%nat /\ length y = 32%nat) as [Hx Hy]
      by (unfold x, y; rewrite !length_take, !length_drop; lia).
    assert (drop 1 s = (0x04 :: x ++ y) ++ [OP_CHECKSIG]) as Ed.
    { rewrite (drop_cons s 1) by lia. cbn [app]. f_equal; [congruence|]. rewrite <- app_assoc.
      rewrite <- (take_drop 32 (drop 2 s)) at 1. fold x. f_equal. rewrite drop_drop. cbn [Nat.add].
      rewrite <- (take_drop 32 (drop 34 s)) at 1. fold y. f_equal. rewrite drop_drop. cbn [Nat.add].
      rewrite (drop_cons s 66), (drop_ge s 67) by lia. congruence. }
    assert (take 65 (drop 1 s) = 0x04 :: x ++ y) as Ek.
    { rewrite Ed, take_app_length'; [done|]. cbn. rewrite length_app. lia. }
    rewrite Ek in *. change ((4 :: x ++ y) !!! 0%nat) with 4. cbn [Z.eqb orb Pos.eqb drop].
    rewrite drop_0, take_app_length' by done.
    change ((4 :: x ++ y) !!! 64%nat) with ((x ++ y) !!! 63%nat).
    rewrite lookup_total_app_r, Hx by lia. change (63 - 32)%nat with 31%nat. intros [= <-].
    assert (Z.land (y !!! 31%nat) 1 = 0 \/ Z.land (y !!! 31%nat) 1 = 1) as Hp.
    { pose proof (Z.land_ones (y !!! 31%nat) 1 ltac:(lia)) as Ho. change (Z.ones 1) with 1 in Ho.
      change (2 ^ 1) with 2 in Ho. pose proof (Z.mod_pos_bound (y !!! 31%nat) 2 ltac:(lia)). lia. }
    exists (Z.lor 4 (Z.land (y !!! 31%nat) 1)), x.
    assert (Forall is_byte x /\ Forall is_byte y) as [Hbx Hby] by (split; by apply Forall_take, Forall_drop).
    pose proof (Decompress_valid x y Hx Hy Hbx Hby Ev) as Hd.
    assert (s = [65] ++ (4 :: x ++ y) ++ [OP_CHECKSIG]) as Es.
    { change s with (drop 0 s) at 1. rewrite (drop_cons s 0), Ed by lia. cbn [app]. congruence. }
    split_and!; [done|destruct Hp as [-> | ->]; done|destruct Hp as [-> | ->]; done
      |rewrite Hx; by destruct Hp as [-> | ->]|done|].
    assert (Decompress (Z.lor 4 (Z.land (y !!! 31%nat) 1)) x =
            (pubkey ← PubKey_Decompress ((2 + Z.land (y !!! 31%nat) 1) :: take 32 x);
             Some ([65] ++ pubkey ++ [OP_CHECKSIG]))) as -> by (by destruct Hp as [-> | ->]).
    rewrite (take_ge x), Hd by lia. cbn [mbind option_bind]. by rewrite <- Es.
Qed.

Lemma Compress_special s c : Forall is_byte s -> Compress s = Some c -> special s c.
Proof.
  intros Hs. unfold Compressor.Compress. destruct (IsToKeyID s) as [h|] eqn:E1.
  { intros [= <-]. by apply IsToKeyID_special. }
  destruct (IsToScriptID s) as [h|] eqn:E2.
  { intros [= <-]. by apply IsToScriptID_special. }
  destruct (IsToPubKey IsFullyValid s) as [k|] eqn:E3; [|done]. by apply IsToPubKey_special.
Qed.

Lemma Compress_short s c : Compress s = Some c -> Z.of_nat (length s) <= 67.
Proof.
  unfold Compressor.Compress. destruct (IsToKeyID s) eqn:E1.
  { intros _. unfold IsToKeyID in E1. destruct (_ && _) eqn:E; [|done]. bool_hyps E. lia. }
  clear E1. destruct (IsToScriptID s) eqn:E2.
  { intros _. unfold IsToScriptID in E2. destruct (_ && _) eqn:E; [|done]. bool_hyps E. lia. }
  clear E2. destruct (IsToPubKey IsFullyValid s) eqn:E3; [|done]. intros _. unfold IsToPubKey in E3.
  destruct (_ && _) eqn:E; [clear E3; bool_hyps E; lia|]. clear E.
  destruct (_ && _) eqn:E; [clear E3; bool_hyps E; lia|done].
Qed.

Definition script_valid (s : list Z) : Prop :=
  Forall is_byte s /\ Z.of_nat (length s) <= MAX_SCRIPT_SIZE.

(** The bytes a script is written as. *)
Definition script_bytes (s : list Z) : list Z :=
  match Compress s with
  | Some c => c
  | None => varint_bytes 32 (Z.of_nat (length s) + nSpecialScripts) ++ s
  end.

Lemma ser_script_append s (st : list Z) : Z.of_nat (length s) + nSpecialScripts < 2 ^ 32 ->
  Serialize codec s st = st ++ script_bytes s.
Proof.
  intros Hl. unfold script_bytes, nSpecialScripts in *. cbn [Serialize ser_script].
  destruct (Compress s) as [c|]; [done|]. rewrite uwrap_small by (unfold is_u, nSpecialScripts; lia).
  rewrite WriteVarInt_append by (unfold nSpecialScripts; lia). cbn [write DataStream]. unfold append.
  by rewrite <- app_assoc.
Qed.

Lemma varint_small b rest : 0 <= b < 128 -> ReadVarInt 32 (b :: rest) = Ok (b, rest).
Proof.
  intros Hb. pose proof (ReadVarInt_app 32 b rest ltac:(lia) ltac:(unfold is_u; lia)) as H.
  unfold varint_bytes in H. change (Z.to_nat 32) with 32%nat in H. cbn [varint_tmp] in H.
  rewrite (proj2 (Z.leb_le b 0x7F)) in H by lia.
  rewrite low7, Z.lor_0_r, Z.mod_small in H by lia. exact H.
Qed.

(** Scripts that fit are read back; longer ones become an unspendable script. *)
Lemma ser_script_read s rest : Forall is_byte s -> Z.of_nat (length s) + nSpecialScripts < 2 ^ 32 ->
  Unserialize codec (script_bytes s ++ rest) =
  Ok (if Z.of_nat (length s) <=? MAX_SCRIPT_SIZE then s else [OP_RETURN], rest).
Proof.
  intros Hs Hl. unfold script_bytes. cbn [Unserialize ser_script].
  destruct (Compress s) as [c|] eqn:Ec.
  - assert (Z.of_nat (length s) <= 67) as Hshort by exact (Compress_short s c Ec).
    rewrite (proj2 (Z.leb_le _ _)) by (unfold MAX_SCRIPT_SIZE; lia).
    destruct (Compress_special s c Hs Ec) as (b & x & -> & Hb & Hx & Hbx & Hd). cbn [app].
    unfold nSpecialScripts in *. erewrite bind_Ok; [|apply varint_small; lia]. cbn beta.
    rewrite (proj2 (Z.ltb_lt b 6)) by lia. erewrite bind_Ok; [|by apply read_app].
    cbn beta. by rewrite Hd.
  - unfold nSpecialScripts in *. rewrite <- app_assoc.
    erewrite bind_Ok; [|apply ReadVarInt_app; [lia|unfold is_u; lia]]. cbn beta.
    rewrite (proj2 (Z.ltb_ge _ _)) by lia. cbn zeta.
    replace (Z.of_nat (length s) + 6 - 6) with (Z.of_nat (length s)) by lia. rewrite Z.gtb_ltb, Z.ltb_antisym.
    destruct (Z.of_nat (length s) <=? MAX_SCRIPT_SIZE); cbn [negb]; [by apply read_app|].
    by erewrite bind_Ok; [|by apply read_app].
Qed.

#[export] Instance script_lawful : Lawful script_valid codec.
Proof.
  assert (forall s, script_valid s -> Z.of_nat (length s) + nSpecialScripts < 2 ^ 32) as Hlen
    by (unfold script_valid, MAX_SCRIPT_SIZE, nSpecialScripts; intros s [_ ?]; lia).
  assert (forall s, script_valid s -> bytes_of codec s = script_bytes s) as Hbytes
    by (intros s Hs; unfold bytes_of; by rewrite ser_script_append by auto).
  split.
  - intros s st Hs. by rewrite Hbytes, ser_script_append by auto.
  - intros s Hs. rewrite Hbytes by done. unfold script_bytes. destruct (Compress s) as [c|] eqn:Ec.
    + destruct (Compress_special s c (proj1 Hs) Ec) as (b & x & -> & Hb & _ & Hx & _).
      unfold nSpecialScripts in Hb. constructor; [unfold is_u; lia|done].
    + apply Forall_app. split; [apply Forall_reverse, varint_tmp_bytes; unfold nSpecialScripts; lia|apply Hs].
  - intros s st Hs. rewrite Hbytes by done. unfold script_bytes. cbn [Serialize ser_script].
    destruct (Compress s) as [c|]; [done|]. cbn [write WriteVarInt SizeStream]. rewrite seek_seek.
    rewrite length_app, Nat2Z.inj_add, length_varint_bytes.
    rewrite uwrap_small; [done|]. specialize (Hlen s Hs). unfold is_u, nSpecialScripts in *. lia.
  - intros s rest Hs. rewrite Hbytes, ser_script_read by (auto || apply Hs).
    by rewrite (proj2 (Z.leb_le _ _) (proj2 Hs)).
Qed.
End roundtrip.

(** ** Amounts *)

Lemma strip_zeros_spec fuel n e : 0 < n -> 0 <= e -> e + Z.of_nat fuel = 9 ->
  let '(m, e') := strip_zeros fuel n e in
  n = m * 10 ^ (e' - e) /\ 0 < m /\ e <= e' <= 9 /\ (e' < 9 -> m mod 10 <> 0).
Proof.
  revert n e. induction fuel as [|fuel IH]; intros n e Hn He Hf; cbn [strip_zeros].
  { rewrite Z.sub_diag. split_and!; lia. }
  destruct (Z.eqb_spec (n mod 10) 0) as [E|E]; cbn [andb].
  2:{ rewrite Z.sub_diag. split_and!; lia. }
  rewrite (proj2 (Z.ltb_lt e 9)) by lia. pose proof (Z.div_mod n 10 ltac:(lia)).
  specialize (IH (n / 10) (e + 1) ltac:(lia) ltac:(lia) ltac:(lia)).
  destruct (strip_zeros fuel (n / 10) (e + 1)) as [m e']. destruct IH as (E1 & Hm & He' & Hmod).
  split_and!; [|done|lia|lia|done]. replace (e' - e) with (1 + (e' - (e + 1))) by lia.
  rewrite Z.pow_add_r by lia. nia.
Qed.

(** The loop strips as many zeros as there are, nine at most. *)
Lemma strip_zeros_unique m k : 0 < m -> 0 <= k <= 9 -> (k < 9 -> m mod 10 <> 0) ->
  strip_zeros 9 (m * 10 ^ k) 0 = (m, k).
Proof.
  intros Hm Hk Hmod.
  assert (forall fuel e, 0 <= e -> e + Z.of_nat fuel = 9 -> e <= k ->
    strip_zeros fuel (m * 10 ^ (k - e)) e = (m, k)) as H.
  { induction fuel as [|fuel IH]; intros e He Hf Hek; cbn [strip_zeros].
    - replace (k - e) with 0 by lia. rewrite Z.mul_1_r. f_equal. lia.
    - destruct (decide (e = k)) as [->|Hne].
      + rewrite Z.sub_diag, Z.mul_1_r. destruct (Z.eqb_spec (m mod 10) 0); [|done]. exfalso. apply Hmod; lia.
      + replace (k - e) with (Z.succ (k - (e + 1))) by lia. rewrite Z.pow_succ_r by lia.
        replace (m * (10 * 10 ^ (k - (e + 1)))) with (m * 10 ^ (k - (e + 1)) * 10) by lia.
        rewrite Z.mod_mul, Z.div_mul by lia. rewrite (proj2 (Z.ltb_lt e 9)) by lia. cbn [Z.eqb andb].
        apply IH; lia. }
  replace k with (k - 0) at 1 by lia. apply H; lia.
Qed.

Lemma times_ten_spec e n : 0 <= n -> n * 10 ^ Z.of_nat e < 2 ^ 64 -> times_ten e n = n * 10 ^ Z.of_nat e.
Proof.
  revert n. induction e as [|e IH]; intros n Hn Hb; cbn [times_ten]; [rewrite Z.mul_1_r; done|].
  rewrite Nat2Z.inj_succ, Z.pow_succ_r in * by lia.
  assert (1 <= 10 ^ Z.of_nat e) by (pose proof (Z.pow_pos_nonneg 10 (Z.of_nat e)); lia).
  rewrite uwrap_small by (unfold is_u; nia). rewrite IH by nia. lia.
Qed.

(** The value of a compressed amount, in unbounded arithmetic. *)
Definition amount_value (x : Z) : Z :=
  if x =? 0 then 0
  else let e := (x - 1) mod 10 in let y := (x - 1) / 10 in
       (if e <? 9 then y / 9 * 10 + (y mod 9 + 1) else y + 1) * 10 ^ e.

Lemma DecompressAmount_value x : 0 <= x < 2 ^ 64 -> amount_value x < 2 ^ 64 ->
  DecompressAmount x = amount_value x.
Proof.
  intros Hx Hv. unfold DecompressAmount, amount_value in *. destruct (Z.eqb_spec x 0) as [|Hne]; [done|]. cbn zeta in *.
  pose proof (Z.mod_pos_bound (x - 1) 10 ltac:(lia)) as He. set (e := (x - 1) mod 10) in *.
  assert (0 <= (x - 1) / 10 < 2 ^ 64) as Hy by (split; [apply Z.div_pos; lia|apply Z.div_lt_upper_bound; lia]).
  set (y := (x - 1) / 10) in *. pose proof (Z.mod_pos_bound y 9 ltac:(lia)).
  pose proof (Z.div_pos y 9 ltac:(lia) ltac:(lia)).
  assert (1 <= 10 ^ e) by (pose proof (Z.pow_pos_nonneg 10 e); lia).
  set (n := if e <? 9 then y / 9 * 10 + (y mod 9 + 1) else y + 1) in *.
  assert (0 <= n) by (unfold n; case_bool; lia). assert (n < 2 ^ 64) by nia.
  replace (if e <? 9 then u64 (y / 9 * 10 + (y mod 9 + 1)) else u64 (y + 1)) with n.
  2:{ unfold n in *. case_bool; rewrite uwrap_small; unfold is_u; lia. }
  rewrite times_ten_spec; rewrite ?Z2Nat.id by lia; lia.
Qed.

Lemma CompressAmount_bound n : 0 <= n < 2 ^ 60 ->
  0 <= CompressAmount n < 2 ^ 64 /\ amount_value (CompressAmount n) = n.
Proof.
  intros Hn. unfold CompressAmount. destruct (Z.eqb_spec n 0) as [->|Hne]; [done|].
  pose proof (strip_zeros_spec 9 n 0 ltac:(lia) ltac:(lia) ltac:(lia)) as H.
  destruct (strip_zeros 9 n 0) as [m e]. destruct H as (En & Hm & He & Hmod). rewrite Z.sub_0_r in En.
  assert (1 <= 10 ^ e) by (pose proof (Z.pow_pos_nonneg 10 e); lia).
  assert (m <= n) by nia. pose proof (Z.div_mod m 10 ltac:(lia)). pose proof (Z.mod_pos_bound m 10 ltac:(lia)).
  unfold amount_value. destruct (Z.ltb_spec e 9) as [He9|He9].
  - specialize (Hmod He9). rewrite uwrap_small by (unfold is_u; lia). split; [lia|].
    rewrite (proj2 (Z.eqb_neq _ 0)) by lia.
    replace (1 + (m / 10 * 9 + m mod 10 - 1) * 10 + e - 1) with (e + (m / 10 * 9 + m mod 10 - 1) * 10) by lia.
    rewrite Z.mod_add, Z.div_add, (Z.mod_small e), (Z.div_small e) by lia. cbn zeta.
    rewrite (proj2 (Z.ltb_lt e 9)), Z.add_0_l by lia.
    replace (m / 10 * 9 + m mod 10 - 1) with (m mod 10 - 1 + m / 10 * 9) by lia.
    rewrite Z.mod_add, Z.div_add, (Z.mod_small (m mod 10 - 1)), (Z.div_small (m mod 10 - 1)) by lia.
    rewrite En. f_equal. lia.
  - assert (e = 9) as -> by lia. rewrite uwrap_small by (unfold is_u; lia). split; [lia|].
    rewrite (proj2 (Z.eqb_neq _ 0)) by lia.
    replace (1 + (m - 1) * 10 + 9 - 1) with (9 + (m - 1) * 10) by lia.
    rewrite Z.mod_add, Z.div_add by lia. cbn [Z.modulo Z.div]. change (9 mod 10) with 9. change (9 / 10) with 0.
    change (9 <? 9) with false. cbn iota. rewrite En. f_equal. lia.
Qed.

(** Amounts are compressed without loss.  Below 2^60 (more than all the money),
    [CompressAmount] neither overflows nor loses information: [DecompressAmount] gives
    the amount back; conversely every 64-bit code whose value is below 2^60 is the code
    of that value, so the compression is a bijection. *)
Theorem amount_compression_correct (n x : Z) :
  (0 <= n < 2 ^ 60 -> is_u 64 (CompressAmount n) /\ DecompressAmount (CompressAmount n) = n) /\
  (is_u 64 x -> amount_value x < 2 ^ 60 ->
     DecompressAmount x = amount_value x /\ CompressAmount (DecompressAmount x) = x).
Proof.
  split.
  - intros Hn. destruct (CompressAmount_bound n Hn) as [Hb Hv]. split; [done|].
    rewrite DecompressAmount_value by lia. done.
  - unfold is_u. intros Hx Hv. assert (DecompressAmount x = amount_value x) as -> by (apply DecompressAmount_value; lia).
    split; [done|]. unfold amount_value in *. destruct (Z.eqb_spec x 0) as [->|Hne]; [done|]. cbn zeta in *.
    pose proof (Z.mod_pos_bound (x - 1) 10 ltac:(lia)) as He. pose proof (Z.div_mod (x - 1) 10 ltac:(lia)) as Ex.
    set (e := (x - 1) mod 10) in *. set (y := (x - 1) / 10) in *.
    assert (0 <= y) by (apply Z.div_pos; lia). pose proof (Z.mod_pos_bound y 9 ltac:(lia)).
    pose proof (Z.div_mod y 9 ltac:(lia)). pose proof (Z.div_pos y 9 ltac:(lia) ltac:(lia)).
    assert (1 <= 10 ^ e) by (pose proof (Z.pow_pos_nonneg 10 e); lia).
    set (m := if e <? 9 then y / 9 * 10 + (y mod 9 + 1) else y + 1) in *.
    assert (0 < m) by (unfold m; case_bool; lia).
    assert (e < 9 -> m = y / 9 * 10 + (y mod 9 + 1)) as Em by (intros; unfold m; case_bool; lia).
    assert (9 <= e -> m = y + 1) as Em9 by (intros; unfold m; case_bool; lia).
    unfold CompressAmount. rewrite (proj2 (Z.eqb_neq (m * 10 ^ e) 0)) by nia.
    rewrite strip_zeros_unique; [|done|lia|].
    2:{ intros He9. rewrite Em, Z.add_comm, Z.mod_add, Z.mod_small by lia. lia. }
    destruct (Z.ltb_spec e 9) as [He9|He9].
    + rewrite (Em He9), (Z.add_comm (y / 9 * 10)), Z.mod_add, Z.div_add, (Z.mod_small (y mod 9 + 1)),
        (Z.div_small (y mod 9 + 1)) by lia.
      rewrite uwrap_small by (unfold is_u; lia). lia.
    + rewrite (Em9 He9). rewrite uwrap_small by (unfold is_u; lia). lia.
Qed.

Lemma amount_compression_correct_witness :
  DecompressAmount (CompressAmount 1234500000) = 1234500000 /\
  CompressAmount (DecompressAmount 1000) = 1000.
Proof.
  split.
  - apply (amount_compression_correct 1234500000 0). lia.
  - refine (proj2 (proj2 (amount_compression_correct 0 1000) _ _)); [unfold is_u; lia|by vm_compute].
Defined.

(** Scripts are compressed without loss.  Given that decompression recovers a
    valid public key from its first coordinate and a parity bit, every script of at
    most [MAX_SCRIPT_SIZE] bytes is read back from its compressed form, whatever
    follows; the special forms take 21 or 33 bytes.  A longer script, which cannot be
    spent, is read back as the one-byte unspendable script. *)
Theorem script_compression_correct (IsFullyValid : list Z -> bool) (PubKey_Decompress : list Z -> option (list Z))
    (s rest : list Z) :
  (forall x y, length x = 32%nat -> length y = 32%nat -> Forall is_byte x -> Forall is_byte y ->
     IsFullyValid (0x04 :: x ++ y) = true ->
     PubKey_Decompress ((2 + Z.land (y !!! 31%nat) 0x01) :: x) = Some (0x04 :: x ++ y)) ->
  Forall is_byte s -> Z.of_nat (length s) + nSpecialScripts < 2 ^ 32 ->
  let codec := ser_script IsFullyValid PubKey_Decompress in
  let s' := if Z.of_nat (length s) <=? MAX_SCRIPT_SIZE then s else [OP_RETURN] in
  Unserialize codec (bytes_of codec s ++ rest) = Ok (s', rest) /\
  (s' <> s -> CScript.IsUnspendable s = true /\ CScript.IsUnspendable s' = true) /\
  (forall c, Compress IsFullyValid s = Some c ->
     bytes_of codec s = c /\ (length c = 21%nat \/ length c = 33%nat)).
Proof.
  intros Hpk Hs Hl codec s'. unfold codec, bytes_of. rewrite ser_script_append by done.
  rewrite app_nil_l. split_and!.
  - by apply ser_script_read.
  - unfold s'. destruct (Z.leb_spec (Z.of_nat (length s)) MAX_SCRIPT_SIZE); [done|]. intros _. split; [|done].
    unfold CScript.IsUnspendable. rewrite (Z.gtb_ltb _ MAX_SCRIPT_SIZE), (proj2 (Z.ltb_lt _ _)) by done.
    apply orb_true_r.
  - intros c Hc. unfold script_bytes. rewrite Hc. split; [done|].
    destruct (Compress_special _ _ Hpk s c Hs Hc) as (b & x & -> & Hb & Hx & _). cbn [length].
    assert (b = 0 \/ b = 1 \/ b = 2 \/ b = 3 \/ b = 4 \/ b = 5) as Hcases by (unfold nSpecialScripts in Hb; lia).
    destruct_or!; subst b; cbn in Hx; lia.
Qed.

(** A curve with one valid key. *)
Definition sample_key : list Z := 0x04 :: replicate 32 7 ++ replicate 32 5.

Lemma script_compression_correct_witness :
  let valid k := bool_decide (k = sample_key) in
  let decompress c := if bool_decide (c = 3 :: replicate 32 7) then Some sample_key else None in
  let s := [65] ++ sample_key ++ [OP_CHECKSIG] in
  Unserialize (ser_script valid decompress) (bytes_of (ser_script valid decompress) s ++ [1; 2]) = Ok (s, [1; 2]) /\
  length (bytes_of (ser_script valid decompress) s) = 33%nat.
Proof.
  intros valid decompress s.
  assert (forall x y, length x = 32%nat -> length y = 32%nat -> Forall is_byte x -> Forall is_byte y ->
     valid (0x04 :: x ++ y) = true ->
     decompress ((2 + Z.land (y !!! 31%nat) 0x01) :: x) = Some (0x04 :: x ++ y)) as Hpk.
  { intros x y Hx Hy _ _ Hv. apply bool_decide_eq_true in Hv. unfold sample_key in Hv.
    apply (f_equal tail) in Hv. cbn [tail] in Hv. apply app_inj_1 in Hv as [-> ->]; [done|by rewrite Hx]. }
  assert (Forall is_byte s) as Hs by by_decide.
  split.
  - exact (proj1 (script_compression_correct valid decompress s [1; 2] Hpk Hs ltac:(by vm_compute))).
  - vm_compute. reflexivity.
Defined.

(** ** Outputs *)

Section txout.
Variable IsFullyValid : list Z -> bool.
Variable PubKey_Decompress : list Z -> option (list Z).
Hypothesis Decompress_valid : forall x y, length x = 32%nat -> length y = 32%nat ->
  Forall is_byte x -> Forall is_byte y -> IsFullyValid (0x04 :: x ++ y) = true ->
  PubKey_Decompress ((2 + Z.land (y !!! 31%nat) 0x01) :: x) = Some (0x04 :: x ++ y).

Definition compressible (o : CTxOut.t) : Prop :=
  0 <= CTxOut.nValue o < 2 ^ 60 /\ script_valid (CTxOut.scriptPubKey o).

(** [CTxOutCompressor] as a varint followed by a compressed script. *)
Lemma txout_lawful : Lawful compressible (ser_txout IsFullyValid PubKey_Decompress).
Proof.
  pose proof (script_lawful IsFullyValid PubKey_Decompress Decompress_valid) as Hscript.
  set (pc := ser_pair (ser_varint 64) (ser_script IsFullyValid PubKey_Decompress)).
  set (to := fun o => (CompressAmount (u64 (CTxOut.nValue o)), CTxOut.scriptPubKey o)).
  set (from := fun p : Z * list Z => CTxOut.mk (i64 (DecompressAmount p.1)) p.2).
  assert (Lawful compressible (ser_iso to from pc)) as [H1 H2 H3 H4].
  { apply (iso_lawful_on (fun p => is_u 64 p.1 /\ script_valid p.2)); [apply _|].
    intros [v s] [Hv Hs]. unfold to, from. cbn [fst snd CTxOut.nValue CTxOut.scriptPubKey] in *.
    rewrite uwrap_small by (unfold is_u; lia). destruct (CompressAmount_bound v Hv) as [Hb Hval].
    split; [split; [exact Hb|exact Hs]|]. f_equal. rewrite DecompressAmount_value, Hval by lia.
    apply swrap_small; unfold is_s; lia. }
  split; intros; [by apply H1|by apply H2|by apply H3|].
  etrans; [|by apply H4]. unfold ser_iso, pc, ser_pair, ser_txout, ser_varint, bytes_of, to, from.
  cbn [Unserialize Serialize fst snd]. unfold mbind, Reader_bind.
  destruct (ReadVarInt 64 _) as [[n s']|]; [|done]. cbn beta iota.
  destruct (Unserialize (ser_script IsFullyValid PubKey_Decompress) s') as [[x s'']|]; done.
Qed.
End txout.
