(* ===== verification/CoinsCodec.v ===== *)
(** * CoinsCodec: coins and undo data on disk

    Models the serialization of [CCoins] ([src/src/coins.h]) with its bit mask of
    unspent outputs, and the undo records of [src/src/undo.h].  The encoding is
    defined for coins that are not fully spent; the source asserts it. *)
From S2P Require Import Prelude Endian Serialize Amount Transaction Chain Script Compressor Coins.

Section coins.
Variable IsFullyValid : list Z -> bool.
Variable PubKey_Decompress : list Z -> option (list Z).
#[local] Abbreviation ser_txout := (ser_txout IsFullyValid PubKey_Decompress).
#[local] Abbreviation ser_int := CDiskBlockPos.ser_varint_int.

Definition unspent (v : list CTxOut.t) (i : nat) : bool :=
  match v !! i with Some o => negb (CTxOut.IsNull o) | None => false end.

(** [chAvail] of byte [b] of the mask *)
Definition mask_byte (v : list CTxOut.t) (b : nat) : Z :=
  foldl (fun chAvail i => if (2 + b * 8 + i <? length v)%nat && unspent v (2 + b * 8 + i)
                          then Z.lor chAvail (Z.shiftl 1 (Z.of_nat i)) else chAvail) 0 (seq 0 8).

Definition nCode (c : CCoins.t) : Z :=
  let '(_, nMaskCode) := CCoins.CalcMaskSize c in
  let fFirst := unspent (CCoins.vout c) 0 in
  let fSecond := unspent (CCoins.vout c) 1 in
  u32 (8 * (Z.of_nat nMaskCode - (if fFirst || fSecond then 0 else 1)) + (if CCoins.fCoinBase c then 1 else 0)
       + (if fFirst then 2 else 0) + (if fSecond then 4 else 0)).

Definition Serialize_coins {St} {os : OStream St} (c : CCoins.t) (s : St) : St :=
  let v := CCoins.vout c in
  let '(nMaskSize, _) := CCoins.CalcMaskSize c in
  let s := Serialize ser_int (CCoins.nVersion c) s in
  let s := Serialize (ser_varint 32) (nCode c) s in
  let s := foldl (fun s b => Serialize ser_uint8 (mask_byte v b) s) s (seq 0 nMaskSize) in
  let s := foldl (fun s o => if negb (CTxOut.IsNull o) then Serialize ser_txout o s else s) s v in
  let s := Serialize ser_int (CCoins.nHeight c) s in
  let s := Serialize (ser_varint 32) (if CCoins.fCoinStake c then 1 else 0) s in
  Serialize (ser_varint 32) (CCoins.nTime c) s.

(** [while (nMaskCode > 0)]: every round takes a byte of the stream. *)
Fixpoint read_mask (s : list Z) (nMaskCode : Z) (vAvail : list bool) : result ser_error (list bool * list Z) :=
  if nMaskCode >? 0 then
    match s with
    | [] => Err end_of_data
    | chAvail :: s' =>
        read_mask s' (if negb (chAvail =? 0) then nMaskCode - 1 else nMaskCode)
          (vAvail ++ map (fun p => negb (Z.land chAvail (Z.shiftl 1 (Z.of_nat p)) =? 0)) (seq 0 8))
    end
  else Ok (vAvail, s).

Fixpoint read_vout (vAvail : list bool) : Reader (list CTxOut.t) :=
  match vAvail with
  | [] => mret []
  | true :: l => o ← Unserialize ser_txout; v ← read_vout l; mret (o :: v)
  | false :: l => v ← read_vout l; mret (CTxOut.null :: v)
  end.

Definition Unserialize_coins : Reader CCoins.t :=
  nVersion ← Unserialize ser_int;
  nCode ← Unserialize (ser_varint 32);
  let fCoinBase := negb (Z.land nCode 1 =? 0) in
  let vAvail := [negb (Z.land nCode 2 =? 0); negb (Z.land nCode 4 =? 0)] in
  let nMaskCode := nCode / 8 + (if negb (Z.land nCode 6 =? 0) then 0 else 1) in
  vAvail ← (fun s => read_mask s nMaskCode vAvail);
  vout ← read_vout vAvail;
  nHeight ← Unserialize ser_int;
  nFlag ← Unserialize (ser_varint 32);
  nTime ← Unserialize (ser_varint 32);
  mret (CCoins.Cleanup (CCoins.mk fCoinBase vout nHeight nVersion (negb (Z.land nFlag 1 =? 0)) nTime)).

Definition ser_coins : Codec CCoins.t :=
  {| Serialize St os := Serialize_coins; Unserialize := Unserialize_coins |}.

End coins.

(** ** Undo data *)

Module CTxInUndo.

Record t : Type := mk {
  txout : CTxOut.t;
  fCoinBase : bool;
  nHeight : Z;
  nVersion : Z;
  fCoinStake : bool;
  nTime : Z;
}.

Definition empty : t := mk CTxOut.null false 0 0 false 0.
(** [CTxInUndo(txoutIn)] *)
Definition of_txout (o : CTxOut.t) : t := mk o false 0 0 false 0.

Section codec.
Variable IsFullyValid : list Z -> bool.
Variable PubKey_Decompress : list Z -> option (list Z).

Definition codec : Codec t :=
  {| Serialize St os u s :=
       let s := WriteVarInt 32 (u32 (nHeight u * 4 + (if fCoinBase u then 1 else 0)
                                     + (if fCoinStake u then 2 else 0))) s in
       let s := WriteVarInt 32 (nTime u) s in
       let s := if nHeight u >? 0 then Serialize CDiskBlockPos.ser_varint_int (nVersion u) s else s in
       Serialize (ser_txout IsFullyValid PubKey_Decompress) (txout u) s;
     Unserialize :=
       nCode ← ReadVarInt 32;
       let nHeight := nCode / 4 in
       nTime ← ReadVarInt 32;
       nVersion ← (if nHeight >? 0 then Unserialize CDiskBlockPos.ser_varint_int else mret 0);
       txout ← Unserialize (ser_txout IsFullyValid PubKey_Decompress);
       mret (mk txout (negb (Z.land nCode 1 =? 0)) nHeight nVersion (negb (Z.land nCode 2 =? 0)) nTime) |}.
End codec.

End CTxInUndo.

(** [CTxUndo] and [CBlockUndo]: vectors of undo records. *)
Definition ser_txundo (be : bool) IsFullyValid PubKey_Decompress : Codec (list CTxInUndo.t) :=
  ser_vector be 64 (CTxInUndo.codec IsFullyValid PubKey_Decompress).
Definition ser_blockundo (be : bool) IsFullyValid PubKey_Decompress : Codec (list (list CTxInUndo.t)) :=
  ser_vector be 24 (ser_txundo be IsFullyValid PubKey_Decompress).

(** ** The bit mask *)

Section mask.
Variable v : list CTxOut.t.

Definition bits (b : nat) : list bool := map (fun i => unspent v (2 + b * 8 + i)) (seq 0 8).

Lemma unspent_bound i : (i <? length v)%nat && unspent v i = unspent v i.
Proof.
  unfold unspent. destruct (v !! i) eqn:E; [|apply andb_false_r].
  by rewrite (proj2 (Nat.ltb_lt _ _) (lookup_lt_Some _ _ _ E)).
Qed.

Lemma existsb_bits k n :
  existsb (fun o => negb (CTxOut.IsNull o)) (take n (drop k v)) =
  existsb id (map (fun i => unspent v (k + i)) (seq 0 n)).
Proof.
  revert k. induction n as [|n IH]; intros k; [done|]. cbn [seq map existsb].
  rewrite <- seq_shift, List.map_map, Nat.add_0_r.
  erewrite List.map_ext; [|intros i; by rewrite <- Nat.add_succ_comm]. rewrite <- IH.
  unfold unspent at 1. destruct (v !! k) as [o|] eqn:E.
  - by rewrite (drop_S v o k E).
  - apply lookup_ge_None in E. rewrite !drop_ge by lia. by rewrite !take_nil.
Qed.

(** A byte of the mask has the bits of its eight outputs. *)
Lemma mask_byte_spec b :
  map (fun p => negb (Z.land (mask_byte v b) (Z.shiftl 1 (Z.of_nat p)) =? 0)) (seq 0 8) = bits b /\
  (mask_byte v b =? 0) = negb (CCoins.mask_byte_used v b) /\ is_byte (mask_byte v b).
Proof.
  unfold CCoins.mask_byte_used. rewrite existsb_bits. unfold mask_byte, bits. cbn [seq foldl map].
  rewrite !unspent_bound. unfold is_u.
  destruct (unspent v (2 + b * 8 + 0)), (unspent v (2 + b * 8 + 1)), (unspent v (2 + b * 8 + 2)),
    (unspent v (2 + b * 8 + 3)), (unspent v (2 + b * 8 + 4)), (unspent v (2 + b * 8 + 5)),
    (unspent v (2 + b * 8 + 6)), (unspent v (2 + b * 8 + 7));
    (split; [reflexivity|split; [reflexivity|split; [discriminate|reflexivity]]]).
Qed.

(** The number of mask bytes: the last output is unspent. *)
Definition mask_size : nat := (length v + 5) / 8.

Hypothesis v_last : match last v with Some o => CTxOut.IsNull o = false | None => True end.

Lemma mask_size_bound : (length v <= 2 + 8 * mask_size)%nat /\
  (mask_size <> 0%nat -> (2 + (mask_size - 1) * 8 < length v)%nat /\ CCoins.mask_byte_used v (mask_size - 1) = true).
Proof.
  unfold mask_size. pose proof (Nat.div_mod_eq (length v + 5) 8) as Hd.
  pose proof (Nat.mod_upper_bound (length v + 5) 8 ltac:(lia)). set (q := ((length v + 5) / 8)%nat) in *.
  split; [lia|]. intros Hq. split; [lia|]. unfold CCoins.mask_byte_used.
  destruct (last v) as [o|] eqn:El; [|apply last_None in El; rewrite El in *; cbn in *; lia].
  apply List.existsb_exists. exists o. rewrite v_last. split; [|done].
  rewrite last_lookup in El. apply list_elem_of_In, (list_elem_of_lookup_2 _ (pred (length v) - (2 + (q - 1) * 8))).
  rewrite lookup_take_lt by lia. rewrite lookup_drop. by replace (2 + (q - 1) * 8 + (pred (length v) - (2 + (q - 1) * 8)))%nat
    with (pred (length v)) by lia.
Qed.

Definition used_count (b k : nat) : nat :=
  length (filter (fun b => CCoins.mask_byte_used v b = true) (seq b k)).

Lemma used_count_S b k : used_count b (S k) =
  ((if CCoins.mask_byte_used v b then 1 else 0) + used_count (S b) k)%nat.
Proof.
  unfold used_count. cbn [seq]. rewrite filter_cons.
  destruct (CCoins.mask_byte_used v b); [rewrite decide_True by done|rewrite decide_False by done]; done.
Qed.

Lemma CalcMaskSize_loop_spec k fuel b l nz : (b + k = mask_size)%nat -> (k <= fuel)%nat ->
  CCoins.CalcMaskSize_loop fuel v b l nz = ((if (k =? 0)%nat then l else mask_size), (nz + used_count b k)%nat).
Proof.
  destruct mask_size_bound as [H1 H2]. revert fuel b l nz.
  induction k as [|k IH]; intros fuel b l nz Hb Hf.
  - change (used_count b 0) with 0%nat. rewrite Nat.add_0_r. cbn [Nat.eqb].
    destruct fuel; cbn [CCoins.CalcMaskSize_loop]; [done|]. by rewrite (proj2 (Nat.ltb_ge _ _)) by lia.
  - destruct fuel as [|fuel]; [lia|]. cbn [CCoins.CalcMaskSize_loop Nat.eqb].
    destruct H2 as [H2 H3]; [lia|]. rewrite (proj2 (Nat.ltb_lt _ _)) by lia. rewrite used_count_S.
    destruct (CCoins.mask_byte_used v b) eqn:Eu.
    + rewrite IH by lia. f_equal; [|lia]. destruct k; cbn [Nat.eqb]; lia.
    + rewrite IH by lia. f_equal. destruct k; [|done].
      replace (mask_size - 1)%nat with b in H3 by lia. congruence.
Qed.

Lemma CalcMaskSize_spec c : CCoins.vout c = v -> CCoins.CalcMaskSize c = (mask_size, used_count 0 mask_size).
Proof.
  intros E. unfold CCoins.CalcMaskSize. rewrite E, (CalcMaskSize_loop_spec mask_size).
  - by destruct mask_size.
  - done.
  - pose proof (Nat.div_mod_eq (length v + 5) 8) as Hd. fold mask_size in Hd.
    pose proof (Nat.mod_upper_bound (length v + 5) 8 ltac:(lia)). destruct mask_size_bound as [_ H2].
    destruct mask_size eqn:Eq; [lia|]. destruct H2 as [H2 _]; lia.
Qed.

Lemma read_mask_spec k b acc rest :
  (k = 0%nat \/ CCoins.mask_byte_used v (b + k - 1) = true) ->
  read_mask (map (mask_byte v) (seq b k) ++ rest) (Z.of_nat (used_count b k)) acc =
  Ok (acc ++ mjoin (map bits (seq b k)), rest).
Proof.
  revert b acc. induction k as [|k IH]; intros b acc Hk.
  - cbn. rewrite app_nil_r. by destruct rest.
  - cbn [seq map app]. destruct (mask_byte_spec b) as (Hbits & Hzero & _).
    assert (k <> 0%nat -> (0 < used_count (S b) k)%nat) as Hpos.
    { intros Hne. unfold used_count. destruct Hk as [|Hk]; [done|].
      assert ((b + k)%nat ∈ filter (fun b => CCoins.mask_byte_used v b = true) (seq (S b) k)) as Hin.
      { apply list_elem_of_filter. split; [by replace (b + k)%nat with (b + S k - 1)%nat by lia|].
        apply elem_of_seq. lia. }
      destruct (filter _ _); [by apply not_elem_of_nil in Hin|cbn; lia]. }
    rewrite used_count_S. cbn [read_mask]. rewrite Z.gtb_ltb.
    rewrite (proj2 (Z.ltb_lt _ _)).
    2:{ destruct (decide (k = 0%nat)) as [->|Hne]; [|specialize (Hpos Hne); lia].
        destruct Hk as [|Hk]; [done|]. replace (b + 1 - 1)%nat with b in Hk by lia. rewrite Hk. lia. }
    rewrite Hbits, Hzero, negb_involutive. cbn [mjoin list_join map]. rewrite app_assoc.
    rewrite <- IH; [|destruct k; [by left|right; destruct Hk as [|Hk]; [done|]];
      by replace (S b + S k - 1)%nat with (b + S (S k) - 1)%nat by lia].
    f_equal. destruct (CCoins.mask_byte_used v b); lia.
Qed.

Lemma join_bits k b : mjoin (map bits (seq b k)) = map (unspent v) (seq (2 + b * 8) (k * 8)).
Proof.
  revert b. induction k as [|k IH]; intros b; [done|]. cbn [seq map mjoin list_join]. rewrite IH.
  replace (S k * 8)%nat with (8 + k * 8)%nat by lia. rewrite seq_app, map_app.
  replace (2 + b * 8 + 8)%nat with (2 + S b * 8)%nat by lia. f_equal. unfold bits.
  replace (seq (2 + b * 8) 8) with (map (Nat.add (2 + b * 8)) (seq 0 8)) by (rewrite (fmap_add_seq (2 + b * 8) 0); f_equal; lia).
  by rewrite List.map_map.
Qed.
End mask.

(** ** Reading the outputs back *)

Section roundtrip.
Variable IsFullyValid : list Z -> bool.
Variable PubKey_Decompress : list Z -> option (list Z).
Hypothesis Decompress_valid : forall x y, length x = 32%nat -> length y = 32%nat ->
  Forall is_byte x -> Forall is_byte y -> IsFullyValid (0x04 :: x ++ y) = true ->
  PubKey_Decompress ((2 + Z.land (y !!! 31%nat) 0x01) :: x) = Some (0x04 :: x ++ y).
#[local] Abbreviation txout_codec := (ser_txout IsFullyValid PubKey_Decompress).
#[local] Instance txout_law : Lawful compressible txout_codec :=
  txout_lawful IsFullyValid PubKey_Decompress Decompress_valid.

(** Spent outputs are null; the others can be compressed. *)
Definition output_ok (o : CTxOut.t) : Prop :=
  o = CTxOut.null \/ (CTxOut.IsNull o = false /\ compressible o).

Record coins_valid (c : CCoins.t) : Prop := {
  cv_unspent : CCoins.IsPruned c = false;
  cv_clean : match last (CCoins.vout c) with Some o => CTxOut.IsNull o = false | None => True end;
  cv_outs : Forall output_ok (CCoins.vout c);
  cv_size : Z.of_nat (length (CCoins.vout c)) < 2 ^ 31;
  cv_height : 0 <= CCoins.nHeight c < 2 ^ 31;
  cv_version : 0 <= CCoins.nVersion c < 2 ^ 31;
  cv_time : is_u 32 (CCoins.nTime c);
}.

Definition out_bytes (v : list CTxOut.t) : list Z :=
  mjoin (map (fun o => if CTxOut.IsNull o then [] else bytes_of txout_codec o) v).

Lemma read_vout_spec v k j rest : Forall output_ok v -> (length v <= j + k)%nat ->
  read_vout IsFullyValid PubKey_Decompress (map (unspent v) (seq j k)) (out_bytes (drop j v) ++ rest) =
  Ok (map (fun i => default CTxOut.null (v !! i)) (seq j k), rest).
Proof.
  intros Hv. revert j. induction k as [|k IH]; intros j Hl.
  - rewrite drop_ge by lia. done.
  - cbn [seq map]. specialize (IH (S j) ltac:(lia)). unfold unspent at 1. destruct (v !! j) as [o|] eqn:E.
    + rewrite (drop_S v o j E). unfold out_bytes in *. cbn [map mjoin list_join].
      destruct (proj1 (Forall_lookup _ _) Hv j o E) as [-> | [Hn Hc]].
      * cbn [negb CTxOut.IsNull CTxOut.null CTxOut.nValue Z.eqb Pos.eqb read_vout app].
        erewrite bind_Ok; [|exact IH]. done.
      * rewrite Hn. cbn [negb read_vout]. rewrite <- app_assoc.
        erewrite bind_Ok; [|by apply law_read]. cbn beta. erewrite bind_Ok; [|exact IH]. done.
    + apply lookup_ge_None in E. rewrite !drop_ge in * by lia. cbn [read_vout].
      erewrite bind_Ok; [|exact IH]. done.
Qed.

Lemma padded_list v k : (length v <= k)%nat ->
  map (fun i => default CTxOut.null (v !! i)) (seq 0 k) = v ++ replicate (k - length v) CTxOut.null.
Proof.
  intros Hk. apply list_eq. intros i. rewrite list_lookup_fmap. destruct (decide (i < k)%nat) as [Hi|Hi].
  - rewrite lookup_seq_lt by done. cbn [fmap option_fmap option_map Nat.add]. destruct (decide (i < length v)%nat) as [Hv|Hv].
    + destruct (lookup_lt_is_Some_2 v i Hv) as [o Ho]. rewrite (lookup_app_l_Some _ _ _ _ Ho). by rewrite Ho.
    + rewrite (lookup_ge_None_2 v i) by lia. rewrite lookup_app_r, lookup_replicate_2 by lia. done.
  - rewrite lookup_seq_ge by lia. symmetry. apply lookup_ge_None. rewrite length_app, length_replicate. lia.
Qed.

Lemma clean_app_null v n : CCoins.Cleanup_loop (length (v ++ replicate n CTxOut.null)) (v ++ replicate n CTxOut.null)
  = CCoins.Cleanup_loop (length v) v.
Proof.
  induction n as [|n IH]; [by rewrite app_nil_r|]. rewrite replicate_S_end, app_assoc, clean_snoc.
  exact IH.
Qed.

Lemma land_mod x m k : 0 <= k -> 0 <= m < 2 ^ k -> Z.land x m = Z.land (x mod 2 ^ k) m.
Proof.
  intros Hk Hm. rewrite <- Z.land_ones by done. rewrite <- Z.land_assoc. f_equal.
  rewrite Z.land_comm, Z.land_ones by done. symmetry. by apply Z.mod_small.
Qed.

(** The header code carries the coinbase flag, the first two outputs, and the number
    of non-zero mask bytes. *)
Lemma nCode_spec c : coins_valid c ->
  let n := nCode c in
  is_u 32 n /\ negb (Z.land n 1 =? 0) = CCoins.fCoinBase c /\
  negb (Z.land n 2 =? 0) = unspent (CCoins.vout c) 0 /\ negb (Z.land n 4 =? 0) = unspent (CCoins.vout c) 1 /\
  n / 8 + (if negb (Z.land n 6 =? 0) then 0 else 1) = Z.of_nat (used_count (CCoins.vout c) 0 (mask_size (CCoins.vout c))).
Proof.
  intros [Hu Hc Ho Hs _ _ _]. unfold nCode. set (v := CCoins.vout c) in *.
  rewrite (CalcMaskSize_spec v Hc c eq_refl). set (k := used_count v 0 (mask_size v)).
  set (f := unspent v 0). set (g := unspent v 1).
  assert (Z.of_nat k <= Z.of_nat (mask_size v) /\ 8 * Z.of_nat (mask_size v) <= Z.of_nat (length v) + 5) as [Hk1 Hk2].
  { split.
    - unfold k, used_count. etrans; [apply inj_le, length_filter|]. by rewrite length_seq.
    - unfold mask_size. pose proof (Nat.div_mod_eq (length v + 5) 8). lia. }
  assert (f || g = false -> 1 <= Z.of_nat k) as Hpos.
  { intros Hfg. apply orb_false_elim in Hfg as [Hf Hg]. unfold f, g, unspent in Hf, Hg.
    destruct (mask_size_bound v Hc) as [Hb Hused]. destruct (mask_size v) as [|q] eqn:Eq.
    - exfalso. unfold CCoins.IsPruned in Hu. fold v in Hu. destruct v as [|a [|b [|]]]; cbn in *; [done| | |lia];
        rewrite ?andb_true_r in Hu; apply negb_false_iff in Hf; try apply negb_false_iff in Hg; rewrite ?Hf, ?Hg in Hu; done.
    - destruct Hused as [_ Hused]; [done|]. unfold k, used_count.
      assert (q ∈ filter (fun b => CCoins.mask_byte_used v b = true) (seq 0 (S q))) as Hin.
      { apply list_elem_of_filter. split; [by replace q with (S q - 1)%nat by lia|apply elem_of_seq; lia]. }
      destruct (filter _ _); [by apply not_elem_of_nil in Hin|cbn; lia]. }
  set (a := Z.of_nat k - (if f || g then 0 else 1)).
  assert (0 <= a) as Ha by (unfold a; destruct (f || g); [lia|specialize (Hpos eq_refl); lia]).
  assert (a <= Z.of_nat k) as Hak by (unfold a; destruct (f || g); lia).
  set (r := (if CCoins.fCoinBase c then 1 else 0) + (if f then 2 else 0) + (if g then 4 else 0)).
  assert (0 <= r < 8) as Hr by (unfold r; destruct (CCoins.fCoinBase c), f, g; lia).
  assert (u32 (8 * a + (if CCoins.fCoinBase c then 1 else 0) + (if f then 2 else 0) + (if g then 4 else 0))
          = r + a * 8) as ->.
  { replace (8 * a + _ + _ + _) with (r + a * 8) by (unfold r; lia). apply uwrap_small. unfold is_u. lia. }
  cbn zeta. rewrite !(land_mod (r + a * 8) _ 3) by lia. change (2 ^ 3) with 8.
  rewrite Z.mod_add, (Z.mod_small r), Z.div_add, (Z.div_small r) by lia.
  split; [unfold is_u; lia|].
  unfold a, r. destruct (CCoins.fCoinBase c), f, g; cbn [orb]; split_and!; try reflexivity;
    match goal with |- context [if ?b then _ else _] => let b' := eval vm_compute in b in change b with b' end; lia.
Qed.

Definition coins_bytes (c : CCoins.t) : list Z :=
  varint_bytes 32 (CCoins.nVersion c) ++ varint_bytes 32 (nCode c)
  ++ map (mask_byte (CCoins.vout c)) (seq 0 (mask_size (CCoins.vout c))) ++ out_bytes (CCoins.vout c)
  ++ varint_bytes 32 (CCoins.nHeight c) ++ varint_bytes 32 (if CCoins.fCoinStake c then 1 else 0)
  ++ varint_bytes 32 (CCoins.nTime c).

Lemma fold_mask_append v l (s : list Z) :
  foldl (fun s b => Serialize ser_uint8 (mask_byte v b) s) s l = s ++ map (mask_byte v) l.
Proof.
  revert s. induction l as [|b l IH]; intros s; cbn [foldl map]; [by rewrite app_nil_r|]. rewrite IH.
  destruct (mask_byte_spec v b) as (_ & _ & Hb). rewrite (law_append (mask_byte v b)) by done.
  rewrite <- app_assoc. f_equal. unfold bytes_of. cbn. by rewrite uwrap_small.
Qed.

Lemma fold_outs_append v (s : list Z) : Forall output_ok v ->
  foldl (fun s o => if negb (CTxOut.IsNull o) then Serialize txout_codec o s else s) s v = s ++ out_bytes v.
Proof.
  intros Hv. revert s. induction Hv as [|o v Ho _ IH]; intros s; cbn [foldl]; [by rewrite app_nil_r|].
  rewrite IH. unfold out_bytes. cbn [map mjoin list_join]. destruct Ho as [-> | [Hn Hc]]; [done|].
  rewrite Hn. cbn [negb]. rewrite (law_append o) by done. by rewrite <- app_assoc.
Qed.

Lemma coins_append c (s : list Z) : coins_valid c ->
  Serialize_coins IsFullyValid PubKey_Decompress c s = s ++ coins_bytes c.
Proof.
  intros Hc. pose proof (nCode_spec c Hc) as [Hn _]. destruct Hc as [_ Hc Ho _ Hh Hv Ht]. unfold is_u in *.
  unfold Serialize_coins. rewrite (CalcMaskSize_spec _ Hc c eq_refl). cbn [Serialize ser_varint CDiskBlockPos.ser_varint_int].
  rewrite !WriteVarInt_append by (try destruct (CCoins.fCoinStake c); lia).
  rewrite fold_mask_append, fold_outs_append by done. unfold coins_bytes. by rewrite <- !app_assoc.
Qed.

Lemma seek_0 (s : CSizeComputer) : is_u 64 (nSize s) -> seek 0 s = s.
Proof. destruct s. unfold seek. cbn. intros. by rewrite Z.add_0_r, uwrap_small. Qed.

(** The size computer counts what is written; its count is a [size_t]. *)
Lemma fold_mask_size v l (s : CSizeComputer) : is_u 64 (nSize s) ->
  foldl (fun s b => Serialize ser_uint8 (mask_byte v b) s) s l = seek (Z.of_nat (length l)) s.
Proof.
  revert s. induction l as [|b l IH]; intros s Hs; cbn [foldl]; [by rewrite seek_0|].
  rewrite IH by (by apply uwrap_range). destruct (mask_byte_spec v b) as (_ & _ & Hb).
  rewrite (law_size (mask_byte v b)), seek_seek by done. f_equal.
  change (length (bytes_of ser_uint8 (mask_byte v b))) with 1%nat. cbn [length]. lia.
Qed.

Lemma fold_outs_size v (s : CSizeComputer) : Forall output_ok v -> is_u 64 (nSize s) ->
  foldl (fun s o => if negb (CTxOut.IsNull o) then Serialize txout_codec o s else s) s v
  = seek (Z.of_nat (length (out_bytes v))) s.
Proof.
  intros Hv. revert s. induction Hv as [|o v Ho _ IH]; intros s Hs; cbn [foldl]; [by rewrite seek_0|].
  change (out_bytes (o :: v)) with ((if CTxOut.IsNull o then [] else bytes_of txout_codec o) ++ out_bytes v).
  destruct Ho as [-> | [Hn Hc]]; [by apply IH|]. rewrite Hn. cbn [negb]. rewrite (law_size o) by done. rewrite IH, seek_seek by (by apply uwrap_range).
  f_equal. rewrite length_app. lia.
Qed.

Lemma coins_size c (s : CSizeComputer) : coins_valid c ->
  Serialize_coins IsFullyValid PubKey_Decompress c s = seek (Z.of_nat (length (coins_bytes c))) s.
Proof.
  intros [_ Hc Ho _ _ _ _]. unfold Serialize_coins. rewrite (CalcMaskSize_spec _ Hc c eq_refl).
  cbn [Serialize ser_varint CDiskBlockPos.ser_varint_int WriteVarInt SizeStream].
  rewrite seek_seek, fold_mask_size, fold_outs_size by (done || by apply uwrap_range).
  rewrite !seek_seek. f_equal. unfold coins_bytes.
  rewrite !length_app, !Nat2Z.inj_add, !length_varint_bytes, length_map. lia.
Qed.

Lemma read_int n rest : 0 <= n < 2 ^ 31 ->
  Unserialize CDiskBlockPos.ser_varint_int (varint_bytes 32 n ++ rest) = Ok (n, rest).
Proof.
  intros Hn. cbn [Unserialize CDiskBlockPos.ser_varint_int].
  erewrite bind_Ok; [|apply ReadVarInt_app; [lia|unfold is_u; lia]].
  cbv [mret Reader_ret]. by rewrite swrap_small by (unfold is_s; lia).
Qed.

Lemma coins_read c rest : coins_valid c ->
  Unserialize_coins IsFullyValid PubKey_Decompress (coins_bytes c ++ rest) = Ok (c, rest).
Proof.
  intros Hc. destruct (nCode_spec c Hc) as (Hn & H1 & H2 & H4 & Hm).
  destruct Hc as [_ Hclean Ho _ Hh Hv Ht]. unfold coins_bytes, Unserialize_coins. rewrite <- !app_assoc.
  erewrite bind_Ok; [|by apply read_int]. cbn beta.
  erewrite bind_Ok; [|by apply ReadVarInt_app]. cbn beta zeta. rewrite H1, H2, H4, Hm.
  set (v := CCoins.vout c) in *. destruct (mask_size_bound v Hclean) as [Hb1 Hb2].
  erewrite bind_Ok; [|apply read_mask_spec; destruct (mask_size v); [by left|right; by apply Hb2]]. cbn beta.
  rewrite (join_bits v (mask_size v) 0).
  change ([unspent v 0; unspent v 1] ++ map (unspent v) (seq (2 + 0 * 8) (mask_size v * 8)))
    with (map (unspent v) (seq 0 (2 + mask_size v * 8))).
  erewrite bind_Ok; [|apply (read_vout_spec v _ 0); [done|lia]]. cbn beta.
  erewrite bind_Ok; [|by apply read_int]. cbn beta.
  erewrite bind_Ok; [|apply ReadVarInt_app; [lia|by destruct (CCoins.fCoinStake c)]]. cbn beta.
  erewrite bind_Ok; [|by apply ReadVarInt_app]. cbv [mret Reader_ret]. do 2 f_equal.
  rewrite padded_list by lia. unfold CCoins.Cleanup, CCoins.set_vout.
  cbn [CCoins.vout CCoins.fCoinBase CCoins.nHeight CCoins.nVersion CCoins.fCoinStake CCoins.nTime].
  rewrite clean_app_null, clean_id by done. unfold v. by destruct c as [? ? ? ? [|] ?].
Qed.

#[export] Instance coins_lawful : Lawful coins_valid (ser_coins IsFullyValid PubKey_Decompress).
Proof.
  assert (forall c, coins_valid c -> bytes_of (ser_coins IsFullyValid PubKey_Decompress) c = coins_bytes c) as Hb
    by (intros; exact (coins_append _ [] ltac:(done))).
  split.
  - intros c s Hc. rewrite Hb by done. by apply coins_append.
  - intros c Hc. rewrite Hb by done. pose proof (nCode_spec c Hc) as [Hn _]. destruct Hc as [_ _ Ho _ Hh Hv Ht].
    unfold is_u in *. unfold coins_bytes. rewrite !Forall_app. split_and!;
      try (apply Forall_reverse, varint_tmp_bytes; try destruct (CCoins.fCoinStake c); lia).
    + apply Forall_fmap, Forall_forall. intros b _. apply mask_byte_spec.
    + unfold out_bytes. apply Forall_join, Forall_fmap. apply (Forall_impl _ _ _ Ho). intros o Hok. unfold compose.
      destruct Hok as [-> | [Hnl Hc]]; [by constructor|]. rewrite Hnl. by apply law_bytes.
  - intros c s Hc. rewrite Hb by done. by apply coins_size.
  - intros c rest Hc. rewrite Hb by done. by apply coins_read.
Qed.

(** *** Undo records *)

Record undo_valid (u : CTxInUndo.t) : Prop := {
  uv_out : compressible (CTxInUndo.txout u);
  uv_height : 0 <= CTxInUndo.nHeight u < 2 ^ 30;
  uv_version : 0 <= CTxInUndo.nVersion u < 2 ^ 31;
  uv_no_version : CTxInUndo.nHeight u = 0 -> CTxInUndo.nVersion u = 0;
  uv_time : is_u 32 (CTxInUndo.nTime u);
}.

Definition undo_code (u : CTxInUndo.t) : Z :=
  CTxInUndo.nHeight u * 4 + (if CTxInUndo.fCoinBase u then 1 else 0) + (if CTxInUndo.fCoinStake u then 2 else 0).

Lemma undo_code_spec u : undo_valid u ->
  is_u 32 (undo_code u) /\ u32 (undo_code u) = undo_code u /\ undo_code u / 4 = CTxInUndo.nHeight u /\
  negb (Z.land (undo_code u) 1 =? 0) = CTxInUndo.fCoinBase u /\
  negb (Z.land (undo_code u) 2 =? 0) = CTxInUndo.fCoinStake u.
Proof.
  intros [_ Hh _ _ _]. unfold undo_code. set (h := CTxInUndo.nHeight u) in *.
  set (r := (if CTxInUndo.fCoinBase u then 1 else 0) + (if CTxInUndo.fCoinStake u then 2 else 0)).
  assert (0 <= r < 4) by (unfold r; destruct (CTxInUndo.fCoinBase u), (CTxInUndo.fCoinStake u); lia).
  replace (h * 4 + _ + _) with (r + h * 4) by (unfold r; lia).
  assert (is_u 32 (r + h * 4)) by (unfold is_u; lia).
  rewrite !(land_mod (r + h * 4) _ 2) by lia. change (2 ^ 2) with 4.
  rewrite Z.mod_add, (Z.mod_small r), Z.div_add, (Z.div_small r) by lia.
  split_and!; [done|by apply uwrap_small|lia| |];
    unfold r; by destruct (CTxInUndo.fCoinBase u), (CTxInUndo.fCoinStake u).
Qed.

Definition undo_bytes (u : CTxInUndo.t) : list Z :=
  varint_bytes 32 (undo_code u) ++ varint_bytes 32 (CTxInUndo.nTime u)
  ++ (if CTxInUndo.nHeight u >? 0 then varint_bytes 32 (CTxInUndo.nVersion u) else [])
  ++ bytes_of txout_codec (CTxInUndo.txout u).

#[export] Instance undo_lawful : Lawful undo_valid (CTxInUndo.codec IsFullyValid PubKey_Decompress).
Proof.
  assert (forall u (s : list Z), undo_valid u ->
    Serialize (CTxInUndo.codec IsFullyValid PubKey_Decompress) u s = s ++ undo_bytes u) as Happ.
  { intros u s Hu. destruct (undo_code_spec u Hu) as (Hc & Hw & _). destruct Hu as [Ho Hh Hv _ Ht]. unfold is_u in *.
    cbn [Serialize CTxInUndo.codec]. fold (undo_code u). rewrite Hw, !WriteVarInt_append by lia.
    cbn [Serialize CDiskBlockPos.ser_varint_int]. rewrite !WriteVarInt_append, (law_append (CTxInUndo.txout u)) by (done || lia).
    unfold undo_bytes. destruct (_ >? 0); by rewrite <- ?app_assoc. }
  assert (forall u, undo_valid u ->
    bytes_of (CTxInUndo.codec IsFullyValid PubKey_Decompress) u = undo_bytes u) as Hb by (intros; by apply Happ).
  split.
  - intros u s Hu. by rewrite Hb, Happ.
  - intros u Hu. rewrite Hb by done. destruct (undo_code_spec u Hu) as (Hc & _). destruct Hu as [Ho Hh Hv _ Ht].
    unfold is_u in *. unfold undo_bytes. rewrite !Forall_app. split_and!;
      try (apply Forall_reverse, varint_tmp_bytes; lia); [|by apply law_bytes].
    destruct (_ >? 0); [apply Forall_reverse, varint_tmp_bytes; lia|constructor].
  - intros u s Hu. rewrite Hb by done. destruct (undo_code_spec u Hu) as (Hc & Hw & _). destruct Hu as [Ho _ _ _ _].
    cbn [Serialize CTxInUndo.codec WriteVarInt SizeStream CDiskBlockPos.ser_varint_int]. fold (undo_code u). rewrite Hw.
    rewrite !(law_size (CTxInUndo.txout u)) by done. unfold undo_bytes.
    rewrite !length_app, !Nat2Z.inj_add, !length_varint_bytes.
    destruct (_ >? 0); rewrite ?length_varint_bytes, !seek_seek; f_equal; cbn [length]; lia.
  - intros u rest Hu. rewrite Hb by done. destruct (undo_code_spec u Hu) as (Hc & _ & Hdiv & H1 & H2).
    destruct Hu as [Ho Hh Hv Hnv Ht]. unfold undo_bytes. rewrite <- !app_assoc. cbn [Unserialize CTxInUndo.codec].
    erewrite bind_Ok; [|by apply ReadVarInt_app]. cbn beta zeta. rewrite Hdiv, H1, H2.
    erewrite bind_Ok; [|by apply ReadVarInt_app]. cbn beta. rewrite Z.gtb_ltb.
    destruct (Z.ltb_spec 0 (CTxInUndo.nHeight u)) as [Hpos|Hz].
    + erewrite bind_Ok; [|by apply read_int]. cbn beta. erewrite bind_Ok; [|by apply law_read]. by destruct u.
    + cbn [app]. erewrite bind_Ok; [|done]. cbn beta. erewrite bind_Ok; [|by apply law_read].
      cbv [mret Reader_ret]. do 2 f_equal. rewrite <- Hnv by lia. by destruct u.
Qed.
End roundtrip.

(** Coins and undo data survive the disk.  On either host and given the key
    recovery of the curve, coins that are not fully spent, whatever the pattern of
    spent outputs, are read back from their bit-mask encoding followed by anything, and
    the size computer gives the length of the encoding; so are the undo records of a
    whole block. *)
Theorem coins_disk_roundtrip (be : bool) (IsFullyValid : list Z -> bool)
    (PubKey_Decompress : list Z -> option (list Z)) (c : CCoins.t) (undo : list (list CTxInUndo.t)) (rest : list Z) :
  (forall x y, length x = 32%nat -> length y = 32%nat -> Forall is_byte x -> Forall is_byte y ->
     IsFullyValid (0x04 :: x ++ y) = true ->
     PubKey_Decompress ((2 + Z.land (y !!! 31%nat) 0x01) :: x) = Some (0x04 :: x ++ y)) ->
  let cc := ser_coins IsFullyValid PubKey_Decompress in
  let cu := ser_blockundo be IsFullyValid PubKey_Decompress in
  (coins_valid c -> Unserialize cc (bytes_of cc c ++ rest) = Ok (c, rest) /\ Forall is_byte (bytes_of cc c) /\
     GetSerializeSize cc c = u64 (Z.of_nat (length (bytes_of cc c)))) /\
  (elems_valid (elems_valid undo_valid) undo -> Unserialize cu (bytes_of cu undo ++ rest) = Ok (undo, rest)).
Proof.
  intros Hpk cc cu. pose proof (coins_lawful _ _ Hpk) as Hc. pose proof (undo_lawful _ _ Hpk) as Hu. split.
  - intros Hv. split; [by apply law_read|]. split; [by apply law_bytes|].
    unfold GetSerializeSize. rewrite law_size by done. cbn. done.
  - intros Hv. unfold cu, ser_blockundo, ser_txundo. by apply law_read.
Qed.

Definition sample_gaps : CCoins.t :=
  CCoins.mk true ([CTxOut.null; CTxOut.mk 60000000000 [0x51]] ++ replicate 9 CTxOut.null ++ [CTxOut.mk 5 [0x52]])
    203998 1 false 1400000000.

Lemma sample_gaps_valid : coins_valid sample_gaps.
Proof.
  split; [reflexivity|reflexivity| |cbn; lia|cbn; lia|cbn; lia|by_decide].
  cbn [sample_gaps CCoins.vout app replicate].
  repeat (apply Forall_cons; split); try (by left); try by constructor.
  all: right; split; [reflexivity|split; [cbn [CTxOut.nValue]; lia|split; [by_decide|cbn; unfold MAX_SCRIPT_SIZE; lia]]].
Qed.

Lemma coins_disk_roundtrip_witness :
  let cc := ser_coins (fun _ => false) (fun _ => None) in
  Unserialize cc (bytes_of cc sample_gaps ++ [9]) = Ok (sample_gaps, [9]) /\
  length (bytes_of cc sample_gaps) = 20%nat.
Proof.
  intros cc. split; [|vm_compute; reflexivity].
  refine (proj1 (proj1 (coins_disk_roundtrip false (fun _ => false) (fun _ => None) sample_gaps [] [9] _) sample_gaps_valid)).
  intros; discriminate.
Defined.
