(* ===== verification/UpdateCoins.v ===== *)
(** * UpdateCoins: applying a transaction to the coins and taking it back

    Models [UpdateCoins], [ApplyTxInUndo], and what [ConnectBlock] and [DisconnectBlock] do
    to the coins ([src/src/validation.cpp]).  A [CCoinsModifier] lives for one block of
    statements; [modify_with] runs such a block on the coins it refers to. *)
From stdpp Require Import gmap.
From S2P Require Import Prelude Uint256 Serialize Amount ConsensusParams Transaction Script Coins Compressor CoinsCodec.

Section update.
Context (be : bool) (DynamicMemoryUsage : CCoins.t -> Z).
Context {V : Type} `{CoinsView V}.
(** The transaction id. *)
Variable GetHash : CTransaction -> list Z.
#[local] Abbreviation cache := (CCoinsViewCache V).

Definition modify_with {A} (c : cache) (txid : list Z) (f : CCoins.t -> result coins_fault (CCoins.t * A))
    : result coins_fault (cache * A) :=
  '(c, m) ← ModifyCoins DynamicMemoryUsage c txid;
  match cacheCoins c !! it m with
  | None => Err coins_assertion
  | Some e =>
      '(x, r) ← f (coins e);
      c ← end_modifier DynamicMemoryUsage (modify c m (fun _ => x)) m;
      mret (c, r)
  end.

(** The block of [UpdateCoins] for an input at position [nPos]. *)
Definition spend_coins (nPos : Z) (x : CCoins.t) : result coins_fault (CCoins.t * CTxInUndo.t) :=
  match CCoins.vout x !! Z.to_nat nPos with
  | Some o =>
      if (nPos >=? Z.of_nat (length (CCoins.vout x))) || CTxOut.IsNull o then Err coins_assertion
      else
        let undo := CTxInUndo.of_txout o in
        let x := (CCoins.Spend x nPos).2 in
        Ok (x, if (length (CCoins.vout x) =? 0)%nat
               then CTxInUndo.mk o (CCoins.fCoinBase x) (CCoins.nHeight x) (CCoins.nVersion x)
                      (CCoins.fCoinStake x) (CCoins.nTime x)
               else undo)
  | None => Err coins_assertion
  end.

Fixpoint spend_inputs (c : cache) (ins : list CTxIn.t) : result coins_fault (cache * list CTxInUndo.t) :=
  match ins with
  | [] => Ok (c, [])
  | i :: ins' =>
      if bool_decide (COutPoint.hash (CTxIn.prevout i) = randpaytx) then spend_inputs c ins'
      else
        '(c, u) ← modify_with c (COutPoint.hash (CTxIn.prevout i)) (spend_coins (COutPoint.n (CTxIn.prevout i)));
        '(c, us) ← spend_inputs c ins';
        mret (c, u :: us)
  end.

Definition UpdateCoins (tx : CTransaction) (inputs : cache) (nHeight : Z)
    : result coins_fault (cache * list CTxInUndo.t) :=
  '(inputs, txundo) ← (if IsCoinBase be tx then Ok (inputs, []) else spend_inputs inputs (vin tx));
  inputs ← with_ModifyNewCoins DynamicMemoryUsage inputs (GetHash tx) (IsCoinBase be tx)
             (fun _ => CCoins.FromTx be tx nHeight);
  mret (inputs, txundo).

(** [std::vector::resize] *)
Definition resize (v : list CTxOut.t) (n : nat) : list CTxOut.t :=
  take n v ++ replicate (n - length v) CTxOut.null.

(** The body of [ApplyTxInUndo] on the coins: the result, and whether it was clean. *)
Definition undo_coins (undo : CTxInUndo.t) (n : Z) (x : CCoins.t) : result coins_fault (CCoins.t * bool) :=
  let '(x, fClean) :=
    if negb (CTxInUndo.nHeight undo =? 0) then
      (CCoins.mk (CTxInUndo.fCoinBase undo) [] (CTxInUndo.nHeight undo) (CTxInUndo.nVersion undo)
         (CTxInUndo.fCoinStake undo) (CTxInUndo.nTime undo), CCoins.IsPruned x)
    else (x, negb (CCoins.IsPruned x)) in
  let fClean := fClean && negb (CCoins.IsAvailable x n) in
  let v := if Z.of_nat (length (CCoins.vout x)) <? u32 (n + 1)
           then resize (CCoins.vout x) (Z.to_nat (u32 (n + 1))) else CCoins.vout x in
  if (Z.to_nat n <? length v)%nat
  then Ok (CCoins.set_vout x (<[Z.to_nat n := CTxInUndo.txout undo]> v), fClean)
  else Err coins_assertion.

Definition ApplyTxInUndo (undo : CTxInUndo.t) (view : cache) (out : COutPoint.t)
    : result coins_fault (cache * bool) :=
  modify_with view (COutPoint.hash out) (undo_coins undo (COutPoint.n out)).

(** Taking back the outputs of a transaction; whether they were as expected. *)
Definition remove_outputs (tx : CTransaction) (nHeight : Z) (outs : CCoins.t)
    : result coins_fault (CCoins.t * bool) :=
  let outs := CCoins.ClearUnspendable outs in
  let outsBlock := CCoins.FromTx be tx nHeight in
  let outs := if CCoins.nVersion outsBlock <? 0
              then CCoins.mk (CCoins.fCoinBase outs) (CCoins.vout outs) (CCoins.nHeight outs)
                     (CCoins.nVersion outsBlock) (CCoins.fCoinStake outs) (CCoins.nTime outs)
              else outs in
  Ok (CCoins.Clear outs, CCoins.op_eq outs outsBlock).

(** The loop [for (j = size; j-- > 0;)], on the pairs in that order. *)
Fixpoint undo_inputs (c : cache) (l : list (CTxIn.t * CTxInUndo.t)) (fClean : bool)
    : result coins_fault (cache * bool) :=
  match l with
  | [] => Ok (c, fClean)
  | (i, u) :: l' =>
      '(c, ok) ← ApplyTxInUndo u c (CTxIn.prevout i);
      undo_inputs c l' (fClean && ok)
  end.

(** One round of the loop of [DisconnectBlock]; [restore] is [i > nNonCBIdx].  [None]
    is the error "transaction and undo data inconsistent". *)
Definition disconnect_tx (tx : CTransaction) (nHeight : Z) (restore : bool) (vprevout : list CTxInUndo.t)
    (view : cache) : result coins_fault (cache * option bool) :=
  '(view, fClean) ← modify_with view (GetHash tx) (remove_outputs tx nHeight);
  if (restore : bool) then
    let vinWithoutRandpay :=
      filter (fun i => COutPoint.hash (CTxIn.prevout i) <> randpaytx) (vin tx) in
    if negb (length vprevout =? length vinWithoutRandpay)%nat then mret (view, None)
    else
      '(view, fClean) ← undo_inputs view (reverse (zip vinWithoutRandpay vprevout)) fClean;
      mret (view, Some fClean)
  else mret (view, Some fClean).

(** The index of the last coinbase: [nNonCBIdx] of [DisconnectBlock]. *)
Definition nNonCBIdx (nHeight : Z) : Z := if isForkBlock nHeight then forkCBPerBlock else 0.

(** The loop of [DisconnectBlock], from the last transaction to the first; the undo data of
    a transaction is read only when its inputs are restored. *)
Fixpoint disconnect_txs (n : nat) (vtx : list CTransaction) (vtxundo : list (list CTxInUndo.t)) (nHeight : Z)
    (view : cache) (fClean : bool) : result coins_fault (cache * option bool) :=
  match n with
  | O => Ok (view, Some fClean)
  | S i =>
      match vtx !! i with
      | None => Err coins_assertion
      | Some tx =>
          let restore := Z.of_nat i >? nNonCBIdx nHeight in
          match (if restore then vtxundo !! (i - 1)%nat else Some []) with
          | None => Err coins_assertion
          | Some vprevout =>
              '(view, ok) ← disconnect_tx tx nHeight restore vprevout view;
              match ok with
              | None => mret (view, None)
              | Some ok => disconnect_txs i vtx vtxundo nHeight view (fClean && ok)
              end
          end
      end
  end.

(** [DisconnectBlock] on the coins, with the undo data that was read: an error, or whether
    everything was found as expected. *)
Definition disconnect_coins (vtx : list CTransaction) (hash hashPrev : list Z) (nHeight : Z) (vtxundo : list (list CTxInUndo.t))
    (view : cache) : result coins_fault (cache * option bool) :=
  let '(view, hashBest) := cache_GetBestBlock be view in
  if negb (bool_decide (hash = hashBest)) then Err coins_assertion
  else if negb (length vtxundo + 1 =? length vtx)%nat then mret (view, None)
  else
    '(view, fClean) ← disconnect_txs (length vtx) vtx vtxundo nHeight view true;
    match fClean with
    | None => mret (view, None)
    | Some fClean => mret (SetBestBlock view hashPrev, Some fClean)
    end.

(** The updates of the loop of [ConnectBlock]; the first transaction leaves no undo data. *)
Fixpoint connect_txs (i : nat) (vtx : list CTransaction) (nHeight : Z) (view : cache)
    : result coins_fault (cache * list (list CTxInUndo.t)) :=
  match vtx with
  | [] => Ok (view, [])
  | tx :: vtx' =>
      '(view, undo) ← UpdateCoins tx view nHeight;
      '(view, vtxundo) ← connect_txs (S i) vtx' nHeight view;
      mret (view, if (i =? 0)%nat then vtxundo else undo :: vtxundo)
  end.

(** [ConnectBlock] on the coins, for a block that passes its checks. *)
Definition connect_coins (vtx : list CTransaction) (hash : list Z) (nHeight : Z) (view : cache)
    : result coins_fault (cache * list (list CTxInUndo.t)) :=
  '(view, vtxundo) ← connect_txs 0 vtx nHeight view;
  mret (SetBestBlock view hash, vtxundo).

End update.

(** ** Spending and restoring one output *)

(** Coins as the cache keeps them: no spent outputs at the end, spent outputs are
    null, and the height is that of a block after the genesis block. *)
Record canonical (x : CCoins.t) : Prop := {
  can_last : match last (CCoins.vout x) with Some o => CTxOut.IsNull o = false | None => True end;
  can_null : Forall (fun o => CTxOut.IsNull o = true -> o = CTxOut.null) (CCoins.vout x);
  can_height : 0 < CCoins.nHeight x;
}.

Section one_output.
#[local] Abbreviation clean v := (CCoins.Cleanup_loop (length v) v).

Lemma forallb_null_replicate l : forallb CTxOut.IsNull l = true ->
  Forall (fun o => CTxOut.IsNull o = true -> o = CTxOut.null) l -> l = replicate (length l) CTxOut.null.
Proof.
  intros Hl Hf. symmetry. apply replicate_as_elem_of. split; [done|]. intros o Ho.
  rewrite List.forallb_forall in Hl. rewrite Forall_forall in Hf. apply Hf; [done|]. by apply Hl, list_elem_of_In.
Qed.

(** Cleaning after an output was nulled, then padding up to it, gives the list with
    that output nulled. *)
Lemma clean_pad v n o : match last v with Some o => CTxOut.IsNull o = false | None => True end ->
  Forall (fun o => CTxOut.IsNull o = true -> o = CTxOut.null) v -> v !! n = Some o ->
  let w := <[n := CTxOut.null]> v in
  (if (length (clean w) <? n + 1)%nat then resize (clean w) (n + 1) else clean w) = w.
Proof.
  intros Hlast Hnull Hn w. destruct (clean_spec w) as (l & Ew & Hl & Hcl).
  assert (length w = length v) as Hlen by apply length_insert.
  assert (Forall (fun o => CTxOut.IsNull o = true -> o = CTxOut.null) w) as Hnw by (by apply Forall_insert).
  assert (l = replicate (length l) CTxOut.null) as El.
  { apply forallb_null_replicate; [done|]. rewrite Ew in Hnw. by apply Forall_app in Hnw as [_ ?]. }
  pose proof (lookup_lt_Some _ _ _ Hn) as Hlt.
  assert (length w = length (clean w) + length l)%nat as Hsum by (rewrite Ew at 1; apply length_app).
  assert (l <> [] -> S n = length v) as Hlastn.
  { intros Hne. assert (length l <> 0%nat) by (by destruct l).
    destruct (decide (S n = length v)) as [|Hn']; [done|]. exfalso.
    rewrite last_lookup in Hlast. destruct (v !! pred (length v)) as [o'|] eqn:Eo.
    2:{ apply lookup_ge_None in Eo. lia. }
    assert (w !! pred (length v) = Some o') as Ew'. { unfold w. rewrite list_lookup_insert_ne by lia. done. }
    rewrite Ew, lookup_app_r, El, lookup_replicate_2 in Ew' by lia. injection Ew' as <-. discriminate Hlast. }
  destruct (Nat.ltb_spec (length (clean w)) (n + 1)) as [Hsh|Hsh].
  - unfold resize. rewrite take_ge by lia. transitivity (clean w ++ l); [|by rewrite <- Ew].
    f_equal. rewrite El. f_equal.
    destruct l as [|a l']; [cbn in *; lia|]. specialize (Hlastn ltac:(done)). lia.
  - destruct l as [|a l']; [by rewrite app_nil_r in Ew|]. specialize (Hlastn ltac:(done)). cbn in Hsum. lia.
Qed.

Lemma IsAvailable_spend x n : CCoins.IsAvailable x n = true -> 0 <= n ->
  exists o, CCoins.vout x !! Z.to_nat n = Some o /\ CTxOut.IsNull o = false /\
    n < Z.of_nat (length (CCoins.vout x)) /\
    (CCoins.Spend x n).2 = CCoins.set_vout x (clean (<[Z.to_nat n := CTxOut.null]> (CCoins.vout x))).
Proof.
  intros Ha Hn. unfold CCoins.IsAvailable in Ha. apply andb_prop in Ha as [Hlt Ha].
  destruct (CCoins.vout x !! Z.to_nat n) as [o|] eqn:Eo; [|done]. apply negb_true_iff in Ha. apply Z.ltb_lt in Hlt.
  exists o. split_and!; try done. unfold CCoins.Spend. rewrite Eo, Ha, orb_false_r.
  rewrite Z.geb_leb, (proj2 (Z.leb_gt _ _)) by lia. done.
Qed.

Lemma canonical_spend x n : canonical x -> canonical (CCoins.set_vout x (clean (<[n := CTxOut.null]> (CCoins.vout x)))).
Proof.
  intros [Hl Hn Hh]. destruct (clean_spec (<[n := CTxOut.null]> (CCoins.vout x))) as (l & Ew & _ & Hcl).
  split; cbn [CCoins.vout CCoins.set_vout CCoins.nHeight]; [done| |done].
  assert (Forall (fun o => CTxOut.IsNull o = true -> o = CTxOut.null) (<[n := CTxOut.null]> (CCoins.vout x))) as Hw
    by (by apply Forall_insert).
  rewrite Ew in Hw. by apply Forall_app in Hw as [? _].
Qed.

(** Spending an unspent output succeeds, and its undo record brings it back. *)
Lemma spend_undo x n : canonical x -> CCoins.IsAvailable x n = true -> 0 <= n < 2 ^ 32 - 1 ->
  exists x1 u, spend_coins n x = Ok (x1, u) /\ canonical x1 /\ CCoins.Cleanup x1 = x1 /\
    forall y, norm (Some y) = norm (Some x1) \/ (norm (Some x1) = None /\ CCoins.IsPruned y = true) ->
      undo_coins u n y = Ok (x, true).
Proof.
  intros Hc Ha Hn. destruct (IsAvailable_spend x n Ha) as (o & Eo & Hnull & Hlt & Esp); [lia|].
  set (w := <[Z.to_nat n := CTxOut.null]> (CCoins.vout x)) in *.
  set (x1 := CCoins.set_vout x (clean w)) in *.
  pose proof (canonical_spend x (Z.to_nat n) Hc) as Hc1. fold w x1 in Hc1.
  assert (CCoins.Cleanup x1 = x1) as Hcl. { unfold CCoins.Cleanup, x1. cbn [CCoins.vout CCoins.set_vout]. by rewrite clean_idem. }
  pose proof (clean_pad (CCoins.vout x) (Z.to_nat n) o (can_last x Hc) (can_null x Hc) Eo) as Hpad. fold w in Hpad. cbn zeta in Hpad.
  assert (u32 (n + 1) = n + 1) as Hw32 by (apply uwrap_small; unfold is_u; lia).
  assert (<[Z.to_nat n := o]> w = CCoins.vout x) as Hback.
  { unfold w. rewrite list_insert_insert_eq. by apply list_insert_id. }
  assert (unspent_at : CCoins.IsAvailable x1 n = false).
  { unfold CCoins.IsAvailable, x1. cbn [CCoins.vout CCoins.set_vout].
    destruct (clean_spec w) as (l & Ew & _ & _). destruct (clean w !! Z.to_nat n) as [o'|] eqn:Eo'; [|apply andb_false_r].
    assert (w !! Z.to_nat n = Some o') as E by (rewrite Ew; by apply lookup_app_l_Some).
    unfold w in E. rewrite list_lookup_insert_eq in E by (by eapply lookup_lt_Some). injection E as <-. apply andb_false_r. }
  exists x1, (if (length (CCoins.vout x1) =? 0)%nat
     then CTxInUndo.mk o (CCoins.fCoinBase x1) (CCoins.nHeight x1) (CCoins.nVersion x1) (CCoins.fCoinStake x1) (CCoins.nTime x1)
     else CTxInUndo.of_txout o).
  split_and!; [|done|done|].
  { unfold spend_coins. rewrite Eo, Hnull, Z.geb_leb, (proj2 (Z.leb_gt _ _)) by lia. cbn [orb]. by rewrite Esp. }
  assert ((if Z.of_nat (length (clean w)) <? n + 1 then resize (clean w) (Z.to_nat (n + 1)) else clean w) = w) as Hr.
  { replace (Z.to_nat (n + 1)) with (Z.to_nat n + 1)%nat by lia.
    replace (Z.of_nat (length (clean w)) <? n + 1) with (length (clean w) <? Z.to_nat n + 1)%nat; [done|].
    destruct (Nat.ltb_spec (length (clean w)) (Z.to_nat n + 1)); symmetry; [apply Z.ltb_lt|apply Z.ltb_ge]; lia. }
  assert ((Z.to_nat n <? length w)%nat = true) as Hin.
  { apply Nat.ltb_lt. unfold w. rewrite length_insert. by eapply lookup_lt_Some. }
  intros y Hy.
  assert (CCoins.IsPruned x1 = (length (CCoins.vout x1) =? 0)%nat) as Hpr.
  { unfold CCoins.IsPruned. destruct (forallb CTxOut.IsNull (CCoins.vout x1)) eqn:Ef.
    - rewrite <- Hcl. cbn [CCoins.vout CCoins.Cleanup CCoins.set_vout]. by rewrite clean_all_null.
    - destruct (CCoins.vout x1); [done|]. done. }
  destruct (length (CCoins.vout x1) =? 0)%nat eqn:El; unfold undo_coins.
  - cbn [CTxInUndo.nHeight CTxInUndo.fCoinBase CTxInUndo.nVersion CTxInUndo.fCoinStake CTxInUndo.nTime].
    change (CCoins.nHeight x1) with (CCoins.nHeight x).
    rewrite (proj2 (Z.eqb_neq (CCoins.nHeight x) 0)) by (pose proof (can_height x Hc); lia). cbn [negb].
    assert (clean w = []) as Ecw by (apply nil_length_inv; by apply Nat.eqb_eq in El).
    rewrite Ecw in Hr. cbn [CCoins.vout]. rewrite Hw32, Hr, Hin. cbn [CTxInUndo.txout].
    replace (CCoins.IsPruned y) with true.
    2:{ destruct Hy as [Hy|[_ Hy]]; [|done]. cbn [norm] in Hy. rewrite Hpr in Hy. by destruct (CCoins.IsPruned y). }
    unfold CCoins.set_vout. cbn. rewrite Hback. unfold CCoins.IsAvailable. cbn. rewrite andb_false_r. by destruct x.
  - cbn [CTxInUndo.nHeight CTxInUndo.of_txout Z.eqb negb].
    destruct Hy as [Hy|[Hy _]]; cbn [norm] in Hy; rewrite Hpr in Hy; [|done].
    destruct (CCoins.IsPruned y) eqn:Ey; [done|]. assert (y = x1) as -> by congruence. rewrite unspent_at.
    cbn [CCoins.vout CCoins.set_vout] in *. fold w. change (CCoins.vout x1) with (clean w). rewrite Hw32, Hr, Hin.
    cbn [negb andb CTxInUndo.txout CTxInUndo.of_txout]. unfold x1, CCoins.set_vout. cbn. rewrite Hback. f_equal. f_equal. by destruct x.
Qed.
End one_output.

(** ** The whole transaction *)

Section transaction.
Context (be : bool) (DynamicMemoryUsage : CCoins.t -> Z).
Context {V : Type} `{CoinsViewLaws V}.
Variable GetHash : CTransaction -> list Z.

(** A modifier refers to the coins the view has, or to empty ones. *)
Lemma ModifyCoins_coins c k : cache_inv c ->
  exists c1 m e, ModifyCoins DynamicMemoryUsage c k = Ok (c1, m) /\ it m = k /\
    cacheCoins c1 !! k = Some e /\ coins e = default CCoins.empty (cache_view c k).
Proof.
  intros [[Hb Hm] Hmod]. unfold ModifyCoins. rewrite Hmod. unfold cache_view.
  destruct (cacheCoins c !! k) as [e|] eqn:Ek.
  - unfold new_modifier. cbn [hasModifier]. rewrite Hmod. do 3 eexists. split; [done|]. split; [done|].
    ccbn. rewrite lookup_insert_eq. done.
  - destruct (GetCoins_law (base c) k Hb) as (b' & -> & _). unfold new_modifier, set_base. cbn [hasModifier base].
    rewrite Hmod. do 3 eexists. split; [done|]. split; [done|]. ccbn. rewrite lookup_insert_eq. split; [done|].
    by destruct (view (base c) k).
Qed.

Lemma modify_with_spec {A} c k (f : CCoins.t -> result coins_fault (CCoins.t * A)) x r a :
  refines be c a -> f (default CCoins.empty (cache_view c k)) = Ok (x, r) ->
  exists c', modify_with DynamicMemoryUsage c k f = Ok (c', r) /\
    refines be c' (abs_set a k (norm (Some (CCoins.Cleanup x)))).
Proof.
  intros Hr Hf. pose proof (ref_inv _ _ _ Hr) as Hi.
  destruct (ModifyCoins_coins c k Hi) as (c1 & m & e & E & Hit & He & Hc).
  destruct (ModifyCoins_spec DynamicMemoryUsage c k (fun _ => x) Hi) as (c' & E' & Hi' & Hh & Hb & Ho & Hk).
  unfold with_ModifyCoins in E'. unfold modify_with. rewrite E in *. cbn [mbind result_bind] in *.
  rewrite Hit, He, Hc, Hf. cbn [mbind result_bind]. rewrite E'. cbn [mbind result_bind mret result_ret].
  exists c'. split; [done|]. by apply (refines_set be c).
Qed.

(** A state that is the same at every key is refined by the same caches. *)
Lemma refines_ext c a a' : refines be c a -> (forall k, a_utxo a k = a_utxo a' k) ->
  a_best a = a_best a' -> a_known a = a_known a' -> refines be c a'.
Proof.
  intros [H1 H2 H3 H4] Hu Hb Hk. split; [done|intros k; by rewrite <- Hu|congruence|].
  rewrite <- Hk, <- Hb. done.
Qed.

Definition input_ok (i : CTxIn.t) : Prop := 0 <= COutPoint.n (CTxIn.prevout i) < 2 ^ 32 - 1.

(** Spending the inputs one after the other on the abstract coin set. *)
Fixpoint abs_spends (a : abs_state) (ins : list CTxIn.t) : option abs_state :=
  match ins with
  | [] => Some a
  | i :: ins' =>
      let k := COutPoint.hash (CTxIn.prevout i) in
      let n := COutPoint.n (CTxIn.prevout i) in
      x ← a_utxo a k;
      if CCoins.IsAvailable x n then abs_spends (abs_set a k (norm (Some (CCoins.Cleanup (CCoins.Spend x n).2)))) ins'
      else None
  end.

(** Every coin an input refers to is in the canonical form. *)
Definition all_canonical (a : abs_state) : Prop :=
  forall k x, k <> randpaytx -> a_utxo a k = Some x -> canonical x.

Lemma view_of_utxo c a k x : refines be c a -> a_utxo a k = Some x -> cache_view c k = Some x.
Proof.
  intros Hr E. rewrite <- (ref_utxo _ _ _ Hr) in E. destruct (cache_view c k) as [y|]; [|done]. cbn [norm] in E.
  destruct (CCoins.IsPruned y); [done|]. congruence.
Qed.

Lemma restored_state a k r1 r2 : r2 = a_utxo a k ->
  forall k', a_utxo (abs_set (abs_set a k r1) k r2) k' = a_utxo a k'.
Proof. intros -> k'. cbn. case_decide; [by subst|done]. Qed.

(** The same coins at another block. *)
Definition with_best (b : list Z) (known : bool) (a : abs_state) : abs_state := mk_abs (a_utxo a) b known.

(** Spending and undoing one input. *)
Lemma spend_one c a i x : refines be c a -> all_canonical a -> input_ok i ->
  COutPoint.hash (CTxIn.prevout i) <> randpaytx ->
  a_utxo a (COutPoint.hash (CTxIn.prevout i)) = Some x ->
  CCoins.IsAvailable x (COutPoint.n (CTxIn.prevout i)) = true ->
  let k := COutPoint.hash (CTxIn.prevout i) in
  let n := COutPoint.n (CTxIn.prevout i) in
  let a1 := abs_set a k (norm (Some (CCoins.Cleanup (CCoins.Spend x n).2))) in
  exists c1 u, modify_with DynamicMemoryUsage c k (spend_coins n) = Ok (c1, u) /\ refines be c1 a1 /\ all_canonical a1 /\
    forall b kn c2, refines be c2 (with_best b kn a1) ->
      exists c3, ApplyTxInUndo DynamicMemoryUsage u c2 (CTxIn.prevout i) = Ok (c3, true) /\ refines be c3 (with_best b kn a).
Proof.
  intros Hr Hc Hi Hne Hx Ha k n a1. pose proof (Hc k x Hne Hx) as Hcx.
  destruct (spend_undo x n Hcx Ha Hi) as (x1 & u & Esp & Hc1 & Hcl & Hundo).
  assert ((CCoins.Spend x n).2 = x1) as Ex1.
  { unfold spend_coins in Esp. destruct (CCoins.vout x !! Z.to_nat n); [|done]. destruct (_ || _); [done|].
    by injection Esp as <- _. }
  assert (default CCoins.empty (cache_view c k) = x) as Ev by (by rewrite (view_of_utxo c a k x Hr Hx)).
  destruct (modify_with_spec c k (spend_coins n) x1 u a Hr) as (c1 & E1 & Hr1); [by rewrite Ev|].
  exists c1, u. split; [done|]. split; [unfold a1; by rewrite Ex1|]. split.
  { intros k' y Hne'. unfold a1. cbn [a_utxo abs_set]. rewrite Ex1, Hcl. case_decide; [|by apply Hc]. cbn [norm].
    destruct (CCoins.IsPruned x1); [done|]. by intros [= <-]. }
  intros b kn c2 Hr2. unfold ApplyTxInUndo. fold k n.
  destruct (modify_with_spec c2 k (undo_coins u n) x true _ Hr2) as (c3 & E3 & Hr3).
  - apply Hundo. pose proof (ref_utxo _ _ _ Hr2 k) as Hu. unfold a1 in Hu. cbn [a_utxo abs_set with_best] in Hu.
    rewrite decide_True, Ex1, Hcl in Hu by done. destruct (cache_view c2 k) as [y|].
    + by left.
    + cbn [default]. right. split; [by rewrite <- Hu|done].
  - exists c3. split; [done|]. apply (refines_ext c3 _ (with_best b kn a) Hr3); [|done|done].
    unfold a1. apply (restored_state (with_best b kn a)). cbn [a_utxo with_best]. assert (CCoins.Cleanup x = x) as ->.
    { unfold CCoins.Cleanup. rewrite clean_id by apply Hcx. by destruct x. }
    fold k in Hx. rewrite Hx. pose proof (ref_utxo _ _ _ Hr k) as Hu.
    rewrite (view_of_utxo c a k x Hr Hx), Hx in Hu. exact Hu.
Qed.

Definition no_randpay (ins : list CTxIn.t) : list CTxIn.t :=
  filter (fun i => COutPoint.hash (CTxIn.prevout i) <> randpaytx) ins.

Lemma undo_inputs_app c l1 l2 f : undo_inputs DynamicMemoryUsage c (l1 ++ l2) f =
  ('(c, f) ← undo_inputs DynamicMemoryUsage c l1 f; undo_inputs DynamicMemoryUsage c l2 f).
Proof.
  revert c f. induction l1 as [|[i u] l1 IH]; intros c f; [done|]. cbn [undo_inputs app].
  destruct (ApplyTxInUndo _ u c _) as [[c1 ok]|]; [|done]. cbn [mbind result_bind]. apply IH.
Qed.

(** All inputs: what the spends record is enough to take them back, in reverse. *)
Lemma spend_all ins c a a' : refines be c a -> all_canonical a -> Forall input_ok ins ->
  abs_spends a (no_randpay ins) = Some a' ->
  exists c' us, spend_inputs DynamicMemoryUsage c ins = Ok (c', us) /\ refines be c' a' /\
    length us = length (no_randpay ins) /\
    forall b kn c2, refines be c2 (with_best b kn a') -> exists c3,
      undo_inputs DynamicMemoryUsage c2 (reverse (zip (no_randpay ins) us)) true = Ok (c3, true) /\ refines be c3 (with_best b kn a).
Proof.
  intros Hr Hc Hi. revert c a Hr Hc. induction Hi as [|i ins Hi His IH]; intros c a Hr Hc Hs.
  { injection Hs as <-. exists c, []. split_and!; try done. intros b kn c2 Hr2. by exists c2. }
  cbn [spend_inputs]. unfold no_randpay in *. rewrite filter_cons in *.
  destruct (decide (COutPoint.hash (CTxIn.prevout i) <> randpaytx)) as [Hne|He].
  2:{ rewrite bool_decide_true by (by destruct (decide (COutPoint.hash (CTxIn.prevout i) = randpaytx))).
      by apply IH. }
  rewrite bool_decide_false by done. cbn [abs_spends] in Hs.
  destruct (a_utxo a (COutPoint.hash (CTxIn.prevout i))) as [x|] eqn:Ex; [|done]. cbn [mbind option_bind] in Hs.
  destruct (CCoins.IsAvailable x _) eqn:Ea; [|done].
  destruct (spend_one c a i x Hr Hc Hi Hne Ex Ea) as (c1 & u & -> & Hr1 & Hc1 & Hundo1).
  destruct (IH c1 _ Hr1 Hc1 Hs) as (c' & us & E' & Hr' & Hlen & Hundo).
  exists c', (u :: us). cbn [mbind result_bind]. rewrite E'. cbn [mbind result_bind mret result_ret length].
  split_and!; [done|done|congruence|]. intros b kn c2 Hr2. destruct (Hundo b kn c2 Hr2) as (c3 & E3 & Hr3).
  destruct (Hundo1 b kn c3 Hr3) as (c4 & E4 & Hr4). exists c4. split; [|done].
  cbn [zip zip_with]. rewrite reverse_cons, undo_inputs_app, E3. cbn [mbind result_bind undo_inputs].
  rewrite E4. done.
Qed.

Lemma abs_spends_none ins a a' k : a_utxo a k = None -> abs_spends a ins = Some a' ->
  a_utxo a' k = None /\ a_best a' = a_best a /\ a_known a' = a_known a.
Proof.
  revert a. induction ins as [|i ins IH]; intros a Hk Hs; [by injection Hs as <-|]. cbn [abs_spends] in Hs.
  destruct (a_utxo a (COutPoint.hash (CTxIn.prevout i))) as [x|] eqn:Ex; [|done]. cbn [mbind option_bind] in Hs.
  destruct (CCoins.IsAvailable x _); [|done]. apply IH in Hs; [done|]. cbn [a_utxo abs_set].
  rewrite decide_False; [done|]. intros ->. congruence.
Qed.
End transaction.

Lemma ClearUnspendable_idem x : CCoins.ClearUnspendable (CCoins.ClearUnspendable x) = CCoins.ClearUnspendable x.
Proof.
  unfold CCoins.ClearUnspendable, CCoins.Cleanup, CCoins.set_vout. cbn [CCoins.vout]. f_equal.
  set (g := fun o => if CScript.IsUnspendable (CTxOut.scriptPubKey o) then CTxOut.null else o).
  set (w := map g (CCoins.vout x)). destruct (clean_spec w) as (l & Ew & _).
  set (cl := CCoins.Cleanup_loop (length w) w) in *.
  assert (map g w = w) as Hgw.
  { unfold w. rewrite List.map_map. apply List.map_ext. intros o. unfold g.
    destruct (CScript.IsUnspendable (CTxOut.scriptPubKey o)) eqn:E; [done|by rewrite E]. }
  assert (map g cl = cl) as ->; [|by apply clean_idem].
  rewrite Ew, map_app in Hgw. apply app_inj_1 in Hgw as [? _]; [done|by rewrite length_map].
Qed.

Lemma ClearUnspendable_pruned x : CCoins.IsPruned x = true -> CCoins.IsPruned (CCoins.ClearUnspendable x) = true.
Proof.
  unfold CCoins.ClearUnspendable. rewrite Cleanup_pruned. unfold CCoins.IsPruned. cbn [CCoins.vout CCoins.set_vout].
  rewrite !List.forallb_forall. intros Hp o Ho. apply List.in_map_iff in Ho as (o' & <- & Ho').
  destruct (CScript.IsUnspendable _); [done|by apply Hp].
Qed.

Lemma op_eq_refl x : CCoins.op_eq x x = true.
Proof.
  unfold CCoins.op_eq. destruct (_ && _); [done|].
  by rewrite !Bool.eqb_reflx, !Z.eqb_refl, bool_decide_true.
Qed.

(** The outputs of a transaction are taken back as they were added. *)
Lemma remove_outputs_spec be tx h x :
  let F := CCoins.FromTx be tx h in
  (CCoins.IsPruned F = true /\ CCoins.IsPruned x = true) \/ x = F ->
  exists y, remove_outputs be tx h x = Ok (y, true) /\ CCoins.IsPruned y = true.
Proof.
  intros F Hx. unfold remove_outputs. fold F. eexists. split; [|apply Clear_pruned]. do 2 f_equal.
  destruct Hx as [[HF Hx] | ->].
  - apply ClearUnspendable_pruned in Hx. set (y := if CCoins.nVersion F <? 0 then _ else _).
    assert (CCoins.IsPruned y = true) as Hy by (unfold y; by destruct (_ <? 0)).
    unfold CCoins.op_eq. by rewrite HF, Hy.
  - assert (CCoins.ClearUnspendable F = F) as -> by apply ClearUnspendable_idem.
    destruct (_ <? 0); [|by apply op_eq_refl]. destruct F. apply op_eq_refl.
Qed.

Section block.
Context (be : bool) (DynamicMemoryUsage : CCoins.t -> Z) {V : Type} {cv : CoinsView V} {laws : CoinsViewLaws V}.
Context (GetHash : CTransaction -> list Z).

(** A transaction is taken back from any cache that represents the coins after it. *)
Lemma disconnect_tx_restores (tx : CTransaction) (h : Z) (c : CCoinsViewCache V) (a a' : abs_state) :
  refines be c a -> all_canonical a -> (IsCoinBase be tx = false -> Forall input_ok (vin tx)) -> a_utxo a (GetHash tx) = None ->
  (if IsCoinBase be tx then a' = a else abs_spends a (no_randpay (vin tx)) = Some a') ->
  let a1 := abs_set a' (GetHash tx) (norm (Some (CCoins.FromTx be tx h))) in
  exists c1 us, UpdateCoins be DynamicMemoryUsage GetHash tx c h = Ok (c1, us) /\ refines be c1 a1 /\
    forall b kn c1, refines be c1 (with_best b kn a1) -> exists c2,
      disconnect_tx be DynamicMemoryUsage GetHash tx h (negb (IsCoinBase be tx)) (if IsCoinBase be tx then [] else us) c1 = Ok (c2, Some true) /\
      refines be c2 (with_best b kn a).
Proof.
  intros Hr Hc Hi Hnew Hsp. set (F := CCoins.FromTx be tx h). set (k := GetHash tx).
  assert (CCoins.Cleanup F = F) as HF.
  { unfold F, CCoins.FromTx, CCoins.ClearUnspendable, CCoins.Cleanup, CCoins.set_vout. cbn. by rewrite clean_idem. }
  assert (exists c' us, (if IsCoinBase be tx then Ok (c, []) else spend_inputs DynamicMemoryUsage c (vin tx)) = Ok (c', us) /\
    refines be c' a' /\ a_utxo a' k = None /\
    (IsCoinBase be tx = false -> length us = length (no_randpay (vin tx)) /\ forall b kn c2, refines be c2 (with_best b kn a') -> exists c3,
      undo_inputs DynamicMemoryUsage c2 (reverse (zip (no_randpay (vin tx)) us)) true = Ok (c3, true) /\ refines be c3 (with_best b kn a)) /\
    (IsCoinBase be tx = true -> a' = a)) as (c' & us & E & Hr' & Hnew' & Hundo & Hcb).
  { destruct (IsCoinBase be tx); [subst a'; exists c, []; done|].
    destruct (spend_all be DynamicMemoryUsage (vin tx) c a a' Hr Hc (Hi eq_refl) Hsp) as (c' & us & ? & ? & ? & ?).
    exists c', us. split_and!; try done. by apply (abs_spends_none _ _ _ _ Hnew Hsp). }
  unfold UpdateCoins. rewrite E. cbn [mbind result_bind]. fold F k.
  destruct (exec_refines be DynamicMemoryUsage c' a' (OpModifyNew k (IsCoinBase be tx) (fun _ => F)) Hr')
    as (c1 & E1 & Hr1); [done|]. cbn [exec abs_step] in E1, Hr1. rewrite E1. cbn [mbind result_bind mret result_ret].
  rewrite HF in Hr1. exists c1, us. split; [done|]. split; [done|]. clear c1 E1 Hr1. intros b kn c1 Hr1.
  destruct (remove_outputs_spec be tx h (default CCoins.empty (cache_view c1 k))) as (y & Ey & Hy).
  { fold F. pose proof (ref_utxo _ _ _ Hr1 k) as Hu. cbn [a_utxo abs_set with_best] in Hu. rewrite decide_True in Hu by done.
    cbn [norm] in Hu. destruct (CCoins.IsPruned F) eqn:EF.
    - left. split; [done|]. destruct (cache_view c1 k) as [z|]; [|done]. cbn [norm] in Hu. cbn [default].
      unfold id. by destruct (CCoins.IsPruned z).
    - right. destruct (cache_view c1 k) as [z|]; [|done]. cbn [norm] in Hu. destruct (CCoins.IsPruned z); [done|].
      by injection Hu as ->. }
  destruct (modify_with_spec be DynamicMemoryUsage c1 k (remove_outputs be tx h) y true _ Hr1 Ey) as (c2 & E2 & Hr2).
  unfold disconnect_tx. fold k. rewrite E2. cbn [mbind result_bind].
  assert (refines be c2 (with_best b kn a')) as Hr2'.
  { apply (refines_ext be c2 _ (with_best b kn a') Hr2); [|done|done]. apply (restored_state (with_best b kn a')). cbn [a_utxo with_best]. cbn [norm]. by rewrite Cleanup_pruned, Hy, Hnew'. }
  destruct (IsCoinBase be tx); cbn [negb].
  - exists c2. split; [done|]. by rewrite <- (Hcb eq_refl).
  - destruct (Hundo eq_refl) as [Hlen Hu]. destruct (Hu b kn c2 Hr2') as (c3 & E3 & Hr3).
    unfold no_randpay in *. rewrite Hlen, Nat.eqb_refl. cbn [negb]. rewrite E3. by exists c3.
Qed.


(** What a block does to the coins: every transaction has a new id and, unless it is a
    coinbase, spends coins that are there. *)
Fixpoint abs_connect (h : Z) (vtx : list CTransaction) (a : abs_state) : option abs_state :=
  match vtx with
  | [] => Some a
  | tx :: vtx' =>
      if decide (a_utxo a (GetHash tx) = None) then
        a' ← (if IsCoinBase be tx then Some a else abs_spends a (no_randpay (vin tx)));
        abs_connect h vtx' (abs_set a' (GetHash tx) (norm (Some (CCoins.FromTx be tx h))))
      else None
  end.

(** Transactions as [CheckTransaction] lets them pass. *)
Definition tx_plain (tx : CTransaction) : Prop :=
  (IsCoinBase be tx = false -> Forall input_ok (vin tx)) /\ Forall (fun o => 0 <= CTxOut.nValue o) (vout tx).

Lemma canonical_FromTx tx h : 0 < h -> Forall (fun o => 0 <= CTxOut.nValue o) (vout tx) -> canonical (CCoins.FromTx be tx h).
Proof.
  intros Hh Ho. unfold CCoins.FromTx, CCoins.ClearUnspendable, CCoins.Cleanup, CCoins.set_vout. cbn [CCoins.vout].
  set (w := map _ (Transaction.vout tx)). destruct (clean_spec w) as (l & Ew & _ & Hcl). split; cbn; [done| |done].
  assert (Forall (fun o => CTxOut.IsNull o = true -> o = CTxOut.null) w) as Hw.
  { unfold w. apply Forall_fmap. eapply Forall_impl; [exact Ho|]. intros o Hv. cbn. destruct (CScript.IsUnspendable _); [done|].
    unfold CTxOut.IsNull. intros E. apply Z.eqb_eq in E. exfalso. cbn beta in Hv. rewrite E in Hv. lia. }
  rewrite Ew in Hw. by apply Forall_app in Hw as [? _].
Qed.

Lemma canonical_spends a ins a' : all_canonical a -> Forall input_ok ins -> abs_spends a ins = Some a' -> all_canonical a'.
Proof.
  intros Hc Hi. revert a Hc. induction Hi as [|i ins Hi _ IH]; intros a Hc Hs; [by injection Hs as <-|]. cbn [abs_spends] in Hs.
  destruct (a_utxo a (COutPoint.hash (CTxIn.prevout i))) as [x|] eqn:Ex; [|done]. cbn [mbind option_bind] in Hs.
  destruct (CCoins.IsAvailable x _) eqn:Ea; [|done]. eapply IH; [|exact Hs]. intros k y Hne. cbn [a_utxo abs_set].
  case_decide as Ek; [|by apply Hc]. subst k. pose proof (Hc _ _ Hne Ex) as Hx. destruct Hi as [Hn _].
  destruct (IsAvailable_spend x _ Ea Hn) as (o & _ & _ & _ & ->). pose proof (canonical_spend x (Z.to_nat (COutPoint.n (CTxIn.prevout i))) Hx) as Hy.
  set (z := CCoins.set_vout x _) in *. assert (CCoins.Cleanup z = z) as ->.
  { unfold CCoins.Cleanup. rewrite clean_id by apply Hy. by destruct z. }
  cbn [norm]. destruct (CCoins.IsPruned z); [done|]. by intros [= <-].
Qed.

Lemma abs_connect_canonical h tx a a' : 0 < h -> tx_plain tx -> all_canonical a ->
  (if IsCoinBase be tx then Some a else abs_spends a (no_randpay (vin tx))) = Some a' ->
  all_canonical (abs_set a' (GetHash tx) (norm (Some (CCoins.FromTx be tx h)))).
Proof.
  intros Hh [Hi Ho] Hc E. assert (all_canonical a') as Hc'.
  { destruct (IsCoinBase be tx); [by injection E as <-|]. eapply canonical_spends; [exact Hc| |exact E]. apply Forall_forall. intros i Hin. apply list_elem_of_filter in Hin as [_ Hin]. specialize (Hi eq_refl). rewrite Forall_forall in Hi. by apply Hi. }
  intros k x Hne. cbn [a_utxo abs_set]. case_decide; [|by apply Hc']. cbn [norm]. destruct (CCoins.IsPruned _); [done|].
  intros [= <-]. by apply canonical_FromTx.
Qed.

(** The coinbases of a block are its first transactions, up to the index the code has for
    its height. *)
Definition coinbases_first (h : Z) (vtx : list CTransaction) : Prop :=
  forall i tx, vtx !! i = Some tx -> IsCoinBase be tx = negb (Z.of_nat i >? nNonCBIdx h).

(** Connecting the last transactions of a block, and taking them back. *)
Lemma connect_suffix h pre suf preundo c a a' : 0 < h -> coinbases_first h (pre ++ suf) -> Forall tx_plain suf -> refines be c a -> all_canonical a ->
  abs_connect h suf a = Some a' -> length preundo = (length pre - 1)%nat ->
  exists c' us, connect_txs be DynamicMemoryUsage GetHash (length pre) suf h c = Ok (c', us) /\ refines be c' a' /\
    (length preundo + length us = length pre + length suf - 1)%nat /\
    forall b kn c2 f, refines be c2 (with_best b kn a') -> exists c3, refines be c3 (with_best b kn a) /\
      disconnect_txs be DynamicMemoryUsage GetHash (length pre + length suf) (pre ++ suf) (preundo ++ us) h c2 f =
      disconnect_txs be DynamicMemoryUsage GetHash (length pre) (pre ++ suf) (preundo ++ us) h c3 f.
Proof.
  intros Hh. revert pre preundo c a. induction suf as [|tx suf IH]; intros pre preundo c a Hcb Hpl Hr Hc Ha Hlen.
  { injection Ha as <-. exists c, []. cbn [length]. split_and!; [done|done|lia|]. intros b kn c2 f Hr2. exists c2. split; [done|]. by rewrite Nat.add_0_r. }
  apply Forall_cons in Hpl as [Htx Hpl]. cbn [abs_connect] in Ha. destruct (decide (a_utxo a (GetHash tx) = None)) as [Hnew|]; [|done].
  apply bind_Some in Ha as (b & Eb & Ha).
  assert (if IsCoinBase be tx then b = a else abs_spends a (no_randpay (vin tx)) = Some b) as Hsp by (destruct (IsCoinBase be tx); congruence).
  destruct (disconnect_tx_restores tx h c a b Hr Hc (proj1 Htx) Hnew Hsp) as (c1 & u & E1 & Hr1 & Hback).
  pose proof (abs_connect_canonical h tx a b Hh Htx Hc Eb) as Hc1. set (pre' := pre ++ [tx]).
  assert ((pre ++ tx :: suf) = pre' ++ suf) as Epre by (unfold pre'; by rewrite <- app_assoc).
  assert (length pre' = S (length pre)) as Hpre by (unfold pre'; rewrite length_app; cbn; lia).
  set (preundo' := preundo ++ if (length pre =? 0)%nat then [] else [u]).
  assert (length preundo' = (length pre' - 1)%nat) as Hlen'.
  { unfold preundo'. rewrite length_app, Hpre. destruct (Nat.eqb_spec (length pre) 0); cbn; lia. }
  rewrite Epre in Hcb |- *. destruct (IH pre' preundo' c1 _ Hcb Hpl Hr1 Hc1 Ha Hlen') as (c' & us & E' & Hr' & Hlu & Hdis).
  cbn [connect_txs]. rewrite E1. cbn [mbind result_bind]. rewrite Hpre in E'. rewrite E'. cbn [mbind result_bind mret result_ret].
  exists c', (if (length pre =? 0)%nat then us else u :: us).
  assert (preundo' ++ us = preundo ++ (if (length pre =? 0)%nat then us else u :: us)) as Eu.
  { unfold preundo'. rewrite <- app_assoc. by destruct (length pre =? 0)%nat. }
  rewrite <- Eu. split_and!; [done|done| |].
  { apply (f_equal length) in Eu. rewrite !length_app in Eu. cbn [length]. lia. }
  intros hb kn c2 f Hr2. destruct (Hdis hb kn c2 f Hr2) as (c3 & Hr3 & E3). destruct (Hback hb kn c3 Hr3) as (c4 & E4 & Hr4). exists c4. split; [done|].
  cbn [length]. replace (length pre + S (length suf))%nat with (length pre' + length suf)%nat by lia. rewrite E3, Hpre. cbn [disconnect_txs].
  assert ((pre' ++ suf) !! length pre = Some tx) as El by (rewrite <- Epre; by apply list_lookup_middle). rewrite El.
  pose proof (Hcb _ _ El) as Ecb. destruct (Z.of_nat (length pre) >? nNonCBIdx h) eqn:Eg; cbn [negb] in Ecb.
  - rewrite Ecb in E4. cbn [negb] in E4. assert (0 < length pre)%nat as Hpos.
    { apply Z.gtb_lt in Eg. assert (0 <= nNonCBIdx h) by (unfold nNonCBIdx, forkCBPerBlock; destruct (isForkBlock h); lia). lia. }
    assert ((preundo' ++ us) !! (length pre - 1)%nat = Some u) as ->.
    { rewrite Eu. rewrite (proj2 (Nat.eqb_neq _ _)) by lia. apply list_lookup_middle. lia. }
    rewrite E4. cbn [mbind result_bind]. by rewrite andb_true_r.
  - rewrite Ecb in E4. cbn [negb] in E4. rewrite E4. cbn [mbind result_bind]. by rewrite andb_true_r.
Qed.
End block.

(** C4: disconnecting a block restores the coins.  Let a cache represent a coin set with
    canonical coins, and let every transaction of a block have a new id and spend coins that
    are there.  Then the updates of [ConnectBlock] succeed and yield exactly the coin set with
    the inputs spent and the spendable outputs added.  On any cache that represents this, and
    with the undo data that was returned, [DisconnectBlock] finds everything as expected and
    leads back to the coin set before, with the previous block as the best one.  Inputs that
    spend the unlimited output leave no undo record.  The coinbases must be where the code
    expects them: the first transaction only, as the rule [bad-cb-multiple] demands, but in the
    fork region (heights 1 to 365) the first 2001, which no rule ensures. *)
Theorem disconnect_restores_coins (be : bool) (DynamicMemoryUsage : CCoins.t -> Z) (V : Type) (cv : CoinsView V)
    (laws : CoinsViewLaws V) (GetHash : CTransaction -> list Z) (vtx : list CTransaction) (h : Z) (hash hashPrev : list Z)
    (c : CCoinsViewCache V) (a a' : abs_state) :
  refines be c a -> all_canonical a -> 0 < h -> Forall (tx_plain be) vtx -> vtx <> [] -> block_hash hash -> block_hash hashPrev ->
  coinbases_first be h vtx -> abs_connect be GetHash h vtx a = Some a' ->
  exists c1 vtxundo, connect_coins be DynamicMemoryUsage GetHash vtx hash h c = Ok (c1, vtxundo) /\
    refines be c1 (abs_step a' (OpSetBest hash)) /\
    forall c2, refines be c2 (abs_step a' (OpSetBest hash)) ->
      exists c3, disconnect_coins be DynamicMemoryUsage GetHash vtx hash hashPrev h vtxundo c2 = Ok (c3, Some true) /\
        refines be c3 (abs_step a (OpSetBest hashPrev)).
Proof.
  intros Hr Hc Hh Hpl Hne Hbh Hbp Hcb Ha.
  destruct (connect_suffix be DynamicMemoryUsage GetHash h [] vtx [] c a a' Hh Hcb Hpl Hr Hc Ha eq_refl) as (c1 & us & E1 & Hr1 & Hlu & Hdis).
  cbn [length Nat.add app] in *. unfold connect_coins. rewrite E1. cbn [mbind result_bind mret result_ret].
  exists (SetBestBlock c1 hash), us. split; [done|]. split.
  { destruct (exec_refines be DynamicMemoryUsage c1 a' (OpSetBest hash) Hr1 Hbh) as (x & [= <-] & Hx). exact Hx. }
  intros c2 Hr2. unfold disconnect_coins.
  destruct (exec_refines be DynamicMemoryUsage c2 _ OpGetBest Hr2 Hbh) as (c2' & E2 & Hr2').
  assert (snd (cache_GetBestBlock be c2) = hash) as Eh.
  { pose proof (ref_known _ _ _ Hr2 eq_refl) as [Hb _]. cbn in Hb. unfold cache_GetBestBlock. rewrite Hb. by rewrite block_hash_IsNull. }
  cbn [exec] in E2. destruct (cache_GetBestBlock be c2) as [c2'' hb]. cbn [fst snd] in *. injection E2 as ->. subst hb.
  rewrite bool_decide_true by done. cbn [negb]. assert (0 < length vtx)%nat by (destruct vtx; [done|cbn; lia]).
  rewrite (proj2 (Nat.eqb_eq _ _)) by lia. cbn [negb].
  destruct (Hdis hash true c2' true Hr2') as (c3 & Hr3 & E3). rewrite E3. cbn [disconnect_txs mbind result_bind mret result_ret].
  exists (SetBestBlock c3 hashPrev). split; [done|].
  destruct (exec_refines be DynamicMemoryUsage c3 _ (OpSetBest hashPrev) Hr3 Hbp) as (x & [= <-] & Hx). exact Hx.
Qed.

Definition sample_tx : CTransaction :=
  {| Transaction.nVersion := 1; Transaction.nTime := 200;
     vin := [CTxIn.mk (COutPoint.mk (replicate 32 1) 1) [] 0 []; CTxIn.mk (COutPoint.mk randpaytx 0) [] 0 [];
             CTxIn.mk (COutPoint.mk (replicate 32 1) 0) [] 0 []];
     vout := [CTxOut.mk 12 [0x51]; CTxOut.mk 0 [OP_RETURN]]; nLockTime := 0 |}.

Definition sample_state : abs_state :=
  mk_abs (fun k => if decide (k = randpaytx) then Some randpay_coins
                   else utxo (cv := CCoinsViewDB_view false) (H := db_lawful false) sample_db k)
    (replicate 32 9) false.

Lemma sample_canonical : all_canonical sample_state.
Proof.
  intros k x Hne. unfold sample_state. cbn [a_utxo]. rewrite decide_False by done.
  unfold utxo. cbn [view db_lawful db_coins sample_db]. destruct (decide (k = replicate 32 1)) as [->|Hk].
  - rewrite lookup_singleton_eq. intros [= <-]. split; [done| |done].
    repeat constructor; discriminate.
  - rewrite lookup_singleton_ne by done. done.
Qed.

Definition sample_coinbase : CTransaction :=
  {| Transaction.nVersion := 1; Transaction.nTime := 200; vin := [CTxIn.mk COutPoint.null [1; 2] 0 []];
     vout := [CTxOut.mk 50 [0x51]]; nLockTime := 0 |}.
Definition sample_block : list CTransaction := [sample_coinbase; sample_tx].
Definition sample_id (tx : CTransaction) : list Z := if IsCoinBase false tx then replicate 32 4 else replicate 32 3.

Lemma disconnect_restores_coins_witness :
  exists c1 vtxundo c3,
    connect_coins (H := CCoinsViewDB_view false) false sample_mem sample_id sample_block (replicate 32 5) 400 (new_cache sample_db) = Ok (c1, vtxundo) /\
    map length vtxundo = [2%nat] /\
    disconnect_coins (H := CCoinsViewDB_view false) false sample_mem sample_id sample_block (replicate 32 5) (replicate 32 9) 400 vtxundo c1 = Ok (c3, Some true) /\
    refines (H := db_lawful false) false c3 (abs_step sample_state (OpSetBest (replicate 32 9))).
Proof.
  destruct (abs_connect false sample_id 400 sample_block sample_state) as [a'|] eqn:Ea; [|vm_compute in Ea; discriminate Ea].
  destruct (disconnect_restores_coins false sample_mem _ _ (db_lawful false) sample_id sample_block 400 (replicate 32 5) (replicate 32 9)
    (new_cache sample_db) sample_state a') as (c1 & us & E1 & Hr1 & Hdis).
  - exact (new_cache_refines (H := db_lawful false) false sample_db I).
  - exact sample_canonical.
  - lia.
  - repeat constructor; cbn; lia || discriminate || (intros _; repeat constructor; cbn; lia).
  - discriminate.
  - split; [by_decide|discriminate].
  - split; [by_decide|discriminate].
  - intros [|[|i]] tx E; [injection E as <-; vm_compute; reflexivity..|discriminate E].
  - exact Ea.
  - destruct (Hdis c1 Hr1) as (c3 & E3 & Hr3). exists c1, us, c3. split; [exact E1|]. split; [|split; [exact E3|exact Hr3]].
    assert (Ok (c1, us) = connect_coins (H := CCoinsViewDB_view false) false sample_mem sample_id sample_block (replicate 32 5) 400 (new_cache sample_db))
      as E by (symmetry; exact E1).
    vm_compute in E. by injection E as _ ->.
Defined.

(** In the fork region the inputs of an ordinary transaction are not restored: after the same
    block at height 100 is connected and disconnected, without a complaint, the coins it spent
    are gone. *)
Example fork_block_loses_coins :
  let view c k := default false (CCoins.IsPruned <$> snd (cache_GetCoins (H := CCoinsViewDB_view false) sample_mem c k)) in
  view (new_cache sample_db) (replicate 32 1) = false /\
  (x ← connect_coins (H := CCoinsViewDB_view false) false sample_mem sample_id sample_block (replicate 32 5) 100 (new_cache sample_db);
   y ← disconnect_coins (H := CCoinsViewDB_view false) false sample_mem sample_id sample_block (replicate 32 5) (replicate 32 9) 100 (snd x) (fst x);
   mret (snd y, view (fst y) (replicate 32 1))) = Ok (Some true, true).
Proof. split; vm_compute; reflexivity. Qed.
