(* ===== verification/Interpreter.v ===== *)
(** * Interpreter: the script stack machine

    Models [EvalScript] of [src/src/script/interpreter.cpp] with the encoding checks
    it calls, the flags of [interpreter.h] and the codes of [script_error.h].

    The locals of [EvalScript] are a record and its body runs in a state monad with
    failures: [set_error(serror, e); return false] is [Return_false e], a C++ exception
    is [Throw], and [Undefined] stands for a failed [assert] or behaviour the language
    leaves undefined (signed overflow, an iterator before the beginning).  The state
    is kept when an operation fails: the caller's [stack] is passed by reference.

    The vectors [stack], [altstack] and [vfExec] grow at their back; here the back is
    the head of the list, so [stacktop(-i)] is the element of index [i - 1].

    The signature checker is an interface ([SignatureChecker]), the hash functions
    and [CPubKey::CheckLowS] are parameters. *)
From S2P Require Import Prelude Endian Serialize Transaction Script.

(** ** Constants of [interpreter.h] *)

Definition SIGHASH_ALL : Z := 1.
Definition SIGHASH_NONE : Z := 2.
Definition SIGHASH_SINGLE : Z := 3.
Definition SIGHASH_ANYONECANPAY : Z := 0x80.

Definition SCRIPT_VERIFY_NONE : Z := 0.
Definition SCRIPT_VERIFY_P2SH : Z := Z.shiftl 1 0.
Definition SCRIPT_VERIFY_STRICTENC : Z := Z.shiftl 1 1.
Definition SCRIPT_VERIFY_DERSIG : Z := Z.shiftl 1 2.
Definition SCRIPT_VERIFY_LOW_S : Z := Z.shiftl 1 3.
Definition SCRIPT_VERIFY_NULLDUMMY : Z := Z.shiftl 1 4.
Definition SCRIPT_VERIFY_SIGPUSHONLY : Z := Z.shiftl 1 5.
Definition SCRIPT_VERIFY_MINIMALDATA : Z := Z.shiftl 1 6.
Definition SCRIPT_VERIFY_DISCOURAGE_UPGRADABLE_NOPS : Z := Z.shiftl 1 7.
Definition SCRIPT_VERIFY_CLEANSTACK : Z := Z.shiftl 1 8.
Definition SCRIPT_VERIFY_CHECKLOCKTIMEVERIFY : Z := Z.shiftl 1 9.
Definition SCRIPT_VERIFY_CHECKSEQUENCEVERIFY : Z := Z.shiftl 1 10.
Definition SCRIPT_VERIFY_WITNESS : Z := Z.shiftl 1 11.
Definition SCRIPT_VERIFY_DISCOURAGE_UPGRADABLE_WITNESS_PROGRAM : Z := Z.shiftl 1 12.
Definition SCRIPT_VERIFY_MINIMALIF : Z := Z.shiftl 1 13.
Definition SCRIPT_VERIFY_NULLFAIL : Z := Z.shiftl 1 14.
Definition SCRIPT_VERIFY_WITNESS_PUBKEYTYPE : Z := Z.shiftl 1 15.

Inductive ScriptError : Set :=
| SCRIPT_ERR_OK
| SCRIPT_ERR_UNKNOWN_ERROR
| SCRIPT_ERR_EVAL_FALSE
| SCRIPT_ERR_OP_RETURN
| SCRIPT_ERR_SCRIPT_SIZE
| SCRIPT_ERR_PUSH_SIZE
| SCRIPT_ERR_OP_COUNT
| SCRIPT_ERR_STACK_SIZE
| SCRIPT_ERR_SIG_COUNT
| SCRIPT_ERR_PUBKEY_COUNT
| SCRIPT_ERR_VERIFY
| SCRIPT_ERR_EQUALVERIFY
| SCRIPT_ERR_CHECKMULTISIGVERIFY
| SCRIPT_ERR_CHECKSIGVERIFY
| SCRIPT_ERR_NUMEQUALVERIFY
| SCRIPT_ERR_BAD_OPCODE
| SCRIPT_ERR_DISABLED_OPCODE
| SCRIPT_ERR_INVALID_STACK_OPERATION
| SCRIPT_ERR_INVALID_ALTSTACK_OPERATION
| SCRIPT_ERR_UNBALANCED_CONDITIONAL
| SCRIPT_ERR_NEGATIVE_LOCKTIME
| SCRIPT_ERR_UNSATISFIED_LOCKTIME
| SCRIPT_ERR_SIG_HASHTYPE
| SCRIPT_ERR_SIG_DER
| SCRIPT_ERR_MINIMALDATA
| SCRIPT_ERR_SIG_PUSHONLY
| SCRIPT_ERR_SIG_HIGH_S
| SCRIPT_ERR_SIG_NULLDUMMY
| SCRIPT_ERR_PUBKEYTYPE
| SCRIPT_ERR_CLEANSTACK
| SCRIPT_ERR_MINIMALIF
| SCRIPT_ERR_SIG_NULLFAIL
| SCRIPT_ERR_DISCOURAGE_UPGRADABLE_NOPS
| SCRIPT_ERR_DISCOURAGE_UPGRADABLE_WITNESS_PROGRAM
| SCRIPT_ERR_WITNESS_PROGRAM_WRONG_LENGTH
| SCRIPT_ERR_WITNESS_PROGRAM_WITNESS_EMPTY
| SCRIPT_ERR_WITNESS_PROGRAM_MISMATCH
| SCRIPT_ERR_WITNESS_MALLEATED
| SCRIPT_ERR_WITNESS_MALLEATED_P2SH
| SCRIPT_ERR_WITNESS_UNEXPECTED
| SCRIPT_ERR_WITNESS_PUBKEYTYPE
| SCRIPT_ERR_ERROR_COUNT.

#[export] Instance ScriptError_eq_dec : EqDecision ScriptError.
Proof. solve_decision. Defined.

Inductive SigVersion : Set := SIGVERSION_BASE | SIGVERSION_WITNESS_V0.

#[export] Instance SigVersion_eq_dec : EqDecision SigVersion.
Proof. solve_decision. Defined.

Abbreviation valtype := (list Z).

(** [class BaseSignatureChecker]: the interface; its own methods return [false]. *)
Record SignatureChecker : Type := {
  CheckSig : valtype -> valtype -> list Z -> SigVersion -> bool;
  CheckLockTime : Z -> bool;
  CheckSequence : Z -> bool;
}.

Definition BaseSignatureChecker : SignatureChecker :=
  {| CheckSig _ _ _ _ := false; CheckLockTime _ := false; CheckSequence _ := false |}.

(** The digests of [src/src/crypto] and [hash.h]. *)
Record Hashers : Type := {
  h_ripemd160 : valtype -> valtype;
  h_sha1 : valtype -> valtype;
  h_sha256 : valtype -> valtype;
  h_hash160 : valtype -> valtype;
  h_hash256 : valtype -> valtype;
}.

(** ** Encodings *)

(** [for (i = 0; i < vch.size(); i++) ...] *)
Fixpoint CastToBool (vch : valtype) : bool :=
  match vch with
  | [] => false
  | b :: vch' =>
      if negb (b =? 0) then
        negb (match vch' with [] => b =? 0x80 | _ => false end)
      else CastToBool vch'
  end.

Definition IsCompressedOrUncompressedPubKey (vchPubKey : valtype) : bool :=
  let n := Z.of_nat (length vchPubKey) in
  if n <? 33 then false
  else if vchPubKey !!! 0%nat =? 0x04 then negb (negb (n =? 65))
  else if (vchPubKey !!! 0%nat =? 0x02) || (vchPubKey !!! 0%nat =? 0x03) then negb (negb (n =? 33))
  else false.

Definition IsCompressedPubKey (vchPubKey : valtype) : bool :=
  if negb (Z.of_nat (length vchPubKey) =? 33) then false
  else if negb (vchPubKey !!! 0%nat =? 0x02) && negb (vchPubKey !!! 0%nat =? 0x03) then false
  else true.

Definition IsValidSignatureEncoding (sig : list Z) : bool :=
  let size := Z.of_nat (length sig) in
  let at_ (i : Z) := sig !!! Z.to_nat i in
  if size <? 9 then false
  else if size >? 73 then false
  else if negb (at_ 0 =? 0x30) then false
  else if negb (at_ 1 =? size - 3) then false
  else
    let lenR := at_ 3 in
    if 5 + lenR >=? size then false
    else
      let lenS := at_ (5 + lenR) in
      if negb (lenR + lenS + 7 =? size) then false
      else if negb (at_ 2 =? 0x02) then false
      else if lenR =? 0 then false
      else if negb (Z.land (at_ 4) 0x80 =? 0) then false
      else if (lenR >? 1) && (at_ 4 =? 0) && negb (negb (Z.land (at_ 5) 0x80 =? 0)) then false
      else if negb (at_ (lenR + 4) =? 0x02) then false
      else if lenS =? 0 then false
      else if negb (Z.land (at_ (lenR + 6)) 0x80 =? 0) then false
      else if (lenS >? 1) && (at_ (lenR + 6) =? 0) && negb (negb (Z.land (at_ (lenR + 7)) 0x80 =? 0))
      then false
      else true.

Definition IsDefinedHashtypeSignature (vchSig : valtype) : bool :=
  match last vchSig with
  | None => false
  | Some back =>
      let nHashType := u8 (Z.land back (Z.lnot SIGHASH_ANYONECANPAY)) in
      negb ((nHashType <? SIGHASH_ALL) || (nHashType >? SIGHASH_SINGLE))
  end.

Definition CheckMinimalPush (data : valtype) (opcode : Z) : bool :=
  let size := Z.of_nat (length data) in
  let b := data !!! 0%nat in
  if size =? 0 then opcode =? OP_0
  else if (size =? 1) && (b >=? 1) && (b <=? 16) then opcode =? OP_1 + (b - 1)
  else if (size =? 1) && (b =? 0x81) then opcode =? OP_1NEGATE
  else if size <=? 75 then opcode =? size
  else if size <=? 255 then opcode =? OP_PUSHDATA1
  else if size <=? 65535 then opcode =? OP_PUSHDATA2
  else true.

Section encodings.
Context (CheckLowS : list Z -> bool).

(** The [bool] with the error it sets. *)
Definition IsLowDERSignature (vchSig : valtype) : result ScriptError unit :=
  if negb (IsValidSignatureEncoding vchSig) then Err SCRIPT_ERR_SIG_DER
  else if negb (CheckLowS (take (length vchSig - 1) vchSig)) then Err SCRIPT_ERR_SIG_HIGH_S
  else Ok tt.

Definition CheckSignatureEncoding (vchSig : valtype) (flags : Z) : result ScriptError unit :=
  let ders := Z.lor (Z.lor SCRIPT_VERIFY_DERSIG SCRIPT_VERIFY_LOW_S) SCRIPT_VERIFY_STRICTENC in
  if Z.of_nat (length vchSig) =? 0 then Ok tt
  else if flag_set flags ders && negb (IsValidSignatureEncoding vchSig) then Err SCRIPT_ERR_SIG_DER
  else match (if flag_set flags SCRIPT_VERIFY_LOW_S then IsLowDERSignature vchSig else Ok tt) with
       | Err e => Err e
       | Ok _ =>
           if flag_set flags SCRIPT_VERIFY_STRICTENC && negb (IsDefinedHashtypeSignature vchSig)
           then Err SCRIPT_ERR_SIG_HASHTYPE
           else Ok tt
       end.

Definition CheckPubKeyEncoding (vchPubKey : valtype) (flags : Z) (sigversion : SigVersion)
    : result ScriptError unit :=
  if flag_set flags SCRIPT_VERIFY_STRICTENC && negb (IsCompressedOrUncompressedPubKey vchPubKey)
  then Err SCRIPT_ERR_PUBKEYTYPE
  else if flag_set flags SCRIPT_VERIFY_WITNESS_PUBKEYTYPE
          && bool_decide (sigversion = SIGVERSION_WITNESS_V0)
          && negb (IsCompressedPubKey vchPubKey)
  then Err SCRIPT_ERR_WITNESS_PUBKEYTYPE
  else Ok tt.

End encodings.

(** ** The machine: state and failures *)

Inductive exception : Set :=
| out_of_range                      (* [vector::at] *)
| popstack_empty                    (* "popstack(): stack empty" *)
| scriptnum (e : scriptnum_error).

Inductive failure : Set :=
| Return_false (e : ScriptError)
| Throw (x : exception)
| Undefined
| Out_of_fuel.                      (* not an outcome of the source *)

Record EvalState : Type := mkEval {
  stack : list valtype;
  altstack : list valtype;
  vfExec : list bool;
  nOpCount : Z;
  pc : nat;
  pbegincodehash : nat;
}.

Definition M (A : Type) : Type := EvalState -> result failure A * EvalState.

#[export] Instance M_ret : MRet M := fun A a s => (Ok a, s).
#[export] Instance M_bind : MBind M := fun A B f m s =>
  match m s with
  | (Ok a, s') => f a s'
  | (Err e, s') => (Err e, s')
  end.

Definition fail {A} (f : failure) : M A := fun s => (Err f, s).
Definition set_error {A} (e : ScriptError) : M A := fail (Return_false e).
Definition get : M EvalState := fun s => (Ok s, s).
Definition require (b : bool) (e : ScriptError) : M unit := if b then mret tt else set_error e.

Definition upd_stack (f : list valtype -> list valtype) : M unit := fun s =>
  (Ok tt, mkEval (f (stack s)) (altstack s) (vfExec s) (nOpCount s) (pc s) (pbegincodehash s)).
Definition upd_altstack (f : list valtype -> list valtype) : M unit := fun s =>
  (Ok tt, mkEval (stack s) (f (altstack s)) (vfExec s) (nOpCount s) (pc s) (pbegincodehash s)).
Definition upd_vfExec (f : list bool -> list bool) : M unit := fun s =>
  (Ok tt, mkEval (stack s) (altstack s) (f (vfExec s)) (nOpCount s) (pc s) (pbegincodehash s)).
Definition add_nOpCount (k : Z) : M unit := fun s =>
  (Ok tt, mkEval (stack s) (altstack s) (vfExec s) (nOpCount s + k) (pc s) (pbegincodehash s)).
Definition set_pc (k : nat) : M unit := fun s =>
  (Ok tt, mkEval (stack s) (altstack s) (vfExec s) (nOpCount s) k (pbegincodehash s)).
Definition set_pbegincodehash (k : nat) : M unit := fun s =>
  (Ok tt, mkEval (stack s) (altstack s) (vfExec s) (nOpCount s) (pc s) k).

(** [stack.size()], [stacktop(-i)], [popstack(stack)], [stack.push_back(v)] *)
Definition stack_size : M Z := s ← get; mret (Z.of_nat (length (stack s))).
Definition stacktop (i : Z) : M valtype :=
  s ← get;
  match stack s !! Z.to_nat (i - 1) with
  | Some v => if i <=? 0 then fail (Throw out_of_range) else mret v
  | None => fail (Throw out_of_range)
  end.
Definition popstack : M unit :=
  s ← get;
  match stack s with
  | [] => fail (Throw popstack_empty)
  | _ :: st => upd_stack (fun _ => st)
  end.
Definition push_back (v : valtype) : M unit := upd_stack (cons v).

(** [swap(stacktop(-i), stacktop(-j))] *)
Definition swap_top (i j : Z) : M unit :=
  x ← stacktop i;
  y ← stacktop j;
  upd_stack (fun st => <[Z.to_nat (j - 1) := x]> (<[Z.to_nat (i - 1) := y]> st)).

(** [stack.erase(stack.end() - a, stack.end() - b)]: the iterators must be in the vector. *)
Definition erase (a b : Z) : M unit :=
  n ← stack_size;
  if a <=? n then upd_stack (fun st => take (Z.to_nat b) st ++ drop (Z.to_nat a) st)
  else fail Undefined.

(** [stack.insert(stack.end() - a, v)] *)
Definition insert_before (a : Z) (v : valtype) : M unit :=
  n ← stack_size;
  if a <=? n then upd_stack (fun st => take (Z.to_nat a) st ++ v :: drop (Z.to_nat a) st)
  else fail Undefined.

(** [CScriptNum(vch, fRequireMinimal, nMaxNumSize)] *)
Definition script_num (vch : valtype) (fRequireMinimal : bool) (nMaxNumSize : Z) : M Z :=
  match CScriptNum.of_vch vch fRequireMinimal nMaxNumSize with
  | Ok n => mret n
  | Err e => fail (Throw (scriptnum e))
  end.

(** An arithmetic operation whose [assert] or overflow is [None]. *)
Definition defined {A} (o : option A) : M A :=
  match o with Some a => mret a | None => fail Undefined end.

Definition check {A} (r : result ScriptError A) : M A :=
  match r with Ok a => mret a | Err e => set_error e end.

Definition vchFalse : valtype := [].
Definition vchTrue : valtype := [1].
Definition vch_of_bool (b : bool) : valtype := if b then vchTrue else vchFalse.
Definition int_of_bool (b : bool) : Z := if b then 1 else 0.

Definition is_op (opcode : Z) (l : list Z) : bool := existsb (Z.eqb opcode) l.

(** ** Operations *)

Section machine.
Context (be : bool) (CheckLowS : list Z -> bool) (H : Hashers) (checker : SignatureChecker).
Context (script : list Z) (flags : Z) (sigversion : SigVersion).

Definition flag (f : Z) : bool := flag_set flags f.
Definition fRequireMinimal : bool := flag SCRIPT_VERIFY_MINIMALDATA.

Definition need (k : Z) : M unit :=
  n ← stack_size; require (negb (n <? k)) SCRIPT_ERR_INVALID_STACK_OPERATION.
Definition number (vch : valtype) : M Z :=
  script_num vch fRequireMinimal CScriptNum.nDefaultMaxNumSize.
Definition push_num (n : Z) : M unit := push_back (CScriptNum.getvch n).

(** *** Control *)

Definition op_small_number (opcode : Z) : M unit := push_num (opcode - (OP_1 - 1)).

Definition op_nop : M unit :=
  require (negb (flag SCRIPT_VERIFY_DISCOURAGE_UPGRADABLE_NOPS)) SCRIPT_ERR_DISCOURAGE_UPGRADABLE_NOPS.

Definition op_checklocktimeverify : M unit :=
  if negb (flag SCRIPT_VERIFY_CHECKLOCKTIMEVERIFY) then op_nop
  else
    need 1;;
    top ← stacktop 1;
    nLockTime ← script_num top fRequireMinimal 5;
    require (negb (CScriptNum.op_lt nLockTime 0)) SCRIPT_ERR_NEGATIVE_LOCKTIME;;
    require (CheckLockTime checker nLockTime) SCRIPT_ERR_UNSATISFIED_LOCKTIME.

Definition op_checksequenceverify : M unit :=
  if negb (flag SCRIPT_VERIFY_CHECKSEQUENCEVERIFY) then op_nop
  else
    need 1;;
    top ← stacktop 1;
    nSequence ← script_num top fRequireMinimal 5;
    require (negb (CScriptNum.op_lt nSequence 0)) SCRIPT_ERR_NEGATIVE_LOCKTIME;;
    if CScriptNum.op_ne (CScriptNum.op_and nSequence CTxIn.SEQUENCE_LOCKTIME_DISABLE_FLAG) 0
    then mret tt
    else require (CheckSequence checker nSequence) SCRIPT_ERR_UNSATISFIED_LOCKTIME.

Definition op_if (fExec : bool) (opcode : Z) : M unit :=
  fValue ←
    (if fExec then
       n ← stack_size;
       require (negb (n <? 1)) SCRIPT_ERR_UNBALANCED_CONDITIONAL;;
       vch ← stacktop 1;
       (if bool_decide (sigversion = SIGVERSION_WITNESS_V0) && flag SCRIPT_VERIFY_MINIMALIF then
          require (negb (Z.of_nat (length vch) >? 1)) SCRIPT_ERR_MINIMALIF;;
          require (negb ((Z.of_nat (length vch) =? 1) && negb (vch !!! 0%nat =? 1))) SCRIPT_ERR_MINIMALIF
        else mret tt);;
       let fValue := CastToBool vch in
       let fValue := if opcode =? OP_NOTIF then negb fValue else fValue in
       popstack;;
       mret fValue
     else mret false);
  upd_vfExec (cons fValue).

Definition op_else : M unit :=
  s ← get;
  match vfExec s with
  | [] => set_error SCRIPT_ERR_UNBALANCED_CONDITIONAL
  | b :: v => upd_vfExec (fun _ => negb b :: v)
  end.

Definition op_endif : M unit :=
  s ← get;
  match vfExec s with
  | [] => set_error SCRIPT_ERR_UNBALANCED_CONDITIONAL
  | _ :: v => upd_vfExec (fun _ => v)
  end.

Definition op_verify : M unit :=
  need 1;;
  top ← stacktop 1;
  let fValue := CastToBool top in
  if fValue then popstack else set_error SCRIPT_ERR_VERIFY.

(** *** Stack *)

Definition op_toaltstack : M unit :=
  need 1;; v ← stacktop 1; upd_altstack (cons v);; popstack.

Definition op_fromaltstack : M unit :=
  s ← get;
  match altstack s with
  | [] => set_error SCRIPT_ERR_INVALID_ALTSTACK_OPERATION
  | v :: alt => push_back v;; upd_altstack (fun _ => alt)
  end.

Definition op_2drop : M unit := need 2;; popstack;; popstack.
Definition op_2dup : M unit :=
  need 2;; vch1 ← stacktop 2; vch2 ← stacktop 1; push_back vch1;; push_back vch2.
Definition op_3dup : M unit :=
  need 3;; vch1 ← stacktop 3; vch2 ← stacktop 2; vch3 ← stacktop 1;
  push_back vch1;; push_back vch2;; push_back vch3.
Definition op_2over : M unit :=
  need 4;; vch1 ← stacktop 4; vch2 ← stacktop 3; push_back vch1;; push_back vch2.
Definition op_2rot : M unit :=
  need 6;; vch1 ← stacktop 6; vch2 ← stacktop 5; erase 6 4;; push_back vch1;; push_back vch2.
Definition op_2swap : M unit := need 4;; swap_top 4 2;; swap_top 3 1.
Definition op_ifdup : M unit :=
  need 1;; vch ← stacktop 1; if CastToBool vch then push_back vch else mret tt.
Definition op_depth : M unit := n ← stack_size; push_num n.
Definition op_drop : M unit := need 1;; popstack.
Definition op_dup : M unit := need 1;; vch ← stacktop 1; push_back vch.
Definition op_nip : M unit := need 2;; erase 2 1.
Definition op_over : M unit := need 2;; vch ← stacktop 2; push_back vch.
Definition op_pick_roll (opcode : Z) : M unit :=
  need 2;;
  top ← stacktop 1;
  bn ← number top;
  let n := CScriptNum.getint bn in
  popstack;;
  size ← stack_size;
  require (negb ((n <? 0) || (n >=? size))) SCRIPT_ERR_INVALID_STACK_OPERATION;;
  vch ← stacktop (n + 1);
  (if opcode =? OP_ROLL then erase (n + 1) n else mret tt);;
  push_back vch.
Definition op_rot : M unit := need 3;; swap_top 3 2;; swap_top 2 1.
Definition op_swap : M unit := need 2;; swap_top 2 1.
Definition op_tuck : M unit := need 2;; vch ← stacktop 1; insert_before 2 vch.
Definition op_size : M unit := need 1;; top ← stacktop 1; push_num (Z.of_nat (length top)).

Definition op_equal (opcode : Z) : M unit :=
  need 2;;
  vch1 ← stacktop 2;
  vch2 ← stacktop 1;
  let fEqual := bool_decide (vch1 = vch2) in
  popstack;; popstack;;
  push_back (vch_of_bool fEqual);;
  if opcode =? OP_EQUALVERIFY then
    if fEqual then popstack else set_error SCRIPT_ERR_EQUALVERIFY
  else mret tt.

(** *** Numbers *)

Definition unary (opcode bn : Z) : option Z :=
  if opcode =? OP_1ADD then CScriptNum.op_add_assign bn 1
  else if opcode =? OP_1SUB then CScriptNum.op_sub_assign bn 1
  else if opcode =? OP_NEGATE then CScriptNum.op_neg bn
  else if opcode =? OP_ABS then if CScriptNum.op_lt bn 0 then CScriptNum.op_neg bn else Some bn
  else if opcode =? OP_NOT then Some (int_of_bool (CScriptNum.op_eq bn 0))
  else if opcode =? OP_0NOTEQUAL then Some (int_of_bool (CScriptNum.op_ne bn 0))
  else None.

Definition op_unary (opcode : Z) : M unit :=
  need 1;;
  top ← stacktop 1;
  bn ← number top;
  bn ← defined (unary opcode bn);
  popstack;;
  push_num bn.

Definition binary (opcode bn1 bn2 : Z) : option Z :=
  if opcode =? OP_ADD then CScriptNum.op_add bn1 bn2
  else if opcode =? OP_SUB then CScriptNum.op_sub bn1 bn2
  else if opcode =? OP_BOOLAND then
    Some (int_of_bool (CScriptNum.op_ne bn1 0 && CScriptNum.op_ne bn2 0))
  else if opcode =? OP_BOOLOR then
    Some (int_of_bool (CScriptNum.op_ne bn1 0 || CScriptNum.op_ne bn2 0))
  else if opcode =? OP_NUMEQUAL then Some (int_of_bool (CScriptNum.op_eq bn1 bn2))
  else if opcode =? OP_NUMEQUALVERIFY then Some (int_of_bool (CScriptNum.op_eq bn1 bn2))
  else if opcode =? OP_NUMNOTEQUAL then Some (int_of_bool (CScriptNum.op_ne bn1 bn2))
  else if opcode =? OP_LESSTHAN then Some (int_of_bool (CScriptNum.op_lt bn1 bn2))
  else if opcode =? OP_GREATERTHAN then Some (int_of_bool (CScriptNum.op_gt bn1 bn2))
  else if opcode =? OP_LESSTHANOREQUAL then Some (int_of_bool (CScriptNum.op_le bn1 bn2))
  else if opcode =? OP_GREATERTHANOREQUAL then Some (int_of_bool (CScriptNum.op_ge bn1 bn2))
  else if opcode =? OP_MIN then Some (if CScriptNum.op_lt bn1 bn2 then bn1 else bn2)
  else if opcode =? OP_MAX then Some (if CScriptNum.op_gt bn1 bn2 then bn1 else bn2)
  else None.

Definition op_binary (opcode : Z) : M unit :=
  need 2;;
  vch1 ← stacktop 2; bn1 ← number vch1;
  vch2 ← stacktop 1; bn2 ← number vch2;
  bn ← defined (binary opcode bn1 bn2);
  popstack;; popstack;;
  push_num bn;;
  if opcode =? OP_NUMEQUALVERIFY then
    top ← stacktop 1;
    if CastToBool top then popstack else set_error SCRIPT_ERR_NUMEQUALVERIFY
  else mret tt.

Definition op_within : M unit :=
  need 3;;
  vch1 ← stacktop 3; bn1 ← number vch1;
  vch2 ← stacktop 2; bn2 ← number vch2;
  vch3 ← stacktop 1; bn3 ← number vch3;
  let fValue := CScriptNum.op_le bn2 bn1 && CScriptNum.op_lt bn1 bn3 in
  popstack;; popstack;; popstack;;
  push_back (vch_of_bool fValue).

(** *** Crypto *)

Definition op_hash (opcode : Z) : M unit :=
  need 1;;
  vch ← stacktop 1;
  let vchHash :=
    if opcode =? OP_RIPEMD160 then h_ripemd160 H vch
    else if opcode =? OP_SHA1 then h_sha1 H vch
    else if opcode =? OP_SHA256 then h_sha256 H vch
    else if opcode =? OP_HASH160 then h_hash160 H vch
    else h_hash256 H vch in
  popstack;;
  push_back vchHash.

(** [CScript scriptCode(pbegincodehash, pend)] *)
Definition script_code : M (list Z) := s ← get; mret (drop (pbegincodehash s) script).

(** [scriptCode.FindAndDelete(CScript(vchSig))], in scripts before segwit only *)
Definition drop_signature (scriptCode vchSig : list Z) : list Z :=
  if bool_decide (sigversion = SIGVERSION_BASE)
  then (CScript.FindAndDelete be scriptCode (CScript.push_vch be [] vchSig)).2
  else scriptCode.

Definition check_encodings (vchSig vchPubKey : valtype) : M unit :=
  check (CheckSignatureEncoding CheckLowS vchSig flags);;
  check (CheckPubKeyEncoding vchPubKey flags sigversion).

Definition op_checksig (opcode : Z) : M unit :=
  need 2;;
  vchSig ← stacktop 2;
  vchPubKey ← stacktop 1;
  scriptCode ← script_code;
  let scriptCode := drop_signature scriptCode vchSig in
  check_encodings vchSig vchPubKey;;
  let fSuccess := CheckSig checker vchSig vchPubKey scriptCode sigversion in
  require (negb (negb fSuccess && flag SCRIPT_VERIFY_NULLFAIL && negb (Z.of_nat (length vchSig) =? 0)))
    SCRIPT_ERR_SIG_NULLFAIL;;
  popstack;; popstack;;
  push_back (vch_of_bool fSuccess);;
  if opcode =? OP_CHECKSIGVERIFY then
    if fSuccess then popstack else set_error SCRIPT_ERR_CHECKSIGVERIFY
  else mret tt.

(** [for (k = 0; k < nSigsCount; k++)]: drop the signatures from the script code. *)
Fixpoint drop_signatures (n : nat) (isig_k : Z) (scriptCode : list Z) : M (list Z) :=
  match n with
  | O => mret scriptCode
  | S n' =>
      vchSig ← stacktop isig_k;
      drop_signatures n' (isig_k + 1) (drop_signature scriptCode vchSig)
  end.

(** [while (fSuccess && nSigsCount > 0)]: a key is used up in every round. *)
Fixpoint check_signatures (fuel : nat) (fSuccess : bool) (isig ikey nSigsCount nKeysCount : Z)
    (scriptCode : list Z) : M bool :=
  if fSuccess && (nSigsCount >? 0) then
    match fuel with
    | O => fail Out_of_fuel
    | S fuel' =>
        vchSig ← stacktop isig;
        vchPubKey ← stacktop ikey;
        check_encodings vchSig vchPubKey;;
        let fOk := CheckSig checker vchSig vchPubKey scriptCode sigversion in
        let isig := if fOk then isig + 1 else isig in
        let nSigsCount := if fOk then nSigsCount - 1 else nSigsCount in
        let ikey := ikey + 1 in
        let nKeysCount := nKeysCount - 1 in
        let fSuccess := negb (nSigsCount >? nKeysCount) in
        check_signatures fuel' fSuccess isig ikey nSigsCount nKeysCount scriptCode
    end
  else mret fSuccess.

(** [while (i-- > 1)]: clean up the arguments. *)
Fixpoint clean_up (n : nat) (fSuccess : bool) (ikey2 : Z) : M unit :=
  match n with
  | O => mret tt
  | S n' =>
      (if negb fSuccess && flag SCRIPT_VERIFY_NULLFAIL && (ikey2 =? 0) then
         top ← stacktop 1;
         require (Z.of_nat (length top) =? 0) SCRIPT_ERR_SIG_NULLFAIL
       else mret tt);;
      popstack;;
      clean_up n' fSuccess (if ikey2 >? 0 then ikey2 - 1 else ikey2)
  end.

Definition op_checkmultisig (opcode : Z) : M unit :=
  need 1;;
  top ← stacktop 1;
  bn ← number top;
  let nKeysCount := CScriptNum.getint bn in
  require (negb ((nKeysCount <? 0) || (nKeysCount >? MAX_PUBKEYS_PER_MULTISIG))) SCRIPT_ERR_PUBKEY_COUNT;;
  add_nOpCount nKeysCount;;
  s ← get;
  require (negb (nOpCount s >? MAX_OPS_PER_SCRIPT)) SCRIPT_ERR_OP_COUNT;;
  let ikey := 2 in
  let ikey2 := nKeysCount + 2 in
  let i := 2 + nKeysCount in
  need i;;
  vch ← stacktop i;
  bn ← number vch;
  let nSigsCount := CScriptNum.getint bn in
  require (negb ((nSigsCount <? 0) || (nSigsCount >? nKeysCount))) SCRIPT_ERR_SIG_COUNT;;
  let isig := i + 1 in
  let i := isig + nSigsCount in
  need i;;
  scriptCode ← script_code;
  scriptCode ← drop_signatures (Z.to_nat nSigsCount) isig scriptCode;
  fSuccess ← check_signatures (Z.to_nat nKeysCount) true isig ikey nSigsCount nKeysCount scriptCode;
  clean_up (Z.to_nat (i - 1)) fSuccess ikey2;;
  need 1;;
  dummy ← stacktop 1;
  require (negb (flag SCRIPT_VERIFY_NULLDUMMY && negb (Z.of_nat (length dummy) =? 0)))
    SCRIPT_ERR_SIG_NULLDUMMY;;
  popstack;;
  push_back (vch_of_bool fSuccess);;
  if opcode =? OP_CHECKMULTISIGVERIFY then
    if (fSuccess : bool) then popstack else set_error SCRIPT_ERR_CHECKMULTISIGVERIFY
  else mret tt.

(** *** [switch (opcode)] *)

Definition small_number_ops : list Z :=
  [OP_1NEGATE; OP_1; OP_2; OP_3; OP_4; OP_5; OP_6; OP_7; OP_8; OP_9; OP_10; OP_11; OP_12;
   OP_13; OP_14; OP_15; OP_16].
Definition upgradable_nops : list Z :=
  [OP_NOP1; OP_NOP4; OP_NOP5; OP_NOP6; OP_NOP7; OP_NOP8; OP_NOP9; OP_NOP10].
Definition unary_ops : list Z := [OP_1ADD; OP_1SUB; OP_NEGATE; OP_ABS; OP_NOT; OP_0NOTEQUAL].
Definition binary_ops : list Z :=
  [OP_ADD; OP_SUB; OP_BOOLAND; OP_BOOLOR; OP_NUMEQUAL; OP_NUMEQUALVERIFY; OP_NUMNOTEQUAL;
   OP_LESSTHAN; OP_GREATERTHAN; OP_LESSTHANOREQUAL; OP_GREATERTHANOREQUAL; OP_MIN; OP_MAX].
Definition hash_ops : list Z := [OP_RIPEMD160; OP_SHA1; OP_SHA256; OP_HASH160; OP_HASH256].

Definition exec_opcode (fExec : bool) (opcode : Z) : M unit :=
  if is_op opcode small_number_ops then op_small_number opcode
  else if opcode =? OP_NOP then mret tt
  else if opcode =? OP_CHECKLOCKTIMEVERIFY then op_checklocktimeverify
  else if opcode =? OP_CHECKSEQUENCEVERIFY then op_checksequenceverify
  else if is_op opcode upgradable_nops then op_nop
  else if is_op opcode [OP_IF; OP_NOTIF] then op_if fExec opcode
  else if opcode =? OP_ELSE then op_else
  else if opcode =? OP_ENDIF then op_endif
  else if opcode =? OP_VERIFY then op_verify
  else if opcode =? OP_RETURN then set_error SCRIPT_ERR_OP_RETURN
  else if opcode =? OP_TOALTSTACK then op_toaltstack
  else if opcode =? OP_FROMALTSTACK then op_fromaltstack
  else if opcode =? OP_2DROP then op_2drop
  else if opcode =? OP_2DUP then op_2dup
  else if opcode =? OP_3DUP then op_3dup
  else if opcode =? OP_2OVER then op_2over
  else if opcode =? OP_2ROT then op_2rot
  else if opcode =? OP_2SWAP then op_2swap
  else if opcode =? OP_IFDUP then op_ifdup
  else if opcode =? OP_DEPTH then op_depth
  else if opcode =? OP_DROP then op_drop
  else if opcode =? OP_DUP then op_dup
  else if opcode =? OP_NIP then op_nip
  else if opcode =? OP_OVER then op_over
  else if is_op opcode [OP_PICK; OP_ROLL] then op_pick_roll opcode
  else if opcode =? OP_ROT then op_rot
  else if opcode =? OP_SWAP then op_swap
  else if opcode =? OP_TUCK then op_tuck
  else if opcode =? OP_SIZE then op_size
  else if is_op opcode [OP_EQUAL; OP_EQUALVERIFY] then op_equal opcode
  else if is_op opcode unary_ops then op_unary opcode
  else if is_op opcode binary_ops then op_binary opcode
  else if opcode =? OP_WITHIN then op_within
  else if is_op opcode hash_ops then op_hash opcode
  else if opcode =? OP_CODESEPARATOR then (s ← get; set_pbegincodehash (pc s))
  else if is_op opcode [OP_CHECKSIG; OP_CHECKSIGVERIFY] then op_checksig opcode
  else if is_op opcode [OP_CHECKMULTISIG; OP_CHECKMULTISIGVERIFY] then op_checkmultisig opcode
  else set_error SCRIPT_ERR_BAD_OPCODE.

Definition disabled_ops : list Z :=
  [OP_CAT; OP_SUBSTR; OP_LEFT; OP_RIGHT; OP_INVERT; OP_AND; OP_OR; OP_XOR; OP_2MUL; OP_2DIV;
   OP_MUL; OP_DIV; OP_MOD; OP_LSHIFT; OP_RSHIFT].

(** The body of [while (pc < pend)]. *)
Definition step : M unit :=
  s ← get;
  let fExec := forallb id (vfExec s) in
  let '(ok, opcode, vchPushValue, pc') := CScript.GetOp2 be script (pc s) in
  set_pc pc';;
  require ok SCRIPT_ERR_BAD_OPCODE;;
  require (negb (Z.of_nat (length vchPushValue) >? MAX_SCRIPT_ELEMENT_SIZE)) SCRIPT_ERR_PUSH_SIZE;;
  (if opcode >? OP_16 then
     add_nOpCount 1;;
     s ← get;
     require (negb (nOpCount s >? MAX_OPS_PER_SCRIPT)) SCRIPT_ERR_OP_COUNT
   else mret tt);;
  require (negb (is_op opcode disabled_ops)) SCRIPT_ERR_DISABLED_OPCODE;;
  (if fExec && (0 <=? opcode) && (opcode <=? OP_PUSHDATA4) then
     require (negb (fRequireMinimal && negb (CheckMinimalPush vchPushValue opcode))) SCRIPT_ERR_MINIMALDATA;;
     push_back vchPushValue
   else if fExec || ((OP_IF <=? opcode) && (opcode <=? OP_ENDIF)) then exec_opcode fExec opcode
   else mret tt);;
  s ← get;
  require (negb (Z.of_nat (length (stack s)) + Z.of_nat (length (altstack s)) >? 1000)) SCRIPT_ERR_STACK_SIZE.

(** Every round reads at least a byte: the length of the script bounds the rounds. *)
Fixpoint run (fuel : nat) : M unit :=
  s ← get;
  if (pc s <? length script)%nat then
    match fuel with
    | O => fail Out_of_fuel
    | S fuel' => step;; run fuel'
    end
  else mret tt.

Definition initial (st : list valtype) : EvalState := mkEval st [] [] 0 0 0.

(** [EvalScript]: exceptions are caught ([catch (...)]).  The result with the stack it
    leaves to the caller. *)
Definition EvalScript (st : list valtype) : result failure unit * list valtype :=
  if Z.of_nat (length script) >? MAX_SCRIPT_SIZE then (Err (Return_false SCRIPT_ERR_SCRIPT_SIZE), st)
  else
    match run (length script) (initial st) with
    | (Err (Throw _), s) => (Err (Return_false SCRIPT_ERR_UNKNOWN_ERROR), stack s)
    | (Err f, s) => (Err f, stack s)
    | (Ok _, s) =>
        match vfExec s with
        | [] => (Ok tt, stack s)
        | _ => (Err (Return_false SCRIPT_ERR_UNBALANCED_CONDITIONAL), stack s)
        end
    end.

End machine.

(** ** Reasoning about the machine

    [wp m Q s]: run from [s], [m] either succeeds in a state with [Q], or fails in one
    of the ways the source means to fail (an error code or the exception of a script
    number) and leaves a stack of well-formed elements. *)

Definition elem_ok (v : valtype) : Prop := Forall is_byte v /\ Z.of_nat (length v) <= MAX_SCRIPT_ELEMENT_SIZE.

Definition stacks_ok (s : EvalState) : Prop := Forall elem_ok (stack s) /\ Forall elem_ok (altstack s).

Definition benign (f : failure) : Prop :=
  match f with
  | Return_false _ => True
  | Throw (scriptnum _) => True
  | _ => False
  end.

Definition wp {A} (m : M A) (Q : A -> EvalState -> Prop) (s : EvalState) : Prop :=
  match m s with
  | (Ok a, s') => Q a s'
  | (Err f, s') => benign f /\ stacks_ok s'
  end.

Section wp_rules.

Lemma wp_ret {A} (a : A) Q s : Q a s -> wp (mret a) Q s.
Proof. done. Qed.

Lemma wp_bind {A B} (m : M A) (f : A -> M B) Q s :
  wp m (fun a s' => wp (f a) Q s') s -> wp (m ≫= f) Q s.
Proof. unfold wp, mbind, M_bind. by destruct (m s) as [[a|e] s']. Qed.

Lemma wp_mono {A} (m : M A) (Q Q' : A -> EvalState -> Prop) s :
  wp m Q s -> (forall a s', Q a s' -> Q' a s') -> wp m Q' s.
Proof. unfold wp. intros Hm HQ. destruct (m s) as [[a|e] s']; auto. Qed.

Lemma wp_get Q s : Q s s -> wp get Q s.
Proof. done. Qed.

Lemma wp_set_error {A} e (Q : A -> EvalState -> Prop) s : stacks_ok s -> wp (set_error e) Q s.
Proof. done. Qed.

Lemma wp_require b e Q s : stacks_ok s -> (b = true -> Q tt s) -> wp (require b e) Q s.
Proof. intros Hs HQ. destruct b; [by apply HQ|by apply wp_set_error]. Qed.

Lemma wp_need k Q s : stacks_ok s ->
  (k <= Z.of_nat (length (stack s)) -> Q tt s) -> wp (need k) Q s.
Proof.
  intros Hs HQ. apply wp_bind. apply (wp_require _ _ _ _ Hs). intros Hb.
  apply HQ. apply negb_true_iff, Z.ltb_ge in Hb. done.
Qed.

Lemma stacktop_lookup i s v : 1 <= i -> stack s !! Z.to_nat (i - 1) = Some v -> stacktop i s = (Ok v, s).
Proof.
  intros Hi Hv. unfold stacktop, mbind, M_bind, get. rewrite Hv.
  by rewrite (proj2 (Z.leb_gt i 0)) by lia.
Qed.

Lemma wp_stacktop i Q s : 1 <= i <= Z.of_nat (length (stack s)) ->
  (forall v, stack s !! Z.to_nat (i - 1) = Some v -> Q v s) -> wp (stacktop i) Q s.
Proof.
  intros Hi HQ. destruct (lookup_lt_is_Some_2 (stack s) (Z.to_nat (i - 1))) as [v Hv]; [lia|].
  unfold wp. rewrite (stacktop_lookup i s v) by (done || lia). auto.
Qed.

Lemma stacks_ok_lookup s i v : stacks_ok s -> stack s !! i = Some v -> elem_ok v.
Proof. intros [Hs _] Hv. by apply (Forall_lookup_1 _ _ _ _ Hs Hv). Qed.

(** Script numbers of stack elements: below the width that could overflow. *)
Lemma num_val_bound vch n : Forall is_byte vch -> Z.of_nat (length vch) <= n -> 1 <= n ->
  - 2 ^ (8 * n - 1) < num_val vch < 2 ^ (8 * n - 1).
Proof.
  intros Hb Hl Hn. unfold num_val. pose proof (le_val_bound vch Hb) as Hv.
  destruct vch as [|b vch].
  { cbn in *. change (- 2 ^ (8 * n - 1) < 0 < 2 ^ (8 * n - 1)). lia. }
  set (k := 8 * Z.of_nat (length (b :: vch)) - 1) in *.
  assert (0 <= k) by (unfold k; cbn [length]; lia).
  replace (8 * Z.of_nat (length (b :: vch))) with (k + 1) in Hv by lia.
  rewrite Z.pow_add_r in Hv by lia.
  assert (2 ^ k <= 2 ^ (8 * n - 1)) by (apply Z.pow_le_mono_r; lia).
  case_bool; lia.
Qed.

Lemma wp_script_num v m n Q s : stacks_ok s -> Forall is_byte v -> 1 <= n <= 8 ->
  (forall k, - 2 ^ (8 * n - 1) < k < 2 ^ (8 * n - 1) -> Q k s) -> wp (script_num v m n) Q s.
Proof.
  intros Hs Hv Hn HQ. unfold wp, script_num, CScriptNum.of_vch.
  destruct (Z.gtb_spec (Z.of_nat (length v)) n) as [|Hl]; [done|].
  destruct (_ && _ && _ && _); [done|]. cbn. apply HQ. rewrite set_vch_spec by (done || lia).
  apply num_val_bound; (done || lia).
Qed.

Lemma elem_ok_short v : Forall is_byte v -> (length v <= 32)%nat -> elem_ok v.
Proof. intros Hb Hl. split; [done|unfold MAX_SCRIPT_ELEMENT_SIZE; lia]. Qed.

Lemma serialize_elem_ok n : - 2 ^ 63 < n < 2 ^ 63 -> elem_ok (CScriptNum.getvch n).
Proof.
  intros Hn. destruct (serialize_spec n Hn) as (? & ? & _). apply elem_ok_short; [done|].
  change (CScriptNum.getvch n) with (CScriptNum.serialize n). lia.
Qed.

Lemma bool_elem_ok b : elem_ok (vch_of_bool b).
Proof. by destruct b; apply elem_ok_short; cbn; try lia; repeat constructor. Qed.

Lemma wp_eval {A} (m : M A) a s' (Q : A -> EvalState -> Prop) s : m s = (Ok a, s') -> Q a s' -> wp m Q s.
Proof. unfold wp. by intros ->. Qed.

Lemma wp_defined {A} (o : option A) a (Q : A -> EvalState -> Prop) s :
  o = Some a -> Q a s -> wp (defined o) Q s.
Proof. by intros ->. Qed.

Lemma wp_check {A} (r : result ScriptError A) (Q : A -> EvalState -> Prop) s : stacks_ok s ->
  (forall a, r = Ok a -> Q a s) -> wp (check r) Q s.
Proof. intros Hs HQ. destruct r; [by apply HQ|by apply wp_set_error]. Qed.

Lemma wp_erase a b Q s : a <= Z.of_nat (length (stack s)) ->
  wp (upd_stack (fun st => take (Z.to_nat b) st ++ drop (Z.to_nat a) st)) Q s -> wp (erase a b) Q s.
Proof.
  intros Ha HQ. apply wp_bind. eapply wp_eval; [reflexivity|]. by rewrite (proj2 (Z.leb_le _ _) Ha).
Qed.

Lemma wp_insert_before a v Q s : a <= Z.of_nat (length (stack s)) ->
  wp (upd_stack (fun st => take (Z.to_nat a) st ++ v :: drop (Z.to_nat a) st)) Q s ->
  wp (insert_before a v) Q s.
Proof.
  intros Ha HQ. apply wp_bind. eapply wp_eval; [reflexivity|]. by rewrite (proj2 (Z.leb_le _ _) Ha).
Qed.

End wp_rules.

(** Digests of at most 32 bytes, as the ones of the source. *)
Record hashers_ok (H : Hashers) : Prop := {
  ok_ripemd160 v : Forall is_byte (h_ripemd160 H v) /\ (length (h_ripemd160 H v) <= 32)%nat;
  ok_sha1 v : Forall is_byte (h_sha1 H v) /\ (length (h_sha1 H v) <= 32)%nat;
  ok_sha256 v : Forall is_byte (h_sha256 H v) /\ (length (h_sha256 H v) <= 32)%nat;
  ok_hash160 v : Forall is_byte (h_hash160 H v) /\ (length (h_hash160 H v) <= 32)%nat;
  ok_hash256 v : Forall is_byte (h_hash256 H v) /\ (length (h_hash256 H v) <= 32)%nat;
}.

(** ** Every operation keeps the machine in order *)

Create HintDb script_ops.

Section invariant.
Context (be : bool) (CheckLowS : list Z -> bool) (H : Hashers) (checker : SignatureChecker).
Context (script : list Z) (flags : Z) (sigversion : SigVersion).
Context (HH : hashers_ok H).

Record ready (s : EvalState) : Prop := {
  rd_stacks : stacks_ok s;
  rd_size : Z.of_nat (length (stack s)) < 2 ^ 62;
  rd_ops : 0 <= nOpCount s <= MAX_OPS_PER_SCRIPT;
  rd_code : (pbegincodehash s <= pc s)%nat;
}.

(** What an operation may do to a state: the read position is not its business. *)
Record kept (s s' : EvalState) : Prop := {
  kp_stacks : stacks_ok s';
  kp_ops : nOpCount s <= nOpCount s' <= MAX_OPS_PER_SCRIPT;
  kp_code : (pbegincodehash s' <= pc s')%nat;
  kp_pc : pc s' = pc s;
}.

Definition op_ok (m : M unit) : Prop := forall s, ready s -> wp m (fun _ s' => kept s s') s.

Ltac split_elems :=
  repeat match goal with
  | Hf : Forall elem_ok (_ :: _) |- _ => apply Forall_cons in Hf as [? Hf]
  | |- Forall elem_ok (_ :: _) => apply Forall_cons; split
  | |- Forall elem_ok (<[_ := _]> _) => apply Forall_insert
  end.
Ltac elems := split_elems; eauto using bool_elem_ok.
Ltac start :=
  intros [st alt vf nop p pb] [[Hst Halt] Hsz Hops Hpb];
  cbn [stack altstack vfExec nOpCount pc pbegincodehash] in *.
Ltac ok_state := split; cbn [stack altstack]; elems.
(** After [need k]: the elements of the stack. *)
Ltac expose Hlen :=
  repeat match type of Hlen with
  | context [length ?st] => is_var st; destruct st; cbn [length] in Hlen; [exfalso; lia|]
  end.
Ltac need_tac :=
  apply wp_bind, wp_need; [by split|]; cbn [stack]; let Hlen := fresh "Hlen" in intros Hlen; expose Hlen.
Ltac simp_state :=
  repeat match goal with
  | |- context [Z.to_nat (Zpos ?k)] =>
      let n := eval compute in (Z.to_nat (Zpos k)) in change (Z.to_nat (Zpos k)) with n
  end;
  cbn [stack altstack vfExec nOpCount pc pbegincodehash take drop app];
  rewrite ?take_0, ?drop_0; cbn [app].
Ltac size_tac := cbn [stack length]; lia.
Ltac run_tac :=
  repeat match goal with
  | |- wp (_ ≫= _) _ _ => apply wp_bind
  | |- wp (erase _ _) _ _ => apply wp_erase; [size_tac|]
  | |- wp (insert_before _ _) _ _ => apply wp_insert_before; [size_tac|]
  | |- wp _ _ _ => eapply wp_eval; [reflexivity|]; simp_state
  end.
Ltac finish := split; simp_state; try lia; try (ok_state; fail).
Ltac op_tac := start; need_tac; run_tac; finish.

Lemma op_verify_ok : op_ok op_verify.
Proof.
  start. need_tac. run_tac. cbv zeta.
  destruct (CastToBool _); [run_tac; finish|apply wp_set_error; ok_state].
Qed.
Lemma op_toaltstack_ok : op_ok op_toaltstack. Proof. op_tac. Qed.
Lemma op_fromaltstack_ok : op_ok op_fromaltstack.
Proof.
  start. unfold op_fromaltstack. run_tac. destruct alt as [|v alt]; [apply wp_set_error; by split|].
  run_tac. finish.
Qed.
Lemma op_2drop_ok : op_ok op_2drop. Proof. op_tac. Qed.
Lemma op_2dup_ok : op_ok op_2dup. Proof. op_tac. Qed.
Lemma op_3dup_ok : op_ok op_3dup. Proof. op_tac. Qed.
Lemma op_2over_ok : op_ok op_2over. Proof. op_tac. Qed.
Lemma op_2rot_ok : op_ok op_2rot. Proof. op_tac. Qed.
Lemma op_2swap_ok : op_ok op_2swap. Proof. op_tac. Qed.
Lemma op_ifdup_ok : op_ok op_ifdup.
Proof. start. need_tac. run_tac. destruct (CastToBool _); run_tac; finish. Qed.
Lemma op_depth_ok : op_ok op_depth.
Proof. start. unfold op_depth, push_num. run_tac. finish. ok_state. apply serialize_elem_ok. lia. Qed.
Lemma op_drop_ok : op_ok op_drop. Proof. op_tac. Qed.
Lemma op_dup_ok : op_ok op_dup. Proof. op_tac. Qed.
Lemma op_nip_ok : op_ok op_nip. Proof. op_tac. Qed.
Lemma op_over_ok : op_ok op_over. Proof. op_tac. Qed.
Lemma op_rot_ok : op_ok op_rot. Proof. op_tac. Qed.
Lemma op_swap_ok : op_ok op_swap. Proof. op_tac. Qed.
Lemma op_tuck_ok : op_ok op_tuck. Proof. op_tac. Qed.
Lemma op_size_ok : op_ok op_size.
Proof.
  start. need_tac. unfold push_num. run_tac. finish. ok_state. apply serialize_elem_ok.
  match goal with Hv : elem_ok ?v |- context [length ?v] => destruct Hv as [_ Hv]; unfold MAX_SCRIPT_ELEMENT_SIZE in Hv end.
  lia.
Qed.

Lemma wp_number v Q s : stacks_ok s -> elem_ok v ->
  (forall k, - 2 ^ 31 < k < 2 ^ 31 -> Q k s) -> wp (number flags v) Q s.
Proof. intros Hs [Hv _] HQ. apply wp_script_num; [done|done|done|exact HQ]. Qed.

(** After [number v] and [getint]: the value itself. *)
Lemma getint_small k : - 2 ^ 31 < k < 2 ^ 31 -> CScriptNum.getint k = k.
Proof. intros Hk. unfold CScriptNum.getint. repeat case_bool; lia. Qed.

Ltac num_tac k Hk := 
  apply wp_number; [ok_state|by elems|]; intros k Hk.

(** Arithmetic on 4-byte operands stays far inside [int64_t]: no [assert] fails. *)
Lemma int_of_bool_range b : - 2 ^ 32 < int_of_bool b < 2 ^ 32.
Proof. by destruct b. Qed.

Lemma checked_small k : - 2 ^ 32 < k < 2 ^ 32 -> CScriptNum.checked k = Some k.
Proof. intros Hk. unfold CScriptNum.checked. repeat case_bool; done || lia. Qed.

Ltac arith_case :=
  unfold CScriptNum.op_add, CScriptNum.op_sub, CScriptNum.op_add_assign, CScriptNum.op_sub_assign,
    CScriptNum.op_neg, CScriptNum.op_lt, CScriptNum.op_gt;
  repeat first [rewrite checked_small by lia | case_bool; try lia]; cbn;
  eexists; (split; [reflexivity|]); try apply int_of_bool_range; lia.

Lemma unary_small opcode k : is_op opcode unary_ops = true -> - 2 ^ 31 < k < 2 ^ 31 ->
  exists k', unary opcode k = Some k' /\ - 2 ^ 32 < k' < 2 ^ 32.
Proof.
  intros Hop Hk. unfold is_op, unary_ops in Hop. cbn [existsb] in Hop.
  rewrite !orb_true_iff, !Z.eqb_eq in Hop. unfold unary.
  destruct_or!; [..|done]; subst opcode; cbn -[CScriptNum.op_add_assign CScriptNum.op_sub_assign CScriptNum.op_neg
    CScriptNum.op_lt CScriptNum.op_eq CScriptNum.op_ne int_of_bool Z.pow]; arith_case.
Qed.

Lemma binary_small opcode k1 k2 : is_op opcode binary_ops = true ->
  - 2 ^ 31 < k1 < 2 ^ 31 -> - 2 ^ 31 < k2 < 2 ^ 31 ->
  exists k', binary opcode k1 k2 = Some k' /\ - 2 ^ 32 < k' < 2 ^ 32.
Proof.
  intros Hop H1 H2. unfold is_op, binary_ops in Hop. cbn [existsb] in Hop.
  rewrite !orb_true_iff, !Z.eqb_eq in Hop. unfold binary.
  destruct_or!; [..|done]; subst opcode; cbn -[CScriptNum.op_add CScriptNum.op_sub CScriptNum.op_lt
    CScriptNum.op_gt CScriptNum.op_le CScriptNum.op_ge CScriptNum.op_eq CScriptNum.op_ne int_of_bool Z.pow];
    arith_case.
Qed.

Lemma op_unary_ok opcode : is_op opcode unary_ops = true -> op_ok (op_unary flags opcode).
Proof.
  intros Hop. start. need_tac. run_tac. num_tac k Hk.
  destruct (unary_small opcode k Hop Hk) as (k' & Ek & Hk').
  apply wp_bind, (wp_defined _ k' _ _ Ek). unfold push_num. run_tac. finish. ok_state.
  apply serialize_elem_ok. lia.
Qed.

Lemma op_binary_ok opcode : is_op opcode binary_ops = true -> op_ok (op_binary flags opcode).
Proof.
  intros Hop. start. need_tac. run_tac. num_tac k1 Hk1. run_tac. num_tac k2 Hk2.
  destruct (binary_small opcode k1 k2 Hop Hk1 Hk2) as (k' & Ek & Hk').
  apply wp_bind, (wp_defined _ k' _ _ Ek). unfold push_num. run_tac.
  assert (elem_ok (CScriptNum.getvch k')) by (apply serialize_elem_ok; lia).
  destruct (opcode =? OP_NUMEQUALVERIFY); run_tac; [|finish].
  destruct (CastToBool _); run_tac; [finish|apply wp_set_error; ok_state].
Qed.

Lemma op_within_ok : op_ok (op_within flags).
Proof.
  start. need_tac. run_tac. num_tac k1 Hk1. run_tac. num_tac k2 Hk2. run_tac. num_tac k3 Hk3.
  cbv zeta. run_tac. finish.
Qed.

Lemma op_pick_roll_ok opcode : op_ok (op_pick_roll flags opcode).
Proof.
  start. need_tac. run_tac. num_tac k Hk. cbv zeta. rewrite (getint_small k Hk). run_tac.
  apply wp_require; [ok_state|]. intros Hn%negb_true_iff. apply orb_false_iff in Hn as [H1 H2].
  apply Z.ltb_ge in H1. rewrite Z.geb_leb in H2. apply Z.leb_gt in H2.
  apply wp_bind, wp_stacktop; [cbn [stack]; lia|]. cbn [stack]. intros v Hv.
  apply Forall_cons in Hst as [_ Hst]. pose proof (Forall_lookup_1 _ _ _ _ Hst Hv) as Hok. cbn beta in Hok.
  destruct (opcode =? OP_ROLL); apply wp_bind; [apply wp_erase; [cbn [stack]; lia|]|]; run_tac; finish.
  ok_state. apply Forall_app; split; [apply Forall_take|apply Forall_drop]; by elems.
Qed.

Lemma op_equal_ok opcode : op_ok (op_equal opcode).
Proof.
  start. need_tac. run_tac. cbv zeta. run_tac.
  destruct (opcode =? OP_EQUALVERIFY); [|run_tac; finish].
  destruct (bool_decide _); [run_tac; finish|apply wp_set_error; ok_state].
Qed.

Lemma op_hash_ok opcode : op_ok (op_hash H opcode).
Proof.
  start. need_tac. run_tac. cbv zeta. run_tac. finish. ok_state.
  repeat case_match; apply elem_ok_short; apply HH.
Qed.

Lemma op_small_number_ok opcode : 0 <= opcode <= 0xff -> op_ok (op_small_number opcode).
Proof.
  intros Hop. start. unfold op_small_number, push_num. run_tac. finish. ok_state.
  apply serialize_elem_ok. unfold OP_1. lia.
Qed.

Lemma op_nop_ok : op_ok (op_nop flags).
Proof. start. apply wp_require; [ok_state|]. intros _. finish. Qed.

Lemma wp_locktime_num v Q s : stacks_ok s -> elem_ok v -> (forall k, Q k s) ->
  wp (script_num v (fRequireMinimal flags) 5) Q s.
Proof. intros Hs [Hv _] HQ. apply wp_script_num; [done|done|done|]. intros k _. apply HQ. Qed.

Lemma op_checklocktimeverify_ok : op_ok (op_checklocktimeverify checker flags).
Proof.
  intros s Hs. unfold op_checklocktimeverify. destruct (flag flags _); cbn [negb]; [|by apply op_nop_ok].
  revert s Hs. start. need_tac. run_tac. apply wp_locktime_num; [ok_state|by elems|]. intros k. run_tac.
  apply wp_require; [ok_state|]. intros _. apply wp_require; [ok_state|]. intros _. finish.
Qed.

Lemma op_checksequenceverify_ok : op_ok (op_checksequenceverify checker flags).
Proof.
  intros s Hs. unfold op_checksequenceverify. destruct (flag flags _); cbn [negb]; [|by apply op_nop_ok].
  revert s Hs. start. need_tac. run_tac. apply wp_locktime_num; [ok_state|by elems|]. intros k. run_tac.
  apply wp_require; [ok_state|]. intros _. destruct (CScriptNum.op_ne _ _); [run_tac; finish|].
  apply wp_require; [ok_state|]. intros _. finish.
Qed.

Lemma op_if_ok fExec opcode : op_ok (op_if flags sigversion fExec opcode).
Proof.
  start. unfold op_if. destruct fExec; run_tac; [|finish].
  apply wp_require; [ok_state|]. intros Hlen%negb_true_iff%Z.ltb_ge. expose Hlen. run_tac.
  destruct (_ && _); run_tac.
  - apply wp_require; [ok_state|]. intros _. apply wp_require; [ok_state|]. intros _.
    cbv zeta. run_tac. finish.
  - cbv zeta. run_tac. finish.
Qed.

Lemma op_else_ok : op_ok op_else.
Proof.
  start. unfold op_else. run_tac. destruct vf; [apply wp_set_error; ok_state|]. run_tac. finish.
Qed.
Lemma op_endif_ok : op_ok op_endif.
Proof.
  start. unfold op_endif. run_tac. destruct vf; [apply wp_set_error; ok_state|]. run_tac. finish.
Qed.

Lemma op_checksig_ok opcode : op_ok (op_checksig be CheckLowS checker script flags sigversion opcode).
Proof.
  start. need_tac. unfold check_encodings. run_tac. cbv zeta.
  do 2 (run_tac; apply wp_check; [ok_state|]; intros _ _).
  run_tac. apply wp_require; [ok_state|]. intros _. run_tac.
  destruct (opcode =? OP_CHECKSIGVERIFY); [|run_tac; finish].
  destruct (CheckSig _ _ _ _ _); [run_tac; finish|apply wp_set_error; ok_state].
Qed.

(** *** [OP_CHECKMULTISIG] *)

Lemma wp_drop_signatures n i code Q s : 1 <= i -> i + Z.of_nat n - 1 <= Z.of_nat (length (stack s)) ->
  (forall code', Q code' s) -> wp (drop_signatures be sigversion n i code) Q s.
Proof.
  revert i code. induction n as [|n IH]; intros i code Hi Hl HQ; cbn [drop_signatures]; [by apply wp_ret|].
  apply wp_bind, wp_stacktop; [lia|]. intros v Hv. apply IH; [lia|lia|done].
Qed.

Lemma wp_check_signatures fuel ok isig ikey nSigs nKeys code Q s : stacks_ok s ->
  1 <= isig -> 1 <= ikey -> isig + nSigs - 1 <= Z.of_nat (length (stack s)) ->
  ikey + nKeys - 1 <= Z.of_nat (length (stack s)) ->
  nKeys <= Z.of_nat fuel -> (ok = true -> nSigs <= nKeys) ->
  (forall b, Q b s) ->
  wp (check_signatures CheckLowS checker flags sigversion fuel ok isig ikey nSigs nKeys code) Q s.
Proof.
  intros Hs. revert ok isig ikey nSigs nKeys.
  induction fuel as [|fuel IH]; intros ok isig ikey nSigs nKeys Hi Hk Hli Hlk Hf Hok HQ;
    cbn [check_signatures]; (destruct ok; cbn [andb]; [|by apply wp_ret]);
    specialize (Hok eq_refl); (destruct (Z.gtb_spec nSigs 0) as [Hg|]; [|by apply wp_ret]); [lia|].
  apply wp_bind, wp_stacktop; [lia|]. intros vsig _. apply wp_bind, wp_stacktop; [lia|]. intros vkey _.
  unfold check_encodings. do 2 apply wp_bind. apply wp_check; [done|]. intros _ _.
  apply wp_check; [done|]. intros _ _. cbv zeta.
  destruct (CheckSig _ _ _ _ _); apply IH; try lia; try done;
    intros Hb%negb_true_iff; rewrite Z.gtb_ltb in Hb; apply Z.ltb_ge in Hb; lia.
Qed.

Lemma wp_clean_up n ok ikey2 Q s : stacks_ok s -> (n <= length (stack s))%nat ->
  (forall s', s' = mkEval (drop n (stack s)) (altstack s) (vfExec s) (nOpCount s) (pc s) (pbegincodehash s) -> Q tt s') ->
  wp (clean_up flags n ok ikey2) Q s.
Proof.
  revert ikey2 s. induction n as [|n IH]; intros ikey2 [st alt vf nop p pb] Hs Hl HQ; cbn [clean_up].
  { apply wp_ret, HQ. cbn [stack altstack vfExec nOpCount pc pbegincodehash]. by rewrite drop_0. }
  cbn [stack] in *. destruct st as [|v st]; cbn [length] in Hl; [lia|].
  assert (wp popstack (fun _ s' => wp (clean_up flags n ok (if ikey2 >? 0 then ikey2 - 1 else ikey2)) Q s')
            (mkEval (v :: st) alt vf nop p pb)) as Hpop.
  { destruct Hs as [Hst Halt]. cbn [stack altstack] in *. run_tac. apply IH; [split_elems; by split|cbn [stack]; lia|].
    intros s' ->. by apply HQ. }
  apply wp_bind. destruct (_ && _ && _).
  - apply wp_bind. eapply wp_eval; [reflexivity|]. apply wp_require; [done|]. intros _. by apply wp_bind.
  - apply wp_ret. by apply wp_bind.
Qed.

Lemma op_checkmultisig_ok opcode :
  op_ok (op_checkmultisig be CheckLowS checker script flags sigversion opcode).
Proof.
  start. need_tac. run_tac. num_tac k Hk. cbv zeta. rewrite (getint_small k Hk). run_tac.
  apply wp_require; [ok_state|]. intros H1%negb_true_iff%orb_false_iff.
  destruct H1 as [Hk0%Z.ltb_ge Hk20]. rewrite Z.gtb_ltb in Hk20. apply Z.ltb_ge in Hk20. run_tac.
  apply wp_require; [ok_state|]. intros H2%negb_true_iff. rewrite Z.gtb_ltb in H2. apply Z.ltb_ge in H2.
  cbn [nOpCount] in H2. apply wp_bind, wp_need; [ok_state|]. cbn [stack]. intros Hlen1.
  apply wp_bind, wp_stacktop; [cbn [stack]; lia|]. cbn [stack]. intros v Hv.
  pose proof (Forall_lookup_1 _ _ _ _ Hst Hv) as Hok. cbn beta in Hok. apply wp_bind. num_tac k2 Hk2.
  rewrite (getint_small k2 Hk2). run_tac. apply wp_require; [ok_state|].
  intros H3%negb_true_iff%orb_false_iff. destruct H3 as [Hs0%Z.ltb_ge Hsk]. rewrite Z.gtb_ltb in Hsk.
  apply Z.ltb_ge in Hsk. apply wp_bind, wp_need; [ok_state|]. cbn [stack]. intros Hlen2.
  run_tac. apply wp_drop_signatures; [lia|cbn [stack]; lia|]. intros code. run_tac.
  apply wp_check_signatures; cbn [stack]; try lia; [ok_state|]. intros fSuccess. run_tac.
  apply wp_clean_up; [ok_state|cbn [stack]; lia|]. intros s' ->. simp_state.
  set (st' := drop _ _). assert (Forall elem_ok st') as Hst' by (apply Forall_drop; by elems).
  apply wp_bind, wp_need; [by split|]. cbn [stack]. intros Hlen3. clearbody st'. expose Hlen3. run_tac.
  apply wp_require; [by split|]. intros _. run_tac.
  destruct (opcode =? OP_CHECKMULTISIGVERIFY); [|run_tac; finish].
  destruct fSuccess; [run_tac; finish|apply wp_set_error; ok_state].
Qed.

Lemma op_codeseparator_ok : op_ok (s ← get; set_pbegincodehash (pc s)).
Proof. start. run_tac. finish. Qed.

Lemma op_ret_ok : op_ok (mret tt).
Proof. start. apply wp_ret. finish. Qed.

Lemma op_set_error_ok e : op_ok (set_error e).
Proof. intros s [Hs _ _ _]. by apply wp_set_error. Qed.

Hint Resolve op_verify_ok op_toaltstack_ok op_fromaltstack_ok op_2drop_ok op_2dup_ok op_3dup_ok
  op_2over_ok op_2rot_ok op_2swap_ok op_ifdup_ok op_depth_ok op_drop_ok op_dup_ok op_nip_ok op_over_ok
  op_rot_ok op_swap_ok op_tuck_ok op_size_ok op_unary_ok op_binary_ok op_within_ok op_pick_roll_ok
  op_equal_ok op_hash_ok op_small_number_ok op_nop_ok op_checklocktimeverify_ok
  op_checksequenceverify_ok op_if_ok op_else_ok op_endif_ok op_checksig_ok op_checkmultisig_ok
  op_codeseparator_ok op_ret_ok op_set_error_ok : script_ops.

Lemma exec_opcode_ok fExec opcode : 0 <= opcode <= 0xff ->
  op_ok (exec_opcode be CheckLowS H checker script flags sigversion fExec opcode).
Proof.
  intros Hop. unfold exec_opcode.
  repeat match goal with
  | |- op_ok (if ?c then _ else _) => destruct c eqn:?; [solve [auto with script_ops]|]
  end.
  auto with script_ops.
Qed.

Lemma GetOp2_bytes s p o v p' : Forall is_byte s -> CScript.GetOp2 be s p = (true, o, v, p') ->
  0 <= o <= 0xff /\ Forall is_byte v.
Proof.
  intros Hs. unfold CScript.GetOp2. destruct (Nat.leb_spec (length s) p) as [|Hp]; [done|].
  assert (0 <= s !!! p <= 0xff) as Hb.
  { destruct (lookup_lt_is_Some_2 s p Hp) as [b Hb]. rewrite (list_lookup_total_correct _ _ _ Hb).
    pose proof (Forall_lookup_1 _ _ _ _ Hs Hb) as Hbyte. unfold is_u in Hbyte. cbn beta in Hbyte. lia. }
  destruct (_ <=? _); [|by intros [= <- <- _]].
  destruct (CScript.operand_size be s (s !!! p) (S p)) as [[ok n] q]. destruct ok; cbn [negb]; [|done].
  destruct (_ <? _); [done|]. intros [= <- <- _]. split; [done|]. by apply Forall_take, Forall_drop.
Qed.

(** A round of the loop: a byte at least is read, and the limits hold again. *)
Definition within_limits (s : EvalState) : Prop :=
  Z.of_nat (length (stack s)) + Z.of_nat (length (altstack s)) <= 1000.

Context (Hscript : Forall is_byte script).

Lemma step_ok s : ready s -> (pc s < length script)%nat ->
  wp (step be CheckLowS H checker script flags sigversion)
     (fun _ s' => ready s' /\ within_limits s' /\ nOpCount s <= nOpCount s' /\
                  (pc s < pc s' <= length script)%nat) s.
Proof.
  intros Hr Hpc. unfold step. apply wp_bind, wp_get. cbv zeta.
  destruct (CScript.GetOp2 be script (pc s)) as [[[ok opcode] v] pc'] eqn:Eop.
  destruct Hr as [Hst Hsz Hops Hcode]. destruct s as [st alt vf nop p pb].
  cbn [stack altstack vfExec nOpCount pc pbegincodehash] in *. run_tac.
  apply wp_require; [done|]. intros ->.
  pose proof (GetOp2_progress _ _ _ _ _ _ Eop) as Hp'. pose proof (GetOp2_bytes _ _ _ _ _ Hscript Eop) as [Hop Hv].
  run_tac. apply wp_require; [done|]. intros Hl%negb_true_iff. rewrite Z.gtb_ltb in Hl. apply Z.ltb_ge in Hl.
  apply wp_bind.
  assert (forall nop', nop <= nop' <= MAX_OPS_PER_SCRIPT -> ready (mkEval st alt vf nop' pc' pb)) as Hrdy.
  { intros nop' Hn. split; cbn [stack nOpCount pc pbegincodehash]; [done|done|lia|lia]. }
  eapply (wp_mono _ (fun _ s' => exists nop', s' = mkEval st alt vf nop' pc' pb /\ nop <= nop' <= MAX_OPS_PER_SCRIPT)).
  { destruct (opcode >? OP_16); [|apply wp_ret; exists nop; split; [done|lia]]. run_tac.
    apply wp_require; [done|]. intros Hn%negb_true_iff. rewrite Z.gtb_ltb in Hn. apply Z.ltb_ge in Hn.
    exists (nop + 1). split; [done|lia]. }
  intros [] s' (nop' & -> & Hn). specialize (Hrdy nop' Hn). run_tac.
  apply wp_require; [apply Hrdy|]. intros _. apply wp_bind.
  eapply (wp_mono _ (fun _ s' => kept (mkEval st alt vf nop' pc' pb) s')).
  { destruct (_ && _ && _).
    - run_tac. apply wp_require; [done|]. intros _. run_tac. destruct Hst as [Hst Halt]. cbn in Hst, Halt.
      finish. split; simp_state; [apply Forall_cons; split; [by split|done]|done].
    - destruct (_ || _); [|by apply op_ret_ok]. by apply exec_opcode_ok. }
  intros [] s' [Hk1 Hk2 Hk3 Hk4]. apply wp_bind, wp_get, wp_require; [done|].
  intros Hlim%negb_true_iff. rewrite Z.gtb_ltb in Hlim. apply Z.ltb_ge in Hlim. cbn in Hk2, Hk4.
  split_and!; [split; try done; lia|done|lia|lia|lia].
Qed.

(** The states [EvalScript] goes through, from a stack [st]. *)
Inductive reachable (st : list valtype) : EvalState -> Prop :=
| reach_initial : reachable st (initial st)
| reach_step s s' : reachable st s -> (pc s < length script)%nat ->
    step be CheckLowS H checker script flags sigversion s = (Ok tt, s') -> reachable st s'.

Definition stack_wf (st : list valtype) : Prop :=
  Forall elem_ok st /\ Z.of_nat (length st) < 2 ^ 62.

Lemma initial_ready st : stack_wf st -> ready (initial st).
Proof. intros [Hst Hl]. split; cbn; [by split|done|done|lia]. Qed.

Lemma reachable_ready st s : stack_wf st -> reachable st s ->
  ready s /\ (pc s <= length script)%nat /\ (s = initial st \/ within_limits s).
Proof.
  intros Hst. induction 1 as [|s s' Hr IH Hpc Hstep].
  { split_and!; [by apply initial_ready|cbn; lia|by left]. }
  destruct IH as (Hrd & _ & _). pose proof (step_ok s Hrd Hpc) as Hw. unfold wp in Hw. rewrite Hstep in Hw.
  destruct Hw as (? & ? & ? & ?). split_and!; [done|lia|by right].
Qed.

(** The loop runs [step] on reachable states only, and stops at one. *)
Lemma run_ok fuel s : ready s -> (pc s <= length script)%nat -> (length script - pc s <= fuel)%nat ->
  wp (run be CheckLowS H checker script flags sigversion fuel)
     (fun _ s' => ready s' /\ pc s' = length script /\ (within_limits s' \/ s' = s)) s.
Proof.
  revert s. induction fuel as [|fuel IH]; intros s Hr Hpc Hf; cbn [run]; apply wp_bind, wp_get.
  - destruct (Nat.ltb_spec (pc s) (length script)); [lia|]. apply wp_ret. split_and!; [done|lia|by right].
  - destruct (Nat.ltb_spec (pc s) (length script)) as [Hlt|]; [|apply wp_ret; split_and!; [done|lia|by right]].
    apply wp_bind. eapply wp_mono; [by apply step_ok|]. intros [] s' (Hr' & Hl & _ & Hp).
    eapply wp_mono; [apply IH; [done|lia|lia]|]. intros [] s'' (? & ? & [?|Es]); split_and!; try done; left; [done|].
    by rewrite Es.
Qed.

(** Fuel beyond the length of the script changes nothing. *)
Lemma run_fuel fuel fuel' s : ready s -> (pc s <= length script)%nat ->
  (length script - pc s <= fuel)%nat -> (length script - pc s <= fuel')%nat ->
  run be CheckLowS H checker script flags sigversion fuel s =
  run be CheckLowS H checker script flags sigversion fuel' s.
Proof.
  revert fuel' s. induction fuel as [|fuel IH]; intros fuel' s Hr Hpc Hf Hf'.
  - destruct fuel'; [done|]. cbn [run]. unfold mbind, M_bind, get.
    by destruct (Nat.ltb_spec (pc s) (length script)); [lia|].
  - destruct fuel' as [|fuel']; cbn [run]; unfold mbind, M_bind, get;
      destruct (Nat.ltb_spec (pc s) (length script)) as [Hlt|]; try done; [lia|].
    pose proof (step_ok s Hr Hlt) as Hw. unfold wp in Hw.
    destruct (step _ _ _ _ _ _ _ s) as [[[]|f] s']; [|done].
    destruct Hw as (Hr' & _ & _ & Hp). apply IH; [done|lia|lia|lia].
Qed.

Lemma EvalScript_ok st : stack_wf st ->
  match EvalScript be CheckLowS H checker script flags sigversion st with
  | (Ok _, st') => stack_wf st' /\ (Z.of_nat (length st') <= 1000 \/ st' = st)
  | (Err (Return_false _), st') => Forall elem_ok st'
  | (Err _, _) => False
  end.
Proof.
  intros Hst. unfold EvalScript. destruct (_ >? _); [apply Hst|].
  pose proof (run_ok (length script) (initial st) (initial_ready st Hst)) as Hw. cbn [initial pc] in Hw.
  specialize (Hw ltac:(lia) ltac:(lia)). unfold wp in Hw. fold (initial st) in Hw.
  destruct (run _ _ _ _ _ _ _ _ _) as [[[]|f] s'].
  - destruct Hw as ([[Hs' _] Hsz _ _] & _ & Hl).
    destruct (vfExec s'); [|done]. split; [by split|].
    destruct Hl as [Hl|Hl]; [left; unfold within_limits in Hl; lia|right; by rewrite Hl].
  - destruct Hw as [Hb [Hs' _]]. destruct f as [e|x| |]; [done| |done|done]. by destruct x.
Qed.

End invariant.

(** ** Safety, limits and termination *)

(** A concrete set-up for the witnesses: constant digests, a checker that accepts a
    signature whose first byte is the first byte of the key. *)
Definition sample_hashers : Hashers :=
  {| h_ripemd160 _ := replicate 20 1; h_sha1 _ := replicate 20 2; h_sha256 _ := replicate 32 3;
     h_hash160 _ := replicate 20 4; h_hash256 _ := replicate 32 5 |}.

Definition sample_checker : SignatureChecker :=
  {| CheckSig sg key _ _ := bool_decide (head sg = head key);
     CheckLockTime _ := true; CheckSequence _ := true |}.

Lemma sample_hashers_ok : hashers_ok sample_hashers.
Proof. split; intros v; (split; [by_decide|cbn; lia]). Qed.

(** [5 2 ADD 7 NUMEQUALVERIFY DEPTH] *)
Definition sample_script : list Z :=
  [OP_5; OP_2; OP_ADD; OP_7; OP_NUMEQUALVERIFY; OP_DEPTH].

Lemma sample_stack_wf : stack_wf [[1; 2; 3]].
Proof. split; [|cbn; lia]. repeat constructor; by_decide || done. Qed.

(** C1: the interpreter is safe.  Whatever the script, the flags, the checker and the
    stack it is given (elements of at most 520 bytes), [EvalScript] either succeeds or
    returns false with an error code, and the stack it leaves holds well-formed
    elements; no [assert] fails, no signed integer overflows, no iterator leaves its
    vector, and the only exception that is ever thrown inside is the one of a
    malformed script number, never [vector::at] or [popstack] on a short stack. *)
Theorem EvalScript_safe (be : bool) (CheckLowS : list Z -> bool) (H : Hashers)
    (checker : SignatureChecker) (script : list Z) (flags : Z) (sigversion : SigVersion)
    (st : list valtype) :
  hashers_ok H -> Forall is_byte script -> stack_wf st ->
  match EvalScript be CheckLowS H checker script flags sigversion st with
  | (Ok _, st') => Forall elem_ok st' /\ (Z.of_nat (length st') <= 1000 \/ st' = st)
  | (Err (Return_false _), st') => Forall elem_ok st'
  | (Err _, _) => False
  end /\
  match run be CheckLowS H checker script flags sigversion (length script) (initial st) with
  | (Err (Throw x), _) => exists e, x = scriptnum e
  | _ => True
  end.
Proof.
  intros HH Hscript Hst. split.
  - pose proof (EvalScript_ok be CheckLowS H checker script flags sigversion HH Hscript st Hst) as Hok.
    destruct (EvalScript _ _ _ _ _ _ _ _) as [[[]|f] st']; [|done]. by destruct Hok as [[? _] ?].
  - pose proof (run_ok be CheckLowS H checker script flags sigversion HH Hscript (length script) (initial st)
      (initial_ready st Hst)) as Hw. cbn [initial pc] in Hw. specialize (Hw ltac:(lia) ltac:(lia)).
    unfold wp in Hw. fold (initial st) in Hw. destruct (run _ _ _ _ _ _ _ _ _) as [[[]|[e|x| |]] s']; try done.
    destruct Hw as [Hb _]. destruct x as [| |e]; [done|done|by exists e].
Qed.

Lemma EvalScript_safe_witness :
  Forall elem_ok (EvalScript false (fun _ => true) sample_hashers sample_checker sample_script
                    SCRIPT_VERIFY_MINIMALDATA SIGVERSION_BASE [[1; 2; 3]]).2 /\
  EvalScript false (fun _ => true) sample_hashers sample_checker sample_script
    SCRIPT_VERIFY_MINIMALDATA SIGVERSION_BASE [[1; 2; 3]] = (Ok tt, [[1]; [1; 2; 3]]).
Proof.
  assert (Forall is_byte sample_script) as Hs by by_decide.
  destruct (EvalScript_safe false (fun _ => true) sample_hashers sample_checker sample_script
    SCRIPT_VERIFY_MINIMALDATA SIGVERSION_BASE [[1; 2; 3]] sample_hashers_ok Hs sample_stack_wf) as [Hok _].
  assert (EvalScript false (fun _ => true) sample_hashers sample_checker sample_script
    SCRIPT_VERIFY_MINIMALDATA SIGVERSION_BASE [[1; 2; 3]] = (Ok tt, [[1]; [1; 2; 3]])) as E by (vm_compute; reflexivity).
  rewrite E in Hok |- *. split; [exact (proj1 Hok)|reflexivity].
Defined.

(** The limits of the interpreter are an invariant.  In every state the loop
    reaches, at most 201 operations are counted, the read position and the beginning of
    the signed code are inside the script, in that order, every element of both stacks
    is at most 520 bytes, and after the first round the two stacks together hold at
    most 1000 elements. *)
Theorem machine_limits (be : bool) (CheckLowS : list Z -> bool) (H : Hashers)
    (checker : SignatureChecker) (script : list Z) (flags : Z) (sigversion : SigVersion)
    (st : list valtype) (s : EvalState) :
  hashers_ok H -> Forall is_byte script -> stack_wf st ->
  reachable be CheckLowS H checker script flags sigversion st s ->
  0 <= nOpCount s <= MAX_OPS_PER_SCRIPT /\
  (pbegincodehash s <= pc s <= length script)%nat /\
  Forall elem_ok (stack s) /\ Forall elem_ok (altstack s) /\
  (s = initial st \/ Z.of_nat (length (stack s)) + Z.of_nat (length (altstack s)) <= 1000).
Proof.
  intros HH Hscript Hst Hr.
  destruct (reachable_ready be CheckLowS H checker script flags sigversion HH Hscript st s Hst Hr)
    as ([[] ? ? ?] & ? & ?). split_and!; done || lia.
Qed.

(** The state after the first operation of [sample_script]. *)
Definition sample_state : EvalState := mkEval [[5]; [1; 2; 3]] [] [] 0 1 0.

Lemma machine_limits_witness :
  step false (fun _ => true) sample_hashers sample_checker sample_script 0 SIGVERSION_BASE
    (initial [[1; 2; 3]]) = (Ok tt, sample_state) /\
  Forall elem_ok (stack sample_state).
Proof.
  assert (step false (fun _ => true) sample_hashers sample_checker sample_script 0 SIGVERSION_BASE
    (initial [[1; 2; 3]]) = (Ok tt, sample_state)) as E by (vm_compute; reflexivity).
  split; [exact E|].
  refine (proj1 (proj2 (proj2 (machine_limits false (fun _ => true) sample_hashers sample_checker sample_script 0
    SIGVERSION_BASE [[1; 2; 3]] sample_state sample_hashers_ok _ sample_stack_wf _)))); [by_decide|].
  refine (reach_step _ _ _ _ _ _ _ _ (initial [[1; 2; 3]]) _ (reach_initial _ _ _ _ _ _ _ _) _ E).
  cbn. lia.
Defined.

(** The interpreter terminates.  The loop needs at most one round per byte of the
    script: with that many rounds it never stops for want of fuel, and any larger
    number gives the same result and the same final state. *)
Theorem EvalScript_terminates (be : bool) (CheckLowS : list Z -> bool) (H : Hashers)
    (checker : SignatureChecker) (script : list Z) (flags : Z) (sigversion : SigVersion)
    (st : list valtype) (fuel : nat) :
  hashers_ok H -> Forall is_byte script -> stack_wf st -> (length script <= fuel)%nat ->
  run be CheckLowS H checker script flags sigversion fuel (initial st) =
    run be CheckLowS H checker script flags sigversion (length script) (initial st) /\
  (run be CheckLowS H checker script flags sigversion fuel (initial st)).1 <> Err Out_of_fuel.
Proof.
  intros HH Hscript Hst Hf. pose proof (initial_ready st Hst) as Hr. split.
  - apply run_fuel; cbn [initial pc]; try done; lia.
  - pose proof (run_ok be CheckLowS H checker script flags sigversion HH Hscript fuel (initial st) Hr) as Hw.
    cbn [initial pc] in Hw. specialize (Hw ltac:(lia) ltac:(lia)). unfold wp in Hw. fold (initial st) in Hw.
    destruct (run _ _ _ _ _ _ _ _ _) as [[[]|f] s']; cbn; [done|]. intros [= ->]. by destruct Hw.
Qed.

Lemma EvalScript_terminates_witness :
  (run false (fun _ => true) sample_hashers sample_checker sample_script 0 SIGVERSION_BASE 100
    (initial [[1; 2; 3]])).1 <> Err Out_of_fuel.
Proof.
  refine (proj2 (EvalScript_terminates false (fun _ => true) sample_hashers sample_checker sample_script 0
    SIGVERSION_BASE [[1; 2; 3]] 100 sample_hashers_ok _ sample_stack_wf _)); [by_decide|cbn; lia].
Defined.
