(* ===== verification/InterpreterFacts.v ===== *)
(** * InterpreterFacts: what the script machine guarantees

    The meaning of [OP_CHECKMULTISIG]; strict DER signatures. *)
From S2P Require Import Prelude Endian Serialize Transaction Script Interpreter.

(** ** Multisignatures *)

Section multisig.
Context (be : bool) (CheckLowS : list Z -> bool) (checker : SignatureChecker).
Context (script : list Z) (flags : Z) (sigversion : SigVersion).

(** Some of the keys, in their order, are those of the signatures. *)
Definition signed_by (code : list Z) (sigs keys : list valtype) : Prop :=
  exists ks, ks `sublist_of` keys /\ Forall2 (fun sg k => CheckSig checker sg k code sigversion = true) sigs ks.

(** The greedy match of the source, on lists. *)
Fixpoint match_sigs (code : list Z) (sigs keys : list valtype) : bool :=
  match keys, sigs with
  | _, [] => true
  | [], _ :: _ => false
  | k :: keys', sg :: sigs' =>
      if CheckSig checker sg k code sigversion then match_sigs code sigs' keys'
      else match_sigs code sigs keys'
  end.

Lemma signed_by_cons code sigs k keys : signed_by code sigs keys -> signed_by code sigs (k :: keys).
Proof. intros (ks & Hs & HF). exists ks. split; [by apply sublist_cons|done]. Qed.

(** Dropping a signature leaves one that can be matched still. *)
Lemma signed_by_tail code sg sigs keys : signed_by code (sg :: sigs) keys -> signed_by code sigs keys.
Proof.
  intros (ks & Hs & HF). apply Forall2_cons_inv_l in HF as (k & ks' & _ & HF & ->).
  exists ks'. split; [|done]. etrans; [|exact Hs]. by apply sublist_cons.
Qed.

(** Taking the first key that fits is never wrong. *)
Lemma match_sigs_correct code sigs keys : match_sigs code sigs keys = true <-> signed_by code sigs keys.
Proof.
  revert sigs. induction keys as [|k keys IH]; intros [|sg sigs]; cbn [match_sigs].
  - split; [|done]. intros _. exists []. split; [done|constructor].
  - split; [done|]. intros (ks & Hs & HF). apply sublist_nil_r in Hs as ->. by apply Forall2_length in HF.
  - split; [|done]. intros _. exists []. split; [apply sublist_nil_l|constructor].
  - destruct (CheckSig checker sg k code sigversion) eqn:E; rewrite IH.
    + split.
      * intros (ks & Hs & HF). exists (k :: ks). split; [by apply sublist_skip|by constructor].
      * intros (ks & Hs & HF). apply Forall2_cons_inv_l in HF as (k' & ks' & Hk & HF & ->).
        apply sublist_cons_r in Hs as [Hs|(l' & [= <- <-] & Hs)]; [|by exists ks'].
        apply (signed_by_tail _ sg). exists (k' :: ks'). split; [done|by constructor].
    + split; [apply signed_by_cons|]. intros (ks & Hs & HF).
      apply Forall2_cons_inv_l in HF as (k' & ks' & Hk & HF & ->).
      apply sublist_cons_r in Hs as [Hs|(l' & [= <- <-] & Hs)]; [|congruence].
      exists (k' :: ks'). split; [done|by constructor].
Qed.

Lemma match_sigs_too_many code sigs keys : (length keys < length sigs)%nat -> match_sigs code sigs keys = false.
Proof.
  intros Hl. apply not_true_iff_false. rewrite match_sigs_correct. intros (ks & Hs & HF).
  apply Forall2_length in HF. apply sublist_length in Hs. lia.
Qed.

Lemma drop_lookup_cons {A} (l l' : list A) x i : drop i l = x :: l' -> l !! i = Some x /\ drop (S i) l = l'.
Proof.
  intros E. split.
  - rewrite <- (Nat.add_0_r i), <- lookup_drop, E. done.
  - replace (S i) with (i + 1)%nat by lia. rewrite <- drop_drop, E. done.
Qed.

(** The loop computes the greedy match of the signatures and keys it has left. *)
Lemma check_signatures_spec fuel isig ikey code sigs keys ssuf ksuf s :
  (forall sg, sg ∈ sigs -> CheckSignatureEncoding CheckLowS sg flags = Ok tt) ->
  (forall k, k ∈ keys -> CheckPubKeyEncoding k flags sigversion = Ok tt) ->
  drop isig (stack s) = sigs ++ ssuf -> drop ikey (stack s) = keys ++ ksuf ->
  (length keys <= fuel)%nat ->
  check_signatures CheckLowS checker flags sigversion fuel (length sigs <=? length keys)%nat
    (Z.of_nat isig + 1) (Z.of_nat ikey + 1) (Z.of_nat (length sigs)) (Z.of_nat (length keys)) code s =
  (Ok (match_sigs code sigs keys), s).
Proof.
  intros HE HK. revert isig ikey sigs keys HE HK.
  induction fuel as [|fuel IH]; intros isig ikey sigs keys HE HK Hs Hk Hf.
  { destruct keys; [|cbn in Hf; lia]. by destruct sigs. }
  destruct (Nat.leb_spec (length sigs) (length keys)) as [Hle|Hgt].
  2: { rewrite match_sigs_too_many by lia. done. }
  destruct sigs as [|sg sigs]; [by destruct keys|]. destruct keys as [|k keys]; [cbn in Hle; lia|].
  cbn [check_signatures andb]. cbn [length] in *. rewrite (proj2 (Z.gtb_lt (Z.of_nat (S (length sigs))) 0)) by lia.
  cbn [app] in Hs, Hk. apply drop_lookup_cons in Hs as [Hs Hs']. apply drop_lookup_cons in Hk as [Hk Hk'].
  unfold mbind, M_bind. rewrite (stacktop_lookup _ s sg) by (lia || by replace (Z.to_nat (Z.of_nat isig + 1 - 1)) with isig by lia).
  rewrite (stacktop_lookup _ s k) by (lia || by replace (Z.to_nat (Z.of_nat ikey + 1 - 1)) with ikey by lia).
  unfold check_encodings, mbind, M_bind. rewrite (HE sg), (HK k) by set_solver. cbn [check mret M_ret]. cbv zeta.
  cbn [match_sigs]. replace (Z.of_nat ikey + 1 + 1) with (Z.of_nat (S ikey) + 1) by lia.
  replace (Z.of_nat (S (length keys)) - 1) with (Z.of_nat (length keys)) by lia.
  destruct (CheckSig checker sg k code sigversion).
  - replace (Z.of_nat isig + 1 + 1) with (Z.of_nat (S isig) + 1) by lia.
    replace (Z.of_nat (S (length sigs)) - 1) with (Z.of_nat (length sigs)) by lia.
    rewrite Z.gtb_ltb. replace (negb (Z.of_nat (length keys) <? Z.of_nat (length sigs)))
      with (length sigs <=? length keys)%nat.
    2: { destruct (Nat.leb_spec (length sigs) (length keys)), (Z.ltb_spec (Z.of_nat (length keys)) (Z.of_nat (length sigs))); done || lia. }
    apply IH; [set_solver|set_solver|done|done|lia].
  - rewrite Z.gtb_ltb. replace (negb (Z.of_nat (length keys) <? Z.of_nat (S (length sigs))))
      with (length (sg :: sigs) <=? length keys)%nat.
    2: { cbn [length]. destruct (Nat.leb_spec (S (length sigs)) (length keys)), (Z.ltb_spec (Z.of_nat (length keys)) (Z.of_nat (S (length sigs)))); done || lia. }
    apply (IH isig (S ikey) (sg :: sigs) keys); [done|set_solver| |done|lia].
    rewrite (drop_S _ sg isig Hs). by rewrite Hs'.
Qed.

(** What [drop_signatures] makes of the code. *)
Lemma drop_signatures_spec isig code sigs ssuf s : drop isig (stack s) = sigs ++ ssuf ->
  drop_signatures be sigversion (length sigs) (Z.of_nat isig + 1) code s =
  (Ok (foldl (drop_signature be sigversion) code sigs), s).
Proof.
  revert isig code. induction sigs as [|sg sigs IH]; intros isig code Hs; [done|].
  cbn [app] in Hs. apply drop_lookup_cons in Hs as [Hs Hs']. cbn [drop_signatures length foldl].
  unfold mbind, M_bind. rewrite (stacktop_lookup _ s sg) by (lia || by replace (Z.to_nat (Z.of_nat isig + 1 - 1)) with isig by lia).
  replace (Z.of_nat isig + 1 + 1) with (Z.of_nat (S isig) + 1) by lia. by apply IH.
Qed.

(** Popping the counts and the keys looks at nothing. *)
Lemma clean_up_keys k m ok s : (k <= length (stack s))%nat ->
  clean_up flags (k + m) ok (Z.of_nat k) s =
  clean_up flags m ok 0 (mkEval (drop k (stack s)) (altstack s) (vfExec s) (nOpCount s) (pc s) (pbegincodehash s)).
Proof.
  revert s. induction k as [|k IH]; intros [st alt vf nop p pb] Hl; cbn [stack altstack vfExec nOpCount pc pbegincodehash] in *; [by rewrite drop_0|].
  destruct st as [|v st]; cbn [length] in Hl; [lia|]. cbn [clean_up Nat.add].
  rewrite (proj2 (Z.eqb_neq (Z.of_nat (S k)) 0)), andb_false_r by lia. unfold mbind, M_bind. cbn [mret M_ret].
  unfold popstack, mbind, M_bind, get, upd_stack. cbn [stack altstack vfExec nOpCount pc pbegincodehash].
  rewrite Z.gtb_ltb, (proj2 (Z.ltb_lt _ _)) by lia. replace (Z.of_nat (S k) - 1) with (Z.of_nat k) by lia.
  by rewrite IH by (cbn [stack]; lia).
Qed.

Definition not_empty (v : valtype) : bool := negb (Z.of_nat (length v) =? 0).

(** With NULLFAIL, signatures that failed must be empty. *)
Lemma clean_up_sigs sigs st ok alt vf nop p pb :
  let r := clean_up flags (length sigs) ok 0 (mkEval (sigs ++ st) alt vf nop p pb) in
  if negb ok && flag flags SCRIPT_VERIFY_NULLFAIL && existsb not_empty sigs
  then exists s', r = (Err (Return_false SCRIPT_ERR_SIG_NULLFAIL), s')
  else r = (Ok tt, mkEval st alt vf nop p pb).
Proof.
  induction sigs as [|sg sigs IH]; cbn [clean_up length app existsb]; [by rewrite andb_false_r|].
  unfold mbind, M_bind. change (0 =? 0) with true. rewrite andb_true_r.
  destruct (negb ok && flag flags SCRIPT_VERIFY_NULLFAIL); cbn [andb] in *.
  - unfold mbind, M_bind. rewrite (stacktop_lookup _ _ sg) by (lia || done). unfold not_empty at 1.
    destruct (Z.of_nat (length sg) =? 0); cbn [require negb orb]; [exact IH|]. by eexists.
  - exact IH.
Qed.
End multisig.

Lemma of_vch_getvch n m : - 2 ^ 31 < n < 2 ^ 31 ->
  CScriptNum.of_vch (CScriptNum.getvch n) m CScriptNum.nDefaultMaxNumSize = Ok n.
Proof.
  intros Hn. change (CScriptNum.getvch n) with (CScriptNum.serialize n).
  destruct (serialize_spec n ltac:(lia)) as (Hb & Hl & Hv & Hm).
  assert (length (CScriptNum.serialize n) <= 4)%nat as H4.
  { unfold minimal in Hm. rewrite Hv in Hm. destruct (length (CScriptNum.serialize n)) as [|[|k]]; [lia|lia|].
    assert (~ (3 <= k)%nat); [|lia]. intros Hk.
    assert (2 ^ 31 <= 2 ^ (8 * Z.of_nat (S k) - 1)) by (apply Z.pow_le_mono_r; lia). lia. }
  unfold CScriptNum.of_vch, CScriptNum.nDefaultMaxNumSize.
  rewrite Z.gtb_ltb, (proj2 (Z.ltb_ge _ _)) by lia.
  apply (minimal_check _ Hb) in Hm. destruct m; cbn [andb]; [rewrite Hm|];
    f_equal; rewrite set_vch_spec by (done || lia); done.
Qed.

Lemma number_getvch flags n s : - 2 ^ 31 < n < 2 ^ 31 ->
  number flags (CScriptNum.getvch n) s = (Ok n, s).
Proof. intros Hn. unfold number, script_num. by rewrite of_vch_getvch. Qed.

Lemma need_enough k s : k <= Z.of_nat (length (stack s)) -> need k s = (Ok tt, s).
Proof.
  intros Hk. unfold need, stack_size, mbind, M_bind, get. cbn.
  by rewrite (proj2 (Z.ltb_ge _ _)) by done.
Qed.

(** Running an operation by its parts. *)
Lemma bind_eval {A B} (m : M A) (f : A -> M B) s a s1 r :
  m s = (Ok a, s1) -> f a s1 = r -> (m ≫= f) s = r.
Proof. unfold mbind, M_bind. by intros -> <-. Qed.

Lemma require_true b e s : b = true -> require b e s = (Ok tt, s).
Proof. by intros ->. Qed.

(** What becomes of the stack, given whether the signatures match: an error, or what is left. *)
Definition multisig_outcome (flags opcode : Z) (sigs : list valtype) (dummy : valtype) (rest : list valtype) (fSuccess : bool)
    : result ScriptError (list valtype) :=
  if negb fSuccess && flag flags SCRIPT_VERIFY_NULLFAIL && existsb not_empty sigs then Err SCRIPT_ERR_SIG_NULLFAIL
  else if flag flags SCRIPT_VERIFY_NULLDUMMY && not_empty dummy then Err SCRIPT_ERR_SIG_NULLDUMMY
  else if opcode =? OP_CHECKMULTISIGVERIFY then (if fSuccess then Ok rest else Err SCRIPT_ERR_CHECKMULTISIGVERIFY)
  else Ok (vch_of_bool fSuccess :: rest).

(** C15: [OP_CHECKMULTISIG] and [OP_CHECKMULTISIGVERIFY] decide whether the signatures are by
    some of the keys in order.  On a stack that holds, from the top, the number of keys, the
    keys, the number of signatures, the signatures and a dummy, with the counts within the
    limits and signatures and keys encoded as the flags demand, they succeed exactly when
    there is a subsequence of the keys that matches the signatures one by one.  The result is,
    under any flags: the error NULLFAIL if they do not, that flag is set and a signature is not
    empty; else the error NULLDUMMY if that flag is set and the dummy is not empty; else for
    the first operation the boolean in place of the arguments, and for the second one the
    error of that name or the stack without the arguments.  The keys are added to the operation
    count; the rest of the stack is untouched. *)
Theorem checkmultisig_correct (be : bool) (CheckLowS : list Z -> bool) (checker : SignatureChecker)
    (script : list Z) (flags : Z) (sigversion : SigVersion) (opcode : Z) (sigs keys rest : list valtype) (dummy : valtype) (s : EvalState) :
  (length sigs <= length keys)%nat -> Z.of_nat (length keys) <= MAX_PUBKEYS_PER_MULTISIG ->
  nOpCount s + Z.of_nat (length keys) <= MAX_OPS_PER_SCRIPT ->
  (forall sg, sg ∈ sigs -> CheckSignatureEncoding CheckLowS sg flags = Ok tt) ->
  (forall k, k ∈ keys -> CheckPubKeyEncoding k flags sigversion = Ok tt) ->
  stack s = CScriptNum.getvch (Z.of_nat (length keys)) :: keys ++
            CScriptNum.getvch (Z.of_nat (length sigs)) :: sigs ++ dummy :: rest ->
  let code := foldl (drop_signature be sigversion) (drop (pbegincodehash s) script) sigs in
  exists b : bool, (b = true <-> signed_by checker sigversion code sigs keys) /\
    match multisig_outcome flags opcode sigs dummy rest b with
    | Ok st => op_checkmultisig be CheckLowS checker script flags sigversion opcode s =
        (Ok tt, mkEval st (altstack s) (vfExec s) (nOpCount s + Z.of_nat (length keys)) (pc s) (pbegincodehash s))
    | Err e => exists s', op_checkmultisig be CheckLowS checker script flags sigversion opcode s = (Err (Return_false e), s')
    end.
Proof.
  intros Hsk Hk20 Hops HE HK Hst code. exists (match_sigs checker sigversion code sigs keys).
  split; [apply match_sigs_correct|].
  destruct s as [st alt vf nop p pb]. cbn [stack altstack vfExec nOpCount pc pbegincodehash] in *.
  assert (nop + Z.of_nat (length keys) <= 201) as Hops' by exact Hops.
  set (nk := Z.of_nat (length keys)) in *. set (ns := Z.of_nat (length sigs)) in *.
  change (MAX_PUBKEYS_PER_MULTISIG) with 20 in Hk20.
  assert (Z.of_nat (length st) = nk + ns + 3 + Z.of_nat (length rest)) as Hlen.
  { rewrite Hst. cbn [length]. rewrite length_app. cbn [length]. rewrite length_app. cbn [length]. lia. }
  set (s1 := mkEval st alt vf (nop + nk) p pb).
  assert (drop 1 st = keys ++ CScriptNum.getvch ns :: sigs ++ dummy :: rest) as Hd1 by (rewrite Hst; cbn; by rewrite drop_0).
  assert (drop (S (length keys)) st = CScriptNum.getvch ns :: sigs ++ dummy :: rest) as Hd.
  { change (S (length keys)) with (1 + length keys)%nat. by rewrite <- drop_drop, Hd1, drop_app_length. }
  apply drop_lookup_cons in Hd as [Hl Hd2].
  set (b := match_sigs checker sigversion code sigs keys).
  set (tail := fun fSuccess : bool => clean_up flags (Z.to_nat (2 + nk + 1 + ns - 1)) fSuccess (nk + 2);;
    need 1;; dummy ← stacktop 1; require (negb (flag flags SCRIPT_VERIFY_NULLDUMMY && negb (Z.of_nat (length dummy) =? 0))) SCRIPT_ERR_SIG_NULLDUMMY;;
    popstack;; push_back (vch_of_bool fSuccess);;
    (if opcode =? OP_CHECKMULTISIGVERIFY then if (fSuccess : bool) then popstack else set_error SCRIPT_ERR_CHECKMULTISIGVERIFY else mret tt)).
  assert (op_checkmultisig be CheckLowS checker script flags sigversion opcode (mkEval st alt vf nop p pb) = tail b s1) as ->.
  {
  unfold op_checkmultisig.
  eapply bind_eval; [apply need_enough; cbn [stack]; lia|].
  eapply bind_eval; [apply stacktop_lookup with (v := CScriptNum.getvch nk); [lia|by rewrite Hst]|].
  eapply bind_eval; [apply number_getvch; lia|]. cbv zeta. rewrite (getint_small nk) by lia.
  eapply bind_eval; [apply require_true; change MAX_PUBKEYS_PER_MULTISIG with 20; repeat case_bool; done || lia|].
  eapply bind_eval; [reflexivity|]. eapply bind_eval; [reflexivity|]. cbn [stack altstack vfExec nOpCount pc pbegincodehash].
  eapply bind_eval; [apply require_true; change MAX_OPS_PER_SCRIPT with 201; case_bool; done || lia|].
  fold s1. eapply bind_eval; [apply need_enough; cbn [stack s1]; lia|].
  eapply bind_eval; [apply stacktop_lookup with (v := CScriptNum.getvch ns); [lia|]|].
  { cbn [stack s1]. replace (Z.to_nat (2 + nk - 1)) with (S (length keys)) by lia. done. }
  eapply bind_eval; [apply number_getvch; lia|]. rewrite (getint_small ns) by lia.
  eapply bind_eval; [apply require_true; repeat case_bool; done || lia|].
  eapply bind_eval; [apply need_enough; cbn [stack s1]; lia|]. eapply bind_eval; [reflexivity|].
  cbn [pbegincodehash s1]. fold s1.
  replace (Z.to_nat ns) with (length sigs) by lia. replace (Z.to_nat nk) with (length keys) by lia.
  replace (2 + nk + 1) with (Z.of_nat (S (S (length keys))) + 1) by lia.
  eapply bind_eval; [by apply (drop_signatures_spec _ _ _ _ sigs (dummy :: rest))|]. fold code.
  change 2 with (Z.of_nat 1 + 1) at 1.
  eapply bind_eval.
  { pose proof (check_signatures_spec CheckLowS checker flags sigversion (length keys) (S (S (length keys))) 1 code
      sigs keys (dummy :: rest) (CScriptNum.getvch ns :: sigs ++ dummy :: rest) s1 HE HK Hd2 Hd1 ltac:(lia)) as Hc.
    rewrite (proj2 (Nat.leb_le _ _) Hsk) in Hc. exact Hc. }
    unfold tail. replace (2 + nk + 1) with (Z.of_nat (S (S (length keys))) + 1) by lia. reflexivity. }
  assert (Z.to_nat (2 + nk + 1 + ns - 1) = (S (S (length keys)) + length sigs)%nat) as En by lia.
  assert (nk + 2 = Z.of_nat (S (S (length keys)))) as Ek by lia.
  pose proof (clean_up_sigs flags sigs (dummy :: rest) b alt vf (nop + nk) p pb) as Hcl. cbv zeta in Hcl.
  pose proof (clean_up_keys flags (S (S (length keys))) (length sigs) b s1 ltac:(cbn [stack s1]; lia)) as Hck.
  cbn [stack altstack vfExec nOpCount pc pbegincodehash s1] in Hck. rewrite Hd2 in Hck.
  unfold multisig_outcome. destruct (negb b && flag flags SCRIPT_VERIFY_NULLFAIL && existsb not_empty sigs).
  { destruct Hcl as [s' Hs']. exists s'. unfold tail. rewrite En, Ek. unfold mbind at 1, M_bind at 1. by rewrite Hck, Hs'. }
  rewrite Hcl in Hck. fold (not_empty dummy).
  set (fin := if opcode =? OP_CHECKMULTISIGVERIFY then if b then popstack else set_error SCRIPT_ERR_CHECKMULTISIGVERIFY else mret tt).
  assert (tail b s1 = (require (negb (flag flags SCRIPT_VERIFY_NULLDUMMY && not_empty dummy)) SCRIPT_ERR_SIG_NULLDUMMY;;
    popstack;; push_back (vch_of_bool b);; fin) (mkEval (dummy :: rest) alt vf (nop + nk) p pb)) as ->.
  { unfold tail. rewrite En, Ek. eapply bind_eval; [exact Hck|]. eapply bind_eval; [apply need_enough; cbn [stack length]; lia|].
    eapply bind_eval; [reflexivity|]. reflexivity. }
  destruct (flag flags SCRIPT_VERIFY_NULLDUMMY && not_empty dummy); [by eexists|]. unfold fin.
  destruct (opcode =? OP_CHECKMULTISIGVERIFY); [|done]. destruct b; [done|]. by eexists.
Qed.

(** Two signatures for the first and third of three keys, and a dummy that is not empty. *)
Definition sample_multisig : EvalState :=
  mkEval (CScriptNum.getvch 3 :: [[9; 1]; [8; 1]; [7; 1]] ++
          CScriptNum.getvch 2 :: [[9; 5]; [7; 5]] ++ [1] :: [[42]]) [] [] 1 0 0.

Lemma checkmultisig_correct_witness :
  op_checkmultisig false (fun _ => true) sample_checker [OP_CHECKMULTISIG] SCRIPT_VERIFY_NULLFAIL SIGVERSION_BASE
    OP_CHECKMULTISIG sample_multisig = (Ok tt, mkEval [[1]; [42]] [] [] 4 0 0) /\
  signed_by sample_checker SIGVERSION_BASE [OP_CHECKMULTISIG] [[9; 5]; [7; 5]] [[9; 1]; [8; 1]; [7; 1]].
Proof.
  destruct (checkmultisig_correct false (fun _ => true) sample_checker [OP_CHECKMULTISIG] SCRIPT_VERIFY_NULLFAIL SIGVERSION_BASE OP_CHECKMULTISIG
    [[9; 5]; [7; 5]] [[9; 1]; [8; 1]; [7; 1]] [[42]] [1] sample_multisig) as (b & Hb & E);
    [cbn; lia|by_decide|by_decide| | |reflexivity|].
  - intros sg Hsg. apply list_elem_of_In in Hsg. cbn in Hsg.
    destruct Hsg as [<-|[<-|[]]]; vm_compute; reflexivity.
  - intros k Hk. apply list_elem_of_In in Hk. cbn in Hk.
    destruct Hk as [<-|[<-|[<-|[]]]]; vm_compute; reflexivity.
  - assert (op_checkmultisig false (fun _ => true) sample_checker [OP_CHECKMULTISIG] SCRIPT_VERIFY_NULLFAIL SIGVERSION_BASE
      OP_CHECKMULTISIG sample_multisig = (Ok tt, mkEval [[1]; [42]] [] [] 4 0 0)) as E' by (vm_compute; reflexivity).
    split; [exact E'|]. apply Hb. destruct b; [reflexivity|]. exfalso. rewrite E' in E. vm_compute in E. destruct E as [s' E]. discriminate E.
Defined.

(** ** Strict DER *)

(** A positive DER integer: not empty, no sign bit, no needless leading zero. *)
Definition der_int (v : list Z) : Prop :=
  exists b r, v = b :: r /\ b < 0x80 /\ (b = 0 -> match r with [] => True | c :: _ => 0x80 <= c end).

Definition der_signature (sig : list Z) : Prop :=
  exists R S hashtype,
    sig = [0x30; 4 + Z.of_nat (length R) + Z.of_nat (length S); 0x02; Z.of_nat (length R)] ++ R ++
          [0x02; Z.of_nat (length S)] ++ S ++ [hashtype] /\
    der_int R /\ der_int S /\ Z.of_nat (length sig) <= 73.

Section der.

Lemma sign_bit b : is_byte b -> (Z.land b 0x80 =? 0) = (b <? 0x80).
Proof.
  intros Hb. unfold is_u in Hb. change 0x80 with (2 ^ 7). rewrite land_pow2, testbit_top by lia.
  destruct (Z.leb_spec (2 ^ 7) b), (Z.ltb_spec b (2 ^ 7)); done || lia.
Qed.

(** The tests of the source on an integer at the head of a string. *)
Definition int_tests (v : list Z) (n : Z) : bool :=
  negb (n =? 0) && (Z.land (v !!! 0%nat) 0x80 =? 0)
  && negb ((n >? 1) && (v !!! 0%nat =? 0) && negb (negb (Z.land (v !!! 1%nat) 0x80 =? 0))).

Lemma int_tests_spec v t : Forall is_byte v ->
  int_tests (v ++ t) (Z.of_nat (length v)) = true <-> der_int v.
Proof.
  intros Hv. unfold int_tests, der_int. destruct v as [|b v].
  { split; [done|]. by intros (? & ? & ? & _). }
  apply Forall_cons in Hv as [Hb Hv]. rewrite (proj2 (Z.eqb_neq _ _)) by (cbn [length]; lia).
  cbn [negb andb app lookup_total list_lookup_total]. rewrite sign_bit by done.
  destruct v as [|c v].
  - cbn [length]. rewrite andb_true_r. rewrite Z.ltb_lt. split.
    + intros ?. exists b, []. done.
    + by intros (? & ? & [= <- <-] & ? & _).
  - apply Forall_cons in Hv as [Hc _]. cbn [app lookup_total list_lookup_total length].
    rewrite sign_bit by done. rewrite (proj2 (Z.gtb_lt _ _)) by lia. cbn [andb].
    rewrite negb_involutive, andb_true_iff, Z.ltb_lt. split.
    + intros [H1 H2]. exists b, (c :: v). split_and!; [done|done|]. intros ->. cbn [andb Z.eqb] in H2.
      apply negb_true_iff, Z.ltb_ge in H2. done.
    + intros (? & ? & [= <- <-] & H1 & H2). split; [done|].
      destruct (Z.eqb_spec b 0) as [E|]; [|done]. specialize (H2 E). cbn [andb].
      by rewrite (proj2 (Z.ltb_ge _ _)).
Qed.

Lemma lookup_total_past (l r : list Z) k : (l ++ r) !!! (length l + k)%nat = r !!! k.
Proof. rewrite lookup_total_app_r by lia. f_equal. lia. Qed.

Lemma guard_iff (b c : bool) : (if b then false else c) = true <-> b = false /\ c = true.
Proof. destruct b; [|tauto]. split; [done|by intros [? _]]. Qed.

(** The tests on a string cut where its lengths say. *)
Lemma encoding_cut a b c d R e f u : Z.of_nat (length R) = d -> (1 <= length u)%nat ->
  let sig := a :: b :: c :: d :: R ++ e :: f :: u in
  IsValidSignatureEncoding sig = true <->
  9 <= Z.of_nat (length sig) <= 73 /\ a = 0x30 /\ b = Z.of_nat (length sig) - 3 /\
  d + f + 7 = Z.of_nat (length sig) /\ c = 0x02 /\ e = 0x02 /\
  int_tests (R ++ e :: f :: u) d = true /\ int_tests u f = true.
Proof.
  intros Hd Hu sig.
  assert (forall k, 0 <= k -> sig !!! Z.to_nat (d + 4 + k) = (e :: f :: u) !!! Z.to_nat k) as Hat.
  { intros k Hk. replace (Z.to_nat (d + 4 + k)) with (length ([a; b; c; d] ++ R) + Z.to_nat k)%nat
      by (rewrite length_app; cbn [length]; lia).
    change sig with ([a; b; c; d] ++ R ++ e :: f :: u). by rewrite (app_assoc [a; b; c; d]), lookup_total_past. }
  assert (sig !!! Z.to_nat (5 + d) = f) as H5 by (replace (5 + d) with (d + 4 + 1) by lia; by rewrite Hat by lia).
  assert (sig !!! Z.to_nat (d + 4) = e) as H4 by (replace (d + 4) with (d + 4 + 0) by lia; by rewrite Hat by lia).
  assert (sig !!! Z.to_nat (d + 6) = u !!! 0%nat) as H6 by (replace (d + 6) with (d + 4 + 2) by lia; by rewrite Hat by lia).
  assert (sig !!! Z.to_nat (d + 7) = u !!! 1%nat) as H7 by (replace (d + 7) with (d + 4 + 3) by lia; by rewrite Hat by lia).
  unfold IsValidSignatureEncoding. cbv zeta.
  change (sig !!! Z.to_nat 0) with a. change (sig !!! Z.to_nat 1) with b. change (sig !!! Z.to_nat 2) with c.
  change (sig !!! Z.to_nat 3) with d. change (sig !!! Z.to_nat 4) with ((R ++ e :: f :: u) !!! 0%nat).
  change (sig !!! Z.to_nat 5) with ((R ++ e :: f :: u) !!! 1%nat). rewrite H5, H4, H6, H7.
  assert (Z.of_nat (length sig) = d + 6 + Z.of_nat (length u)) as Hlen.
  { unfold sig. cbn [length]. rewrite length_app. cbn [length]. lia. }
  rewrite !guard_iff. unfold int_tests. rewrite !andb_true_iff.
  rewrite !negb_false_iff, !negb_true_iff, !Z.gtb_ltb, !Z.geb_leb, !Z.ltb_ge, !Z.leb_gt, !Z.eqb_eq.
  split; intros; destruct_and!; split_and!; (assumption || lia || reflexivity).
Qed.

Lemma encoding_split sig : Forall is_byte sig -> IsValidSignatureEncoding sig = true ->
  exists a b c d R e f u, sig = a :: b :: c :: d :: R ++ e :: f :: u /\ Z.of_nat (length R) = d /\ (1 <= length u)%nat.
Proof.
  intros Hb Hv. unfold IsValidSignatureEncoding in Hv. cbv zeta in Hv.
  rewrite !guard_iff in Hv. destruct Hv as (H9 & _ & _ & _ & H5 & H7 & _). apply Z.ltb_ge in H9.
  destruct sig as [|a [|b [|c [|d t]]]]; [cbn in H9; lia..|].
  change ((a :: b :: c :: d :: t) !!! Z.to_nat 3) with d in *. rewrite Z.geb_leb in H5. apply Z.leb_gt in H5.
  cbn [length] in *. repeat (apply Forall_cons in Hb as [? Hb]). unfold is_u in *.
  assert (length (take (Z.to_nat d) t) = Z.to_nat d) as Hr by (rewrite length_take; lia).
  pose proof (take_drop (Z.to_nat d) t) as Et. pose proof (length_drop t (Z.to_nat d)) as Hd.
  destruct (drop (Z.to_nat d) t) as [|e [|f u]] eqn:E; cbn [length] in Hd; [lia|lia|].
  exists a, b, c, d, (take (Z.to_nat d) t), e, f, u. rewrite Et. split_and!; [done|lia|].
  destruct u; cbn [length] in *; [|lia]. exfalso. apply negb_false_iff, Z.eqb_eq in H7.
  rewrite <- Et in H7 at 1.
  replace (Z.to_nat (5 + d)) with (length ([a; b; c; d] ++ take (Z.to_nat d) t) + 1)%nat in H7
    by (rewrite length_app, Hr; cbn [length]; lia).
  change (a :: b :: c :: d :: take (Z.to_nat d) t ++ [e; f]) with ([a; b; c; d] ++ take (Z.to_nat d) t ++ [e; f]) in H7.
  rewrite app_assoc, lookup_total_past in H7. cbn in H7.
  assert (Forall is_byte (drop (Z.to_nat d) t)) as Hf by (by apply Forall_drop). rewrite E in Hf.
  apply Forall_cons in Hf as [_ [Hf _]%Forall_cons]. unfold is_u in Hf. lia.
Qed.
End der.

(** The signature check is strict DER.  [IsValidSignatureEncoding], which indexes
    into the bytes of the signature, accepts exactly the strings that are a DER
    sequence of two positive, minimally encoded integers followed by the hash type
    byte, at most 73 bytes in all. *)
Theorem IsValidSignatureEncoding_strict_DER (sig : list Z) : Forall is_byte sig ->
  IsValidSignatureEncoding sig = true <-> der_signature sig.
Proof.
  intros Hb. split.
  - intros Hv. destruct (encoding_split sig Hb Hv) as (a & b & c & d & R & e & f & u & -> & Hd & Hu).
    apply encoding_cut in Hv as (H9 & -> & -> & Hl & -> & -> & HR & HS); [|done|done].
    cbn [length] in *. rewrite length_app in *. cbn [length] in *.
    do 4 apply Forall_cons in Hb as [_ Hb]. apply Forall_app in Hb as [HbR Hb].
    do 2 apply Forall_cons in Hb as [_ Hb].
    destruct u as [|ht S _] using rev_ind; [cbn in Hu; lia|]. rewrite length_app in *. cbn [length] in *.
    apply Forall_app in Hb as [HbS _]. assert (f = Z.of_nat (length S)) as -> by lia. subst d.
    exists R, S, ht. split_and!.
    + cbn [app]. repeat f_equal. lia.
    + by apply int_tests_spec in HR.
    + by apply int_tests_spec in HS.
    + cbn [length]. rewrite length_app. cbn [length]. rewrite length_app. cbn [length]. lia.
  - intros (R & S & ht & -> & HR & HS & Hl). cbn [app] in *.
    assert (1 <= length R)%nat by (destruct HR as (? & ? & -> & _); cbn; lia).
    assert (1 <= length S)%nat by (destruct HS as (? & ? & -> & _); cbn; lia).
    do 4 apply Forall_cons in Hb as [_ Hb]. apply Forall_app in Hb as [HbR Hb].
    do 2 apply Forall_cons in Hb as [_ Hb]. apply Forall_app in Hb as [HbS _].
    apply encoding_cut; [done|rewrite length_app; cbn; lia|].
    cbn [length] in *. rewrite !length_app in *. cbn [length] in *. rewrite !length_app in *. cbn [length] in *.
    split_and!; try lia; by apply int_tests_spec.
Qed.

Definition sample_signature : list Z :=
  [0x30; 7; 0x02; 2; 0; 0x80; 0x02; 1; 0x7f; SIGHASH_ALL].

Lemma IsValidSignatureEncoding_strict_DER_witness : der_signature sample_signature.
Proof.
  apply (proj1 (IsValidSignatureEncoding_strict_DER sample_signature ltac:(by_decide))).
  vm_compute. reflexivity.
Defined.
