(* ===== verification/SigHash.v ===== *)
(** * SigHash: what a signature signs

    Models the second half of [src/src/script/interpreter.cpp]
    ([CTransactionSignatureSerializer], [SignatureHash], the transaction signature
    checker).

    A [CHashWriter] is the byte string written to it, hashed at the end; the hash
    (double SHA-256) and the verification of a signature (the secp256k1 library) are
    parameters.  Indices into [vin] and [vout] out of range are undefined in the
    source; here they read the null input or output. *)
From S2P Require Import Prelude Endian Uint256 Serialize Amount Transaction Script Standard Interpreter.

(** ** The signature hash *)

Definition vin_at (tx : CTransaction) (n : Z) : CTxIn.t :=
  default (CTxIn.mk COutPoint.null [] CTxIn.SEQUENCE_FINAL []) (vin tx !! Z.to_nat n).
Definition vout_at (tx : CTransaction) (n : Z) : CTxOut.t := default CTxOut.null (vout tx !! Z.to_nat n).

Record CTransactionSignatureSerializer : Type := {
  txTo : CTransaction;
  scriptCode : list Z;
  nIn : Z;
  fAnyoneCanPay : bool;
  fHashSingle : bool;
  fHashNone : bool;
}.

Definition signature_serializer (txToIn : CTransaction) (scriptCodeIn : list Z) (nInIn nHashTypeIn : Z)
    : CTransactionSignatureSerializer :=
  {| txTo := txToIn; scriptCode := scriptCodeIn; nIn := nInIn;
     fAnyoneCanPay := flag_set nHashTypeIn SIGHASH_ANYONECANPAY;
     fHashSingle := Z.land nHashTypeIn 0x1f =? SIGHASH_SINGLE;
     fHashNone := Z.land nHashTypeIn 0x1f =? SIGHASH_NONE |}.

Section serializer.
Context (be : bool) {St : Type} {os : OStream St}.

(** The first loop of [SerializeScriptCode]. *)
Fixpoint count_separators (fuel : nat) (code : list Z) (it : nat) (nCodeSeparators : Z) : Z :=
  match fuel with
  | O => nCodeSeparators
  | S fuel' =>
      let '(ok, opcode, _, it) := CScript.GetOp2 be code it in
      if (ok : bool) then
        count_separators fuel' code it
          (if opcode =? OP_CODESEPARATOR then nCodeSeparators + 1 else nCodeSeparators)
      else nCodeSeparators
  end.

(** The second one: the pieces between the separators; [itBegin], [it] and the stream
    when an operation can no longer be read. *)
Fixpoint write_pieces (fuel : nat) (code : list Z) (itBegin it : nat) (s : St) : nat * nat * St :=
  match fuel with
  | O => (itBegin, it, s)
  | S fuel' =>
      let '(ok, opcode, _, it) := CScript.GetOp2 be code it in
      if (ok : bool) then
        if opcode =? OP_CODESEPARATOR
        then write_pieces fuel' code it it (write (take (it - itBegin - 1) (drop itBegin code)) s)
        else write_pieces fuel' code itBegin it s
      else (itBegin, it, s)
  end.

Definition SerializeScriptCode (code : list Z) (s : St) : St :=
  let nCodeSeparators := count_separators (S (length code)) code 0 0 in
  let s := WriteCompactSize be (u64 (Z.of_nat (length code) - nCodeSeparators)) s in
  let '(itBegin, it, s) := write_pieces (S (length code)) code 0 0 s in
  if negb (itBegin =? length code)%nat then write (take (it - itBegin) (drop itBegin code)) s else s.

Context (t : CTransactionSignatureSerializer).

Definition SerializeInput (nInput : Z) (s : St) : St :=
  let nInput := if fAnyoneCanPay t then nIn t else nInput in
  let s := Serialize (COutPoint.codec be) (CTxIn.prevout (vin_at (txTo t) nInput)) s in
  let s := if negb (nInput =? nIn t) then Serialize (ser_byte_vector be) [] s
           else SerializeScriptCode (scriptCode t) s in
  if negb (nInput =? nIn t) && (fHashSingle t || fHashNone t)
  then Serialize (ser_int32 be) 0 s
  else Serialize (ser_uint32 be) (CTxIn.nSequence (vin_at (txTo t) nInput)) s.

Definition SerializeOutput (nOutput : Z) (s : St) : St :=
  if fHashSingle t && negb (nOutput =? nIn t)
  then Serialize (CTxOut.codec be) CTxOut.null s
  else Serialize (CTxOut.codec be) (vout_at (txTo t) nOutput) s.

(** [for (n = 0; n < count; n++)] *)
Definition for_each (count : Z) (body : Z -> St -> St) (s : St) : St :=
  foldl (fun s n => body (Z.of_nat n) s) s (seq 0 (Z.to_nat count)).

Definition SerializeSignature (s : St) : St :=
  let s := Serialize (ser_int32 be) (nVersion (txTo t)) s in
  let s := Serialize (ser_uint32 be) (nTime (txTo t)) s in
  let nInputs := if fAnyoneCanPay t then 1 else Z.of_nat (length (vin (txTo t))) in
  let s := WriteCompactSize be nInputs s in
  let s := for_each nInputs SerializeInput s in
  let nOutputs := if fHashNone t then 0
                  else if fHashSingle t then nIn t + 1 else Z.of_nat (length (vout (txTo t))) in
  let s := WriteCompactSize be nOutputs s in
  let s := for_each nOutputs SerializeOutput s in
  Serialize (ser_uint32 be) (nLockTime (txTo t)) s.

End serializer.

Section sighash.
Context (be : bool) (Hash : list Z -> list Z).

Definition GetPrevoutHash (tx : CTransaction) : list Z :=
  Hash (foldl (fun s i => Serialize (COutPoint.codec be) (CTxIn.prevout i) s) [] (vin tx)).
Definition GetSequenceHash (tx : CTransaction) : list Z :=
  Hash (foldl (fun s i => Serialize (ser_uint32 be) (CTxIn.nSequence i) s) [] (vin tx)).
Definition GetOutputsHash (tx : CTransaction) : list Z :=
  Hash (foldl (fun s o => Serialize (CTxOut.codec be) o s) [] (vout tx)).

Record PrecomputedTransactionData : Type := {
  hashPrevouts : list Z;
  hashSequence : list Z;
  hashOutputs : list Z;
}.
Definition Precompute (tx : CTransaction) : PrecomputedTransactionData :=
  {| hashPrevouts := GetPrevoutHash tx; hashSequence := GetSequenceHash tx;
     hashOutputs := GetOutputsHash tx |}.

Definition one : list Z := 1 :: replicate 31 0.

(** The bytes hashed for a version 0 witness program. *)
Definition witness_preimage (code : list Z) (tx : CTransaction) (nIn nHashType amount : Z)
    (cache : option PrecomputedTransactionData) : list Z :=
  let anyone := flag_set nHashType SIGHASH_ANYONECANPAY in
  let single := Z.land nHashType 0x1f =? SIGHASH_SINGLE in
  let none := Z.land nHashType 0x1f =? SIGHASH_NONE in
  let null := SetNull 32 in
  let hPrevouts := if negb anyone
    then match cache with Some c => hashPrevouts c | None => GetPrevoutHash tx end else null in
  let hSequence := if negb anyone && negb single && negb none
    then match cache with Some c => hashSequence c | None => GetSequenceHash tx end else null in
  let hOutputs := if negb single && negb none
    then match cache with Some c => hashOutputs c | None => GetOutputsHash tx end
    else if single && (nIn <? Z.of_nat (length (vout tx)))
    then Hash (bytes_of (CTxOut.codec be) (vout_at tx nIn)) else null in
  let s := Serialize (ser_int32 be) (nVersion tx) [] in
  let s := Serialize (ser_uint32 be) (nTime tx) s in
  let s := Serialize (ser_flat 32) hPrevouts s in
  let s := Serialize (ser_flat 32) hSequence s in
  let s := Serialize (COutPoint.codec be) (CTxIn.prevout (vin_at tx nIn)) s in
  let s := Serialize (ser_byte_vector be) code s in
  let s := Serialize (ser_int64 be) amount s in
  let s := Serialize (ser_uint32 be) (CTxIn.nSequence (vin_at tx nIn)) s in
  let s := Serialize (ser_flat 32) hOutputs s in
  let s := Serialize (ser_uint32 be) (nLockTime tx) s in
  Serialize (ser_int32 be) nHashType s.

Definition SignatureHash (code : list Z) (tx : CTransaction) (nIn nHashType amount : Z)
    (sigversion : SigVersion) (cache : option PrecomputedTransactionData) : list Z :=
  match sigversion with
  | SIGVERSION_WITNESS_V0 => Hash (witness_preimage code tx nIn nHashType amount cache)
  | SIGVERSION_BASE =>
      if nIn >=? Z.of_nat (length (vin tx)) then one
      else if (Z.land nHashType 0x1f =? SIGHASH_SINGLE) && (nIn >=? Z.of_nat (length (vout tx))) then one
      else
        let txTmp := signature_serializer tx code nIn nHashType in
        Hash (Serialize (ser_int32 be) nHashType (SerializeSignature be txTmp []))
  end.

(** ** The checker of a transaction *)

(** [CPubKey::Verify(sighash, vchSig)]: the key, the hash, the signature. *)
Context (Verify : list Z -> list Z -> list Z -> bool).

Record TransactionSignatureChecker : Type := {
  tsc_txTo : CTransaction;
  tsc_nIn : Z;
  tsc_amount : Z;
  tsc_txdata : option PrecomputedTransactionData;
}.

Definition tsc_CheckSig (c : TransactionSignatureChecker) (vchSigIn vchPubKey : valtype)
    (code : list Z) (sigversion : SigVersion) : bool :=
  let pubkey := CPubKey.Set_ vchPubKey in
  if negb (CPubKey.IsValid pubkey) then false
  else match last vchSigIn with
       | None => false
       | Some nHashType =>
           let vchSig := take (length vchSigIn - 1) vchSigIn in
           let sighash := SignatureHash code (tsc_txTo c) (tsc_nIn c) nHashType (tsc_amount c)
                            sigversion (tsc_txdata c) in
           Verify pubkey sighash vchSig
       end.

Definition tsc_CheckLockTime (c : TransactionSignatureChecker) (n : Z) : bool :=
  let tx := tsc_txTo c in
  if negb (((nLockTime tx <? LOCKTIME_THRESHOLD) && CScriptNum.op_lt n LOCKTIME_THRESHOLD)
           || ((nLockTime tx >=? LOCKTIME_THRESHOLD) && CScriptNum.op_ge n LOCKTIME_THRESHOLD))
  then false
  else if CScriptNum.op_gt n (nLockTime tx) then false
  else if CTxIn.SEQUENCE_FINAL =? CTxIn.nSequence (vin_at tx (tsc_nIn c)) then false
  else true.

Definition tsc_CheckSequence (c : TransactionSignatureChecker) (n : Z) : bool :=
  let txToSequence := CTxIn.nSequence (vin_at (tsc_txTo c) (tsc_nIn c)) in
  if u32 (nVersion (tsc_txTo c)) <? 2 then false
  else if flag_set txToSequence CTxIn.SEQUENCE_LOCKTIME_DISABLE_FLAG then false
  else
    let nLockTimeMask := Z.lor CTxIn.SEQUENCE_LOCKTIME_TYPE_FLAG CTxIn.SEQUENCE_LOCKTIME_MASK in
    let txToSequenceMasked := Z.land txToSequence nLockTimeMask in
    let nSequenceMasked := CScriptNum.op_and n nLockTimeMask in
    if negb (((txToSequenceMasked <? CTxIn.SEQUENCE_LOCKTIME_TYPE_FLAG)
              && CScriptNum.op_lt nSequenceMasked CTxIn.SEQUENCE_LOCKTIME_TYPE_FLAG)
             || ((txToSequenceMasked >=? CTxIn.SEQUENCE_LOCKTIME_TYPE_FLAG)
                 && CScriptNum.op_ge nSequenceMasked CTxIn.SEQUENCE_LOCKTIME_TYPE_FLAG))
    then false
    else if CScriptNum.op_gt nSequenceMasked txToSequenceMasked then false
    else true.

(** The checker as the interpreter sees it. *)
Definition transaction_checker (c : TransactionSignatureChecker) : SignatureChecker :=
  {| CheckSig := tsc_CheckSig c; CheckLockTime := tsc_CheckLockTime c;
     CheckSequence := tsc_CheckSequence c |}.

End sighash.

(** ** The transaction a signature commits to

    The copy of the transaction that the original client modified and serialized:
    other inputs' scripts are blanked, the signed input carries the script code
    without its separators, and the hash type drops sequences, inputs and outputs. *)

Section reference.
Context (code : list Z) (k : nat) (nHashType : Z).

Definition ref_anyone : bool := flag_set nHashType SIGHASH_ANYONECANPAY.
Definition ref_single : bool := Z.land nHashType 0x1f =? SIGHASH_SINGLE.
Definition ref_none : bool := Z.land nHashType 0x1f =? SIGHASH_NONE.

Definition signed_input (j : nat) (i : CTxIn.t) : CTxIn.t :=
  CTxIn.mk (CTxIn.prevout i)
    (if decide (j = k) then code else [])
    (if decide (j = k) then CTxIn.nSequence i else if ref_single || ref_none then 0 else CTxIn.nSequence i)
    [].

Definition signed_tx (tx : CTransaction) : CTransaction :=
  {| nVersion := nVersion tx;
     nTime := nTime tx;
     vin := (if ref_anyone then take 1 ∘ drop k else id) (imap signed_input (vin tx));
     vout := if ref_none then []
             else if ref_single then replicate k CTxOut.null ++ take 1 (drop k (vout tx))
             else vout tx;
     nLockTime := nLockTime tx |}.

End reference.

(** The operations of a script, as the bytes each of them takes, in whatever form they are
    pushed; none if the last one is incomplete. *)
Section code.
Context (be : bool).

Fixpoint operations (fuel : nat) (code : list Z) (pc : nat) : option (list (list Z)) :=
  if (length code <=? pc)%nat then Some []
  else match fuel with
       | O => None
       | S fuel' =>
           let '(ok, _, _, pc') := CScript.GetOp2 be code pc in
           if (ok : bool) then cons (take (pc' - pc) (drop pc code)) <$> operations fuel' code pc' else None
       end.
Definition script_ops (code : list Z) : option (list (list Z)) := operations (length code) code 0.

Definition is_separator (op : list Z) : Prop := op = [OP_CODESEPARATOR].
Definition without_separators (ops : list (list Z)) : list Z := mjoin (filter (fun op => ~ is_separator op) ops).
Definition separators (ops : list (list Z)) : nat := length (filter is_separator ops).

Lemma operations_inv fuel code pc ops : operations fuel code pc = Some ops -> (pc <= length code)%nat ->
  match ops with
  | [] => pc = length code
  | op :: ops' => exists fuel' o v pc', fuel = S fuel' /\ CScript.GetOp2 be code pc = (true, o, v, pc') /\
      op = take (pc' - pc) (drop pc code) /\ operations fuel' code pc' = Some ops' /\ (pc < pc' <= length code)%nat /\
      (o =? OP_CODESEPARATOR) = bool_decide (is_separator op)
  end.
Proof.
  intros E Hpc. destruct fuel as [|fuel]; cbn [operations] in E; destruct (Nat.leb_spec (length code) pc) as [Hle|Hlt];
    try (injection E as <-; lia); try done.
  destruct (CScript.GetOp2 be code pc) as [[[ok o] v] pc'] eqn:Eg. destruct ok; [|done].
  apply fmap_Some in E as (ops' & E' & ->). pose proof (GetOp2_progress be code pc o v pc' Eg) as Hp.
  exists fuel, o, v, pc'. split_and!; try done; try lia.
  unfold CScript.GetOp2 in Eg. rewrite (proj2 (Nat.leb_gt _ _) Hlt) in Eg. cbv zeta in Eg.
  pose proof (drop_S code (code !!! pc) pc) as Hd. rewrite Hd by (by apply list_lookup_lookup_total_lt).
  assert (o = code !!! pc) as Eo.
  { destruct (_ <=? OP_PUSHDATA4); [|congruence]. destruct (CScript.operand_size be code _ _) as [[ok n] p]. destruct (negb ok); [done|]. destruct (_ <? n); congruence. }
  replace (pc' - pc)%nat with (S (pc' - S pc)) by lia. cbn [take]. rewrite <- Eo. unfold is_separator.
  destruct (Z.eqb_spec o OP_CODESEPARATOR) as [->|Hne]; symmetry.
  - apply bool_decide_eq_true. rewrite <- Eo in Eg. change (OP_CODESEPARATOR <=? OP_PUSHDATA4) with false in Eg. injection Eg as _ <-.
    by rewrite Nat.sub_diag.
  - apply bool_decide_eq_false. congruence.
Qed.

Lemma GetOp2_stop code : CScript.GetOp2 be code (length code) = (false, OP_INVALIDOPCODE, [], length code).
Proof. unfold CScript.GetOp2. by rewrite Nat.leb_refl. Qed.

Lemma count_separators_ops fuel fuel' code pc ops n : operations fuel code pc = Some ops -> (pc <= length code)%nat -> (length ops < fuel')%nat ->
  count_separators be fuel' code pc n = n + Z.of_nat (separators ops).
Proof.
  revert fuel fuel' pc n. induction ops as [|op ops IH]; intros fuel fuel' pc n E Hpc Hf;
    (destruct fuel' as [|fuel']; [cbn in Hf; lia|]); pose proof (operations_inv _ _ _ _ E Hpc) as Hi; cbn [count_separators].
  - cbv beta iota in Hi. subst pc. rewrite GetOp2_stop. unfold separators. cbn. lia.
  - destruct Hi as (f & o & v & pc' & -> & -> & _ & E' & Hp & ->). rewrite (IH f) by (done || (cbn in Hf; lia)).
    unfold separators. rewrite filter_cons. case_bool_decide; case_decide; try done; cbn [length]; lia.
Qed.

(** A piece is pending between [itBegin] and [it]. *)
Lemma write_pieces_ops fuel fuel' code ib pc ops (s : list Z) : operations fuel code pc = Some ops -> (ib <= pc <= length code)%nat -> (length ops < fuel')%nat ->
  let '(itBegin, it, s') := write_pieces be fuel' code ib pc s in
  it = length code /\ s' ++ drop itBegin code = s ++ take (pc - ib) (drop ib code) ++ without_separators ops.
Proof.
  revert fuel fuel' ib pc s. induction ops as [|op ops IH]; intros fuel fuel' ib pc s E Hpc Hf;
    (destruct fuel' as [|fuel']; [cbn in Hf; lia|]); pose proof (operations_inv _ _ _ _ E ltac:(lia)) as Hi; cbn [write_pieces].
  - cbv beta iota in Hi. subst pc. rewrite GetOp2_stop. split; [done|]. unfold without_separators. cbn. rewrite app_nil_r. f_equal.
    by rewrite take_ge by (rewrite length_drop; lia).
  - destruct Hi as (f & o & v & pc' & -> & -> & Eop & E' & Hp & ->).
    assert (take (pc' - ib) (drop ib code) = take (pc - ib) (drop ib code) ++ op) as Hpiece.
    { rewrite Eop. replace (pc' - ib)%nat with ((pc - ib) + (pc' - pc))%nat by lia. rewrite <- take_take_drop, drop_drop. by replace (ib + (pc - ib))%nat with pc by lia. }
    unfold without_separators. rewrite filter_cons. case_bool_decide as Es.
    + rewrite decide_False by (intros Hn; by apply Hn). unfold is_separator in Es.
      specialize (IH f fuel' pc' pc' (write (take (pc' - ib - 1) (drop ib code)) s) E' ltac:(lia) ltac:(cbn in Hf; lia)).
      destruct (write_pieces _ _ _ _ _ _) as [[ib' it] s']. destruct IH as [-> IH]. split; [done|]. rewrite IH, Nat.sub_diag. cbn [take app write DataStream].
      unfold append. rewrite <- app_assoc. f_equal. f_equal.
      apply (f_equal length) in Hpiece as Hlen. rewrite length_app, !length_take, length_drop, Es in Hlen. cbn [length] in Hlen.
      replace (pc' - ib - 1)%nat with (pc - ib)%nat by lia. done.
    + rewrite decide_True by done. specialize (IH f fuel' ib pc' s E' ltac:(lia) ltac:(cbn in Hf; lia)).
      destruct (write_pieces _ _ _ _ _ _) as [[ib' it] s']. destruct IH as [-> IH]. split; [done|]. rewrite IH, Hpiece. cbn [mjoin list_join]. by rewrite <- app_assoc.
Qed.

Lemma operations_length fuel code pc ops : operations fuel code pc = Some ops -> (pc <= length code)%nat ->
  (length (mjoin ops) + pc = length code)%nat /\ (length ops + pc <= length code)%nat.
Proof.
  revert fuel pc. induction ops as [|op ops IH]; intros fuel pc E Hpc; pose proof (operations_inv _ _ _ _ E Hpc) as Hi; [cbv beta iota in Hi; subst pc; cbn; lia|].
  destruct Hi as (f & o & v & pc' & -> & _ & -> & E' & Hp & _). destruct (IH f pc' E') as [H1 H2]; [lia|].
  set (x := take _ _). change (mjoin (x :: ops)) with (x ++ mjoin ops). unfold x. cbn [length]. rewrite length_app, length_take, length_drop. lia.
Qed.

Lemma without_separators_length ops : Z.of_nat (length (without_separators ops)) = Z.of_nat (length (mjoin ops)) - Z.of_nat (separators ops).
Proof.
  unfold without_separators, separators. induction ops as [|op ops IH]; [done|]. rewrite !filter_cons. unfold is_separator in *.
  destruct (decide (op = [OP_CODESEPARATOR])) as [->|Hne].
  - rewrite decide_False by (by intros Hn). change (mjoin ([OP_CODESEPARATOR] :: ops)) with (OP_CODESEPARATOR :: mjoin ops). cbn [length]. lia.
  - rewrite decide_True by done. change (mjoin (op :: ?l)) with (op ++ mjoin l). rewrite !length_app. lia.
Qed.

Lemma SerializeScriptCode_spec code ops (s : list Z) : script_ops code = Some ops -> Z.of_nat (length code) < 2 ^ 64 ->
  SerializeScriptCode be code s = Serialize (ser_byte_vector be) (without_separators ops) s.
Proof.
  intros Hops Hlen. unfold script_ops in Hops. destruct (operations_length _ _ _ _ Hops ltac:(lia)) as [Hl1 Hl2].
  unfold SerializeScriptCode. cbn [Serialize ser_byte_vector]. unfold write_sized.
  rewrite (count_separators_ops (length code) _ _ _ ops) by (done || lia).
  pose proof (without_separators_length ops) as Hw. rewrite Nat.add_0_r in Hl1. rewrite Hl1 in Hw.
  rewrite Z.add_0_l, <- Hw, uwrap_small by (unfold is_u; lia). set (s1 := WriteCompactSize be _ s).
  pose proof (write_pieces_ops (length code) (S (length code)) code 0 0 ops s1 Hops ltac:(lia) ltac:(lia)) as Hp.
  destruct (write_pieces _ _ _ _ _ _) as [[ib it] s']. destruct Hp as [-> Hp]. cbn [Nat.sub take app] in Hp.
  cbn [write DataStream]. unfold append. rewrite (take_ge (drop ib code)) by (rewrite length_drop; lia).
  destruct (Nat.eqb_spec ib (length code)) as [->|Hne]; cbn [negb].
  - rewrite drop_ge, app_nil_r in Hp by lia. rewrite Hp. destruct (without_separators ops); [by rewrite app_nil_r|done].
  - rewrite Hp. destruct (without_separators ops); [by rewrite app_nil_r|done].
Qed.
End code.

Section preimage.
Context (be : bool) (code : list Z) (ops : list (list Z)) (k : nat) (nHashType : Z) (tx : CTransaction).
Context (Hops : script_ops be code = Some ops) (Hlen : Z.of_nat (length code) < 2 ^ 64).
Context (Hk : (k < length (vin tx))%nat).
Context (Hsingle : ref_single nHashType = true -> (k < length (vout tx))%nat).

Let t := signature_serializer tx code (Z.of_nat k) nHashType.
Let code' := without_separators ops.

Lemma of_nat_eqb j : (Z.of_nat j =? Z.of_nat k) = bool_decide (j = k).
Proof. case_bool_decide; [subst; apply Z.eqb_refl|apply Z.eqb_neq; lia]. Qed.

Lemma for_each_map {T} (c : Codec T) (f : nat -> T) (body : Z -> list Z -> list Z) n s :
  (forall j s, (j < n)%nat -> body (Z.of_nat j) s = Serialize c (f j) s) ->
  for_each (Z.of_nat n) body s = foldl (fun s x => Serialize c x s) s (map f (seq 0 n)).
Proof.
  intros Hb. unfold for_each. rewrite Nat2Z.id, foldl_map.
  assert (forall js s, (forall j, j ∈ js -> (j < n)%nat) ->
    foldl (fun s n => body (Z.of_nat n) s) s js = foldl (fun s j => Serialize c (f j) s) s js) as Hjs.
  { induction js as [|j js IH]; intros s' Hj; [done|]. cbn [foldl].
    rewrite Hb by (apply Hj; set_solver). apply IH. set_solver. }
  apply Hjs. intros j Hj%elem_of_seq. lia.
Qed.

Lemma SerializeInput_spec j (s : list Z) :
  SerializeInput be t (Z.of_nat j) s =
  let j := if ref_anyone nHashType then k else j in
  Serialize (CTxIn.codec be) (signed_input code' k nHashType j (vin_at tx (Z.of_nat j))) s.
Proof.
  unfold SerializeInput. cbn [t signature_serializer fAnyoneCanPay fHashSingle fHashNone nIn txTo scriptCode].
  fold (ref_anyone nHashType) (ref_single nHashType) (ref_none nHashType). cbv zeta.
  replace (if ref_anyone nHashType then Z.of_nat k else Z.of_nat j) with
    (Z.of_nat (if ref_anyone nHashType then k else j)) by (by destruct (ref_anyone nHashType)).
  set (j' := if ref_anyone nHashType then k else j). rewrite of_nat_eqb.
  unfold signed_input, CTxIn.codec. cbn [ser_iso ser_pair Serialize CTxIn.prevout CTxIn.scriptSig CTxIn.nSequence fst snd].
  case_bool_decide as E; [rewrite !decide_True by done|rewrite !decide_False by done]; cbn [negb andb].
  - by rewrite (SerializeScriptCode_spec be code ops).
  - by destruct (ref_single nHashType || ref_none nHashType).
Qed.

Lemma SerializeOutput_spec j (s : list Z) :
  SerializeOutput be t (Z.of_nat j) s =
  Serialize (CTxOut.codec be)
    (if ref_single nHashType && negb (bool_decide (j = k)) then CTxOut.null else vout_at tx (Z.of_nat j)) s.
Proof.
  unfold SerializeOutput. cbn [t signature_serializer fHashSingle nIn txTo]. fold (ref_single nHashType).
  rewrite of_nat_eqb. by destruct (_ && _).
Qed.

Lemma map_seq_imap {A B} (d : A) (g : nat -> A -> B) (xs : list A) :
  map (fun j => g j (default d (xs !! j))) (seq 0 (length xs)) = imap g xs.
Proof.
  apply list_eq. intros i. rewrite list_lookup_imap, list_lookup_fmap.
  destruct (xs !! i) as [x|] eqn:E.
  - rewrite lookup_seq_lt by (by apply lookup_lt_Some in E). cbn. by rewrite E.
  - rewrite lookup_seq_ge by (by apply lookup_ge_None in E). done.
Qed.

Lemma take1_drop {A} (xs : list A) i x : xs !! i = Some x -> take 1 (drop i xs) = [x].
Proof. intros E. rewrite (drop_S _ _ _ E). cbn. by rewrite take_0. Qed.

Lemma signed_vin (s : list Z) :
  let nInputs := if fAnyoneCanPay t then 1 else Z.of_nat (length (vin (txTo t))) in
  for_each nInputs (SerializeInput be t) (WriteCompactSize be nInputs s) =
  Serialize (ser_vin be) (vin (signed_tx code' k nHashType tx)) s.
Proof.
  cbn [t signature_serializer fAnyoneCanPay txTo signed_tx vin]. fold (ref_anyone nHashType).
  unfold ser_vin, ser_vector, write_elems. cbn [Serialize].
  pose proof (for_each_map (CTxIn.codec be)) as Hfe.
  destruct (ref_anyone nHashType) eqn:Ea; cbv zeta.
  - destruct (lookup_lt_is_Some_2 (vin tx) k Hk) as [i Hi]. unfold compose.
    rewrite (take1_drop _ k (signed_input code' k nHashType k i)) by (rewrite list_lookup_imap, Hi; done).
    change 1 with (Z.of_nat 1). cbn [length].
    rewrite (Hfe (fun _ => signed_input code' k nHashType k i)); [done|].
    intros j s' _. rewrite SerializeInput_spec, Ea. unfold vin_at. by rewrite Nat2Z.id, Hi.
  - cbn [id]. unfold id. rewrite length_imap.
    rewrite (Hfe (fun j => signed_input code' k nHashType j (vin_at tx (Z.of_nat j)))).
    + rewrite <- (map_seq_imap (CTxIn.mk COutPoint.null [] CTxIn.SEQUENCE_FINAL [])). f_equal.
      apply map_ext. intros j. unfold vin_at. by rewrite Nat2Z.id.
    + intros j s' _. by rewrite SerializeInput_spec, Ea.
Qed.

Lemma signed_vout (s : list Z) :
  let nOutputs := if fHashNone t then 0
                  else if fHashSingle t then nIn t + 1 else Z.of_nat (length (vout (txTo t))) in
  for_each nOutputs (SerializeOutput be t) (WriteCompactSize be nOutputs s) =
  Serialize (ser_vout be) (vout (signed_tx code' k nHashType tx)) s.
Proof.
  cbn [t signature_serializer fHashNone fHashSingle nIn txTo signed_tx vout].
  fold (ref_none nHashType) (ref_single nHashType).
  unfold ser_vout, ser_vector, write_elems. cbn [Serialize]. pose proof (for_each_map (CTxOut.codec be)) as Hfe.
  pose proof SerializeOutput_spec as Hspec.
  destruct (ref_none nHashType); [done|]. destruct (ref_single nHashType) eqn:Es; cbv zeta.
  - destruct (lookup_lt_is_Some_2 (vout tx) k (Hsingle eq_refl)) as [o Ho]. rewrite (take1_drop _ k o Ho).
    replace (Z.of_nat k + 1) with (Z.of_nat (k + 1)) by lia. rewrite length_app, length_replicate. cbn [length].
    rewrite (Hfe (fun j => if bool_decide (j = k) then o else CTxOut.null)).
    + f_equal. rewrite seq_app, map_app. cbn [Nat.add seq map]. rewrite bool_decide_true by done. f_equal.
      apply list_eq. intros i. rewrite list_lookup_fmap. destruct (decide (i < k)%nat).
      * rewrite lookup_seq_lt, lookup_replicate_2 by lia. cbn. by rewrite bool_decide_false by lia.
      * rewrite lookup_seq_ge by lia. symmetry. apply lookup_ge_None_2. rewrite length_replicate. lia.
    + intros j s' _. rewrite Hspec. cbn [andb]. case_bool_decide as E; [|done]. subst j.
      unfold vout_at. by rewrite Nat2Z.id, Ho.
  - rewrite (Hfe (fun j => vout_at tx (Z.of_nat j))).
    + f_equal. transitivity (imap (fun _ o => o) (vout tx)); [|by apply list_eq; intros i; rewrite list_lookup_imap; destruct (vout tx !! i)].
      rewrite <- (map_seq_imap CTxOut.null). apply map_ext. intros j. unfold vout_at. by rewrite Nat2Z.id.
    + intros j s' _. by rewrite Hspec.
Qed.

Lemma signed_tx_no_witness c : HasWitness (signed_tx c k nHashType tx) = false.
Proof.
  unfold HasWitness. cbn [signed_tx vin]. apply not_true_iff_false. rewrite existsb_exists.
  intros (i & Hi & Hw). assert (i ∈ imap (signed_input c k nHashType) (vin tx)) as Hin.
  { apply list_elem_of_In in Hi. destruct (ref_anyone nHashType); [|done]. unfold compose in Hi.
    apply (elem_of_sublist _ _ _ Hi). etrans; [apply sublist_take|apply sublist_drop]. }
  apply list_elem_of_lookup in Hin as [j Hj]. rewrite list_lookup_imap in Hj.
  apply fmap_Some in Hj as (x & _ & ->). done.
Qed.

Lemma SerializeSignature_spec :
  SerializeSignature be t ([] : list Z) = bytes_of (tx_codec be SER_GETHASH 0 0) (signed_tx code' k nHashType tx).
Proof.
  unfold bytes_of. cbn [tx_codec Serialize]. unfold SerializeTransaction. rewrite signed_tx_no_witness.
  change (flag_set SER_GETHASH SER_BTC_TX) with false. change (fAllowWitness 0) with true.
  change (0 =? 0) with true. change (flag_set 0 1) with false. cbn [negb].
  unfold SerializeSignature. cbv zeta. by rewrite signed_vin, signed_vout.
Qed.
End preimage.

(** C13: what a signature hash covers.  For any script code all of whose operations are
    complete, in whatever form its data is pushed, an input in range and, with
    [SIGHASH_SINGLE], an output at its index, the hash is that of a plain serialization of the
    modified copy of the transaction ([signed_tx], with the operations of the code that are
    not separators) followed by the hash type: the serializer that streams the fields in place
    writes exactly these bytes.  Out of range it is the constant one.  Cached midstates never
    change the result.  A code whose last operation is incomplete is not covered:
    [EvalScript] ends with an error when it comes to that operation. *)
Theorem SignatureHash_reference (be : bool) (Hash : list Z -> list Z) (code : list Z) (ops : list (list Z)) (tx : CTransaction)
    (k : nat) (nHashType amount : Z) (sigversion : SigVersion) :
  script_ops be code = Some ops -> Z.of_nat (length code) < 2 ^ 64 ->
  (SignatureHash be Hash code tx (Z.of_nat k) nHashType amount SIGVERSION_BASE None =
   if (k <? length (vin tx))%nat && (negb (ref_single nHashType) || (k <? length (vout tx))%nat)
   then Hash (bytes_of (tx_codec be SER_GETHASH 0 0)
                (signed_tx (without_separators ops) k nHashType tx)
              ++ bytes_of (ser_int32 be) nHashType)
   else one) /\
  SignatureHash be Hash code tx (Z.of_nat k) nHashType amount sigversion
    (Some (Precompute be Hash tx)) =
  SignatureHash be Hash code tx (Z.of_nat k) nHashType amount sigversion None.
Proof.
  intros Hl Hlen. split; [|by destruct sigversion]. unfold SignatureHash.
  fold (ref_single nHashType). rewrite !Z.geb_leb.
  destruct (Nat.ltb_spec k (length (vin tx))) as [Hk|Hk]; cbn [andb].
  2: { by rewrite (proj2 (Z.leb_le _ _)) by lia. }
  rewrite (proj2 (Z.leb_gt _ _)) by lia.
  destruct (Nat.ltb_spec k (length (vout tx))) as [Ho|Ho].
  - rewrite (proj2 (Z.leb_gt _ (Z.of_nat k))) by lia. rewrite andb_false_r, orb_true_r.
    rewrite (SerializeSignature_spec be code ops) by (done || lia). done.
  - rewrite (proj2 (Z.leb_le _ (Z.of_nat k))) by lia. rewrite andb_true_r, orb_false_r.
    destruct (ref_single nHashType) eqn:Es; cbn [negb]; [done|].
    rewrite (SerializeSignature_spec be code ops) by (done || (rewrite ?Es; done)). done.
Qed.

(** [DUP CODESEPARATOR PUSHDATA2 <separator> CHECKSIG], where the byte of a separator is data. *)
Definition sample_code : list Z := [OP_DUP; OP_CODESEPARATOR; OP_PUSHDATA2; 1; 0; OP_CODESEPARATOR; OP_CHECKSIG].
Definition sample_ops : list (list Z) := [[OP_DUP]; [OP_CODESEPARATOR]; [OP_PUSHDATA2; 1; 0; OP_CODESEPARATOR]; [OP_CHECKSIG]].

Lemma SignatureHash_reference_witness :
  SignatureHash false id sample_code sample_tx 0 SIGHASH_ALL 7 SIGVERSION_BASE None =
  bytes_of (tx_codec false SER_GETHASH 0 0)
    (signed_tx [OP_DUP; OP_PUSHDATA2; 1; 0; OP_CODESEPARATOR; OP_CHECKSIG] 0 SIGHASH_ALL sample_tx) ++ bytes_of (ser_int32 false) SIGHASH_ALL.
Proof.
  refine (proj1 (SignatureHash_reference false id sample_code sample_ops sample_tx 0 SIGHASH_ALL 7 SIGVERSION_BASE _ _));
    vm_compute; reflexivity.
Defined.

(** ** What a signature binds *)

Definition unsigned_input (i : CTxIn.t) : CTxIn.t := CTxIn.mk (CTxIn.prevout i) [] (CTxIn.nSequence i) [].

(** A transaction without its signatures: scripts and witnesses of the inputs removed. *)
Definition unsigned (tx : CTransaction) : CTransaction :=
  {| nVersion := nVersion tx; nTime := nTime tx; vin := map unsigned_input (vin tx);
     vout := vout tx; nLockTime := nLockTime tx |}.

Section binding.
Context (be : bool).

Lemma signed_tx_unsigned code k nHashType tx :
  signed_tx code k nHashType (unsigned tx) = signed_tx code k nHashType tx.
Proof.
  unfold signed_tx, unsigned. cbn [nVersion nTime vin vout nLockTime]. f_equal.
  assert (imap (signed_input code k nHashType) (map unsigned_input (vin tx)) =
          imap (signed_input code k nHashType) (vin tx)) as ->; [|done].
  apply list_eq. intros j. rewrite !list_lookup_imap, list_lookup_fmap. by destruct (vin tx !! j).
Qed.

Lemma unsigned_signed_all code k tx : unsigned (signed_tx code k SIGHASH_ALL tx) = unsigned tx.
Proof.
  unfold unsigned. cbn [signed_tx nVersion nTime vin vout nLockTime]. f_equal.
  change (ref_anyone SIGHASH_ALL) with false. unfold id. apply list_eq. intros j.
  rewrite !list_lookup_fmap, list_lookup_imap. destruct (vin tx !! j) as [i|]; [|done]. cbn. f_equal.
  unfold unsigned_input, signed_input. cbn. by case_decide.
Qed.

Lemma signed_all_wf code k tx : tx_wf tx -> sized_valid code -> tx_wf (signed_tx code k SIGHASH_ALL tx).
Proof.
  intros [Hv Ht [Hin Hn] _ Ho Hlt] Hc. split; cbn [signed_tx nVersion nTime vin vout nLockTime]; try done;
    change (ref_anyone SIGHASH_ALL) with false; unfold id; rewrite ?length_imap.
  - split; [|done]. apply Forall_lookup_2. intros j i. rewrite list_lookup_imap.
    destruct (vin tx !! j) as [x|] eqn:E; [|done]. intros [= <-].
    pose proof (Forall_lookup_1 _ _ _ _ Hin E) as (H1 & H2 & H3). unfold txin_valid, signed_input. cbn.
    split_and!; [done|case_decide; [done|by split]|by case_decide].
  - apply Forall_lookup_2. intros j i. rewrite list_lookup_imap. destruct (vin tx !! j); [|done].
    intros [= <-]. by split.
Qed.

Lemma signed_all_valid code k tx : tx_wf tx -> sized_valid code -> (k < length (vin tx))%nat ->
  tx_valid SER_GETHASH 0 0 (signed_tx code k SIGHASH_ALL tx).
Proof.
  intros Hwf Hc Hk. split_and!; [by apply signed_all_wf| |done].
  intros _ E. exfalso. apply (f_equal length) in E. cbn [signed_tx vin] in E.
  change (ref_anyone SIGHASH_ALL) with false in E. unfold id in E. rewrite length_imap in E. cbn in E. lia.
Qed.

Lemma bytes_of_inj {T} (valid : T -> Prop) (c : Codec T) `{!Lawful valid c} x y :
  valid x -> valid y -> bytes_of c x = bytes_of c y -> x = y.
Proof.
  intros Hx Hy E. pose proof (law_read x [] Hx) as H1. pose proof (law_read y [] Hy) as H2.
  rewrite E, H2 in H1. congruence.
Qed.

Lemma without_separators_valid code ops : script_ops be code = Some ops -> sized_valid code -> sized_valid (without_separators ops).
Proof.
  intros Hops [Hb Hlen]. destruct (operations_length be _ _ _ _ Hops ltac:(lia)) as [Hl _].
  pose proof (without_separators_length ops) as Hw. split; [|lia]. clear Hl Hw Hlen.
  assert (forall fuel pc ops, operations be fuel code pc = Some ops -> (pc <= length code)%nat -> Forall is_byte (without_separators ops)) as H.
  { clear ops Hops. intros fuel pc ops. revert fuel pc. induction ops as [|op ops IH]; intros fuel pc E Hpc; [constructor|].
    apply operations_inv in E as (f & o & v & pc' & -> & _ & -> & E' & Hp & _); [|done]. specialize (IH f pc' E' ltac:(lia)).
    unfold without_separators in *. rewrite filter_cons. case_decide; [|done]. cbn [mjoin list_join]. apply Forall_app. split; [|done].
    by apply Forall_take, Forall_drop. }
  apply (H _ _ _ Hops). lia.
Qed.
End binding.

(** A [SIGHASH_ALL] signature binds the whole transaction.  The bytes signed for an
    input, with a given script code, are the same for two well-formed transactions
    exactly when these agree in everything but signatures: version, time, the outpoints
    and sequence numbers of all inputs, all outputs and the lock time.  Scripts and
    witnesses of the inputs play no part. *)
Theorem sighash_all_binding (be : bool) (code : list Z) (ops : list (list Z)) (k : nat) (tx tx' : CTransaction) :
  tx_wf tx -> tx_wf tx' -> (k < length (vin tx))%nat -> (k < length (vin tx'))%nat ->
  script_ops be code = Some ops -> sized_valid code ->
  SerializeSignature be (signature_serializer tx code (Z.of_nat k) SIGHASH_ALL) ([] : list Z) =
  SerializeSignature be (signature_serializer tx' code (Z.of_nat k) SIGHASH_ALL) [] <->
  unsigned tx = unsigned tx'.
Proof.
  intros Hwf Hwf' Hk Hk' Hl Hc. pose proof (without_separators_valid be code ops Hl Hc) as Hc'.
  assert (Z.of_nat (length code) < 2 ^ 64) by (destruct Hc; unfold MAX_SIZE in *; lia).
  rewrite !(SerializeSignature_spec be code ops) by (done || lia). split.
  - intros E. rewrite <- (unsigned_signed_all (without_separators ops) k tx).
    rewrite <- (unsigned_signed_all (without_separators ops) k tx'). f_equal.
    by apply (bytes_of_inj _ _ _ _ (signed_all_valid _ k tx Hwf Hc' Hk) (signed_all_valid _ k tx' Hwf' Hc' Hk')) in E.
  - intros E. by rewrite <- (signed_tx_unsigned _ k SIGHASH_ALL tx), E, signed_tx_unsigned.
Qed.

(** The same transaction with another witness and another script in its input. *)
Definition sample_tx_resigned : CTransaction :=
  {| nVersion := 2; nTime := 1500000000;
     vin := [CTxIn.mk (COutPoint.mk (replicate 32 7) 1) [0x52; 0x53] 0xffffffff []];
     vout := [CTxOut.mk 5000 [0x6a]]; nLockTime := 0 |}.

Lemma sighash_all_binding_witness :
  SerializeSignature false (signature_serializer sample_tx sample_code (Z.of_nat 0) SIGHASH_ALL) ([] : list Z) =
  SerializeSignature false (signature_serializer sample_tx_resigned sample_code (Z.of_nat 0) SIGHASH_ALL) [].
Proof.
  refine (proj2 (sighash_all_binding false sample_code sample_ops 0 sample_tx sample_tx_resigned sample_tx_wf _ _ _ _ _) _).
  - split; unfold elems_valid, txin_valid, txout_valid, COutPoint.valid, blob_wf, sized_valid, is_s, is_u;
      cbn -[Z.le Z.lt Z.pow]; repeat (constructor || lia); unfold MAX_SIZE; cbn; lia.
  - cbn. lia.
  - cbn. lia.
  - vm_compute; reflexivity.
  - split; [by_decide|vm_compute; congruence].
  - reflexivity.
Defined.
