(* ===== verification/VerifyScript.v ===== *)
(** * VerifyScript: spending an output

    Models [VerifyWitnessProgram], [VerifyScript], [WitnessSigOps] and
    [CountWitnessSigOps] of [src/src/script/interpreter.cpp], on top of the machine of
    [Interpreter].  [Ok tt] is the result true; an error is [Return_false]; an exception
    that leaves the function ([Throw]) and a failed [assert] ([Undefined]) are kept
    apart.  A witness is the list of its elements, first to last. *)
From S2P Require Import Prelude Endian Serialize Transaction Script Interpreter InterpreterFacts.

Section verify.
Context (be : bool) (CheckLowS : list Z -> bool) (H : Hashers) (checker : SignatureChecker).

(** [stack.resize(1)]: the element at the bottom stays. *)
Definition resize1 (st : list valtype) : list valtype :=
  match last st with Some v => [v] | None => [[]] end.

Definition eval (st : list valtype) (script : list Z) (flags : Z) (sigversion : SigVersion)
    : result failure (list valtype) :=
  match EvalScript be CheckLowS H checker script flags sigversion st with
  | (Ok _, st') => Ok st'
  | (Err f, _) => Err f
  end.

Definition ensure (b : bool) (e : ScriptError) : result failure unit :=
  if b then Ok tt else Err (Return_false e).
Definition assert (b : bool) : result failure unit := if b then Ok tt else Err Undefined.
Definition thrown {A} (r : result scriptnum_error A) : result failure A :=
  match r with Ok a => Ok a | Err e => Err (Throw (scriptnum e)) end.

(** The stack is not empty and its top is true. *)
Definition top_true (st : list valtype) : bool :=
  match st with [] => false | v :: _ => CastToBool v end.

Definition VerifyWitnessProgram (witness : list valtype) (witversion : Z) (program : list Z) (flags : Z)
    : result failure unit :=
  if witversion =? 0 then
    r ← (if Z.of_nat (length program) =? 32 then
           match last witness with
           | None => Err (Return_false SCRIPT_ERR_WITNESS_PROGRAM_WITNESS_EMPTY)
           | Some scriptPubKey =>
               let stack := reverse (take (length witness - 1) witness) in
               if bool_decide (h_sha256 H scriptPubKey = program) then Ok (scriptPubKey, stack)
               else Err (Return_false SCRIPT_ERR_WITNESS_PROGRAM_MISMATCH)
           end
         else if Z.of_nat (length program) =? 20 then
           if negb (Z.of_nat (length witness) =? 2)
           then Err (Return_false SCRIPT_ERR_WITNESS_PROGRAM_MISMATCH)
           else Ok (CScript.push_vch be [OP_DUP; OP_HASH160] program ++ [OP_EQUALVERIFY; OP_CHECKSIG],
                    reverse witness)
         else Err (Return_false SCRIPT_ERR_WITNESS_PROGRAM_WRONG_LENGTH));
    let '(scriptPubKey, stack) := r in
    _ ← ensure (forallb (fun v => negb (Z.of_nat (length v) >? MAX_SCRIPT_ELEMENT_SIZE)) stack)
          SCRIPT_ERR_PUSH_SIZE;
    stack ← eval stack scriptPubKey flags SIGVERSION_WITNESS_V0;
    _ ← ensure (Z.of_nat (length stack) =? 1) SCRIPT_ERR_EVAL_FALSE;
    ensure (top_true stack) SCRIPT_ERR_EVAL_FALSE
  else if flag_set flags SCRIPT_VERIFY_DISCOURAGE_UPGRADABLE_WITNESS_PROGRAM
  then Err (Return_false SCRIPT_ERR_DISCOURAGE_UPGRADABLE_WITNESS_PROGRAM)
  else Ok tt.

(** The part for spend-to-script-hash outputs: the stack and [hadWitness] afterwards. *)
Definition verify_p2sh (scriptSig : list Z) (witness : list valtype) (flags : Z)
    (stackCopy : list valtype) (hadWitness : bool) : result failure (list valtype * bool) :=
  _ ← ensure (CScript.IsPushOnly be scriptSig) SCRIPT_ERR_SIG_PUSHONLY;
  match stackCopy with
  | [] => Err Undefined
  | pubKey2 :: stack =>
      stack ← eval stack pubKey2 flags SIGVERSION_BASE;
      _ ← ensure (top_true stack) SCRIPT_ERR_EVAL_FALSE;
      if flag_set flags SCRIPT_VERIFY_WITNESS then
        wp ← thrown (IsWitnessProgram be pubKey2 0);
        match wp with
        | Some (witnessversion, witnessprogram) =>
            _ ← ensure (bool_decide (scriptSig = CScript.push_vch be [] pubKey2)) SCRIPT_ERR_WITNESS_MALLEATED_P2SH;
            _ ← VerifyWitnessProgram witness witnessversion witnessprogram flags;
            Ok (resize1 stack, true)
        | None => Ok (stack, hadWitness)
        end
      else Ok (stack, hadWitness)
  end.

Definition VerifyScript (scriptSig scriptPubKey : list Z) (nVersion : Z) (witness : list valtype) (flags : Z)
    : result failure unit :=
  let flags := if nVersion =? NAMECOIN_TX_VERSION
               then Z.land flags (Z.lnot SCRIPT_VERIFY_MINIMALDATA) else flags in
  _ ← ensure (negb (flag_set flags SCRIPT_VERIFY_SIGPUSHONLY && negb (CScript.IsPushOnly be scriptSig)))
        SCRIPT_ERR_SIG_PUSHONLY;
  stack ← eval [] scriptSig flags SIGVERSION_BASE;
  let stackCopy := if flag_set flags SCRIPT_VERIFY_P2SH then stack else [] in
  stack ← eval stack scriptPubKey flags SIGVERSION_BASE;
  _ ← ensure (top_true stack) SCRIPT_ERR_EVAL_FALSE;
  r ← (if flag_set flags SCRIPT_VERIFY_WITNESS then
         wp ← thrown (IsWitnessProgram be scriptPubKey nVersion);
         match wp with
         | Some (witnessversion, witnessprogram) =>
             _ ← ensure (Z.of_nat (length scriptSig) =? 0) SCRIPT_ERR_WITNESS_MALLEATED;
             _ ← VerifyWitnessProgram witness witnessversion witnessprogram flags;
             Ok (resize1 stack, true)
         | None => Ok (stack, false)
         end
       else Ok (stack, false));
  let '(stack, hadWitness) := r in
  fIsP2SH ← thrown (if flag_set flags SCRIPT_VERIFY_WITNESS
                    then IsPayToScriptHash be scriptPubKey nVersion
                    else IsPayToScriptHash be scriptPubKey 0);
  r ← (if flag_set flags SCRIPT_VERIFY_P2SH && fIsP2SH
       then verify_p2sh scriptSig witness flags stackCopy hadWitness
       else Ok (stack, hadWitness));
  let '(stack, hadWitness) := r in
  _ ← (if flag_set flags SCRIPT_VERIFY_CLEANSTACK then
         _ ← assert (flag_set flags SCRIPT_VERIFY_P2SH);
         _ ← assert (flag_set flags SCRIPT_VERIFY_WITNESS);
         ensure (Z.of_nat (length stack) =? 1) SCRIPT_ERR_CLEANSTACK
       else Ok tt);
  if flag_set flags SCRIPT_VERIFY_WITNESS then
    _ ← assert (flag_set flags SCRIPT_VERIFY_P2SH);
    ensure (negb (negb hadWitness && negb (Z.of_nat (length witness) =? 0))) SCRIPT_ERR_WITNESS_UNEXPECTED
  else Ok tt.

(** ** Signature operations in witnesses *)

Definition WitnessSigOps (witversion : Z) (witprogram : list Z) (witness : list valtype) : option Z :=
  if witversion =? 0 then
    if Z.of_nat (length witprogram) =? 20 then Some 1
    else match last witness with
         | Some subscript => if Z.of_nat (length witprogram) =? 32
                             then CScript.GetSigOpCount be subscript true else Some 0
         | None => Some 0
         end
  else Some 0.

(** [while (pc < scriptSig.end()) scriptSig.GetOp(pc, opcode, data)] *)
Fixpoint last_data (fuel : nat) (scriptSig : list Z) (pc : nat) (data : list Z) : result failure (list Z) :=
  if (pc <? length scriptSig)%nat then
    match fuel with
    | O => Err Out_of_fuel
    | S fuel' => let '(_, _, data, pc) := CScript.GetOp2 be scriptSig pc in
                 last_data fuel' scriptSig pc data
    end
  else Ok data.

Definition counted (o : option Z) : result failure Z :=
  match o with Some n => Ok n | None => Err Undefined end.

Definition CountWitnessSigOps (scriptSig scriptPubKey : list Z) (witness : list valtype)
    (flags nVersion : Z) : result failure Z :=
  if negb (flag_set flags SCRIPT_VERIFY_WITNESS) then Ok 0
  else
    _ ← assert (flag_set flags SCRIPT_VERIFY_P2SH);
    wp ← thrown (IsWitnessProgram be scriptPubKey nVersion);
    match wp with
    | Some (witnessversion, witnessprogram) => counted (WitnessSigOps witnessversion witnessprogram witness)
    | None =>
        p2sh ← thrown (IsPayToScriptHash be scriptPubKey nVersion);
        if p2sh && CScript.IsPushOnly be scriptSig then
          subscript ← last_data (length scriptSig) scriptSig 0 [];
          wp ← thrown (IsWitnessProgram be subscript 0);
          match wp with
          | Some (witnessversion, witnessprogram) =>
              counted (WitnessSigOps witnessversion witnessprogram witness)
          | None => Ok 0
          end
        else Ok 0
    end.

End verify.

(** ** Running a script operation by operation *)

Section symbolic.
Context (be : bool) (CheckLowS : list Z -> bool) (H : Hashers) (checker : SignatureChecker).
Context (script : list Z) (flags : Z) (sigversion : SigVersion).

Abbreviation exec_step := (step be CheckLowS H checker script flags sigversion).
Abbreviation exec_run := (run be CheckLowS H checker script flags sigversion).

Lemma run_step fuel s s' : (pc s < length script)%nat -> exec_step s = (Ok tt, s') ->
  exec_run (S fuel) s = exec_run fuel s'.
Proof.
  intros Hp Hs. cbn [run]. unfold mbind, M_bind, get. rewrite (proj2 (Nat.ltb_lt _ _) Hp). by rewrite Hs.
Qed.

Lemma run_fail fuel s s' f : (pc s < length script)%nat -> exec_step s = (Err f, s') ->
  exec_run (S fuel) s = (Err f, s').
Proof.
  intros Hp Hs. cbn [run]. unfold mbind, M_bind, get. rewrite (proj2 (Nat.ltb_lt _ _) Hp). by rewrite Hs.
Qed.

Lemma run_end fuel s : (length script <= pc s)%nat -> exec_run fuel s = (Ok tt, s).
Proof.
  intros Hp. destruct fuel; cbn [run]; unfold mbind, M_bind, get; by rewrite (proj2 (Nat.ltb_ge _ _) Hp).
Qed.

Definition check_size : M unit :=
  s ← get;
  require (negb (Z.of_nat (length (stack s)) + Z.of_nat (length (altstack s)) >? 1000)) SCRIPT_ERR_STACK_SIZE.

Lemma check_size_ok s : within_limits s -> check_size s = (Ok tt, s).
Proof.
  intros Hs. unfold check_size, mbind, M_bind, get. apply require_true.
  rewrite Z.gtb_ltb. apply negb_true_iff, Z.ltb_ge. exact Hs.
Qed.

Lemma check_size_inv s s' : check_size s = (Ok tt, s') -> within_limits s /\ s' = s.
Proof.
  unfold check_size, mbind, M_bind, get, require. destruct (negb _) eqn:E; [|done]. intros [= <-].
  split; [|done]. apply negb_true_iff in E. rewrite Z.gtb_ltb in E. by apply Z.ltb_ge in E.
Qed.

Lemma run_inv fuel s sf : (pc s < length script)%nat -> exec_run (S fuel) s = (Ok tt, sf) ->
  exists s', exec_step s = (Ok tt, s') /\ exec_run fuel s' = (Ok tt, sf).
Proof.
  intros Hp. cbn [run]. unfold mbind, M_bind, get. rewrite (proj2 (Nat.ltb_lt _ _) Hp).
  destruct (exec_step s) as [[[]|f] s']; [|done]. intros Hr. by exists s'.
Qed.

Lemma exec_step_push pre b l st alt nop pb : script = pre ++ asm be (IPush b :: l) ->
  Z.of_nat (length b) <= MAX_SCRIPT_ELEMENT_SIZE ->
  (fRequireMinimal flags = true -> CheckMinimalPush b (push_code b) = true) ->
  exec_step (mkEval st alt [] nop (length pre) pb) =
  check_size (mkEval (b :: st) alt [] nop (length (pre ++ asm1 be (IPush b))) pb).
Proof.
  intros Es Hb Hmin. unfold step. eapply bind_eval; [reflexivity|]. cbn [vfExec pc forallb].
  rewrite Es, GetOp2_asm by (cbn; unfold MAX_SCRIPT_ELEMENT_SIZE in Hb; lia). cbn [code operand].
  eapply bind_eval; [reflexivity|]. cbn [stack altstack vfExec nOpCount pc pbegincodehash].
  eapply bind_eval; [reflexivity|]. eapply bind_eval; [apply require_true|].
  { rewrite Z.gtb_ltb. by apply negb_true_iff, Z.ltb_ge. }
  pose proof (push_code_range b) as Hc. unfold OP_PUSHDATA4 in Hc.
  rewrite (proj2 (Z.leb_le 0 _)), (proj2 (Z.leb_le (push_code b) OP_PUSHDATA4)) by (unfold OP_PUSHDATA4; lia).
  rewrite Z.gtb_ltb, (proj2 (Z.ltb_ge _ _)) by (unfold OP_16; lia). cbn [andb].
  eapply bind_eval; [reflexivity|]. eapply bind_eval; [apply require_true|].
  { apply negb_true_iff, not_true_iff_false. unfold is_op. rewrite existsb_exists.
    intros (x & Hx & Ex%Z.eqb_eq). unfold disabled_ops in Hx. cbn in Hx.
    unfold OP_CAT, OP_SUBSTR, OP_LEFT, OP_RIGHT, OP_INVERT, OP_AND, OP_OR, OP_XOR, OP_2MUL, OP_2DIV, OP_MUL,
      OP_DIV, OP_MOD, OP_LSHIFT, OP_RSHIFT in Hx. lia. }
  eapply bind_eval.
  { eapply bind_eval; [apply require_true|reflexivity]. apply negb_true_iff.
    destruct (fRequireMinimal flags); [|done]. by rewrite Hmin. }
  reflexivity.
Qed.

Lemma exec_step_op pre o l st alt nop pb : script = pre ++ asm be (IOp o :: l) ->
  OP_16 < o <= 0xff -> is_op o disabled_ops = false -> nop < MAX_OPS_PER_SCRIPT ->
  exec_step (mkEval st alt [] nop (length pre) pb) =
  (exec_opcode be CheckLowS H checker script flags sigversion true o ≫= fun _ => check_size)
    (mkEval st alt [] (nop + 1) (length (pre ++ asm1 be (IOp o))) pb).
Proof.
  intros Es Ho Hd Hn. unfold OP_16 in Ho.
  assert (CScript.GetOp2 be script (length pre) = (true, o, [], length (pre ++ asm1 be (IOp o)))) as Eg.
  { rewrite Es. apply (GetOp2_asm be pre (IOp o)). cbn. unfold OP_PUSHDATA4. lia. }
  unfold step. eapply bind_eval; [reflexivity|]. cbn [vfExec pc forallb]. rewrite Eg.
  eapply bind_eval; [reflexivity|]. cbn [stack altstack vfExec nOpCount pc pbegincodehash].
  eapply bind_eval; [reflexivity|]. eapply bind_eval; [reflexivity|].
  rewrite (proj2 (Z.gtb_lt o OP_16)) by (unfold OP_16; lia).
  eapply bind_eval; [eapply bind_eval; [reflexivity|]; eapply bind_eval; [reflexivity|]; apply require_true|].
  { cbn [nOpCount]. rewrite Z.gtb_ltb. apply negb_true_iff, Z.ltb_ge. lia. }
  eapply bind_eval; [apply require_true; by rewrite Hd|].
  rewrite (proj2 (Z.leb_gt o OP_PUSHDATA4)) by (unfold OP_PUSHDATA4; lia). rewrite andb_false_r. cbn [orb].
  reflexivity.
Qed.

(** A round of the loop whose operation fails. *)
Lemma run_op_fail fuel pre o l st alt nop pb f s2 : script = pre ++ asm be (IOp o :: l) ->
  OP_16 < o <= 0xff -> is_op o disabled_ops = false -> nop < MAX_OPS_PER_SCRIPT ->
  exec_opcode be CheckLowS H checker script flags sigversion true o
    (mkEval st alt [] (nop + 1) (length (pre ++ [o])) pb) = (Err f, s2) ->
  exec_run (S fuel) (mkEval st alt [] nop (length pre) pb) = (Err f, s2).
Proof.
  intros Es Ho Hd Hn Hx. apply run_fail.
  { cbn [pc]. rewrite Es, asm_cons, !length_app. cbn [asm1 length]. lia. }
  rewrite (exec_step_op pre o l) by done. unfold mbind, M_bind. cbn [asm1]. by rewrite Hx.
Qed.

(** The loop succeeds from an operation exactly when the operation does, within the
    limits, and the loop from there; likewise from a push. *)
Lemma run_op fuel pre o l st alt nop pb sf : script = pre ++ asm be (IOp o :: l) ->
  OP_16 < o <= 0xff -> is_op o disabled_ops = false -> nop < MAX_OPS_PER_SCRIPT ->
  exec_run (S fuel) (mkEval st alt [] nop (length pre) pb) = (Ok tt, sf) <->
  exists s2, exec_opcode be CheckLowS H checker script flags sigversion true o
    (mkEval st alt [] (nop + 1) (length (pre ++ [o])) pb) = (Ok tt, s2) /\
    within_limits s2 /\ exec_run fuel s2 = (Ok tt, sf).
Proof.
  intros Es Ho Hd Hn.
  assert (length pre < length script)%nat as Hp.
  { rewrite Es, asm_cons, !length_app. cbn [asm1 length]. lia. }
  pose proof (exec_step_op pre o l st alt nop pb Es Ho Hd Hn) as Hst. cbn [asm1] in Hst. split.
  - intros (s' & Hs & Hr)%run_inv; [|exact Hp]. rewrite Hst in Hs. unfold mbind, M_bind in Hs.
    destruct (exec_opcode _ _ _ _ _ _ _ _ _ _) as [[[]|f] s2]; [|done]. apply check_size_inv in Hs as [Hl ->].
    by exists s2.
  - intros (s2 & Hx & Hl & Hr). rewrite (run_step fuel _ s2); [done|exact Hp|].
    rewrite Hst. eapply bind_eval; [exact Hx|]. by apply check_size_ok.
Qed.

Lemma run_push fuel pre b l st alt nop pb sf : script = pre ++ asm be (IPush b :: l) ->
  Z.of_nat (length b) <= MAX_SCRIPT_ELEMENT_SIZE ->
  (fRequireMinimal flags = true -> CheckMinimalPush b (push_code b) = true) ->
  exec_run (S fuel) (mkEval st alt [] nop (length pre) pb) = (Ok tt, sf) <->
  Z.of_nat (length st) + Z.of_nat (length alt) < 1000 /\
  exec_run fuel (mkEval (b :: st) alt [] nop (length (pre ++ asm1 be (IPush b))) pb) = (Ok tt, sf).
Proof.
  intros Es Hb Hm.
  assert (length pre < length script)%nat as Hp.
  { rewrite Es, asm_cons, !length_app. pose proof (asm1_length be (IPush b)). lia. }
  pose proof (exec_step_push pre b l st alt nop pb Es Hb Hm) as Hst. split.
  - intros (s' & Hs & Hr)%run_inv; [|exact Hp]. rewrite Hst in Hs. apply check_size_inv in Hs as [Hl ->].
    split; [|done]. unfold within_limits in Hl. cbn [stack altstack length] in Hl. lia.
  - intros [Hl Hr]. erewrite run_step; [exact Hr|exact Hp|]. rewrite Hst. apply check_size_ok.
    unfold within_limits. cbn [stack altstack length]. lia.
Qed.

End symbolic.

(** ** Scripts that only push *)

Lemma length_direct_push be b : (length b < 76)%nat -> length (asm1 be (IPush b)) = S (length b).
Proof.
  intros Hb. cbn [asm1]. unfold CScript.push_vch.
  rewrite (proj2 (Z.ltb_lt _ _)) by (unfold OP_PUSHDATA1; lia). done.
Qed.

Section pushes.
Context (be : bool) (CheckLowS : list Z -> bool) (H : Hashers) (checker : SignatureChecker).
Context (flags : Z) (sigversion : SigVersion).

(** A push the interpreter accepts. *)
Definition push_ok (b : valtype) : Prop :=
  Z.of_nat (length b) <= MAX_SCRIPT_ELEMENT_SIZE /\
  (fRequireMinimal flags = true -> CheckMinimalPush b (push_code b) = true).

Lemma run_pushes fuel pre vs st script nop pb : script = pre ++ asm be (map IPush vs) ->
  (length vs <= fuel)%nat -> Forall push_ok vs -> (length st + length vs <= 1000)%nat ->
  run be CheckLowS H checker script flags sigversion fuel (mkEval st [] [] nop (length pre) pb) =
  (Ok tt, mkEval (reverse vs ++ st) [] [] nop (length script) pb).
Proof.
  intros Es Hf Hvs. revert fuel pre st Es Hf. induction Hvs as [|b vs [Hb Hm] Hvs IH]; intros fuel pre st Es Hf Hlim.
  { change (asm be (map IPush [])) with (@nil Z) in Es. rewrite app_nil_r in Es. subst pre. by apply run_end. }
  destruct fuel as [|fuel]; cbn [length] in *; [lia|].
  assert (length script = length pre + (length (asm1 be (IPush b)) + length (asm be (map IPush vs))))%nat as El.
  { rewrite Es. cbn [map]. rewrite asm_cons. by rewrite !length_app. }
  pose proof (asm1_length be (IPush b)).
  apply (run_push _ _ _ _ _ _ _ fuel pre b (map IPush vs)); [exact Es|done|done|]. split; [cbn [length]; lia|].
  rewrite (IH fuel (pre ++ asm1 be (IPush b)) (b :: st)); [|by rewrite Es, <- app_assoc|lia|cbn; lia].
  rewrite reverse_cons. by rewrite <- app_assoc.
Qed.

Lemma eval_pushes vs st : Forall push_ok vs -> (length st + length vs <= 1000)%nat ->
  Z.of_nat (length (asm be (map IPush vs))) <= MAX_SCRIPT_SIZE ->
  eval be CheckLowS H checker st (asm be (map IPush vs)) flags sigversion = Ok (reverse vs ++ st).
Proof.
  intros Hvs Hlim Hs. unfold eval, EvalScript. rewrite Z.gtb_ltb, (proj2 (Z.ltb_ge _ _)) by done.
  pose proof (asm_length be (map IPush vs)) as Hal. rewrite length_map in Hal.
  pose proof (run_pushes (length (asm be (map IPush vs))) [] vs st (asm be (map IPush vs)) 0 0 eq_refl) as Hr.
  cbn [length] in Hr. unfold initial. by rewrite Hr by (done || lia).
Qed.
End pushes.

(** ** Pay to public key hash *)

Section p2pkh.
Context (be : bool) (CheckLowS : list Z -> bool) (H : Hashers) (checker : SignatureChecker) (flags : Z).

Definition p2pkh_code (h : list Z) : list instr :=
  [IOp OP_DUP; IOp OP_HASH160; IPush h; IOp OP_EQUALVERIFY; IOp OP_CHECKSIG].

Definition p2pkh_script (h : list Z) : list Z := asm be (p2pkh_code h).

Lemma exec_dup script sv : exec_opcode be CheckLowS H checker script flags sv true OP_DUP = op_dup.
Proof. reflexivity. Qed.
Lemma exec_hash160 script sv : exec_opcode be CheckLowS H checker script flags sv true OP_HASH160 = op_hash H OP_HASH160.
Proof. reflexivity. Qed.
Lemma exec_equalverify script sv :
  exec_opcode be CheckLowS H checker script flags sv true OP_EQUALVERIFY = op_equal OP_EQUALVERIFY.
Proof. reflexivity. Qed.
Lemma exec_checksig script sv : exec_opcode be CheckLowS H checker script flags sv true OP_CHECKSIG =
  op_checksig be CheckLowS checker script flags sv OP_CHECKSIG.
Proof. reflexivity. Qed.

Ltac ok_need := eapply bind_eval; [apply need_enough; cbn; lia|].

Lemma op_dup_eq v st alt vf nop p pb :
  op_dup (mkEval (v :: st) alt vf nop p pb) = (Ok tt, mkEval (v :: v :: st) alt vf nop p pb).
Proof. unfold op_dup. ok_need. reflexivity. Qed.

Lemma op_hash160_eq v st alt vf nop p pb :
  op_hash H OP_HASH160 (mkEval (v :: st) alt vf nop p pb) =
  (Ok tt, mkEval (h_hash160 H v :: st) alt vf nop p pb).
Proof. unfold op_hash. ok_need. reflexivity. Qed.

Lemma op_equal_eq opcode x y st alt vf nop p pb :
  op_equal opcode (mkEval (x :: y :: st) alt vf nop p pb) =
  if opcode =? OP_EQUALVERIFY then
    if bool_decide (y = x) then (Ok tt, mkEval st alt vf nop p pb)
    else (Err (Return_false SCRIPT_ERR_EQUALVERIFY), mkEval (vchFalse :: st) alt vf nop p pb)
  else (Ok tt, mkEval (vch_of_bool (bool_decide (y = x)) :: st) alt vf nop p pb).
Proof.
  unfold op_equal. ok_need. do 2 (eapply bind_eval; [reflexivity|]). cbv zeta.
  do 3 (eapply bind_eval; [reflexivity|]). destruct (opcode =? OP_EQUALVERIFY); [|reflexivity].
  by destruct (bool_decide (y = x)).
Qed.

(** [OP_CHECKSIG] on well-encoded arguments. *)
Lemma op_checksig_eq script sv pubkey sig st alt vf nop p pb :
  CheckSignatureEncoding CheckLowS sig flags = Ok tt ->
  CheckPubKeyEncoding pubkey flags sv = Ok tt ->
  let ok := CheckSig checker sig pubkey (drop_signature be sv (drop pb script) sig) sv in
  op_checksig be CheckLowS checker script flags sv OP_CHECKSIG (mkEval (pubkey :: sig :: st) alt vf nop p pb) =
  if negb ok && flag flags SCRIPT_VERIFY_NULLFAIL && negb (Z.of_nat (length sig) =? 0)
  then (Err (Return_false SCRIPT_ERR_SIG_NULLFAIL), mkEval (pubkey :: sig :: st) alt vf nop p pb)
  else (Ok tt, mkEval (vch_of_bool ok :: st) alt vf nop p pb).
Proof.
  intros Hs Hk ok. unfold op_checksig. ok_need. do 3 (eapply bind_eval; [reflexivity|]). cbv zeta.
  eapply bind_eval.
  { unfold check_encodings. rewrite Hs, Hk. reflexivity. }
  cbn [pbegincodehash]. fold ok. destruct (_ && _ && _); reflexivity.
Qed.

Lemma bind_success {A B} (m : M A) (f : A -> M B) s b s2 : (m ≫= f) s = (Ok b, s2) ->
  exists a s1, m s = (Ok a, s1) /\ f a s1 = (Ok b, s2).
Proof. unfold mbind, M_bind. destruct (m s) as [[a|e] s1]; [|done]. by exists a, s1. Qed.

(** ... and what its success says of them. *)
Lemma op_checksig_inv script sv pubkey sig st alt vf nop p pb s2 :
  op_checksig be CheckLowS checker script flags sv OP_CHECKSIG (mkEval (pubkey :: sig :: st) alt vf nop p pb) = (Ok tt, s2) ->
  CheckSignatureEncoding CheckLowS sig flags = Ok tt /\ CheckPubKeyEncoding pubkey flags sv = Ok tt.
Proof.
  unfold op_checksig. intros (? & s1 & Hn & Hx)%bind_success. rewrite need_enough in Hn by (cbn; lia).
  injection Hn as _ <-. do 3 apply bind_success in Hx as (? & ? & [= <- <-] & Hx). cbv zeta in Hx.
  apply bind_success in Hx as (? & s1 & Hc & _). unfold check_encodings in Hc.
  apply bind_success in Hc as (u & s0 & Hs & Hk). unfold check in Hs, Hk.
  destruct (CheckSignatureEncoding _ _ _) as [[]|]; [|done].
  by destruct (CheckPubKeyEncoding _ _ _) as [[]|].
Qed.

Lemma op_dup_inv st alt vf nop p pb s2 : op_dup (mkEval st alt vf nop p pb) = (Ok tt, s2) ->
  exists v st', st = v :: st' /\ s2 = mkEval (v :: v :: st') alt vf nop p pb.
Proof. destruct st as [|v st]; [done|]. rewrite op_dup_eq. intros [= <-]. by exists v, st. Qed.

Lemma op_hash160_inv st alt vf nop p pb s2 : op_hash H OP_HASH160 (mkEval st alt vf nop p pb) = (Ok tt, s2) ->
  exists v st', st = v :: st' /\ s2 = mkEval (h_hash160 H v :: st') alt vf nop p pb.
Proof. destruct st as [|v st]; [done|]. rewrite op_hash160_eq. intros [= <-]. by exists v, st. Qed.

Lemma eval_success st script sv st' : eval be CheckLowS H checker st script flags sv = Ok st' <->
  Z.of_nat (length script) <= MAX_SCRIPT_SIZE /\
  exists s, run be CheckLowS H checker script flags sv (length script) (initial st) = (Ok tt, s) /\
            vfExec s = [] /\ stack s = st'.
Proof.
  unfold eval, EvalScript. rewrite Z.gtb_ltb. destruct (Z.ltb_spec MAX_SCRIPT_SIZE (Z.of_nat (length script))).
  { split; [done|lia]. }
  destruct (run _ _ _ _ _ _ _ _ _) as [[[]|[]] s]; [destruct (vfExec s) eqn:Ev|..]; (split; [try done|]).
  - intros [= <-]. split; [done|]. by exists s.
  - by intros (_ & ? & [= <-] & _ & <-).
  - intros (_ & ? & [= <-] & E & _). congruence.
  - by intros (_ & ? & ? & _).
  - by intros (_ & ? & ? & _).
  - by intros (_ & ? & ? & _).
  - by intros (_ & ? & ? & _).
Qed.
End p2pkh.

(** The flags [VerifyScript] works with. *)
Definition effective_flags (nVersion flags : Z) : Z :=
  if nVersion =? NAMECOIN_TX_VERSION then Z.land flags (Z.lnot SCRIPT_VERIFY_MINIMALDATA) else flags.

(** The combinations it asserts. *)
Definition flags_consistent (flags : Z) : Prop :=
  (flag_set flags SCRIPT_VERIFY_CLEANSTACK = true -> flag_set flags SCRIPT_VERIFY_WITNESS = true) /\
  (flag_set flags SCRIPT_VERIFY_WITNESS = true -> flag_set flags SCRIPT_VERIFY_P2SH = true).

Lemma push_code_small b : (length b < 76)%nat -> push_code b = Z.of_nat (length b).
Proof. intros Hb. unfold push_code, OP_PUSHDATA1. repeat case_bool; lia || done. Qed.

(** Between 2 and 75 bytes a direct push is the minimal one. *)
Lemma direct_push_ok flags b : (2 <= length b <= 75)%nat -> push_ok flags b.
Proof.
  intros Hb. split; [unfold MAX_SCRIPT_ELEMENT_SIZE; lia|]. intros _.
  rewrite push_code_small by lia. unfold CheckMinimalPush.
  rewrite !(proj2 (Z.eqb_neq (Z.of_nat (length b)) _)) by lia. cbn [andb].
  rewrite (proj2 (Z.leb_le _ _)) by lia. apply Z.eqb_refl.
Qed.

(** ** What the two standard output scripts accept *)

Section standard.
Context (be : bool) (CheckLowS : list Z -> bool) (H : Hashers) (checker : SignatureChecker) (flags : Z).
Context (h : list Z) (Hh : length h = 20%nat).

Abbreviation run_script script := (run be CheckLowS H checker script flags SIGVERSION_BASE).
Abbreviation checks sig pubkey :=
  (CheckSig checker sig pubkey (drop_signature be SIGVERSION_BASE (p2pkh_script be h) sig) SIGVERSION_BASE).

Lemma push_h : push_ok flags h.
Proof. apply direct_push_ok. lia. Qed.

Lemma p2pkh_bytes : p2pkh_script be h = ([OP_DUP; OP_HASH160] ++ asm1 be (IPush h)) ++ asm be [IOp OP_EQUALVERIFY; IOp OP_CHECKSIG].
Proof. unfold p2pkh_script, p2pkh_code. rewrite !asm_cons. by rewrite <- app_assoc. Qed.

Lemma p2pkh_length : length (p2pkh_script be h) = 25%nat.
Proof. rewrite p2pkh_bytes, !length_app, length_direct_push by lia. rewrite Hh. done. Qed.

(** The first three operations: the hash of the key and [h] are on top. *)
Lemma p2pkh_head fuel st0 sf :
  run_script (p2pkh_script be h) (3 + fuel) (mkEval st0 [] [] 0 0 0) = (Ok tt, sf) <->
  exists pubkey st, st0 = pubkey :: st /\ (length st <= 997)%nat /\
    run_script (p2pkh_script be h) fuel
      (mkEval (h :: h_hash160 H pubkey :: pubkey :: st) [] [] 2 (length ([OP_DUP; OP_HASH160] ++ asm1 be (IPush h))) 0)
    = (Ok tt, sf).
Proof.
  destruct push_h as [Hp1 Hp2]. change (3 + fuel)%nat with (S (S (S fuel))). change 0%nat with (@length Z []) at 1.
  rewrite (run_op _ _ _ _ _ _ _ _ [] OP_DUP (tail (p2pkh_code h))) by done.
  pose proof (fun st nop pb => run_op be CheckLowS H checker (p2pkh_script be h) flags SIGVERSION_BASE (S fuel)
    [OP_DUP] OP_HASH160 (drop 2 (p2pkh_code h)) st [] nop pb sf eq_refl) as Hop.
  pose proof (fun st nop pb => run_push be CheckLowS H checker (p2pkh_script be h) flags SIGVERSION_BASE fuel
    [OP_DUP; OP_HASH160] h (drop 3 (p2pkh_code h)) st [] nop pb sf eq_refl Hp1 Hp2) as Hpu.
  split.
  - intros (s2 & Hx & Hl & Hr). rewrite exec_dup in Hx. apply op_dup_inv in Hx as (pubkey & st & -> & ->). apply Hop in Hr as (s3 & Hx & Hl3 & Hr); [|done..].
    rewrite exec_hash160, op_hash160_eq in Hx. injection Hx as <-. apply Hpu in Hr as [Hl4 Hr].
    exists pubkey, st. split; [done|]. split; [cbn [length] in Hl4; lia|exact Hr].
  - intros (pubkey & st & -> & Hl & Hr). eexists. split; [rewrite exec_dup; apply op_dup_eq|].
    split; [unfold within_limits; cbn; lia|]. apply Hop; [done..|]. eexists.
    split; [rewrite exec_hash160; apply op_hash160_eq|]. split; [unfold within_limits; cbn; lia|].
    apply Hpu. split; [cbn; lia|exact Hr].
Qed.

(** The last two: the comparison and the signature. *)
Lemma p2pkh_tail fuel x pubkey st sf :
  run_script (p2pkh_script be h) (2 + fuel)
    (mkEval (h :: x :: pubkey :: st) [] [] 2 (length ([OP_DUP; OP_HASH160] ++ asm1 be (IPush h))) 0) = (Ok tt, sf) ->
  (length st <= 997)%nat ->
  x = h /\ exists sig st', st = sig :: st' /\
    CheckSignatureEncoding CheckLowS sig flags = Ok tt /\
    CheckPubKeyEncoding pubkey flags SIGVERSION_BASE = Ok tt /\
    vfExec sf = [] /\ stack sf = vch_of_bool (checks sig pubkey) :: st'.
Proof.
  intros Hr Hl. set (pre := [OP_DUP; OP_HASH160] ++ asm1 be (IPush h)) in *.
  assert (p2pkh_script be h = pre ++ asm be [IOp OP_EQUALVERIFY; IOp OP_CHECKSIG]) as E3 by exact p2pkh_bytes.
  assert (p2pkh_script be h = (pre ++ [OP_EQUALVERIFY]) ++ asm be [IOp OP_CHECKSIG]) as E4
    by (by rewrite E3, <- app_assoc).
  apply (run_op _ _ _ _ _ _ _ _ pre OP_EQUALVERIFY [IOp OP_CHECKSIG]) in Hr as (s2 & Hx & _ & Hr);
    [|exact E3|done|done|done].
  rewrite exec_equalverify, op_equal_eq in Hx. change (OP_EQUALVERIFY =? OP_EQUALVERIFY) with true in Hx. cbv iota in Hx.
  case_bool_decide as Ex; [|done]. injection Hx as <-. split; [done|].
  apply (run_op _ _ _ _ _ _ _ _ (pre ++ [OP_EQUALVERIFY]) OP_CHECKSIG []) in Hr as (s3 & Hx & _ & Hr);
    [|exact E4|done|done|done].
  rewrite exec_checksig in Hx. destruct st as [|sig st]; [done|]. exists sig, st. split; [done|].
  destruct (op_checksig_inv _ _ _ _ _ _ _ _ _ _ _ _ _ _ _ Hx) as [Hs Hk]. split; [done|]. split; [done|].
  rewrite op_checksig_eq in Hx by done. cbv zeta in Hx. rewrite drop_0 in Hx.
  destruct (negb _ && _ && _); [done|]. injection Hx as <-.
  rewrite run_end in Hr; [by injection Hr as <-|]. cbn [pc]. rewrite E4. done.
Qed.
Lemma p2pkh_tail_ok fuel pubkey sig st : (length st <= 996)%nat ->
  CheckSignatureEncoding CheckLowS sig flags = Ok tt -> CheckPubKeyEncoding pubkey flags SIGVERSION_BASE = Ok tt ->
  checks sig pubkey = true ->
  run_script (p2pkh_script be h) (2 + fuel)
    (mkEval (h :: h :: pubkey :: sig :: st) [] [] 2 (length ([OP_DUP; OP_HASH160] ++ asm1 be (IPush h))) 0) =
  (Ok tt, mkEval (vchTrue :: st) [] [] 4 (length (p2pkh_script be h)) 0).
Proof.
  intros Hl Hs Hk Hc. set (pre := [OP_DUP; OP_HASH160] ++ asm1 be (IPush h)) in *.
  assert (p2pkh_script be h = pre ++ asm be [IOp OP_EQUALVERIFY; IOp OP_CHECKSIG]) as E3 by exact p2pkh_bytes.
  assert (p2pkh_script be h = (pre ++ [OP_EQUALVERIFY]) ++ asm be [IOp OP_CHECKSIG]) as E4
    by (by rewrite E3, <- app_assoc).
  apply (run_op _ _ _ _ _ _ _ _ pre OP_EQUALVERIFY [IOp OP_CHECKSIG]); [exact E3|done|done|done|].
  eexists. split; [by rewrite exec_equalverify, op_equal_eq, bool_decide_true|].
  split; [unfold within_limits; cbn; lia|].
  apply (run_op _ _ _ _ _ _ _ _ (pre ++ [OP_EQUALVERIFY]) OP_CHECKSIG []); [exact E4|done|done|done|].
  eexists. split.
  { rewrite exec_checksig, op_checksig_eq by done. cbv zeta. rewrite drop_0, Hc. reflexivity. }
  split; [unfold within_limits; cbn; lia|]. rewrite run_end; [|cbn [pc]; by rewrite E4].
  by rewrite E4.
Qed.

(** The stacks from which the script ends with a true value on top. *)
Lemma p2pkh_accepts st0 st1 :
  eval be CheckLowS H checker st0 (p2pkh_script be h) flags SIGVERSION_BASE = Ok st1 /\ top_true st1 = true <->
  exists pubkey sig st, st0 = pubkey :: sig :: st /\ (length st <= 996)%nat /\ h_hash160 H pubkey = h /\
    CheckSignatureEncoding CheckLowS sig flags = Ok tt /\ CheckPubKeyEncoding pubkey flags SIGVERSION_BASE = Ok tt /\
    checks sig pubkey = true /\ st1 = vchTrue :: st.
Proof.
  rewrite eval_success, p2pkh_length. unfold initial. change 25%nat with (3 + (2 + 20))%nat. setoid_rewrite p2pkh_head. split.
  - intros [(_ & s & (pubkey & st & -> & Hl & Hr) & _ & <-) Ht].
    apply p2pkh_tail in Hr as (Ex & sig & st' & -> & Hs & Hk & _ & Est); [|done]. rewrite Est in *.
    destruct (checks sig pubkey) eqn:Ec; [|done]. exists pubkey, sig, st'. cbn [length] in Hl. by split_and!; [|lia|..].
  - intros (pubkey & sig & st & -> & Hl & Hx & Hs & Hk & Hc & ->). split; [|done]. split; [done|].
    eexists. split; [exists pubkey, (sig :: st); split; [done|]; split; [cbn; lia|]|].
    + rewrite Hx. by apply p2pkh_tail_ok.
    + done.
Qed.
End standard.

Lemma IsPushOnly_pushes be vs : Forall (fun b => Z.of_nat (length b) < 2 ^ 32) vs ->
  CScript.IsPushOnly be (asm be (map IPush vs)) = true.
Proof.
  intros Hvs. unfold CScript.IsPushOnly.
  pose proof (IsPushOnly_loop_asm be (length (asm be (map IPush vs))) [] (map IPush vs)) as Hp.
  cbn [app length] in Hp. rewrite Hp; [|by apply Forall_map|apply asm_length]. apply forallb_forall. intros i Hi.
  apply in_map_iff in Hi as (b & <- & _). cbn [code]. pose proof (push_code_range b).
  apply Z.leb_le. unfold OP_PUSHDATA4, OP_16 in *. lia.
Qed.

(** A script that begins with an opcode above [OP_16] is neither a witness program
    nor a name script. *)
Lemma RemoveNameScriptPrefix_plain be o s : OP_16 < o -> RemoveNameScriptPrefix be (o :: s) = Ok None.
Proof.
  intros Ho. unfold OP_16 in Ho. unfold RemoveNameScriptPrefix, DecodeNameScript.
  rewrite GetOp2_opcode by (unfold OP_PUSHDATA4; lia).
  cbn [negb orb]. rewrite (proj2 (Z.ltb_ge o OP_1)) by (unfold OP_1; lia).
  by rewrite (proj2 (Z.gtb_lt o OP_16)) by (unfold OP_16; lia).
Qed.

Lemma IsWitnessProgram_opcode be o s nVersion : OP_16 < o -> IsWitnessProgram be (o :: s) nVersion = Ok None.
Proof.
  intros Ho. unfold IsWitnessProgram, CScript.IsWitnessProgramInner. change ((o :: s) !!! 0%nat) with o.
  rewrite RemoveNameScriptPrefix_plain by done. unfold OP_16 in Ho.
  rewrite (proj2 (Z.eqb_neq o OP_0)) by (unfold OP_0; lia).
  rewrite (proj2 (Z.gtb_lt o OP_16)) by (unfold OP_16; lia). rewrite orb_true_r. cbn [negb andb].
  destruct (_ || _), (nVersion =? _); done.
Qed.

Lemma IsPayToScriptHash_opcode be o s nVersion : OP_16 < o -> o <> OP_HASH160 ->
  IsPayToScriptHash be (o :: s) nVersion = Ok false.
Proof.
  intros Ho Hne. unfold IsPayToScriptHash, CScript.IsPayToScriptHashInner. change ((o :: s) !!! 0%nat) with o.
  rewrite RemoveNameScriptPrefix_plain by done. rewrite (proj2 (Z.eqb_neq o OP_HASH160)) by done.
  rewrite andb_false_r. cbn [negb andb]. by destruct (nVersion =? _).
Qed.

(** Replaces the computation at the head of a sequence by its value, which does not
    depend on whether witnesses are in force. *)
Ltac head_is x :=
  match goal with |- context [(mbind ?k ?r) = Ok tt] =>
    replace r with (Ok (E := failure) x) by (by repeat case_match); cbn [mbind result_bind] end.

(** The rule on push-only spending scripts, and the two rules at the end. *)
Lemma ensure_bind {A} b e (k : unit -> result failure A) a :
  (ensure b e ≫= k) = Ok a <-> b = true /\ k tt = Ok a.
Proof. destruct b; cbn; (split; [|intros [? ?]]); done. Qed.

Lemma push_only_rule fl p : negb (fl && negb p) = true <-> (fl = true -> p = true).
Proof. destruct fl, p; cbn; (split; [auto|]); try done. intros Hi. by discriminate (Hi eq_refl). Qed.

Lemma final_rules fl (v : valtype) st (hadWitness : bool) (witness : list valtype) : flags_consistent fl ->
  (_ ← (if flag_set fl SCRIPT_VERIFY_CLEANSTACK then
          _ ← assert (flag_set fl SCRIPT_VERIFY_P2SH);
          _ ← assert (flag_set fl SCRIPT_VERIFY_WITNESS);
          ensure (Z.of_nat (length (v :: st)) =? 1) SCRIPT_ERR_CLEANSTACK
        else Ok tt);
   if flag_set fl SCRIPT_VERIFY_WITNESS then
     _ ← assert (flag_set fl SCRIPT_VERIFY_P2SH);
     ensure (negb (negb hadWitness && negb (Z.of_nat (length witness) =? 0))) SCRIPT_ERR_WITNESS_UNEXPECTED
   else Ok tt) = Ok tt <->
  (flag_set fl SCRIPT_VERIFY_CLEANSTACK = true -> st = []) /\
  (flag_set fl SCRIPT_VERIFY_WITNESS = true -> hadWitness = false -> witness = []).
Proof.
  intros [Hcw Hwp].
  assert (forall w, ensure (negb (negb hadWitness && negb (Z.of_nat (length witness) =? 0))) w = Ok tt <->
    (hadWitness = false -> witness = [])) as Hw.
  { intros e. destruct hadWitness, witness; cbn; (split; [done|]); try done. intros Hi. by discriminate (Hi eq_refl). }
  destruct (flag_set fl SCRIPT_VERIFY_WITNESS).
  - rewrite (Hwp eq_refl). cbn [assert mbind result_bind]. destruct (flag_set fl SCRIPT_VERIFY_CLEANSTACK); cbn [mbind result_bind].
    + rewrite ensure_bind, Hw. destruct st; cbn [length]; [|rewrite (proj2 (Z.eqb_neq _ _)) by lia]; naive_solver.
    + rewrite Hw. naive_solver.
  - destruct (flag_set fl SCRIPT_VERIFY_CLEANSTACK); [discriminate (Hcw eq_refl)|]. naive_solver.
Qed.

(** C33: paying to a public key hash.  The output [DUP HASH160 <h> EQUALVERIFY CHECKSIG]
    is spent by a script and a witness exactly when the script leaves a public key and
    below it a signature on top of the stack, with at most 996 elements below them (so
    that the size limit is kept), the key hashes to [h], both are encoded as the flags
    ask, and the checker accepts the signature for this output script (in which the
    signature itself does not count); with the respective flags the spending script
    must only push, leave nothing else on the stack, and come with an empty witness.
    This holds for every spending script, every witness, every consistent combination
    of flags and every transaction version. *)
Theorem p2pkh_spend (be : bool) (CheckLowS : list Z -> bool) (H : Hashers) (checker : SignatureChecker)
    (scriptSig h : list Z) (witness : list valtype) (nVersion flags : Z) :
  let fl := effective_flags nVersion flags in
  length h = 20%nat -> flags_consistent fl ->
  VerifyScript be CheckLowS H checker scriptSig (p2pkh_script be h) nVersion witness flags = Ok tt <->
  (flag_set fl SCRIPT_VERIFY_SIGPUSHONLY = true -> CScript.IsPushOnly be scriptSig = true) /\
  exists pubkey sig st,
    eval be CheckLowS H checker [] scriptSig fl SIGVERSION_BASE = Ok (pubkey :: sig :: st) /\
    (length st <= 996)%nat /\ h_hash160 H pubkey = h /\
    CheckSignatureEncoding CheckLowS sig fl = Ok tt /\ CheckPubKeyEncoding pubkey fl SIGVERSION_BASE = Ok tt /\
    CheckSig checker sig pubkey (drop_signature be SIGVERSION_BASE (p2pkh_script be h) sig) SIGVERSION_BASE = true /\
    (flag_set fl SCRIPT_VERIFY_CLEANSTACK = true -> st = []) /\
    (flag_set fl SCRIPT_VERIFY_WITNESS = true -> witness = []).
Proof.
  intros fl Hh [Hcw Hwp]. unfold VerifyScript. fold (effective_flags nVersion flags). fold fl.
  assert (exists r, p2pkh_script be h = OP_DUP :: r) as [r Er] by (by eexists).
  assert (forall v, IsWitnessProgram be (p2pkh_script be h) v = Ok None /\
    IsPayToScriptHash be (p2pkh_script be h) v = Ok false) as Hplain.
  { intros v. rewrite Er. by rewrite IsWitnessProgram_opcode, IsPayToScriptHash_opcode. }
  rewrite ensure_bind, (proj1 (Hplain nVersion)), !(proj2 (Hplain _)), push_only_rule. clear Hplain Er.
  apply and_iff_compat_l.
  destruct (eval be CheckLowS H checker [] scriptSig fl SIGVERSION_BASE) as [st0|f]; cbn [mbind result_bind].
  2: { split; [done|]. by intros (? & ? & ? & ? & _). }
  destruct (eval be CheckLowS H checker st0 (p2pkh_script be h) fl SIGVERSION_BASE) as [st1|f] eqn:Ee;
    cbn [mbind result_bind].
  2: { split; [done|]. intros (pubkey & sig & st & [= ->] & Hl & Hx & Hs & Hk & Hc & _).
       destruct (proj2 (p2pkh_accepts be CheckLowS H checker fl h Hh (pubkey :: sig :: st) (vchTrue :: st))) as [? _]; [|congruence].
       by exists pubkey, sig, st. }
  destruct (top_true st1) eqn:Et; cbn [ensure mbind result_bind].
  2: { split; [done|]. intros (pubkey & sig & st & [= ->] & Hl & Hx & Hs & Hk & Hc & _).
       destruct (proj2 (p2pkh_accepts be CheckLowS H checker fl h Hh (pubkey :: sig :: st) (vchTrue :: st))) as [E _];
         [by exists pubkey, sig, st|]. rewrite E in Ee. injection Ee as <-. done. }
  destruct (proj1 (p2pkh_accepts be CheckLowS H checker fl h Hh st0 st1) (conj Ee Et))
    as (pubkey & sig & st & -> & Hl & Hx & Hs & Hk & Hc & ->).
  transitivity ((flag_set fl SCRIPT_VERIFY_CLEANSTACK = true -> st = []) /\
                (flag_set fl SCRIPT_VERIFY_WITNESS = true -> witness = [])).
  2: { split; [intros [? ?]; by exists pubkey, sig, st|]. by intros (? & ? & ? & [= <- <- <-] & _ & _ & _ & _ & _ & ? & ?). }
  head_is (vchTrue :: st, false). head_is false. rewrite andb_false_r. cbn [mbind result_bind].
  rewrite final_rules by done. naive_solver.
Qed.

Definition sample_h : list Z := replicate 20 4.

Lemma p2pkh_spend_witness :
  VerifyScript false (fun _ => true) sample_hashers sample_checker
    (asm false [IPush [9; 1]; IPush [9; 2]]) (p2pkh_script false sample_h) 1 []
    (Z.lor SCRIPT_VERIFY_P2SH (Z.lor SCRIPT_VERIFY_WITNESS SCRIPT_VERIFY_CLEANSTACK)) = Ok tt.
Proof.
  refine (proj2 (p2pkh_spend false (fun _ => true) sample_hashers sample_checker (asm false [IPush [9; 1]; IPush [9; 2]])
    sample_h [] 1 (Z.lor SCRIPT_VERIFY_P2SH (Z.lor SCRIPT_VERIFY_WITNESS SCRIPT_VERIFY_CLEANSTACK)) _ _) _).
  - reflexivity.
  - split; reflexivity.
  - split; [reflexivity|]. exists [9; 2], [9; 1], []. split; [vm_compute; reflexivity|].
    split; [cbn; lia|]. split_and!; reflexivity.
Defined.

(** ** Pay to script hash *)

Section p2sh.
Context (be : bool) (CheckLowS : list Z -> bool) (H : Hashers) (checker : SignatureChecker).

Definition p2sh_script (h : list Z) : list Z := asm be [IOp OP_HASH160; IPush h; IOp OP_EQUAL].

Lemma p2sh_bytes h : length h = 20%nat -> p2sh_script h = OP_HASH160 :: 0x14 :: h ++ [OP_EQUAL].
Proof.
  intros Hh. unfold p2sh_script. rewrite !asm_cons. cbn [asm1]. unfold CScript.push_vch. rewrite Hh. done.
Qed.

Lemma p2sh_inner h : length h = 20%nat -> CScript.IsPayToScriptHashInner (p2sh_script h) = true.
Proof.
  intros Hh. rewrite p2sh_bytes by done. unfold CScript.IsPayToScriptHashInner. cbn [length].
  rewrite length_app, Hh. cbn [length Nat.add].
  change ((OP_HASH160 :: 20 :: h ++ [OP_EQUAL]) !!! 22%nat) with ((h ++ [OP_EQUAL]) !!! 20%nat).
  rewrite <- Hh at 2. rewrite <- (Nat.add_0_r (length h)), lookup_total_past. done.
Qed.

Lemma p2sh_shape s : CScript.IsPayToScriptHashInner s = true -> exists h, length h = 20%nat /\ s = p2sh_script h.
Proof.
  unfold CScript.IsPayToScriptHashInner. rewrite !andb_true_iff, !Z.eqb_eq. intros [[[Hl H0] H1] H22].
  destruct s as [|a [|b t]]; [cbn in Hl; lia|cbn in Hl; lia|]. cbn [length] in Hl.
  change ((a :: b :: t) !!! 0%nat) with a in H0. change ((a :: b :: t) !!! 1%nat) with b in H1.
  change ((a :: b :: t) !!! 22%nat) with (t !!! 20%nat) in H22. subst a b.
  destruct t as [|x h _] using rev_ind; [cbn in Hl; lia|]. rewrite length_app in Hl. cbn [length] in Hl.
  assert (length h = 20%nat) as Hh by lia. exists h. split; [done|]. rewrite p2sh_bytes by done.
  rewrite <- Hh, <- (Nat.add_0_r (length h)), lookup_total_past in H22. cbn in H22. by subst x.
Qed.

Lemma exec_equal script flags sv :
  exec_opcode be CheckLowS H checker script flags sv true OP_EQUAL = op_equal OP_EQUAL.
Proof. reflexivity. Qed.

(** The stacks from which the script ends with a true value on top: the top element
    has the hash. *)
Lemma p2sh_accepts flags h st0 st1 : length h = 20%nat ->
  eval be CheckLowS H checker st0 (p2sh_script h) flags SIGVERSION_BASE = Ok st1 /\ top_true st1 = true <->
  exists v st, st0 = v :: st /\ (length st <= 998)%nat /\ h_hash160 H v = h /\ st1 = vchTrue :: st.
Proof.
  intros Hh. destruct (push_h flags h Hh) as [Hp1 Hp2]. set (pre := [OP_HASH160] ++ asm1 be (IPush h)).
  assert (p2sh_script h = pre ++ asm be [IOp OP_EQUAL]) as E3 by (unfold pre, p2sh_script; by rewrite !asm_cons, <- app_assoc).
  assert (length (p2sh_script h) = 23)%nat as Hlen.
  { rewrite p2sh_bytes by done. cbn [length]. rewrite length_app. cbn. lia. }
  pose proof (fun st nop pb sf => run_op be CheckLowS H checker (p2sh_script h) flags SIGVERSION_BASE 22
    [] OP_HASH160 [IPush h; IOp OP_EQUAL] st [] nop pb sf eq_refl) as H1.
  pose proof (fun st nop pb sf => run_push be CheckLowS H checker (p2sh_script h) flags SIGVERSION_BASE 21
    [OP_HASH160] h [IOp OP_EQUAL] st [] nop pb sf eq_refl Hp1 Hp2) as H2.
  pose proof (fun st nop pb sf => run_op be CheckLowS H checker (p2sh_script h) flags SIGVERSION_BASE 20
    pre OP_EQUAL [] st [] nop pb sf E3) as H3.
  rewrite eval_success, Hlen. unfold initial. split.
  - intros [(_ & sf & Hr & _ & <-) Ht]. apply H1 in Hr as (s2 & Hx & _ & Hr); [|done..].
    rewrite exec_hash160 in Hx. apply op_hash160_inv in Hx as (v & st & -> & ->).
    apply H2 in Hr as [Hl Hr]. apply H3 in Hr as (s3 & Hx & _ & Hr); [|done..].
    rewrite exec_equal, op_equal_eq in Hx. injection Hx as <-. rewrite run_end in Hr by (cbn [pc]; by rewrite E3).
    injection Hr as <-. cbn [stack top_true] in Ht |- *. exists v, st. cbn [length] in Hl.
    case_bool_decide; [|done]. by split_and!; [|lia|..].
  - intros (v & st & -> & Hl & Hv & ->). split; [|done]. split; [done|]. eexists. split.
    + apply H1; [done..|]. eexists. split; [rewrite exec_hash160; apply op_hash160_eq|].
      split; [unfold within_limits; cbn; lia|]. apply H2. split; [cbn; lia|]. apply H3; [done..|].
      eexists. split; [by rewrite exec_equal, op_equal_eq|]. split; [unfold within_limits; cbn; lia|].
      apply run_end. cbn [pc]. by rewrite E3.
    + split; [done|]. cbn [stack]. by rewrite bool_decide_true.
Qed.

(** With nothing on the stack it fails at once. *)
Lemma p2sh_empty flags h : length h = 20%nat ->
  exists e, eval be CheckLowS H checker [] (p2sh_script h) flags SIGVERSION_BASE = Err (Return_false e).
Proof.
  intros Hh. exists SCRIPT_ERR_INVALID_STACK_OPERATION. unfold eval, EvalScript.
  assert (length (p2sh_script h) = 23)%nat as ->.
  { rewrite p2sh_bytes by done. cbn [length]. rewrite length_app. cbn. lia. }
  change (Z.of_nat 23 >? MAX_SCRIPT_SIZE) with false. cbv iota. unfold initial.
  change 23%nat with (1 + 22)%nat. change 0%nat with (@length Z []) at 1.
  rewrite (run_op_fail _ _ _ _ _ _ _ 22 [] OP_HASH160 [IPush h; IOp OP_EQUAL] _ _ _ _
    (Return_false SCRIPT_ERR_INVALID_STACK_OPERATION) (mkEval [] [] [] 1 1 0)); reflexivity || done.
Qed.
End p2sh.

Lemma IsPayToScriptHash_plain be s nVersion : nVersion <> NAMECOIN_TX_VERSION ->
  IsPayToScriptHash be s nVersion = Ok (CScript.IsPayToScriptHashInner s).
Proof. intros Hv. unfold IsPayToScriptHash. rewrite (proj2 (Z.eqb_neq _ _) Hv). by rewrite andb_false_r. Qed.

Lemma IsWitnessProgram_plain be s nVersion : nVersion <> NAMECOIN_TX_VERSION ->
  IsWitnessProgram be s nVersion = Ok (CScript.IsWitnessProgramInner s).
Proof.
  intros Hv. unfold IsWitnessProgram. rewrite (proj2 (Z.eqb_neq _ _) Hv). by destruct (CScript.IsWitnessProgramInner s).
Qed.

Lemma resize1_single st : exists v, resize1 st = [v].
Proof. unfold resize1. destruct (last st) as [v|]; by eexists. Qed.

(** The rules for the redeem script, with those at the end. *)
Lemma verify_p2sh_rules be CheckLowS H checker scriptSig witness fl redeem st : flags_consistent fl ->
  ('(stack, hadWitness) ← verify_p2sh be CheckLowS H checker scriptSig witness fl (redeem :: st) false;
   _ ← (if flag_set fl SCRIPT_VERIFY_CLEANSTACK then
          _ ← assert (flag_set fl SCRIPT_VERIFY_P2SH);
          _ ← assert (flag_set fl SCRIPT_VERIFY_WITNESS);
          ensure (Z.of_nat (length stack) =? 1) SCRIPT_ERR_CLEANSTACK
        else Ok tt);
   if flag_set fl SCRIPT_VERIFY_WITNESS then
     _ ← assert (flag_set fl SCRIPT_VERIFY_P2SH);
     ensure (negb (negb hadWitness && negb (Z.of_nat (length witness) =? 0))) SCRIPT_ERR_WITNESS_UNEXPECTED
   else Ok tt) = Ok tt <->
  CScript.IsPushOnly be scriptSig = true /\
  exists st', eval be CheckLowS H checker st redeem fl SIGVERSION_BASE = Ok st' /\ top_true st' = true /\
    (flag_set fl SCRIPT_VERIFY_WITNESS = true ->
     match CScript.IsWitnessProgramInner redeem with
     | Some (version, program) =>
         scriptSig = CScript.push_vch be [] redeem /\
         VerifyWitnessProgram be CheckLowS H checker witness version program fl = Ok tt
     | None => witness = [] /\ (flag_set fl SCRIPT_VERIFY_CLEANSTACK = true -> length st' = 1%nat)
     end).
Proof.
  intros Hcons. unfold verify_p2sh. destruct (CScript.IsPushOnly be scriptSig); cbn [ensure mbind result_bind].
  2: { split; [done|by intros [? _]]. }
  destruct (eval be CheckLowS H checker st redeem fl SIGVERSION_BASE) as [st'|f]; cbn [mbind result_bind].
  2: { split; [done|by intros (_ & ? & ? & _)]. }
  transitivity (top_true st' = true /\
    (flag_set fl SCRIPT_VERIFY_WITNESS = true ->
     match CScript.IsWitnessProgramInner redeem with
     | Some (version, program) =>
         scriptSig = CScript.push_vch be [] redeem /\
         VerifyWitnessProgram be CheckLowS H checker witness version program fl = Ok tt
     | None => witness = [] /\ (flag_set fl SCRIPT_VERIFY_CLEANSTACK = true -> length st' = 1%nat)
     end)).
  2: { split; [intros [? ?]; split; [done|]; by exists st'|]. by intros (_ & ? & [= <-] & ?). }
  destruct (top_true st') eqn:Et; cbn [ensure mbind result_bind]; [|by split; [done|intros [? _]]].
  destruct st' as [|v st']; [done|]. rewrite IsWitnessProgram_plain by done.
  assert (length (v :: st') = 1%nat <-> st' = []) as Hone.
  { destruct st'; cbn; (split; [|done]); done || lia. }
  generalize (fun v st had => final_rules fl v st had witness Hcons). destruct Hcons as [Hcw _].
  destruct (flag_set fl SCRIPT_VERIFY_WITNESS); cbn [thrown mbind result_bind]; intros Hfin.
  2: { rewrite (Hfin v st' false). split; [done|]. intros _. split; [|done]. intros Hc. discriminate (Hcw Hc). }
  destruct (CScript.IsWitnessProgramInner redeem) as [[version program]|]; cbn [mbind result_bind].
  - case_bool_decide as Es; cbn [ensure mbind result_bind].
    2: { split; [done|]. intros [_ Hw]. by destruct (Hw eq_refl). }
    destruct (VerifyWitnessProgram _ _ _ _ _ _ _ _) as [[]|f]; cbn [mbind result_bind].
    2: { split; [done|]. intros [_ Hw]. by destruct (Hw eq_refl). }
    destruct (resize1_single (v :: st')) as [w ->]. by rewrite Hfin.
  - rewrite Hfin, Hone. split.
    + intros [? ?]. split; [done|]. intros _. split; [auto|done].
    + intros [_ Hw]. destruct (Hw eq_refl). split; [done|]. by intros _ _.
Qed.

(** C34: paying to a script hash.  With the P2SH rule in force, an output
    [HASH160 <h> EQUAL] is spent by a script and a witness exactly when the script only
    pushes, the last element it pushes hashes to [h], with at most 998 elements below it
    (so that the size limit is kept), and this element, run as a script on the
    others, succeeds with a true value on top.  With the witness rules in force
    moreover: if the redeem script is a witness program, the spending script is the one
    push of it and the witness satisfies the program; if not, the witness is empty and,
    under the clean stack rule, the true value is all that is left.  This holds for
    every spending script, every witness, every consistent combination of flags with
    P2SH and every transaction version. *)
Theorem p2sh_spend (be : bool) (CheckLowS : list Z -> bool) (H : Hashers) (checker : SignatureChecker)
    (scriptSig h : list Z) (witness : list valtype) (nVersion flags : Z) :
  let fl := effective_flags nVersion flags in
  length h = 20%nat -> flags_consistent fl -> flag_set fl SCRIPT_VERIFY_P2SH = true ->
  VerifyScript be CheckLowS H checker scriptSig (p2sh_script be h) nVersion witness flags = Ok tt <->
  CScript.IsPushOnly be scriptSig = true /\
  exists redeem st st',
    eval be CheckLowS H checker [] scriptSig fl SIGVERSION_BASE = Ok (redeem :: st) /\
    (length st <= 998)%nat /\ h_hash160 H redeem = h /\
    eval be CheckLowS H checker st redeem fl SIGVERSION_BASE = Ok st' /\ top_true st' = true /\
    (flag_set fl SCRIPT_VERIFY_WITNESS = true ->
     match CScript.IsWitnessProgramInner redeem with
     | Some (version, program) =>
         scriptSig = CScript.push_vch be [] redeem /\
         VerifyWitnessProgram be CheckLowS H checker witness version program fl = Ok tt
     | None => witness = [] /\ (flag_set fl SCRIPT_VERIFY_CLEANSTACK = true -> length st' = 1%nat)
     end).
Proof.
  intros fl Hh Hcons Hp. unfold VerifyScript. fold (effective_flags nVersion flags). fold fl.
  rewrite (p2sh_bytes be h Hh), IsWitnessProgram_opcode, <- (p2sh_bytes be h Hh) by done.
  assert (forall v, IsPayToScriptHash be (p2sh_script be h) v = Ok true) as Hpay.
  { intros v. unfold IsPayToScriptHash. by rewrite p2sh_inner. }
  rewrite !Hpay, Hp. clear Hpay. rewrite ensure_bind, push_only_rule.
  destruct (eval be CheckLowS H checker [] scriptSig fl SIGVERSION_BASE) as [st0|f]; cbn [mbind result_bind].
  2: { split; [by intros []|]. by intros (_ & ? & ? & ? & ? & _). }
  pose proof (p2sh_accepts be CheckLowS H checker fl h st0) as Hacc.
  destruct (eval be CheckLowS H checker st0 (p2sh_script be h) fl SIGVERSION_BASE) as [st1|f]; cbn [mbind result_bind].
  2: { split; [by intros []|]. intros (_ & redeem & st & ? & [= ->] & Hl & Hx & _).
       destruct (proj2 (Hacc (vchTrue :: st) Hh)) as [? _]; [|done]. by exists redeem, st. }
  rewrite ensure_bind. destruct (top_true st1) eqn:Et.
  2: { split; [by intros (_ & ? & _)|]. intros (_ & redeem & st & ? & [= ->] & Hl & Hx & _).
       destruct (proj2 (Hacc (vchTrue :: st) Hh)) as [[= ->] _]; [|done]. by exists redeem, st. }
  destruct (proj1 (Hacc st1 Hh) (conj eq_refl Et)) as (redeem & st & -> & Hl & Hx & ->). clear Hacc Et.
  head_is (vchTrue :: st, false). head_is true. cbn [andb].
  pose proof (verify_p2sh_rules be CheckLowS H checker scriptSig witness fl redeem st Hcons) as Hrules.
  rewrite Hp in Hrules. rewrite Hrules. clear Hrules. split.
  - intros (_ & _ & Hpush & st' & He & Ht & Hw). split; [done|]. by exists redeem, st, st'.
  - intros (Hpush & ? & ? & st' & [= <- <-] & _ & _ & He & Ht & Hw). split; [done|]. split; [done|].
    split; [done|]. by exists st'.
Qed.

(** The redeem script [1], pushed by the spender, with all the rules in force. *)
Lemma p2sh_spend_witness :
  VerifyScript false (fun _ => true) sample_hashers sample_checker
    (asm false [IPush [OP_1]]) (p2sh_script false sample_h) 1 []
    (Z.lor SCRIPT_VERIFY_P2SH (Z.lor SCRIPT_VERIFY_WITNESS SCRIPT_VERIFY_CLEANSTACK)) = Ok tt.
Proof.
  refine (proj2 (p2sh_spend false (fun _ => true) sample_hashers sample_checker (asm false [IPush [OP_1]])
    sample_h [] 1 (Z.lor SCRIPT_VERIFY_P2SH (Z.lor SCRIPT_VERIFY_WITNESS SCRIPT_VERIFY_CLEANSTACK)) _ _ _) _);
    [reflexivity|split; reflexivity|reflexivity|].
  split; [reflexivity|]. exists [OP_1], [], [[1]]. split; [vm_compute; reflexivity|]. split; [cbn; lia|].
  split; [reflexivity|]. split; [vm_compute; reflexivity|]. split; [reflexivity|]. intros _. split; reflexivity.
Defined.

(** ** When verification can go wrong *)

Section safety.
Context (be : bool) (CheckLowS : list Z -> bool) (H : Hashers) (checker : SignatureChecker).
Context (HH : hashers_ok H).

(** The function returns: no exception leaves it, no [assert] fails. *)
Definition returns {A} (r : result failure A) : Prop :=
  match r with Ok _ => True | Err (Return_false _) => True | Err _ => False end.

Lemma returns_bind {A B} (r : result failure A) (f : A -> result failure B) :
  returns r -> (forall a, r = Ok a -> returns (f a)) -> returns (r ≫= f).
Proof. destruct r as [a|[]]; cbn; auto. Qed.

Lemma returns_ensure b e : returns (ensure b e).
Proof. by destruct b. Qed.

Lemma eval_ok st script flags sv : Forall is_byte script -> stack_wf st ->
  returns (eval be CheckLowS H checker st script flags sv) /\
  forall st', eval be CheckLowS H checker st script flags sv = Ok st' -> stack_wf st'.
Proof.
  intros Hs Hst. pose proof (EvalScript_ok be CheckLowS H checker script flags sv HH Hs st Hst) as Hok.
  unfold eval. destruct (EvalScript _ _ _ _ _ _ _ _) as [[[]|f] st'].
  - split; [done|]. intros ? [= <-]. apply Hok.
  - split; [by destruct f|done].
Qed.

Definition witness_wf (witness : list valtype) : Prop :=
  Forall (Forall is_byte) witness /\ Z.of_nat (length witness) < 2 ^ 62.

Lemma sized_elems_ok st : Forall (Forall is_byte) st -> Z.of_nat (length st) < 2 ^ 62 ->
  forallb (fun v : valtype => negb (Z.of_nat (length v) >? MAX_SCRIPT_ELEMENT_SIZE)) st = true -> stack_wf st.
Proof.
  intros Hb Hl Hs. split; [|done]. rewrite forallb_forall in Hs. apply Forall_forall. intros v Hv.
  split; [by apply (proj1 (Forall_forall _ _) Hb)|]. apply list_elem_of_In, Hs in Hv.
  rewrite Z.gtb_ltb in Hv. by apply negb_true_iff, Z.ltb_ge in Hv.
Qed.

Lemma witness_program_returns witness v program flags : witness_wf witness -> Forall is_byte program ->
  returns (VerifyWitnessProgram be CheckLowS H checker witness v program flags).
Proof.
  intros [Hw Hn] Hp. unfold VerifyWitnessProgram. destruct (v =? 0); [|by destruct (flag_set _ _)].
  apply returns_bind.
  { destruct (_ =? 32); [|destruct (_ =? 20); [destruct (negb _)|]; done].
    destruct (last witness); [|done]. by case_bool_decide. }
  intros [script st] Er.
  assert (Forall is_byte script /\ Forall (Forall is_byte) st /\ Z.of_nat (length st) < 2 ^ 62) as (Hs & Hst & Hl).
  { destruct (_ =? 32).
    - destruct (last witness) as [s|] eqn:El; [|done]. case_bool_decide; [|done]. injection Er as <- <-.
      apply last_Some in El as [w ->]. apply Forall_app in Hw as [Hw [Hs _]%Forall_cons].
      rewrite length_app in *. cbn [length] in *. rewrite Nat.add_sub, take_app_length.
      split_and!; [done|by apply Forall_reverse|rewrite length_reverse; lia].
    - destruct (_ =? 20) eqn:E20; [|done]. destruct (negb _); [done|]. injection Er as <- <-.
      split_and!; [|by apply Forall_reverse|by rewrite length_reverse].
      rewrite push_vch_app, <- app_assoc. apply Z.eqb_eq in E20. unfold CScript.push_vch.
      rewrite E20. change (20 <? OP_PUSHDATA1) with true. cbv iota.
      apply Forall_app. split; [by_decide|]. apply Forall_app. split; [|by_decide].
      apply Forall_app. split; [by_decide|done]. }
  apply returns_bind; [apply returns_ensure|]. intros [] Hsz.
  assert (stack_wf st) as Hwf by (apply sized_elems_ok; [done|done|by destruct (forallb _ _)]).
  apply returns_bind; [by apply eval_ok|]. intros st' _. apply returns_bind; [apply returns_ensure|].
  intros _ _. apply returns_ensure.
Qed.

Lemma witness_program_bytes s v program : Forall is_byte s ->
  CScript.IsWitnessProgramInner s = Some (v, program) -> Forall is_byte program.
Proof.
  intros Hs. unfold CScript.IsWitnessProgramInner. destruct (_ || _); [done|]. destruct (_ && _); [done|].
  destruct (_ =? _); [|done]. destruct (CScript.DecodeOP_N _); [|done]. intros [= _ <-]. by apply Forall_drop.
Qed.

Lemma p2sh_returns scriptSig witness flags pubKey2 st had : witness_wf witness ->
  stack_wf (pubKey2 :: st) ->
  returns (verify_p2sh be CheckLowS H checker scriptSig witness flags (pubKey2 :: st) had).
Proof.
  intros Hw [[[Hb _] Hst]%Forall_cons Hl]. cbn [length] in Hl. unfold verify_p2sh.
  apply returns_bind; [apply returns_ensure|]. intros _ _.
  apply returns_bind; [apply eval_ok; [done|split; [done|lia]]|]. intros st' _.
  apply returns_bind; [apply returns_ensure|]. intros _ _. destruct (flag_set _ _); [|done].
  rewrite IsWitnessProgram_plain by done. cbn [thrown mbind result_bind].
  destruct (CScript.IsWitnessProgramInner pubKey2) as [[v program]|] eqn:Ep; [|done].
  apply returns_bind; [apply returns_ensure|]. intros _ _. apply returns_bind; [|done].
  apply witness_program_returns; [done|]. by apply (witness_program_bytes pubKey2 v).
Qed.

Lemma VerifyScript_returns scriptSig scriptPubKey nVersion witness flags :
  nVersion <> NAMECOIN_TX_VERSION -> flags_consistent flags ->
  Forall is_byte scriptSig -> Forall is_byte scriptPubKey -> witness_wf witness ->
  returns (VerifyScript be CheckLowS H checker scriptSig scriptPubKey nVersion witness flags).
Proof.
  intros Hv [Hcw Hwp] Hs Hk Hw. unfold VerifyScript. rewrite (proj2 (Z.eqb_neq _ _) Hv).
  apply returns_bind; [apply returns_ensure|]. intros _ _.
  assert (stack_wf []) as Hnil by (split; [constructor|done]).
  apply returns_bind; [by apply eval_ok|]. intros st1 E1.
  assert (stack_wf st1) as Hst1 by (by apply (eval_ok [] scriptSig flags SIGVERSION_BASE)).
  apply returns_bind; [by apply eval_ok|]. intros st2 E2.
  apply returns_bind; [apply returns_ensure|]. intros _ _.
  rewrite IsWitnessProgram_plain, !IsPayToScriptHash_plain by done.
  apply returns_bind.
  { destruct (flag_set flags SCRIPT_VERIFY_WITNESS); [|done]. cbn [thrown mbind result_bind].
    destruct (CScript.IsWitnessProgramInner scriptPubKey) as [[v program]|] eqn:Ep; [|done].
    apply returns_bind; [apply returns_ensure|]. intros _ _. apply returns_bind; [|done].
    apply witness_program_returns; [done|]. by apply (witness_program_bytes scriptPubKey v). }
  intros [st3 had] _.
  replace (thrown (if flag_set flags SCRIPT_VERIFY_WITNESS then Ok (CScript.IsPayToScriptHashInner scriptPubKey)
    else Ok (CScript.IsPayToScriptHashInner scriptPubKey))) with
    (Ok (E := failure) (CScript.IsPayToScriptHashInner scriptPubKey)) by (by destruct (flag_set flags SCRIPT_VERIFY_WITNESS)).
  cbn [mbind result_bind]. apply returns_bind.
  { destruct (flag_set flags SCRIPT_VERIFY_P2SH); [|done].
    destruct (CScript.IsPayToScriptHashInner scriptPubKey) eqn:Ei; [|done]. cbn [andb].
    destruct st1 as [|pubKey2 st1]; [|by apply p2sh_returns]. exfalso.
    destruct (p2sh_shape be scriptPubKey Ei) as (h & Hh & ->).
    destruct (p2sh_empty be CheckLowS H checker flags h Hh) as [e Ee]. congruence. }
  intros [st4 had'] _. destruct (flag_set flags SCRIPT_VERIFY_WITNESS).
  - rewrite (Hwp eq_refl). destruct (flag_set flags SCRIPT_VERIFY_CLEANSTACK); cbn [assert mbind result_bind];
      [apply returns_bind; [apply returns_ensure|intros _ _]|]; apply returns_ensure.
  - destruct (flag_set flags SCRIPT_VERIFY_CLEANSTACK); [discriminate (Hcw eq_refl)|done].
Qed.
End safety.

(** C7: verification is safe for ordinary transactions.  When the version is not that of
    a name transaction and the flags are among the combinations the code asserts,
    [VerifyScript] returns true or false with an error code, whatever the scripts and
    the witness: no exception leaves it and none of its assertions fails, in
    particular not the one that the stack of a spend-to-script-hash is not empty. *)
Theorem VerifyScript_safe (be : bool) (CheckLowS : list Z -> bool) (H : Hashers) (checker : SignatureChecker)
    (scriptSig scriptPubKey : list Z) (witness : list valtype) (nVersion flags : Z) :
  hashers_ok H -> nVersion <> NAMECOIN_TX_VERSION -> flags_consistent flags ->
  Forall is_byte scriptSig -> Forall is_byte scriptPubKey -> witness_wf witness ->
  VerifyScript be CheckLowS H checker scriptSig scriptPubKey nVersion witness flags = Ok tt \/
  exists e, VerifyScript be CheckLowS H checker scriptSig scriptPubKey nVersion witness flags = Err (Return_false e).
Proof.
  intros HH Hv Hf Hs Hk Hw.
  pose proof (VerifyScript_returns be CheckLowS H checker HH scriptSig scriptPubKey nVersion witness flags Hv Hf Hs Hk Hw) as Hr.
  destruct (VerifyScript _ _ _ _ _ _ _ _ _) as [[]|[e|x| |]]; [by left|by right; exists e|done..].
Qed.

Lemma VerifyScript_safe_witness :
  VerifyScript false (fun _ => true) sample_hashers sample_checker [] (p2sh_script false sample_h) 1 [[1]]
    (Z.lor SCRIPT_VERIFY_P2SH SCRIPT_VERIFY_WITNESS) = Ok tt \/
  exists e, VerifyScript false (fun _ => true) sample_hashers sample_checker [] (p2sh_script false sample_h) 1 [[1]]
    (Z.lor SCRIPT_VERIFY_P2SH SCRIPT_VERIFY_WITNESS) = Err (Return_false e).
Proof.
  refine (VerifyScript_safe false (fun _ => true) sample_hashers sample_checker [] (p2sh_script false sample_h) [[1]] 1
    (Z.lor SCRIPT_VERIFY_P2SH SCRIPT_VERIFY_WITNESS) sample_hashers_ok _ _ _ _ _).
  - discriminate.
  - split; reflexivity.
  - constructor.
  - by_decide.
  - split; [by_decide|cbn; lia].
Defined.

(** A name-prefixed script of which [RemoveNameScriptPrefix] cuts off part of an operand:
    [NAME_NEW DROP <a> <5> 2DROP <b> DROP <x> <x> EQUAL], where [x] is 20 bytes long and
    ends with the byte of [OP_HASH160].  What is left looks like a spend-to-script-hash. *)
Definition crash_hash : list Z := replicate 19 7 ++ [OP_HASH160].
Definition crash_script (be : bool) : list Z :=
  asm be [IOp OP_1; IOp OP_DROP; IPush [97]; IPush [5]; IOp OP_2DROP; IPush [98]; IOp OP_DROP;
          IPush crash_hash; IPush crash_hash; IOp OP_EQUAL].

(** A name script whose number of days has five bytes. *)
Definition throw_script (be : bool) : list Z :=
  asm be [IOp OP_1; IOp OP_DROP; IPush [97]; IPush [1; 2; 3; 4; 5]; IOp OP_2DROP].

(** Verification is not safe for name transactions.  With the version of a name
    transaction and the flags after the V7 fork there is an output script that, spent
    with an empty script, makes [assert(!stack.empty())] fail, and one that makes the
    exception of a script number leave the function; the same scripts are merely
    evaluated under any other version. *)
Theorem VerifyScript_name_unsafe (be : bool) (CheckLowS : list Z -> bool) (H : Hashers) (checker : SignatureChecker) :
  let flags := Z.lor SCRIPT_VERIFY_P2SH SCRIPT_VERIFY_WITNESS in
  let verify := VerifyScript be CheckLowS H checker in
  verify [] (crash_script be) NAMECOIN_TX_VERSION [] flags = Err Undefined /\
  verify [] (crash_script be) 1 [] flags = Ok tt /\
  verify [OP_1] (throw_script be) NAMECOIN_TX_VERSION [] flags = Err (Throw (scriptnum script_number_overflow)) /\
  verify [OP_1] (throw_script be) 1 [] flags = Ok tt.
Proof. destruct be; split_and!; vm_compute; reflexivity. Qed.

(** ** Counting signature operations terminates *)

Lemma last_data_push_only be fuel s pc data :
  CScript.IsPushOnly_loop be fuel s pc = true -> exists d, last_data be fuel s pc data = Ok d.
Proof.
  revert pc data. induction fuel as [|fuel IH]; intros pc data; cbn [CScript.IsPushOnly_loop last_data].
  - destruct (pc <? length s)%nat; [done|]. by exists data.
  - destruct (pc <? length s)%nat; [|by exists data].
    destruct (CScript.GetOp2 be s pc) as [[[ok o] v] pc']. destruct ok; cbn [negb]; [|done].
    destruct (o >? OP_16); [done|]. apply IH.
Qed.

(** Counting the signature operations of a witness ends.  The loop that looks for
    the last push of the spending script ignores the result of [GetOp], but it only
    runs on scripts that [IsPushOnly] has accepted: it reads every byte once, and
    outside name transactions the count is a number. *)
Theorem CountWitnessSigOps_terminates (be : bool) (scriptSig scriptPubKey : list Z) (witness : list valtype)
    (flags nVersion : Z) :
  nVersion <> NAMECOIN_TX_VERSION -> flags_consistent flags ->
  CountWitnessSigOps be scriptSig scriptPubKey witness flags nVersion <> Err Out_of_fuel /\
  (CScript.IsPushOnly be scriptSig = true -> exists d, last_data be (length scriptSig) scriptSig 0 [] = Ok d).
Proof.
  intros Hv [_ Hwp]. split; [|apply last_data_push_only].
  unfold CountWitnessSigOps. destruct (flag_set flags SCRIPT_VERIFY_WITNESS); [|done]. rewrite (Hwp eq_refl).
  rewrite IsWitnessProgram_plain, IsPayToScriptHash_plain by done. cbn [negb assert thrown mbind result_bind].
  assert (forall v p, counted (WitnessSigOps be v p witness) <> Err Out_of_fuel) as Hc
    by (intros v p; by destruct (WitnessSigOps be v p witness)).
  destruct (CScript.IsWitnessProgramInner scriptPubKey) as [[v p]|]; [apply Hc|].
  destruct (_ && _) eqn:E; [|done]. apply andb_prop in E as [_ E].
  destruct (last_data_push_only be (length scriptSig) scriptSig 0 [] E) as [d ->]. cbn [mbind result_bind].
  rewrite IsWitnessProgram_plain by done. cbn [thrown mbind result_bind].
  by destruct (CScript.IsWitnessProgramInner d) as [[v p]|].
Qed.

Lemma CountWitnessSigOps_terminates_witness :
  CountWitnessSigOps false (asm false [IPush ([OP_0; 20] ++ sample_h)]) (p2sh_script false sample_h) []
    (Z.lor SCRIPT_VERIFY_P2SH SCRIPT_VERIFY_WITNESS) 1 <> Err Out_of_fuel.
Proof.
  refine (proj1 (CountWitnessSigOps_terminates false (asm false [IPush ([OP_0; 20] ++ sample_h)])
    (p2sh_script false sample_h) [] (Z.lor SCRIPT_VERIFY_P2SH SCRIPT_VERIFY_WITNESS) 1 _ _)).
  - discriminate.
  - split; reflexivity.
Defined.
