(* ===== verification/LockTime.v ===== *)
(** * LockTime: absolute and relative lock times

    Models [IsFinalTx], [CalculateSequenceLocks], [EvaluateSequenceLocks] and
    [SequenceLocks] of [src/src/validation.cpp], and shows what the script operations
    [OP_CHECKLOCKTIMEVERIFY] and [OP_CHECKSEQUENCEVERIFY] achieve together with these
    rules of consensus.  Blocks live in the heap of [Chain]. *)
From S2P Require Import Prelude Uint256 Serialize Transaction Chain Script Interpreter InterpreterFacts SigHash.

Definition LOCKTIME_VERIFY_SEQUENCE : Z := Z.shiftl 1 0.
Definition LOCKTIME_MEDIAN_TIME_PAST : Z := Z.shiftl 1 1.
Definition SEQUENCE_LOCKTIME_GRANULARITY : Z := 9.

Definition IsFinalTx (tx : CTransaction) (nBlockHeight nBlockTime : Z) : bool :=
  if nLockTime tx =? 0 then true
  else if nLockTime tx <? (if nLockTime tx <? LOCKTIME_THRESHOLD then nBlockHeight else nBlockTime) then true
  else forallb (fun i => CTxIn.nSequence i =? CTxIn.SEQUENCE_FINAL) (vin tx).

Section sequence.
Context (h : heap).

(** The loop over the inputs: minimal height and time, heights kept. *)
Fixpoint sequence_locks_loop (block : N) (ins : list CTxIn.t) (prevHeights : list Z)
    (nMinHeight nMinTime : Z) (kept : list Z) : result fault (Z * Z * list Z) :=
  match ins, prevHeights with
  | [], _ => Ok (nMinHeight, nMinTime, kept)
  | _, [] => Err assertion_failed
  | txin :: ins, nCoinHeight :: prevHeights =>
      if flag_set (CTxIn.nSequence txin) CTxIn.SEQUENCE_LOCKTIME_DISABLE_FLAG then
        sequence_locks_loop block ins prevHeights nMinHeight nMinTime (kept ++ [0])
      else if flag_set (CTxIn.nSequence txin) CTxIn.SEQUENCE_LOCKTIME_TYPE_FLAG then
        a ← GetAncestor h block (Z.max (nCoinHeight - 1) 0);
        match a with
        | None => Err null_deref
        | Some q =>
            nCoinTime ← GetMedianTimePast h q;
            let nMinTime := Z.max nMinTime
              (nCoinTime + u32 (Z.shiftl (Z.land (CTxIn.nSequence txin) CTxIn.SEQUENCE_LOCKTIME_MASK)
                                  SEQUENCE_LOCKTIME_GRANULARITY) - 1) in
            sequence_locks_loop block ins prevHeights nMinHeight nMinTime (kept ++ [nCoinHeight])
        end
      else
        let nMinHeight := Z.max nMinHeight
          (nCoinHeight + Z.land (CTxIn.nSequence txin) CTxIn.SEQUENCE_LOCKTIME_MASK - 1) in
        sequence_locks_loop block ins prevHeights nMinHeight nMinTime (kept ++ [nCoinHeight])
  end.

(** The pair of locks and the vector [prevHeights] afterwards. *)
Definition CalculateSequenceLocks (tx : CTransaction) (flags : Z) (prevHeights : list Z) (block : N)
    : result fault (Z * Z * list Z) :=
  if negb (length prevHeights =? length (vin tx))%nat then Err assertion_failed
  else
    let fEnforceBIP68 := (u32 (nVersion tx) >=? 2) && flag_set flags LOCKTIME_VERIFY_SEQUENCE in
    if negb fEnforceBIP68 then Ok (-1, -1, prevHeights)
    else sequence_locks_loop block (vin tx) prevHeights (-1) (-1) [].

Definition EvaluateSequenceLocks (block : N) (lockPair : Z * Z) : result fault bool :=
  b ← deref h block;
  match CBlockIndex.pprev b with
  | None => Err assertion_failed
  | Some prev =>
      nBlockTime ← GetMedianTimePast h prev;
      Ok (negb ((lockPair.1 >=? CBlockIndex.nHeight b) || (lockPair.2 >=? nBlockTime)))
  end.

Definition SequenceLocks (tx : CTransaction) (flags : Z) (prevHeights : list Z) (block : N)
    : result fault (bool * list Z) :=
  r ← CalculateSequenceLocks tx flags prevHeights block;
  let '(nMinHeight, nMinTime, prevHeights) := r in
  ok ← EvaluateSequenceLocks block (nMinHeight, nMinTime);
  Ok (ok, prevHeights).

End sequence.

(** ** What the operations tell about the top of the stack *)

Section operations.
Context (checker : SignatureChecker) (flags : Z).

Lemma M_bind_inv {A B} (m : M A) (f : A -> M B) s b s' : (m ≫= f) s = (Ok b, s') ->
  exists a s1, m s = (Ok a, s1) /\ f a s1 = (Ok b, s').
Proof. unfold mbind, M_bind. destruct (m s) as [[a|e] s1]; [eauto|done]. Qed.

Lemma require_inv b e s a s' : require b e s = (Ok a, s') -> b = true /\ s' = s.
Proof. destruct b; [|done]. by intros [= _ <-]. Qed.

Lemma need_inv k s a s' : need k s = (Ok a, s') -> k <= Z.of_nat (length (stack s)) /\ s' = s.
Proof.
  intros E. apply M_bind_inv in E as (n & s1 & [= <- <-] & E). apply require_inv in E as [E ->].
  apply negb_true_iff, Z.ltb_ge in E. done.
Qed.

Lemma script_num_inv v m k s n s' : script_num v m k s = (Ok n, s') -> CScriptNum.of_vch v m k = Ok n /\ s' = s.
Proof. unfold script_num. destruct (CScriptNum.of_vch v m k); [|done]. by intros [= <- <-]. Qed.

(** The common part: a non-negative number of at most five bytes is on top. *)
Lemma lock_number_inv (f : Z -> M unit) s s' :
  (need 1 ≫= fun _ => stacktop 1 ≫= fun top => script_num top (fRequireMinimal flags) 5 ≫= fun n =>
     require (negb (CScriptNum.op_lt n 0)) SCRIPT_ERR_NEGATIVE_LOCKTIME ≫= fun _ => f n) s = (Ok tt, s') ->
  exists v st n, stack s = v :: st /\ CScriptNum.of_vch v (fRequireMinimal flags) 5 = Ok n /\
    0 <= n /\ f n s = (Ok tt, s').
Proof.
  intros E. apply M_bind_inv in E as ([] & s1 & [Hl ->]%need_inv & E).
  destruct (stack s) as [|v st] eqn:Es; [cbn in Hl; lia|].
  apply M_bind_inv in E as (top & s1 & E1 & E). rewrite (stacktop_lookup 1 s v) in E1 by (done || by rewrite Es).
  injection E1 as <- <-. apply M_bind_inv in E as (n & s1 & [En ->]%script_num_inv & E).
  apply M_bind_inv in E as ([] & s1 & [Hn ->]%require_inv & E). apply negb_true_iff, Z.ltb_ge in Hn.
  by exists v, st, n.
Qed.

Lemma op_cltv_inv s s' : flag flags SCRIPT_VERIFY_CHECKLOCKTIMEVERIFY = true ->
  op_checklocktimeverify checker flags s = (Ok tt, s') ->
  exists v st n, stack s = v :: st /\ CScriptNum.of_vch v (fRequireMinimal flags) 5 = Ok n /\
    0 <= n /\ CheckLockTime checker n = true /\ s' = s.
Proof.
  intros Hf. unfold op_checklocktimeverify. rewrite Hf. cbn [negb].
  intros (v & st & n & H1 & H2 & H3 & [H4 H5]%require_inv)%lock_number_inv. by exists v, st, n.
Qed.

Lemma op_csv_inv s s' : flag flags SCRIPT_VERIFY_CHECKSEQUENCEVERIFY = true ->
  op_checksequenceverify checker flags s = (Ok tt, s') ->
  exists v st n, stack s = v :: st /\ CScriptNum.of_vch v (fRequireMinimal flags) 5 = Ok n /\
    0 <= n /\ (Z.land n CTxIn.SEQUENCE_LOCKTIME_DISABLE_FLAG <> 0 \/ CheckSequence checker n = true) /\ s' = s.
Proof.
  intros Hf. unfold op_checksequenceverify. rewrite Hf. cbn [negb].
  intros (v & st & n & H1 & H2 & H3 & E)%lock_number_inv. exists v, st, n. split_and!; try done.
  - unfold CScriptNum.op_ne, CScriptNum.op_and in E.
    destruct (Z.eqb_spec (Z.land n CTxIn.SEQUENCE_LOCKTIME_DISABLE_FLAG) 0) as [Ed|]; [|by left].
    cbn [negb] in E. apply require_inv in E as [E _]. by right.
  - destruct (CScriptNum.op_ne _ _); [by injection E as <-|by apply require_inv in E as [_ ?]].
Qed.
End operations.

(** C38: [OP_CHECKLOCKTIMEVERIFY] keeps a coin locked.  If the operation succeeds for an
    input of a transaction, with the number [n] on top of the stack, and the
    transaction is final in a block of some height and time, then that block comes
    after the lock: its height is above [n] when [n] is a height, its time is after
    [n] when [n] is a time (or [n] is zero). *)
Theorem checklocktimeverify_locks (be : bool) (Hash : list Z -> list Z) (Verify : list Z -> list Z -> list Z -> bool)
    (c : TransactionSignatureChecker) (flags : Z) (s s' : EvalState) (nBlockHeight nBlockTime : Z) :
  flag flags SCRIPT_VERIFY_CHECKLOCKTIMEVERIFY = true ->
  0 <= tsc_nIn c < Z.of_nat (length (vin (tsc_txTo c))) ->
  op_checklocktimeverify (transaction_checker be Hash Verify c) flags s = (Ok tt, s') ->
  IsFinalTx (tsc_txTo c) nBlockHeight nBlockTime = true ->
  exists v st n, stack s = v :: st /\ CScriptNum.of_vch v (fRequireMinimal flags) 5 = Ok n /\ 0 <= n /\
    (n = 0 \/ (n < LOCKTIME_THRESHOLD /\ n < nBlockHeight) \/ (LOCKTIME_THRESHOLD <= n /\ n < nBlockTime)).
Proof.
  intros Hf Hin E Hfin. apply op_cltv_inv in E as (v & st & n & Hs & Hn & H0 & Hc & _); [|done].
  exists v, st, n. split_and!; [done|done|done|]. cbn [transaction_checker CheckLockTime] in Hc.
  unfold tsc_CheckLockTime, CScriptNum.op_lt, CScriptNum.op_ge, CScriptNum.op_gt in Hc.
  destruct (_ || _) eqn:Ek; cbn [negb] in Hc; [|done]. rewrite Z.gtb_ltb in Hc.
  destruct (Z.ltb_spec (nLockTime (tsc_txTo c)) n); [done|].
  destruct (Z.eqb_spec CTxIn.SEQUENCE_FINAL (CTxIn.nSequence (vin_at (tsc_txTo c) (tsc_nIn c)))) as [|Hnf]; [done|].
  unfold IsFinalTx in Hfin. destruct (Z.eqb_spec (nLockTime (tsc_txTo c)) 0); [left; lia|]. right.
  destruct (Z.ltb_spec (nLockTime (tsc_txTo c)) (if nLockTime (tsc_txTo c) <? LOCKTIME_THRESHOLD then nBlockHeight else nBlockTime)) as [Hl|].
  - rewrite !Z.geb_leb in Ek. destruct (Z.ltb_spec (nLockTime (tsc_txTo c)) LOCKTIME_THRESHOLD); [left|right];
      repeat case_bool; cbn in Ek; done || lia.
  - exfalso. rewrite forallb_forall in Hfin. unfold vin_at in Hnf.
    destruct (lookup_lt_is_Some_2 (vin (tsc_txTo c)) (Z.to_nat (tsc_nIn c))) as [i Hi]; [lia|].
    rewrite Hi in Hnf. cbn in Hnf. apply list_elem_of_lookup_2, list_elem_of_In, Hfin in Hi. apply Z.eqb_eq in Hi. congruence.
Qed.

Section relative.
Context (h : heap).

(** Time-based flag and value of a sequence number. *)
Definition seq_is_time (n : Z) : bool := flag_set n CTxIn.SEQUENCE_LOCKTIME_TYPE_FLAG.
Definition seq_value (n : Z) : Z := Z.land n CTxIn.SEQUENCE_LOCKTIME_MASK.

Lemma seq_value_range n : 0 <= seq_value n < 2 ^ 16.
Proof.
  unfold seq_value. change CTxIn.SEQUENCE_LOCKTIME_MASK with (2 ^ 16 - 1). rewrite land_mask by lia.
  apply Z.mod_pos_bound. lia.
Qed.

Lemma seq_masked n : Z.land n (Z.lor CTxIn.SEQUENCE_LOCKTIME_TYPE_FLAG CTxIn.SEQUENCE_LOCKTIME_MASK) =
  (if seq_is_time n then 2 ^ 22 else 0) + seq_value n.
Proof.
  rewrite Z.land_lor_distr_r. unfold seq_is_time, flag_set.
  pose proof (seq_value_range n) as Hv. fold (seq_value n).
  change CTxIn.SEQUENCE_LOCKTIME_TYPE_FLAG with (2 ^ 22). rewrite land_pow2 by lia.
  destruct (Z.testbit n 22).
  - change (2 ^ 22 =? 0) with false. cbn [negb]. change (2 ^ 22) with (64 * 2 ^ 16).
    by rewrite lor_disjoint_add by lia.
  - by rewrite Z.lor_0_l.
Qed.

(** What the loop guarantees of every input. *)
Lemma sequence_locks_bound block ins heights mh mt kept mh' mt' kept' :
  sequence_locks_loop h block ins heights mh mt kept = Ok (mh', mt', kept') ->
  mh <= mh' /\ mt <= mt' /\
  forall j txin ht, ins !! j = Some txin -> heights !! j = Some ht ->
    flag_set (CTxIn.nSequence txin) CTxIn.SEQUENCE_LOCKTIME_DISABLE_FLAG = false ->
    if seq_is_time (CTxIn.nSequence txin)
    then exists q t, GetAncestor h block (Z.max (ht - 1) 0) = Ok (Some q) /\ GetMedianTimePast h q = Ok t /\
         t + 512 * seq_value (CTxIn.nSequence txin) - 1 <= mt'
    else ht + seq_value (CTxIn.nSequence txin) - 1 <= mh'.
Proof.
  revert heights mh mt kept. induction ins as [|i ins IH]; intros heights mh mt kept E.
  { cbn in E. injection E as -> -> _. split_and!; [lia|lia|]. by intros j txin ht. }
  destruct heights as [|ht0 heights]; [done|]. cbn [sequence_locks_loop] in E.
  destruct (flag_set (CTxIn.nSequence i) CTxIn.SEQUENCE_LOCKTIME_DISABLE_FLAG) eqn:Ed.
  { apply IH in E as (H1 & H2 & H3). split_and!; [done|done|].
    intros [|j] txin ht; cbn; [intros [= <-] _; by rewrite Ed|apply H3]. }
  fold (seq_is_time (CTxIn.nSequence i)) in E.
  destruct (seq_is_time (CTxIn.nSequence i)) eqn:Et.
  - destruct (GetAncestor h block (Z.max (ht0 - 1) 0)) as [[q|]|] eqn:Ea; cbn [mbind result_bind] in E; [|done|done].
    destruct (GetMedianTimePast h q) as [t|] eqn:Em; cbn [mbind result_bind] in E; [|done].
    fold (seq_value (CTxIn.nSequence i)) in E. unfold SEQUENCE_LOCKTIME_GRANULARITY in E.
    pose proof (seq_value_range (CTxIn.nSequence i)) as Hr.
    rewrite shiftl_mul, uwrap_small in E by (unfold is_u; lia). change (2 ^ 9) with 512 in E.
    apply IH in E as (H1 & H2 & H3). split_and!; [lia|lia|].
    intros [|j] txin ht; cbn; [|apply H3]. intros [= <-] [= <-] _. rewrite Et. exists q, t. split_and!; [done|done|lia].
  - fold (seq_value (CTxIn.nSequence i)) in E. apply IH in E as (H1 & H2 & H3). split_and!; [lia|lia|].
    intros [|j] txin ht; cbn; [|apply H3]. intros [= <-] [= <-] _. rewrite Et. lia.
Qed.
End relative.

(** C39: [OP_CHECKSEQUENCEVERIFY] keeps a coin locked relative to its age.  If the
    operation succeeds for an input, with a number [n] whose disable bit is clear on
    top of the stack, and the transaction passes the sequence locks of a block, then
    the block is old enough for [n]: at least [n & 0xffff] blocks above the height of
    the coin, or, when the type bit of [n] is set, the median time before the block is
    at least [512 * (n & 0xffff)] seconds after the median time before the coin. *)
Theorem checksequenceverify_locks (be : bool) (Hash : list Z -> list Z) (Verify : list Z -> list Z -> list Z -> bool)
    (h : heap) (c : TransactionSignatureChecker) (flags lockFlags : Z) (s s' : EvalState)
    (prevHeights kept : list Z) (coinHeight : Z) (block prev : N) (b : CBlockIndex.t) :
  flag flags SCRIPT_VERIFY_CHECKSEQUENCEVERIFY = true -> flag_set lockFlags LOCKTIME_VERIFY_SEQUENCE = true ->
  0 <= tsc_nIn c < Z.of_nat (length (vin (tsc_txTo c))) ->
  prevHeights !! Z.to_nat (tsc_nIn c) = Some coinHeight ->
  op_checksequenceverify (transaction_checker be Hash Verify c) flags s = (Ok tt, s') ->
  SequenceLocks h (tsc_txTo c) lockFlags prevHeights block = Ok (true, kept) ->
  h !! block = Some b -> CBlockIndex.pprev b = Some prev ->
  exists v st n, stack s = v :: st /\ CScriptNum.of_vch v (fRequireMinimal flags) 5 = Ok n /\ 0 <= n /\
    (Z.land n CTxIn.SEQUENCE_LOCKTIME_DISABLE_FLAG = 0 ->
     if seq_is_time n
     then exists q tCoin tPrev, GetAncestor h block (Z.max (coinHeight - 1) 0) = Ok (Some q) /\
          GetMedianTimePast h q = Ok tCoin /\ GetMedianTimePast h prev = Ok tPrev /\
          tCoin + 512 * seq_value n <= tPrev
     else coinHeight + seq_value n <= CBlockIndex.nHeight b).
Proof.
  intros Hf Hlf Hin Hph E Hsl Hb Hprev.
  apply op_csv_inv in E as (v & st & n & Hs & Hn & H0 & Hc & _); [|done].
  exists v, st, n. split_and!; [done|done|done|]. intros Hdis. destruct Hc as [|Hc]; [done|].
  cbn [transaction_checker CheckSequence] in Hc. unfold tsc_CheckSequence in Hc. cbv zeta in Hc.
  set (sq := CTxIn.nSequence (vin_at (tsc_txTo c) (tsc_nIn c))) in *.
  destruct (Z.ltb_spec (u32 (nVersion (tsc_txTo c))) 2); [done|].
  destruct (flag_set sq CTxIn.SEQUENCE_LOCKTIME_DISABLE_FLAG) eqn:Ed; [done|].
  unfold CScriptNum.op_and, CScriptNum.op_lt, CScriptNum.op_ge, CScriptNum.op_gt in Hc.
  rewrite !seq_masked, !Z.geb_leb, Z.gtb_ltb in Hc. change CTxIn.SEQUENCE_LOCKTIME_TYPE_FLAG with (2 ^ 22) in Hc.
  pose proof (seq_value_range sq) as Hr1. pose proof (seq_value_range n) as Hr2.
  assert (seq_is_time n = seq_is_time sq /\ seq_value n <= seq_value sq) as [Ek Hle].
  { destruct (seq_is_time n), (seq_is_time sq); repeat (case_bool; cbn in Hc; try done; try lia). }
  unfold SequenceLocks, CalculateSequenceLocks in Hsl. rewrite Hlf in Hsl.
  destruct (length prevHeights =? length (vin (tsc_txTo c)))%nat; cbn [negb] in Hsl; [|done].
  rewrite Z.geb_leb, (proj2 (Z.leb_le _ _)) in Hsl by done. cbn [andb negb] in Hsl.
  destruct (sequence_locks_loop _ _ _ _ _ _ _) as [[[mh mt] kp]|] eqn:El; cbn [mbind result_bind] in Hsl; [|done].
  unfold EvaluateSequenceLocks, deref in Hsl. rewrite Hb in Hsl. cbn [mbind result_bind] in Hsl. rewrite Hprev in Hsl.
  destruct (GetMedianTimePast h prev) as [tp|] eqn:Ep; cbn [mbind result_bind fst snd] in Hsl; [|done].
  injection Hsl as Hev _. apply negb_true_iff, orb_false_iff in Hev as [He1 He2].
  rewrite Z.geb_leb in He1, He2. apply Z.leb_gt in He1, He2.
  apply sequence_locks_bound in El as (_ & _ & Hall).
  destruct (lookup_lt_is_Some_2 (vin (tsc_txTo c)) (Z.to_nat (tsc_nIn c))) as [i Hi]; [lia|].
  assert (sq = CTxIn.nSequence i) as Esq by (unfold sq, vin_at; by rewrite Hi).
  specialize (Hall _ i coinHeight Hi Hph). rewrite <- Esq in Hall. specialize (Hall Ed). rewrite Ek.
  destruct (seq_is_time sq).
  - destruct Hall as (q & t & H1 & H2 & H3). exists q, t, tp. split_and!; [done|done|done|lia].
  - lia.
Qed.

(** A transaction locked to height 200 whose input waits for two blocks. *)
Definition sample_locked : CTransaction :=
  {| nVersion := 2; nTime := 1500000000;
     vin := [CTxIn.mk (COutPoint.mk (replicate 32 7) 1) [] 2 []];
     vout := [CTxOut.mk 5000 [0x6a]]; nLockTime := 200 |}.
Definition sample_locked_checker : TransactionSignatureChecker :=
  {| tsc_txTo := sample_locked; tsc_nIn := 0; tsc_amount := 0; tsc_txdata := None |}.

Lemma checklocktimeverify_locks_witness : exists v st n,
  stack (initial [[200; 0]]) = v :: st /\ CScriptNum.of_vch v false 5 = Ok n /\ 0 <= n /\
  (n = 0 \/ (n < LOCKTIME_THRESHOLD /\ n < 201) \/ (LOCKTIME_THRESHOLD <= n /\ n < 1600000000)).
Proof.
  refine (checklocktimeverify_locks false id (fun _ _ _ => true) sample_locked_checker
    SCRIPT_VERIFY_CHECKLOCKTIMEVERIFY (initial [[200; 0]]) (initial [[200; 0]]) 201 1600000000 _ _ _ _);
    [reflexivity|cbn; lia|vm_compute; reflexivity|vm_compute; reflexivity].
Defined.

Lemma checksequenceverify_locks_witness : exists v st n,
  stack (initial [[2]]) = v :: st /\ CScriptNum.of_vch v false 5 = Ok n /\ 0 <= n /\
  (Z.land n CTxIn.SEQUENCE_LOCKTIME_DISABLE_FLAG = 0 ->
   if seq_is_time n
   then exists q tCoin tPrev, GetAncestor sample_tree 3 (Z.max (1 - 1) 0) = Ok (Some q) /\
        GetMedianTimePast sample_tree q = Ok tCoin /\ GetMedianTimePast sample_tree 2 = Ok tPrev /\
        tCoin + 512 * seq_value n <= tPrev
   else 1 + seq_value n <= 3).
Proof.
  refine (checksequenceverify_locks false id (fun _ _ _ => true) sample_tree sample_locked_checker
    SCRIPT_VERIFY_CHECKSEQUENCEVERIFY LOCKTIME_VERIFY_SEQUENCE (initial [[2]]) (initial [[2]]) [1] [1] 1 3 2
    (sample_block (Some 2%N) (Some 1%N) 3 130) _ _ _ _ _ _ sample_tree_3 _);
    [reflexivity|reflexivity|cbn; lia|reflexivity|vm_compute; reflexivity|vm_compute; reflexivity|reflexivity].
Defined.
