(* ===== verification/Merkle.v ===== *)
(** * Merkle: Merkle trees over transaction ids

    Models [src/src/consensus/merkle.cpp]: the constant-space computation of root,
    branch and duplication flag, and the recomputation of a root from a branch.
    [Hash] is the double SHA-256 of a byte string ([src/src/hash.h]). *)
From S2P Require Import Prelude Uint256.

Section computation.
Context (Hash : list Z -> list Z).
Abbreviation uint256 := (list Z).

(** [CHash256().Write(a, 32).Write(b, 32).Finalize(...)], and [Hash] of two ranges. *)
Definition hash_pair (a b : uint256) : uint256 := Hash (a ++ b).

(** [pbranch] is whether a vector for the branch was passed. *)
Context (branchpos : Z) (pbranch : bool).

(** [count & (((uint32_t)1) << level)] *)
Definition bit_set (count : Z) (level : nat) : bool := negb (Z.land count (Z.shiftl 1 (Z.of_nat level)) =? 0).

(** The part of a round that is for the branch: the branch and [matchh] afterwards. *)
Definition extend_branch (inner_level h : uint256) (level : nat) (matchlevel : Z) (matchh : bool)
    (branch : list uint256) : list uint256 * bool :=
  if pbranch then
    if matchh then (branch ++ [inner_level], matchh)
    else if matchlevel =? Z.of_nat level then (branch ++ [h], true)
    else (branch, matchh)
  else (branch, matchh).

(** The loop [for (...; !(count & (1 << level)); level++)] that hashes [h] with the
    stored left siblings, and the second one of the final sweep, which does the same
    but for the flag.  Without fuel [level] is 32, where shift and array access are
    undefined: [None]. *)
Fixpoint combine (fuel level : nat) (count : Z) (inner : list uint256) (matchlevel : Z)
    (h : uint256) (matchh mutated : bool) (branch : list uint256)
    : option (nat * uint256 * bool * bool * list uint256) :=
  match fuel with
  | O => None
  | S fuel' =>
      if negb (bit_set count level) then
        let x := inner !!! level in
        let '(branch, matchh) := extend_branch x h level matchlevel matchh branch in
        combine fuel' (S level) count inner matchlevel (hash_pair x h) matchh (mutated || op_eq x h) branch
      else Some (level, h, matchh, mutated, branch)
  end.

Record progress : Type := mk_progress {
  inner : list uint256;
  matchlevel : Z;
  mutated : bool;
  branch : list uint256;
}.

(** [while (count < leaves.size())] *)
Fixpoint process (fuel : nat) (leaves : list uint256) (count : Z) (s : progress) : option (Z * progress) :=
  if count <? Z.of_nat (length leaves) then
    match fuel with
    | O => None
    | S fuel' =>
        let h := leaves !!! Z.to_nat count in
        let matchh := count =? branchpos in
        let count := u32 (count + 1) in
        match combine 32 0 count (inner s) (matchlevel s) h matchh (mutated s) (branch s) with
        | None => None
        | Some (level, h, matchh, mutated, branch) =>
            process fuel' leaves count
              (mk_progress (<[level := h]> (inner s)) (if matchh then Z.of_nat level else matchlevel s) mutated branch)
        end
    end
  else Some (count, s).

(** [while (!(count & (1 << level))) level++] *)
Fixpoint lowest_bit (fuel level : nat) (count : Z) : option nat :=
  match fuel with
  | O => None
  | S fuel' => if bit_set count level then Some level else lowest_bit fuel' (S level) count
  end.

(** [while (count != (1 << level))] *)
Fixpoint sweep (fuel : nat) (count : Z) (level : nat) (s : progress) (h : uint256) (matchh : bool)
    (branch : list uint256) : option (uint256 * list uint256) :=
  if count =? u32 (Z.shiftl 1 (Z.of_nat level)) then Some (h, branch)
  else
    match fuel with
    | O => None
    | S fuel' =>
        let branch := if pbranch && matchh then branch ++ [h] else branch in
        let h := hash_pair h h in
        let count := u32 (count + Z.shiftl 1 (Z.of_nat level)) in
        match combine (31 - level) (S level) count (inner s) (matchlevel s) h matchh false branch with
        | None => None
        | Some (level, h, matchh, _, branch) => sweep fuel' count level s h matchh branch
        end
    end.

(** Root, flag and branch. *)
Definition MerkleComputation (leaves : list uint256) : option (uint256 * bool * list uint256) :=
  if (length leaves =? 0)%nat then Some (SetNull 32, false, [])
  else
    '(count, s) ← process (length leaves) leaves 0 (mk_progress (replicate 32 (SetNull 32)) (-1) false []);
    level ← lowest_bit 32 0 count;
    let h := inner s !!! level in
    let matchh := matchlevel s =? Z.of_nat level in
    '(root, branch) ← sweep 32 count level s h matchh (branch s);
    Some (root, mutated s, branch).

End computation.

Section functions.
Context (Hash : list Z -> list Z).

Definition ComputeMerkleRoot (leaves : list (list Z)) : option (list Z * bool) :=
  '(root, mutated, _) ← MerkleComputation Hash (u32 (-1)) false leaves; Some (root, mutated).

Definition ComputeMerkleBranch (leaves : list (list Z)) (position : Z) : option (list (list Z)) :=
  '(_, _, br) ← MerkleComputation Hash position true leaves; Some br.

Fixpoint ComputeMerkleRootFromBranch (leaf : list Z) (vMerkleBranch : list (list Z)) (nIndex : Z) : list Z :=
  match vMerkleBranch with
  | [] => leaf
  | it :: rest =>
      let hash := if negb (Z.land nIndex 1 =? 0) then hash_pair Hash it leaf else hash_pair Hash leaf it in
      ComputeMerkleRootFromBranch hash rest (Z.shiftr nIndex 1)
  end.
End functions.

(** ** The tree *)

Section tree.
Context (Hash : list Z -> list Z).

(** The node at level [k] over a non-empty list of at most [2^k] leaves: when the right
    half is empty the left one is used twice. *)
Fixpoint node (k : nat) (l : list (list Z)) : list Z :=
  match k with
  | O => l !!! 0%nat
  | S k =>
      let a := node k (take (2 ^ k) l) in
      if decide (length l <= 2 ^ k)%nat then hash_pair Hash a a
      else hash_pair Hash a (node k (drop (2 ^ k) l))
  end.

(** The siblings on the way from a leaf up to level [k]. *)
Fixpoint path (k : nat) (l : list (list Z)) (pos : nat) : list (list Z) :=
  match k with
  | O => []
  | S k =>
      if decide (pos < 2 ^ k)%nat then
        path k (take (2 ^ k) l) pos ++
          [if decide (length l <= 2 ^ k)%nat then node k (take (2 ^ k) l) else node k (drop (2 ^ k) l)]
      else path k (drop (2 ^ k) l) (pos - 2 ^ k) ++ [node k (take (2 ^ k) l)]
  end.

(** The number of levels above [n] leaves. *)
Definition depth (n : nat) : nat := Nat.log2_up n.

Definition merkle_root (l : list (list Z)) : list Z :=
  if decide (l = []) then SetNull 32 else node (depth (length l)) l.

(** The leaves from [s] to [e]. *)
Definition seg (l : list (list Z)) (s e : nat) : list (list Z) := take (e - s) (drop s l).

(** Two complete sibling subtrees with the same hash. *)
Definition duplicated (l : list (list Z)) : Prop :=
  exists k i, ((2 * i + 2) * 2 ^ k <= length l)%nat /\
    node k (seg l (2 * i * 2 ^ k) ((2 * i + 1) * 2 ^ k)) =
    node k (seg l ((2 * i + 1) * 2 ^ k) ((2 * i + 2) * 2 ^ k)).
End tree.

(** ** Segments and bits *)

Section segments.
Context (Hash : list Z -> list Z).
Implicit Types (l : list (list Z)) (k s e m : nat).

Lemma length_seg l s e : (e <= length l)%nat -> length (seg l s e) = (e - s)%nat.
Proof. intros. unfold seg. rewrite length_take, length_drop. lia. Qed.

Lemma take_seg l s e n : (s + n <= e)%nat -> take n (seg l s e) = seg l s (s + n).
Proof. intros. unfold seg. rewrite take_take. f_equal. lia. Qed.

Lemma drop_seg l s e n : drop n (seg l s e) = seg l (s + n) e.
Proof. unfold seg. rewrite skipn_firstn_comm, drop_drop. f_equal. lia. Qed.

Lemma take_seg_all l s e n : (e <= s + n)%nat -> take n (seg l s e) = seg l s e.
Proof. intros. unfold seg. rewrite take_take. f_equal. lia. Qed.

Lemma seg_one l s : (s < length l)%nat -> seg l s (s + 1) = [l !!! s].
Proof.
  intros Hs. destruct (lookup_lt_is_Some_2 l s Hs) as [x Hx]. unfold seg.
  replace (s + 1 - s)%nat with 1%nat by lia. rewrite (drop_S _ x) by done. cbn.
  by rewrite (list_lookup_total_correct _ _ _ Hx), take_0.
Qed.

Lemma seg_all l : seg l 0 (length l) = l.
Proof. unfold seg. rewrite drop_0, Nat.sub_0_r. apply firstn_all. Qed.

(** A node over two segments, the left of which is complete. *)
Lemma node_pair l k s e : (s + 2 ^ k < e <= s + 2 * 2 ^ k)%nat -> (e <= length l)%nat ->
  node Hash (S k) (seg l s e) =
  hash_pair Hash (node Hash k (seg l s (s + 2 ^ k))) (node Hash k (seg l (s + 2 ^ k) e)).
Proof.
  intros He Hl. cbn [node]. rewrite length_seg by done.
  destruct (decide (e - s <= 2 ^ k)%nat); [lia|]. by rewrite take_seg, drop_seg by lia.
Qed.

Lemma node_single l k s e : (s < e <= s + 2 ^ k)%nat -> (e <= length l)%nat ->
  node Hash (S k) (seg l s e) = hash_pair Hash (node Hash k (seg l s e)) (node Hash k (seg l s e)).
Proof.
  intros He Hl. cbn [node]. rewrite length_seg by done.
  destruct (decide (e - s <= 2 ^ k)%nat); [|lia]. by rewrite take_seg_all by lia.
Qed.

Lemma path_left l k s e pos : (s + 2 ^ k < e <= s + 2 * 2 ^ k)%nat -> (e <= length l)%nat -> (pos < 2 ^ k)%nat ->
  path Hash (S k) (seg l s e) pos =
  path Hash k (seg l s (s + 2 ^ k)) pos ++ [node Hash k (seg l (s + 2 ^ k) e)].
Proof.
  intros He Hl Hp. cbn [path]. rewrite length_seg by done.
  destruct (decide (pos < 2 ^ k)%nat); [|lia]. destruct (decide (e - s <= 2 ^ k)%nat); [lia|].
  by rewrite take_seg, drop_seg by lia.
Qed.

Lemma path_right l k s e pos : (s + 2 ^ k < e <= s + 2 * 2 ^ k)%nat -> (e <= length l)%nat -> (2 ^ k <= pos)%nat ->
  path Hash (S k) (seg l s e) pos =
  path Hash k (seg l (s + 2 ^ k) e) (pos - 2 ^ k) ++ [node Hash k (seg l s (s + 2 ^ k))].
Proof.
  intros He Hl Hp. cbn [path]. destruct (decide (pos < 2 ^ k)%nat); [lia|].
  by rewrite take_seg, drop_seg by lia.
Qed.

Lemma path_single l k s e pos : (s < e <= s + 2 ^ k)%nat -> (e <= length l)%nat -> (pos < 2 ^ k)%nat ->
  path Hash (S k) (seg l s e) pos = path Hash k (seg l s e) pos ++ [node Hash k (seg l s e)].
Proof.
  intros He Hl Hp. cbn [path]. rewrite length_seg by done.
  destruct (decide (pos < 2 ^ k)%nat); [|lia]. destruct (decide (e - s <= 2 ^ k)%nat); [|lia].
  by rewrite take_seg_all by lia.
Qed.

(** The bit of a multiple of [2^k]. *)
Lemma bit_set_multiple m k : bit_set (Z.of_nat (m * 2 ^ k)) k = Nat.odd m.
Proof.
  unfold bit_set. rewrite shiftl_mul, Z.mul_1_l, land_pow2 by lia.
  assert (Z.testbit (Z.of_nat (m * 2 ^ k)) (Z.of_nat k) = Nat.odd m) as ->.
  { rewrite Nat2Z.inj_mul, Nat2Z.inj_pow, Z.mul_pow2_bits, Z.sub_diag by lia.
    rewrite Z.bit0_odd. destruct (Nat.Even_or_Odd m) as [[q ->]|[q ->]].
    - by rewrite Nat2Z.inj_mul, Z.odd_mul, Nat.odd_mul.
    - by rewrite Nat2Z.inj_add, Nat2Z.inj_mul, Z.odd_add, Z.odd_mul, Nat.odd_add, Nat.odd_mul. }
  destruct (Nat.odd m); [|done]. destruct (Z.eqb_spec (2 ^ Z.of_nat k) 0); [lia|done].
Qed.
End segments.

(** ** Correctness of the computation *)

Section correctness.
Context (Hash : list Z -> list Z) (branchpos : Z) (pbranch : bool).
Context (leaves : list (list Z)).
Abbreviation len := (length leaves).
Abbreviation nd k s e := (node Hash k (seg leaves s e)).

(** [m * 2^k] is [count]: when its bit [k] is not set, the left sibling of the node that
    ends there starts at [(m - 2) * 2^k]. *)
Definition siblings (c : nat) (k0 : nat) (P : nat -> nat -> Prop) : Prop :=
  forall k m, (k0 <= k)%nat -> (m * 2 ^ k = c)%nat -> Nat.odd m = false -> P k ((m - 2) * 2 ^ k)%nat.

(** The branch so far is that of the leaf [pos], which is under [seg s e]. *)
Definition follows (k s e : nat) (matchh : bool) (br br0 : list (list Z)) : Prop :=
  pbranch = true ->
  (matchh = true <-> Z.of_nat s <= branchpos < Z.of_nat e) /\
  if matchh then br = path Hash k (seg leaves s e) (Z.to_nat branchpos - s) else br = br0.

Lemma multiple_step m k : Nat.odd m = false -> (0 < m)%nat -> exists q, m = (2 * q + 2)%nat /\
  ((m * 2 ^ k = (q + 1) * 2 ^ S k)%nat /\ (m - 1) * 2 ^ k = (2 * q + 1) * 2 ^ k /\
   (m - 2) * 2 ^ k = 2 * q * 2 ^ k /\ (q + 1 - 1) * 2 ^ S k = 2 * q * 2 ^ k)%nat.
Proof.
  intros Ho Hm. destruct (Nat.Even_or_Odd m) as [[q ->]|[q ->]].
  - exists (q - 1)%nat. cbn [Nat.pow]. split_and!; [lia| |f_equal; lia|f_equal; lia|].
    + replace (q - 1 + 1)%nat with q by lia. lia.
    + replace (q - 1 + 1 - 1)%nat with (q - 1)%nat by lia. lia.
  - rewrite Nat.odd_add, Nat.odd_mul in Ho. done.
Qed.

(** The rounds that hash a node with its left siblings. *)
Lemma combine_spec fuel k m e inner ml h matchh mut br br0 :
  (k + fuel = 32)%nat -> (0 < m)%nat -> Z.of_nat (m * 2 ^ k) <= 2 ^ 31 ->
  ((m - 1) * 2 ^ k < e <= m * 2 ^ k)%nat -> (e <= len)%nat ->
  h = nd k ((m - 1) * 2 ^ k) e ->
  siblings (m * 2 ^ k) k (fun j s => inner !!! j = nd j s (s + 2 ^ j)) ->
  (pbranch = true -> siblings (m * 2 ^ k) k (fun j s =>
     (ml = Z.of_nat j <-> Z.of_nat s <= branchpos < Z.of_nat (s + 2 ^ j)) /\
     (ml = Z.of_nat j -> br0 = path Hash j (seg leaves s (s + 2 ^ j)) (Z.to_nat branchpos - s)))) ->
  follows k ((m - 1) * 2 ^ k) e matchh br br0 ->
  exists k' m' matchh' mut' br', (k <= k' < 32)%nat /\ Nat.odd m' = true /\ (m' * 2 ^ k' = m * 2 ^ k)%nat /\
    combine Hash pbranch fuel k (Z.of_nat (m * 2 ^ k)) inner ml h matchh mut br =
      Some (k', nd k' ((m' - 1) * 2 ^ k') e, matchh', mut', br') /\
    ((m' - 1) * 2 ^ k' <= (m - 1) * 2 ^ k)%nat /\
    (mut' = true <-> mut = true \/ exists j i, (k <= j < k')%nat /\ ((2 * i + 2) * 2 ^ j = m * 2 ^ k)%nat /\
       op_eq (nd j (2 * i * 2 ^ j) ((2 * i + 1) * 2 ^ j)) (nd j ((2 * i + 1) * 2 ^ j) e) = true) /\
    follows k' ((m' - 1) * 2 ^ k') e matchh' br' br0.
Proof.
  revert k m h matchh mut br. induction fuel as [|fuel IH]; intros k m h matchh mut br Hk Hm Hb He Hl -> Hin Hml Hf.
  { replace k with 32%nat in * by lia. rewrite Nat2Z.inj_mul, Nat2Z.inj_pow in Hb. change (Z.of_nat 2 ^ Z.of_nat 32) with (2 ^ 32) in Hb. lia. }
  cbn [combine]. rewrite bit_set_multiple. destruct (Nat.odd m) eqn:Ho; cbn [negb].
  { exists k, m, matchh, mut, br. split_and!; try done; try lia. split; [by left|]. intros [?|(j & i & ? & _)]; [done|lia]. }
  destruct (multiple_step m k Ho Hm) as (q & -> & Ec & Es & Ex & Eq).
  pose proof (Hin k (2 * q + 2)%nat ltac:(lia) eq_refl Ho) as Hx. cbv beta in Hx. rewrite Ex in Hx.
  set (s0 := (2 * q * 2 ^ k)%nat) in *. rewrite Es in *.
  replace ((2 * q + 1) * 2 ^ k)%nat with (s0 + 2 ^ k)%nat in * by (unfold s0; lia).
  assert (s0 + 2 ^ k < e <= s0 + 2 * 2 ^ k)%nat as He' by (unfold s0 in *; lia).
  destruct (extend_branch pbranch (inner !!! k) _ k ml matchh br) as [br1 mh1] eqn:Ee.
  assert (follows (S k) s0 e mh1 br1 br0) as Hf1.
  { intros Hp. destruct (Hf Hp) as [Hmh Hbr]. destruct (Hml Hp k (2 * q + 2)%nat ltac:(lia) eq_refl Ho) as [Hr Hbr0].
    cbv beta in *. rewrite Ex in Hr, Hbr0. unfold extend_branch in Ee. rewrite Hp in Ee. destruct matchh.
    - injection Ee as <- <-. assert (Z.of_nat (s0 + 2 ^ k) <= branchpos < Z.of_nat e) by tauto.
      split; [split; [lia|done]|]. rewrite path_right by lia. rewrite Hbr, Hx. do 2 f_equal. lia.
    - destruct (Z.eqb_spec ml (Z.of_nat k)) as [E|E]; injection Ee as <- <-.
      + apply Hr in E as E'. split; [split; [lia|done]|]. rewrite path_left by lia. by rewrite Hbr, Hbr0.
      + split; [|done]. split; [done|]. intros Hin'. exfalso.
        destruct (decide (branchpos < Z.of_nat (s0 + 2 ^ k))); [apply E, Hr; lia|].
        assert (false = true) by (apply Hmh; lia). done. }
  rewrite Ec.
  destruct (IH (S k) (q + 1)%nat (hash_pair Hash (inner !!! k) (nd k (s0 + 2 ^ k) e)) mh1
    (mut || op_eq (inner !!! k) (nd k (s0 + 2 ^ k) e)) br1) as (k' & m' & mh' & mut' & br' & Hk' & Ho' & Em & E & Hs & Hmut & Hf').
  - lia.
  - lia.
  - by rewrite <- Ec.
  - rewrite Eq. cbn [Nat.pow]. unfold s0 in *. lia.
  - done.
  - rewrite Eq, Hx. by rewrite node_pair by lia.
  - intros j m' Hj. rewrite <- Ec. apply Hin. lia.
  - intros Hp j m' Hj. rewrite <- Ec. apply (Hml Hp). lia.
  - by rewrite Eq.
  - exists k', m', mh', mut', br'. split_and!; try done; try lia.
    rewrite Hmut, orb_true_iff, Hx. split.
    + intros [[?|?]|(j & i & Hj & Ei & Hop)]; [by left| |right].
      * right. exists k, q. split_and!; [lia|lia|lia|]. fold s0. by replace ((2 * q + 1) * 2 ^ k)%nat with (s0 + 2 ^ k)%nat by (unfold s0; lia).
      * exists j, i. split_and!; [lia|lia|lia|done].
    + intros [?|(j & i & Hj & Ei & Hop)]; [by do 2 left|].
      destruct (decide (j = k)) as [->|].
      * left. right. assert (i = q) as -> by (rewrite <- Ec in Ei; apply Nat.mul_cancel_r in Ei; lia).
        fold s0 in Hop. by replace ((2 * q + 1) * 2 ^ k)%nat with (s0 + 2 ^ k)%nat in Hop by (unfold s0; lia).
      * right. exists j, i. split_and!; [lia|lia|lia|done].
Qed.

(** *** The set bits of a number *)

(** Bit [k] of [n] is set, and [m] is what is left of [n] from there. *)
Definition set_bit (n k m : nat) : Prop := Nat.odd m = true /\ (m * 2 ^ k <= n < (m + 1) * 2 ^ k)%nat.

Lemma pow_split k j : (k < j)%nat -> exists r, (2 ^ j = 2 * r * 2 ^ k)%nat.
Proof.
  intros Hj. exists (2 ^ (j - k - 1))%nat. replace j with (1 + (j - k - 1) + k)%nat at 1 by lia.
  rewrite !Nat.pow_add_r. cbn [Nat.pow]. lia.
Qed.

Lemma odd_decomp m : Nat.odd m = true -> exists q, m = (2 * q + 1)%nat.
Proof. intros H%Nat.odd_spec. destruct H as [q ->]. by exists q. Qed.

(** The multiples of [2^(k+1)] up to [n] are up to the slice of bit [k]. *)
Lemma slice_start n k m c j : set_bit n k m -> (k < j)%nat -> (c * 2 ^ j <= n)%nat -> (c * 2 ^ j <= (m - 1) * 2 ^ k)%nat.
Proof.
  intros [Ho Hm] Hj Hc. destruct (odd_decomp m Ho) as [q ->]. destruct (pow_split k j Hj) as [r Er].
  rewrite Er in *. replace (2 * q + 1 - 1)%nat with (2 * q)%nat by lia.
  replace (c * (2 * r * 2 ^ k))%nat with (2 * (c * r) * 2 ^ k)%nat in * by lia.
  apply Nat.mul_le_mono_r. assert (2 * (c * r) < 2 * q + 2)%nat by nia. lia.
Qed.

Lemma set_bit_unique n k m m' : set_bit n k m -> set_bit n k m' -> m = m'.
Proof. intros [_ ?] [_ ?]. nia. Qed.

(** Two slices do not meet. *)
Lemma slices_disjoint n k m j m' pos : set_bit n k m -> set_bit n j m' ->
  ((m - 1) * 2 ^ k <= pos < m * 2 ^ k)%nat -> ((m' - 1) * 2 ^ j <= pos < m' * 2 ^ j)%nat -> k = j.
Proof.
  intros Hk Hj Hp Hp'. destruct (Nat.lt_trichotomy k j) as [?|[?|?]]; [|done|].
  - pose proof (slice_start n k m m' j Hk ltac:(lia) ltac:(apply Hj)). lia.
  - pose proof (slice_start n j m' m k Hj ltac:(lia) ltac:(apply Hk)). lia.
Qed.

(** The bits of [n + 1] are the bit that was carried to and the bits above it. *)
Lemma set_bit_succ n k' m' k m : Nat.odd m' = true -> (m' * 2 ^ k' = n + 1)%nat ->
  set_bit (n + 1) k m -> (k = k' /\ m = m') \/ ((k' < k)%nat /\ set_bit n k m).
Proof.
  intros Ho' E [Ho Hm]. destruct (odd_decomp m Ho) as [q ->]. destruct (odd_decomp m' Ho') as [q' ->].
  destruct (Nat.lt_trichotomy k k') as [Hk|[->|Hk]].
  - exfalso. destruct (pow_split k k' Hk) as [r Er]. rewrite Er in E.
    replace ((2 * q' + 1) * (2 * r * 2 ^ k))%nat with (2 * ((2 * q' + 1) * r) * 2 ^ k)%nat in E by lia.
    rewrite <- E in Hm. destruct Hm as [H1%Nat.mul_le_mono_pos_r H2%Nat.mul_lt_mono_pos_r]; lia.
  - left. split; [done|]. nia.
  - right. split; [done|]. split; [done|]. destruct (pow_split k' k Hk) as [r Er]. 
    destruct (decide (n + 1 = (2 * q + 1) * 2 ^ k)%nat) as [E'|]; [exfalso|lia]. rewrite Er in E'.
    assert ((2 * q' + 1) * 2 ^ k' = 2 * ((2 * q + 1) * r) * 2 ^ k')%nat as E2 by lia.
    apply Nat.mul_cancel_r in E2; lia.
Qed.

(** A bit of [n] above the carry is a bit of [n + 1]; one below is under the new slice. *)
Lemma set_bit_old n k' m' k m : Nat.odd m' = true -> (m' * 2 ^ k' = n + 1)%nat -> set_bit n k m ->
  ((m - 1) * 2 ^ k < (m' - 1) * 2 ^ k')%nat -> set_bit (n + 1) k m.
Proof.
  intros Ho' E Hs Hlt. destruct (odd_decomp m' Ho') as [q' ->]. pose proof Hs as [Ho Hm].
  destruct (odd_decomp m Ho) as [q ->]. split; [done|].
  destruct (Nat.lt_trichotomy k k') as [Hk|[->|Hk]].
  - pose proof (slice_start n k _ (2 * q' + 1 - 1) k' Hs Hk ltac:(lia)). lia.
  - exfalso. apply Nat.mul_lt_mono_pos_r in Hlt; [|lia].
    assert ((2 * q + 2) * 2 ^ k' <= 2 * q' * 2 ^ k')%nat by (apply Nat.mul_le_mono_r; lia). lia.
  - destruct (pow_split k' k Hk) as [r Er].
    destruct (decide (n + 1 = (2 * q + 1 + 1) * 2 ^ k)%nat) as [E'|]; [exfalso|lia]. rewrite Er in E'.
    assert ((2 * q' + 1) * 2 ^ k' = 2 * ((2 * q + 2) * r) * 2 ^ k')%nat as E2 by lia.
    apply Nat.mul_cancel_r in E2; lia.
Qed.

(** *** The leaves *)

Definition pos_under (s e : nat) : Prop := Z.of_nat s <= branchpos < Z.of_nat e.

(** After [n] leaves: the node of every set bit of [n] is stored, the flag tells whether
    two complete siblings were equal, and the branch is that up to the node the leaf is
    under. *)
Record processed (n : nat) (s : progress) : Prop := {
  processed_length : length (inner s) = 32%nat;
  processed_inner : forall k m, set_bit n k m -> inner s !!! k = nd k ((m - 1) * 2 ^ k) (m * 2 ^ k);
  processed_mutated : mutated s = true <-> exists k i, ((2 * i + 2) * 2 ^ k <= n)%nat /\
    op_eq (nd k (2 * i * 2 ^ k) ((2 * i + 1) * 2 ^ k)) (nd k ((2 * i + 1) * 2 ^ k) ((2 * i + 2) * 2 ^ k)) = true;
  processed_before : pbranch = true -> ~ pos_under 0 n -> matchlevel s = -1 /\ branch s = [];
  processed_after : pbranch = true -> pos_under 0 n -> exists k m, set_bit n k m /\
    pos_under ((m - 1) * 2 ^ k) (m * 2 ^ k) /\ matchlevel s = Z.of_nat k /\
    branch s = path Hash k (seg leaves ((m - 1) * 2 ^ k) (m * 2 ^ k)) (Z.to_nat branchpos - (m - 1) * 2 ^ k);
}.

(** An even multiple that is [n + 1] comes from a set bit of [n]. *)
Lemma sibling_bit n k m : Nat.odd m = false -> (m * 2 ^ k = n + 1)%nat ->
  set_bit n k (m - 1) /\ ((m - 1) * 2 ^ k = (m - 2) * 2 ^ k + 2 ^ k)%nat /\ (m - 1 - 1 = m - 2)%nat.
Proof.
  intros Ho E. assert (0 < m)%nat by (destruct m; [cbn in E; lia|lia]).
  destruct (multiple_step m k Ho ltac:(lia)) as (q & -> & _).
  replace (2 * q + 2 - 1)%nat with (2 * q + 1)%nat by lia. replace (2 * q + 2 - 2)%nat with (2 * q)%nat by lia.
  split_and!; [|lia|lia]. split; [by rewrite Nat.odd_add, Nat.odd_mul|]. pose proof (Nat.pow_nonzero 2 k). lia.
Qed.

(** Which slice the matching leaf is under. *)
Lemma processed_match n s k m : processed n s -> set_bit n k m -> pbranch = true ->
  (matchlevel s = Z.of_nat k <-> pos_under ((m - 1) * 2 ^ k) (m * 2 ^ k)) /\
  (matchlevel s = Z.of_nat k -> branch s =
     path Hash k (seg leaves ((m - 1) * 2 ^ k) (m * 2 ^ k)) (Z.to_nat branchpos - (m - 1) * 2 ^ k)).
Proof.
  intros [] Hs Hp. unfold pos_under in *. destruct (decide (Z.of_nat 0 <= branchpos < Z.of_nat n)) as [Hu|Hu].
  - destruct (processed_after0 Hp Hu) as (k0 & m0 & Hs0 & Hu0 & -> & ->). split; [split|].
    + intros ->%Nat2Z.inj. by rewrite (set_bit_unique _ _ _ _ Hs Hs0).
    + intros Hr. f_equal. apply (slices_disjoint n k0 m0 k m (Z.to_nat branchpos)); try done; lia.
    + intros ->%Nat2Z.inj. by rewrite (set_bit_unique _ _ _ _ Hs Hs0).
  - destruct (processed_before0 Hp Hu) as [-> _]. destruct Hs as [_ [Hs%Nat2Z.inj_le _]].
    split; [split; [lia|]|intros; lia]. intros [H1 H2]. exfalso. apply Hu.
    split; [etrans; [apply Nat2Z.is_nonneg|exact H1]|eapply Z.lt_le_trans; eassumption].
Qed.

(** The stored nodes are the left siblings of a node that ends at [c], when the bits of
    [n] are as they must be. *)
Lemma processed_siblings n s c k0 : processed n s ->
  siblings c k0 (fun j st => exists m, set_bit n j m /\ ((m - 1) * 2 ^ j = st /\ m * 2 ^ j = st + 2 ^ j)%nat) ->
  siblings c k0 (fun j st => inner s !!! j = nd j st (st + 2 ^ j)) /\
  (pbranch = true -> siblings c k0 (fun j st =>
     (matchlevel s = Z.of_nat j <-> Z.of_nat st <= branchpos < Z.of_nat (st + 2 ^ j)) /\
     (matchlevel s = Z.of_nat j -> branch s = path Hash j (seg leaves st (st + 2 ^ j)) (Z.to_nat branchpos - st)))).
Proof.
  intros Hpr Hs. split.
  - intros k m Hk E Ho. destruct (Hs k m Hk E Ho) as (m0 & Hm0 & <- & <-).
    by apply (processed_inner _ _ Hpr).
  - intros Hp k m Hk E Ho. destruct (Hs k m Hk E Ho) as (m0 & Hm0 & <- & <-).
    by apply (processed_match n).
Qed.

(** One round of the loop over the leaves. *)
Lemma processed_step n s : processed n s -> (n < len)%nat -> Z.of_nat (n + 1) <= 2 ^ 31 ->
  exists k' h matchh mut br,
    combine Hash pbranch 32 0 (u32 (Z.of_nat n + 1)) (inner s) (matchlevel s) (leaves !!! n)
      (Z.of_nat n =? branchpos) (mutated s) (branch s) = Some (k', h, matchh, mut, br) /\
    processed (n + 1) (mk_progress (<[k' := h]> (inner s)) (if matchh then Z.of_nat k' else matchlevel s) mut br).
Proof.
  intros Hp Hn Hb. destruct (processed_siblings n s (n + 1) 0 Hp) as [Hsib Hsibb].
  { intros k m _ E Ho. destruct (sibling_bit n k m Ho E) as (Hs & E1 & E2).
    exists (m - 1)%nat. by rewrite <- E1, <- E2. } pose proof Hp as [Hlen Hin Hmut Hbef Haft].
  replace (u32 (Z.of_nat n + 1)) with (Z.of_nat ((n + 1) * 2 ^ 0)).
  2: { rewrite uwrap_small by (unfold is_u; lia). cbn [Nat.pow]. lia. }
  destruct (combine_spec 32 0 (n + 1) (n + 1) (inner s) (matchlevel s) (leaves !!! n) (Z.of_nat n =? branchpos)
    (mutated s) (branch s) (branch s)) as (k' & m' & mh & mut & br & Hk & Ho & Em & E & Hle & Hmut' & Hf).
  - done.
  - lia.
  - cbn [Nat.pow]. by rewrite Nat.mul_1_r.
  - cbn [Nat.pow]. lia.
  - lia.
  - cbn [Nat.pow]. replace ((n + 1 - 1) * 1)%nat with n by lia. rewrite seg_one by done. done.
  - cbn [Nat.pow]. by rewrite Nat.mul_1_r.
  - cbn [Nat.pow]. by rewrite Nat.mul_1_r.
  - intros Hpb. cbn [Nat.pow]. destruct (Z.eqb_spec (Z.of_nat n) branchpos) as [E|E].
    + split; [split; [lia|done]|]. cbn [path]. apply (Hbef Hpb). unfold pos_under. lia.
    + split; [|done]. split; [done|]. lia.
  - cbn [Nat.pow] in Em, Hle, Hmut'. rewrite Nat.mul_1_r in *. replace (n + 1 - 1)%nat with n in Hle by lia.
    exists k', (nd k' ((m' - 1) * 2 ^ k') (n + 1)), mh, mut, br. split; [exact E|]. split; cbn [inner matchlevel mutated branch].
    + by rewrite length_insert.
    + intros k m Hs. destruct (set_bit_succ n k' m' k m Ho Em Hs) as [[-> ->]|[Hlt Hs']].
      * rewrite list_lookup_total_insert_eq by lia. by rewrite Em.
      * rewrite list_lookup_total_insert_ne by lia. by apply Hin.
    + rewrite Hmut', Hmut. split.
      * intros [(k & i & ? & ?)|(k & i & ? & Ek & ?)]; exists k, i; (split; [lia|]); [done|]. by rewrite Ek.
      * intros (k & i & Hki & Hop). destruct (decide ((2 * i + 2) * 2 ^ k <= n)%nat); [left; by exists k, i|].
        right. assert (((2 * i + 2) * 2 ^ k = n + 1)%nat) as Ek by lia. exists k, i. rewrite Ek in Hop. split_and!; try done; [lia|].
        destruct (decide (k < k')%nat); [done|exfalso]. destruct (odd_decomp m' Ho) as [q ->].
        destruct (decide (k = k')) as [->|].
        -- rewrite <- Em in Ek. apply Nat.mul_cancel_r in Ek; lia.
        -- destruct (pow_split k' k ltac:(lia)) as [r Er]. rewrite Er, <- Em in Ek.
           assert (2 * ((2 * i + 2) * r) * 2 ^ k' = (2 * q + 1) * 2 ^ k')%nat as E2 by lia.
           apply Nat.mul_cancel_r in E2; lia.
    + intros Hpb Hu. destruct (Hf Hpb) as [Hmh Hbr]. unfold pos_under in *. destruct mh.
      * assert (Z.of_nat ((m' - 1) * 2 ^ k') <= branchpos < Z.of_nat (n + 1)) as H1 by tauto.
        exfalso. apply Hu. split; [etrans; [apply Nat2Z.is_nonneg|apply H1]|apply H1].
      * rewrite Hbr. apply (Hbef Hpb). unfold pos_under. lia.
    + intros Hpb Hu. destruct (Hf Hpb) as [Hmh Hbr]. unfold pos_under in *. destruct mh.
      * exists k', m'. rewrite Em. split; [|split; [by apply Hmh|done]].
        split; [done|]. pose proof (Nat.pow_nonzero 2 k'). lia.
      * assert (~ Z.of_nat ((m' - 1) * 2 ^ k') <= branchpos) as Hlt.
        { intros ?. assert (false = true) by (apply Hmh; lia). done. }
        destruct (Haft Hpb) as (k & m & Hs & Hu' & Eml & Ebr); [unfold pos_under; lia|].
        exists k, m. unfold pos_under in Hu'. rewrite Hbr. split; [|done].
        apply (set_bit_old n k' m'); try done. lia.
Qed.

Lemma process_spec fuel n s : processed n s -> (n + fuel = len)%nat -> Z.of_nat len <= 2 ^ 31 ->
  exists s', process Hash branchpos pbranch fuel leaves (Z.of_nat n) s = Some (Z.of_nat len, s') /\ processed len s'.
Proof.
  revert n s. induction fuel as [|fuel IH]; intros n s Hp Hn Hb; cbn [process].
  - rewrite (proj2 (Z.ltb_ge _ _)) by lia. exists s. by replace n with len in * by lia.
  - rewrite (proj2 (Z.ltb_lt _ _)) by lia. rewrite Nat2Z.id.
    destruct (processed_step n s Hp ltac:(lia) ltac:(lia)) as (k' & h & mh & mut & br & -> & Hp').
    rewrite uwrap_small by (unfold is_u; lia). replace (Z.of_nat n + 1) with (Z.of_nat (n + 1)) by lia.
    apply IH; [done|lia|done].
Qed.

(** *** The final sweep *)

Lemma lowest_bit_spec fuel k m : (k + fuel = 32)%nat -> (0 < m)%nat -> Z.of_nat (m * 2 ^ k) <= 2 ^ 31 ->
  exists k' m', lowest_bit fuel k (Z.of_nat (m * 2 ^ k)) = Some k' /\ Nat.odd m' = true /\ (m' * 2 ^ k' = m * 2 ^ k)%nat /\
    (k' < 32)%nat.
Proof.
  revert k m. induction fuel as [|fuel IH]; intros k m Hk Hm Hb.
  { replace k with 32%nat in * by lia. rewrite Nat2Z.inj_mul, Nat2Z.inj_pow in Hb. change (Z.of_nat 2 ^ Z.of_nat 32) with (2 ^ 32) in Hb. lia. }
  cbn [lowest_bit]. rewrite bit_set_multiple. destruct (Nat.odd m) eqn:Ho; [exists k, m; split_and!; [done..|lia]|].
  destruct (multiple_step m k Ho Hm) as (q & -> & Ec & _). rewrite Ec in *. apply IH; lia.
Qed.

(** One round of the sweep doubles the last node; the siblings are those of the bits
    of the number of leaves. *)
Lemma sweep_siblings m q k : m = (2 * q + 1)%nat -> ((m - 1) * 2 ^ k < len <= m * 2 ^ k)%nat ->
  siblings ((q + 1) * 2 ^ S k) (S k) (fun j st => exists m', set_bit len j m' /\
    ((m' - 1) * 2 ^ j = st /\ m' * 2 ^ j = st + 2 ^ j)%nat).
Proof.
  intros -> Hl j m' Hj E Ho. replace (2 * q + 1 - 1)%nat with (2 * q)%nat in Hl by lia. cbn [Nat.pow] in E.
  assert (0 < m')%nat by (destruct m'; [pose proof (Nat.pow_nonzero 2 k); lia|lia]).
  destruct (multiple_step m' j Ho ltac:(lia)) as (q' & -> & _). destruct (pow_split k j ltac:(lia)) as [r Er].
  exists (2 * q' + 1)%nat. replace (2 * q' + 2 - 2)%nat with (2 * q')%nat by lia.
  replace (2 * q' + 1 - 1)%nat with (2 * q')%nat by lia. split; [|lia].
  split; [by rewrite Nat.odd_add, Nat.odd_mul|].
  assert (r <> 0)%nat by (intros ->; pose proof (Nat.pow_nonzero 2 j); lia).
  assert (2 * 2 ^ k <= 2 ^ j)%nat by (rewrite Er; apply Nat.mul_le_mono_r; lia).
  pose proof (Nat.pow_nonzero 2 k). lia.
Qed.

(** The sweep keeps, at level [k], the node over the leaves from [(m - 1) * 2^k] on. *)
Lemma sweep_spec fuel k m s h matchh br : processed len s -> Z.of_nat len <= 2 ^ 31 ->
  (k < 32 <= k + fuel)%nat -> Nat.odd m = true -> Z.of_nat (m * 2 ^ k) <= 2 ^ 31 ->
  ((m - 1) * 2 ^ k < len <= m * 2 ^ k)%nat -> (2 ^ k < 2 * len)%nat ->
  h = nd k ((m - 1) * 2 ^ k) len ->
  follows k ((m - 1) * 2 ^ k) len matchh br (branch s) ->
  exists br', sweep Hash pbranch fuel (Z.of_nat (m * 2 ^ k)) k s h matchh br = Some (node Hash (depth len) leaves, br') /\
    (pbranch = true -> pos_under 0 len -> br' = path Hash (depth len) leaves (Z.to_nat branchpos)).
Proof.
  intros Hpr Hb31. revert k m h matchh br. induction fuel as [|fuel IH]; intros k m h matchh br Hk Ho Hb Hl Hd -> Hf; [lia|].
  assert (2 ^ Z.of_nat k < 2 ^ 32) by (apply Z.pow_lt_mono_r; lia).
  cbn [sweep]. rewrite shiftl_mul, Z.mul_1_l by lia. rewrite (uwrap_small 32 (2 ^ Z.of_nat k)) by (unfold is_u; lia).
  destruct (odd_decomp m Ho) as [q ->]. replace (2 * q + 1 - 1)%nat with (2 * q)%nat in * by lia.
  destruct q as [|q].
  - rewrite (proj2 (Z.eqb_eq _ _)) by (rewrite Nat2Z.inj_mul, Nat2Z.inj_pow; lia). exists br.
    assert (depth len = k) as ->.
    { unfold depth. destruct (decide (k = 0)%nat) as [->|]; [cbn in Hd, Hl; by replace len with 1%nat by lia|].
      apply Nat.log2_up_unique; [lia|]. split; [|lia].
      replace k with (S (Nat.pred k)) in Hd by lia. cbn [Nat.pow] in Hd. lia. }
    cbn [Nat.mul Nat.add]. rewrite seg_all. split; [done|]. intros Hp Hu.
    destruct (Hf Hp) as [Hmh Hbr]. cbn [Nat.mul Nat.add] in Hmh. unfold pos_under in Hu.
    rewrite (proj2 Hmh Hu) in Hbr. cbn [Nat.mul Nat.add] in Hbr. by rewrite seg_all, Nat.sub_0_r in Hbr.
  - assert (2 ^ Z.of_nat k = Z.of_nat (2 ^ k)) as Epow by (by rewrite Nat2Z.inj_pow).
    pose proof (Nat.pow_nonzero 2 k ltac:(lia)) as Hnz.
    assert (1 * 2 ^ k < (2 * S q + 1) * 2 ^ k)%nat by (apply Nat.mul_lt_mono_pos_r; lia).
    rewrite (proj2 (Z.eqb_neq _ _)) by lia.
    set (Q := S q) in *. set (st := (2 * Q * 2 ^ k)%nat) in *.
    assert (S k < 31)%nat as Hk31.
    { apply Nat2Z.inj_lt. apply (Z.pow_lt_mono_r_iff 2); [lia..|].
      rewrite Nat2Z.inj_succ, Z.pow_succ_r, Epow by lia. unfold st, Q in Hl. nia. }
    assert (Z.of_nat ((Q + 1) * 2 ^ S k) <= 2 ^ 31) as Hb'.
    { replace 31 with ((30 - Z.of_nat k) + Z.of_nat (S k)) by lia. rewrite Z.pow_add_r by lia.
      rewrite Nat2Z.inj_mul, (Nat2Z.inj_pow 2 (S k)). apply Z.mul_le_mono_nonneg_r; [lia|].
      assert (Z.of_nat Q < 2 ^ (30 - Z.of_nat k)); [|lia].
      apply (Z.mul_lt_mono_pos_r (2 ^ Z.of_nat (S k))); [lia|]. rewrite <- Z.pow_add_r by lia.
      replace (30 - Z.of_nat k + Z.of_nat (S k)) with 31 by lia.
      rewrite Nat2Z.inj_succ, Z.pow_succ_r, Epow by lia. unfold st in Hl. lia. }
    assert (u32 (Z.of_nat ((2 * Q + 1) * 2 ^ k) + 2 ^ Z.of_nat k) = Z.of_nat ((Q + 1) * 2 ^ S k)) as ->.
    { rewrite Epow. rewrite uwrap_small; [cbn [Nat.pow]; lia|]. cbn [Nat.pow] in Hb'. unfold is_u. lia. }
    destruct (processed_siblings len s ((Q + 1) * 2 ^ S k) (S k) Hpr) as [Hsib Hsibb].
    { apply (sweep_siblings (2 * Q + 1)); [done|]. by replace (2 * Q + 1 - 1)%nat with (2 * Q)%nat by lia. }
    assert ((Q + 1 - 1) * 2 ^ S k = st)%nat as Est by (unfold st; cbn [Nat.pow]; nia).
    destruct (combine_spec (31 - k) (S k) (Q + 1) len (inner s) (matchlevel s) (hash_pair Hash (nd k st len) (nd k st len)) matchh false
      (if pbranch && matchh then br ++ [nd k st len] else br) (branch s))
      as (k' & m' & mh & mut & br' & Hk' & Ho' & Em & -> & Hle & _ & Hf'); try done; rewrite ?Est; try lia.
    + cbn [Nat.pow]. unfold st in *. lia.
    + rewrite node_single; [done|unfold st in *; lia|done].
    + intros Hp. destruct (Hf Hp) as [Hmh Hbr]. rewrite Hp. cbn [andb]. split; [done|]. destruct matchh; [|done].
      assert (Z.of_nat st <= branchpos < Z.of_nat len) by tauto.
      rewrite path_single by (unfold st in *; lia). by rewrite Hbr.
    + cbv iota. rewrite <- Em. rewrite Est in Hle. apply IH; try done; try lia.
      * rewrite Em. cbn [Nat.pow]. unfold st in *. lia.
      * destruct (odd_decomp m' Ho') as [q' ->]. replace (2 * q' + 1 - 1)%nat with (2 * q')%nat in * by lia.
        destruct q' as [|q']; [cbn [Nat.pow] in Em; unfold st in *; nia|]. nia.
Qed.
End correctness.

(** ** Roots from branches *)

Section branches.
Context (Hash : list Z -> list Z).
Abbreviation from_branch := (ComputeMerkleRootFromBranch Hash).

Lemma from_branch_app leaf a b i : 0 <= i ->
  from_branch leaf (a ++ b) i = from_branch (from_branch leaf a i) b (Z.shiftr i (Z.of_nat (length a))).
Proof.
  revert leaf i. induction a as [|x a IH]; intros leaf i Hi; [cbn; by rewrite Z.shiftr_0_r|].
  cbn [app ComputeMerkleRootFromBranch]. rewrite IH by (by apply Z.shiftr_nonneg). f_equal.
  rewrite Z.shiftr_shiftr by lia. f_equal. cbn [length]. lia.
Qed.

(** Only the low bits of the index matter. *)
Lemma from_branch_mod leaf br i j : 0 <= i -> 0 <= j -> i mod 2 ^ Z.of_nat (length br) = j mod 2 ^ Z.of_nat (length br) ->
  from_branch leaf br i = from_branch leaf br j.
Proof.
  revert leaf i j. induction br as [|x br IH]; intros leaf i j Hi Hj E; [done|].
  cbn [length] in E. rewrite Nat2Z.inj_succ, Z.pow_succ_r in E by lia.
  cbn [ComputeMerkleRootFromBranch]. assert (Z.land i 1 = Z.land j 1) as ->.
  { change 1 with (2 ^ 1 - 1). rewrite !land_mask by lia. rewrite (Z.rem_mul_r i 2), (Z.rem_mul_r j 2) in E by lia. change (2 ^ 1) with 2.
    pose proof (Z.mod_pos_bound i 2). pose proof (Z.mod_pos_bound j 2). lia. }
  apply IH; [by apply Z.shiftr_nonneg..|]. rewrite !shiftr_div by lia. change (2 ^ 1) with 2.
  rewrite (Z.rem_mul_r i 2), (Z.rem_mul_r j 2) in E by lia.
  pose proof (Z.mod_pos_bound i 2). pose proof (Z.mod_pos_bound j 2). lia.
Qed.

Lemma length_branch_path k l pos : length (path Hash k l pos) = k.
Proof.
  revert l pos. induction k as [|k IH]; intros l pos; [done|]. cbn [path].
  destruct (decide _); rewrite length_app, IH; cbn; lia.
Qed.

(** The last step of a branch. *)
Lemma from_branch_snoc leaf br x i : 0 <= i < 2 * 2 ^ Z.of_nat (length br) ->
  from_branch leaf (br ++ [x]) i =
  if decide (i < 2 ^ Z.of_nat (length br)) then hash_pair Hash (from_branch leaf br i) x
  else hash_pair Hash x (from_branch leaf br (i - 2 ^ Z.of_nat (length br))).
Proof.
  intros Hi. rewrite from_branch_app by lia. cbn [ComputeMerkleRootFromBranch]. rewrite shiftr_div by lia.
  destruct (decide _).
  - by rewrite Z.div_small by lia.
  - replace (i / 2 ^ Z.of_nat (length br)) with 1 by (apply Z.div_unique with (i - 2 ^ Z.of_nat (length br)); lia).
    cbn. f_equal. apply from_branch_mod; [lia..|].
    rewrite <- (Z.mod_add (i - 2 ^ Z.of_nat (length br)) 1) by lia. f_equal. lia.
Qed.

(** The branch of a leaf leads to the root. *)
Lemma path_root k l pos leaf : (length l <= 2 ^ k)%nat -> l !! pos = Some leaf ->
  from_branch leaf (path Hash k l pos) (Z.of_nat pos) = node Hash k l.
Proof.
  revert l pos. induction k as [|k IH]; intros l pos Hl Hp.
  { pose proof (lookup_lt_Some _ _ _ Hp). cbn [Nat.pow] in Hl. assert (pos = 0)%nat as -> by lia. cbn.
    by rewrite (list_lookup_total_correct _ _ _ Hp). }
  pose proof (lookup_lt_Some _ _ _ Hp) as Hlt. cbn [Nat.pow] in Hl. cbn [path node].
  assert (2 ^ Z.of_nat k = Z.of_nat (2 ^ k)) as E by (by rewrite Nat2Z.inj_pow).
  destruct (decide (pos < 2 ^ k)%nat); rewrite from_branch_snoc by (rewrite length_branch_path; lia); rewrite length_branch_path.
  - rewrite decide_True by lia. rewrite (IH (take (2 ^ k) l)).
    + by destruct (decide (length l <= 2 ^ k)%nat).
    + rewrite length_take. lia.
    + by rewrite lookup_take_lt by lia.
  - rewrite decide_False by lia. destruct (decide (length l <= 2 ^ k)%nat); [lia|].
    replace (Z.of_nat pos - 2 ^ Z.of_nat k) with (Z.of_nat (pos - 2 ^ k)) by lia.
    rewrite (IH (drop (2 ^ k) l)); [done|rewrite length_drop; lia|].
    rewrite lookup_drop. by replace (2 ^ k + (pos - 2 ^ k))%nat with pos by lia.
Qed.
End branches.

(** ** What a root says about the leaves *)

Definition hash32 (x : list Z) : Prop := length x = 32%nat.

(** Two different strings of 64 bytes with one digest. *)
Definition collision (Hash : list Z -> list Z) : Prop :=
  exists x y, length x = 64%nat /\ length y = 64%nat /\ x <> y /\ Hash x = Hash y.

Section binding.
Context (Hash : list Z -> list Z) (Hash_size : forall x, hash32 (Hash x)).
Implicit Types l : list (list Z).

Lemma node_size k l : Forall hash32 l -> l <> [] -> hash32 (node Hash k l).
Proof.
  revert l. induction k as [|k IH]; intros l Hl Hne; cbn [node].
  - destruct l as [|x l]; [done|]. by apply Forall_cons in Hl as [? _].
  - destruct (decide _); apply Hash_size.
Qed.

Lemma hash_pair_inj a b a' b' : hash32 a -> hash32 b -> hash32 a' -> hash32 b' ->
  hash_pair Hash a b = hash_pair Hash a' b' -> (a = a' /\ b = b') \/ collision Hash.
Proof.
  unfold hash32. intros Ha Hb Ha' Hb' E. destruct (decide (a ++ b = a' ++ b')) as [E'|Hne].
  - left. apply app_inj_1 in E'; [done|congruence].
  - right. exists (a ++ b), (a' ++ b'). rewrite !length_app. split_and!; [lia..|done|done].
Qed.

(** Two complete siblings below level [k] are equal. *)
Fixpoint dup (k : nat) (l : list (list Z)) : Prop :=
  match k with
  | O => False
  | S k =>
      let a := take (2 ^ k) l in
      let b := drop (2 ^ k) l in
      dup k a \/ dup k b \/ (length b = (2 ^ k)%nat /\ node Hash k a = node Hash k b)
  end.

Lemma dup_duplicated k l : (length l <= 2 ^ k)%nat -> dup k l -> duplicated Hash l.
Proof.
  revert l. induction k as [|k IH]; intros l Hl; cbn [dup]; [done|]. cbn [Nat.pow] in Hl.
  intros [Ha|[Hb|[Hf E]]].
  - apply IH in Ha as (j & i & Hi & E); [|rewrite length_take; lia]. rewrite length_take in Hi.
    exists j, i. split; [lia|]. unfold seg in *. revert E.
    rewrite !skipn_firstn_comm, !take_take. rewrite !Nat.min_l by lia. done.
  - apply IH in Hb as (j & i & Hi & E); [|rewrite length_drop; lia]. rewrite length_drop in Hi.
    assert (j < k)%nat as Hjk.
    { apply Nat.nle_gt. intros Hkj. pose proof (Nat.pow_le_mono_r 2 k j ltac:(lia) Hkj). pose proof (Nat.pow_nonzero 2 k). nia. }
    destruct (pow_split j k Hjk) as [r Er].
    exists j, (i + r)%nat. rewrite Er in *. split; [pose proof (Nat.pow_nonzero 2 j); nia|].
    unfold seg in *. rewrite !drop_drop in E.
    replace (2 * (i + r) * 2 ^ j)%nat with (2 * r * 2 ^ j + 2 * i * 2 ^ j)%nat by lia.
    replace ((2 * (i + r) + 1) * 2 ^ j)%nat with (2 * r * 2 ^ j + (2 * i + 1) * 2 ^ j)%nat by lia.
    replace ((2 * (i + r) + 2) * 2 ^ j)%nat with (2 * r * 2 ^ j + (2 * i + 2) * 2 ^ j)%nat by lia.
    etrans; [|etrans; [exact E|]]; do 2 f_equal; lia.
  - rewrite length_drop in Hf. exists k, 0%nat. split; [lia|]. unfold seg. cbn [Nat.mul Nat.add].
    rewrite drop_0, !Nat.add_0_r, !Nat.sub_0_r. rewrite E. do 2 f_equal.
    rewrite firstn_all2; [done|]. rewrite length_drop. lia.
Qed.

(** Trees of the same depth with one root and no duplicates have the same leaves. *)
Lemma node_inj k l l' : Forall hash32 l -> Forall hash32 l' -> (0 < length l <= 2 ^ k)%nat -> (0 < length l' <= 2 ^ k)%nat ->
  ~ dup k l -> ~ dup k l' -> node Hash k l = node Hash k l' -> l = l' \/ collision Hash.
Proof.
  revert l l'. induction k as [|k IH]; intros l l' Hl Hl' Hn Hn' Hd Hd' E.
  { cbn [Nat.pow] in *. destruct l as [|x [|]], l' as [|y [|]]; cbn [length] in *; try lia. cbn in E. left. by rewrite E. }
  cbn [Nat.pow] in Hn, Hn'. cbn [dup] in Hd, Hd'. cbn [node] in E.
  set (a := take (2 ^ k) l) in *. set (b := drop (2 ^ k) l) in *.
  set (a' := take (2 ^ k) l') in *. set (b' := drop (2 ^ k) l') in *.
  assert (l = a ++ b) as El by (symmetry; apply take_drop). assert (l' = a' ++ b') as El' by (symmetry; apply take_drop).
  assert (length a = min (2 ^ k) (length l) /\ length b = length l - 2 ^ k)%nat as [La Lb] by (by rewrite <- length_take, <- length_drop).
  assert (length a' = min (2 ^ k) (length l') /\ length b' = length l' - 2 ^ k)%nat as [La' Lb'] by (by rewrite <- length_take, <- length_drop).
  pose proof (Nat.pow_nonzero 2 k ltac:(lia)).
  assert (Forall hash32 a /\ Forall hash32 b) as [Ha Hb] by (by rewrite El, Forall_app in Hl).
  assert (Forall hash32 a' /\ Forall hash32 b') as [Ha' Hb'] by (by rewrite El', Forall_app in Hl').
  assert (forall x : list (list Z), (0 < length x)%nat -> x <> []) as Hne by (intros [] ?; [cbn in *; lia|done]).
  assert (forall x, Forall hash32 x -> (0 < length x)%nat -> hash32 (node Hash k x)) as Hsz by (intros; apply node_size; auto).
  (* when one tree uses its left half twice, so must the other *)
  assert (forall u v, Forall hash32 u -> Forall hash32 v -> length u = (2 ^ k)%nat -> (0 < length v <= 2 ^ k)%nat ->
    ~ dup k u -> ~ dup k v -> ~ (length v = (2 ^ k)%nat /\ node Hash k u = node Hash k v) ->
    node Hash k u = node Hash k v -> collision Hash) as Hhalf.
  { intros u v Hu Hv Lu Lv Hdu Hdv Hnd Euv. destruct (IH u v Hu Hv ltac:(lia) Lv Hdu Hdv Euv) as [->|]; [|done]. tauto. }
  destruct (decide (length l <= 2 ^ k)%nat), (decide (length l' <= 2 ^ k)%nat);
    apply hash_pair_inj in E as [[E1 E2]|]; auto; try (apply Hsz; [done|lia]).
  - destruct (IH a a' Ha Ha' ltac:(lia) ltac:(lia) ltac:(tauto) ltac:(tauto) E1) as [Eaa|]; [|by right]. left.
    assert (b = [] /\ b' = []) as [Eb Eb'] by (split; apply nil_length_inv; lia). by rewrite El, El', Eaa, Eb, Eb'.
  - right. apply (Hhalf a' b'); try tauto; [lia|lia|]. by rewrite <- E1, <- E2.
  - right. apply (Hhalf a b); try tauto; [lia|lia|]. by rewrite E1, E2.
  - destruct (IH a a' Ha Ha' ltac:(lia) ltac:(lia) ltac:(tauto) ltac:(tauto) E1) as [Eaa|]; [|by right]. destruct (IH b b' Hb Hb' ltac:(lia) ltac:(lia) ltac:(tauto) ltac:(tauto) E2) as [Ebb|]; [|by right].
    left. by rewrite El, El', Eaa, Ebb.
Qed.

(** A branch that leads to a node starts at one of its leaves. *)
Lemma from_branch_sound k l leaf br i : Forall hash32 l -> hash32 leaf -> Forall hash32 br -> length br = k ->
  (0 < length l <= 2 ^ k)%nat -> 0 <= i < 2 ^ Z.of_nat k ->
  ComputeMerkleRootFromBranch Hash leaf br i = node Hash k l -> leaf ∈ l \/ collision Hash.
Proof.
  intros Hl Hleaf Hbr Hk. subst k. revert l i Hl. induction br as [|x br IH] using rev_ind; intros l i Hl Hn Hi E.
  { cbn in *. destruct l as [|y [|]]; cbn [length] in *; try lia. cbn in E. left. rewrite E. constructor. }
  rewrite length_app, Nat.add_comm in *. cbn [length Nat.add] in *. cbn [Nat.pow] in Hn.
  rewrite Nat2Z.inj_succ, Z.pow_succ_r in Hi by lia. apply Forall_app in Hbr as [Hbr Hx]. apply Forall_cons in Hx as [Hx _].
  rewrite from_branch_snoc in E by lia. cbn [node] in E.
  set (k := length br) in *. set (a := take (2 ^ k) l) in *. set (b := drop (2 ^ k) l) in *.
  assert (l = a ++ b) as El by (symmetry; apply take_drop).
  assert (length a = min (2 ^ k) (length l) /\ length b = length l - 2 ^ k)%nat as [La Lb] by (by rewrite <- length_take, <- length_drop).
  pose proof (Nat.pow_nonzero 2 k ltac:(lia)).
  assert (Forall hash32 a /\ Forall hash32 b) as [Ha Hb] by (by rewrite El, Forall_app in Hl).
  assert (forall i, hash32 (ComputeMerkleRootFromBranch Hash leaf br i)) as Hfb.
  { clear -Hleaf Hash_size. revert leaf Hleaf. induction br as [|y br IH]; intros leaf Hleaf i; [done|].
    cbn [ComputeMerkleRootFromBranch]. apply IH. destruct (negb _); apply Hash_size. }
  assert (forall x, Forall hash32 x -> (0 < length x)%nat -> hash32 (node Hash k x)) as Hsz.
  { intros u Hu Hlu. apply node_size; [done|]. intros ->. cbn in Hlu. lia. }
  assert (forall j u, Forall hash32 u -> (forall y, y ∈ u -> y ∈ l) -> (0 < length u <= 2 ^ k)%nat -> 0 <= j < 2 ^ Z.of_nat k ->
    ComputeMerkleRootFromBranch Hash leaf br j = node Hash k u -> leaf ∈ l \/ collision Hash) as Hgo.
  { intros j u Hu Hin Lu Hj Ej. destruct (IH Hbr u j Hu Lu Hj Ej) as [?|?]; [left; auto|by right]. }
  assert (forall y, y ∈ a -> y ∈ l) as Hia by (intros y ?; rewrite El, elem_of_app; auto).
  assert (forall y, y ∈ b -> y ∈ l) as Hib by (intros y ?; rewrite El, elem_of_app; auto).
  destruct (decide (i < 2 ^ Z.of_nat k)), (decide (length l <= 2 ^ k)%nat);
    apply hash_pair_inj in E as [[E1 E2]|]; auto; try (apply Hsz; [done|lia]).
  - apply (Hgo i a); auto; lia.
  - apply (Hgo i a); auto; lia.
  - apply (Hgo (i - 2 ^ Z.of_nat k) a); auto; lia.
  - apply (Hgo (i - 2 ^ Z.of_nat k) b); auto; lia.
Qed.
End binding.

(** ** The theorems *)

Lemma op_eq_hash32 a b : hash32 a -> hash32 b -> op_eq a b = true <-> a = b.
Proof. unfold hash32, op_eq, Compare. intros. rewrite Z.eqb_eq. apply memcmp_eq. congruence. Qed.

Lemma depth_enough n : (n <= 2 ^ depth n)%nat.
Proof.
  unfold depth. destruct (decide (n <= 1)%nat); [destruct n as [|[|]]; cbn; lia|].
  apply Nat.log2_up_spec. lia.
Qed.

Lemma processed_start Hash branchpos pbranch leaves :
  processed Hash branchpos pbranch leaves 0 (mk_progress (replicate 32 (SetNull 32)) (-1) false []).
Proof.
  split; cbn [inner matchlevel mutated branch].
  - by rewrite length_replicate.
  - intros k m [Ho Hm]. destruct m; [done|]. pose proof (Nat.pow_nonzero 2 k). nia.
  - split; [done|]. intros (k & i & Hki & _). pose proof (Nat.pow_nonzero 2 k). nia.
  - done.
  - intros _. unfold pos_under. lia.
Qed.

(** The whole computation. *)
Lemma MerkleComputation_spec Hash branchpos pbranch leaves : (forall x, hash32 (Hash x)) -> Forall hash32 leaves ->
  leaves <> [] -> Z.of_nat (length leaves) <= 2 ^ 31 ->
  exists mut br, MerkleComputation Hash branchpos pbranch leaves = Some (merkle_root Hash leaves, mut, br) /\
    (mut = true <-> duplicated Hash leaves) /\
    (pbranch = true -> 0 <= branchpos < Z.of_nat (length leaves) ->
     br = path Hash (depth (length leaves)) leaves (Z.to_nat branchpos)).
Proof.
  intros HH Hl Hne Hb. unfold MerkleComputation, merkle_root. rewrite decide_False by done.
  assert (0 < length leaves)%nat as Hpos by (destruct leaves; [done|cbn; lia]).
  rewrite (proj2 (Nat.eqb_neq _ _)) by lia.
  destruct (process_spec Hash branchpos pbranch leaves (length leaves) 0 _ (processed_start _ _ _ _) eq_refl Hb) as (s & E & Hp).
  change (Z.of_nat 0) with 0 in E. rewrite E. cbn [mbind option_bind].
  destruct (lowest_bit_spec 32 0 (length leaves)) as (k & m & Ek & Ho & Em & Hk); [done|lia|cbn [Nat.pow]; lia|].
  cbn [Nat.pow] in Em, Ek. rewrite Nat.mul_1_r in Em, Ek. rewrite Ek. cbn [mbind option_bind].
  assert (0 < m)%nat by (destruct m; [done|lia]). pose proof (Nat.pow_nonzero 2 k ltac:(lia)).
  assert (set_bit (length leaves) k m) as Hs by (split; [done|lia]).
  destruct (sweep_spec Hash branchpos pbranch leaves 32 k m s (inner s !!! k) (matchlevel s =? Z.of_nat k) (branch s) Hp Hb)
    as (br & Esw & Hbr); try done; try lia.
  - assert (1 * 2 ^ k <= m * 2 ^ k)%nat by (apply Nat.mul_le_mono_r; lia). lia.
  - rewrite (processed_inner _ _ _ _ _ _ Hp k m Hs). by rewrite Em.
  - intros Hpb. destruct (processed_match _ _ _ _ _ _ _ _ Hp Hs Hpb) as [Hml Hbr]. rewrite Em in *.
    split; [by rewrite Z.eqb_eq|]. destruct (Z.eqb_spec (matchlevel s) (Z.of_nat k)); [auto|done].
  - rewrite Em in Esw. rewrite Esw. cbn [mbind option_bind]. exists (mutated s), br. split; [done|]. split; [|by intros; apply Hbr].
    rewrite (processed_mutated _ _ _ _ _ _ Hp). unfold duplicated.
    assert (forall k s e, (s < e <= length leaves)%nat -> hash32 (node Hash k (seg leaves s e))) as Hsz.
    { intros k0 s0 e Hse. apply node_size; [done|unfold seg; by apply Forall_take, Forall_drop|].
      intros E0%(f_equal length). rewrite length_seg in E0 by lia. cbn in E0. lia. }
    split; intros (j & i & Hji & Eji); exists j, i; (split; [done|]); pose proof (Nat.pow_nonzero 2 j ltac:(lia));
      apply op_eq_hash32 in Eji || apply op_eq_hash32; try done; apply Hsz; lia.
Qed.

(** C28: the constant-space computation is the Merkle tree.  For every non-empty list of
    up to 2^31 transaction ids, [ComputeMerkleRoot] returns the root of the binary tree
    whose levels are hashed pairwise, an odd last node with itself, and its flag tells
    exactly whether two complete sibling subtrees have the same hash; for every
    position, [ComputeMerkleBranch] returns the siblings on the way up, and
    [ComputeMerkleRootFromBranch] leads from the leaf and that branch to the root. *)
Theorem merkle_computation_correct (Hash : list Z -> list Z) (leaves : list (list Z)) :
  (forall x, hash32 (Hash x)) -> Forall hash32 leaves -> leaves <> [] -> Z.of_nat (length leaves) <= 2 ^ 31 ->
  (exists mutated, ComputeMerkleRoot Hash leaves = Some (merkle_root Hash leaves, mutated) /\
     (mutated = true <-> duplicated Hash leaves)) /\
  (forall pos leaf, leaves !! pos = Some leaf ->
     let br := path Hash (depth (length leaves)) leaves pos in
     ComputeMerkleBranch Hash leaves (Z.of_nat pos) = Some br /\
     ComputeMerkleRootFromBranch Hash leaf br (Z.of_nat pos) = merkle_root Hash leaves).
Proof.
  intros HH Hl Hne Hb. split.
  - destruct (MerkleComputation_spec Hash (u32 (-1)) false leaves HH Hl Hne Hb) as (mut & br & E & Hmut & _).
    exists mut. unfold ComputeMerkleRoot. by rewrite E.
  - intros pos leaf Hp br. pose proof (lookup_lt_Some _ _ _ Hp).
    destruct (MerkleComputation_spec Hash (Z.of_nat pos) true leaves HH Hl Hne Hb) as (mut & br' & E & _ & Hbr).
    split.
    + unfold ComputeMerkleBranch. rewrite E. cbn. rewrite Hbr, Nat2Z.id by (done || lia). done.
    + unfold merkle_root. rewrite decide_False by done. apply path_root; [apply depth_enough|done].
Qed.

(** A toy digest of 32 bytes, for concrete trees: the sum of the bytes at each place. *)
Definition toy_hash (x : list Z) : list Z :=
  map (fun i => u8 (x !!! i + 3 * x !!! (i + 32)%nat + Z.of_nat i)) (seq 0 32).

Lemma toy_hash_size x : hash32 (toy_hash x).
Proof. unfold hash32, toy_hash. by rewrite length_map, length_seq. Qed.

Definition toy_leaves : list (list Z) := map (fun i => replicate 32 i) [1; 2; 3; 4; 5].

Lemma merkle_computation_correct_witness :
  ComputeMerkleRoot toy_hash toy_leaves = Some (merkle_root toy_hash toy_leaves, false) /\
  ComputeMerkleBranch toy_hash toy_leaves (Z.of_nat 4) = Some (path toy_hash 3 toy_leaves 4).
Proof.
  destruct (merkle_computation_correct toy_hash toy_leaves toy_hash_size) as [(mut & E & _) Hbr];
    [by_decide|done|cbn; lia|].
  split; [|exact (proj1 (Hbr 4%nat (replicate 32 5) eq_refl))].
  destruct mut; [|exact E]. vm_compute in E. discriminate E.
Defined.

(** An unduplicated root binds the leaves.  Two non-empty lists of ids with trees of
    the same depth for which [ComputeMerkleRoot] returns the same root without setting
    the flag are equal, or two different strings of 64 bytes with the same digest are
    known; and a branch of the tree's depth that leads to the root starts at one of
    the ids, or there is such a collision. *)
Theorem merkle_root_binding (Hash : list Z -> list Z) (l l' : list (list Z)) (root : list Z) :
  (forall x, hash32 (Hash x)) -> Forall hash32 l -> Forall hash32 l' -> l <> [] -> l' <> [] ->
  Z.of_nat (length l) <= 2 ^ 31 -> Z.of_nat (length l') <= 2 ^ 31 ->
  ComputeMerkleRoot Hash l = Some (root, false) ->
  (ComputeMerkleRoot Hash l' = Some (root, false) -> depth (length l) = depth (length l') ->
   l = l' \/ collision Hash) /\
  (forall leaf br i, hash32 leaf -> Forall hash32 br -> length br = depth (length l) -> 0 <= i < 2 ^ Z.of_nat (length br) ->
   ComputeMerkleRootFromBranch Hash leaf br i = root -> leaf ∈ l \/ collision Hash).
Proof.
  intros HH Hl Hl' Hne Hne' Hb Hb' E.
  destruct (MerkleComputation_spec Hash (u32 (-1)) false l HH Hl Hne Hb) as (mut & br0 & E0 & Hmut & _).
  unfold ComputeMerkleRoot in E. rewrite E0 in E. cbn in E. injection E as Er ->. unfold merkle_root in Er.
  rewrite decide_False in Er by done.
  assert (0 < length l)%nat by (destruct l; [done|cbn; lia]).
  pose proof (depth_enough (length l)). split.
  - intros E' Hd. destruct (MerkleComputation_spec Hash (u32 (-1)) false l' HH Hl' Hne' Hb') as (mut' & br0' & E0' & Hmut' & _).
    unfold ComputeMerkleRoot in E'. rewrite E0' in E'. cbn in E'. injection E' as Er' ->. unfold merkle_root in Er'.
    rewrite decide_False in Er' by done. assert (0 < length l')%nat by (destruct l'; [done|cbn; lia]).
    pose proof (depth_enough (length l')). rewrite Hd in *.
    apply (node_inj Hash HH (depth (length l'))); try done; try congruence.
    + intros Hdup%dup_duplicated; [|done]. assert (false = true) by (by apply Hmut). done.
    + intros Hdup%dup_duplicated; [|done]. assert (false = true) by (by apply Hmut'). done.
  - intros leaf br i Hleaf Hbr Hlen Hi Hroot.
    apply (from_branch_sound Hash HH (depth (length l)) l leaf br i); try done; [by rewrite <- Hlen|congruence].
Qed.

Lemma merkle_root_binding_witness :
  replicate 32 2 ∈ toy_leaves \/ collision toy_hash.
Proof.
  assert (exists root br, ComputeMerkleRoot toy_hash toy_leaves = Some (root, false) /\
    ComputeMerkleBranch toy_hash toy_leaves 1 = Some br /\ Forall hash32 br /\ length br = 3%nat /\
    ComputeMerkleRootFromBranch toy_hash (replicate 32 2) br 1 = root) as (root & br & E & _ & H1 & H2 & H3).
  { eexists _, _. split; [vm_compute; reflexivity|]. split; [vm_compute; reflexivity|].
    split; [by_decide|]. split; [reflexivity|]. vm_compute. reflexivity. }
  refine (proj2 (merkle_root_binding toy_hash toy_leaves toy_leaves root toy_hash_size _ _ _ _ _ _ E)
    (replicate 32 2) br 1 _ H1 _ _ H3); [by_decide|by_decide|done|done|by_decide|by_decide|reflexivity|exact H2|rewrite H2; cbn; lia].
Defined.
