(* ===== verification/PartialMerkle.v ===== *)
(** * PartialMerkle: proofs that transactions are in a block

    Models [CPartialMerkleTree] of [src/src/merkleblock.h] and [merkleblock.cpp]: the
    depth-first encoding of a part of a Merkle tree and its verification.  [None] is
    an index out of the range of its vector. *)
From S2P Require Import Prelude ConsensusParams Endian Uint256 Serialize Merkle.

Record CPartialMerkleTree : Type := mk_partial {
  nTransactions : Z;
  vBits : list bool;
  vHash : list (list Z);
  fBad : bool;
}.

Section tree.
Context (Hash : list Z -> list Z).

Definition CalcTreeWidth (nTransactions : Z) (height : nat) : Z :=
  Z.shiftr (u32 (nTransactions + Z.shiftl 1 (Z.of_nat height) - 1)) (Z.of_nat height).

(** [while (CalcTreeWidth(nHeight) > 1) nHeight++] *)
Fixpoint tree_height (fuel nHeight : nat) (nTransactions : Z) : option nat :=
  match fuel with
  | O => None
  | S fuel' =>
      if CalcTreeWidth nTransactions nHeight >? 1 then tree_height fuel' (S nHeight) nTransactions else Some nHeight
  end.

Fixpoint CalcHash (nTransactions : Z) (height : nat) (pos : Z) (vTxid : list (list Z)) : option (list Z) :=
  match height with
  | O => vTxid !! Z.to_nat pos
  | S height' =>
      left_ ← CalcHash nTransactions height' (u32 (pos * 2)) vTxid;
      right_ ← (if u32 (pos * 2 + 1) <? CalcTreeWidth nTransactions height'
               then CalcHash nTransactions height' (u32 (pos * 2 + 1)) vTxid else Some left_);
      Some (Hash (left_ ++ right_))
  end.

(** The loop that looks for a match below a node; [rounds] is how often it runs. *)
Fixpoint any_match (rounds : nat) (p : Z) (vMatch : list bool) (fParentOfMatch : bool) : option bool :=
  match rounds with
  | O => Some fParentOfMatch
  | S rounds' =>
      m ← vMatch !! Z.to_nat p;
      any_match rounds' (p + 1) vMatch (fParentOfMatch || m)
  end.

(** The bits and hashes afterwards. *)
Fixpoint TraverseAndBuild (nTransactions : Z) (height : nat) (pos : Z) (vTxid : list (list Z)) (vMatch : list bool)
    (s : list bool * list (list Z)) : option (list bool * list (list Z)) :=
  let first := u32 (Z.shiftl pos (Z.of_nat height)) in
  let stop := Z.min (u32 (Z.shiftl (pos + 1) (Z.of_nat height))) nTransactions in
  fParentOfMatch ← any_match (Z.to_nat (stop - first)) first vMatch false;
  let bits := s.1 ++ [fParentOfMatch] in
  match height with
  | O =>
      h ← CalcHash nTransactions height pos vTxid;
      Some (bits, s.2 ++ [h])
  | S height' =>
      if negb fParentOfMatch then
        h ← CalcHash nTransactions height pos vTxid;
        Some (bits, s.2 ++ [h])
      else
        s ← TraverseAndBuild nTransactions height' (u32 (pos * 2)) vTxid vMatch (bits, s.2);
        if u32 (pos * 2 + 1) <? CalcTreeWidth nTransactions height'
        then TraverseAndBuild nTransactions height' (u32 (pos * 2 + 1)) vTxid vMatch s
        else Some s
  end.

(** The constructor from ids and the mask of those to prove. *)
Definition partial_merkle_tree (vTxid : list (list Z)) (vMatch : list bool) : option CPartialMerkleTree :=
  let nTransactions := u32 (Z.of_nat (length vTxid)) in
  nHeight ← tree_height 32 0 nTransactions;
  '(bits, hashes) ← TraverseAndBuild nTransactions nHeight 0 vTxid vMatch ([], []);
  Some (mk_partial nTransactions bits hashes false).

Definition empty_partial : CPartialMerkleTree := mk_partial 0 [] [] true.

(** What [TraverseAndExtract] changes. *)
Record extraction : Type := mk_extraction {
  bad : bool;
  nBitsUsed : Z;
  nHashUsed : Z;
  matched : list (list Z);
  vnIndex : list Z;
}.

Definition set_bad (s : extraction) : extraction :=
  mk_extraction true (nBitsUsed s) (nHashUsed s) (matched s) (vnIndex s).

Fixpoint TraverseAndExtract (t : CPartialMerkleTree) (height : nat) (pos : Z) (s : extraction) : list Z * extraction :=
  match vBits t !! Z.to_nat (nBitsUsed s) with
  | None => (SetNull 32, set_bad s)
  | Some fParentOfMatch =>
      let s := mk_extraction (bad s) (nBitsUsed s + 1) (nHashUsed s) (matched s) (vnIndex s) in
      let use_hash (_ : unit) :=
        match vHash t !! Z.to_nat (nHashUsed s) with
        | None => (SetNull 32, set_bad s)
        | Some hash =>
            let s := mk_extraction (bad s) (nBitsUsed s) (nHashUsed s + 1) (matched s) (vnIndex s) in
            (hash, if (height =? 0)%nat && fParentOfMatch
                   then mk_extraction (bad s) (nBitsUsed s) (nHashUsed s) (matched s ++ [hash]) (vnIndex s ++ [pos])
                   else s)
        end in
      match height with
      | O => use_hash tt
      | S height' =>
          if negb fParentOfMatch then use_hash tt
          else
            let '(left_, s) := TraverseAndExtract t height' (u32 (pos * 2)) s in
            if u32 (pos * 2 + 1) <? CalcTreeWidth (nTransactions t) height' then
              let '(right_, s) := TraverseAndExtract t height' (u32 (pos * 2 + 1)) s in
              (Hash (left_ ++ right_), if op_eq right_ left_ then set_bad s else s)
            else (Hash (left_ ++ left_), s)
      end
  end.

(** The root, the matched ids and their positions; the last are added to those the
    caller's vector held.  [None] only if the height is not found in 32 rounds. *)
Definition ExtractMatches (t : CPartialMerkleTree) (vnIndex0 : list Z) : option (list Z * list (list Z) * list Z) :=
  let fail := (SetNull 32, [], vnIndex0) in
  if nTransactions t =? 0 then Some fail
  else if nTransactions t >? MAX_BLOCK_BASE_SIZE / 60 then Some fail
  else if Z.of_nat (length (vHash t)) >? nTransactions t then Some fail
  else if Z.of_nat (length (vBits t)) <? Z.of_nat (length (vHash t)) then Some fail
  else
    nHeight ← tree_height 32 0 (nTransactions t);
    let '(hashMerkleRoot, s) := TraverseAndExtract t nHeight 0 (mk_extraction (fBad t) 0 0 [] vnIndex0) in
    if bad s then Some (SetNull 32, matched s, vnIndex s)
    else if negb ((nBitsUsed s + 7) / 8 =? (Z.of_nat (length (vBits t)) + 7) / 8) then Some (SetNull 32, matched s, vnIndex s)
    else if negb (nHashUsed s =? Z.of_nat (length (vHash t))) then Some (SetNull 32, matched s, vnIndex s)
    else Some (hashMerkleRoot, matched s, vnIndex s).
End tree.

(** ** Serialization *)

(** [vBytes[p / 8] |= vBits[p] << (p % 8)] for all bits. *)
Fixpoint pack_bits (p : nat) (bits : list bool) (vBytes : list Z) : list Z :=
  match bits with
  | [] => vBytes
  | b :: bits' =>
      pack_bits (S p) bits'
        (alter (fun x => Z.lor x (Z.shiftl (Z.b2z b) (Z.of_nat (p mod 8)))) (p / 8)%nat vBytes)
  end.

Definition bits_to_bytes (bits : list bool) : list Z :=
  pack_bits 0 bits (replicate ((length bits + 7) / 8) 0).

Definition bytes_to_bits (vBytes : list Z) : list bool :=
  map (fun p => negb (Z.land (vBytes !!! (p / 8)%nat) (Z.shiftl 1 (Z.of_nat (p mod 8))) =? 0)) (seq 0 (8 * length vBytes)).

Section codec.
Context (be : bool).

Definition partial_codec : Codec CPartialMerkleTree :=
  ser_iso (fun t => (nTransactions t, (vHash t, bits_to_bytes (vBits t))))
    (fun '(n, (h, b)) => mk_partial n (bytes_to_bits b) h false)
    (ser_pair (ser_uint32 be) (ser_pair (ser_vector be 32 (ser_flat 32)) (ser_byte_vector be))).
End codec.

(** ** The shape of the tree *)

Section shape.
Context (n : nat) (n_pos : (0 < n)%nat) (n_small : Z.of_nat n <= 2 ^ 30).

Lemma pow_of_nat h : 2 ^ Z.of_nat h = Z.of_nat (2 ^ h).
Proof. by rewrite Nat2Z.inj_pow. Qed.

(** A node is there when it has a leaf. *)
Lemma CalcTreeWidth_lt i h : 0 <= i -> (h <= 31)%nat ->
  (i <? CalcTreeWidth (Z.of_nat n) h) = (i * 2 ^ Z.of_nat h <? Z.of_nat n).
Proof.
  intros Hi Hh. unfold CalcTreeWidth. rewrite shiftl_mul, Z.mul_1_l, shiftr_div by lia.
  assert (2 ^ Z.of_nat h <= 2 ^ 31) by (apply Z.pow_le_mono_r; lia).
  rewrite uwrap_small by (unfold is_u; lia).
  set (w := 2 ^ Z.of_nat h) in *. assert (0 < w) by (unfold w; lia).
  pose proof (Z.div_mod (Z.of_nat n + w - 1) w ltac:(lia)). pose proof (Z.mod_pos_bound (Z.of_nat n + w - 1) w ltac:(lia)).
  destruct (Z.ltb_spec i ((Z.of_nat n + w - 1) / w)), (Z.ltb_spec (i * w) (Z.of_nat n)); [done|exfalso|exfalso|done]; nia.
Qed.

Lemma depth_small : (depth n <= 30)%nat.
Proof.
  unfold depth. destruct (decide (n <= 1)%nat); [destruct n as [|[|]]; cbn; lia|].
  apply Nat.log2_up_le_pow2; [lia|]. apply Nat2Z.inj_le. rewrite <- pow_of_nat. exact n_small.
Qed.

Lemma tree_height_spec fuel h : (h <= depth n)%nat -> (h + fuel = 32)%nat -> (h = 0 \/ 2 ^ (h - 1) < n)%nat ->
  tree_height fuel h (Z.of_nat n) = Some (depth n).
Proof.
  revert h. induction fuel as [|fuel IH]; intros h Hh Hf Hp; [pose proof depth_small; lia|].
  cbn [tree_height]. rewrite Z.gtb_ltb, CalcTreeWidth_lt by lia. rewrite Z.mul_1_l, pow_of_nat.
  destruct (Z.ltb_spec (Z.of_nat (2 ^ h)) (Z.of_nat n)).
  - apply IH; [|lia|right; replace (S h - 1)%nat with h by lia; lia].
    unfold depth. apply Nat.log2_up_lt_pow2; lia.
  - f_equal. apply Nat.le_antisymm; [done|]. apply Nat.log2_up_le_pow2; lia.
Qed.

(** The leaves below a node. *)
Definition upto (h pos : nat) : nat := Nat.min n ((pos + 1) * 2 ^ h).

Lemma node_positions h pos : (S h <= 31)%nat -> (pos * 2 ^ S h < n)%nat ->
  u32 (Z.of_nat pos * 2) = Z.of_nat (2 * pos) /\ u32 (Z.of_nat pos * 2 + 1) = Z.of_nat (2 * pos + 1) /\
  (u32 (Z.of_nat pos * 2 + 1) <? CalcTreeWidth (Z.of_nat n) h) = bool_decide ((2 * pos + 1) * 2 ^ h < n)%nat /\
  (2 * pos * 2 ^ h < n)%nat /\ (2 * pos * 2 ^ h = pos * 2 ^ S h)%nat.
Proof.
  intros Hh Hp. cbn [Nat.pow] in *. pose proof (Nat.pow_nonzero 2 h ltac:(lia)).
  assert (pos <= n)%nat by nia.
  assert (u32 (Z.of_nat pos * 2 + 1) = Z.of_nat (2 * pos + 1)) as E by (rewrite uwrap_small; unfold is_u; lia).
  rewrite E. split_and!; [rewrite uwrap_small; unfold is_u; lia|done| |lia|lia].
  rewrite CalcTreeWidth_lt, pow_of_nat by lia.
  destruct (Z.ltb_spec (Z.of_nat (2 * pos + 1) * Z.of_nat (2 ^ h)) (Z.of_nat n)); symmetry;
    [apply bool_decide_eq_true|apply bool_decide_eq_false]; lia.
Qed.
End shape.

(** ** Soundness *)

Section sound.
Context (Hash : list Z -> list Z) (Hash_size : forall x, hash32 (Hash x)).
Context (t : CPartialMerkleTree) (t_hashes : Forall hash32 (vHash t)).
Context (n : nat) (t_n : nTransactions t = Z.of_nat n) (n_pos : (0 < n)%nat) (n_small : Z.of_nat n <= 2 ^ 30).

Lemma extract_size h pos s : hash32 (TraverseAndExtract Hash t h pos s).1.
Proof.
  destruct h as [|h]; cbn [TraverseAndExtract]; destruct (vBits t !! _) as [b|]; try done.
  - destruct (vHash t !! _) as [x|] eqn:E; [|done]. by apply (Forall_lookup_1 _ _ _ _ t_hashes E).
  - destruct (negb b).
    + destruct (vHash t !! _) as [x|] eqn:E; [|done]. by apply (Forall_lookup_1 _ _ _ _ t_hashes E).
    + destruct (TraverseAndExtract _ _ _ _ _) as [x s']. destruct (_ <? _); [|apply Hash_size].
      destruct (TraverseAndExtract _ _ _ _ _) as [y s'']. apply Hash_size.
Qed.

(** A flag once set stays. *)
Lemma extract_bad h pos s : bad s = true -> bad (TraverseAndExtract Hash t h pos s).2 = true.
Proof.
  revert pos s. induction h as [|h IH]; intros pos s Hb; cbn [TraverseAndExtract]; destruct (vBits t !! _) as [b|]; try done.
  - cbn [nHashUsed]. destruct (vHash t !! _); [|done]. by destruct (_ && _).
  - cbn [nHashUsed]. destruct (negb b); [by destruct (vHash t !! _)|].
    destruct (TraverseAndExtract Hash t h (u32 (pos * 2)) _) as [x s'] eqn:E1.
    assert (bad s' = true) as Hb'.
    { change s' with ((x, s').2). rewrite <- E1. by apply IH. }
    destruct (_ <? _); [|done].
    destruct (TraverseAndExtract Hash t h _ s') as [y s''] eqn:E2.
    assert (bad s'' = true). { change s'' with ((y, s'').2). rewrite <- E2. by apply IH. }
    cbn [snd]. by destruct (op_eq y x).
Qed.

(** What was extracted below a node of [l] is among the leaves, at its place. *)
Definition extracted (l : list (list Z)) (first : nat) (s s' : extraction) : Prop :=
  exists ms ns, matched s' = matched s ++ ms /\ vnIndex s' = vnIndex s ++ map Z.of_nat ns /\
    Forall2 (fun m i => (first <= i)%nat /\ l !! (i - first)%nat = Some m) ms ns.

Lemma extracted_refl l first s s' : matched s' = matched s -> vnIndex s' = vnIndex s -> extracted l first s s'.
Proof. intros E1 E2. exists [], []. cbn. rewrite !app_nil_r. split_and!; [done|done|constructor]. Qed.

Lemma extracted_trans l first s1 s2 s3 : extracted l first s1 s2 -> extracted l first s2 s3 -> extracted l first s1 s3.
Proof.
  intros (ms & ns & E1 & E2 & HF) (ms' & ns' & E1' & E2' & HF'). exists (ms ++ ms'), (ns ++ ns').
  rewrite E1', E2', E1, E2, map_app, !app_assoc. split_and!; [done|done|]. by apply Forall2_app.
Qed.

(** The leaves of a part are leaves of the whole. *)
Lemma extracted_part l first s s' l' first' : (first <= first')%nat ->
  (forall i m, l' !! i = Some m -> l !! (first' - first + i)%nat = Some m) ->
  extracted l' first' s s' -> extracted l first s s'.
Proof.
  intros Hf Hl (ms & ns & E1 & E2 & HF). exists ms, ns. split_and!; [done|done|].
  eapply Forall2_impl; [exact HF|]. cbv beta. intros m i [Hi Hm]. split; [lia|].
  rewrite <- (Hl _ _ Hm). f_equal. lia.
Qed.

Lemma extract_sound h pos s x s' l : (h <= 30)%nat -> (pos * 2 ^ h < n)%nat ->
  TraverseAndExtract Hash t h (Z.of_nat pos) s = (x, s') -> bad s' = false ->
  Forall hash32 l -> (0 < length l <= 2 ^ h)%nat -> x = node Hash h l ->
  extracted l (pos * 2 ^ h) s s' \/ collision Hash.
Proof.
  revert pos s x s' l. induction h as [|h IH]; intros pos s x s' l Hh Hp E Hb Hl Hn ->.
  { cbn [TraverseAndExtract] in E. destruct (vBits t !! _) as [b|]; [|by simplify_eq].
    cbn [nHashUsed] in E. destruct (vHash t !! _) as [y|]; [|by simplify_eq].
    cbn [Nat.eqb andb Nat.pow] in *. destruct l as [|z [|]]; cbn [length] in *; try lia. cbn in E. injection E as -> <-.
    left. destruct b; cbn [matched vnIndex]; [|by apply extracted_refl].
    exists [z], [pos]. split_and!; [done|done|]. constructor; [|constructor]. rewrite Nat.mul_1_r, Nat.sub_diag. split; [lia|done]. }
  destruct (node_positions n n_pos n_small h pos ltac:(lia) Hp) as (E1 & E2 & E3 & H4 & E5).
  cbn [TraverseAndExtract] in E. destruct (vBits t !! _) as [b|]; [|by simplify_eq].
  cbn [nHashUsed] in E. destruct b; cbn [negb] in E.
  2: { destruct (vHash t !! _) as [y|]; [|by simplify_eq]. cbn [Nat.eqb andb] in E. injection E as -> <-.
       left. by apply extracted_refl. }
  rewrite t_n, E3, E1, E2 in E.
  set (s0 := mk_extraction _ _ _ _ _) in E.
  destruct (TraverseAndExtract Hash t h (Z.of_nat (2 * pos)) s0) as [y s1] eqn:Ey.
  pose proof (extract_size h (Z.of_nat (2 * pos)) s0) as Hy. rewrite Ey in Hy. cbn [fst] in Hy.
  cbn [Nat.pow] in Hn. pose proof (Nat.pow_nonzero 2 h ltac:(lia)). cbn [node] in E.
  set (a := take (2 ^ h) l) in *. set (d := drop (2 ^ h) l) in *.
  assert (l = a ++ d) as El by (symmetry; apply take_drop).
  assert (length a = min (2 ^ h) (length l) /\ length d = length l - 2 ^ h)%nat as [La Ld] by (by rewrite <- length_take, <- length_drop).
  assert (Forall hash32 a /\ Forall hash32 d) as [Ha Hd] by (by rewrite El, Forall_app in Hl).
  assert (forall u, Forall hash32 u -> (0 < length u)%nat -> hash32 (node Hash h u)) as Hsz.
  { intros u Hu Hlu. apply (node_size Hash Hash_size); [done|]. intros ->. cbn in Hlu. lia. }
  assert (extracted l (pos * 2 ^ S h) s s0) as H0 by (by apply extracted_refl).
  assert (forall i m, a !! i = Some m -> l !! i = Some m) as Hal.
  { intros i m Hm. rewrite El. by apply lookup_app_l_Some. }
  assert (bad s1 = false -> y = node Hash h a -> extracted l (pos * 2 ^ S h) s0 s1 \/ collision Hash) as Hleft.
  { intros Hb1 Ey'. destruct (IH (2 * pos)%nat s0 y s1 a ltac:(lia) H4 Ey Hb1 Ha ltac:(lia) Ey') as [He|]; [left|by right].
    rewrite E5 in He. revert He. apply extracted_part; [done|]. intros i m Hm. rewrite Nat.sub_diag. by apply Hal. }
  case_bool_decide as Hr.
  - destruct (TraverseAndExtract Hash t h (Z.of_nat (2 * pos + 1)) s1) as [z s2] eqn:Ez.
    pose proof (extract_size h (Z.of_nat (2 * pos + 1)) s1) as Hz. rewrite Ez in Hz. cbn [fst] in Hz.
    injection E as E <-. assert (op_eq z y = false /\ bad s2 = false) as [Hne Hb2].
    { destruct (op_eq z y); [done|]. done. }
    assert (bad s1 = false) as Hb1.
    { destruct (bad s1) eqn:Hb1; [|done]. pose proof (extract_bad h (Z.of_nat (2 * pos + 1)) s1 Hb1) as Hc. rewrite Ez in Hc. cbn in Hc. congruence. }
    rewrite Hne. change (Hash (y ++ z)) with (hash_pair Hash y z) in E.
    destruct (decide (length l <= 2 ^ h)%nat);
      apply (hash_pair_inj Hash) in E as [[Ey' Ez']|]; try (apply Hsz; [done|lia]); try done; try by right.
    + exfalso. apply not_true_iff_false in Hne. apply Hne. apply op_eq_hash32; [done|done|congruence].
    + destruct (Hleft Hb1 Ey') as [He1|]; [|by right].
      destruct (IH (2 * pos + 1)%nat s1 z s2 d ltac:(lia) Hr Ez Hb2 Hd ltac:(lia) Ez') as [He2|]; [left|by right].
      eapply extracted_trans; [exact H0|]. eapply extracted_trans; [exact He1|]. revert He2.
      apply extracted_part; [cbn [Nat.pow]; lia|]. intros i m Hm.
      replace ((2 * pos + 1) * 2 ^ h - pos * 2 ^ S h + i)%nat with (2 ^ h + i)%nat by (cbn [Nat.pow]; lia).
      by rewrite <- lookup_drop.
  - injection E as E <-. change (Hash (y ++ y)) with (hash_pair Hash y y) in E.
    assert (y = node Hash h a \/ collision Hash) as [Ey'|]; [|destruct (Hleft Hb Ey') as [?|]|]; try by right.
    + destruct (decide (length l <= 2 ^ h)%nat);
        apply (hash_pair_inj Hash) in E as [[Ey' Ez']|]; try (apply Hsz; [done|lia]); try done; auto.
    + left. eapply extracted_trans; [exact H0|done].
Qed.
End sound.

(** ** Completeness: what the constructor builds is extracted *)

Section complete.
Context (Hash : list Z -> list Z) (Hash_size : forall x, hash32 (Hash x)).
Context (l : list (list Z)) (vMatch : list bool) (l_hashes : Forall hash32 l).
Abbreviation n := (length l).
Context (match_length : length vMatch = n) (n_pos : (0 < n)%nat) (n_small : Z.of_nat n <= 2 ^ 30).

(** The leaves below a node, and those of them to prove. *)
Definition below (h pos : nat) : list (list Z) := seg l (pos * 2 ^ h) (upto n h pos).
Definition selected (s e : nat) : list nat := filter (fun p => vMatch !! p = Some true) (seq s (e - s)).
Definition wanted (h pos : nat) : list nat := selected (pos * 2 ^ h) (upto n h pos).
Definition any_wanted (h pos : nat) : bool := negb (bool_decide (wanted h pos = [])).

Fixpoint encoding (h pos : nat) : list bool * list (list Z) :=
  match h with
  | O => ([any_wanted h pos], [node Hash h (below h pos)])
  | S h' =>
      if any_wanted h pos then
        let '(b1, x1) := encoding h' (2 * pos) in
        if decide ((2 * pos + 1) * 2 ^ h' < n)%nat then
          let '(b2, x2) := encoding h' (2 * pos + 1) in (true :: b1 ++ b2, x1 ++ x2)
        else (true :: b1, x1)
      else ([false], [node Hash h (below h pos)])
  end.

Lemma selected_app s m e : (s <= m <= e)%nat -> selected s e = selected s m ++ selected m e.
Proof.
  intros Hm. unfold selected. rewrite <- filter_app. f_equal.
  replace (e - s)%nat with ((m - s) + (e - m))%nat by lia. rewrite seq_app. do 2 f_equal. lia.
Qed.

Lemma wanted_split h pos : (pos * 2 ^ S h < n)%nat ->
  wanted (S h) pos = wanted h (2 * pos) ++
    (if decide ((2 * pos + 1) * 2 ^ h < n)%nat then wanted h (2 * pos + 1) else []).
Proof.
  intros Hp. unfold wanted, upto. cbn [Nat.pow] in *. destruct (decide _).
  - rewrite (selected_app _ ((2 * pos + 1) * 2 ^ h)) by lia. f_equal; f_equal; lia.
  - rewrite app_nil_r. f_equal; lia.
Qed.

Lemma below_one pos : (pos < n)%nat -> below 0 pos = [l !!! pos].
Proof.
  intros Hp. unfold below, upto. cbn [Nat.pow]. rewrite !Nat.mul_1_r.
  replace (Nat.min n (pos + 1)) with (pos + 1)%nat by lia. by apply seg_one.
Qed.

Lemma node_below h pos : (pos * 2 ^ S h < n)%nat -> node Hash (S h) (below (S h) pos) =
  hash_pair Hash (node Hash h (below h (2 * pos)))
    (node Hash h (below h (if decide ((2 * pos + 1) * 2 ^ h < n)%nat then 2 * pos + 1 else 2 * pos))).
Proof.
  intros Hp. unfold below, upto. cbn [Nat.pow] in *. pose proof (Nat.pow_nonzero 2 h ltac:(lia)). destruct (decide _).
  - rewrite (node_pair Hash l h) by lia. f_equal; do 2 f_equal; lia.
  - rewrite (node_single Hash l h) by lia. f_equal; do 2 f_equal; lia.
Qed.

Lemma CalcHash_spec h pos : (h <= 31)%nat -> (pos * 2 ^ h < n)%nat ->
  CalcHash Hash (Z.of_nat n) h (Z.of_nat pos) l = Some (node Hash h (below h pos)).
Proof.
  revert pos. induction h as [|h IH]; intros pos Hh Hp.
  - cbn [CalcHash]. cbn [Nat.pow] in Hp. rewrite Nat2Z.id. rewrite below_one by lia. cbn [node].
    destruct (lookup_lt_is_Some_2 l pos ltac:(lia)) as [x Hx]. by rewrite Hx, (list_lookup_total_correct _ _ _ Hx).
  - destruct (node_positions n n_pos n_small h pos Hh Hp) as (E1 & E2 & E3 & H4 & E5).
    cbn [CalcHash]. rewrite E3, E1, E2, (IH (2 * pos)%nat) by lia. cbn [mbind option_bind]. rewrite node_below by done.
    case_bool_decide as Hr.
    + rewrite IH by lia. cbn [mbind option_bind]. by destruct (decide _).
    + cbn [mbind option_bind]. by destruct (decide _).
Qed.

Lemma any_match_spec rounds p b : (p + rounds <= n)%nat ->
  any_match rounds (Z.of_nat p) vMatch b = Some (b || negb (bool_decide (selected p (p + rounds) = []))).
Proof.
  revert p b. induction rounds as [|rounds IH]; intros p b Hp; cbn [any_match].
  { unfold selected. replace (p + 0 - p)%nat with 0%nat by lia. cbn. by rewrite orb_false_r. }
  rewrite Nat2Z.id. destruct (lookup_lt_is_Some_2 vMatch p ltac:(lia)) as [m Hm]. rewrite Hm. cbn [mbind option_bind].
  replace (Z.of_nat p + 1) with (Z.of_nat (S p)) by lia. rewrite IH by lia. f_equal.
  replace (p + S rounds)%nat with (S p + rounds)%nat by lia.
  rewrite (selected_app p (S p) (S p + rounds)) by lia.
  assert (selected p (S p) = if m then [p] else []) as ->.
  { unfold selected. replace (S p - p)%nat with 1%nat by lia. cbn [seq]. rewrite filter_cons, Hm. by destruct m. }
  rewrite <- orb_assoc. f_equal. destruct m; [|done]. cbn [app orb]. by rewrite bool_decide_eq_false_2.
Qed.

Lemma any_match_node h pos : (h <= 30)%nat -> (pos * 2 ^ h < n)%nat ->
  let first := u32 (Z.shiftl (Z.of_nat pos) (Z.of_nat h)) in
  let stop := Z.min (u32 (Z.shiftl (Z.of_nat pos + 1) (Z.of_nat h))) (Z.of_nat n) in
  any_match (Z.to_nat (stop - first)) first vMatch false = Some (any_wanted h pos).
Proof.
  intros Hh Hp. cbv zeta. rewrite !shiftl_mul by lia. rewrite pow_of_nat.
  assert (Z.of_nat (2 ^ h) <= 2 ^ 30) by (rewrite <- pow_of_nat; apply Z.pow_le_mono_r; lia).
  rewrite !uwrap_small by (unfold is_u; lia).
  replace (Z.of_nat pos * Z.of_nat (2 ^ h)) with (Z.of_nat (pos * 2 ^ h)) by lia.
  rewrite any_match_spec by lia. cbn [orb]. unfold any_wanted, wanted.
  by replace (pos * 2 ^ h + _)%nat with (upto n h pos) by (unfold upto; lia).
Qed.

Lemma TraverseAndBuild_spec h pos s : (h <= 30)%nat -> (pos * 2 ^ h < n)%nat ->
  TraverseAndBuild Hash (Z.of_nat n) h (Z.of_nat pos) l vMatch s =
  Some (s.1 ++ (encoding h pos).1, s.2 ++ (encoding h pos).2).
Proof.
  revert pos s. induction h as [|h IH]; intros pos s Hh Hp.
  - pose proof (any_match_node 0 pos Hh Hp) as Hm. cbv zeta in Hm. cbn [TraverseAndBuild]. rewrite Hm.
    cbn [mbind option_bind]. rewrite CalcHash_spec by lia. done.
  - pose proof (any_match_node (S h) pos Hh Hp) as Hm. cbv zeta in Hm. cbn [TraverseAndBuild]. rewrite Hm.
    cbn [mbind option_bind encoding]. destruct (any_wanted (S h) pos); cbn [negb].
    2: { rewrite CalcHash_spec by lia. done. }
    destruct (node_positions n n_pos n_small h pos ltac:(lia) Hp) as (E1 & E2 & E3 & H4 & E5).
    rewrite E1, E3, E2, (IH (2 * pos)%nat) by lia. cbn [mbind option_bind fst snd].
    destruct (encoding h (2 * pos)) as [b1 x1]. case_bool_decide as Hr.
    + rewrite IH by lia. destruct (decide _); [|done]. destruct (encoding h (2 * pos + 1)) as [b2 x2].
      cbn [fst snd]. by rewrite <- !app_assoc.
    + destruct (decide _); [done|]. cbn [fst snd]. by rewrite <- !app_assoc.
Qed.

(** There are no more hashes than leaves, and no more than bits. *)
Lemma encoding_length h pos : (pos * 2 ^ h < n)%nat ->
  (length (encoding h pos).2 <= upto n h pos - pos * 2 ^ h /\ length (encoding h pos).2 <= length (encoding h pos).1)%nat.
Proof.
  revert pos. induction h as [|h IH]; intros pos Hp.
  - cbn [encoding fst snd length]. unfold upto. cbn [Nat.pow] in *. lia.
  - cbn [Nat.pow] in Hp. pose proof (Nat.pow_nonzero 2 h ltac:(lia)). cbn [encoding].
    destruct (any_wanted (S h) pos); [|cbn [fst snd length]; unfold upto; cbn [Nat.pow]; lia].
    destruct (IH (2 * pos)%nat ltac:(lia)) as [H1 H2]. destruct (encoding h (2 * pos)) as [b1 x1]. cbn [fst snd] in *.
    destruct (decide _).
    + destruct (IH (2 * pos + 1)%nat ltac:(lia)) as [H3 H4]. destruct (encoding h (2 * pos + 1)) as [b2 x2].
      cbn [fst snd length] in *. rewrite !length_app. unfold upto in *. cbn [Nat.pow]. lia.
    + cbn [fst snd length] in *. unfold upto in *. cbn [Nat.pow]. lia.
Qed.

#[local] Instance dup_dec k x : Decision (dup Hash k x).
Proof. revert x. induction k as [|k IH]; intros x; cbn [dup]; apply _. Defined.

Lemma duplicated_below h pos : (pos * 2 ^ h < n)%nat -> duplicated Hash (below h pos) -> duplicated Hash l.
Proof.
  intros Hp (j & i & Hi & E). unfold below, upto in *. rewrite length_seg in Hi by lia.
  assert (j < h)%nat as Hjh.
  { apply Nat.nle_gt. intros Hkj. pose proof (Nat.pow_le_mono_r 2 h j ltac:(lia) Hkj). pose proof (Nat.pow_nonzero 2 j). nia. }
  destruct (pow_split j h Hjh) as [r Er]. exists j, (pos * r + i)%nat. rewrite Er in *.
  pose proof (Nat.pow_nonzero 2 j ltac:(lia)). split; [nia|].
  assert (forall a e b c, (b <= c)%nat -> (a + c <= e)%nat -> seg (seg l a e) b c = seg l (a + b) (a + c)) as Hss.
  { intros a e b c Hbc Hce. unfold seg at 1. rewrite drop_seg, take_seg by lia. f_equal. lia. }
  rewrite !Hss in E by nia.
  replace (2 * (pos * r + i) * 2 ^ j)%nat with (pos * (2 * r * 2 ^ j) + 2 * i * 2 ^ j)%nat by lia.
  replace ((2 * (pos * r + i) + 1) * 2 ^ j)%nat with (pos * (2 * r * 2 ^ j) + (2 * i + 1) * 2 ^ j)%nat by lia.
  by replace ((2 * (pos * r + i) + 2) * 2 ^ j)%nat with (pos * (2 * r * 2 ^ j) + (2 * i + 2) * 2 ^ j)%nat by lia.
Qed.

Lemma below_length h pos : (pos * 2 ^ h < n)%nat -> (0 < length (below h pos) <= 2 ^ h)%nat /\ Forall hash32 (below h pos).
Proof.
  intros Hp. unfold below, upto. pose proof (Nat.pow_nonzero 2 h ltac:(lia)). rewrite length_seg by lia. split; [lia|].
  unfold seg. by apply Forall_take, Forall_drop.
Qed.

(** Equal siblings are duplicated leaves, or a collision. *)
Lemma equal_siblings h pos : ((2 * pos + 1) * 2 ^ h < n)%nat ->
  node Hash h (below h (2 * pos)) = node Hash h (below h (2 * pos + 1)) -> duplicated Hash l \/ collision Hash.
Proof.
  intros Hp E. pose proof (Nat.pow_nonzero 2 h ltac:(lia)).
  destruct (below_length h (2 * pos)) as [L1 F1]; [lia|]. destruct (below_length h (2 * pos + 1)) as [L2 F2]; [lia|].
  destruct (decide ((2 * pos + 2) * 2 ^ h <= n)%nat).
  { left. exists h, pos. split; [done|]. unfold below, upto in E.
    replace (Nat.min n ((2 * pos + 1) * 2 ^ h)) with ((2 * pos + 1) * 2 ^ h)%nat in E by lia.
    by replace (Nat.min n ((2 * pos + 1 + 1) * 2 ^ h)) with ((2 * pos + 2) * 2 ^ h)%nat in E by lia. }
  destruct (decide (dup Hash h (below h (2 * pos)))) as [Hd|Hd].
  { left. apply (duplicated_below h (2 * pos)); [lia|]. apply (dup_duplicated Hash h); [lia|done]. }
  destruct (decide (dup Hash h (below h (2 * pos + 1)))) as [Hd'|Hd'].
  { left. apply (duplicated_below h (2 * pos + 1)); [lia|]. apply (dup_duplicated Hash h); [lia|done]. }
  destruct (node_inj Hash Hash_size h _ _ F1 F2 L1 L2 Hd Hd' E) as [El|]; [exfalso|by right].
  apply (f_equal length) in El. unfold below, upto in El. rewrite !length_seg in El by lia. lia.
Qed.

(** *** Reading the encoding back *)

Lemma wanted_leaf pos : (pos < n)%nat -> wanted 0 pos = if any_wanted 0 pos then [pos] else [].
Proof.
  intros Hp. unfold any_wanted, wanted, upto, selected. cbn [Nat.pow]. rewrite !Nat.mul_1_r.
  replace (Nat.min n (pos + 1) - pos)%nat with 1%nat by lia. cbn [seq]. rewrite filter_cons, filter_nil.
  by destruct (decide _).
Qed.

Lemma not_wanted h pos : any_wanted h pos = false -> wanted h pos = [].
Proof. unfold any_wanted. rewrite negb_false_iff. by intros ?%bool_decide_eq_true. Qed.

Definition advance (h pos : nat) (s : extraction) : extraction :=
  mk_extraction (bad s) (nBitsUsed s + Z.of_nat (length (encoding h pos).1))
    (nHashUsed s + Z.of_nat (length (encoding h pos).2))
    (matched s ++ map (fun p => l !!! p) (wanted h pos)) (vnIndex s ++ map Z.of_nat (wanted h pos)).

(** What is left of a vector from an index on. *)
Lemma drop_head {A} (v rest : list A) x i : 0 <= i -> drop (Z.to_nat i) v = x :: rest ->
  v !! Z.to_nat i = Some x /\ drop (Z.to_nat (i + 1)) v = rest.
Proof.
  intros Hi E. split.
  - by rewrite <- (Nat.add_0_r (Z.to_nat i)), <- lookup_drop, E.
  - replace (Z.to_nat (i + 1)) with (Z.to_nat i + 1)%nat by lia. by rewrite <- drop_drop, E.
Qed.

Lemma drop_past {A} (v w rest : list A) i : 0 <= i -> drop (Z.to_nat i) v = w ++ rest ->
  drop (Z.to_nat (i + Z.of_nat (length w))) v = rest.
Proof.
  intros Hi E. replace (Z.to_nat (i + Z.of_nat (length w))) with (Z.to_nat i + length w)%nat by lia.
  by rewrite <- drop_drop, E, drop_app_length.
Qed.

Lemma extract_encoding (t : CPartialMerkleTree) h pos s bits hashes :
  nTransactions t = Z.of_nat n -> (h <= 30)%nat -> (pos * 2 ^ h < n)%nat -> 0 <= nBitsUsed s -> 0 <= nHashUsed s ->
  drop (Z.to_nat (nBitsUsed s)) (vBits t) = (encoding h pos).1 ++ bits ->
  drop (Z.to_nat (nHashUsed s)) (vHash t) = (encoding h pos).2 ++ hashes ->
  TraverseAndExtract Hash t h (Z.of_nat pos) s = (node Hash h (below h pos), advance h pos s) \/
  duplicated Hash l \/ collision Hash.
Proof.
  intros Hn. revert pos s bits hashes. induction h as [|h IH]; intros pos s bits hashes Hh Hp Hb0 Hh0 Hb Hx.
  { cbn [encoding fst snd app] in Hb, Hx. apply drop_head in Hb as [Hb _]; [|done]. apply drop_head in Hx as [Hx _]; [|done].
    left. cbn [TraverseAndExtract]. rewrite Hb. cbn [nHashUsed]. rewrite Hx. cbn [Nat.eqb andb Nat.pow] in *. unfold advance.
    cbn [encoding fst snd length matched vnIndex nBitsUsed nHashUsed bad]. rewrite wanted_leaf by lia.
    destruct (any_wanted 0 pos); cbn [map]; [|by rewrite !app_nil_r]. f_equal. f_equal.
    rewrite below_one by lia. done. }
  destruct (node_positions n n_pos n_small h pos ltac:(lia) Hp) as (E1 & E2 & E3 & H4 & E5).
  cbn [TraverseAndExtract]. cbn [encoding] in Hb, Hx.
  destruct (any_wanted (S h) pos) eqn:Ew.
  2: { cbn [fst snd app] in Hb, Hx. apply drop_head in Hb as [Hb _]; [|done]. apply drop_head in Hx as [Hx _]; [|done].
       left. rewrite Hb. cbn [negb nHashUsed]. rewrite Hx. cbn [Nat.eqb andb]. unfold advance. cbn [encoding]. rewrite Ew.
       cbn [fst snd length matched vnIndex nBitsUsed nHashUsed bad]. rewrite not_wanted by done. cbn [map]. by rewrite !app_nil_r. }
  pose proof (wanted_split h pos Hp) as Hw. pose proof (node_below h pos Hp) as Hnode.
  destruct (encoding h (2 * pos)) as [b1 x1] eqn:En1.
  rewrite Hn, E3, E1, E2.
  destruct (decide ((2 * pos + 1) * 2 ^ h < n)%nat) as [Hr|Hr].
  - destruct (encoding h (2 * pos + 1)) as [b2 x2] eqn:En2. cbn [fst snd app] in Hb, Hx.
    rewrite <- app_assoc in Hb, Hx. apply drop_head in Hb as [Hb Hb1]; [|done]. rewrite Hb. cbn [negb].
    rewrite bool_decide_eq_true_2 by done. set (s0 := mk_extraction _ _ _ _ _).
    destruct (IH (2 * pos)%nat s0 (b2 ++ bits) (x2 ++ hashes)) as [E|]; [lia|lia|cbn; lia|done|by rewrite En1|by rewrite En1| |by right].
    rewrite E. clear E. destruct (IH (2 * pos + 1)%nat (advance h (2 * pos) s0) bits hashes) as [E|]; [lia|lia|cbn; lia|cbn; lia| | | |by right].
    + rewrite En2. unfold advance. cbn [nBitsUsed s0]. rewrite En1. cbn [fst]. apply drop_past; [lia|done].
    + rewrite En2. unfold advance. cbn [nHashUsed s0]. rewrite En1. cbn [snd]. apply drop_past; [lia|done].
    + rewrite E. clear E. rewrite Hnode. destruct (op_eq _ _) eqn:Eo.
      * right. apply op_eq_hash32 in Eo.
        -- by apply (equal_siblings h pos).
        -- apply (node_size Hash Hash_size); [by apply below_length|]. intros Hc%(f_equal length).
           destruct (below_length h (2 * pos + 1) ltac:(lia)) as [? _]. cbn [length] in Hc. lia.
        -- apply (node_size Hash Hash_size); [apply below_length; lia|]. intros Hc%(f_equal length).
           destruct (below_length h (2 * pos) ltac:(lia)) as [? _]. cbn [length] in Hc. lia.
      * left. f_equal. unfold advance. cbn [bad nBitsUsed nHashUsed matched vnIndex s0]. cbn [encoding].
        rewrite Ew, En1, En2. rewrite decide_True by done. cbn [fst snd length]. rewrite Hw, !map_app, !app_assoc, !length_app.
        f_equal; lia.
  - cbn [fst snd app] in Hb, Hx. apply drop_head in Hb as [Hb Hb1]; [|done]. rewrite Hb. cbn [negb].
    rewrite bool_decide_eq_false_2 by done. set (s0 := mk_extraction _ _ _ _ _).
    destruct (IH (2 * pos)%nat s0 bits hashes) as [E|]; [lia|lia|cbn; lia|done|by rewrite En1|by rewrite En1| |by right].
    rewrite E, Hnode. left. f_equal. unfold advance. cbn [bad nBitsUsed nHashUsed matched vnIndex s0]. cbn [encoding].
    rewrite Ew, En1. rewrite decide_False by done. cbn [fst snd length]. rewrite Hw, app_nil_r. f_equal; lia.
Qed.
End complete.

(** ** Bits and bytes *)

Section bits.

Definition bit_at (v : list Z) (q : nat) : bool := Z.testbit (v !!! (q / 8)%nat) (Z.of_nat (q mod 8)).

Lemma length_pack_bits p bits v : length (pack_bits p bits v) = length v.
Proof. revert p v. induction bits as [|b bits IH]; intros p v; cbn [pack_bits]; [done|]. by rewrite IH, length_alter. Qed.

Lemma bit_at_alter v p b q : (p < 8 * length v)%nat ->
  bit_at (alter (fun x => Z.lor x (Z.shiftl (Z.b2z b) (Z.of_nat (p mod 8)))) (p / 8)%nat v) q =
  bit_at v q || (bool_decide (p = q) && b).
Proof.
  intros Hp. unfold bit_at. pose proof (Nat.div_mod_eq p 8). pose proof (Nat.div_mod_eq q 8).
  pose proof (Nat.mod_upper_bound p 8 ltac:(lia)). pose proof (Nat.mod_upper_bound q 8 ltac:(lia)).
  destruct (decide (p / 8 = q / 8)%nat) as [E|E].
  - rewrite <- E. destruct (lookup_lt_is_Some_2 v (p / 8)%nat) as [x Hx]; [apply Nat.Div0.div_lt_upper_bound; lia|].
    rewrite (list_lookup_total_correct _ _ _ Hx).
    erewrite list_lookup_total_correct; [|by rewrite list_lookup_alter_eq, Hx].
    rewrite Z.lor_spec. f_equal. case_bool_decide as Hpq.
    + subst. rewrite Z.shiftl_spec by lia. rewrite Z.sub_diag. by destruct b.
    + rewrite Z.shiftl_spec by lia. cbn [andb]. destruct b; cbn [Z.b2z]; [|by rewrite Z.testbit_0_l].
      destruct (decide (Z.of_nat (q mod 8) < Z.of_nat (p mod 8))); [by apply Z.testbit_neg_r; lia|].
      apply Z.bits_above_log2; [lia|]. change (Z.log2 1) with 0. lia.
  - rewrite list_lookup_total_alter_ne by done. rewrite bool_decide_eq_false_2 by (intros ->; done).
    by rewrite orb_false_r.
Qed.

Lemma pack_bits_spec p bits v q : (p + length bits <= 8 * length v)%nat ->
  bit_at (pack_bits p bits v) q = bit_at v q || (bool_decide (p <= q)%nat && default false (bits !! (q - p)%nat)).
Proof.
  revert p v. induction bits as [|b bits IH]; intros p v Hl; cbn [pack_bits length] in *.
  { rewrite lookup_nil. cbn. by rewrite andb_false_r, orb_false_r. }
  rewrite IH by (rewrite length_alter; lia). rewrite bit_at_alter by lia. rewrite <- orb_assoc. f_equal.
  destruct (Nat.lt_trichotomy p q) as [Hpq|[->|Hpq]].
  - rewrite (bool_decide_eq_false_2 (p = q)), !bool_decide_eq_true_2 by lia. cbn [andb orb].
    by replace (q - p)%nat with (S (q - S p)) by lia.
  - rewrite (bool_decide_eq_true_2 (q = q)), (bool_decide_eq_false_2 (S q <= q)%nat), bool_decide_eq_true_2 by lia.
    rewrite Nat.sub_diag. cbn. by rewrite orb_false_r.
  - by rewrite !bool_decide_eq_false_2 by lia.
Qed.

(** Reading the written bits gives them back, filled up with zeros to whole bytes. *)
Lemma bits_roundtrip bits :
  bytes_to_bits (bits_to_bytes bits) = bits ++ replicate (8 * ((length bits + 7) / 8) - length bits) false.
Proof.
  unfold bytes_to_bits, bits_to_bytes. rewrite length_pack_bits, length_replicate.
  set (m := ((length bits + 7) / 8)%nat).
  assert (length bits <= 8 * m)%nat.
  { unfold m. pose proof (Nat.div_mod_eq (length bits + 7) 8). pose proof (Nat.mod_upper_bound (length bits + 7) 8). lia. }
  apply list_eq. intros q. rewrite list_lookup_fmap.
  destruct (decide (q < 8 * m)%nat) as [Hq|Hq].
  - rewrite lookup_seq_lt by done. cbn [fmap option_fmap option_map]. cbn [Nat.add].
    rewrite shiftl_mul, Z.mul_1_l, land_pow2 by lia. fold (bit_at (pack_bits 0 bits (replicate m 0)) q).
    rewrite pack_bits_spec by (rewrite length_replicate; lia). rewrite Nat.sub_0_r. cbn [andb].
    assert (bit_at (replicate m 0) q = false) as ->.
    { unfold bit_at. rewrite lookup_total_replicate_2; [by rewrite Z.testbit_0_l|]. apply Nat.Div0.div_lt_upper_bound. lia. }
    cbn [orb]. assert (forall b : bool, negb ((if b then 2 ^ Z.of_nat (q mod 8) else 0) =? 0) = b) as ->.
    { intros []; [|done]. by rewrite (proj2 (Z.eqb_neq _ _)) by lia. }
    destruct (decide (q < length bits)%nat).
    + rewrite lookup_app_l by done. by destruct (lookup_lt_is_Some_2 bits q) as [b ->].
    + rewrite lookup_app_r, lookup_replicate_2 by lia. by rewrite lookup_ge_None_2 by lia.
  - rewrite lookup_seq_ge by lia. symmetry. apply lookup_ge_None. rewrite length_app, length_replicate. lia.
Qed.
End bits.

(** ** The theorems *)

(** C29: a partial Merkle tree that leads to the root of a block proves its transactions.
    Whatever its bits and hashes are: if [ExtractMatches] returns the root of a list of
    ids, not the null value that stands for failure, and the number of transactions it
    claims gives a tree of the same depth, then every id it extracts is in the list at
    the position extracted with it, or two different strings of 64 bytes with the same
    digest are known. *)
Theorem partial_merkle_sound (Hash : list Z -> list Z) (t : CPartialMerkleTree) (l ms : list (list Z)) (ns : list Z) :
  (forall x, hash32 (Hash x)) -> Forall hash32 (vHash t) -> Forall hash32 l -> l <> [] ->
  0 <= nTransactions t -> depth (Z.to_nat (nTransactions t)) = depth (length l) ->
  merkle_root Hash l <> SetNull 32 ->
  ExtractMatches Hash t [] = Some (merkle_root Hash l, ms, ns) ->
  Forall2 (fun m i => 0 <= i /\ l !! Z.to_nat i = Some m) ms ns \/ collision Hash.
Proof.
  intros HH Ht Hl Hne Hn0 Hd Hroot E. unfold ExtractMatches in E.
  destruct (Z.eqb_spec (nTransactions t) 0) as [|Hnz]; [by simplify_eq|]. rewrite Z.gtb_ltb in E.
  destruct (Z.ltb_spec (MAX_BLOCK_BASE_SIZE / 60) (nTransactions t)) as [|Hmax]; [by simplify_eq|].
  change (MAX_BLOCK_BASE_SIZE / 60) with 33333 in Hmax.
  destruct (_ >? _); [by simplify_eq|]. destruct (_ <? _); [by simplify_eq|].
  set (n := Z.to_nat (nTransactions t)) in *. assert (nTransactions t = Z.of_nat n) as En by lia.
  assert (0 < n)%nat as Hn by lia. assert (Z.of_nat n <= 2 ^ 30) as Hsm by lia.
  rewrite En in E. rewrite (tree_height_spec n Hn Hsm) in E by (lia || by left). cbn [mbind option_bind] in E.
  destruct (TraverseAndExtract Hash t (depth n) 0 _) as [x s] eqn:Ex.
  destruct (bad s) eqn:Hb; [by simplify_eq|]. destruct (negb _); [by simplify_eq|]. destruct (negb _); [by simplify_eq|].
  injection E as -> <- <-.
  destruct (extract_sound Hash HH t Ht n En Hn Hsm (depth n) 0 _ _ s l (depth_small n Hn Hsm) Hn Ex Hb Hl) as [He|]; [| |left|by right].
  - split; [destruct l; [done|cbn; lia]|]. rewrite Hd. apply depth_enough.
  - unfold merkle_root. by rewrite decide_False, Hd by done.
  - destruct He as (ms & ns & -> & -> & HF). cbn [matched vnIndex app]. apply Forall2_fmap_r.
    eapply Forall2_impl; [exact HF|]. cbn. intros m i [_ Hi]. rewrite Nat2Z.id. split; [lia|]. by rewrite Nat.sub_0_r in Hi.
Qed.

(** The tree that is read from the bytes of another. *)
Definition reread (t : CPartialMerkleTree) : CPartialMerkleTree :=
  mk_partial (nTransactions t) (bytes_to_bits (bits_to_bytes (vBits t))) (vHash t) false.

(** Extraction from what the constructor built, with bits that are not used at the end. *)
Lemma extract_built Hash l vMatch pad : (forall x, hash32 (Hash x)) -> Forall hash32 l -> length vMatch = length l ->
  (0 < length l)%nat -> Z.of_nat (length l) <= 33333 ->
  let enc := encoding Hash l vMatch (depth (length l)) 0 in
  ((length enc.1 + pad + 7) / 8 = (length enc.1 + 7) / 8)%nat ->
  ExtractMatches Hash (mk_partial (Z.of_nat (length l)) (enc.1 ++ replicate pad false) enc.2 false) [] =
    Some (merkle_root Hash l, map (fun p => l !!! p) (selected vMatch 0 (length l)),
          map Z.of_nat (selected vMatch 0 (length l))) \/
  duplicated Hash l \/ collision Hash.
Proof.
  intros HH Hl Hm Hn Hmax enc Hpad. assert (Z.of_nat (length l) <= 2 ^ 30) as Hsm by lia.
  set (t := mk_partial _ _ _ _). set (d := depth (length l)) in *.
  pose proof (depth_small _ Hn Hsm) as Hd. fold d in Hd. pose proof (depth_enough (length l)) as Hd2. fold d in Hd2.
  destruct (encoding_length Hash l vMatch Hm ltac:(lia) d 0) as [L1 L2]; [done|]. fold enc in L1, L2.
  assert (upto (length l) d 0 = length l) as Eu by (unfold upto; lia). rewrite Eu in L1.
  destruct (extract_encoding Hash HH l vMatch Hl Hm Hn Hsm t d 0 (mk_extraction false 0 0 [] []) (replicate pad false) [])
    as [E|]; [done|done|done|done|done|done|cbn; by rewrite app_nil_r| |by right].
  left. unfold ExtractMatches. cbn [nTransactions vHash vBits t fBad].
  rewrite (proj2 (Z.eqb_neq _ _)) by lia. change (MAX_BLOCK_BASE_SIZE / 60) with 33333.
  rewrite !Z.gtb_ltb. rewrite length_app. rewrite !(proj2 (Z.ltb_ge _ _)) by lia.
  rewrite (tree_height_spec _ Hn Hsm) by (lia || by left). cbn [mbind option_bind]. fold d. fold t.
  change 0 with (Z.of_nat 0) at 1. rewrite E. unfold advance. cbn [bad nBitsUsed nHashUsed matched vnIndex]. fold enc.
  rewrite length_replicate, !Z.add_0_l, Z.eqb_refl. cbn [negb app].
  replace ((Z.of_nat (length enc.1 + pad) + 7) / 8) with ((Z.of_nat (length enc.1) + 7) / 8).
  2: { apply (f_equal Z.of_nat) in Hpad. rewrite !Nat2Z.inj_div, !Nat2Z.inj_add in Hpad. rewrite Nat2Z.inj_add. done. }
  rewrite Z.eqb_refl. cbn [negb]. unfold wanted, below. rewrite Eu. cbn [Nat.mul]. rewrite seg_all.
  unfold merkle_root. rewrite decide_False; [done|]. intros ->. cbn in Hn. lia.
Qed.

Lemma pad_bits k : ((k + (8 * ((k + 7) / 8) - k) + 7) / 8 = (k + 7) / 8)%nat.
Proof.
  pose proof (Nat.div_mod_eq (k + 7) 8). pose proof (Nat.mod_upper_bound (k + 7) 8 ltac:(lia)).
  replace (k + (8 * ((k + 7) / 8) - k) + 7)%nat with (7 + ((k + 7) / 8) * 8)%nat by lia.
  by rewrite Nat.div_add by lia.
Qed.

(** *** The bytes of a tree *)

Lemma pack_bits_bytes p bits v : Forall is_byte v -> Forall is_byte (pack_bits p bits v).
Proof.
  revert p v. induction bits as [|b bits IH]; intros p v Hv; cbn [pack_bits]; [done|]. apply IH.
  apply Forall_alter; [done|]. intros x Hx Hb. apply lor_bound; [lia|done|].
  pose proof (Nat.mod_upper_bound p 8 ltac:(lia)). rewrite shiftl_mul by lia. unfold is_u.
  assert (2 ^ Z.of_nat (p mod 8) <= 2 ^ 7) by (apply Z.pow_le_mono_r; lia). destruct b; cbn [Z.b2z]; lia.
Qed.

Lemma partial_codec_read be t rest : is_u 32 (nTransactions t) -> Forall (blob_wf 32) (vHash t) ->
  Z.of_nat (length (vHash t)) <= MAX_SIZE -> Z.of_nat (length (vBits t)) <= MAX_SIZE ->
  Unserialize (partial_codec be) (bytes_of (partial_codec be) t ++ rest) = Ok (reread t, rest).
Proof.
  intros Hn Hh Hl Hb. unfold partial_codec, ser_iso, bytes_of. cbn [Serialize Unserialize].
  set (tup := (nTransactions t, (vHash t, bits_to_bytes (vBits t)))).
  set (c := ser_pair _ _).
  assert (Unserialize c (bytes_of c tup ++ rest) = Ok (tup, rest)) as E.
  { unfold c. apply law_read. unfold tup. cbn [fst snd]. split; [done|]. split.
    - split; [|done]. eapply Forall_impl; [exact Hh|]. intros x [Hx ?]. by rewrite Hx.
    - split; [apply pack_bits_bytes, Forall_replicate; by_decide|].
      unfold bits_to_bytes. rewrite length_pack_bits, length_replicate.
      pose proof (Nat.div_mod_eq (length (vBits t) + 7) 8). unfold MAX_SIZE in *. lia. }
  unfold bytes_of in E. erewrite bind_Ok; [|exact E]. done.
Qed.

(** How long an encoding is, and what its hashes are. *)
Lemma encoding_bits Hash l vMatch h pos : (pos * 2 ^ h < length l)%nat ->
  (length (encoding Hash l vMatch h pos).1 <= (h + 1) * (upto (length l) h pos - pos * 2 ^ h))%nat.
Proof.
  revert pos. induction h as [|h IH]; intros pos Hp.
  - cbn [encoding fst length]. unfold upto. cbn [Nat.pow] in *. lia.
  - cbn [Nat.pow] in Hp. pose proof (Nat.pow_nonzero 2 h ltac:(lia)). cbn [encoding].
    assert (1 <= upto (length l) (S h) pos - pos * 2 ^ S h)%nat by (unfold upto; cbn [Nat.pow]; lia).
    destruct (any_wanted _ _ _ _); [|cbn [fst length]; nia].
    pose proof (IH (2 * pos)%nat ltac:(lia)) as H1. destruct (encoding _ _ _ h (2 * pos)) as [b1 x1]. cbn [fst] in *.
    destruct (decide _).
    + pose proof (IH (2 * pos + 1)%nat ltac:(lia)) as H3. destruct (encoding _ _ _ h (2 * pos + 1)) as [b2 x2].
      cbn [fst length] in *. rewrite !length_app.
      assert (upto (length l) (S h) pos - pos * 2 ^ S h = (upto (length l) h (2 * pos) - 2 * pos * 2 ^ h) +
        (upto (length l) h (2 * pos + 1) - (2 * pos + 1) * 2 ^ h))%nat as E by (unfold upto in *; cbn [Nat.pow]; lia).
      rewrite E in *. rewrite Nat.mul_add_distr_l. lia.
    + cbn [fst length] in *.
      assert (upto (length l) (S h) pos - pos * 2 ^ S h = upto (length l) h (2 * pos) - 2 * pos * 2 ^ h)%nat as E by (unfold upto in *; cbn [Nat.pow]; lia).
      rewrite E in *. nia.
Qed.

Lemma node_wf Hash k l : (forall x, blob_wf 32 (Hash x)) -> Forall (blob_wf 32) l -> l <> [] -> blob_wf 32 (node Hash k l).
Proof.
  intros HH Hl Hne. destruct k as [|k]; cbn [node]; [|destruct (decide _); apply HH].
  destruct l as [|x l]; [done|]. by apply Forall_cons in Hl as [? _].
Qed.

Lemma encoding_hashes Hash l vMatch h pos : (forall x, blob_wf 32 (Hash x)) -> Forall (blob_wf 32) l ->
  (pos * 2 ^ h < length l)%nat -> Forall (blob_wf 32) (encoding Hash l vMatch h pos).2.
Proof.
  intros HH Hl. assert (forall h pos, (pos * 2 ^ h < length l)%nat -> blob_wf 32 (node Hash h (below l h pos))) as Hnode.
  { clear h pos. intros h pos Hp. pose proof (Nat.pow_nonzero 2 h ltac:(lia)).
    assert (upto (length l) h pos <= length l)%nat by (unfold upto; lia).
    apply node_wf; [done|unfold below, seg; by apply Forall_take, Forall_drop|].
    intros E%(f_equal length). unfold below in E. rewrite length_seg in E by done. cbn [length] in E. unfold upto in E. lia. }
  revert pos. induction h as [|h IH]; intros pos Hp; cbn [encoding].
  - cbn [snd]. by apply Forall_singleton, Hnode.
  - destruct (any_wanted _ _ _ _); [|cbn [snd]; by apply Forall_singleton, Hnode]. cbn [Nat.pow] in Hp.
    pose proof (IH (2 * pos)%nat ltac:(lia)) as H1. destruct (encoding _ _ _ h (2 * pos)) as [b1 x1]. cbn [snd] in *.
    destruct (decide _); [|done].
    pose proof (IH (2 * pos + 1)%nat ltac:(lia)) as H2. destruct (encoding _ _ _ h (2 * pos + 1)) as [b2 x2]. cbn [snd] in *.
    by apply Forall_app.
Qed.

(** A partial Merkle tree proves what it was built for.  For up to 33333 ids, no two
    complete sibling subtrees of which have the same hash, the constructor succeeds for
    every mask; the tree can be written and read; and from the tree and from the one
    read back, [ExtractMatches] returns the Merkle root, exactly the ids selected by
    the mask, and their positions (or a collision of the hash is known). *)
Theorem partial_merkle_roundtrip (be : bool) (Hash : list Z -> list Z) (l : list (list Z)) (vMatch : list bool) :
  (forall x, blob_wf 32 (Hash x)) -> Forall (blob_wf 32) l -> length vMatch = length l ->
  0 < Z.of_nat (length l) <= 33333 -> ~ duplicated Hash l ->
  let sel := filter (fun p => vMatch !! p = Some true) (seq 0 (length l)) in
  let expected := Some (merkle_root Hash l, map (fun p => l !!! p) sel, map Z.of_nat sel) in
  exists t, partial_merkle_tree Hash l vMatch = Some t /\
    Unserialize (partial_codec be) (bytes_of (partial_codec be) t) = Ok (reread t, []) /\
    (ExtractMatches Hash t [] = expected /\ ExtractMatches Hash (reread t) [] = expected \/ collision Hash).
Proof.
  intros HH Hl Hm Hn Hnd sel expected.
  assert (forall x, hash32 (Hash x)) as HH' by (intros x; apply HH).
  assert (Forall hash32 l) as Hl' by (eapply Forall_impl; [exact Hl|]; by intros x [? _]).
  assert (sel = selected vMatch 0 (length l)) as Esel by (unfold sel, selected; by rewrite Nat.sub_0_r).
  set (d := depth (length l)). set (enc := encoding Hash l vMatch d 0).
  destruct (encoding_length Hash l vMatch Hm ltac:(lia) d 0) as [L1 L2]; [cbn; lia|]. fold enc in L1, L2.
  exists (mk_partial (Z.of_nat (length l)) enc.1 enc.2 false). split; [|split].
  - unfold partial_merkle_tree. rewrite uwrap_small by (unfold is_u; lia).
    rewrite (tree_height_spec (length l)) by (lia || by left). cbn [mbind option_bind]. fold d.
    change 0 with (Z.of_nat 0). rewrite (TraverseAndBuild_spec Hash l vMatch) by (done || lia || (cbn; lia) || (apply depth_small; lia)).
    cbn [mbind option_bind fst snd app]. done.
  - rewrite <- (app_nil_r (bytes_of _ _)). apply partial_codec_read; cbn [nTransactions vHash vBits].
    + unfold is_u. lia.
    + apply encoding_hashes; [done|done|cbn; lia].
    + unfold upto in L1. unfold MAX_SIZE. lia.
    + pose proof (encoding_bits Hash l vMatch d 0 ltac:(cbn; lia)) as Hb. fold enc in Hb. unfold upto in Hb.
      pose proof (depth_small (length l) ltac:(lia) ltac:(lia)) as Hd. fold d in Hd. unfold MAX_SIZE. nia.
  - pose proof (extract_built Hash l vMatch 0 HH' Hl' Hm ltac:(lia) ltac:(lia)) as H1.
    pose proof (extract_built Hash l vMatch (8 * ((length enc.1 + 7) / 8) - length enc.1) HH' Hl' Hm ltac:(lia) ltac:(lia)) as H2.
    cbv zeta in H1, H2. fold d enc in H1, H2. cbn [replicate] in H1. rewrite app_nil_r, Nat.add_0_r in H1.
    unfold reread. cbn [nTransactions vHash vBits]. rewrite bits_roundtrip. rewrite <- Esel in H1, H2.
    destruct (H1 eq_refl) as [E1|[?|?]]; [|done|by right].
    destruct (H2 (pad_bits _)) as [E2|[?|?]]; [|done|by right]. left. done.
Qed.

(** The second and the fifth of five transactions. *)
Definition toy_mask : list bool := [false; true; false; false; true].
Definition toy_partial : CPartialMerkleTree :=
  default empty_partial (partial_merkle_tree toy_hash toy_leaves toy_mask).

Lemma toy_hash_wf x : blob_wf 32 (toy_hash x).
Proof.
  split; [apply toy_hash_size|]. unfold toy_hash. apply Forall_fmap, Forall_true. intros i. apply uwrap_range. lia.
Qed.

Lemma toy_not_duplicated : ~ duplicated toy_hash toy_leaves.
Proof.
  destruct (MerkleComputation_spec toy_hash (u32 (-1)) false toy_leaves toy_hash_size) as (mut & br & E & <- & _);
    [by_decide|done|by_decide|]. intros ->.
  assert (fst <$> MerkleComputation toy_hash (u32 (-1)) false toy_leaves = Some (merkle_root toy_hash toy_leaves, true)) as E' by (by rewrite E).
  vm_compute in E'. discriminate E'.
Qed.

Lemma partial_merkle_sound_witness :
  Forall2 (fun m i => 0 <= i /\ toy_leaves !! Z.to_nat i = Some m) [replicate 32 2; replicate 32 5] [1; 4] \/ collision toy_hash.
Proof.
  refine (partial_merkle_sound toy_hash toy_partial toy_leaves [replicate 32 2; replicate 32 5] [1; 4] toy_hash_size _ _ _ _ _ _ _).
  - by_decide.
  - by_decide.
  - done.
  - vm_compute. discriminate.
  - vm_compute. reflexivity.
  - intros E. vm_compute in E. discriminate E.
  - vm_compute. reflexivity.
Defined.

Lemma partial_merkle_roundtrip_witness :
  ExtractMatches toy_hash (reread toy_partial) [] =
    Some (merkle_root toy_hash toy_leaves, [replicate 32 2; replicate 32 5], [1; 4]) \/ collision toy_hash.
Proof.
  destruct (partial_merkle_roundtrip false toy_hash toy_leaves toy_mask toy_hash_wf) as (t & E & _ & Ht);
    [by_decide|reflexivity|by_decide|exact toy_not_duplicated|].
  assert (toy_partial = t) as -> by (unfold toy_partial; rewrite E; reflexivity).
  destruct Ht as [[_ Ht]|Hc]; [left; exact Ht|right; exact Hc].
Defined.
