(* ===== verification/Block.v ===== *)
(** * Block: block headers, merged mining proofs and blocks

    Models [src/src/primitives/block.h], [block.cpp], the data of [src/src/auxpow.h]
    and [auxpow.cpp], and the Merkle roots of blocks in
    [src/src/consensus/merkle.cpp].  A header may carry the proof of a parent chain,
    which has a header of its own: the two types are mutually inductive. *)
From S2P Require Import Prelude Endian Uint256 Serialize Amount Transaction Merkle.
From S2P Require ArithUint256.

Definition AUXPOW_CHAIN_ID : Z := 666.
Definition BLOCK_VERSION_DEFAULT : Z := Z.shiftl 1 0.
Definition BLOCK_VERSION_AUXPOW : Z := Z.shiftl 1 8.
Definition BLOCK_VERSION_CHAIN_START : Z := Z.shiftl 1 16.
Definition BLOCK_VERSION_CHAIN_END : Z := Z.shiftl 1 30.
Definition BLOCK_PROOF_OF_STAKE : Z := Z.shiftl 1 0.
Definition BLOCK_STAKE_ENTROPY : Z := Z.shiftl 1 1.
Definition BLOCK_STAKE_MODIFIER : Z := Z.shiftl 1 2.
Definition MTP_L : nat := 64.

(** [nBlockMTP] is its words, row after row. *)
Record CMTPHashData : Type := mk_mtp {
  hashRootMTP : list Z;
  nBlockMTP : list Z;
  nProofMTP : list (list (list Z));
}.

Module Header.
Inductive CBlockHeader : Type := mk {
  nVersion : Z;
  hashPrevBlock : list Z;
  hashMerkleRoot : list Z;
  nTime : Z;
  nBits : Z;
  nNonce : Z;
  nVersionMTP : Z;
  mtpHashValue : list Z;
  auxpow : option CAuxPow;
  mtpHashData : option CMTPHashData;
  nFlags : Z;
}
with CAuxPow : Type := mk_aux {
  tx : CTransaction;
  hashBlock : list Z;
  vMerkleBranch : list (list Z);
  nIndex : Z;
  vChainMerkleBranch : list (list Z);
  nChainIndex : Z;
  parentBlockHeader : CBlockHeader;
}.

Definition NORMAL_SERIALIZE_SIZE : Z := 116.
Definition CURRENT_VERSION : Z := 8.
Definition CURRENT_MTP_VERSION : Z := 0x1000.

(** [SetBlockVersion] *)
Definition block_version (nBlockVersion : Z) : Z :=
  i32 (Z.lor nBlockVersion (AUXPOW_CHAIN_ID * BLOCK_VERSION_CHAIN_START)).

(** The default constructor: [SetNull] after the initializers. *)
Definition null : CBlockHeader :=
  mk (block_version CURRENT_VERSION) (SetNull 32) (SetNull 32) 0 0 0 0x1000 (SetNull 32) None None 0.

Definition IsNull (h : CBlockHeader) : bool := nBits h =? 0.
Definition GetPoWHash (h : CBlockHeader) : list Z := mtpHashValue h.
Definition GetBlockTime (h : CBlockHeader) : Z := nTime h.
(** The quotient of [int]s is truncated. *)
Definition GetChainID (h : CBlockHeader) : Z := Z.quot (nVersion h) BLOCK_VERSION_CHAIN_START.
Definition GetBlockVersion (h : CBlockHeader) : Z := Z.land (nVersion h) 0xff.

Definition SetAuxPow (pow : option CAuxPow) (h : CBlockHeader) : CBlockHeader :=
  let v := match pow with
           | Some _ => Z.lor (nVersion h) BLOCK_VERSION_AUXPOW
           | None => Z.land (nVersion h) (Z.lnot BLOCK_VERSION_AUXPOW)
           end in
  mk v (hashPrevBlock h) (hashMerkleRoot h) (nTime h) (nBits h) (nNonce h) (nVersionMTP h) (mtpHashValue h)
    pow (mtpHashData h) (nFlags h).

Definition is_auxpow (v : Z) : bool := flag_set v BLOCK_VERSION_AUXPOW.
Definition is_stake (f : Z) : bool := flag_set f BLOCK_PROOF_OF_STAKE.
End Header.
Import Header.

(** ** Serialization *)

(** A fixed number of elements, without a count. *)
Definition ser_array {T} (n : nat) (c : Codec T) : Codec (list T) :=
  {| Serialize St os v s := foldl (fun s x => Serialize c x s) s v;
     Unserialize := read_n n (Unserialize c) |}.

(** A part that is there or not. *)
Definition ser_opt {T} (there : bool) (c : Codec T) : Codec (option T) :=
  {| Serialize St os o s := match o with Some x => Serialize c x s | None => s end;
     Unserialize := if there then x ← Unserialize c; mret (Some x) else mret None |}.

Section stream.
Context (be : bool) (nType nVer nTime0 : Z).

(** A word of an array that is written as it is in memory. *)
Definition ser_host_word : Codec Z :=
  {| Serialize St os x := write (host_store be 8 x);
     Unserialize := bs ← read 8; mret (host_load be bs) |}.

(** One entry of [nProofMTP]: the number of blocks in a byte, then the blocks.  The
    assertions are that there are less than 256 and each has 16 bytes. *)
Definition ser_proof : Codec (list (list Z)) :=
  {| Serialize St os v s := foldl (fun s x => write x s) (Serialize ser_uint8 (u8 (Z.of_nat (length v))) s) v;
     Unserialize := n ← Unserialize ser_uint8; read_n (Z.to_nat n) (read 16) |}.

Definition mtp_codec : Codec CMTPHashData :=
  ser_iso (fun d => (hashRootMTP d, (nBlockMTP d, nProofMTP d))) (fun '(a, (b, c)) => mk_mtp a b c)
    (ser_pair (ser_flat 16) (ser_pair (ser_array (MTP_L * 2 * 128) ser_host_word) (ser_array (MTP_L * 3) ser_proof))).

(** The fields every header has. *)
Abbreviation prefix := (Z * (list Z * (list Z * (Z * (Z * (Z * (Z * list Z)))))))%type.
Definition prefix_codec : Codec prefix :=
  ser_pair (ser_int32 be) (ser_pair (ser_flat 32) (ser_pair (ser_flat 32) (ser_pair (ser_uint32 be)
    (ser_pair (ser_uint32 be) (ser_pair (ser_uint32 be) (ser_pair (ser_int32 be) (ser_flat 32))))))).
Definition header_prefix (h : CBlockHeader) : prefix :=
  (nVersion h, (hashPrevBlock h, (hashMerkleRoot h, (nTime h, (nBits h, (nNonce h, (nVersionMTP h, mtpHashValue h))))))).

(** [CMerkleTxSmall] and the fields of [CAuxPow] before the parent's header. *)
Abbreviation aux_fields := (CTransaction * (list Z * (list (list Z) * (Z * (list (list Z) * Z)))))%type.
Definition ser_hashes : Codec (list (list Z)) := ser_vector be 32 (ser_flat 32).
Definition aux_fields_codec : Codec aux_fields :=
  ser_pair (tx_codec be nType nVer nTime0) (ser_pair (ser_flat 32) (ser_pair ser_hashes
    (ser_pair (ser_int32 be) (ser_pair ser_hashes (ser_uint32 be))))).
Definition aux_data (a : CAuxPow) : aux_fields :=
  (tx a, (hashBlock a, (vMerkleBranch a, (nIndex a, (vChainMerkleBranch a, nChainIndex a))))).

(** [SerializationOp] when writing.  A null [auxpow] in a header with the flag would be
    dereferenced; see [header_wf]. *)
Fixpoint write_header {St} {os : OStream St} (h : CBlockHeader) (s : St) {struct h} : St :=
  let s := Serialize prefix_codec (header_prefix h) s in
  let s := if negb (flag_set nType SER_GETHASH) && is_auxpow (nVersion h)
           then match auxpow h with Some a => write_auxpow a s | None => s end else s in
  let s := if negb (is_stake (nFlags h)) && negb (op_eq (mtpHashValue h) (SetNull 32))
           then match mtpHashData h with
                | Some d => if negb (flag_set nType SER_GETHASH) then Serialize mtp_codec d s else s
                | None => s
                end
           else s in
  if negb (flag_set nType SER_GETHASH) && flag_set nType SER_POSMARKER
  then Serialize (ser_int32 be) (nFlags h) s else s
with write_auxpow {St} {os : OStream St} (a : CAuxPow) (s : St) {struct a} : St :=
  write_header (parentBlockHeader a) (Serialize aux_fields_codec (aux_data a) s).

(** [SerializationOp] when reading into a new header, whose [nFlags] is 0 until it is
    read.  A header that is nested [fuel] times deep has more bytes than that, so
    without fuel there is nothing left to read. *)
Fixpoint read_header (fuel : nat) : Reader CBlockHeader :=
  match fuel with
  | O => throw end_of_data
  | S fuel' =>
      '(v, (prev, (root, (t, (bits, (nonce, (vm, mtp))))))) ← Unserialize prefix_codec;
      aux ← (if negb (flag_set nType SER_GETHASH) && is_auxpow v then
               '(x, (hb, (br, (i, (cbr, ci))))) ← Unserialize aux_fields_codec;
               p ← read_header fuel';
               mret (Some (mk_aux x hb br i cbr ci p))
             else mret None);
      data ← (if negb (is_stake 0) && negb (op_eq mtp (SetNull 32))
              then d ← Unserialize mtp_codec; mret (Some d) else mret None);
      flags ← (if negb (flag_set nType SER_GETHASH) && flag_set nType SER_POSMARKER
               then Unserialize (ser_int32 be) else mret 0);
      mret (mk v prev root t bits nonce vm mtp aux data flags)
  end.

Definition read_new_header : Reader CBlockHeader := fun s => read_header (length s) s.

(** The overload for [CReadBlockHeader], for the headers message: the proof data of MTP
    is not read. *)
Definition read_bare_header : Reader CBlockHeader :=
  '(v, (prev, (root, (t, (bits, (nonce, (vm, mtp))))))) ← Unserialize prefix_codec;
  '(aux, flags) ←
    (if negb (flag_set nType SER_GETHASH) then
       aux ← (if is_auxpow v then
                '(x, (hb, (br, (i, (cbr, ci))))) ← Unserialize aux_fields_codec;
                p ← read_new_header;
                mret (Some (mk_aux x hb br i cbr ci p))
              else mret None);
       flags ← (if flag_set nType SER_POSMARKER then Unserialize (ser_int32 be) else mret 0);
       mret (aux, flags)
     else mret (None, 0));
  mret (mk v prev root t bits nonce vm mtp aux None flags).

Definition header_codec : Codec CBlockHeader :=
  {| Serialize St os := write_header; Unserialize := read_new_header |}.
End stream.

(** ** Blocks *)

Record CBlock : Type := mk_block {
  header : CBlockHeader;
  vtx : list CTransaction;
  vchBlockSig : list Z;
  fChecked : bool;
}.

Definition null_block : CBlock := mk_block Header.null [] [] false.
Definition block_of_header (h : CBlockHeader) : CBlock := mk_block h [] [] false.

Definition block_codec (be : bool) (nType nVer nTime0 : Z) : Codec CBlock :=
  ser_iso (fun b => (header b, (vtx b, vchBlockSig b))) (fun '(h, (t, g)) => mk_block h t g false)
    (ser_pair (header_codec be nType nVer nTime0)
       (ser_pair (ser_vector be 16 (tx_codec be nType nVer nTime0)) (ser_byte_vector be))).

(** [CBlock::GetBlockHeader]; [mtpHashValue] stays as the constructor left it. *)
Definition GetBlockHeader (b : CBlock) : CBlockHeader :=
  let h := header b in
  Header.mk (Header.nVersion h) (hashPrevBlock h) (hashMerkleRoot h) (Header.nTime h) (nBits h) (nNonce h)
    (nVersionMTP h) (Header.mtpHashValue Header.null) (auxpow h) (mtpHashData h) (nFlags h).

Section functions.
Context (be : bool) (Hash : list Z -> list Z).

(** [CBlockHeader::GetHash] *)
Definition block_hash (h : CBlockHeader) : list Z :=
  SerializeHash Hash (header_codec be SER_GETHASH PROTOCOL_VERSION 0) h.
Definition GetParentBlockHash (a : CAuxPow) : list Z := block_hash (parentBlockHeader a).

Definition IsProofOfStake (b : CBlock) : bool :=
  match vtx b with _ :: t :: _ => IsCoinStake be t | _ => false end.
Definition IsProofOfWork (b : CBlock) : bool := negb (IsProofOfStake b).

(** A coinstake has an input. *)
Definition GetProofOfStake (b : CBlock) : option (COutPoint.t * Z) :=
  if IsProofOfStake b then
    match vtx b with
    | _ :: t :: _ => i ← vin t !! 0%nat; Some (CTxIn.prevout i, Transaction.nTime t)
    | _ => None
    end
  else Some (COutPoint.null, 0).

Definition GetMaxTransactionTime (b : CBlock) : Z :=
  foldl (fun m t => Z.max m (Transaction.nTime t)) 0 (vtx b).

Definition GetBlockWeight (b : CBlock) : Z :=
  i64 (GetSerializeSize (block_codec be SER_NETWORK (Z.lor PROTOCOL_VERSION SERIALIZE_TRANSACTION_NO_WITNESS) 0) b
         * (WITNESS_SCALE_FACTOR - 1)
       + GetSerializeSize (block_codec be SER_NETWORK PROTOCOL_VERSION 0) b).

Definition IsProtocolV03 (nTimeCoinStake : Z) : bool := nTimeCoinStake >=? 1363800000.
Definition IsProtocolV04 (nTimeBlock : Z) : bool := nTimeBlock >=? 1449100800.
Definition IsProtocolV05 (nTimeTx genesis_nTime nStakeMinAge : Z) : bool := nTimeTx >=? genesis_nTime + nStakeMinAge.

(** [vEntropyBits] is the table of [src/src/checkpoints_eb.cpp]. *)
Definition GetStakeEntropyBit (vEntropyBits : list Z) (vEntropyBits_number_of_blocks : Z) (b : CBlock) (height : Z) : Z :=
  if IsProtocolV04 (Header.nTime (header b)) then
    Z.land (ArithUint256.GetLow64 (UintToArith256 be (block_hash (header b)))) 1
  else if (height >? -1) && (height <=? vEntropyBits_number_of_blocks) then
    Z.land (Z.shiftr (vEntropyBits !!! Z.to_nat (Z.shiftr height 5)) (Z.land height 0x1f)) 1
  else 0.

(** *** Merkle roots *)

Definition txids (b : CBlock) : list (list Z) := map (GetHash Hash be) (vtx b).

Definition BlockMerkleRoot (b : CBlock) : option (list Z * bool) := ComputeMerkleRoot Hash (txids b).

(** The first leaf is written without a look at the size. *)
Definition BlockWitnessMerkleRoot (b : CBlock) : option (list Z * bool) :=
  match vtx b with
  | [] => None
  | _ :: rest => ComputeMerkleRoot Hash (SetNull 32 :: map (GetWitnessHash Hash be) rest)
  end.

Definition BlockMerkleBranch (b : CBlock) (position : Z) : option (list (list Z)) :=
  ComputeMerkleBranch Hash (txids b) position.
End functions.

(** ** Locators *)

Record CBlockLocator : Type := { vHave : list (list Z) }.

(** The version that is written is that of the stream; one that is read is dropped. *)
Definition locator_codec (be : bool) (nType nVer : Z) : Codec CBlockLocator :=
  {| Serialize St os l s :=
       let s := if negb (flag_set nType SER_GETHASH) then Serialize (ser_int32 be) nVer s else s in
       Serialize (ser_hashes be) (vHave l) s;
     Unserialize :=
       _ ← (if negb (flag_set nType SER_GETHASH) then Unserialize (ser_int32 be) else mret 0);
       h ← Unserialize (ser_hashes be);
       mret {| vHave := h |} |}.

(** ** Laws of parts that may be empty

    A part that writes nothing leaves a [CSizeComputer] as it is, where [seek 0] takes
    its size modulo 2^64; after a first [seek] the two are the same. *)

Class Appends {T : Type} (valid : T -> Prop) (c : Codec T) : Prop := {
  app_append t (s : list Z) : valid t -> Serialize c t s = s ++ bytes_of c t;
  app_bytes t : valid t -> Forall is_byte (bytes_of c t);
  app_size t k (s : CSizeComputer) : valid t ->
    Serialize c t (seek k s) = seek (k + Z.of_nat (length (bytes_of c t))) s;
  app_read t rest : valid t -> Unserialize c (bytes_of c t ++ rest) = Ok (t, rest);
}.

Section appends.
Context {A B : Type} {va : A -> Prop} {vb : B -> Prop} {ca : Codec A} {cb : Codec B}.

#[export] Instance lawful_appends : Lawful va ca -> Appends va ca.
Proof.
  intros H. split; intros t; intros.
  - by apply law_append.
  - by apply law_bytes.
  - rewrite law_size by done. apply seek_seek.
  - by apply law_read.
Qed.

#[export] Instance opt_appends there : Appends va ca ->
  Appends (fun o => match o with Some x => there = true /\ va x | None => there = false end) (ser_opt there ca).
Proof.
  intros H. split; intros [x|]; intros; destruct_and?; subst; unfold bytes_of; cbn [ser_opt Serialize Unserialize].
  - by apply app_append.
  - by rewrite app_nil_r.
  - by apply app_bytes.
  - constructor.
  - by apply app_size.
  - cbn. by rewrite Z.add_0_r.
  - by erewrite bind_Ok; [|by apply app_read].
  - done.
Qed.

#[export] Instance pair_appends : Appends va ca -> Appends vb cb -> Appends (fun p => va p.1 /\ vb p.2) (ser_pair ca cb).
Proof.
  intros Ha Hb. split; intros [a b]; intros; destruct_and!; unfold bytes_of; cbn [ser_pair Serialize Unserialize fst snd] in *;
    rewrite ?(app_append b), ?(app_append a), ?(app_append a []) by done; cbn [app].
  - by rewrite app_assoc.
  - apply Forall_app. split; by apply app_bytes.
  - rewrite (app_size a), (app_size b) by done. rewrite length_app, Nat2Z.inj_add. f_equal. lia.
  - rewrite <- app_assoc. erewrite bind_Ok; [|by apply app_read]. by erewrite bind_Ok; [|by apply app_read].
Qed.

(** A pair writes something if its first part does. *)
Lemma pair_lawful_appends : Lawful va ca -> Appends vb cb -> Lawful (fun p => va p.1 /\ vb p.2) (ser_pair ca cb).
Proof.
  intros Ha Hb. split; intros p; intros; try (by apply app_append || by apply app_bytes || by apply app_read).
  destruct p as [a b]. destruct_and!. cbn [fst snd] in *.
  unfold bytes_of. cbn [ser_pair Serialize fst snd]. rewrite (law_append a), (app_append b), app_nil_l by done.
  rewrite (law_size a), (app_size b) by done. by rewrite length_app, Nat2Z.inj_add.
Qed.

Lemma array_appends n : Appends va ca -> Appends (fun v => length v = n /\ Forall va v) (ser_array n ca).
Proof.
  intros H. assert (forall v (s : list Z), Forall va v ->
    foldl (fun s x => Serialize ca x s) s v = s ++ concat (map (bytes_of ca) v)) as Happ.
  { intros v s Hv. revert s. induction Hv as [|x v Hx _ IH]; intros s; cbn [foldl map concat]; [by rewrite app_nil_r|].
    rewrite IH, app_append by done. by rewrite <- app_assoc. }
  split; intros v; [intros s|..|intros rest]; [intros [Hn Hv]|intros [Hn Hv]|intros k s [Hn Hv]|intros [Hn Hv]];
    unfold bytes_of; cbn [ser_array Serialize Unserialize].
  - by rewrite !Happ.
  - rewrite Happ by done. cbn [app]. apply Forall_concat, Forall_fmap. eapply Forall_impl; [done|]. apply app_bytes.
  - rewrite Happ by done. cbn [app]. clear n Hn. revert k. induction Hv as [|x v Hx _ IH]; intros k; cbn [foldl map concat].
    + cbn. by rewrite Z.add_0_r.
    + rewrite app_size by done. rewrite IH, length_app, Nat2Z.inj_add. f_equal. lia.
  - rewrite Happ by done. cbn [app]. subst n. induction Hv as [|x v Hx _ IH]; [done|]. cbn [length read_n map concat].
    rewrite <- app_assoc. erewrite bind_Ok; [|by apply app_read]. by erewrite bind_Ok; [|exact IH].
Qed.
End appends.

(** ** Headers can be read back *)

Section laws.
Context (be : bool) (nType nVer nTime0 : Z).

Lemma host_word_roundtrip x rest : is_u 64 x -> length (host_store be 8 x) = 8%nat /\
  Forall is_byte (host_store be 8 x) /\ host_load be (host_store be 8 x) = x /\
  Unserialize (ser_host_word be) (host_store be 8 x ++ rest) = Ok (x, rest).
Proof.
  intros Hx. assert (length (host_store be 8 x) = 8%nat) as Hl.
  { unfold host_store. destruct be; [rewrite length_reverse|]; apply length_le_bytes. }
  assert (host_load be (host_store be 8 x) = x) as Hv.
  { unfold host_load, host_store. destruct be; rewrite ?reverse_involutive, le_val_le_bytes; by apply Z.mod_small. }
  split_and!; [done| |done|].
  - unfold host_store. destruct be; [apply Forall_reverse|]; apply le_bytes_bytes.
  - cbn [ser_host_word Unserialize]. erewrite bind_Ok; [|apply read_app; by rewrite Hl]. cbv [mret Reader_ret]. by rewrite Hv.
Qed.

#[export] Instance host_word_lawful : Lawful (is_u 64) (ser_host_word be).
Proof.
  split; intros x; [intros s Hx|intros Hx|intros s Hx|intros rest Hx];
    destruct (host_word_roundtrip x [] Hx) as (Hl & Hb & _); unfold bytes_of;
    cbn [ser_host_word Serialize write DataStream SizeStream append app]; try done.
  by apply host_word_roundtrip.
Qed.

Definition proof_valid (v : list (list Z)) : Prop :=
  Z.of_nat (length v) < 256 /\ Forall (fun x => Z.of_nat (length x) = 16 /\ Forall is_byte x) v.

#[export] Instance proof_lawful : Lawful proof_valid ser_proof.
Proof.
  assert (forall v, proof_valid v -> u8 (Z.of_nat (length v)) = Z.of_nat (length v)) as Hu.
  { intros v [Hv _]. apply uwrap_small. unfold is_u. lia. }
  set (c (v : list (list Z)) := ser_pair ser_uint8 (ser_array (length v) (ser_flat 16))).
  assert (forall v, Lawful (fun p => is_u 8 p.1 /\ length p.2 = length v /\ Forall (fun x => Z.of_nat (length x) = 16 /\ Forall is_byte x) p.2) (c v)) as Hc.
  { intros v. apply (pair_lawful_appends (va := is_u 8) (vb := fun w => length w = length v /\ Forall _ w)); [apply _|].
    apply array_appends. apply _. }
  assert (forall v, proof_valid v -> is_u 8 (Z.of_nat (length v)) /\ length v = length v /\
    Forall (fun x => Z.of_nat (length x) = 16 /\ Forall is_byte x) v) as Hv.
  { intros v [H1 H2]. split_and!; [unfold is_u; lia|done|done]. }
  assert (forall St (os : OStream St) v (s : St), proof_valid v -> Serialize ser_proof v s = Serialize (c v) (Z.of_nat (length v), v) s) as Hw.
  { intros St os v s Hp. cbn [ser_proof c ser_pair Serialize fst snd ser_array ser_flat]. by rewrite (Hu v Hp). }
  split; intros v; [intros s Hp|intros Hp|intros s Hp|intros rest Hp]; unfold bytes_of; rewrite !Hw by done.
  - by apply (law_append (Lawful := Hc v) (Z.of_nat (length v), v)), Hv.
  - by apply (law_bytes (Lawful := Hc v) (Z.of_nat (length v), v)), Hv.
  - by apply (law_size (Lawful := Hc v) (Z.of_nat (length v), v)), Hv.
  - pose proof (law_read (Lawful := Hc v) (Z.of_nat (length v), v) rest (Hv v Hp)) as E. unfold bytes_of in E.
    cbn [c ser_pair Unserialize ser_array ser_flat] in E. cbn [ser_proof Unserialize].
    apply bind_inv in E as (k & s' & E1 & E2). apply bind_inv in E2 as (w & s'' & E3 & E4).
    cbv [mret Reader_ret] in E4. injection E4 as -> -> ->. erewrite bind_Ok; [|exact E1]. by rewrite Nat2Z.id.
Qed.

Definition mtp_valid (d : CMTPHashData) : Prop :=
  (Z.of_nat (length (hashRootMTP d)) = 16 /\ Forall is_byte (hashRootMTP d)) /\
  (length (nBlockMTP d) = MTP_L * 2 * 128 /\ Forall (is_u 64) (nBlockMTP d))%nat /\
  (length (nProofMTP d) = MTP_L * 3 /\ Forall proof_valid (nProofMTP d))%nat.

#[export] Instance mtp_lawful : Lawful mtp_valid (mtp_codec be).
Proof.
  unfold mtp_codec. eapply iso_lawful_on.
  - eapply pair_lawful_appends; [apply _|]. eapply pair_appends; eapply array_appends; apply _.
  - by intros [a b c] (Ha & Hb & Hc).
Qed.

(** *** Well-formed headers *)

Definition prefix_valid (h : CBlockHeader) : Prop :=
  is_s 32 (Header.nVersion h) /\ blob_wf 32 (hashPrevBlock h) /\ blob_wf 32 (hashMerkleRoot h) /\
  is_u 32 (Header.nTime h) /\ is_u 32 (nBits h) /\ is_u 32 (nNonce h) /\ is_s 32 (nVersionMTP h) /\
  blob_wf 32 (Header.mtpHashValue h).

Definition hashes_valid (v : list (list Z)) : Prop := Forall (blob_wf 32) v /\ Z.of_nat (length v) <= MAX_SIZE.

Definition aux_valid (a : CAuxPow) : Prop :=
  tx_valid nType nVer nTime0 (Header.tx a) /\ blob_wf 32 (hashBlock a) /\ hashes_valid (vMerkleBranch a) /\
  is_s 32 (nIndex a) /\ hashes_valid (vChainMerkleBranch a) /\ is_u 32 (nChainIndex a).

(** What a stream that is not for hashing carries of a header: the parent's proof is
    there when the version says so; the MTP data is there when its hash is not null,
    which is so for proof-of-work blocks only; the flags are those of a new header
    unless the stream has a field for them.  [d] bounds the nesting. *)
Fixpoint header_wf (d : nat) (h : CBlockHeader) : Prop :=
  prefix_valid h /\
  match auxpow h with
  | Some a => is_auxpow (Header.nVersion h) = true /\ aux_valid a /\
              match d with O => False | S d' => header_wf d' (parentBlockHeader a) end
  | None => is_auxpow (Header.nVersion h) = false
  end /\
  match mtpHashData h with
  | Some m => Header.mtpHashValue h <> SetNull 32 /\ mtp_valid m /\ is_stake (nFlags h) = false
  | None => Header.mtpHashValue h = SetNull 32
  end /\
  (if flag_set nType SER_POSMARKER then is_s 32 (nFlags h) else nFlags h = 0).

#[export] Instance hashes_lawful : Lawful hashes_valid (ser_hashes be).
Proof.
  unfold ser_hashes. eapply lawful_weaken; [|apply vector_lawful; [apply (flat_lawful 32)|done]].
  intros v [Hv Hl]. split; [|done]. eapply Forall_impl; [exact Hv|]. intros x [Hx ?]. by rewrite Hx.
Qed.

#[local] Instance blob_lawful : Lawful (blob_wf 32) (ser_flat 32).
Proof. eapply lawful_weaken; [|apply (flat_lawful 32)]. intros x [Hx ?]. by rewrite Hx. Qed.

Lemma prefix_lawful : exists valid, Lawful valid (prefix_codec be) /\ forall h, prefix_valid h -> valid (header_prefix h).
Proof.
  eexists. split; [unfold prefix_codec; apply _|]. intros h Hh. unfold prefix_valid in Hh. destruct_and!. done.
Qed.

Lemma aux_fields_lawful : exists valid, Lawful valid (aux_fields_codec be nType nVer nTime0) /\
  forall a, aux_valid a -> valid (aux_data a).
Proof.
  eexists. split; [unfold aux_fields_codec; apply _|]. intros a Ha. unfold aux_valid in Ha. destruct_and!. done.
Qed.

Definition fueled_codec (fuel : nat) : Codec CBlockHeader :=
  {| Serialize St os := write_header be nType nVer nTime0; Unserialize := read_header be nType nVer nTime0 fuel |}.

(** The proof of the parent chain, when the parent's header can be read. *)
Definition aux_codec (fuel : nat) : Codec CAuxPow :=
  ser_iso (fun a => (aux_data a, parentBlockHeader a))
    (fun '((x, (hb, (br, (i, (cbr, ci)))), p)) => mk_aux x hb br i cbr ci p)
    (ser_pair (aux_fields_codec be nType nVer nTime0) (fueled_codec fuel)).

Lemma aux_codec_lawful fuel (valid : CBlockHeader -> Prop) : Lawful valid (fueled_codec fuel) ->
  Lawful (fun a => aux_valid a /\ valid (parentBlockHeader a)) (aux_codec fuel).
Proof.
  intros Hf. destruct aux_fields_lawful as (va & Hva & Hv). unfold aux_codec. eapply iso_lawful_on.
  - eapply pair_lawful_appends; [exact Hva|apply lawful_appends, Hf].
  - intros a [Ha Hp]. split; [split; [by apply Hv|done]|]. by destruct a.
Qed.

(** The whole header, by what it has. *)
Abbreviation rest_of_header := (option CAuxPow * (option CMTPHashData * option Z))%type.
Definition end_codec (h : CBlockHeader) :=
  ser_pair (ser_opt (negb (op_eq (Header.mtpHashValue h) (SetNull 32))) (mtp_codec be))
    (ser_opt (flag_set nType SER_POSMARKER) (ser_int32 be)).
Definition parts_codec (fuel : nat) (h : CBlockHeader) :=
  ser_pair (prefix_codec be) (ser_pair (ser_opt (is_auxpow (Header.nVersion h)) (aux_codec fuel)) (end_codec h)).
Definition header_end (h : CBlockHeader) := (mtpHashData h, if flag_set nType SER_POSMARKER then Some (nFlags h) else None).
Definition header_parts (h : CBlockHeader) := (header_prefix h, (auxpow h, header_end h)).

Lemma write_header_eq {St} {os : OStream St} h (s : St) : write_header be nType nVer nTime0 h s =
  let s := Serialize (prefix_codec be) (header_prefix h) s in
  let s := if negb (flag_set nType SER_GETHASH) && is_auxpow (Header.nVersion h)
           then match auxpow h with Some a => write_auxpow be nType nVer nTime0 a s | None => s end else s in
  let s := if negb (is_stake (nFlags h)) && negb (op_eq (Header.mtpHashValue h) (SetNull 32))
           then match mtpHashData h with
                | Some d => if negb (flag_set nType SER_GETHASH) then Serialize (mtp_codec be) d s else s
                | None => s
                end
           else s in
  if negb (flag_set nType SER_GETHASH) && flag_set nType SER_POSMARKER
  then Serialize (ser_int32 be) (nFlags h) s else s.
Proof. by destruct h. Qed.

Lemma write_auxpow_eq {St} {os : OStream St} fuel a (s : St) :
  write_auxpow be nType nVer nTime0 a s = Serialize (aux_codec fuel) a s.
Proof. by destruct a. Qed.

Lemma header_wf_parts d h : header_wf d h ->
  prefix_valid h /\
  match auxpow h with
  | Some a => is_auxpow (Header.nVersion h) = true /\ aux_valid a /\
              match d with O => False | S d' => header_wf d' (parentBlockHeader a) end
  | None => is_auxpow (Header.nVersion h) = false
  end /\
  match mtpHashData h with
  | Some m => op_eq (Header.mtpHashValue h) (SetNull 32) = false /\ mtp_valid m /\ is_stake (nFlags h) = false
  | None => op_eq (Header.mtpHashValue h) (SetNull 32) = true
  end /\
  (if flag_set nType SER_POSMARKER then is_s 32 (nFlags h) else nFlags h = 0).
Proof.
  intros Hh. assert (forall x, blob_wf 32 x -> op_eq x (SetNull 32) = true <-> x = SetNull 32) as Hn.
  { intros x [Hx _]. by apply op_eq_hash32. }
  destruct d; cbn [header_wf] in Hh; destruct Hh as (Hp & Ha & Hm & Hf); (split_and!; [done|done| |done]);
    specialize (Hn (Header.mtpHashValue h) ltac:(unfold prefix_valid in Hp; apply Hp));
    destruct (mtpHashData h); try (by apply Hn); destruct_and!; (split; [|done]); apply not_true_iff_false; by rewrite Hn.
Qed.

Lemma write_header_parts {St} {os : OStream St} fuel d h (s : St) : flag_set nType SER_GETHASH = false ->
  header_wf d h -> write_header be nType nVer nTime0 h s = Serialize (parts_codec fuel h) (header_parts h) s.
Proof.
  intros Ht Hh. apply header_wf_parts in Hh as (Hp & Ha & Hm & Hf). rewrite write_header_eq.
  unfold parts_codec, header_parts, end_codec, header_end. cbn [ser_pair Serialize fst snd ser_opt]. rewrite Ht. cbn [negb andb]. cbv zeta.
  assert (forall s' : St, (if is_auxpow (Header.nVersion h) then match auxpow h with
    Some a => write_auxpow be nType nVer nTime0 a s' | None => s' end else s') =
    match auxpow h with Some x => Serialize (aux_codec fuel) x s' | None => s' end) as ->.
  { intros s'. destruct (auxpow h) as [a|]; destruct_and?; [|by destruct (is_auxpow _)].
    rewrite H. apply write_auxpow_eq. }
  assert (forall s' : St, (if negb (is_stake (nFlags h)) && negb (op_eq (Header.mtpHashValue h) (SetNull 32)) then
    match mtpHashData h with Some d => Serialize (mtp_codec be) d s' | None => s' end else s') =
    match mtpHashData h with Some x => Serialize (mtp_codec be) x s' | None => s' end) as ->.
  { intros s'. destruct (mtpHashData h) as [m|]; [|by destruct (_ && _)]. destruct Hm as (-> & _ & ->). done. }
  by destruct (flag_set nType SER_POSMARKER).
Qed.

Definition nested_valid (d : nat) (a : CAuxPow) : Prop :=
  aux_valid a /\ match d with O => False | S d' => header_wf d' (parentBlockHeader a) end.

Lemma end_appends d h : header_wf d h -> exists valid, Appends valid (end_codec h) /\ valid (header_end h).
Proof.
  intros Hh. apply header_wf_parts in Hh as (Hp & Ha & Hm & Hf). eexists. split.
  - unfold end_codec. eapply pair_appends; eapply opt_appends; apply _.
  - unfold header_end. cbn [fst snd]. split.
    + destruct (mtpHashData h); [|by rewrite Hm]. destruct Hm as (-> & ? & _). done.
    + by destruct (flag_set nType SER_POSMARKER).
Qed.

Lemma aux_part_appends fuel d h : Lawful (nested_valid d) (aux_codec fuel) -> header_wf d h ->
  exists valid, Appends valid (ser_opt (is_auxpow (Header.nVersion h)) (aux_codec fuel)) /\ valid (auxpow h).
Proof.
  intros Hl Hh. apply header_wf_parts in Hh as (_ & Ha & _). eexists. split; [eapply opt_appends, lawful_appends, Hl|].
  by destruct (auxpow h).
Qed.

Lemma parts_lawful fuel d h : Lawful (nested_valid d) (aux_codec fuel) -> header_wf d h ->
  exists valid, Lawful valid (parts_codec fuel h) /\ valid (header_parts h).
Proof.
  intros Hl Hh. destruct (end_appends d h Hh) as (ve & He & Hve). destruct (aux_part_appends fuel d h Hl Hh) as (va & Ha & Hva).
  destruct prefix_lawful as (vp & Hvp & Hpre).
  exists (fun p => vp p.1 /\ va p.2.1 /\ ve p.2.2). split.
  - unfold parts_codec. apply (pair_lawful_appends (va := vp) (vb := fun p => va p.1 /\ ve p.2)); [done|by apply pair_appends].
  - apply header_wf_parts in Hh as (Hp & _). split; [by apply Hpre|done].
Qed.

(** Reading the parts is reading the header. *)
Lemma read_header_parts fuel d h s rest : flag_set nType SER_GETHASH = false -> header_wf d h ->
  Unserialize (parts_codec fuel h) s = Ok (header_parts h, rest) ->
  read_header be nType nVer nTime0 (S fuel) s = Ok (h, rest).
Proof.
  intros Ht Hh E. apply header_wf_parts in Hh as (Hp & Ha & Hm & Hf).
  unfold parts_codec, header_parts, end_codec, header_end in E. cbn [ser_pair Unserialize] in E.
  apply bind_inv in E as (pre & s1 & E1 & E). apply bind_inv in E as ([aux [data fl]] & s2 & E & E5).
  cbv [mret Reader_ret] in E5. injection E5 as -> -> -> -> ->.
  apply bind_inv in E as (aux & s3 & E2 & E). apply bind_inv in E as ([data fl] & s4 & E & E5).
  cbv [mret Reader_ret] in E5. injection E5 as -> -> -> ->.
  apply bind_inv in E as (data & s5 & E3 & E). apply bind_inv in E as (fl & s6 & E4 & E5).
  cbv [mret Reader_ret] in E5. injection E5 as -> -> ->.
  cbn [read_header]. erewrite bind_Ok; [|exact E1]. unfold header_prefix. rewrite Ht. cbn [negb andb].
  erewrite bind_Ok with (a := auxpow h) (s' := s3).
  2: { cbn [ser_opt Unserialize] in E2. destruct (is_auxpow (Header.nVersion h)); [|exact E2].
       apply bind_inv in E2 as (a & s' & Ea & E2). cbv [mret Reader_ret] in E2. injection E2 as E2 ->. rewrite <- E2.
       unfold aux_codec, ser_iso in Ea. cbn [Unserialize ser_pair fueled_codec] in Ea.
       apply bind_inv in Ea as ([da p] & s'' & Ea & E6). cbv [mret Reader_ret] in E6. injection E6 as <- ->.
       apply bind_inv in Ea as (da' & s7 & Ea & E7). apply bind_inv in E7 as (p' & s8 & E7 & E8).
       cbv [mret Reader_ret] in E8. injection E8 as -> -> ->.
       destruct da as (x & hb & br & i & cbr & ci). erewrite bind_Ok; [|exact Ea]. cbv beta iota.
       erewrite bind_Ok; [|exact E7]. done. }
  erewrite bind_Ok with (a := mtpHashData h) (s' := s5).
  2: { cbn [ser_opt Unserialize] in E3. change (is_stake 0) with false. cbn [negb andb]. exact E3. }
  erewrite bind_Ok with (a := nFlags h) (s' := rest).
  2: { cbn [ser_opt Unserialize] in E4. destruct (flag_set nType SER_POSMARKER).
       - apply bind_inv in E4 as (f & s' & E4 & E6). cbv [mret Reader_ret] in E6. by injection E6 as <- ->.
       - cbv [mret Reader_ret] in *. injection E4 as ->. by rewrite Hf. }
  cbv [mret Reader_ret]. by destruct h.
Qed.

Lemma fueled_lawful d fuel : flag_set nType SER_GETHASH = false -> (d < fuel)%nat ->
  Lawful (header_wf d) (fueled_codec fuel).
Proof.
  intros Ht. revert fuel. induction d as [d IH] using lt_wf_ind. intros [|fuel] Hf; [lia|].
  assert (Lawful (nested_valid d) (aux_codec fuel)) as Ha.
  { destruct d as [|d].
    - split; [intros t s [_ []]|intros t [_ []]|intros t s [_ []]|intros t rest [_ []]].
    - apply (aux_codec_lawful fuel (header_wf d)), IH; lia. }
  split; intros h; [intros s Hh|intros Hh|intros s Hh|intros rest Hh];
    destruct (parts_lawful fuel d h Ha Hh) as (valid & Hl & Hv); unfold bytes_of; cbn [fueled_codec Serialize];
    rewrite !(write_header_parts fuel d h) by done.
  - by apply law_append.
  - by apply law_bytes.
  - by apply law_size.
  - cbn [Unserialize]. apply (read_header_parts fuel d h); [done|done|]. by apply law_read.
Qed.

(** *** How many bytes *)

Lemma length_host_store n x : length (host_store be n x) = n.
Proof. unfold host_store. destruct be; rewrite ?length_reverse; apply length_le_bytes. Qed.

Lemma length_prefix h : prefix_valid h -> length (bytes_of (prefix_codec be) (header_prefix h)) = 116%nat.
Proof.
  intros Hh. unfold prefix_valid, blob_wf in Hh. destruct_and!.
  unfold bytes_of, prefix_codec, header_prefix. cbn [ser_pair Serialize fst snd ser_int32 ser_uint32 ser_flat].
  unfold ser_writedata32. cbn [write DataStream]. unfold append. rewrite !length_app, !length_host_store. cbn [length]. lia.
Qed.

Lemma app_pair_bytes {A B} (va : A -> Prop) (vb : B -> Prop) ca cb a b : Appends va ca -> Appends vb cb -> va a -> vb b ->
  bytes_of (ser_pair ca cb) (a, b) = bytes_of ca a ++ bytes_of cb b.
Proof. intros. unfold bytes_of. cbn [ser_pair Serialize fst snd]. by rewrite (app_append b), (app_append a []) by done. Qed.

(** A header has more bytes than it is nested. *)
Lemma header_fuel d h : flag_set nType SER_GETHASH = false -> header_wf d h ->
  exists d', header_wf d' h /\ (d' < length (bytes_of (header_codec be nType nVer nTime0) h))%nat.
Proof.
  intros Ht. revert h. induction d as [d IH] using lt_wf_ind. intros h Hh.
  assert (exists tail, bytes_of (header_codec be nType nVer nTime0) h =
    bytes_of (prefix_codec be) (header_prefix h) ++ match auxpow h with
      | Some a => bytes_of (aux_fields_codec be nType nVer nTime0) (aux_data a) ++
                  bytes_of (header_codec be nType nVer nTime0) (parentBlockHeader a)
      | None => [] end ++ tail) as [tail Eb].
  { assert (Lawful (nested_valid d) (aux_codec d)) as Ha.
    { destruct d as [|d].
      - split; [intros t s [_ []]|intros t [_ []]|intros t s [_ []]|intros t rest [_ []]].
      - apply (aux_codec_lawful (S d) (header_wf d)), fueled_lawful; [done|lia]. }
    unfold bytes_of at 1. cbn [header_codec Serialize]. rewrite (write_header_parts d d h) by done.
    fold (bytes_of (parts_codec d h) (header_parts h)).
    pose proof (header_wf_parts d h Hh) as (Hp & Hax & Hm & Hf). destruct prefix_lawful as (vp & Hvp & Hpre).
    destruct (end_appends d h Hh) as (ve & He & Hve). destruct (aux_part_appends d d h Ha Hh) as (va & Hap & Hva).
    unfold parts_codec, header_parts.
    rewrite (app_pair_bytes vp (fun p => va p.1 /\ ve p.2)) by (apply lawful_appends, Hvp || by apply pair_appends || auto).
    rewrite (app_pair_bytes va ve) by done.
    eexists. f_equal. f_equal. unfold bytes_of at 1. cbn [ser_opt Serialize]. destruct (auxpow h) as [a|]; [|done].
    destruct Hax as (_ & Hv2 & Hd). destruct d as [|d]; [done|]. unfold aux_codec, ser_iso. cbn [Serialize ser_pair fst snd].
    pose proof (law_append (Lawful := fueled_lawful d (S d) Ht ltac:(lia)) (parentBlockHeader a)
      (Serialize (aux_fields_codec be nType nVer nTime0) (aux_data a) []) Hd) as E. cbn [fueled_codec Serialize] in E |- *. exact E. }
  pose proof (header_wf_parts d h Hh) as (Hp & Hax & Hm & Hf). rewrite Eb, !length_app, length_prefix by done.
  destruct (auxpow h) as [a|] eqn:Ea.
  - destruct Hax as (Hv & Hva & Hd). destruct d as [|d]; [done|].
    destruct (IH d ltac:(lia) _ Hd) as (d' & Hd' & Hlt). exists (S d'). split.
    + cbn [header_wf] in Hh |- *. rewrite Ea in *. tauto.
    + rewrite length_app. lia.
  - exists 0%nat. split; [|lia]. destruct d; cbn [header_wf] in Hh |- *; rewrite Ea in *; tauto.
Qed.

#[export] Instance header_lawful : flag_set nType SER_GETHASH = false ->
  Lawful (fun h => exists d, header_wf d h) (header_codec be nType nVer nTime0).
Proof.
  intros Ht. split; intros h; [intros s [d Hh]|intros [d Hh]|intros s [d Hh]|intros rest [d Hh]].
  - by apply (law_append (Lawful := fueled_lawful d (S d) Ht ltac:(lia))).
  - by apply (law_bytes (Lawful := fueled_lawful d (S d) Ht ltac:(lia))).
  - by apply (law_size (Lawful := fueled_lawful d (S d) Ht ltac:(lia))).
  - destruct (header_fuel d h Ht Hh) as (d' & Hd' & Hlt). cbn [header_codec Unserialize]. unfold read_new_header.
    rewrite length_app. set (fuel := (_ + length rest)%nat).
    by apply (law_read (Lawful := fueled_lawful d' fuel Ht ltac:(unfold fuel; lia))).
Qed.
End laws.

(** ** The theorems *)

(** A block whose parts can be read back. *)
Definition block_wf (nType nVer nTime0 : Z) (b : CBlock) : Prop :=
  (exists d, header_wf nType nVer nTime0 d (header b)) /\
  elems_valid (tx_valid nType nVer nTime0) (vtx b) /\ sized_valid (vchBlockSig b) /\ fChecked b = false.

#[export] Instance block_lawful be nType nVer nTime0 : flag_set nType SER_GETHASH = false ->
  Lawful (block_wf nType nVer nTime0) (block_codec be nType nVer nTime0).
Proof.
  intros Ht. unfold block_codec. eapply iso_lawful_on.
  - apply pair_lawful; [by apply header_lawful|]. apply pair_lawful; [|apply _]. apply vector_lawful; [apply _|done].
  - intros [h t g f] (Hh & Hv & Hs & Hf). cbn in *. by subst.
Qed.

(** C36: blocks survive the wire and the disk.  On either host and for any stream that is
    not for hashing, a block whose header has the proofs its version and its MTP hash
    announce, however deeply the headers of parent chains are nested, is written by
    appending to the stream, read back unchanged whatever follows it, and has the size
    [GetSerializeSize] reports. *)
Theorem block_roundtrip (be : bool) (nType nVer nTime0 : Z) (b : CBlock) (s rest : list Z) :
  flag_set nType SER_GETHASH = false -> block_wf nType nVer nTime0 b ->
  let c := block_codec be nType nVer nTime0 in
  exists bs, Serialize c b s = s ++ bs /\ Forall is_byte bs /\ Unserialize c (bs ++ rest) = Ok (b, rest) /\
    GetSerializeSize c b = u64 (Z.of_nat (length bs)).
Proof.
  intros Ht Hb c. exists (bytes_of c b). split_and!.
  - by apply (law_append (Lawful := block_lawful be nType nVer nTime0 Ht)).
  - by apply (law_bytes (Lawful := block_lawful be nType nVer nTime0 Ht)).
  - by apply (law_read (Lawful := block_lawful be nType nVer nTime0 Ht)).
  - unfold GetSerializeSize. rewrite (law_size (Lawful := block_lawful be nType nVer nTime0 Ht)) by done. done.
Qed.

(** A header with a proof of a parent chain, whose header has none. *)
Definition sample_parent : CBlockHeader :=
  Header.mk 1 (replicate 32 1) (replicate 32 2) 1500000000 0x1d00ffff 7 0 (SetNull 32) None None 0.
Definition sample_header : CBlockHeader :=
  Header.SetAuxPow (Some (mk_aux sample_tx (SetNull 32) [replicate 32 3] 0 [] 0 sample_parent))
    (Header.mk (Header.block_version 8) (replicate 32 4) (replicate 32 5) 1500000001 0x1d00ffff 0 0x1000 (SetNull 32) None None 0).
Definition sample_block : CBlock := mk_block sample_header [sample_tx] [1; 2; 3] false.

Lemma sample_tx_valid : tx_valid SER_NETWORK PROTOCOL_VERSION 0 sample_tx.
Proof. split; [exact sample_tx_wf|]. split; [done|]. vm_compute. reflexivity. Qed.

Lemma sample_prefix_valid : prefix_valid sample_parent /\ prefix_valid sample_header.
Proof. unfold prefix_valid. split_and!; by_decide. Qed.

Lemma sample_block_wf : block_wf SER_NETWORK PROTOCOL_VERSION 0 sample_block.
Proof.
  destruct sample_prefix_valid as [Hp Hh].
  split; [|split; [|split; [by_decide|done]]].
  - exists 1%nat. cbn [header_wf]. split; [exact Hh|]. split; [|done]. split; [done|]. split; [|done].
    unfold aux_valid. split_and!; [exact sample_tx_valid|by_decide..].
  - split; [|cbn; unfold MAX_SIZE; lia]. constructor; [exact sample_tx_valid|constructor].
Qed.

Lemma block_roundtrip_witness :
  exists bs, Unserialize (block_codec false SER_NETWORK PROTOCOL_VERSION 0) (bs ++ [9]) = Ok (sample_block, [9]) /\
    GetSerializeSize (block_codec false SER_NETWORK PROTOCOL_VERSION 0) sample_block = u64 (Z.of_nat (length bs)).
Proof.
  destruct (block_roundtrip false SER_NETWORK PROTOCOL_VERSION 0 sample_block [] [9] eq_refl sample_block_wf)
    as (bs & _ & _ & H1 & H2). exists bs. split; [exact H1|exact H2].
Defined.

(** The hash is of the eight fields every header has. *)
Lemma block_hash_prefix be Hash h : block_hash be Hash h = Hash (bytes_of (prefix_codec be) (header_prefix h)).
Proof.
  unfold block_hash, SerializeHash, bytes_of. cbn [header_codec Serialize]. rewrite write_header_eq.
  change (flag_set SER_GETHASH SER_GETHASH) with true. cbn [negb andb]. cbv zeta.
  destruct (_ && _); [|done]. by destruct (mtpHashData h).
Qed.

(** Two different strings of the length of a header with one digest. *)
Definition header_collision (Hash : list Z -> list Z) : Prop :=
  exists x y, length x = 116%nat /\ length y = 116%nat /\ x <> y /\ Hash x = Hash y.

(** What the hash of a block stands for.  It is the digest of the 116 bytes of the
    eight fixed fields, so it does not depend on the merged mining proof, the MTP data,
    the flags or the transactions; headers with the same hash have the same eight
    fields unless the hash collides; and the header [CBlock::GetBlockHeader] returns
    has the block's hash exactly when the block has no MTP hash, which it drops. *)
Theorem block_hash_covers (be : bool) (Hash : list Z -> list Z) (b : CBlock) (h' : CBlockHeader) :
  prefix_valid (header b) -> prefix_valid h' ->
  Z.of_nat (length (bytes_of (prefix_codec be) (header_prefix (header b)))) = Header.NORMAL_SERIALIZE_SIZE /\
  (header_prefix (header b) = header_prefix h' -> block_hash be Hash (header b) = block_hash be Hash h') /\
  (block_hash be Hash (header b) = block_hash be Hash h' ->
   header_prefix (header b) = header_prefix h' \/ header_collision Hash) /\
  (Header.mtpHashValue (header b) = SetNull 32 -> block_hash be Hash (GetBlockHeader b) = block_hash be Hash (header b)) /\
  (block_hash be Hash (GetBlockHeader b) = block_hash be Hash (header b) ->
   Header.mtpHashValue (header b) = SetNull 32 \/ header_collision Hash).
Proof.
  intros Hb Hh.
  assert (forall h1 h2, prefix_valid h1 -> prefix_valid h2 -> block_hash be Hash h1 = block_hash be Hash h2 ->
    header_prefix h1 = header_prefix h2 \/ header_collision Hash) as Hinj.
  { intros h1 h2 H1 H2 E. rewrite !block_hash_prefix in E.
    destruct (decide (bytes_of (prefix_codec be) (header_prefix h1) = bytes_of (prefix_codec be) (header_prefix h2))) as [Eb|Hne].
    - left. destruct (prefix_lawful be) as (valid & Hl & Hv).
      pose proof (law_read (Lawful := Hl) _ [] (Hv h1 H1)) as R1. pose proof (law_read (Lawful := Hl) _ [] (Hv h2 H2)) as R2.
      rewrite Eb, R2 in R1. congruence.
    - right. eexists _, _. split_and!; [apply (length_prefix be h1 H1)|apply (length_prefix be h2 H2)|exact Hne|exact E]. }
  assert (prefix_valid (GetBlockHeader b)) as Hg.
  { unfold prefix_valid, GetBlockHeader in *. cbn. destruct_and!. split_and!; try done. by_decide. }
  split_and!.
  - by rewrite length_prefix.
  - intros E. by rewrite !block_hash_prefix, E.
  - by apply Hinj.
  - intros E. rewrite !block_hash_prefix. do 2 f_equal. unfold header_prefix, GetBlockHeader. cbn. by rewrite E.
  - intros E. destruct (Hinj _ _ Hg Hb E) as [Ep|]; [left|by right]. symmetry.
    exact (f_equal (fun p => p.2.2.2.2.2.2.2) Ep).
Qed.

Lemma block_hash_covers_witness :
  block_hash false toy_hash (GetBlockHeader sample_block) = block_hash false toy_hash sample_header.
Proof.
  destruct sample_prefix_valid as [_ Hh].
  refine (proj1 (proj2 (proj2 (proj2 (block_hash_covers false toy_hash sample_block sample_header Hh Hh)))) _). reflexivity.
Defined.
