(* ===== verification/Pow.v ===== *)
(** * Pow: targets, proof of work and merged mining

    Models [src/src/pow.cpp] and the parts of [CBigNum] ([src/src/bignum.h]) it uses.
    The numbers of OpenSSL under a [CBigNum] are a type with the operations of
    [BigNumLib], a parameter of the definitions; what that library documents of them is
    [BigNumLaws]. *)
From S2P Require Import Prelude ConsensusParams Endian ArithUint256 Uint256 Serialize Transaction Chain Merkle Block.
Import Header.

(** ** OpenSSL's BIGNUM *)

(** The functions that are called.  [BN_div] fails on a divisor of zero. *)
Class BigNumLib (B : Type) : Type := {
  BN_set_word : Z -> B;
  BN_get_word : B -> Z;
  BN_mpi2bn : list Z -> B;
  BN_num_bytes : B -> Z;
  BN_lshift : B -> Z -> B;
  BN_rshift : B -> Z -> B;
  BN_set_negative : B -> bool -> B;
  BN_is_negative : B -> bool;
  BN_mul : B -> B -> B;
  BN_div : B -> B -> option B;
  BN_cmp : B -> B -> Z;
}.

(** The integer of a body in MPI format: a big-endian magnitude whose top bit is the
    sign. *)
Definition mpi_value (body : list Z) : Z :=
  match body with
  | [] => 0
  | b :: rest =>
      let magnitude := le_val (reverse (Z.land b 0x7f :: rest)) in
      if negb (Z.land b 0x80 =? 0) then - magnitude else magnitude
  end.

(** What the library documents: every number stands for an integer, and the operations
    are those of the integers.  The four bytes in front of a body in MPI format are its
    length. *)
Class BigNumLaws (B : Type) {lib : BigNumLib B} (num : B -> Z) : Prop := {
  set_word_num w : is_u 64 w -> num (BN_set_word w) = w;
  get_word_num x : Z.abs (num x) < 2 ^ 64 -> BN_get_word x = Z.abs (num x);
  mpi2bn_num a b c d body : Forall is_byte body -> le_val [d; c; b; a] = Z.of_nat (length body) ->
    num (BN_mpi2bn (a :: b :: c :: d :: body)) = mpi_value body;
  num_bytes_num x : BN_num_bytes x = (bitlen (Z.abs (num x)) + 7) / 8;
  lshift_num x n : 0 <= n -> num (BN_lshift x n) = num x * 2 ^ n;
  rshift_num x n : 0 <= n -> num (BN_rshift x n) = Z.quot (num x) (2 ^ n);
  set_negative_num x f : num (BN_set_negative x f) = if f then - Z.abs (num x) else Z.abs (num x);
  is_negative_num x : BN_is_negative x = (num x <? 0);
  mul_num x y : num (BN_mul x y) = num x * num y;
  div_num x y : num y <> 0 -> exists q, BN_div x y = Some q /\ num q = Z.quot (num x) (num y);
  div_zero x y : num y = 0 -> BN_div x y = None;
  cmp_num x y : (BN_cmp x y >? 0) = (num y <? num x);
}.

(** ** CBigNum *)

Module CBigNum.
Section wrapper.
Context {B : Type} {lib : BigNumLib B}.

(** [while (m) { *--p = m; m >>= 8; }]: the bytes of [m], most significant first. *)
Fixpoint push_bytes (fuel : nat) (m : Z) (p : list Z) : list Z :=
  match fuel with
  | O => p
  | S fuel' => if m =? 0 then p else push_bytes fuel' (Z.shiftr m 8) (u8 m :: p)
  end.

(** [(signed char)*p < 0]; at the end of the array [*p] is 0. *)
Definition top_bit (p : list Z) : bool := match p with b :: _ => 0x80 <=? b | [] => false end.

(** [*p |= neg]; the byte past the number that this may change is not part of it. *)
Definition or_top (neg : Z) (p : list Z) : list Z := match p with b :: r => Z.lor b neg :: r | [] => [] end.

Definition setint64 (n : Z) : B :=
  let neg := if n <? 0 then 0x80 else 0 in
  let m := if n <? 0 then u64 (- n) else u64 n in
  let p := push_bytes 8 m [] in
  let p := or_top neg (if top_bit p then neg :: p else p) in
  BN_mpi2bn (0 :: 0 :: 0 :: u8 (Z.of_nat (length p)) :: p).

(** The loop from the last byte of the array down, without leading zeros. *)
Fixpoint skip_zeros (bytes : list Z) : list Z :=
  match bytes with
  | [] => []
  | c :: rest => if c =? 0 then skip_zeros rest else if negb (Z.land c 0x80 =? 0) then 0 :: c :: rest else c :: rest
  end.
Definition setuint256 (n : list Z) : B :=
  let p := skip_zeros (reverse n) in
  let nSize := Z.of_nat (length p) in
  let size_byte k := Z.land (Z.shiftr nSize k) 0xff in
  BN_mpi2bn (size_byte 24 :: size_byte 16 :: size_byte 8 :: size_byte 0 :: p).

Definition SetCompact (nCompact : Z) : B :=
  let nSize := Z.shiftr nCompact 24 in
  let fNegative := negb (Z.land nCompact 0x00800000 =? 0) in
  let nWord := Z.land nCompact 0x007fffff in
  let self := if nSize <=? 3 then BN_set_word (Z.shiftr nWord (8 * (3 - nSize)))
              else BN_lshift (BN_set_word nWord) (8 * (nSize - 3)) in
  BN_set_negative self fNegative.

Definition GetCompact (self : B) : Z :=
  let nSize := BN_num_bytes self in
  let nCompact := if nSize <=? 3 then u32 (u64 (Z.shiftl (BN_get_word self) (8 * (3 - nSize))))
                  else u32 (BN_get_word (BN_rshift self (8 * (nSize - 3)))) in
  let '(nCompact, nSize) := if negb (Z.land nCompact 0x00800000 =? 0) then (Z.shiftr nCompact 8, nSize + 1)
                            else (nCompact, nSize) in
  let nCompact := Z.lor nCompact (u32 (Z.shiftl nSize 24)) in
  Z.lor nCompact (if BN_is_negative self then 0x00800000 else 0).

Definition op_mul_assign (self b : B) : B := BN_mul self b.
(** A failed division throws a [bignum_error]. *)
Definition op_div_assign (self b : B) : result fault B :=
  match BN_div self b with Some q => Ok q | None => Err out_of_range end.
Definition op_gt (a b : B) : bool := BN_cmp a b >? 0.
End wrapper.
End CBigNum.

(** ** Targets *)

Section targets.
Context {B : Type} {lib : BigNumLib B} (be : bool) (h : heap) (params : Params.t).

Fixpoint GetLastBlockIndex (fuel : nat) (pindex : N) (fProofOfStake : bool) : result fault N :=
  match fuel with
  | O => Err out_of_fuel
  | S fuel' =>
      b ← deref h pindex;
      match CBlockIndex.pprev b with
      | Some q => if negb (Bool.eqb (CBlockIndex.IsProofOfStake b) fProofOfStake)
                  then GetLastBlockIndex fuel' q fProofOfStake else Ok pindex
      | None => Ok pindex
      end
  end.

(** As many rounds as the block is high, and one. *)
Definition last_index (pindex : N) (fProofOfStake : bool) : result fault N :=
  b ← deref h pindex; GetLastBlockIndex (Z.to_nat (CBlockIndex.nHeight b + 1)) pindex fProofOfStake.

Definition compact_of (x : list Z) : result fault Z :=
  match ArithUint256.GetCompact (UintToArith256 be x) false with Some c => Ok c | None => Err assertion_failed end.

(** From [CBigNum bnNew] on: the heights of [pindexLast] and [pindexPrev], the time
    between the last two blocks of the kind, and the bits of the last. *)
Definition next_target (fProofOfStake : bool) (nHeightLast nHeightPrev nActualSpacing nBits : Z) : result fault Z :=
  let bnNew := CBigNum.SetCompact (B := B) nBits in
  let nSpacingRatio := if nHeightLast <=? 365
                       then Z.max 10 (Z.quot (Params.nStakeTargetSpacing params * nHeightLast) 365)
                       else Z.max 10 (Params.nStakeTargetSpacing params) in
  let nTargetSpacing := if fProofOfStake then Params.nStakeTargetSpacing params
                        else Z.min (Params.nTargetSpacingMax params) (nSpacingRatio * (1 + nHeightLast - nHeightPrev)) in
  if nTargetSpacing =? 0 then Err out_of_range
  else
    let nInterval := Z.quot (Params.nTargetTimespan params) nTargetSpacing in
    let n := if fProofOfStake then 1 else if nHeightLast <? 365 then 1 else 3 in
    let bnNew := CBigNum.op_mul_assign bnNew (CBigNum.setint64 ((nInterval - n) * nTargetSpacing + (n + 1) * nActualSpacing)) in
    bnNew ← CBigNum.op_div_assign bnNew (CBigNum.setint64 ((nInterval + 1) * nTargetSpacing));
    let limit := CBigNum.setuint256 (B := B) (Params.powLimit params) in
    let bnNew := if CBigNum.op_gt bnNew limit then limit else bnNew in
    Ok (CBigNum.GetCompact bnNew).

Definition GetNextTargetRequired (pindexLast : option N) (fProofOfStake : bool) : result fault Z :=
  match pindexLast with
  | None => compact_of (Params.powLimit params)
  | Some last =>
      bLast ← deref h last;
      prev ← last_index last fProofOfStake;
      bPrev ← deref h prev;
      match CBlockIndex.pprev bPrev with
      | None => compact_of (Params.bnInitialHashTarget params)
      | Some q =>
          prevPrev ← last_index q fProofOfStake;
          bPrevPrev ← deref h prevPrev;
          match CBlockIndex.pprev bPrevPrev with
          | None => compact_of (Params.bnInitialHashTarget params)
          | Some _ =>
              next_target fProofOfStake (CBlockIndex.nHeight bLast) (CBlockIndex.nHeight bPrev)
                (CBlockIndex.GetBlockTime bPrev - CBlockIndex.GetBlockTime bPrevPrev) (CBlockIndex.nBits bPrev)
          end
      end
  end.
End targets.

(** ** Proof of work *)

Section pow.
Context (be : bool) (Hash : list Z -> list Z) (params : Params.t).

Definition CheckProofOfWork (hash : list Z) (nBits : Z) : bool :=
  let '(bnTarget, fNegative, fOverflow) := ArithUint256.SetCompact nBits in
  if fNegative || EqualTo bnTarget 0 || fOverflow
     || (CompareTo bnTarget (UintToArith256 be (Params.powLimit params)) >? 0) then false
  else if CompareTo (UintToArith256 be hash) bnTarget >? 0 then false
  else true.

(** [mtp::verify] is a parameter: whether the proof verifies, and the hash it computes. *)
Definition CheckMerkleTreeProof (verify : Z -> CBlockHeader -> list Z -> bool * list Z) (block : CBlockHeader) : bool :=
  match mtpHashData block with
  | None => false
  | Some _ =>
      if op_eq (Header.mtpHashValue block) (SetNull 32) then false
      else
        let '(ok, calculatedMtpHashValue) := verify (nNonce block) block (Params.powLimit params) in
        ok && op_eq (Header.mtpHashValue block) calculatedMtpHashValue
  end.

Definition pchMergedMiningHeader : list Z := [0xfa; 0xbe; 0x6d; 0x6d].

(** [std::search]: the first position where [needle] starts; [None] is the end. *)
Fixpoint search (hay needle : list Z) : option nat :=
  if bool_decide (take (length needle) hay = needle) then Some 0%nat
  else match hay with [] => None | _ :: hay' => S <$> search hay' needle end.

(** The slot of a chain in the tree of the chains mined together. *)
Definition chain_slot (nNonce nChainID nSize : Z) : Z :=
  let rand := u32 nNonce in
  let rand := u32 (rand * 1103515245 + 12345) in
  let rand := u32 (rand + nChainID) in
  let rand := u32 (rand * 1103515245 + 12345) in
  rand mod u32 nSize.

(** [None] is the access to the first input of a transaction that has none. *)
Definition AuxPoWCheck (aux : CAuxPow) (hashAuxBlock : list Z) (nChainID : Z) : option bool :=
  if negb (nIndex aux =? 0) then Some false
  else if negb (Params.fPowAllowMinDifficultyBlocks params) && (GetChainID (parentBlockHeader aux) =? nChainID) then Some false
  else if Z.of_nat (length (vChainMerkleBranch aux)) >? 30 then Some false
  else
    let nRootHash := ComputeMerkleRootFromBranch Hash hashAuxBlock (vChainMerkleBranch aux) (nChainIndex aux) in
    let vchRootHash := reverse nRootHash in
    if negb (op_eq (ComputeMerkleRootFromBranch Hash (GetBtcHash Hash be (Header.tx aux)) (vMerkleBranch aux) (u32 (nIndex aux)))
               (Header.hashMerkleRoot (parentBlockHeader aux))) then Some false
    else
      i ← vin (Header.tx aux) !! 0%nat;
      let script := CTxIn.scriptSig i in
      match search script pchMergedMiningHeader, search script vchRootHash with
      | None, _ => Some false
      | Some _, None => Some false
      | Some pcHead, Some pc =>
          if bool_decide (is_Some (search (drop (S pcHead) script) pchMergedMiningHeader)) then Some false
          else if negb (pcHead + length pchMergedMiningHeader =? pc)%nat then Some false
          else
            let pc := (pc + length vchRootHash)%nat in
            if (length script - pc <? 8)%nat then Some false
            else
              let nSize := i32 (host_load be (take 4 (drop pc script))) in
              if negb (nSize =? Z.shiftl 1 (Z.of_nat (length (vChainMerkleBranch aux)))) then Some false
              else
                let nNonce := i32 (host_load be (take 4 (drop (pc + 4) script))) in
                if negb (nChainIndex aux =? chain_slot nNonce nChainID nSize) then Some false
                else Some true
      end.

Definition CheckBlockProofOfWork (pblock : CBlockHeader) : option bool :=
  if GetBlockVersion pblock >? 4 then
    if negb (Params.fPowAllowMinDifficultyBlocks params)
       && (is_auxpow (Header.nVersion pblock) && negb (GetChainID pblock =? AUXPOW_CHAIN_ID)) then Some false
    else
      match auxpow pblock with
      | Some aux =>
          ok ← AuxPoWCheck aux (block_hash be Hash pblock) (GetChainID pblock);
          Some (ok && CheckProofOfWork (GetParentBlockHash be Hash aux) (nBits pblock))
      | None => Some (CheckProofOfWork (GetPoWHash pblock) (nBits pblock))
      end
  else Some (CheckProofOfWork (GetPoWHash pblock) (nBits pblock)).
End pow.

(** ** Big numbers *)

Section bignum.
Import CBigNum.
Context {B : Type} {lib : BigNumLib B} (num : B -> Z) {laws : BigNumLaws B num}.

(** The value of bytes, most significant first. *)
Definition be_val (p : list Z) : Z := le_val (reverse p).

Lemma be_val_cons b p : be_val (b :: p) = b * 2 ^ (8 * Z.of_nat (length p)) + be_val p.
Proof.
  unfold be_val. rewrite reverse_cons, le_val_app, length_reverse. unfold le_val at 2. cbn [foldr]. lia.
Qed.

(** Digits in front of [p], none of them a leading zero. *)
Lemma push_bytes_spec fuel m p : 0 <= m < 2 ^ (8 * Z.of_nat fuel) -> exists ds, push_bytes fuel m p = ds ++ p /\
  (length ds <= fuel)%nat /\ Forall is_byte ds /\ be_val ds = m /\ (m = 0 -> ds = []) /\ (m <> 0 -> exists d ds', ds = d :: ds' /\ d <> 0).
Proof.
  revert m p. induction fuel as [|fuel IH]; intros m p Hm.
  { change (2 ^ (8 * Z.of_nat 0)) with 1 in Hm. assert (m = 0) as -> by lia. exists []. split_and!; try done; cbn; lia. }
  cbn [push_bytes]. destruct (Z.eqb_spec m 0) as [->|Hnz]; [exists []; split_and!; try done; cbn; lia|].
  rewrite shiftr_div by lia. rewrite Nat2Z.inj_succ in Hm. replace (8 * Z.succ (Z.of_nat fuel)) with (8 + 8 * Z.of_nat fuel) in Hm by lia.
  rewrite Z.pow_add_r in Hm by lia. pose proof (Z.div_mod m (2 ^ 8) ltac:(lia)) as Hdm. pose proof (Z.mod_pos_bound m (2 ^ 8) ltac:(lia)) as Hmb.
  destruct (IH (m / 2 ^ 8) (u8 m :: p)) as (ds & -> & Hlen & Hb & Hv & H0 & Hn0); [split; [apply Z.div_pos; lia|apply Z.div_lt_upper_bound; lia]|].
  exists (ds ++ [u8 m]). rewrite <- app_assoc. split; [done|].
  split; [rewrite length_app; cbn; lia|]. split; [apply Forall_app; split; [done|]; apply Forall_singleton, uwrap_range; lia|].
  split.
  - unfold be_val in *. rewrite reverse_snoc. change (le_val (u8 m :: reverse ds)) with (u8 m + 2 ^ 8 * le_val (reverse ds)).
    rewrite Hv. unfold uwrap. lia.
  - split; [done|]. intros _. destruct (decide (m / 2 ^ 8 = 0)) as [E|E].
    + rewrite (H0 E). exists (u8 m), []. split; [done|]. unfold uwrap. lia.
    + destruct (Hn0 E) as (d & ds' & -> & Hd). by exists d, (ds' ++ [u8 m]).
Qed.

(** Where the top bit of a number in MPI format would be mistaken for its sign, a byte
    for the sign comes first. *)
Lemma mpi_number neg p : (neg = 0 \/ neg = 0x80) -> Forall is_byte p -> p <> [] ->
  mpi_value (or_top neg (if top_bit p then neg :: p else p)) = if neg =? 0 then be_val p else - be_val p.
Proof.
  intros Hneg Hp Hne. destruct p as [|b p]; [done|]. apply Forall_cons in Hp as [Hb Hp]. unfold is_u in Hb. cbn [top_bit].
  destruct (Z.leb_spec 0x80 b) as [Htop|Hlow]; cbn [or_top mpi_value].
  - rewrite Z.lor_diag. assert (Z.land neg 0x7f = 0) as -> by (by destruct Hneg as [-> | ->]).
    fold (be_val (0 :: b :: p)). rewrite (be_val_cons 0), Z.mul_0_l, Z.add_0_l. by destruct Hneg as [-> | ->].
  - assert (Z.land b 0x80 = 0) as Eb.
    { change 0x80 with (2 ^ 7). rewrite land_pow2, testbit_top by lia. by rewrite (proj2 (Z.leb_gt _ _)) by lia. }
    assert (Z.land b 0x7f = b) as Eb7 by (change 0x7f with (2 ^ 7 - 1); rewrite land_mask by lia; apply Z.mod_small; lia).
    destruct Hneg as [-> | ->].
    + rewrite Z.lor_0_r, Eb7, Eb. done.
    + rewrite !Z.land_lor_distr_l, Eb, Eb7. change (Z.land 0x80 0x7f) with 0. by rewrite Z.lor_0_r.
Qed.

Lemma mpi_bytes neg p : (neg = 0 \/ neg = 0x80) -> Forall is_byte p ->
  Forall is_byte (or_top neg (if top_bit p then neg :: p else p)).
Proof.
  intros Hneg Hp. assert (is_byte neg) as Hn by (unfold is_u; lia).
  destruct p as [|b p]; [constructor|]. apply Forall_cons in Hp as [Hb Hp]. cbn [top_bit].
  destruct (Z.leb_spec 0x80 b); cbn [or_top]; [rewrite Z.lor_diag; repeat apply Forall_cons_2; done|]. apply Forall_cons_2; [|done].
  destruct Hneg as [-> | ->]; [by rewrite Z.lor_0_r|]. unfold is_u in *. change 0x80 with (2 ^ 7) in *.
  rewrite lor_pow2; [lia|lia|]. rewrite testbit_top by lia. by apply Z.leb_gt.
Qed.

Lemma setint64_num n : - 2 ^ 63 < n < 2 ^ 63 -> num (setint64 n) = n.
Proof.
  intros Hn. unfold setint64. set (m := if n <? 0 then u64 (- n) else u64 n). assert (m = Z.abs n) as Em.
  { unfold m. destruct (Z.ltb_spec n 0); rewrite uwrap_small by (unfold is_u; lia); lia. }
  rewrite Em. destruct (push_bytes_spec 8 (Z.abs n) []) as (ds & E & Hl & Hb & Hv & H0 & Hn0); [cbn; lia|].
  rewrite app_nil_r in E. rewrite E. set (neg := if n <? 0 then 0x80 else 0).
  assert (neg = 0 \/ neg = 0x80) as Hneg by (unfold neg; destruct (n <? 0); auto). pose proof (mpi_bytes neg ds Hneg Hb) as Hp.
  assert (length (or_top neg (if top_bit ds then neg :: ds else ds)) <= 9)%nat by (destruct ds; cbn in *; case_bool; cbn; lia).
  rewrite mpi2bn_num; [|done|]; [|rewrite uwrap_small by (unfold is_u; lia); cbn [le_val foldr]; lia].
  destruct (decide (n = 0)) as [->|Hnz]; [by rewrite H0|].
  rewrite mpi_number; [|done|done|destruct (Hn0 ltac:(lia)) as (? & ? & -> & _); done].
  rewrite Hv. unfold neg. destruct (Z.ltb_spec n 0); cbn [Z.eqb]; lia.
Qed.

Lemma skip_zeros_spec l : Forall is_byte l ->
  Forall is_byte (skip_zeros l) /\ (length (skip_zeros l) <= S (length l))%nat /\ mpi_value (skip_zeros l) = be_val l.
Proof.
  induction 1 as [|c l Hc Hl (IHb & IHl & IHv)]; [by split_and!; cbn; try lia|]. cbn [skip_zeros]. destruct (Z.eqb_spec c 0) as [->|Hnz].
  - split_and!; [done|cbn; lia|]. rewrite IHv, be_val_cons. lia.
  - pose proof (mpi_number 0 (c :: l) ltac:(auto) ltac:(by constructor) ltac:(done)) as E. cbn [top_bit Z.eqb] in E.
    rewrite <- E. unfold is_u in Hc.
    assert (negb (Z.land c 0x80 =? 0) = (0x80 <=? c)) as ->.
    { change 0x80 with (2 ^ 7). rewrite land_pow2, testbit_top by lia. by destruct (2 ^ 7 <=? c). }
    destruct (0x80 <=? c); cbn [or_top]; rewrite Z.lor_0_r; (split_and!; [repeat apply Forall_cons_2; (done || unfold is_u; lia)|cbn; lia|done]).
Qed.

Lemma setuint256_num x : blob_wf 32 x -> num (setuint256 x) = le_val x.
Proof.
  intros [Hlen Hx]. unfold setuint256. apply Forall_reverse in Hx as Hr. destruct (skip_zeros_spec _ Hr) as (Hb & Hl & Hv).
  rewrite length_reverse, Hlen in Hl. set (p := skip_zeros (reverse x)) in *. rewrite mpi2bn_num; [|done|].
  - rewrite Hv. unfold be_val. by rewrite reverse_involutive.
  - rewrite !shiftr_div by lia. change 0xff with (2 ^ 8 - 1). rewrite !land_mask by lia. cbn [le_val foldr].
    rewrite Z.pow_0_r, Z.div_1_r, !Z.div_small by lia. rewrite Z.mod_small by lia. change (0 mod 2 ^ 8) with 0. lia.
Qed.

(** The integer that compact bits stand for. *)
Definition compact_int (c : Z) : Z :=
  let '(nSize, sign, nWord) := compact_fields c in
  if sign then - compact_value nSize nWord else compact_value nSize nWord.

Lemma compact_value_nonneg c : is_u 32 c -> let '(nSize, _, nWord) := compact_fields c in 0 <= compact_value nSize nWord.
Proof.
  intros [Hc _]. unfold compact_fields, compact_value. pose proof (Z.mod_pos_bound c (2 ^ 23) ltac:(lia)).
  assert (0 <= c / 2 ^ 24) by (apply Z.div_pos; lia). case_bool; [apply Z.div_pos; lia|nia].
Qed.

Lemma target_of_int c T : is_u 32 c -> target_of c = Some T -> compact_int c = T /\ 0 <= T.
Proof.
  intros Hc HT. pose proof (compact_value_nonneg c Hc) as Hv. unfold target_of, compact_int in *.
  destruct (compact_fields c) as [[nSize sign] nWord]. destruct sign; [done|]. cbn [orb] in HT.
  destruct (2 ^ 256 <=? _); [done|]. destruct (_ =? 0); [done|]. by injection HT as <-.
Qed.

Lemma SetCompact_num c : is_u 32 c -> num (SetCompact c) = compact_int c.
Proof.
  intros Hc. pose proof (compact_value_nonneg c Hc) as Hv.
  unfold compact_int, SetCompact. rewrite set_negative_num. unfold compact_fields, compact_value in *. rewrite shiftr_div by lia.
  change 0x007fffff with (2 ^ 23 - 1). rewrite land_mask by lia. change 0x00800000 with (2 ^ 23). rewrite land_pow2 by lia.
  assert (0 <= c / 2 ^ 24) by (apply Z.div_pos; [apply Hc|lia]).
  assert (forall b : bool, negb ((if b then 2 ^ 23 else 0) =? 0) = b) as -> by (by intros []).
  assert (is_u 64 (c mod 2 ^ 23)) as Hw by (pose proof (Z.mod_pos_bound c (2 ^ 23) ltac:(lia)); unfold is_u; lia).
  set (w := c mod 2 ^ 23) in *. destruct (Z.leb_spec (c / 2 ^ 24) 3).
  - rewrite shiftr_div by lia. rewrite set_word_num, Z.abs_eq; [done|lia|]. split; [lia|].
    apply Z.div_lt_upper_bound; [lia|]. destruct Hw. nia.
  - rewrite lshift_num, set_word_num by (done || lia). by rewrite Z.abs_eq by lia.
Qed.

(** For numbers of up to 256 bits the encoding is that of [arith_uint256]. *)
Lemma GetCompact_norm x : let v := num x in 0 <= v < 2 ^ 256 -> let '(s, m) := compact_norm v in GetCompact x = s * 2 ^ 24 + m.
Proof.
  intros v Hv. pose proof (compact_norm_bounds v Hv) as Hb. destruct (compact_window_bounds v Hv) as [Hw _].
  destruct (compact_size_bounds v Hv) as (Hs & Hlt & _).
  unfold GetCompact. rewrite num_bytes_num, is_negative_num. fold v. rewrite Z.abs_eq by lia. fold (compact_size v).
  assert ((if compact_size v <=? 3 then u32 (u64 (Z.shiftl (BN_get_word x) (8 * (3 - compact_size v))))
           else u32 (BN_get_word (BN_rshift x (8 * (compact_size v - 3))))) = compact_window v) as ->.
  { unfold compact_window in *. destruct (Z.leb_spec (compact_size v) 3).
    - assert (v < 2 ^ 24) by (eapply Z.lt_le_trans; [apply Hlt|apply Z.pow_le_mono_r; lia]).
      rewrite get_word_num by (fold v; lia). fold v. rewrite Z.abs_eq by lia.
      rewrite shiftl_mul by lia. rewrite (uwrap_small 64), uwrap_small by (unfold is_u; lia). done.
    - assert (num (BN_rshift x (8 * (compact_size v - 3))) = v / 2 ^ (8 * (compact_size v - 3))) as E.
      { rewrite rshift_num by lia. fold v. apply Z.quot_div_nonneg; lia. }
      rewrite get_word_num; rewrite E; rewrite Z.abs_eq by lia; [|lia]. by rewrite uwrap_small by (unfold is_u; lia). }
  unfold compact_norm in *. cbv zeta in *. set (w := compact_window v) in *. change 0x00800000 with (2 ^ 23).
  rewrite land_pow2, testbit_top by lia. rewrite (proj2 (Z.ltb_ge v 0)) by lia.
  destruct (Z.leb_spec (2 ^ 23) w); cbn [negb Z.eqb].
  - rewrite (proj2 (Z.eqb_neq (2 ^ 23) 0)) by lia. cbn [negb]. rewrite Z.lor_0_r, shiftr_div by lia. destruct Hb as (Hs2 & Hm & _).
    rewrite shiftl_mul by lia. rewrite uwrap_small by (unfold is_u; lia). apply lor_disjoint_add'; lia.
  - rewrite Z.lor_0_r. destruct Hb as (Hs2 & Hm & _). rewrite shiftl_mul by lia. rewrite uwrap_small by (unfold is_u; lia).
    apply lor_disjoint_add'; lia.
Qed.
End bignum.

(** ** Retargeting *)

Section retarget.
Context (h : heap) (Hok : tree_ok h).

Definition kind (p : N) : bool := from_option CBlockIndex.IsProofOfStake false (h !! p).

(** [q] is the last block up to [p] that is of the kind, or the first block of all. *)
Definition last_of_kind (p : N) (f : bool) (q : N) : Prop :=
  exists k, walk h k p = Some q /\ (forall j r, (j < k)%nat -> walk h j p = Some r -> kind r <> f) /\
    (kind q = f \/ (b ← h !! q; CBlockIndex.pprev b) = None).

Lemma GetLastBlockIndex_spec fuel p b f : h !! p = Some b -> CBlockIndex.nHeight b < Z.of_nat fuel ->
  exists q bq, GetLastBlockIndex h fuel p f = Ok q /\ h !! q = Some bq /\ last_of_kind p f q /\
    CBlockIndex.nHeight bq <= CBlockIndex.nHeight b.
Proof.
  revert p b. induction fuel as [|fuel IH]; intros p b Hp Hf.
  { pose proof (ok_height _ _ _ (Hok p b Hp)). lia. }
  cbn [GetLastBlockIndex]. unfold deref. rewrite Hp. cbn [mbind result_bind].
  pose proof (ok_prev _ _ _ (Hok p b Hp)) as Hprev. destruct (CBlockIndex.pprev b) as [q|] eqn:Eq.
  - destruct Hprev as (bq & Hq & Hh). destruct (Bool.eqb (CBlockIndex.IsProofOfStake b) f) eqn:Ek; cbn [negb].
    + apply Bool.eqb_prop in Ek. exists p, b. split_and!; [done|done| |lia]. exists 0%nat. split_and!; [done|intros; lia|].
      left. unfold kind. rewrite Hp. exact Ek.
    + apply Bool.eqb_false_iff in Ek. destruct (IH q bq Hq ltac:(lia)) as (r & br & E & Hr & (k & Hw & Hk & Hend) & Hle).
      exists r, br. split_and!; [done|done| |lia]. exists (S k). split_and!; [|intros j r' Hj Hwj|done].
      * cbn [walk]. rewrite Hp. cbn. rewrite Eq. exact Hw.
      * destruct j as [|j].
        -- cbn in Hwj. injection Hwj as <-. unfold kind. by rewrite Hp.
        -- cbn [walk] in Hwj. rewrite Hp in Hwj. cbn in Hwj. rewrite Eq in Hwj. cbn in Hwj. apply (Hk j); [lia|done].
  - exists p, b. split_and!; [done|done| |lia]. exists 0%nat. split_and!; [done|intros; lia|]. right. rewrite Hp. cbn. exact Eq.
Qed.

Lemma last_index_spec p b f : h !! p = Some b ->
  exists q bq, last_index h p f = Ok q /\ h !! q = Some bq /\ last_of_kind p f q /\
    CBlockIndex.nHeight bq <= CBlockIndex.nHeight b.
Proof.
  intros Hp. unfold last_index, deref. rewrite Hp. cbn [mbind result_bind].
  pose proof (ok_height _ _ _ (Hok p b Hp)). apply (GetLastBlockIndex_spec _ p b); [done|lia].
Qed.
End retarget.

(** What the code takes for the spacing, and its weight. *)
Definition target_spacing (params : Params.t) (f : bool) (hlast hprev : Z) : Z :=
  let ratio := if hlast <=? 365 then Z.max 10 (Params.nStakeTargetSpacing params * hlast / 365)
               else Z.max 10 (Params.nStakeTargetSpacing params) in
  if f then Params.nStakeTargetSpacing params
  else Z.min (Params.nTargetSpacingMax params) (ratio * (1 + hlast - hprev)).
Definition spacing_weight (f : bool) (hlast : Z) : Z := if f then 1 else if hlast <? 365 then 1 else 3.

(** The exponential moving average: [a] is the actual spacing. *)
Definition average (params : Params.t) (f : bool) (hlast hprev a T : Z) : Z :=
  let S := target_spacing params f hlast hprev in
  let I := Params.nTargetTimespan params / S in
  let n := spacing_weight f hlast in
  T * ((I - n) * S + (n + 1) * a) / ((I + 1) * S).

Record params_ok (params : Params.t) : Prop := {
  ok_limit : blob_wf 32 (Params.powLimit params);
  ok_stake : 10 <= Params.nStakeTargetSpacing params < 2 ^ 20;
  ok_max : 10 <= Params.nTargetSpacingMax params < 2 ^ 20;
  ok_span : 3 * 2 ^ 20 <= 3 * 2 ^ 20 + Params.nTargetTimespan params < 2 ^ 31;
}.

Lemma target_spacing_bounds params f hlast hprev : params_ok params -> 0 <= hprev <= hlast ->
  10 <= target_spacing params f hlast hprev < 2 ^ 20.
Proof.
  intros [_ Hs Hm _] Hh. unfold target_spacing. destruct f; [lia|].
  set (r := if hlast <=? 365 then _ else _). assert (10 <= r) by (unfold r; case_bool; lia). nia.
Qed.

Section next.
Context {B : Type} {lib : BigNumLib B} (num : B -> Z) {laws : BigNumLaws B num}.

(** The code computes the average, within the limit, and encodes it. *)
Lemma next_target_spec params f hlast hprev a c T : params_ok params -> 0 <= hprev <= hlast -> hlast < 2 ^ 31 ->
  is_u 32 c -> target_of c = Some T -> - 2 ^ 33 < a < 2 ^ 33 ->
  let S := target_spacing params f hlast hprev in
  let I := Params.nTargetTimespan params / S in
  let n := spacing_weight f hlast in
  0 <= (I - n) * S + (n + 1) * a ->
  let v := Z.min (le_val (Params.powLimit params)) (average params f hlast hprev a T) in
  0 <= v < 2 ^ 256 /\ exists x : B, num x = v /\ next_target (B := B) params f hlast hprev a c = Ok (CBigNum.GetCompact x).
Proof.
  intros Hp Hh Hl Hc HT Ha S I n HW v. pose proof (target_spacing_bounds params f hlast hprev Hp Hh) as HS. fold S in HS.
  destruct Hp as [Hlim Hst Hmax Hspan]. pose proof (Z.div_mod (Params.nTargetTimespan params) S ltac:(lia)) as Hdm.
  pose proof (Z.mod_pos_bound (Params.nTargetTimespan params) S ltac:(lia)) as Hmb. fold I in Hdm.
  assert (0 <= I) by (apply Z.div_pos; lia). assert (I < 2 ^ 31) by nia.
  assert (1 <= n <= 3) as Hn by (unfold n, spacing_weight; destruct f; [lia|case_bool; lia]).
  assert (0 < (I + 1) * S < 2 ^ 52) as HD by nia.
  assert ((I - n) * S + (n + 1) * a < 2 ^ 53) as HW2 by nia.
  destruct (target_of_int c T Hc HT) as [ET HT0]. rewrite <- (SetCompact_num num c Hc) in ET.
  pose proof (setuint256_num num (Params.powLimit params) Hlim) as El.
  pose proof (le_val_bound (Params.powLimit params) ltac:(apply Hlim)) as Hlb. rewrite (proj1 Hlim) in Hlb. change (8 * Z.of_nat 32) with 256 in Hlb.
  assert (0 <= average params f hlast hprev a T) as Hav by (apply Z.div_pos; [fold S I n; nia|fold S I; lia]).
  split; [unfold v; lia|].
  unfold next_target.
  assert ((if f then Params.nStakeTargetSpacing params else Z.min (Params.nTargetSpacingMax params)
    ((if hlast <=? 365 then Z.max 10 (Z.quot (Params.nStakeTargetSpacing params * hlast) 365) else Z.max 10 (Params.nStakeTargetSpacing params))
      * (1 + hlast - hprev))) = S) as ->.
  { unfold S, target_spacing. rewrite Z.quot_div_nonneg by nia. done. }
  rewrite (proj2 (Z.eqb_neq S 0)) by lia. rewrite (Z.quot_div_nonneg _ S) by lia. fold I. fold (spacing_weight f hlast). fold n.
  unfold CBigNum.op_mul_assign, CBigNum.op_div_assign, CBigNum.op_gt. set (dv := CBigNum.setint64 ((I + 1) * S)).
  assert (num dv = (I + 1) * S) as Ed by (apply (setint64_num num); lia).
  match goal with |- context [BN_div ?x dv] => destruct (div_num x dv ltac:(rewrite Ed; lia)) as (q & -> & Eq) end.
  cbn [mbind result_bind]. rewrite Ed, mul_num, ET, (setint64_num num) in Eq by lia. rewrite Z.quot_div_nonneg in Eq by nia.
  change (T * ((I - n) * S + (n + 1) * a) / ((I + 1) * S)) with (average params f hlast hprev a T) in Eq.
  eexists. split; [|reflexivity]. rewrite (cmp_num (num := num)), Eq, El. unfold v. case_bool; lia.
Qed.

(** What [GetNextTargetRequired] does with the blocks it finds. *)
Lemma rounded (x : B) v : num x = v -> 0 <= v < 2 ^ 256 -> let c := CBigNum.GetCompact x in
  is_u 32 c /\ 0 <= compact_int c <= v /\ (v - compact_int c) * 2 ^ 15 <= v.
Proof.
  intros <- Hv c. pose proof (GetCompact_norm num x Hv) as Eg. set (v := num x) in *. pose proof (compact_norm_bounds v Hv) as Hb.
  pose proof (compact_error v Hv) as He. destruct (compact_norm v) as [s m]. destruct Hb as (Hs & Hm & _).
  assert (is_u 32 c) as Hc by (unfold c, is_u; rewrite Eg; lia).
  split; [done|]. unfold compact_int, c. rewrite Eg. by rewrite compact_fields_pack by done.
Qed.

End next.


(** The main network's parameters, and a chain of four proof-of-work blocks. *)
Definition sample_params : Params.t := main_params (SetNull 32).

Lemma sample_params_ok : params_ok sample_params.
Proof. split; cbn [sample_params main_params Params.powLimit Params.nStakeTargetSpacing Params.nTargetSpacingMax Params.nTargetTimespan]; [by_decide|lia..]. Qed.

Definition chain_block (height time : Z) (prev : option N) : CBlockIndex.t :=
  CBlockIndex.mk None prev None height 0 0 0 zero256 0 0 0 8 (SetNull 32) time 0x1d00ffff 0 0 (SetNull 32) 0 0 0 0 0 0 0
    COutPoint.null 0 (SetNull 32).
Definition sample_chain : heap :=
  <[3%N := chain_block 3 1600000130 (Some 2%N)]> (<[2%N := chain_block 2 1600000120 (Some 1%N)]>
    (<[1%N := chain_block 1 1600000060 (Some 0%N)]> {[0%N := chain_block 0 1600000000 None]})).

Lemma sample_chain_entries (P : N -> CBlockIndex.t -> Prop) :
  P 3%N (chain_block 3 1600000130 (Some 2%N)) -> P 2%N (chain_block 2 1600000120 (Some 1%N)) ->
  P 1%N (chain_block 1 1600000060 (Some 0%N)) -> P 0%N (chain_block 0 1600000000 None) ->
  forall p b, sample_chain !! p = Some b -> P p b.
Proof.
  intros H3 H2 H1 H0 p b Hb. unfold sample_chain in Hb.
  repeat (apply lookup_insert_Some in Hb as [[<- <-]|[_ Hb]]; [done|]). by apply lookup_singleton_Some in Hb as [<- <-].
Qed.

Lemma sample_chain_ok : tree_ok sample_chain.
Proof.
  unfold tree_ok. apply sample_chain_entries; split; cbn [chain_block CBlockIndex.nHeight CBlockIndex.pprev CBlockIndex.pskip]; try lia; try done;
    (eexists; split; [reflexivity|reflexivity]).
Qed.

(** The integers with these operations. *)
Instance integer_lib : BigNumLib Z := {|
  BN_set_word w := w;
  BN_get_word x := Z.abs x;
  BN_mpi2bn bs := mpi_value (drop 4 bs);
  BN_num_bytes x := (bitlen (Z.abs x) + 7) / 8;
  BN_lshift x n := x * 2 ^ n;
  BN_rshift x n := Z.quot x (2 ^ n);
  BN_set_negative x f := if f then - Z.abs x else Z.abs x;
  BN_is_negative x := x <? 0;
  BN_mul := Z.mul;
  BN_div x y := if y =? 0 then None else Some (Z.quot x y);
  BN_cmp x y := if x <? y then -1 else if y <? x then 1 else 0;
|}.

Instance integer_laws : BigNumLaws Z (fun x => x).
Proof.
  split; try done.
  - intros x y Hy. exists (Z.quot x y). cbn. by rewrite (proj2 (Z.eqb_neq y 0)).
  - intros x y ->. done.
  - intros x y. cbn. destruct (Z.ltb_spec x y), (Z.ltb_spec y x); (done || lia).
Qed.


(** ** Proof of work *)

Lemma CompareTo_gt a b : wf a -> wf b -> (CompareTo a b >? 0) = (val b <? val a).
Proof.
  intros Ha Hb. rewrite CompareTo_spec by done.
  destruct (Z.compare_spec (val a) (val b)); symmetry; rewrite ?Z.ltb_lt, ?Z.ltb_ge; lia.
Qed.

(** The proof-of-work check.  A hash passes exactly when the bits stand for a positive
    target that is not above the limit, and the hash, as a little-endian number, is not
    above the target; negative, zero and overflowing encodings always fail. *)
Theorem CheckProofOfWork_correct (be : bool) (params : Params.t) (hash : list Z) (nBits : Z) :
  blob_wf 32 (Params.powLimit params) -> blob_wf 32 hash -> is_u 32 nBits ->
  CheckProofOfWork be params hash nBits = true <->
  exists T, target_of nBits = Some T /\ T <= le_val (Params.powLimit params) /\ le_val hash <= T.
Proof.
  intros Hl Hh Hb. destruct (arith_uint256_conversion be zero256 (Params.powLimit params) ltac:(by_decide) Hl) as [_ (Wl & Vl & _)].
  destruct (arith_uint256_conversion be zero256 hash ltac:(by_decide) Hh) as [_ (Wh & Vh & _)].
  unfold CheckProofOfWork, target_of. pose proof (SetCompact_val nBits Hb) as HS. pose proof (compact_value_nonneg nBits Hb) as Hv0.
  destruct (compact_fields nBits) as [[nSize sign] nWord]. destruct HS as (a & neg & ov & -> & Wa & Va & Hneg & Hov).
  rewrite !CompareTo_gt, Vl, Vh, Va, EqualTo_spec, Va by (done || by_decide).
  set (v := compact_value nSize nWord) in *.
  destruct (Z.leb_spec (2 ^ 256) v) as [Hbig|Hsmall].
  { assert (ov = true) as -> by tauto. rewrite !orb_true_r. cbn. split; [done|]. by intros (T & ? & _). }
  assert (ov = false) as -> by (apply not_true_iff_false; rewrite Hov; lia). rewrite !orb_false_r, Z.mod_small by lia.
  destruct sign; cbn [orb].
  { split; [|by intros (T & ? & _)]. destruct (Z.eqb_spec v 0); [by rewrite orb_true_r|].
    assert (neg = true) as -> by (by apply Hneg). done. }
  assert (neg = false) as -> by (apply not_true_iff_false; rewrite Hneg; by intros [? _]). cbn [orb].
  destruct (Z.eqb_spec v 0); [split; [done|by intros (T & ? & _)]|]. cbn [orb].
  destruct (Z.ltb_spec (le_val (Params.powLimit params)) v), (Z.ltb_spec v (le_val hash)); split; try done; try (intros (T & [= <-] & ? & ?); lia).
  intros _. exists v. split; [done|]. lia.
Qed.

Lemma CheckProofOfWork_correct_witness :
  CheckProofOfWork false sample_params (replicate 26 0xff ++ replicate 6 0) 0x1d00ffff = true.
Proof.
  refine (proj2 (CheckProofOfWork_correct false sample_params (replicate 26 0xff ++ replicate 6 0) 0x1d00ffff
    ltac:(by_decide) ltac:(by_decide) ltac:(by_decide)) _).
  exists (0xffff * 2 ^ 208). split; [reflexivity|]. split; vm_compute; discriminate.
Defined.

(** ** Merged mining *)

Section auxpow.
Context (Hash : list Z -> list Z) (Hash_size : forall x, hash32 (Hash x)).

(** Branches of one length with one index that lead to one root are the same, and start
    at the same leaf. *)
Lemma from_branch_inj br br' leaf leaf' i : length br = length br' -> Forall hash32 br -> Forall hash32 br' ->
  hash32 leaf -> hash32 leaf' ->
  ComputeMerkleRootFromBranch Hash leaf br i = ComputeMerkleRootFromBranch Hash leaf' br' i ->
  (leaf = leaf' /\ br = br') \/ collision Hash.
Proof.
  revert br' leaf leaf' i. induction br as [|x br IH]; intros [|x' br'] leaf leaf' i Hl Hb Hb' Hleaf Hleaf' E; try done; [by left|].
  cbn [ComputeMerkleRootFromBranch] in E. apply Forall_cons in Hb as [Hx Hb]. apply Forall_cons in Hb' as [Hx' Hb']. injection Hl as Hl.
  apply IH in E as [[E ->]|]; [|by right|done|done|done|destruct (negb _); apply Hash_size|destruct (negb _); apply Hash_size].
  destruct (negb _); apply (hash_pair_inj Hash) in E as [[-> ->]|]; auto.
Qed.

Lemma search_found hay needle i : search hay needle = Some i -> take (length needle) (drop i hay) = needle.
Proof.
  revert i. induction hay as [|x hay IH]; intros i E; cbn [search] in E; case_bool_decide as Hc.
  - by injection E as <-.
  - done.
  - injection E as <-. done.
  - destruct (search hay needle) as [j|]; [|done]. cbn in E. injection E as <-. cbn [drop]. by apply IH.
Qed.

Lemma from_branch_size br leaf i : hash32 leaf -> hash32 (ComputeMerkleRootFromBranch Hash leaf br i).
Proof.
  revert leaf i. induction br as [|x br IH]; intros leaf i Hleaf; [done|]. cbn [ComputeMerkleRootFromBranch].
  apply IH. destruct (negb _); apply Hash_size.
Qed.

(** What an accepted proof says about the coinbase of the parent block. *)
Lemma AuxPoWCheck_accepts be params aux hash id : hash32 hash -> AuxPoWCheck be Hash params aux hash id = Some true ->
  let root := ComputeMerkleRootFromBranch Hash hash (vChainMerkleBranch aux) (nChainIndex aux) in
  exists i pc, vin (Header.tx aux) !! 0%nat = Some i /\
    search (CTxIn.scriptSig i) pchMergedMiningHeader = Some pc /\
    take 32 (drop (pc + 4) (CTxIn.scriptSig i)) = reverse root /\
    i32 (host_load be (take 4 (drop (pc + 36) (CTxIn.scriptSig i)))) = Z.shiftl 1 (Z.of_nat (length (vChainMerkleBranch aux))) /\
    nChainIndex aux = chain_slot (i32 (host_load be (take 4 (drop (pc + 40) (CTxIn.scriptSig i))))) id
                        (i32 (host_load be (take 4 (drop (pc + 36) (CTxIn.scriptSig i))))) /\
    nIndex aux = 0 /\ (length (vChainMerkleBranch aux) <= 30)%nat /\
    op_eq (ComputeMerkleRootFromBranch Hash (GetBtcHash Hash be (Header.tx aux)) (vMerkleBranch aux) 0)
      (Header.hashMerkleRoot (parentBlockHeader aux)) = true /\
    (Params.fPowAllowMinDifficultyBlocks params = false -> GetChainID (parentBlockHeader aux) <> id).
Proof.
  intros Hh E root. unfold AuxPoWCheck in E. fold root in E. destruct (Z.eqb_spec (nIndex aux) 0) as [E0|]; cbn [negb] in E; [|done].
  destruct (negb (Params.fPowAllowMinDifficultyBlocks params) && _) eqn:Ec; [done|]. rewrite Z.gtb_ltb in E.
  destruct (Z.ltb_spec 30 (Z.of_nat (length (vChainMerkleBranch aux)))); [done|]. rewrite E0 in E. change (u32 0) with 0 in E.
  destruct (op_eq _ _) eqn:Er; cbn [negb] in E; [|done].
  destruct (vin (Header.tx aux) !! 0%nat) as [i|] eqn:Ei; [|done]. cbn [mbind option_bind] in E.
  destruct (search (CTxIn.scriptSig i) pchMergedMiningHeader) as [pcHead|] eqn:Es; [|done].
  destruct (search (CTxIn.scriptSig i) (reverse root)) as [pc|] eqn:Ep; [|done].
  case_bool_decide; [done|]. change (length pchMergedMiningHeader) with 4%nat in E.
  destruct (Nat.eqb_spec (pcHead + 4) pc) as [<-|]; cbn [negb] in E; [|done].
  assert (length (reverse root) = 32%nat) as Hr by (rewrite length_reverse; by apply from_branch_size).
  rewrite Hr in E. destruct (_ <? 8)%nat; [done|].
  replace (pcHead + 4 + 32)%nat with (pcHead + 36)%nat in E by lia. replace (pcHead + 36 + 4)%nat with (pcHead + 40)%nat in E by lia.
  destruct (Z.eqb_spec (i32 (host_load be (take 4 (drop (pcHead + 36) (CTxIn.scriptSig i)))))
    (Z.shiftl 1 (Z.of_nat (length (vChainMerkleBranch aux))))); cbn [negb] in E; [|done].
  destruct (Z.eqb_spec (nChainIndex aux) (chain_slot (i32 (host_load be (take 4 (drop (pcHead + 40) (CTxIn.scriptSig i))))) id
    (i32 (host_load be (take 4 (drop (pcHead + 36) (CTxIn.scriptSig i))))))); cbn [negb] in E; [|done].
  exists i, pcHead. split_and!; try done; try lia.
  - apply search_found in Ep. by rewrite Hr in Ep.
  - intros Hf. rewrite Hf in Ec. cbn [negb andb] in Ec. by apply Z.eqb_neq.
Qed.

(** C31: a coinbase of the parent chain serves one block of this chain.  Two accepted
    proofs with the same coinbase transaction are about the same block with the same chain
    branch, unless two byte strings with the same hash are at hand; and an accepted proof
    places the coinbase, as the first transaction, under the Merkle root of a parent block
    that (on the main network) is of another chain. *)
Theorem auxpow_unique (be : bool) (params params' : Params.t) (aux aux' : CAuxPow) (hash hash' : list Z) (id : Z) :
  hash32 hash -> hash32 hash' -> Forall hash32 (vChainMerkleBranch aux) -> Forall hash32 (vChainMerkleBranch aux') ->
  Header.tx aux = Header.tx aux' ->
  AuxPoWCheck be Hash params aux hash id = Some true -> AuxPoWCheck be Hash params' aux' hash' id = Some true ->
  ((hash = hash' /\ vChainMerkleBranch aux = vChainMerkleBranch aux' /\ nChainIndex aux = nChainIndex aux') \/ collision Hash) /\
  nIndex aux = 0 /\
  op_eq (ComputeMerkleRootFromBranch Hash (GetBtcHash Hash be (Header.tx aux)) (vMerkleBranch aux) 0)
    (Header.hashMerkleRoot (parentBlockHeader aux)) = true /\
  (Params.fPowAllowMinDifficultyBlocks params = false -> GetChainID (parentBlockHeader aux) <> id).
Proof.
  intros Hh Hh' Hb Hb' Etx HA HA'.
  apply AuxPoWCheck_accepts in HA as (i & pc & Ei & Es & Er & En & Ec & E0 & Hlen & Hroot & Hid); [|done].
  apply AuxPoWCheck_accepts in HA' as (i' & pc' & Ei' & Es' & Er' & En' & Ec' & _); [|done].
  split; [|done]. rewrite Etx, Ei' in Ei. injection Ei as <-. rewrite Es in Es'. injection Es' as <-.
  rewrite En in En'. rewrite !Z.shiftl_1_l in En'. apply Z.pow_inj_r in En'; [|lia..].
  assert (nChainIndex aux = nChainIndex aux') as Esl by (by rewrite Ec, Ec').
  rewrite Er, Esl in Er'. apply (inj reverse) in Er'.
  apply from_branch_inj in Er' as [[-> ->]|]; [by left; split_and!|by right|lia|done..].
Qed.
End auxpow.

Definition sample_slot : Z := chain_slot 7 AUXPOW_CHAIN_ID 2.
Definition sample_chain_root : list Z :=
  ComputeMerkleRootFromBranch toy_hash (replicate 32 5) [replicate 32 6] sample_slot.
Definition sample_coinbase : CTransaction :=
  let script := [3; 1; 2; 3] ++ pchMergedMiningHeader ++ reverse sample_chain_root ++ [2; 0; 0; 0; 7; 0; 0; 0] in
  {| Transaction.nVersion := 1; Transaction.nTime := 0; vin := [CTxIn.mk COutPoint.null script 0xffffffff []];
     vout := vout sample_tx; nLockTime := 0 |}.
Definition sample_aux : CAuxPow :=
  mk_aux sample_coinbase (SetNull 32) [] 0 [replicate 32 6] sample_slot
    (Header.mk 2 (SetNull 32) (GetBtcHash toy_hash false sample_coinbase) 0 0 0 0 (SetNull 32) None None 0).

Lemma auxpow_unique_witness :
  AuxPoWCheck false toy_hash sample_params sample_aux (replicate 32 5) AUXPOW_CHAIN_ID = Some true /\ nIndex sample_aux = 0.
Proof.
  split; [vm_compute; reflexivity|].
  refine (proj1 (proj2 (auxpow_unique toy_hash toy_hash_size false sample_params sample_params sample_aux sample_aux
    (replicate 32 5) (replicate 32 5) AUXPOW_CHAIN_ID _ _ _ _ _ _ _))); first [reflexivity | by_decide | vm_compute; reflexivity].
Defined.

(** The first input of the parent coinbase is read without a look at how many there are:
    a proof whose coinbase has none, under the root of a parent made for it, is an access
    outside the vector. *)
Definition inputless_coinbase : CTransaction := Build_CTransaction 1 0 [] [] 0.
Definition inputless_aux : CAuxPow :=
  mk_aux inputless_coinbase (SetNull 32) [] 0 [] 0
    (Header.mk 2 (SetNull 32) (GetBtcHash toy_hash false inputless_coinbase) 0 0 0 0 (SetNull 32) None None 0).
Example auxpow_without_input (hash : list Z) :
  AuxPoWCheck false toy_hash sample_params inputless_aux hash AUXPOW_CHAIN_ID = None.
Proof. reflexivity. Qed.
