(* ===== verification/TxCheck.v ===== *)
(** * TxCheck: the rules for a transaction

    Models [CValidationState] ([src/src/consensus/validation.h]) and the rules of
    [src/src/validation.cpp] for one transaction: [CheckTransaction], the counting of
    signature operations, [GetProofOfWorkReward], [GetMfc7POSReward] and
    [CheckTxInputs].

    A check runs in the monad [check C]: it reads and changes a validation state and a
    further state [C] (a cache of coins, say).  [return state.DoS(...)] is [reject], the
    outcome [rejected]; exceptions and failed assertions are outcomes of their own.  The
    debug message of a validation state, text for the log, is left out. *)
From Stdlib Require Import String.
From S2P Require Import Prelude ConsensusParams Endian ArithUint256 Uint256 Serialize Amount Transaction Script Coins.
From S2P Require Import Interpreter VerifyScript.

(** ** CValidationState *)

Inductive mode_state : Set := MODE_VALID | MODE_INVALID | MODE_ERROR.

Definition REJECT_INVALID : Z := 0x10.
Definition REJECT_OBSOLETE : Z := 0x11.
Definition REJECT_NONSTANDARD : Z := 0x40.
Definition REJECT_RANDPAY : Z := 0xEC.

Module CValidationState.
Record t : Type := mk {
  mode : mode_state;
  nDoS : Z;
  strRejectReason : string;
  chRejectCode : Z;
  corruptionPossible : bool;
}.

Definition new : t := mk MODE_VALID 0 "" 0 false.

(** The state after [DoS]; the result is the argument [ret]. *)
Definition DoS (level code : Z) (reason : string) (corruption : bool) (s : t) : t :=
  match mode s with
  | MODE_ERROR => mk MODE_ERROR (nDoS s) reason code corruption
  | _ => mk MODE_INVALID (i32 (nDoS s + level)) reason code corruption
  end.
Definition Invalid (code : Z) (reason : string) (s : t) : t := DoS 0 code reason false s.
Definition Error (reason : string) (s : t) : t :=
  mk MODE_ERROR (nDoS s) (match mode s with MODE_VALID => reason | _ => strRejectReason s end)
    (chRejectCode s) (corruptionPossible s).

Definition IsValid (s : t) : bool := match mode s with MODE_VALID => true | _ => false end.
Definition IsInvalid (s : t) : bool := match mode s with MODE_INVALID => true | _ => false end.
Definition IsError (s : t) : bool := match mode s with MODE_ERROR => true | _ => false end.
Definition SetCorruptionPossible (s : t) : t :=
  mk (mode s) (nDoS s) (strRejectReason s) (chRejectCode s) true.
End CValidationState.
Import CValidationState.

(** ** Checks *)

Inductive stop : Set :=
| rejected          (** the function returned false *)
| out_of_range      (** [GetValueOut] threw *)
| assert_failed     (** a failed [assert] *)
| undefined         (** an index out of the range of its vector *)
| script_exception. (** an exception or a failed assertion of the script code *)

Definition check (C A : Type) : Type := CValidationState.t * C -> result stop A * (CValidationState.t * C).

#[export] Instance check_ret {C} : MRet (check C) := fun A a s => (Ok a, s).
#[export] Instance check_bind {C} : MBind (check C) := fun A B f m s =>
  match m s with
  | (Ok a, s') => f a s'
  | (Err e, s') => (Err e, s')
  end.

Section monad.
Context {C : Type}.

Definition stop_with {A} (e : stop) : check C A := fun s => (Err e, s).

(** [return state.DoS(level, false, code, reason, corruption)] *)
Definition reject {A} (level code : Z) (reason : string) (corruption : bool) : check C A :=
  fun s => (Err rejected, (DoS level code reason corruption s.1, s.2)).

(** [if (bad) return state.DoS(...)] *)
Definition reject_if (bad : bool) (level code : Z) (reason : string) (corruption : bool) : check C unit :=
  if bad then reject level code reason corruption else mret tt.

Definition get_valid {A} (o : option A) (e : stop) : check C A :=
  match o with Some a => mret a | None => stop_with e end.

(** A call that reads and fills the cache. *)
Definition with_cache {A} (f : C -> C * A) : check C A :=
  fun s => let '(c, a) := f s.2 in (Ok a, (s.1, c)).
Definition with_cache_fault {A} (f : C -> result coins_fault (C * A)) : check C A :=
  fun s => match f s.2 with Ok (c, a) => (Ok a, (s.1, c)) | Err _ => (Err assert_failed, s) end.
End monad.

(** ** CheckTransaction *)

Section transaction.
Context (be : bool) {C : Type}.

(** The order of [std::set<COutPoint>]: elements neither of which is less are the same. *)
Definition same_outpoint (a b : COutPoint.t) : bool :=
  negb (COutPoint.op_lt a b) && negb (COutPoint.op_lt b a).

Fixpoint check_outputs (may_be_empty : bool) (nValueOut : Z) (outs : list CTxOut.t) : check C unit :=
  match outs with
  | [] => mret tt
  | o :: outs' =>
      _ ← reject_if (CTxOut.IsEmpty o && negb may_be_empty) 100 REJECT_INVALID "empty-txout" false;
      _ ← reject_if (CTxOut.nValue o >? MAX_MONEY) 100 REJECT_INVALID "bad-txns-vout-toolarge" false;
      let nValueOut := i64 (nValueOut + CTxOut.nValue o) in
      _ ← reject_if (negb (MoneyRange nValueOut)) 100 REJECT_INVALID "bad-txns-txouttotal-toolarge" false;
      check_outputs may_be_empty nValueOut outs'
  end.

Fixpoint check_duplicates (vInOutPoints : list COutPoint.t) (ins : list CTxIn.t) : check C unit :=
  match ins with
  | [] => mret tt
  | i :: ins' =>
      _ ← reject_if (existsb (same_outpoint (CTxIn.prevout i)) vInOutPoints) 100 REJECT_INVALID
            "bad-txns-inputs-duplicate" false;
      check_duplicates (CTxIn.prevout i :: vInOutPoints) ins'
  end.

Fixpoint check_prevouts (ins : list CTxIn.t) : check C unit :=
  match ins with
  | [] => mret tt
  | i :: ins' =>
      _ ← reject_if (COutPoint.IsNull be (CTxIn.prevout i)) 10 REJECT_INVALID "bad-txns-prevout-null" false;
      check_prevouts ins'
  end.

Fixpoint check_randpay (found : bool) (ins : list CTxIn.t) : check C unit :=
  match ins with
  | [] => mret tt
  | i :: ins' =>
      if Uint256.op_eq (COutPoint.hash (CTxIn.prevout i)) randpaytx then
        _ ← reject_if found 100 REJECT_INVALID "multiple-randpay-utxo" false;
        check_randpay true ins'
      else check_randpay found ins'
  end.

(** The size without witnesses. *)
Definition base_size (tx : CTransaction) : Z :=
  GetSerializeSize (tx_codec be SER_NETWORK (Z.lor PROTOCOL_VERSION SERIALIZE_TRANSACTION_NO_WITNESS) 0) tx.

Definition CheckTransaction (tx : CTransaction) (fCheckDuplicateInputs : bool) : check C unit :=
  _ ← reject_if (Nat.eqb (length (vin tx)) 0) 10 REJECT_INVALID "bad-txns-vin-empty" false;
  _ ← reject_if (Nat.eqb (length (vout tx)) 0) 10 REJECT_INVALID "bad-txns-vout-empty" false;
  _ ← reject_if (base_size tx >? MAX_BLOCK_BASE_SIZE) 100 REJECT_INVALID "bad-txns-oversize" false;
  _ ← check_outputs (IsCoinBase be tx || IsCoinStake be tx) 0 (vout tx);
  _ ← (if fCheckDuplicateInputs then check_duplicates [] (vin tx) else mret tt);
  _ ← (if IsCoinBase be tx then
         i ← get_valid (vin tx !! 0%nat) undefined;
         let n := Z.of_nat (length (CTxIn.scriptSig i)) in
         reject_if ((n <? 2) || (n >? 100)) 100 REJECT_INVALID "bad-cb-length" false
       else check_prevouts (vin tx));
  check_randpay false (vin tx).
End transaction.

(** ** Reasoning about checks

    [decides_as I R m P Q]: from a cache that satisfies [I], the check [m] keeps [I] and
    either accepts, without a change to the validation state and with a result in [Q], and
    then [P] holds, or rejects, the state changing by [R], and then [P] does not hold.  It
    never stops otherwise. *)

Section decides.
Context {C : Type} (I : C -> Prop) (R : CValidationState.t -> CValidationState.t -> Prop).

Definition decides_as {A} (m : check C A) (P : Prop) (Q : A -> Prop) : Prop :=
  forall st c, I c -> exists r st' c', m (st, c) = (r, (st', c')) /\ I c' /\
    match r with
    | Ok a => st' = st /\ P /\ Q a
    | Err rejected => R st st' /\ ~ P
    | Err _ => False
    end.
Definition decides {A} (m : check C A) (P : Prop) : Prop := decides_as m P (fun _ => True).

Lemma decides_ret_as {A} (a : A) : decides_as (mret a) True (fun b => b = a).
Proof. intros st c Hc. by exists (Ok a), st, c. Qed.

Lemma decides_bind_as {A B} (m : check C A) (k : A -> check C B) P Q P' Q' :
  decides_as m P Q -> (P -> forall a, Q a -> decides_as (k a) P' Q') -> decides_as (m ≫= k) (P /\ P') Q'.
Proof.
  intros Hm Hk st c Hc. destruct (Hm st c Hc) as ([a|e] & st1 & c1 & E & Hc1 & Hr); unfold mbind, check_bind; rewrite E.
  - destruct Hr as (-> & HP & HQ). destruct (Hk HP a HQ st c1 Hc1) as (r & st' & c' & -> & Hc' & Hr). exists r, st', c'. split; [done|]. split; [done|].
    destruct r as [b|[]]; tauto.
  - exists (Err e), st1, c1. split; [done|]. split; [done|]. destruct e; tauto.
Qed.

Lemma decides_iff_as {A} (m : check C A) P P' (Q Q' : A -> Prop) : decides_as m P Q -> (P <-> P') -> (forall a, P -> Q a -> Q' a) -> decides_as m P' Q'.
Proof.
  intros Hm E HQ st c Hc. destruct (Hm st c Hc) as (r & st' & c' & Em & Hc' & Hr). exists r, st', c'. split; [done|]. split; [done|].
  destruct r as [a|[]]; try tauto. destruct Hr as (-> & HP & Ha). split_and!; [done|by apply E|by apply HQ].
Qed.

Lemma decides_reject_if bad level code reason corruption :
  (bad = true -> forall st, R st (DoS level code reason corruption st)) ->
  decides (reject_if bad level code reason corruption) (bad = false).
Proof.
  intros HR st c Hc. destruct bad; [exists (Err rejected)|exists (Ok tt)]; do 2 eexists; (split; [reflexivity|]); split_and!; auto.
Qed.

Lemma decides_ret {A} (a : A) : decides (mret a) True.
Proof. intros st c Hc. by exists (Ok a), st, c. Qed.

Lemma decides_bind {A B} (m : check C A) (k : A -> check C B) P Q :
  decides m P -> (P -> forall a, decides (k a) Q) -> decides (m ≫= k) (P /\ Q).
Proof. intros Hm Hk. eapply decides_bind_as; [exact Hm|]. intros HP a _. by apply Hk. Qed.

Lemma decides_iff {A} (m : check C A) P Q : decides m P -> (P <-> Q) -> decides m Q.
Proof. intros Hm E. by eapply decides_iff_as. Qed.

Lemma decides_if {A} (b : bool) (m1 m2 : check C A) P1 P2 :
  (b = true -> decides m1 P1) -> (b = false -> decides m2 P2) -> decides (if b then m1 else m2) (if b then P1 else P2).
Proof. destruct b; auto. Qed.

(** A step that always accepts. *)
Lemma decides_then {A B} (m : check C A) (k : A -> check C B) Q P' Q' :
  decides_as m True Q -> (forall a, Q a -> decides_as (k a) P' Q') -> decides_as (m ≫= k) P' Q'.
Proof. intros Hm Hk. eapply decides_iff_as; [eapply decides_bind_as; [exact Hm|intros _; exact Hk]|tauto|done]. Qed.

(** A call that fills the cache, and a value that is there. *)
Lemma decides_with_cache {A} (f : C -> C * A) (Q : A -> Prop) :
  (forall c, I c -> I (f c).1 /\ Q (f c).2) -> decides_as (with_cache f) True Q.
Proof. intros Hf st c Hc. destruct (Hf c Hc) as [Hc' HQ]. unfold with_cache. cbn. destruct (f c) as [c' a]. by exists (Ok a), st, c'. Qed.

Lemma decides_get_valid {A} (o : option A) e a : o = Some a -> decides_as (get_valid o e) True (fun b => b = a).
Proof. intros ->. apply decides_ret_as. Qed.
End decides.

(** A rejection for which the peer is punished. *)
Definition punished (st st' : CValidationState.t) : Prop :=
  chRejectCode st' = REJECT_INVALID /\
  (mode st <> MODE_ERROR -> IsInvalid st' = true /\ (0 <= nDoS st < 2 ^ 30 -> nDoS st + 10 <= nDoS st')).

Lemma punished_DoS level reason corruption st : 10 <= level <= 100 -> punished st (DoS level REJECT_INVALID reason corruption st).
Proof.
  intros Hl. unfold punished, DoS.
  destruct (mode st); cbn [mode nDoS chRejectCode IsInvalid]; (split; [done|]); try (intros ?; done);
    intros _; (split; [done|]); intros Hn; rewrite swrap_small by (unfold is_s; lia); lia.
Qed.

(** ** CheckTransaction *)

(** Every partial sum of the values is a valid amount. *)
Fixpoint sums_in_range (total : Z) (outs : list CTxOut.t) : Prop :=
  match outs with
  | [] => True
  | o :: outs' => CTxOut.nValue o <= MAX_MONEY /\ 0 <= total + CTxOut.nValue o <= MAX_MONEY /\
                  sums_in_range (total + CTxOut.nValue o) outs'
  end.

Record tx_rules (be : bool) (tx : CTransaction) (fCheckDuplicateInputs : bool) : Prop := {
  rule_inputs : vin tx <> [];
  rule_outputs : vout tx <> [];
  rule_size : base_size be tx <= MAX_BLOCK_BASE_SIZE;
  rule_values : sums_in_range 0 (vout tx);
  rule_empty : IsCoinBase be tx = false -> IsCoinStake be tx = false -> Forall (fun o => CTxOut.IsEmpty o = false) (vout tx);
  rule_distinct : fCheckDuplicateInputs = true -> NoDup (map CTxIn.prevout (vin tx));
  rule_coinbase : IsCoinBase be tx = true -> forall i, vin tx !! 0%nat = Some i -> 2 <= Z.of_nat (length (CTxIn.scriptSig i)) <= 100;
  rule_prevouts : IsCoinBase be tx = false -> Forall (fun i => CTxIn.prevout i <> COutPoint.null) (vin tx);
  rule_randpay : (length (filter (fun i => COutPoint.hash (CTxIn.prevout i) = randpaytx) (vin tx)) <= 1)%nat;
}.

Lemma same_outpoint_eq a b : COutPoint.valid a -> COutPoint.valid b -> same_outpoint a b = true <-> a = b.
Proof.
  intros [[La Ba] Ha] [[Lb Bb] Hb]. unfold same_outpoint, COutPoint.op_lt, Compare.
  rewrite (memcmp_antisym (COutPoint.hash a) (COutPoint.hash b)). pose proof (memcmp_eq (COutPoint.hash a) (COutPoint.hash b) ltac:(congruence)) as He.
  set (m := memcmp _ _) in *. rewrite andb_true_iff, !negb_true_iff, !orb_false_iff, !andb_false_iff, !Z.ltb_ge, !Z.eqb_neq.
  destruct a as [ha na], b as [hb nb]. cbn in *. split.
  - intros ([? H1] & [? H2]). assert (m = 0) as E by lia. pose proof (proj1 He E) as ->. f_equal. lia.
  - intros [= -> ->]. assert (m = 0) by (by apply He). lia.
Qed.

Lemma outpoint_IsNull be o : COutPoint.valid o -> COutPoint.IsNull be o = true <-> o = COutPoint.null.
Proof.
  intros [Hh Hn]. destruct (blob_predicates be 32 (COutPoint.hash o) (COutPoint.hash o) Hh Hh) as [E _].
  unfold COutPoint.IsNull. rewrite andb_true_iff, E, Z.eqb_eq. destruct o as [h n]. cbn. split.
  - by intros [-> ->].
  - unfold COutPoint.null. by intros [= -> ->].
Qed.

Section CheckTransaction.
Context (be : bool) {C : Type} (I : C -> Prop).

#[local] Abbreviation dec := (decides I punished).

Lemma dec_reject_if bad level reason corruption (P : Prop) : 10 <= level <= 100 -> (bad = false <-> P) ->
  dec (reject_if bad level REJECT_INVALID reason corruption) P.
Proof. intros Hl E. eapply decides_iff; [|exact E]. apply decides_reject_if. intros _ st. by apply punished_DoS. Qed.

Lemma check_outputs_dec may total outs : 0 <= total <= MAX_MONEY -> Forall (fun o => is_s 64 (CTxOut.nValue o)) outs ->
  dec (check_outputs may total outs) (sums_in_range total outs /\ (may = false -> Forall (fun o => CTxOut.IsEmpty o = false) outs)).
Proof.
  intros Ht Ho. revert total Ht. induction Ho as [|o outs Hv Ho IH]; intros total Ht; cbn [check_outputs sums_in_range].
  { eapply decides_iff; [apply decides_ret|]. split; [|done]. intros _. by split. }
  unfold is_s, MAX_MONEY, COIN in *.
  eapply decides_iff; [eapply decides_bind; [apply (dec_reject_if _ _ _ _ (CTxOut.IsEmpty o = false \/ may = true)); [lia|]|intros _ _; eapply decides_bind; [apply (dec_reject_if _ _ _ _ (CTxOut.nValue o <= MAX_MONEY)); [lia|]|intros Hm _;
    eapply decides_bind; [apply (dec_reject_if _ _ _ _ (0 <= total + CTxOut.nValue o <= MAX_MONEY)); [lia|]|intros Hs _]]]|].
  - destruct (CTxOut.IsEmpty o), may; cbn; intuition congruence.
  - rewrite Z.gtb_ltb, Z.ltb_ge. done.
  - unfold MAX_MONEY, COIN in *. rewrite swrap_small by (unfold is_s; lia). rewrite negb_false_iff. unfold MoneyRange, MAX_MONEY, COIN.
    rewrite andb_true_iff, Z.geb_leb, !Z.leb_le. done.
  - unfold MAX_MONEY, COIN in *. rewrite swrap_small by (unfold is_s; lia). by apply IH.
  - unfold MAX_MONEY, COIN. rewrite Forall_cons. destruct may; intuition congruence.
Qed.

Lemma existsb_same seen p : Forall COutPoint.valid seen -> COutPoint.valid p -> existsb (same_outpoint p) seen = false <-> p ∉ seen.
Proof.
  intros Hs Hp. induction Hs as [|q seen Hq Hs IH]; cbn [existsb]; [split; [intros _; apply not_elem_of_nil|done]|].
  by rewrite orb_false_iff, IH, <- not_true_iff_false, same_outpoint_eq, not_elem_of_cons by done.
Qed.

Lemma check_duplicates_dec seen ins : Forall COutPoint.valid seen -> Forall (fun i => COutPoint.valid (CTxIn.prevout i)) ins ->
  dec (check_duplicates seen ins) (NoDup (map CTxIn.prevout ins) /\ Forall (fun i => CTxIn.prevout i ∉ seen) ins).
Proof.
  intros Hs Hi. revert seen Hs. induction Hi as [|i ins Hp Hi IH]; intros seen Hs; cbn [check_duplicates map].
  { eapply decides_iff; [apply decides_ret|]. split; [|done]. intros _. split; constructor. }
  eapply decides_iff; [eapply decides_bind; [apply (dec_reject_if _ _ _ _ (CTxIn.prevout i ∉ seen)); [lia|by apply existsb_same]|
    intros _ _; apply (IH (CTxIn.prevout i :: seen)); by constructor]|].
  rewrite NoDup_cons, Forall_cons, !Forall_forall, list_elem_of_fmap. split.
  - intros (H1 & H2 & H3). split_and!; [|done|done|]; [intros (j & E & Hj); apply (H3 j Hj); rewrite E; set_solver|].
    intros j Hj. specialize (H3 j Hj). set_solver.
  - intros ((H1 & H2) & H3 & H4). split_and!; [done|done|]. intros j Hj. specialize (H4 j Hj).
    intros Hin. apply elem_of_cons in Hin as [E|]; [|done]. apply H1. by exists j.
Qed.

Lemma check_prevouts_dec ins : Forall (fun i => COutPoint.valid (CTxIn.prevout i)) ins ->
  dec (check_prevouts be ins) (Forall (fun i => CTxIn.prevout i <> COutPoint.null) ins).
Proof.
  intros Hi. induction Hi as [|i ins Hp Hi IH]; cbn [check_prevouts].
  { eapply decides_iff; [apply decides_ret|]. split; [|done]. intros _. constructor. }
  eapply decides_iff; [eapply decides_bind; [apply (dec_reject_if _ _ _ _ (CTxIn.prevout i <> COutPoint.null)); [lia|]|intros _ _; exact IH]|].
  - rewrite <- not_true_iff_false. by rewrite outpoint_IsNull.
  - by rewrite Forall_cons.
Qed.

Lemma check_randpay_dec found ins : Forall (fun i => COutPoint.valid (CTxIn.prevout i)) ins ->
  dec (check_randpay found ins)
    (length (filter (fun i => COutPoint.hash (CTxIn.prevout i) = randpaytx) ins) + (if found then 1 else 0) <= 1)%nat.
Proof.
  intros Hi. revert found. induction Hi as [|i ins Hp Hi IH]; intros found; cbn [check_randpay].
  { eapply decides_iff; [apply decides_ret|]. cbn. destruct found; split; (done || lia). }
  rewrite filter_cons. destruct (blob_predicates be 32 (COutPoint.hash (CTxIn.prevout i)) randpaytx) as (_ & E & _); [apply Hp|by_decide|].
  destruct (Uint256.op_eq _ randpaytx) eqn:Eq.
  - rewrite decide_True by (by apply E). cbn [length].
    eapply decides_iff; [eapply decides_bind; [apply (dec_reject_if _ _ _ _ (found = false)); [lia|done]|intros _ _; apply IH]|].
    destruct found; split; try lia; by intros [? _].
  - rewrite decide_False by (intros ?%E; done). apply IH.
Qed.
End CheckTransaction.

Lemma tx_wf_prevouts tx : tx_wf tx -> Forall (fun i => COutPoint.valid (CTxIn.prevout i)) (vin tx).
Proof. intros [_ _ [Hv _] _ _ _]. eapply Forall_impl; [exact Hv|]. intros i Hi. apply Hi. Qed.

Lemma tx_wf_values tx : tx_wf tx -> Forall (fun o => is_s 64 (CTxOut.nValue o)) (vout tx).
Proof. intros [_ _ _ _ [Hv _] _]. eapply Forall_impl; [exact Hv|]. intros o Ho. apply Ho. Qed.

Lemma CheckTransaction_dec (be : bool) {C : Type} (I : C -> Prop) (tx : CTransaction) (fCheckDuplicateInputs : bool) : tx_wf tx ->
  decides I punished (CheckTransaction be tx fCheckDuplicateInputs) (tx_rules be tx fCheckDuplicateInputs).
Proof.
  intros Hwf. pose proof (tx_wf_prevouts tx Hwf) as Hp. pose proof (tx_wf_values tx Hwf) as Hv.
  eapply decides_iff; [unfold CheckTransaction;
    eapply decides_bind; [apply (dec_reject_if _ _ _ _ _ (vin tx <> [])); [lia|destruct (vin tx); done]|intros Hin _];
    eapply decides_bind; [apply (dec_reject_if _ _ _ _ _ (vout tx <> [])); [lia|destruct (vout tx); done]|intros _ _];
    eapply decides_bind; [apply (dec_reject_if _ _ _ _ _ (base_size be tx <= MAX_BLOCK_BASE_SIZE)); [lia|rewrite Z.gtb_ltb; apply Z.ltb_ge]|intros _ _];
    eapply decides_bind; [apply check_outputs_dec; [unfold MAX_MONEY, COIN; lia|done]|intros _ _];
    eapply decides_bind; [apply decides_if; intros _; [apply check_duplicates_dec; [constructor|done]|apply decides_ret]|intros _ _];
    eapply decides_bind; [apply (decides_if _ _ _ _ _ (forall i, vin tx !! 0%nat = Some i -> 2 <= Z.of_nat (length (CTxIn.scriptSig i)) <= 100));
      intros _; [|by apply check_prevouts_dec]|intros _ _; by apply check_randpay_dec]|].
  - destruct (vin tx) as [|i ins]; [done|]. cbn [lookup list_lookup get_valid].
    apply dec_reject_if; [lia|]. rewrite orb_false_iff, Z.ltb_ge, Z.gtb_ltb, Z.ltb_ge.
    split; [by intros ? ? [= <-]|]. intros H. by apply H.
  - split.
    + intros (H1 & H2 & H3 & (H4 & H5) & H6 & H7 & H8). split; try done.
      * intros Ecb Ecs. apply H5. by rewrite Ecb, Ecs.
      * intros ->. apply H6.
      * intros Ecb. by rewrite Ecb in H7.
      * intros Ecb. by rewrite Ecb in H7.
      * lia.
    + intros [H1 H2 H3 H4 H5 H6 H7 H8 H9]. split_and!; try done.
      * intros [Ecb Ecs]%orb_false_iff. by apply H5.
      * destruct fCheckDuplicateInputs; [|done]. split; [by apply H6|]. apply Forall_true. set_solver.
      * destruct (IsCoinBase be tx); [by apply H7|by apply H8].
      * lia.
Qed.

(** C19: the rules for a transaction on its own.  [CheckTransaction] accepts exactly the
    transactions that have inputs, outputs and an admissible size, whose outputs have
    partial sums that are amounts (and are not empty, but in coinbases and coinstakes),
    whose inputs are distinct, not null (a coinbase's script has 2 to 100 bytes instead)
    and spend the randpay output at most once.  It never throws or fails an assertion, an
    accepted transaction leaves the validation state alone, and a rejected one is marked
    invalid at the expense of the peer. *)
Theorem CheckTransaction_correct (be : bool) (C : Type) (tx : CTransaction) (fCheckDuplicateInputs : bool)
    (st : CValidationState.t) (c : C) :
  tx_wf tx ->
  exists r st', CheckTransaction be tx fCheckDuplicateInputs (st, c) = (r, (st', c)) /\
    ((r = Ok tt /\ st' = st /\ tx_rules be tx fCheckDuplicateInputs) \/
     (r = Err rejected /\ punished st st' /\ ~ tx_rules be tx fCheckDuplicateInputs)).
Proof.
  intros Hwf. pose proof (CheckTransaction_dec be (fun c' => c' = c) tx fCheckDuplicateInputs Hwf) as Hd.
  destruct (Hd st c eq_refl) as (r & st' & c' & E & -> & Hr). exists r, st'. split; [done|].
  destruct r as [[]|[]]; tauto.
Qed.

Lemma CheckTransaction_correct_witness : tx_rules false sample_tx true.
Proof.
  destruct (CheckTransaction_correct false unit sample_tx true CValidationState.new tt sample_tx_wf)
    as (r & st' & E & [(_ & _ & H)|(-> & _)]); [exact H|].
  vm_compute in E. discriminate.
Defined.

(** An output with a negative value is accepted when the outputs before it make up for it. *)
Example negative_output_accepted :
  (CheckTransaction (C := unit) false
     {| nVersion := 1; nTime := 0; vin := [sample_txin []]; vout := [CTxOut.mk 5000 [0x6a]; CTxOut.mk (-3000) [0x6a]]; nLockTime := 0 |}
     true (CValidationState.new, tt)).1 = Ok tt.
Proof. vm_compute. reflexivity. Qed.

(** ** Rewards *)

(** The arguments [nBits] and [fV7Enabled] are not used. *)
Definition GetProofOfWorkReward (nBits : Z) (fV7Enabled : bool) (nHeight : Z) : Z :=
  let nReductions := i32 (Z.quot nHeight POW_HALVING_PERIOD) in
  let reward := Z.quot POW_REWARD (i64 (Z.shiftl 1 (Z.min nReductions 63))) in
  Z.max reward POW_MIN_REWARD.

(** The reward is halved every [POW_HALVING_PERIOD] blocks until it is one coin, where it
    stays. *)
Lemma GetProofOfWorkReward_spec nBits f h : 0 <= h < 2 ^ 31 ->
  GetProofOfWorkReward nBits f h = Z.max (POW_REWARD / 2 ^ (h / POW_HALVING_PERIOD)) POW_MIN_REWARD.
Proof.
  intros Hh. unfold GetProofOfWorkReward, POW_HALVING_PERIOD. rewrite (Z.quot_div_nonneg h) by lia.
  assert (0 <= h / 400000 < 5369) by (split; [apply Z.div_pos; lia|apply Z.div_lt_upper_bound; lia]).
  rewrite (swrap_small 32) by (unfold is_s; lia). set (n := h / 400000) in *. rewrite Z.shiftl_1_l.
  assert (forall k, 0 <= k -> 5 <= k -> POW_REWARD / 2 ^ k <= POW_MIN_REWARD) as Hlow.
  { intros k Hk Hk5. apply Z.div_le_upper_bound; [lia|]. assert (2 ^ 5 <= 2 ^ k) by (apply Z.pow_le_mono_r; lia).
    unfold POW_REWARD, POW_MIN_REWARD, COIN in *. lia. }
  destruct (Z.leb_spec n 62).
  - rewrite Z.min_l by lia. assert (2 ^ n <= 2 ^ 62) by (apply Z.pow_le_mono_r; lia). assert (0 < 2 ^ n) by lia.
    rewrite swrap_small by (unfold is_s; lia). rewrite Z.quot_div_nonneg by (unfold POW_REWARD, COIN; lia). done.
  - rewrite Z.min_r by lia. pose proof (Hlow n ltac:(lia) ltac:(lia)). change (Z.quot POW_REWARD (i64 (2 ^ 63))) with 0.
    unfold POW_MIN_REWARD, COIN in *. lia.
Qed.

Lemma GetProofOfWorkReward_bounds nBits f h : 0 <= h < 2 ^ 31 ->
  POW_MIN_REWARD <= GetProofOfWorkReward nBits f h <= POW_REWARD /\
  (h + 1 < 2 ^ 31 -> GetProofOfWorkReward nBits f (h + 1) <= GetProofOfWorkReward nBits f h).
Proof.
  intros Hh. assert (forall k, 0 <= k -> POW_REWARD / 2 ^ k <= POW_REWARD) as Hle.
  { intros k Hk. apply Z.div_le_upper_bound; [lia|]. assert (0 < 2 ^ k) by lia. unfold POW_REWARD, COIN. nia. }
  assert (0 <= h / POW_HALVING_PERIOD) by (apply Z.div_pos; unfold POW_HALVING_PERIOD; lia).
  split; [|intros Hh1]; rewrite !GetProofOfWorkReward_spec by lia.
  - specialize (Hle (h / POW_HALVING_PERIOD) ltac:(lia)). unfold POW_REWARD, POW_MIN_REWARD, COIN in *. lia.
  - apply Z.max_le_compat_r. apply Z.div_le_compat_l; [unfold POW_REWARD, COIN; lia|].
    split; [lia|]. apply Z.pow_le_mono_r; [lia|]. apply Z.div_le_mono; unfold POW_HALVING_PERIOD; lia.
Qed.

(** ** Signature operations *)

Section sigops.
Context (be : bool) (DynamicMemoryUsage : CCoins.t -> Z) {V : Type} {cv : CoinsView V}.
#[local] Abbreviation cache := (CCoinsViewCache V).

Definition GetLegacySigOpCount (tx : CTransaction) : option Z :=
  let count script n := k ← CScript.GetSigOpCount be script false; Some (u32 (n + k)) in
  n ← foldl (fun n i => n ≫= count (CTxIn.scriptSig i)) (Some 0) (vin tx);
  foldl (fun n o => n ≫= count (CTxOut.scriptPubKey o)) (Some n) (vout tx).

Definition script_call {C E A} (r : result E A) : check C A :=
  match r with Ok a => mret a | Err _ => stop_with script_exception end.

Fixpoint p2sh_sigops (ins : list CTxIn.t) (nSigOps : Z) : check cache Z :=
  match ins with
  | [] => mret nSigOps
  | i :: ins' =>
      '(prevout, nVersion) ← with_cache_fault (fun c => GetOutputFor DynamicMemoryUsage c i);
      p2sh ← script_call (IsPayToScriptHash be (CTxOut.scriptPubKey prevout) nVersion);
      if p2sh : bool then
        n ← script_call (GetSigOpCount_p2sh be (CTxOut.scriptPubKey prevout) (CTxIn.scriptSig i) nVersion);
        n ← get_valid n script_exception;
        p2sh_sigops ins' (u32 (nSigOps + n))
      else p2sh_sigops ins' nSigOps
  end.

Definition GetP2SHSigOpCount (tx : CTransaction) : check cache Z :=
  if IsCoinBase be tx then mret 0 else p2sh_sigops (vin tx) 0.

Fixpoint witness_sigops (flags nVersion : Z) (ins : list CTxIn.t) (nSigOps : Z) : check cache Z :=
  match ins with
  | [] => mret nSigOps
  | i :: ins' =>
      '(prevout, _) ← with_cache_fault (fun c => GetOutputFor DynamicMemoryUsage c i);
      n ← script_call (CountWitnessSigOps be (CTxIn.scriptSig i) (CTxOut.scriptPubKey prevout) (CTxIn.scriptWitness i) flags nVersion);
      witness_sigops flags nVersion ins' (i64 (nSigOps + n))
  end.

Definition GetTransactionSigOpCost (tx : CTransaction) (flags : Z) : check cache Z :=
  n ← get_valid (GetLegacySigOpCount tx) script_exception;
  let nSigOps := u32 (n * WITNESS_SCALE_FACTOR) in
  if IsCoinBase be tx then mret nSigOps
  else
    nSigOps ← (if flag_set flags SCRIPT_VERIFY_P2SH then
                 n ← GetP2SHSigOpCount tx; mret (i64 (nSigOps + u32 (n * WITNESS_SCALE_FACTOR)))
               else mret nSigOps);
    witness_sigops flags (nVersion tx) (vin tx) nSigOps.
End sigops.

(** ** Inputs of a transaction *)

(** What the transaction index and the block file hold for a transaction id. *)
Inductive tx_lookup : Type :=
| not_indexed
| unreadable
| indexed (tx : CTransaction).

Section inputs.
Context (be : bool) (Hash : list Z -> list Z) (DynamicMemoryUsage : CCoins.t -> Z) {V : Type} {cv : CoinsView V}.
Context (params : Params.t) (fTxIndex : bool) (read_tx : list Z -> tx_lookup).
#[local] Abbreviation cache := (CCoinsViewCache V).

(** The loop of [GetMfc7POSReward]; [None] is a return of false.  The difference of the
    times is that of two [unsigned int]s. *)
Fixpoint coin_age (tx : CTransaction) (ins : list CTxIn.t) (bnSatSecond : list Z) : check cache (option (list Z)) :=
  match ins with
  | [] => mret (Some bnSatSecond)
  | i :: ins' =>
      let hash := COutPoint.hash (CTxIn.prevout i) in
      coins ← with_cache (fun c => cache_GetCoins DynamicMemoryUsage c hash);
      match coins with
      | None => coin_age tx ins' bnSatSecond
      | Some x =>
          if nTime tx <? CCoins.nTime x then mret None
          else if negb fTxIndex then mret None
          else
            match read_tx hash with
            | not_indexed => mret None
            | unreadable => mret None
            | indexed txPrev =>
                if negb (Uint256.op_eq (GetHash Hash be txPrev) hash) then mret None
                else if nTime txPrev + Params.nStakeMinAge params >? nTime tx then coin_age tx ins' bnSatSecond
                else
                  o ← get_valid (vout txPrev !! Z.to_nat (COutPoint.n (CTxIn.prevout i))) undefined;
                  let dt := u32 (nTime tx - nTime txPrev) in
                  if dt <? 0 then mret None
                  else coin_age tx ins'
                         (op_add_assign bnSatSecond (op_mul_assign_u32 (of_u64 (u64 (CTxOut.nValue o))) (u32 dt)))
            end
      end
  end.

Definition GetMfc7POSReward (tx : CTransaction) : check cache (option Z) :=
  if IsCoinBase be tx then mret (Some 0)
  else
    age ← coin_age tx (vin tx) (of_u64 0);
    match age with
    | None => mret None
    | Some bnSatSecond =>
        match op_div_assign bnSatSecond (of_u64 (365 * 24 * 3600)) with
        | Ok bnSatYr =>
            match op_div_assign (op_mul_assign_u32 bnSatYr 10) (of_u64 100) with
            | Ok q => mret (Some (i64 (u64 (GetLow64 q / TX_DP_AMOUNT * TX_DP_AMOUNT))))
            | Err _ => stop_with undefined
            end
        | Err _ => stop_with undefined
        end
    end.

(** The loop of [CheckTxInputs]. *)
Fixpoint check_inputs (tx : CTransaction) (nSpendHeight : Z) (ins : list CTxIn.t) (nValueIn : Z) : check cache Z :=
  match ins with
  | [] => mret nValueIn
  | i :: ins' =>
      coins ← with_cache (fun c => AccessCoins DynamicMemoryUsage c (COutPoint.hash (CTxIn.prevout i)));
      x ← get_valid coins assert_failed;
      let cnbMaturity := if nSpendHeight >? 193912 then Params.nCoinbaseMaturity params else Params.nCoinbaseMaturityOld params in
      _ ← reject_if ((CCoins.fCoinBase x || CCoins.fCoinStake x) && (nSpendHeight - CCoins.nHeight x <? cnbMaturity))
            0 REJECT_INVALID "bad-txns-premature-spend-of-coinbase/coinstake" false;
      _ ← reject_if (CCoins.nTime x >? nTime tx) 100 REJECT_INVALID "bad-txns-spent-too-early" false;
      o ← get_valid (CCoins.vout x !! Z.to_nat (COutPoint.n (CTxIn.prevout i))) undefined;
      let nValueIn := i64 (nValueIn + CTxOut.nValue o) in
      _ ← reject_if (negb (MoneyRange (CTxOut.nValue o)) || negb (MoneyRange nValueIn))
            100 REJECT_INVALID "bad-txns-inputvalues-outofrange" false;
      check_inputs tx nSpendHeight ins' nValueIn
  end.

(** [Consensus::CheckTxInputs]; the argument [fV7Enabled] is not used. *)
Definition CheckTxInputs (tx : CTransaction) (nSpendHeight : Z) : check cache unit :=
  have ← with_cache (fun c => HaveInputs be DynamicMemoryUsage c tx);
  _ ← reject_if (negb have) 0 0 "" false;
  nValueIn ← check_inputs tx nSpendHeight (vin tx) 0;
  let nMinFee := CTransaction_GetMinFee be tx in
  if IsCoinStake be tx then
    nLimit ← GetMfc7POSReward tx;
    nLimit ← get_valid nLimit rejected;
    nValueOut ← get_valid (GetValueOut tx) out_of_range;
    reject_if (i64 (nValueOut - nValueIn) >? i64 (i64 (nLimit - nMinFee) + MIN_TX_FEE)) 100 REJECT_INVALID "bad-txns-coinstake-too-large" false
  else
    nValueOut ← get_valid (GetValueOut tx) out_of_range;
    _ ← reject_if (nValueIn <? nValueOut) 100 REJECT_INVALID "bad-txns-in-belowout" false;
    let nTxFee := i64 (nValueIn - nValueOut) in
    _ ← reject_if (nTxFee <? 0) 100 REJECT_INVALID "bad-txns-fee-negative" false;
    let nFees := i64 (0 + nTxFee) in
    _ ← reject_if (negb (MoneyRange nFees)) 100 REJECT_INVALID "bad-txns-fee-outofrange" false;
    reject_if (nTxFee <? nMinFee) 100 REJECT_INVALID "bad-txns-fee-not-enough" false.
End inputs.

(** *** What the rules say *)

(** The coins and the output an input refers to, when it is unspent. *)
Definition abs_coin (U : list Z -> option CCoins.t) (i : CTxIn.t) : option (CCoins.t * CTxOut.t) :=
  x ← U (COutPoint.hash (CTxIn.prevout i));
  o ← CCoins.vout x !! Z.to_nat (COutPoint.n (CTxIn.prevout i));
  if CTxOut.IsNull o then None else Some (x, o).

Definition maturity (params : Params.t) (nSpendHeight : Z) : Z :=
  if nSpendHeight >? 193912 then Params.nCoinbaseMaturity params else Params.nCoinbaseMaturityOld params.

Definition spendable (params : Params.t) (tx : CTransaction) (nSpendHeight : Z) (xo : CCoins.t * CTxOut.t) : Prop :=
  (CCoins.fCoinBase xo.1 || CCoins.fCoinStake xo.1 = true -> maturity params nSpendHeight <= nSpendHeight - CCoins.nHeight xo.1) /\
  CCoins.nTime xo.1 <= nTime tx.

Definition total (xs : list (CCoins.t * CTxOut.t)) : Z := foldr Z.add 0 (map (fun xo => CTxOut.nValue xo.2) xs).

(** Value times age, for the coins that are old enough. *)
Definition age_of (params : Params.t) (tx : CTransaction) (xo : CCoins.t * CTxOut.t) : Z :=
  if CCoins.nTime xo.1 + Params.nStakeMinAge params >? nTime tx then 0
  else CTxOut.nValue xo.2 * (nTime tx - CCoins.nTime xo.1).
Definition total_age (params : Params.t) (tx : CTransaction) (xs : list (CCoins.t * CTxOut.t)) : Z :=
  foldr Z.add 0 (map (age_of params tx) xs).

(** Ten per cent a year, in whole units. *)
Definition stake_reward (params : Params.t) (tx : CTransaction) (xs : list (CCoins.t * CTxOut.t)) : Z :=
  total_age params tx xs / (365 * 24 * 3600) * 10 / 100 / TX_DP_AMOUNT * TX_DP_AMOUNT.

Definition input_rules (be : bool) (params : Params.t) (U : list Z -> option CCoins.t) (tx : CTransaction)
    (nSpendHeight nValueOut : Z) : Prop :=
  exists xs, mapM (abs_coin U) (vin tx) = Some xs /\ Forall (spendable params tx nSpendHeight) xs /\
    Forall (fun xo => 0 <= CTxOut.nValue xo.2) xs /\ total xs <= MAX_MONEY /\
    (if IsCoinStake be tx
     then nValueOut - total xs <= stake_reward params tx xs - CTransaction_GetMinFee be tx + MIN_TX_FEE
     else nValueOut + CTransaction_GetMinFee be tx <= total xs).

(** The index has every transaction with unspent outputs. *)
Definition index_agrees (be : bool) (Hash : list Z -> list Z) (read_tx : list Z -> tx_lookup)
    (U : list Z -> option CCoins.t) (tx : CTransaction) : Prop :=
  forall i x o, i ∈ vin tx -> abs_coin U i = Some (x, o) ->
  exists t, read_tx (COutPoint.hash (CTxIn.prevout i)) = indexed t /\
    GetHash Hash be t = COutPoint.hash (CTxIn.prevout i) /\
    vout t !! Z.to_nat (COutPoint.n (CTxIn.prevout i)) = Some o /\ nTime t = CCoins.nTime x.

(** *** The code follows them *)

Lemma max_money : MAX_MONEY = 100000000000000000. Proof. done. Qed.

Lemma MoneyRange_iff v : MoneyRange v = true <-> 0 <= v <= MAX_MONEY.
Proof. unfold MoneyRange. by rewrite andb_true_iff, Z.geb_leb, !Z.leb_le. Qed.

Section CheckTxInputs.
Context (be : bool) (Hash : list Z -> list Z) (mem : CCoins.t -> Z) {V : Type} {cv : CoinsView V} {laws : CoinsViewLaws V}.
Context (params : Params.t) (read_tx : list Z -> tx_lookup) (a : abs_state) (tx : CTransaction) (Htx : tx_wf tx).

#[local] Abbreviation I := (fun c : CCoinsViewCache V => refines be c a).
(** A rejection that marks the transaction, or leaves the state as it was. *)
Definition refused (st st' : CValidationState.t) : Prop := st' = st \/ mode st = MODE_ERROR \/ IsInvalid st' = true.
#[local] Abbreviation dec := (decides_as I refused).

Lemma refused_DoS level code reason corruption st : refused st (DoS level code reason corruption st).
Proof. unfold refused, DoS. destruct (mode st) eqn:E; cbn; auto. Qed.

Lemma dec_refuse_if bad level code reason corruption P : (bad = false <-> P) -> dec (reject_if bad level code reason corruption) P (fun _ => True).
Proof. intros E. eapply decides_iff; [|exact E]. apply decides_reject_if. intros _ st. apply refused_DoS. Qed.

(** Both ways to read coins give what is unspent. *)
Lemma access_coins i x o : abs_coin (a_utxo a) i = Some (x, o) ->
  dec (with_cache (fun c => AccessCoins mem c (COutPoint.hash (CTxIn.prevout i)))) True (fun r => r = Some x) /\
  CCoins.vout x !! Z.to_nat (COutPoint.n (CTxIn.prevout i)) = Some o /\ CTxOut.IsNull o = false.
Proof.
  unfold abs_coin. destruct (a_utxo a _) as [x'|] eqn:Eu; [|done]. cbn. destruct (CCoins.vout x' !! _) as [o'|] eqn:Eo; [|done]. cbn.
  destruct (CTxOut.IsNull o') eqn:En; [done|]. intros [= -> ->]. split; [|done]. apply decides_with_cache. intros c Hc.
  set (k := COutPoint.hash (CTxIn.prevout i)) in *. pose proof (fetch_refines be mem c a k Hc) as Hf. pose proof Hc as [[Hok _] Hu _ _].
  destruct (FetchCoins_spec be mem c k Hok) as (c' & E & _ & _ & _ & _ & Hk). unfold AccessCoins. rewrite E in *. cbn in *.
  split; [done|]. rewrite Hk. specialize (Hu k). rewrite Eu in Hu. destruct (cache_view c k) as [y|]; [|done]. cbn in Hu.
  destruct (CCoins.IsPruned y); [done|]. by injection Hu as ->.
Qed.

Lemma total_cons xo xs : total (xo :: xs) = CTxOut.nValue xo.2 + total xs.
Proof. done. Qed.

Lemma total_nonneg xs : Forall (fun xo => 0 <= CTxOut.nValue xo.2) xs -> 0 <= total xs.
Proof. induction 1; [done|]. rewrite total_cons. lia. Qed.

Lemma check_inputs_dec h ins xs n : mapM (abs_coin (a_utxo a)) ins = Some xs ->
  Forall (fun xo => is_s 64 (CTxOut.nValue xo.2)) xs -> 0 <= n <= MAX_MONEY ->
  dec (check_inputs mem params tx h ins n)
    (Forall (spendable params tx h) xs /\ Forall (fun xo => 0 <= CTxOut.nValue xo.2) xs /\ n + total xs <= MAX_MONEY)
    (fun v => v = n + total xs).
Proof.
  revert xs n. induction ins as [|i ins IH]; intros xs n E Hs Hn; cbn [mapM] in E; cbn [check_inputs].
  { injection E as <-. eapply decides_iff_as; [apply decides_ret_as| |]; unfold total; cbn.
    - split; [intros _; split_and!; [constructor|constructor|lia]|done].
    - intros v _ ->. lia. }
  destruct (abs_coin (a_utxo a) i) as [[x o]|] eqn:Ei; [|done]. cbn in E.
  destruct (mapM (abs_coin (a_utxo a)) ins) as [xs'|] eqn:Em; [|done]. injection E as <-. apply Forall_cons in Hs as [Ho Hs].
  destruct (access_coins i x o Ei) as (Ha & Hv & _). unfold is_s in Ho. cbn [snd] in Ho. pose proof max_money as Hmax.
  eapply decides_then; [exact Ha|intros r ->]. eapply decides_then; [by apply decides_get_valid|intros y ->].
  eapply decides_iff_as; [eapply decides_bind_as; [apply (dec_refuse_if _ _ _ _ _ (CCoins.fCoinBase x || CCoins.fCoinStake x = true -> maturity params h <= h - CCoins.nHeight x))|intros _ [] _];
    [|eapply decides_bind_as; [apply (dec_refuse_if _ _ _ _ _ (CCoins.nTime x <= nTime tx))|intros _ [] _];
    [|eapply decides_then; [by apply decides_get_valid|intros y ->];
    eapply decides_bind_as; [apply (dec_refuse_if _ _ _ _ _ (0 <= CTxOut.nValue o /\ n + CTxOut.nValue o <= MAX_MONEY))|intros Hr [] _];
    [|rewrite swrap_small by (unfold is_s; lia); apply (IH xs' (n + CTxOut.nValue o) eq_refl Hs); lia]]]| |].
  - unfold maturity. destruct (_ || _); cbn [andb]; [rewrite Z.ltb_ge; intuition|split; [done|intros _]; done].
  - by rewrite Z.gtb_ltb, Z.ltb_ge.
  - rewrite orb_false_iff, !negb_false_iff, !MoneyRange_iff. split.
    + intros [H1 H2]. rewrite swrap_small in H2 by (unfold is_s; lia). lia.
    + intros [H1 H2]. rewrite swrap_small by (unfold is_s; lia). lia.
  - rewrite !Forall_cons, total_cons. cbn [fst snd]. unfold spendable at 2. cbn [fst snd].
    split; [intros (? & ? & [? ?] & ? & ? & ?); split_and!; (done || lia)|].
    intros (([? ?] & ?) & (? & ?) & ?). pose proof (total_nonneg xs' ltac:(done)). split_and!; (done || lia).
  - intros v _ ->. rewrite total_cons. cbn [snd]. lia.
Qed.

Lemma age_of_bounds xo : is_u 32 (CCoins.nTime xo.1) -> 0 <= Params.nStakeMinAge params -> 0 <= CTxOut.nValue xo.2 ->
  0 <= age_of params tx xo <= CTxOut.nValue xo.2 * 2 ^ 32.
Proof.
  intros Hx Hm Hv. destruct Htx as [_ Ht _ _ _ _]. unfold is_u in *. unfold age_of. rewrite Z.gtb_ltb. case_bool; nia.
Qed.

Definition coins_wf (xo : CCoins.t * CTxOut.t) : Prop := is_u 32 (CCoins.nTime xo.1) /\ is_s 64 (CTxOut.nValue xo.2).

Lemma total_age_bounds xs : 0 <= Params.nStakeMinAge params -> Forall coins_wf xs -> Forall (fun xo => 0 <= CTxOut.nValue xo.2) xs ->
  0 <= total_age params tx xs <= total xs * 2 ^ 32.
Proof.
  intros Hm. induction 1 as [|xo xs [Ht _] Hw IH]; intros Hv; [done|]. apply Forall_cons in Hv as [Hv Hvs].
  pose proof (age_of_bounds xo Ht Hm Hv). specialize (IH Hvs). unfold total_age, total in *. cbn [map foldr] in *. lia.
Qed.

Lemma coin_age_dec ins xs bn : index_agrees be Hash read_tx (a_utxo a) tx -> ins ⊆ vin tx -> 0 <= Params.nStakeMinAge params ->
  mapM (abs_coin (a_utxo a)) ins = Some xs -> Forall coins_wf xs -> Forall (fun xo => CCoins.nTime xo.1 <= nTime tx) xs ->
  Forall (fun xo => 0 <= CTxOut.nValue xo.2) xs -> ArithUint256.wf bn -> val bn + total xs * 2 ^ 32 < 2 ^ 256 ->
  dec (coin_age be Hash mem params true read_tx tx ins bn) True
    (fun r => exists q, r = Some q /\ ArithUint256.wf q /\ val q = val bn + total_age params tx xs).
Proof.
  intros Hidx. revert xs bn. induction ins as [|i ins IH]; intros xs bn Hsub Hm E Hw Ht Hv Hbn Hb; cbn [mapM] in E; cbn [coin_age].
  { injection E as <-. eapply decides_iff_as; [apply decides_ret_as|done|]. intros r _ ->. exists bn. unfold total_age. cbn. split_and!; (done || lia). }
  destruct (abs_coin (a_utxo a) i) as [[x o]|] eqn:Ei; [|done]. cbn in E.
  destruct (mapM (abs_coin (a_utxo a)) ins) as [xs'|] eqn:Em; [|done]. injection E as <-.
  apply Forall_cons in Hw as [[Hxt Hxv] Hw]. apply Forall_cons in Ht as [Hxt2 Ht]. apply Forall_cons in Hv as [Hxv2 Hv]. cbn [fst snd] in *.
  rewrite total_cons in Hb. cbn [snd] in Hb. pose proof (total_nonneg xs' Hv) as Htn.
  destruct (access_coins i x o Ei) as (Ha & _ & _). destruct (Hidx i x o ltac:(apply Hsub; by left) Ei) as (t & Er & Eh & Eo & Et).
  assert (ins ⊆ vin tx) as Hsub' by (intros j Hj; apply Hsub; by right).
  eapply decides_then; [exact Ha|intros r ->]. rewrite (proj2 (Z.ltb_ge _ _)) by done. cbn [negb]. rewrite Er.
  assert (Uint256.op_eq (GetHash Hash be t) (COutPoint.hash (CTxIn.prevout i)) = true) as -> by (rewrite Eh; apply Z.eqb_eq; by apply memcmp_eq).
  cbn [negb]. rewrite Et. unfold total_age. cbn [map foldr]. unfold age_of at 1. cbn [fst snd].
  destruct (Z.gtb_spec (CCoins.nTime x + Params.nStakeMinAge params) (nTime tx)) as [Hyoung|Hold].
  { eapply decides_iff_as; [apply (IH xs' bn); (done || lia)|done|]. intros r _ H. rewrite Z.add_0_l. exact H. }
  eapply decides_then; [by apply decides_get_valid|intros y ->]. destruct Htx as [_ Htt _ _ _ _]. unfold is_u, is_s in Hxt, Hxv, Htt.
  rewrite (uwrap_small 32 (nTime tx - _)), (proj2 (Z.ltb_ge _ _)) by (unfold is_u; lia). rewrite !uwrap_small by (unfold is_u; lia).
  destruct (of_u64_spec (CTxOut.nValue o)) as [Wo Vo]; [unfold is_u; lia|].
  destruct (op_mul_assign_u32_spec _ (nTime tx - CCoins.nTime x) Wo) as [Wm Vm]; [unfold is_u; lia|].
  destruct (op_add_assign_spec bn _ Hbn Wm) as [Wa Va]. set (m := op_mul_assign_u32 _ _) in *. pose proof (wf_val_bound bn Hbn).
  assert (0 <= CTxOut.nValue o * (nTime tx - CCoins.nTime x) <= CTxOut.nValue o * 2 ^ 32) by nia.
  rewrite Vo, Z.mod_small in Vm by lia. rewrite Vm, Z.mod_small in Va by lia.
  eapply decides_iff_as; [apply (IH xs' (op_add_assign bn m)); (done || lia)|done|].
  intros r _ (q & -> & Wq & Vq). exists q. split_and!; [done|done|]. rewrite Vq, Va. unfold total_age. lia.
Qed.

Lemma reward_dec xs : IsCoinBase be tx = false -> index_agrees be Hash read_tx (a_utxo a) tx -> 0 <= Params.nStakeMinAge params ->
  mapM (abs_coin (a_utxo a)) (vin tx) = Some xs -> Forall coins_wf xs -> Forall (fun xo => CCoins.nTime xo.1 <= nTime tx) xs ->
  Forall (fun xo => 0 <= CTxOut.nValue xo.2) xs -> total xs <= MAX_MONEY ->
  dec (GetMfc7POSReward be Hash mem params true read_tx tx) True (fun r => r = Some (stake_reward params tx xs)) /\
  0 <= stake_reward params tx xs < 2 ^ 62.
Proof.
  intros Hcb Hidx Hm E Hw Ht Hv Hmax. pose proof max_money as Hmm. pose proof (total_nonneg xs Hv) as Hn.
  pose proof (total_age_bounds xs Hm Hw Hv) as Hage. destruct (of_u64_spec 0 ltac:(by_decide)) as [W0 V0].
  destruct (of_u64_spec (365 * 24 * 3600) ltac:(by_decide)) as [Wy Vy]. destruct (of_u64_spec 100 ltac:(by_decide)) as [Wc Vc].
  set (y := of_u64 (365 * 24 * 3600)) in *. set (cent := of_u64 100) in *. unfold stake_reward. set (g := total_age params tx xs) in *.
  assert (0 <= g / (365 * 24 * 3600) < 2 ^ 64) as Hy by (split; [apply Z.div_pos; lia|apply Z.div_lt_upper_bound; lia]).
  assert (0 <= g / (365 * 24 * 3600) * 10 / 100 < 2 ^ 61) as Hq by (split; [apply Z.div_pos; lia|apply Z.div_lt_upper_bound; lia]).
  set (q := g / (365 * 24 * 3600) * 10 / 100) in *. unfold TX_DP_AMOUNT, SUBCENT.
  pose proof (Z.div_mod q 10000 ltac:(lia)). pose proof (Z.mod_pos_bound q 10000 ltac:(lia)). split; [|lia].
  unfold GetMfc7POSReward. rewrite Hcb. eapply decides_then; [apply (coin_age_dec (vin tx) xs (of_u64 0)); try done; lia|].
  intros r (b & -> & Wb & Vb). rewrite V0, Z.add_0_l in Vb. fold g in Vb. unfold op_div_assign. fold y cent.
  destruct (op_div_assign_rem_spec b y Wb Wy ltac:(rewrite Vy; lia)) as (b1 & r1 & -> & Wb1 & _ & Vb1 & _). cbn [mbind result_bind mret result_ret].
  destruct (op_mul_assign_u32_spec b1 10 Wb1 ltac:(by_decide)) as [Wb2 Vb2]. rewrite Vb1, Vb, Vy, Z.mod_small in Vb2 by lia.
  destruct (op_div_assign_rem_spec _ cent Wb2 Wc ltac:(rewrite Vc; lia)) as (b3 & r3 & -> & Wb3 & _ & Vb3 & _). cbn [mbind result_bind mret result_ret].
  rewrite Vb2, Vc in Vb3. fold q in Vb3.
  eapply decides_iff_as; [apply decides_ret_as|done|]. intros o _ ->. f_equal. unfold TX_DP_AMOUNT, SUBCENT.
  rewrite GetLow64_spec, Vb3, (Z.mod_small q) by (done || lia).
  rewrite uwrap_small by (unfold is_u; lia). rewrite swrap_small by (unfold is_s; lia). done.
Qed.

Lemma have_inputs_dec : IsCoinBase be tx = false ->
  dec (with_cache (fun c => HaveInputs be mem c tx)) True
    (fun r => r = true <-> exists xs, mapM (abs_coin (a_utxo a)) (vin tx) = Some xs).
Proof.
  intros Hcb. apply decides_with_cache. intros c Hc. unfold HaveInputs. rewrite Hcb.
  destruct (HaveInputs_loop_spec be mem (vin tx) c a Hc) as (c' & -> & Hc').
  { eapply Forall_impl; [apply (tx_wf_prevouts tx Htx)|]. intros i Hi. apply Hi. }
  split; [done|]. cbn. assert (forall i, is_Some (abs_output (a_utxo a) i) <-> is_Some (abs_coin (a_utxo a) i)) as Hi.
  { intros i. unfold abs_output, abs_coin. destruct (a_utxo a _); cbn; [|split; by intros [? ?]].
    destruct (_ !! _); cbn; [|split; by intros [? ?]]. destruct (CTxOut.IsNull _); split; first [by intros [? ?] | intros _; by eexists]. }
  rewrite List.forallb_forall. setoid_rewrite bool_decide_eq_true. setoid_rewrite <- list_elem_of_In. setoid_rewrite Hi.
  rewrite <- Forall_forall. split.
  - intros Hall. apply mapM_is_Some in Hall as [xs Hxs]. by exists xs.
  - intros [xs Hxs]. apply mapM_is_Some. by exists xs.
Qed.

Lemma min_fee_range : 0 <= CTransaction_GetMinFee be tx <= MAX_MONEY.
Proof.
  unfold CTransaction_GetMinFee, GetMinFee. pose proof max_money. destruct (MoneyRange _) eqn:E; cbn [negb]; [by apply MoneyRange_iff|lia].
Qed.

Lemma CheckTxInputs_dec fTxIndex h out : IsCoinBase be tx = false -> 0 <= Params.nStakeMinAge params ->
  (forall i xo, i ∈ vin tx -> abs_coin (a_utxo a) i = Some xo -> coins_wf xo) ->
  (IsCoinStake be tx = true -> fTxIndex = true /\ index_agrees be Hash read_tx (a_utxo a) tx) ->
  GetValueOut tx = Some out -> 0 <= out <= MAX_MONEY ->
  decides I refused (CheckTxInputs be Hash mem params fTxIndex read_tx tx h) (input_rules be params (a_utxo a) tx h out).
Proof.
  intros Hcb Hm Hwf Hst Hout Ho. pose proof max_money as Hmm. pose proof min_fee_range as Hfee.
  unfold CheckTxInputs, input_rules. eapply decides_then; [by apply have_inputs_dec|intros have Hhave].
  eapply decides_iff; [eapply decides_bind_as; [apply (dec_refuse_if _ _ _ _ _ (have = true)); by rewrite negb_false_iff|]|].
  2:{ split; [intros [_ H]; exact H|]. intros H. split; [|exact H]. apply Hhave. destruct H as (xs & E & _). by exists xs. }
  intros Eh [] _. apply Hhave in Eh as [xs Exs].
  assert (Forall coins_wf xs) as Hw.
  { apply mapM_Some in Exs. apply Forall_forall. intros xo Hxo. apply list_elem_of_lookup_1 in Hxo as [k Hk].
    destruct (Forall2_lookup_r _ _ _ k xo Exs Hk) as (i & Hi & Ei). apply (Hwf i xo); [by eapply list_elem_of_lookup_2|done]. }
  eapply decides_iff; [eapply (decides_bind_as _ _ _ _ _ _ (if IsCoinStake be tx
      then out - total xs <= stake_reward params tx xs - CTransaction_GetMinFee be tx + MIN_TX_FEE
      else out + CTransaction_GetMinFee be tx <= total xs)); [apply (check_inputs_dec h (vin tx) xs 0 Exs); [|lia]|]|].
  { eapply Forall_impl; [exact Hw|]. intros xo Hxo. apply Hxo. }
  - intros (Hsp & Hv & Hmax) v ->. rewrite Z.add_0_l in *. pose proof (total_nonneg xs Hv) as Hn. set (fee := CTransaction_GetMinFee be tx) in *.
    destruct (IsCoinStake be tx) eqn:Ecs.
    + destruct (Hst eq_refl) as [-> Hidx].
      destruct (reward_dec xs Hcb Hidx Hm Exs Hw) as [Hr Hrb]; [|done|done|].
      { eapply Forall_impl; [exact Hsp|]. intros xo Hxo. apply Hxo. }
      eapply decides_then; [exact Hr|intros r ->]. eapply decides_then; [by apply decides_get_valid|intros r ->].
      eapply decides_then; [by apply decides_get_valid|intros r ->].
      apply (dec_refuse_if _ _ _ _ _ (out - total xs <= stake_reward params tx xs - fee + MIN_TX_FEE)).
      change MIN_TX_FEE with 10000. rewrite !swrap_small by (rewrite ?swrap_small by (unfold is_s; lia); unfold is_s; lia).
      by rewrite Z.gtb_ltb, Z.ltb_ge.
    + eapply decides_then; [by apply decides_get_valid|intros r ->]. rewrite !Z.add_0_l.
      eapply decides_iff; [eapply decides_bind; [apply (dec_refuse_if _ _ _ _ _ (out <= total xs)); by rewrite Z.ltb_ge|intros Hle []];
        rewrite !swrap_small by (rewrite ?swrap_small by (unfold is_s; lia); unfold is_s; lia);
        eapply decides_bind; [apply (dec_refuse_if _ _ _ _ _ True)|intros _ []; eapply decides_bind; [apply (dec_refuse_if _ _ _ _ _ True)|intros _ [];
          apply (dec_refuse_if _ _ _ _ _ (out + fee <= total xs))]]|].
      * rewrite Z.ltb_ge. split; [done|lia].
      * rewrite negb_false_iff, MoneyRange_iff. split; [done|lia].
      * rewrite Z.ltb_ge. lia.
      * split; [tauto|]. intros H. split_and!; (done || lia).
  - rewrite !Z.add_0_l. split; [intros ((? & ? & ?) & ?); by exists xs|].
    intros (xs' & E & ? & ? & ? & ?). rewrite Exs in E. by injection E as <-.
Qed.
End CheckTxInputs.

Lemma GetValueOut_from_range outs n v : 0 <= n <= MAX_MONEY -> GetValueOut_from n outs = Some v -> 0 <= v <= MAX_MONEY.
Proof.
  revert n. induction outs as [|o outs IH]; intros n Hn; cbn [GetValueOut_from]; [by intros [= <-]|].
  destruct (_ || _) eqn:E; [done|]. apply orb_false_iff in E as [_ E]. apply negb_false_iff, MoneyRange_iff in E. by apply IH.
Qed.

(** C18: no coins out of nothing.  On any cache that represents the coin set, for a
    transaction whose outputs are amounts, [CheckTxInputs] accepts exactly when every input
    refers to an unspent output that is mature and not younger than the transaction, the
    inputs are worth an amount, and the transaction pays its outputs and the minimal fee
    from them (a coinstake may exceed its inputs by ten per cent a year for the coins of
    sufficient age, in whole units, and by what the minimal fee is above the base fee, not
    by more).  No arithmetic overflows, no assertion fails, and the coin set is unchanged. *)
Theorem CheckTxInputs_correct (be : bool) (Hash : list Z -> list Z) (DynamicMemoryUsage : CCoins.t -> Z) (V : Type)
    (cv : CoinsView V) (laws : CoinsViewLaws V) (params : Params.t) (fTxIndex : bool) (read_tx : list Z -> tx_lookup)
    (a : abs_state) (tx : CTransaction) (nSpendHeight nValueOut : Z) (st : CValidationState.t) (c : CCoinsViewCache V) :
  refines be c a -> tx_wf tx -> IsCoinBase be tx = false -> GetValueOut tx = Some nValueOut ->
  0 <= Params.nStakeMinAge params ->
  (forall i xo, i ∈ vin tx -> abs_coin (a_utxo a) i = Some xo -> coins_wf xo) ->
  (IsCoinStake be tx = true -> fTxIndex = true /\ index_agrees be Hash read_tx (a_utxo a) tx) ->
  exists r st' c', CheckTxInputs be Hash DynamicMemoryUsage params fTxIndex read_tx tx nSpendHeight (st, c) = (r, (st', c')) /\
    refines be c' a /\
    ((r = Ok tt /\ st' = st /\ input_rules be params (a_utxo a) tx nSpendHeight nValueOut) \/
     (r = Err rejected /\ refused st st' /\ ~ input_rules be params (a_utxo a) tx nSpendHeight nValueOut)).
Proof.
  intros Hc Htx Hcb Ho Hm Hw Hst. pose proof (GetValueOut_from_range (vout tx) 0 nValueOut ltac:(by_decide) Ho) as Hr.
  destruct (CheckTxInputs_dec be Hash DynamicMemoryUsage params read_tx a tx Htx fTxIndex nSpendHeight nValueOut
    Hcb Hm Hw Hst Ho Hr st c Hc) as (r & st' & c' & E & Hc' & Hd).
  exists r, st', c'. split; [exact E|]. split; [exact Hc'|]. destruct r as [[]|[]]; tauto.
Qed.

Definition stake_coins : CCoins.t := CCoins.mk true [CTxOut.mk 50000 [0x51]] 100 1 false 1400000000.
Definition stake_db : CCoinsViewDB := {| db_coins := {[ replicate 32 1 := stake_coins ]}; db_best := Some (replicate 32 9) |}.
Definition spending_tx : CTransaction :=
  {| nVersion := 1; nTime := 1500000000; vin := [CTxIn.mk (COutPoint.mk (replicate 32 1) 0) [] 0 []];
     vout := [CTxOut.mk 20000 [0x51]]; nLockTime := 0 |}.

Lemma CheckTxInputs_correct_witness : exists c',
  CheckTxInputs (cv := CCoinsViewDB_view false) false (fun x => x) sample_mem (main_params []) false (fun _ => not_indexed)
    spending_tx 180 (CValidationState.new, new_cache stake_db) = (Ok tt, (CValidationState.new, c')).
Proof.
  destruct (CheckTxInputs_correct false (fun x => x) sample_mem _ _ (db_lawful false) (main_params []) false (fun _ => not_indexed)
    _ spending_tx 180 20000 CValidationState.new (new_cache stake_db)
    (new_cache_refines (H := db_lawful false) false stake_db Logic.I)) as (r & st' & c' & E & _ & [(-> & -> & _)|(-> & _)]);
    [split; by_decide|reflexivity|reflexivity|by_decide| |discriminate|exists c'; exact E|].
  - intros i xo Hi Exo. apply list_elem_of_singleton in Hi as ->. vm_compute in Exo. injection Exo as <-. split; by_decide.
  - assert ((CheckTxInputs (cv := CCoinsViewDB_view false) false (fun x => x) sample_mem (main_params []) false (fun _ => not_indexed)
      spending_tx 180 (CValidationState.new, new_cache stake_db)).1 = Ok tt) as E' by (vm_compute; reflexivity).
    rewrite E in E'. discriminate.
Defined.
