(* ===== verification/BlockCheck.v ===== *)
(** * BlockCheck: the rules for blocks

    Models the checks of [src/src/validation.cpp] on a block: [CheckBlockHeader],
    [CheckBlock], the commitment to witnesses ([GetWitnessCommitmentIndex],
    [UpdateUncommittedBlockStructures], [GenerateCoinbaseCommitment]),
    [ContextualCheckBlockHeader], [ContextualCheckBlock], the block signature and
    [CheckMinTxOut], and [CheckCoinStakeTimestamp] of [src/src/kernel.cpp].

    The checks are in the monad of TxCheck, without a coin cache.  The double SHA-256, the
    ECDSA verification ([CPubKey::Verify]), [mtp::verify] and the big-number library are
    parameters; the adjusted time is an argument. *)
From Stdlib Require Import String.
From S2P Require Import Prelude ConsensusParams Endian Uint256 Serialize Amount Transaction Chain Script Standard.
From S2P Require Import Interpreter VerifyScript LockTime Merkle Block Pow TxCheck.
Import CValidationState Header.

(** ** Checks without context *)

(** A call whose rejection is reported once more. *)
Definition on_reject {C A} (m : check C A) (f : CValidationState.t -> CValidationState.t) : check C A := fun s =>
  match m s with
  | (Err rejected, (st, c)) => (Err rejected, (f st, c))
  | r => r
  end.

Definition CheckCoinStakeTimestamp (nTimeBlock nTimeTx : Z) : bool :=
  if IsProtocolV03 nTimeTx then nTimeBlock =? nTimeTx
  else (nTimeTx <=? nTimeBlock) && (nTimeBlock <=? i64 (nTimeTx + nMaxClockDrift)).

Section block.
Context (be : bool) (Hash : list Z -> list Z) (verify : Z -> CBlockHeader -> list Z -> bool * list Z) (params : Params.t).
#[local] Abbreviation chk := (check unit).

Definition set_checked (b : CBlock) : CBlock := mk_block (header b) (vtx b) (vchBlockSig b) true.

Definition CheckBlockHeader (block : CBlockHeader) (fCheckPOW : bool) : chk unit :=
  if fCheckPOW then
    ok ← get_valid (CheckBlockProofOfWork be Hash params block) undefined;
    reject_if (negb ok) 50 REJECT_INVALID "high-hash" false
  else mret tt.

(** The loop over the transactions. *)
Fixpoint check_transactions (nTimeBlock : Z) (txs : list CTransaction) : chk unit :=
  match txs with
  | [] => mret tt
  | tx :: txs' =>
      _ ← on_reject (CheckTransaction be tx true) (fun st => Invalid (chRejectCode st) (strRejectReason st) st);
      _ ← reject_if (nTimeBlock <? Transaction.nTime tx) 50 REJECT_INVALID "bad-tx-time" false;
      check_transactions nTimeBlock txs'
  end.

Definition block_base_size (b : CBlock) : Z :=
  GetSerializeSize (block_codec be SER_NETWORK (Z.lor PROTOCOL_VERSION SERIALIZE_TRANSACTION_NO_WITNESS) 0) b.

Definition block_sigops (b : CBlock) : option Z :=
  foldl (fun n tx => n ← n; k ← GetLegacySigOpCount be tx; Some (u32 (n + k))) (Some 0) (vtx b).

(** The block with the flag that remembers the result. *)
Definition CheckBlock (block : CBlock) (fCheckPOW fCheckMerkleRoot : bool) : chk CBlock :=
  if fChecked block then mret block
  else
    _ ← CheckBlockHeader (header block) (fCheckPOW && negb (IsProofOfStake be block));
    _ ← (if fCheckMerkleRoot then
           '(hashMerkleRoot2, mutated) ← get_valid (BlockMerkleRoot be Hash block) undefined;
           _ ← reject_if (negb (op_eq (hashMerkleRoot (header block)) hashMerkleRoot2)) 100 REJECT_INVALID "bad-txnmrklroot" true;
           _ ← reject_if mutated 100 REJECT_INVALID "bad-txns-duplicate" true;
           reject_if (IsProofOfWork be block && negb (CheckMerkleTreeProof params verify (header block)))
             100 REJECT_INVALID "bad-diffbits" false
         else mret tt);
    let n := Z.of_nat (length (vtx block)) in
    _ ← reject_if ((n =? 0) || (n >? MAX_BLOCK_BASE_SIZE) || (block_base_size block >? MAX_BLOCK_BASE_SIZE))
          100 REJECT_INVALID "bad-blk-length" false;
    _ ← reject_if (match vtx block with [] => true | cb :: _ => negb (IsCoinBase be cb) end)
          100 REJECT_INVALID "bad-cb-missing" false;
    _ ← reject_if (existsb (IsCoinStake be) (drop 2 (vtx block))) 100 REJECT_INVALID "bad-cs-missing" false;
    cb ← get_valid (vtx block !! 0%nat) undefined;
    let nTimeBlock := Header.GetBlockTime (header block) in
    _ ← reject_if (nTimeBlock >? i64 (Transaction.nTime cb + nMaxClockDrift)) 50 REJECT_INVALID "bad-cb-time" false;
    _ ← (if IsProofOfStake be block then
           cs ← get_valid (vtx block !! 1%nat) undefined;
           reject_if (negb (CheckCoinStakeTimestamp nTimeBlock (Transaction.nTime cs))) 50 REJECT_INVALID "bad-cs-time" false
         else mret tt);
    _ ← check_transactions nTimeBlock (vtx block);
    nSigOps ← get_valid (block_sigops block) script_exception;
    _ ← reject_if (u32 (nSigOps * WITNESS_SCALE_FACTOR) >? MAX_BLOCK_SIGOPS_COST) 100 REJECT_INVALID "bad-blk-sigops" false;
    mret (if fCheckPOW && fCheckMerkleRoot then set_checked block else block).
End block.

(** ** Commitments to witnesses *)

Definition witness_magic : list Z := [OP_RETURN; 0x24; 0xaa; 0x21; 0xa9; 0xed].

Definition is_commitment (o : CTxOut.t) : bool :=
  (Z.of_nat (length (CTxOut.scriptPubKey o)) >=? 38)
  && forallb (fun i => CTxOut.scriptPubKey o !!! i =? witness_magic !!! i) (seq 0 6).

(** The last output that is one, from index [o] on. *)
Fixpoint commitment_index (o : nat) (outs : list CTxOut.t) (commitpos : Z) : Z :=
  match outs with
  | [] => commitpos
  | out :: outs' => commitment_index (S o) outs' (if is_commitment out then i32 (Z.of_nat o) else commitpos)
  end.

Definition GetWitnessCommitmentIndex (block : CBlock) : Z :=
  match vtx block with
  | [] => -1
  | cb :: _ => commitment_index 0 (vout cb) (-1)
  end.

Definition set_coinbase (tx : CTransaction) (b : CBlock) : CBlock :=
  mk_block (header b) (<[0%nat := tx]> (vtx b)) (vchBlockSig b) (fChecked b).

Definition with_vin (ins : list CTxIn.t) (tx : CTransaction) : CTransaction :=
  Build_CTransaction (Transaction.nVersion tx) (Transaction.nTime tx) ins (vout tx) (nLockTime tx).
Definition with_vout (outs : list CTxOut.t) (tx : CTransaction) : CTransaction :=
  Build_CTransaction (Transaction.nVersion tx) (Transaction.nTime tx) (vin tx) outs (nLockTime tx).

Definition witness_nonce : list Z := replicate 32 0.

(** [None] is the access to the first input of a coinbase that has none. *)
Definition UpdateUncommittedBlockStructures (block : CBlock) : option CBlock :=
  match vtx block with
  | [] => Some block
  | cb :: _ =>
      if negb (GetWitnessCommitmentIndex block =? -1) && negb (HasWitness cb) then
        match vin cb with
        | [] => None
        | i :: ins => Some (set_coinbase (with_vin (CTxIn.mk (CTxIn.prevout i) (CTxIn.scriptSig i) (CTxIn.nSequence i) [witness_nonce] :: ins) cb) block)
        end
      else Some block
  end.

Section commitment.
Context (be : bool) (Hash : list Z -> list Z).

(** The block and the script of the new output (empty if there was one); [None] is an
    access to a transaction or an input that is not there. *)
Definition GenerateCoinbaseCommitment (block : CBlock) : option (CBlock * list Z) :=
  '(block, commitment) ←
    (if GetWitnessCommitmentIndex block =? -1 then
       '(witnessroot, _) ← BlockWitnessMerkleRoot be Hash block;
       let witnessroot := Hash (witnessroot ++ witness_nonce) in
       let commitment := witness_magic ++ witnessroot in
       cb ← vtx block !! 0%nat;
       Some (set_coinbase (with_vout (vout cb ++ [CTxOut.mk 0 commitment]) cb) block, commitment)
     else Some (block, []));
  block ← UpdateUncommittedBlockStructures block;
  Some (block, commitment).
End commitment.

(** ** Checks in the context of the chain *)

Definition heap_call {C A} (r : result Chain.fault A) : check C A :=
  match r with Ok a => mret a | Err _ => stop_with undefined end.

(** The text of a version, with [0x%08x]. *)
Definition hex_digits (n : Z) : string :=
  string_of_list_ascii (map (fun i => Ascii.ascii_of_nat (let d := Z.to_nat (Z.land (Z.shiftr n (4 * i)) 15) in
    if (d <? 10)%nat then 48 + d else 87 + d)%nat) [7; 6; 5; 4; 3; 2; 1; 0]).
Definition bad_version (nVersion : Z) : string := "bad-version(0x" ++ hex_digits (u32 nVersion) ++ ")".

Section context.
Context {B : Type} {lib : BigNumLib B} (be : bool) (Hash : list Z -> list Z) (Hash160 : list Z -> list Z)
  (Verify : list Z -> list Z -> list Z -> bool) (h : heap) (params : Params.t).
#[local] Abbreviation chk := (check unit).

Definition IsV7Enabled (pindexPrev : option N) : chk bool :=
  match pindexPrev with
  | Some p => b ← heap_call (deref h p); mret (CBlockIndex.nHeight b + 1 >=? Params.V7Height params)
  | None => mret false
  end.

Definition height_after (pindexPrev : option N) : chk Z :=
  match pindexPrev with
  | None => mret 0
  | Some p => b ← heap_call (deref h p); mret (CBlockIndex.nHeight b + 1)
  end.

Definition ContextualCheckBlockHeader (block : CBlockHeader) (fProofOfStake : bool) (pindexPrev : option N)
    (nAdjustedTime : Z) : chk unit :=
  nHeight ← height_after pindexPrev;
  check_ ← heap_call (GetNextTargetRequired (lib := lib) be h params pindexPrev fProofOfStake);
  _ ← (if nHeight >? 10000 then
         reject_if (negb (nBits block =? check_)) 100 REJECT_INVALID "bad-diffbits" false
       else
         let max_error := check_ / 100000 in
         reject_if (negb ((nBits block >=? u32 (check_ - max_error)) && (nBits block <=? u32 (check_ + max_error))))
           100 REJECT_INVALID "bad-diffbits" false);
  p ← get_valid pindexPrev undefined;
  prev ← heap_call (deref h p);
  nMedian ← heap_call (GetMedianTimePast h p);
  let nTimeBlock := Header.GetBlockTime block in
  _ ← reject_if ((nTimeBlock <=? nMedian) || (nTimeBlock + nMaxClockDrift <? CBlockIndex.GetBlockTime prev))
        0 REJECT_INVALID "time-too-old" false;
  _ ← reject_if (nTimeBlock >? i64 (nAdjustedTime + nMaxClockDrift)) 0 REJECT_INVALID "time-too-new" false;
  let v := Header.GetBlockVersion block in
  _ ← reject_if (((v <? 2) && (nHeight >=? Params.BIP34Height params)) || ((v <? 3) && (nHeight >=? Params.BIP66Height params))
                 || ((v <? 4) && (nHeight >=? Params.BIP65Height params)) || ((v <? 5) && (nHeight >=? Params.MMHeight params))
                 || ((v <? 7) && (nHeight >=? Params.V7Height params)))
        100 REJECT_OBSOLETE (bad_version (Header.nVersion block)) false;
  reject_if (bool_decide (is_Some (auxpow block)) && (nHeight <? Params.MMHeight params)) 100 REJECT_INVALID "premature auxpow block" false.

(** The first output of the coinbase that pays to a key. *)
Fixpoint first_pubkey (outs : list CTxOut.t) : chk (option (list (list Z))) :=
  match outs with
  | [] => mret None
  | o :: outs' =>
      '(ok, whichType, vSolutions) ← script_call (Solver be (CTxOut.scriptPubKey o) TX_NONSTANDARD);
      if ok && bool_decide (whichType = TX_PUBKEY) then mret (Some vSolutions) else first_pubkey outs'
  end.

Definition SelectPubkeyForBlockSigning (block : CBlock) (fV7Enabled : bool) : chk (option (list (list Z))) :=
  if fV7Enabled && negb (IsProofOfStake be block) then
    cb ← get_valid (vtx block !! 0%nat) undefined;
    first_pubkey (vout cb)
  else
    o ← get_valid (if IsProofOfStake be block then cs ← vtx block !! 1%nat; vout cs !! 1%nat
                   else cb ← vtx block !! 0%nat; vout cb !! 0%nat) undefined;
    '(ok, whichType, vSolutions) ← script_call (Solver be (CTxOut.scriptPubKey o) TX_NONSTANDARD);
    mret (if ok && bool_decide (whichType = TX_PUBKEY) then Some vSolutions else None).

Definition CheckBlockSignature (block : CBlock) (fV7Enabled : bool) : chk bool :=
  let hash := block_hash be Hash (header block) in
  if op_eq hash (Params.hashGenesisBlock params) then mret (length (vchBlockSig block) =? 0)%nat
  else
    vSolutions ← SelectPubkeyForBlockSigning block fV7Enabled;
    match vSolutions with
    | None => mret false
    | Some vSolutions =>
        vchPubKey ← get_valid (vSolutions !! 0%nat) undefined;
        let key := CPubKey.Set_ vchPubKey in
        mret (if (length (vchBlockSig block) =? 0)%nat then false
              else if negb (CPubKey.IsValid key) then false
              else Verify (CPubKey.bytes key) hash (vchBlockSig block))
    end.

Definition too_low (o : CTxOut.t) : bool := negb (CTxOut.IsEmpty o) && (CTxOut.nValue o <? MIN_TXOUT_AMOUNT).

(** The outputs of the coinbase, from index [j] on. *)
Fixpoint coinbase_too_low (commitpos : Z) (j : nat) (outs : list CTxOut.t) : bool :=
  match outs with
  | [] => false
  | o :: outs' =>
      let fWC := (commitpos >=? 0) && (u32 commitpos =? Z.of_nat j) in
      (negb fWC && too_low o) || coinbase_too_low commitpos (S j) outs'
  end.

Definition CheckMinTxOut (block : CBlock) (fV7Enabled : bool) : chk bool :=
  start ← (if fV7Enabled then
             let commitpos := if Header.nVersion (header block) >=? 7 then GetWitnessCommitmentIndex block else -1 in
             tx0 ← get_valid (vtx block !! 0%nat) undefined;
             mret (if coinbase_too_low commitpos 0 (vout tx0) then None else Some 1%nat)
           else mret (Some 0%nat));
  mret (match start with
        | None => false
        | Some start => forallb (fun tx => forallb (fun o => negb (too_low o)) (vout tx)) (drop start (vtx block))
        end).

(** The commitment to the witnesses: whether there is one, if it is right. *)
Definition check_commitment (block : CBlock) : chk bool :=
  let commitpos := GetWitnessCommitmentIndex block in
  if commitpos =? -1 then mret false
  else
    '(hashWitness, _) ← get_valid (BlockWitnessMerkleRoot be Hash block) undefined;
    cb ← get_valid (vtx block !! 0%nat) undefined;
    i ← get_valid (vin cb !! 0%nat) undefined;
    match CTxIn.scriptWitness i with
    | [nonce] =>
        if (length nonce =? 32)%nat then
          o ← get_valid (vout cb !! Z.to_nat commitpos) undefined;
          _ ← reject_if (negb (bool_decide (Hash (hashWitness ++ nonce) = take 32 (drop 6 (CTxOut.scriptPubKey o)))))
                100 REJECT_INVALID "bad-witness-merkle-match" true;
          mret true
        else reject 100 REJECT_INVALID "bad-witness-nonce-size" true
    | _ => reject 100 REJECT_INVALID "bad-witness-nonce-size" true
    end.

(** The rules on the header and the transactions, up to the weight: the height and whether
    the rules of version 7 apply. *)
Definition check_contents (block : CBlock) (pindexPrev : option N) : chk (Z * bool) :=
  nHeight ← height_after pindexPrev;
  fV7Enabled ← IsV7Enabled pindexPrev;
  let nTimeBlock := Header.GetBlockTime (header block) in
  _ ← (if negb (isForkBlock nHeight) then
         _ ← reject_if (existsb (IsCoinBase be) (drop 1 (vtx block))) 100 REJECT_INVALID "bad-cb-multiple" false;
         cb ← get_valid (vtx block !! 0%nat) undefined;
         let powLimit := if IsProofOfWork be block
                         then i64 (i64 (GetProofOfWorkReward (nBits (header block)) fV7Enabled nHeight - CTransaction_GetMinFee be cb) + MIN_TX_FEE)
                         else 0 in
         nValueOut ← get_valid (GetValueOut cb) out_of_range;
         reject_if (nValueOut >? powLimit) 100 REJECT_INVALID "bad-cb-amount" false
       else mret tt);
  let nLockTimeFlags := if fV7Enabled : bool then Z.lor 0 LOCKTIME_MEDIAN_TIME_PAST else 0 in
  nLockTimeCutoff ← (if flag_set nLockTimeFlags LOCKTIME_MEDIAN_TIME_PAST
                     then p ← get_valid pindexPrev undefined; heap_call (GetMedianTimePast h p)
                     else mret nTimeBlock);
  _ ← reject_if (negb (forallb (fun tx => IsFinalTx tx nHeight nLockTimeCutoff) (vtx block))) 10 REJECT_INVALID "bad-txns-nonfinal" false;
  _ ← reject_if (negb (isForkBlock nHeight)
                 && existsb (fun tx => nTimeBlock >? i64 (Transaction.nTime tx + MAX_TX_AGE)) (vtx block))
        50 REJECT_INVALID "bad-tx-time" false;
  _ ← (if nHeight >=? Params.BIP34Height params then
         let expect := CScript.push_int64 be [] nHeight in
         cb ← get_valid (vtx block !! 0%nat) undefined;
         i ← get_valid (vin cb !! 0%nat) undefined;
         reject_if ((length (CTxIn.scriptSig i) <? length expect)%nat
                    || negb (bool_decide (take (length expect) (CTxIn.scriptSig i) = expect)))
           100 REJECT_INVALID "bad-cb-height" false
       else mret tt);
  fHaveWitness ← ((if fV7Enabled then check_commitment block else mret false) : chk bool);
  _ ← (if IsProofOfStake be block then
         cb ← get_valid (vtx block !! 0%nat) undefined;
         reject_if (negb (length (vout cb) =? (if fHaveWitness : bool then 2 else 1))%nat
                    || match vout cb with [] => false | o :: _ => negb (CTxOut.IsEmpty o) end)
           100 REJECT_INVALID "pos-cb-not-empty" false
       else mret tt);
  _ ← reject_if (negb fHaveWitness && existsb HasWitness (vtx block)) 100 REJECT_INVALID "unexpected-witness" true;
  mret (nHeight, fV7Enabled).

Definition ContextualCheckBlock (block : CBlock) (pindexPrev : option N) (fCheckSign : bool) : chk unit :=
  '(nHeight, fV7Enabled) ← check_contents block pindexPrev;
  _ ← reject_if (GetBlockWeight be block >? MAX_BLOCK_WEIGHT) 100 REJECT_INVALID "bad-blk-weight" false;
  _ ← (if fCheckSign then
         ok ← CheckBlockSignature block fV7Enabled;
         reject_if (negb ok) 100 REJECT_INVALID "bad-blk-sign" false
       else mret tt);
  if negb (isForkBlock nHeight) then
    ok ← CheckMinTxOut block fV7Enabled;
    reject_if (negb ok) 100 REJECT_INVALID "txout-too-low" false
  else mret tt.
End context.

(** ** Counting signature operations *)

Section sigops.
Context (be : bool).

Lemma sigop_loop_bounds fuel s pc o n : 0 <= n -> n + 20 * Z.of_nat fuel < 2 ^ 32 ->
  exists m, CScript.GetSigOpCount_loop be fuel s false pc o n = Some m /\ n <= m <= n + 20 * Z.of_nat fuel.
Proof.
  revert pc o n. induction fuel as [|fuel IH]; intros pc o n Hn Hf; cbn [CScript.GetSigOpCount_loop]; [exists n; split; [done|lia]|].
  destruct (pc <? length s)%nat; [|exists n; split; [done|lia]].
  destruct (CScript.GetOp2 be s pc) as [[[ok op] v] pc']. destruct ok; cbn [negb]; [|exists n; split; [done|lia]].
  assert (forall k, 0 <= k <= 20 -> exists m, CScript.GetSigOpCount_loop be fuel s false pc' op (n + k) = Some m /\ n <= m <= n + 20 * Z.of_nat (S fuel)) as Hk.
  { intros k Hk. destruct (IH pc' op (n + k)) as (m & E & Hm); [lia|lia|]. exists m. split; [done|]. lia. }
  destruct (_ || _); cbn [mbind option_bind].
  { rewrite uwrap_small by (unfold is_u; lia). apply Hk. lia. }
  destruct (_ || _); cbn [mbind option_bind andb].
  { rewrite uwrap_small by (unfold is_u, MAX_PUBKEYS_PER_MULTISIG; lia). apply Hk. unfold MAX_PUBKEYS_PER_MULTISIG. lia. }
  specialize (Hk 0 ltac:(lia)). by rewrite Z.add_0_r in Hk.
Qed.

(** The signature operations of a script, of a list of scripts. *)
Definition script_sigops (s : list Z) : Z := default 0 (CScript.GetSigOpCount be s false).
Definition sum_with {A} (f : A -> Z) (l : list A) : Z := foldr (fun a n => f a + n) 0 l.
Definition tx_scripts (tx : CTransaction) : list (list Z) := map CTxIn.scriptSig (vin tx) ++ map CTxOut.scriptPubKey (vout tx).
Definition legacy_sigops (tx : CTransaction) : Z := sum_with script_sigops (tx_scripts tx).
Definition script_bytes (tx : CTransaction) : Z := sum_with (fun s => Z.of_nat (length s)) (tx_scripts tx).

Lemma sum_with_app {A} (f : A -> Z) l l' : sum_with f (l ++ l') = sum_with f l + sum_with f l'.
Proof. unfold sum_with. induction l as [|a l IH]; cbn [app foldr]; [lia|]. rewrite IH. lia. Qed.

Lemma sum_with_nonneg {A} (f : A -> Z) l : (forall a, 0 <= f a) -> 0 <= sum_with f l.
Proof. intros Hf. induction l as [|a l IH]; cbn; [lia|]. specialize (Hf a). unfold sum_with in IH. lia. Qed.

Lemma sum_length_nonneg (l : list (list Z)) : 0 <= sum_with (fun s => Z.of_nat (length s)) l.
Proof. apply sum_with_nonneg. intros. lia. Qed.

Lemma script_sigops_bounds s : 20 * Z.of_nat (length s) < 2 ^ 32 ->
  CScript.GetSigOpCount be s false = Some (script_sigops s) /\ 0 <= script_sigops s <= 20 * Z.of_nat (length s).
Proof.
  intros Hs. unfold script_sigops, CScript.GetSigOpCount.
  destruct (sigop_loop_bounds (length s) s 0 OP_INVALIDOPCODE 0 ltac:(lia) ltac:(lia)) as (m & -> & Hm). split; [done|]. cbn. lia.
Qed.

Lemma sum_sigops_bounds l : 20 * sum_with (fun s => Z.of_nat (length s)) l < 2 ^ 32 ->
  0 <= sum_with script_sigops l <= 20 * sum_with (fun s => Z.of_nat (length s)) l.
Proof.
  unfold sum_with. induction l as [|s l IH]; cbn [foldr]; intros Hl; [lia|].
  pose proof (sum_length_nonneg l) as Hn. unfold sum_with in Hn.
  destruct (script_sigops_bounds s ltac:(lia)) as [_ Hs]. specialize (IH ltac:(lia)). lia.
Qed.

(** A running count over scripts is their sum. *)
Lemma count_scripts l n : 0 <= n -> n + 20 * sum_with (fun s => Z.of_nat (length s)) l < 2 ^ 32 ->
  foldl (fun n s => n ≫= fun n => k ← CScript.GetSigOpCount be s false; Some (u32 (n + k))) (Some n) l = Some (n + sum_with script_sigops l).
Proof.
  revert n. unfold sum_with. induction l as [|s l IH]; intros n Hn Hl; cbn [foldl foldr mbind option_bind] in *; [by rewrite Z.add_0_r|].
  pose proof (sum_length_nonneg l) as Hl0. unfold sum_with in Hl0.
  destruct (script_sigops_bounds s ltac:(lia)) as [-> Hs]. cbn [mbind option_bind].
  rewrite uwrap_small by (unfold is_u; lia). rewrite IH by lia. f_equal. lia.
Qed.

Lemma GetLegacySigOpCount_sum tx : 20 * script_bytes tx < 2 ^ 32 -> GetLegacySigOpCount be tx = Some (legacy_sigops tx).
Proof.
  intros Hb. unfold GetLegacySigOpCount. unfold script_bytes, tx_scripts in Hb. rewrite sum_with_app in Hb.
  pose proof (sum_length_nonneg (map CTxIn.scriptSig (vin tx))) as H1.
  pose proof (sum_length_nonneg (map CTxOut.scriptPubKey (vout tx))) as H2.
  pose proof (count_scripts (map CTxIn.scriptSig (vin tx)) 0 ltac:(lia) ltac:(lia)) as E1. rewrite foldl_map in E1. rewrite E1.
  pose proof (sum_sigops_bounds (map CTxIn.scriptSig (vin tx)) ltac:(lia)) as H3. cbn [mbind option_bind].
  pose proof (count_scripts (map CTxOut.scriptPubKey (vout tx)) (0 + sum_with script_sigops (map CTxIn.scriptSig (vin tx))) ltac:(lia) ltac:(lia)) as E2.
  rewrite foldl_map in E2. etransitivity; [exact E2|]. unfold legacy_sigops, tx_scripts. by rewrite sum_with_app.
Qed.

Lemma block_sigops_sum b : 20 * sum_with script_bytes (vtx b) < 2 ^ 32 ->
  block_sigops be b = Some (sum_with legacy_sigops (vtx b)) /\ 0 <= sum_with legacy_sigops (vtx b) <= 20 * sum_with script_bytes (vtx b).
Proof.
  assert (forall txs n, 0 <= n -> n + 20 * sum_with script_bytes txs < 2 ^ 32 ->
    foldl (fun n tx => n ← n; k ← GetLegacySigOpCount be tx; Some (u32 (n + k))) (Some n) txs = Some (n + sum_with legacy_sigops txs) /\
    0 <= sum_with legacy_sigops txs <= 20 * sum_with script_bytes txs) as H.
  { unfold sum_with. induction txs as [|tx txs IH]; intros n Hn Hl; cbn [foldl foldr mbind option_bind] in *; [rewrite Z.add_0_r; split; [done|lia]|].
    assert (forall t, 0 <= script_bytes t) as Hsb by (intros t; apply sum_length_nonneg). pose proof (Hsb tx).
    pose proof (sum_with_nonneg script_bytes txs Hsb) as Hl0. unfold sum_with in Hl0.
    rewrite GetLegacySigOpCount_sum by lia. cbn [mbind option_bind].
    pose proof (sum_sigops_bounds (tx_scripts tx)) as Hs. change (sum_with script_sigops (tx_scripts tx)) with (legacy_sigops tx) in Hs.
    change (sum_with (fun s => Z.of_nat (length s)) (tx_scripts tx)) with (script_bytes tx) in Hs. specialize (Hs ltac:(lia)).
    rewrite uwrap_small by (unfold is_u; lia). destruct (IH (n + legacy_sigops tx) ltac:(lia) ltac:(lia)) as [-> ?]. split; [f_equal; lia|lia]. }
  intros Hb. destruct (H (vtx b) 0 ltac:(lia) ltac:(lia)) as [E Hr]. by split.
Qed.
End sigops.

(** ** CheckBlock *)

(** What the parts of a block are when it has been read from a stream. *)
Record block_read (b : CBlock) : Prop := {
  read_txs : Forall tx_wf (vtx b);
  read_count : Z.of_nat (length (vtx b)) <= 2 ^ 31;
  read_root : hash32 (hashMerkleRoot (header b));
  read_scripts : sum_with script_bytes (vtx b) <= MAX_SIZE;
}.

(** The time of a coinstake agrees with that of its block. *)
Definition stake_time_ok (nTimeBlock nTimeTx : Z) : Prop :=
  if decide (1363800000 <= nTimeTx) then nTimeBlock = nTimeTx else nTimeTx <= nTimeBlock <= nTimeTx + nMaxClockDrift.

Section CheckBlock.
Context (be : bool) (Hash : list Z -> list Z) (HH : forall x, hash32 (Hash x))
  (verify : Z -> CBlockHeader -> list Z -> bool * list Z) (params : Params.t).

(** The transactions are the ones the header commits to, and no others are. *)
Definition committed (b : CBlock) : Prop :=
  hashMerkleRoot (header b) = merkle_root Hash (txids be Hash b) /\ ~ duplicated Hash (txids be Hash b).

Record body_rules (b : CBlock) : Prop := {
  rule_length : vtx b <> [] /\ Z.of_nat (length (vtx b)) <= MAX_BLOCK_BASE_SIZE /\ block_base_size be b <= MAX_BLOCK_BASE_SIZE;
  rule_first : forall cb, vtx b !! 0%nat = Some cb ->
    IsCoinBase be cb = true /\ Header.nTime (header b) <= Transaction.nTime cb + nMaxClockDrift;
  rule_coinstakes : Forall (fun tx => IsCoinStake be tx = false) (drop 2 (vtx b));
  rule_stake_time : IsProofOfStake be b = true -> forall cs, vtx b !! 1%nat = Some cs ->
    stake_time_ok (Header.nTime (header b)) (Transaction.nTime cs);
  rule_txs : Forall (fun tx => tx_rules be tx true /\ Transaction.nTime tx <= Header.nTime (header b)) (vtx b);
  rule_sigops : sum_with (legacy_sigops be) (vtx b) * WITNESS_SCALE_FACTOR <= MAX_BLOCK_SIGOPS_COST;
}.

Definition work_rule (b : CBlock) (fCheckPOW : bool) : Prop :=
  fCheckPOW = true -> IsProofOfStake be b = false -> CheckBlockProofOfWork be Hash params (header b) = Some true.

Record block_rules (b : CBlock) (fCheckPOW fCheckMerkleRoot : bool) : Prop := {
  rule_work : work_rule b fCheckPOW;
  rule_committed : fCheckMerkleRoot = true -> committed b;
  rule_mtp : fCheckMerkleRoot = true -> IsProofOfStake be b = false -> CheckMerkleTreeProof params verify (header b) = true;
  rule_body : body_rules b;
}.

(** A rejection: the block is marked invalid, and as possibly corrupted exactly when the
    transactions are not those of a header with work. *)
Definition block_refused (b : CBlock) (fCheckPOW fCheckMerkleRoot : bool) (st st' : CValidationState.t) : Prop :=
  (mode st <> MODE_ERROR -> IsInvalid st' = true) /\
  (corruptionPossible st' = true <-> work_rule b fCheckPOW /\ fCheckMerkleRoot = true /\ ~ committed b).

Lemma DoS_marks level code reason corruption st :
  (mode st <> MODE_ERROR -> IsInvalid (DoS level code reason corruption st) = true) /\
  corruptionPossible (DoS level code reason corruption st) = corruption.
Proof. unfold DoS. by destruct (mode st). Qed.

Lemma decides_on_reject {C A} (I : C -> Prop) R R' (m : check C A) f P : decides I R m P ->
  (forall st st', R st st' -> R' st (f st')) -> decides I R' (on_reject m f) P.
Proof.
  intros Hm Hf st c Hc. destruct (Hm st c Hc) as (r & st' & c' & E & Hc' & Hr). unfold on_reject. rewrite E.
  destruct r as [a|e]; [by exists (Ok a), st', c'|]. destruct e; try done. destruct Hr as [Hr Hn].
  exists (Err rejected), (f st'), c'. split_and!; auto.
Qed.

Section body.
Context (b : CBlock) (Hb : block_read b) (R : CValidationState.t -> CValidationState.t -> Prop)
  (HR : forall st st', (mode st <> MODE_ERROR -> IsInvalid st' = true) -> corruptionPossible st' = false -> R st st').
#[local] Abbreviation dec := (decides (fun _ : unit => True) R).

Lemma dec_plain bad level code reason (P : Prop) : (bad = false <-> P) -> dec (reject_if bad level code reason false) P.
Proof. intros E. eapply decides_iff; [|exact E]. apply decides_reject_if. intros _ st. destruct (DoS_marks level code reason false st). by apply HR. Qed.

Lemma check_transactions_dec t txs : Forall tx_wf txs ->
  dec (check_transactions be t txs) (Forall (fun tx => tx_rules be tx true /\ Transaction.nTime tx <= t) txs).
Proof.
  induction 1 as [|tx txs Hwf Htxs IH]; cbn [check_transactions].
  { eapply decides_iff; [apply decides_ret|]. split; [|done]. intros _. constructor. }
  eapply decides_iff; [eapply decides_bind; [eapply decides_on_reject; [by apply CheckTransaction_dec|]|intros _ _;
    eapply decides_bind; [apply (dec_plain _ _ _ _ (Transaction.nTime tx <= t)); apply Z.ltb_ge|intros _ _; exact IH]]|].
  - intros st st' [Hc Hp]. apply HR.
    + intros Hm. destruct (Hp Hm) as [Hi _]. unfold Invalid, DoS, IsInvalid in *. by destruct (mode st').
    + unfold Invalid, DoS. by destruct (mode st').
  - rewrite Forall_cons. tauto.
Qed.

Lemma stake_time_iff t t' : is_u 32 t' -> CheckCoinStakeTimestamp t t' = true <-> stake_time_ok t t'.
Proof.
  intros Ht. unfold CheckCoinStakeTimestamp, stake_time_ok, IsProtocolV03, is_u, nMaxClockDrift in *.
  rewrite swrap_small by (unfold is_s; lia). rewrite Z.geb_leb. case_bool; case_decide; lia.
Qed.

(** The part of [CheckBlock] that looks at the transactions. *)
Lemma body_dec r : decides_as (fun _ : unit => True) R
  (let n := Z.of_nat (length (vtx b)) in
    _ ← reject_if ((n =? 0) || (n >? MAX_BLOCK_BASE_SIZE) || (block_base_size be b >? MAX_BLOCK_BASE_SIZE))
          100 REJECT_INVALID "bad-blk-length" false;
    _ ← reject_if (match vtx b with [] => true | cb :: _ => negb (IsCoinBase be cb) end)
          100 REJECT_INVALID "bad-cb-missing" false;
    _ ← reject_if (existsb (IsCoinStake be) (drop 2 (vtx b))) 100 REJECT_INVALID "bad-cs-missing" false;
    cb ← get_valid (vtx b !! 0%nat) undefined;
    let nTimeBlock := Header.GetBlockTime (header b) in
    _ ← reject_if (nTimeBlock >? i64 (Transaction.nTime cb + nMaxClockDrift)) 50 REJECT_INVALID "bad-cb-time" false;
    _ ← (if IsProofOfStake be b then
           cs ← get_valid (vtx b !! 1%nat) undefined;
           reject_if (negb (CheckCoinStakeTimestamp nTimeBlock (Transaction.nTime cs))) 50 REJECT_INVALID "bad-cs-time" false
         else mret tt);
    _ ← check_transactions be nTimeBlock (vtx b);
    nSigOps ← get_valid (block_sigops be b) script_exception;
    _ ← reject_if (u32 (nSigOps * WITNESS_SCALE_FACTOR) >? MAX_BLOCK_SIGOPS_COST) 100 REJECT_INVALID "bad-blk-sigops" false;
    mret r) (body_rules b) (fun r' : CBlock => r' = r).
Proof.
  destruct Hb as [Hwf _ _ Hs]. cbn zeta.
  destruct (block_sigops_sum be b ltac:(unfold MAX_SIZE in *; lia)) as [Eops Hops]. unfold MAX_SIZE in Hs.
  destruct (vtx b) as [|cb rest] eqn:Ev.
  { intros st c _. exists (Err rejected), (DoS 100 REJECT_INVALID "bad-blk-length" false st), c. split_and!; [done|done| |].
    - destruct (DoS_marks 100 REJECT_INVALID "bad-blk-length" false st). by apply HR.
    - intros [[Hn _] _ _ _ _ _]. by rewrite Ev in Hn. }
  apply Forall_cons in Hwf as Hwf'. destruct Hwf' as [[_ Hcb _ _ _ _] Hrest]. unfold is_u in Hcb.
  eapply decides_iff_as; [
    eapply decides_bind_as; [apply (dec_plain _ _ _ _ (Z.of_nat (length (cb :: rest)) <= MAX_BLOCK_BASE_SIZE /\ block_base_size be b <= MAX_BLOCK_BASE_SIZE))|intros _ _ _;
    eapply decides_bind_as; [apply (dec_plain _ _ _ _ (IsCoinBase be cb = true)); apply negb_false_iff|intros _ _ _;
    eapply decides_bind_as; [apply (dec_plain _ _ _ _ (Forall (fun tx => IsCoinStake be tx = false) (drop 2 (cb :: rest))))|intros _ _ _;
    eapply decides_then; [by apply decides_get_valid|intros ? ->];
    eapply decides_bind_as; [apply (dec_plain _ _ _ _ (Header.nTime (header b) <= Transaction.nTime cb + nMaxClockDrift))|intros _ _ _;
    eapply decides_bind_as; [apply (decides_if _ _ _ _ _ (forall cs, (cb :: rest) !! 1%nat = Some cs -> stake_time_ok (Header.nTime (header b)) (Transaction.nTime cs)) True); [|intros _; apply decides_ret]|intros _ _ _;
    eapply decides_bind_as; [by apply check_transactions_dec|intros _ _ _;
    eapply decides_then; [by apply decides_get_valid|intros ? ->];
    eapply decides_bind_as; [apply (dec_plain _ _ _ _ (sum_with (legacy_sigops be) (cb :: rest) * WITNESS_SCALE_FACTOR <= MAX_BLOCK_SIGOPS_COST))|intros _ _ _;
    apply decides_ret_as]]]]]]]| |done].
  - rewrite !orb_false_iff, Z.eqb_neq, !Z.gtb_ltb, !Z.ltb_ge. cbn [length]. lia.
  - rewrite Forall_forall, <- not_true_iff_false, existsb_exists. split.
    + intros Hn tx Htx. apply not_true_iff_false. intros E. apply Hn. exists tx. by rewrite list_elem_of_In in Htx.
    + intros Hf (tx & Htx & E). rewrite (Hf tx) in E; [done|by apply list_elem_of_In].
  - unfold Header.GetBlockTime, nMaxClockDrift. rewrite swrap_small by (unfold is_s; lia). rewrite Z.gtb_ltb. apply Z.ltb_ge.
  - intros Hp. unfold IsProofOfStake in Hp. rewrite Ev in Hp. destruct rest as [|cs rest]; [done|].
    eapply decides_then; [by apply decides_get_valid|intros ? ->]. apply dec_plain. rewrite negb_false_iff. apply Forall_cons in Hrest as [[_ Hcs _ _ _ _] _].
    rewrite stake_time_iff by done. split; [by intros ? ? [= <-]|]. intros H. by apply H.
  - unfold MAX_BLOCK_SIGOPS_COST, WITNESS_SCALE_FACTOR in *. rewrite uwrap_small by (unfold is_u; lia). rewrite Z.gtb_ltb. apply Z.ltb_ge.
  - split.
    + intros ((? & ?) & ? & ? & ? & Hst & ? & ? & _). split; rewrite ?Ev; try done.
      * by intros ? [= <-].
      * intros Hp. by rewrite Hp in Hst.
    + intros [(_ & ? & ?) Hf Hc Hst Ht Hso]. rewrite Ev in *. destruct (Hf cb eq_refl) as [? ?]. split_and!; try done.
      destruct (IsProofOfStake be b); [by apply Hst|done].
Qed.
End body.

Lemma merkle_step b : block_read b -> exists mutated,
  BlockMerkleRoot be Hash b = Some (merkle_root Hash (txids be Hash b), mutated) /\ hash32 (merkle_root Hash (txids be Hash b)) /\
  (mutated = true <-> duplicated Hash (txids be Hash b)).
Proof.
  intros [_ Hc _ _]. unfold BlockMerkleRoot, ComputeMerkleRoot. assert (Forall hash32 (txids be Hash b)) as Hl.
  { unfold txids. apply Forall_map, Forall_true. intros tx. apply HH. }
  destruct (decide (txids be Hash b = [])) as [E|Hne].
  - rewrite E. exists false. cbn. split; [done|]. split; [by unfold merkle_root|]. split; [done|]. intros (k & i & Hk & _). cbn in Hk.
    assert (2 ^ k <> 0)%nat by (apply Nat.pow_nonzero; lia). nia.
  - destruct (MerkleComputation_spec Hash (u32 (-1)) false _ HH Hl Hne) as (mut & br & -> & Hm & _).
    { unfold txids. by rewrite length_map. }
    exists mut. split; [done|]. split; [|done]. unfold merkle_root. rewrite decide_False by done. by apply node_size.
Qed.

Lemma CheckBlockHeader_dec b f (R : CValidationState.t -> CValidationState.t -> Prop) :
  (f = true -> IsProofOfStake be b = false -> CheckBlockProofOfWork be Hash params (header b) <> None) ->
  (~ work_rule b f -> forall st, R st (DoS 50 REJECT_INVALID "high-hash" false st)) ->
  decides (fun _ : unit => True) R (CheckBlockHeader be Hash params (header b) (f && negb (IsProofOfStake be b))) (work_rule b f).
Proof.
  intros Hd HR. unfold CheckBlockHeader, work_rule in *. destruct f; cbn [andb]; [|eapply decides_iff; [apply decides_ret|done]].
  destruct (IsProofOfStake be b); cbn [negb]; [eapply decides_iff; [apply decides_ret|done]|].
  destruct (CheckBlockProofOfWork be Hash params (header b)) as [ok|]; [|by destruct Hd].
  eapply decides_then; [by apply decides_get_valid|intros ? ->]. eapply decides_iff; [apply decides_reject_if|].
  - intros Hok. apply HR. destruct ok; [done|]. intros H. by specialize (H eq_refl eq_refl).
  - rewrite negb_false_iff. split; [by intros ->|]. intros H. specialize (H eq_refl eq_refl). by injection H.
Qed.

Lemma root_dec b fCheckPOW fCheckMerkleRoot : block_read b -> work_rule b fCheckPOW ->
  decides (fun _ : unit => True) (block_refused b fCheckPOW fCheckMerkleRoot)
    (if fCheckMerkleRoot then
       '(hashMerkleRoot2, mutated) ← get_valid (BlockMerkleRoot be Hash b) undefined;
       _ ← reject_if (negb (op_eq (hashMerkleRoot (header b)) hashMerkleRoot2)) 100 REJECT_INVALID "bad-txnmrklroot" true;
       _ ← reject_if mutated 100 REJECT_INVALID "bad-txns-duplicate" true;
       reject_if (IsProofOfWork be b && negb (CheckMerkleTreeProof params verify (header b))) 100 REJECT_INVALID "bad-diffbits" false
     else mret tt)
    ((fCheckMerkleRoot = true -> committed b) /\
     (fCheckMerkleRoot = true -> IsProofOfStake be b = false -> CheckMerkleTreeProof params verify (header b) = true)).
Proof.
  intros Hb Hw. destruct fCheckMerkleRoot; [|eapply decides_iff; [apply decides_ret|done]].
  destruct (merkle_step b Hb) as (mut & -> & Hr & Hm). pose proof (read_root b Hb) as Hh.
  eapply decides_then; [by apply decides_get_valid|intros ? ->].
  assert (forall code reason, ~ committed b -> forall st, block_refused b fCheckPOW true st (DoS 100 code reason true st)) as Hbad.
  { intros code reason Hn st. destruct (DoS_marks 100 code reason true st) as [H1 H2]. split; [done|]. rewrite H2. tauto. }
  eapply decides_iff; [eapply decides_bind; [eapply (decides_iff _ _ _ _ (hashMerkleRoot (header b) = merkle_root Hash (txids be Hash b))); [apply decides_reject_if|]|intros E _;
    eapply decides_bind; [eapply (decides_iff _ _ _ _ (~ duplicated Hash (txids be Hash b))); [apply decides_reject_if|]|intros Hnd _;
    eapply (decides_iff _ _ _ _ (IsProofOfStake be b = false -> CheckMerkleTreeProof params verify (header b) = true)); [apply decides_reject_if|]]]|].
  - intros Hne. apply Hbad. intros [E _]. apply negb_true_iff in Hne. rewrite (proj2 (op_eq_hash32 _ _ Hh Hr) E) in Hne. done.
  - by rewrite negb_false_iff, op_eq_hash32.
  - intros Hmut. apply Hbad. intros [_ Hn]. by apply Hn, Hm.
  - rewrite <- Hm, not_true_iff_false. done.
  - intros _ st. destruct (DoS_marks 100 REJECT_INVALID "bad-diffbits" false st) as [H1 H2]. split; [done|]. rewrite H2. split; [done|]. intros (_ & _ & H). by destruct H.
  - unfold IsProofOfWork. destruct (IsProofOfStake be b); cbn [negb andb]; [split; [done|by intros _]|]. rewrite negb_false_iff. split; [done|]. intros H. by apply H.
  - unfold committed. split; [intros (? & ? & ?); split; intros _; [done|done]|]. intros [H1 H2]. destruct (H1 eq_refl). split_and!; [done|done|by apply H2].
Qed.
End CheckBlock.

Lemma CheckBlock_dec (be : bool) (Hash : list Z -> list Z) (verify : Z -> CBlockHeader -> list Z -> bool * list Z)
    (params : Params.t) (b : CBlock) (fCheckPOW fCheckMerkleRoot : bool) :
  (forall x, hash32 (Hash x)) -> block_read b -> fChecked b = false ->
  (fCheckPOW = true -> IsProofOfStake be b = false -> CheckBlockProofOfWork be Hash params (header b) <> None) ->
  decides_as (fun _ : unit => True) (block_refused be Hash params b fCheckPOW fCheckMerkleRoot)
    (CheckBlock be Hash verify params b fCheckPOW fCheckMerkleRoot) (block_rules be Hash verify params b fCheckPOW fCheckMerkleRoot)
    (fun r => r = if fCheckPOW && fCheckMerkleRoot then set_checked b else b).
Proof.
  intros HH Hb Hnc Hd. unfold CheckBlock. rewrite Hnc. eapply decides_iff_as; [eapply decides_bind_as; [apply CheckBlockHeader_dec; [exact Hd|]|intros Hw _ _;
    eapply decides_bind_as; [by apply root_dec|intros [Hc _] _ _; apply body_dec; [done..|exact Hb|]]]| |done].
  - intros Hn st0. destruct (DoS_marks 50 REJECT_INVALID "high-hash" false st0) as [H1 H2]. split; [done|]. rewrite H2. split; [done|by intros (? & _)].
  - intros st0 st1 H1 H2. split; [done|]. rewrite H2. split; [done|]. intros (_ & Hf & Hn). by destruct Hn; apply Hc.
  - split; [intros (? & (? & ?) & ?); by split|intros []; by split_and!].
Qed.

(** C17: [CheckBlock] accepts exactly the blocks that keep the rules: a header with work
    (for a proof-of-work block, where asked for), the transactions the Merkle root commits
    to and no others, a correct Merkle-tree proof, at most two million bytes, a coinbase
    first, a coinstake at most second, times that agree, transactions that keep their own
    rules, at most 20000 signature operations.  It leaves the state alone and remembers the
    result, or marks the block invalid.  A rejected block counts as corrupted in transit,
    and its header is not blamed, exactly when the header has work but the transactions are
    not the ones it commits to; it never stops otherwise. *)
Theorem CheckBlock_correct (be : bool) (Hash : list Z -> list Z) (verify : Z -> CBlockHeader -> list Z -> bool * list Z)
    (params : Params.t) (b : CBlock) (fCheckPOW fCheckMerkleRoot : bool) (st : CValidationState.t) :
  (forall x, hash32 (Hash x)) -> block_read b -> fChecked b = false ->
  (fCheckPOW = true -> IsProofOfStake be b = false -> CheckBlockProofOfWork be Hash params (header b) <> None) ->
  exists r st', CheckBlock be Hash verify params b fCheckPOW fCheckMerkleRoot (st, tt) = (r, (st', tt)) /\
    ((r = Ok (if fCheckPOW && fCheckMerkleRoot then set_checked b else b) /\ st' = st /\
      block_rules be Hash verify params b fCheckPOW fCheckMerkleRoot) \/
     (r = Err rejected /\ ~ block_rules be Hash verify params b fCheckPOW fCheckMerkleRoot /\
      block_refused be Hash params b fCheckPOW fCheckMerkleRoot st st')).
Proof.
  intros HH Hb Hnc Hd. pose proof (CheckBlock_dec be Hash verify params b fCheckPOW fCheckMerkleRoot HH Hb Hnc Hd) as H.
  destruct (H st tt I) as (r & st' & [] & E & _ & Hr). exists r, st'. split; [done|].
  destruct r as [a|[]]; [left|right|done..]; [|tauto]. destruct Hr as (-> & ? & ->). done.
Qed.

(** A block of one coinbase, at height 1000 of the main network. *)
Definition checked_coinbase : CTransaction :=
  Build_CTransaction 1 1600000200 [CTxIn.mk COutPoint.null [2; 0xe8; 3] 0xffffffff []]
    [CTxOut.mk 1000000000 (GetScriptForRawPubKey false (2 :: replicate 32 9))] 0.
Definition checked_header : CBlockHeader :=
  Header.mk 4 (replicate 32 4) (GetHash toy_hash false checked_coinbase) 1600000200 0x1f00ffff 0 0x1000
    (1 :: replicate 31 0) None (Some (mk_mtp [] [] [])) 0.
Definition checked_block : CBlock := mk_block checked_header [checked_coinbase] [1] false.

Lemma checked_block_read : block_read checked_block.
Proof.
  split; [|cbn; lia|vm_compute; reflexivity|by_decide]. apply Forall_cons_2; [|apply Forall_nil_2].
  split; unfold elems_valid, txin_valid, txout_valid, COutPoint.valid, blob_wf, sized_valid; by_decide.
Qed.

Lemma CheckBlock_correct_witness :
  block_rules false toy_hash (fun _ h _ => (true, mtpHashValue h)) sample_params checked_block true true.
Proof.
  destruct (CheckBlock_correct false toy_hash (fun _ h _ => (true, mtpHashValue h)) sample_params checked_block true true CValidationState.new
    toy_hash_size checked_block_read eq_refl) as (r & st' & E & [(_ & _ & H)|(-> & _)]); [|exact H|].
  - intros _ _. vm_compute. discriminate.
  - vm_compute in E. discriminate.
Defined.

(** ** The block signature *)

Lemma check_bind_ok {C A B} (m : check C A) (k : A -> check C B) s b s' : (m ≫= k) s = (Ok b, s') ->
  exists a s1, m s = (Ok a, s1) /\ k a s1 = (Ok b, s').
Proof. unfold mbind, check_bind. destruct (m s) as [[a|e] s1]; [|done]. intros E. by exists a, s1. Qed.

Lemma check_bind_run {C A B} (m : check C A) (k : A -> check C B) s a s1 : m s = (Ok a, s1) -> (m ≫= k) s = k a s1.
Proof. unfold mbind, check_bind. by intros ->. Qed.

(** A check that leaves the state alone when it accepts. *)
Class Quiet {C A} (m : check C A) : Prop := quiet : forall s a s', m s = (Ok a, s') -> s' = s.

#[export] Instance quiet_ret {C A} (a : A) : Quiet (C := C) (mret a).
Proof. intros s b s' E. by injection E. Qed.
#[export] Instance quiet_stop {C A} e : Quiet (C := C) (A := A) (stop_with e).
Proof. intros s b s' E. done. Qed.
#[export] Instance quiet_reject {C A} l c r k : Quiet (C := C) (A := A) (reject l c r k).
Proof. intros s b s' E. done. Qed.
#[export] Instance quiet_if {C A} (c : bool) (m1 m2 : check C A) : Quiet m1 -> Quiet m2 -> Quiet (if c then m1 else m2).
Proof. by destruct c. Qed.
#[export] Instance quiet_bind {C A B} (m : check C A) (k : A -> check C B) : Quiet m -> (forall a, Quiet (k a)) -> Quiet (m ≫= k).
Proof. intros Hm Hk s b s' E. apply check_bind_ok in E as (a & s1 & E1 & E). apply Hm in E1 as ->. by eapply Hk. Qed.
#[export] Instance quiet_reject_if {C} c l code r k : Quiet (C := C) (reject_if c l code r k).
Proof. unfold reject_if. apply _. Qed.
#[export] Instance quiet_get_valid {C A} (o : option A) e : Quiet (C := C) (get_valid o e).
Proof. destruct o; apply _. Qed.
#[export] Instance quiet_heap_call {C A} (r : result Chain.fault A) : Quiet (C := C) (heap_call r).
Proof. destruct r; apply _. Qed.
#[export] Instance quiet_script_call {C E A} (r : result E A) : Quiet (C := C) (script_call r).
Proof. destruct r; apply _. Qed.

Section quiet.
Context (be : bool) (Hash : list Z -> list Z) (Verify : list Z -> list Z -> list Z -> bool) (h : heap) (params : Params.t).

#[export] Instance quiet_first_pubkey outs : Quiet (first_pubkey be outs).
Proof. induction outs as [|o outs IH]; cbn [first_pubkey]; [apply _|]. apply quiet_bind; [apply _|]. intros [[ok ty] sols]. apply _. Qed.

#[export] Instance quiet_signature b v7 : Quiet (CheckBlockSignature be Hash Verify params b v7).
Proof.
  unfold CheckBlockSignature, SelectPubkeyForBlockSigning. apply quiet_if; [apply _|]. apply quiet_bind; [|intros [sols|]; apply _].
  apply quiet_if; [apply _|]. apply quiet_bind; [apply _|]. intros o. apply quiet_bind; [apply _|]. intros [[ok ty] sols]. apply _.
Qed.

#[export] Instance quiet_height prev : Quiet (height_after h prev).
Proof. destruct prev; apply _. Qed.
#[export] Instance quiet_v7 prev : Quiet (IsV7Enabled h params prev).
Proof. destruct prev; apply _. Qed.

#[export] Instance quiet_commitment b : Quiet (check_commitment be Hash b).
Proof.
  unfold check_commitment. apply quiet_if; [apply _|]. apply quiet_bind; [apply _|]. intros [root mut]. apply quiet_bind; [apply _|]. intros cb.
  apply quiet_bind; [apply _|]. intros i. destruct (CTxIn.scriptWitness i) as [|nonce [|]]; apply _.
Qed.

#[export] Instance quiet_contents b prev : Quiet (check_contents be Hash h params b prev).
Proof. unfold check_contents. apply _. Qed.
End quiet.

(** The same block without its signature. *)
Definition strip_signature (b : CBlock) : CBlock := mk_block (header b) (vtx b) [] (fChecked b).

Section signature.
Context {B : Type} {lib : BigNumLib B} (be : bool) (Hash : list Z -> list Z)
  (Verify : list Z -> list Z -> list Z -> bool) (h : heap) (params : Params.t).

(** The key is selected without a look at the signature. *)
Lemma CheckBlockSignature_stripped b v7 s ok s' : op_eq (block_hash be Hash (header b)) (Params.hashGenesisBlock params) = false ->
  CheckBlockSignature be Hash Verify params b v7 s = (Ok ok, s') ->
  CheckBlockSignature be Hash Verify params (strip_signature b) v7 s = (Ok false, s').
Proof.
  unfold CheckBlockSignature. intros Hg. change (header (strip_signature b)) with (header b). rewrite Hg.
  intros E. apply check_bind_ok in E as (sols & s1 & E1 & E).
  change (SelectPubkeyForBlockSigning be (strip_signature b) v7) with (SelectPubkeyForBlockSigning be b v7). erewrite check_bind_run by exact E1.
  destruct sols as [sols|]; [|by injection E as _ <-].
  apply check_bind_ok in E as (k & s2 & E2 & E). erewrite check_bind_run by exact E2. by injection E as _ <-.
Qed.
End signature.

(** The signature of a block is not part of what its hash covers, and a block without
    one is blamed on its header.  For every block that [ContextualCheckBlock] accepts (but
    the genesis block), the same block without its signature has the same hash and is
    rejected as invalid without the mark of a possible corruption, the mark that keeps
    [AcceptBlock] from recording the hash as that of an invalid block. *)
Theorem stripped_signature_blames_header (be : bool) (Hash : list Z -> list Z) (Verify : list Z -> list Z -> list Z -> bool)
    (h : heap) (params : Params.t) (b : CBlock) (pindexPrev : option N) (st : CValidationState.t) :
  op_eq (block_hash be Hash (header b)) (Params.hashGenesisBlock params) = false -> IsValid st = true ->
  ContextualCheckBlock be Hash Verify h params b pindexPrev true (st, tt) = (Ok tt, (st, tt)) ->
  block_hash be Hash (header (strip_signature b)) = block_hash be Hash (header b) /\
  exists st', ContextualCheckBlock be Hash Verify h params (strip_signature b) pindexPrev true (st, tt) = (Err rejected, (st', tt)) /\
    IsInvalid st' = true /\ corruptionPossible st' = false.
Proof.
  intros Hg Hv E. split; [done|]. unfold ContextualCheckBlock in *. apply check_bind_ok in E as ([n v7] & s1 & E1 & E).
  change (check_contents be Hash h params (strip_signature b)) with (check_contents be Hash h params b). rewrite (check_bind_run _ _ _ _ _ E1).
  pose proof (quiet _ _ _ E1) as ->. apply check_bind_ok in E as ([] & s2 & E2 & E). pose proof (quiet _ _ _ E2) as ->.
  apply check_bind_ok in E as ([] & s3 & E3 & _). apply check_bind_ok in E3 as (ok & s4 & E3 & _). pose proof (quiet _ _ _ E3) as ->.
  apply CheckBlockSignature_stripped in E3; [|done]. destruct (GetBlockWeight be (strip_signature b) >? MAX_BLOCK_WEIGHT).
  - exists (DoS 100 REJECT_INVALID "bad-blk-weight" false st). split; [done|]. destruct (DoS_marks 100 REJECT_INVALID "bad-blk-weight" false st) as [H1 H2].
    split; [apply H1|done]. intros Hm. unfold IsValid in Hv. by rewrite Hm in Hv.
  - exists (DoS 100 REJECT_INVALID "bad-blk-sign" false st). split.
    + cbn [reject_if]. erewrite check_bind_run by reflexivity. unfold mbind at 1, check_bind at 1. by rewrite (check_bind_run _ _ _ _ _ E3).
    + destruct (DoS_marks 100 REJECT_INVALID "bad-blk-sign" false st) as [H1 H2]. split; [apply H1|done]. intros Hm. unfold IsValid in Hv. by rewrite Hm in Hv.
Qed.

Definition checked_tip : heap := {[ 0%N := chain_block 999 1600000000 None ]}.

Lemma stripped_signature_blames_header_witness :
  exists st', ContextualCheckBlock false toy_hash (fun _ _ _ => true) checked_tip sample_params (strip_signature checked_block) (Some 0%N) true
      (CValidationState.new, tt) = (Err rejected, (st', tt)) /\ IsInvalid st' = true /\ corruptionPossible st' = false.
Proof.
  refine (proj2 (stripped_signature_blames_header false toy_hash (fun _ _ _ => true) checked_tip sample_params checked_block (Some 0%N)
    CValidationState.new _ eq_refl _)); vm_compute; reflexivity.
Defined.

(** ** Commitments to witnesses *)

Section commitments.
Context (be : bool) (Hash : list Z -> list Z) (HH : forall x, hash32 (Hash x)).

Lemma commitment_index_snoc o outs out pos :
  commitment_index o (outs ++ [out]) pos = if is_commitment out then i32 (Z.of_nat (o + length outs)) else commitment_index o outs pos.
Proof.
  revert o pos. induction outs as [|x outs IH]; intros o pos; cbn [app commitment_index length]; [by rewrite Nat.add_0_r|].
  rewrite IH. by replace (S o + length outs)%nat with (o + S (length outs))%nat by lia.
Qed.

Lemma is_commitment_magic v r : hash32 r -> is_commitment (CTxOut.mk v (witness_magic ++ r)) = true.
Proof. intros Hr. unfold is_commitment. cbn [CTxOut.scriptPubKey]. rewrite length_app, Hr. reflexivity. Qed.

Lemma witness_root_of b cb rest : vtx b = cb :: rest -> Z.of_nat (length (vtx b)) <= 2 ^ 31 ->
  exists mut, BlockWitnessMerkleRoot be Hash b = Some (merkle_root Hash (SetNull 32 :: map (GetWitnessHash Hash be) rest), mut).
Proof.
  intros E Hn. unfold BlockWitnessMerkleRoot, ComputeMerkleRoot. rewrite E in *.
  destruct (MerkleComputation_spec Hash (u32 (-1)) false (SetNull 32 :: map (GetWitnessHash Hash be) rest) HH) as (mut & br & -> & _); [|done| |by exists mut].
  - apply Forall_cons_2; [done|]. apply Forall_map, Forall_true. intros tx. unfold GetWitnessHash, GetHash, SerializeHash. destruct (negb _); apply HH.
  - cbn [length] in *. by rewrite length_map.
Qed.

(** The block [GenerateCoinbaseCommitment] makes. *)
Definition committed_coinbase (cb : CTransaction) (i : CTxIn.t) (root : list Z) : CTransaction :=
  with_vin [CTxIn.mk (CTxIn.prevout i) (CTxIn.scriptSig i) (CTxIn.nSequence i) [witness_nonce]]
    (with_vout (vout cb ++ [CTxOut.mk 0 (witness_magic ++ Hash (root ++ witness_nonce))]) cb).
End commitments.

(** The commitment a miner adds is the one a node checks.  For a block whose coinbase
    has one input, no witness and no commitment, [GenerateCoinbaseCommitment] adds an output
    to the coinbase and the nonce to its input, changes nothing else, and returns the script
    of that output; [ContextualCheckBlock] finds the new output and accepts the commitment,
    and generating once more changes nothing. *)
Theorem witness_commitment_roundtrip (be : bool) (Hash : list Z -> list Z) (b : CBlock) (cb : CTransaction) (rest : list CTransaction)
    (i : CTxIn.t) (st : CValidationState.t) :
  (forall x, hash32 (Hash x)) -> vtx b = cb :: rest -> Z.of_nat (length (vtx b)) <= 2 ^ 31 ->
  vin cb = [i] -> CTxIn.scriptWitness i = [] -> Z.of_nat (length (vout cb)) < 2 ^ 31 -> GetWitnessCommitmentIndex b = -1 ->
  exists root, let cb' := committed_coinbase Hash cb i root in
    let b' := mk_block (header b) (cb' :: rest) (vchBlockSig b) (fChecked b) in
    GenerateCoinbaseCommitment be Hash b = Some (b', witness_magic ++ Hash (root ++ witness_nonce)) /\
    GetWitnessCommitmentIndex b' = Z.of_nat (length (vout cb)) /\
    check_commitment be Hash b' (st, tt) = (Ok true, (st, tt)) /\
    GenerateCoinbaseCommitment be Hash b' = Some (b', []).
Proof.
  intros HH Ev Hn Hi Hw Ho Hp. destruct (witness_root_of be Hash HH b cb rest Ev Hn) as [mut Er].
  set (root := merkle_root Hash (SetNull 32 :: map (GetWitnessHash Hash be) rest)) in *. exists root. cbn zeta.
  set (b' := mk_block _ (_ :: rest) _ _).
  assert (GetWitnessCommitmentIndex b' = Z.of_nat (length (vout cb))) as Ei.
  { unfold GetWitnessCommitmentIndex. cbn [vtx b' vout committed_coinbase with_vin with_vout].
    rewrite commitment_index_snoc, is_commitment_magic by apply HH. cbn [Nat.add]. rewrite swrap_small by (unfold is_s; lia). done. }
  assert (BlockWitnessMerkleRoot be Hash b' = Some (root, mut)) as Er' by (rewrite <- Er; unfold BlockWitnessMerkleRoot; by rewrite Ev).
  assert (HasWitness cb = false) as Ehw by (unfold HasWitness; rewrite Hi; cbn; by rewrite Hw).
  split_and!; [|exact Ei| |].
  - unfold GenerateCoinbaseCommitment. rewrite Hp, Z.eqb_refl, Er, Ev. cbn [mbind option_bind lookup list_lookup].
    unfold UpdateUncommittedBlockStructures, set_coinbase. cbn [vtx]. rewrite Ev. cbn [insert list_insert].
    assert (forall x, GetWitnessCommitmentIndex (mk_block (header b) (with_vout (vout cb ++ [CTxOut.mk 0 (witness_magic ++ Hash (root ++ witness_nonce))]) cb :: rest) (vchBlockSig b) x)
      = Z.of_nat (length (vout cb))) as Ex by done. rewrite Ex.
    rewrite (proj2 (Z.eqb_neq (Z.of_nat _) (-1))) by lia. unfold HasWitness in *. cbn [vin with_vout negb andb]. rewrite Ehw. cbn [negb andb]. by rewrite Hi.
  - unfold check_commitment. rewrite Ei, (proj2 (Z.eqb_neq (Z.of_nat _) (-1))), Er' by lia.
    do 3 (erewrite check_bind_run by reflexivity; cbn beta iota). cbn [CTxIn.scriptWitness vout with_vout committed_coinbase with_vin].
    change (length witness_nonce =? 32)%nat with true. cbn iota. rewrite Nat2Z.id.
    assert ((vout cb ++ [CTxOut.mk 0 (witness_magic ++ Hash (root ++ witness_nonce))]) !! length (vout cb) =
      Some (CTxOut.mk 0 (witness_magic ++ Hash (root ++ witness_nonce)))) as Eo by by apply list_lookup_middle.
    rewrite Eo. erewrite check_bind_run by reflexivity. cbn [CTxOut.scriptPubKey witness_magic app drop]. rewrite drop_0, take_ge by (rewrite HH; lia).
    rewrite bool_decide_eq_true_2 by done. done.
  - unfold GenerateCoinbaseCommitment. rewrite Ei, (proj2 (Z.eqb_neq (Z.of_nat _) (-1))) by lia. cbn [mbind option_bind].
    unfold UpdateUncommittedBlockStructures. rewrite Ei, (proj2 (Z.eqb_neq (Z.of_nat _) (-1))) by lia. cbn [vtx b']. done.
Qed.

Lemma witness_commitment_roundtrip_witness :
  exists root, GenerateCoinbaseCommitment false toy_hash checked_block =
    Some (mk_block checked_header [committed_coinbase toy_hash checked_coinbase (CTxIn.mk COutPoint.null [2; 0xe8; 3] 0xffffffff []) root] [1] false,
          witness_magic ++ toy_hash (root ++ witness_nonce)).
Proof.
  destruct (witness_commitment_roundtrip false toy_hash checked_block checked_coinbase [] (CTxIn.mk COutPoint.null [2; 0xe8; 3] 0xffffffff [])
    CValidationState.new toy_hash_size eq_refl) as (root & H & _); [cbn; lia|reflexivity|reflexivity|cbn; lia|reflexivity|].
  exists root. exact H.
Defined.

(** ** A header binds the whole block *)

Definition hash_collision (Hash : list Z -> list Z) : Prop := exists x y, x <> y /\ Hash x = Hash y.

Section binding.
Context (be : bool) (Hash : list Z -> list Z) (HH : forall x, hash32 (Hash x)).

Lemma merkle_collision : collision Hash -> hash_collision Hash.
Proof. intros (x & y & _ & _ & Hne & E). by exists x, y. Qed.

Lemma Hash_inj x y : Hash x = Hash y -> x = y \/ hash_collision Hash.
Proof. intros E. destruct (decide (x = y)); [by left|]. right. by exists x, y. Qed.

(** Lists of one length with one root are equal, also when siblings are. *)
Lemma node_inj_length k l l' : Forall hash32 l -> Forall hash32 l' -> length l = length l' -> (0 < length l <= 2 ^ k)%nat ->
  node Hash k l = node Hash k l' -> l = l' \/ collision Hash.
Proof.
  revert l l'. induction k as [|k IH]; intros l l' Hl Hl' En Hn E.
  { cbn [Nat.pow] in *. destruct l as [|x [|]], l' as [|y [|]]; cbn [length] in *; try lia. cbn in E. left. by rewrite E. }
  cbn [Nat.pow] in Hn. cbn [node] in E. rewrite <- En in E.
  pose proof (Nat.pow_nonzero 2 k ltac:(lia)).
  assert (forall x n, Forall hash32 x -> Forall hash32 (take n x) /\ Forall hash32 (drop n x)) as Hf
    by (intros x n Hx; split; [by apply Forall_take|by apply Forall_drop]).
  assert (forall x : list (list Z), (0 < length x)%nat -> x <> []) as Hne by (intros [] ?; [cbn in *; lia|done]).
  assert (forall x, Forall hash32 x -> (0 < length x)%nat -> hash32 (node Hash k x)) as Hsz by (intros; apply (node_size Hash HH); auto).
  destruct (Hf l (2 ^ k)%nat Hl) as [Ha Hb]. destruct (Hf l' (2 ^ k)%nat Hl') as [Ha' Hb'].
  pose proof (length_take l (2 ^ k)) as L1. pose proof (length_take l' (2 ^ k)) as L1'.
  pose proof (length_drop l (2 ^ k)) as L2. pose proof (length_drop l' (2 ^ k)) as L2'.
  destruct (decide (length l <= 2 ^ k)%nat); apply (hash_pair_inj Hash) in E as [[E1 E2]|]; auto; try (apply Hsz; [done|lia]);
    (destruct (IH (take (2 ^ k) l) (take (2 ^ k) l') Ha Ha') as [Et|]; [lia|lia|done| |by right]).
  - left. by rewrite !firstn_all2 in Et by lia.
  - destruct (IH (drop (2 ^ k) l) (drop (2 ^ k) l') Hb Hb') as [Ed|]; [lia|lia|done| |by right]. left.
    by rewrite <- (take_drop (2 ^ k) l), <- (take_drop (2 ^ k) l'), Et, Ed.
Qed.

Lemma merkle_root_inj l l' : Forall hash32 l -> Forall hash32 l' -> depth (length l) = depth (length l') ->
  l <> [] -> l' <> [] -> (length l = length l' \/ ~ duplicated Hash l /\ ~ duplicated Hash l') ->
  merkle_root Hash l = merkle_root Hash l' -> l = l' \/ hash_collision Hash.
Proof.
  intros Hl Hl' Hd Hne Hne' Hc E. unfold merkle_root in E. rewrite !decide_False in E by done. rewrite <- Hd in E.
  pose proof (depth_enough (length l)) as H1. pose proof (depth_enough (length l')) as H2. rewrite <- Hd in H2.
  assert (forall x : list (list Z), x <> [] -> (0 < length x)%nat) as Hpos by (intros [] ?; [done|cbn; lia]).
  destruct Hc as [En|[Hn Hn']].
  - destruct (node_inj_length (depth (length l)) l l') as [?|?%merkle_collision]; auto.
  - destruct (node_inj Hash HH (depth (length l)) l l') as [?|?%merkle_collision]; auto; by intros ?%dup_duplicated.
Qed.

(** An id binds everything but the witnesses, a witness hash everything. *)
Lemma txid_inj tx tx' : tx_wf tx -> tx_wf tx' -> GetHash Hash be tx = GetHash Hash be tx' ->
  carried SER_GETHASH SERIALIZE_TRANSACTION_NO_WITNESS 0 tx = carried SER_GETHASH SERIALIZE_TRANSACTION_NO_WITNESS 0 tx' \/ hash_collision Hash.
Proof.
  intros Hw Hw' E. apply Hash_inj in E as [E|]; [left|by right].
  pose proof (UnserializeTransaction_app be SER_GETHASH SERIALIZE_TRANSACTION_NO_WITNESS 0 tx [] Hw ltac:(done)) as R.
  pose proof (UnserializeTransaction_app be SER_GETHASH SERIALIZE_TRANSACTION_NO_WITNESS 0 tx' [] Hw' ltac:(done)) as R'.
  rewrite E, R' in R. congruence.
Qed.

Lemma GetWitnessHash_bytes tx : GetWitnessHash Hash be tx = Hash (bytes_of (tx_codec be SER_GETHASH 0 0) tx).
Proof.
  unfold GetWitnessHash. destruct (HasWitness tx) eqn:E; [done|]. cbn [negb]. unfold GetHash, SerializeHash, bytes_of. cbn [Serialize tx_codec].
  unfold SerializeTransaction. change (fAllowWitness SERIALIZE_TRANSACTION_NO_WITNESS) with false. change (fAllowWitness 0) with true. by rewrite E.
Qed.

Lemma wtxid_inj tx tx' : tx_wf tx -> tx_wf tx' -> vin tx <> [] -> vin tx' <> [] -> GetWitnessHash Hash be tx = GetWitnessHash Hash be tx' ->
  tx = tx' \/ hash_collision Hash.
Proof.
  intros Hw Hw' Hv Hv' E. rewrite !GetWitnessHash_bytes in E. apply Hash_inj in E as [E|]; [left|by right].
  pose proof (UnserializeTransaction_app be SER_GETHASH 0 0 tx [] Hw ltac:(done)) as R.
  pose proof (UnserializeTransaction_app be SER_GETHASH 0 0 tx' [] Hw' ltac:(done)) as R'.
  assert (forall x, carried SER_GETHASH 0 0 x = x) as Hc by by intros []. rewrite E, R', !Hc in R. congruence.
Qed.

(** What is the same of the elements of two lists, or there is a collision. *)
Lemma map_inj {A B C} (P : A -> Prop) (f : A -> B) (g : A -> C) l l' : Forall P l -> Forall P l' ->
  (forall a a', P a -> P a' -> f a = f a' -> g a = g a' \/ hash_collision Hash) -> map f l = map f l' -> map g l = map g l' \/ hash_collision Hash.
Proof.
  intros Hl Hl' Hi. revert l' Hl'. induction Hl as [|a l Ha Hl IH]; intros [|a' l'] Hl' E; try done; [by left|].
  apply Forall_cons in Hl' as [Ha' Hl']. injection E as E1 E2. destruct (Hi a a' Ha Ha' E1) as [Eg|]; [|by right].
  destruct (IH l' Hl' E2) as [Eg'|]; [|by right]. left. cbn [map]. by rewrite Eg, Eg'.
Qed.

Lemma check_commitment_inv b s fw s' : check_commitment be Hash b s = (Ok fw, s') ->
  if fw then exists root mut cb i nonce o, GetWitnessCommitmentIndex b <> -1 /\ BlockWitnessMerkleRoot be Hash b = Some (root, mut) /\
    vtx b !! 0%nat = Some cb /\ vin cb !! 0%nat = Some i /\ CTxIn.scriptWitness i = [nonce] /\ hash32 nonce /\
    vout cb !! Z.to_nat (GetWitnessCommitmentIndex b) = Some o /\ Hash (root ++ nonce) = take 32 (drop 6 (CTxOut.scriptPubKey o))
  else GetWitnessCommitmentIndex b = -1.
Proof.
  unfold check_commitment. destruct (Z.eqb_spec (GetWitnessCommitmentIndex b) (-1)) as [E|Hne]; [by intros [= <- _]|].
  intros H. apply check_bind_ok in H as ([root mut] & s1 & E1 & H). destruct (BlockWitnessMerkleRoot be Hash b) as [[r m]|] eqn:Er; [|done]. injection E1 as -> -> ->.
  apply check_bind_ok in H as (cb & s2 & E2 & H). destruct (vtx b !! 0%nat) as [cb0|] eqn:Ecb; [|done]. injection E2 as -> ->.
  apply check_bind_ok in H as (i & s3 & E3 & H). destruct (vin cb !! 0%nat) as [i0|] eqn:Ei; [|done]. injection E3 as -> ->.
  destruct (CTxIn.scriptWitness i) as [|nonce [|]] eqn:Ew; try done. destruct (Nat.eqb_spec (length nonce) 32) as [Hn|]; [|done].
  apply check_bind_ok in H as (o & s4 & E4 & H). destruct (vout cb !! _) as [o0|] eqn:Eo; [|done]. injection E4 as -> ->.
  apply check_bind_ok in H as ([] & s5 & E5 & H). injection H as <- _. destruct (bool_decide_reflect (Hash (root ++ nonce) = take 32 (drop 6 (CTxOut.scriptPubKey o)))); [|done].
  exists root, mut, cb, i, nonce, o. by split_and!.
Qed.

Lemma check_contents_inv h params b prev s r s' : check_contents be Hash h params b prev s = (Ok r, s') ->
  exists v7 fw, IsV7Enabled h params prev s = (Ok v7, s) /\ (if v7 then check_commitment be Hash b s = (Ok fw, s) else fw = false) /\
    (fw = false -> Forall (fun tx => HasWitness tx = false) (vtx b)).
Proof.
  unfold check_contents. intros H. apply check_bind_ok in H as (n & s1 & E1 & H). apply quiet in E1 as ->.
  apply check_bind_ok in H as (v7 & s2 & E2 & H). pose proof (quiet _ _ _ E2) as ->. cbn zeta in H.
  do 5 (apply check_bind_ok in H as (? & ? & Hq & H); apply quiet in Hq as ->).
  apply check_bind_ok in H as (fw & s3 & E3 & H). pose proof (quiet _ _ _ E3) as ->.
  apply check_bind_ok in H as ([] & s4 & E4 & H). apply quiet in E4 as ->. apply check_bind_ok in H as ([] & s5 & E5 & _).
  exists v7, fw. split; [done|]. split; [destruct v7; [done|by injection E3]|]. intros ->. cbn [negb andb] in E5.
  destruct (existsb HasWitness (vtx b)) eqn:Ew; [done|]. apply Forall_forall. intros tx Htx. apply not_true_iff_false. intros Hw.
  assert (existsb HasWitness (vtx b) = true); [|congruence]. apply existsb_exists. exists tx. by rewrite <- list_elem_of_In.
Qed.

Lemma CheckBlock_accepted verify params b f s r s' : block_read b -> fChecked b = false ->
  CheckBlock be Hash verify params b f true (s, tt) = (Ok r, s') -> block_rules be Hash verify params b f true.
Proof.
  intros Hb Hnc E. assert (f = true -> IsProofOfStake be b = false -> CheckBlockProofOfWork be Hash params (header b) <> None) as Hd.
  { intros -> Hp Hn. unfold CheckBlock, CheckBlockHeader in E. rewrite Hnc, Hp, Hn in E. done. }
  destruct (CheckBlock_dec be Hash verify params b f true HH Hb Hnc Hd s tt I) as (r' & st' & c' & E' & _ & Hr).
  rewrite E in E'. injection E' as <- _. apply Hr.
Qed.

#[local] Abbreviation bare := (carried SER_GETHASH SERIALIZE_TRANSACTION_NO_WITNESS 0).

Lemma bare_id tx : HasWitness tx = false -> bare tx = tx.
Proof.
  intros Hw. assert (map CTxIn.strip (vin tx) = vin tx) as E.
  { unfold HasWitness in Hw. induction (vin tx) as [|i ins IH]; [done|]. cbn [existsb map] in *. apply orb_false_elim in Hw as [Hi Hw].
    rewrite IH by done. f_equal. destruct i as [p ss q w]. cbn in *. by destruct w. }
  destruct tx. unfold carried. cbn in *. by rewrite E.
Qed.

Lemma bare_map_id txs : Forall (fun tx => HasWitness tx = false) txs -> map bare txs = txs.
Proof. induction 1 as [|tx txs Hw _ IH]; [done|]. cbn [map]. by rewrite bare_id, IH. Qed.

#[local] Abbreviation wtxids := (fun rest => SetNull 32 :: map (GetWitnessHash Hash be) rest).

Lemma wtxids_size rest : Forall hash32 (wtxids rest).
Proof. apply Forall_cons_2; [done|]. apply Forall_map, Forall_true. intros tx. rewrite GetWitnessHash_bytes. apply HH. Qed.

Lemma witness_root_inv b cb rest root mut : block_read b -> vtx b = cb :: rest -> BlockWitnessMerkleRoot be Hash b = Some (root, mut) ->
  root = merkle_root Hash (wtxids rest) /\ hash32 root.
Proof.
  intros Hb Ev Er. destruct (witness_root_of be Hash HH b cb rest Ev (read_count b Hb)) as [m E]. rewrite Er in E. injection E as -> _.
  split; [done|]. unfold merkle_root. rewrite decide_False by done. apply (node_size Hash HH); [apply wtxids_size|done].
Qed.

(** Coinbases that differ at most in the witness of their input. *)
Lemma coinbase_eq cb cb' i i' : bare cb = bare cb' -> length (vin cb) = 1%nat -> vin cb !! 0%nat = Some i -> vin cb' !! 0%nat = Some i' ->
  CTxIn.scriptWitness i = CTxIn.scriptWitness i' -> cb = cb'.
Proof.
  destruct cb as [v t ins outs lk], cb' as [v' t' ins' outs' lk']. unfold carried. cbn [vin Transaction.nVersion Transaction.nTime vout nLockTime].
  intros [= -> -> Em -> ->] H1 Ei Ei' Ew. destruct ins as [|x [|]]; try done. destruct ins' as [|x' [|]]; try done.
  injection Ei as ->. injection Ei' as ->. injection Em as E1 E2 E3. destruct i, i'. cbn in *. by subst.
Qed.

(** Blocks with the same transactions but for the witnesses, and right commitments. *)
Lemma commitments_bind b b' cb cb' rest rest' s : block_read b -> block_read b' ->
  vtx b = cb :: rest -> vtx b' = cb' :: rest' -> map bare (vtx b) = map bare (vtx b') ->
  Forall (fun tx => tx_wf tx /\ vin tx <> []) rest -> Forall (fun tx => tx_wf tx /\ vin tx <> []) rest' -> length (vin cb) = 1%nat ->
  check_commitment be Hash b s = (Ok true, s) -> check_commitment be Hash b' s = (Ok true, s) ->
  vtx b = vtx b' \/ hash_collision Hash.
Proof.
  intros Hb Hb' Ev Ev' Em Hv Hv' H1 C C'. apply check_commitment_inv in C as (root & mut & c0 & i & nonce & o & _ & Er & E0 & Ei & Ew & Hn & Eo & Eh).
  apply check_commitment_inv in C' as (root' & mut' & c0' & i' & nonce' & o' & _ & Er' & E0' & Ei' & Ew' & Hn' & Eo' & Eh').
  destruct (witness_root_inv b cb rest root mut Hb Ev Er) as [Hroot Hr]. destruct (witness_root_inv b' cb' rest' root' mut' Hb' Ev' Er') as [Hroot' Hr'].
  rewrite Ev in *. rewrite Ev' in *. injection E0 as <-. injection E0' as <-. cbn [map] in Em.
  apply (inj2 cons) in Em as [Ecb Erest].
  assert (vout cb = vout cb') as Evout by (by injection Ecb). assert (length rest = length rest') as El by (apply (f_equal length) in Erest; by rewrite !length_map in Erest).
  assert (GetWitnessCommitmentIndex b = GetWitnessCommitmentIndex b') as Eidx by (unfold GetWitnessCommitmentIndex; by rewrite Ev, Ev', Evout).
  rewrite Eidx, Evout, Eo' in Eo. injection Eo as ->. rewrite <- Eh' in Eh.
  apply Hash_inj in Eh as [Eh|]; [|by right]. apply app_inj_1 in Eh as [Eroot Enonce]; [|by rewrite Hr, Hr'].
  destruct (merkle_root_inj (wtxids rest) (wtxids rest')) as [Ew0|]; [apply wtxids_size|apply wtxids_size|cbn; by rewrite !length_map, El|done|done|left; cbn; by rewrite !length_map, El|congruence| |by right].
  injection Ew0 as Ew0. destruct (map_inj (fun tx => tx_wf tx /\ vin tx <> []) (GetWitnessHash Hash be) id rest rest' Hv Hv') as [Eid|]; [|done| |by right].
  - intros a a' [? ?] [? ?]. by apply wtxid_inj.
  - left. rewrite !map_id in Eid. rewrite Eid. f_equal. apply (coinbase_eq cb cb' i i'); [done|done|done|done|congruence].
Qed.

(** One Merkle root, without duplicates: the same transactions but for the witnesses. *)
Lemma txs_bind b b' : block_read b -> block_read b' -> committed be Hash b -> committed be Hash b' -> vtx b <> [] -> vtx b' <> [] ->
  hashMerkleRoot (header b) = hashMerkleRoot (header b') -> depth (length (vtx b)) = depth (length (vtx b')) ->
  map bare (vtx b) = map bare (vtx b') \/ hash_collision Hash.
Proof.
  intros Hb Hb' [E Hn] [E' Hn'] Hne Hne' Er Hd.
  assert (forall x, Forall hash32 (txids be Hash x)) as Hs by (intros x; unfold txids; apply Forall_map, Forall_true; intros tx; apply HH).
  destruct (merkle_root_inj (txids be Hash b) (txids be Hash b')) as [Et|]; [done|done|unfold txids; by rewrite !length_map|..|by right].
  - unfold txids. by intros ?%map_eq_nil.
  - unfold txids. by intros ?%map_eq_nil.
  - by right.
  - congruence.
  - apply (map_inj tx_wf (GetHash Hash be)); [apply Hb|apply Hb'|apply txid_inj|exact Et].
Qed.

Lemma body_inputs b cb rest : block_read b -> body_rules be b -> vtx b = cb :: rest ->
  length (vin cb) = 1%nat /\ Forall (fun tx => tx_wf tx /\ vin tx <> []) rest.
Proof.
  intros Hb [_ Hf _ _ Ht _] Ev. rewrite Ev in *. destruct (Hf cb eq_refl) as [Hcb _]. split.
  - unfold IsCoinBase in Hcb. by destruct (vin cb) as [|? [|]].
  - pose proof (read_txs b Hb) as Hw. rewrite Ev in Hw. apply Forall_cons in Hw as [_ Hw]. apply Forall_cons in Ht as [_ Ht].
    rewrite Forall_forall in *. intros tx Htx. split; [by apply Hw|]. apply (Ht tx Htx).
Qed.
End binding.

(** C16: a header binds the whole block.  Two blocks read from the network with the same
    Merkle root in their headers and trees of the same depth, both accepted by [CheckBlock]
    and, after the same block, by [ContextualCheckBlock], have the same transactions, the
    witnesses included, or two strings with the same digest are known.  The Merkle root
    binds the transactions without witnesses; the commitment in the coinbase binds the
    witnesses and the nonce, and where there is no commitment there are no witnesses. *)
Theorem header_binds_block (be : bool) (Hash : list Z -> list Z) (verify : Z -> CBlockHeader -> list Z -> bool * list Z)
    (Verify : list Z -> list Z -> list Z -> bool) (h : heap) (params : Params.t) (b b' : CBlock) (pindexPrev : option N)
    (fPOW fSign : bool) (st : CValidationState.t) r r' s s' t t' :
  (forall x, hash32 (Hash x)) -> block_read b -> block_read b' -> fChecked b = false -> fChecked b' = false ->
  hashMerkleRoot (header b) = hashMerkleRoot (header b') -> depth (length (vtx b)) = depth (length (vtx b')) ->
  CheckBlock be Hash verify params b fPOW true (st, tt) = (Ok r, s) ->
  CheckBlock be Hash verify params b' fPOW true (st, tt) = (Ok r', s') ->
  ContextualCheckBlock be Hash Verify h params b pindexPrev fSign (st, tt) = (Ok tt, t) ->
  ContextualCheckBlock be Hash Verify h params b' pindexPrev fSign (st, tt) = (Ok tt, t') ->
  vtx b = vtx b' \/ hash_collision Hash.
Proof.
  intros HH Hb Hb' Hc Hc' Eroot Hd A A' K K'.
  apply CheckBlock_accepted in A as [_ A _ Hbody]; [|done..]. apply CheckBlock_accepted in A' as [_ A' _ Hbody']; [|done..].
  destruct (A eq_refl) as [Em Hnd]. destruct (A' eq_refl) as [Em' Hnd'].
  unfold ContextualCheckBlock in K, K'. apply check_bind_ok in K as (x & s1 & K & _). apply check_bind_ok in K' as (x' & s1' & K' & _).
  apply check_contents_inv in K as (v7 & fw & V & C & N). apply check_contents_inv in K' as (v7' & fw' & V' & C' & N').
  rewrite V in V'. injection V' as <-. destruct (vtx b) as [|cb rest] eqn:Ev; [by destruct Hbody as [[? _] _ _ _ _ _]; rewrite Ev in *|].
  destruct (vtx b') as [|cb' rest'] eqn:Ev'; [by destruct Hbody' as [[? _] _ _ _ _ _]; rewrite Ev' in *|].
  destruct (body_inputs be b cb rest Hb Hbody Ev) as [H1 Hin]. destruct (body_inputs be b' cb' rest' Hb' Hbody' Ev') as [_ Hin'].
  rewrite <- Ev, <- Ev' in *. destruct (txs_bind be Hash HH b b') as [Eb|]; try done; [by rewrite Ev|by rewrite Ev'| |by right].
  assert (GetWitnessCommitmentIndex b = GetWitnessCommitmentIndex b') as Eidx.
  { unfold GetWitnessCommitmentIndex. rewrite Ev, Ev' in *. cbn [map] in Eb. by injection Eb as _ _ _ -> _ _. }
  assert (fw = fw') as <-.
  { destruct v7; [|congruence]. apply check_commitment_inv in C, C'.
    destruct fw, fw'; try done; [destruct C as (? & ? & ? & ? & ? & ? & ? & _)|destruct C' as (? & ? & ? & ? & ? & ? & ? & _)]; congruence. }
  destruct fw.
  - destruct v7; [|done]. by apply (commitments_bind be Hash HH b b' cb cb' rest rest' (st, tt)).
  - left. rewrite <- (bare_map_id (vtx b)), <- (bare_map_id (vtx b')) by auto. done.
Qed.

(** The main network with the rules of version 7 from height 500 on, and a block with a
    commitment, with two signatures. *)
Definition v7_params : Params.t :=
  let p := sample_params in
  Params.mk (Params.hashGenesisBlock p) INT_MAX (Params.BIP34Hash p) 0 0 INT_MAX 500 (Params.powLimit p) false 120 86400
    (SetNull 32) (SetNull 32) (Params.bnInitialHashTarget p) 120 1440 1209600 7776000 3600 850 1000 80 80.
Definition v7_coinbase : CTransaction :=
  committed_coinbase toy_hash checked_coinbase (CTxIn.mk COutPoint.null [2; 0xe8; 3] 0xffffffff []) (SetNull 32).
Definition v7_header : CBlockHeader :=
  Header.mk 7 (replicate 32 4) (GetHash toy_hash false v7_coinbase) 1600000200 0x1f00ffff 0 0x1000
    (1 :: replicate 31 0) None (Some (mk_mtp [] [] [])) 0.
Definition v7_block (sig : list Z) : CBlock := mk_block v7_header [v7_coinbase] sig false.

Lemma v7_block_read sig : block_read (v7_block sig).
Proof.
  split; [|cbn; lia|vm_compute; reflexivity|vm_compute; discriminate]. apply Forall_cons_2; [|apply Forall_nil_2].
  split; unfold elems_valid, txin_valid, txout_valid, COutPoint.valid, blob_wf, sized_valid; by_decide.
Qed.

Lemma header_binds_block_witness :
  vtx (v7_block [1]) = vtx (v7_block [2]) \/ hash_collision toy_hash.
Proof.
  refine (header_binds_block false toy_hash (fun _ h _ => (true, mtpHashValue h)) (fun _ _ _ => true) checked_tip v7_params
    (v7_block [1]) (v7_block [2]) (Some 0%N) true true CValidationState.new
    (set_checked (v7_block [1])) (set_checked (v7_block [2])) (CValidationState.new, tt) (CValidationState.new, tt) (CValidationState.new, tt) (CValidationState.new, tt)
    toy_hash_size (v7_block_read [1]) (v7_block_read [2]) eq_refl eq_refl eq_refl eq_refl _ _ _ _); vm_compute; reflexivity.
Defined.
