(* ===== verification/HeaderCheck.v ===== *)
(** * HeaderCheck: what the rules for headers ensure along a chain

    Consequences of [ContextualCheckBlockHeader] ([src/src/validation.cpp], modelled in
    BlockCheck) for the median time past ([CBlockIndex::GetMedianTimePast],
    [src/src/chain.h]) that lock times are measured with. *)
From Stdlib Require Import Sorting.Sorted.
From stdpp Require Import sorting.
From S2P Require Import Prelude ConsensusParams Endian Uint256 Serialize Amount Transaction Chain Script LockTime Block Pow TxCheck BlockCheck.
Import Header.

(** ** Medians *)

(** The elements that are at least [m]. *)
Definition count_ge (m : Z) (l : list Z) : nat := length (List.filter (fun x => m <=? x) l).

Lemma count_ge_app m l l' : count_ge m (l ++ l') = (count_ge m l + count_ge m l')%nat.
Proof. unfold count_ge. by rewrite List.filter_app, length_app. Qed.

Lemma count_ge_split m k l : count_ge m l = (count_ge m (take k l) + count_ge m (drop k l))%nat.
Proof. by rewrite <- count_ge_app, take_drop. Qed.

Lemma count_ge_bound m l : (count_ge m l <= length l)%nat.
Proof. unfold count_ge. induction l as [|x l IH]; cbn; [lia|]. destruct (m <=? x); cbn; lia. Qed.

Lemma count_ge_all m l : Forall (fun x => m <= x) l -> count_ge m l = length l.
Proof. unfold count_ge. induction 1 as [|x l Hx _ IH]; [done|]. cbn. rewrite (proj2 (Z.leb_le m x)) by done. cbn. by rewrite IH. Qed.

Lemma count_ge_none m l : Forall (fun x => x < m) l -> count_ge m l = 0%nat.
Proof. unfold count_ge. induction 1 as [|x l Hx _ IH]; [done|]. cbn. rewrite (proj2 (Z.leb_gt m x)) by done. done. Qed.

Lemma count_ge_perm m l l' : l ≡ₚ l' -> count_ge m l = count_ge m l'.
Proof. unfold count_ge. induction 1; cbn; repeat destruct (m <=? _); cbn; congruence. Qed.

(** An element of a sorted list separates it. *)
Lemma sorted_split l k x : StronglySorted Z.le l -> l !! k = Some x ->
  Forall (fun y => x <= y) (drop k l) /\ Forall (fun y => y <= x) (take (S k) l).
Proof.
  revert k. induction l as [|y l IH]; intros [|k] Hs Hk; try done; apply StronglySorted_inv in Hs as [Hs Hy].
  - injection Hk as ->. split; [by constructor|]. cbn. rewrite take_0. repeat constructor. lia.
  - destruct (IH k Hs Hk) as [H1 H2]. split; [done|]. cbn [take]. constructor; [|done].
    rewrite Forall_forall in Hy. apply Hy. by eapply list_elem_of_lookup_2.
Qed.

Lemma sorted_count l k x m : StronglySorted Z.le l -> l !! k = Some x ->
  (length l - k <= count_ge x l)%nat /\ ((length l - k <= count_ge m l)%nat -> m <= x).
Proof.
  intros Hs Hk. destruct (sorted_split l k x Hs Hk) as [H1 H2]. pose proof (lookup_lt_Some _ _ _ Hk) as Hlt. split.
  - rewrite (count_ge_split x k), (count_ge_all x (drop k l)), length_drop by done. lia.
  - intros Hc. destruct (Z.le_gt_cases m x); [done|]. exfalso.
    rewrite (count_ge_split m (S k)), (count_ge_none m (take (S k) l)) in Hc by (eapply Forall_impl; [exact H2|]; cbn beta; intros; lia).
    pose proof (count_ge_bound m (drop (S k) l)) as Hb. rewrite length_drop in Hb. lia.
Qed.

(** The element in the middle of a list. *)
Definition median (l : list Z) : option Z := merge_sort Z.le l !! (length l / 2)%nat.

Lemma median_count l x m : median l = Some x ->
  (length l - length l / 2 <= count_ge x l)%nat /\ ((length l - length l / 2 <= count_ge m l)%nat -> m <= x).
Proof.
  unfold median. intros E. pose proof (StronglySorted_merge_sort Z.le l) as Hs. pose proof (merge_sort_Permutation Z.le l) as Hp.
  destruct (sorted_count _ _ x m Hs E) as [H1 H2]. rewrite (Permutation_length Hp) in H1, H2. rewrite (count_ge_perm x _ _ Hp) in H1. rewrite (count_ge_perm m _ _ Hp) in H2. done.
Qed.

Lemma median_some l : l <> [] -> exists x, median l = Some x.
Proof.
  intros Hl. unfold median. apply lookup_lt_is_Some. rewrite (Permutation_length (merge_sort_Permutation Z.le l)).
  destruct l; [done|]. apply Nat.div_lt; cbn; lia.
Qed.

(** A window that moves on by an element above its median has no smaller median. *)
Lemma median_mono l l' t x x' : median l = Some x -> median (l' ++ [t]) = Some x' -> x <= t ->
  l = l' \/ (exists y, l = y :: l') -> x <= x'.
Proof.
  intros E E' Ht Hl. destruct (median_count l x x E) as [Hc _]. apply (median_count (l' ++ [t]) x' x E').
  rewrite count_ge_app, length_app. cbn [length]. rewrite (count_ge_all x [t]) by by repeat constructor. cbn [length].
  assert (length l = length l' /\ count_ge x l = count_ge x l' \/ length l = S (length l') /\ count_ge x l <= S (count_ge x l'))%nat as Hcase.
  { destruct Hl as [->|[y ->]]; [by left|right]. split; [done|]. unfold count_ge. cbn. destruct (x <=? y); cbn; lia. }
  pose proof (Nat.div_mod_eq (length l) 2). pose proof (Nat.div_mod_eq (length l' + 1) 2).
  pose proof (Nat.mod_upper_bound (length l) 2). pose proof (Nat.mod_upper_bound (length l' + 1) 2). lia.
Qed.

(** ** The window of times *)

Lemma GetMedianTimePast_median (h : heap) p : GetMedianTimePast h p =
  (l ← median_times h nMedianTimeSpan (Some p) []; match median l with Some t => Ok t | None => Err Chain.out_of_range end).
Proof. done. Qed.

Lemma median_times_step (h : heap) n p acc : median_times h (S n) (Some p) acc =
  (b ← deref h p; median_times h n (CBlockIndex.pprev b) (CBlockIndex.GetBlockTime b :: acc)).
Proof. done. Qed.

Section window.
Context (h : heap).

Lemma median_times_app n p acc acc' r : median_times h n p acc = Ok r -> median_times h n p (acc ++ acc') = Ok (r ++ acc').
Proof.
  revert p acc r. induction n as [|n IH]; intros p acc r; cbn [median_times]; [by intros [= <-]|].
  destruct p as [p|]; [|by intros [= <-]]. unfold deref. destruct (h !! p) as [b|]; [|done]. cbn [mbind result_bind]. apply (IH _ (_ :: acc)).
Qed.

Lemma median_times_pred n p acc r : median_times h (S n) p acc = Ok r ->
  exists r', median_times h n p acc = Ok r' /\ (r = r' \/ exists y, r = y :: r').
Proof.
  revert p acc r. induction n as [|n IH]; intros p acc r.
  - cbn [median_times]. destruct p as [p|]; [|intros [= <-]; exists acc; auto]. unfold deref. destruct (h !! p) as [b|]; [|done].
    intros [= <-]. exists acc. split; [done|]. right. by eexists.
  - intros E. destruct p as [p|]; [|injection E as <-; exists acc; auto]. revert E. cbn [median_times]. unfold deref.
    destruct (h !! p) as [b|]; [|done]. cbn [mbind result_bind]. apply IH.
Qed.

Lemma median_times_insert q e n p acc r : h !! q = None -> median_times h n p acc = Ok r -> median_times (<[q := e]> h) n p acc = Ok r.
Proof.
  intros Hq. revert p acc r. induction n as [|n IH]; intros p acc r; cbn [median_times]; [done|]. destruct p as [p|]; [|done].
  unfold deref. destruct (h !! p) as [b|] eqn:E; [|done]. rewrite lookup_insert_ne by congruence. rewrite E. cbn [mbind result_bind]. apply IH.
Qed.

(** The next entry of the chain, with a time above the median: the median does not fall. *)
Lemma median_time_mono p q e x : h !! q = None -> CBlockIndex.pprev e = Some p -> GetMedianTimePast h p = Ok x ->
  x <= CBlockIndex.GetBlockTime e -> exists x', GetMedianTimePast (<[q := e]> h) q = Ok x' /\ x <= x'.
Proof.
  intros Hq Hp E Ht. rewrite GetMedianTimePast_median in *. change nMedianTimeSpan with (S 10) in *.
  destruct (median_times h (S 10) (Some p) []) as [l|] eqn:El; [|done]. cbn [mbind result_bind] in E.
  destruct (median l) as [y|] eqn:Em; [|done]. injection E as ->.
  destruct (median_times_pred _ _ _ _ El) as (l' & El' & Hl).
  assert (median_times (<[q := e]> h) (S 10) (Some q) [] = Ok (l' ++ [CBlockIndex.GetBlockTime e])) as ->.
  { rewrite median_times_step. assert (deref (<[q := e]> h) q = Ok e) as -> by (unfold deref; by rewrite lookup_insert_eq). cbn [mbind result_bind]. rewrite Hp.
    apply (median_times_insert q e 10); [done|]. exact (median_times_app 10 (Some p) [] [CBlockIndex.GetBlockTime e] l' El'). }
  destruct (median_some (l' ++ [CBlockIndex.GetBlockTime e])) as [x' Ex']; [by destruct l'|]. exists x'. cbn [mbind result_bind]. rewrite Ex'. split; [done|].
  by eapply median_mono.
Qed.
End window.

(** ** Accepted headers *)

(** The entry of a header after [p]. *)
Definition entry_of (block : CBlockHeader) (p : N) (e : CBlockIndex.t) : Prop :=
  CBlockIndex.pprev e = Some p /\ CBlockIndex.nTime e = Header.nTime block.

Lemma header_inv {B} {lib : BigNumLib B} be h params block f p now s s' :
  ContextualCheckBlockHeader (lib := lib) be h params block f (Some p) now s = (Ok tt, s') ->
  exists prev required med, h !! p = Some prev /\ GetNextTargetRequired (lib := lib) be h params (Some p) f = Ok required /\
    GetMedianTimePast h p = Ok med /\
    (10000 < CBlockIndex.nHeight prev + 1 -> nBits block = required) /\
    med < Header.nTime block /\ CBlockIndex.nTime prev <= Header.nTime block + nMaxClockDrift /\ Header.nTime block <= i64 (now + nMaxClockDrift) /\
    (auxpow block <> None -> Params.MMHeight params <= CBlockIndex.nHeight prev + 1).
Proof.
  unfold ContextualCheckBlockHeader. intros H. apply check_bind_ok in H as (n & s1 & E1 & H). cbn [height_after] in E1.
  unfold deref in *. destruct (h !! p) as [prev|] eqn:Ep; [|done]. injection E1 as <- <-.
  apply check_bind_ok in H as (req & s2 & E2 & H). destruct (GetNextTargetRequired be h params (Some p) f) as [req'|] eqn:Er; [|done]. injection E2 as -> ->.
  apply check_bind_ok in H as ([] & s3 & E3 & H). apply check_bind_ok in H as (p' & s4 & E4 & H). injection E4 as <- <-.
  rewrite Ep in H. apply check_bind_ok in H as (prev' & s5 & E5 & H). injection E5 as <- <-.
  apply check_bind_ok in H as (med & s6 & E6 & H). destruct (GetMedianTimePast h p) as [med'|] eqn:Em; [|done]. injection E6 as -> ->.
  apply check_bind_ok in H as ([] & s7 & E7 & H). apply check_bind_ok in H as ([] & s8 & E8 & H). apply check_bind_ok in H as ([] & s9 & E9 & H).
  unfold reject_if, Header.GetBlockTime, CBlockIndex.GetBlockTime in *.
  destruct (_ || _) eqn:B7 in E7; [done|]. destruct (_ >? _) eqn:B8 in E8; [done|]. destruct (_ && _) eqn:B10 in H; [done|].
  apply orb_false_elim in B7 as [B7 B7']. rewrite Z.gtb_ltb in B8. apply Z.leb_gt in B7. apply Z.ltb_ge in B7', B8.
  exists prev, req, med. split_and!; try done.
  - intros Hh. rewrite Z.gtb_ltb, (proj2 (Z.ltb_lt _ _)) in E3 by lia. destruct (Z.eqb_spec (nBits block) req); [done|]. done.
  - intros Ha. apply andb_false_iff in B10 as [B10|B10]; [|by apply Z.ltb_ge in B10]. apply bool_decide_eq_false in B10.
    destruct (auxpow block); [|done]. destruct B10. by eexists.
Qed.

(** C32: accepted headers keep the clock of lock times running.  If
    [ContextualCheckBlockHeader] accepts a header after block [p], its time is above the
    median time past of [p] and at most two hours ahead of the adjusted time, its bits are
    the required ones (beyond height 10000), and in the chain extended by its entry the
    median time past does not fall.  So a transaction that is final for the block after
    [p], with its lock time measured in blocks or in median time, stays final for every
    later block. *)
Theorem accepted_header_keeps_locks (B : Type) (lib : BigNumLib B) (be : bool) (h : heap) (params : Params.t) (block : CBlockHeader)
    (f : bool) (p q : N) (prev e : CBlockIndex.t) (now : Z) (s s' : CValidationState.t * unit) :
  ContextualCheckBlockHeader (lib := lib) be h params block f (Some p) now s = (Ok tt, s') ->
  h !! p = Some prev -> h !! q = None -> entry_of block p e -> 0 <= now < 2 ^ 62 ->
  exists med med', GetMedianTimePast h p = Ok med /\ GetMedianTimePast (<[q := e]> h) q = Ok med' /\
    med < Header.nTime block <= now + nMaxClockDrift /\ med <= med' /\
    (10000 < CBlockIndex.nHeight prev + 1 -> GetNextTargetRequired (lib := lib) be h params (Some p) f = Ok (nBits block)) /\
    (forall tx, IsFinalTx tx (CBlockIndex.nHeight prev + 1) med = true -> IsFinalTx tx (CBlockIndex.nHeight prev + 2) med' = true).
Proof.
  intros H Hp Hq [Hpp Ht] Hnow. apply header_inv in H as (prev0 & req & med & Hp' & Er & Em & Hbits & H1 & _ & H2 & _).
  rewrite Hp in Hp'. injection Hp' as <-. unfold nMaxClockDrift in *. rewrite swrap_small in H2 by (unfold is_s; lia).
  destruct (median_time_mono h p q e med Hq Hpp Em) as (med' & Em' & Hle); [unfold CBlockIndex.GetBlockTime; lia|].
  exists med, med'. split_and!; try done; try lia.
  - intros Hh. by rewrite Er, (Hbits Hh).
  - intros tx. unfold IsFinalTx. destruct (nLockTime tx =? 0); [done|].
    destruct (nLockTime tx <? LOCKTIME_THRESHOLD);
      (case_bool; [intros _; rewrite (proj2 (Z.ltb_lt _ _)) by lia; done|intros ->; by destruct (_ <? _)]).
Qed.

(** The sample chain of four blocks, and the header of a fifth. *)
Lemma accepted_header_keeps_locks_witness :
  exists med med', GetMedianTimePast sample_chain 3%N = Ok med /\
    GetMedianTimePast (<[9%N := chain_block 4 1600000200 (Some 3%N)]> sample_chain) 9%N = Ok med' /\ med <= med'.
Proof.
  destruct (accepted_header_keeps_locks Z integer_lib false sample_chain sample_params
    (Header.mk 4 (replicate 32 4) (SetNull 32) 1600000200 0x1d00ffff 0 0x1000 (SetNull 32) None None 0) false 3%N 9%N
    (chain_block 3 1600000130 (Some 2%N)) (chain_block 4 1600000200 (Some 3%N)) 1600000300 (CValidationState.new, tt) (CValidationState.new, tt))
    as (med & med' & H1 & H2 & _ & H3 & _); [vm_compute; reflexivity|reflexivity|reflexivity|by split|lia|].
  exists med, med'. auto.
Defined.
