(* ===== verification/HashStream.v ===== *)
(** * HashStream: hashing a message that arrives in pieces

    The four hash classes of [src/src/crypto/] ([CSHA1], [CSHA256], [CSHA512],
    [CRIPEMD160]) have the same members [s], [buf] and [bytes] and the same [Write], but for
    the size of a block and the function [Transform]; the section below models that code
    once, and the files of the classes instantiate it.  An object that was given the bytes
    [m], in whatever pieces, represents [m] ([represents]); the chaining value after the
    padding is the fold of [Transform] over the blocks of the padded message. *)
From S2P Require Import Prelude Endian.

(** An object of one of the classes. *)
Record hasher := Hasher {
  hs_s : list Z;      (* the chaining value *)
  hs_buf : list Z;    (* the bytes of an incomplete block *)
  hs_bytes : Z        (* the number of bytes written, uint64_t *)
}.

(** An assignment to a local variable in a long sequence of statements.  It is the function
    call it stands for, kept from being unfolded so that the value is not copied to every use
    of the variable. *)
Definition assign {A : Type} (e : Z) (rest : Z -> A) : A := rest e.

Declare Scope hash_scope.
Notation "'put' x := e 'in' rest" := (assign e (fun x => rest))
  (at level 10, x name, e at level 200, rest at level 200,
   format "'put'  x  :=  e  'in' '//' rest") : hash_scope.
#[global] Open Scope hash_scope.

Lemma assign_intro {A} (e : Z) (f : Z -> A) (r : A) :
  (forall x, x = e -> f x = r) -> assign e f = r.
Proof. intros H. by apply H. Qed.

(** [memcpy(buf + off, data, n)]. *)
Definition memcpy_at (buf : list Z) (off : nat) (data : list Z) (n : nat) : list Z :=
  take off buf ++ take n data ++ drop (off + n) buf.

Section stream.
Variable B : nat.
Variable Transform : list Z -> list Z -> list Z.

(** The loop [while (end >= data + B)], with the data left as its second argument; each
    round consumes [B] bytes, so [length data] rounds are enough. *)
Fixpoint write_chunks (fuel : nat) (s : list Z) (bytes : Z) (data : list Z) : list Z * Z * list Z :=
  match fuel with
  | O => (s, bytes, data)
  | S fuel' =>
      if (B <=? length data)%nat
      then write_chunks fuel' (Transform s data) (u64 (bytes + Z.of_nat B)) (drop B data)
      else (s, bytes, data)
  end.

Definition Write (h : hasher) (data : list Z) : hasher :=
  let bufsize := Z.to_nat (hs_bytes h mod Z.of_nat B) in
  let '(s, buf, bytes, data, bufsize) :=
    if negb (bufsize =? 0)%nat && (B <=? bufsize + length data)%nat
    then
      (* Fill the buffer, and process it. *)
      let buf := memcpy_at (hs_buf h) bufsize data (B - bufsize) in
      (Transform (hs_s h) buf, buf, u64 (hs_bytes h + Z.of_nat (B - bufsize)),
       drop (B - bufsize) data, O)
    else (hs_s h, hs_buf h, hs_bytes h, data, bufsize) in
  (* Process full chunks directly from the source. *)
  let '(s, bytes, data) := write_chunks (length data) s bytes data in
  if (0 <? length data)%nat
  then
    (* Fill the buffer with what remains. *)
    Hasher s (memcpy_at buf bufsize data (length data)) (u64 (bytes + Z.of_nat (length data)))
  else Hasher s buf bytes.

(** ** The reference: whole blocks of a message *)

Fixpoint absorb (k : nat) (s data : list Z) : list Z :=
  match k with
  | O => s
  | S k' => absorb k' (Transform s (take B data)) (drop B data)
  end.

(** The chaining value after the whole blocks of [m]. *)
Definition absorbed (s0 m : list Z) : list Z := absorb (length m / B) s0 m.

(** An object started at [s0] that was given [m]. *)
Definition represents (s0 : list Z) (h : hasher) (m : list Z) : Prop :=
  hs_s h = absorbed s0 m
  /\ take (length m mod B) (hs_buf h) = drop (length m / B * B) m
  /\ length (hs_buf h) = B
  /\ hs_bytes h = u64 (Z.of_nat (length m)).
End stream.

(** The array [pad], and the padding of a message of [len] bytes before the [L] bytes of its
    size: a byte 0x80 and the fewest zeros that complete a block. *)
Definition pad_array (B : nat) : list Z := 0x80 :: replicate (B - 1) 0.

Definition padding (B L len : nat) : list Z :=
  0x80 :: replicate ((B - (len + 1 + L) mod B) mod B) 0.

(** What the stream relies on: [Transform] reads one block, and the size of a block divides
    the range of the counter. *)
Class BlockFunction (B : nat) (Transform : list Z -> list Z -> list Z) : Prop := {
  bf_pos : B <> O;
  bf_div : (Z.of_nat B | 2 ^ 64);
  bf_take : forall s l, Transform s (take B l) = Transform s l
}.

(** ** Facts *)

Lemma uwrap_add_l w x y : uwrap w (uwrap w x + y) = uwrap w (x + y).
Proof. unfold uwrap. by rewrite Zplus_mod_idemp_l. Qed.

Lemma length_memcpy_at buf off data n : (off + n <= length buf)%nat -> (n <= length data)%nat ->
  length (memcpy_at buf off data n) = length buf.
Proof. intros. unfold memcpy_at. rewrite !length_app, !length_take, length_drop. lia. Qed.

Lemma take_memcpy_at buf off data n : (off <= length buf)%nat -> (n <= length data)%nat ->
  take (off + n) (memcpy_at buf off data n) = take off buf ++ take n data.
Proof.
  intros. unfold memcpy_at. rewrite (assoc_L (++)). apply take_app_length'.
  rewrite length_app, !length_take. lia.
Qed.

(** The number of zeros, as the code computes it. *)
Lemma padding_length B L len : (B <> 0)%nat -> (L < B)%nat ->
  (2 * Z.of_nat B - 1 - Z.of_nat L - Z.of_nat len mod Z.of_nat B) mod Z.of_nat B
  = Z.of_nat ((B - (len + 1 + L) mod B) mod B).
Proof.
  intros HB HL. pose proof (Nat.mod_upper_bound (len + 1 + L) B HB).
  rewrite Nat2Z.inj_mod, Nat2Z.inj_sub, Nat2Z.inj_mod, !Nat2Z.inj_add by lia.
  set (b := Z.of_nat B). set (n := Z.of_nat len). set (l := Z.of_nat L).
  rewrite Zminus_mod_idemp_r, (Zminus_mod_idemp_r b).
  replace (2 * b - 1 - l - n) with (b - (n + Z.of_nat 1 + l) + 1 * b) by lia.
  by rewrite Z.mod_add by lia.
Qed.

(** The padded message consists of whole blocks, and no shorter padding would do. *)
Lemma padding_whole B L len : (B <> 0)%nat ->
  ((len + length (padding B L len) + L) mod B = 0
   /\ length (padding B L len) <= B)%nat.
Proof.
  intros HB. unfold padding. cbn [length]. rewrite length_replicate.
  pose proof (Nat.mod_upper_bound (len + 1 + L) B HB) as H1.
  set (r := ((len + 1 + L) mod B)%nat) in *.
  pose proof (Nat.mod_upper_bound (B - r) B HB).
  split; [|lia].
  replace (len + S ((B - r) mod B) + L)%nat with (len + 1 + L + (B - r) mod B)%nat by lia.
  rewrite Nat.Div0.add_mod_idemp_r, Nat.Div0.add_mod.
  fold r. rewrite <- Nat.Div0.add_mod_idemp_l.
  replace ((len + 1 + L) mod B)%nat with r by done.
  rewrite Nat.Div0.add_mod_idemp_l, Nat.Div0.add_mod_idemp_r.
  replace (r + (B - r))%nat with B by lia. apply Nat.Div0.mod_same.
Qed.

Section facts.
Context (B : nat) (Transform : list Z -> list Z -> list Z) `{!BlockFunction B Transform}.
Abbreviation absorb := (absorb B Transform).
Abbreviation absorbed := (absorbed B Transform).
Abbreviation represents := (represents B Transform).

Lemma absorb_add j k s l : absorb (j + k) s l = absorb k (absorb j s l) (drop (j * B) l).
Proof.
  revert s l. induction j as [|j IH]; intros s l; [done|].
  cbn [Nat.add HashStream.absorb]. rewrite IH, drop_drop. by f_equal.
Qed.

Lemma absorb_app k s l r : (k * B <= length l)%nat -> absorb k s (l ++ r) = absorb k s l.
Proof.
  revert s l. induction k as [|k IH]; intros s l Hk; [done|].
  cbn [HashStream.absorb]. rewrite take_app_le, drop_app_le by lia.
  apply IH. rewrite length_drop. lia.
Qed.

(** Whole blocks first, then the rest. *)
Lemma absorbed_app s l r : (length l mod B = 0)%nat ->
  absorbed s (l ++ r) = absorbed (absorbed s l) r.
Proof using BlockFunction0.
  pose proof bf_pos. intros Hl. unfold HashStream.absorbed.
  assert (length l = length l / B * B)%nat as E by (pose proof (Nat.div_mod_eq (length l) B); lia).
  rewrite length_app, E at 1. rewrite Nat.add_comm, Nat.div_add, Nat.add_comm, absorb_add by done.
  rewrite absorb_app by lia. rewrite <- E, drop_app_length. done.
Qed.

Lemma absorbed_short s l : (length l < B)%nat -> absorbed s l = s.
Proof. intros H. unfold HashStream.absorbed. by rewrite Nat.div_small. Qed.

Lemma absorbed_one s l : length l = B -> absorbed s l = Transform s l.
Proof using BlockFunction0.
  pose proof bf_pos. intros Hl. unfold HashStream.absorbed. rewrite Hl, Nat.div_same by done.
  cbn [HashStream.absorb]. by rewrite bf_take.
Qed.

Lemma u64_mod_B x : u64 x mod Z.of_nat B = x mod Z.of_nat B.
Proof using BlockFunction0.
  pose proof bf_pos. destruct bf_div as [q Hq]. unfold uwrap. rewrite Hq.
  rewrite Z.mul_comm, Z.rem_mul_r by nia.
  rewrite Z.mul_comm, Z.mod_add by lia. by rewrite Z.mod_mod by lia.
Qed.

(** The loop takes the whole blocks and leaves the rest. *)
Lemma write_chunks_spec fuel s bytes data : (length data <= fuel)%nat -> bytes = u64 bytes ->
  write_chunks B Transform fuel s bytes data
  = (absorbed s data, u64 (bytes + Z.of_nat (length data / B * B)), drop (length data / B * B) data).
Proof using BlockFunction0.
  pose proof bf_pos as HB. revert s bytes data. induction fuel as [|fuel IH]; intros s bytes data Hf Hb.
  - destruct data; [|simpl in *; lia]. simpl. rewrite Nat.Div0.div_0_l. simpl.
    by rewrite absorbed_short, Z.add_0_r, <- Hb by (simpl; lia).
  - cbn [write_chunks]. destruct (Nat.leb_spec B (length data)) as [Hle|Hlt].
    + rewrite IH by (first [rewrite length_drop; lia | by rewrite uwrap_uwrap]).
      assert (length data / B = S (length (drop B data) / B))%nat as E.
      { rewrite length_drop. replace (length data) with (length data - B + 1 * B)%nat at 1 by lia.
        rewrite Nat.div_add by done. lia. }
      rewrite E. f_equal; [f_equal|].
      * unfold HashStream.absorbed at 2. rewrite E. cbn [HashStream.absorb]. by rewrite bf_take.
      * rewrite (uwrap_add_l 64). f_equal. lia.
      * by rewrite drop_drop.
    + rewrite Nat.div_small by done. simpl. by rewrite absorbed_short, Z.add_0_r, <- Hb.
Qed.

Lemma mod_div_parts n : (n = n / B * B + n mod B)%nat.
Proof. rewrite (Nat.div_mod_eq n B) at 1. lia. Qed.

(** Bytes that do not fill the block go to the buffer. *)
Lemma represents_tail s0 s buf bytes m r : represents s0 (Hasher s buf bytes) m ->
  (length m mod B + length r < B)%nat ->
  represents s0 (Hasher s (memcpy_at buf (length m mod B) r (length r))
                   (u64 (bytes + Z.of_nat (length r)))) (m ++ r).
Proof using BlockFunction0.
  pose proof bf_pos as HB. intros (Hs & Hb & Hl & Hn) Hr. simpl in *.
  assert ((length m + length r) / B = length m / B)%nat as Ed.
  { symmetry. apply (Nat.div_unique _ _ _ (length m mod B + length r)); [done|].
    pose proof (mod_div_parts (length m)). lia. }
  assert ((length m + length r) mod B = length m mod B + length r)%nat as Em.
  { pose proof (mod_div_parts (length m + length r)). pose proof (mod_div_parts (length m)).
    rewrite Ed in *. lia. }
  assert (length m / B * B <= length m)%nat by (pose proof (mod_div_parts (length m)); lia).
  split_and!; simpl; rewrite ?length_app, ?Ed, ?Em.
  - unfold HashStream.absorbed. rewrite length_app, Ed, absorb_app by done. done.
  - rewrite take_memcpy_at, Hb, take_ge by lia. by rewrite drop_app_le.
  - rewrite length_memcpy_at by lia. done.
  - rewrite Hn, (uwrap_add_l 64), Nat2Z.inj_add. done.
Qed.

(** Whole blocks after whole blocks leave the buffer as it is. *)
Lemma represents_blocks s0 s buf bytes m r : represents s0 (Hasher s buf bytes) m ->
  (length m mod B = 0)%nat -> (length r mod B = 0)%nat ->
  represents s0 (Hasher (absorbed s r) buf (u64 (bytes + Z.of_nat (length r)))) (m ++ r).
Proof using BlockFunction0.
  pose proof bf_pos as HB. intros (Hs & Hb & Hl & Hn) Hm Hr. simpl in *.
  assert ((length m + length r) mod B = 0)%nat as E.
  { rewrite Nat.Div0.add_mod, Hm, Hr. simpl. by rewrite Nat.Div0.mod_0_l. }
  split_and!; simpl; rewrite ?length_app; try done.
  - by rewrite absorbed_app, Hs.
  - rewrite E. pose proof (mod_div_parts (length m + length r)) as P.
    rewrite E, Nat.add_0_r in P. rewrite <- P, drop_ge by (rewrite length_app; lia). done.
  - rewrite Hn, (uwrap_add_l 64), Nat2Z.inj_add. done.
Qed.

(** Filling the buffer and processing it. *)
Lemma represents_fill s0 s buf bytes m r :
  represents s0 (Hasher s buf bytes) m -> (length m mod B <> 0)%nat ->
  length r = (B - length m mod B)%nat ->
  let buf' := memcpy_at buf (length m mod B) r (length r) in
  represents s0 (Hasher (Transform s buf') buf' (u64 (bytes + Z.of_nat (length r)))) (m ++ r).
Proof using BlockFunction0.
  pose proof bf_pos as HB. intros (Hs & Hb & Hl & Hn) Hm Hr buf'. simpl in *.
  pose proof (Nat.mod_upper_bound (length m) B HB). pose proof (mod_div_parts (length m)).
  assert (length buf' = B) as Hl' by (unfold buf'; rewrite length_memcpy_at by lia; done).
  assert (buf' = drop (length m / B * B) m ++ r) as Eb.
  { rewrite <- (take_ge buf' B) by lia. unfold buf'.
    replace B with (length m mod B + length r)%nat at 1 by lia.
    rewrite take_memcpy_at, Hb by lia. by rewrite (take_ge r). }
  set (q := (length m / B * B)%nat) in *.
  assert (length (take q m) mod B = 0)%nat as Eq.
  { rewrite length_take_le by lia. apply Nat.Div0.mod_mul. }
  assert (absorbed s0 m = absorbed s0 (take q m)) as Em.
  { rewrite <- (take_drop q m) at 1. rewrite absorbed_app by done.
    apply absorbed_short. rewrite length_drop. lia. }
  assert (absorbed s0 (m ++ r) = Transform s buf') as Ea.
  { rewrite <- (take_drop q m) at 1. rewrite <- (assoc_L (++)), <- Eb, absorbed_app by done.
    by rewrite absorbed_one, Hs, Em. }
  assert (length m + length r = (length m / B + 1) * B)%nat as El by lia.
  split_and!; simpl; rewrite ?length_app; try done.
  - rewrite El, Nat.Div0.mod_mul, Nat.div_mul, <- El, drop_ge by (rewrite ?length_app; lia). done.
  - rewrite Hn, (uwrap_add_l 64), Nat2Z.inj_add. done.
Qed.

(** The loop and what follows it, once the buffer is empty or cannot be filled. *)
Lemma write_rest s0 s buf bytes m data : represents s0 (Hasher s buf bytes) m ->
  (length m mod B = 0 \/ length m mod B + length data < B)%nat ->
  represents s0
    (let '(s, bytes, data) := write_chunks B Transform (length data) s bytes data in
     if (0 <? length data)%nat
     then Hasher s (memcpy_at buf (length m mod B) data (length data))
            (u64 (bytes + Z.of_nat (length data)))
     else Hasher s buf bytes) (m ++ data).
Proof using BlockFunction0.
  pose proof bf_pos as HB. intros Hh Hc. pose proof Hh as (_ & _ & _ & Hn). simpl in Hn.
  rewrite write_chunks_spec by (rewrite ?Hn, ?uwrap_uwrap; done).
  set (q := (length data / B * B)%nat).
  pose proof (mod_div_parts (length data)) as Hp. pose proof (Nat.mod_upper_bound (length data) B HB).
  assert (represents s0 (Hasher (absorbed s data) buf (u64 (bytes + Z.of_nat q))) (m ++ take q data)
    /\ (length (m ++ take q data) mod B = length m mod B)%nat
    /\ (length m mod B + length (drop q data) < B)%nat) as (Hq & Hm & Hd).
  { destruct Hc as [Hc|Hc].
    - assert (length (take q data) mod B = 0)%nat as Eq.
      { rewrite length_take_le by lia. apply Nat.Div0.mod_mul. }
      assert (absorbed s data = absorbed s (take q data)) as ->.
      { rewrite <- (take_drop q data) at 1. rewrite absorbed_app by done.
        apply absorbed_short. rewrite length_drop. lia. }
      split_and!.
      + replace (Z.of_nat q) with (Z.of_nat (length (take q data))) by (rewrite length_take_le; lia).
        by apply represents_blocks.
      + rewrite length_app, Nat.Div0.add_mod, Hc, Eq. simpl. apply Nat.Div0.mod_0_l.
      + rewrite Hc, length_drop. lia.
    - assert (length data < B)%nat by lia.
      assert (q = 0)%nat as -> by (unfold q; rewrite Nat.div_small by done; lia).
      rewrite absorbed_short by done. simpl. rewrite Z.add_0_r, app_nil_r, Hn, uwrap_uwrap, <- Hn.
      done. }
  pose proof (represents_tail _ _ _ _ _ (drop q data) Hq) as Ht. rewrite Hm in Ht.
  specialize (Ht Hd). rewrite <- (assoc_L (++)), take_drop in Ht.
  destruct (Nat.ltb_spec 0 (length (drop q data))) as [|H0]; [done|].
  apply Nat.le_0_r, nil_length_inv in H0. rewrite H0 in Ht. simpl in Ht.
  assert (take q data = data) as Et by (rewrite <- (take_drop q data) at 2; by rewrite H0, app_nil_r).
  by rewrite Et in Hq.
Qed.

(** What one [Write] adds, whatever was written before and however much it is given. *)
Lemma Write_represents s0 h m data : represents s0 h m ->
  represents s0 (Write B Transform h data) (m ++ data).
Proof using BlockFunction0.
  pose proof bf_pos as HB. intros Hh. pose proof Hh as (Hs & Hb & Hl & Hn). destruct h as [s buf bytes].
  simpl in *. unfold Write. cbn [hs_s hs_buf hs_bytes].
  assert (Z.to_nat (bytes mod Z.of_nat B) = length m mod B)%nat as ->.
  { rewrite Hn, u64_mod_B, <- Nat2Z.inj_mod, Nat2Z.id. done. }
  pose proof (Nat.mod_upper_bound (length m) B HB).
  destruct (Nat.eqb_spec (length m mod B) 0) as [E|E]; cbn [negb andb].
  { apply write_rest; [done|by left]. }
  destruct (Nat.leb_spec B (length m mod B + length data)) as [Hle|Hlt].
  2:{ apply write_rest; [done|by right]. }
  set (k := (B - length m mod B)%nat).
  assert (length (take k data) = k) as Ek by (rewrite length_take_le; lia).
  pose proof (represents_fill _ _ _ _ _ (take k data) Hh E Ek) as Hf. cbn zeta in Hf.
  rewrite Ek in Hf.
  assert (memcpy_at buf (length m mod B) (take k data) k = memcpy_at buf (length m mod B) data k)
    as Em by (unfold memcpy_at; by rewrite take_take, Nat.min_id).
  rewrite Em in Hf.
  assert (length (m ++ take k data) mod B = 0)%nat as E0.
  { rewrite length_app, Ek. pose proof (mod_div_parts (length m)).
    replace (length m + k)%nat with ((length m / B + 1) * B)%nat by lia. apply Nat.Div0.mod_mul. }
  replace (m ++ data) with ((m ++ take k data) ++ drop k data)
    by (by rewrite <- (assoc_L (++)), take_drop).
  pose proof (write_rest _ _ _ _ _ (drop k data) Hf (or_introl E0)) as R. by rewrite E0 in R.
Qed.

(** Any sequence of writes. *)
Lemma Writes_represent s0 h m pieces : represents s0 h m ->
  represents s0 (fold_left (Write B Transform) pieces h) (m ++ concat pieces).
Proof using BlockFunction0.
  revert h m. induction pieces as [|p ps IH]; intros h m Hh; simpl; [by rewrite app_nil_r|].
  rewrite (assoc_L (++)). by apply IH, Write_represents.
Qed.

Lemma represents_start s0 buf : length buf = B -> represents s0 (Hasher s0 buf 0) [].
Proof using BlockFunction0.
  pose proof bf_pos. intros Hb.
  split_and!; cbn [hs_s hs_buf hs_bytes length]; [|by rewrite Nat.Div0.mod_0_l, drop_nil|done|done].
  by rewrite absorbed_short by (simpl; lia).
Qed.

(** The end of [Finalize]: the bytes of the array [pad] up to the place of the size, then the
    size itself. *)
Lemma represents_padding s0 h m L size : represents s0 h m -> length size = L -> (L < B)%nat ->
  let n := 1 + (2 * Z.of_nat B - 1 - Z.of_nat L - hs_bytes h mod Z.of_nat B) mod Z.of_nat B in
  represents s0
    (Write B Transform (Write B Transform h (take (Z.to_nat n) (pad_array B))) size)
    (m ++ padding B L (length m) ++ size).
Proof using BlockFunction0.
  pose proof bf_pos as HB. intros Hh Hs HL n. rewrite (assoc_L (++)).
  apply Write_represents. pose proof Hh as (_ & _ & _ & Hn).
  assert (take (Z.to_nat n) (pad_array B) = padding B L (length m)) as ->; [|by apply Write_represents].
  unfold padding, pad_array, n. rewrite Hn, u64_mod_B, padding_length by lia.
  rewrite <- (Nat2Z.inj_add 1), Nat2Z.id, Nat.add_1_l, firstn_cons, take_replicate.
  do 2 f_equal. pose proof (Nat.mod_upper_bound (B - (length m + 1 + L) mod B) B HB). lia.
Qed.
End facts.

(** Two functions that agree on blocks of bytes give the same fold. *)
Section agree.
Context (B n : nat) (T step : list Z -> list Z -> list Z).
Hypothesis B_pos : B <> O.
Hypothesis agree : forall s l, length s = n -> Forall is_byte l -> length l = B -> T s l = step s l.
Hypothesis step_len : forall s l, length s = n -> length (step s l) = n.

Lemma absorb_agree k s l : length s = n -> Forall is_byte l -> (k * B <= length l)%nat ->
  absorb B T k s l = absorb B step k s l /\ length (absorb B T k s l) = n.
Proof using All.
  revert s l. induction k as [|k IH]; intros s l Hs Hl Hk; [done|]. cbn [absorb].
  rewrite agree by (rewrite ?length_take_le; auto using Forall_take; lia).
  apply IH; [by apply step_len|by apply Forall_drop|]. rewrite length_drop. lia.
Qed.

Lemma absorbed_agree s p : length s = n -> Forall is_byte p ->
  absorbed B T s p = absorbed B step s p /\ length (absorbed B T s p) = n.
Proof using All.
  intros Hs Hp. apply absorb_agree; [done|done|].
  rewrite Nat.mul_comm. by apply Nat.Div0.mul_div_le.
Qed.
End agree.

Lemma padding_bytes B L len : Forall is_byte (padding B L len).
Proof. constructor; [done|]. by apply Forall_replicate. Qed.

(** The size of the message, as the code computes it, in bits modulo [2^64]. *)
Lemma size_bits n : u64 (Z.shiftl (u64 n) 3) = u64 (8 * n).
Proof.
  unfold uwrap. rewrite Z.shiftl_mul_pow2, Z.mul_mod_idemp_l by lia. f_equal. lia.
Qed.

(** Reading a word depends on its bytes only. *)
Lemma take_drop_take {A} (l : list A) n i k : (i + k <= n)%nat ->
  take k (drop i (take n l)) = take k (drop i l).
Proof. intros H. rewrite skipn_firstn_comm, take_take. f_equal. lia. Qed.
