(* ===== verification/Sha2.v ===== *)
(** * Sha2: SHA-256 and SHA-512

    Models [src/src/crypto/sha256.h/.cpp] and [src/src/crypto/sha512.h/.cpp].  The reference
    is the standard, FIPS 180-4: its functions and its schedule of words for both widths, and
    its constants, which it defines as the first bits of the fractional parts of the square
    and cube roots of the first primes and which are computed here from that definition.  The
    code keeps the eight working variables in place and renames them from round to round, and
    keeps sixteen words of the schedule; [Transform] translates its unrolled rounds one by
    one.  The theorems show that objects given a message in any pieces end with the digest of
    the standard. *)
From S2P Require Import Prelude Endian HashStream.

(** ** The standard *)

Section fips.
Variable w : Z.                                (* the width of words *)
Variables Sig0 Sig1 sig0 sig1 : Z -> Z.
Variable K : list Z.

Definition fips_Ch (x y z : Z) : Z := Z.lxor (Z.land x y) (Z.land (Z.lnot x) z).
Definition fips_Maj (x y z : Z) : Z := Z.lxor (Z.lxor (Z.land x y) (Z.land x z)) (Z.land y z).

(** Step 3 of the computation: one round on [a, ..., h]. *)
Definition fips_round (k wt : Z) (st : list Z) : list Z :=
  match st with
  | [a; b; c; d; e; f; g; h] =>
      let T1 := uwrap w (h + Sig1 e + fips_Ch e f g + k + wt) in
      let T2 := uwrap w (Sig0 a + fips_Maj a b c) in
      [uwrap w (T1 + T2); a; b; c; uwrap w (d + T1); e; f; g]
  | _ => st
  end.

Fixpoint fips_rounds (ks ws st : list Z) : list Z :=
  match ks, ws with
  | k :: ks', wt :: ws' => fips_rounds ks' ws' (fips_round k wt st)
  | _, _ => st
  end.

(** The words that follow the sixteen of [win]:
    W_t = sig1 (W_(t-2)) + W_(t-7) + sig0 (W_(t-15)) + W_(t-16). *)
Fixpoint fips_schedule (n : nat) (win : list Z) : list Z :=
  match n with
  | O => []
  | S n' =>
      let wt := uwrap w (sig1 (win !!! 14%nat) + win !!! 9%nat + sig0 (win !!! 1%nat)
                         + win !!! 0%nat) in
      wt :: fips_schedule n' (drop 1 win ++ [wt])
  end.

Definition add_words (x y : list Z) : list Z := zip_with (fun a b => uwrap w (a + b)) x y.

(** The hash computation for one block, given as sixteen words. *)
Definition fips_block (H M : list Z) : list Z :=
  add_words H (fips_rounds K (M ++ fips_schedule (length K - 16) M) H).
End fips.

(** The numbers from 2 on that no smaller number from 2 on divides. *)
Definition primeb (n : Z) : bool :=
  forallb (fun d => negb (n mod d =? 0)) (seqZ 2 (n - 2)).
Definition primes_upto (n : Z) : list Z := List.filter primeb (seqZ 2 (n - 1)).

(** The integer cube root of [n], bit by bit. *)
Fixpoint icbrt (bits : nat) (acc n : Z) : Z :=
  match bits with
  | O => acc
  | S b => let c := acc + 2 ^ Z.of_nat b in icbrt b (if c * c * c <=? n then c else acc) n
  end.

(** The first [w] bits of the fractional parts of the square root and the cube root. *)
Definition frac_sqrt (w p : Z) : Z := Z.sqrt (p * 2 ^ (2 * w)) mod 2 ^ w.
Definition frac_cbrt (w p : Z) : Z := icbrt (Z.to_nat (w + 8)) 0 (p * 2 ^ (3 * w)) mod 2 ^ w.

(** The words of a block, most significant byte first. *)
Fixpoint be_words (wb n : nat) (l : list Z) : list Z :=
  match n with
  | O => []
  | S n' => le_val (reverse (take wb l)) :: be_words wb n' (drop wb l)
  end.

(** The padded message; the size is a number of bits in two words. *)
Definition fips_pad (wb : nat) (m : list Z) : list Z :=
  m ++ padding (16 * wb) (2 * wb) (length m)
    ++ reverse (le_bytes (2 * wb) (8 * Z.of_nat (length m))).

(** The message digest: the blocks of the padded message, folded. *)
Definition fips_digest (wb : nat) (block : list Z -> list Z -> list Z) (H0 m : list Z) : list Z :=
  concat (map (fun x => reverse (le_bytes wb x))
    (absorbed (16 * wb) (fun H l => block H (be_words wb 16 l)) H0 (fips_pad wb m))).

Definition ROTR (w n x : Z) : Z := Z.lor (Z.shiftr x n) (uwrap w (Z.shiftl x (w - n))).
Definition SHR (n x : Z) : Z := Z.shiftr x n.
Definition xor3 (a b c : Z) : Z := Z.lxor (Z.lxor a b) c.

Definition fips256 : list Z -> list Z -> list Z :=
  fips_block 32
    (fun x => xor3 (ROTR 32 2 x) (ROTR 32 13 x) (ROTR 32 22 x))
    (fun x => xor3 (ROTR 32 6 x) (ROTR 32 11 x) (ROTR 32 25 x))
    (fun x => xor3 (ROTR 32 7 x) (ROTR 32 18 x) (SHR 3 x))
    (fun x => xor3 (ROTR 32 17 x) (ROTR 32 19 x) (SHR 10 x))
    (map (frac_cbrt 32) (primes_upto 311)).

Definition fips512 : list Z -> list Z -> list Z :=
  fips_block 64
    (fun x => xor3 (ROTR 64 28 x) (ROTR 64 34 x) (ROTR 64 39 x))
    (fun x => xor3 (ROTR 64 14 x) (ROTR 64 18 x) (ROTR 64 41 x))
    (fun x => xor3 (ROTR 64 1 x) (ROTR 64 8 x) (SHR 7 x))
    (fun x => xor3 (ROTR 64 19 x) (ROTR 64 61 x) (SHR 6 x))
    (map (frac_cbrt 64) (primes_upto 409)).

Definition SHA256 (m : list Z) : list Z :=
  fips_digest 4 fips256 (map (frac_sqrt 32) (primes_upto 19)) m.
Definition SHA512 (m : list Z) : list Z :=
  fips_digest 8 fips512 (map (frac_sqrt 64) (primes_upto 19)) m.

(** ** crypto/sha256.cpp *)

Module sha256.
Definition Ch (x y z : Z) : Z := Z.lxor z (Z.land x (Z.lxor y z)).
Definition Maj (x y z : Z) : Z := Z.lor (Z.land x y) (Z.land z (Z.lor x y)).
Definition Sigma0 (x : Z) : Z :=
  Z.lxor (Z.lxor (Z.lor (Z.shiftr x 2) (u32 (Z.shiftl x 30))) (Z.lor (Z.shiftr x 13) (u32 (Z.shiftl x 19))))
    (Z.lor (Z.shiftr x 22) (u32 (Z.shiftl x 10))).
Definition Sigma1 (x : Z) : Z :=
  Z.lxor (Z.lxor (Z.lor (Z.shiftr x 6) (u32 (Z.shiftl x 26))) (Z.lor (Z.shiftr x 11) (u32 (Z.shiftl x 21))))
    (Z.lor (Z.shiftr x 25) (u32 (Z.shiftl x 7))).
Definition sigma0 (x : Z) : Z :=
  Z.lxor (Z.lxor (Z.lor (Z.shiftr x 7) (u32 (Z.shiftl x 25))) (Z.lor (Z.shiftr x 18) (u32 (Z.shiftl x 14))))
    (Z.shiftr x 3).
Definition sigma1 (x : Z) : Z :=
  Z.lxor (Z.lxor (Z.lor (Z.shiftr x 17) (u32 (Z.shiftl x 15))) (Z.lor (Z.shiftr x 19) (u32 (Z.shiftl x 13))))
    (Z.shiftr x 10).

(** One round; the references [d] and [h] are returned. *)
Definition Round (a b c d e f g h k w : Z) : Z * Z :=
  let t1 := u32 (h + Sigma1 e + Ch e f g + k + w) in
  let t2 := u32 (Sigma0 a + Maj a b c) in
  (u32 (d + t1), u32 (t1 + t2)).

Definition Initialize : list Z :=
  [0x6a09e667; 0xbb67ae85; 0x3c6ef372; 0xa54ff53a; 0x510e527f; 0x9b05688c; 0x1f83d9ab; 0x5be0cd19].

(** [s] is an array of eight words; [chunk] points to a block. *)
Definition Transform (be : bool) (s chunk : list Z) : list Z :=
  match s with
  | [s0; s1; s2; s3; s4; s5; s6; s7] =>
      let '(a, b, c, d, e, f, g, h) := (s0, s1, s2, s3, s4, s5, s6, s7) in
      put w0 := ReadBE32 be (drop 0 chunk) in
      let '(d, h) := Round a b c d e f g h 0x428a2f98 w0 in
      put w1 := ReadBE32 be (drop 4 chunk) in
      let '(c, g) := Round h a b c d e f g 0x71374491 w1 in
      put w2 := ReadBE32 be (drop 8 chunk) in
      let '(b, f) := Round g h a b c d e f 0xb5c0fbcf w2 in
      put w3 := ReadBE32 be (drop 12 chunk) in
      let '(a, e) := Round f g h a b c d e 0xe9b5dba5 w3 in
      put w4 := ReadBE32 be (drop 16 chunk) in
      let '(h, d) := Round e f g h a b c d 0x3956c25b w4 in
      put w5 := ReadBE32 be (drop 20 chunk) in
      let '(g, c) := Round d e f g h a b c 0x59f111f1 w5 in
      put w6 := ReadBE32 be (drop 24 chunk) in
      let '(f, b) := Round c d e f g h a b 0x923f82a4 w6 in
      put w7 := ReadBE32 be (drop 28 chunk) in
      let '(e, a) := Round b c d e f g h a 0xab1c5ed5 w7 in
      put w8 := ReadBE32 be (drop 32 chunk) in
      let '(d, h) := Round a b c d e f g h 0xd807aa98 w8 in
      put w9 := ReadBE32 be (drop 36 chunk) in
      let '(c, g) := Round h a b c d e f g 0x12835b01 w9 in
      put w10 := ReadBE32 be (drop 40 chunk) in
      let '(b, f) := Round g h a b c d e f 0x243185be w10 in
      put w11 := ReadBE32 be (drop 44 chunk) in
      let '(a, e) := Round f g h a b c d e 0x550c7dc3 w11 in
      put w12 := ReadBE32 be (drop 48 chunk) in
      let '(h, d) := Round e f g h a b c d 0x72be5d74 w12 in
      put w13 := ReadBE32 be (drop 52 chunk) in
      let '(g, c) := Round d e f g h a b c 0x80deb1fe w13 in
      put w14 := ReadBE32 be (drop 56 chunk) in
      let '(f, b) := Round c d e f g h a b 0x9bdc06a7 w14 in
      put w15 := ReadBE32 be (drop 60 chunk) in
      let '(e, a) := Round b c d e f g h a 0xc19bf174 w15 in
      put w0 := u32 (w0 + (sigma1 w14 + w9 + sigma0 w1)) in
      let '(d, h) := Round a b c d e f g h 0xe49b69c1 w0 in
      put w1 := u32 (w1 + (sigma1 w15 + w10 + sigma0 w2)) in
      let '(c, g) := Round h a b c d e f g 0xefbe4786 w1 in
      put w2 := u32 (w2 + (sigma1 w0 + w11 + sigma0 w3)) in
      let '(b, f) := Round g h a b c d e f 0x0fc19dc6 w2 in
      put w3 := u32 (w3 + (sigma1 w1 + w12 + sigma0 w4)) in
      let '(a, e) := Round f g h a b c d e 0x240ca1cc w3 in
      put w4 := u32 (w4 + (sigma1 w2 + w13 + sigma0 w5)) in
      let '(h, d) := Round e f g h a b c d 0x2de92c6f w4 in
      put w5 := u32 (w5 + (sigma1 w3 + w14 + sigma0 w6)) in
      let '(g, c) := Round d e f g h a b c 0x4a7484aa w5 in
      put w6 := u32 (w6 + (sigma1 w4 + w15 + sigma0 w7)) in
      let '(f, b) := Round c d e f g h a b 0x5cb0a9dc w6 in
      put w7 := u32 (w7 + (sigma1 w5 + w0 + sigma0 w8)) in
      let '(e, a) := Round b c d e f g h a 0x76f988da w7 in
      put w8 := u32 (w8 + (sigma1 w6 + w1 + sigma0 w9)) in
      let '(d, h) := Round a b c d e f g h 0x983e5152 w8 in
      put w9 := u32 (w9 + (sigma1 w7 + w2 + sigma0 w10)) in
      let '(c, g) := Round h a b c d e f g 0xa831c66d w9 in
      put w10 := u32 (w10 + (sigma1 w8 + w3 + sigma0 w11)) in
      let '(b, f) := Round g h a b c d e f 0xb00327c8 w10 in
      put w11 := u32 (w11 + (sigma1 w9 + w4 + sigma0 w12)) in
      let '(a, e) := Round f g h a b c d e 0xbf597fc7 w11 in
      put w12 := u32 (w12 + (sigma1 w10 + w5 + sigma0 w13)) in
      let '(h, d) := Round e f g h a b c d 0xc6e00bf3 w12 in
      put w13 := u32 (w13 + (sigma1 w11 + w6 + sigma0 w14)) in
      let '(g, c) := Round d e f g h a b c 0xd5a79147 w13 in
      put w14 := u32 (w14 + (sigma1 w12 + w7 + sigma0 w15)) in
      let '(f, b) := Round c d e f g h a b 0x06ca6351 w14 in
      put w15 := u32 (w15 + (sigma1 w13 + w8 + sigma0 w0)) in
      let '(e, a) := Round b c d e f g h a 0x14292967 w15 in
      put w0 := u32 (w0 + (sigma1 w14 + w9 + sigma0 w1)) in
      let '(d, h) := Round a b c d e f g h 0x27b70a85 w0 in
      put w1 := u32 (w1 + (sigma1 w15 + w10 + sigma0 w2)) in
      let '(c, g) := Round h a b c d e f g 0x2e1b2138 w1 in
      put w2 := u32 (w2 + (sigma1 w0 + w11 + sigma0 w3)) in
      let '(b, f) := Round g h a b c d e f 0x4d2c6dfc w2 in
      put w3 := u32 (w3 + (sigma1 w1 + w12 + sigma0 w4)) in
      let '(a, e) := Round f g h a b c d e 0x53380d13 w3 in
      put w4 := u32 (w4 + (sigma1 w2 + w13 + sigma0 w5)) in
      let '(h, d) := Round e f g h a b c d 0x650a7354 w4 in
      put w5 := u32 (w5 + (sigma1 w3 + w14 + sigma0 w6)) in
      let '(g, c) := Round d e f g h a b c 0x766a0abb w5 in
      put w6 := u32 (w6 + (sigma1 w4 + w15 + sigma0 w7)) in
      let '(f, b) := Round c d e f g h a b 0x81c2c92e w6 in
      put w7 := u32 (w7 + (sigma1 w5 + w0 + sigma0 w8)) in
      let '(e, a) := Round b c d e f g h a 0x92722c85 w7 in
      put w8 := u32 (w8 + (sigma1 w6 + w1 + sigma0 w9)) in
      let '(d, h) := Round a b c d e f g h 0xa2bfe8a1 w8 in
      put w9 := u32 (w9 + (sigma1 w7 + w2 + sigma0 w10)) in
      let '(c, g) := Round h a b c d e f g 0xa81a664b w9 in
      put w10 := u32 (w10 + (sigma1 w8 + w3 + sigma0 w11)) in
      let '(b, f) := Round g h a b c d e f 0xc24b8b70 w10 in
      put w11 := u32 (w11 + (sigma1 w9 + w4 + sigma0 w12)) in
      let '(a, e) := Round f g h a b c d e 0xc76c51a3 w11 in
      put w12 := u32 (w12 + (sigma1 w10 + w5 + sigma0 w13)) in
      let '(h, d) := Round e f g h a b c d 0xd192e819 w12 in
      put w13 := u32 (w13 + (sigma1 w11 + w6 + sigma0 w14)) in
      let '(g, c) := Round d e f g h a b c 0xd6990624 w13 in
      put w14 := u32 (w14 + (sigma1 w12 + w7 + sigma0 w15)) in
      let '(f, b) := Round c d e f g h a b 0xf40e3585 w14 in
      put w15 := u32 (w15 + (sigma1 w13 + w8 + sigma0 w0)) in
      let '(e, a) := Round b c d e f g h a 0x106aa070 w15 in
      put w0 := u32 (w0 + (sigma1 w14 + w9 + sigma0 w1)) in
      let '(d, h) := Round a b c d e f g h 0x19a4c116 w0 in
      put w1 := u32 (w1 + (sigma1 w15 + w10 + sigma0 w2)) in
      let '(c, g) := Round h a b c d e f g 0x1e376c08 w1 in
      put w2 := u32 (w2 + (sigma1 w0 + w11 + sigma0 w3)) in
      let '(b, f) := Round g h a b c d e f 0x2748774c w2 in
      put w3 := u32 (w3 + (sigma1 w1 + w12 + sigma0 w4)) in
      let '(a, e) := Round f g h a b c d e 0x34b0bcb5 w3 in
      put w4 := u32 (w4 + (sigma1 w2 + w13 + sigma0 w5)) in
      let '(h, d) := Round e f g h a b c d 0x391c0cb3 w4 in
      put w5 := u32 (w5 + (sigma1 w3 + w14 + sigma0 w6)) in
      let '(g, c) := Round d e f g h a b c 0x4ed8aa4a w5 in
      put w6 := u32 (w6 + (sigma1 w4 + w15 + sigma0 w7)) in
      let '(f, b) := Round c d e f g h a b 0x5b9cca4f w6 in
      put w7 := u32 (w7 + (sigma1 w5 + w0 + sigma0 w8)) in
      let '(e, a) := Round b c d e f g h a 0x682e6ff3 w7 in
      put w8 := u32 (w8 + (sigma1 w6 + w1 + sigma0 w9)) in
      let '(d, h) := Round a b c d e f g h 0x748f82ee w8 in
      put w9 := u32 (w9 + (sigma1 w7 + w2 + sigma0 w10)) in
      let '(c, g) := Round h a b c d e f g 0x78a5636f w9 in
      put w10 := u32 (w10 + (sigma1 w8 + w3 + sigma0 w11)) in
      let '(b, f) := Round g h a b c d e f 0x84c87814 w10 in
      put w11 := u32 (w11 + (sigma1 w9 + w4 + sigma0 w12)) in
      let '(a, e) := Round f g h a b c d e 0x8cc70208 w11 in
      put w12 := u32 (w12 + (sigma1 w10 + w5 + sigma0 w13)) in
      let '(h, d) := Round e f g h a b c d 0x90befffa w12 in
      put w13 := u32 (w13 + (sigma1 w11 + w6 + sigma0 w14)) in
      let '(g, c) := Round d e f g h a b c 0xa4506ceb w13 in
      let '(f, b) := Round c d e f g h a b 0xbef9a3f7 (u32 (w14 + sigma1 w12 + w7 + sigma0 w15)) in
      let '(e, a) := Round b c d e f g h a 0xc67178f2 (u32 (w15 + sigma1 w13 + w8 + sigma0 w0)) in
      [u32 (s0 + a); u32 (s1 + b); u32 (s2 + c); u32 (s3 + d);
       u32 (s4 + e); u32 (s5 + f); u32 (s6 + g); u32 (s7 + h)]
  | _ => s
  end.
End sha256.

Module CSHA256.
Definition OUTPUT_SIZE : nat := 32.

(** The constructor; [buf] is what the memory of the buffer held. *)
Definition new (buf : list Z) : hasher := Hasher sha256.Initialize buf 0.

Definition Write (be : bool) : hasher -> list Z -> hasher := HashStream.Write 64 (sha256.Transform be).

Definition Finalize (be : bool) (h : hasher) : hasher * list Z :=
  let sizedesc := WriteBE64 be (u64 (Z.shiftl (hs_bytes h) 3)) in
  let h := Write be h (take (Z.to_nat (1 + (119 - hs_bytes h mod 64) mod 64)) (pad_array 64)) in
  let h := Write be h sizedesc in
  (h, match hs_s h with
      | [s0; s1; s2; s3; s4; s5; s6; s7] =>
          WriteBE32 be s0 ++
          WriteBE32 be s1 ++
          WriteBE32 be s2 ++
          WriteBE32 be s3 ++
          WriteBE32 be s4 ++
          WriteBE32 be s5 ++
          WriteBE32 be s6 ++
          WriteBE32 be s7
      | _ => []
      end).

Definition Reset (h : hasher) : hasher := Hasher sha256.Initialize (hs_buf h) 0.
End CSHA256.

(** ** crypto/sha512.cpp *)

Module sha512.
Definition Ch (x y z : Z) : Z := Z.lxor z (Z.land x (Z.lxor y z)).
Definition Maj (x y z : Z) : Z := Z.lor (Z.land x y) (Z.land z (Z.lor x y)).
Definition Sigma0 (x : Z) : Z :=
  Z.lxor (Z.lxor (Z.lor (Z.shiftr x 28) (u64 (Z.shiftl x 36))) (Z.lor (Z.shiftr x 34) (u64 (Z.shiftl x 30))))
    (Z.lor (Z.shiftr x 39) (u64 (Z.shiftl x 25))).
Definition Sigma1 (x : Z) : Z :=
  Z.lxor (Z.lxor (Z.lor (Z.shiftr x 14) (u64 (Z.shiftl x 50))) (Z.lor (Z.shiftr x 18) (u64 (Z.shiftl x 46))))
    (Z.lor (Z.shiftr x 41) (u64 (Z.shiftl x 23))).
Definition sigma0 (x : Z) : Z :=
  Z.lxor (Z.lxor (Z.lor (Z.shiftr x 1) (u64 (Z.shiftl x 63))) (Z.lor (Z.shiftr x 8) (u64 (Z.shiftl x 56))))
    (Z.shiftr x 7).
Definition sigma1 (x : Z) : Z :=
  Z.lxor (Z.lxor (Z.lor (Z.shiftr x 19) (u64 (Z.shiftl x 45))) (Z.lor (Z.shiftr x 61) (u64 (Z.shiftl x 3))))
    (Z.shiftr x 6).

(** One round; the references [d] and [h] are returned. *)
Definition Round (a b c d e f g h k w : Z) : Z * Z :=
  let t1 := u64 (h + Sigma1 e + Ch e f g + k + w) in
  let t2 := u64 (Sigma0 a + Maj a b c) in
  (u64 (d + t1), u64 (t1 + t2)).

Definition Initialize : list Z :=
  [0x6a09e667f3bcc908; 0xbb67ae8584caa73b; 0x3c6ef372fe94f82b; 0xa54ff53a5f1d36f1; 0x510e527fade682d1; 0x9b05688c2b3e6c1f; 0x1f83d9abfb41bd6b; 0x5be0cd19137e2179].

(** [s] is an array of eight words; [chunk] points to a block. *)
Definition Transform (be : bool) (s chunk : list Z) : list Z :=
  match s with
  | [s0; s1; s2; s3; s4; s5; s6; s7] =>
      let '(a, b, c, d, e, f, g, h) := (s0, s1, s2, s3, s4, s5, s6, s7) in
      put w0 := ReadBE64 be (drop 0 chunk) in
      let '(d, h) := Round a b c d e f g h 0x428a2f98d728ae22 w0 in
      put w1 := ReadBE64 be (drop 8 chunk) in
      let '(c, g) := Round h a b c d e f g 0x7137449123ef65cd w1 in
      put w2 := ReadBE64 be (drop 16 chunk) in
      let '(b, f) := Round g h a b c d e f 0xb5c0fbcfec4d3b2f w2 in
      put w3 := ReadBE64 be (drop 24 chunk) in
      let '(a, e) := Round f g h a b c d e 0xe9b5dba58189dbbc w3 in
      put w4 := ReadBE64 be (drop 32 chunk) in
      let '(h, d) := Round e f g h a b c d 0x3956c25bf348b538 w4 in
      put w5 := ReadBE64 be (drop 40 chunk) in
      let '(g, c) := Round d e f g h a b c 0x59f111f1b605d019 w5 in
      put w6 := ReadBE64 be (drop 48 chunk) in
      let '(f, b) := Round c d e f g h a b 0x923f82a4af194f9b w6 in
      put w7 := ReadBE64 be (drop 56 chunk) in
      let '(e, a) := Round b c d e f g h a 0xab1c5ed5da6d8118 w7 in
      put w8 := ReadBE64 be (drop 64 chunk) in
      let '(d, h) := Round a b c d e f g h 0xd807aa98a3030242 w8 in
      put w9 := ReadBE64 be (drop 72 chunk) in
      let '(c, g) := Round h a b c d e f g 0x12835b0145706fbe w9 in
      put w10 := ReadBE64 be (drop 80 chunk) in
      let '(b, f) := Round g h a b c d e f 0x243185be4ee4b28c w10 in
      put w11 := ReadBE64 be (drop 88 chunk) in
      let '(a, e) := Round f g h a b c d e 0x550c7dc3d5ffb4e2 w11 in
      put w12 := ReadBE64 be (drop 96 chunk) in
      let '(h, d) := Round e f g h a b c d 0x72be5d74f27b896f w12 in
      put w13 := ReadBE64 be (drop 104 chunk) in
      let '(g, c) := Round d e f g h a b c 0x80deb1fe3b1696b1 w13 in
      put w14 := ReadBE64 be (drop 112 chunk) in
      let '(f, b) := Round c d e f g h a b 0x9bdc06a725c71235 w14 in
      put w15 := ReadBE64 be (drop 120 chunk) in
      let '(e, a) := Round b c d e f g h a 0xc19bf174cf692694 w15 in
      put w0 := u64 (w0 + (sigma1 w14 + w9 + sigma0 w1)) in
      let '(d, h) := Round a b c d e f g h 0xe49b69c19ef14ad2 w0 in
      put w1 := u64 (w1 + (sigma1 w15 + w10 + sigma0 w2)) in
      let '(c, g) := Round h a b c d e f g 0xefbe4786384f25e3 w1 in
      put w2 := u64 (w2 + (sigma1 w0 + w11 + sigma0 w3)) in
      let '(b, f) := Round g h a b c d e f 0x0fc19dc68b8cd5b5 w2 in
      put w3 := u64 (w3 + (sigma1 w1 + w12 + sigma0 w4)) in
      let '(a, e) := Round f g h a b c d e 0x240ca1cc77ac9c65 w3 in
      put w4 := u64 (w4 + (sigma1 w2 + w13 + sigma0 w5)) in
      let '(h, d) := Round e f g h a b c d 0x2de92c6f592b0275 w4 in
      put w5 := u64 (w5 + (sigma1 w3 + w14 + sigma0 w6)) in
      let '(g, c) := Round d e f g h a b c 0x4a7484aa6ea6e483 w5 in
      put w6 := u64 (w6 + (sigma1 w4 + w15 + sigma0 w7)) in
      let '(f, b) := Round c d e f g h a b 0x5cb0a9dcbd41fbd4 w6 in
      put w7 := u64 (w7 + (sigma1 w5 + w0 + sigma0 w8)) in
      let '(e, a) := Round b c d e f g h a 0x76f988da831153b5 w7 in
      put w8 := u64 (w8 + (sigma1 w6 + w1 + sigma0 w9)) in
      let '(d, h) := Round a b c d e f g h 0x983e5152ee66dfab w8 in
      put w9 := u64 (w9 + (sigma1 w7 + w2 + sigma0 w10)) in
      let '(c, g) := Round h a b c d e f g 0xa831c66d2db43210 w9 in
      put w10 := u64 (w10 + (sigma1 w8 + w3 + sigma0 w11)) in
      let '(b, f) := Round g h a b c d e f 0xb00327c898fb213f w10 in
      put w11 := u64 (w11 + (sigma1 w9 + w4 + sigma0 w12)) in
      let '(a, e) := Round f g h a b c d e 0xbf597fc7beef0ee4 w11 in
      put w12 := u64 (w12 + (sigma1 w10 + w5 + sigma0 w13)) in
      let '(h, d) := Round e f g h a b c d 0xc6e00bf33da88fc2 w12 in
      put w13 := u64 (w13 + (sigma1 w11 + w6 + sigma0 w14)) in
      let '(g, c) := Round d e f g h a b c 0xd5a79147930aa725 w13 in
      put w14 := u64 (w14 + (sigma1 w12 + w7 + sigma0 w15)) in
      let '(f, b) := Round c d e f g h a b 0x06ca6351e003826f w14 in
      put w15 := u64 (w15 + (sigma1 w13 + w8 + sigma0 w0)) in
      let '(e, a) := Round b c d e f g h a 0x142929670a0e6e70 w15 in
      put w0 := u64 (w0 + (sigma1 w14 + w9 + sigma0 w1)) in
      let '(d, h) := Round a b c d e f g h 0x27b70a8546d22ffc w0 in
      put w1 := u64 (w1 + (sigma1 w15 + w10 + sigma0 w2)) in
      let '(c, g) := Round h a b c d e f g 0x2e1b21385c26c926 w1 in
      put w2 := u64 (w2 + (sigma1 w0 + w11 + sigma0 w3)) in
      let '(b, f) := Round g h a b c d e f 0x4d2c6dfc5ac42aed w2 in
      put w3 := u64 (w3 + (sigma1 w1 + w12 + sigma0 w4)) in
      let '(a, e) := Round f g h a b c d e 0x53380d139d95b3df w3 in
      put w4 := u64 (w4 + (sigma1 w2 + w13 + sigma0 w5)) in
      let '(h, d) := Round e f g h a b c d 0x650a73548baf63de w4 in
      put w5 := u64 (w5 + (sigma1 w3 + w14 + sigma0 w6)) in
      let '(g, c) := Round d e f g h a b c 0x766a0abb3c77b2a8 w5 in
      put w6 := u64 (w6 + (sigma1 w4 + w15 + sigma0 w7)) in
      let '(f, b) := Round c d e f g h a b 0x81c2c92e47edaee6 w6 in
      put w7 := u64 (w7 + (sigma1 w5 + w0 + sigma0 w8)) in
      let '(e, a) := Round b c d e f g h a 0x92722c851482353b w7 in
      put w8 := u64 (w8 + (sigma1 w6 + w1 + sigma0 w9)) in
      let '(d, h) := Round a b c d e f g h 0xa2bfe8a14cf10364 w8 in
      put w9 := u64 (w9 + (sigma1 w7 + w2 + sigma0 w10)) in
      let '(c, g) := Round h a b c d e f g 0xa81a664bbc423001 w9 in
      put w10 := u64 (w10 + (sigma1 w8 + w3 + sigma0 w11)) in
      let '(b, f) := Round g h a b c d e f 0xc24b8b70d0f89791 w10 in
      put w11 := u64 (w11 + (sigma1 w9 + w4 + sigma0 w12)) in
      let '(a, e) := Round f g h a b c d e 0xc76c51a30654be30 w11 in
      put w12 := u64 (w12 + (sigma1 w10 + w5 + sigma0 w13)) in
      let '(h, d) := Round e f g h a b c d 0xd192e819d6ef5218 w12 in
      put w13 := u64 (w13 + (sigma1 w11 + w6 + sigma0 w14)) in
      let '(g, c) := Round d e f g h a b c 0xd69906245565a910 w13 in
      put w14 := u64 (w14 + (sigma1 w12 + w7 + sigma0 w15)) in
      let '(f, b) := Round c d e f g h a b 0xf40e35855771202a w14 in
      put w15 := u64 (w15 + (sigma1 w13 + w8 + sigma0 w0)) in
      let '(e, a) := Round b c d e f g h a 0x106aa07032bbd1b8 w15 in
      put w0 := u64 (w0 + (sigma1 w14 + w9 + sigma0 w1)) in
      let '(d, h) := Round a b c d e f g h 0x19a4c116b8d2d0c8 w0 in
      put w1 := u64 (w1 + (sigma1 w15 + w10 + sigma0 w2)) in
      let '(c, g) := Round h a b c d e f g 0x1e376c085141ab53 w1 in
      put w2 := u64 (w2 + (sigma1 w0 + w11 + sigma0 w3)) in
      let '(b, f) := Round g h a b c d e f 0x2748774cdf8eeb99 w2 in
      put w3 := u64 (w3 + (sigma1 w1 + w12 + sigma0 w4)) in
      let '(a, e) := Round f g h a b c d e 0x34b0bcb5e19b48a8 w3 in
      put w4 := u64 (w4 + (sigma1 w2 + w13 + sigma0 w5)) in
      let '(h, d) := Round e f g h a b c d 0x391c0cb3c5c95a63 w4 in
      put w5 := u64 (w5 + (sigma1 w3 + w14 + sigma0 w6)) in
      let '(g, c) := Round d e f g h a b c 0x4ed8aa4ae3418acb w5 in
      put w6 := u64 (w6 + (sigma1 w4 + w15 + sigma0 w7)) in
      let '(f, b) := Round c d e f g h a b 0x5b9cca4f7763e373 w6 in
      put w7 := u64 (w7 + (sigma1 w5 + w0 + sigma0 w8)) in
      let '(e, a) := Round b c d e f g h a 0x682e6ff3d6b2b8a3 w7 in
      put w8 := u64 (w8 + (sigma1 w6 + w1 + sigma0 w9)) in
      let '(d, h) := Round a b c d e f g h 0x748f82ee5defb2fc w8 in
      put w9 := u64 (w9 + (sigma1 w7 + w2 + sigma0 w10)) in
      let '(c, g) := Round h a b c d e f g 0x78a5636f43172f60 w9 in
      put w10 := u64 (w10 + (sigma1 w8 + w3 + sigma0 w11)) in
      let '(b, f) := Round g h a b c d e f 0x84c87814a1f0ab72 w10 in
      put w11 := u64 (w11 + (sigma1 w9 + w4 + sigma0 w12)) in
      let '(a, e) := Round f g h a b c d e 0x8cc702081a6439ec w11 in
      put w12 := u64 (w12 + (sigma1 w10 + w5 + sigma0 w13)) in
      let '(h, d) := Round e f g h a b c d 0x90befffa23631e28 w12 in
      put w13 := u64 (w13 + (sigma1 w11 + w6 + sigma0 w14)) in
      let '(g, c) := Round d e f g h a b c 0xa4506cebde82bde9 w13 in
      put w14 := u64 (w14 + (sigma1 w12 + w7 + sigma0 w15)) in
      let '(f, b) := Round c d e f g h a b 0xbef9a3f7b2c67915 w14 in
      put w15 := u64 (w15 + (sigma1 w13 + w8 + sigma0 w0)) in
      let '(e, a) := Round b c d e f g h a 0xc67178f2e372532b w15 in
      put w0 := u64 (w0 + (sigma1 w14 + w9 + sigma0 w1)) in
      let '(d, h) := Round a b c d e f g h 0xca273eceea26619c w0 in
      put w1 := u64 (w1 + (sigma1 w15 + w10 + sigma0 w2)) in
      let '(c, g) := Round h a b c d e f g 0xd186b8c721c0c207 w1 in
      put w2 := u64 (w2 + (sigma1 w0 + w11 + sigma0 w3)) in
      let '(b, f) := Round g h a b c d e f 0xeada7dd6cde0eb1e w2 in
      put w3 := u64 (w3 + (sigma1 w1 + w12 + sigma0 w4)) in
      let '(a, e) := Round f g h a b c d e 0xf57d4f7fee6ed178 w3 in
      put w4 := u64 (w4 + (sigma1 w2 + w13 + sigma0 w5)) in
      let '(h, d) := Round e f g h a b c d 0x06f067aa72176fba w4 in
      put w5 := u64 (w5 + (sigma1 w3 + w14 + sigma0 w6)) in
      let '(g, c) := Round d e f g h a b c 0x0a637dc5a2c898a6 w5 in
      put w6 := u64 (w6 + (sigma1 w4 + w15 + sigma0 w7)) in
      let '(f, b) := Round c d e f g h a b 0x113f9804bef90dae w6 in
      put w7 := u64 (w7 + (sigma1 w5 + w0 + sigma0 w8)) in
      let '(e, a) := Round b c d e f g h a 0x1b710b35131c471b w7 in
      put w8 := u64 (w8 + (sigma1 w6 + w1 + sigma0 w9)) in
      let '(d, h) := Round a b c d e f g h 0x28db77f523047d84 w8 in
      put w9 := u64 (w9 + (sigma1 w7 + w2 + sigma0 w10)) in
      let '(c, g) := Round h a b c d e f g 0x32caab7b40c72493 w9 in
      put w10 := u64 (w10 + (sigma1 w8 + w3 + sigma0 w11)) in
      let '(b, f) := Round g h a b c d e f 0x3c9ebe0a15c9bebc w10 in
      put w11 := u64 (w11 + (sigma1 w9 + w4 + sigma0 w12)) in
      let '(a, e) := Round f g h a b c d e 0x431d67c49c100d4c w11 in
      put w12 := u64 (w12 + (sigma1 w10 + w5 + sigma0 w13)) in
      let '(h, d) := Round e f g h a b c d 0x4cc5d4becb3e42b6 w12 in
      put w13 := u64 (w13 + (sigma1 w11 + w6 + sigma0 w14)) in
      let '(g, c) := Round d e f g h a b c 0x597f299cfc657e2a w13 in
      let '(f, b) := Round c d e f g h a b 0x5fcb6fab3ad6faec (u64 (w14 + sigma1 w12 + w7 + sigma0 w15)) in
      let '(e, a) := Round b c d e f g h a 0x6c44198c4a475817 (u64 (w15 + sigma1 w13 + w8 + sigma0 w0)) in
      [u64 (s0 + a); u64 (s1 + b); u64 (s2 + c); u64 (s3 + d);
       u64 (s4 + e); u64 (s5 + f); u64 (s6 + g); u64 (s7 + h)]
  | _ => s
  end.
End sha512.

Module CSHA512.
Definition OUTPUT_SIZE : nat := 64.

(** The constructor; [buf] is what the memory of the buffer held. *)
Definition new (buf : list Z) : hasher := Hasher sha512.Initialize buf 0.

Definition Write (be : bool) : hasher -> list Z -> hasher := HashStream.Write 128 (sha512.Transform be).

Definition Finalize (be : bool) (h : hasher) : hasher * list Z :=
  let sizedesc := replicate 8 0 ++ WriteBE64 be (u64 (Z.shiftl (hs_bytes h) 3)) in
  let h := Write be h (take (Z.to_nat (1 + (239 - hs_bytes h mod 128) mod 128)) (pad_array 128)) in
  let h := Write be h sizedesc in
  (h, match hs_s h with
      | [s0; s1; s2; s3; s4; s5; s6; s7] =>
          WriteBE64 be s0 ++
          WriteBE64 be s1 ++
          WriteBE64 be s2 ++
          WriteBE64 be s3 ++
          WriteBE64 be s4 ++
          WriteBE64 be s5 ++
          WriteBE64 be s6 ++
          WriteBE64 be s7
      | _ => []
      end).

Definition Reset (h : hasher) : hasher := Hasher sha512.Initialize (hs_buf h) 0.
End CSHA512.

(** ** The rounds *)

Lemma Ch_fips x y z : Z.lxor z (Z.land x (Z.lxor y z)) = fips_Ch x y z.
Proof.
  unfold fips_Ch. apply Z.bits_inj'. intros i Hi.
  rewrite !Z.lxor_spec, !Z.land_spec, Z.lxor_spec, Z.lnot_spec by done.
  by destruct (Z.testbit x i), (Z.testbit y i), (Z.testbit z i).
Qed.

Lemma Maj_fips x y z : Z.lor (Z.land x y) (Z.land z (Z.lor x y)) = fips_Maj x y z.
Proof.
  unfold fips_Maj. apply Z.bits_inj'. intros i Hi.
  rewrite !Z.lor_spec, !Z.lxor_spec, !Z.land_spec, Z.lor_spec.
  by destruct (Z.testbit x i), (Z.testbit y i), (Z.testbit z i).
Qed.

(** What one line of [Transform] does: the lines with a word of the block, and those that
    extend the schedule. *)
Section lines.
Context (w : Z) (Sig0 Sig1 sig0 sig1 : Z -> Z).
Abbreviation rounds := (fips_rounds w Sig0 Sig1).
Abbreviation schedule := (fips_schedule w sig0 sig1).

(** The variables that a round assigns, in terms of the standard. *)
Definition round_eq (r : Z * Z) (a b c d e f g h k x : Z) : Prop :=
  fips_round w Sig0 Sig1 k x [a; b; c; d; e; f; g; h] = [r.2; a; b; c; r.1; e; f; g].

Lemma line_word a b c d e f g h k x d' h' ks ws : round_eq (d', h') a b c d e f g h k x ->
  rounds (k :: ks) (x :: ws) [a; b; c; d; e; f; g; h] = rounds ks ws [h'; a; b; c; d'; e; f; g].
Proof. intros HR. cbn [fips_rounds]. by rewrite HR. Qed.

Lemma line_schedule x0 x1 x2 x3 x4 x5 x6 x7 x8 x9 x10 x11 x12 x13 x14 x15 wt n :
  wt = uwrap w (x0 + (sig1 x14 + x9 + sig0 x1)) ->
  schedule (S n) [x0; x1; x2; x3; x4; x5; x6; x7; x8; x9; x10; x11; x12; x13; x14; x15]
  = wt :: schedule n [x1; x2; x3; x4; x5; x6; x7; x8; x9; x10; x11; x12; x13; x14; x15; wt].
Proof.
  intros ->. cbn [fips_schedule drop app]. unfold lookup_total; cbn [list_lookup_total].
  by rewrite (Z.add_comm (_ + _ + _) x0).
Qed.

Lemma line_last x0 x1 x2 x3 x4 x5 x6 x7 x8 x9 x10 x11 x12 x13 x14 x15 wt n :
  wt = uwrap w (x0 + sig1 x14 + x9 + sig0 x1) ->
  schedule (S n) [x0; x1; x2; x3; x4; x5; x6; x7; x8; x9; x10; x11; x12; x13; x14; x15]
  = wt :: schedule n [x1; x2; x3; x4; x5; x6; x7; x8; x9; x10; x11; x12; x13; x14; x15; wt].
Proof. intros ->. apply line_schedule. f_equal. lia. Qed.
End lines.

(** The constants by evaluation; then one line of the code against the rounds of the
    standard, where [lem] says what its [Round] does. *)
Ltac eval_constants t :=
  let l := eval vm_compute in t in replace t with l by (vm_compute; reflexivity).
Ltac run_let :=
  lazymatch goal with
  | |- assign ?e ?f = ?r => refine (assign_intro e f r _); intros ? ?
  end.
Ltac run_round lem :=
  lazymatch goal with
  | |- (match ?R with (_, _) => _ end) = _ =>
      let d := fresh "v" in let h := fresh "v" in let E := fresh "E" in
      destruct R as [d h] eqn:E; apply lem in E; rewrite (line_word _ _ _ _ _ _ _ _ _ _ _ _ _ _ _ _ _ E);
      clear E
  end.
Ltac run_word lem := run_let; subst; run_round lem.
Ltac run_schedule lem :=
  run_let;
  match goal with
  | E : ?x = _ |- _ => rewrite (line_schedule _ _ _ _ _ _ _ _ _ _ _ _ _ _ _ _ _ _ _ _ _ E); clear E
  end;
  run_round lem.
Ltac run_last lem :=
  lazymatch goal with
  | |- (match _ _ _ _ _ _ _ _ _ _ ?x with (_, _) => _ end) = _ =>
      let wt := fresh "wt" in let E := fresh "E" in
      remember x as wt eqn:E;
      rewrite (line_last _ _ _ _ _ _ _ _ _ _ _ _ _ _ _ _ _ _ _ _ _ E); clear E
  end;
  run_round lem.

Lemma length_8 (s : list Z) : length s = 8%nat ->
  exists a b c d e f g h, s = [a; b; c; d; e; f; g; h].
Proof.
  destruct s as [|a [|b [|c [|d [|e [|f [|g [|h [|? ?]]]]]]]]]; try done. intros _. by repeat eexists.
Qed.

Lemma length_fips_block w S0 S1 s0 s1 K H M : length H = 8%nat ->
  length (fips_block w S0 S1 s0 s1 K H M) = 8%nat.
Proof.
  intros HH. unfold fips_block, add_words. rewrite length_zip_with, HH.
  assert (forall ks ws st, length st = 8%nat -> length (fips_rounds w S0 S1 ks ws st) = 8%nat) as Hr.
  { induction ks as [|k ks IH]; intros [|x ws] st Hst; try done. cbn [fips_rounds]. apply IH.
    by apply length_8 in Hst as (? & ? & ? & ? & ? & ? & ? & ? & ->). }
  by rewrite Hr.
Qed.

Lemma sha256_Round_eq a b c d e f g h k x r : sha256.Round a b c d e f g h k x = r ->
  round_eq 32 sha256.Sigma0 sha256.Sigma1 r a b c d e f g h k x.
Proof. intros <-. unfold round_eq, sha256.Round, sha256.Ch, sha256.Maj. by rewrite Ch_fips, Maj_fips. Qed.

(** The sha256_words of the block, as the code reads them. *)
Definition sha256_words (be : bool) (chunk : list Z) : list Z :=
  map (fun i => ReadBE32 be (drop i chunk)) [0; 4; 8; 12; 16; 20; 24; 28; 32; 36; 40; 44; 48; 52; 56; 60]%nat.

Lemma sha256_Transform_rounds be s chunk : length s = 8%nat ->
  sha256.Transform be s chunk = fips256 s (sha256_words be chunk).
Proof.
  intros (s0 & s1 & s2 & s3 & s4 & s5 & s6 & s7 & ->)%length_8.
  unfold fips256, fips_block. eval_constants (map (frac_cbrt 32) (primes_upto 311)). unfold sha256_words. cbn [map app length Nat.sub].
  change (fun x : Z => xor3 (ROTR 32 2 x) (ROTR 32 13 x) (ROTR 32 22 x)) with sha256.Sigma0.
  change (fun x : Z => xor3 (ROTR 32 6 x) (ROTR 32 11 x) (ROTR 32 25 x)) with sha256.Sigma1.
  change (fun x : Z => xor3 (ROTR 32 7 x) (ROTR 32 18 x) (SHR 3 x)) with sha256.sigma0.
  change (fun x : Z => xor3 (ROTR 32 17 x) (ROTR 32 19 x) (SHR 10 x)) with sha256.sigma1.
  cbv beta iota delta [sha256.Transform].
  repeat match goal with |- context [ReadBE32 be ?l] => generalize (ReadBE32 be l); intro end.
  do 16 (run_word sha256_Round_eq). do 46 (run_schedule sha256_Round_eq). do 2 (run_last sha256_Round_eq). reflexivity.
Qed.


Lemma sha512_Round_eq a b c d e f g h k x r : sha512.Round a b c d e f g h k x = r ->
  round_eq 64 sha512.Sigma0 sha512.Sigma1 r a b c d e f g h k x.
Proof. intros <-. unfold round_eq, sha512.Round, sha512.Ch, sha512.Maj. by rewrite Ch_fips, Maj_fips. Qed.

(** The sha512_words of the block, as the code reads them. *)
Definition sha512_words (be : bool) (chunk : list Z) : list Z :=
  map (fun i => ReadBE64 be (drop i chunk)) [0; 8; 16; 24; 32; 40; 48; 56; 64; 72; 80; 88; 96; 104; 112; 120]%nat.

Lemma sha512_Transform_rounds be s chunk : length s = 8%nat ->
  sha512.Transform be s chunk = fips512 s (sha512_words be chunk).
Proof.
  intros (s0 & s1 & s2 & s3 & s4 & s5 & s6 & s7 & ->)%length_8.
  unfold fips512, fips_block. eval_constants (map (frac_cbrt 64) (primes_upto 409)). unfold sha512_words. cbn [map app length Nat.sub].
  change (fun x : Z => xor3 (ROTR 64 28 x) (ROTR 64 34 x) (ROTR 64 39 x)) with sha512.Sigma0.
  change (fun x : Z => xor3 (ROTR 64 14 x) (ROTR 64 18 x) (ROTR 64 41 x)) with sha512.Sigma1.
  change (fun x : Z => xor3 (ROTR 64 1 x) (ROTR 64 8 x) (SHR 7 x)) with sha512.sigma0.
  change (fun x : Z => xor3 (ROTR 64 19 x) (ROTR 64 61 x) (SHR 6 x)) with sha512.sigma1.
  cbv beta iota delta [sha512.Transform].
  repeat match goal with |- context [ReadBE64 be ?l] => generalize (ReadBE64 be l); intro end.
  do 16 (run_word sha512_Round_eq). do 62 (run_schedule sha512_Round_eq). do 2 (run_last sha512_Round_eq). reflexivity.
Qed.


(** ** The objects *)

Lemma be_words_map wb n l :
  be_words wb n l = map (fun i => le_val (reverse (take wb (drop (wb * i) l)))) (seq 0 n).
Proof.
  revert l. induction n as [|n IH]; intros l; [done|]. cbn [be_words seq map].
  rewrite Nat.mul_0_r, drop_0. f_equal. rewrite IH, <- seq_shift, List.map_map.
  apply List.map_ext. intros i. rewrite drop_drop. do 4 f_equal. lia.
Qed.

Lemma sha256_words_val be l : (64 <= length l)%nat -> Forall is_byte l ->
  sha256_words be l = be_words 4 16 l.
Proof.
  intros Hl Hb. rewrite be_words_map.
  change (sha256_words be l) with (map (fun i => ReadBE32 be (drop (4 * i) l)) (seq 0 16)).
  apply List.map_ext_in. intros i Hi%List.in_seq.
  apply ReadBE32_val; [rewrite length_drop; lia|by apply Forall_drop].
Qed.

Lemma sha512_words_val be l : (128 <= length l)%nat -> Forall is_byte l ->
  sha512_words be l = be_words 8 16 l.
Proof.
  intros Hl Hb. rewrite be_words_map.
  change (sha512_words be l) with (map (fun i => ReadBE64 be (drop (8 * i) l)) (seq 0 16)).
  apply List.map_ext_in. intros i Hi%List.in_seq.
  apply ReadBE64_val; [rewrite length_drop; lia|by apply Forall_drop].
Qed.

#[export] Hint Opaque sha256.Transform sha512.Transform : typeclass_instances.

#[export] Instance sha256_block be : BlockFunction 64 (sha256.Transform be).
Proof.
  split; [done|exists (2 ^ 58); by vm_compute|]. intros s l. destruct (decide (length s = 8%nat)) as [Hs|Hs].
  - rewrite !sha256_Transform_rounds by done. apply (f_equal (fips256 s)). unfold sha256_words. cbn [map]. unfold ReadBE32.
    by rewrite !(take_drop_take l 64) by lia.
  - destruct s as [|a [|b [|c [|d [|e [|f [|g [|h [|? ?]]]]]]]]]; first [by destruct Hs | reflexivity].
Qed.

#[export] Instance sha512_block be : BlockFunction 128 (sha512.Transform be).
Proof.
  split; [done|exists (2 ^ 57); by vm_compute|]. intros s l. destruct (decide (length s = 8%nat)) as [Hs|Hs].
  - rewrite !sha512_Transform_rounds by done. apply (f_equal (fips512 s)). unfold sha512_words. cbn [map]. unfold ReadBE64.
    by rewrite !(take_drop_take l 128) by lia.
  - destruct s as [|a [|b [|c [|d [|e [|f [|g [|h [|? ?]]]]]]]]]; first [by destruct Hs | reflexivity].
Qed.

Lemma fips_pad_bytes wb m : Forall is_byte m -> Forall is_byte (fips_pad wb m).
Proof.
  intros Hm. unfold fips_pad. rewrite !Forall_app. split_and!; [done|apply padding_bytes|].
  apply Forall_reverse, le_bytes_bytes.
Qed.

(** The size written is the one of the standard: always for SHA-256, which counts bits modulo
    [2^64] like the code; for SHA-512, which counts them modulo [2^128], below [2^64]. *)
Lemma size_256 be n : WriteBE64 be (u64 (Z.shiftl (u64 n) 3)) = reverse (le_bytes 8 (8 * n)).
Proof. rewrite WriteBE64_bytes, size_bits. f_equal. apply (le_bytes_mod 8). Qed.

Lemma le_bytes_app a b x : le_bytes (a + b) x = le_bytes a x ++ le_bytes b (x / 2 ^ (8 * Z.of_nat a)).
Proof.
  revert x. induction a as [|a IH]; intros x; [simpl; by rewrite Z.div_1_r|].
  cbn [Nat.add le_bytes app]. rewrite IH, pow_8_S, Z.div_div by lia. done.
Qed.

Lemma size_512 be n : 0 <= 8 * n < 2 ^ 64 ->
  replicate 8 0 ++ WriteBE64 be (u64 (Z.shiftl (u64 n) 3)) = reverse (le_bytes 16 (8 * n)).
Proof.
  intros Hn. rewrite size_256, (le_bytes_app 8 8), reverse_app.
  change (8 * Z.of_nat 8) with 64. by rewrite Z.div_small by done.
Qed.

(** What [Finalize] leaves and returns. *)
Lemma CSHA256_Finalize_spec be h m : Forall is_byte m ->
  represents 64 (sha256.Transform be) sha256.Initialize h m ->
  (CSHA256.Finalize be h).2 = SHA256 m.
Proof.
  intros Hm Hh. unfold CSHA256.Finalize. cbn zeta.
  pose proof Hh as (_ & _ & _ & Hn).
  replace (WriteBE64 be (u64 (Z.shiftl (hs_bytes h) 3)))
    with (reverse (le_bytes 8 (8 * Z.of_nat (length m)))) by (by rewrite Hn, size_256).
  pose proof (represents_padding 64 (sha256.Transform be) _ h m 8
    (reverse (le_bytes 8 (8 * Z.of_nat (length m)))) Hh eq_refl ltac:(lia)) as Hp.
  change (2 * Z.of_nat 64 - 1 - Z.of_nat 8) with 119 in Hp. change (Z.of_nat 64) with 64 in Hp.
  cbn zeta in Hp. change (HashStream.Write 64 (sha256.Transform be)) with (CSHA256.Write be) in Hp.
  destruct Hp as (Hs & _). rewrite Hs. clear Hs.
  change (m ++ padding 64 8 (length m) ++ _) with (fips_pad 4 m).
  destruct (absorbed_agree 64 8 (sha256.Transform be) (fun H l => fips256 H (be_words 4 16 l)))
    with (s := sha256.Initialize) (p := fips_pad 4 m) as [E E8];
    [done| | |done|by apply fips_pad_bytes|].
  { intros s l Hs Hl Hb. by rewrite sha256_Transform_rounds, sha256_words_val by (done || lia). }
  { intros. by apply length_fips_block. }
  unfold SHA256, fips_digest. change (16 * 4)%nat with 64%nat. rewrite E in *.
  change (map (frac_sqrt 32) (primes_upto 19)) with sha256.Initialize.
  apply length_8 in E8 as (a & b & c & d & e & f & g & h' & ->).
  rewrite !WriteBE32_bytes. cbn [map concat]. by rewrite app_nil_r.
Qed.

Lemma CSHA512_Finalize_spec be h m : Forall is_byte m -> 8 * Z.of_nat (length m) < 2 ^ 64 ->
  represents 128 (sha512.Transform be) sha512.Initialize h m ->
  (CSHA512.Finalize be h).2 = SHA512 m.
Proof.
  intros Hm Hlen Hh. unfold CSHA512.Finalize. cbn zeta.
  pose proof Hh as (_ & _ & _ & Hn).
  replace (replicate 8 0 ++ WriteBE64 be (u64 (Z.shiftl (hs_bytes h) 3)))
    with (reverse (le_bytes 16 (8 * Z.of_nat (length m)))) by (rewrite Hn, size_512 by lia; done).
  pose proof (represents_padding 128 (sha512.Transform be) _ h m 16
    (reverse (le_bytes 16 (8 * Z.of_nat (length m)))) Hh eq_refl ltac:(lia)) as Hp.
  change (2 * Z.of_nat 128 - 1 - Z.of_nat 16) with 239 in Hp. change (Z.of_nat 128) with 128 in Hp.
  cbn zeta in Hp. change (HashStream.Write 128 (sha512.Transform be)) with (CSHA512.Write be) in Hp.
  destruct Hp as (Hs & _). rewrite Hs. clear Hs.
  change (m ++ padding 128 16 (length m) ++ _) with (fips_pad 8 m).
  destruct (absorbed_agree 128 8 (sha512.Transform be) (fun H l => fips512 H (be_words 8 16 l)))
    with (s := sha512.Initialize) (p := fips_pad 8 m) as [E E8];
    [done| | |done|by apply fips_pad_bytes|].
  { intros s l Hs Hl Hb. by rewrite sha512_Transform_rounds, sha512_words_val by (done || lia). }
  { intros. by apply length_fips_block. }
  unfold SHA512, fips_digest. change (16 * 8)%nat with 128%nat. rewrite E in *.
  change (map (frac_sqrt 64) (primes_upto 19)) with sha512.Initialize.
  apply length_8 in E8 as (a & b & c & d & e & f & g & h' & ->).
  rewrite !WriteBE64_bytes. cbn [map concat]. by rewrite app_nil_r.
Qed.

(** ** Claims *)

(** C27: a [CSHA256] object that is given a message in any pieces, starting with any contents of its
    buffer and on a host of either byte order, returns the digest of FIPS 180-4. *)
Theorem CSHA256_correct be buf pieces : length buf = 64%nat -> Forall (Forall is_byte) pieces ->
  (CSHA256.Finalize be (fold_left (CSHA256.Write be) pieces (CSHA256.new buf))).2
  = SHA256 (concat pieces).
Proof.
  intros Hb Hp. apply CSHA256_Finalize_spec; [by apply Forall_concat|].
  by apply (Writes_represent 64 (sha256.Transform be) _ _ [] pieces), represents_start; [apply _|].
Qed.

Lemma CSHA256_correct_witness :
  (CSHA256.Finalize true (CSHA256.Write true (CSHA256.Write true (CSHA256.new (replicate 64 7)) [97; 98]) [99])).2
  = SHA256 [97; 98; 99]
  /\ SHA256 [97; 98; 99] =
     [186; 120; 22; 191; 143; 1; 207; 234; 65; 65; 64; 222; 93; 174; 34; 35;
      176; 3; 97; 163; 150; 23; 122; 156; 180; 16; 255; 97; 242; 0; 21; 173].
Proof.
  split; [|vm_compute; reflexivity].
  apply (CSHA256_correct true (replicate 64 7) [[97; 98]; [99]]); [reflexivity|by_decide].
Defined.

(** The same for [CSHA512], for messages the 64-bit counter of bits can describe. *)
Theorem CSHA512_correct be buf pieces : length buf = 128%nat -> Forall (Forall is_byte) pieces ->
  8 * Z.of_nat (length (concat pieces)) < 2 ^ 64 ->
  (CSHA512.Finalize be (fold_left (CSHA512.Write be) pieces (CSHA512.new buf))).2
  = SHA512 (concat pieces).
Proof.
  intros Hb Hp Hl. apply CSHA512_Finalize_spec; [by apply Forall_concat|done|].
  by apply (Writes_represent 128 (sha512.Transform be) _ _ [] pieces), represents_start; [apply _|].
Qed.
