(* ===== verification/Ripemd.v ===== *)
(** * Ripemd: RIPEMD-160 and SHA-1

    Models [src/src/crypto/ripemd160.h/.cpp] and [src/src/crypto/sha1.h/.cpp], the two hashes
    with five words of state.  The references are the definition of RIPEMD-160 by its authors
    (two lines of eighty steps whose words, shifts and constants follow from a permutation, a
    table and roots of small primes) and FIPS 180-4 for SHA-1.  The code of RIPEMD-160
    interleaves the two lines, and both rename their variables from step to step;
    [Transform] translates them line by line. *)
From S2P Require Import Prelude Endian HashStream Sha2.

(** ** The definition of RIPEMD-160 *)

Definition ROL (n x : Z) : Z := Z.lor (u32 (Z.shiftl x n)) (Z.shiftr x (32 - n)).

(** The five functions, on words. *)
Definition rmd_f (i : nat) (x y z : Z) : Z :=
  match i with
  | 1%nat => xor3 x y z
  | 2%nat => Z.lor (Z.land x y) (Z.land (Z.lnot x) z)
  | 3%nat => u32 (Z.lxor (Z.lor x (Z.lnot y)) z)
  | 4%nat => Z.lor (Z.land x z) (Z.land y (Z.lnot z))
  | _ => u32 (Z.lxor x (Z.lor y (Z.lnot z)))
  end.

(** One step: the function, the constant and the shift are its parameters. *)
Definition rmd_step (f : nat) (k s x : Z) (st : list Z) : list Z :=
  match st with
  | [a; b; c; d; e] =>
      [e; u32 (ROL s (u32 (a + rmd_f f b c d + x + k)) + e); b; ROL 10 c; d]
  | _ => st
  end.

(** A line: for each step the function, the number of the word, the constant, the shift. *)
Fixpoint rmd_line (X : list Z) (steps : list (nat * nat * Z * Z)) (st : list Z) : list Z :=
  match steps with
  | [] => st
  | (f, r, k, s) :: steps' => rmd_line X steps' (rmd_step f k s (nth r X 0) st)
  end.

(** The permutation rho, the permutation pi (i -> 9 i + 5) and the shifts by round and word. *)
Definition rho : list nat := [7; 4; 13; 1; 10; 6; 15; 3; 12; 0; 9; 5; 2; 14; 11; 8]%nat.
Definition rmd_shifts : list (list Z) :=
  [[11; 14; 15; 12; 5; 8; 7; 9; 11; 13; 14; 15; 6; 7; 9; 8];
   [12; 13; 11; 15; 6; 9; 9; 7; 12; 15; 11; 13; 7; 8; 7; 7];
   [13; 15; 14; 11; 7; 7; 6; 8; 13; 14; 13; 12; 5; 5; 6; 9];
   [14; 11; 12; 14; 8; 6; 5; 5; 15; 12; 15; 14; 9; 9; 8; 6];
   [15; 12; 13; 13; 9; 5; 8; 6; 14; 11; 12; 11; 8; 6; 5; 5]].

(** The constants: integer parts of [2^30] times square roots and cube roots. *)
Definition rmd_k1 : list Z := map (fun p => Z.sqrt (p * 2 ^ 60)) [0; 2; 3; 5; 7].
Definition rmd_k2 : list Z := map (fun p => icbrt 32 0 (p * 2 ^ 90)) [2; 3; 5; 7; 0].

Definition rmd_round (start : nat -> nat) (f : nat -> nat) (ks : list Z) (j : nat) :
    list (nat * nat * Z * Z) :=
  map (fun i => let r := Nat.iter j (fun x => nth x rho O) (start i) in
                (f j, r, nth j ks 0, nth r (nth j rmd_shifts []) 0)) (seq 0 16).

Definition rmd_left : list (nat * nat * Z * Z) :=
  concat (map (rmd_round (fun i => i) S rmd_k1) (seq 0 5)).
Definition rmd_right : list (nat * nat * Z * Z) :=
  concat (map (rmd_round (fun i => (9 * i + 5) mod 16)%nat (fun j => 5 - j)%nat rmd_k2) (seq 0 5)).

(** Both lines from the same chaining value, combined. *)
Definition rmd_combine (h p q : list Z) : list Z :=
  match h, p, q with
  | [h0; h1; h2; h3; h4], [a; b; c; d; e], [a'; b'; c'; d'; e'] =>
      [u32 (h1 + c + d'); u32 (h2 + d + e'); u32 (h3 + e + a'); u32 (h4 + a + b'); u32 (h0 + b + c')]
  | _, _, _ => h
  end.

Definition rmd_block (h X : list Z) : list Z :=
  rmd_combine h (rmd_line X rmd_left h) (rmd_line X rmd_right h).

(** The words of a block, least significant byte first. *)
Definition le_words (wb n : nat) (l : list Z) : list Z :=
  map (fun i => le_val (take wb (drop (wb * i) l))) (seq 0 n).

Definition rmd_h0 : list Z := [0x67452301; 0xefcdab89; 0x98badcfe; 0x10325476; 0xc3d2e1f0].

Definition rmd_pad (m : list Z) : list Z :=
  m ++ padding 64 8 (length m) ++ le_bytes 8 (8 * Z.of_nat (length m)).

Definition RIPEMD160 (m : list Z) : list Z :=
  concat (map (le_bytes 4) (absorbed 64 (fun h l => rmd_block h (le_words 4 16 l)) rmd_h0 (rmd_pad m))).

(** ** SHA-1 in FIPS 180-4 *)

Definition sha1_round (f : Z -> Z -> Z -> Z) (k wt : Z) (st : list Z) : list Z :=
  match st with
  | [a; b; c; d; e] => [u32 (ROL 5 a + f b c d + e + k + wt); a; ROL 30 b; c; d]
  | _ => st
  end.

Fixpoint sha1_rounds (fks : list ((Z -> Z -> Z -> Z) * Z)) (ws st : list Z) : list Z :=
  match fks, ws with
  | (f, k) :: fks', wt :: ws' => sha1_rounds fks' ws' (sha1_round f k wt st)
  | _, _ => st
  end.

(** W_t = ROL 1 (W_(t-3) xor W_(t-8) xor W_(t-14) xor W_(t-16)). *)
Fixpoint sha1_schedule (n : nat) (win : list Z) : list Z :=
  match n with
  | O => []
  | S n' =>
      let wt := ROL 1 (Z.lxor (xor3 (win !!! 13%nat) (win !!! 8%nat) (win !!! 2%nat)) (win !!! 0%nat)) in
      wt :: sha1_schedule n' (drop 1 win ++ [wt])
  end.

(** The functions and the constants, integer parts of [2^30] times square roots. *)
Definition sha1_fks : list ((Z -> Z -> Z -> Z) * Z) :=
  let k p := Z.sqrt (p * 2 ^ 60) in
  replicate 20 (fips_Ch, k 2) ++ replicate 20 (xor3, k 3)
  ++ replicate 20 (fips_Maj, k 5) ++ replicate 20 (xor3, k 10).

Definition sha1_block (H M : list Z) : list Z :=
  add_words 32 H (sha1_rounds sha1_fks (M ++ sha1_schedule 64 M) H).

Definition SHA1 (m : list Z) : list Z := fips_digest 4 sha1_block rmd_h0 m.

(** ** crypto/ripemd160.cpp *)

Module ripemd160.
Definition f1 (x y z : Z) : Z := Z.lxor (Z.lxor x y) z.
Definition f2 (x y z : Z) : Z := Z.lor (Z.land x y) (Z.land (Z.lnot x) z).
Definition f3 (x y z : Z) : Z := u32 (Z.lxor (Z.lor x (Z.lnot y)) z).
Definition f4 (x y z : Z) : Z := Z.lor (Z.land x z) (Z.land y (Z.lnot z)).
Definition f5 (x y z : Z) : Z := u32 (Z.lxor x (Z.lor y (Z.lnot z))).

Definition Initialize : list Z := [0x67452301; 0xEFCDAB89; 0x98BADCFE; 0x10325476; 0xC3D2E1F0].

Definition rol (x i : Z) : Z := Z.lor (u32 (Z.shiftl x i)) (Z.shiftr x (32 - i)).

(** The references [a] and [c] are returned. *)
Definition Round (a b c d e f x k r : Z) : Z * Z :=
  (u32 (rol (u32 (a + f + x + k)) r + e), rol c 10).

Definition R11 (a b c d e x r : Z) : Z * Z := Round a b c d e (f1 b c d) x 0 r.
Definition R21 (a b c d e x r : Z) : Z * Z := Round a b c d e (f2 b c d) x 0x5A827999 r.
Definition R31 (a b c d e x r : Z) : Z * Z := Round a b c d e (f3 b c d) x 0x6ED9EBA1 r.
Definition R41 (a b c d e x r : Z) : Z * Z := Round a b c d e (f4 b c d) x 0x8F1BBCDC r.
Definition R51 (a b c d e x r : Z) : Z * Z := Round a b c d e (f5 b c d) x 0xA953FD4E r.

Definition R12 (a b c d e x r : Z) : Z * Z := Round a b c d e (f5 b c d) x 0x50A28BE6 r.
Definition R22 (a b c d e x r : Z) : Z * Z := Round a b c d e (f4 b c d) x 0x5C4DD124 r.
Definition R32 (a b c d e x r : Z) : Z * Z := Round a b c d e (f3 b c d) x 0x6D703EF3 r.
Definition R42 (a b c d e x r : Z) : Z * Z := Round a b c d e (f2 b c d) x 0x7A6D76E9 r.
Definition R52 (a b c d e x r : Z) : Z * Z := Round a b c d e (f1 b c d) x 0 r.

(** [s] is an array of five words; [chunk] points to a block. *)
Definition Transform (be : bool) (s chunk : list Z) : list Z :=
  match s with
  | [s0; s1; s2; s3; s4] =>
      let '(a1, b1, c1, d1, e1) := (s0, s1, s2, s3, s4) in
      let '(a2, b2, c2, d2, e2) := (a1, b1, c1, d1, e1) in
      put w0 := ReadLE32 be (drop 0 chunk) in
      put w1 := ReadLE32 be (drop 4 chunk) in
      put w2 := ReadLE32 be (drop 8 chunk) in
      put w3 := ReadLE32 be (drop 12 chunk) in
      put w4 := ReadLE32 be (drop 16 chunk) in
      put w5 := ReadLE32 be (drop 20 chunk) in
      put w6 := ReadLE32 be (drop 24 chunk) in
      put w7 := ReadLE32 be (drop 28 chunk) in
      put w8 := ReadLE32 be (drop 32 chunk) in
      put w9 := ReadLE32 be (drop 36 chunk) in
      put w10 := ReadLE32 be (drop 40 chunk) in
      put w11 := ReadLE32 be (drop 44 chunk) in
      put w12 := ReadLE32 be (drop 48 chunk) in
      put w13 := ReadLE32 be (drop 52 chunk) in
      put w14 := ReadLE32 be (drop 56 chunk) in
      put w15 := ReadLE32 be (drop 60 chunk) in
      let '(a1, c1) := R11 a1 b1 c1 d1 e1 w0 11 in
      let '(a2, c2) := R12 a2 b2 c2 d2 e2 w5 8 in
      let '(e1, b1) := R11 e1 a1 b1 c1 d1 w1 14 in
      let '(e2, b2) := R12 e2 a2 b2 c2 d2 w14 9 in
      let '(d1, a1) := R11 d1 e1 a1 b1 c1 w2 15 in
      let '(d2, a2) := R12 d2 e2 a2 b2 c2 w7 9 in
      let '(c1, e1) := R11 c1 d1 e1 a1 b1 w3 12 in
      let '(c2, e2) := R12 c2 d2 e2 a2 b2 w0 11 in
      let '(b1, d1) := R11 b1 c1 d1 e1 a1 w4 5 in
      let '(b2, d2) := R12 b2 c2 d2 e2 a2 w9 13 in
      let '(a1, c1) := R11 a1 b1 c1 d1 e1 w5 8 in
      let '(a2, c2) := R12 a2 b2 c2 d2 e2 w2 15 in
      let '(e1, b1) := R11 e1 a1 b1 c1 d1 w6 7 in
      let '(e2, b2) := R12 e2 a2 b2 c2 d2 w11 15 in
      let '(d1, a1) := R11 d1 e1 a1 b1 c1 w7 9 in
      let '(d2, a2) := R12 d2 e2 a2 b2 c2 w4 5 in
      let '(c1, e1) := R11 c1 d1 e1 a1 b1 w8 11 in
      let '(c2, e2) := R12 c2 d2 e2 a2 b2 w13 7 in
      let '(b1, d1) := R11 b1 c1 d1 e1 a1 w9 13 in
      let '(b2, d2) := R12 b2 c2 d2 e2 a2 w6 7 in
      let '(a1, c1) := R11 a1 b1 c1 d1 e1 w10 14 in
      let '(a2, c2) := R12 a2 b2 c2 d2 e2 w15 8 in
      let '(e1, b1) := R11 e1 a1 b1 c1 d1 w11 15 in
      let '(e2, b2) := R12 e2 a2 b2 c2 d2 w8 11 in
      let '(d1, a1) := R11 d1 e1 a1 b1 c1 w12 6 in
      let '(d2, a2) := R12 d2 e2 a2 b2 c2 w1 14 in
      let '(c1, e1) := R11 c1 d1 e1 a1 b1 w13 7 in
      let '(c2, e2) := R12 c2 d2 e2 a2 b2 w10 14 in
      let '(b1, d1) := R11 b1 c1 d1 e1 a1 w14 9 in
      let '(b2, d2) := R12 b2 c2 d2 e2 a2 w3 12 in
      let '(a1, c1) := R11 a1 b1 c1 d1 e1 w15 8 in
      let '(a2, c2) := R12 a2 b2 c2 d2 e2 w12 6 in
      let '(e1, b1) := R21 e1 a1 b1 c1 d1 w7 7 in
      let '(e2, b2) := R22 e2 a2 b2 c2 d2 w6 9 in
      let '(d1, a1) := R21 d1 e1 a1 b1 c1 w4 6 in
      let '(d2, a2) := R22 d2 e2 a2 b2 c2 w11 13 in
      let '(c1, e1) := R21 c1 d1 e1 a1 b1 w13 8 in
      let '(c2, e2) := R22 c2 d2 e2 a2 b2 w3 15 in
      let '(b1, d1) := R21 b1 c1 d1 e1 a1 w1 13 in
      let '(b2, d2) := R22 b2 c2 d2 e2 a2 w7 7 in
      let '(a1, c1) := R21 a1 b1 c1 d1 e1 w10 11 in
      let '(a2, c2) := R22 a2 b2 c2 d2 e2 w0 12 in
      let '(e1, b1) := R21 e1 a1 b1 c1 d1 w6 9 in
      let '(e2, b2) := R22 e2 a2 b2 c2 d2 w13 8 in
      let '(d1, a1) := R21 d1 e1 a1 b1 c1 w15 7 in
      let '(d2, a2) := R22 d2 e2 a2 b2 c2 w5 9 in
      let '(c1, e1) := R21 c1 d1 e1 a1 b1 w3 15 in
      let '(c2, e2) := R22 c2 d2 e2 a2 b2 w10 11 in
      let '(b1, d1) := R21 b1 c1 d1 e1 a1 w12 7 in
      let '(b2, d2) := R22 b2 c2 d2 e2 a2 w14 7 in
      let '(a1, c1) := R21 a1 b1 c1 d1 e1 w0 12 in
      let '(a2, c2) := R22 a2 b2 c2 d2 e2 w15 7 in
      let '(e1, b1) := R21 e1 a1 b1 c1 d1 w9 15 in
      let '(e2, b2) := R22 e2 a2 b2 c2 d2 w8 12 in
      let '(d1, a1) := R21 d1 e1 a1 b1 c1 w5 9 in
      let '(d2, a2) := R22 d2 e2 a2 b2 c2 w12 7 in
      let '(c1, e1) := R21 c1 d1 e1 a1 b1 w2 11 in
      let '(c2, e2) := R22 c2 d2 e2 a2 b2 w4 6 in
      let '(b1, d1) := R21 b1 c1 d1 e1 a1 w14 7 in
      let '(b2, d2) := R22 b2 c2 d2 e2 a2 w9 15 in
      let '(a1, c1) := R21 a1 b1 c1 d1 e1 w11 13 in
      let '(a2, c2) := R22 a2 b2 c2 d2 e2 w1 13 in
      let '(e1, b1) := R21 e1 a1 b1 c1 d1 w8 12 in
      let '(e2, b2) := R22 e2 a2 b2 c2 d2 w2 11 in
      let '(d1, a1) := R31 d1 e1 a1 b1 c1 w3 11 in
      let '(d2, a2) := R32 d2 e2 a2 b2 c2 w15 9 in
      let '(c1, e1) := R31 c1 d1 e1 a1 b1 w10 13 in
      let '(c2, e2) := R32 c2 d2 e2 a2 b2 w5 7 in
      let '(b1, d1) := R31 b1 c1 d1 e1 a1 w14 6 in
      let '(b2, d2) := R32 b2 c2 d2 e2 a2 w1 15 in
      let '(a1, c1) := R31 a1 b1 c1 d1 e1 w4 7 in
      let '(a2, c2) := R32 a2 b2 c2 d2 e2 w3 11 in
      let '(e1, b1) := R31 e1 a1 b1 c1 d1 w9 14 in
      let '(e2, b2) := R32 e2 a2 b2 c2 d2 w7 8 in
      let '(d1, a1) := R31 d1 e1 a1 b1 c1 w15 9 in
      let '(d2, a2) := R32 d2 e2 a2 b2 c2 w14 6 in
      let '(c1, e1) := R31 c1 d1 e1 a1 b1 w8 13 in
      let '(c2, e2) := R32 c2 d2 e2 a2 b2 w6 6 in
      let '(b1, d1) := R31 b1 c1 d1 e1 a1 w1 15 in
      let '(b2, d2) := R32 b2 c2 d2 e2 a2 w9 14 in
      let '(a1, c1) := R31 a1 b1 c1 d1 e1 w2 14 in
      let '(a2, c2) := R32 a2 b2 c2 d2 e2 w11 12 in
      let '(e1, b1) := R31 e1 a1 b1 c1 d1 w7 8 in
      let '(e2, b2) := R32 e2 a2 b2 c2 d2 w8 13 in
      let '(d1, a1) := R31 d1 e1 a1 b1 c1 w0 13 in
      let '(d2, a2) := R32 d2 e2 a2 b2 c2 w12 5 in
      let '(c1, e1) := R31 c1 d1 e1 a1 b1 w6 6 in
      let '(c2, e2) := R32 c2 d2 e2 a2 b2 w2 14 in
      let '(b1, d1) := R31 b1 c1 d1 e1 a1 w13 5 in
      let '(b2, d2) := R32 b2 c2 d2 e2 a2 w10 13 in
      let '(a1, c1) := R31 a1 b1 c1 d1 e1 w11 12 in
      let '(a2, c2) := R32 a2 b2 c2 d2 e2 w0 13 in
      let '(e1, b1) := R31 e1 a1 b1 c1 d1 w5 7 in
      let '(e2, b2) := R32 e2 a2 b2 c2 d2 w4 7 in
      let '(d1, a1) := R31 d1 e1 a1 b1 c1 w12 5 in
      let '(d2, a2) := R32 d2 e2 a2 b2 c2 w13 5 in
      let '(c1, e1) := R41 c1 d1 e1 a1 b1 w1 11 in
      let '(c2, e2) := R42 c2 d2 e2 a2 b2 w8 15 in
      let '(b1, d1) := R41 b1 c1 d1 e1 a1 w9 12 in
      let '(b2, d2) := R42 b2 c2 d2 e2 a2 w6 5 in
      let '(a1, c1) := R41 a1 b1 c1 d1 e1 w11 14 in
      let '(a2, c2) := R42 a2 b2 c2 d2 e2 w4 8 in
      let '(e1, b1) := R41 e1 a1 b1 c1 d1 w10 15 in
      let '(e2, b2) := R42 e2 a2 b2 c2 d2 w1 11 in
      let '(d1, a1) := R41 d1 e1 a1 b1 c1 w0 14 in
      let '(d2, a2) := R42 d2 e2 a2 b2 c2 w3 14 in
      let '(c1, e1) := R41 c1 d1 e1 a1 b1 w8 15 in
      let '(c2, e2) := R42 c2 d2 e2 a2 b2 w11 14 in
      let '(b1, d1) := R41 b1 c1 d1 e1 a1 w12 9 in
      let '(b2, d2) := R42 b2 c2 d2 e2 a2 w15 6 in
      let '(a1, c1) := R41 a1 b1 c1 d1 e1 w4 8 in
      let '(a2, c2) := R42 a2 b2 c2 d2 e2 w0 14 in
      let '(e1, b1) := R41 e1 a1 b1 c1 d1 w13 9 in
      let '(e2, b2) := R42 e2 a2 b2 c2 d2 w5 6 in
      let '(d1, a1) := R41 d1 e1 a1 b1 c1 w3 14 in
      let '(d2, a2) := R42 d2 e2 a2 b2 c2 w12 9 in
      let '(c1, e1) := R41 c1 d1 e1 a1 b1 w7 5 in
      let '(c2, e2) := R42 c2 d2 e2 a2 b2 w2 12 in
      let '(b1, d1) := R41 b1 c1 d1 e1 a1 w15 6 in
      let '(b2, d2) := R42 b2 c2 d2 e2 a2 w13 9 in
      let '(a1, c1) := R41 a1 b1 c1 d1 e1 w14 8 in
      let '(a2, c2) := R42 a2 b2 c2 d2 e2 w9 12 in
      let '(e1, b1) := R41 e1 a1 b1 c1 d1 w5 6 in
      let '(e2, b2) := R42 e2 a2 b2 c2 d2 w7 5 in
      let '(d1, a1) := R41 d1 e1 a1 b1 c1 w6 5 in
      let '(d2, a2) := R42 d2 e2 a2 b2 c2 w10 15 in
      let '(c1, e1) := R41 c1 d1 e1 a1 b1 w2 12 in
      let '(c2, e2) := R42 c2 d2 e2 a2 b2 w14 8 in
      let '(b1, d1) := R51 b1 c1 d1 e1 a1 w4 9 in
      let '(b2, d2) := R52 b2 c2 d2 e2 a2 w12 8 in
      let '(a1, c1) := R51 a1 b1 c1 d1 e1 w0 15 in
      let '(a2, c2) := R52 a2 b2 c2 d2 e2 w15 5 in
      let '(e1, b1) := R51 e1 a1 b1 c1 d1 w5 5 in
      let '(e2, b2) := R52 e2 a2 b2 c2 d2 w10 12 in
      let '(d1, a1) := R51 d1 e1 a1 b1 c1 w9 11 in
      let '(d2, a2) := R52 d2 e2 a2 b2 c2 w4 9 in
      let '(c1, e1) := R51 c1 d1 e1 a1 b1 w7 6 in
      let '(c2, e2) := R52 c2 d2 e2 a2 b2 w1 12 in
      let '(b1, d1) := R51 b1 c1 d1 e1 a1 w12 8 in
      let '(b2, d2) := R52 b2 c2 d2 e2 a2 w5 5 in
      let '(a1, c1) := R51 a1 b1 c1 d1 e1 w2 13 in
      let '(a2, c2) := R52 a2 b2 c2 d2 e2 w8 14 in
      let '(e1, b1) := R51 e1 a1 b1 c1 d1 w10 12 in
      let '(e2, b2) := R52 e2 a2 b2 c2 d2 w7 6 in
      let '(d1, a1) := R51 d1 e1 a1 b1 c1 w14 5 in
      let '(d2, a2) := R52 d2 e2 a2 b2 c2 w6 8 in
      let '(c1, e1) := R51 c1 d1 e1 a1 b1 w1 12 in
      let '(c2, e2) := R52 c2 d2 e2 a2 b2 w2 13 in
      let '(b1, d1) := R51 b1 c1 d1 e1 a1 w3 13 in
      let '(b2, d2) := R52 b2 c2 d2 e2 a2 w13 6 in
      let '(a1, c1) := R51 a1 b1 c1 d1 e1 w8 14 in
      let '(a2, c2) := R52 a2 b2 c2 d2 e2 w14 5 in
      let '(e1, b1) := R51 e1 a1 b1 c1 d1 w11 11 in
      let '(e2, b2) := R52 e2 a2 b2 c2 d2 w0 15 in
      let '(d1, a1) := R51 d1 e1 a1 b1 c1 w6 8 in
      let '(d2, a2) := R52 d2 e2 a2 b2 c2 w3 13 in
      let '(c1, e1) := R51 c1 d1 e1 a1 b1 w15 5 in
      let '(c2, e2) := R52 c2 d2 e2 a2 b2 w9 11 in
      let '(b1, d1) := R51 b1 c1 d1 e1 a1 w13 6 in
      let '(b2, d2) := R52 b2 c2 d2 e2 a2 w11 11 in
      let t := s0 in
      [u32 (s1 + c1 + d2); u32 (s2 + d1 + e2); u32 (s3 + e1 + a2); u32 (s4 + a1 + b2); u32 (t + b1 + c2)]
  | _ => s
  end.
End ripemd160.

Module CRIPEMD160.
Definition OUTPUT_SIZE : nat := 20.

(** The constructor; [buf] is what the memory of the buffer held. *)
Definition new (buf : list Z) : hasher := Hasher ripemd160.Initialize buf 0.

Definition Write (be : bool) : hasher -> list Z -> hasher := HashStream.Write 64 (ripemd160.Transform be).

Definition Finalize (be : bool) (h : hasher) : hasher * list Z :=
  let sizedesc := WriteLE64 be (u64 (Z.shiftl (hs_bytes h) 3)) in
  let h := Write be h (take (Z.to_nat (1 + (119 - hs_bytes h mod 64) mod 64)) (pad_array 64)) in
  let h := Write be h sizedesc in
  (h, match hs_s h with
      | [s0; s1; s2; s3; s4] =>
          WriteLE32 be s0 ++ WriteLE32 be s1 ++ WriteLE32 be s2 ++ WriteLE32 be s3 ++ WriteLE32 be s4
      | _ => []
      end).

Definition Reset (h : hasher) : hasher := Hasher ripemd160.Initialize (hs_buf h) 0.
End CRIPEMD160.

(** ** crypto/sha1.cpp *)

Module sha1.
(** One round; the references [b] and [e] are returned. *)
Definition Round (a b c d e f k w : Z) : Z * Z :=
  let e := u32 (e + (Z.lor (u32 (Z.shiftl a 5)) (Z.shiftr a 27) + f + k + w)) in
  let b := Z.lor (u32 (Z.shiftl b 30)) (Z.shiftr b 2) in
  (b, e).

Definition f1 (b c d : Z) : Z := Z.lxor d (Z.land b (Z.lxor c d)).
Definition f2 (b c d : Z) : Z := Z.lxor (Z.lxor b c) d.
Definition f3 (b c d : Z) : Z := Z.lor (Z.land b c) (Z.land d (Z.lor b c)).

Definition left (x : Z) : Z := Z.lor (u32 (Z.shiftl x 1)) (Z.shiftr x 31).

Definition Initialize : list Z := [0x67452301; 0xEFCDAB89; 0x98BADCFE; 0x10325476; 0xC3D2E1F0].

Definition k1 : Z := 0x5A827999.
Definition k2 : Z := 0x6ED9EBA1.
Definition k3 : Z := 0x8F1BBCDC.
Definition k4 : Z := 0xCA62C1D6.

Definition Transform (be : bool) (s chunk : list Z) : list Z :=
  match s with
  | [s0; s1; s2; s3; s4] =>
      let '(a, b, c, d, e) := (s0, s1, s2, s3, s4) in
      put w0 := ReadBE32 be (drop 0 chunk) in
      let '(b, e) := Round a b c d e (f1 b c d) k1 w0 in
      put w1 := ReadBE32 be (drop 4 chunk) in
      let '(a, d) := Round e a b c d (f1 a b c) k1 w1 in
      put w2 := ReadBE32 be (drop 8 chunk) in
      let '(e, c) := Round d e a b c (f1 e a b) k1 w2 in
      put w3 := ReadBE32 be (drop 12 chunk) in
      let '(d, b) := Round c d e a b (f1 d e a) k1 w3 in
      put w4 := ReadBE32 be (drop 16 chunk) in
      let '(c, a) := Round b c d e a (f1 c d e) k1 w4 in
      put w5 := ReadBE32 be (drop 20 chunk) in
      let '(b, e) := Round a b c d e (f1 b c d) k1 w5 in
      put w6 := ReadBE32 be (drop 24 chunk) in
      let '(a, d) := Round e a b c d (f1 a b c) k1 w6 in
      put w7 := ReadBE32 be (drop 28 chunk) in
      let '(e, c) := Round d e a b c (f1 e a b) k1 w7 in
      put w8 := ReadBE32 be (drop 32 chunk) in
      let '(d, b) := Round c d e a b (f1 d e a) k1 w8 in
      put w9 := ReadBE32 be (drop 36 chunk) in
      let '(c, a) := Round b c d e a (f1 c d e) k1 w9 in
      put w10 := ReadBE32 be (drop 40 chunk) in
      let '(b, e) := Round a b c d e (f1 b c d) k1 w10 in
      put w11 := ReadBE32 be (drop 44 chunk) in
      let '(a, d) := Round e a b c d (f1 a b c) k1 w11 in
      put w12 := ReadBE32 be (drop 48 chunk) in
      let '(e, c) := Round d e a b c (f1 e a b) k1 w12 in
      put w13 := ReadBE32 be (drop 52 chunk) in
      let '(d, b) := Round c d e a b (f1 d e a) k1 w13 in
      put w14 := ReadBE32 be (drop 56 chunk) in
      let '(c, a) := Round b c d e a (f1 c d e) k1 w14 in
      put w15 := ReadBE32 be (drop 60 chunk) in
      let '(b, e) := Round a b c d e (f1 b c d) k1 w15 in
      put w0 := left (Z.lxor (Z.lxor (Z.lxor w0 w13) w8) w2) in
      let '(a, d) := Round e a b c d (f1 a b c) k1 w0 in
      put w1 := left (Z.lxor (Z.lxor (Z.lxor w1 w14) w9) w3) in
      let '(e, c) := Round d e a b c (f1 e a b) k1 w1 in
      put w2 := left (Z.lxor (Z.lxor (Z.lxor w2 w15) w10) w4) in
      let '(d, b) := Round c d e a b (f1 d e a) k1 w2 in
      put w3 := left (Z.lxor (Z.lxor (Z.lxor w3 w0) w11) w5) in
      let '(c, a) := Round b c d e a (f1 c d e) k1 w3 in
      put w4 := left (Z.lxor (Z.lxor (Z.lxor w4 w1) w12) w6) in
      let '(b, e) := Round a b c d e (f2 b c d) k2 w4 in
      put w5 := left (Z.lxor (Z.lxor (Z.lxor w5 w2) w13) w7) in
      let '(a, d) := Round e a b c d (f2 a b c) k2 w5 in
      put w6 := left (Z.lxor (Z.lxor (Z.lxor w6 w3) w14) w8) in
      let '(e, c) := Round d e a b c (f2 e a b) k2 w6 in
      put w7 := left (Z.lxor (Z.lxor (Z.lxor w7 w4) w15) w9) in
      let '(d, b) := Round c d e a b (f2 d e a) k2 w7 in
      put w8 := left (Z.lxor (Z.lxor (Z.lxor w8 w5) w0) w10) in
      let '(c, a) := Round b c d e a (f2 c d e) k2 w8 in
      put w9 := left (Z.lxor (Z.lxor (Z.lxor w9 w6) w1) w11) in
      let '(b, e) := Round a b c d e (f2 b c d) k2 w9 in
      put w10 := left (Z.lxor (Z.lxor (Z.lxor w10 w7) w2) w12) in
      let '(a, d) := Round e a b c d (f2 a b c) k2 w10 in
      put w11 := left (Z.lxor (Z.lxor (Z.lxor w11 w8) w3) w13) in
      let '(e, c) := Round d e a b c (f2 e a b) k2 w11 in
      put w12 := left (Z.lxor (Z.lxor (Z.lxor w12 w9) w4) w14) in
      let '(d, b) := Round c d e a b (f2 d e a) k2 w12 in
      put w13 := left (Z.lxor (Z.lxor (Z.lxor w13 w10) w5) w15) in
      let '(c, a) := Round b c d e a (f2 c d e) k2 w13 in
      put w14 := left (Z.lxor (Z.lxor (Z.lxor w14 w11) w6) w0) in
      let '(b, e) := Round a b c d e (f2 b c d) k2 w14 in
      put w15 := left (Z.lxor (Z.lxor (Z.lxor w15 w12) w7) w1) in
      let '(a, d) := Round e a b c d (f2 a b c) k2 w15 in
      put w0 := left (Z.lxor (Z.lxor (Z.lxor w0 w13) w8) w2) in
      let '(e, c) := Round d e a b c (f2 e a b) k2 w0 in
      put w1 := left (Z.lxor (Z.lxor (Z.lxor w1 w14) w9) w3) in
      let '(d, b) := Round c d e a b (f2 d e a) k2 w1 in
      put w2 := left (Z.lxor (Z.lxor (Z.lxor w2 w15) w10) w4) in
      let '(c, a) := Round b c d e a (f2 c d e) k2 w2 in
      put w3 := left (Z.lxor (Z.lxor (Z.lxor w3 w0) w11) w5) in
      let '(b, e) := Round a b c d e (f2 b c d) k2 w3 in
      put w4 := left (Z.lxor (Z.lxor (Z.lxor w4 w1) w12) w6) in
      let '(a, d) := Round e a b c d (f2 a b c) k2 w4 in
      put w5 := left (Z.lxor (Z.lxor (Z.lxor w5 w2) w13) w7) in
      let '(e, c) := Round d e a b c (f2 e a b) k2 w5 in
      put w6 := left (Z.lxor (Z.lxor (Z.lxor w6 w3) w14) w8) in
      let '(d, b) := Round c d e a b (f2 d e a) k2 w6 in
      put w7 := left (Z.lxor (Z.lxor (Z.lxor w7 w4) w15) w9) in
      let '(c, a) := Round b c d e a (f2 c d e) k2 w7 in
      put w8 := left (Z.lxor (Z.lxor (Z.lxor w8 w5) w0) w10) in
      let '(b, e) := Round a b c d e (f3 b c d) k3 w8 in
      put w9 := left (Z.lxor (Z.lxor (Z.lxor w9 w6) w1) w11) in
      let '(a, d) := Round e a b c d (f3 a b c) k3 w9 in
      put w10 := left (Z.lxor (Z.lxor (Z.lxor w10 w7) w2) w12) in
      let '(e, c) := Round d e a b c (f3 e a b) k3 w10 in
      put w11 := left (Z.lxor (Z.lxor (Z.lxor w11 w8) w3) w13) in
      let '(d, b) := Round c d e a b (f3 d e a) k3 w11 in
      put w12 := left (Z.lxor (Z.lxor (Z.lxor w12 w9) w4) w14) in
      let '(c, a) := Round b c d e a (f3 c d e) k3 w12 in
      put w13 := left (Z.lxor (Z.lxor (Z.lxor w13 w10) w5) w15) in
      let '(b, e) := Round a b c d e (f3 b c d) k3 w13 in
      put w14 := left (Z.lxor (Z.lxor (Z.lxor w14 w11) w6) w0) in
      let '(a, d) := Round e a b c d (f3 a b c) k3 w14 in
      put w15 := left (Z.lxor (Z.lxor (Z.lxor w15 w12) w7) w1) in
      let '(e, c) := Round d e a b c (f3 e a b) k3 w15 in
      put w0 := left (Z.lxor (Z.lxor (Z.lxor w0 w13) w8) w2) in
      let '(d, b) := Round c d e a b (f3 d e a) k3 w0 in
      put w1 := left (Z.lxor (Z.lxor (Z.lxor w1 w14) w9) w3) in
      let '(c, a) := Round b c d e a (f3 c d e) k3 w1 in
      put w2 := left (Z.lxor (Z.lxor (Z.lxor w2 w15) w10) w4) in
      let '(b, e) := Round a b c d e (f3 b c d) k3 w2 in
      put w3 := left (Z.lxor (Z.lxor (Z.lxor w3 w0) w11) w5) in
      let '(a, d) := Round e a b c d (f3 a b c) k3 w3 in
      put w4 := left (Z.lxor (Z.lxor (Z.lxor w4 w1) w12) w6) in
      let '(e, c) := Round d e a b c (f3 e a b) k3 w4 in
      put w5 := left (Z.lxor (Z.lxor (Z.lxor w5 w2) w13) w7) in
      let '(d, b) := Round c d e a b (f3 d e a) k3 w5 in
      put w6 := left (Z.lxor (Z.lxor (Z.lxor w6 w3) w14) w8) in
      let '(c, a) := Round b c d e a (f3 c d e) k3 w6 in
      put w7 := left (Z.lxor (Z.lxor (Z.lxor w7 w4) w15) w9) in
      let '(b, e) := Round a b c d e (f3 b c d) k3 w7 in
      put w8 := left (Z.lxor (Z.lxor (Z.lxor w8 w5) w0) w10) in
      let '(a, d) := Round e a b c d (f3 a b c) k3 w8 in
      put w9 := left (Z.lxor (Z.lxor (Z.lxor w9 w6) w1) w11) in
      let '(e, c) := Round d e a b c (f3 e a b) k3 w9 in
      put w10 := left (Z.lxor (Z.lxor (Z.lxor w10 w7) w2) w12) in
      let '(d, b) := Round c d e a b (f3 d e a) k3 w10 in
      put w11 := left (Z.lxor (Z.lxor (Z.lxor w11 w8) w3) w13) in
      let '(c, a) := Round b c d e a (f3 c d e) k3 w11 in
      put w12 := left (Z.lxor (Z.lxor (Z.lxor w12 w9) w4) w14) in
      let '(b, e) := Round a b c d e (f2 b c d) k4 w12 in
      put w13 := left (Z.lxor (Z.lxor (Z.lxor w13 w10) w5) w15) in
      let '(a, d) := Round e a b c d (f2 a b c) k4 w13 in
      put w14 := left (Z.lxor (Z.lxor (Z.lxor w14 w11) w6) w0) in
      let '(e, c) := Round d e a b c (f2 e a b) k4 w14 in
      put w15 := left (Z.lxor (Z.lxor (Z.lxor w15 w12) w7) w1) in
      let '(d, b) := Round c d e a b (f2 d e a) k4 w15 in
      put w0 := left (Z.lxor (Z.lxor (Z.lxor w0 w13) w8) w2) in
      let '(c, a) := Round b c d e a (f2 c d e) k4 w0 in
      put w1 := left (Z.lxor (Z.lxor (Z.lxor w1 w14) w9) w3) in
      let '(b, e) := Round a b c d e (f2 b c d) k4 w1 in
      put w2 := left (Z.lxor (Z.lxor (Z.lxor w2 w15) w10) w4) in
      let '(a, d) := Round e a b c d (f2 a b c) k4 w2 in
      put w3 := left (Z.lxor (Z.lxor (Z.lxor w3 w0) w11) w5) in
      let '(e, c) := Round d e a b c (f2 e a b) k4 w3 in
      put w4 := left (Z.lxor (Z.lxor (Z.lxor w4 w1) w12) w6) in
      let '(d, b) := Round c d e a b (f2 d e a) k4 w4 in
      put w5 := left (Z.lxor (Z.lxor (Z.lxor w5 w2) w13) w7) in
      let '(c, a) := Round b c d e a (f2 c d e) k4 w5 in
      put w6 := left (Z.lxor (Z.lxor (Z.lxor w6 w3) w14) w8) in
      let '(b, e) := Round a b c d e (f2 b c d) k4 w6 in
      put w7 := left (Z.lxor (Z.lxor (Z.lxor w7 w4) w15) w9) in
      let '(a, d) := Round e a b c d (f2 a b c) k4 w7 in
      put w8 := left (Z.lxor (Z.lxor (Z.lxor w8 w5) w0) w10) in
      let '(e, c) := Round d e a b c (f2 e a b) k4 w8 in
      put w9 := left (Z.lxor (Z.lxor (Z.lxor w9 w6) w1) w11) in
      let '(d, b) := Round c d e a b (f2 d e a) k4 w9 in
      put w10 := left (Z.lxor (Z.lxor (Z.lxor w10 w7) w2) w12) in
      let '(c, a) := Round b c d e a (f2 c d e) k4 w10 in
      put w11 := left (Z.lxor (Z.lxor (Z.lxor w11 w8) w3) w13) in
      let '(b, e) := Round a b c d e (f2 b c d) k4 w11 in
      put w12 := left (Z.lxor (Z.lxor (Z.lxor w12 w9) w4) w14) in
      let '(a, d) := Round e a b c d (f2 a b c) k4 w12 in
      let '(e, c) := Round d e a b c (f2 e a b) k4 (left (Z.lxor (Z.lxor (Z.lxor w13 w10) w5) w15)) in
      let '(d, b) := Round c d e a b (f2 d e a) k4 (left (Z.lxor (Z.lxor (Z.lxor w14 w11) w6) w0)) in
      let '(c, a) := Round b c d e a (f2 c d e) k4 (left (Z.lxor (Z.lxor (Z.lxor w15 w12) w7) w1)) in
      [u32 (s0 + a); u32 (s1 + b); u32 (s2 + c); u32 (s3 + d); u32 (s4 + e)]
  | _ => s
  end.
End sha1.

Module CSHA1.
Definition OUTPUT_SIZE : nat := 20.

(** The constructor; [buf] is what the memory of the buffer held. *)
Definition new (buf : list Z) : hasher := Hasher sha1.Initialize buf 0.

Definition Write (be : bool) : hasher -> list Z -> hasher := HashStream.Write 64 (sha1.Transform be).

Definition Finalize (be : bool) (h : hasher) : hasher * list Z :=
  let sizedesc := WriteBE64 be (u64 (Z.shiftl (hs_bytes h) 3)) in
  let h := Write be h (take (Z.to_nat (1 + (119 - hs_bytes h mod 64) mod 64)) (pad_array 64)) in
  let h := Write be h sizedesc in
  (h, match hs_s h with
      | [s0; s1; s2; s3; s4] =>
          WriteBE32 be s0 ++ WriteBE32 be s1 ++ WriteBE32 be s2 ++ WriteBE32 be s3 ++ WriteBE32 be s4
      | _ => []
      end).

Definition Reset (h : hasher) : hasher := Hasher sha1.Initialize (hs_buf h) 0.
End CSHA1.

(** ** The steps of RIPEMD-160 *)

Lemma length_5 (s : list Z) : length s = 5%nat -> exists a b c d e, s = [a; b; c; d; e].
Proof. destruct s as [|a [|b [|c [|d [|e [|? ?]]]]]]; try done. intros _. by repeat eexists. Qed.

(** What one call of [Round] does in terms of the definition. *)
Lemma rmd_Round_eq i (f : Z -> Z -> Z -> Z) a b c d e x k s a' c' : rmd_f i = f ->
  ripemd160.Round a b c d e (f b c d) x k s = (a', c') ->
  rmd_step i k s x [a; b; c; d; e] = [e; a'; b; c'; d].
Proof. intros <- [= <- <-]. done. Qed.

Ltac rmd_round :=
  lazymatch goal with
  | |- (match ?R with (_, _) => _ end) = _ =>
      let a := fresh "v" in let c := fresh "v" in let E := fresh "E" in
      destruct R as [a c] eqn:E;
      lazymatch R with
      | ripemd160.R11 _ _ _ _ _ _ _ => apply (rmd_Round_eq 1 ripemd160.f1) in E; [|reflexivity]
      | ripemd160.R21 _ _ _ _ _ _ _ => apply (rmd_Round_eq 2 ripemd160.f2) in E; [|reflexivity]
      | ripemd160.R31 _ _ _ _ _ _ _ => apply (rmd_Round_eq 3 ripemd160.f3) in E; [|reflexivity]
      | ripemd160.R41 _ _ _ _ _ _ _ => apply (rmd_Round_eq 4 ripemd160.f4) in E; [|reflexivity]
      | ripemd160.R51 _ _ _ _ _ _ _ => apply (rmd_Round_eq 5 ripemd160.f5) in E; [|reflexivity]
      | ripemd160.R12 _ _ _ _ _ _ _ => apply (rmd_Round_eq 5 ripemd160.f5) in E; [|reflexivity]
      | ripemd160.R22 _ _ _ _ _ _ _ => apply (rmd_Round_eq 4 ripemd160.f4) in E; [|reflexivity]
      | ripemd160.R32 _ _ _ _ _ _ _ => apply (rmd_Round_eq 3 ripemd160.f3) in E; [|reflexivity]
      | ripemd160.R42 _ _ _ _ _ _ _ => apply (rmd_Round_eq 2 ripemd160.f2) in E; [|reflexivity]
      | ripemd160.R52 _ _ _ _ _ _ _ => apply (rmd_Round_eq 1 ripemd160.f1) in E; [|reflexivity]
      end;
      rewrite E; clear E
  end.

Definition rmd_words (be : bool) (chunk : list Z) : list Z :=
  map (fun i => ReadLE32 be (drop i chunk)) [0; 4; 8; 12; 16; 20; 24; 28; 32; 36; 40; 44; 48; 52; 56; 60]%nat.

Lemma rmd_Transform be s chunk : length s = 5%nat ->
  ripemd160.Transform be s chunk = rmd_block s (rmd_words be chunk).
Proof.
  intros (s0 & s1 & s2 & s3 & s4 & ->)%length_5.
  unfold rmd_block, rmd_words. cbn [map].
  let l := eval vm_compute in rmd_left in replace rmd_left with l by (vm_compute; reflexivity).
  let l := eval vm_compute in rmd_right in replace rmd_right with l by (vm_compute; reflexivity).
  cbn [rmd_line nth].
  cbv beta iota delta [ripemd160.Transform].
  repeat match goal with |- context [ReadLE32 be ?l] => generalize (ReadLE32 be l); intro end.
  do 16 (refine (assign_intro _ _ _ _); intros ? ->).
  do 160 rmd_round. reflexivity.
Qed.

Lemma rmd_words_val be l : (64 <= length l)%nat -> Forall is_byte l ->
  rmd_words be l = le_words 4 16 l.
Proof.
  intros Hl Hb. unfold le_words.
  change (rmd_words be l) with (map (fun i => ReadLE32 be (drop (4 * i) l)) (seq 0 16)).
  apply List.map_ext_in. intros i Hi%List.in_seq.
  apply ReadLE32_val; [rewrite length_drop; lia|by apply Forall_drop].
Qed.

#[export] Hint Opaque ripemd160.Transform sha1.Transform : typeclass_instances.

#[export] Instance rmd_blockfunction be : BlockFunction 64 (ripemd160.Transform be).
Proof.
  split; [done|exists (2 ^ 58); by vm_compute|]. intros s l.
  destruct (decide (length s = 5%nat)) as [Hs|Hs].
  - rewrite !rmd_Transform by done. apply (f_equal (rmd_block s)). unfold rmd_words.
    cbn [map]. unfold ReadLE32. by rewrite !(take_drop_take l 64) by lia.
  - destruct s as [|a [|b [|c [|d [|e [|? ?]]]]]]; first [by destruct Hs | reflexivity].
Qed.

Lemma length_rmd_block h X : length h = 5%nat -> length (rmd_block h X) = 5%nat.
Proof.
  assert (forall steps st, length st = 5%nat -> length (rmd_line X steps st) = 5%nat) as Hr.
  { induction steps as [|[[[f r] k] s] steps IH]; intros st Hst; [done|]. cbn [rmd_line]. apply IH.
    by apply length_5 in Hst as (? & ? & ? & ? & ? & ->). }
  intros Hh. unfold rmd_block.
  pose proof (Hr rmd_left h Hh) as (? & ? & ? & ? & ? & ->)%length_5.
  pose proof (Hr rmd_right h Hh) as (? & ? & ? & ? & ? & ->)%length_5.
  by apply length_5 in Hh as (? & ? & ? & ? & ? & ->).
Qed.

Lemma CRIPEMD160_Finalize_spec be h m : Forall is_byte m ->
  represents 64 (ripemd160.Transform be) ripemd160.Initialize h m ->
  (CRIPEMD160.Finalize be h).2 = RIPEMD160 m.
Proof.
  intros Hm Hh. unfold CRIPEMD160.Finalize. cbn zeta.
  pose proof Hh as (_ & _ & _ & Hn).
  replace (WriteLE64 be (u64 (Z.shiftl (hs_bytes h) 3)))
    with (le_bytes 8 (8 * Z.of_nat (length m)))
    by (rewrite Hn, size_bits, WriteLE64_bytes; symmetry; apply (le_bytes_mod 8)).
  pose proof (represents_padding 64 (ripemd160.Transform be) _ h m 8
    (le_bytes 8 (8 * Z.of_nat (length m))) Hh eq_refl ltac:(lia)) as Hp.
  change (2 * Z.of_nat 64 - 1 - Z.of_nat 8) with 119 in Hp. change (Z.of_nat 64) with 64 in Hp.
  cbn zeta in Hp. change (HashStream.Write 64 (ripemd160.Transform be)) with (CRIPEMD160.Write be) in Hp.
  destruct Hp as (Hs & _). rewrite Hs. clear Hs.
  change (m ++ padding 64 8 (length m) ++ _) with (rmd_pad m).
  destruct (absorbed_agree 64 5 (ripemd160.Transform be) (fun h l => rmd_block h (le_words 4 16 l)))
    with (s := ripemd160.Initialize) (p := rmd_pad m) as [E E5]; [done| | |done| |].
  { intros s l Hs Hl Hb. by rewrite rmd_Transform, rmd_words_val by (done || lia). }
  { intros. by apply length_rmd_block. }
  { unfold rmd_pad. rewrite !Forall_app. split_and!; [done|apply padding_bytes|apply le_bytes_bytes]. }
  unfold RIPEMD160. rewrite E in *. change rmd_h0 with ripemd160.Initialize.
  apply length_5 in E5 as (a & b & c & d & e & ->).
  rewrite !WriteLE32_bytes. cbn [map concat]. by rewrite app_nil_r.
Qed.

(** ** The rounds of SHA-1 *)

Lemma sha1_Round_eq f (g : Z -> Z -> Z -> Z) a b c d e k x b' e' : (forall x y z, g x y z = f x y z) ->
  sha1.Round a b c d e (f b c d) k x = (b', e') ->
  sha1_round g k x [a; b; c; d; e] = [e'; a; b'; c; d].
Proof.
  intros Hg [= <- <-]. unfold sha1_round. rewrite Hg.
  replace (ROL 5 a + f b c d + e + k + x) with (e + (ROL 5 a + f b c d + k + x)) by lia. done.
Qed.

Lemma sha1_line_schedule x0 x1 x2 x3 x4 x5 x6 x7 x8 x9 x10 x11 x12 x13 x14 x15 wt n :
  wt = sha1.left (Z.lxor (Z.lxor (Z.lxor x0 x13) x8) x2) ->
  sha1_schedule (S n) [x0; x1; x2; x3; x4; x5; x6; x7; x8; x9; x10; x11; x12; x13; x14; x15]
  = wt :: sha1_schedule n [x1; x2; x3; x4; x5; x6; x7; x8; x9; x10; x11; x12; x13; x14; x15; wt].
Proof.
  intros ->. cbn [sha1_schedule drop app]. unfold lookup_total; cbn [list_lookup_total].
  assert (forall a b c d, Z.lxor (xor3 a b c) d = Z.lxor (Z.lxor (Z.lxor d a) b) c) as Hx.
  { intros. unfold xor3. rewrite Z.lxor_comm, !Z.lxor_assoc. done. }
  by rewrite Hx.
Qed.

Lemma sha1_line f k x fks ws st st' : sha1_round f k x st = st' ->
  sha1_rounds ((f, k) :: fks) (x :: ws) st = sha1_rounds fks ws st'.
Proof. by intros <-. Qed.

Ltac sha1_run :=
  lazymatch goal with
  | |- (match ?R with (_, _) => _ end) = _ =>
      let b := fresh "v" in let e := fresh "v" in let E := fresh "E" in
      destruct R as [b e] eqn:E;
      first [ apply (sha1_Round_eq sha1.f1 fips_Ch) in E; [|intros; symmetry; apply Ch_fips]
            | apply (sha1_Round_eq sha1.f2 xor3) in E; [|reflexivity]
            | apply (sha1_Round_eq sha1.f3 fips_Maj) in E; [|intros; symmetry; apply Maj_fips] ];
      rewrite (sha1_line _ _ _ _ _ _ _ E); clear E
  end.

Ltac sha1_extend :=
  match goal with
  | E : ?x = _ |- _ => rewrite (sha1_line_schedule _ _ _ _ _ _ _ _ _ _ _ _ _ _ _ _ _ _ E); clear E
  end.

Lemma sha1_Transform be s chunk : length s = 5%nat ->
  sha1.Transform be s chunk = sha1_block s (sha256_words be chunk).
Proof.
  intros (s0 & s1 & s2 & s3 & s4 & ->)%length_5.
  unfold sha1_block, sha256_words, sha1_fks. cbn [map app replicate].
  replace (Z.sqrt (2 * 2 ^ 60)) with sha1.k1 by (vm_compute; reflexivity).
  replace (Z.sqrt (3 * 2 ^ 60)) with sha1.k2 by (vm_compute; reflexivity).
  replace (Z.sqrt (5 * 2 ^ 60)) with sha1.k3 by (vm_compute; reflexivity).
  replace (Z.sqrt (10 * 2 ^ 60)) with sha1.k4 by (vm_compute; reflexivity).
  cbv beta iota delta [sha1.Transform].
  repeat match goal with |- context [ReadBE32 be ?l] => generalize (ReadBE32 be l); intro end.
  do 16 (run_let; subst; sha1_run).
  do 61 (run_let; sha1_extend; sha1_run).
  do 3 (lazymatch goal with
        | |- (match sha1.Round _ _ _ _ _ _ _ ?x with (_, _) => _ end) = _ =>
            let wt := fresh "wt" in remember x as wt
        end; sha1_extend; sha1_run).
  reflexivity.
Qed.


#[export] Instance sha1_blockfunction be : BlockFunction 64 (sha1.Transform be).
Proof.
  split; [done|exists (2 ^ 58); by vm_compute|]. intros s l.
  destruct (decide (length s = 5%nat)) as [Hs|Hs].
  - rewrite !sha1_Transform by done. apply (f_equal (sha1_block s)). unfold sha256_words.
    cbn [map]. unfold ReadBE32. by rewrite !(take_drop_take l 64) by lia.
  - destruct s as [|a [|b [|c [|d [|e [|? ?]]]]]]; first [by destruct Hs | reflexivity].
Qed.

Lemma length_sha1_block H M : length H = 5%nat -> length (sha1_block H M) = 5%nat.
Proof.
  assert (forall fks ws st, length st = 5%nat -> length (sha1_rounds fks ws st) = 5%nat) as Hr.
  { induction fks as [|[f k] fks IH]; intros [|x ws] st Hst; try done. cbn [sha1_rounds]. apply IH.
    by apply length_5 in Hst as (? & ? & ? & ? & ? & ->). }
  intros HH. unfold sha1_block, add_words. by rewrite length_zip_with, HH, Hr.
Qed.

Lemma CSHA1_Finalize_spec be h m : Forall is_byte m ->
  represents 64 (sha1.Transform be) sha1.Initialize h m ->
  (CSHA1.Finalize be h).2 = SHA1 m.
Proof.
  intros Hm Hh. unfold CSHA1.Finalize. cbn zeta.
  pose proof Hh as (_ & _ & _ & Hn).
  replace (WriteBE64 be (u64 (Z.shiftl (hs_bytes h) 3)))
    with (reverse (le_bytes 8 (8 * Z.of_nat (length m)))) by (by rewrite Hn, size_256).
  pose proof (represents_padding 64 (sha1.Transform be) _ h m 8
    (reverse (le_bytes 8 (8 * Z.of_nat (length m)))) Hh eq_refl ltac:(lia)) as Hp.
  change (2 * Z.of_nat 64 - 1 - Z.of_nat 8) with 119 in Hp. change (Z.of_nat 64) with 64 in Hp.
  cbn zeta in Hp. change (HashStream.Write 64 (sha1.Transform be)) with (CSHA1.Write be) in Hp.
  destruct Hp as (Hs & _). rewrite Hs. clear Hs.
  change (m ++ padding 64 8 (length m) ++ _) with (fips_pad 4 m).
  destruct (absorbed_agree 64 5 (sha1.Transform be) (fun H l => sha1_block H (be_words 4 16 l)))
    with (s := sha1.Initialize) (p := fips_pad 4 m) as [E E5];
    [done| | |done|by apply fips_pad_bytes|].
  { intros s l Hs Hl Hb. by rewrite sha1_Transform, sha256_words_val by (done || lia). }
  { intros. by apply length_sha1_block. }
  unfold SHA1, fips_digest. change (16 * 4)%nat with 64%nat. rewrite E in *.
  change rmd_h0 with sha1.Initialize.
  apply length_5 in E5 as (a & b & c & d & e & ->).
  rewrite !WriteBE32_bytes. cbn [map concat]. by rewrite app_nil_r.
Qed.

(** ** Claims *)

(** C37: a [CRIPEMD160] object that is given a message in any pieces, starting with any contents of
    its buffer and on a host of either byte order, returns the digest of RIPEMD-160. *)
Theorem CRIPEMD160_correct be buf pieces : length buf = 64%nat -> Forall (Forall is_byte) pieces ->
  (CRIPEMD160.Finalize be (fold_left (CRIPEMD160.Write be) pieces (CRIPEMD160.new buf))).2
  = RIPEMD160 (concat pieces).
Proof.
  intros Hb Hp. apply CRIPEMD160_Finalize_spec; [by apply Forall_concat|].
  by apply (Writes_represent 64 (ripemd160.Transform be) _ _ [] pieces), represents_start; [apply _|].
Qed.

Lemma CRIPEMD160_correct_witness :
  (CRIPEMD160.Finalize false
    (CRIPEMD160.Write false (CRIPEMD160.Write false (CRIPEMD160.new (replicate 64 7)) [97; 98]) [99])).2
  = RIPEMD160 [97; 98; 99]
  /\ RIPEMD160 [97; 98; 99] =
     [142; 178; 8; 247; 224; 93; 152; 122; 155; 4; 74; 142; 152; 198; 176; 135; 241; 90; 11; 252].
Proof.
  split; [|vm_compute; reflexivity].
  apply (CRIPEMD160_correct false (replicate 64 7) [[97; 98]; [99]]); [reflexivity|by_decide].
Defined.

(** The same for [CSHA1] and FIPS 180-4. *)
Theorem CSHA1_correct be buf pieces : length buf = 64%nat -> Forall (Forall is_byte) pieces ->
  (CSHA1.Finalize be (fold_left (CSHA1.Write be) pieces (CSHA1.new buf))).2 = SHA1 (concat pieces).
Proof.
  intros Hb Hp. apply CSHA1_Finalize_spec; [by apply Forall_concat|].
  by apply (Writes_represent 64 (sha1.Transform be) _ _ [] pieces), represents_start; [apply _|].
Qed.
