(* ===== verification/Hash.v ===== *)
(** * Hash: the compositions of hash functions the program uses

    Models [src/src/hash.h] ([CHash256], [CHash160], [Hash], [Hash160], [CHashWriter],
    [SerializeHash]), [src/src/crypto/hmac_sha256.h/.cpp], [src/src/crypto/hmac_sha512.h/.cpp]
    and [BIP32Hash] of [src/src/hash.cpp].  What a hash class promises to the code that
    composes it is the class [HashObject]; [CSHA256], [CSHA512] and [CRIPEMD160] are instances.
    The theorems show that the compositions are the double hash, the hash of the hash and the
    HMAC of RFC 2104. *)
From S2P Require Import Prelude Endian Uint256 HashStream Sha2 Ripemd.

(** ** The interface *)

(** A hash class: its objects, with [B] bytes of buffer and digests of [D] bytes, compute the
    function [H] on the messages [ok] admits. *)
Class HashObject (B D : nat) (new : list Z -> hasher) (Write : hasher -> list Z -> hasher)
    (Finalize : hasher -> hasher * list Z) (ok : list Z -> Prop) (H : list Z -> list Z) : Type := {
  (** the object was given the message *)
  ho_holds : hasher -> list Z -> Prop;
  ho_new : forall buf, length buf = B -> ho_holds (new buf) [];
  ho_write : forall h m data, ho_holds h m -> ho_holds (Write h data) (m ++ data);
  ho_finalize : forall h m, ho_holds h m -> ok m -> (Finalize h).2 = H m;
  ho_digest : forall m, length (H m) = D /\ Forall is_byte (H m);
  ho_ok : forall m, ok m -> Forall is_byte m
}.

(** ** hash.h *)

Module CHash256.
Definition Write := CSHA256.Write.

Definition Finalize (be : bool) (sha : hasher) : hasher * list Z :=
  let '(sha, buf) := CSHA256.Finalize be sha in
  CSHA256.Finalize be (CSHA256.Write be (CSHA256.Reset sha) buf).

Definition Reset := CSHA256.Reset.
End CHash256.

Module CHash160.
Definition Write := CSHA256.Write.

(** The temporary [CRIPEMD160] object has a buffer of its own, [buf2]. *)
Definition Finalize (be : bool) (buf2 : list Z) (sha : hasher) : list Z :=
  let '(sha, buf) := CSHA256.Finalize be sha in
  (CRIPEMD160.Finalize be (CRIPEMD160.Write be (CRIPEMD160.new buf2) buf)).2.

Definition Reset := CSHA256.Reset.
End CHash160.

(** The functions on ranges; an empty range is given to [Write] as a pointer to another byte
    and the length 0.  [buf] and [buf2] are what the memory of the objects held. *)
Definition Hash (be : bool) (buf : list Z) (p1 : list Z) : list Z :=
  (CHash256.Finalize be (CHash256.Write be (CSHA256.new buf) p1)).2.

Definition Hash_2 (be : bool) (buf : list Z) (p1 p2 : list Z) : list Z :=
  (CHash256.Finalize be (CHash256.Write be (CHash256.Write be (CSHA256.new buf) p1) p2)).2.

Definition Hash_3 (be : bool) (buf : list Z) (p1 p2 p3 : list Z) : list Z :=
  (CHash256.Finalize be
    (CHash256.Write be (CHash256.Write be (CHash256.Write be (CSHA256.new buf) p1) p2) p3)).2.

Definition Hash160 (be : bool) (buf buf2 : list Z) (p1 : list Z) : list Z :=
  CHash160.Finalize be buf2 (CHash160.Write be (CSHA256.new buf) p1).

(** A stream for serialization; [Serialize] calls [write] with the pieces of an object. *)
Module CHashWriter.
Record CHashWriter := { ctx : hasher; nType : Z; nVersion : Z }.

Definition new (buf : list Z) (nTypeIn nVersionIn : Z) : CHashWriter :=
  {| ctx := CSHA256.new buf; nType := nTypeIn; nVersion := nVersionIn |}.

Definition write (be : bool) (w : CHashWriter) (pch : list Z) : CHashWriter :=
  {| ctx := CHash256.Write be (ctx w) pch; nType := nType w; nVersion := nVersion w |}.

Definition GetHash (be : bool) (w : CHashWriter) : list Z := (CHash256.Finalize be (ctx w)).2.

(** [operator<<], for an object whose serialization makes the calls [pieces]. *)
Definition shl (be : bool) (w : CHashWriter) (pieces : list (list Z)) : CHashWriter :=
  fold_left (write be) pieces w.
End CHashWriter.

Definition SerializeHash (be : bool) (buf : list Z) (nType nVersion : Z)
    (obj : Z -> Z -> list (list Z)) : list Z :=
  CHashWriter.GetHash be
    (CHashWriter.shl be (CHashWriter.new buf nType nVersion) (obj nType nVersion)).

(** ** crypto/hmac_sha256.cpp and crypto/hmac_sha512.cpp *)

Record hmac := Hmac { outer : hasher; inner : hasher }.

(** [rkey[n] ^= c] for every [n]. *)
Definition xor_key (c : Z) (rkey : list Z) : list Z := map (fun b => Z.lxor b c) rkey.

Module CHMAC_SHA256.
(** [bo], [bi] and [bt] are what the buffers of [outer], [inner] and of the temporary object
    held. *)
Definition new (be : bool) (bo bi bt key : list Z) : hmac :=
  let rkey :=
    if (length key <=? 64)%nat
    then key ++ replicate (64 - length key) 0
    else (CSHA256.Finalize be (CSHA256.Write be (CSHA256.new bt) key)).2 ++ replicate 32 0 in
  let rkey := xor_key 0x5c rkey in
  let outer := CSHA256.Write be (CSHA256.new bo) rkey in
  let rkey := xor_key (Z.lxor 0x5c 0x36) rkey in
  let inner := CSHA256.Write be (CSHA256.new bi) rkey in
  Hmac outer inner.

Definition Write (be : bool) (h : hmac) (data : list Z) : hmac :=
  Hmac (outer h) (CSHA256.Write be (inner h) data).

Definition Finalize (be : bool) (h : hmac) : list Z :=
  let '(inner, temp) := CSHA256.Finalize be (inner h) in
  (CSHA256.Finalize be (CSHA256.Write be (outer h) temp)).2.
End CHMAC_SHA256.

Module CHMAC_SHA512.
Definition new (be : bool) (bo bi bt key : list Z) : hmac :=
  let rkey :=
    if (length key <=? 128)%nat
    then key ++ replicate (128 - length key) 0
    else (CSHA512.Finalize be (CSHA512.Write be (CSHA512.new bt) key)).2 ++ replicate 64 0 in
  let rkey := xor_key 0x5c rkey in
  let outer := CSHA512.Write be (CSHA512.new bo) rkey in
  let rkey := xor_key (Z.lxor 0x5c 0x36) rkey in
  let inner := CSHA512.Write be (CSHA512.new bi) rkey in
  Hmac outer inner.

Definition Write (be : bool) (h : hmac) (data : list Z) : hmac :=
  Hmac (outer h) (CSHA512.Write be (inner h) data).

Definition Finalize (be : bool) (h : hmac) : list Z :=
  let '(inner, temp) := CSHA512.Finalize be (inner h) in
  (CSHA512.Finalize be (CSHA512.Write be (outer h) temp)).2.
End CHMAC_SHA512.

(** ** hash.cpp: BIP32Hash *)

Definition BIP32Hash (be : bool) (bo bi bt : list Z) (chainCode : list Z) (nChild header : Z)
    (data : list Z) : list Z :=
  let num := [Z.land (Z.shiftr nChild 24) 0xFF; Z.land (Z.shiftr nChild 16) 0xFF;
              Z.land (Z.shiftr nChild 8) 0xFF; Z.land (Z.shiftr nChild 0) 0xFF] in
  CHMAC_SHA512.Finalize be
    (CHMAC_SHA512.Write be (CHMAC_SHA512.Write be (CHMAC_SHA512.Write be
       (CHMAC_SHA512.new be bo bi bt chainCode) [header]) data) num).

(** ** The reference: RFC 2104 *)

Definition hmac_key (H : list Z -> list Z) (B : nat) (key : list Z) : list Z :=
  let k := if decide (length key <= B)%nat then key else H key in
  k ++ replicate (B - length k) 0.

Definition HMAC (H : list Z -> list Z) (B : nat) (key m : list Z) : list Z :=
  H (xor_key 0x5c (hmac_key H B key) ++ H (xor_key 0x36 (hmac_key H B key) ++ m)).

(** ** Instances *)

Lemma digest_words_be n l :
  length (concat (map (fun x => reverse (le_bytes n x)) l)) = (n * length l)%nat
  /\ Forall is_byte (concat (map (fun x => reverse (le_bytes n x)) l)).
Proof.
  induction l as [|x l [IH1 IH2]]; [simpl; by rewrite Nat.mul_0_r|]. cbn [map concat].
  rewrite length_app, length_reverse, length_le_bytes, IH1, Forall_app. split; [simpl; lia|].
  split; [apply Forall_reverse, le_bytes_bytes|done].
Qed.

Lemma digest_words_le n l :
  length (concat (map (le_bytes n) l)) = (n * length l)%nat
  /\ Forall is_byte (concat (map (le_bytes n) l)).
Proof.
  induction l as [|x l [IH1 IH2]]; [simpl; by rewrite Nat.mul_0_r|]. cbn [map concat].
  rewrite length_app, length_le_bytes, IH1, Forall_app. split; [simpl; lia|].
  split; [apply le_bytes_bytes|done].
Qed.

(** A fold of a function that keeps the length keeps it. *)
Lemma length_absorbed B n step s p : (forall s l, length s = n -> length (step s l) = n) ->
  length s = n -> length (absorbed B step s p) = n.
Proof.
  intros Hs. unfold absorbed. generalize (length p / B)%nat as k. intros k.
  revert s p. induction k as [|k IH]; intros s p H; [done|]. cbn [absorb]. by apply IH, Hs.
Qed.

Lemma SHA256_digest m : length (SHA256 m) = 32%nat /\ Forall is_byte (SHA256 m).
Proof.
  unfold SHA256, fips_digest.
  set (l := absorbed _ _ _ _). destruct (digest_words_be 4 l) as [E Hb].
  split; [|done]. rewrite E. unfold l. rewrite (length_absorbed _ 8); [done| |done].
  intros. by apply length_fips_block.
Qed.

Lemma SHA512_digest m : length (SHA512 m) = 64%nat /\ Forall is_byte (SHA512 m).
Proof.
  unfold SHA512, fips_digest.
  set (l := absorbed _ _ _ _). destruct (digest_words_be 8 l) as [E Hb].
  split; [|done]. rewrite E. unfold l. rewrite (length_absorbed _ 8); [done| |done].
  intros. by apply length_fips_block.
Qed.

Lemma RIPEMD160_digest m : length (RIPEMD160 m) = 20%nat /\ Forall is_byte (RIPEMD160 m).
Proof.
  unfold RIPEMD160.
  set (l := absorbed _ _ _ _). destruct (digest_words_le 4 l) as [E Hb].
  split; [|done]. rewrite E. unfold l. rewrite (length_absorbed _ 5); [done| |done].
  intros. by apply length_rmd_block.
Qed.

#[export] Instance CSHA256_object be :
  HashObject 64 32 CSHA256.new (CSHA256.Write be) (CSHA256.Finalize be) (Forall is_byte) SHA256.
Proof.
  refine {| ho_holds := represents 64 (sha256.Transform be) sha256.Initialize |}.
  - intros buf Hb. by apply represents_start; [apply _|].
  - intros h m data Hh. by apply Write_represents; [apply _|].
  - intros h m Hh Hm. by apply CSHA256_Finalize_spec.
  - apply SHA256_digest.
  - done.
Defined.

Definition short_bytes (m : list Z) : Prop := Forall is_byte m /\ 8 * Z.of_nat (length m) < 2 ^ 64.

#[export] Instance CSHA512_object be :
  HashObject 128 64 CSHA512.new (CSHA512.Write be) (CSHA512.Finalize be) short_bytes SHA512.
Proof.
  refine {| ho_holds := represents 128 (sha512.Transform be) sha512.Initialize |}.
  - intros buf Hb. by apply represents_start; [apply _|].
  - intros h m data Hh. by apply Write_represents; [apply _|].
  - intros h m Hh [Hm Hl]. by apply CSHA512_Finalize_spec.
  - apply SHA512_digest.
  - by intros m [Hm _].
Defined.

#[export] Instance CRIPEMD160_object be :
  HashObject 64 20 CRIPEMD160.new (CRIPEMD160.Write be) (CRIPEMD160.Finalize be) (Forall is_byte) RIPEMD160.
Proof.
  refine {| ho_holds := represents 64 (ripemd160.Transform be) ripemd160.Initialize |}.
  - intros buf Hb. by apply represents_start; [apply _|].
  - intros h m data Hh. by apply Write_represents; [apply _|].
  - intros h m Hh Hm. by apply CRIPEMD160_Finalize_spec.
  - apply RIPEMD160_digest.
  - done.
Defined.

(** ** Clients of the interface *)

Section client.
Context {B D new Write Finalize ok H} `{HO : !HashObject B D new Write Finalize ok H}.

Lemma ho_writes h m pieces : ho_holds h m -> ho_holds (fold_left Write pieces h) (m ++ concat pieces).
Proof using HO.
  revert h m. induction pieces as [|p ps IH]; intros h m Hh; simpl; [by rewrite app_nil_r|].
  rewrite (assoc_L (++)). by apply IH, ho_write.
Qed.

Lemma ho_once buf m : length buf = B -> ok m -> (Finalize (Write (new buf) m)).2 = H m.
Proof using HO. intros Hb Hm. apply ho_finalize; [|done]. by apply (ho_write _ []), ho_new. Qed.

(** The key the constructor of an HMAC object uses. *)
Lemma hmac_key_code bt key : length bt = B -> (D <= B)%nat -> ok key ->
  (if (length key <=? B)%nat then key ++ replicate (B - length key) 0
   else (Finalize (Write (new bt) key)).2 ++ replicate (B - D) 0) = hmac_key H B key.
Proof using HO.
  intros Hb HD Hk. unfold hmac_key. destruct (Nat.leb_spec (length key) B), (decide _); try lia; [done|].
  rewrite ho_once by done. by rewrite (proj1 (ho_digest (H:=H) key)).
Qed.

Lemma hmac_key_wf key : (D <= B)%nat -> ok key ->
  length (hmac_key H B key) = B /\ Forall is_byte (hmac_key H B key).
Proof using HO.
  intros HD Hk. unfold hmac_key. destruct (ho_digest (H:=H) key) as [El Eb].
  pose proof (ho_ok (HashObject := HO) key Hk) as Hkb.
  destruct (decide (length key <= B)%nat); rewrite length_app, length_replicate, Forall_app;
    (split; [lia|split; [done|by apply Forall_replicate]]).
Qed.

(** The two objects of an HMAC, from the masked keys on. *)
Lemma hmac_objects bo bi key pieces : length bo = B -> length bi = B ->
  let k := hmac_key H B key in
  ok (xor_key 0x36 k ++ concat pieces) ->
  ok (xor_key 0x5c k ++ H (xor_key 0x36 k ++ concat pieces)) ->
  (Finalize (Write (Write (new bo) (xor_key 0x5c k))
    (Finalize (fold_left Write pieces (Write (new bi) (xor_key 0x36 k)))).2)).2
  = HMAC H B key (concat pieces).
Proof using HO.
  intros Ho Hi k Hok1 Hok2.
  rewrite (ho_finalize (fold_left Write pieces _) (xor_key 0x36 k ++ concat pieces)); [|by apply ho_writes, (ho_write _ []), ho_new|done].
  rewrite (ho_finalize _ (xor_key 0x5c k ++ H (xor_key 0x36 k ++ concat pieces))); [done| |done].
  by apply ho_write, (ho_write _ []), ho_new.
Qed.
End client.

Lemma xor_key_twice a b k : xor_key (Z.lxor a b) (xor_key a k) = xor_key b k.
Proof.
  unfold xor_key. rewrite List.map_map. apply List.map_ext. intros x.
  rewrite Z.lxor_assoc, <- (Z.lxor_assoc a a b), Z.lxor_nilpotent. by rewrite Z.lxor_0_l.
Qed.

Lemma is_u_lxor w a b : 0 <= w -> is_u w a -> is_u w b -> is_u w (Z.lxor a b).
Proof.
  intros Hw Ha Hb. replace (Z.lxor a b) with (uwrap w (Z.lxor a b)); [by apply uwrap_range|].
  unfold uwrap. rewrite <- (Z.mod_small a (2 ^ w)), <- (Z.mod_small b (2 ^ w)) at 2 by done.
  apply Z.bits_inj'. intros i Hi. rewrite Z.lxor_spec.
  destruct (decide (i < w)).
  - by rewrite !Z.mod_pow2_bits_low, Z.lxor_spec by lia.
  - by rewrite !Z.mod_pow2_bits_high by lia.
Qed.

Lemma xor_key_bytes c k : is_byte c -> Forall is_byte k -> Forall is_byte (xor_key c k).
Proof.
  intros Hc Hk. unfold xor_key. apply Forall_map. apply (Forall_impl _ _ _ Hk).
  intros b Hb. by apply is_u_lxor.
Qed.

(** The state an object is left in can be reset. *)
Lemma CSHA256_Finalize_buf be h m : represents 64 (sha256.Transform be) sha256.Initialize h m ->
  length (hs_buf (CSHA256.Finalize be h).1) = 64%nat.
Proof.
  intros Hh. unfold CSHA256.Finalize. cbn [fst].
  set (p := take _ _). set (z := WriteBE64 _ _).
  by destruct (Write_represents 64 (sha256.Transform be) _ _ _ z
    (Write_represents 64 (sha256.Transform be) _ _ _ p Hh)) as (_ & _ & E & _).
Qed.

Lemma CHash256_Finalize_spec be h m : Forall is_byte m ->
  represents 64 (sha256.Transform be) sha256.Initialize h m ->
  (CHash256.Finalize be h).2 = SHA256 (SHA256 m).
Proof.
  intros Hm Hh. unfold CHash256.Finalize.
  pose proof (CSHA256_Finalize_spec be h m Hm Hh) as E.
  pose proof (CSHA256_Finalize_buf be h m Hh) as Hb.
  destruct (CSHA256.Finalize be h) as [sha buf]. cbn [fst snd] in E, Hb. subst buf.
  apply (ho_once (HO := CSHA256_object be)); [done|apply SHA256_digest].
Qed.

Lemma CHash160_Finalize_spec be buf2 h m : Forall is_byte m -> length buf2 = 64%nat ->
  represents 64 (sha256.Transform be) sha256.Initialize h m ->
  CHash160.Finalize be buf2 h = RIPEMD160 (SHA256 m).
Proof.
  intros Hm Hb Hh. unfold CHash160.Finalize.
  pose proof (CSHA256_Finalize_spec be h m Hm Hh) as E.
  destruct (CSHA256.Finalize be h) as [sha buf]. cbn [snd] in E. subst buf.
  apply (ho_once (HO := CRIPEMD160_object be)); [done|apply SHA256_digest].
Qed.

Lemma shl_ctx be w pieces :
  CHashWriter.ctx (CHashWriter.shl be w pieces)
  = fold_left (CSHA256.Write be) pieces (CHashWriter.ctx w).
Proof. revert w. induction pieces as [|p ps IH]; intros w; [done|]. apply IH. Qed.

(** Writing to an HMAC object writes to its inner object. *)
Lemma CHMAC_SHA256_fold be pieces h :
  fold_left (CHMAC_SHA256.Write be) pieces h
  = Hmac (outer h) (fold_left (CSHA256.Write be) pieces (inner h)).
Proof. revert h. induction pieces as [|p ps IH]; intros h; [by destruct h|]. simpl. by rewrite IH. Qed.

Lemma CHMAC_SHA512_fold be pieces h :
  fold_left (CHMAC_SHA512.Write be) pieces h
  = Hmac (outer h) (fold_left (CSHA512.Write be) pieces (inner h)).
Proof. revert h. induction pieces as [|p ps IH]; intros h; [by destruct h|]. simpl. by rewrite IH. Qed.

Lemma CHMAC_SHA256_spec be bo bi bt key pieces :
  length bo = 64%nat -> length bi = 64%nat -> length bt = 64%nat ->
  Forall is_byte key -> Forall (Forall is_byte) pieces ->
  CHMAC_SHA256.Finalize be
    (fold_left (CHMAC_SHA256.Write be) pieces (CHMAC_SHA256.new be bo bi bt key))
  = HMAC SHA256 64 key (concat pieces).
Proof.
  intros Ho Hi Ht Hk Hp.
  assert (Forall is_byte (concat pieces)) as Hc by (by apply Forall_concat).
  rewrite CHMAC_SHA256_fold. unfold CHMAC_SHA256.new, CHMAC_SHA256.Finalize. cbn zeta. cbn [outer inner].
  rewrite xor_key_twice, (hmac_key_code (HO := CSHA256_object be)) by (done || lia).
  destruct (hmac_key_wf (HO := CSHA256_object be) key ltac:(lia) Hk) as [_ Hkb].
  rewrite <- (hmac_objects (HO := CSHA256_object be) bo bi key pieces Ho Hi);
    [by destruct (CSHA256.Finalize be (fold_left _ _ _))| |];
    apply Forall_app; (split; [by apply xor_key_bytes|]); [done|apply SHA256_digest].
Qed.

Lemma CHMAC_SHA512_spec be bo bi bt key pieces :
  length bo = 128%nat -> length bi = 128%nat -> length bt = 128%nat ->
  Forall is_byte key -> Forall (Forall is_byte) pieces ->
  8 * (128 + Z.of_nat (length key + length (concat pieces))) < 2 ^ 64 ->
  CHMAC_SHA512.Finalize be
    (fold_left (CHMAC_SHA512.Write be) pieces (CHMAC_SHA512.new be bo bi bt key))
  = HMAC SHA512 128 key (concat pieces).
Proof.
  intros Ho Hi Ht Hk Hp Hl.
  assert (Forall is_byte (concat pieces)) as Hc by (by apply Forall_concat).
  assert (short_bytes key) as Hsk by (split; [done|lia]).
  rewrite CHMAC_SHA512_fold. unfold CHMAC_SHA512.new, CHMAC_SHA512.Finalize. cbn zeta. cbn [outer inner].
  rewrite xor_key_twice, (hmac_key_code (HO := CSHA512_object be)) by (done || lia).
  destruct (hmac_key_wf (HO := CSHA512_object be) key ltac:(lia) Hsk) as [Hkl Hkb].
  assert (forall c, length (xor_key c (hmac_key SHA512 128 key)) = 128%nat) as Hx
    by (intros; unfold xor_key; by rewrite length_map).
  rewrite <- (hmac_objects (HO := CSHA512_object be) bo bi key pieces Ho Hi);
    [by destruct (CSHA512.Finalize be (fold_left _ _ _))| |];
    (split; [apply Forall_app; split; [by apply xor_key_bytes|]|rewrite length_app, Hx]).
  - done.
  - lia.
  - apply SHA512_digest.
  - rewrite (proj1 (SHA512_digest _)). lia.
Qed.

(** ** Claims *)

(** The hash functions of [hash.h] are the compositions their comments name: [Hash] of one, two
    or three ranges is the double SHA-256 of their concatenation, [Hash160] is RIPEMD-160 of
    SHA-256, and the hash of a serialization is the double SHA-256 of the bytes written, in
    whatever pieces; the digests have the sizes of [uint256] and [uint160]. *)
Theorem hashes_correct be buf buf2 p1 p2 p3 nType nVersion obj :
  length buf = 64%nat -> length buf2 = 64%nat ->
  Forall is_byte p1 -> Forall is_byte p2 -> Forall is_byte p3 ->
  Forall (Forall is_byte) (obj nType nVersion) ->
  Hash be buf p1 = SHA256 (SHA256 p1)
  /\ Hash_2 be buf p1 p2 = SHA256 (SHA256 (p1 ++ p2))
  /\ Hash_3 be buf p1 p2 p3 = SHA256 (SHA256 (p1 ++ p2 ++ p3))
  /\ Hash160 be buf buf2 p1 = RIPEMD160 (SHA256 p1)
  /\ SerializeHash be buf nType nVersion obj = SHA256 (SHA256 (concat (obj nType nVersion)))
  /\ blob_wf 32 (Hash be buf p1) /\ blob_wf 20 (Hash160 be buf buf2 p1).
Proof.
  intros Hb Hb2 H1 H2 H3 Ho.
  pose proof (fun ps => ho_writes (HO := CSHA256_object be) (CSHA256.new buf) [] ps
    (ho_new (HashObject := CSHA256_object be) buf Hb)) as Hw. cbn [ho_holds CSHA256_object app] in Hw.
  assert (forall ps, Forall (Forall is_byte) ps ->
    (CHash256.Finalize be (fold_left (CSHA256.Write be) ps (CSHA256.new buf))).2
    = SHA256 (SHA256 (concat ps))) as Hh.
  { intros ps Hps. apply CHash256_Finalize_spec; [by apply Forall_concat|apply Hw]. }
  assert (Hash be buf p1 = SHA256 (SHA256 p1)) as E1.
  { rewrite <- (app_nil_r p1) at 2. apply (Hh [p1]). by repeat constructor. }
  assert (Hash160 be buf buf2 p1 = RIPEMD160 (SHA256 p1)) as E160.
  { rewrite <- (app_nil_r p1) at 2. apply CHash160_Finalize_spec; [by rewrite app_nil_r|done|].
    apply (Hw [p1]). }
  split_and!; [done| | |done| | |].
  - rewrite <- (app_nil_r p2) at 2. apply (Hh [p1; p2]). by repeat constructor.
  - rewrite <- (app_nil_r p3) at 2. apply (Hh [p1; p2; p3]). by repeat constructor.
  - unfold SerializeHash, CHashWriter.GetHash. rewrite shl_ctx. by apply Hh.
  - rewrite E1. apply SHA256_digest.
  - rewrite E160. apply RIPEMD160_digest.
Qed.

Lemma hashes_correct_witness :
  Hash true (replicate 64 9) [97] = SHA256 (SHA256 [97])
  /\ Hash_2 true (replicate 64 9) [97] [98] = SHA256 (SHA256 [97; 98])
  /\ Hash_3 true (replicate 64 9) [97] [98] [99] = SHA256 (SHA256 [97; 98; 99])
  /\ Hash160 true (replicate 64 9) (replicate 64 5) [97] = RIPEMD160 (SHA256 [97])
  /\ SerializeHash true (replicate 64 9) 1 2 (fun t v => [[t]; [v]; []]) = SHA256 (SHA256 [1; 2])
  /\ blob_wf 32 (Hash true (replicate 64 9) [97])
  /\ blob_wf 20 (Hash160 true (replicate 64 9) (replicate 64 5) [97]).
Proof.
  apply (hashes_correct true (replicate 64 9) (replicate 64 5) [97] [98] [99] 1 2
    (fun t v => [[t]; [v]; []])); first [reflexivity | by_decide].
Defined.

(** The HMAC objects compute the HMAC of RFC 2104, for keys of any length and messages in any
    pieces; for SHA-512 as long as the counter of bits suffices. *)
Theorem hmac_correct be bo bi bt bo' bi' bt' key pieces :
  length bo = 64%nat -> length bi = 64%nat -> length bt = 64%nat ->
  length bo' = 128%nat -> length bi' = 128%nat -> length bt' = 128%nat ->
  Forall is_byte key -> Forall (Forall is_byte) pieces ->
  8 * (128 + Z.of_nat (length key + length (concat pieces))) < 2 ^ 64 ->
  CHMAC_SHA256.Finalize be
    (fold_left (CHMAC_SHA256.Write be) pieces (CHMAC_SHA256.new be bo bi bt key))
  = HMAC SHA256 64 key (concat pieces)
  /\ CHMAC_SHA512.Finalize be
    (fold_left (CHMAC_SHA512.Write be) pieces (CHMAC_SHA512.new be bo' bi' bt' key))
  = HMAC SHA512 128 key (concat pieces).
Proof.
  intros. split; [by apply CHMAC_SHA256_spec|by apply CHMAC_SHA512_spec].
Qed.

Lemma hmac_correct_witness :
  CHMAC_SHA256.Finalize false
    (fold_left (CHMAC_SHA256.Write false) [[119]; [104; 97; 116]]
       (CHMAC_SHA256.new false (replicate 64 0) (replicate 64 1) (replicate 64 2) [74; 101; 102; 101]))
  = HMAC SHA256 64 [74; 101; 102; 101] [119; 104; 97; 116]
  /\ CHMAC_SHA512.Finalize false
    (fold_left (CHMAC_SHA512.Write false) [[119]; [104; 97; 116]]
       (CHMAC_SHA512.new false (replicate 128 0) (replicate 128 1) (replicate 128 2) [74; 101; 102; 101]))
  = HMAC SHA512 128 [74; 101; 102; 101] [119; 104; 97; 116].
Proof.
  apply (hmac_correct false (replicate 64 0) (replicate 64 1) (replicate 64 2)
    (replicate 128 0) (replicate 128 1) (replicate 128 2) [74; 101; 102; 101] [[119]; [104; 97; 116]]);
    first [reflexivity | by_decide].
Defined.

(** The key derivation of BIP 32 is the HMAC-SHA512, under the chain code, of the header, the
    data and the index with its most significant byte first. *)
Theorem BIP32Hash_correct be bo bi bt chainCode nChild header data :
  length bo = 128%nat -> length bi = 128%nat -> length bt = 128%nat ->
  blob_wf 32 chainCode -> blob_wf 32 data -> is_byte header -> is_u 32 nChild ->
  BIP32Hash be bo bi bt chainCode nChild header data
  = HMAC SHA512 128 chainCode ([header] ++ data ++ reverse (le_bytes 4 nChild)).
Proof.
  intros Ho Hi Ht [Hcl Hcb] [Hdl Hdb] Hh Hn. unfold BIP32Hash.
  assert ([Z.land (Z.shiftr nChild 24) 0xFF; Z.land (Z.shiftr nChild 16) 0xFF;
           Z.land (Z.shiftr nChild 8) 0xFF; Z.land (Z.shiftr nChild 0) 0xFF]
          = reverse (le_bytes 4 nChild)) as ->.
  { cbn [le_bytes reverse rev_append]. change 0xFF with (2 ^ 8 - 1).
    rewrite !land_mask, !Z.shiftr_div_pow2, Z.div_1_r, !Z.div_div by lia. done. }
  set (num := reverse (le_bytes 4 nChild)).
  assert (length num = 4%nat) as Hnl by (unfold num; by rewrite length_reverse, length_le_bytes).
  rewrite <- (app_nil_r num) at 2.
  apply (CHMAC_SHA512_spec be bo bi bt chainCode [[header]; data; num]); try done.
  - constructor; [by constructor|]. constructor; [done|]. constructor; [|done].
    apply Forall_reverse, le_bytes_bytes.
  - cbn [concat]. rewrite !length_app, Hcl, Hdl, Hnl. cbn [length]. lia.
Qed.
