(* ===== verification/SipHash.v ===== *)
(** * SipHash: the hashes for tables and filters

    Models the rest of [src/src/hash.cpp]: [MurmurHash3], used by Bloom filters, the class
    [CSipHasher] and the function [SipHashUint256], used for short identifiers and hash maps,
    and [univHash], the index into the table of recent stakes of [src/src/validation.cpp].
    The references are the SipHash-2-4 of a byte string and the Murmur hash as a fold over
    words. *)
From S2P Require Import Prelude Endian Uint256.

(** ** MurmurHash3 *)

Definition ROTL32 (x r : Z) : Z := Z.lor (u32 (Z.shiftl x r)) (Z.shiftr x (32 - r)).

Section murmur.
Variable be : bool.

Definition c1 : Z := 0xcc9e2d51.
Definition c2 : Z := 0x1b873593.

(** The body: [n] blocks are left, [p] points to the first of them. *)
Fixpoint murmur_blocks (n : nat) (p : list Z) (h1 : Z) : Z :=
  match n with
  | O => h1
  | S n' =>
      let k1 := ReadLE32 be p in
      let k1 := u32 (k1 * c1) in
      let k1 := ROTL32 k1 15 in
      let k1 := u32 (k1 * c2) in
      let h1 := Z.lxor h1 k1 in
      let h1 := ROTL32 h1 13 in
      let h1 := u32 (h1 * 5 + 0xe6546b64) in
      murmur_blocks n' (drop 4 p) h1
  end.

(** The tail: the cases of the switch fall through. *)
Definition murmur_tail (tail : list Z) (rem : nat) (h1 : Z) : Z :=
  let k1 := 0 in
  let k1 := if (3 <=? rem)%nat then Z.lxor k1 (Z.shiftl (tail !!! 2%nat) 16) else k1 in
  let k1 := if (2 <=? rem)%nat then Z.lxor k1 (Z.shiftl (tail !!! 1%nat) 8) else k1 in
  if (1 <=? rem)%nat
  then
    let k1 := Z.lxor k1 (tail !!! 0%nat) in
    let k1 := u32 (k1 * c1) in
    let k1 := ROTL32 k1 15 in
    let k1 := u32 (k1 * c2) in
    Z.lxor h1 k1
  else h1.

Definition MurmurHash3 (nHashSeed : Z) (vDataToHash : list Z) : Z :=
  let h1 := nHashSeed in
  let size := length vDataToHash in
  let h1 :=
    if (0 <? size)%nat
    then
      let nblocks := (size / 4)%nat in
      let h1 := murmur_blocks nblocks vDataToHash h1 in
      murmur_tail (drop (nblocks * 4) vDataToHash) (size mod 4) h1
    else h1 in
  let h1 := u32 (Z.lxor h1 (Z.of_nat size)) in
  let h1 := Z.lxor h1 (Z.shiftr h1 16) in
  let h1 := u32 (h1 * 0x85ebca6b) in
  let h1 := Z.lxor h1 (Z.shiftr h1 13) in
  let h1 := u32 (h1 * 0xc2b2ae35) in
  Z.lxor h1 (Z.shiftr h1 16).
End murmur.

(** ** SipHash *)

Definition ROTL (x b : Z) : Z := Z.lor (u64 (Z.shiftl x b)) (Z.shiftr x (64 - b)).

(** The four local variables [v0, ..., v3]. *)
Record sipv := V { v0 : Z; v1 : Z; v2 : Z; v3 : Z }.

Definition SIPROUND (v : sipv) : sipv :=
  let '(V v0 v1 v2 v3) := v in
  let v0 := u64 (v0 + v1) in let v1 := ROTL v1 13 in let v1 := Z.lxor v1 v0 in
  let v0 := ROTL v0 32 in
  let v2 := u64 (v2 + v3) in let v3 := ROTL v3 16 in let v3 := Z.lxor v3 v2 in
  let v0 := u64 (v0 + v3) in let v3 := ROTL v3 21 in let v3 := Z.lxor v3 v0 in
  let v2 := u64 (v2 + v1) in let v1 := ROTL v1 17 in let v1 := Z.lxor v1 v2 in
  let v2 := ROTL v2 32 in
  V v0 v1 v2 v3.

Definition xor_v0 (d : Z) (v : sipv) : sipv := V (Z.lxor (v0 v) d) (v1 v) (v2 v) (v3 v).
Definition xor_v2 (d : Z) (v : sipv) : sipv := V (v0 v) (v1 v) (Z.lxor (v2 v) d) (v3 v).
Definition xor_v3 (d : Z) (v : sipv) : sipv := V (v0 v) (v1 v) (v2 v) (Z.lxor (v3 v) d).

Module CSipHasher.
Record CSipHasher := { v : sipv; tmp : Z; count : Z }.

Definition new (k0 k1 : Z) : CSipHasher :=
  {| v := V (Z.lxor 0x736f6d6570736575 k0) (Z.lxor 0x646f72616e646f6d k1)
            (Z.lxor 0x6c7967656e657261 k0) (Z.lxor 0x7465646279746573 k1);
     tmp := 0; count := 0 |}.

(** A failed [assert] is [None]. *)
Definition Write (h : CSipHasher) (data : Z) : option CSipHasher :=
  if negb (Z.rem (count h) 8 =? 0) then None
  else
    let w := xor_v3 data (v h) in
    let w := SIPROUND w in
    let w := SIPROUND w in
    let w := xor_v0 data w in
    Some {| v := w; tmp := tmp h; count := i32 (count h + 8) |}.

(** The loop on the bytes; [count] is an [int]. *)
Fixpoint write_loop (data : list Z) (w : sipv) (t c : Z) : sipv * Z * Z :=
  match data with
  | [] => (w, t, c)
  | b :: data' =>
      let t := Z.lor t (u64 (Z.shiftl b (8 * Z.rem c 8))) in
      let c := i32 (c + 1) in
      if Z.land c 7 =? 0
      then
        let w := xor_v3 t w in
        let w := SIPROUND w in
        let w := SIPROUND w in
        let w := xor_v0 t w in
        write_loop data' w 0 c
      else write_loop data' w t c
  end.

Definition WriteBytes (h : CSipHasher) (data : list Z) : CSipHasher :=
  let '(w, t, c) := write_loop data (v h) (tmp h) (count h) in
  {| v := w; tmp := t; count := c |}.

Definition Finalize (h : CSipHasher) : Z :=
  let w := v h in
  let t := Z.lor (tmp h) (u64 (Z.shiftl (u64 (count h)) 56)) in
  let w := xor_v3 t w in
  let w := SIPROUND w in
  let w := SIPROUND w in
  let w := xor_v0 t w in
  let w := xor_v2 0xFF w in
  let w := SIPROUND w in
  let w := SIPROUND w in
  let w := SIPROUND w in
  let w := SIPROUND w in
  Z.lxor (Z.lxor (Z.lxor (v0 w) (v1 w)) (v2 w)) (v3 w).
End CSipHasher.

Definition SipHashUint256 (k0 k1 : Z) (val : list Z) : Z :=
  let d := GetUint64 val 0 in
  let w := V (Z.lxor 0x736f6d6570736575 k0) (Z.lxor 0x646f72616e646f6d k1)
             (Z.lxor 0x6c7967656e657261 k0) (Z.lxor (Z.lxor 0x7465646279746573 k1) d) in
  let w := SIPROUND w in let w := SIPROUND w in
  let w := xor_v0 d w in
  let d := GetUint64 val 1 in
  let w := xor_v3 d w in
  let w := SIPROUND w in let w := SIPROUND w in
  let w := xor_v0 d w in
  let d := GetUint64 val 2 in
  let w := xor_v3 d w in
  let w := SIPROUND w in let w := SIPROUND w in
  let w := xor_v0 d w in
  let d := GetUint64 val 3 in
  let w := xor_v3 d w in
  let w := SIPROUND w in let w := SIPROUND w in
  let w := xor_v0 d w in
  let w := xor_v3 (u64 (Z.shiftl 4 59)) w in
  let w := SIPROUND w in let w := SIPROUND w in
  let w := xor_v0 (u64 (Z.shiftl 4 59)) w in
  let w := xor_v2 0xFF w in
  let w := SIPROUND w in let w := SIPROUND w in
  let w := SIPROUND w in let w := SIPROUND w in
  Z.lxor (Z.lxor (Z.lxor (v0 w) (v1 w)) (v2 w)) (v3 w).

(** ** univHash *)

(** [p[i]] is the [i]-th 32-bit word of the blob in the host's order; the sums are unsigned,
    and [h], an [int], takes their bits. *)
Definition univ_mix (be : bool) (mfcoinRandseed : Z) (x : list Z) : Z :=
  let p (i : nat) := host_load be (take 4 (drop (i * 4) x)) in
  for_range 0 8 (fun i h =>
    i32 (Z.lxor h (u32 (Z.shiftr (p i) (Z.land h 0xf) + u32 (Z.shiftr mfcoinRandseed (Z.of_nat i))))))
    (Z.shiftr mfcoinRandseed 20).

(** The last sum is one of two [int]s, taken here with wrap-around. *)
Definition univHash (be : bool) (mfcoinRandseed : Z) (x : list Z) : Z :=
  let h := univ_mix be mfcoinRandseed x in
  Z.land (i32 (h + Z.shiftr h 16)) 1023.

(** ** The reference *)

(** One word of the message. *)
Definition sip_compress (w : sipv) (m : Z) : sipv :=
  xor_v0 m (SIPROUND (SIPROUND (xor_v3 m w))).

(** The words of a message, and the last one: the bytes left and the length modulo 256. *)
Fixpoint sip_words (n : nat) (m : list Z) : list Z :=
  match n with
  | O => []
  | S n' => le_val (take 8 m) :: sip_words n' (drop 8 m)
  end.

Definition sip_last (m : list Z) : Z :=
  le_val (drop (length m / 8 * 8) m) + 2 ^ 56 * (Z.of_nat (length m) mod 256).

Definition SipHash24 (k0 k1 : Z) (m : list Z) : Z :=
  let w := fold_left sip_compress (sip_words (length m / 8) m ++ [sip_last m])
    (V (Z.lxor 0x736f6d6570736575 k0) (Z.lxor 0x646f72616e646f6d k1)
       (Z.lxor 0x6c7967656e657261 k0) (Z.lxor 0x7465646279746573 k1)) in
  let w := Nat.iter 4 SIPROUND (xor_v2 0xFF w) in
  Z.lxor (Z.lxor (Z.lxor (v0 w) (v1 w)) (v2 w)) (v3 w).

(** Calls on an object, in order. *)
Inductive sip_op := SipWord (data : Z) | SipBytes (data : list Z).

Definition sip_run1 (h : CSipHasher.CSipHasher) (op : sip_op) : option CSipHasher.CSipHasher :=
  match op with
  | SipWord data => CSipHasher.Write h data
  | SipBytes data => Some (CSipHasher.WriteBytes h data)
  end.

Fixpoint sip_run (h : CSipHasher.CSipHasher) (ops : list sip_op) : option CSipHasher.CSipHasher :=
  match ops with
  | [] => Some h
  | op :: ops' => h' ← sip_run1 h op; sip_run h' ops'
  end.

(** What the calls hash, and whether words are written only after whole words. *)
Definition sip_data (op : sip_op) : list Z :=
  match op with SipWord data => le_bytes 8 data | SipBytes data => data end.

Fixpoint sip_aligned (n : nat) (ops : list sip_op) : bool :=
  match ops with
  | [] => true
  | SipWord _ :: ops' => (n mod 8 =? 0)%nat && sip_aligned (n + 8) ops'
  | SipBytes data :: ops' => sip_aligned (n + length data) ops'
  end.

Definition sip_op_wf (op : sip_op) : Prop :=
  match op with SipWord data => is_u 64 data | SipBytes data => Forall is_byte data end.

(** ** Facts *)

Lemma sip_words_add a b m : sip_words (a + b) m = sip_words a m ++ sip_words b (drop (a * 8) m).
Proof.
  revert m. induction a as [|a IH]; intros m; [done|]. cbn [Nat.add sip_words app].
  rewrite IH, drop_drop. done.
Qed.

Lemma sip_words_app a m r : (a * 8 <= length m)%nat -> sip_words a (m ++ r) = sip_words a m.
Proof.
  revert m. induction a as [|a IH]; intros m H; [done|]. cbn [sip_words].
  rewrite take_app_le, drop_app_le by lia. rewrite IH by (rewrite length_drop; lia). done.
Qed.

Section sip.
Variables k0 k1 : Z.

(** The object was given [m]. *)
Definition sip_holds (h : CSipHasher.CSipHasher) (m : list Z) : Prop :=
  CSipHasher.v h = fold_left sip_compress (sip_words (length m / 8) m) (CSipHasher.v (CSipHasher.new k0 k1))
  /\ CSipHasher.tmp h = le_val (drop (length m / 8 * 8) m)
  /\ CSipHasher.count h = Z.of_nat (length m)
  /\ Forall is_byte m.

Lemma div8 n : (n = n / 8 * 8 + n mod 8 /\ n mod 8 < 8)%nat.
Proof. pose proof (Nat.div_mod_eq n 8). pose proof (Nat.mod_upper_bound n 8). lia. Qed.

(** Eight more bytes are one more word. *)
Lemma sip_words_snoc m r : (length (m ++ r) = (length m / 8 + 1) * 8)%nat ->
  sip_words (length (m ++ r) / 8) (m ++ r)
  = sip_words (length m / 8) m ++ [le_val (drop (length m / 8 * 8) m ++ r)]
  /\ drop (length (m ++ r) / 8 * 8) (m ++ r) = [].
Proof.
  intros Hl. rewrite Hl, Nat.div_mul by done. pose proof (div8 (length m)) as [Hm _].
  split; [|apply drop_ge; lia].
  rewrite sip_words_add, sip_words_app by lia. f_equal. cbn [sip_words].
  rewrite drop_app_le, take_ge by (rewrite ?length_app, ?length_drop in *; lia). done.
Qed.

Lemma byte_step h m b w t c : sip_holds h m -> is_byte b -> Z.of_nat (length m) + 1 < 2 ^ 31 ->
  CSipHasher.write_loop [b] (CSipHasher.v h) (CSipHasher.tmp h) (CSipHasher.count h) = (w, t, c) ->
  sip_holds {| CSipHasher.v := w; CSipHasher.tmp := t; CSipHasher.count := c |} (m ++ [b]).
Proof.
  intros (Hv & Ht & Hc & Hm) Hb Hlen. cbn [CSipHasher.write_loop].
  pose proof (div8 (length m)) as [Hd Hr]. set (rest := drop (length m / 8 * 8) m) in *.
  assert (length rest = length m mod 8)%nat as Hrl by (unfold rest; rewrite length_drop; lia).
  assert (Z.lor (CSipHasher.tmp h) (u64 (Z.shiftl b (8 * Z.rem (CSipHasher.count h) 8)))
          = le_val (rest ++ [b])) as ->.
  { rewrite Hc, Z.rem_mod_nonneg by lia. change 8 with (Z.of_nat 8) at 2.
    rewrite <- Nat2Z.inj_mod, <- Hrl, Ht, le_val_app, Z.shiftl_mul_pow2 by lia.
    cbn [le_val foldr]. rewrite Z.mul_0_r, Z.add_0_r.
    pose proof (le_val_bound rest ltac:(by apply Forall_drop)) as Hrb.
    rewrite uwrap_small.
    2:{ pose proof (Z.pow_le_mono_r 2 (8 * Z.of_nat (length rest)) 56 ltac:(lia) ltac:(lia)).
        assert (0 < 2 ^ (8 * Z.of_nat (length rest))) by lia.
        set (P := 2 ^ (8 * Z.of_nat (length rest))) in *. unfold is_u in *.
        change (2 ^ 64) with (2 ^ 8 * 2 ^ 56). nia. }
    rewrite Z.lor_comm, lor_disjoint_add by lia. lia. }
  rewrite Hc, (swrap_small 32) by (unfold is_s; lia).
  change 7 with (2 ^ 3 - 1). rewrite land_mask by lia. change (2 ^ 3) with (Z.of_nat 8).
  replace (Z.of_nat (length m) + 1) with (Z.of_nat (length (m ++ [b]))) by (rewrite length_app; simpl; lia).
  rewrite <- Nat2Z.inj_mod.
  assert (Forall is_byte (m ++ [b])) as Hmb by (apply Forall_app; split; [done|by constructor]).
  pose proof (div8 (length (m ++ [b]))) as [Hd' Hr'].
  assert (length (m ++ [b]) = length m + 1)%nat as HL by (by rewrite length_app).
  destruct (Z.eqb_spec (Z.of_nat (length (m ++ [b]) mod 8)) 0) as [E|E]; intros [= <- <- <-].
  - assert (length (m ++ [b]) mod 8 = 0)%nat as E0 by lia.     destruct (sip_words_snoc m [b]) as [Ew Ed]; [lia|].
    split_and!; cbn [CSipHasher.v CSipHasher.tmp CSipHasher.count]; try done.
    + rewrite Ew, fold_left_app. fold rest. by rewrite <- Hv.
    + by rewrite Ed.
  - assert (length (m ++ [b]) / 8 = length m / 8)%nat as Eq by lia.
    split_and!; cbn [CSipHasher.v CSipHasher.tmp CSipHasher.count]; try done; rewrite Eq.
    + rewrite sip_words_app by lia. done.
    + rewrite drop_app_le by lia. done.
Qed.

Lemma WriteBytes_holds h m data : sip_holds h m -> Forall is_byte data ->
  Z.of_nat (length m + length data) < 2 ^ 31 ->
  sip_holds (CSipHasher.WriteBytes h data) (m ++ data).
Proof.
  intros Hh Hd. revert h m Hh. induction Hd as [|b data Hb _ IH]; intros h m Hh Hl.
  { rewrite app_nil_r. by destruct h. }
  cbn [length] in Hl.
  destruct (CSipHasher.write_loop [b] (CSipHasher.v h) (CSipHasher.tmp h) (CSipHasher.count h))
    as [[w t] c] eqn:E.
  pose proof (byte_step h m b w t c Hh Hb ltac:(lia) E) as Hs.
  replace (m ++ b :: data) with ((m ++ [b]) ++ data) by (by rewrite <- (assoc_L (++))).
  replace (CSipHasher.WriteBytes h (b :: data)) with
    (CSipHasher.WriteBytes {| CSipHasher.v := w; CSipHasher.tmp := t; CSipHasher.count := c |} data).
  { apply IH; [done|]. rewrite length_app. cbn [length]. lia. }
  unfold CSipHasher.WriteBytes. cbn [CSipHasher.write_loop CSipHasher.v CSipHasher.tmp CSipHasher.count] in *.
  by destruct (_ =? 0); simplify_eq.
Qed.

Lemma Write_holds h m data : sip_holds h m -> is_u 64 data ->
  Z.of_nat (length m) + 8 < 2 ^ 31 ->
  if (length m mod 8 =? 0)%nat
  then exists h', CSipHasher.Write h data = Some h' /\ sip_holds h' (m ++ le_bytes 8 data)
  else CSipHasher.Write h data = None.
Proof.
  intros (Hv & Ht & Hc & Hm) Hw Hl. unfold CSipHasher.Write.
  rewrite Hc, Z.rem_mod_nonneg by lia.
  replace (Z.of_nat (length m) mod 8) with (Z.of_nat (length m mod 8)) by (by rewrite Nat2Z.inj_mod).
  pose proof (div8 (length m)) as [Hd Hr].
  assert (length (le_bytes 8 data) = 8%nat) as E8 by apply length_le_bytes.
  destruct (Nat.eqb_spec (length m mod 8) 0) as [E|E].
  2:{ rewrite (proj2 (Z.eqb_neq _ _)) by lia. done. }
  rewrite E. eexists. split; [done|].
  destruct (sip_words_snoc m (le_bytes 8 data)) as [Ew Ed]; [rewrite length_app, E8; lia|].
  assert (drop (length m / 8 * 8) m = []) as E0 by (apply drop_ge; lia).
  rewrite E0 in Ht, Ew.
  split_and!; cbn [CSipHasher.v CSipHasher.tmp CSipHasher.count].
  - rewrite Ew, fold_left_app, <- Hv. cbn [app fold_left].
    rewrite le_val_le_bytes. by rewrite (uwrap_small 64 data Hw : data mod 2 ^ (8 * Z.of_nat 8) = data).
  - by rewrite Ed.
  - rewrite (swrap_small 32) by (unfold is_s; lia). rewrite length_app, E8. lia.
  - apply Forall_app. split; [done|apply le_bytes_bytes].
Qed.

Lemma new_holds : sip_holds (CSipHasher.new k0 k1) [].
Proof. done. Qed.

(** The last word. *)
Lemma sip_last_code h m : sip_holds h m ->
  Z.lor (CSipHasher.tmp h) (u64 (Z.shiftl (u64 (CSipHasher.count h)) 56)) = sip_last m.
Proof.
  intros (Hv & Ht & Hc & Hm). unfold sip_last. rewrite Ht, Hc.
  pose proof (div8 (length m)) as [Hd Hr].
  assert (u64 (Z.shiftl (u64 (Z.of_nat (length m))) 56) = Z.of_nat (length m) mod 256 * 2 ^ 56) as ->.
  { unfold uwrap. rewrite Z.shiftl_mul_pow2, Z.mul_mod_idemp_l by lia.
    change (2 ^ 64) with (256 * 2 ^ 56). by rewrite Z.mul_mod_distr_r by lia. }
  set (rest := drop (length m / 8 * 8) m).
  pose proof (le_val_bound rest ltac:(by apply Forall_drop)) as Hb.
  assert (length rest <= 7)%nat by (unfold rest; rewrite length_drop; lia).
  pose proof (Z.pow_le_mono_r 2 (8 * Z.of_nat (length rest)) 56 ltac:(lia) ltac:(lia)).
  rewrite Z.lor_comm, lor_disjoint_add by lia. lia.
Qed.

Lemma Finalize_holds h m : sip_holds h m -> CSipHasher.Finalize h = SipHash24 k0 k1 m.
Proof.
  intros Hh. unfold CSipHasher.Finalize. rewrite (sip_last_code h m Hh).
  destruct Hh as (Hv & _). unfold SipHash24. rewrite fold_left_app, Hv. done.
Qed.

(** A sequence of calls. *)
Lemma sip_run_holds ops h m : sip_holds h m -> Forall sip_op_wf ops ->
  Z.of_nat (length m + length (concat (map sip_data ops))) < 2 ^ 31 ->
  if sip_aligned (length m) ops
  then exists h', sip_run h ops = Some h' /\ sip_holds h' (m ++ concat (map sip_data ops))
  else sip_run h ops = None.
Proof.
  intros Hh Hops. revert h m Hh. induction Hops as [|op ops Hop _ IH]; intros h m Hh Hl.
  { exists h. by rewrite app_nil_r. }
  cbn [map concat] in *. rewrite length_app in Hl.
  destruct op as [data|data]; cbn [sip_aligned sip_run sip_run1 sip_data sip_op_wf] in *.
  - rewrite length_le_bytes in Hl. pose proof (Write_holds h m data Hh Hop ltac:(lia)) as Hw.
    destruct (length m mod 8 =? 0)%nat; cbn [andb]; [|by rewrite Hw].
    destruct Hw as (h' & E & Hh'). rewrite E. cbn [mbind option_bind].
    specialize (IH h' _ Hh'). rewrite length_app, length_le_bytes in IH.
    rewrite (assoc_L (++)). apply IH. lia.
  - cbn [mbind option_bind]. specialize (IH _ _ (WriteBytes_holds h m data Hh Hop ltac:(lia))).
    rewrite length_app in IH. rewrite (assoc_L (++)). apply IH. lia.
Qed.
End sip.

(** The specialised function is the general one on 32 bytes. *)
Lemma SipHashUint256_words k0 k1 val :
  SipHashUint256 k0 k1 val =
  let w := fold_left sip_compress
    [GetUint64 val 0; GetUint64 val 1; GetUint64 val 2; GetUint64 val 3; u64 (Z.shiftl 4 59)]
    (CSipHasher.v (CSipHasher.new k0 k1)) in
  let w := Nat.iter 4 SIPROUND (xor_v2 0xFF w) in
  Z.lxor (Z.lxor (Z.lxor (v0 w) (v1 w)) (v2 w)) (v3 w).
Proof.
  cbv beta delta [SipHashUint256 sip_compress CSipHasher.v CSipHasher.new].
  cbn [fold_left]. generalize (u64 (Z.shiftl 4 59)). intros fin.
  generalize (GetUint64 val 0) (GetUint64 val 1) (GetUint64 val 2) (GetUint64 val 3). intros d0 d1 d2 d3.
  with_strategy opaque [SIPROUND xor_v0 xor_v2] reflexivity.
Qed.

Lemma SipHashUint256_24 k0 k1 val : blob_wf 32 val -> SipHashUint256 k0 k1 val = SipHash24 k0 k1 val.
Proof.
  intros [Hl Hb]. rewrite SipHashUint256_words. unfold SipHash24.
  replace (sip_words (length val / 8) val ++ [sip_last val]) with
    [GetUint64 val 0; GetUint64 val 1; GetUint64 val 2; GetUint64 val 3; u64 (Z.shiftl 4 59)]; [done|].
  unfold sip_last. rewrite Hl. change (32 / 8)%nat with 4%nat. rewrite (drop_ge val (4 * 8)) by lia.
  cbn [sip_words]. rewrite !drop_drop.
  by rewrite !GetUint64_val by (done || lia).
Qed.

Lemma is_u_le_val8 l : Forall is_byte l -> (length l <= 8)%nat -> is_u 64 (le_val l).
Proof.
  intros Hb Hl. pose proof (le_val_bound l Hb).
  pose proof (Z.pow_le_mono_r 2 (8 * Z.of_nat (length l)) 64 ltac:(lia) ltac:(lia)). unfold is_u. lia.
Qed.

(** ** Murmur *)

(** The reference: the words of the message, then the bytes left as a shorter word. *)
Definition murmur_mix (k : Z) : Z := u32 (ROTL32 (u32 (k * c1)) 15 * c2).

Definition murmur_ref (seed : Z) (m : list Z) : Z :=
  let words := map (fun i => le_val (take 4 (drop (4 * i) m))) (seq 0 (length m / 4)) in
  let h := fold_left (fun h k => u32 (ROTL32 (Z.lxor h (murmur_mix k)) 13 * 5 + 0xe6546b64)) words seed in
  let h := Z.lxor h (murmur_mix (le_val (drop (4 * (length m / 4)) m))) in
  let h := u32 (Z.lxor h (Z.of_nat (length m))) in
  let h := Z.lxor h (Z.shiftr h 16) in
  let h := u32 (h * 0x85ebca6b) in
  let h := Z.lxor h (Z.shiftr h 13) in
  let h := u32 (h * 0xc2b2ae35) in
  Z.lxor h (Z.shiftr h 16).

Lemma murmur_blocks_ref be n p h : (4 * n <= length p)%nat -> Forall is_byte p ->
  murmur_blocks be n p h
  = fold_left (fun h k => u32 (ROTL32 (Z.lxor h (murmur_mix k)) 13 * 5 + 0xe6546b64))
      (map (fun i => le_val (take 4 (drop (4 * i) p))) (seq 0 n)) h.
Proof.
  revert p h. induction n as [|n IH]; intros p h Hl Hb; [done|].
  cbn [murmur_blocks seq map fold_left]. rewrite ReadLE32_val by (done || lia).
  rewrite IH by (rewrite ?length_drop; auto using Forall_drop; lia).
  rewrite <- seq_shift, List.map_map, Nat.mul_0_r, drop_0. f_equal.
  apply List.map_ext. intros i. rewrite drop_drop. do 3 f_equal. lia.
Qed.

Lemma xor_shift_disjoint a b n : 0 <= n -> 0 <= b < 2 ^ n -> Z.lxor (Z.shiftl a n) b = a * 2 ^ n + b.
Proof.
  intros Hn Hb. rewrite Z.shiftl_mul_pow2 by done. rewrite <- (lor_disjoint_add a b n) by done.
  apply Z.lxor_lor. apply Z.bits_inj'. intros i Hi. rewrite Z.land_spec, Z.bits_0.
  destruct (decide (i < n)); [by rewrite Z.mul_pow2_bits_low|].
  rewrite <- (Z.mod_small b (2 ^ n)), Z.mod_pow2_bits_high by lia. apply andb_false_r.
Qed.

Lemma murmur_tail_ref tl h : (length tl < 4)%nat -> Forall is_byte tl ->
  murmur_tail tl (length tl) h = Z.lxor h (murmur_mix (le_val tl)).
Proof.
  intros Hl Hb. unfold murmur_tail. destruct tl as [|a [|b [|c [|? ?]]]]; [| | | |simpl in Hl; lia].
  - cbn. by rewrite Z.lxor_0_r.
  - inversion_clear Hb as [|? ? Ha _]. cbn [length Nat.leb]. unfold lookup_total; cbn [list_lookup_total].
    cbn [le_val foldr]. rewrite Z.lxor_0_l, Z.mul_0_r, Z.add_0_r. done.
  - inversion_clear Hb as [|? ? Ha Hb']. inversion_clear Hb' as [|? ? Hb _].
    cbn [length Nat.leb]. change ([a; b] !!! 1%nat) with b. change ([a; b] !!! 0%nat) with a.
    rewrite Z.lxor_0_l, xor_shift_disjoint by (unfold is_u in *; lia).
    cbn [le_val foldr]. replace (b * 2 ^ 8 + a) with (a + 2 ^ 8 * (b + 2 ^ 8 * 0)) by lia. done.
  - inversion_clear Hb as [|? ? Ha Hb']. inversion_clear Hb' as [|? ? Hb Hc']. inversion_clear Hc' as [|? ? Hc _].
    cbn [length Nat.leb]. change ([a; b; c] !!! 2%nat) with c. change ([a; b; c] !!! 1%nat) with b.
    change ([a; b; c] !!! 0%nat) with a. unfold is_u in *.
    rewrite Z.lxor_0_l, Z.lxor_assoc, xor_shift_disjoint with (a := b) by lia.
    rewrite xor_shift_disjoint by lia.
    cbn [le_val foldr]. replace (c * 2 ^ 16 + (b * 2 ^ 8 + a)) with (a + 2 ^ 8 * (b + 2 ^ 8 * (c + 2 ^ 8 * 0))) by lia.
    done.
Qed.

(** [MurmurHash3] is the reference on either host. *)
Theorem MurmurHash3_ref be seed m : Forall is_byte m -> MurmurHash3 be seed m = murmur_ref seed m.
Proof.
  intros Hm. unfold MurmurHash3, murmur_ref. cbn zeta.
  pose proof (Nat.div_mod_eq (length m) 4) as Hd. pose proof (Nat.mod_upper_bound (length m) 4).
  destruct (Nat.ltb_spec 0 (length m)) as [Hp|Hp].
  - rewrite murmur_blocks_ref by (done || lia). rewrite (Nat.mul_comm (length m / 4) 4).
    set (tl := drop _ m). replace (length m mod 4)%nat with (length tl) by (unfold tl; rewrite length_drop; lia).
    rewrite murmur_tail_ref; [done| |by apply Forall_drop]. unfold tl. rewrite length_drop. lia.
  - destruct m; [|simpl in Hp; lia].
    change (murmur_mix (le_val (drop (4 * (length (@nil Z) / 4)) []))) with 0.
    change (fold_left _ (map _ (seq 0 (length (@nil Z) / 4))) seed) with seed.
    by rewrite (Z.lxor_0_r seed).
Qed.

(** The vectors of [src/src/test/hash_tests.cpp]. *)
Example MurmurHash3_vectors :
  map (fun sd => MurmurHash3 false sd.1 sd.2)
    [(0, []); (0xFBA4C795, []); (0xffffffff, []); (0, [0]); (0xFBA4C795, [0]); (0, [0xff]);
     (0, [0; 0x11; 0x22]); (0, [0; 0x11; 0x22; 0x33; 0x44; 0x55; 0x66; 0x77; 0x88])]
  = [0; 0x6a396f08; 0x81f16f39; 0x514e28b7; 0xea3f0b17; 0xfd6cf10d; 0x8eb51c3d; 0xb4698def].
Proof. vm_compute. reflexivity. Qed.

(** ** Claims *)

(** However a message is given to a [CSipHasher], in bytes and in words, the result is the
    SipHash-2-4 of its bytes; writing a word after an incomplete one is the assertion failure
    of the code; and [SipHashUint256] is, as its comment says, the same as writing the four
    words of the number. *)
Theorem siphash_correct k0 k1 ops val : Forall sip_op_wf ops ->
  Z.of_nat (length (concat (map sip_data ops))) < 2 ^ 31 -> blob_wf 32 val ->
  (if sip_aligned 0 ops
   then exists h, sip_run (CSipHasher.new k0 k1) ops = Some h
     /\ CSipHasher.Finalize h = SipHash24 k0 k1 (concat (map sip_data ops))
   else sip_run (CSipHasher.new k0 k1) ops = None)
  /\ exists h, sip_run (CSipHasher.new k0 k1)
         [SipWord (GetUint64 val 0); SipWord (GetUint64 val 1);
          SipWord (GetUint64 val 2); SipWord (GetUint64 val 3)] = Some h
       /\ CSipHasher.Finalize h = SipHashUint256 k0 k1 val.
Proof.
  intros Hops Hl Hval. split.
  - pose proof (sip_run_holds k0 k1 ops _ [] (new_holds k0 k1) Hops Hl) as Hr.
    cbn [length app] in Hr. destruct (sip_aligned 0 ops); [|done].
    destruct Hr as (h & E & Hh). exists h. split; [done|by apply Finalize_holds].
  - destruct Hval as [Hvl Hvb].
    set (ws := [_; _; _; _]).
    assert (concat (map sip_data ws) = val) as Ev.
    { unfold ws. cbn [map sip_data concat].
      assert (forall pos, (pos < 4)%nat -> le_bytes 8 (GetUint64 val pos) = take 8 (drop (pos * 8) val)) as Hg.
      { intros pos Hp. rewrite GetUint64_val by (done || lia).
        replace 8%nat with (length (take 8 (drop (pos * 8) val))) at 1
          by (rewrite length_take_le; rewrite ?length_drop; lia).
        by apply le_bytes_le_val, Forall_take, Forall_drop. }
      rewrite !Hg by lia. rewrite app_nil_r. cbn [Nat.mul Nat.add]. rewrite drop_0.
      rewrite (take_ge (drop 24 val)) by (rewrite length_drop; lia).
      replace (drop 24 val) with (drop 8 (drop 16 val)) by (by rewrite drop_drop). rewrite take_drop.
      replace (drop 16 val) with (drop 8 (drop 8 val)) by (by rewrite drop_drop). rewrite !take_drop.
      done. }
    assert (Forall sip_op_wf ws) as Hws.
    { unfold ws. repeat (apply Forall_cons; split); [..|done]; cbn [sip_op_wf];
        rewrite GetUint64_val by (done || lia);
        (eapply is_u_le_val8; [by apply Forall_take, Forall_drop|]; rewrite length_take; lia). }
    destruct (sip_run_holds k0 k1 ws _ [] (new_holds k0 k1) Hws) as (h & E & Hh).
    { rewrite Ev. simpl. lia. }
    exists h. split; [done|]. cbn [app] in Hh. rewrite Ev in Hh.
    rewrite (Finalize_holds k0 k1 h val Hh), SipHashUint256_24 by done. done.
Qed.

Lemma siphash_correct_witness :
  (exists h, sip_run (CSipHasher.new 1 2) [SipBytes [0; 1; 2]; SipBytes [3; 4; 5; 6; 7]; SipWord 9] = Some h
     /\ CSipHasher.Finalize h = SipHash24 1 2 [0; 1; 2; 3; 4; 5; 6; 7; 9; 0; 0; 0; 0; 0; 0; 0])
  /\ exists h, sip_run (CSipHasher.new 1 2)
         [SipWord (GetUint64 (replicate 32 5) 0); SipWord (GetUint64 (replicate 32 5) 1);
          SipWord (GetUint64 (replicate 32 5) 2); SipWord (GetUint64 (replicate 32 5) 3)] = Some h
       /\ CSipHasher.Finalize h = SipHashUint256 1 2 (replicate 32 5).
Proof.
  apply (siphash_correct 1 2 [SipBytes [0; 1; 2]; SipBytes [3; 4; 5; 6; 7]; SipWord 9] (replicate 32 5)).
  - repeat (apply Forall_cons; split); [by_decide..|constructor].
  - reflexivity.
  - by_decide.
Defined.

(** The vectors of [src/src/test/hash_tests.cpp]. *)
Example siphash_vectors :
  let h0 := CSipHasher.new 0x0706050403020100 0x0F0E0D0C0B0A0908 in
  let h1 := CSipHasher.WriteBytes h0 [0] in
  let h2 := CSipHasher.WriteBytes h1 [1; 2; 3; 4; 5; 6; 7] in
  CSipHasher.Finalize h0 = 0x726fdb47dd0e0e31 /\ CSipHasher.Finalize h1 = 0x74f839c593dc67fd
  /\ CSipHasher.Finalize h2 = 0x93f5f5799a932462
  /\ CSipHasher.Finalize <$> CSipHasher.Write h2 0x0F0E0D0C0B0A0908 = Some 0x3f2acc7f57c29bdb.
Proof. vm_compute. done. Qed.

(** The index [univHash] computes is inside the table [vStakeSeen[1024]], whatever the seed. *)
Theorem univHash_bounds be seed x : 0 <= univHash be seed x < 1024.
Proof.
  unfold univHash. change 1023 with (2 ^ 10 - 1). rewrite land_mask by lia.
  change 1024 with (2 ^ 10). by apply Z.mod_pos_bound.
Qed.

(** That sum can leave the range of [int]. *)
Example univHash_overflow :
  let h := univ_mix false 0 (replicate 28 0 ++ [255; 255; 255; 127]) in
  h + Z.shiftr h 16 > 2 ^ 31 - 1.
Proof. vm_compute. reflexivity. Qed.
