(* ===== verification/Bloom.v ===== *)
(** * Bloom: the filters of [bloom.h/.cpp]

    Models [src/src/bloom.h] and [src/src/bloom.cpp]: [CBloomFilter], which a peer sends to
    have transactions selected for it, and [CRollingBloomFilter], which remembers recent
    insertions.  The sizes the constructors compute in floating point are arguments.  A
    division by zero and an index outside the vector are [None].  The theorems show that a
    filter that was checked with [UpdateEmptyFull] never fails, that what was inserted is
    found ever after, that a peer's filter follows the outputs of a relevant transaction to
    their spending, and that the rolling filter remembers as many insertions as its comment
    promises. *)
From S2P Require Import Prelude Endian Uint256 Serialize Transaction Script Standard SipHash.

Definition MAX_BLOOM_FILTER_SIZE : Z := 36000.
Definition MAX_HASH_FUNCS : Z := 50.

Definition BLOOM_UPDATE_NONE : Z := 0.
Definition BLOOM_UPDATE_ALL : Z := 1.
Definition BLOOM_UPDATE_P2PUBKEY_ONLY : Z := 2.
Definition BLOOM_UPDATE_MASK : Z := 3.

(** What the operations can meet: an index or a divisor out of range, or the exception of a
    script number in [Solver]. *)
Inductive bloom_error := OutOfRange | ScriptNumError (e : scriptnum_error).

Definition in_range {A} (o : option A) : result bloom_error A :=
  match o with Some a => Ok a | None => Err OutOfRange end.

(** ** CBloomFilter *)

Module CBloomFilter.
Record CBloomFilter := {
  vData : list Z;
  isFull : bool;
  isEmpty : bool;
  nHashFuncs : Z;
  nTweak : Z;
  nFlags : Z
}.

(** The constructor; [nBits] is [(unsigned int)(-1 / LN2SQUARED * nElements * log(nFPRate))] and
    [nFuncs size] is [(unsigned int)(size * 8 / nElements * LN2)]. *)
Definition new (nBits : Z) (nFuncs : Z -> Z) (nTweakIn nFlagsIn : Z) : CBloomFilter :=
  let vData := replicate (Z.to_nat (Z.min nBits (MAX_BLOOM_FILTER_SIZE * 8) / 8)) 0 in
  {| vData := vData; isFull := false; isEmpty := true;
     nHashFuncs := Z.min (nFuncs (Z.of_nat (length vData))) MAX_HASH_FUNCS;
     nTweak := nTweakIn; nFlags := nFlagsIn |}.

Definition null : CBloomFilter :=
  {| vData := []; isFull := true; isEmpty := false; nHashFuncs := 0; nTweak := 0; nFlags := 0 |}.

(** [SerializationOp]: an object is read into one made by the default constructor. *)
Definition codec (be : bool) : Codec CBloomFilter :=
  ser_iso (fun f => (vData f, (nHashFuncs f, (nTweak f, nFlags f))))
    (fun p => {| vData := p.1; isFull := true; isEmpty := false; nHashFuncs := p.2.1;
                 nTweak := p.2.2.1; nFlags := p.2.2.2 |})
    (ser_pair (ser_byte_vector be) (ser_pair (ser_uint32 be) (ser_pair (ser_uint32 be) ser_uint8))).

Definition set_vData (v : list Z) (f : CBloomFilter) : CBloomFilter :=
  {| vData := v; isFull := isFull f; isEmpty := isEmpty f; nHashFuncs := nHashFuncs f;
     nTweak := nTweak f; nFlags := nFlags f |}.

Definition set_flags (full empty : bool) (f : CBloomFilter) : CBloomFilter :=
  {| vData := vData f; isFull := full; isEmpty := empty; nHashFuncs := nHashFuncs f;
     nTweak := nTweak f; nFlags := nFlags f |}.

Section host.
Variable be : bool.

(** The bit [nIndex] of [vData]. *)
Definition set_bit (v : list Z) (nIndex : Z) : option (list Z) :=
  b ← v !! Z.to_nat (Z.shiftr nIndex 3);
  Some (<[Z.to_nat (Z.shiftr nIndex 3) := u8 (Z.lor b (Z.shiftl 1 (Z.land 7 nIndex)))]> v).

Definition test_bit (v : list Z) (nIndex : Z) : option bool :=
  b ← v !! Z.to_nat (Z.shiftr nIndex 3);
  Some (negb (Z.land b (Z.shiftl 1 (Z.land 7 nIndex)) =? 0)).

Definition Hash (f : CBloomFilter) (nHashNum : Z) (vDataToHash : list Z) : option Z :=
  if (length (vData f) =? 0)%nat then None
  else Some (MurmurHash3 be (u32 (nHashNum * 0xFBA4C795 + nTweak f)) vDataToHash
             mod (Z.of_nat (length (vData f)) * 8)).

(** The loops: [k] rounds are left, [i] is the counter. *)
Fixpoint insert_loop (k : nat) (i : Z) (f : CBloomFilter) (vKey : list Z) : option CBloomFilter :=
  match k with
  | O => Some f
  | S k' =>
      nIndex ← Hash f i vKey;
      v ← set_bit (vData f) nIndex;
      insert_loop k' (i + 1) (set_vData v f) vKey
  end.

Definition insert (f : CBloomFilter) (vKey : list Z) : option CBloomFilter :=
  if isFull f then Some f
  else
    f ← insert_loop (Z.to_nat (nHashFuncs f)) 0 f vKey;
    Some (set_flags (isFull f) false f).

Fixpoint contains_loop (k : nat) (i : Z) (f : CBloomFilter) (vKey : list Z) : option bool :=
  match k with
  | O => Some true
  | S k' =>
      nIndex ← Hash f i vKey;
      b ← test_bit (vData f) nIndex;
      if negb b then Some false else contains_loop k' (i + 1) f vKey
  end.

Definition contains (f : CBloomFilter) (vKey : list Z) : option bool :=
  if isFull f then Some true
  else if isEmpty f then Some false
  else contains_loop (Z.to_nat (nHashFuncs f)) 0 f vKey.

Definition insert_outpoint (f : CBloomFilter) (outpoint : COutPoint.t) : option CBloomFilter :=
  insert f (bytes_of (COutPoint.codec be) outpoint).
Definition contains_outpoint (f : CBloomFilter) (outpoint : COutPoint.t) : option bool :=
  contains f (bytes_of (COutPoint.codec be) outpoint).
Definition insert_hash (f : CBloomFilter) (hash : list Z) : option CBloomFilter := insert f hash.
Definition contains_hash (f : CBloomFilter) (hash : list Z) : option bool := contains f hash.

Definition clear (f : CBloomFilter) : CBloomFilter :=
  set_flags false true (set_vData (replicate (length (vData f)) 0) f).

Definition reset (f : CBloomFilter) (nNewTweak : Z) : CBloomFilter :=
  let f := clear f in
  {| vData := vData f; isFull := isFull f; isEmpty := isEmpty f; nHashFuncs := nHashFuncs f;
     nTweak := nNewTweak; nFlags := nFlags f |}.

Definition IsWithinSizeConstraints (f : CBloomFilter) : bool :=
  (Z.of_nat (length (vData f)) <=? MAX_BLOOM_FILTER_SIZE) && (nHashFuncs f <=? MAX_HASH_FUNCS).

Definition UpdateEmptyFull (f : CBloomFilter) : CBloomFilter :=
  let '(full, empty) :=
    fold_left (fun '(full, empty) b => (full && (b =? 0xff), empty && (b =? 0))) (vData f) (true, true) in
  set_flags full empty f.

(** *** IsRelevantAndUpdate *)

Variable TxHash : list Z -> list Z.

(** The loop on the elements of an output's script, from the iterator [pc]: whether one
    matched, and the filter. *)
Fixpoint scan_output (fuel : nat) (script : list Z) (pc : nat) (outpoint : COutPoint.t)
    (f : CBloomFilter) : result bloom_error (bool * CBloomFilter) :=
  match fuel with
  | O => Ok (false, f)
  | S fuel' =>
      if (pc <? length script)%nat then
        let '(ok, opcode, data, pc) := CScript.GetOp2 be script pc in
        if negb ok then Ok (false, f)
        else
          found ← (if (0 <? length data)%nat then in_range (contains f data) else Ok false);
          if found : bool then
            if Z.land (nFlags f) BLOOM_UPDATE_MASK =? BLOOM_UPDATE_ALL then
              f ← in_range (insert_outpoint f outpoint); Ok (true, f)
            else if Z.land (nFlags f) BLOOM_UPDATE_MASK =? BLOOM_UPDATE_P2PUBKEY_ONLY then
              match Solver be script TX_NONSTANDARD with
              | Err e => Err (ScriptNumError e)
              | Ok (ret, type, _) =>
                  if ret && match type with TX_PUBKEY | TX_MULTISIG => true | _ => false end
                  then f ← in_range (insert_outpoint f outpoint); Ok (true, f)
                  else Ok (true, f)
              end
            else Ok (true, f)
          else scan_output fuel' script pc outpoint f
      else Ok (false, f)
  end.

Fixpoint scan_outputs (vout : list CTxOut.t) (hash : list Z) (i : Z) (fFound : bool) (f : CBloomFilter) :
    result bloom_error (bool * CBloomFilter) :=
  match vout with
  | [] => Ok (fFound, f)
  | txout :: vout' =>
      let script := CTxOut.scriptPubKey txout in
      r ← scan_output (length script) script 0 (COutPoint.mk hash i) f;
      scan_outputs vout' hash (u32 (i + 1)) (fFound || r.1) r.2
  end.

(** The loop on the elements of an input's script. *)
Fixpoint scan_input (fuel : nat) (script : list Z) (pc : nat) (f : CBloomFilter) :
    result bloom_error bool :=
  match fuel with
  | O => Ok false
  | S fuel' =>
      if (pc <? length script)%nat then
        let '(ok, opcode, data, pc) := CScript.GetOp2 be script pc in
        if negb ok then Ok false
        else
          found ← (if (0 <? length data)%nat then in_range (contains f data) else Ok false);
          if found : bool then Ok true else scan_input fuel' script pc f
      else Ok false
  end.

Fixpoint scan_inputs (vin : list CTxIn.t) (f : CBloomFilter) : result bloom_error bool :=
  match vin with
  | [] => Ok false
  | txin :: vin' =>
      found ← in_range (contains_outpoint f (CTxIn.prevout txin));
      if found : bool then Ok true
      else
        found ← scan_input (length (CTxIn.scriptSig txin)) (CTxIn.scriptSig txin) 0 f;
        if found : bool then Ok true else scan_inputs vin' f
  end.

Definition IsRelevantAndUpdate (f : CBloomFilter) (tx : CTransaction) :
    result bloom_error (bool * CBloomFilter) :=
  if isFull f then Ok (true, f)
  else if isEmpty f then Ok (false, f)
  else
    let hash := GetHash TxHash be tx in
    fFound ← in_range (contains_hash f hash);
    r ← scan_outputs (vout tx) hash 0 fFound f;
    if r.1 : bool then Ok (true, r.2)
    else
      found ← scan_inputs (vin tx) r.2;
      Ok (found, r.2).
End host.
End CBloomFilter.

(** ** CRollingBloomFilter *)

Module CRollingBloomFilter.
Record CRollingBloomFilter := {
  nEntriesPerGeneration : Z;
  nEntriesThisGeneration : Z;
  nGeneration : Z;
  data : list Z;
  nTweak : Z;
  nHashFuncs : Z
}.

(** [reset]; [tweak] is what [GetRand] returns. *)
Definition reset (f : CRollingBloomFilter) (tweak : Z) : CRollingBloomFilter :=
  {| nEntriesPerGeneration := nEntriesPerGeneration f; nEntriesThisGeneration := 0; nGeneration := 1;
     data := map (fun _ => 0) (data f); nTweak := tweak; nHashFuncs := nHashFuncs f |}.

(** The constructor; [funcs] is [(int)round(logFpRate / log(0.5))] and [nFilterBits] the number
    of bits computed in floating point. *)
Definition new (nElements funcs nFilterBits tweak : Z) : CRollingBloomFilter :=
  reset {| nEntriesPerGeneration := i32 (u32 (nElements + 1) / 2); nEntriesThisGeneration := 0;
           nGeneration := 1;
           data := replicate (Z.to_nat (u32 (Z.shiftl (u32 (nFilterBits + 63) / 64) 1))) 0;
           nTweak := 0; nHashFuncs := Z.max 1 (Z.min funcs 50) |} tweak.

Section host.
Variable be : bool.

Definition RollingBloomHash (nHashNum tweak : Z) (vDataToHash : list Z) : Z :=
  MurmurHash3 be (u32 (nHashNum * 0xFBA4C795 + tweak)) vDataToHash.

(** The loop that wipes one generation, two words at a time. *)
Fixpoint wipe (m1 m2 : Z) (d : list Z) : list Z :=
  match d with
  | p1 :: p2 :: d' =>
      let mask := Z.lor (Z.lxor p1 m1) (Z.lxor p2 m2) in
      Z.land p1 mask :: Z.land p2 mask :: wipe m1 m2 d'
  | _ => d
  end.

(** Storing one bit of the generation number. *)
Definition put_bit (d : list Z) (at_ : Z) (bit v : Z) : option (list Z) :=
  x ← d !! Z.to_nat at_;
  Some (<[Z.to_nat at_ := Z.lor (Z.land x (u64 (Z.lnot (Z.shiftl 1 bit)))) (Z.shiftl v bit)]> d).

Fixpoint insert_loop (k : nat) (n : Z) (gen tweak : Z) (d vKey : list Z) : option (list Z) :=
  match k with
  | O => Some d
  | S k' =>
      let h := RollingBloomHash n tweak vKey in
      let bit := Z.land h 0x3F in
      if (length d =? 0)%nat then None
      else
        let pos := Z.shiftr h 6 mod Z.of_nat (length d) in
        d ← put_bit d (Z.land pos 0xfffffffe) bit (Z.land gen 1);
        d ← put_bit d (Z.lor pos 1) bit (Z.shiftr gen 1);
        insert_loop k' (n + 1) gen tweak d vKey
  end.

Definition insert (f : CRollingBloomFilter) (vKey : list Z) : option CRollingBloomFilter :=
  let f :=
    if nEntriesThisGeneration f =? nEntriesPerGeneration f
    then
      let g := nGeneration f + 1 in
      let g := if g =? 4 then 1 else g in
      let nGenerationMask1 := u64 (- Z.land g 1) in
      let nGenerationMask2 := u64 (- Z.shiftr g 1) in
      {| nEntriesPerGeneration := nEntriesPerGeneration f; nEntriesThisGeneration := 0;
         nGeneration := g; data := wipe nGenerationMask1 nGenerationMask2 (data f);
         nTweak := nTweak f; nHashFuncs := nHashFuncs f |}
    else f in
  d ← insert_loop (Z.to_nat (nHashFuncs f)) 0 (nGeneration f) (nTweak f) (data f) vKey;
  Some {| nEntriesPerGeneration := nEntriesPerGeneration f;
          nEntriesThisGeneration := nEntriesThisGeneration f + 1;
          nGeneration := nGeneration f; data := d; nTweak := nTweak f; nHashFuncs := nHashFuncs f |}.

Fixpoint contains_loop (k : nat) (n : Z) (tweak : Z) (d vKey : list Z) : option bool :=
  match k with
  | O => Some true
  | S k' =>
      let h := RollingBloomHash n tweak vKey in
      let bit := Z.land h 0x3F in
      if (length d =? 0)%nat then None
      else
        let pos := Z.shiftr h 6 mod Z.of_nat (length d) in
        x ← d !! Z.to_nat (Z.land pos 0xfffffffe);
        y ← d !! Z.to_nat (Z.lor pos 1);
        if Z.land (Z.shiftr (Z.lor x y) bit) 1 =? 0 then Some false
        else contains_loop k' (n + 1) tweak d vKey
  end.

Definition contains (f : CRollingBloomFilter) (vKey : list Z) : option bool :=
  contains_loop (Z.to_nat (nHashFuncs f)) 0 (nTweak f) (data f) vKey.
End host.
End CRollingBloomFilter.

(** ** Facts about CBloomFilter *)

Module BloomFacts.
Import CBloomFilter.

(** The bit [n] of a vector of bytes. *)
Definition bit (v : list Z) (n : Z) : bool :=
  match v !! Z.to_nat (n / 8) with Some b => Z.testbit b (n mod 8) | None => false end.

(** What a filter made by the constructors, or received and checked, satisfies: only a full
    filter may be without bytes, and the flags are true. *)
Record bloom_wf (f : CBloomFilter) : Prop := {
  bw_bytes : Forall is_byte (vData f);
  bw_size : vData f = [] -> isFull f = true;
  bw_full : isFull f = true -> Forall (eq 0xff) (vData f);
  bw_empty : isFull f = false -> isEmpty f = true -> Forall (eq 0) (vData f);
  bw_funcs : 0 <= nHashFuncs f
}.

(** [g] is [f] with more bits set. *)
Record grows (f g : CBloomFilter) : Prop := {
  gr_len : length (vData g) = length (vData f);
  gr_funcs : nHashFuncs g = nHashFuncs f;
  gr_tweak : nTweak g = nTweak f;
  gr_flags : nFlags g = nFlags f;
  gr_bits : forall n, 0 <= n -> bit (vData f) n = true -> bit (vData g) n = true
}.

#[export] Instance grows_preorder : PreOrder grows.
Proof.
  split.
  - intros f. by constructor.
  - intros f g h [H1 H2 H3 H4 H5] [G1 G2 G3 G4 G5]. constructor; try congruence. auto.
Qed.

Lemma land7 n : Z.land 7 n = n mod 8.
Proof. rewrite Z.land_comm. change 7 with (2 ^ 3 - 1). by rewrite land_mask. Qed.

Lemma shiftr3 n : Z.shiftr n 3 = n / 8.
Proof. by rewrite Z.shiftr_div_pow2. Qed.

Lemma index_lookup (v : list Z) n : 0 <= n < Z.of_nat (length v) * 8 ->
  exists b, v !! Z.to_nat (n / 8) = Some b.
Proof.
  intros Hn. apply lookup_lt_is_Some_2. apply Nat2Z.inj_lt. rewrite Z2Nat.id by (apply Z.div_pos; lia).
  apply Z.div_lt_upper_bound; lia.
Qed.

Lemma test_bit_spec v n : 0 <= n < Z.of_nat (length v) * 8 -> test_bit v n = Some (bit v n).
Proof.
  intros Hn. unfold test_bit, bit. rewrite shiftr3, land7.
  destruct (index_lookup v n Hn) as [b ->]. cbn [mbind option_bind]. f_equal.
  rewrite Z.shiftl_1_l. pose proof (Z.mod_pos_bound n 8).
  destruct (Z.testbit b (n mod 8)) eqn:E.
  - apply negb_true_iff, Z.eqb_neq. intros H0. apply (f_equal (fun x => Z.testbit x (n mod 8))) in H0.
    rewrite Z.land_spec, Z.pow2_bits_true, E, Z.bits_0 in H0 by lia. done.
  - apply negb_false_iff, Z.eqb_eq. apply Z.bits_inj'. intros i Hi. rewrite Z.land_spec, Z.bits_0.
    rewrite Z.pow2_bits_eqb by lia. destruct (Z.eqb_spec (n mod 8) i) as [<-|]; [by rewrite E|].
    apply andb_false_r.
Qed.

Lemma set_bit_spec v n : Forall is_byte v -> 0 <= n < Z.of_nat (length v) * 8 ->
  exists v', set_bit v n = Some v' /\ length v' = length v /\ Forall is_byte v'
    /\ (forall k, 0 <= k -> bit v' k = bit v k || (k =? n)).
Proof.
  intros Hv Hn. unfold set_bit. rewrite shiftr3, land7.
  destruct (index_lookup v n Hn) as [b Eb]. rewrite Eb. cbn [mbind option_bind].
  pose proof (Z.mod_pos_bound n 8 ltac:(lia)) as Hm.
  assert (is_byte b) as Hb by (by apply (Forall_lookup_1 _ _ _ _ Hv Eb)).
  assert (is_byte (Z.lor b (2 ^ (n mod 8)))) as Hb'.
  { apply lor_bound; [lia|done|]. split; [lia|]. apply Z.pow_lt_mono_r; lia. }
  rewrite Z.shiftl_1_l, uwrap_small by done.
  eexists. split; [done|]. split; [by rewrite length_insert|].
  split; [by apply Forall_insert|].
  intros k Hk. unfold bit. pose proof (Z.div_mod k 8 ltac:(lia)). pose proof (Z.div_mod n 8 ltac:(lia)).
  pose proof (Z.mod_pos_bound k 8 ltac:(lia)).
  assert (0 <= n / 8) by (apply Z.div_pos; lia). assert (0 <= k / 8) by (apply Z.div_pos; lia).
  destruct (decide (k / 8 = n / 8)) as [E|E].
  - rewrite E, list_lookup_insert_eq, Eb by (by eapply lookup_lt_Some).
    rewrite Z.lor_spec, Z.pow2_bits_eqb by lia. f_equal.
    destruct (Z.eqb_spec (n mod 8) (k mod 8)), (Z.eqb_spec k n); try done; lia.
  - rewrite list_lookup_insert_ne by lia. rewrite (proj2 (Z.eqb_neq k n)) by (by intros ->).
    by rewrite orb_false_r.
Qed.

Section host.
Variable be : bool.

(** The positions of a key. *)
Definition position (f : CBloomFilter) (i : Z) (key : list Z) : Z :=
  MurmurHash3 be (u32 (i * 0xFBA4C795 + nTweak f)) key mod (Z.of_nat (length (vData f)) * 8).

Lemma Hash_position f i key : vData f <> [] ->
  Hash be f i key = Some (position f i key)
  /\ 0 <= position f i key < Z.of_nat (length (vData f)) * 8.
Proof.
  intros Hn. unfold Hash, position. destruct (vData f) as [|b v]; [done|]. cbn [length Nat.eqb].
  split; [done|]. apply Z.mod_pos_bound. lia.
Qed.

(** The bits of a key from number [i] on. *)
Definition key_in (f : CBloomFilter) (key : list Z) : Prop :=
  forall i, 0 <= i < nHashFuncs f -> bit (vData f) (position f i key) = true.

Lemma position_same f g i key : length (vData g) = length (vData f) -> nTweak g = nTweak f ->
  position g i key = position f i key.
Proof. intros E1 E2. unfold position. by rewrite E1, E2. Qed.

Lemma key_in_grows f g key : vData f <> [] -> grows f g -> key_in f key -> key_in g key.
Proof.
  intros Hn [G1 G2 G3 G4 G5] Hk i Hi. rewrite (position_same f) by done.
  apply G5; [apply (Hash_position f i key Hn)|apply Hk; lia].
Qed.

(** One loop of [insert]: it succeeds, sets the bits of its rounds and no others. *)
Lemma insert_loop_spec k i f key : vData f <> [] -> Forall is_byte (vData f) -> 0 <= i ->
  exists v, insert_loop be k i f key = Some (set_vData v f)
    /\ grows f (set_vData v f) /\ Forall is_byte v
    /\ forall j, i <= j < i + Z.of_nat k -> bit v (position f j key) = true.
Proof.
  revert i f. induction k as [|k IH]; intros i f Hn Hb Hi.
  { exists (vData f). assert (set_vData (vData f) f = f) as -> by (by destruct f).
    split_and!; [done|done|done|lia]. }
  cbn [insert_loop]. destruct (Hash_position f i key Hn) as [-> Hp]. cbn [mbind option_bind].
  destruct (set_bit_spec (vData f) _ Hb Hp) as (v & -> & Hl & Hvb & Hbit). cbn [mbind option_bind].
  destruct (IH (i + 1) (set_vData v f)) as (v' & E & Hg & Hvb' & Hj); cbn [vData set_vData]; try done; try lia.
  { intros ->. by destruct (vData f). }
  exists v'. assert (set_vData v' (set_vData v f) = set_vData v' f) as Es by done. rewrite Es in *.
  assert (grows f (set_vData v f)) as Hg1.
  { constructor; cbn; try done. intros n Hn0 E0. by rewrite Hbit, E0 by done. }
  split_and!; [done|by etrans|done|].
  intros j Hj0. destruct (decide (j = i)) as [->|].
  - apply (gr_bits _ _ Hg); [lia|]. cbn [set_vData vData]. rewrite Hbit by lia.
    by rewrite Z.eqb_refl, orb_true_r.
  - rewrite <- (position_same f (set_vData v f)) by done. apply Hj. lia.
Qed.

Lemma contains_loop_spec k i f key : vData f <> [] -> 0 <= i ->
  exists b, contains_loop be k i f key = Some b
    /\ (b = true <-> forall j, i <= j < i + Z.of_nat k -> bit (vData f) (position f j key) = true).
Proof.
  intros Hn. revert i. induction k as [|k IH]; intros i Hi.
  { exists true. split; [done|]. split; [lia|done]. }
  cbn [contains_loop]. destruct (Hash_position f i key Hn) as [-> Hp]. cbn [mbind option_bind].
  rewrite test_bit_spec by done. cbn [mbind option_bind].
  destruct (bit (vData f) (position f i key)) eqn:E; cbn [negb].
  - destruct (IH (i + 1) ltac:(lia)) as (b & -> & Hb). exists b. split; [done|]. rewrite Hb.
    split; intros H j Hj; [|apply H; lia]. destruct (decide (j = i)) as [->|]; [done|apply H; lia].
  - exists false. split; [done|]. split; [done|]. intros H. rewrite <- E. apply H. lia.
Qed.

(** A filter that keeps the invariant answers: what is in it is found. *)
Lemma contains_spec f key : bloom_wf f ->
  exists b, contains be f key = Some b
    /\ (b = true <-> isFull f = true \/ (isEmpty f = false /\ key_in f key)).
Proof.
  intros Hw. unfold contains. destruct (isFull f) eqn:Ef; [exists true; tauto|].
  assert (vData f <> []) as Hn by (intros E; by rewrite (bw_size f Hw E) in Ef).
  destruct (isEmpty f) eqn:Ee; [exists false; split; [done|]; split; [done|by intros [?|[? _]]]|].
  destruct (contains_loop_spec (Z.to_nat (nHashFuncs f)) 0 f key Hn ltac:(lia)) as (b & -> & Hb).
  exists b. split; [done|]. rewrite Hb. unfold key_in. pose proof (bw_funcs f Hw).
  replace (0 + Z.of_nat (Z.to_nat (nHashFuncs f))) with (nHashFuncs f) by lia.
  split; [intros H0; by right|]. by intros [?|[_ ?]].
Qed.

(** [insert] keeps the invariant, sets bits only, and inserts. *)
Lemma insert_spec f key : bloom_wf f ->
  exists g, insert be f key = Some g /\ bloom_wf g /\ grows f g
    /\ isFull g = isFull f /\ (isFull g = true \/ isEmpty g = false /\ key_in g key).
Proof.
  intros Hw. unfold insert. destruct (isFull f) eqn:Ef.
  { exists f. split_and!; [done|done|done|done|by left]. }
  assert (vData f <> []) as Hn by (intros E; by rewrite (bw_size f Hw E) in Ef).
  destruct (insert_loop_spec (Z.to_nat (nHashFuncs f)) 0 f key Hn (bw_bytes f Hw) ltac:(lia))
    as (v & -> & Hg & Hb & Hj). cbn [mbind option_bind].
  pose proof (bw_funcs f Hw). pose proof (gr_len _ _ Hg) as Hl. cbn [set_vData vData] in Hl.
  eexists. split; [done|]. split; [|split; [|split]].
  - constructor; cbn [set_flags set_vData vData isFull isEmpty nHashFuncs]; rewrite ?Ef; try done.
    intros ->. by destruct (vData f).
  - destruct Hg as [G1 G2 G3 G4 G5]. by constructor.
  - done.
  - right. split; [done|]. intros i Hi. cbn [set_flags set_vData vData nHashFuncs] in *.
    rewrite (position_same f) by done. apply Hj. lia.
Qed.

(** What the operations on a connection's filter keep: bits, and answers. *)
Record later (f g : CBloomFilter) : Prop := {
  lt_grows : grows f g;
  lt_full : isFull g = isFull f;
  lt_empty : isEmpty f = false -> isEmpty g = false
}.

#[export] Instance later_preorder : PreOrder later.
Proof.
  split; [intros f; by constructor|].
  intros f g h [F1 F2 F3] [G1 G2 G3]. constructor; [by etrans|congruence|auto].
Qed.

Definition finds (f : CBloomFilter) (key : list Z) : Prop := contains be f key = Some true.

Lemma finds_iff f key : bloom_wf f ->
  finds f key <-> isFull f = true \/ (isEmpty f = false /\ key_in f key).
Proof.
  intros Hw. destruct (contains_spec f key Hw) as (b & E & Hb). unfold finds. rewrite E, <- Hb.
  split; congruence.
Qed.

Lemma finds_later f g key : bloom_wf f -> bloom_wf g -> later f g -> finds f key -> finds g key.
Proof.
  intros Hf Hg [L1 L2 L3]. rewrite !finds_iff, L2 by done. intros [?|[He Hk]]; [by left|].
  destruct (isFull f) eqn:Ef; [by left|]. right. split; [auto|].
  apply (key_in_grows f); [|done|done]. intros E. by rewrite (bw_size f Hf E) in Ef.
Qed.

Lemma insert_later f key : bloom_wf f ->
  exists g, insert be f key = Some g /\ bloom_wf g /\ later f g /\ finds g key.
Proof.
  intros Hf. pose proof (insert_spec f key Hf) as (g & E & Hg & Hgr & Hfull & Hk).
  exists g. split_and!; [done|done| |].
  - constructor; [done|done|]. intros He.
    unfold insert in E. destruct (isFull f); [by simplify_eq|].
    destruct (insert_loop _ _ _ _ _); cbn in E; by simplify_eq.
  - by apply finds_iff.
Qed.

(** *** UpdateEmptyFull *)

Lemma UpdateEmptyFull_flags f :
  UpdateEmptyFull f = set_flags (forallb (Z.eqb 0xff) (vData f)) (forallb (Z.eqb 0) (vData f)) f.
Proof.
  unfold UpdateEmptyFull.
  assert (forall v full empty,
    fold_left (fun '(full, empty) b => (full && (b =? 0xff), empty && (b =? 0))) v (full, empty)
    = (full && forallb (Z.eqb 0xff) v, empty && forallb (Z.eqb 0) v)) as ->; [|done].
  induction v as [|b v IH]; intros full empty; cbn [fold_left forallb].
  - by rewrite !andb_true_r.
  - rewrite IH, !andb_assoc, (Z.eqb_sym b 0xff), (Z.eqb_sym b 0). done.
Qed.

Lemma forallb_eqb c v : forallb (Z.eqb c) v = true <-> Forall (eq c) v.
Proof.
  rewrite forallb_forall, List.Forall_forall. split; intros H x Hx; [by apply Z.eqb_eq, H|].
  by apply Z.eqb_eq, H.
Qed.

Lemma UpdateEmptyFull_wf f : Forall is_byte (vData f) -> 0 <= nHashFuncs f ->
  bloom_wf (UpdateEmptyFull f) /\ grows f (UpdateEmptyFull f).
Proof.
  intros Hb Hn. rewrite UpdateEmptyFull_flags. split; [|by constructor].
  constructor; cbn [set_flags vData isFull isEmpty nHashFuncs]; try done.
  - by intros ->.
  - by intros E%forallb_eqb.
  - by intros _ E%forallb_eqb.
Qed.

(** A set bit is in a byte that is not zero. *)
Lemma bit_nonzero v n : Forall (eq 0) v -> bit v n = false.
Proof.
  intros Hv. unfold bit. destruct (v !! Z.to_nat (n / 8)) as [b|] eqn:E; [|done].
  rewrite <- (Forall_lookup_1 _ _ _ _ Hv E). apply Z.bits_0.
Qed.

Lemma finds_UpdateEmptyFull f key : bloom_wf f -> 0 < nHashFuncs f -> finds f key ->
  finds (UpdateEmptyFull f) key.
Proof.
  intros Hw Hn Hf. destruct (UpdateEmptyFull_wf f (bw_bytes f Hw) ltac:(lia)) as [Hw' Hg].
  rewrite finds_iff in * by done. rewrite UpdateEmptyFull_flags.
  cbn [set_flags isFull isEmpty]. destruct (isFull f) eqn:Ef.
  { left. by apply forallb_eqb, (bw_full f Hw). }
  destruct Hf as [?|[He Hk]]; [done|]. right. split; [|done].
  apply not_true_iff_false. intros Hz%forallb_eqb.
  pose proof (Hk 0 ltac:(lia)) as Hbit. by rewrite bit_nonzero in Hbit.
Qed.

(** *** IsRelevantAndUpdate *)

(** The data elements of a script, from an iterator on. *)
Inductive element (script : list Z) : nat -> list Z -> Prop :=
| element_here pc opcode data pc' : (pc < length script)%nat ->
    CScript.GetOp2 be script pc = (true, opcode, data, pc') -> data <> [] -> element script pc data
| element_next pc opcode d pc' data : (pc < length script)%nat ->
    CScript.GetOp2 be script pc = (true, opcode, d, pc') -> element script pc' data ->
    element script pc data.

Definition updates_all (f : CBloomFilter) : Prop := Z.land (nFlags f) BLOOM_UPDATE_MASK = BLOOM_UPDATE_ALL.

Lemma updates_all_later f g : later f g -> updates_all f -> updates_all g.
Proof. intros L H. unfold updates_all. by rewrite (gr_flags _ _ (lt_grows _ _ L)). Qed.

(** An outpoint as it is inserted. *)
Definition outpoint_key (o : COutPoint.t) : list Z := bytes_of (COutPoint.codec be) o.

(** The result of the scans of outputs: a filter that keeps what it had; no index out of range,
    and no error at all when the script is not looked at further. *)
Definition scanned (f : CBloomFilter) (r : result bloom_error (bool * CBloomFilter))
    (must : Prop) (inserts : CBloomFilter -> Prop) : Prop :=
  match r with
  | Ok (b, g) => bloom_wf g /\ later f g /\ (must -> b = true) /\ (updates_all f -> must -> inserts g)
  | Err e => e <> OutOfRange /\ ~ updates_all f
  end.

Lemma scanned_none f (must : Prop) inserts : bloom_wf f -> ~ must -> scanned f (Ok (false, f)) must inserts.
Proof. intros Hf Hm. cbn. split_and!; [done|done|by intros|by intros]. Qed.

Lemma insert_outpoint_later f o : bloom_wf f ->
  exists g, insert_outpoint be f o = Some g /\ bloom_wf g /\ later f g /\ finds g (outpoint_key o).
Proof. intros Hf. apply (insert_later f (outpoint_key o) Hf). Qed.

(** The step after a match. *)
Lemma scan_match f script o : bloom_wf f ->
  scanned f
    (if Z.land (nFlags f) BLOOM_UPDATE_MASK =? BLOOM_UPDATE_ALL then
       f ← in_range (insert_outpoint be f o); Ok (true, f)
     else if Z.land (nFlags f) BLOOM_UPDATE_MASK =? BLOOM_UPDATE_P2PUBKEY_ONLY then
       match Solver be script TX_NONSTANDARD with
       | Err e => Err (ScriptNumError e)
       | Ok (ret, type, _) =>
           if ret && match type with TX_PUBKEY | TX_MULTISIG => true | _ => false end
           then f ← in_range (insert_outpoint be f o); Ok (true, f)
           else Ok (true, f)
       end
     else Ok (true, f)) True (fun g => finds g (outpoint_key o)).
Proof.
  intros Hf. destruct (insert_outpoint_later f o Hf) as (g & E & Hg & Hl & Hfo).
  destruct (Z.eqb_spec (Z.land (nFlags f) BLOOM_UPDATE_MASK) BLOOM_UPDATE_ALL) as [Ea|Ea].
  { rewrite E. by cbn. }
  assert (scanned f (Ok (true, f)) True (fun g => finds g (outpoint_key o))) as Hsame by by cbn.
  case_bool; [|done]. destruct (Solver _ _ _) as [[[ret type] sol]|err]; [|by cbn].
  destruct (ret && _); [|done]. rewrite E. by cbn.
Qed.

Lemma scan_output_spec fuel script pc o f : bloom_wf f -> (length script - pc <= fuel)%nat ->
  scanned f (scan_output be fuel script pc o f)
    (exists data, element script pc data /\ finds f data) (fun g => finds g (outpoint_key o)).
Proof.
  intros Hf. revert pc. induction fuel as [|fuel IH]; intros pc Hfuel; cbn [scan_output].
  { apply scanned_none; [done|]. intros (data & He & _); inversion He; lia. }
  destruct (Nat.ltb_spec pc (length script)) as [Hpc|Hpc].
  2:{ apply scanned_none; [done|]. intros (data & He & _); inversion He; lia. }
  destruct (CScript.GetOp2 be script pc) as [[[ok opcode] data] pc'] eqn:Eop.
  destruct ok; cbn [negb].
  2:{ apply scanned_none; [done|]. intros (d & He & _); inversion He; congruence. }
  pose proof (GetOp2_progress be script pc opcode data pc' Eop) as Hpr.
  destruct (contains_spec f data Hf) as (b & Eb & _).
  assert (exists b', (if (0 <? length data)%nat then in_range (contains be f data) else Ok false) = Ok b'
    /\ (b' = true <-> data <> [] /\ finds f data)) as (b' & -> & Hb').
  { destruct data as [|x data]; cbn [length Nat.ltb Nat.leb].
    - exists false. split; [done|]. split; [done|by intros [? _]].
    - exists b. rewrite Eb. split; [done|]. unfold finds. rewrite Eb. split; [by intros ->|].
      intros [_ [= ->]]. done. }
  cbn [mbind result_bind]. destruct b'.
  - pose proof (scan_match f script o Hf) as Hm.
    destruct (if _ =? BLOOM_UPDATE_ALL then _ else _) as [[b' g]|e]; cbn in Hm |- *; [|done].
    destruct Hm as (H1 & H2 & H3 & H4). split_and!; auto.
  - specialize (IH pc' ltac:(lia)). unfold scanned in *.
    assert ((exists d, element script pc d /\ finds f d) -> exists d, element script pc' d /\ finds f d) as Hx.
    { intros (d & He & Hfd).
      inversion He as [? ? ? ? _ Eq Hne|? ? ? ? ? _ Eq He']; subst; rewrite Eop in Eq; simplify_eq; [|by exists d].
      exfalso. assert (false = true) by (by apply Hb'). done. }
    destruct (scan_output _ _ _ _ _ _) as [[b' g]|e]; [|done].
    destruct IH as (H1 & H2 & H3 & H4). split_and!; auto.
Qed.

(** An output of the list whose script has an element the filter finds. *)
Definition pays (f : CBloomFilter) (vout : list CTxOut.t) (j : nat) : Prop :=
  exists txout data, vout !! j = Some txout /\ element (CTxOut.scriptPubKey txout) 0 data /\ finds f data.

Lemma pays_later f g vout j : bloom_wf f -> bloom_wf g -> later f g -> pays f vout j -> pays g vout j.
Proof. intros Hf Hg Hl (t & d & H1 & H2 & H3). exists t, d. split_and!; [done|done|by apply (finds_later f)]. Qed.

Lemma scan_outputs_spec vout hash i fFound f : bloom_wf f -> 0 <= i ->
  i + Z.of_nat (length vout) <= 2 ^ 32 ->
  match scan_outputs be vout hash i fFound f with
  | Ok (b, g) => bloom_wf g /\ later f g
      /\ (fFound = true \/ (exists j, pays f vout j) -> b = true)
      /\ (updates_all f -> forall j, pays f vout j -> finds g (outpoint_key (COutPoint.mk hash (i + Z.of_nat j))))
  | Err e => e <> OutOfRange /\ ~ updates_all f
  end.
Proof.
  revert i fFound f. induction vout as [|t vout IH]; intros i fFound f Hf Hi Hl; cbn [scan_outputs].
  { split_and!; [done|done| |].
    - intros [?|(j & ? & ? & ? & _)]; done.
    - by intros _ j (? & ? & ? & _). }
  cbn [length] in Hl.
  pose proof (scan_output_spec (length (CTxOut.scriptPubKey t)) (CTxOut.scriptPubKey t) 0
    (COutPoint.mk hash i) f Hf ltac:(lia)) as Ho.
  destruct (scan_output _ _ _ _ _ _) as [[b g]|e]; cbn [mbind result_bind fst snd]; [|done].
  destruct Ho as (Hg & Hfg & Hb & Hins).
  destruct (decide (vout = [])) as [->|Hne].
  { cbn [scan_outputs]. split_and!; [done|done| |].
    - intros [->|(j & t' & d & Ht & He & Hd)]; [done|]. destruct j; [|done]. cbn in Ht. simplify_eq.
      rewrite Hb by (by exists d). apply orb_true_r.
    - intros Hu j (t' & d & Ht & He & Hd). destruct j; [|done]. cbn in Ht. simplify_eq.
      rewrite Z.add_0_r. apply Hins; [done|by exists d]. }
  assert (0 < length vout)%nat by (destruct vout; [done|cbn; lia]).
  assert (u32 (i + 1) = i + 1) as Ei by (apply uwrap_small; unfold is_u; lia). rewrite Ei.
  specialize (IH (i + 1) (fFound || b) g Hg ltac:(lia) ltac:(lia)).
  destruct (scan_outputs _ _ _ _ _ _) as [[b' g']|e].
  2:{ destruct IH as [H1 H2]. split; [done|]. intros Hu. apply H2. by apply (updates_all_later f). }
  destruct IH as (Hg' & Hgg' & Hb' & Hins').
  split_and!; [done|by etrans| |].
  - intros Hc. apply Hb'. destruct Hc as [->|(j & Hj)]; [by left|].
    destruct j as [|j].
    + left. destruct Hj as (t' & d & Ht & He & Hd). cbn in Ht. simplify_eq.
      rewrite Hb by (by exists d). apply orb_true_r.
    + right. exists j. by apply (pays_later f).
  - intros Hu j Hj. destruct j as [|j].
    + rewrite Z.add_0_r. apply (finds_later g); [done|done|done|]. apply Hins; [done|].
      destruct Hj as (t' & d & Ht & He & Hd). cbn in Ht. simplify_eq. by exists d.
    + replace (i + Z.of_nat (S j)) with (i + 1 + Z.of_nat j) by lia.
      apply Hins'; [by apply (updates_all_later f)|by apply (pays_later f)].
Qed.

Lemma scan_input_spec fuel script pc f : bloom_wf f ->
  exists b, scan_input be fuel script pc f = Ok b.
Proof.
  intros Hf. revert pc. induction fuel as [|fuel IH]; intros pc; cbn [scan_input]; [by eexists|].
  destruct (pc <? length script)%nat; [|by eexists].
  destruct (CScript.GetOp2 be script pc) as [[[ok opcode] data] pc']. destruct ok; cbn [negb]; [|by eexists].
  destruct (contains_spec f data Hf) as (b & Eb & _). rewrite Eb.
  destruct (0 <? length data)%nat; cbn [in_range mbind result_bind]; [|apply IH].
  destruct b; [by eexists|apply IH].
Qed.

(** The scan of the inputs finds an outpoint the filter has. *)
Lemma scan_inputs_spec vin f : bloom_wf f ->
  exists b, scan_inputs be vin f = Ok b
    /\ (Exists (fun i => finds f (outpoint_key (CTxIn.prevout i))) vin -> b = true).
Proof.
  intros Hf. induction vin as [|i vin (b & IH & Hb)]; cbn [scan_inputs].
  { exists false. split; [done|]. intros He. inversion He. }
  unfold contains_outpoint. fold (outpoint_key (CTxIn.prevout i)).
  destruct (contains_spec f (outpoint_key (CTxIn.prevout i)) Hf) as (b0 & E0 & _). rewrite E0.
  cbn [in_range mbind result_bind]. destruct b0; [by exists true|].
  destruct (scan_input_spec (length (CTxIn.scriptSig i)) (CTxIn.scriptSig i) 0 f Hf) as (b1 & E1).
  rewrite E1. cbn [mbind result_bind]. destruct b1; [by exists true|].
  exists b. split; [done|]. intros He. apply Hb. inversion He as [? ? H0|]; [|done].
  subst. unfold finds in H0. congruence.
Qed.

Section relevant.
Variable TxHash : list Z -> list Z.

(** What makes a transaction relevant to a filter. *)
Definition relevant (f : CBloomFilter) (tx : CTransaction) : Prop :=
  finds f (GetHash TxHash be tx) \/ (exists j, pays f (vout tx) j)
  \/ Exists (fun i => finds f (outpoint_key (CTxIn.prevout i))) (vin tx).

Lemma IsRelevantAndUpdate_spec f tx : bloom_wf f -> Z.of_nat (length (vout tx)) <= 2 ^ 32 ->
  match IsRelevantAndUpdate be TxHash f tx with
  | Ok (b, g) => bloom_wf g /\ later f g /\ (relevant f tx -> b = true)
      /\ (updates_all f -> forall j, pays f (vout tx) j ->
            finds g (outpoint_key (COutPoint.mk (GetHash TxHash be tx) (Z.of_nat j))))
  | Err e => e <> OutOfRange /\ ~ updates_all f
  end.
Proof.
  intros Hf Hl. unfold IsRelevantAndUpdate.
  destruct (isFull f) eqn:Ef.
  { split_and!; [done|done|done|]. intros. by apply finds_iff; [|left]. }
  destruct (isEmpty f) eqn:Ee.
  { assert (forall key, ~ finds f key) as Hno.
    { intros key. rewrite finds_iff by done. intros [?|[? _]]; congruence. }
    split_and!; [done|done| |].
    - intros [H|[(j & ? & ? & _ & _ & H)|H]]; [by apply Hno in H|by apply Hno in H|].
      apply Exists_exists in H as (i & _ & H). by apply Hno in H.
    - intros _ j (? & ? & _ & _ & H). by apply Hno in H. }
  destruct (contains_spec f (GetHash TxHash be tx) Hf) as (b0 & E0 & _).
  unfold contains_hash. rewrite E0. cbn [in_range mbind result_bind].
  pose proof (scan_outputs_spec (vout tx) (GetHash TxHash be tx) 0 b0 f Hf ltac:(lia) ltac:(lia)) as Ho.
  destruct (scan_outputs _ _ _ _ _ _) as [[b g]|e]; [|done].
  destruct Ho as (Hg & Hfg & Hb & Hins). cbn [mbind result_bind fst snd].
  destruct b.
  { split_and!; [done|done|done|]. intros Hu j Hj. by apply (Hins Hu j). }
  destruct (scan_inputs_spec (vin tx) g Hg) as (b1 & E1 & Hb1). rewrite E1. cbn [mbind result_bind].
  split_and!; [done|done| |].
  - intros [H|[H|H]].
    + assert (false = true); [|done]. apply Hb. left. unfold finds in H. congruence.
    + assert (false = true); [|done]. apply Hb. by right.
    + apply Hb1. apply (Exists_impl _ _ _ H). intros i Hi. by apply (finds_later f).
  - intros Hu j Hj. by apply (Hins Hu j).
Qed.
End relevant.
End host.

(** A filter made by the constructor, with at least a byte. *)
Lemma new_wf nBits nFuncs tweak flags : 8 <= nBits ->
  0 <= nFuncs (Z.of_nat (Z.to_nat (Z.min nBits (MAX_BLOOM_FILTER_SIZE * 8) / 8))) ->
  bloom_wf (new nBits nFuncs tweak flags).
Proof.
  intros Hb Hn. constructor; cbn [new vData isFull isEmpty nHashFuncs]; try done.
  - by apply Forall_replicate.
  - intros E%(f_equal length). rewrite length_replicate in E. cbn [length] in E.
    assert (1 <= Z.min nBits (MAX_BLOOM_FILTER_SIZE * 8) / 8); [|lia].
    apply Z.div_le_lower_bound; [lia|]. unfold MAX_BLOOM_FILTER_SIZE. lia.
  - intros _ _. by apply Forall_replicate.
  - rewrite length_replicate. unfold MAX_HASH_FUNCS. lia.
Qed.
End BloomFacts.

(** Operations on the filter of a connection, in order. *)
Inductive bloom_op :=
| OpInsert (key : list Z)
| OpRelevant (tx : CTransaction)
| OpUpdate.

Section run.
Variable be : bool.
Variable TxHash : list Z -> list Z.
Import CBloomFilter BloomFacts.

Definition bloom_step (f : CBloomFilter) (op : bloom_op) : result bloom_error CBloomFilter :=
  match op with
  | OpInsert key => in_range (insert be f key)
  | OpRelevant tx => r ← IsRelevantAndUpdate be TxHash f tx; Ok r.2
  | OpUpdate => Ok (UpdateEmptyFull f)
  end.

Fixpoint bloom_run (f : CBloomFilter) (ops : list bloom_op) : result bloom_error CBloomFilter :=
  match ops with
  | [] => Ok f
  | op :: ops' => f ← bloom_step f op; bloom_run f ops'
  end.

Definition op_ok (op : bloom_op) : Prop :=
  match op with OpRelevant tx => Z.of_nat (length (vout tx)) <= 2 ^ 32 | _ => True end.

(** One operation keeps the invariant and what was found. *)
Lemma bloom_step_spec f op : bloom_wf f -> 0 < nHashFuncs f -> op_ok op ->
  match bloom_step f op with
  | Ok g => bloom_wf g /\ 0 < nHashFuncs g /\ (forall key, finds be f key -> finds be g key)
      /\ (forall key, op = OpInsert key -> finds be g key)
  | Err e => e <> OutOfRange
  end.
Proof.
  intros Hf Hn Hop. destruct op as [key|tx|]; cbn [bloom_step op_ok] in *.
  - destruct (insert_later be f key Hf) as (g & -> & Hg & Hl & Hk). cbn [in_range].
    split_and!; [done|by rewrite (gr_funcs _ _ (lt_grows _ _ Hl))| |by intros ? [= <-]].
    intros k Hk'. by apply (finds_later be f).
  - pose proof (IsRelevantAndUpdate_spec be TxHash f tx Hf Hop) as H.
    destruct (IsRelevantAndUpdate _ _ _ _) as [[b g]|e]; cbn [mbind result_bind snd]; [|apply H].
    destruct H as (Hg & Hl & _). split_and!; [done|by rewrite (gr_funcs _ _ (lt_grows _ _ Hl))| |done].
    intros k Hk'. by apply (finds_later be f).
  - destruct (UpdateEmptyFull_wf f (bw_bytes f Hf) ltac:(lia)) as [Hg Hgr].
    split_and!; [done|by rewrite (gr_funcs _ _ Hgr)| |done].
    intros k Hk. by apply finds_UpdateEmptyFull.
Qed.

Lemma bloom_run_spec ops f : bloom_wf f -> 0 < nHashFuncs f -> Forall op_ok ops ->
  match bloom_run f ops with
  | Ok g => (forall key, finds be f key \/ OpInsert key ∈ ops -> finds be g key)
  | Err e => e <> OutOfRange
  end.
Proof.
  revert f. induction ops as [|op ops IH]; intros f Hf Hn Hops; cbn [bloom_run].
  { intros key [?|H]; [done|]. by apply elem_of_nil in H. }
  inversion_clear Hops as [|? ? Hop Hops']. pose proof (bloom_step_spec f op Hf Hn Hop) as Hs.
  destruct (bloom_step f op) as [g|e]; cbn [mbind result_bind]; [|done].
  destruct Hs as (Hg & Hng & Hk & Hi). specialize (IH g Hg Hng Hops').
  destruct (bloom_run g ops) as [h|e]; [|done].
  intros key [H|H%elem_of_cons]; apply IH; [left; by apply Hk|].
  destruct H as [H|H]; [left; by apply Hi|by right].
Qed.
End run.

(** A filter received from a peer (any bytes, at least one hash function) and checked with
    [UpdateEmptyFull] is safe and never forgets: whatever is done with it afterwards, no
    operation divides by zero or leaves the vector, and every key it contained or that was
    inserted is contained. *)
Theorem bloom_never_forgets be TxHash f0 ops :
  Forall is_byte (CBloomFilter.vData f0) -> 0 < CBloomFilter.nHashFuncs f0 -> Forall op_ok ops ->
  match bloom_run be TxHash (CBloomFilter.UpdateEmptyFull f0) ops with
  | Ok g => forall key,
      CBloomFilter.contains be (CBloomFilter.UpdateEmptyFull f0) key = Some true \/ OpInsert key ∈ ops ->
      CBloomFilter.contains be g key = Some true
  | Err e => e <> OutOfRange
  end.
Proof.
  intros Hb Hn Hops. destruct (BloomFacts.UpdateEmptyFull_wf f0 Hb ltac:(lia)) as [Hw Hg].
  apply bloom_run_spec; [done| |done]. by rewrite (BloomFacts.gr_funcs _ _ Hg).
Qed.

Lemma bloom_never_forgets_witness :
  match bloom_run false (fun l => replicate 32 1)
    (CBloomFilter.UpdateEmptyFull (CBloomFilter.new 100 (fun _ => 3) 5 1))
    [OpInsert [1; 2; 3]; OpUpdate; OpInsert [7]] with
  | Ok g => CBloomFilter.contains false g [1; 2; 3] = Some true
      /\ CBloomFilter.contains false g [9; 9] = Some false
  | Err e => False
  end.
Proof.
  pose proof (bloom_never_forgets false (fun l => replicate 32 1) (CBloomFilter.new 100 (fun _ => 3) 5 1)
    [OpInsert [1; 2; 3]; OpUpdate; OpInsert [7]]
    ltac:(by_decide) ltac:(reflexivity) ltac:(by repeat constructor)) as H.
  destruct (bloom_run _ _ _ _) as [g|e] eqn:E; [|vm_compute in E; discriminate].
  split; [apply (H [1; 2; 3]); right; by left|].
  vm_compute in E. injection E as <-. vm_compute. reflexivity.
Defined.

(** With [BLOOM_UPDATE_ALL], a transaction with an output whose script has a data element in
    the filter is relevant, and afterwards every transaction that spends this output is
    relevant: the filter follows the coins without the help of the peer. *)
Theorem bloom_follows_outputs be TxHash f tx1 j txout data tx2 txin :
  BloomFacts.bloom_wf f ->
  Z.land (CBloomFilter.nFlags f) BLOOM_UPDATE_MASK = BLOOM_UPDATE_ALL ->
  Z.of_nat (length (vout tx1)) <= 2 ^ 32 -> Z.of_nat (length (vout tx2)) <= 2 ^ 32 ->
  vout tx1 !! j = Some txout ->
  BloomFacts.element be (CTxOut.scriptPubKey txout) 0 data ->
  CBloomFilter.contains be f data = Some true ->
  txin ∈ vin tx2 -> CTxIn.prevout txin = COutPoint.mk (GetHash TxHash be tx1) (Z.of_nat j) ->
  exists g g', CBloomFilter.IsRelevantAndUpdate be TxHash f tx1 = Ok (true, g)
    /\ CBloomFilter.IsRelevantAndUpdate be TxHash g tx2 = Ok (true, g').
Proof.
  intros Hf Hu Hl1 Hl2 Hj He Hd Hin Hprev.
  assert (BloomFacts.pays be f (vout tx1) j) as Hp by (by exists txout, data).
  pose proof (BloomFacts.IsRelevantAndUpdate_spec be TxHash f tx1 Hf Hl1) as H1.
  destruct (CBloomFilter.IsRelevantAndUpdate be TxHash f tx1) as [[b g]|e] eqn:E1; [|by destruct H1].
  destruct H1 as (Hg & Hl & Hr & Hins). specialize (Hins Hu j Hp).
  assert (b = true) as -> by (apply Hr; right; left; by exists j).
  pose proof (BloomFacts.IsRelevantAndUpdate_spec be TxHash g tx2 Hg Hl2) as H2.
  assert (BloomFacts.updates_all g) as Hu2 by (by apply (BloomFacts.updates_all_later f)).
  destruct (CBloomFilter.IsRelevantAndUpdate be TxHash g tx2) as [[b2 g']|e] eqn:E2; [|by destruct H2].
  destruct H2 as (_ & _ & Hr2 & _). exists g, g'. split; [done|].
  rewrite E2, Hr2; [done|]. right. right. apply Exists_exists. exists txin. rewrite Hprev. done.
Qed.

Definition sample_filter : CBloomFilter.CBloomFilter :=
  default CBloomFilter.null (CBloomFilter.insert false (CBloomFilter.new 100 (fun _ => 3) 5 1) [1; 2; 3]).

Definition sample_tx (prev : COutPoint.t) : CTransaction :=
  Build_CTransaction 1 7 [CTxIn.mk prev [] 0 []] [CTxOut.mk 10 [0x51]; CTxOut.mk 5 [3; 1; 2; 3]] 0.

Lemma bloom_follows_outputs_witness :
  exists g g', CBloomFilter.IsRelevantAndUpdate false (fun _ => replicate 32 1) sample_filter
      (sample_tx COutPoint.null) = Ok (true, g)
    /\ CBloomFilter.IsRelevantAndUpdate false (fun _ => replicate 32 1) g
         (sample_tx (COutPoint.mk (replicate 32 1) 1)) = Ok (true, g').
Proof.
  apply (bloom_follows_outputs false (fun _ => replicate 32 1) sample_filter (sample_tx COutPoint.null)
    1 (CTxOut.mk 5 [3; 1; 2; 3]) [1; 2; 3] (sample_tx (COutPoint.mk (replicate 32 1) 1))
    (CTxIn.mk (COutPoint.mk (replicate 32 1) 1) [] 0 [])).
  - unfold sample_filter.
    destruct (BloomFacts.insert_spec false (CBloomFilter.new 100 (fun _ => 3) 5 1) [1; 2; 3]) as (g & -> & Hg & _);
      [by apply BloomFacts.new_wf|exact Hg].
  - vm_compute. reflexivity.
  - vm_compute. discriminate.
  - vm_compute. discriminate.
  - reflexivity.
  - apply (BloomFacts.element_here false _ _ 3 _ 4%nat); [cbn; lia|reflexivity|done].
  - vm_compute. reflexivity.
  - by left.
  - reflexivity.
Defined.

(** ** Facts about CRollingBloomFilter *)

Module RollingFacts.
Import CRollingBloomFilter.

(** The two bits of the position [b] of the pair of words [q]: the generation stored there. *)
Definition cell (d : list Z) (q : nat) (b : Z) : bool * bool :=
  (Z.testbit (d !!! (2 * q)%nat) b, Z.testbit (d !!! (2 * q + 1)%nat) b).

Definition gbits (g : Z) : bool * bool := (Z.testbit g 0, Z.testbit g 1).

Record data_wf (d : list Z) : Prop := {
  dw_words : Forall (is_u 64) d;
  dw_even : exists n, length d = (2 * n)%nat;
  dw_pos : (0 < length d)%nat;
  dw_small : Z.of_nat (length d) <= 2 ^ 32
}.

Lemma pos_even pos : 0 <= pos < 2 ^ 32 -> Z.land pos 0xfffffffe = 2 * (pos / 2).
Proof.
  intros Hp. change 0xfffffffe with (Z.shiftl (Z.ones 31) 1).
  apply Z.bits_inj'. intros i Hi. rewrite Z.land_spec.
  destruct (decide (i = 0)) as [->|Hne].
  { rewrite Z.shiftl_spec_low, Z.testbit_even_0 by lia. apply andb_false_r. }
  rewrite Z.shiftl_spec by lia. replace i with (Z.succ (i - 1)) at 3 by lia.
  rewrite Z.testbit_even_succ by lia. change (pos / 2) with (pos / 2 ^ 1).
  rewrite Z.div_pow2_bits by lia. replace (i - 1 + 1) with i by lia.
  rewrite Z.testbit_ones by lia. destruct (decide (i < 32)).
  - rewrite (proj2 (Z.leb_le _ _)), (proj2 (Z.ltb_lt _ _)) by lia. apply andb_true_r.
  - rewrite <- (Z.mod_small pos (2 ^ 32)), Z.mod_pow2_bits_high by lia. done.
Qed.

Lemma pos_odd pos : 0 <= pos -> Z.lor pos 1 = 2 * (pos / 2) + 1.
Proof.
  intros Hp. apply Z.bits_inj'. intros i Hi. rewrite Z.lor_spec.
  destruct (decide (i = 0)) as [->|Hne].
  { rewrite Z.testbit_odd_0. apply orb_true_r. }
  replace i with (Z.succ (i - 1)) at 3 by lia. rewrite Z.testbit_odd_succ by lia.
  change (pos / 2) with (pos / 2 ^ 1). rewrite Z.div_pow2_bits by lia. replace (i - 1 + 1) with i by lia.
  change 1 with (2 ^ 0). rewrite Z.pow2_bits_false by lia. apply orb_false_r.
Qed.

(** Storing the bit [v] at position [b] of one word. *)
Lemma put_bit_spec d k b v : Forall (is_u 64) d -> (k < length d)%nat -> 0 <= b < 64 -> 0 <= v <= 1 ->
  exists d', put_bit d (Z.of_nat k) b v = Some d' /\ length d' = length d /\ Forall (is_u 64) d'
    /\ (forall j i, (j <> k)%nat -> Z.testbit (d' !!! j) i = Z.testbit (d !!! j) i)
    /\ (forall i, 0 <= i < 64 -> Z.testbit (d' !!! k) i = if i =? b then v =? 1 else Z.testbit (d !!! k) i).
Proof.
  intros Hd Hk Hb Hv. unfold put_bit. rewrite Nat2Z.id.
  destruct (lookup_lt_is_Some_2 d k Hk) as [x Ex]. rewrite Ex. cbn [mbind option_bind].
  assert (is_u 64 x) as Hx by (by apply (Forall_lookup_1 _ _ _ _ Hd Ex)).
  set (y := Z.lor _ _).
  assert (is_u 64 y) as Hy.
  { apply lor_bound; [lia| |].
    - replace (Z.land x _) with (uwrap 64 (Z.land x (u64 (Z.lnot (Z.shiftl 1 b))))); [by apply uwrap_range|].
      unfold uwrap at 1. rewrite <- Z.land_ones, <- Z.land_assoc, (Z.land_ones _ 64) by lia.
      f_equal. unfold uwrap. by rewrite Z.mod_mod by lia.
    - rewrite Z.shiftl_mul_pow2 by lia. pose proof (Z.pow_lt_mono_r 2 b 64 ltac:(lia) ltac:(lia) ltac:(lia)).
      split; nia. }
  eexists. split; [done|]. split; [by rewrite length_insert|]. split; [by apply Forall_insert|]. split.
  - intros j i Hj. by rewrite list_lookup_total_insert_ne by done.
  - intros i Hi. rewrite list_lookup_total_insert_eq by done.
    rewrite (list_lookup_total_correct _ _ _ Ex). unfold y.
    rewrite Z.lor_spec, Z.land_spec, Z.shiftl_spec by lia.
    unfold uwrap. rewrite Z.mod_pow2_bits_low, Z.lnot_spec, Z.shiftl_1_l, Z.pow2_bits_eqb by lia.
    rewrite (Z.eqb_sym b i). destruct (Z.eqb_spec i b) as [->|Hne]; cbn [negb].
    + rewrite andb_false_r, orb_false_l, Z.sub_diag.
      assert (v = 0 \/ v = 1) as [-> | ->] by lia; done.
    + rewrite andb_true_r. assert (Z.testbit v (i - b) = false) as ->; [|apply orb_false_r].
      assert (v = 0 \/ v = 1) as [-> | ->] by lia; [apply Z.bits_0|].
      change 1 with (2 ^ 0). rewrite Z.pow2_bits_eqb by lia. apply Z.eqb_neq. lia.
Qed.

(** The generation numbers, and their bits as the code takes them apart. *)
Definition gen_ok (g : Z) : Prop := g = 1 \/ g = 2 \/ g = 3.

Lemma gen_bits g : gen_ok g ->
  0 <= Z.land g 1 <= 1 /\ 0 <= Z.shiftr g 1 <= 1
  /\ gbits g = (Z.land g 1 =? 1, Z.shiftr g 1 =? 1).
Proof. by intros [-> | [-> | ->]]. Qed.

Lemma put2_spec d q b g : data_wf d -> (2 * q + 1 < length d)%nat -> 0 <= b < 64 -> gen_ok g ->
  exists d', (d1 ← put_bit d (2 * Z.of_nat q) b (Z.land g 1);
              put_bit d1 (2 * Z.of_nat q + 1) b (Z.shiftr g 1)) = Some d'
    /\ data_wf d' /\ length d' = length d
    /\ forall q' b', 0 <= b' < 64 ->
         cell d' q' b' = if decide (q' = q /\ b' = b) then gbits g else cell d q' b'.
Proof.
  intros [D1 D2 D3 D4] Hq Hb Hg. destruct (gen_bits g Hg) as (Hv1 & Hv2 & Eg).
  replace (2 * Z.of_nat q) with (Z.of_nat (2 * q)) by lia.
  destruct (put_bit_spec d (2 * q) b (Z.land g 1) D1 ltac:(lia) Hb Hv1) as (d1 & -> & L1 & F1 & O1 & K1).
  cbn [mbind option_bind]. replace (Z.of_nat (2 * q) + 1) with (Z.of_nat (2 * q + 1)) by lia.
  destruct (put_bit_spec d1 (2 * q + 1) b (Z.shiftr g 1) F1 ltac:(lia) Hb Hv2) as (d2 & -> & L2 & F2 & O2 & K2).
  exists d2. split; [done|]. split; [by constructor; rewrite ?L2, ?L1|]. split; [lia|].
  intros q' b' Hb'. unfold cell. destruct (decide (q' = q)) as [->|Hne].
  - rewrite O2, K1, K2, O1 by lia. rewrite Eg.
    destruct (Z.eqb_spec b' b), (decide _); try done; tauto.
  - rewrite !O2, !O1 by lia. rewrite decide_False by tauto. done.
Qed.

Lemma mask_bit g b : gen_ok g -> 0 <= b < 64 ->
  Z.testbit (u64 (- Z.land g 1)) b = Z.testbit g 0 /\ Z.testbit (u64 (- Z.shiftr g 1)) b = Z.testbit g 1.
Proof.
  intros Hg Hb.
  assert (Z.testbit (u64 (- 1)) b = true) as H1.
  { change (u64 (- 1)) with (Z.ones 64). rewrite Z.testbit_ones by lia.
    by rewrite (proj2 (Z.leb_le _ _)), (proj2 (Z.ltb_lt _ _)) by lia. }
  assert (Z.testbit (u64 (- 0)) b = false) as H0 by apply Z.bits_0.
  by destruct Hg as [-> | [-> | ->]].
Qed.

(** Wiping a generation empties its cells. *)
Lemma wipe_cell g d q b : gen_ok g -> 0 <= b < 64 -> (2 * q + 1 < length d)%nat ->
  cell (wipe (u64 (- Z.land g 1)) (u64 (- Z.shiftr g 1)) d) q b
  = if decide (cell d q b = gbits g) then (false, false) else cell d q b.
Proof.
  intros Hg Hb. revert d. induction q as [|q IH]; intros d Hq.
  - destruct d as [|p1 [|p2 d]]; cbn [length] in Hq; try lia. cbn [wipe].
    destruct (mask_bit g b Hg Hb) as [M1 M2].
    assert (forall x y (l : list Z), cell (x :: y :: l) 0 b = (Z.testbit x b, Z.testbit y b)) as Hc by done.
    rewrite !Hc. unfold gbits. rewrite !Z.land_spec, Z.lor_spec, !Z.lxor_spec, M1, M2.
    by destruct (Z.testbit p1 b), (Z.testbit p2 b), (Z.testbit g 0), (Z.testbit g 1).
  - destruct d as [|p1 [|p2 d]]; cbn [length] in Hq; try lia. cbn [wipe].
    assert (forall x y (l : list Z), cell (x :: y :: l) (S q) b = cell l q b) as Hc.
    { intros x y l. unfold cell. replace (2 * S q)%nat with (S (S (2 * q))) by lia. done. }
    rewrite !Hc. apply IH. lia.
Qed.

Lemma length_wipe m1 m2 d : length (wipe m1 m2 d) = length d.
Proof.
  revert d. fix IH 1. intros [|p1 [|p2 d]]; [done|done|]. cbn [wipe length]. by rewrite IH.
Qed.

Lemma wipe_words m1 m2 d : Forall (is_u 64) d -> Forall (is_u 64) (wipe m1 m2 d).
Proof.
  revert d. fix IH 1. intros [|p1 [|p2 d]] Hd; [done|done|]. cbn [wipe].
  inversion_clear Hd as [|? ? H1 Hd']. inversion_clear Hd' as [|? ? H2 Hd].
  assert (forall x y, is_u 64 x -> is_u 64 (Z.land x y)) as Hl.
  { intros x y Hx. replace (Z.land x y) with (uwrap 64 (Z.land x y)); [by apply uwrap_range|].
    unfold uwrap. rewrite <- Z.land_ones, (Z.land_comm x), <- Z.land_assoc, Z.land_ones by lia.
    by rewrite Z.mod_small. }
  constructor; [by apply Hl|]. constructor; [by apply Hl|]. by apply IH.
Qed.

Lemma wipe_wf m1 m2 d : data_wf d -> data_wf (wipe m1 m2 d).
Proof.
  intros [D1 D2 D3 D4]. constructor; rewrite ?length_wipe; [by apply wipe_words|done|done|done].
Qed.

Section host.
Variable be : bool.

(** Where the [n]-th hash of a key points: the pair of words and the bit. *)
Definition place (len : nat) (tweak n : Z) (key : list Z) : nat * Z :=
  let h := RollingBloomHash be n tweak key in
  (Z.to_nat (Z.shiftr h 6 mod Z.of_nat len / 2), Z.land h 0x3F).

Lemma place_spec d tweak n key : data_wf d ->
  let '(q, b) := place (length d) tweak n key in
  let h := RollingBloomHash be n tweak key in
  (2 * q + 1 < length d)%nat /\ 0 <= b < 64 /\ b = Z.land h 0x3F
  /\ Z.land (Z.shiftr h 6 mod Z.of_nat (length d)) 0xfffffffe = 2 * Z.of_nat q
  /\ Z.lor (Z.shiftr h 6 mod Z.of_nat (length d)) 1 = 2 * Z.of_nat q + 1.
Proof.
  intros [D1 [m Em] D3 D4]. unfold place. set (h := RollingBloomHash be n tweak key).
  pose proof (Z.mod_pos_bound (Z.shiftr h 6) (Z.of_nat (length d)) ltac:(lia)) as Hp.
  set (pos := Z.shiftr h 6 mod Z.of_nat (length d)) in *.
  assert (0 <= pos / 2) by (apply Z.div_pos; lia).
  rewrite !Z2Nat.id, pos_even, pos_odd by lia.
  split_and!; try done.
  - assert (pos / 2 < Z.of_nat m) by (apply Z.div_lt_upper_bound; lia). lia.
  - change 0x3F with (2 ^ 6 - 1). rewrite land_mask by lia. apply Z.mod_pos_bound. lia.
  - change 0x3F with (2 ^ 6 - 1). rewrite land_mask by lia. by apply Z.mod_pos_bound.
Qed.

(** The loop of [insert] stamps the places of the key and no others. *)
Lemma insert_loop_places k n g tweak d key : data_wf d -> gen_ok g ->
  exists d', insert_loop be k n g tweak d key = Some d' /\ data_wf d' /\ length d' = length d
    /\ (forall q b, 0 <= b < 64 -> cell d' q b = cell d q b \/ cell d' q b = gbits g)
    /\ (forall j, n <= j < n + Z.of_nat k ->
          cell d' (place (length d) tweak j key).1 (place (length d) tweak j key).2 = gbits g).
Proof.
  intros Hd Hg. revert n d Hd. induction k as [|k IH]; intros n d Hd; cbn [insert_loop].
  { exists d. split_and!; [done|done|done|by left|lia]. }
  pose proof (place_spec d tweak n key Hd) as Hp.
  destruct (place (length d) tweak n key) as [q b] eqn:Epl. destruct Hp as (Hq & Hb & Eb & E1 & E2).
  rewrite (proj2 (Nat.eqb_neq _ _)) by (pose proof (dw_pos d Hd); lia).
  rewrite E1, E2, <- Eb.
  destruct (put2_spec d q b g Hd Hq Hb Hg) as (d1 & Ed1 & Hd1 & L1 & C1).
  destruct (put_bit d _ b _) as [d0|]; [|done]. cbn [mbind option_bind] in Ed1 |- *. rewrite Ed1.
  cbn [mbind option_bind].
  destruct (IH (n + 1) d1 Hd1) as (d' & Ed' & Hd' & L' & C' & P'). rewrite L1 in P', L'.
  exists d'. split_and!; [done|done|done| |].
  - intros q' b' Hb'. destruct (C' q' b' Hb') as [-> | ->]; [|by right].
    rewrite C1 by done. destruct (decide _); [by right|by left].
  - intros j Hj. destruct (decide (j = n)) as [->|Hne]; [|apply P'; lia].
    rewrite Epl. cbn [fst snd]. destruct (C' q b Hb) as [-> | ->]; [|done].
    rewrite C1 by done. by rewrite decide_True.
Qed.

(** The loop of [contains] looks for stamps at the places of the key. *)
Lemma contains_loop_places k n tweak d key : data_wf d ->
  (forall j, n <= j < n + Z.of_nat k ->
     exists g, gen_ok g /\ cell d (place (length d) tweak j key).1 (place (length d) tweak j key).2 = gbits g) ->
  contains_loop be k n tweak d key = Some true.
Proof.
  intros Hd. revert n. induction k as [|k IH]; intros n Hc; cbn [contains_loop]; [done|].
  pose proof (place_spec d tweak n key Hd) as Hp. destruct (Hc n ltac:(lia)) as (g & Hg & Ec).
  destruct (place (length d) tweak n key) as [q b] eqn:Epl. destruct Hp as (Hq & Hb & Eb & E1 & E2).
  rewrite (proj2 (Nat.eqb_neq _ _)) by (pose proof (dw_pos d Hd); lia).
  rewrite E1, E2, <- Eb. cbn [fst snd] in Ec.
  replace (Z.to_nat (2 * Z.of_nat q)) with (2 * q)%nat by lia.
  replace (Z.to_nat (2 * Z.of_nat q + 1)) with (2 * q + 1)%nat by lia.
  rewrite !list_lookup_lookup_total_lt by lia. cbn [mbind option_bind].
  assert (Z.land (Z.shiftr (Z.lor (d !!! (2 * q)%nat) (d !!! (2 * q + 1)%nat)) b) 1 = 1) as ->.
  { set (x := Z.shiftr _ b). transitivity (x mod 2 ^ 1); [by apply (land_mask x 1)|].
    change (2 ^ 1) with 2. unfold x. rewrite <- Z.bit0_mod, Z.shiftr_spec, Z.lor_spec, Z.add_0_l by lia.
    pose proof (f_equal fst Ec) as Ec1. pose proof (f_equal snd Ec) as Ec2.
    unfold cell, gbits in Ec1, Ec2. cbn [fst snd] in Ec1, Ec2. rewrite Ec1, Ec2. by destruct Hg as [-> | [-> | ->]]. }
  cbn [Z.eqb]. apply IH. intros j Hj. apply Hc. lia.
Qed.

(** The generation of an epoch. *)
Definition gen_of (e : nat) : Z := Z.of_nat (e mod 3) + 1.

Lemma gen_of_ok e : gen_ok (gen_of e).
Proof. unfold gen_of, gen_ok. pose proof (Nat.mod_upper_bound e 3). lia. Qed.

Lemma gbits_inj g1 g2 : gen_ok g1 -> gen_ok g2 -> gbits g1 = gbits g2 -> g1 = g2.
Proof. by intros [-> | [-> | ->]] [-> | [-> | ->]]. Qed.

Lemma gen_of_next e e' : (e' <= e < e' + 2)%nat -> gbits (gen_of e') <> gbits (gen_of (S e)).
Proof.
  intros He Eq. apply gbits_inj in Eq; [|apply gen_of_ok..]. unfold gen_of in Eq.
  pose proof (Nat.div_mod_eq e' 3). pose proof (Nat.div_mod_eq (S e) 3).
  pose proof (Nat.mod_upper_bound e' 3). pose proof (Nat.mod_upper_bound (S e) 3). lia.
Qed.

(** A key is alive at epoch [E] since epoch [e]: its places bear stamps of epochs from [e] on
    that are not older than two epochs. *)
Definition alive (f : CRollingBloomFilter) (E e : nat) (key : list Z) : Prop :=
  forall n, 0 <= n < nHashFuncs f -> exists e', (e <= e' <= E)%nat /\ (E < e' + 3)%nat
    /\ cell (data f) (place (length (data f)) (nTweak f) n key).1
                     (place (length (data f)) (nTweak f) n key).2 = gbits (gen_of e').

(** The state after the insertions [ks], the oldest first. *)
Record rolling_inv (f : CRollingBloomFilter) (ks : list (list Z)) : Prop := {
  ri_data : data_wf (data f);
  ri_per : 0 < nEntriesPerGeneration f;
  ri_gen : nGeneration f = gen_of ((length ks - 1) / Z.to_nat (nEntriesPerGeneration f));
  ri_this : nEntriesThisGeneration f =
    Z.of_nat (length ks) - Z.of_nat ((length ks - 1) / Z.to_nat (nEntriesPerGeneration f)) * nEntriesPerGeneration f;
  ri_alive : forall t key, ks !! t = Some key ->
    let P := Z.to_nat (nEntriesPerGeneration f) in
    ((length ks - 1) / P <= t / P + 2)%nat ->
    alive f ((length ks - 1) / P) (t / P) key
}.

Lemma contains_alive f E e key : data_wf (data f) -> alive f E e key -> contains be f key = Some true.
Proof.
  intros Hd Ha. unfold contains. apply contains_loop_places; [done|].
  intros j Hj. destruct (Ha j ltac:(lia)) as (e' & _ & _ & Ec). exists (gen_of e').
  split; [apply gen_of_ok|done].
Qed.

(** Stamping the places of a key keeps other keys alive. *)
Lemma stamp_alive f d' E e key :
  length d' = length (data f) -> (e <= E)%nat ->
  (forall q b, 0 <= b < 64 -> cell d' q b = cell (data f) q b \/ cell d' q b = gbits (gen_of E)) ->
  data_wf (data f) -> alive f E e key ->
  forall g, nHashFuncs g = nHashFuncs f -> nTweak g = nTweak f -> data g = d' -> alive g E e key.
Proof.
  intros Hl He Hc Hd Ha g G1 G2 G3 n Hn. rewrite G1 in Hn. rewrite G2, G3, Hl.
  destruct (Ha n Hn) as (e' & H1 & H2 & H3).
  pose proof (place_spec (data f) (nTweak f) n key Hd) as Hp.
  destruct (place (length (data f)) (nTweak f) n key) as [q b]. destruct Hp as (_ & Hb & _).
  cbn [fst snd] in *. destruct (Hc q b Hb) as [-> | ->]; [by exists e'|].
  exists E. split_and!; [lia|lia|lia|done].
Qed.

(** Starting a generation keeps the keys of the last two alive. *)
Lemma wipe_alive f E e key g : data_wf (data f) -> alive f E e key -> (S E <= e + 2)%nat ->
  nHashFuncs g = nHashFuncs f -> nTweak g = nTweak f ->
  data g = wipe (u64 (- Z.land (gen_of (S E)) 1)) (u64 (- Z.shiftr (gen_of (S E)) 1)) (data f) ->
  alive g (S E) e key.
Proof.
  intros Hd Ha He G1 G2 G3 n Hn. rewrite G1 in Hn. rewrite G2, G3, length_wipe.
  destruct (Ha n Hn) as (e' & H1 & H2 & H3).
  pose proof (place_spec (data f) (nTweak f) n key Hd) as Hp.
  destruct (place (length (data f)) (nTweak f) n key) as [q b]. destruct Hp as (Hq & Hb & _).
  cbn [fst snd] in *. exists e'. split; [lia|]. split; [lia|].
  rewrite wipe_cell by (done || apply gen_of_ok). rewrite H3, decide_False; [done|].
  apply gen_of_next. lia.
Qed.

(** The first half of [insert]: the state the key is inserted into, for the epoch of the
    insertion number [length ks]. *)
Definition begin_insert (f : CRollingBloomFilter) : CRollingBloomFilter :=
  if nEntriesThisGeneration f =? nEntriesPerGeneration f
  then
    let g := nGeneration f + 1 in
    let g := if g =? 4 then 1 else g in
    {| nEntriesPerGeneration := nEntriesPerGeneration f; nEntriesThisGeneration := 0;
       nGeneration := g;
       data := wipe (u64 (- Z.land g 1)) (u64 (- Z.shiftr g 1)) (data f);
       nTweak := nTweak f; nHashFuncs := nHashFuncs f |}
  else f.

Lemma gen_of_S e : (if gen_of e + 1 =? 4 then 1 else gen_of e + 1) = gen_of (S e).
Proof.
  unfold gen_of. pose proof (Nat.div_mod_eq e 3). pose proof (Nat.div_mod_eq (S e) 3).
  pose proof (Nat.mod_upper_bound e 3). pose proof (Nat.mod_upper_bound (S e) 3).
  case_bool; lia.
Qed.

Lemma epoch_next N P E : (0 < P)%nat -> E = ((N - 1) / P)%nat ->
  if decide (N = (E + 1) * P)%nat then (N / P = S E)%nat else (N / P = E)%nat.
Proof.
  intros HP ->. pose proof (Nat.div_mod_eq (N - 1) P). pose proof (Nat.mod_upper_bound (N - 1) P ltac:(lia)).
  set (E := ((N - 1) / P)%nat) in *. destruct (decide _) as [EN|EN].
  - symmetry. apply (Nat.div_unique _ _ _ 0); nia.
  - symmetry. apply (Nat.div_unique _ _ _ (N - P * E)); nia.
Qed.

Lemma begin_insert_spec f ks : rolling_inv f ks ->
  let f1 := begin_insert f in
  let P := Z.to_nat (nEntriesPerGeneration f) in
  let E' := (length ks / P)%nat in
  data_wf (data f1) /\ nEntriesPerGeneration f1 = nEntriesPerGeneration f
  /\ nHashFuncs f1 = nHashFuncs f /\ nTweak f1 = nTweak f /\ length (data f1) = length (data f)
  /\ nGeneration f1 = gen_of E'
  /\ nEntriesThisGeneration f1 = Z.of_nat (length ks) - Z.of_nat E' * nEntriesPerGeneration f
  /\ forall t key, ks !! t = Some key -> (E' <= t / P + 2)%nat -> alive f1 E' (t / P) key.
Proof.
  intros [Hd Hp Hg Ht Ha] f1 P E'. cbn zeta in Ha. fold P in Ha, Hg, Ht.
  assert (0 < P)%nat as HP by (unfold P; lia).
  set (E := ((length ks - 1) / P)%nat) in *.
  pose proof (epoch_next (length ks) P E HP eq_refl) as He. fold E' in He.
  assert (Z.of_nat P = nEntriesPerGeneration f) as EP by (unfold P; lia).
  unfold f1, begin_insert. destruct (Z.eqb_spec (nEntriesThisGeneration f) (nEntriesPerGeneration f)) as [Eq|Ne].
  - rewrite decide_True in He by nia. rewrite He, Hg, gen_of_S.
    split_and!; cbn [data nEntriesPerGeneration nHashFuncs nTweak nGeneration nEntriesThisGeneration];
      try done; [by apply wipe_wf|apply length_wipe|nia|].
    intros t key Hk Hle. apply (wipe_alive f E); try done. apply Ha; [done|lia].
  - rewrite decide_False in He by nia. rewrite He. split_and!; done.
Qed.

(** The whole of [insert]. *)
Lemma insert_inv f ks key : rolling_inv f ks ->
  exists g, insert be f key = Some g /\ rolling_inv g (ks ++ [key])
    /\ nEntriesPerGeneration g = nEntriesPerGeneration f.
Proof.
  intros Hi. pose proof (begin_insert_spec f ks Hi) as (Hd & E1 & E2 & E3 & E4 & E5 & E6 & Ha).
  set (P := Z.to_nat (nEntriesPerGeneration f)) in *. set (E' := (length ks / P)%nat) in *.
  assert (0 < nEntriesPerGeneration f) as Hp by apply (ri_per f ks Hi).
  unfold insert. fold (begin_insert f). set (f1 := begin_insert f) in *.
  destruct (insert_loop_places (Z.to_nat (nHashFuncs f1)) 0 (gen_of E') (nTweak f1) (data f1) key Hd
    (gen_of_ok E')) as (d' & Ed & Hd' & Hl & Hc & Hnew).
  rewrite E5, Ed. cbn [mbind option_bind]. eexists. split; [done|].
  split; [|done].
  assert (length (ks ++ [key]) - 1 = length ks)%nat as EL by (rewrite length_app; cbn [length]; lia).
  constructor; cbn [data nEntriesPerGeneration nHashFuncs nTweak nGeneration nEntriesThisGeneration];
    rewrite ?E1, ?EL; fold P; fold E'; try done.
  - rewrite E6, length_app. cbn [length]. lia.
  - intros t k Hk Hle. set (g := Build_CRollingBloomFilter _ _ _ _ _ _).
    destruct (decide (t < length ks)%nat) as [Hlt|Hge].
    + rewrite lookup_app_l in Hk by done.
      apply (stamp_alive f1 d' E'); try done; [apply Nat.Div0.div_le_mono; lia|by apply Ha].
    + assert (t = length ks) as -> by (apply lookup_lt_Some in Hk; rewrite length_app in Hk; cbn in Hk; lia).
      rewrite list_lookup_middle in Hk by done. injection Hk as <-.
      intros n Hn. cbn [g data nTweak nHashFuncs] in *. exists E'.
      split_and!; [lia|lia|lia|]. rewrite Hl. apply Hnew. lia.
Qed.

Fixpoint rolling_run (f : CRollingBloomFilter) (ks : list (list Z)) : option CRollingBloomFilter :=
  match ks with
  | [] => Some f
  | k :: ks' => g ← insert be f k; rolling_run g ks'
  end.

Lemma rolling_run_inv f ks0 ks : rolling_inv f ks0 ->
  exists g, rolling_run f ks = Some g /\ rolling_inv g (ks0 ++ ks)
    /\ nEntriesPerGeneration g = nEntriesPerGeneration f.
Proof.
  revert f ks0. induction ks as [|k ks IH]; intros f ks0 Hi; cbn [rolling_run].
  { exists f. by rewrite app_nil_r. }
  destruct (insert_inv f ks0 k Hi) as (g & -> & Hg & Eg). cbn [mbind option_bind].
  destruct (IH g (ks0 ++ [k]) Hg) as (h & -> & Hh & Eh). exists h.
  rewrite <- (assoc_L (++)) in Hh. split; [done|]. split; [done|congruence].
Qed.

(** The state after construction. *)
Lemma new_inv nElements funcs nFilterBits tweak :
  0 < nElements < 2 ^ 31 -> 0 < nFilterBits < 2 ^ 32 - 64 ->
  rolling_inv (new nElements funcs nFilterBits tweak) []
  /\ nElements <= 2 * nEntriesPerGeneration (new nElements funcs nFilterBits tweak).
Proof.
  intros Hn Hb. unfold new, reset. cbn [data nEntriesPerGeneration nHashFuncs nTweak nGeneration nEntriesThisGeneration].
  rewrite (uwrap_small 32 (nElements + 1)), (uwrap_small 32 (nFilterBits + 63)) by (unfold is_u; lia).
  pose proof (Z.div_mod (nElements + 1) 2 ltac:(lia)). pose proof (Z.mod_pos_bound (nElements + 1) 2 ltac:(lia)).
  rewrite (swrap_small 32) by (unfold is_s; lia).
  pose proof (Z.div_mod (nFilterBits + 63) 64 ltac:(lia)). pose proof (Z.mod_pos_bound (nFilterBits + 63) 64 ltac:(lia)).
  rewrite Z.shiftl_mul_pow2 by lia. change (2 ^ 1) with 2.
  rewrite (uwrap_small 32) by (unfold is_u; lia).
  set (w := (nFilterBits + 63) / 64) in *.
  split; [|cbn [nEntriesPerGeneration]; lia].
  constructor; cbn [data nEntriesPerGeneration nHashFuncs nTweak nGeneration nEntriesThisGeneration length]; try done.
  - constructor; rewrite ?length_map, ?length_replicate; [|exists (Z.to_nat w); lia|lia|lia].
    apply Forall_map, Forall_forall. intros x _. done.
  - lia.
  - by rewrite Nat.Div0.div_0_l.
  - rewrite Nat.Div0.div_0_l. lia.
Qed.
End host.
End RollingFacts.

(** A rolling filter for [nElements] elements never fails and remembers what its comment
    promises: after any insertions, every key among the last [nElements] (indeed among the last
    two generations and the one in progress) is contained. *)
Theorem rolling_bloom_remembers be nElements funcs nFilterBits tweak ks :
  0 < nElements < 2 ^ 31 -> 0 < nFilterBits < 2 ^ 32 - 64 ->
  exists g, RollingFacts.rolling_run be (CRollingBloomFilter.new nElements funcs nFilterBits tweak) ks = Some g
    /\ forall key, key ∈ drop (length ks - Z.to_nat nElements) ks ->
         CRollingBloomFilter.contains be g key = Some true.
Proof.
  intros Hn Hb. destruct (RollingFacts.new_inv be nElements funcs nFilterBits tweak Hn Hb) as [Hi Hper].
  destruct (RollingFacts.rolling_run_inv be _ [] ks Hi) as (g & Eg & Hg & Ep). exists g. split; [done|].
  rewrite <- Ep in Hper. cbn [app] in Hg. pose proof (RollingFacts.ri_per _ _ _ Hg).
  intros key (t & Ht)%list_elem_of_lookup_1. rewrite lookup_drop in Ht.
  set (P := Z.to_nat (CRollingBloomFilter.nEntriesPerGeneration g)).
  eapply RollingFacts.contains_alive; [apply Hg|apply (RollingFacts.ri_alive _ _ _ Hg _ _ Ht)].
  apply lookup_lt_Some in Ht. fold P.
  assert (length ks - 1 <= length ks - Z.to_nat nElements + t + 2 * P)%nat as Hle by (unfold P; lia).
  apply (Nat.Div0.div_le_mono _ _ P) in Hle. rewrite Nat.div_add in Hle by (unfold P; lia). done.
Qed.

Lemma rolling_bloom_remembers_witness :
  exists g, RollingFacts.rolling_run false (CRollingBloomFilter.new 2 3 64 7) [[1]; [2]; [3]; [4]; [5]; [6]] = Some g
    /\ (forall key, key ∈ [[5]; [6]] -> CRollingBloomFilter.contains false g key = Some true).
Proof.
  apply (rolling_bloom_remembers false 2 3 64 7 [[1]; [2]; [3]; [4]; [5]; [6]]); lia.
Defined.
