(* ===== verification/BlockIndex.v ===== *)
(** * BlockIndex: the tree of known blocks and the choice of the best chain

    Models the state [src/src/validation.cpp] keeps about all blocks it has heard of, and
    the functions that change it: [AddToBlockIndex] (a new header),
    [ReceivedBlockTransactions] (the transactions of a block arrive),
    [InvalidChainFound] and [InvalidBlockFound] (a block fails), [FindMostWorkChain] (the best candidate),
    [PruneBlockIndexCandidates], [ResetBlockFailureFlags] and the part of [PreciousBlock] and
    of [InvalidateBlock] that is about the index.

    The entries are objects on a heap, as in [Chain].  The functions run in a monad of the
    state with the faults of [Chain]: a null or dangling pointer and a failed [assert] end
    the run with [Err].  [setBlockIndexCandidates] is a [std::set] ordered by a comparator
    that reads the entries, so it is the list of its elements in their order, and insertion
    and removal search by the comparator, as the set does: that an entry is not changed while
    it is in the set is part of the invariant, not of the model.  [mapBlocksUnlinked] is a
    [std::multimap]: its pairs, those of one key in the order of insertion. *)
From stdpp Require Import sorting.
From S2P Require Import Prelude ArithUint256 Uint256 ConsensusParams Serialize Transaction Chain Block TxCheck BlockCheck.
Import Header.

(** ** Assignments to the fields of an entry *)

Module Entry.
Import CBlockIndex.

Definition set_phashBlock (v : list Z) (b : t) : t :=
  {| phashBlock := Some v; pprev := pprev b; pskip := pskip b; nHeight := nHeight b; nFile := nFile b;
     nDataPos := nDataPos b; nUndoPos := nUndoPos b; nChainTrust := nChainTrust b; nTx := nTx b;
     nChainTx := nChainTx b; nStatus := nStatus b; nVersion := nVersion b;
     hashMerkleRoot := hashMerkleRoot b; nTime := nTime b; nBits := nBits b; nNonce := nNonce b;
     nVersionMTP := nVersionMTP b; mtpHashValue := mtpHashValue b; nSequenceId := nSequenceId b;
     nTimeMax := nTimeMax b; nMint := nMint b; nMoneySupply := nMoneySupply b; nFlags := nFlags b;
     nStakeModifier := nStakeModifier b; nStakeModifierChecksum := nStakeModifierChecksum b;
     prevoutStake := prevoutStake b; nStakeTime := nStakeTime b;
     hashProofOfStake := hashProofOfStake b |}.

Definition set_parent (p : N) (height : Z) (b : t) : t :=
  {| phashBlock := phashBlock b; pprev := Some p; pskip := pskip b; nHeight := height;
     nFile := nFile b; nDataPos := nDataPos b; nUndoPos := nUndoPos b; nChainTrust := nChainTrust b;
     nTx := nTx b; nChainTx := nChainTx b; nStatus := nStatus b; nVersion := nVersion b;
     hashMerkleRoot := hashMerkleRoot b; nTime := nTime b; nBits := nBits b; nNonce := nNonce b;
     nVersionMTP := nVersionMTP b; mtpHashValue := mtpHashValue b; nSequenceId := nSequenceId b;
     nTimeMax := nTimeMax b; nMint := nMint b; nMoneySupply := nMoneySupply b; nFlags := nFlags b;
     nStakeModifier := nStakeModifier b; nStakeModifierChecksum := nStakeModifierChecksum b;
     prevoutStake := prevoutStake b; nStakeTime := nStakeTime b;
     hashProofOfStake := hashProofOfStake b |}.

Definition set_nTimeMax (v : Z) (b : t) : t :=
  {| phashBlock := phashBlock b; pprev := pprev b; pskip := pskip b; nHeight := nHeight b;
     nFile := nFile b; nDataPos := nDataPos b; nUndoPos := nUndoPos b; nChainTrust := nChainTrust b;
     nTx := nTx b; nChainTx := nChainTx b; nStatus := nStatus b; nVersion := nVersion b;
     hashMerkleRoot := hashMerkleRoot b; nTime := nTime b; nBits := nBits b; nNonce := nNonce b;
     nVersionMTP := nVersionMTP b; mtpHashValue := mtpHashValue b; nSequenceId := nSequenceId b;
     nTimeMax := v; nMint := nMint b; nMoneySupply := nMoneySupply b; nFlags := nFlags b;
     nStakeModifier := nStakeModifier b; nStakeModifierChecksum := nStakeModifierChecksum b;
     prevoutStake := prevoutStake b; nStakeTime := nStakeTime b;
     hashProofOfStake := hashProofOfStake b |}.

Definition set_nChainTrust (v : list Z) (b : t) : t :=
  {| phashBlock := phashBlock b; pprev := pprev b; pskip := pskip b; nHeight := nHeight b;
     nFile := nFile b; nDataPos := nDataPos b; nUndoPos := nUndoPos b; nChainTrust := v; nTx := nTx b;
     nChainTx := nChainTx b; nStatus := nStatus b; nVersion := nVersion b;
     hashMerkleRoot := hashMerkleRoot b; nTime := nTime b; nBits := nBits b; nNonce := nNonce b;
     nVersionMTP := nVersionMTP b; mtpHashValue := mtpHashValue b; nSequenceId := nSequenceId b;
     nTimeMax := nTimeMax b; nMint := nMint b; nMoneySupply := nMoneySupply b; nFlags := nFlags b;
     nStakeModifier := nStakeModifier b; nStakeModifierChecksum := nStakeModifierChecksum b;
     prevoutStake := prevoutStake b; nStakeTime := nStakeTime b;
     hashProofOfStake := hashProofOfStake b |}.

Definition set_nChainTx (v : Z) (b : t) : t :=
  {| phashBlock := phashBlock b; pprev := pprev b; pskip := pskip b; nHeight := nHeight b;
     nFile := nFile b; nDataPos := nDataPos b; nUndoPos := nUndoPos b; nChainTrust := nChainTrust b;
     nTx := nTx b; nChainTx := v; nStatus := nStatus b; nVersion := nVersion b;
     hashMerkleRoot := hashMerkleRoot b; nTime := nTime b; nBits := nBits b; nNonce := nNonce b;
     nVersionMTP := nVersionMTP b; mtpHashValue := mtpHashValue b; nSequenceId := nSequenceId b;
     nTimeMax := nTimeMax b; nMint := nMint b; nMoneySupply := nMoneySupply b; nFlags := nFlags b;
     nStakeModifier := nStakeModifier b; nStakeModifierChecksum := nStakeModifierChecksum b;
     prevoutStake := prevoutStake b; nStakeTime := nStakeTime b;
     hashProofOfStake := hashProofOfStake b |}.

Definition set_nSequenceId (v : Z) (b : t) : t :=
  {| phashBlock := phashBlock b; pprev := pprev b; pskip := pskip b; nHeight := nHeight b;
     nFile := nFile b; nDataPos := nDataPos b; nUndoPos := nUndoPos b; nChainTrust := nChainTrust b;
     nTx := nTx b; nChainTx := nChainTx b; nStatus := nStatus b; nVersion := nVersion b;
     hashMerkleRoot := hashMerkleRoot b; nTime := nTime b; nBits := nBits b; nNonce := nNonce b;
     nVersionMTP := nVersionMTP b; mtpHashValue := mtpHashValue b; nSequenceId := v;
     nTimeMax := nTimeMax b; nMint := nMint b; nMoneySupply := nMoneySupply b; nFlags := nFlags b;
     nStakeModifier := nStakeModifier b; nStakeModifierChecksum := nStakeModifierChecksum b;
     prevoutStake := prevoutStake b; nStakeTime := nStakeTime b;
     hashProofOfStake := hashProofOfStake b |}.

Definition set_data (tx chainTx file dataPos undoPos : Z) (b : t) : t :=
  {| phashBlock := phashBlock b; pprev := pprev b; pskip := pskip b; nHeight := nHeight b;
     nFile := file; nDataPos := dataPos; nUndoPos := undoPos; nChainTrust := nChainTrust b; nTx := tx;
     nChainTx := chainTx; nStatus := nStatus b; nVersion := nVersion b;
     hashMerkleRoot := hashMerkleRoot b; nTime := nTime b; nBits := nBits b; nNonce := nNonce b;
     nVersionMTP := nVersionMTP b; mtpHashValue := mtpHashValue b; nSequenceId := nSequenceId b;
     nTimeMax := nTimeMax b; nMint := nMint b; nMoneySupply := nMoneySupply b; nFlags := nFlags b;
     nStakeModifier := nStakeModifier b; nStakeModifierChecksum := nStakeModifierChecksum b;
     prevoutStake := prevoutStake b; nStakeTime := nStakeTime b;
     hashProofOfStake := hashProofOfStake b |}.

Definition add_status (bits : Z) (b : t) : t := set_nStatus (Z.lor (nStatus b) bits) b.
Definition clear_status (bits : Z) (b : t) : t := set_nStatus (Z.land (nStatus b) (not_mask bits)) b.

(** [CBlockIndex(const CBlockHeader&)] *)
Definition of_header (h : CBlockHeader) : t :=
  {| phashBlock := None; pprev := None; pskip := None; nHeight := 0; nFile := 0; nDataPos := 0;
     nUndoPos := 0; nChainTrust := zero256; nTx := 0; nChainTx := 0; nStatus := 0;
     nSequenceId := 0; nTimeMax := 0; nVersion := Header.nVersion h;
     hashMerkleRoot := Header.hashMerkleRoot h; nTime := Header.nTime h; nBits := Header.nBits h;
     nNonce := Header.nNonce h; nVersionMTP := Header.nVersionMTP h;
     mtpHashValue := Header.mtpHashValue h; nMint := 0; nMoneySupply := 0; nFlags := 0;
     nStakeModifier := 0; nStakeModifierChecksum := 0; hashProofOfStake := Uint256.SetNull 32;
     prevoutStake := COutPoint.null; nStakeTime := 0 |}.

Definition failed (b : t) : bool := flag_set (nStatus b) BLOCK_FAILED_MASK.
Definition have_data (b : t) : bool := flag_set (nStatus b) BLOCK_HAVE_DATA.
End Entry.

(** ** The state *)

Record state : Type := mk_state {
  entries : heap;
  mapBlockIndex : gmap (list Z) N;
  setBlockIndexCandidates : list N;
  mapBlocksUnlinked : list (option N * N);
  nBlockSequenceId : Z;
  nBlockReverseSequenceId : Z;
  nLastPreciousChainwork : list Z;
  chainActive : CChain.t;
  pindexBestHeader : option N;
  pindexBestInvalid : option N;
  setDirtyBlockIndex : gset N;
  mapDirtyAuxPow : gmap (list Z) (option CAuxPow);
}.

Definition set_entries (v : heap) (s : state) : state :=
  mk_state v (mapBlockIndex s) (setBlockIndexCandidates s) (mapBlocksUnlinked s) (nBlockSequenceId s)
    (nBlockReverseSequenceId s) (nLastPreciousChainwork s) (chainActive s) (pindexBestHeader s)
    (pindexBestInvalid s) (setDirtyBlockIndex s) (mapDirtyAuxPow s).
Definition set_mapBlockIndex (v : gmap (list Z) N) (s : state) : state :=
  mk_state (entries s) v (setBlockIndexCandidates s) (mapBlocksUnlinked s) (nBlockSequenceId s)
    (nBlockReverseSequenceId s) (nLastPreciousChainwork s) (chainActive s) (pindexBestHeader s)
    (pindexBestInvalid s) (setDirtyBlockIndex s) (mapDirtyAuxPow s).
Definition set_setBlockIndexCandidates (v : list N) (s : state) : state :=
  mk_state (entries s) (mapBlockIndex s) v (mapBlocksUnlinked s) (nBlockSequenceId s)
    (nBlockReverseSequenceId s) (nLastPreciousChainwork s) (chainActive s) (pindexBestHeader s)
    (pindexBestInvalid s) (setDirtyBlockIndex s) (mapDirtyAuxPow s).
Definition set_mapBlocksUnlinked (v : list (option N * N)) (s : state) : state :=
  mk_state (entries s) (mapBlockIndex s) (setBlockIndexCandidates s) v (nBlockSequenceId s)
    (nBlockReverseSequenceId s) (nLastPreciousChainwork s) (chainActive s) (pindexBestHeader s)
    (pindexBestInvalid s) (setDirtyBlockIndex s) (mapDirtyAuxPow s).
Definition set_nBlockSequenceId (v : Z) (s : state) : state :=
  mk_state (entries s) (mapBlockIndex s) (setBlockIndexCandidates s) (mapBlocksUnlinked s) v
    (nBlockReverseSequenceId s) (nLastPreciousChainwork s) (chainActive s) (pindexBestHeader s)
    (pindexBestInvalid s) (setDirtyBlockIndex s) (mapDirtyAuxPow s).
Definition set_nBlockReverseSequenceId (v : Z) (s : state) : state :=
  mk_state (entries s) (mapBlockIndex s) (setBlockIndexCandidates s) (mapBlocksUnlinked s)
    (nBlockSequenceId s) v (nLastPreciousChainwork s) (chainActive s) (pindexBestHeader s)
    (pindexBestInvalid s) (setDirtyBlockIndex s) (mapDirtyAuxPow s).
Definition set_nLastPreciousChainwork (v : list Z) (s : state) : state :=
  mk_state (entries s) (mapBlockIndex s) (setBlockIndexCandidates s) (mapBlocksUnlinked s)
    (nBlockSequenceId s) (nBlockReverseSequenceId s) v (chainActive s) (pindexBestHeader s)
    (pindexBestInvalid s) (setDirtyBlockIndex s) (mapDirtyAuxPow s).
Definition set_chainActive (v : CChain.t) (s : state) : state :=
  mk_state (entries s) (mapBlockIndex s) (setBlockIndexCandidates s) (mapBlocksUnlinked s)
    (nBlockSequenceId s) (nBlockReverseSequenceId s) (nLastPreciousChainwork s) v (pindexBestHeader s)
    (pindexBestInvalid s) (setDirtyBlockIndex s) (mapDirtyAuxPow s).
Definition set_pindexBestHeader (v : option N) (s : state) : state :=
  mk_state (entries s) (mapBlockIndex s) (setBlockIndexCandidates s) (mapBlocksUnlinked s)
    (nBlockSequenceId s) (nBlockReverseSequenceId s) (nLastPreciousChainwork s) (chainActive s) v
    (pindexBestInvalid s) (setDirtyBlockIndex s) (mapDirtyAuxPow s).
Definition set_pindexBestInvalid (v : option N) (s : state) : state :=
  mk_state (entries s) (mapBlockIndex s) (setBlockIndexCandidates s) (mapBlocksUnlinked s)
    (nBlockSequenceId s) (nBlockReverseSequenceId s) (nLastPreciousChainwork s) (chainActive s)
    (pindexBestHeader s) v (setDirtyBlockIndex s) (mapDirtyAuxPow s).
Definition set_setDirtyBlockIndex (v : gset N) (s : state) : state :=
  mk_state (entries s) (mapBlockIndex s) (setBlockIndexCandidates s) (mapBlocksUnlinked s)
    (nBlockSequenceId s) (nBlockReverseSequenceId s) (nLastPreciousChainwork s) (chainActive s)
    (pindexBestHeader s) (pindexBestInvalid s) v (mapDirtyAuxPow s).
Definition set_mapDirtyAuxPow (v : gmap (list Z) (option CAuxPow)) (s : state) : state :=
  mk_state (entries s) (mapBlockIndex s) (setBlockIndexCandidates s) (mapBlocksUnlinked s)
    (nBlockSequenceId s) (nBlockReverseSequenceId s) (nLastPreciousChainwork s) (chainActive s)
    (pindexBestHeader s) (pindexBestInvalid s) (setDirtyBlockIndex s) v.

(** ** The monad *)

Definition op (A : Type) : Type := state -> result fault (A * state).

#[export] Instance op_ret : MRet op := fun _ a s => Ok (a, s).
#[export] Instance op_bind : MBind op := fun _ _ f m s =>
  match m s with Ok (a, s') => f a s' | Err e => Err e end.

Definition get : op state := fun s => Ok (s, s).
Definition modify (f : state -> state) : op unit := fun s => Ok (tt, f s).
Definition lift {A} (r : result fault A) : op A := fun s =>
  match r with Ok a => Ok (a, s) | Err e => Err e end.
Definition assert_ (c : bool) : op unit := if c then mret tt else lift (Err assertion_failed).

Definition load (p : N) : op CBlockIndex.t := s ← get; lift (deref (entries s) p).
Definition store (p : N) (b : CBlockIndex.t) : op unit := modify (fun s => set_entries (<[p := b]> (entries s)) s).
Definition update (p : N) (f : CBlockIndex.t -> CBlockIndex.t) : op unit := b ← load p; store p (f b).

Definition mark_dirty (p : N) : op unit :=
  modify (fun s => set_setDirtyBlockIndex ({[p]} ∪ setDirtyBlockIndex s) s).

(** [mapDirtyAuxPow.insert] *)
Definition insert_auxpow (hash : list Z) (a : option CAuxPow) : op unit :=
  modify (fun s => match mapDirtyAuxPow s !! hash with
                   | Some _ => s
                   | None => set_mapDirtyAuxPow (<[hash := a]> (mapDirtyAuxPow s)) s
                   end).

(** ** The set of candidates *)

(** [pa] and [pb] are what [a] and [b] point at. *)
Definition CBlockIndexWorkComparator (a : N) (pa : CBlockIndex.t) (b : N) (pb : CBlockIndex.t) : bool :=
  let c := CompareTo (CBlockIndex.nChainTrust pa) (CBlockIndex.nChainTrust pb) in
  if c >? 0 then false
  else if c <? 0 then true
  else if CBlockIndex.nSequenceId pa <? CBlockIndex.nSequenceId pb then false
  else if CBlockIndex.nSequenceId pa >? CBlockIndex.nSequenceId pb then true
  else if (a <? b)%N then false
  else if (b <? a)%N then true
  else false.

Section set.
Variable h : heap.

Definition value_comp (a b : N) : result fault bool :=
  pa ← deref h a;
  pb ← deref h b;
  mret (CBlockIndexWorkComparator a pa b pb).

Fixpoint set_insert (x : N) (l : list N) : result fault (list N) :=
  match l with
  | [] => mret [x]
  | y :: l' =>
      c ← value_comp y x;
      if (c : bool) then r ← set_insert x l'; mret (y :: r)
      else c' ← value_comp x y; mret (if (c' : bool) then x :: l else l)
  end.

Fixpoint set_erase (x : N) (l : list N) : result fault (list N) :=
  match l with
  | [] => mret []
  | y :: l' =>
      c ← value_comp y x;
      if (c : bool) then r ← set_erase x l'; mret (y :: r)
      else c' ← value_comp x y; mret (if (c' : bool) then l else l')
  end.

(** The loop of [PruneBlockIndexCandidates]. *)
Fixpoint prune_loop (tip : option N) (l : list N) : result fault (list N) :=
  match l with
  | [] => mret []
  | y :: l' =>
      match tip with
      | None => Err null_deref
      | Some t => c ← value_comp y t; if (c : bool) then prune_loop tip l' else mret l
      end
  end.
End set.

Definition insert_candidate (p : N) : op unit :=
  s ← get;
  l ← lift (set_insert (entries s) p (setBlockIndexCandidates s));
  modify (set_setBlockIndexCandidates l).

Definition erase_candidate (p : N) : op unit :=
  s ← get;
  l ← lift (set_erase (entries s) p (setBlockIndexCandidates s));
  modify (set_setBlockIndexCandidates l).

Definition Tip (s : state) : option N := CChain.Tip (chainActive s).

(** [value_comp()(p, chainActive.Tip())] *)
Definition worse_than_tip (p : N) : op bool :=
  s ← get;
  match Tip s with
  | Some t => lift (value_comp (entries s) p t)
  | None => lift (Err null_deref)
  end.

Definition PruneBlockIndexCandidates : op unit :=
  s ← get;
  l ← lift (prune_loop (entries s) (Tip s) (setBlockIndexCandidates s));
  _ ← modify (set_setBlockIndexCandidates l);
  assert_ (negb (length l =? 0)%nat).

(** ** Failed blocks *)

(** [pindexNew->nChainTrust > pindexBestInvalid->nChainTrust], or there is none yet. *)
Definition beats_best_invalid (pindexNew : N) : op bool :=
  s ← get;
  match pindexBestInvalid s with
  | None => mret true
  | Some q =>
      b ← load pindexNew;
      bq ← load q;
      mret (CompareTo (CBlockIndex.nChainTrust b) (CBlockIndex.nChainTrust bq) >? 0)
  end.

Definition note_invalid (pindexNew : N) : op unit :=
  c ← beats_best_invalid pindexNew;
  if (c : bool) then modify (set_pindexBestInvalid (Some pindexNew)) else mret tt.

Definition InvalidChainFound (pindexNew : N) : op unit :=
  _ ← note_invalid pindexNew;
  s ← get;
  assert_ (bool_decide (is_Some (Tip s))).

Definition InvalidBlockFound (pindex : N) (fCorruptionPossible : bool) : op unit :=
  if negb fCorruptionPossible then
    _ ← update pindex (Entry.add_status CBlockIndex.BLOCK_FAILED_VALID);
    _ ← mark_dirty pindex;
    _ ← erase_candidate pindex;
    InvalidChainFound pindex
  else mret tt.

(** ** The best candidate *)

(** Remove the chain from [pindexFailed] down to [pindexTest]; the fuel is its length. *)
Fixpoint drop_chain (fuel : nat) (fFailedChain : bool) (pindexTest pindexFailed : N) : op unit :=
  if (pindexTest =? pindexFailed)%N then mret tt
  else match fuel with
       | O => lift (Err out_of_fuel)
       | S fuel' =>
           b ← load pindexFailed;
           _ ← (if fFailedChain then update pindexFailed (Entry.add_status CBlockIndex.BLOCK_FAILED_CHILD)
                else modify (fun s => set_mapBlocksUnlinked (mapBlocksUnlinked s ++ [(CBlockIndex.pprev b, pindexFailed)]) s));
           _ ← erase_candidate pindexFailed;
           match CBlockIndex.pprev b with
           | Some q => drop_chain fuel' fFailedChain pindexTest q
           | None => lift (Err null_deref)
           end
       end.

(** The walk from the candidate [pindexNew] towards the active chain: whether it met a block
    that failed or has no data, in which case the chain is removed from the candidates. *)
Fixpoint invalid_ancestor (fuel : nat) (pindexNew : N) (pindexTest : option N) : op bool :=
  match pindexTest with
  | None => mret false
  | Some p =>
      s ← get;
      c ← lift (CChain.Contains (entries s) (chainActive s) p);
      if (c : bool) then mret false
      else
        b ← load p;
        _ ← assert_ (negb (CBlockIndex.nChainTx b =? 0) || (CBlockIndex.nHeight b =? 0));
        let fFailedChain := Entry.failed b in
        let fMissingData := negb (Entry.have_data b) in
        match fuel with
        | O => lift (Err out_of_fuel)
        | S fuel' =>
            if fFailedChain || fMissingData then
              _ ← (if fFailedChain then note_invalid pindexNew else mret tt);
              new ← load pindexNew;
              _ ← drop_chain (S (Z.to_nat (CBlockIndex.nHeight new))) fFailedChain p pindexNew;
              _ ← erase_candidate p;
              mret true
            else invalid_ancestor fuel' pindexNew (CBlockIndex.pprev b)
        end
  end.

Fixpoint FindMostWorkChain_loop (fuel : nat) : op (option N) :=
  s ← get;
  match last (setBlockIndexCandidates s) with
  | None => mret None
  | Some pindexNew =>
      b ← load pindexNew;
      bad ← invalid_ancestor (S (Z.to_nat (CBlockIndex.nHeight b))) pindexNew (Some pindexNew);
      if (bad : bool) then
        match fuel with
        | O => lift (Err out_of_fuel)
        | S fuel' => FindMostWorkChain_loop fuel'
        end
      else mret (Some pindexNew)
  end.

(** Every round but the last removes a candidate. *)
Definition FindMostWorkChain : op (option N) :=
  s ← get; FindMostWorkChain_loop (length (setBlockIndexCandidates s)).

(** ** New headers and blocks *)

Section blocks.
Context (be : bool) (Hash : list Z -> list Z) (params : Params.t).

(** [AddToBlockIndex], in four parts: the new object at the address [pindexNew] under its hash, ... *)
Definition new_entry (block : CBlockHeader) (pindexNew : N) : op unit :=
  let hash := block_hash be Hash block in
  _ ← store pindexNew (Entry.of_header block);
  _ ← update pindexNew (Entry.set_nSequenceId 0);
  _ ← modify (fun s => set_mapBlockIndex (<[hash := pindexNew]> (mapBlockIndex s)) s);
  update pindexNew (Entry.set_phashBlock hash).

(** ... its place in the tree, ... *)
Definition place_entry (block : CBlockHeader) (pindexNew : N) : op unit :=
  s ← get;
  match mapBlockIndex s !! hashPrevBlock block with
  | None => mret tt
  | Some q =>
      bq ← load q;
      _ ← update pindexNew (Entry.set_parent q (i32 (CBlockIndex.nHeight bq + 1)));
      s ← get;
      h ← lift (BuildSkip (entries s) pindexNew);
      modify (set_entries h)
  end.

(** ... what it adds to its chain ... *)
Definition total_entry (bSetAsProofOfstake : bool) (pindexNew : N) : op unit :=
  b ← load pindexNew;
  tmax ← match CBlockIndex.pprev b with
         | Some q => bq ← load q; mret (Z.max (CBlockIndex.nTimeMax bq) (CBlockIndex.nTime b))
         | None => mret (CBlockIndex.nTime b)
         end;
  _ ← update pindexNew (Entry.set_nTimeMax tmax);
  _ ← (if bSetAsProofOfstake then update pindexNew CBlockIndex.SetProofOfStake else mret tt);
  b ← load pindexNew;
  prevTrust ← match CBlockIndex.pprev b with
              | Some q => bq ← load q; mret (CBlockIndex.nChainTrust bq)
              | None => mret (of_u64 0)
              end;
  trust ← lift (GetBlockTrust b);
  _ ← update pindexNew (Entry.set_nChainTrust (op_add_assign prevTrust trust));
  b ← load pindexNew;
  match CBlockIndex.RaiseValidity CBlockIndex.BLOCK_VALID_TREE b with
  | Some (_, b) => store pindexNew b
  | None => lift (Err assertion_failed)
  end.

(** ... and whether it is the best header. *)
Definition note_header (pindexNew : N) : op unit :=
  s ← get;
  best ← match pindexBestHeader s with
         | None => mret true
         | Some q =>
             bq ← load q;
             b ← load pindexNew;
             mret (CompareTo (CBlockIndex.nChainTrust bq) (CBlockIndex.nChainTrust b) <? 0)
         end;
  if (best : bool) then modify (set_pindexBestHeader (Some pindexNew)) else mret tt.

Definition AddToBlockIndex (block : CBlockHeader) (bSetAsProofOfstake : bool) (pindexNew : N) : op N :=
  let hash := block_hash be Hash block in
  s ← get;
  match mapBlockIndex s !! hash with
  | Some p => mret p
  | None =>
      _ ← new_entry block pindexNew;
      _ ← place_entry block pindexNew;
      _ ← total_entry bSetAsProofOfstake pindexNew;
      _ ← note_header pindexNew;
      _ ← mark_dirty pindexNew;
      _ ← (if is_auxpow (Header.nVersion block) then insert_auxpow hash (auxpow block) else mret tt);
      mret pindexNew
  end.

(** [IsV7Enabled], whose only effect is its result. *)
Definition v7_enabled (h : heap) (pindexPrev : option N) : result fault bool :=
  match fst (IsV7Enabled h params pindexPrev (CValidationState.new, tt)) with
  | Ok b => Ok b
  | Err _ => Err null_deref
  end.

(** The entry once the transactions of its block are on disk. *)
Definition received (fV7Enabled : bool) (nvtx : Z) (pos : CDiskBlockPos.t) (b : CBlockIndex.t) : option CBlockIndex.t :=
  let b := Entry.set_data (u32 nvtx) 0 (CDiskBlockPos.nFile pos) (CDiskBlockPos.nPos pos) 0 b in
  let b := Entry.add_status CBlockIndex.BLOCK_HAVE_DATA b in
  let b := if fV7Enabled then Entry.add_status CBlockIndex.BLOCK_OPT_WITNESS b else b in
  snd <$> CBlockIndex.RaiseValidity CBlockIndex.BLOCK_VALID_TRANSACTIONS b.

(** [mapBlocksUnlinked.equal_range(pindex)], taken out. *)
Definition take_unlinked (pindex : N) : op (list N) :=
  s ← get;
  let range := filter (fun kv => fst kv = Some pindex) (mapBlocksUnlinked s) in
  _ ← modify (set_mapBlocksUnlinked (filter (fun kv => fst kv <> Some pindex) (mapBlocksUnlinked s)));
  mret (map snd range).

(** [nChainTx] of the predecessor, 0 without one. *)
Definition prev_ChainTx (b : CBlockIndex.t) : op Z :=
  match CBlockIndex.pprev b with
  | Some q => bq ← load q; mret (CBlockIndex.nChainTx bq)
  | None => mret 0
  end.

(** The loop over the queue of blocks all of whose ancestors are there. *)
Fixpoint link_loop (fuel : nat) (queue : list N) : op unit :=
  match queue with
  | [] => mret tt
  | pindex :: queue =>
      match fuel with
      | O => lift (Err out_of_fuel)
      | S fuel' =>
          b ← load pindex;
          prevTx ← prev_ChainTx b;
          _ ← update pindex (Entry.set_nChainTx (u32 (prevTx + CBlockIndex.nTx b)));
          s ← get;
          _ ← update pindex (Entry.set_nSequenceId (nBlockSequenceId s));
          _ ← modify (fun s => set_nBlockSequenceId (i32 (nBlockSequenceId s + 1)) s);
          s ← get;
          worse ← match Tip s with None => mret false | Some _ => worse_than_tip pindex end;
          _ ← (if (worse : bool) then mret tt else insert_candidate pindex);
          range ← take_unlinked pindex;
          link_loop fuel' (queue ++ range)
      end
  end.

(** Link the block [b] at [pindexNew] and what waited for it, or let it wait. *)
Definition link_block (pindexNew : N) (b : CBlockIndex.t) : op unit :=
  linked ← match CBlockIndex.pprev b with
           | None => mret true
           | Some q => bq ← load q; mret (negb (CBlockIndex.nChainTx bq =? 0))
           end;
  if (linked : bool) then
    s ← get; link_loop (S (length (mapBlocksUnlinked s))) [pindexNew]
  else
    match CBlockIndex.pprev b with
    | None => mret tt
    | Some q =>
        bq ← load q;
        match CBlockIndex.IsValid CBlockIndex.BLOCK_VALID_TREE bq with
        | Some true => modify (fun s => set_mapBlocksUnlinked (mapBlocksUnlinked s ++ [(Some q, pindexNew)]) s)
        | Some false => mret tt
        | None => lift (Err assertion_failed)
        end
    end.

Definition ReceivedBlockTransactions (block : CBlock) (pindexNew : N) (pos : CDiskBlockPos.t) : op bool :=
  b ← load pindexNew;
  s ← get;
  fV7Enabled ← lift (v7_enabled (entries s) (CBlockIndex.pprev b));
  b ← (match received fV7Enabled (Z.of_nat (length (vtx block))) pos b with
       | Some b => mret b
       | None => lift (Err assertion_failed)
       end);
  _ ← store pindexNew b;
  _ ← mark_dirty pindexNew;
  _ ← (if is_auxpow (Header.nVersion (header block))
       then insert_auxpow (block_hash be Hash (header block)) (auxpow (header block)) else mret tt);
  _ ← link_block pindexNew b;
  mret true.
End blocks.

(** ** Requests of the operator *)

(** [PreciousBlock] up to the activation; [false] when there is nothing to do. *)
Definition precious (pindex : N) : op bool :=
  s ← get;
  t ← match Tip s with Some t => load t | None => lift (Err null_deref) end;
  b ← load pindex;
  if CompareTo (CBlockIndex.nChainTrust b) (CBlockIndex.nChainTrust t) <? 0 then mret false
  else
    _ ← (if CompareTo (CBlockIndex.nChainTrust t) (nLastPreciousChainwork s) >? 0
         then modify (set_nBlockReverseSequenceId (-1)) else mret tt);
    _ ← modify (set_nLastPreciousChainwork (CBlockIndex.nChainTrust t));
    _ ← erase_candidate pindex;
    s ← get;
    _ ← update pindex (Entry.set_nSequenceId (nBlockReverseSequenceId s));
    _ ← (if nBlockReverseSequenceId s >? - 2 ^ 31
         then modify (set_nBlockReverseSequenceId (nBlockReverseSequenceId s - 1)) else mret tt);
    b ← load pindex;
    valid ← match CBlockIndex.IsValid CBlockIndex.BLOCK_VALID_TRANSACTIONS b with
            | Some v => mret v
            | None => lift (Err assertion_failed)
            end;
    _ ← (if valid && negb (CBlockIndex.nChainTx b =? 0) then
           _ ← insert_candidate pindex; PruneBlockIndexCandidates
         else mret tt);
    mret true.

(** The loop of [InvalidateBlock] that puts blocks back among the candidates, over the
    entries of [mapBlockIndex]. *)
Fixpoint readd_candidates (l : list N) : op unit :=
  match l with
  | [] => mret tt
  | p :: l' =>
      b ← load p;
      valid ← match CBlockIndex.IsValid CBlockIndex.BLOCK_VALID_TRANSACTIONS b with
              | Some v => mret v
              | None => lift (Err assertion_failed)
              end;
      worse ← (if valid && negb (CBlockIndex.nChainTx b =? 0) then worse_than_tip p else mret true);
      _ ← (if (worse : bool) then mret tt else insert_candidate p);
      readd_candidates l'
  end.

Definition index_entries (s : state) : list N := map snd (map_to_list (mapBlockIndex s)).

(** [chainActive.Tip()] is worse than [p]. *)
Definition better_than_tip (p : N) : op bool :=
  s ← get;
  match Tip s with
  | Some t => lift (value_comp (entries s) t p)
  | None => lift (Err null_deref)
  end.

(** The loops of [ResetBlockFailureFlags]: over the entries of [mapBlockIndex] ... *)
Fixpoint reset_descendants (nHeight : Z) (pindex : N) (l : list N) : op unit :=
  match l with
  | [] => mret tt
  | p :: l' =>
      b ← load p;
      valid ← match CBlockIndex.IsValid CBlockIndex.BLOCK_VALID_TRANSACTIONS b with
              | Some v => mret v
              | None => lift (Err assertion_failed)
              end;
      s ← get;
      descends ← (if negb valid then a ← lift (GetAncestor (entries s) p nHeight); mret (bool_decide (a = Some pindex))
                  else mret false);
      _ ← (if (descends : bool) then
             _ ← update p (Entry.clear_status CBlockIndex.BLOCK_FAILED_MASK);
             _ ← mark_dirty p;
             b ← load p;
             valid ← match CBlockIndex.IsValid CBlockIndex.BLOCK_VALID_TRANSACTIONS b with
                     | Some v => mret v
                     | None => lift (Err assertion_failed)
                     end;
             better ← (if valid && negb (CBlockIndex.nChainTx b =? 0) then better_than_tip p else mret false);
             _ ← (if (better : bool) then insert_candidate p else mret tt);
             modify (fun s => if bool_decide (pindexBestInvalid s = Some p) then set_pindexBestInvalid None s else s)
           else mret tt);
      reset_descendants nHeight pindex l'
  end.

(** ... and along the ancestors. *)
Fixpoint reset_ancestors (fuel : nat) (pindex : option N) : op unit :=
  match pindex with
  | None => mret tt
  | Some p =>
      match fuel with
      | O => lift (Err out_of_fuel)
      | S fuel' =>
          b ← load p;
          _ ← (if Entry.failed b then
                 _ ← update p (Entry.clear_status CBlockIndex.BLOCK_FAILED_MASK); mark_dirty p
               else mret tt);
          reset_ancestors fuel' (CBlockIndex.pprev b)
      end
  end.

Definition ResetBlockFailureFlags (pindex : N) : op bool :=
  b ← load pindex;
  s ← get;
  _ ← reset_descendants (CBlockIndex.nHeight b) pindex (index_entries s);
  _ ← reset_ancestors (S (Z.to_nat (CBlockIndex.nHeight b))) (Some pindex);
  mret true.

(** ** Fields that stay the same

    [agree f h h'] says that the entries of two heaps agree on [f]. *)

Definition agree {A} (f : CBlockIndex.t -> A) (h h' : heap) : Prop := forall q, f <$> h' !! q = f <$> h !! q.

#[export] Instance agree_refl {A} (f : CBlockIndex.t -> A) : Reflexive (agree f).
Proof. by intros h q. Qed.
#[export] Instance agree_trans {A} (f : CBlockIndex.t -> A) : Transitive (agree f).
Proof. intros h1 h2 h3 H1 H2 q. by rewrite H2, H1. Qed.

Lemma agree_lookup {A} (f : CBlockIndex.t -> A) h h' p b : agree f h h' -> h !! p = Some b ->
  exists b', h' !! p = Some b' /\ f b' = f b.
Proof.
  intros E Hp. specialize (E p). rewrite Hp in E. destruct (h' !! p) as [b'|]; [|done].
  exists b'. split; [done|]. cbn in E. congruence.
Qed.

Lemma agree_lookup_back {A} (f : CBlockIndex.t -> A) h h' p b' : agree f h h' -> h' !! p = Some b' ->
  exists b, h !! p = Some b /\ f b' = f b.
Proof.
  intros E Hp. specialize (E p). rewrite Hp in E. destruct (h !! p) as [b|]; [|done].
  exists b. split; [done|]. cbn in E. congruence.
Qed.

Lemma agree_weaken {A B} (f : CBlockIndex.t -> A) (g : A -> B) h h' :
  agree f h h' -> agree (fun b => g (f b)) h h'.
Proof.
  intros E q. specialize (E q). destruct (h !! q), (h' !! q); cbn in *; congruence.
Qed.

Lemma agree_insert {A} (f : CBlockIndex.t -> A) h p b b' : h !! p = Some b -> f b' = f b ->
  agree f h (<[p := b']> h).
Proof.
  intros Hp E q. destruct (decide (p = q)) as [<-|]; [|by rewrite lookup_insert_ne].
  rewrite lookup_insert_eq, Hp. cbn. by rewrite E.
Qed.

(** The place of an entry in the tree, and its place in the order of the candidates. *)
Definition shape (b : CBlockIndex.t) := (CBlockIndex.pprev b, CBlockIndex.nHeight b, CBlockIndex.pskip b).
Definition key (b : CBlockIndex.t) := (CBlockIndex.nChainTrust b, CBlockIndex.nSequenceId b).

Definition alive (h : heap) (p : N) : Prop := is_Some (h !! p).

Lemma agree_alive {A} (f : CBlockIndex.t -> A) h h' p : agree f h h' -> alive h' p <-> alive h p.
Proof. intros E. specialize (E p). unfold alive. destruct (h !! p), (h' !! p); by split. Qed.

Lemma agree_same_shape h h' : agree shape h h' -> same_shape h h'.
Proof. apply (agree_weaken shape (fun x => fst x)). Qed.

Lemma is_ancestor_agree h h' q p : agree shape h h' -> is_ancestor h' q p <-> is_ancestor h q p.
Proof.
  intros E. apply agree_same_shape in E. unfold is_ancestor.
  assert (height_of h' p = height_of h p) as ->.
  { unfold height_of. specialize (E p). destruct (h' !! p), (h !! p); cbn in *; congruence. }
  by setoid_rewrite (ancestor_at_congr h h' p _ E).
Qed.

Lemma tree_ok_agree h h' : agree shape h h' -> tree_ok h -> tree_ok h'.
Proof.
  intros E Hok p b' Hp. destruct (agree_lookup_back _ _ _ _ _ E Hp) as (b & Hb & [= E1 E2 E3]).
  destruct (Hok p b Hb) as [H1 H2 H3]. split.
  - by rewrite E2.
  - rewrite E1, E2. destruct (CBlockIndex.pprev b) as [q|]; [|done]. destruct H2 as (bq & Hq & Hh).
    destruct (agree_lookup _ _ _ _ _ E Hq) as (bq' & Hq' & [= _ E4 _]). exists bq'. by rewrite E4.
  - intros q. rewrite E2, E3, (ancestor_at_congr h h') by by apply agree_same_shape. apply H3.
Qed.

Lemma path_agree h h' p : agree shape h h' -> path h' p = path h p.
Proof.
  intros E. apply agree_same_shape in E. unfold path.
  assert (height_of h' p = height_of h p) as ->.
  { unfold height_of. specialize (E p). destruct (h' !! p), (h !! p); cbn in *; congruence. }
  apply map_ext. intros i. by apply ancestor_at_congr.
Qed.

Lemma chain_ok_agree h h' v : agree shape h h' -> chain_ok h v -> chain_ok h' v.
Proof.
  intros E [->|(p & b & Hp & ->)]; [by left|right].
  destruct (agree_lookup _ _ _ _ _ E Hp) as (b' & Hb' & _). exists p, b'. by rewrite (path_agree h h').
Qed.

(** *** Ancestors *)

Section ancestors.
Context (h : heap) (Hok : tree_ok h).

Lemma is_ancestor_self p b : h !! p = Some b -> is_ancestor h p p.
Proof.
  intros Hp. exists (CBlockIndex.nHeight b). rewrite (height_of_lookup h p b) by done.
  split; [|by apply ancestor_at_self]. assert (0 <= CBlockIndex.nHeight b) by by apply (Hok p b). lia.
Qed.

Lemma is_ancestor_alive q p b : h !! p = Some b -> is_ancestor h q p -> exists bq, h !! q = Some bq.
Proof.
  intros Hp (k & Hk & Ha). rewrite (height_of_lookup h p b) in Hk by done.
  destruct (ancestor_at_total h Hok p b k) as (q' & bq & H1 & H2 & _); [done|lia|]. simplify_eq. eauto.
Qed.

(** Of two ancestors of a block the lower one is an ancestor of the higher one. *)
Lemma is_ancestor_comparable a c p ba bc b : h !! p = Some b -> h !! a = Some ba -> h !! c = Some bc ->
  is_ancestor h a p -> is_ancestor h c p -> CBlockIndex.nHeight ba <= CBlockIndex.nHeight bc ->
  is_ancestor h a c.
Proof.
  intros Hp Ha Hc H1 H2 Hle.
  apply (is_ancestor_height h Hok a p b ba Hp Ha) in H1 as [Hla Haa].
  apply (is_ancestor_height h Hok c p b bc Hp Hc) in H2 as [Hlc Hcc].
  exists (CBlockIndex.nHeight ba). rewrite (height_of_lookup h c bc) by done.
  assert (0 <= CBlockIndex.nHeight ba) by by apply (Hok a ba).
  split; [lia|]. by rewrite (ancestor_at_trans h p b c bc) by done.
Qed.

Lemma is_ancestor_trans a c p b : h !! p = Some b -> is_ancestor h a c -> is_ancestor h c p -> is_ancestor h a p.
Proof.
  intros Hp H1 H2. destruct (is_ancestor_alive c p b Hp H2) as [bc Hc].
  destruct (is_ancestor_alive a c bc Hc H1) as [ba Ha].
  apply (is_ancestor_height h Hok a c bc ba Hc Ha) in H1 as [Hla Haa].
  apply (is_ancestor_height h Hok c p b bc Hp Hc) in H2 as [Hlc Hcc].
  exists (CBlockIndex.nHeight ba). rewrite (height_of_lookup h p b) by done.
  assert (0 <= CBlockIndex.nHeight ba) by by apply (Hok a ba).
  split; [lia|]. by rewrite <- (ancestor_at_trans h p b c bc) by done.
Qed.

(** An ancestor at the height of the block is the block. *)
Lemma is_ancestor_same_height a p ba b : h !! p = Some b -> h !! a = Some ba -> is_ancestor h a p ->
  CBlockIndex.nHeight ba = CBlockIndex.nHeight b -> a = p.
Proof.
  intros Hp Ha H1 E. apply (is_ancestor_height h Hok a p b ba Hp Ha) in H1 as [_ H1].
  rewrite E, (ancestor_at_self h p b) in H1 by done. congruence.
Qed.

Lemma on_chain_ancestor v a p b : chain_ok h v -> h !! p = Some b -> on_chain v p -> is_ancestor h a p -> on_chain v a.
Proof.
  intros Hv Hp Hc Ha. destruct (is_ancestor_alive a p b Hp Ha) as [ba Hba].
  destruct (is_ancestor_height h Hok a p b ba Hp Hba Ha) as [Hl Haa].
  assert (0 <= CBlockIndex.nHeight ba) by by apply (Hok a ba).
  pose proof (at_on_chain h Hok v p b (CBlockIndex.nHeight ba) Hv Hp Hc ltac:(lia)) as E.
  rewrite Haa, at_lookup in E by lia. destruct (v !! _) as [x|] eqn:Ex; [|done]. cbn in E. subst x.
  by eapply list_elem_of_lookup_2.
Qed.

(** The predecessor of a proper descendant. *)
Lemma is_ancestor_step a p b : h !! p = Some b -> is_ancestor h a p -> a <> p ->
  exists q bq, CBlockIndex.pprev b = Some q /\ h !! q = Some bq /\ is_ancestor h a q /\
    CBlockIndex.nHeight b = CBlockIndex.nHeight bq + 1.
Proof.
  intros Hp Ha Hne. destruct (CBlockIndex.pprev b) as [q|] eqn:Eq.
  - destruct (Hok p b Hp) as [_ Hprev _]. rewrite Eq in Hprev. destruct Hprev as (bq & Hq & Hh).
    exists q, bq. apply (is_ancestor_prev h Hok a p b q Hp Eq) in Ha as [->|Ha]; [done|]. done.
  - by apply (is_ancestor_root h Hok a p b Hp Eq) in Ha.
Qed.
End ancestors.

(** *** The order of the candidates *)

(** The order of the comparator, by values. *)
Definition key_lt (a : N) (pa : CBlockIndex.t) (b : N) (pb : CBlockIndex.t) : Prop :=
  val (CBlockIndex.nChainTrust pa) < val (CBlockIndex.nChainTrust pb) \/
  (val (CBlockIndex.nChainTrust pa) = val (CBlockIndex.nChainTrust pb) /\
   (CBlockIndex.nSequenceId pb < CBlockIndex.nSequenceId pa \/
    (CBlockIndex.nSequenceId pa = CBlockIndex.nSequenceId pb /\ (b < a)%N))).

(** [a] is worse than [b]: less trust, or received later, or at a higher address. *)
Definition worse (h : heap) (a b : N) : Prop :=
  exists pa pb, h !! a = Some pa /\ h !! b = Some pb /\ key_lt a pa b pb.

Definition trusts_ok (h : heap) : Prop := forall p b, h !! p = Some b -> wf (CBlockIndex.nChainTrust b).

Lemma comparator_spec a pa b pb : wf (CBlockIndex.nChainTrust pa) -> wf (CBlockIndex.nChainTrust pb) ->
  CBlockIndexWorkComparator a pa b pb = true <-> key_lt a pa b pb.
Proof.
  intros Ha Hb. unfold CBlockIndexWorkComparator, key_lt. rewrite CompareTo_spec by done.
  destruct (Z.compare_spec (val (CBlockIndex.nChainTrust pa)) (val (CBlockIndex.nChainTrust pb))) as [E|E|E]; cbn [Z.gtb Z.ltb Z.compare].
  - rewrite Z.gtb_ltb.
    destruct (Z.ltb_spec (CBlockIndex.nSequenceId pa) (CBlockIndex.nSequenceId pb)),
      (Z.ltb_spec (CBlockIndex.nSequenceId pb) (CBlockIndex.nSequenceId pa)),
      (N.ltb_spec a b), (N.ltb_spec b a); (split; [try done; intros _; lia|intros; try done; lia]).
  - split; [lia|done].
  - split; [done|lia].
Qed.

Lemma worse_agree h h' a b : agree key h h' -> worse h a b -> worse h' a b.
Proof.
  intros E (pa & pb & Ha & Hb & Hk). destruct (agree_lookup _ _ _ _ _ E Ha) as (pa' & Ha' & [= E1 E2]).
  destruct (agree_lookup _ _ _ _ _ E Hb) as (pb' & Hb' & [= E3 E4]). exists pa', pb'.
  split_and!; [done..|]. unfold key_lt in *. by rewrite E1, E2, E3, E4.
Qed.

#[export] Instance worse_trans h : Transitive (worse h).
Proof.
  intros a b c (pa & pb & Ha & Hb & H1) (pb' & pc & Hb' & Hc & H2). simplify_eq. exists pa, pc.
  split_and!; [done..|]. unfold key_lt in *. lia.
Qed.

Lemma worse_irrefl h a : ~ worse h a a.
Proof. intros (pa & pb & Ha & Hb & H). simplify_eq. unfold key_lt in H. lia. Qed.

Lemma worse_total h a b : alive h a -> alive h b -> worse h a b \/ a = b \/ worse h b a.
Proof.
  intros [pa Ha] [pb Hb]. destruct (decide (a = b)); [by right; left|].
  assert (key_lt a pa b pb \/ key_lt b pb a pa) as [H|H] by (unfold key_lt; lia).
  - left. by exists pa, pb.
  - right; right. by exists pb, pa.
Qed.

Lemma worse_alive h a b : worse h a b -> alive h a /\ alive h b.
Proof. intros (pa & pb & Ha & Hb & _). split; eexists; done. Qed.

(** A block that is not worse than one that is not worse. *)
Lemma not_worse_trans h a b c : alive h a -> alive h b -> alive h c -> ~ worse h a b -> ~ worse h b c -> ~ worse h a c.
Proof.
  intros Ha Hb Hc H1 H2 H3. destruct (worse_total h a b) as [?|[->|Hw]]; [done..|].
  apply H2. by transitivity a.
Qed.

Section set_facts.
Context (h : heap) (Hwf : trusts_ok h).

Lemma value_comp_spec a b : alive h a -> alive h b ->
  exists c, value_comp h a b = Ok c /\ (c = true <-> worse h a b).
Proof.
  intros [pa Ha] [pb Hb]. unfold value_comp, deref. rewrite Ha, Hb. cbn [mbind result_bind mret result_ret].
  eexists. split; [done|]. rewrite comparator_spec by (by eapply Hwf). split.
  - intros H. by exists pa, pb.
  - intros (pa' & pb' & Ha' & Hb' & H). by simplify_eq.
Qed.

(** The elements in their order. *)
Definition set_ok (l : list N) : Prop := StronglySorted (worse h) l /\ Forall (alive h) l.

Lemma set_insert_spec x l : set_ok l -> alive h x ->
  exists l', set_insert h x l = Ok l' /\ set_ok l' /\ (forall y, y ∈ l' <-> y = x \/ y ∈ l).
Proof.
  intros [Hs Ha] Hx. induction Hs as [|y l Hs IH Hy]; cbn [set_insert].
  { eexists. split; [done|]. split; [|set_solver]. split; [repeat constructor|by constructor]. }
  apply Forall_cons in Ha as [Hay Ha].
  destruct (value_comp_spec y x) as (c & -> & Hc); [done..|]. cbn [mbind result_bind]. destruct c.
  - destruct (IH Ha) as (l' & -> & [Hs' Ha'] & Hin). cbn [mbind result_bind mret result_ret].
    eexists. split; [done|]. split; [split|].
    + constructor; [done|]. apply Forall_forall. intros z Hz. apply Hin in Hz as [->|Hz]; [by apply Hc|].
      by eapply Forall_forall in Hy.
    + by constructor.
    + set_solver.
  - destruct (value_comp_spec x y) as (c' & -> & Hc'); [done..|]. cbn [mbind result_bind mret result_ret].
    eexists. split; [done|]. destruct c'.
    + assert (worse h x y) as Hxy by by apply Hc'. split; [split|set_solver].
      * constructor; [by constructor|]. constructor; [done|].
        eapply Forall_impl; [exact Hy|]. intros z Hz. by transitivity y.
      * by repeat constructor.
    + assert (x = y) as ->.
      { destruct (worse_total h x y) as [Hw|[->|Hw]]; [done..| |done|].
        - by apply Hc' in Hw.
        - by apply Hc in Hw. }
      split; [split; by constructor|set_solver].
Qed.

Lemma set_erase_spec x l : set_ok l -> alive h x ->
  exists l', set_erase h x l = Ok l' /\ set_ok l' /\ sublist l' l /\ (forall y, y ∈ l' <-> y <> x /\ y ∈ l).
Proof.
  intros [Hs Ha] Hx. induction Hs as [|y l Hs IH Hy]; cbn [set_erase].
  { eexists. split; [done|]. split; [split; constructor|]. set_solver. }
  apply Forall_cons in Ha as [Hay Ha].
  destruct (value_comp_spec y x) as (c & -> & Hc); [done..|]. cbn [mbind result_bind]. destruct c.
  - assert (worse h y x) as Hyx by by apply Hc.
    destruct (IH Ha) as (l' & -> & [Hs' Ha'] & Hsub & Hin). cbn [mbind result_bind mret result_ret].
    assert (y <> x) by (intros ->; by apply worse_irrefl in Hyx).
    eexists. split; [done|]. split_and!; [split|by constructor|set_solver].
    + constructor; [done|]. apply Forall_forall. intros z Hz. apply Hin in Hz as [_ Hz].
      by eapply Forall_forall in Hy.
    + by constructor.
  - assert (forall z, z ∈ l -> worse h y z) as Hy' by (by apply Forall_forall).
    destruct (value_comp_spec x y) as (c' & -> & Hc'); [done..|]. cbn [mbind result_bind mret result_ret].
    eexists. split; [done|]. destruct c'.
    + assert (worse h x y) as Hxy by by apply Hc'. split_and!; [split; by constructor|done|].
      intros z. split; [|by intros []]. intros Hz. split; [|done]. intros ->.
      apply elem_of_cons in Hz as [->|Hz]; [by apply worse_irrefl in Hxy|].
      apply (worse_irrefl h x). transitivity y; [done|]. by apply Hy'.
    + assert (x = y) as ->.
      { destruct (worse_total h x y) as [Hw|[->|Hw]]; [done..| |done|].
        - by apply Hc' in Hw.
        - by apply Hc in Hw. }
      split_and!; [by split|by constructor|]. intros z. rewrite elem_of_cons. split; [|by intros [? [?|?]]].
      intros Hz. split; [|by right]. intros ->. by apply Hy', worse_irrefl in Hz.
Qed.

Lemma prune_loop_spec tip l : set_ok l -> alive h tip ->
  exists l', prune_loop h (Some tip) l = Ok l' /\ set_ok l' /\ (forall y, y ∈ l' <-> ~ worse h y tip /\ y ∈ l).
Proof.
  intros [Hs Ha] Ht. induction Hs as [|y l Hs IH Hy]; cbn [prune_loop].
  { eexists. split; [done|]. split; [split; constructor|]. set_solver. }
  apply Forall_cons in Ha as [Hay Ha].
  destruct (value_comp_spec y tip) as (c & -> & Hc); [done..|]. cbn [mbind result_bind]. destruct c.
  - destruct (IH Ha) as (l' & -> & Hs' & Hin). eexists. split; [done|]. split; [done|].
    intros z. rewrite Hin, elem_of_cons. split; [tauto|]. intros [Hn [->|Hz]]; [|done].
    by destruct Hn; apply Hc.
  - eexists. split; [done|]. split; [split; by constructor|]. intros z. split; [|by intros []].
    intros Hz. split; [|done]. intros Hw. assert (~ worse h y tip) as Hn by (intros Hn; by apply Hc in Hn).
    apply Hn. apply elem_of_cons in Hz as [->|Hz]; [done|]. transitivity z; [|done].
    by eapply Forall_forall in Hy.
Qed.
End set_facts.

(** The last element is the best. *)
Lemma set_last h l x : set_ok h l -> last l = Some x -> x ∈ l /\ forall y, y ∈ l -> y = x \/ worse h y x.
Proof.
  intros [Hs _] Hl. apply last_Some in Hl as [l' ->]. split; [set_solver|].
  intros y [Hy|Hy]%elem_of_app; [|left; set_solver]. right.
  apply (StronglySorted_app_1_elem_of _ _ _ _ _ Hs); [done|set_solver].
Qed.

Lemma set_ok_agree h h' l : agree key h h' -> set_ok h l -> set_ok h' l.
Proof.
  intros E [Hs Ha]. split.
  - induction Hs as [|x l Hs IH Hx]; constructor.
    + apply IH. by apply Forall_cons in Ha as [_ ?].
    + eapply Forall_impl; [exact Hx|]. intros y. by apply worse_agree.
  - eapply Forall_impl; [exact Ha|]. intros y Hy. by apply (agree_alive key h h').
Qed.

Lemma trusts_ok_agree h h' : agree key h h' -> trusts_ok h -> trusts_ok h'.
Proof.
  intros E Hw p b' Hp. destruct (agree_lookup_back _ _ _ _ _ E Hp) as (b & Hb & [= -> _]). by eapply Hw.
Qed.

(** *** Running the monad *)

Lemma bind_ok {A B} (m : op A) (f : A -> op B) s a s' : m s = Ok (a, s') -> (m ≫= f) s = f a s'.
Proof. intros E. unfold mbind, op_bind. by rewrite E. Qed.

Lemma get_bind {A} (f : state -> op A) s : (get ≫= f) s = f s s.
Proof. done. Qed.
Lemma modify_bind {A} g (f : unit -> op A) s : (modify g ≫= f) s = f tt (g s).
Proof. done. Qed.
Lemma ret_bind {A B} (a : A) (f : A -> op B) s : ((mret a : op A) ≫= f) s = f a s.
Proof. done. Qed.
Lemma lift_bind {A B} (a : A) r (f : A -> op B) s : r = Ok a -> (lift r ≫= f) s = f a s.
Proof. by intros ->. Qed.
Lemma load_ok p b s : entries s !! p = Some b -> load p s = Ok (b, s).
Proof. intros E. unfold load, deref. rewrite get_bind, E. done. Qed.
Lemma load_bind {A} p b (f : CBlockIndex.t -> op A) s : entries s !! p = Some b -> (load p ≫= f) s = f b s.
Proof. intros E. by rewrite (bind_ok _ _ _ _ _ (load_ok p b s E)). Qed.
Lemma update_ok p b g s : entries s !! p = Some b ->
  update p g s = Ok (tt, set_entries (<[p := g b]> (entries s)) s).
Proof. intros E. unfold update. by rewrite (load_bind p b) by done. Qed.
Lemma update_bind {A} p b g (f : unit -> op A) s : entries s !! p = Some b ->
  (update p g ≫= f) s = f tt (set_entries (<[p := g b]> (entries s)) s).
Proof. intros E. by rewrite (bind_ok _ _ _ _ _ (update_ok p b g s E)). Qed.

(** ** The choice of the best candidate *)

(** What the choice relies on. *)
Record base_ok (s : state) : Prop := {
  base_tree : tree_ok (entries s);
  base_trust : trusts_ok (entries s);
  base_cands : set_ok (entries s) (setBlockIndexCandidates s);
  base_chain : chain_ok (entries s) (chainActive s);
  base_invalid : forall q, pindexBestInvalid s = Some q -> alive (entries s) q;
}.

(** Candidates and their ancestors had their transactions at some time. *)
Definition cands_linked (s : state) : Prop := forall p a b, p ∈ setBlockIndexCandidates s ->
  is_ancestor (entries s) a p -> entries s !! a = Some b -> CBlockIndex.nChainTx b <> 0 \/ CBlockIndex.nHeight b = 0.

(** A block outside the active chain with a property, among the ancestors of [p]. *)
Definition met (P : CBlockIndex.t -> Prop) (s : state) (p : N) : Prop := exists a b,
  is_ancestor (entries s) a p /\ ~ on_chain (chainActive s) a /\ entries s !! a = Some b /\ P b.

(** A chain one can switch to: from [p] to the active chain no block failed, and all data is there. *)
Definition usable (s : state) (p : N) : Prop := forall a b,
  is_ancestor (entries s) a p -> ~ on_chain (chainActive s) a -> entries s !! a = Some b ->
  Entry.failed b = false /\ Entry.have_data b = true.

Definition is_failed (b : CBlockIndex.t) : Prop := Entry.failed b = true.
Definition no_data (b : CBlockIndex.t) : Prop := Entry.have_data b = false.
Definition unusable (b : CBlockIndex.t) : Prop := Entry.failed b = true \/ Entry.have_data b = false.

Lemma met_not_usable s p : met unusable s p -> ~ usable s p.
Proof. intros (a & b & H1 & H2 & H3 & H4) H. destruct (H a b) as [H5 H6]; [done..|]. destruct H4; congruence. Qed.

Lemma failed_unusable s p : met is_failed s p -> met unusable s p.
Proof. intros (a & b & H1 & H2 & H3 & H4). exists a, b. split_and!; [done..|by left]. Qed.

Definition mark_child := Entry.add_status CBlockIndex.BLOCK_FAILED_CHILD.

(** [s'] is [s] after some chains with an unusable block were taken out: descendants of
    failed blocks are marked, and nothing usable is lost. *)
Record discarded (s s' : state) : Prop := {
  disc_entries : forall q, entries s' !! q = entries s !! q \/
    exists b, entries s !! q = Some b /\ entries s' !! q = Some (mark_child b) /\ met is_failed s q;
  disc_cands : sublist (setBlockIndexCandidates s') (setBlockIndexCandidates s);
  disc_removed : forall q, q ∈ setBlockIndexCandidates s -> q ∉ setBlockIndexCandidates s' -> met unusable s q;
  disc_marked : forall q, q ∈ setBlockIndexCandidates s -> q ∉ setBlockIndexCandidates s' ->
    (exists b, entries s' !! q = Some b /\ Entry.failed b = true) \/ met no_data s q;
  disc_unlinked : exists l, mapBlocksUnlinked s' = mapBlocksUnlinked s ++ l /\
    forall k q, (k, q) ∈ l -> met no_data s q /\
      exists b, entries s !! q = Some b /\ CBlockIndex.pprev b = k /\ CBlockIndex.nChainTx b <> 0;
  disc_base : base_ok s';
  disc_frame : s' = set_entries (entries s') (set_setBlockIndexCandidates (setBlockIndexCandidates s')
    (set_mapBlocksUnlinked (mapBlocksUnlinked s') (set_pindexBestInvalid (pindexBestInvalid s') s)));
}.

(** The fields [mark_child] keeps. *)
Definition but_failure (b : CBlockIndex.t) :=
  (CBlockIndex.phashBlock b, shape b, key b, CBlockIndex.nTx b, CBlockIndex.nChainTx b, Entry.have_data b,
   Z.land (CBlockIndex.nStatus b) CBlockIndex.BLOCK_VALID_MASK).

Lemma lor_land_disjoint s x m : Z.land x m = 0 -> Z.land (Z.lor s x) m = Z.land s m.
Proof. intros E. by rewrite Z.land_lor_distr_l, E, Z.lor_0_r. Qed.

Lemma add_failed_kept b bits : Z.land bits (Z.lor CBlockIndex.BLOCK_HAVE_DATA CBlockIndex.BLOCK_VALID_MASK) = 0 ->
  but_failure (Entry.add_status bits b) = but_failure b.
Proof.
  intros E. unfold but_failure, Entry.have_data, flag_set. cbn [CBlockIndex.nStatus Entry.add_status CBlockIndex.set_nStatus].
  rewrite !lor_land_disjoint; [done|..]; apply Z.bits_inj'; intros i Hi;
    apply (f_equal (fun z => Z.testbit z i)) in E;
    rewrite Z.land_spec, ?Z.lor_spec, Z.bits_0 in *; destruct (Z.testbit bits i); try done; cbn in *; rewrite ?E; try done.
  - by apply orb_false_iff in E as [_ ->].
  - by apply orb_false_iff in E as [-> _].
Qed.

Lemma discarded_agree s s' : discarded s s' -> agree but_failure (entries s) (entries s').
Proof.
  intros D q. destruct (disc_entries s s' D q) as [->|(b & -> & -> & _)]; [done|]. cbn.
  f_equal. by apply add_failed_kept.
Qed.
Lemma discarded_shape s s' : discarded s s' -> agree shape (entries s) (entries s').
Proof. intros D. apply (agree_weaken but_failure (fun x => snd (fst (fst (fst (fst (fst x))))))), discarded_agree, D. Qed.
Lemma discarded_key s s' : discarded s s' -> agree key (entries s) (entries s').
Proof. intros D. apply (agree_weaken but_failure (fun x => snd (fst (fst (fst (fst x)))))), discarded_agree, D. Qed.
Lemma discarded_chain s s' : discarded s s' -> chainActive s' = chainActive s.
Proof. intros D. by rewrite (disc_frame s s' D). Qed.

Lemma mark_child_data b : Entry.have_data (mark_child b) = Entry.have_data b.
Proof. pose proof (add_failed_kept b CBlockIndex.BLOCK_FAILED_CHILD eq_refl) as E. by injection E. Qed.
Lemma mark_child_failed b : Entry.failed (mark_child b) = true.
Proof.
  unfold Entry.failed, flag_set. apply negb_true_iff, Z.eqb_neq. intros E.
  apply (f_equal (fun z => Z.testbit z 6)) in E. cbn -[Z.testbit Z.land Z.lor] in E.
  rewrite Z.land_spec, Z.lor_spec, Z.bits_0 in E.
  change (Z.testbit CBlockIndex.BLOCK_FAILED_CHILD 6) with true in E.
  change (Z.testbit CBlockIndex.BLOCK_FAILED_MASK 6) with true in E. by rewrite orb_true_r in E.
Qed.

(** What is met after a removal was met before it. *)
Lemma discarded_met s s' (P : CBlockIndex.t -> Prop) q : base_ok s -> discarded s s' -> alive (entries s) q ->
  (forall b, P (mark_child b) -> P b) \/ (forall b, is_failed b -> P b) -> met P s' q -> met P s q.
Proof.
  intros B D [bq Hq] HP (a & b & Ha & Hc & Hb & Pb).
  rewrite (is_ancestor_agree (entries s) (entries s')) in Ha by by apply discarded_shape.
  rewrite (discarded_chain s s' D) in Hc.
  destruct (disc_entries s s' D a) as [E|(b0 & E & E' & M)].
  - exists a, b. rewrite <- E. done.
  - assert (b = mark_child b0) as -> by congruence. destruct HP as [HP|HP].
    + exists a, b0. split_and!; [done..|by apply HP].
    + destruct M as (c & bc & Hca & Hcc & Hbc & Hfc). exists c, bc. split_and!; [|done|done|by apply HP].
      by apply (is_ancestor_trans (entries s) (base_tree s B) c a q bq).
Qed.

(** What is met before a removal is met after it. *)
Lemma discarded_met_back s s' (P : CBlockIndex.t -> Prop) q : discarded s s' ->
  (forall b, P b -> P (mark_child b)) -> met P s q -> met P s' q.
Proof.
  intros D HP (a & b & Ha & Hc & Hb & Pb).
  rewrite <- (is_ancestor_agree (entries s) (entries s')) in Ha by by apply discarded_shape.
  rewrite <- (discarded_chain s s' D) in Hc.
  destruct (disc_entries s s' D a) as [E|(b0 & E & E' & M)].
  - exists a, b. rewrite E. done.
  - exists a, (mark_child b0). assert (b = b0) as -> by congruence. split_and!; [done..|by apply HP].
Qed.

Lemma discarded_usable s s' q : base_ok s -> discarded s s' -> alive (entries s) q -> usable s' q <-> usable s q.
Proof.
  intros B D Hq. assert (forall s, (~ met unusable s q) <-> usable s q) as E.
  { intros s1. split; [|intros H1 H2; by apply (met_not_usable s1 q)].
    intros Hn a b Ha Hc Hb. destruct (Entry.failed b) eqn:E1, (Entry.have_data b) eqn:E2; try done;
      destruct Hn; exists a, b; split_and!; try done; [by left|by left|by right]. }
  rewrite <- !E. split; intros Hn M; apply Hn.
  - apply (discarded_met_back s s'); [done|intros b [H|H]; [left; apply mark_child_failed|right; by rewrite mark_child_data]|done].
  - apply (discarded_met s s'); [done..| |done]. right. intros b H. by left.
Qed.

Lemma discarded_refl s : base_ok s -> discarded s s.
Proof.
  intros B. split; try done.
  - intros q. by left.
  - exists []. rewrite app_nil_r. split; [done|]. intros k q H. by apply not_elem_of_nil in H.
  - by destruct s.
Qed.

Lemma discarded_trans s1 s2 s3 : base_ok s1 -> discarded s1 s2 -> discarded s2 s3 -> discarded s1 s3.
Proof.
  intros B D1 D2. pose proof (disc_base s1 s2 D1) as B2.
  assert (forall q, alive (entries s2) q -> alive (entries s1) q) as Hal.
  { intros q Hq. apply (agree_alive but_failure (entries s1) (entries s2)); [by apply discarded_agree|done]. }
  assert (forall q, q ∈ setBlockIndexCandidates s2 -> alive (entries s2) q) as Hcal.
  { intros q. apply Forall_forall. apply (base_cands s2 B2). }
  split.
  - intros q. destruct (disc_entries s2 s3 D2 q) as [->|(b & E1 & E2 & M)]; [apply (disc_entries s1 s2 D1)|].
    right. assert (met is_failed s1 q) as M1.
    { apply (discarded_met s1 s2); [done|done|apply Hal; by exists b|by right|done]. }
    destruct (disc_entries s1 s2 D1 q) as [E|(b0 & E3 & E4 & _)].
    + exists b. rewrite <- E. done.
    + exists b0. split_and!; [done| |done]. rewrite E2. f_equal. assert (b = mark_child b0) as -> by congruence.
      unfold mark_child, Entry.add_status, CBlockIndex.set_nStatus. cbn. f_equal.
      by rewrite <- Z.lor_assoc.
  - transitivity (setBlockIndexCandidates s2); [apply D2|apply D1].
  - intros q Hin Hout. destruct (decide (q ∈ setBlockIndexCandidates s2)) as [Hin2|Hn].
    + apply (discarded_met s1 s2); [done|done|by apply Hal, Hcal| |by apply (disc_removed s2 s3 D2)].
      right. intros b H. by left.
    + by apply (disc_removed s1 s2 D1).
  - intros q Hin Hout. destruct (decide (q ∈ setBlockIndexCandidates s2)) as [Hin2|Hn].
    + destruct (disc_marked s2 s3 D2 q Hin2 Hout) as [?|M]; [by left|right].
      apply (discarded_met s1 s2); [done|done|by apply Hal, Hcal| |done]. left. intros b. unfold no_data. by rewrite mark_child_data.
    + destruct (disc_marked s1 s2 D1 q Hin Hn) as [(b & Hb & Hf)|M]; [left|by right].
      destruct (disc_entries s2 s3 D2 q) as [E|(b0 & E1 & E2 & _)]; [exists b; by rewrite E|].
      exists (mark_child b0). split; [done|apply mark_child_failed].
  - destruct (disc_unlinked s1 s2 D1) as (l1 & E1 & H1). destruct (disc_unlinked s2 s3 D2) as (l2 & E2 & H2).
    exists (l1 ++ l2). rewrite E2, E1, app_assoc. split; [done|]. intros k q [Hk|Hk]%elem_of_app; [by apply H1|].
    destruct (H2 k q Hk) as (M & b & Hb & Hp & Hl).
    destruct (agree_lookup_back _ _ _ _ _ (discarded_agree s1 s2 D1) Hb) as (b0 & Hb0 & E).
    unfold but_failure, shape in E.
    split; [|exists b0; split_and!; [done|congruence|congruence]].
    apply (discarded_met s1 s2); [done|done|by exists b0| |done]. left. intros b1. unfold no_data. by rewrite mark_child_data.
  - apply D2.
  - rewrite (disc_frame s2 s3 D2) at 1. rewrite (disc_frame s1 s2 D1) at 1. done.
Qed.

(** The steps a removal is made of. *)
Lemma erase_candidate_discarded s p : base_ok s -> alive (entries s) p -> met unusable s p ->
  (exists b, entries s !! p = Some b /\ Entry.failed b = true) \/ met no_data s p ->
  exists s', erase_candidate p s = Ok (tt, s') /\ discarded s s' /\ (p ∉ setBlockIndexCandidates s') /\ entries s' = entries s.
Proof.
  intros B Hp M Hf. unfold erase_candidate. rewrite get_bind.
  destruct (set_erase_spec (entries s) (base_trust s B) p (setBlockIndexCandidates s)) as (l & E & Hl & Hsub & Hin);
    [apply B|done|]. rewrite (lift_bind l) by done. eexists. split; [done|].
  split; [|split; [cbn; rewrite Hin; tauto|done]]. split; cbn.
  - intros q. by left.
  - done.
  - intros q Hq Hn. destruct (decide (q = p)) as [->|]; [done|]. destruct Hn. by apply Hin.
  - intros q Hq Hn. destruct (decide (q = p)) as [->|]; [done|]. destruct Hn. by apply Hin.
  - exists []. rewrite app_nil_r. split; [done|]. intros k q H. by apply not_elem_of_nil in H.
  - destruct B. by split.
  - by destruct s.
Qed.

Lemma mark_child_discarded s p b : base_ok s -> entries s !! p = Some b -> met is_failed s p ->
  discarded s (set_entries (<[p := mark_child b]> (entries s)) s).
Proof.
  intros B Hp M. assert (agree but_failure (entries s) (<[p := mark_child b]> (entries s))) as E.
  { apply (agree_insert _ _ p b); [done|]. by apply add_failed_kept. }
  assert (agree shape (entries s) (<[p := mark_child b]> (entries s))) as Es
    by apply (agree_weaken but_failure (fun x => snd (fst (fst (fst (fst (fst x)))))) _ _ E).
  assert (agree key (entries s) (<[p := mark_child b]> (entries s))) as Ek
    by apply (agree_weaken but_failure (fun x => snd (fst (fst (fst (fst x))))) _ _ E).
  split; cbn.
  - intros q. destruct (decide (p = q)) as [<-|]; [|left; by rewrite lookup_insert_ne].
    right. exists b. by rewrite lookup_insert_eq.
  - done.
  - done.
  - done.
  - exists []. rewrite app_nil_r. split; [done|]. intros k q H. by apply not_elem_of_nil in H.
  - destruct B as [B1 B2 B3 B4 B5]. split; cbn.
    + by apply (tree_ok_agree (entries s)).
    + by apply (trusts_ok_agree (entries s)).
    + by apply (set_ok_agree (entries s)).
    + by apply (chain_ok_agree (entries s)).
    + intros q Hq. apply (agree_alive shape (entries s)); [done|by apply B5].
  - by destruct s.
Qed.

Lemma unlink_discarded s p b : base_ok s -> entries s !! p = Some b -> met no_data s p ->
  CBlockIndex.nChainTx b <> 0 -> discarded s (set_mapBlocksUnlinked (mapBlocksUnlinked s ++ [(CBlockIndex.pprev b, p)]) s).
Proof.
  intros B Hp M Hl. split; cbn; try done.
  - intros q. by left.
  - eexists. split; [done|]. intros k q [= -> ->]%list_elem_of_singleton. split; [done|]. by exists b.
  - destruct B. by split.
Qed.

Lemma note_invalid_discarded s p : base_ok s -> alive (entries s) p ->
  exists s', note_invalid p s = Ok (tt, s') /\ discarded s s' /\ entries s' = entries s /\
    setBlockIndexCandidates s' = setBlockIndexCandidates s.
Proof.
  intros B [b Hp]. unfold note_invalid, beats_best_invalid.
  assert (discarded s (set_pindexBestInvalid (Some p) s)) as D.
  { split; cbn; try done.
    - intros q. by left.
    - exists []. rewrite app_nil_r. split; [done|]. intros k q H. by apply not_elem_of_nil in H.
    - destruct B. split; try done. cbn. intros q [= <-]. by exists b. }
  destruct (pindexBestInvalid s) as [q|] eqn:Eq.
  - destruct (base_invalid s B q Eq) as [bq Hq].
    erewrite bind_ok; [|rewrite get_bind, Eq, (load_bind p b), (load_bind q bq) by done; reflexivity].
    cbv beta. destruct (_ >? _).
    + eexists. split; [done|]. done.
    + exists s. split_and!; [done|by apply discarded_refl|done|done].
  - erewrite bind_ok; [|rewrite get_bind, Eq; reflexivity]. cbv beta. eexists. split; [done|]. done.
Qed.

(** *** Removing a chain *)

Lemma drop_chain_spec fuel (failed : bool) test bt p b s : base_ok s -> entries s !! p = Some b -> entries s !! test = Some bt ->
  is_ancestor (entries s) test p -> ~ on_chain (chainActive s) test ->
  (if failed then Entry.failed bt = true else Entry.have_data bt = false) ->
  (forall a ba, is_ancestor (entries s) a p -> entries s !! a = Some ba -> CBlockIndex.nChainTx ba <> 0 \/ CBlockIndex.nHeight ba = 0) ->
  CBlockIndex.nHeight b - CBlockIndex.nHeight bt <= Z.of_nat fuel ->
  exists s', drop_chain fuel failed test p s = Ok (tt, s') /\ discarded s s' /\
    (test <> p -> p ∉ setBlockIndexCandidates s') /\ exists bt', entries s' !! test = Some bt' /\
    (if failed then Entry.failed bt' = true else Entry.have_data bt' = false).
Proof.
  revert p b bt s. induction fuel as [|fuel IH]; intros p b bt s B Hp Ht Ha Hc Hbad Hlk Hf;
    cbn [drop_chain]; destruct (N.eqb_spec test p) as [->|Hne];
    try (exists s; split_and!; [done|by apply discarded_refl|done|by exists bt]);
    destruct (is_ancestor_step (entries s) (base_tree s B) test p b) as (q & bq & Eq & Hq & Hqa & Hh); try done.
  { apply (is_ancestor_height _ (base_tree s B) test q bq bt Hq Ht) in Hqa as [? _]. lia. }
  rewrite (load_bind p b), Eq by done.
  assert (met unusable s p) as M.
  { exists test, bt. split_and!; [done..|]. destruct failed; [by left|by right]. }
  assert (exists s1, (if failed then update p (Entry.add_status CBlockIndex.BLOCK_FAILED_CHILD)
      else modify (fun s => set_mapBlocksUnlinked (mapBlocksUnlinked s ++ [(Some q, p)]) s)) s = Ok (tt, s1) /\
      discarded s s1 /\ ((exists b, entries s1 !! p = Some b /\ Entry.failed b = true) \/ met no_data s1 p)) as (s1 & E1 & D1 & Hf1).
  { destruct failed.
    - eexists. split; [by apply (update_ok p b)|]. split; [apply mark_child_discarded; [done..|]; by exists test, bt|left].
      exists (mark_child b). split; [by apply lookup_insert_eq|apply mark_child_failed].
    - eexists. split; [done|]. rewrite <- Eq. split; [apply unlink_discarded; [done|done|by exists test, bt|]|right; by exists test, bt].
      assert (0 <= CBlockIndex.nHeight bq) by by apply (base_tree s B q bq).
      destruct (Hlk p b) as [?|?]; [by apply (is_ancestor_self _ (base_tree s B) p b)|done|done|lia]. }
  rewrite (bind_ok _ _ _ _ _ E1). pose proof (disc_base _ _ D1) as B1.
  destruct (erase_candidate_discarded s1 p) as (s2 & E2 & D2 & Hn & Een); [done| | |done|].
  { apply (agree_alive but_failure (entries s)); [by apply discarded_agree|by exists b]. }
  { apply (discarded_met_back s s1); [done| |done]. intros b' [H|H]; [left; apply mark_child_failed|right; by rewrite mark_child_data]. }
  rewrite (bind_ok _ _ _ _ _ E2). pose proof (discarded_trans _ _ _ B D1 D2) as D.
  pose proof (disc_base _ _ D) as B2.
  destruct (agree_lookup _ _ _ _ _ (discarded_agree s s2 D) Hq) as (bq' & Hq' & Ebq).
  destruct (agree_lookup _ _ _ _ _ (discarded_agree s s2 D) Ht) as (bt' & Ht' & Ebt).
  assert (CBlockIndex.nHeight bq' = CBlockIndex.nHeight bq /\ CBlockIndex.nHeight bt' = CBlockIndex.nHeight bt) as [Ehq Eht]
    by (unfold but_failure, shape in *; split; congruence).
  assert (if failed then Entry.failed bt' = true else Entry.have_data bt' = false) as Hbad'.
  { destruct (disc_entries s s2 D test) as [E|(b0 & E & E' & _)].
    - assert (bt' = bt) as -> by congruence. done.
    - assert (bt' = mark_child b0) as -> by congruence. assert (b0 = bt) as -> by congruence.
      destruct failed; [apply mark_child_failed|by rewrite mark_child_data]. }
  destruct (IH q bq' bt' s2) as (s3 & E3 & D3 & _ & Hbt3); try done.
  { apply (is_ancestor_agree (entries s)); [by apply discarded_shape|done]. }
  { by rewrite (discarded_chain s s2 D). }
  { intros a ba' Haq Hba. destruct (agree_lookup_back _ _ _ _ _ (discarded_agree s s2 D) Hba) as (ba & Hba0 & E).
    unfold but_failure, shape in E. destruct (Hlk a ba) as [?|?]; [|done|left; congruence|right; congruence].
    apply (is_ancestor_prev _ (base_tree s B) a p b q Hp Eq). right.
    apply (is_ancestor_agree (entries s) (entries s2)); [by apply discarded_shape|done]. }
  { lia. }
  exists s3. split_and!; [done|by apply (discarded_trans s s2 s3)| |done].
  intros _ Hin. apply Hn. by apply (elem_of_sublist _ _ p Hin (disc_cands s2 s3 D3)).
Qed.

Lemma invalid_ancestor_spec fuel pnew bn p bp s : base_ok s -> cands_linked s ->
  pnew ∈ setBlockIndexCandidates s -> entries s !! pnew = Some bn -> entries s !! p = Some bp ->
  is_ancestor (entries s) p pnew ->
  (forall a b, is_ancestor (entries s) a pnew -> entries s !! a = Some b -> CBlockIndex.nHeight bp < CBlockIndex.nHeight b ->
     Entry.failed b = false /\ Entry.have_data b = true) ->
  CBlockIndex.nHeight bp < Z.of_nat fuel ->
  exists bad s', invalid_ancestor fuel pnew (Some p) s = Ok (bad, s') /\ discarded s s' /\
    if (bad : bool) then met unusable s pnew /\ pnew ∉ setBlockIndexCandidates s'
    else s' = s /\ usable s pnew.
Proof.
  intros B L Hin Hn. revert p bp. induction fuel as [|fuel IH]; intros p bp Hp Ha Hgood Hf.
  { assert (0 <= CBlockIndex.nHeight bp) by by apply (base_tree s B p bp). lia. }
  cbn [invalid_ancestor].
  rewrite get_bind, (lift_bind (bool_decide (on_chain (chainActive s) p)))
    by (apply (Contains_spec _ (base_tree s B) _ _ bp); [apply B|done]).
  assert (forall a b, is_ancestor (entries s) a pnew -> entries s !! a = Some b ->
    CBlockIndex.nHeight b <= CBlockIndex.nHeight bp -> is_ancestor (entries s) a p) as Hlow.
  { intros a b Han Hab Hle. by apply (is_ancestor_comparable _ (base_tree s B) a p pnew b bp bn). }
  destruct (bool_decide_reflect (on_chain (chainActive s) p)) as [Hc|Hc].
  { exists false, s. split_and!; [done|by apply discarded_refl|done|]. intros a b Han Hna Hab.
    destruct (decide (CBlockIndex.nHeight bp < CBlockIndex.nHeight b)) as [|Hge]; [by apply (Hgood a b)|].
    destruct Hna. apply (on_chain_ancestor _ (base_tree s B) _ a p bp); [apply B|done|done|].
    apply (Hlow a b); [done..|lia]. }
  rewrite (load_bind p bp) by done.
  assert (assert_ (negb (CBlockIndex.nChainTx bp =? 0) || (CBlockIndex.nHeight bp =? 0)) s = Ok (tt, s)) as Eas.
  { unfold assert_. destruct (L pnew p bp Hin Ha Hp) as [H|H].
    - by rewrite (proj2 (Z.eqb_neq _ _) H).
    - by rewrite H, orb_true_r. }
  rewrite (bind_ok _ _ _ _ _ Eas). cbv beta zeta.
  destruct (Entry.failed bp || negb (Entry.have_data bp)) eqn:Ebad.
  - assert (unusable bp) as Hu.
    { apply orb_true_iff in Ebad as [E|E]; [by left|right]. by apply negb_true_iff. }
    assert (exists s1, (if Entry.failed bp then note_invalid pnew else mret tt) s = Ok (tt, s1) /\ discarded s s1 /\
      entries s1 = entries s /\ setBlockIndexCandidates s1 = setBlockIndexCandidates s) as (s1 & E1 & D1 & Een & Ec).
    { destruct (Entry.failed bp); [apply note_invalid_discarded; [done|by exists bn]|].
      exists s. split_and!; [done|by apply discarded_refl|done|done]. }
    rewrite (bind_ok _ _ _ _ _ E1), (load_bind pnew bn) by by rewrite Een.
    destruct (drop_chain_spec (S (Z.to_nat (CBlockIndex.nHeight bn))) (Entry.failed bp) p bp pnew bn s1)
      as (s2 & E2 & D2 & Hnin & bp2 & Hp2 & Hbad2); try (by rewrite Een); try done.
    { apply D1. }
    { by rewrite (discarded_chain s s1 D1). }
    { destruct (Entry.failed bp); [done|]. by apply negb_true_iff. }
    { rewrite Een. intros a ba. by apply (L pnew). }
    { assert (0 <= CBlockIndex.nHeight bp) by by apply (base_tree s B p bp). lia. }
    rewrite (bind_ok _ _ _ _ _ E2). assert (discarded s s2) as D by by apply (discarded_trans s s1 s2).
    destruct (erase_candidate_discarded s2 p) as (s3 & E3 & D3 & Hn3 & _); [apply D|by exists bp2| | |].
    { apply (discarded_met_back s s2); [done| |].
      - intros b' [H|H]; [left; apply mark_child_failed|right; by rewrite mark_child_data].
      - exists p, bp. split_and!; try done. by apply (is_ancestor_self _ (base_tree s B) p bp). }
    { destruct (Entry.failed bp); [left; by exists bp2|right]. exists p, bp2. rewrite (discarded_chain s s2 D).
      split_and!; try done. by apply (is_ancestor_self _ (base_tree _ (disc_base _ _ D)) p bp2). }
    rewrite (bind_ok _ _ _ _ _ E3). exists true, s3. split_and!; [done|by apply (discarded_trans s s2 s3)| |].
    + by exists p, bp.
    + destruct (decide (p = pnew)) as [->|Hne]; [done|]. intros Hin3.
      apply Hnin; [done|]. by apply (elem_of_sublist _ _ pnew Hin3 (disc_cands s2 s3 D3)).
  - apply orb_false_iff in Ebad as [Ef Ed]. apply negb_false_iff in Ed.
    destruct (base_tree s B p bp Hp) as [Hh Hprev _].
    destruct (CBlockIndex.pprev bp) as [q|] eqn:Eq.
    + destruct Hprev as (bq & Hq & Hhq).
      assert (is_ancestor (entries s) q p) as Hqp.
      { apply (is_ancestor_prev _ (base_tree s B) q p bp q Hp Eq). right. by apply (is_ancestor_self _ (base_tree s B) q bq). }
      apply (IH q bq); [done|by apply (is_ancestor_trans _ (base_tree s B) q p pnew bn)| |lia].
      intros a b Han Hab Hlt. destruct (decide (CBlockIndex.nHeight bp < CBlockIndex.nHeight b)) as [|Hge]; [by apply (Hgood a b)|].
      assert (a = p) as ->; [|by simplify_eq]. apply (is_ancestor_same_height _ (base_tree s B) a p b bp); [done..| |lia].
      apply (Hlow a b); [done..|lia].
    + exists false, s. split; [by destruct fuel|]. split_and!; [by apply discarded_refl|done|]. intros a b Han Hna Hab.
      destruct (decide (CBlockIndex.nHeight bp < CBlockIndex.nHeight b)) as [|Hge]; [by apply (Hgood a b)|].
      assert (a = p) as ->; [|by simplify_eq]. apply (is_ancestor_root _ (base_tree s B) a p bp Hp Eq).
      apply (Hlow a b); [done..|lia].
Qed.

Lemma discarded_linked s s' : discarded s s' -> cands_linked s -> cands_linked s'.
Proof.
  intros D L p a b Hp Ha Hb. destruct (agree_lookup_back _ _ _ _ _ (discarded_agree s s' D) Hb) as (b0 & Hb0 & E).
  assert (CBlockIndex.nChainTx b = CBlockIndex.nChainTx b0 /\ CBlockIndex.nHeight b = CBlockIndex.nHeight b0) as [-> ->]
    by (unfold but_failure, shape in E; split; congruence).
  apply (L p a b0); [|by apply (is_ancestor_agree _ (entries s')); [apply discarded_shape|]|done].
  by apply (elem_of_sublist _ _ p Hp (disc_cands s s' D)).
Qed.

(** [r] is the best of the candidates of [s] that can be used. *)
Definition best_usable (s : state) (r : option N) : Prop :=
  match r with
  | Some p => p ∈ setBlockIndexCandidates s /\ usable s p /\
      forall q, q ∈ setBlockIndexCandidates s -> usable s q -> q = p \/ worse (entries s) q p
  | None => forall q, q ∈ setBlockIndexCandidates s -> ~ usable s q
  end.

Lemma best_usable_discarded s s' r : base_ok s -> discarded s s' -> best_usable s' r -> best_usable s r.
Proof.
  intros B D.
  assert (forall q, q ∈ setBlockIndexCandidates s -> usable s q -> q ∈ setBlockIndexCandidates s' /\ usable s' q) as Hk.
  { intros q Hq Hu. assert (alive (entries s) q) as Hal by (by eapply Forall_forall; [apply (base_cands s B)|]).
    split; [|by apply (discarded_usable s s')]. destruct (decide (q ∈ setBlockIndexCandidates s')) as [|Hn]; [done|].
    by destruct (met_not_usable s q (disc_removed s s' D q Hq Hn)). }
  destruct r as [p|]; cbn.
  - intros (H1 & H2 & H3). assert (p ∈ setBlockIndexCandidates s) as Hp
      by by apply (elem_of_sublist _ _ p H1 (disc_cands s s' D)).
    split_and!; [done| |].
    + apply (discarded_usable s s'); [done|done| |done]. by eapply Forall_forall; [apply (base_cands s B)|].
    + intros q Hq Hu. destruct (Hk q Hq Hu) as [Hq' Hu']. destruct (H3 q Hq' Hu') as [->|Hw]; [by left|right].
      apply (worse_agree (entries s')); [|done]. intros x. symmetry. by apply discarded_key.
  - intros H q Hq Hu. destruct (Hk q Hq Hu) as [Hq' Hu']. by apply (H q).
Qed.

Lemma FindMostWorkChain_loop_spec fuel s : base_ok s -> cands_linked s ->
  (length (setBlockIndexCandidates s) <= fuel)%nat ->
  exists r s', FindMostWorkChain_loop fuel s = Ok (r, s') /\ discarded s s' /\ best_usable s r /\
    last (setBlockIndexCandidates s') = r.
Proof.
  revert s. induction fuel as [|fuel IH]; intros s B L Hf; cbn [FindMostWorkChain_loop]; rewrite get_bind;
    destruct (last (setBlockIndexCandidates s)) as [p|] eqn:El.
  - destruct (setBlockIndexCandidates s); [done|cbn in Hf; lia].
  - exists None, s. split_and!; [done|by apply discarded_refl| |done].
    apply last_None in El. cbn. rewrite El. intros q Hq. by apply not_elem_of_nil in Hq.
  - destruct (set_last (entries s) _ p (base_cands s B) El) as [Hp Hbest].
    assert (alive (entries s) p) as [b Hb] by (by eapply Forall_forall; [apply (base_cands s B)|]).
    rewrite (load_bind p b) by done.
    destruct (invalid_ancestor_spec (S (Z.to_nat (CBlockIndex.nHeight b))) p b p b s) as (bad & s1 & E & D & Hr);
      try done; [by apply (is_ancestor_self _ (base_tree s B) p b)| |lia|].
    { intros a ba Ha Hba Hlt. apply (is_ancestor_height _ (base_tree s B) a p b ba Hb Hba) in Ha as [? _]. lia. }
    rewrite (bind_ok _ _ _ _ _ E). destruct bad.
    + destruct Hr as [M Hn]. destruct (IH s1) as (r & s2 & E2 & D2 & Hr2 & Hl2).
      * apply D.
      * by apply (discarded_linked s s1).
      * pose proof (disc_cands s s1 D) as Hsub. pose proof (sublist_length _ _ Hsub) as Hle.
        destruct (decide (length (setBlockIndexCandidates s1) = length (setBlockIndexCandidates s))) as [Heq|]; [|lia].
        destruct Hn. rewrite (submseteq_length_Permutation _ _ (sublist_submseteq _ _ Hsub)) by lia. done.
      * exists r, s2. split_and!; [done|by apply (discarded_trans s s1 s2)|by apply (best_usable_discarded s s1)|done].
    + destruct Hr as [-> Hu]. exists (Some p), s. split_and!; [done|done| |done]. cbn. split_and!; [done|done|].
      intros q Hq _. by apply Hbest.
  - exists None, s. split_and!; [done|by apply discarded_refl| |done].
    apply last_None in El. cbn. rewrite El. intros q Hq. by apply not_elem_of_nil in Hq.
Qed.

Lemma FindMostWorkChain_spec s : base_ok s -> cands_linked s ->
  exists r s', FindMostWorkChain s = Ok (r, s') /\ discarded s s' /\ best_usable s r /\
    last (setBlockIndexCandidates s') = r.
Proof. intros B L. unfold FindMostWorkChain. rewrite get_bind. by apply FindMostWorkChain_loop_spec. Qed.

(** ** A small index for the witness: 0 - 1 - 3, where 1 failed, and a branch 0 - 2; the
    chain is 0, the candidates are 0, 2 and 3. *)

Definition sample_entry (hash : Z) (prev : option N) (height trust status : Z) : CBlockIndex.t :=
  CBlockIndex.set_nStatus status (Entry.set_nChainTrust (of_u64 trust) (Entry.set_data 1 (height + 1) 0 8 0
    (Entry.set_phashBlock [hash] (match prev with Some p => Entry.set_parent p height CBlockIndex.null | None => CBlockIndex.null end)))).

Definition sample_index : heap :=
  <[0%N := sample_entry 100 None 0 1 13]> (<[1%N := sample_entry 101 (Some 0%N) 1 11 43]>
  (<[2%N := sample_entry 102 (Some 0%N) 1 6 11]> (<[3%N := sample_entry 103 (Some 1%N) 2 21 11]> ∅))).

Definition sample_state : state :=
  mk_state sample_index (list_to_map [([100], 0%N); ([101], 1%N); ([102], 2%N); ([103], 3%N)]) [0%N; 2%N; 3%N] [] 1 (-1) zero256
    [Some 0%N] (Some 3%N) None ∅ ∅.

Lemma sample_index_cases p b : sample_index !! p = Some b ->
  (p, b) ∈ [(0%N, sample_entry 100 None 0 1 13); (1%N, sample_entry 101 (Some 0%N) 1 11 43);
            (2%N, sample_entry 102 (Some 0%N) 1 6 11); (3%N, sample_entry 103 (Some 1%N) 2 21 11)].
Proof.
  unfold sample_index. intros H.
  repeat (apply lookup_insert_Some in H as [[<- <-]|[_ H]]; [rewrite !elem_of_cons; auto 10|]).
  by rewrite lookup_empty in H.
Qed.

Ltac sample_case H := apply sample_index_cases in H;
  repeat (apply elem_of_cons in H as [[= -> ->]|H]; [|]); [..|by apply not_elem_of_nil in H].

Lemma sample_tree_fine : tree_ok sample_index.
Proof.
  intros p b Hp. sample_case Hp; split; cbn; try lia; try done; try (eexists; split; vm_compute; reflexivity).
Qed.

Lemma sample_base : base_ok sample_state.
Proof.
  split; cbn [entries setBlockIndexCandidates chainActive pindexBestInvalid sample_state].
  - apply sample_tree_fine.
  - intros p b Hp. sample_case Hp; by_decide.
  - split; [|repeat constructor; eexists; vm_compute; reflexivity].
    repeat (constructor; [|]); try constructor; repeat constructor;
      (eexists _, _; split; [vm_compute; reflexivity|]; split; [vm_compute; reflexivity|left; by vm_compute]).
  - right. exists 0%N. eexists. split; vm_compute; reflexivity.
  - done.
Qed.

Lemma sample_linked : cands_linked sample_state.
Proof. intros p a b _ _ Hb. left. cbn in Hb. sample_case Hb; done. Qed.

(** C9: the choice of the chain.  If the entries form a tree, the candidates are ordered by
    the comparator and they and their ancestors had their transactions, [FindMostWorkChain]
    ends, follows no null pointer and fails no assertion, and returns the best candidate whose
    blocks outside the active chain have not failed and have their data, by trust, then
    order of arrival, then address, or null if there is none.  It drops only candidates
    that are not usable, marks only blocks with a failed ancestor, keeps every other field, and
    leaves the block it returns on top of the set. *)
Theorem FindMostWorkChain_correct (s : state) : base_ok s -> cands_linked s ->
  exists r s', FindMostWorkChain s = Ok (r, s') /\ best_usable s r /\ discarded s s' /\
    last (setBlockIndexCandidates s') = r /\
    (forall q, q ∈ setBlockIndexCandidates s -> usable s q -> q ∈ setBlockIndexCandidates s' /\ usable s' q).
Proof.
  intros B L. destruct (FindMostWorkChain_spec s B L) as (r & s' & E & D & H1 & H2). exists r, s'. split_and!; try done.
  intros q Hq Hu. assert (alive (entries s) q) as Hal by (by eapply Forall_forall; [apply (base_cands s B)|]).
  split; [|by apply (discarded_usable s s')]. destruct (decide (q ∈ setBlockIndexCandidates s')) as [|Hn]; [done|].
  by destruct (met_not_usable s q (disc_removed s s' D q Hq Hn)).
Qed.

Lemma FindMostWorkChain_correct_witness : exists s', FindMostWorkChain sample_state = Ok (Some 2%N, s') /\
  best_usable sample_state (Some 2%N) /\ setBlockIndexCandidates s' = [0%N; 2%N] /\
  CBlockIndex.nStatus <$> entries s' !! 3%N = Some 75.
Proof.
  destruct (FindMostWorkChain_correct sample_state sample_base sample_linked) as (r & s' & E & H & D & Hl & _).
  assert (E' := E). vm_compute in E'. injection E' as <- <-. eexists. split; [exact E|]. split; [exact H|]. split; reflexivity.
Defined.
