(* ===== verification/IndexInvariant.v ===== *)
(** * IndexInvariant: what holds of the block index

    The invariant of the state of [BlockIndex], after the consistency checks of
    [CheckBlockIndex] in [src/src/validation.cpp] (for a node that has not pruned), and that
    the operations keep it: the tree is well formed; an entry has data exactly if it has
    transactions, and [nChainTx] exactly if all its ancestors do, when it is their number of
    transactions; [mapBlocksUnlinked] holds exactly the blocks that wait for an ancestor;
    and the set of candidates holds every block that could become the tip.

    The last point needs a watermark: blocks worse than the tip are pruned, and during a
    reorganisation the tip goes down again, so what the set is complete for is the blocks
    that are not worse than the best tip so far. *)
From stdpp Require Import sorting.
From S2P Require Import Prelude ArithUint256 Uint256 ConsensusParams Serialize Transaction Chain Block TxCheck BlockCheck BlockIndex.
Import Header.

(** ** Status bits *)

Definition level (b : CBlockIndex.t) : Z := Z.land (CBlockIndex.nStatus b) CBlockIndex.BLOCK_VALID_MASK.

Lemma flag_high s l m : 0 <= l < 2 ^ 3 -> (forall i, 0 <= i < 3 -> Z.testbit m i = false) ->
  flag_set (s / 2 ^ 3 * 2 ^ 3 + l) m = flag_set s m.
Proof.
  intros Hl Hm. unfold flag_set. do 2 f_equal. apply Z.bits_inj'. intros i Hi. rewrite !Z.land_spec.
  destruct (decide (3 <= i)); [by rewrite high_bits by lia|]. by rewrite Hm, !andb_false_r by lia.
Qed.

Lemma low_bits_clear m : Z.land m 7 = 0 -> forall i, 0 <= i < 3 -> Z.testbit m i = false.
Proof.
  intros E i Hi. apply (f_equal (fun z => Z.testbit z i)) in E. rewrite Z.land_spec, Z.bits_0 in E.
  assert (i = 0 \/ i = 1 \/ i = 2) as [-> |[-> | ->]] by lia; by rewrite andb_true_r in E.
Qed.

(** [RaiseValidity] on an entry that has not failed. *)
Lemma RaiseValidity_spec n b : 0 <= n <= 5 -> is_u 32 (CBlockIndex.nStatus b) -> Entry.failed b = false ->
  exists c b', CBlockIndex.RaiseValidity n b = Some (c, b') /\ is_u 32 (CBlockIndex.nStatus b') /\
    level b' = Z.max n (level b) /\ Entry.failed b' = false /\ Entry.have_data b' = Entry.have_data b /\
    exists st, b' = CBlockIndex.set_nStatus st b.
Proof.
  intros Hn Hs Hf. unfold CBlockIndex.RaiseValidity. rewrite level_mask by done.
  unfold Entry.failed in Hf. rewrite Hf. fold (level b).
  destruct (Z.ltb_spec (level b) n) as [Hlt|Hge].
  - change CBlockIndex.BLOCK_VALID_MASK with (2 ^ 3 - 1). unfold CBlockIndex.not_mask.
    rewrite (replace_low _ 3 n) by (done || lia). eexists _, _. split; [done|].
    unfold level, Entry.failed, Entry.have_data. cbn [CBlockIndex.nStatus CBlockIndex.set_nStatus].
    split_and!.
    + pose proof (Z.div_mod (CBlockIndex.nStatus b) 8 ltac:(lia)).
      pose proof (Z.mod_pos_bound (CBlockIndex.nStatus b) 8 ltac:(lia)). unfold is_u in *. change (2 ^ 3) with 8. lia.
    + rewrite low_level by lia. unfold level in Hlt. lia.
    + by rewrite failed_high by lia.
    + by apply flag_high; [lia|apply low_bits_clear].
    + by eexists.
  - eexists _, _. split; [done|]. split_and!; [done|lia|done|done|]. exists (CBlockIndex.nStatus b). by destruct b.
Qed.

Lemma is_u_lor w a b : 0 <= w -> is_u w a -> is_u w b -> is_u w (Z.lor a b).
Proof.
  intros Hw [Ha1 Ha2] [Hb1 Hb2]. split; [by apply Z.lor_nonneg|].
  destruct (decide (Z.lor a b = 0)) as [->|Hne]; [lia|].
  assert (0 <= Z.lor a b) by by apply Z.lor_nonneg.
  apply Z.log2_lt_pow2; [lia|]. rewrite Z.log2_lor by done.
  assert (forall x, 0 <= x -> x < 2 ^ w -> x = 0 \/ Z.log2 x < w) as Hl.
  { intros x H1 H2. destruct (decide (x = 0)); [by left|right]. apply Z.log2_lt_pow2; lia. }
  assert (0 < w). { destruct (decide (w = 0)) as [->|]; [|lia]. assert (a = 0) as -> by (cbn in *; lia). assert (b = 0) as -> by (cbn in *; lia). done. }
  apply Z.max_lub_lt; [destruct (Hl a) as [->|]|destruct (Hl b) as [->|]]; try done.
Qed.

(** The fields an assignment to the status keeps. *)
Definition but_status (b : CBlockIndex.t) :=
  (CBlockIndex.phashBlock b, shape b, key b, CBlockIndex.nTx b, CBlockIndex.nChainTx b).

Lemma add_status_flag bits m b : flag_set bits m = true -> flag_set (CBlockIndex.nStatus (Entry.add_status bits b)) m = true.
Proof.
  unfold flag_set. rewrite !negb_true_iff, !Z.eqb_neq. cbn [CBlockIndex.nStatus Entry.add_status CBlockIndex.set_nStatus].
  intros Hn E. apply Hn. apply Z.bits_inj'. intros i Hi. apply (f_equal (fun z => Z.testbit z i)) in E.
  rewrite Z.land_lor_distr_l, Z.lor_spec, Z.bits_0 in *. by apply orb_false_iff in E as [_ ->].
Qed.

Lemma add_status_other bits m b : Z.land bits m = 0 ->
  Z.land (CBlockIndex.nStatus (Entry.add_status bits b)) m = Z.land (CBlockIndex.nStatus b) m.
Proof. by apply lor_land_disjoint. Qed.

(** The entry of a block whose transactions arrived. *)
Lemma received_spec v7 n pos b : is_u 32 (CBlockIndex.nStatus b) -> Entry.failed b = false -> 0 <= n < 2 ^ 32 ->
  exists b', received v7 n pos b = Some b' /\ is_u 32 (CBlockIndex.nStatus b') /\
    level b' = Z.max 3 (level b) /\ Entry.failed b' = false /\ Entry.have_data b' = true /\
    CBlockIndex.nTx b' = n /\ CBlockIndex.nChainTx b' = 0 /\ CBlockIndex.phashBlock b' = CBlockIndex.phashBlock b /\
    shape b' = shape b /\ key b' = key b.
Proof.
  intros Hs Hf Hn. unfold received.
  set (b1 := Entry.set_data _ _ _ _ _ b). set (b2 := Entry.add_status CBlockIndex.BLOCK_HAVE_DATA b1).
  set (b3 := if v7 then Entry.add_status CBlockIndex.BLOCK_OPT_WITNESS b2 else b2).
  assert (exists st, b3 = CBlockIndex.set_nStatus st b1) as [st E3] by (unfold b3; destruct v7; by eexists).
  assert (is_u 32 (CBlockIndex.nStatus b2)) as Hs2 by by apply is_u_lor.
  assert (is_u 32 (CBlockIndex.nStatus b3)) as Hs3 by (unfold b3; destruct v7; [by apply is_u_lor|done]).
  assert (level b3 = level b) as Hl.
  { transitivity (level b2); [unfold b3; destruct v7; [by apply add_status_other|done]|]. by apply (add_status_other _ _ b1). }
  assert (Entry.failed b3 = false) as Hf3.
  { transitivity (Entry.failed b2).
    - unfold b3, Entry.failed, flag_set; destruct v7; [by rewrite add_status_other|done].
    - unfold b2, Entry.failed, flag_set. rewrite add_status_other by done. exact Hf. }
  assert (Entry.have_data b3 = true) as Hd3.
  { transitivity (Entry.have_data b2).
    - unfold b3, Entry.have_data, flag_set; destruct v7; [by rewrite add_status_other|done].
    - by apply (add_status_flag CBlockIndex.BLOCK_HAVE_DATA). }
  destruct (RaiseValidity_spec CBlockIndex.BLOCK_VALID_TRANSACTIONS b3) as (c & b' & E & H1 & H2 & H3 & H4 & st' & E'); try done.
  rewrite E. eexists. split; [done|]. cbn [snd]. rewrite Hl in H2. rewrite Hd3 in H4. split_and!; try done;
    rewrite E', E3; cbn; try done. unfold uwrap. by apply Z.mod_small.
Qed.

(** ** Transactions along a chain *)

Fixpoint tx_sum (n : nat) (h : heap) (p : N) : Z :=
  match h !! p with
  | None => 0
  | Some b => CBlockIndex.nTx b + match n, CBlockIndex.pprev b with S n', Some q => tx_sum n' h q | _, _ => 0 end
  end.

(** The number of transactions of [p] and its ancestors. *)
Definition path_tx (h : heap) (p : N) : Z := tx_sum (Z.to_nat (height_of h p)) h p.

Lemma path_tx_prev h p b : tree_ok h -> h !! p = Some b ->
  path_tx h p = CBlockIndex.nTx b + match CBlockIndex.pprev b with Some q => path_tx h q | None => 0 end.
Proof.
  intros Hok Hp. unfold path_tx at 1. rewrite (height_of_lookup h p b) by done.
  destruct (Hok p b Hp) as [Hh Hprev _]. destruct (CBlockIndex.pprev b) as [q|] eqn:Eq.
  - destruct Hprev as (bq & Hq & Hhq). assert (0 <= CBlockIndex.nHeight bq) by by apply (Hok q bq).
    replace (Z.to_nat (CBlockIndex.nHeight b)) with (S (Z.to_nat (CBlockIndex.nHeight bq))) by lia.
    cbn [tx_sum]. rewrite Hp, Eq. unfold path_tx. by rewrite (height_of_lookup h q bq).
  - rewrite Hprev. change (Z.to_nat 0) with 0%nat. cbn [tx_sum]. by rewrite Hp.
Qed.

Lemma path_tx_agree h h' p : agree (fun b => (shape b, CBlockIndex.nTx b)) h h' -> path_tx h' p = path_tx h p.
Proof.
  intros E. unfold path_tx. assert (height_of h' p = height_of h p) as ->.
  { unfold height_of. specialize (E p). unfold shape in E. destruct (h' !! p), (h !! p); cbn in *; congruence. }
  generalize (Z.to_nat (height_of h p)). intros n. revert p. induction n as [|n IH]; intros p; cbn [tx_sum];
    specialize (E p); unfold shape in E; destruct (h' !! p) as [b'|], (h !! p) as [b|]; try done; cbn in E; injection E as E1 E2 E3 E4;
    rewrite E4, ?E1; [done|]. destruct (CBlockIndex.pprev b); [|done]. by rewrite IH.
Qed.

(** ** The invariant *)

Definition linked (h : heap) (p : N) : Prop := exists b, h !! p = Some b /\ CBlockIndex.nChainTx b <> 0.

Definition parent_linked (h : heap) (b : CBlockIndex.t) : Prop :=
  match CBlockIndex.pprev b with None => True | Some q => linked h q end.

Definition clear (h : heap) (p : N) : Prop := exists b, h !! p = Some b /\ Entry.failed b = false.

(** An entry on its own. *)
Record entry_ok (b : CBlockIndex.t) : Prop := {
  entry_tx : 0 <= CBlockIndex.nTx b < 2 ^ 32;
  entry_status : is_u 32 (CBlockIndex.nStatus b);
  entry_data : Entry.have_data b = true <-> CBlockIndex.nTx b <> 0;
  entry_level : 2 <= level b /\ (3 <= level b <-> CBlockIndex.nTx b <> 0);
  entry_seq : CBlockIndex.nChainTx b = 0 -> CBlockIndex.nSequenceId b <= 0;
  entry_hash : CBlockIndex.phashBlock b <> None;
}.

(** The invariant while the blocks of [queue] are still to be linked. *)
Record index_inv (queue : list N) (s : state) : Prop := {
  inv_base : base_ok s;
  inv_entry : forall p b, entries s !! p = Some b -> entry_ok b;
  inv_map : forall hash p, mapBlockIndex s !! hash = Some p <->
    exists b, entries s !! p = Some b /\ CBlockIndex.phashBlock b = Some hash;
  inv_linked : forall p b, entries s !! p = Some b -> CBlockIndex.nChainTx b <> 0 ->
    CBlockIndex.nTx b <> 0 /\ parent_linked (entries s) b /\ CBlockIndex.nChainTx b = path_tx (entries s) p;
  inv_waiting : forall p b, entries s !! p = Some b -> CBlockIndex.nTx b <> 0 -> CBlockIndex.nChainTx b = 0 ->
    (CBlockIndex.pprev b, p) ∈ mapBlocksUnlinked s \/ p ∈ queue;
  inv_unlinked : forall k p, (k, p) ∈ mapBlocksUnlinked s -> exists b, entries s !! p = Some b /\ k = CBlockIndex.pprev b /\
    CBlockIndex.nTx b <> 0 /\ CBlockIndex.nChainTx b = 0 /\ ~ parent_linked (entries s) b;
  inv_queue : forall p, p ∈ queue -> exists b, entries s !! p = Some b /\
    CBlockIndex.nTx b <> 0 /\ CBlockIndex.nChainTx b = 0 /\ parent_linked (entries s) b;
  inv_nodup : NoDup (queue ++ map snd (mapBlocksUnlinked s));
  inv_cands : forall p, p ∈ setBlockIndexCandidates s -> linked (entries s) p;
  inv_active : forall p, on_chain (chainActive s) p -> linked (entries s) p /\ clear (entries s) p;
  inv_header : forall p, pindexBestHeader s = Some p -> alive (entries s) p;
}.

Abbreviation index_ok := (index_inv []).

(** The set of candidates is complete for the blocks not worse than [w], the best tip so
    far (for all blocks, if there was none). *)
Record watermark (w : option N) (s : state) : Prop := {
  mark_linked : forall x, w = Some x -> linked (entries s) x;
  mark_tip : match Tip s, w with
             | Some t, Some x => ~ worse (entries s) x t
             | Some _, None => False
             | None, _ => True
             end;
  mark_cands : forall p, linked (entries s) p -> clear (entries s) p ->
    (forall x, w = Some x -> ~ worse (entries s) p x) -> p ∈ setBlockIndexCandidates s;
}.

Lemma linked_alive h p : linked h p -> alive h p.
Proof. intros (b & Hb & _). by exists b. Qed.
#[export] Hint Resolve linked_alive : core.

(** In a linked block's chain all blocks are linked. *)
Lemma linked_ancestors s q p a : index_inv q s -> linked (entries s) p -> is_ancestor (entries s) a p -> linked (entries s) a.
Proof.
  intros I (b & Hp & Hl). destruct (inv_base q s I) as [Hok _ _ _ _].
  remember (Z.to_nat (CBlockIndex.nHeight b)) as n eqn:En. revert p b Hp Hl En.
  induction n as [|n IH]; intros p b Hp Hl En Ha; (destruct (decide (a = p)) as [->|Hne]; [by exists b|]);
    destruct (is_ancestor_step _ Hok a p b Hp Ha Hne) as (r & br & Er & Hr & Har & Hh);
    assert (0 <= CBlockIndex.nHeight br) by (by apply (Hok r br)); [lia|].
  destruct (inv_linked q s I p b Hp Hl) as (_ & Hpl & _). unfold parent_linked in Hpl. rewrite Er in Hpl.
  destruct Hpl as (br' & Hr' & Hl'). simplify_eq. apply (IH r br); [done|done|lia|done].
Qed.

Lemma inv_cands_linked q s : index_inv q s -> cands_linked s.
Proof.
  intros I p a b Hp Ha Hb. left. destruct (linked_ancestors s q p a I) as (b' & Hb' & Hl); [by apply (inv_cands q s I)|done|].
  by simplify_eq.
Qed.

(** Data follows transactions, so it is missing nowhere in a linked chain. *)
Lemma linked_data s q p b : index_inv q s -> entries s !! p = Some b -> CBlockIndex.nChainTx b <> 0 -> Entry.have_data b = true.
Proof. intros I Hp Hl. apply (inv_entry q s I p b Hp). by apply (inv_linked q s I p b Hp). Qed.

(** The tip is the end of the chain. *)
Lemma Tip_of_path h p b : tree_ok h -> h !! p = Some b -> CChain.Tip (path h p) = Some p.
Proof.
  intros Hok Hp. unfold CChain.Tip. rewrite length_path.
  destruct (Z.gtb_spec (Z.of_nat (S (Z.to_nat (height_of h p)))) 0) as [_|]; [|lia].
  replace (S (Z.to_nat (height_of h p)) - 1)%nat with (Z.to_nat (height_of h p)) by lia.
  rewrite (list_lookup_total_correct _ _ (ancestor_at h p (Z.of_nat (Z.to_nat (height_of h p))))) by by apply path_lookup.
  assert (0 <= CBlockIndex.nHeight b) by by apply (Hok p b).
  by rewrite (height_of_lookup h p b), Z2Nat.id, (ancestor_at_self h p b).
Qed.

Lemma Tip_path h v : tree_ok h -> chain_ok h v ->
  match CChain.Tip v with Some t => alive h t /\ v = path h t | None => v = [] end.
Proof.
  intros Hok [->|(p & b & Hp & ->)]; [done|]. rewrite (Tip_of_path h p b) by done. split; [by exists b|done].
Qed.

Lemma path_on_chain h p b a : tree_ok h -> h !! p = Some b -> on_chain (path h p) a <-> is_ancestor h a p.
Proof.
  intros Hok Hp. unfold on_chain. rewrite list_elem_of_lookup. assert (0 <= CBlockIndex.nHeight b) by by apply (Hok p b).
  split.
  - intros [i Hi]. apply path_lookup_inv in Hi as [Hi E]. exists (Z.of_nat i).
    rewrite (height_of_lookup h p b) in * by done. split; [lia|done].
  - intros (k & Hk & Ha). exists (Z.to_nat k). rewrite path_lookup by lia. by rewrite Z2Nat.id, Ha by lia.
Qed.

Lemma Tip_on_chain s t : base_ok s -> Tip s = Some t -> on_chain (chainActive s) t.
Proof.
  intros B E. pose proof (Tip_path (entries s) (chainActive s) (base_tree s B) (base_chain s B)) as H.
  fold (Tip s) in H. rewrite E in H. destruct H as [[b Ht] ->].
  apply (path_on_chain _ t b); [apply B|done|]. by apply (is_ancestor_self _ (base_tree s B) t b).
Qed.

Lemma tip_linked q s t : index_inv q s -> Tip s = Some t -> linked (entries s) t.
Proof. intros I E. by apply (inv_active q s I t), Tip_on_chain; [apply (inv_base q s I)|]. Qed.

(** ** Changing an entry that is not a candidate *)

Lemma worse_insert_other h p b' x y : x <> p -> y <> p -> worse (<[p := b']> h) x y <-> worse h x y.
Proof. intros Hx Hy. unfold worse. by rewrite !lookup_insert_ne by done. Qed.

Lemma alive_insert h p b' x : alive h x -> alive (<[p := b']> h) x.
Proof. intros Hx. apply lookup_insert_is_Some'. by right. Qed.

Lemma set_ok_insert_out h p b' l : p ∉ l -> set_ok h l -> set_ok (<[p := b']> h) l.
Proof.
  intros Hp [Hs Ha]. split.
  - induction Hs as [|x l Hs IH Hx]; constructor.
    + apply IH; [set_solver|]. by apply Forall_cons in Ha as [_ ?].
    + apply Forall_forall. intros y Hy. apply worse_insert_other; [set_solver..|]. by eapply Forall_forall in Hx.
  - eapply Forall_impl; [exact Ha|]. intros x. apply alive_insert.
Qed.

Lemma trusts_ok_insert h p b' : trusts_ok h -> wf (CBlockIndex.nChainTrust b') -> trusts_ok (<[p := b']> h).
Proof. intros Hw Hb x bx Hx. apply lookup_insert_Some in Hx as [[<- <-]|[_ Hx]]; [done|by eapply Hw]. Qed.

Lemma linked_insert h p b b' x : h !! p = Some b -> (CBlockIndex.nChainTx b <> 0 -> CBlockIndex.nChainTx b' <> 0) ->
  linked h x -> linked (<[p := b']> h) x.
Proof.
  intros Hp Hb (bx & Hx & Hl). destruct (decide (p = x)) as [<-|].
  - exists b'. rewrite lookup_insert_eq. simplify_eq. by auto.
  - exists bx. by rewrite lookup_insert_ne.
Qed.

Lemma linked_insert_inv h p b' x : x <> p -> linked (<[p := b']> h) x -> linked h x.
Proof. intros Hne (bx & Hx & Hl). rewrite lookup_insert_ne in Hx by done. by exists bx. Qed.

Lemma base_ok_insert s p b b' : base_ok s -> entries s !! p = Some b -> p ∉ setBlockIndexCandidates s ->
  shape b' = shape b -> wf (CBlockIndex.nChainTrust b') -> base_ok (set_entries (<[p := b']> (entries s)) s).
Proof.
  intros [B1 B2 B3 B4 B5] Hp Hn E Hw. assert (agree shape (entries s) (<[p := b']> (entries s))) as Es by by apply (agree_insert _ _ p b).
  split; cbn.
  - by apply (tree_ok_agree (entries s)).
  - by apply trusts_ok_insert.
  - by apply set_ok_insert_out.
  - by apply (chain_ok_agree (entries s)).
  - intros q Hq. by apply alive_insert, B5.
Qed.

(** ** Linking a block *)

(** The entry of a block all of whose ancestors are there. *)
Definition link (tx seq : Z) (b : CBlockIndex.t) : CBlockIndex.t := Entry.set_nSequenceId seq (Entry.set_nChainTx tx b).

Lemma prev_ChainTx_ok s q p b : index_inv q s -> entries s !! p = Some b -> parent_linked (entries s) b ->
  exists t, prev_ChainTx b s = Ok (t, s) /\ t + CBlockIndex.nTx b = path_tx (entries s) p.
Proof.
  intros I Hp Hl. unfold prev_ChainTx, parent_linked in *. rewrite (path_tx_prev _ p b) by (done || apply (inv_base q s I)).
  destruct (CBlockIndex.pprev b) as [r|].
  - destruct Hl as (br & Hr & Hl). rewrite (load_bind r br) by done. eexists. split; [done|].
    destruct (inv_linked q s I r br Hr Hl) as (_ & _ & ->). lia.
  - exists 0. split; [done|lia].
Qed.

Lemma path_tx_nonneg s q p : index_inv q s -> 0 <= path_tx (entries s) p.
Proof.
  intros I. unfold path_tx. generalize (Z.to_nat (height_of (entries s) p)). intros n. revert p.
  induction n as [|n IH]; intros p; cbn [tx_sum]; destruct (entries s !! p) as [b|] eqn:Eb; try lia;
    pose proof (entry_tx b (inv_entry q s I p b Eb)); [lia|]. destruct (CBlockIndex.pprev b) as [r|]; [|lia].
  specialize (IH r). lia.
Qed.

(** No chain has as many transactions as [nChainTx] cannot count. *)
Definition fits (h : heap) : Prop := forall p, path_tx h p < 2 ^ 32.

Section link_step.
Context (p : N) (queue : list N) (s : state) (b : CBlockIndex.t).
Context (I : index_inv (p :: queue) s) (F : fits (entries s)) (Hp : entries s !! p = Some b).

(** [s] with the entry of [p] linked, other candidates, and the blocks that waited for [p] in
    the queue. *)
Definition linked_state (seq : Z) (cands : list N) : state :=
  set_mapBlocksUnlinked (filter (fun kv => fst kv <> Some p) (mapBlocksUnlinked s))
    (set_setBlockIndexCandidates cands
      (set_nBlockSequenceId (i32 (nBlockSequenceId s + 1))
        (set_entries (<[p := link (path_tx (entries s) p) seq b]> (entries s)) s))).

Definition linked_queue : list N := queue ++ map snd (filter (fun kv => fst kv = Some p) (mapBlocksUnlinked s)).

Lemma link_facts : CBlockIndex.nTx b <> 0 /\ CBlockIndex.nChainTx b = 0 /\ parent_linked (entries s) b /\ 0 < path_tx (entries s) p < 2 ^ 32.
Proof.
  destruct (inv_queue _ s I p) as (b' & Hb' & H1 & H2 & H3); [set_solver|]. simplify_eq. split_and!; try done.
  rewrite (path_tx_prev _ p b) by (done || apply (inv_base _ s I)).
  pose proof (entry_tx b (inv_entry _ s I p b Hp)). destruct (CBlockIndex.pprev b) as [r|]; [|lia].
  pose proof (path_tx_nonneg s _ r I). lia.
Qed.

Lemma link_unlinked_elem k x : (k, x) ∈ filter (fun kv => fst kv <> Some p) (mapBlocksUnlinked s) <->
  k <> Some p /\ (k, x) ∈ mapBlocksUnlinked s.
Proof. by rewrite list_elem_of_filter. Qed.

Lemma link_queue_elem x : x ∈ linked_queue <-> x ∈ queue \/ (Some p, x) ∈ mapBlocksUnlinked s.
Proof.
  unfold linked_queue. rewrite elem_of_app. change (map ?f ?l) with (f <$> l). rewrite list_elem_of_fmap.
  split; (intros [H|H]; [by left|right]).
  - destruct H as ([k y] & -> & [Hk Hin]%list_elem_of_filter). cbn in *. by subst k.
  - exists (Some p, x). split; [done|]. by apply list_elem_of_filter.
Qed.

Lemma not_linked_not_cand : p ∉ setBlockIndexCandidates s.
Proof.
  intros H. apply (inv_cands _ s I) in H as (b' & Hb' & Hl). simplify_eq. by destruct link_facts as (_ & ? & _).
Qed.

Let h' seq := <[p := link (path_tx (entries s) p) seq b]> (entries s).

Lemma link_parent_linked seq r br : entries s !! r = Some br -> CBlockIndex.pprev br <> Some p ->
  parent_linked (h' seq) br <-> parent_linked (entries s) br.
Proof.
  intros Hr Hne. unfold parent_linked. destruct (CBlockIndex.pprev br) as [x|]; [|done]. split.
  - apply linked_insert_inv. congruence.
  - apply (linked_insert _ p b); [done|]. destruct link_facts as (_ & H0 & _). by rewrite H0.
Qed.

Lemma link_path_tx seq x : path_tx (h' seq) x = path_tx (entries s) x.
Proof. apply path_tx_agree, (agree_insert _ _ p b); [done|]. by destruct b. Qed.

Lemma link_linked seq x : linked (entries s) x -> linked (h' seq) x.
Proof. apply (linked_insert _ p b); [done|]. by destruct link_facts as (_ & -> & _). Qed.

Lemma link_nodup : NoDup (linked_queue ++ map snd (filter (fun kv => fst kv <> Some p) (mapBlocksUnlinked s))).
Proof.
  pose proof (inv_nodup _ s I) as H. cbn in H. apply NoDup_cons in H as [_ H]. unfold linked_queue.
  rewrite <- app_assoc. eapply NoDup_Permutation_proper; [|exact H]. apply Permutation_app_head.
  generalize (mapBlocksUnlinked s). intros l. clear. induction l as [|[k x] l IH]; [done|].
  rewrite !filter_cons. cbn [fst]. destruct (decide (k = Some p)) as [E|E].
  - rewrite decide_False by (intros Hn; by apply Hn). cbn [map snd]. rewrite <- IH. done.
  - rewrite decide_True by done. cbn [map snd]. rewrite <- Permutation_middle. by rewrite IH.
Qed.

Lemma link_inv seq cands : set_ok (h' seq) cands -> (forall x, x ∈ cands -> x = p \/ x ∈ setBlockIndexCandidates s) ->
  index_inv linked_queue (linked_state seq cands).
Proof.
  intros Hs Hc. destruct link_facts as (Ht & H0 & Hpl & Hpt).
  assert (base_ok (set_entries (h' seq) s)) as B.
  { apply (base_ok_insert s p b); [apply (inv_base _ s I)|done|apply not_linked_not_cand|by destruct b|].
    apply (base_trust s (inv_base _ s I) p b Hp). }
  split; cbn [entries mapBlockIndex setBlockIndexCandidates mapBlocksUnlinked chainActive pindexBestHeader linked_state
    set_mapBlocksUnlinked set_setBlockIndexCandidates set_nBlockSequenceId set_entries]; fold (h' seq).
  - destruct B as [B1 B2 B3 B4 B5]. by split.
  - intros x bx Hx. unfold h' in Hx. apply lookup_insert_Some in Hx as [[<- <-]|[_ Hx]]; [|by apply (inv_entry _ s I x)].
    destruct (inv_entry _ s I p b Hp) as [E1 E2 E3 E4 E5 E6]. split; cbn; try done. intros E. lia.
  - intros hash x. rewrite (inv_map _ s I). unfold h'. destruct (decide (p = x)) as [<-|Hne].
    + rewrite lookup_insert_eq. split; intros (bx & Hx & E); [exists (link (path_tx (entries s) p) seq b)|exists b]; by simplify_eq.
    + by rewrite lookup_insert_ne.
  - intros x bx Hx Hl. rewrite link_path_tx. unfold h' in Hx. apply lookup_insert_Some in Hx as [[<- <-]|[Hne Hx]].
    + cbn. split_and!; [done| |done]. unfold parent_linked in *. cbn.
      destruct (CBlockIndex.pprev b); [by apply link_linked|done].
    + destruct (inv_linked _ s I x bx Hx Hl) as (H1 & H2 & H3). split_and!; [done| |done].
      unfold parent_linked in *. destruct (CBlockIndex.pprev bx); [by apply link_linked|done].
  - intros x bx Hx Hnt Hl. unfold h' in Hx. apply lookup_insert_Some in Hx as [[<- <-]|[Hne Hx]]; [cbn in Hl; lia|].
    rewrite link_unlinked_elem, link_queue_elem.
    destruct (inv_waiting _ s I x bx Hx Hnt Hl) as [H|H].
    + destruct (decide (CBlockIndex.pprev bx = Some p)) as [E|E]; [right; right; by rewrite <- E|by left].
    + right. left. apply elem_of_cons in H as [H|H]; [by subst|done].
  - intros k x [Hk Hin]%link_unlinked_elem. destruct (inv_unlinked _ s I k x Hin) as (bx & Hx & -> & H1 & H2 & H3).
    assert (x <> p) as Hne by (intros ->; simplify_eq; done).
    exists bx. unfold h' at 1. rewrite lookup_insert_ne by done. split_and!; [done..|]. by rewrite (link_parent_linked seq x bx).
  - intros x [Hin|Hin]%link_queue_elem.
    + destruct (inv_queue _ s I x) as (bx & Hx & H1 & H2 & H3); [set_solver|]. exists bx.
      assert (x <> p) as Hne.
      { intros ->. pose proof (inv_nodup _ s I) as H. cbn in H. apply NoDup_cons in H as [H _]. set_solver. }
      unfold h' at 1. rewrite lookup_insert_ne by done. split_and!; [done..|]. unfold parent_linked in *.
      destruct (CBlockIndex.pprev bx); [by apply link_linked|done].
    + destruct (inv_unlinked _ s I _ x Hin) as (bx & Hx & E & H1 & H2 & H3).
      assert (x <> p) as Hne by (intros ->; simplify_eq; done). exists bx. unfold h' at 1. rewrite lookup_insert_ne by done.
      split_and!; [done..|]. unfold parent_linked. rewrite <- E. exists (link (path_tx (entries s) p) seq b).
      unfold h'. rewrite lookup_insert_eq. split; [done|cbn; lia].
  - apply link_nodup.
  - intros x Hx. destruct (Hc x Hx) as [->|Hx']; [|by apply link_linked, (inv_cands _ s I)].
    exists (link (path_tx (entries s) p) seq b). unfold h'. rewrite lookup_insert_eq. split; [done|cbn; lia].
  - intros x Hx. destruct (inv_active _ s I x Hx) as [H1 (bx & Hbx & H2)]. split; [by apply link_linked|].
    assert (x <> p) as Hne by (intros ->; destruct H1 as (b' & Hb' & H1); by simplify_eq).
    exists bx. unfold h'. by rewrite lookup_insert_ne.
  - intros x Hx. apply alive_insert. by apply (inv_header _ s I).
Qed.

Lemma link_mark w seq cands : watermark w s -> (forall x, x ∈ setBlockIndexCandidates s -> x ∈ cands) ->
  ((forall t, Tip s = Some t -> ~ worse (h' seq) p t) -> p ∈ cands) -> watermark w (linked_state seq cands).
Proof.
  intros W Hc Hpc. destruct link_facts as (Ht & H0 & Hpl & Hpt).
  assert (forall x, linked (entries s) x -> x <> p) as Hne by (intros x (bx & Hx & Hl) ->; by simplify_eq).
  split; cbn [entries setBlockIndexCandidates linked_state set_mapBlocksUnlinked set_setBlockIndexCandidates
    set_nBlockSequenceId set_entries]; fold (h' seq).
  - intros x Hx. by apply link_linked, (mark_linked w s W).
  - pose proof (mark_tip w s W) as H. change (Tip (linked_state seq cands)) with (Tip s).
    destruct (Tip s) as [t|] eqn:Et, w as [x|]; try done. unfold h'. rewrite worse_insert_other; [done|..]; apply Hne.
    + by apply (mark_linked _ s W).
    + by apply (tip_linked _ s t I).
  - intros x Hx Hxc Hw. destruct (decide (x = p)) as [->|Hxp].
    + apply Hpc. intros t Et. pose proof (mark_tip w s W) as H. rewrite Et in H. destruct w as [y|]; [|done].
      apply (not_worse_trans _ p y t).
      * apply alive_insert. by exists b.
      * by apply alive_insert, linked_alive, (mark_linked _ s W).
      * by apply alive_insert, linked_alive, (tip_linked _ s t I).
      * by apply Hw.
      * unfold h'. rewrite worse_insert_other; [done|..]; apply Hne; [by apply (mark_linked _ s W)|by apply (tip_linked _ s t I)].
    + apply Hc, (mark_cands w s W).
      * by apply linked_insert_inv in Hx.
      * destruct Hxc as (bx & Hbx & Hf). unfold h' in Hbx. rewrite lookup_insert_ne in Hbx by done. by exists bx.
      * intros y Hy. specialize (Hw y Hy). unfold h' in Hw. rewrite worse_insert_other in Hw; [done|done|].
        by apply Hne, (mark_linked w s W).
Qed.
End link_step.

(** What linking keeps of an entry. *)
Definition unlinked_part (b : CBlockIndex.t) :=
  (CBlockIndex.phashBlock b, shape b, CBlockIndex.nChainTrust b, CBlockIndex.nTx b, CBlockIndex.nStatus b).

Lemma fits_agree h h' : agree unlinked_part h h' -> fits h -> fits h'.
Proof.
  intros E F p. rewrite (path_tx_agree h h'); [apply F|].
  apply (agree_weaken unlinked_part (fun x => (snd (fst (fst (fst x))), snd (fst x))) _ _ E).
Qed.

Lemma insert_candidate_ok s p : base_ok s -> alive (entries s) p ->
  exists l, insert_candidate p s = Ok (tt, set_setBlockIndexCandidates l s) /\ set_ok (entries s) l /\
    (forall x, x ∈ l <-> x = p \/ x ∈ setBlockIndexCandidates s).
Proof.
  intros B Hp. unfold insert_candidate. rewrite get_bind.
  destruct (set_insert_spec (entries s) (base_trust s B) p (setBlockIndexCandidates s)) as (l & E & H1 & H2); [apply B|done|].
  exists l. by rewrite (lift_bind l).
Qed.

Lemma worse_than_tip_ok s p t : base_ok s -> alive (entries s) p -> Tip s = Some t ->
  exists c, worse_than_tip p s = Ok (c, s) /\ (c = true <-> worse (entries s) p t).
Proof.
  intros B Hp Et. unfold worse_than_tip. rewrite get_bind, Et.
  destruct (value_comp_spec (entries s) (base_trust s B) p t) as (c & E & Hc); [done| |].
  { pose proof (Tip_path _ _ (base_tree s B) (base_chain s B)) as H. fold (Tip s) in H. rewrite Et in H. apply H. }
  exists c. split; [|done]. by rewrite E.
Qed.

Lemma link_loop_step fuel p queue s w : index_inv (p :: queue) s -> watermark w s -> fits (entries s) ->
  exists s', link_loop (S fuel) (p :: queue) s = link_loop fuel (linked_queue p queue s) s' /\
    index_inv (linked_queue p queue s) s' /\ watermark w s' /\ agree unlinked_part (entries s) (entries s') /\
    chainActive s' = chainActive s /\ mapBlockIndex s' = mapBlockIndex s /\
    (length (linked_queue p queue s) + length (mapBlocksUnlinked s') = length queue + length (mapBlocksUnlinked s))%nat.
Proof.
  intros I W F. destruct (inv_queue _ s I p) as (b & Hp & Ht & H0 & Hpl); [set_solver|].
  destruct (link_facts p queue s b I F Hp) as (_ & _ & _ & Hpt).
  destruct (prev_ChainTx_ok s _ p b I Hp Hpl) as (t & Et & Hsum).
  set (h' := <[p := link (path_tx (entries s) p) (nBlockSequenceId s) b]> (entries s)).
  set (s1 := set_nBlockSequenceId (i32 (nBlockSequenceId s + 1)) (set_entries h' s)).
  assert (base_ok (set_entries h' s)) as B0.
  { apply (base_ok_insert s p b); [apply (inv_base _ s I)|done|by apply (not_linked_not_cand p queue s b)|by destruct b|].
    apply (base_trust s (inv_base _ s I) p b Hp). }
  assert (base_ok s1) as B by (destruct B0; by split).
  assert (alive (entries s1) p) as Hal by (exists (link (path_tx (entries s) p) (nBlockSequenceId s) b); by apply lookup_insert_eq).
  assert (exists worse_ cands,
    match Tip s1 with None => mret false | Some _ => worse_than_tip p end s1 = Ok (worse_, s1) /\
    (if (worse_ : bool) then mret tt else insert_candidate p) s1 = Ok (tt, set_setBlockIndexCandidates cands s1) /\
    set_ok h' cands /\ (forall x, x ∈ cands -> x = p \/ x ∈ setBlockIndexCandidates s) /\
    (forall x, x ∈ setBlockIndexCandidates s -> x ∈ cands) /\
    ((forall t, Tip s = Some t -> ~ worse h' p t) -> p ∈ cands)) as (wr & cands & E1 & E2 & C1 & C2 & C3 & C4).
  { destruct (insert_candidate_ok s1 p B Hal) as (l & El & Hl1 & Hl2).
    destruct (Tip s1) as [tip|] eqn:Etip.
    - destruct (worse_than_tip_ok s1 p tip B Hal Etip) as (c & Ec & Hc). destruct c.
      + exists true, (setBlockIndexCandidates s). split_and!; [done|by destruct s|apply B|by right|done|].
        intros H. destruct (H tip); [done|]. by apply Hc.
      + exists false, l. split_and!; [done|done|done| | |]; intros; by apply Hl2; auto.
    - exists false, l. split_and!; [done|done|done| | |]; intros; by apply Hl2; auto. }
  exists (linked_state p s b (nBlockSequenceId s) cands). split_and!.
  - cbn [link_loop]. rewrite (load_bind p b), (bind_ok _ _ _ _ _ Et), (update_bind p b) by done.
    replace (u32 (t + CBlockIndex.nTx b)) with (path_tx (entries s) p) by (unfold uwrap; rewrite Z.mod_small; lia).
    rewrite get_bind, (update_bind p (Entry.set_nChainTx (path_tx (entries s) p) b)) by (cbn; by rewrite lookup_insert_eq).
    rewrite modify_bind, get_bind. cbn [entries set_entries nBlockSequenceId]. rewrite insert_insert_eq.
    change (set_nBlockSequenceId _ _) with s1. rewrite (bind_ok _ _ _ _ _ E1), (bind_ok _ _ _ _ _ E2).
    unfold take_unlinked. done.
  - by apply link_inv.
  - by apply (link_mark p queue).
  - apply (agree_insert _ _ p b); [done|by destruct b].
  - done.
  - done.
  - cbn. unfold linked_queue. rewrite length_app, length_map.
    generalize (mapBlocksUnlinked s). clear. intros l. induction l as [|[k x] l IH]; [done|].
    rewrite !filter_cons. cbn [fst]. destruct (decide (k = Some p)) as [E|E].
    + rewrite decide_False by (intros Hn; by apply Hn). cbn [length]. lia.
    + rewrite decide_True by done. cbn [length]. lia.
Qed.

Lemma link_loop_spec fuel queue s w : index_inv queue s -> watermark w s -> fits (entries s) ->
  (length queue + length (mapBlocksUnlinked s) <= fuel)%nat ->
  exists s', link_loop fuel queue s = Ok (tt, s') /\ index_ok s' /\ watermark w s' /\
    agree unlinked_part (entries s) (entries s') /\ chainActive s' = chainActive s /\ mapBlockIndex s' = mapBlockIndex s.
Proof.
  revert queue s. induction fuel as [|fuel IH]; intros [|p queue] s I W F Hf; try (exists s; split_and!; done).
  - cbn in Hf. lia.
  - destruct (link_loop_step fuel p queue s w I W F) as (s1 & -> & I1 & W1 & A1 & C1 & M1 & L1).
    destruct (IH (linked_queue p queue s) s1 I1 W1) as (s2 & -> & I2 & W2 & A2 & C2 & M2).
    + by apply (fits_agree (entries s)).
    + cbn [length] in Hf. lia.
    + exists s2. split_and!; [done|done|done|by transitivity (entries s1)|congruence|congruence].
Qed.

(** The parts of the state the invariant is about. *)
Definition index_part (s : state) :=
  (entries s, mapBlockIndex s, setBlockIndexCandidates s, mapBlocksUnlinked s, chainActive s, pindexBestInvalid s, pindexBestHeader s).

Lemma index_inv_same q s s' : index_part s' = index_part s -> index_inv q s -> index_inv q s'.
Proof.
  destruct s, s'. unfold index_part. cbn. intros E [B1 B2 B3 B4 B5 B6 B7 B8 B9 B10 B11]. simplify_eq.
  split; try done. destruct B1 as [C1 C2 C3 C4 C5]. by split.
Qed.

Lemma watermark_same w s s' : index_part s' = index_part s -> watermark w s -> watermark w s'.
Proof. destruct s, s'. unfold index_part. cbn. intros E [B1 B2 B3]. simplify_eq. by split. Qed.

(** ** The transactions of a block arrive *)

Section receive.
Context (s : state) (w : option N) (p : N) (b b' : CBlockIndex.t).
Context (I : index_ok s) (Hp : entries s !! p = Some b) (Hnew : CBlockIndex.nTx b = 0).
Context (Hok : entry_ok b') (Htx : CBlockIndex.nTx b' <> 0) (H0 : CBlockIndex.nChainTx b' = 0)
  (Hhash : CBlockIndex.phashBlock b' = CBlockIndex.phashBlock b) (Hsh : shape b' = shape b) (Hkey : key b' = key b).
#[local] Abbreviation h' := (<[p := b']> (entries s)).

Lemma receive_unlinked : CBlockIndex.nChainTx b = 0.
Proof.
  destruct (decide (CBlockIndex.nChainTx b = 0)) as [|Hn]; [done|]. by destruct (inv_linked _ s I p b Hp Hn).
Qed.

Lemma receive_other x : linked (entries s) x -> x <> p.
Proof. intros (bx & Hx & Hl) E. pose proof receive_unlinked. rewrite E, Hp in Hx. congruence. Qed.

Lemma receive_linked x : linked h' x <-> linked (entries s) x.
Proof.
  split; intros (bx & Hx & Hl).
  - apply lookup_insert_Some in Hx as [[<- <-]|[_ Hx]]; [done|by exists bx].
  - exists bx. rewrite lookup_insert_ne; [done|]. apply not_eq_sym, receive_other. by exists bx.
Qed.

Lemma receive_parent bx : parent_linked h' bx <-> parent_linked (entries s) bx.
Proof. unfold parent_linked. destruct (CBlockIndex.pprev bx); [apply receive_linked|done]. Qed.

Lemma receive_tree : tree_ok h'.
Proof. apply (tree_ok_agree (entries s)); [by apply (agree_insert _ _ p b)|apply (inv_base _ s I)]. Qed.

Lemma receive_path_tx x : linked (entries s) x -> path_tx h' x = path_tx (entries s) x.
Proof.
  intros (bx & Hx & Hl). remember (Z.to_nat (CBlockIndex.nHeight bx)) as n eqn:En. revert x bx Hx Hl En.
  assert (tree_ok (entries s)) as T by apply (inv_base _ s I).
  induction n as [n IH] using lt_wf_ind. intros x bx Hx Hl ->.
  assert (x <> p) as Hne by (apply receive_other; by exists bx).
  rewrite (path_tx_prev h' x bx), (path_tx_prev (entries s) x bx); [|done|done|apply receive_tree|by rewrite lookup_insert_ne].
  destruct (inv_linked _ s I x bx Hx Hl) as (_ & Hpl & _). unfold parent_linked in Hpl.
  destruct (T x bx Hx) as [Hh Hprev _]. destruct (CBlockIndex.pprev bx) as [q|]; [|done].
  destruct Hpl as (bq & Hq & Hlq). destruct Hprev as (bq' & Hq' & Hhq). simplify_eq.
  assert (0 <= CBlockIndex.nHeight bq) by by apply (T q bq).
  rewrite (IH (Z.to_nat (CBlockIndex.nHeight bq))) with (bx := bq); [done|lia|done..].
Qed.

Lemma receive_cand : p ∉ setBlockIndexCandidates s.
Proof. intros H. by apply (inv_cands _ s I), receive_other in H. Qed.

(** The invariant with the new block in the queue, or waiting for an ancestor. *)
Lemma receive_inv q unlinked :
  (parent_linked (entries s) b /\ q = [p] /\ unlinked = mapBlocksUnlinked s \/
   ~ parent_linked (entries s) b /\ q = [] /\ unlinked = mapBlocksUnlinked s ++ [(CBlockIndex.pprev b, p)]) ->
  index_inv q (set_mapBlocksUnlinked unlinked (set_entries h' s)).
Proof.
  intros Hcase. assert (CBlockIndex.pprev b' = CBlockIndex.pprev b) as Epp by (unfold shape in Hsh; congruence).
  assert (parent_linked h' b' <-> parent_linked (entries s) b) as Epl.
  { rewrite receive_parent. unfold parent_linked. by rewrite Epp. }
  assert (forall k x, (k, x) ∈ mapBlocksUnlinked s -> x <> p) as Hnu.
  { intros k x Hin ->. destruct (inv_unlinked _ s I k p Hin) as (b0 & Hb0 & _ & Hn & _). by simplify_eq. }
  assert (base_ok (set_entries h' s)) as B.
  { apply (base_ok_insert s p b); [apply (inv_base _ s I)|done|apply receive_cand|done|].
    unfold key in Hkey. replace (CBlockIndex.nChainTrust b') with (CBlockIndex.nChainTrust b) by congruence.
    by apply (base_trust s (inv_base _ s I) p b). }
  split; cbn [entries mapBlockIndex setBlockIndexCandidates mapBlocksUnlinked chainActive pindexBestHeader
    set_mapBlocksUnlinked set_entries].
  - destruct B. by split.
  - intros x bx Hx. apply lookup_insert_Some in Hx as [[<- <-]|[_ Hx]]; [done|by apply (inv_entry _ s I x)].
  - intros hash x. rewrite (inv_map _ s I). destruct (decide (p = x)) as [<-|Hne].
    + rewrite lookup_insert_eq. split; intros (bx & Hx & E); [exists b'|exists b]; simplify_eq; by rewrite ?Hhash in *.
    + by rewrite lookup_insert_ne.
  - intros x bx Hx Hl. apply lookup_insert_Some in Hx as [[<- <-]|[Hne Hx]]; [done|].
    destruct (inv_linked _ s I x bx Hx Hl) as (H1 & H2 & H3). split_and!; [done|by apply receive_parent|].
    rewrite receive_path_tx; [done|by exists bx].
  - intros x bx Hx Hnt Hl. apply lookup_insert_Some in Hx as [[<- <-]|[Hne Hx]].
    + destruct Hcase as [(_ & -> & ->)|(_ & -> & ->)]; [right|left; rewrite Epp]; set_solver.
    + destruct (inv_waiting _ s I x bx Hx Hnt Hl) as [H|H]; [left|by apply not_elem_of_nil in H].
      destruct Hcase as [(_ & -> & ->)|(_ & -> & ->)]; set_solver.
  - intros k x Hin. assert ((k, x) ∈ mapBlocksUnlinked s \/ (~ parent_linked (entries s) b /\ k = CBlockIndex.pprev b /\ x = p)) as [H|(Hn & -> & ->)].
    { destruct Hcase as [(_ & _ & ->)|(Hn & _ & ->)]; [by left|]. apply elem_of_app in Hin as [H|[= -> ->]%list_elem_of_singleton]; auto. }
    + destruct (inv_unlinked _ s I k x H) as (bx & Hx & -> & H1 & H2 & H3). exists bx.
      rewrite lookup_insert_ne by (intros <-; by apply (Hnu _ _ H)). split_and!; try done. by rewrite receive_parent.
    + exists b'. rewrite lookup_insert_eq. split_and!; try done. by rewrite Epl.
  - intros x Hx. destruct Hcase as [(Hpl & -> & _)|(_ & -> & _)]; [|by apply not_elem_of_nil in Hx].
    apply list_elem_of_singleton in Hx as ->. exists b'. rewrite lookup_insert_eq. split_and!; try done. by apply Epl.
  - assert (p ∉ map snd (mapBlocksUnlinked s)) as Hni.
    { change (map ?f ?l) with (f <$> l). intros ([k x] & -> & Hin)%list_elem_of_fmap. by apply (Hnu k x Hin). }
    pose proof (inv_nodup _ s I) as Hnd. cbn in Hnd. destruct Hcase as [(_ & -> & ->)|(_ & -> & ->)]; cbn.
    + by constructor.
    + rewrite map_app. cbn. apply NoDup_app. split_and!; [done|set_solver|apply NoDup_singleton].
  - intros x Hx. by apply receive_linked, (inv_cands _ s I).
  - intros x Hx. destruct (inv_active _ s I x Hx) as [H1 (bx & Hbx & H2)]. split; [by apply receive_linked|].
    assert (x <> p) as Hne by by apply receive_other.
    exists bx. by rewrite lookup_insert_ne.
  - intros x Hx. by apply alive_insert, (inv_header _ s I).
Qed.

Lemma receive_mark unlinked : watermark w s -> watermark w (set_mapBlocksUnlinked unlinked (set_entries h' s)).
Proof.
  intros W. assert (forall x y, worse h' x y <-> worse (entries s) x y) as Ew.
  { assert (agree key (entries s) h') as A by by apply (agree_insert _ _ p b).
    intros x y. split; apply worse_agree; [|done]. intros q. by rewrite A. }
  split; cbn [entries setBlockIndexCandidates set_mapBlocksUnlinked set_entries].
  - intros x Hx. by apply receive_linked, (mark_linked w s W).
  - pose proof (mark_tip w s W) as H. change (Tip (set_mapBlocksUnlinked unlinked (set_entries h' s))) with (Tip s).
    destruct (Tip s), w; try done. by rewrite Ew.
  - intros x Hx (bx & Hbx & Hf) Hw. apply receive_linked in Hx. apply (mark_cands w s W); [done| |].
    + exists bx. split; [|done]. rewrite lookup_insert_ne in Hbx; [done|].
      by apply not_eq_sym, receive_other.
    + intros y Hy. rewrite <- Ew. by apply Hw.
Qed.
End receive.

Lemma prev_alive h p b q : tree_ok h -> h !! p = Some b -> CBlockIndex.pprev b = Some q ->
  q <> p /\ exists bq, h !! q = Some bq.
Proof.
  intros Hok Hp Hq. destruct (Hok p b Hp) as [_ H _]. rewrite Hq in H. destruct H as (bq & H & Hh). split; [|by exists bq].
  intros ->. simplify_eq. lia.
Qed.

Lemma v7_enabled_ok params h p b : tree_ok h -> h !! p = Some b -> exists v, v7_enabled params h (CBlockIndex.pprev b) = Ok v.
Proof.
  intros Hok Hp. unfold v7_enabled, IsV7Enabled, heap_call, deref. destruct (CBlockIndex.pprev b) as [q|] eqn:Eq; [|by eexists].
  destruct (prev_alive h p b q Hok Hp Eq) as [_ [bq ->]]. by eexists.
Qed.

Lemma insert_auxpow_part (c : bool) hash a s :
  exists s', (if c then insert_auxpow hash a else mret tt) s = Ok (tt, s') /\ index_part s' = index_part s.
Proof. destruct c; [|by exists s]. unfold insert_auxpow, modify. eexists. split; [done|]. by destruct (mapDirtyAuxPow s !! hash). Qed.

Lemma received_entry v7 n pos s p b : index_ok s -> entries s !! p = Some b -> CBlockIndex.nTx b = 0 ->
  Entry.failed b = false -> 0 < n < 2 ^ 32 ->
  exists b', received v7 n pos b = Some b' /\ entry_ok b' /\ CBlockIndex.nTx b' = n /\ CBlockIndex.nChainTx b' = 0 /\
    Entry.failed b' = false /\ CBlockIndex.phashBlock b' = CBlockIndex.phashBlock b /\ shape b' = shape b /\ key b' = key b.
Proof.
  intros I Hp Hnew Hf Hn. pose proof (inv_entry _ s I p b Hp) as [E1 E2 E3 E4 E5 E6].
  destruct (received_spec v7 n pos b) as (b' & Er & R1 & R2 & R3 & R4 & R5 & R6 & R7 & R8 & R9); [done|done|lia|].
  assert (CBlockIndex.nSequenceId b' = CBlockIndex.nSequenceId b) as Eseq by (unfold key in R9; congruence).
  exists b'. split_and!; try done. split; rewrite ?R5, ?R4, ?R7, ?Eseq; try done; [lia|split; [lia|done]|split; [lia|split; lia]|].
  intros _. apply E5. by apply (receive_unlinked s p b I).
Qed.

(** The test whether all parents are there. *)
Lemma parent_test s s2 p b b' : tree_ok (entries s) -> entries s !! p = Some b -> entries s2 = <[p := b']> (entries s) ->
  exists l, match CBlockIndex.pprev b with None => mret true | Some q => bq ← load q; mret (negb (CBlockIndex.nChainTx bq =? 0)) end s2
    = Ok (l, s2) /\ (l = true <-> parent_linked (entries s) b).
Proof.
  intros T Hp Een. unfold parent_linked. destruct (CBlockIndex.pprev b) as [q|] eqn:Eq; [|by exists true].
  destruct (prev_alive _ p b q T Hp Eq) as [Hqp [bq Hq]].
  rewrite (load_bind q bq) by (by rewrite Een, lookup_insert_ne). eexists. split; [done|].
  rewrite negb_true_iff, Z.eqb_neq. split; [by exists bq|]. intros (bq' & ? & ?). by simplify_eq.
Qed.

(** What the arrival of a block keeps of the entries. *)
Definition kept (b : CBlockIndex.t) := (CBlockIndex.phashBlock b, shape b, CBlockIndex.nChainTrust b, Entry.failed b).

Record received_block (p : N) (n : Z) (s s' : state) : Prop := {
  recv_chain : chainActive s' = chainActive s;
  recv_map : mapBlockIndex s' = mapBlockIndex s;
  recv_kept : agree kept (entries s) (entries s');
  recv_tx : CBlockIndex.nTx <$> entries s' !! p = Some n;
  recv_other : forall x, x <> p -> CBlockIndex.nTx <$> entries s' !! x = CBlockIndex.nTx <$> entries s !! x;
}.

Lemma received_block_intro p s b b' s2 s' : entries s !! p = Some b -> entries s2 = <[p := b']> (entries s) ->
  kept b' = kept b -> agree unlinked_part (entries s2) (entries s') -> chainActive s' = chainActive s ->
  mapBlockIndex s' = mapBlockIndex s -> received_block p (CBlockIndex.nTx b') s s'.
Proof.
  intros Hp Een Ek A C M. rewrite Een in A. split; try done.
  - transitivity (<[p := b']> (entries s)); [by apply (agree_insert _ _ p b)|].
    apply (agree_weaken unlinked_part (fun x => (fst (fst (fst x)), snd (fst (fst x)), flag_set (snd x) CBlockIndex.BLOCK_FAILED_MASK)) _ _ A).
  - specialize (A p). rewrite lookup_insert_eq in A. unfold unlinked_part in A.
    destruct (entries s' !! p); cbn in *; congruence.
  - intros x Hx. specialize (A x). rewrite lookup_insert_ne in A by done.
    unfold unlinked_part in A. destruct (entries s' !! x), (entries s !! x); cbn in *; congruence.
Qed.

Lemma link_block_spec p b b' s s2 w : index_ok s -> watermark w s -> entries s !! p = Some b -> CBlockIndex.nTx b = 0 ->
  (forall q, CBlockIndex.pprev b = Some q -> clear (entries s) q) -> entry_ok b' -> CBlockIndex.nTx b' <> 0 ->
  CBlockIndex.nChainTx b' = 0 -> CBlockIndex.phashBlock b' = CBlockIndex.phashBlock b -> shape b' = shape b -> key b' = key b ->
  index_part s2 = index_part (set_entries (<[p := b']> (entries s)) s) -> fits (entries s2) ->
  exists s', link_block p b' s2 = Ok (tt, s') /\ index_ok s' /\ watermark w s' /\
    agree unlinked_part (entries s2) (entries s') /\ chainActive s' = chainActive s /\ mapBlockIndex s' = mapBlockIndex s.
Proof.
  intros I W Hp Hnew Hpar Eok R5 R6 R7 R8 R9 Ep2 F2.
  assert (tree_ok (entries s)) as T by apply (inv_base _ s I).
  assert (CBlockIndex.pprev b' = CBlockIndex.pprev b) as Epp by (unfold shape in R8; congruence).
  assert (entries s2 = <[p := b']> (entries s) /\ mapBlocksUnlinked s2 = mapBlocksUnlinked s /\
    chainActive s2 = chainActive s /\ mapBlockIndex s2 = mapBlockIndex s) as (Een & Eun & Ech & Emp)
    by (unfold index_part in Ep2; cbn in Ep2; split_and!; congruence).
  destruct (parent_test s s2 p b b' T Hp Een) as (l & El & Hl).
  unfold link_block. rewrite Epp, (bind_ok _ _ _ _ _ El). destruct l.
  - assert (index_part s2 = index_part (set_mapBlocksUnlinked (mapBlocksUnlinked s) (set_entries (<[p := b']> (entries s)) s))) as Ep by done.
    destruct (link_loop_spec (S (length (mapBlocksUnlinked s2))) [p] s2 w) as (s3 & E3 & I3 & W3 & A3 & C3 & M3).
    + apply (index_inv_same _ _ _ Ep), (receive_inv s p b b'); try done. left. split_and!; [by apply Hl|done..].
    + by apply (watermark_same _ _ _ Ep), (receive_mark s w p b b').
    + done.
    + cbn. lia.
    + exists s3. rewrite get_bind. split_and!; [done..|congruence|congruence].
  - assert (~ parent_linked (entries s) b) as Hpl by (intros H; by apply Hl in H).
    destruct (CBlockIndex.pprev b) as [q|] eqn:Eq; [|by destruct Hpl; unfold parent_linked; rewrite Eq].
    destruct (Hpar q eq_refl) as (bq & Hq & Hqf). destruct (prev_alive _ p b q T Hp Eq) as [Hqp _].
    rewrite (load_bind q bq) by (by rewrite Een, lookup_insert_ne).
    rewrite (IsValid_spec _ bq) by done. unfold Entry.failed in Hqf. rewrite Hqf. cbn [negb andb].
    destruct (entry_level bq (inv_entry _ s I q bq Hq)) as [Hlv _]. unfold level in Hlv.
    change CBlockIndex.BLOCK_VALID_MASK with (2 ^ 3 - 1) in Hlv. rewrite land_mask in Hlv by lia.
    rewrite (proj2 (Z.leb_le CBlockIndex.BLOCK_VALID_TREE _) Hlv).
    set (s3 := set_mapBlocksUnlinked (mapBlocksUnlinked s2 ++ [(Some q, p)]) s2).
    assert (index_part s3 = index_part (set_mapBlocksUnlinked (mapBlocksUnlinked s ++ [(CBlockIndex.pprev b, p)])
      (set_entries (<[p := b']> (entries s)) s))) as Ep3.
    { unfold index_part in *. cbn in *. rewrite Eun, Eq. congruence. }
    exists s3. split_and!; try done.
    + apply (index_inv_same _ _ _ Ep3), (receive_inv s p b b'); try done. by right.
    + by apply (watermark_same _ _ _ Ep3), (receive_mark s w p b b').
Qed.

Lemma ReceivedBlockTransactions_spec be Hash params block p pos s w b :
  index_ok s -> watermark w s -> entries s !! p = Some b -> CBlockIndex.nTx b = 0 -> Entry.failed b = false ->
  (forall q, CBlockIndex.pprev b = Some q -> clear (entries s) q) ->
  0 < Z.of_nat (length (vtx block)) < 2 ^ 32 ->
  fits (<[p := Entry.set_data (Z.of_nat (length (vtx block))) 0 0 0 0 b]> (entries s)) ->
  exists s', ReceivedBlockTransactions be Hash params block p pos s = Ok (true, s') /\ index_ok s' /\ watermark w s' /\
    received_block p (Z.of_nat (length (vtx block))) s s'.
Proof.
  intros I W Hp Hnew Hf Hpar Hn F.
  destruct (v7_enabled_ok params (entries s) p b (base_tree s (inv_base _ s I)) Hp) as [v7 Ev].
  destruct (received_entry v7 (Z.of_nat (length (vtx block))) pos s p b I Hp Hnew Hf Hn)
    as (b' & Er & Eok & R5 & R6 & R3 & R7 & R8 & R9).
  unfold ReceivedBlockTransactions. rewrite (load_bind p b), get_bind, (lift_bind v7), Er, ret_bind by done.
  erewrite (bind_ok (store p b')); [|done]. erewrite (bind_ok (mark_dirty p)); [|done].
  match goal with |- context [mbind _ (if is_auxpow ?v then insert_auxpow ?k ?a else _) ?s1] =>
    destruct (insert_auxpow_part (is_auxpow v) k a s1) as (s2 & E2 & Ep2) end.
  rewrite (bind_ok _ _ _ _ _ E2).
  assert (index_part s2 = index_part (set_entries (<[p := b']> (entries s)) s)) as Ep by by rewrite Ep2.
  assert (entries s2 = <[p := b']> (entries s)) as Een by (unfold index_part in Ep; cbn in Ep; congruence).
  destruct (link_block_spec p b b' s s2 w) as (s3 & E3 & I3 & W3 & A3 & C3 & M3); try done.
  - lia.
  - rewrite Een. intros x. erewrite path_tx_agree; [apply F|]. intros q. destruct (decide (p = q)) as [<-|].
    + rewrite !lookup_insert_eq. cbn. by rewrite R5, R8.
    + by rewrite !lookup_insert_ne.
  - rewrite (bind_ok _ _ _ _ _ E3). exists s3. split_and!; try done. rewrite <- R5.
    apply (received_block_intro p s b b' s2); try done. unfold kept, key in *. rewrite R7, R8, R3, Hf. congruence.
Qed.

(** ** Marking blocks *)

Lemma failure_status h h' : agree but_failure h h' -> agree but_status h h'.
Proof. apply (agree_weaken but_failure (fun x => fst (fst x))). Qed.

(** What is kept when only the status changes. *)
Section status.
Context (h h' : heap) (A : agree but_status h h').

Lemma status_shape : agree shape h h'.
Proof. apply (agree_weaken but_status (fun x => snd (fst (fst (fst x)))) _ _ A). Qed.
Lemma status_key : agree key h h'.
Proof. apply (agree_weaken but_status (fun x => snd (fst (fst x))) _ _ A). Qed.

Lemma status_linked x : linked h' x <-> linked h x.
Proof.
  split; intros (b & Hb & Hl);
    [destruct (agree_lookup_back _ _ _ _ _ A Hb) as (b' & Hb' & E)|destruct (agree_lookup _ _ _ _ _ A Hb) as (b' & Hb' & E)];
    exists b'; (split; [done|]); unfold but_status in E; congruence.
Qed.

Lemma status_path_tx x : path_tx h' x = path_tx h x.
Proof. apply path_tx_agree. apply (agree_weaken but_status (fun x => (snd (fst (fst (fst x))), snd (fst x))) _ _ A). Qed.

Lemma status_worse x y : worse h' x y <-> worse h x y.
Proof. pose proof status_key as K. split; apply worse_agree; [|done]. intros q. by rewrite K. Qed.
End status.

Lemma status_base s h' : agree but_status (entries s) h' -> base_ok s -> base_ok (set_entries h' s).
Proof.
  intros A [B1 B2 B3 B4 B5]. pose proof (status_key _ _ A) as K. pose proof (status_shape _ _ A) as Sh. split; cbn.
  - by apply (tree_ok_agree (entries s)).
  - by apply (trusts_ok_agree (entries s)).
  - by apply (set_ok_agree (entries s)).
  - by apply (chain_ok_agree (entries s)).
  - intros q Hq. apply (agree_alive key (entries s)); [done|by apply B5].
Qed.

(** The invariant survives other marks, if the active chain has none. *)
Lemma status_inv s h' : agree but_status (entries s) h' -> index_ok s ->
  (forall x b', h' !! x = Some b' -> entry_ok b') ->
  (forall x, on_chain (chainActive s) x -> clear h' x) -> index_ok (set_entries h' s).
Proof.
  intros A I Hst Hclear. assert (forall b b', but_status b' = but_status b -> parent_linked h' b' <-> parent_linked (entries s) b) as Epl.
  { intros b b' E. unfold parent_linked. unfold but_status, shape in E. replace (CBlockIndex.pprev b') with (CBlockIndex.pprev b) by congruence.
    destruct (CBlockIndex.pprev b); [by apply status_linked|done]. }
  split; cbn.
  - apply status_base; [done|apply (inv_base _ s I)].
  - done.
  - intros hash x. rewrite (inv_map _ s I). split; intros (b & Hb & E);
      [destruct (agree_lookup _ _ _ _ _ A Hb) as (b' & Hb' & E')|destruct (agree_lookup_back _ _ _ _ _ A Hb) as (b' & Hb' & E')];
      exists b'; (split; [done|]); unfold but_status in E'; congruence.
  - intros x b' Hx Hl. destruct (agree_lookup_back _ _ _ _ _ A Hx) as (b & Hb & E).
    rewrite (status_path_tx _ _ A), (Epl b b' E). unfold but_status in E.
    replace (CBlockIndex.nChainTx b') with (CBlockIndex.nChainTx b) in * by congruence.
    replace (CBlockIndex.nTx b') with (CBlockIndex.nTx b) by congruence. by apply (inv_linked _ s I).
  - intros x b' Hx Ht Hl. destruct (agree_lookup_back _ _ _ _ _ A Hx) as (b & Hb & E). unfold but_status, shape in E.
    replace (CBlockIndex.pprev b') with (CBlockIndex.pprev b) by congruence.
    apply (inv_waiting _ s I x b); congruence.
  - intros k x Hin. destruct (inv_unlinked _ s I k x Hin) as (b & Hb & -> & H1 & H2 & H3).
    destruct (agree_lookup _ _ _ _ _ A Hb) as (b' & Hb' & E). exists b'. rewrite (Epl b b' E). unfold but_status, shape in E.
    split_and!; [done|congruence|congruence|congruence|done].
  - intros x Hx. by apply not_elem_of_nil in Hx.
  - apply (inv_nodup _ s I).
  - intros x Hx. by apply (status_linked (entries s)), (inv_cands _ s I).
  - intros x Hx. split; [|by apply Hclear]. by apply (status_linked (entries s)), (inv_active _ s I).
  - intros x Hx. apply (agree_alive but_status (entries s)); [done|by apply (inv_header _ s I)].
Qed.

Lemma failure_entry_ok b b' : but_failure b' = but_failure b -> is_u 32 (CBlockIndex.nStatus b') -> entry_ok b -> entry_ok b'.
Proof.
  intros E Hs [E1 E2 E3 E4 E5 E6]. unfold but_failure, key in E. fold (level b) (level b') in E.
  assert (CBlockIndex.phashBlock b' = CBlockIndex.phashBlock b /\ CBlockIndex.nSequenceId b' = CBlockIndex.nSequenceId b /\
    CBlockIndex.nTx b' = CBlockIndex.nTx b /\ CBlockIndex.nChainTx b' = CBlockIndex.nChainTx b /\
    Entry.have_data b' = Entry.have_data b /\ level b' = level b) as (F1 & F2 & F3 & F4 & F5 & F6) by (split_and!; congruence).
  split; rewrite ?F1, ?F2, ?F3, ?F4, ?F5, ?F6; done.
Qed.

(** Other candidates, and another worst block. *)
Lemma cands_inv s l bi : index_ok s -> set_ok (entries s) l -> (forall x, x ∈ l -> linked (entries s) x) ->
  (forall q, bi = Some q -> alive (entries s) q) ->
  index_ok (set_setBlockIndexCandidates l (set_pindexBestInvalid bi s)).
Proof.
  intros [B1 B2 B3 B4 B5 B6 B7 B8 B9 B10 B11] Hs Hl Hb. split; try done. destruct B1 as [C1 C2 C3 C4 C5]. by split.
Qed.

(** No candidate misses data. *)
Lemma linked_no_missing s x : index_ok s -> linked (entries s) x -> ~ met no_data s x.
Proof.
  intros I Hl (a & b & Ha & _ & Hb & Hn). destruct (linked_ancestors s _ x a I Hl Ha) as (b' & Hb' & Hl'). simplify_eq.
  unfold no_data in Hn. by rewrite (linked_data s _ a b I) in Hn.
Qed.

Lemma discarded_inv s s' : index_ok s -> discarded s s' -> index_ok s'.
Proof.
  intros I D. pose proof (failure_status _ _ (discarded_agree s s' D)) as A. pose proof (inv_base _ s I) as B.
  assert (index_ok (set_entries (entries s') s)) as I1.
  { apply status_inv; [done|done| |].
    - intros x b' Hx. destruct (disc_entries s s' D x) as [E|(b & E1 & E2 & _)].
      + rewrite E in Hx. by apply (inv_entry _ s I x).
      + assert (b' = mark_child b) as -> by congruence. pose proof (inv_entry _ s I x b E1) as Eb.
        apply (failure_entry_ok b); [by apply add_failed_kept| |done]. apply is_u_lor; [done|apply Eb|done].
    - intros x Hx. destruct (disc_entries s s' D x) as [E|(b & E1 & E2 & a & ba & Ha & Hna & _)].
      + destruct (inv_active _ s I x Hx) as [_ (b & Hb & Hf)]. exists b. by rewrite E.
      + destruct Hna. by apply (on_chain_ancestor _ (base_tree s B) _ a x b); [apply B|..]. }
  assert (mapBlocksUnlinked s' = mapBlocksUnlinked s) as Eu.
  { destruct (disc_unlinked s s' D) as (l & E & Hl). destruct l as [|[k q] l]; [by rewrite app_nil_r in E|].
    destruct (Hl k q) as (M & b & Hb & _ & Hlk); [set_solver|]. destruct (linked_no_missing s q I); [by exists b|done]. }
  pose proof (cands_inv _ (setBlockIndexCandidates s') (pindexBestInvalid s') I1) as H.
  rewrite (disc_frame s s' D). eapply index_inv_same; [|apply H].
  - unfold index_part. cbn. by rewrite Eu.
  - apply (disc_base s s' D).
  - intros x Hx. apply (status_linked (entries s)), (inv_cands _ s I); [done|].
    by apply (elem_of_sublist _ _ x Hx (disc_cands s s' D)).
  - apply (disc_base s s' D).
Qed.

Lemma discarded_mark s s' w : index_ok s -> discarded s s' -> watermark w s -> watermark w s'.
Proof.
  intros I D [W1 W2 W3]. pose proof (failure_status _ _ (discarded_agree s s' D)) as A. split.
  - intros x Hx. by apply (status_linked (entries s)), W1.
  - unfold Tip in *. rewrite (discarded_chain s s' D). destruct (CChain.Tip (chainActive s)), w; try done.
    by rewrite (status_worse (entries s)).
  - intros x Hx (b' & Hb' & Hf) Hw. apply (status_linked _ _ A) in Hx.
    destruct (decide (x ∈ setBlockIndexCandidates s')) as [|Hn]; [done|].
    assert (x ∈ setBlockIndexCandidates s) as Hin.
    { apply W3; [done| |intros y Hy; rewrite <- (status_worse _ _ A); by apply Hw].
      destruct (disc_entries s s' D x) as [E|(b & E1 & E2 & _)]; [exists b'; by rewrite <- E|].
      assert (b' = mark_child b) as -> by congruence. by rewrite mark_child_failed in Hf. }
    destruct (disc_marked s s' D x Hin Hn) as [(b & Hb & Hfb)|M]; [congruence|]. by destruct (linked_no_missing s x I Hx).
Qed.

(** ** A block fails *)

Lemma note_invalid_ok s p : base_ok s -> alive (entries s) p ->
  exists bi, note_invalid p s = Ok (tt, set_pindexBestInvalid bi s) /\ (forall q, bi = Some q -> alive (entries s) q).
Proof.
  intros B Hp. destruct (note_invalid_discarded s p B Hp) as (s' & E & D & Een & Ec). destruct (disc_base s s' D) as [_ _ _ _ B5].
  exists (pindexBestInvalid s'). split; [|intros q Hq; rewrite <- Een; by apply B5]. rewrite E. do 2 f_equal.
  destruct (disc_unlinked s s' D) as (l & Eu & _). revert E. unfold note_invalid, beats_best_invalid.
  destruct Hp as [b Hb]. destruct (pindexBestInvalid s) as [q|] eqn:Eq.
  - destruct (base_invalid s B q Eq) as [bq Hq].
    erewrite bind_ok; [|rewrite get_bind, Eq, (load_bind p b), (load_bind q bq) by done; reflexivity]. cbv beta.
    destruct (_ >? _); intros [= <-]; by destruct s.
  - erewrite bind_ok; [|rewrite get_bind, Eq; reflexivity]. cbv beta. intros [= <-]. by destruct s.
Qed.

Lemma erase_candidate_ok s p : base_ok s -> alive (entries s) p ->
  exists l, erase_candidate p s = Ok (tt, set_setBlockIndexCandidates l s) /\ set_ok (entries s) l /\
    (forall x, x ∈ l <-> x <> p /\ x ∈ setBlockIndexCandidates s).
Proof.
  intros B Hp. unfold erase_candidate. rewrite get_bind.
  destruct (set_erase_spec (entries s) (base_trust s B) p (setBlockIndexCandidates s)) as (l & E & H1 & _ & H2); [apply B|done|].
  exists l. by rewrite (lift_bind l).
Qed.

(** [s'] is [s] with the marks [bits] on [p], which is no candidate any more. *)
Record block_failed (bits : Z) (p : N) (s s' : state) : Prop := {
  bf_entries : exists b, entries s !! p = Some b /\ entries s' = <[p := Entry.add_status bits b]> (entries s);
  bf_cands : forall x, x ∈ setBlockIndexCandidates s' <-> x <> p /\ x ∈ setBlockIndexCandidates s;
  bf_chain : chainActive s' = chainActive s;
  bf_map : mapBlockIndex s' = mapBlockIndex s;
}.

Definition failure_bits (bits : Z) : Prop :=
  bits = CBlockIndex.BLOCK_FAILED_VALID \/ bits = CBlockIndex.BLOCK_FAILED_CHILD.

Lemma failure_bits_kept bits b : failure_bits bits -> but_failure (Entry.add_status bits b) = but_failure b.
Proof. intros [->| ->]; by apply add_failed_kept. Qed.
Lemma failure_bits_failed bits b : failure_bits bits -> Entry.failed (Entry.add_status bits b) = true.
Proof. intros [->| ->]; by apply add_status_flag. Qed.
Lemma failure_bits_u32 bits b : failure_bits bits -> is_u 32 (CBlockIndex.nStatus b) -> is_u 32 (CBlockIndex.nStatus (Entry.add_status bits b)).
Proof. intros [->| ->] H; by apply is_u_lor. Qed.

Lemma block_failed_mark bits p s s' w : failure_bits bits -> block_failed bits p s s' -> watermark w s -> watermark w s'.
Proof.
  intros Hb [(b & Hp & Een) Hc Ech _] [W1 W2 W3].
  assert (agree but_status (entries s) (entries s')) as A by (rewrite Een; by apply (agree_insert _ _ p b)).
  split.
  - intros x Hx. by apply (status_linked (entries s)), W1.
  - unfold Tip in *. rewrite Ech. destruct (CChain.Tip (chainActive s)), w; try done. by rewrite (status_worse (entries s)).
  - intros x Hx (bx & Hbx & Hf) Hw. rewrite Een in Hbx. apply lookup_insert_Some in Hbx as [[<- <-]|[Hne Hbx]];
      [by rewrite failure_bits_failed in Hf|]. apply Hc. split; [done|]. apply W3; [by apply (status_linked _ _ A)|by exists bx|].
    intros y Hy. rewrite <- (status_worse _ _ A). by apply Hw.
Qed.

Lemma InvalidBlockFound_spec s p b : index_ok s -> entries s !! p = Some b -> ~ on_chain (chainActive s) p -> is_Some (Tip s) ->
  exists s', InvalidBlockFound p false s = Ok (tt, s') /\ index_ok s' /\ block_failed CBlockIndex.BLOCK_FAILED_VALID p s s'.
Proof.
  intros I Hp Hc Ht. assert (failure_bits CBlockIndex.BLOCK_FAILED_VALID) as Hbits by by left.
  set (b' := Entry.add_status CBlockIndex.BLOCK_FAILED_VALID b). set (h' := <[p := b']> (entries s)).
  assert (index_ok (set_entries h' s)) as I1.
  { apply status_inv; [by apply (agree_insert _ _ p b)|done| |].
    - intros x bx Hx. apply lookup_insert_Some in Hx as [[<- <-]|[_ Hx]]; [|by apply (inv_entry _ s I x)].
      pose proof (inv_entry _ s I p b Hp) as Eb.
      apply (failure_entry_ok b); [by apply failure_bits_kept| |done]. apply failure_bits_u32; [done|apply Eb].
    - intros x Hx. destruct (inv_active _ s I x Hx) as [_ (bx & Hbx & Hf)]. exists bx. split; [|done].
      unfold h'. rewrite lookup_insert_ne; [done|]. by intros ->. }
  set (s1 := set_setDirtyBlockIndex ({[p]} ∪ setDirtyBlockIndex s) (set_entries h' s)).
  assert (index_ok s1) as I2 by (by apply (index_inv_same _ (set_entries h' s))).
  assert (alive (entries s1) p) as Hal by (exists b'; by apply lookup_insert_eq).
  destruct (erase_candidate_ok s1 p (inv_base _ _ I2) Hal) as (l & El & Hl1 & Hl2).
  assert (index_ok (set_setBlockIndexCandidates l s1)) as I3.
  { apply (index_inv_same _ (set_setBlockIndexCandidates l (set_pindexBestInvalid (pindexBestInvalid s1) s1))); [by destruct s|].
    apply cands_inv; [done|done| |apply (inv_base _ _ I2)]. intros x Hx. apply (inv_cands _ _ I2). by apply Hl2. }
  destruct (note_invalid_ok _ p (inv_base _ _ I3) Hal) as (bi & Ei & Hbi).
  unfold InvalidBlockFound, InvalidChainFound. cbn [negb]. rewrite (update_bind p b) by done.
  erewrite (bind_ok (mark_dirty p)); [|done]. change (set_setDirtyBlockIndex _ _) with s1.
  rewrite (bind_ok _ _ _ _ _ El), (bind_ok _ _ _ _ _ Ei), get_bind.
  match goal with |- context [Tip ?st] => change (Tip st) with (Tip s) end. rewrite bool_decide_eq_true_2 by done.
  eexists. split; [done|]. split.
  - apply (index_inv_same _ (set_setBlockIndexCandidates l (set_pindexBestInvalid bi (set_setBlockIndexCandidates l s1)))); [done|].
    apply cands_inv; [done|done| |done]. intros x Hx. by apply (inv_cands _ _ I3).
  - split; try done. by exists b.
Qed.

(** ** Pruning the candidates *)

Lemma Prune_spec s w t : index_ok s -> watermark w s -> Tip s = Some t ->
  (exists c, c ∈ setBlockIndexCandidates s /\ ~ worse (entries s) c t) ->
  exists l, PruneBlockIndexCandidates s = Ok (tt, set_setBlockIndexCandidates l s) /\
    index_ok (set_setBlockIndexCandidates l s) /\ watermark w (set_setBlockIndexCandidates l s) /\
    (forall x, x ∈ l <-> ~ worse (entries s) x t /\ x ∈ setBlockIndexCandidates s).
Proof.
  intros I W Ht (c & Hc & Hcw). pose proof (inv_base _ s I) as B.
  assert (alive (entries s) t) as Hal by by apply linked_alive, (tip_linked _ s t I).
  destruct (prune_loop_spec (entries s) (base_trust s B) t (setBlockIndexCandidates s)) as (l & E & Hs & Hl); [apply B|done|].
  exists l. split_and!; [| | |done].
  - unfold PruneBlockIndexCandidates. rewrite get_bind, Ht, (lift_bind l), modify_bind by done. unfold assert_.
    destruct l as [|]; [|done]. assert (c ∈ []) as Hn by by apply Hl. by apply not_elem_of_nil in Hn.
  - apply (index_inv_same _ (set_setBlockIndexCandidates l (set_pindexBestInvalid (pindexBestInvalid s) s))); [by destruct s|].
    apply cands_inv; [done|done| |apply B]. intros x Hx. apply (inv_cands _ s I). by apply Hl.
  - destruct W as [W1 W2 W3]. split; [done|done|]. cbn. intros x Hx Hcl Hw. apply Hl. split; [|by apply W3].
    rewrite Ht in W2. destruct w as [y|]; [|done]. apply (not_worse_trans _ x y t); [by apply linked_alive| |done|by apply Hw|done].
    by apply linked_alive, W1.
Qed.

(** ** A new header *)

Section fresh.
Context (h : heap) (p : N) (b : CBlockIndex.t) (Hok : tree_ok h) (Hnew : h !! p = None).
#[local] Abbreviation h' := (<[p := b]> h).

Lemma fresh_other x bx : h !! x = Some bx -> h' !! x = Some bx.
Proof. intros Hx. rewrite lookup_insert_ne; [done|]. intros ->. congruence. Qed.

Lemma fresh_walk n x bx : h !! x = Some bx -> walk h' n x = walk h n x.
Proof.
  revert x bx. induction n as [|n IH]; intros x bx Hx; [done|]. cbn [walk]. rewrite (fresh_other x bx), Hx by done. cbn.
  destruct (Hok x bx Hx) as [_ H _]. destruct (CBlockIndex.pprev bx) as [q|]; [|done]. destruct H as (bq & Hq & _). by apply (IH q bq).
Qed.

Lemma fresh_height x bx : h !! x = Some bx -> height_of h' x = height_of h x.
Proof. intros Hx. unfold height_of. by rewrite (fresh_other x bx), Hx. Qed.

Lemma fresh_ancestor_at x bx k : h !! x = Some bx -> ancestor_at h' x k = ancestor_at h x k.
Proof. intros Hx. unfold ancestor_at. rewrite (fresh_height x bx) by done. by apply (fresh_walk _ x bx). Qed.

Lemma fresh_path x bx : h !! x = Some bx -> path h' x = path h x.
Proof.
  intros Hx. unfold path. rewrite (fresh_height x bx) by done. apply map_ext. intros i. by apply (fresh_ancestor_at x bx).
Qed.

Lemma fresh_chain v : chain_ok h v -> chain_ok h' v.
Proof.
  intros [->|(x & bx & Hx & ->)]; [by left|right]. exists x, bx. split; [by apply fresh_other|]. by rewrite (fresh_path x bx).
Qed.

Lemma fresh_path_tx x bx : h !! x = Some bx -> path_tx h' x = path_tx h x.
Proof.
  intros Hx. unfold path_tx. rewrite (fresh_height x bx) by done. generalize (Z.to_nat (height_of h x)). intros n.
  revert x bx Hx. induction n as [|n IH]; intros x bx Hx; cbn [tx_sum]; rewrite (fresh_other x bx), Hx by done; [done|].
  destruct (Hok x bx Hx) as [_ H _]. destruct (CBlockIndex.pprev bx) as [q|]; [|done]. destruct H as (bq & Hq & _). by rewrite (IH q bq).
Qed.

Lemma fresh_tree : 0 <= CBlockIndex.nHeight b < 2 ^ 31 -> CBlockIndex.pskip b = None ->
  match CBlockIndex.pprev b with
  | None => CBlockIndex.nHeight b = 0
  | Some q => exists bq, h !! q = Some bq /\ CBlockIndex.nHeight b = CBlockIndex.nHeight bq + 1
  end -> tree_ok h'.
Proof.
  intros Hh Hs Hprev x bx Hx. apply lookup_insert_Some in Hx as [[<- <-]|[_ Hx]].
  - split; [done| |by rewrite Hs]. destruct (CBlockIndex.pprev b) as [q|]; [|done]. destruct Hprev as (bq & Hq & E).
    exists bq. split; [by apply fresh_other|done].
  - destruct (Hok x bx Hx) as [H1 H2 H3]. split; [done| |].
    + destruct (CBlockIndex.pprev bx) as [q|]; [|done]. destruct H2 as (bq & Hq & E). exists bq. split; [by apply fresh_other|done].
    + intros q Hq. rewrite (fresh_ancestor_at x bx) by done. by apply H3.
Qed.

Lemma fresh_worse x y bx bby : h !! x = Some bx -> h !! y = Some bby -> worse h' x y <-> worse h x y.
Proof. intros Hx Hy. unfold worse. by rewrite (fresh_other x bx), (fresh_other y bby), Hx, Hy. Qed.

Lemma fresh_linked x : CBlockIndex.nChainTx b = 0 -> linked h' x <-> linked h x.
Proof.
  intros H0. split; intros (bx & Hx & Hl).
  - apply lookup_insert_Some in Hx as [[<- <-]|[_ Hx]]; [done|by exists bx].
  - exists bx. split; [by apply fresh_other|done].
Qed.
End fresh.

(** A header joins the tree: an entry without transactions under a new hash. *)
Lemma add_entry_inv s w p b hash bh : index_ok s -> watermark w s -> entries s !! p = None -> mapBlockIndex s !! hash = None ->
  tree_ok (<[p := b]> (entries s)) -> entry_ok b -> CBlockIndex.nTx b = 0 -> CBlockIndex.nChainTx b = 0 ->
  CBlockIndex.phashBlock b = Some hash -> wf (CBlockIndex.nChainTrust b) ->
  (forall q, bh = Some q -> q = p \/ alive (entries s) q) ->
  let s' := set_entries (<[p := b]> (entries s)) (set_mapBlockIndex (<[hash := p]> (mapBlockIndex s)) (set_pindexBestHeader bh s)) in
  index_ok s' /\ watermark w s'.
Proof.
  intros I W Hnew Hhash T Eok Htx H0 Eh Hw Hbh s'. pose proof (inv_base _ s I) as [B1 B2 B3 B4 B5].
  assert (forall x, linked (<[p := b]> (entries s)) x <-> linked (entries s) x) as El by (intros x; by apply fresh_linked).
  assert (forall x, alive (entries s) x -> x <> p) as Hne by (intros x [bx Hx] ->; congruence).
  assert (p ∉ setBlockIndexCandidates s) as Hpc.
  { intros H. apply (inv_cands _ s I), linked_alive in H. by apply Hne in H. }
  assert (forall bx, parent_linked (<[p := b]> (entries s)) bx <-> parent_linked (entries s) bx) as Epl.
  { intros bx. unfold parent_linked. destruct (CBlockIndex.pprev bx); [apply El|done]. }
  split; split; cbn.
  - split; cbn; [done|by apply trusts_ok_insert|by apply set_ok_insert_out|by apply fresh_chain|].
    intros q Hq. by apply alive_insert, B5.
  - intros x bx Hx. apply lookup_insert_Some in Hx as [[<- <-]|[_ Hx]]; [done|by apply (inv_entry _ s I x)].
  - intros hash' x. destruct (decide (hash = hash')) as [<-|Hneq].
    + rewrite lookup_insert_eq. split.
      * intros [= <-]. exists b. by rewrite lookup_insert_eq.
      * intros (bx & Hx & E). apply lookup_insert_Some in Hx as [[<- _]|[_ Hx]]; [done|].
        assert (mapBlockIndex s !! hash = Some x) by (apply (inv_map _ s I); by exists bx). congruence.
    + rewrite lookup_insert_ne, (inv_map _ s I) by done. split; intros (bx & Hx & E).
      * exists bx. split; [by apply fresh_other|done].
      * apply lookup_insert_Some in Hx as [[<- <-]|[_ Hx]]; [congruence|by exists bx].
  - intros x bx Hx Hl. apply lookup_insert_Some in Hx as [[<- <-]|[_ Hx]]; [done|].
    rewrite (fresh_path_tx _ p b B1 Hnew x bx), Epl by done. by apply (inv_linked _ s I).
  - intros x bx Hx Ht Hl. apply lookup_insert_Some in Hx as [[<- <-]|[_ Hx]]; [done|by apply (inv_waiting _ s I)].
  - intros k x Hin. destruct (inv_unlinked _ s I k x Hin) as (bx & Hx & -> & H1 & H2 & H3). exists bx.
    rewrite Epl. split_and!; try done. by apply fresh_other.
  - intros x Hx. by apply not_elem_of_nil in Hx.
  - apply (inv_nodup _ s I).
  - intros x Hx. by apply El, (inv_cands _ s I).
  - intros x Hx. destruct (inv_active _ s I x Hx) as [H1 (bx & Hbx & Hf)]. split; [by apply El|]. exists bx. split; [by apply fresh_other|done].
  - intros q Hq. destruct (Hbh q Hq) as [->|Ha]; [exists b; by apply lookup_insert_eq|by apply alive_insert].
  - intros x Hx. by apply El, (mark_linked w s W).
  - pose proof (mark_tip w s W) as H. change (Tip s') with (Tip s). destruct (Tip s) as [t|] eqn:Et, w as [x|]; try done.
    rewrite worse_insert_other; [done|..]; apply Hne, linked_alive; [by apply (mark_linked _ s W)|by apply (tip_linked _ s t I)].
  - intros x Hx (bx & Hbx & Hf) Hwx. apply El in Hx. assert (x <> p) by by apply Hne, linked_alive.
    rewrite lookup_insert_ne in Hbx by done. apply (mark_cands w s W); [done|by exists bx|].
    intros y Hy. specialize (Hwx y Hy). rewrite worse_insert_other in Hwx; [done|done|]. by apply Hne, linked_alive, (mark_linked w s W).
Qed.

Definition header_entry (hash : list Z) (block : CBlockHeader) : CBlockIndex.t :=
  Entry.set_phashBlock hash (Entry.set_nSequenceId 0 (Entry.of_header block)).

Lemma new_entry_ok be Hash block p s : new_entry be Hash block p s =
  Ok (tt, set_entries (<[p := header_entry (block_hash be Hash block) block]> (entries s))
            (set_mapBlockIndex (<[block_hash be Hash block := p]> (mapBlockIndex s)) s)).
Proof.
  unfold new_entry. erewrite (bind_ok (store p _)); [|done].
  rewrite (update_bind p (Entry.of_header block)) by (cbn; by rewrite lookup_insert_eq). cbn [entries set_entries]. rewrite insert_insert_eq, modify_bind.
  erewrite (update_ok p); [|cbn; by rewrite lookup_insert_eq]. cbn. by rewrite insert_insert_eq.
Qed.

(** The place of a header whose predecessor, if it has one, is known. *)
Lemma place_entry_ok block p b h s : entries s = <[p := b]> h -> tree_ok h -> h !! p = None ->
  CBlockIndex.pprev b = None -> CBlockIndex.nHeight b = 0 -> CBlockIndex.pskip b = None ->
  (forall q, mapBlockIndex s !! hashPrevBlock block = Some q -> exists bq, h !! q = Some bq /\ CBlockIndex.nHeight bq < 2 ^ 31 - 1) ->
  exists b', place_entry block p s = Ok (tt, set_entries (<[p := b']> h) s) /\ tree_ok (<[p := b']> h) /\
    CBlockIndex.pprev b' = mapBlockIndex s !! hashPrevBlock block /\
    (exists pp hh sk, b' = CBlockIndex.set_pskip sk (match pp with Some q => Entry.set_parent q hh b | None => b end)) /\
    (forall q bq, mapBlockIndex s !! hashPrevBlock block = Some q -> h !! q = Some bq ->
       CBlockIndex.nHeight b' = CBlockIndex.nHeight bq + 1).
Proof.
  intros Een T Hnew Hp Hh Hs Hpar. unfold place_entry. rewrite get_bind.
  destruct (mapBlockIndex s !! hashPrevBlock block) as [q|].
  - destruct (Hpar q eq_refl) as (bq & Hq & Hlt). assert (q <> p) by (intros ->; congruence).
    assert (0 <= CBlockIndex.nHeight bq) by by apply (T q bq).
    rewrite (load_bind q bq) by (rewrite Een; by rewrite lookup_insert_ne).
    replace (i32 (CBlockIndex.nHeight bq + 1)) with (CBlockIndex.nHeight bq + 1).
    2: { unfold swrap. rewrite Z.mod_small by lia. rewrite (proj2 (Z.ltb_lt _ _)) by lia. done. }
    rewrite (update_bind p b) by (rewrite Een; by rewrite lookup_insert_eq).
    rewrite get_bind. cbn [entries set_entries]. rewrite Een, insert_insert_eq.
    set (b1 := Entry.set_parent q (CBlockIndex.nHeight bq + 1) b).
    assert (tree_ok (<[p := b1]> h)) as T1.
    { apply fresh_tree; [done..|cbn; lia|done|]. cbn. by exists bq. }
    destruct (BuildSkip_spec (<[p := b1]> h) p b1 T1) as (sk & Eb & Tb & _); [by apply lookup_insert_eq|].
    rewrite insert_insert_eq in Eb, Tb. rewrite (lift_bind (<[p := CBlockIndex.set_pskip sk b1]> h)) by done.
    exists (CBlockIndex.set_pskip sk b1). split_and!; [done|done|done|by exists (Some q), (CBlockIndex.nHeight bq + 1), sk|].
    intros q' bq' [= <-] Hq'. by simplify_eq.
  - exists b. split_and!; [by rewrite <- Een; destruct s| |done| |done].
    + apply fresh_tree; [done..|rewrite Hh; lia|done|by rewrite Hp].
    + exists None, 0, None. destruct b. cbn in *. by subst.
Qed.

(** The totals of an entry of the tree. *)
Lemma total_entry_ok pos p b h s : entries s = <[p := b]> h -> trusts_ok h -> tree_ok (<[p := b]> h) ->
  is_u 32 (CBlockIndex.nBits b) -> CBlockIndex.nStatus b = 0 ->
  exists b' tr, total_entry pos p s = Ok (tt, set_entries (<[p := b']> h) s) /\ shape b' = shape b /\
    CBlockIndex.phashBlock b' = CBlockIndex.phashBlock b /\ CBlockIndex.nTx b' = CBlockIndex.nTx b /\
    CBlockIndex.nChainTx b' = CBlockIndex.nChainTx b /\ CBlockIndex.nSequenceId b' = CBlockIndex.nSequenceId b /\
    CBlockIndex.nStatus b' = 2 /\ CBlockIndex.IsProofOfStake b' = CBlockIndex.IsProofOfStake b || pos /\ CBlockIndex.nBits b' = CBlockIndex.nBits b /\
    GetBlockTrust b' = Ok tr /\ wf (CBlockIndex.nChainTrust b') /\
    val (CBlockIndex.nChainTrust b') =
      (match CBlockIndex.pprev b with Some q => from_option (fun bq => val (CBlockIndex.nChainTrust bq)) 0 (h !! q) | None => 0 end + val tr) mod 2 ^ 256 /\
    CBlockIndex.nTimeMax b' = match CBlockIndex.pprev b with
      | Some q => from_option (fun bq => Z.max (CBlockIndex.nTimeMax bq) (CBlockIndex.nTime b)) 0 (h !! q) | None => CBlockIndex.nTime b end.
Proof.
  intros Een Hw T Hbits Hst. unfold total_entry.
  assert (forall x q bq, h !! q = Some bq -> q <> p -> <[p := x]> h !! q = Some bq) as Hoth by (intros; by rewrite lookup_insert_ne).
  assert (match CBlockIndex.pprev b with Some q => q <> p /\ exists bq, h !! q = Some bq | None => True end) as Hpar.
  { destruct (CBlockIndex.pprev b) as [q|] eqn:Eq; [|done]. destruct (prev_alive _ p b q T) as [Hne [bq Hq]]; [by apply lookup_insert_eq|done|].
    rewrite lookup_insert_ne in Hq by done. split; [done|by exists bq]. }
  rewrite (load_bind p b) by (rewrite Een; by apply lookup_insert_eq).
  assert (exists tmax, match CBlockIndex.pprev b with
     | Some q => bq ← load q; mret (Z.max (CBlockIndex.nTimeMax bq) (CBlockIndex.nTime b)) | None => mret (CBlockIndex.nTime b) end s = Ok (tmax, s) /\
     tmax = match CBlockIndex.pprev b with
      | Some q => from_option (fun bq => Z.max (CBlockIndex.nTimeMax bq) (CBlockIndex.nTime b)) 0 (h !! q) | None => CBlockIndex.nTime b end)
    as (tmax & Et & Etm).
  { destruct (CBlockIndex.pprev b) as [q|]; [|by eexists]. destruct Hpar as [Hne [bq Hq]].
    rewrite (load_bind q bq) by (rewrite Een; by apply Hoth). eexists. split; [done|]. by rewrite Hq. }
  rewrite (bind_ok _ _ _ _ _ Et), (update_bind p b) by (rewrite Een; by apply lookup_insert_eq).
  rewrite Een, insert_insert_eq. set (b1 := Entry.set_nTimeMax tmax b). set (s1 := set_entries (<[p := b1]> h) s).
  set (b2 := if pos then CBlockIndex.SetProofOfStake b1 else b1).
  assert ((if pos then update p CBlockIndex.SetProofOfStake else mret tt) s1 = Ok (tt, set_entries (<[p := b2]> h) s)) as E2.
  { unfold b2. destruct pos; [|done]. erewrite update_ok; [|by apply lookup_insert_eq]. cbn. by rewrite insert_insert_eq. }
  rewrite (bind_ok _ _ _ _ _ E2), (load_bind p b2) by by apply lookup_insert_eq.
  assert (CBlockIndex.pprev b2 = CBlockIndex.pprev b) as -> by (unfold b2; by destruct pos).
  set (s2 := set_entries (<[p := b2]> h) s).
  assert (exists pt, match CBlockIndex.pprev b with Some q => bq ← load q; mret (CBlockIndex.nChainTrust bq) | None => mret (of_u64 0) end s2 = Ok (pt, s2) /\
    wf pt /\ val pt = match CBlockIndex.pprev b with Some q => from_option (fun bq => val (CBlockIndex.nChainTrust bq)) 0 (h !! q) | None => 0 end)
    as (pt & Ep & Hpt & Hpv).
  { destruct (CBlockIndex.pprev b) as [q|].
    - destruct Hpar as [Hne [bq Hq]]. rewrite (load_bind q bq) by by apply Hoth. eexists. split; [done|]. rewrite Hq. split; [by eapply Hw|done].
    - eexists. split; [done|]. by apply (of_u64_spec 0). }
  rewrite (bind_ok _ _ _ _ _ Ep).
  destruct (GetBlockTrust_spec b2) as (tr & Etr & Hwt & _); [unfold b2; by destruct pos|].
  rewrite (lift_bind tr), (update_bind p b2) by (done || by apply lookup_insert_eq). cbn [entries set_entries s2].
  rewrite insert_insert_eq, (load_bind p (Entry.set_nChainTrust (op_add_assign pt tr) b2)) by (cbn; by rewrite lookup_insert_eq).
  set (b3 := Entry.set_nChainTrust (op_add_assign pt tr) b2).
  assert (CBlockIndex.RaiseValidity CBlockIndex.BLOCK_VALID_TREE b3 = Some (true, CBlockIndex.set_nStatus 2 b3)) as ->.
  { unfold CBlockIndex.RaiseValidity. replace (CBlockIndex.nStatus b3) with 0; [done|]. rewrite <- Hst. unfold b3, b2. by destruct pos. }
  exists (CBlockIndex.set_nStatus 2 b3), tr. destruct (op_add_assign_spec pt tr Hpt Hwt) as [Hwa Hva].
  split; [unfold store, modify; cbn; by rewrite insert_insert_eq|].
  split_and!; try (unfold b3, b2; by destruct pos); try done.
  - unfold b3, b2. destruct pos; [|by rewrite orb_false_r].
    rewrite orb_true_r. unfold CBlockIndex.IsProofOfStake, flag_set. cbn -[Z.lor Z.land CBlockIndex.BLOCK_PROOF_OF_STAKE].
    rewrite Z.land_comm, Z.land_lor_distr_r. change (Z.land CBlockIndex.BLOCK_PROOF_OF_STAKE CBlockIndex.BLOCK_PROOF_OF_STAKE) with 1.
    apply negb_true_iff, Z.eqb_neq. intros E. by apply Z.lor_eq_0_iff in E as [_ E].
  - change (CBlockIndex.nChainTrust (CBlockIndex.set_nStatus 2 b3)) with (op_add_assign pt tr). by rewrite Hva, Hpv.
Qed.

Lemma note_header_ok p s : trusts_ok (entries s) -> alive (entries s) p ->
  (forall q, pindexBestHeader s = Some q -> alive (entries s) q) ->
  exists bh, note_header p s = Ok (tt, set_pindexBestHeader bh s) /\
    (bh = Some p \/ exists q bq b, bh = Some q /\ pindexBestHeader s = Some q /\ entries s !! q = Some bq /\ entries s !! p = Some b /\
       val (CBlockIndex.nChainTrust b) <= val (CBlockIndex.nChainTrust bq)).
Proof.
  intros Hw [b Hp] Hh. unfold note_header. rewrite get_bind. destruct (pindexBestHeader s) as [q|] eqn:Eq.
  - destruct (Hh q eq_refl) as [bq Hq].
    erewrite bind_ok; [|rewrite (load_bind q bq), (load_bind p b) by done; reflexivity]. cbv beta.
    rewrite CompareTo_spec by (by eapply Hw).
    destruct (Z.compare_spec (val (CBlockIndex.nChainTrust bq)) (val (CBlockIndex.nChainTrust b))); cbn [Z.ltb Z.compare].
    + exists (Some q). split; [by destruct s; cbn in *; subst|]. right. exists q, bq, b. split_and!; [done..|lia].
    + exists (Some p). split; [done|by left].
    + exists (Some q). split; [by destruct s; cbn in *; subst|]. right. exists q, bq, b. split_and!; [done..|lia].
  - exists (Some p). split; [done|by left].
Qed.

(** What is known of the entry [b'] of a header, in the heap [h] it joins. *)
Record header_added (h : heap) (prev : option N) (hash : list Z) (nBits : Z) (bSetAsProofOfstake : bool) (b' : CBlockIndex.t) : Prop := {
  added_hash : CBlockIndex.phashBlock b' = Some hash;
  added_prev : CBlockIndex.pprev b' = prev;
  added_height : forall q bq, prev = Some q -> h !! q = Some bq -> CBlockIndex.nHeight b' = CBlockIndex.nHeight bq + 1;
  added_tx : CBlockIndex.nTx b' = 0 /\ CBlockIndex.nChainTx b' = 0 /\ CBlockIndex.nSequenceId b' = 0;
  added_status : CBlockIndex.nStatus b' = CBlockIndex.BLOCK_VALID_TREE;
  added_stake : CBlockIndex.IsProofOfStake b' = bSetAsProofOfstake;
  added_bits : CBlockIndex.nBits b' = nBits;
  added_trust : wf (CBlockIndex.nChainTrust b') /\ exists tr, GetBlockTrust b' = Ok tr /\ val (CBlockIndex.nChainTrust b') =
    (match prev with Some q => from_option (fun bq => val (CBlockIndex.nChainTrust bq)) 0 (h !! q) | None => 0 end + val tr) mod 2 ^ 256;
}.

Lemma AddToBlockIndex_spec be Hash block pos p s w : index_ok s -> watermark w s -> entries s !! p = None ->
  mapBlockIndex s !! block_hash be Hash block = None -> hashPrevBlock block <> block_hash be Hash block -> is_u 32 (Header.nBits block) ->
  (forall q bq, mapBlockIndex s !! hashPrevBlock block = Some q -> entries s !! q = Some bq -> CBlockIndex.nHeight bq < 2 ^ 31 - 1) ->
  exists s' b', AddToBlockIndex be Hash block pos p s = Ok (p, s') /\ index_ok s' /\ watermark w s' /\
    entries s' = <[p := b']> (entries s) /\ mapBlockIndex s' = <[block_hash be Hash block := p]> (mapBlockIndex s) /\
    chainActive s' = chainActive s /\ setBlockIndexCandidates s' = setBlockIndexCandidates s /\
    header_added (entries s) (mapBlockIndex s !! hashPrevBlock block) (block_hash be Hash block) (Header.nBits block) pos b'.
Proof.
  intros I W Hnew Hmap Hprev Hbits Hheight. pose proof (inv_base _ s I) as B. set (hash := block_hash be Hash block) in *.
  set (b0 := header_entry hash block). set (s1 := set_entries (<[p := b0]> (entries s)) (set_mapBlockIndex (<[hash := p]> (mapBlockIndex s)) s)).
  assert (mapBlockIndex s1 !! hashPrevBlock block = mapBlockIndex s !! hashPrevBlock block) as Em by (cbn; by rewrite lookup_insert_ne).
  destruct (place_entry_ok block p b0 (entries s) s1) as (b1 & E1 & T1 & Epp & (pp & hh & sk & Eb1) & Hhq); try done; [apply B| |].
  { intros q. rewrite Em. intros Hq. apply (inv_map _ s I) in Hq as (bq & Hbq & E). exists bq. split; [done|].
    apply (Hheight q bq); [|done]. apply (inv_map _ s I). by exists bq. }
  rewrite Em in Epp. set (s2 := set_entries (<[p := b1]> (entries s)) s1).
  destruct (total_entry_ok pos p b1 (entries s) s2) as (b2 & tr & E2 & Esh & Eh & Et & Ec & Eq & Es & Epos & Ebits & Etr & Hwf & Hv & _); try done;
    [apply B|by destruct pp; rewrite Eb1|by destruct pp; rewrite Eb1|].
  set (s3 := set_entries (<[p := b2]> (entries s)) s2).
  assert (alive (entries s3) p) as Hal by (exists b2; by apply lookup_insert_eq).
  destruct (note_header_ok p s3) as (bh & E3 & Hbh).
  { by apply trusts_ok_insert; [apply B|]. }
  { done. }
  { intros q Hq. apply alive_insert. by apply (inv_header _ s I). }
  assert (CBlockIndex.pprev b2 = CBlockIndex.pprev b1 /\ CBlockIndex.nHeight b2 = CBlockIndex.nHeight b1) as [Ep2 Eh2]
    by (unfold shape in Esh; split; congruence).
  assert (entry_ok b2) as Eok.
  { split; unfold level, Entry.have_data; rewrite ?Es, ?Et, ?Ec, ?Eq, ?Eh, ?Eb1; destruct pp; cbn; done. }
  destruct (add_entry_inv s w p b2 hash bh) as [I4 W4]; try done.
  { apply (tree_ok_agree (<[p := b1]> (entries s))); [|done]. intros q. destruct (decide (p = q)) as [<-|].
    - rewrite !lookup_insert_eq. cbn. by rewrite Esh.
    - by rewrite !lookup_insert_ne. }
  { rewrite Et, Eb1. by destruct pp. }
  { rewrite Ec, Eb1. by destruct pp. }
  { rewrite Eh, Eb1. by destruct pp. }
  { intros q Hq. destruct Hbh as [->|(q' & bq & b & -> & Hq' & _)]; [left; congruence|right]. apply (inv_header _ s I). cbn in Hq'. congruence. }
  unfold AddToBlockIndex. rewrite get_bind. fold hash. rewrite Hmap, (bind_ok _ _ _ _ _ (new_entry_ok be Hash block p s)).
  fold hash b0 s1. rewrite (bind_ok _ _ _ _ _ E1). fold s2. rewrite (bind_ok _ _ _ _ _ E2). fold s3. rewrite (bind_ok _ _ _ _ _ E3).
  erewrite (bind_ok (mark_dirty p)); [|done].
  match goal with |- context [mbind _ (if is_auxpow ?v then insert_auxpow ?k ?a else _) ?st] =>
    destruct (insert_auxpow_part (is_auxpow v) k a st) as (s5 & E5 & Ep5) end.
  rewrite (bind_ok _ _ _ _ _ E5). exists s5, b2.
  match type of I4 with index_ok ?st => assert (index_part s5 = index_part st) as Ep by by rewrite Ep5 end.
  split_and!; try (unfold index_part in Ep; cbn in Ep; congruence).
  - done.
  - by apply (index_inv_same _ _ _ Ep).
  - by apply (watermark_same _ _ _ Ep).
  - split; try done.
    + rewrite Eh, Eb1. by destruct pp.
    + congruence.
    + intros q bq Hq Hbq. rewrite Eh2. apply (Hhq q); [by rewrite Em|done].
    + rewrite Et, Ec, Eq, Eb1. by destruct pp.
    + rewrite Epos, Eb1. by destruct pp.
    + rewrite Ebits, Eb1. by destruct pp.
    + split; [done|]. exists tr. split; [done|]. by rewrite Hv, Epp.
Qed.

(** ** What the invariant says *)

(** [nChainTx] is set exactly if the block and all its ancestors have their transactions. *)
Lemma linked_iff s p b : index_ok s -> entries s !! p = Some b ->
  CBlockIndex.nChainTx b <> 0 <-> forall a ba, is_ancestor (entries s) a p -> entries s !! a = Some ba -> CBlockIndex.nTx ba <> 0.
Proof.
  intros I Hp. pose proof (inv_base _ s I) as B. split.
  - intros Hl a ba Ha Hba. destruct (linked_ancestors s _ p a I) as (b' & Hb' & Hl'); [by exists b|done|]. simplify_eq.
    by apply (inv_linked _ s I a ba).
  - remember (Z.to_nat (CBlockIndex.nHeight b)) as n eqn:En. revert p b Hp En. induction n as [n IH] using lt_wf_ind.
    intros p b Hp -> Hall H0. pose proof (base_tree s B) as T.
    assert (CBlockIndex.nTx b <> 0) as Ht by (apply (Hall p b); [by apply (is_ancestor_self _ T p b)|done]).
    destruct (inv_waiting _ s I p b Hp Ht H0) as [Hin|Hin]; [|by apply not_elem_of_nil in Hin].
    destruct (inv_unlinked _ s I _ p Hin) as (b' & Hb' & _ & _ & _ & Hn). simplify_eq. apply Hn. unfold parent_linked.
    destruct (CBlockIndex.pprev b) as [q|] eqn:Eq; [|done]. destruct (T p b Hp) as [_ H _]. rewrite Eq in H. destruct H as (bq & Hq & Hh).
    assert (0 <= CBlockIndex.nHeight bq) by by apply (T q bq). exists bq. split; [done|].
    apply (IH (Z.to_nat (CBlockIndex.nHeight bq))) with (p := q); [lia|done|done|]. intros a ba Ha. apply (Hall a ba).
    apply (is_ancestor_prev _ T a p b q Hp Eq). by right.
Qed.

(** A block waits exactly if it has transactions and an ancestor has none. *)
Lemma waiting_iff s p b : index_ok s -> entries s !! p = Some b ->
  (CBlockIndex.pprev b, p) ∈ mapBlocksUnlinked s <-> CBlockIndex.nTx b <> 0 /\ CBlockIndex.nChainTx b = 0.
Proof.
  intros I Hp. split.
  - intros Hin. destruct (inv_unlinked _ s I _ p Hin) as (b' & Hb' & _ & H1 & H2 & _). by simplify_eq.
  - intros [H1 H2]. destruct (inv_waiting _ s I p b Hp H1 H2) as [?|Hin]; [done|by apply not_elem_of_nil in Hin].
Qed.

(** ** The index after the genesis block *)

Record genesis_ok (hash : list Z) (b : CBlockIndex.t) : Prop := {
  gen_shape : shape b = (None, 0, None);
  gen_entry : entry_ok b;
  gen_tx : CBlockIndex.nTx b <> 0 /\ CBlockIndex.nChainTx b = CBlockIndex.nTx b;
  gen_clear : Entry.failed b = false;
  gen_trust : wf (CBlockIndex.nChainTrust b);
  gen_hash : CBlockIndex.phashBlock b = Some hash;
}.

Definition genesis_state (p : N) (hash : list Z) (b : CBlockIndex.t) : state :=
  mk_state {[p := b]} {[hash := p]} [p] [] 1 (-1) zero256 [Some p] (Some p) None ∅ ∅.

Section genesis.
Context (p : N) (hash : list Z) (b : CBlockIndex.t) (G : genesis_ok hash b).
#[local] Abbreviation h := ({[p := b]} : heap).

Lemma genesis_tree : tree_ok h.
Proof.
  intros x bx [<- <-]%lookup_singleton_Some. pose proof (gen_shape _ _ G) as E. unfold shape in E. injection E as E1 E2 E3.
  split; rewrite ?E1, ?E2, ?E3; done.
Qed.

Lemma genesis_path : path h p = [Some p].
Proof.
  pose proof (gen_shape _ _ G) as E. unfold shape in E. injection E as E1 E2 E3.
  assert (height_of h p = 0) as Eh by (unfold height_of; by rewrite lookup_singleton_eq).
  unfold path. rewrite Eh. cbn. unfold ancestor_at. by rewrite Eh.
Qed.

Lemma genesis_inv : index_ok (genesis_state p hash b) /\ watermark (Some p) (genesis_state p hash b).
Proof.
  destruct G as [G1 G2 [G3 G4] G5 G6 G7]. pose proof genesis_tree as T. pose proof genesis_path as P.
  assert (h !! p = Some b) as Hp by apply lookup_singleton_eq.
  unfold shape in G1. injection G1 as E1 E2 E3. assert (linked h p) as Hl by (exists b; split; [done|by rewrite G4]).
  assert (forall x, x ∈ [p] -> x = p) as Hs by (intros x; apply list_elem_of_singleton).
  split; split; cbn [entries mapBlockIndex setBlockIndexCandidates mapBlocksUnlinked chainActive pindexBestHeader genesis_state].
  - split; cbn; [done| | | |done].
    + intros x bx [<- <-]%lookup_singleton_Some. done.
    + split; [repeat constructor|]. repeat constructor. by exists b.
    + right. exists p, b. by rewrite P.
  - intros x bx [<- <-]%lookup_singleton_Some. done.
  - intros k x. rewrite lookup_singleton_Some. split.
    + intros [<- <-]. by exists b.
    + intros (bx & [<- <-]%lookup_singleton_Some & E). split; congruence.
  - intros x bx [<- <-]%lookup_singleton_Some _. split_and!; [done|unfold parent_linked; by rewrite E1|].
    rewrite (path_tx_prev h p b T Hp), E1. lia.
  - intros x bx [<- <-]%lookup_singleton_Some Ht H0. congruence.
  - intros k x Hx. by apply not_elem_of_nil in Hx.
  - intros x Hx. by apply not_elem_of_nil in Hx.
  - constructor.
  - intros x ->%Hs. done.
  - intros x Hx. unfold on_chain in Hx. apply list_elem_of_singleton in Hx as [= ->]. split; [done|by exists b].
  - intros x [= <-]. by exists b.
  - intros x [= <-]. done.
  - apply worse_irrefl.
  - intros x (bx & [<- <-]%lookup_singleton_Some & _) _ _. set_solver.
Qed.
End genesis.

Lemma fits_decide h : map_Forall (fun p _ => path_tx h p < 2 ^ 32) h -> fits h.
Proof.
  intros H p. destruct (h !! p) as [b|] eqn:Eb; [by apply (H p b)|]. unfold path_tx.
  destruct (Z.to_nat (height_of h p)); cbn [tx_sum]; by rewrite Eb.
Qed.

(** ** A small index for the witness: after the genesis block two headers arrive, then the
    block of the second one, which waits. *)

Definition sample_header (prev : list Z) (nonce : Z) : CBlockHeader :=
  Header.mk 8 prev (Uint256.SetNull 32) 100 0x1d00ffff nonce 0x1000 (Uint256.SetNull 32) None None 0.
Definition sample_hash : list Z -> list Z := fun x => x.
Definition sample_header1 : CBlockHeader := sample_header [100] 1.
Definition sample_header2 : CBlockHeader := sample_header (block_hash false sample_hash sample_header1) 2.
Definition sample_block (h : CBlockHeader) : CBlock := mk_block h [Build_CTransaction 1 0 [] [] 0] [] false.

Definition after {A} (m : op A) (s : state) : state := match m s with Ok (_, s') => s' | Err _ => s end.

Definition sample_s0 : state := genesis_state 0 [100] (sample_entry 100 None 0 1 13).
Definition sample_s1 : state := after (AddToBlockIndex false sample_hash sample_header1 false 1) sample_s0.
Definition sample_s2 : state := after (AddToBlockIndex false sample_hash sample_header2 false 2) sample_s1.
Definition sample_s3 : state :=
  after (ReceivedBlockTransactions false sample_hash (main_params []) (sample_block sample_header2) 2 (CDiskBlockPos.mk 0 8)) sample_s2.

Lemma sample_s0_ok : index_ok sample_s0 /\ watermark (Some 0%N) sample_s0.
Proof. apply genesis_inv. split; [done| |done|done|by_decide|done]. split; by vm_compute. Qed.

Lemma after_ok {A} (m : op A) s a s' : m s = Ok (a, s') -> s' = after m s.
Proof. unfold after. by intros ->. Qed.

Lemma sample_s1_ok : index_ok sample_s1 /\ watermark (Some 0%N) sample_s1.
Proof.
  destruct sample_s0_ok as [I W].
  destruct (AddToBlockIndex_spec false sample_hash sample_header1 false 1 sample_s0 (Some 0%N) I W) as (s' & b' & E & I' & W' & _).
  - vm_compute. reflexivity.
  - vm_compute. reflexivity.
  - by_decide.
  - by_decide.
  - intros q bq Hq Hb. vm_compute in Hq. injection Hq as <-. vm_compute in Hb. by injection Hb as <-.
  - apply after_ok in E. subst s'. exact (conj I' W').
Qed.

Lemma sample_s2_ok : index_ok sample_s2 /\ watermark (Some 0%N) sample_s2.
Proof.
  destruct sample_s1_ok as [I W].
  destruct (AddToBlockIndex_spec false sample_hash sample_header2 false 2 sample_s1 (Some 0%N) I W) as (s' & b' & E & I' & W' & _).
  - vm_compute. reflexivity.
  - vm_compute. reflexivity.
  - by_decide.
  - by_decide.
  - intros q bq Hq Hb. vm_compute in Hq. injection Hq as <-. vm_compute in Hb. by injection Hb as <-.
  - apply after_ok in E. subst s'. exact (conj I' W').
Qed.

Lemma sample_s3_ok : index_ok sample_s3 /\ watermark (Some 0%N) sample_s3.
Proof.
  destruct sample_s2_ok as [I W]. destruct (entries sample_s2 !! 2%N) as [b|] eqn:Eb; [|by vm_compute in Eb].
  assert (Eb' := Eb). vm_compute in Eb'. injection Eb' as <-.
  destruct (ReceivedBlockTransactions_spec false sample_hash (main_params []) (sample_block sample_header2) 2 (CDiskBlockPos.mk 0 8)
    sample_s2 (Some 0%N) _ I W Eb) as (s' & E & I' & W' & _).
  - reflexivity.
  - reflexivity.
  - intros q [= <-]. eexists. split; vm_compute; reflexivity.
  - by_decide.
  - apply fits_decide. by_decide.
  - apply after_ok in E. subst s'. exact (conj I' W').
Qed.

(** C8: blocks are linked in whatever order they arrive.  When the transactions of a block
    whose header is in the index arrive for the first time, neither it nor its parent being marked as
    failed, and no chain having 2^32 transactions, [ReceivedBlockTransactions] keeps the
    invariant of the index: afterwards [nChainTx] of every entry is set exactly if it and all
    its ancestors have their transactions, and then counts them, the blocks that still wait
    for an ancestor are exactly those in [mapBlocksUnlinked], and every linked block that is
    not marked as failed and not worse than the best tip so far is a candidate. *)
Theorem blocks_are_linked (be : bool) (Hash : list Z -> list Z) (params : Params.t) (block : CBlock) (p : N) (pos : CDiskBlockPos.t)
    (s : state) (w : option N) (b : CBlockIndex.t) :
  index_ok s -> watermark w s -> entries s !! p = Some b -> CBlockIndex.nTx b = 0 -> Entry.failed b = false ->
  (forall q, CBlockIndex.pprev b = Some q -> clear (entries s) q) ->
  0 < Z.of_nat (length (vtx block)) < 2 ^ 32 ->
  fits (<[p := Entry.set_data (Z.of_nat (length (vtx block))) 0 0 0 0 b]> (entries s)) ->
  exists s', ReceivedBlockTransactions be Hash params block p pos s = Ok (true, s') /\ index_ok s' /\ watermark w s' /\
    received_block p (Z.of_nat (length (vtx block))) s s' /\
    forall x bx, entries s' !! x = Some bx ->
      (CBlockIndex.nChainTx bx <> 0 <->
         forall a ba, is_ancestor (entries s') a x -> entries s' !! a = Some ba -> CBlockIndex.nTx ba <> 0) /\
      (CBlockIndex.nChainTx bx <> 0 -> CBlockIndex.nChainTx bx = path_tx (entries s') x) /\
      ((CBlockIndex.pprev bx, x) ∈ mapBlocksUnlinked s' <-> CBlockIndex.nTx bx <> 0 /\ CBlockIndex.nChainTx bx = 0) /\
      (CBlockIndex.nChainTx bx <> 0 -> Entry.failed bx = false -> (forall y, w = Some y -> ~ worse (entries s') x y) ->
         x ∈ setBlockIndexCandidates s').
Proof.
  intros I W Hp Hnew Hf Hpar Hn F.
  destruct (ReceivedBlockTransactions_spec be Hash params block p pos s w b) as (s' & E & I' & W' & R); try done.
  exists s'. split_and!; try done. intros x bx Hx. split_and!.
  - by apply linked_iff.
  - intros Hl. by apply (inv_linked _ s' I' x bx).
  - by apply waiting_iff.
  - intros Hl Hc Hw. apply (mark_cands w s' W'); [by exists bx|by exists bx|done].
Qed.

Lemma blocks_are_linked_witness :
  mapBlocksUnlinked sample_s3 = [(Some 1%N, 2%N)] /\
  exists s', ReceivedBlockTransactions false sample_hash (main_params []) (sample_block sample_header1) 1 (CDiskBlockPos.mk 0 16) sample_s3
    = Ok (true, s') /\ index_ok s' /\ mapBlocksUnlinked s' = [] /\ setBlockIndexCandidates s' = [0%N; 1%N; 2%N] /\
    CBlockIndex.nChainTx <$> entries s' !! 2%N = Some 3.
Proof.
  split; [vm_compute; reflexivity|]. destruct sample_s3_ok as [I W].
  destruct (entries sample_s3 !! 1%N) as [b|] eqn:Eb; [|by vm_compute in Eb].
  assert (Eb' := Eb). vm_compute in Eb'. injection Eb' as <-.
  destruct (blocks_are_linked false sample_hash (main_params []) (sample_block sample_header1) 1 (CDiskBlockPos.mk 0 16)
    sample_s3 (Some 0%N) _ I W Eb) as (s' & E & I' & _).
  - reflexivity.
  - reflexivity.
  - intros q [= <-]. eexists. split; vm_compute; reflexivity.
  - by_decide.
  - apply fits_decide. by_decide.
  - exists s'. split; [exact E|]. split; [exact I'|]. apply after_ok in E. subst s'. split_and!; vm_compute; reflexivity.
Defined.
