(* ===== verification/ActivateChain.v ===== *)
(** * ActivateChain: switching to the best chain

    Models [UpdateTip], [DisconnectTip], [ConnectTip], [ActivateBestChainStep],
    and [ActivateBestChain] of [src/src/validation.cpp] on
    the state of [BlockIndex], and proves that activation ends at the best block.

    What the blocks themselves do is given by parameters: the verdict of [ConnectBlock] on a
    block on top of its ancestors, what it writes into the entry of the block, and whether
    the disk serves: reading a block, undoing one, and flushing.  The memory pool, the
    notifications, and the interruption by a shutdown are left out. *)
From stdpp Require Import sorting.
From S2P Require Import Prelude ArithUint256 Uint256 ConsensusParams Serialize Transaction Chain Block BlockIndex IndexInvariant.
Import Header.

(** What [ConnectBlock] finds. *)
Inductive verdict : Set :=
| valid
| invalid (fCorruptionPossible : bool).

Section activate.
Context (ConnectBlock : N -> verdict) (effect : N -> CBlockIndex.t -> CBlockIndex.t)
  (ReadBlockFromDisk : state -> N -> bool) (DisconnectBlock : state -> N -> bool) (FlushStateToDisk : state -> bool).

(** The message it logs reads the new tip. *)
Definition UpdateTip (pindexNew : option N) : op unit :=
  s ← get;
  v ← lift (CChain.SetTip (entries s) pindexNew (chainActive s));
  _ ← modify (set_chainActive v);
  s ← get;
  match Tip s with
  | Some t => _ ← load t; mret tt
  | None => lift (Err null_deref)
  end.

Definition DisconnectTip : op bool :=
  s ← get;
  match Tip s with
  | None => lift (Err assertion_failed)
  | Some pindexDelete =>
      b ← load pindexDelete;
      if negb (ReadBlockFromDisk s pindexDelete) then mret false
      else if negb (DisconnectBlock s pindexDelete) then mret false
      else if negb (FlushStateToDisk s) then mret false
      else _ ← UpdateTip (CBlockIndex.pprev b); mret true
  end.

Inductive connection : Set :=
| connected
| rejected (fCorruptionPossible : bool)   (** [state.IsInvalid()] *)
| system_error.

Definition ConnectTip (pindexNew : N) : op connection :=
  b ← load pindexNew;
  s ← get;
  _ ← assert_ (bool_decide (CBlockIndex.pprev b = Tip s));
  if negb (ReadBlockFromDisk s pindexNew) then mret system_error
  else
    match ConnectBlock pindexNew with
    | invalid c => _ ← InvalidBlockFound pindexNew c; mret (rejected c)
    | valid =>
        _ ← update pindexNew (effect pindexNew);
        s ← get;
        if negb (FlushStateToDisk s) then mret system_error
        else _ ← UpdateTip (Some pindexNew); mret connected
    end.

(** Disconnect the blocks above [pindexFork]: whether it worked, and whether there were any. *)
Fixpoint disconnect_loop (fuel : nat) (pindexFork : option N) (fBlocksDisconnected : bool) : op (bool * bool) :=
  s ← get;
  match Tip s with
  | None => mret (true, fBlocksDisconnected)
  | Some t =>
      if bool_decide (Some t = pindexFork) then mret (true, fBlocksDisconnected)
      else match fuel with
           | O => lift (Err out_of_fuel)
           | S fuel' =>
               ok ← DisconnectTip;
               if negb ok then mret (false, fBlocksDisconnected) else disconnect_loop fuel' pindexFork true
           end
  end.

(** [vpindexToConnect]: from [pindexIter] down to the block above [nHeight]. *)
Fixpoint to_connect (fuel : nat) (pindexIter : option N) (nHeight : Z) : op (list N) :=
  match pindexIter with
  | None => mret []
  | Some p =>
      b ← load p;
      if CBlockIndex.nHeight b =? nHeight then mret []
      else match fuel with
           | O => lift (Err out_of_fuel)
           | S fuel' => l ← to_connect fuel' (CBlockIndex.pprev b) nHeight; mret (p :: l)
           end
  end.

Inductive progress : Set :=
| more           (** all connected *)
| better         (** a better tip than before *)
| found_invalid  (** [fInvalidFound] *)
| failed.        (** a system error: return false *)

(** The inner loop, over the blocks from the lowest on; [back] is [vpindexToConnect.back()]. *)
Fixpoint connect_blocks (pindexOldTip : option N) (back : N) (l : list N) : op progress :=
  match l with
  | [] => mret more
  | p :: l' =>
      c ← ConnectTip p;
      match c with
      | rejected fCorruptionPossible =>
          _ ← (if negb fCorruptionPossible then InvalidChainFound back else mret tt);
          mret found_invalid
      | system_error => mret failed
      | connected =>
          _ ← PruneBlockIndexCandidates;
          s ← get;
          stop ← match pindexOldTip, Tip s with
                 | None, _ => mret true
                 | Some _, None => lift (Err null_deref)
                 | Some o, Some t =>
                     bo ← load o;
                     bt ← load t;
                     mret (CompareTo (CBlockIndex.nChainTrust bt) (CBlockIndex.nChainTrust bo) >? 0)
                 end;
          if (stop : bool) then mret better else connect_blocks pindexOldTip back l'
      end
  end.

(** The outer loop: at most 32 blocks at a time. *)
Fixpoint connect_loop (fuel : nat) (pindexOldTip : option N) (pindexMostWork : N) (nHeight : Z) : op progress :=
  m ← load pindexMostWork;
  if nHeight =? CBlockIndex.nHeight m then mret more
  else match fuel with
       | O => lift (Err out_of_fuel)
       | S fuel' =>
           let nTargetHeight := Z.min (nHeight + 32) (CBlockIndex.nHeight m) in
           s ← get;
           pindexIter ← lift (GetAncestor (entries s) pindexMostWork nTargetHeight);
           vpindexToConnect ← to_connect 33 pindexIter nHeight;
           r ← match last vpindexToConnect with
               | Some back => connect_blocks pindexOldTip back (reverse vpindexToConnect)
               | None => mret more
               end;
           match r with
           | more => connect_loop fuel' pindexOldTip pindexMostWork nTargetHeight
           | r => mret r
           end
       end.

(** [None] is a return of false, otherwise [fInvalidFound]. *)
Definition ActivateBestChainStep (pindexMostWork : N) : op (option bool) :=
  s ← get;
  let pindexOldTip := Tip s in
  pindexFork ← lift (CChain.FindFork (entries s) (chainActive s) (Some pindexMostWork));
  '(ok, fBlocksDisconnected) ← disconnect_loop (length (chainActive s)) pindexFork false;
  if negb ok then mret None
  else
    nHeight ← match pindexFork with Some f => b ← load f; mret (CBlockIndex.nHeight b) | None => mret (-1) end;
    m ← load pindexMostWork;
    r ← connect_loop (S (Z.to_nat (CBlockIndex.nHeight m))) pindexOldTip pindexMostWork nHeight;
    match r with
    | failed => mret None
    | r =>
        s ← get;
        _ ← (if (fBlocksDisconnected : bool)
             then match Tip s with Some t => _ ← load t; mret tt | None => lift (Err null_deref) end
             else mret tt);
        mret (Some (match r with found_invalid => true | _ => false end))
    end.

Fixpoint ActivateBestChain_loop (fuel : nat) (pindexMostWork : option N) : op bool :=
  s ← get;
  most ← match pindexMostWork with Some p => mret (Some p) | None => FindMostWorkChain end;
  match most with
  | None => mret true
  | Some m =>
      if bool_decide (most = Tip s) then mret true
      else
        r ← ActivateBestChainStep m;
        match r with
        | None => mret false
        | Some fInvalidFound =>
            let most := if fInvalidFound : bool then None else Some m in
            s ← get;
            if bool_decide (Tip s = most) then mret (FlushStateToDisk s)
            else match fuel with
                 | O => lift (Err out_of_fuel)
                 | S fuel' => ActivateBestChain_loop fuel' most
                 end
        end
  end.
End activate.

(** A bound on the heights, and the number of entries without a mark. *)
Definition max_height (h : heap) : nat := map_fold (fun _ b n => Nat.max (Z.to_nat (CBlockIndex.nHeight b)) n) 0%nat h.
Definition clear_entries (h : heap) : nat := size (filter (fun kv : N * CBlockIndex.t => Entry.failed (snd kv) = false) h).

(** Every round connects a block on the way to the best one or marks a block. *)
Definition activation_rounds (s : state) : nat := (S (clear_entries (entries s)) * (max_height (entries s) + 3))%nat.

Definition ActivateBestChain ConnectBlock effect ReadBlockFromDisk DisconnectBlock FlushStateToDisk : op bool :=
  s ← get;
  ActivateBestChain_loop ConnectBlock effect ReadBlockFromDisk DisconnectBlock FlushStateToDisk (activation_rounds s) None.

(** ** What activation relies on *)

(** Trust grows along a chain (no block without a target, and no sum past 2^256). *)
Definition growing (h : heap) : Prop := forall p b q bq, h !! p = Some b -> CBlockIndex.pprev b = Some q -> h !! q = Some bq ->
  val (CBlockIndex.nChainTrust bq) < val (CBlockIndex.nChainTrust b).

(** There is one genesis block. *)
Definition one_root (h : heap) : Prop := forall p q b c, h !! p = Some b -> h !! q = Some c ->
  CBlockIndex.pprev b = None -> CBlockIndex.pprev c = None -> p = q.

(** What [ConnectBlock] may write into an entry. *)
Definition harmless (b b' : CBlockIndex.t) : Prop :=
  but_status b' = but_status b /\ Entry.failed b' = Entry.failed b /\ Entry.have_data b' = Entry.have_data b /\
  level b <= level b' /\ (is_u 32 (CBlockIndex.nStatus b) -> is_u 32 (CBlockIndex.nStatus b')).

(** [l] leads from [t] up to [p]. *)
Fixpoint climbs (h : heap) (t : N) (l : list N) (p : N) : Prop :=
  match l with
  | [] => t = p
  | q :: l' => (exists b, h !! q = Some b /\ CBlockIndex.pprev b = Some t) /\ climbs h q l' p
  end.

Lemma climbs_snoc h t l q p b : climbs h t l q -> h !! p = Some b -> CBlockIndex.pprev b = Some q -> climbs h t (l ++ [p]) p.
Proof.
  revert t. induction l as [|x l IH]; intros t; cbn.
  - intros -> Hp Hq. split; [by exists b|done].
  - intros [H1 H2] Hp Hq. split; [done|by apply IH].
Qed.

Lemma climbs_agree h h' t l p : agree shape h h' -> climbs h t l p -> climbs h' t l p.
Proof.
  intros A. revert t. induction l as [|x l IH]; intros t; [done|]. cbn. intros [(b & Hb & Hp) H]. split; [|by apply IH].
  destruct (agree_lookup _ _ _ _ _ A Hb) as (b' & Hb' & E). exists b'. split; [done|]. unfold shape in E. congruence.
Qed.

Lemma climbs_ancestor h t l p bt : tree_ok h -> h !! t = Some bt -> climbs h t l p -> alive h p /\ is_ancestor h t p.
Proof.
  intros Hok. revert t bt. induction l as [|x l IH]; intros t bt Ht; cbn.
  - intros <-. split; [by exists bt|by apply (is_ancestor_self h Hok t bt)].
  - intros [(b & Hb & Hp) H]. destruct (IH x b Hb H) as [[bp Hbp] Ha]. split; [by exists bp|].
    apply (is_ancestor_trans h Hok t x p bp); [done| |done].
    apply (is_ancestor_prev h Hok t x b t Hb Hp). right. by apply (is_ancestor_self h Hok t bt).
Qed.

Section facts.
Context (h : heap) (Hok : tree_ok h) (Hgr : growing h).

(** An ancestor has less trust. *)
Lemma ancestor_trust a p ba b : h !! a = Some ba -> h !! p = Some b -> is_ancestor h a p -> a <> p ->
  val (CBlockIndex.nChainTrust ba) < val (CBlockIndex.nChainTrust b).
Proof.
  intros Ha Hp. remember (Z.to_nat (CBlockIndex.nHeight b)) as n eqn:En. revert p b Hp En.
  induction n as [n IH] using lt_wf_ind. intros p b Hp -> Hap Hne.
  destruct (is_ancestor_step h Hok a p b Hp Hap Hne) as (q & bq & Eq & Hq & Haq & Hh).
  pose proof (Hgr p b q bq Hp Eq Hq). destruct (decide (a = q)) as [->|Hnq]; [by simplify_eq|].
  assert (0 <= CBlockIndex.nHeight bq) by by apply (Hok q bq).
  pose proof (IH (Z.to_nat (CBlockIndex.nHeight bq)) ltac:(lia) q bq Hq eq_refl Haq Hnq). lia.
Qed.

Lemma ancestor_worse a p : alive h p -> is_ancestor h a p -> a <> p -> worse h a p.
Proof.
  intros [b Hp] Ha Hne. destruct (is_ancestor_alive h Hok a p b Hp Ha) as [ba Hba]. exists ba, b. split_and!; [done..|].
  left. by apply (ancestor_trust a p).
Qed.

(** Every block has a first ancestor. *)
Lemma root_ancestor p b : h !! p = Some b -> exists r br, h !! r = Some br /\ CBlockIndex.pprev br = None /\ is_ancestor h r p.
Proof.
  remember (Z.to_nat (CBlockIndex.nHeight b)) as n eqn:En. revert p b En. induction n as [n IH] using lt_wf_ind. intros p b -> Hp.
  destruct (CBlockIndex.pprev b) as [q|] eqn:Eq.
  - destruct (Hok p b Hp) as [_ H _]. rewrite Eq in H. destruct H as (bq & Hq & Hh).
    assert (0 <= CBlockIndex.nHeight bq) by by apply (Hok q bq).
    destruct (IH (Z.to_nat (CBlockIndex.nHeight bq)) ltac:(lia) q bq eq_refl Hq) as (r & br & H1 & H2 & H3).
    exists r, br. split_and!; [done..|]. apply (is_ancestor_prev h Hok r p b q Hp Eq). by right.
  - exists p, b. split_and!; [done..|]. by apply (is_ancestor_self h Hok p b).
Qed.
End facts.

Lemma growing_agree h h' : agree but_status h h' -> growing h -> growing h'.
Proof.
  intros A G p b q bq Hp Hq Hbq. destruct (agree_lookup_back _ _ _ _ _ A Hp) as (b0 & Hb0 & E).
  destruct (agree_lookup_back _ _ _ _ _ A Hbq) as (bq0 & Hbq0 & E'). unfold but_status, shape, key in E, E'.
  replace (CBlockIndex.nChainTrust b) with (CBlockIndex.nChainTrust b0) by congruence.
  replace (CBlockIndex.nChainTrust bq) with (CBlockIndex.nChainTrust bq0) by congruence.
  apply (G p b0 q bq0); congruence.
Qed.

Lemma one_root_agree h h' : agree but_status h h' -> one_root h -> one_root h'.
Proof.
  intros A R p q b c Hp Hq Eb Ec. destruct (agree_lookup_back _ _ _ _ _ A Hp) as (b0 & Hb0 & E).
  destruct (agree_lookup_back _ _ _ _ _ A Hq) as (c0 & Hc0 & E'). unfold but_status, shape in E, E'.
  apply (R p q b0 c0); congruence.
Qed.

(** ** Moving the tip *)

Lemma UpdateTip_ok s p : base_ok s -> alive (entries s) p ->
  UpdateTip (Some p) s = Ok (tt, set_chainActive (path (entries s) p) s) /\ Tip (set_chainActive (path (entries s) p) s) = Some p.
Proof.
  intros B [b Hp]. assert (Tip (set_chainActive (path (entries s) p) s) = Some p) as Et.
  { by apply (Tip_of_path _ p b); [apply B|]. }
  split; [|done]. unfold UpdateTip. rewrite get_bind, (lift_bind (path (entries s) p)), modify_bind, get_bind, Et
    by (apply (SetTip_spec _ (base_tree s B) _ p b); [apply B|done]).
  by rewrite (load_bind p b).
Qed.

Lemma chain_inv s p : index_ok s -> linked (entries s) p -> (forall a, is_ancestor (entries s) a p -> clear (entries s) a) ->
  index_ok (set_chainActive (path (entries s) p) s).
Proof.
  intros I Hl Hc. destruct (linked_alive _ _ Hl) as [b Hp]. pose proof (inv_base _ s I) as B.
  assert (forall x, on_chain (path (entries s) p) x -> linked (entries s) x /\ clear (entries s) x) as Ha.
  { intros x Hx. apply (path_on_chain _ p b x (base_tree s B) Hp) in Hx. split; [by apply (linked_ancestors s [] p)|by apply Hc]. }
  destruct I as [I1 I2 I3 I4 I5 I6 I7 I8 I9 I10 I11]. split; try done. destruct B as [B1 B2 B3 B4 B5]. split; try done.
  right. by exists p, b.
Qed.

(** ** Counting marks *)

Lemma clear_filter h p : p ∈ dom (filter (fun kv : N * CBlockIndex.t => Entry.failed (snd kv) = false) h) <-> clear h p.
Proof.
  rewrite elem_of_dom. split.
  - intros [b Hb]. apply map_lookup_filter_Some in Hb as [Hb Hf]. by exists b.
  - intros (b & Hb & Hf). exists b. by apply map_lookup_filter_Some.
Qed.

Lemma clear_entries_le h h' : (forall x, clear h' x -> clear h x) -> (clear_entries h' <= clear_entries h)%nat.
Proof.
  intros H. unfold clear_entries. rewrite <- !size_dom. apply subseteq_size. intros x. rewrite !clear_filter. apply H.
Qed.

Lemma clear_entries_lt h h' p : (forall x, clear h' x -> clear h x) -> clear h p -> ~ clear h' p ->
  (clear_entries h' < clear_entries h)%nat.
Proof.
  intros H Hp Hn. unfold clear_entries. rewrite <- !size_dom. apply subset_size. split.
  - intros x. rewrite !clear_filter. apply H.
  - intros Hs. apply Hn, clear_filter, Hs. by apply clear_filter.
Qed.

Lemma max_height_bound h p b : h !! p = Some b -> (Z.to_nat (CBlockIndex.nHeight b) <= max_height h)%nat.
Proof.
  unfold max_height. revert p b. induction h as [|i x m Hi Hfst IH] using map_first_key_ind; intros p b Hp; [by rewrite lookup_empty in Hp|].
  rewrite map_fold_insert_first_key by done. apply lookup_insert_Some in Hp as [[<- <-]|[_ Hp]]; [lia|]. specialize (IH p b Hp). lia.
Qed.

Lemma max_height_agree h h' : agree shape h h' -> (max_height h' <= max_height h)%nat.
Proof.
  intros A. unfold max_height at 1.
  assert (forall p b, h' !! p = Some b -> (Z.to_nat (CBlockIndex.nHeight b) <= max_height h)%nat) as H.
  { intros p b' Hp. destruct (agree_lookup_back _ _ _ _ _ A Hp) as (b & Hb & E). unfold shape in E.
    replace (CBlockIndex.nHeight b') with (CBlockIndex.nHeight b) by congruence. by apply (max_height_bound h p). }
  clear A. revert H. generalize (max_height h). intros n. induction h' as [|i x m Hi Hfst IH] using map_first_key_ind; intros H.
  - rewrite map_fold_empty. lia.
  - rewrite map_fold_insert_first_key by done. pose proof (H i x ltac:(by apply lookup_insert_eq)).
    assert (map_fold (fun (_ : N) b n => Nat.max (Z.to_nat (CBlockIndex.nHeight b)) n) 0%nat m <= n)%nat; [|lia].
    apply IH. intros p b Hp. apply (H p b). rewrite lookup_insert_ne; [done|]. intros ->. congruence.
Qed.

(** ** Activation *)

Section correct.
Context (ConnectBlock : N -> verdict) (effect : N -> CBlockIndex.t -> CBlockIndex.t)
  (ReadBlockFromDisk : state -> N -> bool) (DisconnectBlock : state -> N -> bool) (FlushStateToDisk : state -> bool).

(** A block that can be the tip: it and its ancestors have their transactions, are not
    marked, and obey the rules. *)
Definition acceptable (s : state) (p : N) : Prop := linked (entries s) p /\
  forall a, is_ancestor (entries s) a p -> clear (entries s) a /\ ConnectBlock a = valid.

(** What all steps of activation respect. *)
Record moved (s s' : state) : Prop := {
  moved_status : agree but_status (entries s) (entries s');
  moved_clear : forall x, clear (entries s') x -> clear (entries s) x;
  moved_acceptable : forall p, acceptable s' p <-> acceptable s p;
}.

#[export] Instance moved_refl : Reflexive moved.
Proof. by intros s. Qed.
#[export] Instance moved_trans : Transitive moved.
Proof.
  intros s1 s2 s3 [A1 C1 P1] [A2 C2 P2]. split.
  - by transitivity (entries s2).
  - intros x Hx. by apply C1, C2.
  - intros p. by rewrite P2, P1.
Qed.

Lemma moved_entries s s' : entries s' = entries s -> moved s s'.
Proof. intros E. split; unfold acceptable; rewrite E; done. Qed.

(** Marking blocks that were not acceptable. *)
Lemma moved_marks s s' : agree but_status (entries s) (entries s') ->
  (forall x, clear (entries s') x -> clear (entries s) x) ->
  (forall x, clear (entries s) x -> acceptable s x -> clear (entries s') x) ->
  tree_ok (entries s) -> (forall p a, linked (entries s) p -> is_ancestor (entries s) a p -> linked (entries s) a) -> moved s s'.
Proof.
  intros A C K T L. split; [done|done|]. intros p. pose proof (status_shape _ _ A) as Sh. unfold acceptable.
  rewrite (status_linked _ _ A). split; intros [Hl Ha]; (split; [done|]); intros a Hap.
  - destruct (Ha a) as [H1 H2]; [by apply (is_ancestor_agree (entries s))|]. split; [by apply C|done].
  - apply (is_ancestor_agree (entries s)) in Hap; [|done]. destruct (Ha a Hap) as [H1 H2]. split; [|done].
    apply K; [done|]. split; [by apply (L p)|]. intros c Hc. destruct (linked_alive _ _ Hl) as [b Hp].
    apply Ha. by apply (is_ancestor_trans _ T c a p b).
Qed.

(** The state between the rounds; [w] is the best tip so far. *)
Record act_inv (w : N) (s : state) : Prop := {
  act_index : index_ok s;
  act_mark : watermark (Some w) s;
  act_growing : growing (entries s);
  act_root : one_root (entries s);
  act_valid : forall p, on_chain (chainActive s) p -> ConnectBlock p = valid;
  act_best : acceptable s w;
  act_tip : is_Some (Tip s);
}.

Lemma act_tree w s : act_inv w s -> tree_ok (entries s).
Proof. intros J. apply (inv_base _ s (act_index w s J)). Qed.

Lemma acceptable_alive s p : acceptable s p -> alive (entries s) p.
Proof. intros [H _]. by apply linked_alive. Qed.

(** The active chain is made of acceptable blocks. *)
Lemma active_acceptable w s p : act_inv w s -> on_chain (chainActive s) p -> acceptable s p.
Proof.
  intros J Hp. pose proof (act_index w s J) as I. pose proof (inv_base _ s I) as B.
  destruct (inv_active _ s I p Hp) as [Hl Hc]. split; [done|]. intros a Ha. destruct (linked_alive _ _ Hl) as [b Hb].
  assert (on_chain (chainActive s) a) as Hac by (by apply (on_chain_ancestor _ (base_tree s B) _ a p b); [apply B|..]).
  split; [by apply (inv_active _ s I)|by apply (act_valid w s J)].
Qed.

(** The tip moves to an acceptable block: down, or up past or below the watermark. *)
Lemma act_move w s p : act_inv w s -> acceptable s p ->
  exists w', act_inv w' (set_chainActive (path (entries s) p) s) /\ Tip (set_chainActive (path (entries s) p) s) = Some p.
Proof.
  intros J Hp. pose proof (act_index w s J) as I. pose proof (inv_base _ s I) as B.
  destruct (acceptable_alive s p Hp) as [b Hb]. destruct (UpdateTip_ok s p B) as [_ Et]; [by exists b|].
  assert (forall x, on_chain (path (entries s) p) x -> ConnectBlock x = valid) as Hv.
  { intros x Hx. apply (path_on_chain _ p b x (base_tree s B) Hb) in Hx. by apply Hp. }
  assert (index_ok (set_chainActive (path (entries s) p) s)) as I'.
  { apply chain_inv; [done|apply Hp|]. intros a Ha. by apply Hp. }
  pose proof (act_mark w s J) as [W1 W2 W3]. pose proof (act_best w s J) as Hw.
  destruct (worse_total (entries s) w p) as [Hlt|Hge]; [by apply acceptable_alive|by exists b|..].
  - exists p. split; [|done]. split; [done| |apply J|apply J|done|done|by exists p]. split.
    + intros x [= <-]. apply Hp.
    + rewrite Et. apply worse_irrefl.
    + cbn. intros x Hx Hc Hxp. apply W3; [done|done|]. intros y [= <-] Hxw. apply (Hxp p eq_refl). by transitivity w.
  - exists w. split; [|done]. split; [done| |apply J|apply J|done|done|by exists p]. split; [done| |done].
    rewrite Et. cbn. destruct Hge as [->|Hge]; [apply worse_irrefl|]. intros Hx. apply (worse_irrefl (entries s) w). by transitivity p.
Qed.

(** *** Disconnecting *)

Definition io_ok : Prop := (forall s p, ReadBlockFromDisk s p = true) /\ (forall s p, DisconnectBlock s p = true) /\ (forall s, FlushStateToDisk s = true).

#[local] Abbreviation DisconnectTip := (DisconnectTip ReadBlockFromDisk DisconnectBlock FlushStateToDisk).
#[local] Abbreviation disconnect_loop := (disconnect_loop ReadBlockFromDisk DisconnectBlock FlushStateToDisk).

Lemma DisconnectTip_spec w s t b q : act_inv w s -> Tip s = Some t -> entries s !! t = Some b -> CBlockIndex.pprev b = Some q ->
  exists ok s' w', DisconnectTip s = Ok (ok, s') /\ act_inv w' s' /\ entries s' = entries s /\
    setBlockIndexCandidates s' = setBlockIndexCandidates s /\ (io_ok -> ok = true) /\ (ok = true -> Tip s' = Some q).
Proof.
  intros J Et Hb Hq. unfold ActivateChain.DisconnectTip. rewrite get_bind, Et, (load_bind t b), Hq by done.
  destruct (ReadBlockFromDisk s t) eqn:E1; [|exists false, s, w; split_and!; try done; intros (H & _); by rewrite H in E1].
  destruct (DisconnectBlock s t) eqn:E2; [|exists false, s, w; split_and!; try done; intros (_ & H & _); by rewrite H in E2].
  destruct (FlushStateToDisk s) eqn:E3; [|exists false, s, w; split_and!; try done; intros (_ & _ & H); by rewrite H in E3].
  pose proof (inv_base _ s (act_index w s J)) as B. destruct (prev_alive _ t b q (base_tree s B) Hb Hq) as [_ [bq Hbq]].
  destruct (act_move w s q J) as (w' & J' & Et').
  { apply (active_acceptable w s q J). apply (on_chain_ancestor _ (base_tree s B) _ q t b); [apply B|done|by apply Tip_on_chain|].
    apply (is_ancestor_prev _ (base_tree s B) q t b q Hb Hq). right. by apply (is_ancestor_self _ (base_tree s B) q bq). }
  destruct (UpdateTip_ok s q B) as [Eu _]; [by exists bq|]. cbn [negb]. rewrite (bind_ok _ _ _ _ _ Eu).
  exists true. eexists _, w'. split_and!; try done.
Qed.

Lemma disconnect_loop_spec fuel w s t b f bf d : act_inv w s -> Tip s = Some t -> entries s !! t = Some b -> entries s !! f = Some bf ->
  is_ancestor (entries s) f t -> CBlockIndex.nHeight b - CBlockIndex.nHeight bf <= Z.of_nat fuel ->
  exists ok d' s' w', disconnect_loop fuel (Some f) d s = Ok ((ok, d'), s') /\ act_inv w' s' /\ entries s' = entries s /\
    setBlockIndexCandidates s' = setBlockIndexCandidates s /\ (io_ok -> ok = true) /\ (ok = true -> Tip s' = Some f).
Proof.
  revert w s t b d. induction fuel as [|fuel IH]; intros w s t b d J Et Hb Hf Ha Hfuel; cbn [ActivateChain.disconnect_loop];
    rewrite get_bind, Et; destruct (bool_decide_reflect (Some t = Some f)) as [[= ->]|Hne];
    try (exists true, d, s, w; by split_and!);
    destruct (is_ancestor_step _ (act_tree w s J) f t b Hb Ha) as (q & bq & Eq & Hq & Haq & Hh); try congruence.
  - apply (is_ancestor_height _ (act_tree w s J) f q bq bf Hq Hf) in Haq as [? _]. lia.
  - destruct (DisconnectTip_spec w s t b q J Et Hb Eq) as (ok & s1 & w1 & E1 & J1 & En1 & Ec1 & Hio & Ht1).
    rewrite (bind_ok _ _ _ _ _ E1). destruct ok.
    + destruct (IH w1 s1 q bq true) as (ok & d' & s2 & w2 & E2 & J2 & En2 & Ec2 & Hio2 & Ht2);
        try (by rewrite ?En1); try done; [by apply Ht1|lia|].
      exists ok, d', s2, w2. split_and!; try done; congruence.
    + exists false, d, s1, w1. split_and!; done.
Qed.

(** *** Connecting *)

Context (Hcorrupt : forall p c, ConnectBlock p = invalid c -> c = false)
  (Heffect : forall p b, harmless b (effect p b)).

Lemma act_transfer w s s' : act_inv w s -> index_ok s' -> watermark (Some w) s' -> moved s s' ->
  chainActive s' = chainActive s -> act_inv w s'.
Proof.
  intros J I W M E. split; try done.
  - apply (growing_agree (entries s)); [apply M|apply J].
  - apply (one_root_agree (entries s)); [apply M|apply J].
  - rewrite E. apply J.
  - apply M, J.
  - unfold Tip. rewrite E. apply (act_tip w s J).
Qed.

Lemma act_linked w s p a : act_inv w s -> linked (entries s) p -> is_ancestor (entries s) a p -> linked (entries s) a.
Proof. intros J. apply (linked_ancestors s []), J. Qed.

Lemma invalid_moved w s s' p c : act_inv w s -> ConnectBlock p = invalid c ->
  block_failed CBlockIndex.BLOCK_FAILED_VALID p s s' -> moved s s'.
Proof.
  intros J Hv [(b & Hb & Een) _ _ _]. apply moved_marks.
  - rewrite Een. by apply (agree_insert _ _ p b).
  - intros x (bx & Hx & Hf). rewrite Een in Hx. apply lookup_insert_Some in Hx as [[<- <-]|[_ Hx]]; [|by exists bx].
    rewrite failure_bits_failed in Hf; [done|by left].
  - intros x (bx & Hx & Hf) [_ Ha]. exists bx. split; [|done]. rewrite Een, lookup_insert_ne; [done|]. intros <-.
    destruct (Ha p) as [_ H]; [by apply (is_ancestor_self _ (act_tree w s J) p b)|congruence].
  - by apply (act_tree w s).
  - intros x a. by apply (act_linked w s).
Qed.

Lemma effect_ok w s p b : act_inv w s -> entries s !! p = Some b -> CBlockIndex.nTx b <> 0 ->
  let s' := set_entries (<[p := effect p b]> (entries s)) s in act_inv w s' /\ moved s s'.
Proof.
  intros J Hb Ht s'. destruct (Heffect p b) as (E1 & E2 & E3 & E4 & E5). pose proof (act_index w s J) as I.
  assert (agree but_status (entries s) (entries s')) as A by by apply (agree_insert _ _ p b).
  assert (forall x, clear (entries s') x <-> clear (entries s) x) as C.
  { intros x. change (entries s') with (<[p := effect p b]> (entries s)). split; intros (bx & Hx & Hf).
    - apply lookup_insert_Some in Hx as [[<- <-]|[_ Hx]]; [exists b; by rewrite <- E2|by exists bx].
    - destruct (decide (p = x)) as [<-|]; [exists (effect p b); rewrite lookup_insert_eq; simplify_eq; by rewrite E2|].
      exists bx. by rewrite lookup_insert_ne. }
  assert (moved s s') as M.
  { apply moved_marks; [done|intros x; apply C|intros x Hx _; by apply C|by apply (act_tree w s)|].
    intros x a. by apply (act_linked w s). }
  split; [|done]. apply (act_transfer w s); [done| | |done|done].
  - apply status_inv; [done|done| |].
    + intros x bx Hx. apply lookup_insert_Some in Hx as [[<- <-]|[_ Hx]]; [|by apply (inv_entry _ s I x)].
      destruct (inv_entry _ s I p b Hb) as [F1 F2 F3 F4 F5 F6]. unfold but_status, key in E1.
      assert (CBlockIndex.phashBlock (effect p b) = CBlockIndex.phashBlock b /\ CBlockIndex.nSequenceId (effect p b) = CBlockIndex.nSequenceId b /\
        CBlockIndex.nTx (effect p b) = CBlockIndex.nTx b /\ CBlockIndex.nChainTx (effect p b) = CBlockIndex.nChainTx b)
        as (G1 & G2 & G3 & G4) by (split_and!; congruence).
      destruct F4 as [F4 F4']. assert (3 <= level b) by by apply F4'.
      split; rewrite ?E3, ?G1, ?G2, ?G3, ?G4; try done; [by apply E5|]. split; [lia|split; [done|lia]].
    + intros x Hx. apply C. by apply (inv_active _ s I).
  - destruct (act_mark w s J) as [W1 W2 W3]. split.
    + intros x Hx. by apply (status_linked _ _ A), W1.
    + change (Tip s') with (Tip s). destruct (Tip s); [|done]. by rewrite (status_worse _ _ A).
    + intros x Hx Hc Hw. apply W3; [by apply (status_linked _ _ A)|by apply C|]. intros y Hy. rewrite <- (status_worse _ _ A). by apply Hw.
Qed.

#[local] Abbreviation ConnectTip := (ConnectTip ConnectBlock effect ReadBlockFromDisk FlushStateToDisk).
#[local] Abbreviation connect_blocks := (connect_blocks ConnectBlock effect ReadBlockFromDisk FlushStateToDisk).

(** The chain that leads to [m] is the one to switch to. *)
Definition on_the_way (s : state) (m : N) : Prop := linked (entries s) m /\ m ∈ setBlockIndexCandidates s /\
  forall a, is_ancestor (entries s) a m -> clear (entries s) a.

(** What a call of [ConnectTip] ends with. *)
Definition connection_post (s s' : state) (p m : N) (c : connection) : Prop :=
  match c with
  | connected => Tip s' = Some p /\ on_the_way s' m
  | rejected f => f = false /\ ~ clear (entries s') p /\ chainActive s' = chainActive s
  | system_error => ~ io_ok
  end.

Lemma ConnectTip_spec w s t p b m : act_inv w s -> Tip s = Some t -> entries s !! p = Some b -> CBlockIndex.pprev b = Some t ->
  on_the_way s m -> is_ancestor (entries s) p m ->
  exists c s' w', ConnectTip p s = Ok (c, s') /\ act_inv w' s' /\ moved s s' /\ connection_post s s' p m c.
Proof.
  intros J Et Hb Hpp (Hl & Hc & Hm) Ha. pose proof (act_index w s J) as I. pose proof (inv_base _ s I) as B.
  pose proof (act_tree w s J) as T. assert (linked (entries s) p) as Hlp by by apply (act_linked w s m).
  unfold ActivateChain.ConnectTip. rewrite (load_bind p b), get_bind by done. rewrite Et, Hpp.
  unfold assert_. rewrite bool_decide_eq_true_2, ret_bind by done.
  destruct (ReadBlockFromDisk s p) eqn:Er; cbn [negb].
  2: { exists system_error, s, w. split_and!; try done. intros (H & _). by rewrite H in Er. }
  destruct (ConnectBlock p) as [|c] eqn:Ev.
  - rewrite (update_bind p b), get_bind by done. destruct (effect_ok w s p b J Hb) as [J1 M1].
    { destruct Hlp as (b' & Hb' & Hn). simplify_eq. by apply (inv_linked _ s I p b). }
    set (s1 := set_entries (<[p := effect p b]> (entries s)) s) in *.
    destruct (FlushStateToDisk s1) eqn:Ef; cbn [negb].
    2: { exists system_error, s1, w. split_and!; try done. intros (_ & _ & H). by rewrite H in Ef. }
    assert (acceptable s1 p) as Hacc.
    { apply M1. split; [done|]. intros a Hap. assert (is_ancestor (entries s) a m) as Ham.
      { destruct (linked_alive _ _ Hl) as [bm Hbm]. by apply (is_ancestor_trans _ T a p m bm). }
      split; [by apply Hm|]. apply (is_ancestor_prev _ T a p b t Hb Hpp) in Hap as [->|Hap]; [done|].
      apply (active_acceptable w s t J); [by apply Tip_on_chain|done]. }
    destruct (act_move w s1 p J1 Hacc) as (w' & J2 & Et2).
    destruct (UpdateTip_ok s1 p) as [Eu _]; [apply (inv_base _ _ (act_index _ _ J1))|by apply acceptable_alive|].
    rewrite (bind_ok _ _ _ _ _ Eu). exists connected. eexists _, w'. split_and!; [done|done| |].
    + transitivity s1; [done|by apply moved_entries].
    + split; [done|]. pose proof (moved_status _ _ M1) as A. split_and!; [by apply (status_linked _ _ A)|done|].
      intros a Hap. cbn in Hap. apply (is_ancestor_agree (entries s)) in Hap; [|by apply status_shape].
      destruct (Hm a Hap) as (ba & Hba & Hfa). destruct (decide (p = a)) as [<-|].
      * exists (effect p b). cbn. rewrite lookup_insert_eq. split; [done|]. destruct (Heffect p b) as (_ & E2 & _). simplify_eq. congruence.
      * exists ba. cbn. by rewrite lookup_insert_ne.
  - assert (c = false) as -> by by apply (Hcorrupt p). assert (~ on_chain (chainActive s) p) as Hn.
    { intros Hn. apply (on_chain_height _ T _ p b (base_chain s B) Hb) in Hn. destruct (T p b Hb) as [_ H _]. rewrite Hpp in H.
      destruct H as (bt & Hbt & Hh). pose proof (Tip_path _ _ T (base_chain s B)) as Hp. fold (Tip s) in Hp. rewrite Et in Hp.
      destruct Hp as [_ Hp]. rewrite Hp in Hn. unfold CChain.Height in Hn. rewrite length_path, (height_of_lookup _ t bt) in Hn by done.
      assert (0 <= CBlockIndex.nHeight bt) by by apply (T t bt). lia. }
    destruct (InvalidBlockFound_spec s p b I Hb Hn) as (s1 & E1 & I1 & F1); [apply J|].
    rewrite (bind_ok _ _ _ _ _ E1). assert (moved s s1) as M1 by by apply (invalid_moved w s s1 p false).
    exists (rejected false), s1, w. split_and!; [done| |done|].
    + apply (act_transfer w s); [done|done| |done|apply F1]. apply (block_failed_mark CBlockIndex.BLOCK_FAILED_VALID p s s1); [by left|done|apply J].
    + cbn. split_and!; [done| |apply F1]. intros (b' & Hb' & Hf). destruct F1 as [(b0 & Hb0 & Een) _ _ _].
      rewrite Een, lookup_insert_eq in Hb'. simplify_eq. rewrite failure_bits_failed in Hf; [done|by left].
Qed.

Lemma Prune_act w s t m : act_inv w s -> Tip s = Some t -> on_the_way s m -> is_ancestor (entries s) t m ->
  exists l, PruneBlockIndexCandidates s = Ok (tt, set_setBlockIndexCandidates l s) /\
    act_inv w (set_setBlockIndexCandidates l s) /\ on_the_way (set_setBlockIndexCandidates l s) m.
Proof.
  intros J Et (Hl & Hc & Hm) Ha. assert (~ worse (entries s) m t) as Hmt.
  { intros Hw. destruct (decide (t = m)) as [->|Hne]; [by apply worse_irrefl in Hw|].
    apply (worse_irrefl (entries s) t). transitivity m; [|done].
    apply (ancestor_worse _ (act_tree w s J) (act_growing w s J)); [by apply linked_alive|done|done]. }
  destruct (Prune_spec s (Some w) t (act_index w s J) (act_mark w s J) Et) as (l & E & I' & W' & Hin); [by exists m|].
  exists l. split_and!; [done| |split_and!; [done|by apply Hin|done]].
  apply (act_transfer w s); [done|done|done|by apply moved_entries|done].
Qed.

(** What the loops end with: the tip moved up towards [m], or a block was marked. *)
Definition progress_post (s s' : state) (m top : N) (r : progress) : Prop :=
  match r with
  | more => Tip s' = Some top /\ on_the_way s' m
  | better => on_the_way s' m /\ exists t t' b b', Tip s = Some t /\ Tip s' = Some t' /\ entries s !! t = Some b /\ entries s !! t' = Some b' /\
      CBlockIndex.nHeight b < CBlockIndex.nHeight b' /\ is_ancestor (entries s) t' m
  | found_invalid => (clear_entries (entries s') < clear_entries (entries s))%nat
  | failed => ~ io_ok
  end.

Lemma InvalidChainFound_act w s p : act_inv w s -> alive (entries s) p ->
  exists s', InvalidChainFound p s = Ok (tt, s') /\ act_inv w s' /\ moved s s' /\ entries s' = entries s.
Proof.
  intros J Hp. pose proof (act_index w s J) as I. destruct (note_invalid_ok s p (inv_base _ s I) Hp) as (bi & E & Hbi).
  unfold InvalidChainFound, assert_. rewrite (bind_ok _ _ _ _ _ E), get_bind.
  change (Tip (set_pindexBestInvalid bi s)) with (Tip s). rewrite bool_decide_eq_true_2 by apply J.
  eexists. split; [done|]. split_and!; [|by apply moved_entries|done].
  apply (act_transfer w s); [done| |destruct (act_mark w s J); by split|by apply moved_entries|done].
  apply (index_inv_same _ (set_setBlockIndexCandidates (setBlockIndexCandidates s) (set_pindexBestInvalid bi s))); [done|].
  apply cands_inv; [done|apply (inv_base _ s I)|apply (inv_cands _ s I)|done].
Qed.

Lemma stop_test w s o : act_inv w s -> alive (entries s) o ->
  exists c, match Tip s with
            | Some t => bo ← load o; bt ← load t; mret (CompareTo (CBlockIndex.nChainTrust bt) (CBlockIndex.nChainTrust bo) >? 0)
            | None => lift (Err null_deref)
            end s = Ok (c, s).
Proof.
  intros J [bo Ho]. destruct (act_tip w s J) as [t Et]. rewrite Et.
  destruct (linked_alive _ _ (tip_linked _ s t (act_index w s J) Et)) as [bt Ht].
  rewrite (load_bind o bo), (load_bind t bt) by done. by eexists.
Qed.

Lemma moved_alive s s' p : moved s s' -> alive (entries s') p <-> alive (entries s) p.
Proof. intros M. apply (agree_alive but_status), M. Qed.

(** Progress after the tip has gone up. *)
Lemma progress_later s s1 s' m top r t b t1 b1 : moved s s1 -> Tip s = Some t -> entries s !! t = Some b ->
  Tip s1 = Some t1 -> entries s !! t1 = Some b1 -> CBlockIndex.nHeight b <= CBlockIndex.nHeight b1 ->
  progress_post s1 s' m top r -> progress_post s s' m top r.
Proof.
  intros M Et Hb Et1 Hb1 Hle. pose proof (moved_status _ _ M) as A. destruct r; cbn; [done| | |done].
  - intros (H1 & x1 & x2 & c1 & c2 & H2 & H3 & H4 & H5 & H6 & H7). split; [done|].
    destruct (agree_lookup_back _ _ _ _ _ A H4) as (c1' & H4' & E4). destruct (agree_lookup_back _ _ _ _ _ A H5) as (c2' & H5' & E5).
    assert (x1 = t1) as -> by congruence. assert (c1' = b1) as -> by congruence. unfold but_status, shape in *.
    exists t, x2, b, c2'. split_and!; try done.
    + replace (CBlockIndex.nHeight c2') with (CBlockIndex.nHeight c2) by congruence.
      replace (CBlockIndex.nHeight b1) with (CBlockIndex.nHeight c1) in Hle by congruence. lia.
    + apply (is_ancestor_agree (entries s) (entries s1)); [by apply status_shape|done].
  - intros H. eapply Nat.lt_le_trans; [exact H|]. by apply clear_entries_le, M.
Qed.

Lemma connect_blocks_spec o back l w s t top m : act_inv w s -> Tip s = Some t -> alive (entries s) o -> alive (entries s) back ->
  on_the_way s m -> climbs (entries s) t l top -> is_ancestor (entries s) top m ->
  exists r s' w', connect_blocks (Some o) back l s = Ok (r, s') /\ act_inv w' s' /\ moved s s' /\ progress_post s s' m top r.
Proof.
  revert w s t. induction l as [|p l IH]; intros w s t J Et Ho Hback Hway Hcl Htop; cbn [ActivateChain.connect_blocks].
  { cbn in Hcl. subst t. exists more, s, w. split_and!; done. }
  destruct Hcl as [(b & Hb & Hpp) Hcl]. pose proof (act_tree w s J) as T.
  destruct (climbs_ancestor _ p l top b T Hb Hcl) as [[btop Hbtop] Hptop]. destruct (linked_alive _ _ (proj1 Hway)) as [bm Hbm].
  assert (is_ancestor (entries s) p m) as Hpm by by apply (is_ancestor_trans _ T p top m bm).
  destruct (ConnectTip_spec w s t p b m J Et Hb Hpp Hway Hpm) as (c & s1 & w1 & E1 & J1 & M1 & Hpost).
  rewrite (bind_ok _ _ _ _ _ E1). destruct c as [|f|]; cbn in Hpost.
  - destruct Hpost as [Et1 Hway1]. pose proof (moved_status _ _ M1) as A. pose proof (status_shape _ _ A) as Sh.
    destruct (Prune_act w1 s1 p m J1 Et1 Hway1) as (cs & E2 & J2 & Hway2); [by apply (is_ancestor_agree (entries s))|].
    rewrite (bind_ok _ _ _ _ _ E2), get_bind. set (s2 := set_setBlockIndexCandidates cs s1) in *.
    assert (moved s s2) as M2 by (transitivity s1; [done|by apply moved_entries]).
    destruct (stop_test w1 s2 o J2) as [stop Es]; [by apply (moved_alive s s2)|].
    rewrite (bind_ok _ _ _ _ _ Es). destruct (T p b Hb) as [_ Hprev _]. rewrite Hpp in Hprev. destruct Hprev as (bt & Hbt & Hh).
    destruct stop.
    + exists better, s2, w1. split_and!; try done. cbn. split; [done|]. exists t, p, bt, b. split_and!; try done. lia.
    + destruct (IH w1 s2 p) as (r & s3 & w3 & E3 & J3 & M3 & Hpost3); try done.
      * by apply (moved_alive s s2).
      * by apply (moved_alive s s2).
      * by apply (climbs_agree (entries s)).
      * by apply (is_ancestor_agree (entries s)).
      * exists r, s3, w3. split_and!; [done|done|by transitivity s2|].
        apply (progress_later s s2 s3 m top r t bt p b); try done. lia.
  - destruct Hpost as (-> & Hnc & _). cbn [negb].
    destruct (InvalidChainFound_act w1 s1 back J1) as (s2 & E2 & J2 & M2 & Een); [by apply (moved_alive s s1)|].
    rewrite (bind_ok _ _ _ _ _ E2). assert (moved s s2) as M by by transitivity s1.
    exists found_invalid, s2, w1. split_and!; try done. cbn. apply (clear_entries_lt _ _ p); [apply M| |by rewrite Een].
    destruct Hway as (_ & _ & Hm). by apply Hm.
  - exists failed, s1, w1. done.
Qed.

Lemma to_connect_ok fuel p b t bt s : tree_ok (entries s) -> entries s !! p = Some b -> entries s !! t = Some bt ->
  is_ancestor (entries s) t p -> CBlockIndex.nHeight b - CBlockIndex.nHeight bt <= Z.of_nat fuel ->
  exists l, to_connect fuel (Some p) (CBlockIndex.nHeight bt) s = Ok (l, s) /\ climbs (entries s) t (reverse l) p /\ (t <> p -> l <> []).
Proof.
  intros T. revert p b. induction fuel as [|fuel IH]; intros p b Hp Ht Ha Hf; cbn [to_connect]; rewrite (load_bind p b) by done;
    destruct (Z.eqb_spec (CBlockIndex.nHeight b) (CBlockIndex.nHeight bt)) as [E|E];
    try (exists []; assert (t = p) as -> by (by apply (is_ancestor_same_height _ T t p bt b)); split_and!; done);
    pose proof (is_ancestor_height _ T t p b bt Hp Ht Ha) as [Hle _]; [lia|].
  destruct (is_ancestor_step _ T t p b Hp Ha) as (q & bq & Eq & Hq & Haq & Hh); [intros ->; congruence|].
  destruct (IH q bq) as (l & El & Hc & _); [done|done|done|lia|]. rewrite Eq, (bind_ok _ _ _ _ _ El).
  exists (p :: l). split_and!; [done| |done]. rewrite reverse_cons. by apply (climbs_snoc _ t _ q p b).
Qed.

#[local] Abbreviation connect_loop := (connect_loop ConnectBlock effect ReadBlockFromDisk FlushStateToDisk).

Lemma connect_loop_spec fuel w s t bt m bm o : act_inv w s -> Tip s = Some t -> entries s !! t = Some bt -> entries s !! m = Some bm ->
  alive (entries s) o -> on_the_way s m -> is_ancestor (entries s) t m ->
  CBlockIndex.nHeight bm - CBlockIndex.nHeight bt <= Z.of_nat fuel ->
  exists r s' w', connect_loop fuel (Some o) m (CBlockIndex.nHeight bt) s = Ok (r, s') /\ act_inv w' s' /\ moved s s' /\
    progress_post s s' m m r.
Proof.
  revert w s t bt bm. induction fuel as [|fuel IH]; intros w s t bt bm J Et Hbt Hbm Ho Hway Ha Hf; cbn [ActivateChain.connect_loop];
    rewrite (load_bind m bm) by done; pose proof (act_tree w s J) as T;
    destruct (Z.eqb_spec (CBlockIndex.nHeight bt) (CBlockIndex.nHeight bm)) as [E|E];
    try (exists more, s, w; assert (t = m) as -> by (by apply (is_ancestor_same_height _ T t m bt bm)); split_and!; done);
    pose proof (is_ancestor_height _ T t m bm bt Hbm Hbt Ha) as [Hle _]; [lia|].
  assert (0 <= CBlockIndex.nHeight bt) by by apply (T t bt).
  set (target := Z.min (CBlockIndex.nHeight bt + 32) (CBlockIndex.nHeight bm)).
  destruct (ancestor_at_total _ T m bm target) as (p & bp & Hp & Hbp & Hhp); [done|lia|].
  rewrite get_bind, (lift_bind (Some p)).
  2: { rewrite (GetAncestor_spec _ T m bm) by done. rewrite (proj2 (Z.ltb_ge _ _)) by lia.
       destruct (Z.gtb_spec target (CBlockIndex.nHeight bm)); [lia|]. cbn [orb]. by rewrite Hp. }
  assert (is_ancestor (entries s) p m) as Hpm.
  { exists target. rewrite (height_of_lookup _ m bm) by done. split; [lia|done]. }
  assert (is_ancestor (entries s) t p) as Htp by (apply (is_ancestor_comparable _ T t p m bt bp bm); try done; lia).
  destruct (to_connect_ok 33 p bp t bt s T Hbp Hbt Htp) as (l & El & Hcl & Hne); [lia|].
  rewrite (bind_ok _ _ _ _ _ El). destruct (last l) as [back|] eqn:Elast.
  2: { apply last_None in Elast. subst l. destruct Hne; [|done]. intros ->. simplify_eq. lia. }
  assert (alive (entries s) back) as Hback.
  { apply last_Some in Elast as [l' ->]. rewrite reverse_snoc in Hcl. destruct Hcl as [(bb & Hbb & _) _]. by exists bb. }
  destruct (connect_blocks_spec o back (reverse l) w s t p m J Et Ho Hback Hway Hcl Hpm) as (r & s1 & w1 & E1 & J1 & M1 & Hpost).
  rewrite (bind_ok _ _ _ _ _ E1). destruct r; try (eexists _, s1, w1; by split_and!).
  destruct Hpost as [Et1 Hway1]. pose proof (moved_status _ _ M1) as A. pose proof (status_shape _ _ A) as Sh.
  destruct (agree_lookup _ _ _ _ _ A Hbp) as (bp1 & Hbp1 & Ep). destruct (agree_lookup _ _ _ _ _ A Hbm) as (bm1 & Hbm1 & Em).
  assert (CBlockIndex.nHeight bp1 = target /\ CBlockIndex.nHeight bm1 = CBlockIndex.nHeight bm) as [G1 G2]
    by (unfold but_status, shape in *; split; congruence).
  destruct (IH w1 s1 p bp1 bm1) as (r & s2 & w2 & E2 & J2 & M2 & Hpost2); try done.
  - by apply (moved_alive s s1).
  - by apply (is_ancestor_agree (entries s)).
  - lia.
  - rewrite G1 in E2. exists r, s2, w2. split_and!; [done|done|by transitivity s1|].
    apply (progress_later s s1 s2 m m r t bt p bp); try done. lia.
Qed.

(** *** A step *)

#[local] Abbreviation ActivateBestChainStep :=
  (ActivateBestChainStep ConnectBlock effect ReadBlockFromDisk DisconnectBlock FlushStateToDisk).

(** A step without an invalid block ends on the way to [m], above the fork. *)
Definition step_post (s s' : state) (m : N) (r : option bool) : Prop :=
  match r with
  | Some false => on_the_way s' m /\ exists f bf t b, last_common (entries s) (chainActive s) m (Some f) /\ entries s !! f = Some bf /\
      Tip s' = Some t /\ entries s !! t = Some b /\ is_ancestor (entries s) t m /\ CBlockIndex.nHeight bf < CBlockIndex.nHeight b
  | Some true => (clear_entries (entries s') < clear_entries (entries s))%nat
  | None => ~ io_ok
  end.

Lemma fork_exists w s m : act_inv w s -> alive (entries s) m ->
  exists f bf, CChain.FindFork (entries s) (chainActive s) (Some m) = Ok (Some f) /\ entries s !! f = Some bf /\
    last_common (entries s) (chainActive s) m (Some f).
Proof.
  intros J [bm Hm]. pose proof (act_tree w s J) as T. pose proof (inv_base _ s (act_index w s J)) as B.
  destruct (FindFork_spec _ T _ m bm (base_chain s B) Hm) as ([f|] & E & Hlc).
  - assert (is_ancestor (entries s) f m) as Hf by apply Hlc. destruct (is_ancestor_alive _ T f m bm Hm Hf) as [bf Hbf]. by exists f, bf.
  - exfalso. destruct (act_tip w s J) as [t Et]. pose proof (Tip_on_chain s t B Et) as Hon.
    destruct (linked_alive _ _ (tip_linked _ s t (act_index w s J) Et)) as [bt Hbt].
    destruct (root_ancestor _ T t bt Hbt) as (r & br & Hr & Er & Hrt). destruct (root_ancestor _ T m bm Hm) as (r' & br' & Hr' & Er' & Hrm).
    assert (r' = r) as -> by by apply (act_root w s J r' r br' br). apply (Hlc r); [done|].
    by apply (on_chain_ancestor _ T _ r t bt); [apply B|..].
Qed.

Lemma ActivateBestChainStep_spec w s m : act_inv w s -> on_the_way s m -> ~ on_chain (chainActive s) m ->
  exists r s' w', ActivateBestChainStep m s = Ok (r, s') /\ act_inv w' s' /\ moved s s' /\ step_post s s' m r.
Proof.
  intros J Hway Hnm. pose proof (act_tree w s J) as T. pose proof (inv_base _ s (act_index w s J)) as B.
  destruct (linked_alive _ _ (proj1 Hway)) as [bm Hm]. destruct (act_tip w s J) as [t Et].
  destruct (linked_alive _ _ (tip_linked _ s t (act_index w s J) Et)) as [bt Hbt].
  destruct (fork_exists w s m J) as (f & bf & Ef & Hbf & Hlc); [by exists bm|]. pose proof Hlc as (Hon & Hfm & _).
  pose proof (Tip_path _ _ T (base_chain s B)) as Hpath. fold (Tip s) in Hpath. rewrite Et in Hpath. destruct Hpath as [_ Hpath].
  assert (is_ancestor (entries s) f t) as Hft by (rewrite Hpath in Hon; by apply (path_on_chain _ t bt f T Hbt)).
  unfold ActivateChain.ActivateBestChainStep. rewrite get_bind, Et, (lift_bind (Some f)) by done.
  destruct (disconnect_loop_spec (length (chainActive s)) w s t bt f bf false J Et Hbt Hbf Hft) as (ok & d & s1 & w1 & E1 & J1 & En1 & Ec1 & Hio1 & Ht1).
  { assert (0 <= CBlockIndex.nHeight bf) by by apply (T f bf). rewrite Hpath, length_path, (height_of_lookup _ t bt) by done. lia. }
  rewrite (bind_ok _ _ _ _ _ E1). cbv beta iota. assert (moved s s1) as M1 by by apply moved_entries.
  destruct ok; cbn [negb]; [|exists None, s1, w1; split_and!; try done; cbn; intros H; by specialize (Hio1 H)].
  specialize (Ht1 eq_refl). rewrite <- En1 in Hbf, Hbt, Hm.
  assert (on_the_way s1 m) as Hway1 by (unfold on_the_way in *; by rewrite En1, Ec1).
  erewrite bind_ok; [|rewrite (load_bind f bf) by done; reflexivity]. rewrite (load_bind m bm) by done.
  destruct (connect_loop_spec (S (Z.to_nat (CBlockIndex.nHeight bm))) w1 s1 f bf m bm t) as (r & s2 & w2 & E2 & J2 & M2 & Hpost); try done.
  { by exists bt. } { by rewrite En1. } { assert (0 <= CBlockIndex.nHeight bf) by (by apply (act_tree w1 s1 J1 f bf)). lia. }
  rewrite (bind_ok _ _ _ _ _ E2). assert (moved s s2) as M by by transitivity s1.
  destruct (act_tip w2 s2 J2) as [t2 Et2]. destruct (linked_alive _ _ (tip_linked _ s2 t2 (act_index w2 s2 J2) Et2)) as [bt2 Hbt2].
  assert ((if d then match Tip s2 with Some t => _ ← load t; mret tt | None => lift (Err null_deref) end else mret tt) s2 = Ok (tt, s2)) as Ed.
  { destruct d; [|done]. by rewrite Et2, (load_bind t2 bt2). }
  assert (f <> m) as Hfne by (intros ->; done).
  rewrite En1 in Hbf, Hbt, Hm. destruct r; cbn in Hpost.
  - rewrite get_bind, (bind_ok _ _ _ _ _ Ed). exists (Some false), s2, w2. split_and!; try done. cbn. destruct Hpost as [Hpt Hway2].
    split; [done|]. exists f, bf, m, bm. split; [exact Hlc|]. split_and!; try done; [apply (is_ancestor_self _ T m bm Hm)|].
    pose proof (is_ancestor_height _ T f m bm bf Hm Hbf Hfm) as [Hle _].
    destruct (decide (CBlockIndex.nHeight bf = CBlockIndex.nHeight bm)) as [Heq|]; [|lia].
    by apply (is_ancestor_same_height _ T f m bf bm) in Heq.
  - rewrite get_bind, (bind_ok _ _ _ _ _ Ed). exists (Some false), s2, w2. split_and!; try done. cbn.
    destruct Hpost as (Hway2 & x1 & x2 & c1 & c2 & H1 & H2 & H3 & H4 & H5 & H6). split; [done|]. rewrite En1 in H3, H4, H6.
    assert (x1 = f) as -> by congruence. exists f, bf, x2, c2. split; [exact Hlc|]. split_and!; try done. by simplify_eq.
  - rewrite get_bind, (bind_ok _ _ _ _ _ Ed). exists (Some true), s2, w2. split_and!; try done. cbn. by rewrite <- En1.
  - exists None, s2, w2. done.
Qed.

(** *** All rounds *)

(** [m] is the best of the acceptable blocks. *)
Definition best_block (s : state) (m : N) : Prop :=
  acceptable s m /\ forall q, acceptable s q -> q = m \/ worse (entries s) q m.

Lemma worse_moved s s' x y : moved s s' -> worse (entries s') x y <-> worse (entries s) x y.
Proof. intros M. apply status_worse, M. Qed.

Lemma best_moved s s' m : moved s s' -> best_block s' m <-> best_block s m.
Proof.
  intros M. unfold best_block. rewrite (moved_acceptable _ _ M). split; intros [H1 H2]; (split; [done|]); intros q Hq.
  - destruct (H2 q) as [?|Hw]; [by apply M|by left|right]. by apply (worse_moved s s').
  - destruct (H2 q) as [?|Hw]; [by apply M|by left|right]. by apply (worse_moved s s').
Qed.

(** The block to go for: nothing acceptable is better. *)
Definition target (s : state) (m : N) : Prop :=
  on_the_way s m /\ forall q, acceptable s q -> q = m \/ worse (entries s) q m.

Lemma acceptable_usable w s p : act_inv w s -> acceptable s p -> usable s p.
Proof.
  intros J [Hl Ha] a b Hap _ Hb. destruct (Ha a Hap) as [(b' & Hb' & Hf) _]. simplify_eq. split; [done|].
  destruct (act_linked w s p a J Hl Hap) as (b' & Hb' & Hn). simplify_eq. by apply (linked_data s [] a b (act_index w s J)).
Qed.

Lemma FindMostWorkChain_act w s : act_inv w s ->
  exists m s', FindMostWorkChain s = Ok (Some m, s') /\ act_inv w s' /\ moved s s' /\ target s' m /\ chainActive s' = chainActive s.
Proof.
  intros J. pose proof (act_index w s J) as I. pose proof (inv_base _ s I) as B. pose proof (act_best w s J) as Hw.
  assert (forall q, acceptable s q -> ~ worse (entries s) q w -> q ∈ setBlockIndexCandidates s) as Hcand.
  { intros q [Hl Ha] Hq. apply (mark_cands _ s (act_mark w s J)); [done| |by intros x [= <-]].
    destruct (linked_alive _ _ Hl) as [b Hb]. by apply (Ha q), (is_ancestor_self _ (base_tree s B) q b). }
  assert (w ∈ setBlockIndexCandidates s) as Hwc by (apply Hcand; [done|apply worse_irrefl]).
  assert (usable s w) as Hwu by by apply (acceptable_usable w).
  destruct (FindMostWorkChain_spec s B (inv_cands_linked _ s I)) as (r & s1 & E & D & Hr & Hlast).
  destruct r as [m|]; [|by destruct (Hr w)]. destruct Hr as (Hm & Hmu & Hmax). exists m, s1.
  assert (agree but_status (entries s) (entries s1)) as A by apply failure_status, discarded_agree, D.
  assert (moved s s1) as M.
  { apply moved_marks; [done| | |apply B|intros x a; by apply (act_linked w s)].
    - intros x (b & Hb & Hf). destruct (disc_entries s s1 D x) as [Ex|(b0 & E0 & E1 & _)]; [exists b; by rewrite <- Ex|].
      assert (b = mark_child b0) as -> by congruence. by rewrite mark_child_failed in Hf.
    - intros x (b & Hb & Hf) [Hl Ha]. destruct (disc_entries s s1 D x) as [Ex|(b0 & E0 & E1 & a & ba & Hax & _ & Hba & Hfa)]; [exists b; by rewrite Ex|].
      destruct (Ha a Hax) as [(ba' & Hba' & Hfa') _]. unfold is_failed in Hfa. simplify_eq. congruence. }
  assert (act_inv w s1) as J1.
  { apply (act_transfer w s); [done|by apply (discarded_inv s)|apply (discarded_mark s); [done|done|apply J]|done|by apply discarded_chain]. }
  split_and!; [done|done|done| |by apply discarded_chain]. split.
  - assert (linked (entries s) m) as Hl by by apply (inv_cands _ s I). split_and!; [by apply (status_linked _ _ A)| |].
    + apply (set_last (entries s1) _ m); [apply (disc_base _ _ D)|done].
    + intros a Ha. apply (is_ancestor_agree (entries s)) in Ha; [|by apply status_shape].
      destruct (decide (on_chain (chainActive s1) a)) as [Hon|Hoff]; [by apply (inv_active _ s1 (act_index w s1 J1))|].
      destruct (act_linked w s m a J Hl Ha) as (ba & Hba & _). destruct (agree_lookup _ _ _ _ _ A Hba) as (ba1 & Hba1 & _).
      exists ba1. split; [done|]. assert (usable s1 m) as Hu1 by (apply (discarded_usable s); [done|done|by apply linked_alive|done]).
      apply (Hu1 a ba1); [by apply (is_ancestor_agree (entries s)); [apply status_shape|]|done|done].
  - intros q Hq. apply M in Hq. rewrite (worse_moved s s1) by done.
    assert (w = m \/ worse (entries s) w m) as Hwm by by apply Hmax.
    destruct (worse_total (entries s) q w) as [Hlt|Hge]; [by apply acceptable_alive|by apply acceptable_alive|..].
    + right. destruct Hwm as [<-|?]; [done|by transitivity w].
    + apply Hmax; [|by apply (acceptable_usable w)]. apply Hcand; [done|]. destruct Hge as [->|Hge]; [apply worse_irrefl|].
      intros Hx. apply (worse_irrefl (entries s) q). by transitivity w.
Qed.

(** A block that nothing acceptable beats is the tip or off the chain. *)
Lemma target_off_chain w s m t : act_inv w s -> target s m -> Tip s = Some t -> t <> m -> ~ on_chain (chainActive s) m.
Proof.
  intros J [_ Hmax] Et Hne Hon. pose proof (inv_base _ s (act_index w s J)) as B. pose proof (act_tree w s J) as T.
  destruct (linked_alive _ _ (tip_linked _ s t (act_index w s J) Et)) as [bt Hbt].
  destruct (Hmax t) as [?|Hw]; [by apply (active_acceptable w), Tip_on_chain|done|].
  pose proof (Tip_path _ _ T (base_chain s B)) as Hp. fold (Tip s) in Hp. rewrite Et in Hp. destruct Hp as [_ Hp]. rewrite Hp in Hon.
  apply (path_on_chain _ t bt m T Hbt) in Hon. apply (worse_irrefl (entries s) m). transitivity t; [|done].
  apply (ancestor_worse _ T (act_growing w s J)); [by exists bt|done|done].
Qed.

#[local] Abbreviation ActivateBestChain_loop :=
  (ActivateBestChain_loop ConnectBlock effect ReadBlockFromDisk DisconnectBlock FlushStateToDisk).

(** The way to go from the tip to [m]. *)
Definition distance (s : state) (m : N) : nat :=
  match Tip s with Some t => Z.to_nat (height_of (entries s) m - height_of (entries s) t) | None => 0%nat end.

(** What decreases from round to round. *)
Definition rank (H : nat) (s : state) (most : option N) : nat :=
  (clear_entries (entries s) * (H + 3) + match most with None => H + 2 | Some m => distance s m end)%nat.

Definition heading (s : state) (most : option N) : Prop :=
  match most with None => True | Some m => target s m /\ exists t, Tip s = Some t /\ t <> m /\ is_ancestor (entries s) t m end.

(** The round picks a target, its own or the best candidate. *)
Lemma pick w s most : act_inv w s -> heading s most ->
  exists m s1, match most with Some p => mret (Some p) | None => FindMostWorkChain end s = Ok (Some m, s1) /\
    act_inv w s1 /\ moved s s1 /\ target s1 m /\ chainActive s1 = chainActive s /\
    (most = None \/ most = Some m /\ s1 = s).
Proof.
  intros J Hh. destruct most as [m|].
  - exists m, s. destruct Hh as [Ht _]. split_and!; try done. by right.
  - destruct (FindMostWorkChain_act w s J) as (m & s1 & E & J1 & M1 & T1 & C1). exists m, s1. split_and!; try done. by left.
Qed.

Lemma moved_height s s' p : moved s s' -> height_of (entries s') p = height_of (entries s) p.
Proof.
  intros M. pose proof (status_shape _ _ (moved_status _ _ M) p) as E. unfold height_of, shape in *.
  destruct (entries s' !! p), (entries s !! p); cbn in *; congruence.
Qed.

(** A step without an invalid block comes closer. *)
Lemma step_closer H w s s1 s2 m most t2 : act_inv w s -> heading s most -> (most = None \/ most = Some m /\ s1 = s) ->
  (forall p, height_of (entries s) p <= Z.of_nat H) -> moved s s1 -> moved s1 s2 ->
  step_post s1 s2 m (Some false) -> Tip s2 = Some t2 -> t2 <> m ->
  (rank H s2 (Some m) < rank H s most)%nat /\ exists t, Tip s2 = Some t /\ t <> m /\ is_ancestor (entries s2) t m.
Proof.
  intros J Hh Hmost HH M1 M2 (_ & f & bf & t & b & Hlc & Hf & Et & Hb & Ha & Hlt) Et2 Hne. assert (t2 = t) as -> by congruence.
  assert (moved s s2) as M by by transitivity s1.
  assert (clear_entries (entries s2) <= clear_entries (entries s))%nat as Hcl by apply clear_entries_le, M.
  split.
  2: { exists t. split_and!; try done. apply (is_ancestor_agree (entries s1)); [apply status_shape, M2|done]. }
  unfold rank, distance. rewrite Et, !(moved_height s s2 _ M). pose proof (HH m) as Hm. pose proof (HH t) as Ht.
  assert (0 <= height_of (entries s) t) as Ht0.
  { rewrite <- (moved_height s s1 t M1), (height_of_lookup _ t b) by done.
    destruct (agree_lookup_back _ _ _ _ _ (moved_status _ _ M1) Hb) as (b0 & Hb0 & E). pose proof (act_tree w s J t b0 Hb0) as [? _ _].
    unfold but_status, shape in E. replace (CBlockIndex.nHeight b) with (CBlockIndex.nHeight b0) by congruence. lia. }
  destruct Hmost as [->|[-> ->]]; [nia|]. destruct Hh as [[[Hlm _] _] (t0 & Et0 & Hne0 & Ha0)]. rewrite Et0.
  assert (height_of (entries s) t0 < height_of (entries s) t).
  { rewrite (height_of_lookup _ t b) by done. destruct Hlc as (_ & _ & Hmax).
    pose proof (Hmax t0 (Tip_on_chain s t0 (inv_base _ s (act_index w s J)) Et0) Ha0) as Hx. rewrite (height_of_lookup _ f bf) in Hx by done. lia. }
  assert (height_of (entries s) t <= height_of (entries s) m).
  { destruct (linked_alive _ _ Hlm) as [bm Hbm]. rewrite (height_of_lookup _ t b), (height_of_lookup _ m bm) by done.
    by apply (is_ancestor_height _ (act_tree w s J) t m bm b Hbm Hb). }
  nia.
Qed.

Definition finished (s : state) (r : bool) (s' : state) : Prop :=
  (io_ok -> r = true) /\ (r = true -> exists t, Tip s' = Some t /\ best_block s t).

(** The tip is a target. *)
Lemma at_target w s s' t : act_inv w s' -> moved s s' -> Tip s' = Some t -> (forall q, acceptable s' q -> q = t \/ worse (entries s') q t) ->
  best_block s t.
Proof.
  intros J M Et Hmax. apply (best_moved s s' t M). split; [|done].
  apply (active_acceptable w s' t J), Tip_on_chain; [apply (inv_base _ s' (act_index w s' J))|done].
Qed.

(** A round ends the loop or comes closer. *)
Lemma round H w s most : act_inv w s -> heading s most -> (forall p, height_of (entries s) p <= Z.of_nat H) ->
  exists s' w', act_inv w' s' /\ moved s s' /\
    ((exists r, (forall fuel, ActivateBestChain_loop fuel most s = Ok (r, s')) /\ finished s r s') \/
     (exists most', (forall fuel, ActivateBestChain_loop (S fuel) most s = ActivateBestChain_loop fuel most' s') /\
        heading s' most' /\ (rank H s' most' < rank H s most)%nat)).
Proof.
  intros J Hh HH. destruct (pick w s most J Hh) as (m & s1 & E1 & J1 & M1 & T1 & C1 & Hmost).
  destruct (act_tip w s1 J1) as [t Et]. assert (Tip s = Some t) as Ets by (unfold Tip in *; by rewrite <- C1).
  destruct (decide (t = m)) as [->|Hne].
  { exists s1, w. split_and!; [done|done|]. left. exists true. split.
    - intros []; cbn [ActivateChain.ActivateBestChain_loop]; by rewrite get_bind, (bind_ok _ _ _ _ _ E1), Ets, bool_decide_eq_true_2.
    - split; [done|]. intros _. exists m. split; [done|]. by apply (at_target w s s1); [..|apply T1]. }
  destruct (ActivateBestChainStep_spec w s1 m J1 (proj1 T1)) as (r & s2 & w2 & E2 & J2 & M2 & Hpost); [by apply (target_off_chain w s1 m t)|].
  assert (moved s s2) as M by by transitivity s1. exists s2, w2. split_and!; [done|done|].
  destruct r as [found|].
  2: { left. exists false. split; [|split; [intros Hio; by destruct Hpost|done]].
       intros []; cbn [ActivateChain.ActivateBestChain_loop]; rewrite get_bind, (bind_ok _ _ _ _ _ E1), Ets, bool_decide_eq_false_2 by congruence;
         by rewrite (bind_ok _ _ _ _ _ E2). }
  destruct (act_tip w2 s2 J2) as [t2 Et2]. set (most' := if found then None else Some m).
  assert (forall fuel, ActivateBestChain_loop fuel most s =
    if bool_decide (Some t2 = most') then Ok (FlushStateToDisk s2, s2)
    else match fuel with O => Err out_of_fuel | S fuel' => ActivateBestChain_loop fuel' most' s2 end) as Eloop.
  { intros []; cbn [ActivateChain.ActivateBestChain_loop]; rewrite get_bind, (bind_ok _ _ _ _ _ E1), Ets, bool_decide_eq_false_2 by congruence;
      rewrite (bind_ok _ _ _ _ _ E2), get_bind, Et2; fold most'; by destruct (bool_decide _). }
  destruct found.
  - right. exists None. split_and!; [intros fuel; by rewrite Eloop|done|]. cbn in Hpost. unfold rank.
    assert (clear_entries (entries s1) <= clear_entries (entries s))%nat by apply clear_entries_le, M1. destruct most; nia.
  - destruct (decide (t2 = m)) as [->|Hne2].
    + left. eexists. split; [intros fuel; rewrite Eloop; by rewrite bool_decide_eq_true_2|]. split; [intros (_ & _ & Hfl); apply Hfl|].
      intros _. exists m. split; [done|]. apply (at_target w2 s s2); [done|done|done|]. intros q Hq. apply M2 in Hq.
      rewrite (worse_moved s1 s2) by done. by apply T1.
    + right. exists (Some m). destruct (step_closer H w s s1 s2 m most t2) as [Hr Hx]; try done. split_and!; [|split; [|done]|done].
      * intros fuel. rewrite Eloop. by rewrite bool_decide_eq_false_2 by (unfold most'; congruence).
      * split; [apply Hpost|]. intros q Hq. apply M2 in Hq. rewrite (worse_moved s1 s2) by done. by apply T1.
Qed.

Lemma ActivateBestChain_loop_spec H fuel w s most : act_inv w s -> heading s most ->
  (forall p, height_of (entries s) p <= Z.of_nat H) -> (rank H s most <= fuel)%nat ->
  exists r s' w', ActivateBestChain_loop fuel most s = Ok (r, s') /\ act_inv w' s' /\ moved s s' /\ finished s r s'.
Proof.
  revert w s most. induction fuel as [|fuel IH]; intros w s most J Hh HH Hf;
    destruct (round H w s most J Hh HH) as (s1 & w1 & J1 & M1 & [(r & E & Hfin)|(most1 & E & Hh1 & Hr)]);
    try (exists r, s1, w1; by split_and!); [lia|].
  destruct (IH w1 s1 most1 J1 Hh1) as (r & s2 & w2 & E2 & J2 & M2 & Hio & Hbest).
  - intros p. by rewrite (moved_height s s1).
  - lia.
  - exists r, s2, w2. rewrite E. split_and!; [done|done|by transitivity s1|]. split; [done|]. intros Hr1.
    destruct (Hbest Hr1) as (t & Et & Hb). exists t. split; [done|]. by apply (best_moved s s1).
Qed.

Lemma ActivateBestChain_spec w s : act_inv w s ->
  exists r s' w', ActivateBestChain ConnectBlock effect ReadBlockFromDisk DisconnectBlock FlushStateToDisk s = Ok (r, s') /\
    act_inv w' s' /\ moved s s' /\ finished s r s'.
Proof.
  intros J. unfold ActivateBestChain. rewrite get_bind. apply (ActivateBestChain_loop_spec (max_height (entries s)) _ w); [done|done| |].
  - intros p. unfold height_of. destruct (entries s !! p) as [b|] eqn:Eb; cbn; [|lia]. pose proof (max_height_bound _ p b Eb). lia.
  - unfold rank, activation_rounds. lia.
Qed.
End correct.

(** ** How the state comes about *)

Lemma act_genesis ConnectBlock p hash b : genesis_ok hash b -> ConnectBlock p = valid -> act_inv ConnectBlock p (genesis_state p hash b).
Proof.
  intros G Hv. destruct (genesis_inv p hash b G) as [I W]. pose proof (genesis_tree p hash b G) as T.
  assert (CBlockIndex.pprev b = None) as Ep by (pose proof (gen_shape _ _ G) as E; unfold shape in E; congruence).
  split; cbn [entries genesis_state]; try done.
  - intros x bx q bq Hx Hq. apply lookup_singleton_Some in Hx as [<- <-]. congruence.
  - intros x q bx c Hx Hc. by apply lookup_singleton_Some in Hx as [<- <-], Hc as [<- <-].
  - intros x Hx. unfold on_chain in Hx. cbn in Hx. by apply list_elem_of_singleton in Hx as [= ->].
  - split; [by apply (mark_linked _ _ W)|]. intros a Ha.
    assert (a = p) as -> by (apply (is_ancestor_root _ T a p b); [by apply lookup_singleton_eq|done|done]).
    split; [|done]. exists b. split; [apply lookup_singleton_eq|apply G].
Qed.

(** A new header with a target, on top of a known block. *)
Record header_fits (be : bool) (Hash : list Z -> list Z) (block : CBlockHeader) (pos : bool) (s : state) : Prop := {
  hf_self : Header.hashPrevBlock block <> block_hash be Hash block;
  hf_bits : is_u 32 (Header.nBits block);
  hf_prev : exists q bq T, mapBlockIndex s !! Header.hashPrevBlock block = Some q /\ entries s !! q = Some bq /\
    CBlockIndex.nHeight bq < 2 ^ 31 - 1 /\ target_of (Header.nBits block) = Some T /\
    val (CBlockIndex.nChainTrust bq) + (if pos then 2 ^ 256 / (T + 1) else 1) < 2 ^ 256;
}.

Lemma act_header ConnectBlock w be Hash block pos p s : act_inv ConnectBlock w s -> entries s !! p = None ->
  mapBlockIndex s !! block_hash be Hash block = None -> header_fits be Hash block pos s ->
  exists s' b', AddToBlockIndex be Hash block pos p s = Ok (p, s') /\ act_inv ConnectBlock w s' /\ entries s' = <[p := b']> (entries s).
Proof.
  intros J Hnew Hmap [H1 H2 (q & bq & T & Hq & Hbq & Hh & HT & Hsum)]. pose proof (act_index _ w s J) as I. pose proof (act_tree _ w s J) as Tr.
  destruct (AddToBlockIndex_spec be Hash block pos p s (Some w) I (act_mark _ w s J)) as (s' & b' & E & I' & W' & Een & _ & Ech & _ & Ha); try done.
  { intros q' bq' Hq' Hb'. assert (q' = q) as -> by congruence. by simplify_eq. }
  exists s', b'. split_and!; [done| |done]. destruct (added_trust _ _ _ _ _ _ Ha) as [Hwf (tr & Etr & Hv)].
  destruct (GetBlockTrust_spec b') as (tr' & Etr' & _ & Hvt); [by rewrite (added_bits _ _ _ _ _ _ Ha)|].
  assert (tr = tr') as -> by congruence.
  rewrite (added_bits _ _ _ _ _ _ Ha), HT, (added_stake _ _ _ _ _ _ Ha) in Hvt. rewrite Hq in Hv. cbn in Hv. rewrite Hbq in Hv. cbn in Hv.
  assert (0 < val tr') as Hpos.
  { destruct (target_decoded _ H2) as (a & fN & fO & _ & _ & Hd). rewrite HT in Hd. destruct Hd as (_ & _ & Hd). rewrite Hvt.
    destruct pos; [|lia]. apply Z.div_str_pos. lia. }
  assert (val (CBlockIndex.nChainTrust bq) < val (CBlockIndex.nChainTrust b')) as Hgrow.
  { rewrite Hv. assert (wf (CBlockIndex.nChainTrust bq)) as Hw by by apply (base_trust s (inv_base _ s I) q).
    pose proof (wf_val_bound _ Hw). rewrite <- Hvt in Hsum. rewrite Z.mod_small by lia. lia. }
  assert (forall x bx, entries s' !! x = Some bx -> CBlockIndex.pprev bx <> Some p) as Hnop.
  { intros x bx Hx. rewrite Een in Hx. apply lookup_insert_Some in Hx as [[<- <-]|[_ Hx]]; intros Hp.
    - rewrite (added_prev _ _ _ _ _ _ Ha), Hq in Hp. congruence.
    - destruct (Tr x bx Hx) as [_ H _]. rewrite Hp in H. destruct H as (? & ? & _). congruence. }
  split; try done.
  - intros x bx y bby Hx Hy Hby. pose proof (Hnop x bx Hx) as Hn. rewrite Een in Hx, Hby. rewrite lookup_insert_ne in Hby by congruence.
    apply lookup_insert_Some in Hx as [[<- <-]|[_ Hx]]; [|by apply (act_growing _ w s J x bx y)].
    rewrite (added_prev _ _ _ _ _ _ Ha), Hq in Hy. by simplify_eq.
  - intros x y bx c Hx Hy Ex Ey. rewrite Een in Hx, Hy.
    apply lookup_insert_Some in Hx as [[<- <-]|[_ Hx]]; [rewrite (added_prev _ _ _ _ _ _ Ha) in Ex; congruence|].
    apply lookup_insert_Some in Hy as [[<- <-]|[_ Hy]]; [rewrite (added_prev _ _ _ _ _ _ Ha) in Ey; congruence|].
    by apply (act_root _ w s J x y bx c).
  - rewrite Ech. apply J.
  - destruct (act_best _ w s J) as [Hl Hall]. destruct (linked_alive _ _ Hl) as [bw Hbw]. split; [by apply (mark_linked _ s' W')|].
    intros a Haw. assert (is_ancestor (entries s) a w) as Haw'.
    { unfold is_ancestor in *. rewrite Een, (fresh_height _ p b' Hnew w bw) in Haw by done.
      destruct Haw as (k & Hk & Hka). rewrite (fresh_ancestor_at _ p b' Tr Hnew w bw) in Hka by done. by exists k. }
    destruct (Hall a Haw') as [(ba & Hba & Hf) Hv']. split; [|done]. exists ba. split; [|done]. rewrite Een. by apply fresh_other.
  - unfold Tip. rewrite Ech. apply (act_tip _ w s J).
Qed.

(** A block arrives for a header that is not marked, on top of a block that is not. *)
Record block_fits (block : CBlock) (p : N) (s : state) : Prop := {
  bkf_size : 0 < Z.of_nat (length (vtx block)) < 2 ^ 32;
  bkf_entry : exists b, entries s !! p = Some b /\ CBlockIndex.nTx b = 0 /\ Entry.failed b = false /\
    (forall q, CBlockIndex.pprev b = Some q -> clear (entries s) q) /\
    fits (<[p := Entry.set_data (Z.of_nat (length (vtx block))) 0 0 0 0 b]> (entries s));
}.

Lemma act_block ConnectBlock w be Hash params block p pos s : act_inv ConnectBlock w s -> block_fits block p s ->
  exists s', ReceivedBlockTransactions be Hash params block p pos s = Ok (true, s') /\ act_inv ConnectBlock w s' /\
    received_block p (Z.of_nat (length (vtx block))) s s'.
Proof.
  intros J [Hn (b & Hp & Ht & Hf & Hpar & F)]. pose proof (act_index _ w s J) as I.
  destruct (ReceivedBlockTransactions_spec be Hash params block p pos s (Some w) b I (act_mark _ w s J)) as (s' & E & I' & W' & R); try done.
  exists s'. split_and!; [done| |done]. pose proof (recv_kept _ _ _ _ R) as A.
  assert (agree shape (entries s) (entries s')) as Sh by apply (agree_weaken kept (fun x => snd (fst (fst x))) _ _ A).
  split; try done.
  - intros x bx q bq Hx Hq Hbq. destruct (agree_lookup_back _ _ _ _ _ A Hx) as (bx0 & Hx0 & E1).
    destruct (agree_lookup_back _ _ _ _ _ A Hbq) as (bq0 & Hq0 & E2). unfold kept, shape in E1, E2.
    replace (CBlockIndex.nChainTrust bx) with (CBlockIndex.nChainTrust bx0) by congruence.
    replace (CBlockIndex.nChainTrust bq) with (CBlockIndex.nChainTrust bq0) by congruence.
    apply (act_growing _ w s J x bx0 q bq0); congruence.
  - intros x y bx c Hx Hy Ex Ey. destruct (agree_lookup_back _ _ _ _ _ A Hx) as (bx0 & Hx0 & E1).
    destruct (agree_lookup_back _ _ _ _ _ A Hy) as (c0 & Hc0 & E2). unfold kept, shape in E1, E2.
    apply (act_root _ w s J x y bx0 c0); congruence.
  - rewrite (recv_chain _ _ _ _ R). apply J.
  - destruct (act_best _ w s J) as [Hl Hall]. split; [by apply (mark_linked _ s' W')|]. intros a Ha.
    apply (is_ancestor_agree (entries s)) in Ha; [|done]. destruct (Hall a Ha) as [(ba & Hba & Hfa) Hv]. split; [|done].
    destruct (agree_lookup _ _ _ _ _ A Hba) as (ba' & Hba' & E1). exists ba'. split; [done|]. unfold kept in E1. congruence.
  - unfold Tip. rewrite (recv_chain _ _ _ _ R). apply (act_tip _ w s J).
Qed.

(** ** Examples: the index of [IndexInvariant]'s witness, when its second block has arrived *)

Definition sample_s4 : state :=
  after (ReceivedBlockTransactions false sample_hash (main_params []) (sample_block sample_header1) 1 (CDiskBlockPos.mk 0 16)) sample_s3.

Definition sample_verdict (p : N) : verdict := if decide (p = 2%N) then invalid false else valid.

Lemma sample_fits1 : header_fits false sample_hash sample_header1 false sample_s0.
Proof.
  split; [by_decide|by_decide|]. eexists 0%N, _, _. split; [vm_compute; reflexivity|]. split; [vm_compute; reflexivity|].
  split; [done|]. split; [vm_compute; reflexivity|]. by vm_compute.
Qed.

Lemma sample_fits2 : header_fits false sample_hash sample_header2 false sample_s1.
Proof.
  split; [by_decide|by_decide|]. eexists 1%N, _, _. split; [vm_compute; reflexivity|]. split; [vm_compute; reflexivity|].
  split; [by vm_compute|]. split; [vm_compute; reflexivity|]. by vm_compute.
Qed.

Lemma sample_fits_block h p s b : entries s !! p = Some b -> CBlockIndex.nTx b = 0 -> Entry.failed b = false ->
  match CBlockIndex.pprev b with Some q => Entry.failed <$> entries s !! q = Some false | None => True end ->
  map_Forall (fun x _ => path_tx (<[p := Entry.set_data 1 0 0 0 0 b]> (entries s)) x < 2 ^ 32) (<[p := Entry.set_data 1 0 0 0 0 b]> (entries s)) ->
  block_fits (sample_block h) p s.
Proof.
  intros Hp Ht Hf Hq F. split; [done|]. exists b. split_and!; [done..| |by apply fits_decide].
  intros q Eq. rewrite Eq in Hq. destruct (entries s !! q) as [bq|] eqn:Eb; [|done]. exists bq. split; [done|]. by injection Hq.
Qed.

Lemma sample_s4_ok : act_inv sample_verdict 0 sample_s4.
Proof.
  assert (act_inv sample_verdict 0 sample_s0) as J0.
  { apply act_genesis; [|done]. split; [done| |done|done|by_decide|done]. split; by vm_compute. }
  destruct (act_header sample_verdict 0 false sample_hash sample_header1 false 1 sample_s0 J0) as (s1 & b1 & E1 & J1 & _);
    [vm_compute; reflexivity|vm_compute; reflexivity|exact sample_fits1|]. apply after_ok in E1. fold sample_s1 in E1. subst s1.
  destruct (act_header sample_verdict 0 false sample_hash sample_header2 false 2 sample_s1 J1) as (s2 & b2 & E2 & J2 & _);
    [vm_compute; reflexivity|vm_compute; reflexivity|exact sample_fits2|]. apply after_ok in E2. fold sample_s2 in E2. subst s2.
  destruct (act_block sample_verdict 0 false sample_hash (main_params []) (sample_block sample_header2) 2 (CDiskBlockPos.mk 0 8) sample_s2 J2)
    as (s3 & E3 & J3 & _).
  { eapply sample_fits_block; [vm_compute; reflexivity|reflexivity|reflexivity|vm_compute; reflexivity|by_decide]. }
  apply after_ok in E3. fold sample_s3 in E3. subst s3.
  destruct (act_block sample_verdict 0 false sample_hash (main_params []) (sample_block sample_header1) 1 (CDiskBlockPos.mk 0 16) sample_s3 J3)
    as (s4 & E4 & J4 & _).
  { eapply sample_fits_block; [vm_compute; reflexivity|reflexivity|reflexivity|vm_compute; reflexivity|by_decide]. }
  apply after_ok in E4. fold sample_s4 in E4. subst s4. exact J4.
Qed.

(** ** Main results *)

(** C2: activation ends at the best block.  Let the state of the index satisfy its invariant,
    with a genesis block and trust that grows along every chain, let [ConnectBlock] (a parameter)
    have a verdict on every block, the same whenever it is asked, that does not blame corruption,
    and write only what it does into the entries.  The exclusion of verdicts that blame corruption
    is needed: with one the loop need not end ([corrupt_block_never_ends]).  Then [ActivateBestChain], whichever of the accesses to the disk fail, ends
    within the number of unmarked entries times the height of the tree, follows no null pointer
    and fails no assertion, and keeps the invariant.  If it returns true, and it does unless an
    access to the disk fails, the active chain is the path to the best acceptable block: of
    all blocks in the index whose ancestors all have their transactions, are not marked as
    failed and obey the rules, the one with the most trust, the first received among equals.
    No acceptable block is lost on the way, and only blocks that are not acceptable are marked. *)
Theorem ActivateBestChain_best (ConnectBlock : N -> verdict) (effect : N -> CBlockIndex.t -> CBlockIndex.t)
    (ReadBlockFromDisk DisconnectBlock : state -> N -> bool) (FlushStateToDisk : state -> bool) (w : N) (s : state) :
  (forall p c, ConnectBlock p = invalid c -> c = false) -> (forall p b, harmless b (effect p b)) -> act_inv ConnectBlock w s ->
  exists r s', ActivateBestChain ConnectBlock effect ReadBlockFromDisk DisconnectBlock FlushStateToDisk s = Ok (r, s') /\
    (exists w', act_inv ConnectBlock w' s') /\ moved ConnectBlock s s' /\
    (io_ok ReadBlockFromDisk DisconnectBlock FlushStateToDisk -> r = true) /\
    (r = true -> exists t, Tip s' = Some t /\ chainActive s' = path (entries s') t /\ best_block ConnectBlock s t).
Proof.
  intros Hc He J. destruct (ActivateBestChain_spec ConnectBlock effect ReadBlockFromDisk DisconnectBlock FlushStateToDisk Hc He w s J)
    as (r & s' & w' & E & J' & M & Hio & Hbest). exists r, s'. split_and!; [done|by exists w'|done|done|].
  intros Hr. destruct (Hbest Hr) as (t & Et & Hb). exists t. split_and!; [done| |done].
  pose proof (inv_base _ s' (act_index _ w' s' J')) as B. pose proof (Tip_path _ _ (base_tree s' B) (base_chain s' B)) as Hp.
  fold (Tip s') in Hp. rewrite Et in Hp. by apply Hp.
Qed.

Lemma harmless_refl b : harmless b b.
Proof. by split_and!. Qed.

(** The best candidate breaks a rule, so the chain ends at its parent. *)
Lemma ActivateBestChain_best_witness : exists s',
  ActivateBestChain sample_verdict (fun _ b => b) (fun _ _ => true) (fun _ _ => true) (fun _ => true) sample_s4 = Ok (true, s') /\
  chainActive s' = [Some 0%N; Some 1%N] /\ best_block sample_verdict sample_s4 1 /\ setBlockIndexCandidates s' = [1%N] /\
  CBlockIndex.nStatus <$> entries s' !! 2%N = Some 43.
Proof.
  destruct (ActivateBestChain_best sample_verdict (fun _ b => b) (fun _ _ => true) (fun _ _ => true) (fun _ => true) 0 sample_s4)
    as (r & s' & E & _ & _ & _ & H).
  - intros p c. unfold sample_verdict. destruct (decide (p = 2%N)); [|discriminate]. intros [= <-]. reflexivity.
  - intros p b. apply harmless_refl.
  - exact sample_s4_ok.
  - assert (E' := E). vm_compute in E'. injection E' as <- <-. destruct (H eq_refl) as (t & Et & _ & Hb).
    vm_compute in Et. injection Et as <-. eexists. split; [exact E|]. split; [reflexivity|]. split; [exact Hb|]. split; reflexivity.
Defined.

(** A block read from a damaged file: [ConnectBlock] blames corruption.  The block is not
    marked, so it stays the best candidate, and [ActivateBestChain] tries it for ever. *)
Theorem corrupt_block_never_ends (fuel : nat) :
  ActivateBestChain_loop (fun _ => invalid true) (fun _ b => b) (fun _ _ => true) (fun _ _ => true) (fun _ => true) fuel None sample_s4
  = Err out_of_fuel.
Proof.
  assert (FindMostWorkChain sample_s4 = Ok (Some 2%N, sample_s4)) as E1 by (vm_compute; reflexivity).
  assert (ActivateBestChainStep (fun _ => invalid true) (fun _ b => b) (fun _ _ => true) (fun _ _ => true) (fun _ => true) 2 sample_s4
    = Ok (Some true, sample_s4)) as E2 by (vm_compute; reflexivity).
  assert (Tip sample_s4 = Some 0%N) as E3 by (vm_compute; reflexivity).
  induction fuel as [|fuel IH]; cbn [ActivateBestChain_loop]; rewrite get_bind, (bind_ok _ _ _ _ _ E1), E3;
    rewrite bool_decide_eq_false_2 by congruence; rewrite (bind_ok _ _ _ _ _ E2), get_bind, E3; [reflexivity|exact IH].
Qed.
