(* ===== verification/StakeModifier.v ===== *)
(** * StakeModifier: the stake modifier

    Models the first half of [src/src/kernel.cpp]: [GetLastStakeModifier], the selection
    intervals, [SelectBlockFromCandidates], [SwapSort] and [ComputeNextStakeModifier].  The
    stake modifier is a number of 64 bits, recomputed once per interval, whose bits come
    from blocks chosen by hash among those of the last selection interval.

    The entries of the block index are in the heap of Chain; the double SHA-256 is the
    parameter [Hash].  The vector of candidates pairs a pointer (null once the block is
    selected) with its selection hash (zero until it is computed).  Logging is left out, and
    the function-local copy of the selection interval is its value. *)
From stdpp Require Import sorting.
From S2P Require Import Prelude ArithUint256 Endian Uint256 Serialize ConsensusParams Transaction Chain Block.

Definition MODIFIER_INTERVAL_RATIO : Z := 3.

(** A candidate: its entry, and its selection hash. *)
Abbreviation item := (option N * list Z)%type.

Section modifier.
Context (be : bool) (Hash : list Z -> list Z) (params : Params.t) (h : heap).

(** The nearest block, from [p] down, that generated a modifier; [None] is an error. *)
Fixpoint last_modifier (fuel : nat) (p : N) : result fault (option (Z * Z)) :=
  b ← deref h p;
  if CBlockIndex.GeneratedStakeModifier b then mret (Some (CBlockIndex.nStakeModifier b, CBlockIndex.GetBlockTime b))
  else match CBlockIndex.pprev b with
       | None => mret None
       | Some q => match fuel with O => Err out_of_fuel | S fuel' => last_modifier fuel' q end
       end.

Definition GetLastStakeModifier (pindex : option N) : result fault (option (Z * Z)) :=
  match pindex with
  | None => mret None
  | Some p => b ← deref h p; last_modifier (Z.to_nat (CBlockIndex.nHeight b)) p
  end.

Definition GetStakeModifierSelectionIntervalSection (nSection : Z) : result fault Z :=
  if (nSection >=? 0) && (nSection <? 64) then
    mret (Z.quot (i64 (Params.nStakeModifierInterval params * 63)) (63 + (63 - nSection) * (MODIFIER_INTERVAL_RATIO - 1)))
  else Err assertion_failed.

Fixpoint add_sections (n : nat) (nSection nSelectionInterval : Z) : result fault Z :=
  match n with
  | O => mret nSelectionInterval
  | S n' =>
      d ← GetStakeModifierSelectionIntervalSection nSection;
      add_sections n' (nSection + 1) (i64 (nSelectionInterval + d))
  end.

Definition GetStakeModifierSelectionInterval : result fault Z := add_sections 64 0 0.

(** ** Selection *)

Definition GetBlockHash (b : CBlockIndex.t) : result fault (list Z) :=
  match CBlockIndex.phashBlock b with Some hash => Ok hash | None => Err null_deref end.

Definition selection_hash (nStakeModifierPrev : Z) (b : CBlockIndex.t) : result fault (list Z) :=
  hashProof ← (if CBlockIndex.IsProofOfStake b then mret (CBlockIndex.hashProofOfStake b) else GetBlockHash b);
  let ss := hashProof ++ bytes_of (ser_uint64 be) nStakeModifierPrev in
  let r := UintToArith256 be (Hash ss) in
  mret (if CBlockIndex.IsProofOfStake b then op_shr_assign r 32 else r).

(** The loop from position [i] on, [n] items being left; [itemSelected] is a position. *)
Fixpoint select_loop (nStop nStakeModifierPrev : Z) (n i : nat) (itemSelected : option nat) (v : list item)
    : result fault (option nat * list item) :=
  match n with
  | O => mret (itemSelected, v)
  | S n' =>
      item ← (match v !! i with Some x => Ok x | None => Err out_of_range end);
      match fst item with
      | None => select_loop nStop nStakeModifierPrev n' (S i) itemSelected v
      | Some p =>
          b ← deref h p;
          best ← (match itemSelected with
                  | None => mret None
                  | Some j => match v !! j with Some x => Ok (Some (snd x)) | None => Err out_of_range end
                  end);
          if negb (bool_decide (itemSelected = None)) && (CBlockIndex.GetBlockTime b >? nStop) then mret (itemSelected, v)
          else
            let below (x : list Z) := match best with None => true | Some y => CompareTo x y <? 0 end in
            if below (snd item) then
              if bool_decide (snd item = zero256) then
                x ← selection_hash nStakeModifierPrev b;
                let v := <[i := (Some p, x)]> v in
                if negb (below x) then select_loop nStop nStakeModifierPrev n' (S i) itemSelected v
                else select_loop nStop nStakeModifierPrev n' (S i) (Some i) v
              else select_loop nStop nStakeModifierPrev n' (S i) (Some i) v
            else select_loop nStop nStakeModifierPrev n' (S i) itemSelected v
      end
  end.

(** The block selected, if there is one, and the vector without it. *)
Definition SelectBlockFromCandidates (v : list item) (nSelectionIntervalStop nStakeModifierPrev : Z)
    : result fault (option N * list item) :=
  '(itemSelected, v) ← select_loop nSelectionIntervalStop nStakeModifierPrev (length v) 0 None v;
  match itemSelected with
  | None => mret (None, v)
  | Some j => match v !! j with
              | Some (p, x) => mret (p, <[j := (None, x)]> v)
              | None => Err out_of_range
              end
  end.

(** ** Sorting *)

(** The words of a hash, from the last one down: 1 if the first is greater, -1 if it is
    smaller, 0 if they are equal. *)
Fixpoint compare_words (cnt : nat) (ha hb : list Z) : Z :=
  match cnt with
  | O => 0
  | S cnt' =>
      let pa := host_load be (take 4 (drop (4 * cnt') ha)) in
      let pb := host_load be (take 4 (drop (4 * cnt') hb)) in
      if pa <? pb then -1 else if pa >? pb then 1 else compare_words cnt' ha hb
  end.

(** Whether the items are to be swapped. *)
Definition out_of_order (a b : item) : result fault bool :=
  match fst a, fst b with
  | Some p, Some q =>
      ba ← deref h p;
      bb ← deref h q;
      if CBlockIndex.GetBlockTime ba <? CBlockIndex.GetBlockTime bb then mret false
      else if CBlockIndex.GetBlockTime ba =? CBlockIndex.GetBlockTime bb then
        ha ← GetBlockHash ba;
        hb ← GetBlockHash bb;
        mret (compare_words 8 ha hb >? 0)
      else mret true
  | _, _ => Err null_deref
  end.

Fixpoint SwapSort (fuel : nat) (v : list item) (pos : Z) : result fault (list item) :=
  if pos >=? u64 (Z.of_nat (length v) - 1) then mret v
  else
    match v !! Z.to_nat pos, v !! Z.to_nat (pos + 1) with
    | Some a, Some b =>
        swap ← out_of_order a b;
        if negb swap then mret v
        else match fuel with
             | O => Err out_of_fuel
             | S fuel' =>
                 let v := <[Z.to_nat pos := b]> (<[Z.to_nat (pos + 1) := a]> v) in
                 v ← SwapSort fuel' v (u32 (pos - 1));
                 SwapSort fuel' v (u32 (pos + 1))
             end
    | _, _ => Err out_of_range
    end.

(** [for (int i = 0; i < (int)size - 1; i++) SwapSort(v, i)]; a call swaps fewer pairs than there are. *)
Fixpoint sort_loop (n : nat) (i : Z) (v : list item) : result fault (list item) :=
  match n with
  | O => mret v
  | S n' => v ← SwapSort (length v * length v) v i; sort_loop n' (i + 1) v
  end.

(** ** The modifier *)

(** The blocks from [pindex] down whose time is not before the selection interval; [None] is
    a block that is not in [mapBlockIndex]. *)
Fixpoint candidates (mapBlockIndex : gmap (list Z) N) (fuel : nat) (nSelectionIntervalStart : Z) (pindex : option N)
    : result fault (option (list item)) :=
  match pindex with
  | None => mret (Some [])
  | Some p =>
      b ← deref h p;
      if CBlockIndex.GetBlockTime b >=? nSelectionIntervalStart then
        hash ← GetBlockHash b;
        match mapBlockIndex !! hash with
        | None => mret None
        | Some _ =>
            match fuel with
            | O => Err out_of_fuel
            | S fuel' =>
                r ← candidates mapBlockIndex fuel' nSelectionIntervalStart (CBlockIndex.pprev b);
                mret (match r with Some l => Some ((Some p, zero256) :: l) | None => None end)
            end
        end
      else mret (Some [])
  end.

(** The rounds of selection; [None] when no block can be selected. *)
Fixpoint modifier_loop (n : nat) (nRound nStop nStakeModifier nStakeModifierNew : Z) (v : list item) : result fault (option Z) :=
  match n with
  | O => mret (Some nStakeModifierNew)
  | S n' =>
      d ← GetStakeModifierSelectionIntervalSection nRound;
      let nStop := i64 (nStop + d) in
      '(selected, v) ← SelectBlockFromCandidates v nStop nStakeModifier;
      match selected with
      | None => mret None
      | Some p =>
          b ← deref h p;
          modifier_loop n' (nRound + 1) nStop nStakeModifier
            (Z.lor nStakeModifierNew (u64 (Z.shiftl (CBlockIndex.GetStakeEntropyBit b) nRound))) v
      end
  end.

(** [nModifierTime / nStakeModifierInterval >= pindex->GetBlockTime() / nStakeModifierInterval] *)
Definition same_interval (nModifierTime : Z) (b : CBlockIndex.t) : bool :=
  Z.quot nModifierTime (Params.nStakeModifierInterval params) >=?
  Z.quot (CBlockIndex.GetBlockTime b) (Params.nStakeModifierInterval params).

(** The new modifier, from the blocks up to [pindexPrev], whose entry is [prev]. *)
Definition generate_modifier (mapBlockIndex : gmap (list Z) N) (pindexPrev : N) (prev : CBlockIndex.t) (nStakeModifier : Z)
    : result fault (option Z) :=
  nSelectionInterval ← GetStakeModifierSelectionInterval;
  let nSelectionIntervalStart :=
    i64 (Z.quot (CBlockIndex.GetBlockTime prev) (Params.nStakeModifierInterval params) * Params.nStakeModifierInterval params
         - nSelectionInterval) in
  r ← candidates mapBlockIndex (S (Z.to_nat (CBlockIndex.nHeight prev))) nSelectionIntervalStart (Some pindexPrev);
  match r with
  | None => mret None
  | Some l =>
      let v := reverse l in
      v ← sort_loop (Z.to_nat (i32 (Z.of_nat (length v)) - 1)) 0 v;
      modifier_loop (Z.to_nat (Z.min 64 (i32 (Z.of_nat (length v))))) 0 nSelectionIntervalStart nStakeModifier 0 v
  end.

(** [nStakeModifier] and [fGeneratedStakeModifier]; [None] is a return of false. *)
Definition ComputeNextStakeModifier (mapBlockIndex : gmap (list Z) N) (pindexCurrent : N) : result fault (option (Z * bool)) :=
  cur ← deref h pindexCurrent;
  match CBlockIndex.pprev cur with
  | None => mret (Some (0, true))
  | Some pindexPrev =>
      last ← GetLastStakeModifier (Some pindexPrev);
      match last with
      | None => mret None
      | Some (nStakeModifier, nModifierTime) =>
          prev ← deref h pindexPrev;
          if same_interval nModifierTime prev then mret (Some (nStakeModifier, false))
          else if same_interval nModifierTime cur && IsProtocolV04 (CBlockIndex.nTime cur) then mret (Some (nStakeModifier, false))
          else
            r ← generate_modifier mapBlockIndex pindexPrev prev nStakeModifier;
            mret (match r with Some m => Some (m, true) | None => None end)
      end
  end.
End modifier.

(** ** Sorting by adjacent swaps

    Whatever the comparison [gt], if it is asymmetric, a call of [SwapSort] at [pos] puts the pair at
    [pos] in order and disturbs no other pair; every swap removes one inversion. *)

Section inversions.
Context {A : Type} (gt : A -> A -> bool).

Definition bad (v : list A) (j : nat) : Prop := exists a b, v !! j = Some a /\ v !! S j = Some b /\ gt a b = true.

Definition greater (a : A) (l : list A) : nat := length (filter (fun x => gt a x = true) l).

Fixpoint inversions (v : list A) : nat :=
  match v with
  | [] => 0
  | a :: v' => greater a v' + inversions v'
  end.

Definition swapped (v : list A) (i : nat) (a b : A) : list A := <[i := b]> (<[S i := a]> v).

Lemma swapped_split v i a b : v !! i = Some a -> v !! S i = Some b ->
  v = take i v ++ a :: b :: drop (S (S i)) v /\ swapped v i a b = take i v ++ b :: a :: drop (S (S i)) v.
Proof.
  intros Ha Hb. assert (v = take i v ++ a :: b :: drop (S (S i)) v) as E.
  { rewrite <- (drop_S v b (S i) Hb), <- (drop_S v a i Ha). by rewrite take_drop. }
  split; [done|]. unfold swapped. assert (length (take i v) = i) as L.
  { apply length_take_le. apply lookup_lt_Some in Ha. lia. }
  rewrite E at 1. replace (S i) with (length (take i v) + 1)%nat at 1 by lia. rewrite insert_app_r. cbn.
  replace i with (length (take i v) + 0)%nat at 1 by lia. by rewrite insert_app_r.
Qed.

Lemma greater_perm a l l' : l ≡ₚ l' -> greater a l = greater a l'.
Proof. intros H. unfold greater. by rewrite H. Qed.

Lemma greater_cons a b l : greater a (b :: l) = ((if gt a b then 1 else 0) + greater a l)%nat.
Proof. unfold greater. rewrite filter_cons. destruct (gt a b); by simplify_option_eq. Qed.

Lemma inversions_swap l a b r : gt a b = true -> gt b a = false ->
  inversions (l ++ a :: b :: r) = S (inversions (l ++ b :: a :: r)).
Proof.
  intros Hab Hba. induction l as [|x l IH]; cbn [app inversions].
  - rewrite !greater_cons, Hab, Hba. lia.
  - rewrite IH, (greater_perm x (l ++ a :: b :: r) (l ++ b :: a :: r)) by (by rewrite (perm_swap a b)). lia.
Qed.

Lemma inversions_bound v : (inversions v <= length v * length v)%nat.
Proof.
  induction v as [|a v IH]; cbn [inversions length]; [done|].
  assert (greater a v <= length v)%nat by apply length_filter. lia.
Qed.

Lemma swapped_inversions v i a b : v !! i = Some a -> v !! S i = Some b -> gt a b = true -> gt b a = false ->
  inversions v = S (inversions (swapped v i a b)) /\ swapped v i a b ≡ₚ v.
Proof.
  intros Ha Hb Hab Hba. destruct (swapped_split v i a b Ha Hb) as [E1 E2]. rewrite E2. split.
  - rewrite E1 at 1. by apply inversions_swap.
  - rewrite E1 at 3. by rewrite (perm_swap a b).
Qed.

Lemma swapped_lookup v i a b : v !! i = Some a -> v !! S i = Some b ->
  swapped v i a b !! i = Some b /\ swapped v i a b !! S i = Some a /\
  forall j, j <> i -> j <> S i -> swapped v i a b !! j = v !! j.
Proof.
  intros Ha Hb. unfold swapped. pose proof (lookup_lt_Some _ _ _ Ha). pose proof (lookup_lt_Some _ _ _ Hb). split_and!.
  - rewrite list_lookup_insert_eq; [done|]. rewrite length_insert. lia.
  - rewrite list_lookup_insert_ne by lia. by rewrite list_lookup_insert_eq.
  - intros j H1 H2. by rewrite !list_lookup_insert_ne by lia.
Qed.

Lemma swapped_bad v i a b j : v !! i = Some a -> v !! S i = Some b -> gt b a = false ->
  bad (swapped v i a b) j -> S j = i \/ j = S i \/ (bad v j /\ j <> i).
Proof.
  intros Ha Hb Hba (x & y & Hx & Hy & Hxy). destruct (swapped_lookup v i a b Ha Hb) as (L1 & L2 & L3).
  destruct (decide (S j = i)) as [|H1]; [by left|]. destruct (decide (j = S i)) as [|H2]; [by right; left|].
  destruct (decide (j = i)) as [->|H3]; [congruence|]. right; right. split; [|done].
  rewrite L3 in Hx by lia. rewrite L3 in Hy by lia. by exists x, y.
Qed.

Lemma no_bad_sorted v : (forall j, ~ bad v j) -> Sorted (fun a b => gt a b = false) v.
Proof.
  induction v as [|a v IH]; intros H; constructor.
  - apply IH. intros j (x & y & Hx & Hy & Hxy). apply (H (S j)). by exists x, y.
  - destruct v as [|b v]; constructor. destruct (gt a b) eqn:E; [|done]. destruct (H 0%nat). by exists a, b.
Qed.
End inversions.

Section sorting.
Context (be : bool) (h : heap) (gt : item -> item -> bool) (good : item -> Prop)
  (Hgt : forall a b, good a -> good b -> out_of_order be h a b = Ok (gt a b))
  (Hasym : forall a b, gt a b = true -> gt b a = false).

Lemma SwapSort_spec fuel v pos : v <> [] -> Z.of_nat (length v) <= 2 ^ 32 -> Forall good v -> is_u 32 pos ->
  (inversions gt v <= fuel)%nat ->
  exists v', SwapSort be h fuel v pos = Ok v' /\ v' ≡ₚ v /\ (inversions gt v' <= inversions gt v)%nat /\
    forall j, bad gt v' j -> bad gt v j /\ Z.of_nat j <> pos.
Proof.
  revert v pos. induction fuel as [|fuel IH]; intros v pos Hne Hlen Hg Hpos Hinv; cbn [SwapSort].
  all: assert (0 < Z.of_nat (length v)) as Hl by (destruct v; [done|cbn; lia]).
  all: rewrite uwrap_small by (unfold is_u; lia).
  all: destruct (Z.geb_spec pos (Z.of_nat (length v) - 1)) as [Hp|Hp];
    [exists v; split_and!; [done..|]; intros j Hj; split; [done|]; destruct Hj as (x & y & _ & Hy & _);
     apply lookup_lt_Some in Hy; lia|].
  all: unfold is_u in Hpos.
  all: destruct (lookup_lt_is_Some_2 v (Z.to_nat pos)) as [a Ha]; [lia|].
  all: destruct (lookup_lt_is_Some_2 v (Z.to_nat (pos + 1))) as [b Hb]; [lia|].
  all: rewrite Ha, Hb; assert (good a /\ good b) as [Ga Gb]
    by (split; [by apply (Forall_lookup_1 _ _ _ _ Hg Ha)|by apply (Forall_lookup_1 _ _ _ _ Hg Hb)]).
  all: rewrite Hgt by done; cbn.
  all: replace (Z.to_nat (pos + 1)) with (S (Z.to_nat pos)) in * by lia.
  all: destruct (gt a b) eqn:Hab; cbn;
    [|exists v; split_and!; [done..|]; intros j Hj; split; [done|]; intros <-; rewrite Nat2Z.id in *;
      destruct Hj as (x & y & Hx & Hy & Hxy); congruence].
  all: destruct (swapped_inversions gt v _ a b Ha Hb Hab (Hasym _ _ Hab)) as [Ei Ep].
  - lia.
  - fold (swapped v (Z.to_nat pos) a b). set (w := swapped v (Z.to_nat pos) a b) in *.
    assert (length w = length v) as Lw by (by rewrite Ep).
    destruct (IH w (u32 (pos - 1))) as (w1 & E1 & P1 & I1 & B1).
    { intros E. rewrite E in Lw. cbn in Lw. lia. } { by rewrite Lw. } { by rewrite Ep. } { by apply uwrap_range. } { lia. }
    rewrite E1. cbn. assert (length w1 = length v) as Lw1 by (by rewrite P1).
    destruct (IH w1 (u32 (pos + 1))) as (w2 & E2 & P2 & I2 & B2).
    { intros E. rewrite E in Lw1. cbn in Lw1. lia. } { by rewrite Lw1. } { by rewrite P1, Ep. } { by apply uwrap_range. } { lia. }
    exists w2. split_and!; [done|by rewrite P2, P1, Ep|lia|]. intros j Hj. destruct (B2 j Hj) as [Hj1 N1].
    destruct (B1 j Hj1) as [Hj2 N2]. rewrite uwrap_small in N1 by (unfold is_u; lia).
    destruct (swapped_bad gt v _ a b j Ha Hb (Hasym _ _ Hab) Hj2) as [E|[E|[Hb' Hn]]].
    + rewrite uwrap_small in N2 by (unfold is_u; lia). lia.
    + lia.
    + split; [done|]. lia.
Qed.

Lemma sort_loop_spec n i v : v <> [] -> Z.of_nat (length v) <= 2 ^ 32 -> Forall good v -> 0 <= i ->
  i + Z.of_nat n < 2 ^ 32 -> (forall j, bad gt v j -> i <= Z.of_nat j) ->
  exists v', sort_loop be h n i v = Ok v' /\ v' ≡ₚ v /\ forall j, bad gt v' j -> i + Z.of_nat n <= Z.of_nat j.
Proof.
  revert i v. induction n as [|n IH]; intros i v Hne Hlen Hg Hi Hn Hbad; cbn [sort_loop].
  - exists v. split_and!; [done..|]. intros j Hj. specialize (Hbad j Hj). lia.
  - destruct (SwapSort_spec (length v * length v) v i Hne Hlen Hg ltac:(unfold is_u; lia) (inversions_bound gt v))
      as (w & E & P & _ & B). rewrite E. cbn.
    assert (length w = length v) as L by (by rewrite P).
    destruct (IH (i + 1) w) as (v' & E' & P' & B').
    { intros ->. destruct v; done. } { by rewrite L. } { by rewrite P. } { lia. } { lia. }
    { intros j Hj. destruct (B j Hj) as [H1 H2]. specialize (Hbad j H1). lia. }
    exists v'. split_and!; [done|by rewrite P', P|]. intros j Hj. specialize (B' j Hj). lia.
Qed.

(** The vector ends up without a pair out of order. *)
Lemma sort_loop_sorts v : v <> [] -> Z.of_nat (length v) < 2 ^ 31 -> Forall good v ->
  exists v', sort_loop be h (Z.to_nat (i32 (Z.of_nat (length v)) - 1)) 0 v = Ok v' /\ v' ≡ₚ v /\
    Sorted (fun a b => gt a b = false) v'.
Proof.
  intros Hne Hlen Hg. rewrite swrap_small by (unfold is_s; lia).
  destruct (sort_loop_spec (Z.to_nat (Z.of_nat (length v) - 1)) 0 v Hne ltac:(lia) Hg ltac:(lia) ltac:(lia) ltac:(lia))
    as (w & E & P & B). exists w. split_and!; [done..|].
  assert (length w = length v) as L by (by rewrite P). apply no_bad_sorted. intros j Hj. specialize (B j Hj).
  destruct Hj as (x & y & _ & Hy & _). apply lookup_lt_Some in Hy. destruct v; [done|]. cbn in *. lia.
Qed.
End sorting.

(** ** The order of the candidates *)

(** A hash read as a number by its words: its little-endian value, where the host is. *)
Fixpoint words_value (be : bool) (n : nat) (d : list Z) : Z :=
  match n with
  | O => 0
  | S n' => words_value be n' d + 2 ^ (32 * Z.of_nat n') * host_load be (take 4 (drop (4 * n') d))
  end.

Lemma host_load_bound be l : Forall is_byte l -> (length l <= 4)%nat -> 0 <= host_load be l < 2 ^ 32.
Proof.
  intros Hl Hn. assert (forall m, Forall is_byte m -> (length m <= 4)%nat -> 0 <= le_val m < 2 ^ 32) as H.
  { intros m Hm Hlen. pose proof (le_val_bound m Hm) as B. split; [lia|].
    assert (2 ^ (8 * Z.of_nat (length m)) <= 2 ^ 32) by (apply Z.pow_le_mono_r; lia). lia. }
  unfold host_load. destruct be; apply H; [by apply Forall_reverse|by rewrite length_reverse|done..].
Qed.

Lemma words_value_bound be n d : Forall is_byte d -> 0 <= words_value be n d < 2 ^ (32 * Z.of_nat n).
Proof.
  intros Hd. induction n as [|n IH]; cbn [words_value]; [done|].
  pose proof (host_load_bound be (take 4 (drop (4 * n) d)) ltac:(by apply Forall_take, Forall_drop) ltac:(rewrite length_take; lia)).
  replace (32 * Z.of_nat (S n)) with (32 * Z.of_nat n + 32) by lia. rewrite Z.pow_add_r by lia. nia.
Qed.

Lemma compare_words_spec be n a b : Forall is_byte a -> Forall is_byte b ->
  compare_words be n a b = match words_value be n a ?= words_value be n b with Lt => -1 | Eq => 0 | Gt => 1 end.
Proof.
  intros Ha Hb. induction n as [|n IH]; [done|]. cbn [compare_words words_value].
  pose proof (words_value_bound be n a Ha) as B1. pose proof (words_value_bound be n b Hb) as B2.
  repeat case_bool.
  - replace (_ ?= _) with Lt; [done|]. symmetry. apply Z.compare_lt_iff. nia.
  - replace (_ ?= _) with Gt; [done|]. symmetry. apply Z.compare_gt_iff. nia.
  - rewrite IH. replace (host_load be (take 4 (drop (4 * n) a))) with (host_load be (take 4 (drop (4 * n) b))) by lia.
    by rewrite !(Z.add_comm _ (2 ^ _ * _)), Z.add_compare_mono_l.
Qed.

Section order.
Context (be : bool) (h : heap).

Definition time_of (p : N) : Z := from_option CBlockIndex.GetBlockTime 0 (h !! p).
Definition hash_of (p : N) : list Z := default [] (b ← h !! p; CBlockIndex.phashBlock b).

(** An entry with a hash. *)
Definition indexed (p : N) : Prop := exists b hash, h !! p = Some b /\ CBlockIndex.phashBlock b = Some hash /\ blob_wf 32 hash.

(** By time, then by hash. *)
Definition precedes (p q : N) : Prop :=
  time_of p < time_of q \/ (time_of p = time_of q /\ words_value be 8 (hash_of p) <= words_value be 8 (hash_of q)).

#[export] Instance precedes_dec p q : Decision (precedes p q).
Proof. unfold precedes. apply _. Defined.

#[export] Instance precedes_trans : Transitive precedes.
Proof. unfold precedes. intros p q r. lia. Qed.

Definition item_gt (a b : item) : bool :=
  match fst a, fst b with
  | Some p, Some q => negb (bool_decide (precedes p q))
  | _, _ => false
  end.

Lemma item_gt_asym a b : item_gt a b = true -> item_gt b a = false.
Proof.
  unfold item_gt. destruct (fst a) as [p|], (fst b) as [q|]; try done.
  rewrite negb_true_iff, negb_false_iff, bool_decide_eq_false, bool_decide_eq_true. unfold precedes. lia.
Qed.

Lemma out_of_order_spec p q x y : indexed p -> indexed q ->
  out_of_order be h (Some p, x) (Some q, y) = Ok (item_gt (Some p, x) (Some q, y)).
Proof.
  intros (b & hash & Hp & Eh & W) (b' & hash' & Hq & Eh' & W'). unfold out_of_order, item_gt. cbn [fst].
  unfold deref. rewrite Hp, Hq. cbn [mbind result_bind]. unfold GetBlockHash. rewrite Eh, Eh'. cbn [mbind result_bind].
  rewrite compare_words_spec by (apply W || apply W').
  assert (time_of p = CBlockIndex.GetBlockTime b) as T1 by (unfold time_of; by rewrite Hp).
  assert (time_of q = CBlockIndex.GetBlockTime b') as T2 by (unfold time_of; by rewrite Hq).
  assert (hash_of p = hash) as H1 by (unfold hash_of; by rewrite Hp; cbn; rewrite Eh).
  assert (hash_of q = hash') as H2 by (unfold hash_of; by rewrite Hq; cbn; rewrite Eh').
  rewrite <- T1, <- T2, <- H1, <- H2. unfold mret, result_ret.
  destruct (Z.ltb_spec (time_of p) (time_of q)).
  { by rewrite bool_decide_eq_true_2 by (by left). }
  destruct (Z.eqb_spec (time_of p) (time_of q)) as [E|E].
  - f_equal. destruct (Z.compare_spec (words_value be 8 (hash_of p)) (words_value be 8 (hash_of q))) as [H0|H0|H0].
    + rewrite bool_decide_eq_true_2; [done|]. right. lia.
    + rewrite bool_decide_eq_true_2; [done|]. right. lia.
    + rewrite bool_decide_eq_false_2; [done|]. intros [?|?]; lia.
  - rewrite bool_decide_eq_false_2; [done|]. intros [?|?]; lia.
Qed.

Definition fresh_items (l : list N) : list item := map (fun p => (Some p, zero256)) l.

Lemma fresh_perm v l : v ≡ₚ fresh_items l -> exists l', v = fresh_items l' /\ l' ≡ₚ l.
Proof. intros H. destruct (Permutation_map_inv _ _ H) as (l' & E & P). exists l'. split; [done|by symmetry]. Qed.

(** The candidates in order. *)
Lemma candidates_sorted l : l <> [] -> Z.of_nat (length l) < 2 ^ 31 -> Forall indexed l ->
  exists l', sort_loop be h (Z.to_nat (i32 (Z.of_nat (length (fresh_items l))) - 1)) 0 (fresh_items l) = Ok (fresh_items l') /\
    l' ≡ₚ l /\ StronglySorted precedes l'.
Proof.
  intros Hne Hlen Hix. set (good := fun a : item => exists p, fst a = Some p /\ indexed p).
  destruct (sort_loop_sorts be h item_gt good) with (v := fresh_items l) as (v & E & P & S).
  - intros [a x] [b y] (p & Ep & Hp) (q & Eq & Hq). cbn in Ep, Eq. subst. by apply out_of_order_spec.
  - apply item_gt_asym.
  - by destruct l.
  - unfold fresh_items. by rewrite length_map.
  - apply Forall_map. eapply Forall_impl; [exact Hix|]. intros p Hp. by exists p.
  - destruct (fresh_perm v l P) as (l' & -> & P'). exists l'. split_and!; [done..|]. apply Sorted_StronglySorted; [apply _|].
    clear -S. induction l' as [|p l' IH]; constructor.
    + apply IH. by inversion S.
    + apply Sorted_inv in S as [_ S]. destruct l' as [|q l']; constructor. inversion S as [|? ? Hpq]; subst.
      unfold item_gt in Hpq. cbn [fst] in Hpq. by apply negb_false_iff, bool_decide_eq_true in Hpq.
Qed.
End order.

(** ** The choice of a block *)

(** The first of the elements, starting with [p], at which [f] is least. *)
Fixpoint argmin (f : N -> Z) (p : N) (l : list N) : N :=
  match l with
  | [] => p
  | q :: l' => argmin f (if f q <? f p then q else p) l'
  end.

Lemma argmin_elem f p l : argmin f p l = p \/ argmin f p l ∈ l.
Proof.
  revert p. induction l as [|q l IH]; intros p; cbn; [by left|]. destruct (IH (if f q <? f p then q else p)) as [->|H].
  - destruct (f q <? f p); [right; by left|by left].
  - right. by right.
Qed.

Lemma argmin_least f p l q : q = p \/ q ∈ l -> f (argmin f p l) <= f q.
Proof.
  revert p q. induction l as [|x l IH]; intros p q H; cbn.
  - destruct H as [->|H]; [done|by apply not_elem_of_nil in H].
  - pose proof (IH (if f x <? f p then x else p) _ (or_introl eq_refl)) as H0.
    rewrite elem_of_cons in H. destruct H as [->|[->|H]].
    + destruct (Z.ltb_spec (f x) (f p)); lia.
    + destruct (Z.ltb_spec (f x) (f p)); lia.
    + apply IH. by right.
Qed.

(** Of the blocks [R] the first one, or one up to the time [stop] with a smaller hash. *)
Definition pick (f t : N -> Z) (stop : Z) (R : list N) : option N :=
  match R with
  | [] => None
  | p :: R' => Some (argmin f p (filter (fun q => t q <= stop) R'))
  end.

Lemma UintToArith256_val be d : blob_wf 32 d -> val (UintToArith256 be d) = le_val d.
Proof. intros W. by apply (arith_uint256_conversion be zero256 d wf_zero W). Qed.

Lemma filter_empty {A} (P : A -> Prop) `{!forall x, Decision (P x)} l : Forall (fun x => ~ P x) l -> filter P l = [].
Proof. induction 1; [done|]. by rewrite filter_cons_False. Qed.

Lemma filter_every {A} (P : A -> Prop) `{!forall x, Decision (P x)} l : Forall P l -> filter P l = l.
Proof. induction 1 as [|x l Hx _ IH]; [done|]. by rewrite filter_cons_True, IH. Qed.

Section selection.
Context (be : bool) (Hash : list Z -> list Z) (h : heap) (HH : forall x, blob_wf 32 (Hash x)) (m : Z).

Definition hashed_proof (b : CBlockIndex.t) : Z :=
  le_val (Hash ((if CBlockIndex.IsProofOfStake b then CBlockIndex.hashProofOfStake b else default [] (CBlockIndex.phashBlock b))
                ++ bytes_of (ser_uint64 be) m)).

(** The selection hash as a number. *)
Definition shash (p : N) : Z :=
  match h !! p with
  | Some b => if CBlockIndex.IsProofOfStake b then hashed_proof b / 2 ^ 32 else hashed_proof b
  | None => 0
  end.

Lemma selection_hash_ok p b : h !! p = Some b -> indexed h p ->
  exists x, selection_hash be Hash m b = Ok x /\ wf x /\ val x = shash p.
Proof.
  intros Hp (b' & hash & Hp' & Eh & _). simplify_eq. unfold selection_hash, shash. rewrite Hp. unfold hashed_proof, GetBlockHash.
  rewrite Eh. destruct (CBlockIndex.IsProofOfStake b) eqn:Ep; cbn [mbind result_bind mret result_ret].
  all: match goal with |- context [Hash ?x] => pose proof (HH x) as W; destruct (ArithToUint256_UintToArith256 be _ W) as [Wf _];
    pose proof (UintToArith256_val be _ W) as V end.
  - destruct (op_shr_assign_spec _ 32 Wf ltac:(lia)) as [W1 V1]. eexists. split; [done|]. split; [done|]. cbn in *. by rewrite V1, V.
  - eexists. split; [done|]. split; [done|]. cbn in *. by rewrite V.
Qed.

(** Hashes in the vector are those of their blocks, or not yet computed. *)
Definition cached (a : item) : Prop :=
  match fst a with
  | Some p => indexed h p /\ (snd a = zero256 \/ (wf (snd a) /\ val (snd a) = shash p))
  | None => True
  end.

Definition remaining (v : list item) : list N := omap fst v.

Lemma remaining_fst v : remaining v = omap id (map fst v).
Proof. unfold remaining. induction v as [|[[p|] x] v IH]; cbn; [done| |done]. f_equal. exact IH. Qed.

Lemma remaining_drop i v v' : map fst v = map fst v' -> remaining (drop i v) = remaining (drop i v').
Proof. intros E. rewrite !remaining_fst. f_equal. change (fst <$> drop i v = fst <$> drop i v'). rewrite !fmap_drop. by f_equal. Qed.

Lemma below_zero y : wf y -> (CompareTo zero256 y <? 0) = (0 <? val y).
Proof.
  intros Hy. rewrite CompareTo_spec by (apply wf_zero || done). unfold zero256 at 1. rewrite val_zero.
  destruct (Z.compare_spec 0 (val y)); symmetry; rewrite ?Z.ltb_lt, ?Z.ltb_ge; lia.
Qed.

Lemma below_val x y : wf x -> wf y -> (CompareTo x y <? 0) = (val x <? val y).
Proof.
  intros Hx Hy. rewrite CompareTo_spec by done.
  destruct (Z.compare_spec (val x) (val y)); symmetry; rewrite ?Z.ltb_lt, ?Z.ltb_ge; lia.
Qed.

Lemma shash_nonneg p : 0 <= shash p.
Proof.
  unfold shash. destruct (h !! p) as [b|]; [|done]. assert (0 <= hashed_proof b).
  { apply le_val_bound. apply HH. }
  destruct (CBlockIndex.IsProofOfStake b); [|done]. by apply Z.div_pos.
Qed.

(** Once an item is selected: the rest of the loop looks for a smaller hash. *)
Lemma select_loop_selected stop n i j v pj x : (n + i = length v)%nat -> Forall cached v -> (j < i)%nat ->
  v !! j = Some (Some pj, x) -> wf x -> val x = shash pj -> StronglySorted (fun p q => time_of h p <= time_of h q) (remaining (drop i v)) ->
  exists k v', select_loop be Hash h stop m n i (Some j) v = Ok (Some k, v') /\ map fst v' = map fst v /\ Forall cached v' /\
    fst <$> v' !! k = Some (Some (argmin shash pj (filter (fun q => time_of h q <= stop) (remaining (drop i v))))).
Proof.
  revert i j v pj x. induction n as [|n IH]; intros i j v pj x Hn Hc Hj Hvj Wx Vx Hs; cbn [select_loop].
  { exists j, v. split_and!; [done..|]. rewrite drop_ge by lia. cbn. by rewrite Hvj. }
  destruct (lookup_lt_is_Some_2 v i) as [[o y] Hi]; [lia|]. rewrite Hi. cbn [mbind result_bind fst].
  rewrite (drop_S _ _ _ Hi) in Hs |- *.
  destruct o as [p|]; cbn [remaining omap list_omap fst] in Hs |- *.
  2: { apply (IH (S i) j v pj x); [lia|done|lia|done..]. }
  pose proof (Forall_lookup_1 _ _ _ _ Hc Hi) as (Hix & Hy). cbn [snd] in Hy. pose proof Hix as (b & hash & Hb & _).
  unfold deref. rewrite Hb. cbn [mbind result_bind]. rewrite Hvj. cbn [mbind result_bind snd mret result_ret].
  rewrite bool_decide_eq_false_2 by done. cbn [negb andb].
  assert (time_of h p = CBlockIndex.GetBlockTime b) as Et by (unfold time_of; by rewrite Hb).
  apply StronglySorted_inv in Hs as [Hs Hall]. rewrite <- Et. fold (remaining (drop (S i) v)) in *.
  destruct (Z.gtb_spec (time_of h p) stop) as [Hgt|Hle].
  { exists j, v. split_and!; [done..|]. rewrite Hvj. cbn [fmap option_fmap option_map fst]. do 2 f_equal.
    rewrite filter_cons_False by lia. rewrite filter_empty; [done|].
    eapply Forall_impl; [exact Hall|]. cbn. lia. }
  rewrite filter_cons_True by done. cbn [argmin].
  assert (forall k v1 p1 x1, map fst v1 = map fst v -> length v1 = length v -> Forall cached v1 -> (k < S i)%nat ->
    v1 !! k = Some (Some p1, x1) -> wf x1 -> val x1 = shash p1 -> p1 = (if shash p <? shash pj then p else pj) ->
    exists k' v', select_loop be Hash h stop m n (S i) (Some k) v1 = Ok (Some k', v') /\ map fst v' = map fst v /\ Forall cached v' /\
      fst <$> v' !! k' = Some (Some (argmin shash (if shash p <? shash pj then p else pj)
        (filter (fun q => time_of h q <= stop) (remaining (drop (S i) v)))))) as Hnext.
  { intros k v1 p1 x1 E1 L1 C1 Hk Hv1 W1 V1 ->.
    assert (remaining (drop (S i) v1) = remaining (drop (S i) v)) as ER.
    { by apply remaining_drop. }
    destruct (IH (S i) k v1 _ x1 ltac:(lia) C1 Hk Hv1 W1 V1) as (k' & v' & E' & M' & C' & F'); [by rewrite ER|].
    exists k', v'. rewrite ER in F'. split_and!; [done|by rewrite M'|done..]. }
  destruct Hy as [Hz|[Wy Vy]].
  - subst y. rewrite below_zero, Vx by done. pose proof (shash_nonneg p).
    destruct (Z.ltb_spec 0 (shash pj)) as [Hpos|Hzero].
    + rewrite bool_decide_eq_true_2 by done. destruct (selection_hash_ok p b Hb Hix) as (y & -> & Wy & Vy).
      cbn [mbind result_bind]. rewrite below_val, Vx, Vy by done.
      assert (map fst (<[i:=(Some p, y)]> v) = map fst v) as E1.
      { change (fst <$> (<[i:=(Some p, y)]> v) = fst <$> v). rewrite list_fmap_insert. apply list_insert_id.
        rewrite list_lookup_fmap, Hi. done. }
      assert (Forall cached (<[i:=(Some p, y)]> v)) as C1.
      { apply Forall_insert; [done|]. split; [done|]. by right. }
      destruct (Z.ltb_spec (shash p) (shash pj)) as [Hlt|Hge]; cbn [negb].
      * apply (Hnext i (<[i:=(Some p, y)]> v) p y); [done|by rewrite length_insert|done|lia| |done|done|done].
        apply list_lookup_insert_eq. lia.
      * apply (Hnext j (<[i:=(Some p, y)]> v) pj x); [done|by rewrite length_insert|done|lia| |done|done|done].
        rewrite list_lookup_insert_ne by lia. done.
    + destruct (Z.ltb_spec (shash p) (shash pj)); [lia|]. by apply (Hnext j v pj x); [..|lia|done|done|done|].
  - rewrite below_val, Vx, Vy by done. destruct (Z.ltb_spec (shash p) (shash pj)) as [Hlt|Hge].
    + destruct (bool_decide (y = zero256)) eqn:Ez.
      * destruct (selection_hash_ok p b Hb Hix) as (y' & -> & Wy' & Vy').
        cbn [mbind result_bind]. rewrite below_val, Vx, Vy' by done. destruct (Z.ltb_spec (shash p) (shash pj)); [|lia]. cbn [negb].
        apply (Hnext i (<[i:=(Some p, y')]> v) p y'); [|by rewrite length_insert| |lia| |done|done|done].
        { change (fst <$> (<[i:=(Some p, y')]> v) = fst <$> v). rewrite list_fmap_insert. apply list_insert_id.
          rewrite list_lookup_fmap, Hi. done. }
        { apply Forall_insert; [done|]. split; [done|]. by right. }
        { apply list_lookup_insert_eq. lia. }
      * apply (Hnext i v p y); [done..|lia|done|done|done|done].
    + by apply (Hnext j v pj x); [..|lia|done|done|done|].
Qed.

Lemma select_loop_none stop n i v : (n + i = length v)%nat -> Forall cached v ->
  StronglySorted (fun p q => time_of h p <= time_of h q) (remaining (drop i v)) ->
  exists r v', select_loop be Hash h stop m n i None v = Ok (r, v') /\ map fst v' = map fst v /\ Forall cached v' /\
    match pick shash (time_of h) stop (remaining (drop i v)) with
    | None => r = None
    | Some p => exists k, r = Some k /\ fst <$> v' !! k = Some (Some p)
    end.
Proof.
  revert i v. induction n as [|n IH]; intros i v Hn Hc Hs; cbn [select_loop].
  { exists None, v. rewrite drop_ge by lia. done. }
  destruct (lookup_lt_is_Some_2 v i) as [[o y] Hi]; [lia|]. rewrite Hi. cbn [mbind result_bind fst].
  rewrite (drop_S _ _ _ Hi) in Hs |- *.
  destruct o as [p|]; cbn [remaining omap list_omap fst] in Hs |- *.
  2: { apply (IH (S i) v); [lia|done..]. }
  pose proof (Forall_lookup_1 _ _ _ _ Hc Hi) as (Hix & Hy). cbn [snd] in Hy. pose proof Hix as (b & hash & Hb & _).
  unfold deref. rewrite Hb. cbn [mbind result_bind mret result_ret]. rewrite bool_decide_eq_true_2 by done. cbn [negb andb snd].
  apply StronglySorted_inv in Hs as [Hs _]. fold (remaining (drop (S i) v)) in *. cbn [pick].
  assert (forall v1 x, map fst v1 = map fst v -> length v1 = length v -> Forall cached v1 -> v1 !! i = Some (Some p, x) -> wf x ->
    val x = shash p -> exists r v', select_loop be Hash h stop m n (S i) (Some i) v1 = Ok (r, v') /\ map fst v' = map fst v /\
      Forall cached v' /\ exists k, r = Some k /\
      fst <$> v' !! k = Some (Some (argmin shash p (filter (fun q => time_of h q <= stop) (remaining (drop (S i) v)))))) as Hnext.
  { intros v1 x E1 L1 C1 Hv1 W1 V1. pose proof (remaining_drop (S i) v1 v E1) as ER.
    destruct (select_loop_selected stop n (S i) i v1 p x) as (k & v' & E & M & C & F); [lia|done|lia|done|done|done|by rewrite ER|].
    exists (Some k), v'. rewrite ER in F. split_and!; [done|by rewrite M|done|]. by exists k. }
  destruct (bool_decide (y = zero256)) eqn:Ez.
  - destruct (selection_hash_ok p b Hb Hix) as (x & -> & Wx & Vx). cbn [mbind result_bind negb].
    apply (Hnext (<[i:=(Some p, x)]> v) x); [|by rewrite length_insert| | |done|done].
    + change (fst <$> (<[i:=(Some p, x)]> v) = fst <$> v). rewrite list_fmap_insert. apply list_insert_id.
      by rewrite list_lookup_fmap, Hi.
    + apply Forall_insert; [done|]. split; [done|]. by right.
    + apply list_lookup_insert_eq. lia.
  - apply bool_decide_eq_false in Ez. destruct Hy as [Hy|[Wy Vy]]; [done|]. by apply (Hnext v y).
Qed.

Lemma remaining_remove v k p x : v !! k = Some (Some p, x) -> NoDup (remaining v) ->
  remaining (<[k := (None, x)]> v) = filter (fun q => q <> p) (remaining v).
Proof.
  revert k. induction v as [|[o y] v IH]; intros k; [done|]. destruct k as [|k]; cbn [lookup list_lookup].
  - intros [= -> ->]. change (remaining ((Some p, x) :: v)) with (p :: remaining v). intros [Hn Hd]%NoDup_cons.
    change (remaining v = filter (fun q => q <> p) (p :: remaining v)). rewrite filter_cons_False by tauto.
    symmetry. apply filter_every. apply Forall_forall. intros q Hq ->. done.
  - intros Hk. destruct o as [q|]; [|by apply (IH k)]. change (remaining ((Some q, y) :: v)) with (q :: remaining v).
    change (remaining (<[S k:=(None, x)]> ((Some q, y) :: v))) with (q :: remaining (<[k:=(None, x)]> v)). intros [Hn Hd]%NoDup_cons. rewrite filter_cons_True; [f_equal; by apply IH|]. intros ->. apply Hn.
    apply list_elem_of_omap. exists (Some p, x). split; [by apply (list_elem_of_lookup_2 _ k)|done].
Qed.

(** A round selects the block that the reference picks, and removes it. *)
Lemma SelectBlockFromCandidates_spec stop v p : Forall cached v -> NoDup (remaining v) ->
  StronglySorted (fun p q => time_of h p <= time_of h q) (remaining v) ->
  pick shash (time_of h) stop (remaining v) = Some p ->
  exists v', SelectBlockFromCandidates be Hash h v stop m = Ok (Some p, v') /\ Forall cached v' /\ length v' = length v /\
    remaining v' = filter (fun q => q <> p) (remaining v).
Proof.
  intros Hc Hd Hs Hp. unfold SelectBlockFromCandidates.
  destruct (select_loop_none stop (length v) 0 v) as (r & v' & -> & M & C & F); [lia|done|done|]. cbn [mbind result_bind].
  rewrite drop_0 in F. rewrite Hp in F. destruct F as (k & -> & F).
  destruct (v' !! k) as [[o x]|] eqn:Ek; [|done]. cbn in F. injection F as ->.
  assert (remaining v' = remaining v) as ER by (by rewrite !remaining_fst, M).
  exists (<[k := (None, x)]> v'). split_and!; [done| | |].
  - by apply Forall_insert.
  - rewrite length_insert. by rewrite <- (length_map fst v'), M, length_map.
  - rewrite <- ER. apply remaining_remove; [done|]. by rewrite ER.
Qed.

(** ** The bits *)

Definition entropy_of (p : N) : Z := from_option CBlockIndex.GetStakeEntropyBit 0 (h !! p).

(** The blocks of the rounds. *)
Fixpoint chosen (section : Z -> Z) (n : nat) (round stop : Z) (R : list N) : list N :=
  match n with
  | O => []
  | S n' =>
      let stop := stop + section round in
      match pick shash (time_of h) stop R with
      | None => []
      | Some p => p :: chosen section n' (round + 1) stop (filter (fun q => q <> p) R)
      end
  end.

(** The number with the given bits, the lowest first. *)
Definition of_bits (l : list Z) : Z := foldr (fun b acc => b + 2 * acc) 0 l.

Lemma entropy_bit p : entropy_of p = 0 \/ entropy_of p = 1.
Proof.
  unfold entropy_of. destruct (h !! p) as [b|]; cbn; [|by left]. unfold CBlockIndex.GetStakeEntropyBit, CBlockIndex.BLOCK_STAKE_ENTROPY.
  change (Z.shiftl 1 1) with (2 ^ 1). rewrite land_pow2 by lia. destruct (Z.testbit _ 1); [by right|by left].
Qed.

Lemma of_bits_bound l : Forall (fun b => b = 0 \/ b = 1) l -> 0 <= of_bits l < 2 ^ Z.of_nat (length l).
Proof.
  induction 1 as [|b l Hb _ IH]; [done|]. cbn [of_bits foldr length]. fold (of_bits l).
  rewrite Nat2Z.inj_succ, Z.pow_succ_r by lia. destruct Hb; lia.
Qed.

Lemma chosen_elem section n round stop R p : p ∈ chosen section n round stop R -> p ∈ R.
Proof.
  revert round stop R. induction n as [|n IH]; intros round stop R; cbn [chosen]; [by rewrite elem_of_nil|].
  destruct (pick shash (time_of h) (stop + section round) R) as [q|] eqn:Eq; [|by rewrite elem_of_nil].
  rewrite elem_of_cons. intros [->|H].
  - destruct R as [|r R]; [done|]. cbn in Eq. injection Eq as <-. rewrite elem_of_cons.
    destruct (argmin_elem shash r (filter (fun q => time_of h q <= stop + section round) R)) as [->|H]; [by left|right].
    by apply list_elem_of_filter in H as [_ H].
  - apply IH in H. by apply list_elem_of_filter in H as [_ H].
Qed.

Lemma chosen_NoDup section n round stop R : NoDup (chosen section n round stop R).
Proof.
  revert round stop R. induction n as [|n IH]; intros round stop R; cbn [chosen]; [constructor|].
  destruct (pick _ _ _ R) as [q|]; [|constructor]. constructor; [|apply IH].
  intros H%chosen_elem. by apply list_elem_of_filter in H as [H _].
Qed.
End selection.

(** ** The intervals *)

Section intervals.
Context (params : Params.t) (Hparams : 0 < Params.nStakeModifierInterval params < 2 ^ 32).

(** The sections grow from a third of the interval to the whole of it. *)
Definition section (n : Z) : Z := Params.nStakeModifierInterval params * 63 / (63 + (63 - n) * 2).

Fixpoint sections (k : nat) (n : Z) : Z :=
  match k with
  | O => 0
  | S k' => section n + sections k' (n + 1)
  end.

Lemma section_bounds n : 0 <= n < 64 -> Params.nStakeModifierInterval params / 3 <= section n <= Params.nStakeModifierInterval params.
Proof.
  intros Hn. unfold section. set (I := Params.nStakeModifierInterval params) in *. split.
  - transitivity (I * 63 / 189).
    + replace 189 with (3 * 63) by lia. rewrite Z.div_mul_cancel_r by lia. done.
    + apply Z.div_le_compat_l; lia.
  - transitivity (I * 63 / 63); [apply Z.div_le_compat_l; lia|]. by rewrite Z.div_mul.
Qed.

Lemma section_mono n n' : 0 <= n <= n' -> n' < 64 -> section n <= section n'.
Proof. intros Hn Hn'. unfold section. apply Z.div_le_compat_l; lia. Qed.

Lemma section_ok n : 0 <= n < 64 -> GetStakeModifierSelectionIntervalSection params n = Ok (section n).
Proof.
  intros Hn. unfold GetStakeModifierSelectionIntervalSection, section, MODIFIER_INTERVAL_RATIO.
  rewrite (proj2 (Z.geb_le _ _)), (proj2 (Z.ltb_lt _ _)) by lia. cbn [andb]. rewrite swrap_small by (unfold is_s; lia).
  rewrite Z.quot_div_nonneg by lia. done.
Qed.

Lemma sections_bounds k n : 0 <= n -> n + Z.of_nat k <= 64 -> 0 <= sections k n <= Z.of_nat k * Params.nStakeModifierInterval params.
Proof.
  revert n. induction k as [|k IH]; intros n Hn Hk; cbn [sections]; [lia|].
  pose proof (IH (n + 1) ltac:(lia) ltac:(lia)). pose proof (section_bounds n ltac:(lia)).
  assert (0 <= Params.nStakeModifierInterval params / 3) by (apply Z.div_pos; lia). lia.
Qed.

Lemma add_sections_spec k n acc : 0 <= n -> n + Z.of_nat k <= 64 -> 0 <= acc <= n * 2 ^ 32 ->
  add_sections params k n acc = Ok (acc + sections k n).
Proof.
  revert n acc. induction k as [|k IH]; intros n acc Hn Hk Ha; cbn [add_sections sections]; [by rewrite Z.add_0_r|].
  rewrite section_ok by lia. cbn [mbind result_bind]. pose proof (section_bounds n ltac:(lia)).
  assert (0 <= Params.nStakeModifierInterval params / 3) by (apply Z.div_pos; lia).
  rewrite swrap_small by (unfold is_s; lia). rewrite IH by lia. f_equal. lia.
Qed.

Lemma selection_interval_ok : GetStakeModifierSelectionInterval params = Ok (sections 64 0).
Proof. unfold GetStakeModifierSelectionInterval. by rewrite add_sections_spec by lia. Qed.
End intervals.

(** ** The ancestors *)

Section ancestors.
Context (h : heap).

Fixpoint ancestry (n : nat) (p : N) : list N :=
  p :: match n, h !! p with
       | S n', Some b => match CBlockIndex.pprev b with Some q => ancestry n' q | None => [] end
       | _, _ => []
       end.

(** From [p] down to the genesis block. *)
Definition ancestors (p : N) : list N := ancestry (Z.to_nat (height_of h p)) p.

Fixpoint take_while (P : N -> bool) (l : list N) : list N :=
  match l with
  | [] => []
  | p :: l' => if P p then p :: take_while P l' else []
  end.

Definition generated (p : N) : bool := from_option CBlockIndex.GeneratedStakeModifier false (h !! p).

Context (Hok : tree_ok h).

Lemma ancestors_step p b : h !! p = Some b ->
  ancestors p = p :: match CBlockIndex.pprev b with Some q => ancestors q | None => [] end.
Proof.
  intros Hp. unfold ancestors. rewrite (height_of_lookup h p b) by done. destruct (Hok p b Hp) as [Hh Hprev _].
  destruct (CBlockIndex.pprev b) as [q|] eqn:Eq.
  - destruct Hprev as (bq & Hq & E). destruct (Hok q bq Hq) as [Hhq _ _]. rewrite (height_of_lookup h q bq) by done.
    replace (Z.to_nat (CBlockIndex.nHeight b)) with (S (Z.to_nat (CBlockIndex.nHeight bq))) by lia. cbn [ancestry]. by rewrite Hp, Eq.
  - rewrite Hprev. done.
Qed.

(** Induction from a block to its descendants. *)
Lemma chain_ind (P : N -> CBlockIndex.t -> Prop) :
  (forall p b, h !! p = Some b -> (forall q bq, CBlockIndex.pprev b = Some q -> h !! q = Some bq ->
    CBlockIndex.nHeight b = CBlockIndex.nHeight bq + 1 -> P q bq) -> P p b) ->
  forall p b, h !! p = Some b -> P p b.
Proof.
  intros H p b Hp. remember (Z.to_nat (CBlockIndex.nHeight b)) as n eqn:En. revert p b Hp En.
  induction n as [n IH] using lt_wf_ind. intros p b Hp ->. apply H; [done|]. intros q bq Eq Hq E.
  destruct (Hok p b Hp) as [Hh _ _]. destruct (Hok q bq Hq) as [Hhq _ _]. apply (IH (Z.to_nat (CBlockIndex.nHeight bq))); [lia|done..].
Qed.

Lemma ancestors_alive p b x : h !! p = Some b -> x ∈ ancestors p ->
  exists bx, h !! x = Some bx /\ CBlockIndex.nHeight bx <= CBlockIndex.nHeight b.
Proof.
  intros Hp. revert p b Hp x. refine (chain_ind _ _). intros p b Hp IH x. rewrite (ancestors_step p b) by done.
  rewrite elem_of_cons. intros [->|Hx]; [by exists b|]. destruct (CBlockIndex.pprev b) as [q|] eqn:Eq; [|by apply not_elem_of_nil in Hx].
  destruct (Hok p b Hp) as [_ Hprev _]. rewrite Eq in Hprev. destruct Hprev as (bq & Hq & E).
  destruct (IH q bq eq_refl Hq E x Hx) as (bx & Hbx & Hh). exists bx. split; [done|lia].
Qed.

Lemma ancestors_NoDup p b : h !! p = Some b -> NoDup (ancestors p).
Proof.
  intros Hp. revert p b Hp. refine (chain_ind _ _). intros p b Hp IH. rewrite (ancestors_step p b) by done.
  destruct (CBlockIndex.pprev b) as [q|] eqn:Eq; [|by apply NoDup_singleton].
  destruct (Hok p b Hp) as [_ Hprev _]. rewrite Eq in Hprev. destruct Hprev as (bq & Hq & E).
  constructor; [|by apply (IH q bq)]. intros Hin. destruct (ancestors_alive q bq p Hq Hin) as (b' & Hb' & Hh). simplify_eq. lia.
Qed.

Lemma ancestors_length p b : h !! p = Some b -> Z.of_nat (length (ancestors p)) = CBlockIndex.nHeight b + 1.
Proof.
  intros Hp. revert p b Hp. refine (chain_ind _ _). intros p b Hp IH. rewrite (ancestors_step p b) by done. cbn [length].
  destruct (Hok p b Hp) as [_ Hprev _]. destruct (CBlockIndex.pprev b) as [q|] eqn:Eq; [|cbn; lia].
  destruct Hprev as (bq & Hq & E). rewrite Nat2Z.inj_succ, (IH q bq eq_refl Hq E). lia.
Qed.

Lemma take_while_prefix P l : exists l', l = take_while P l ++ l'.
Proof.
  induction l as [|p l [l' IH]]; cbn; [by exists []|]. destruct (P p); [|by exists (p :: l)].
  exists l'. cbn. by f_equal.
Qed.

Lemma last_modifier_spec p b fuel : h !! p = Some b -> CBlockIndex.nHeight b <= Z.of_nat fuel ->
  last_modifier h fuel p = Ok ((fun x => (from_option CBlockIndex.nStakeModifier 0 (h !! x), time_of h x)) <$> head (filter (fun x => generated x = true) (ancestors p))).
Proof.
  intros Hp. revert p b Hp fuel. refine (chain_ind _ _). intros p b Hp IH fuel Hf. rewrite (ancestors_step p b) by done.
  destruct fuel as [|fuel]; cbn [last_modifier]; unfold deref; rewrite Hp; cbn [mbind result_bind].
  all: destruct (CBlockIndex.GeneratedStakeModifier b) eqn:Eg.
  1,3: rewrite filter_cons_True by (unfold generated; by rewrite Hp); cbn; unfold time_of; by rewrite Hp.
  all: rewrite filter_cons_False by (unfold generated; rewrite Hp; cbn; by rewrite Eg).
  all: destruct (Hok p b Hp) as [Hh Hprev _]; destruct (CBlockIndex.pprev b) as [q|] eqn:Eq; [|done].
  all: destruct Hprev as (bq & Hq & E); destruct (Hok q bq Hq) as [Hhq _ _].
  - lia.
  - apply (IH q bq eq_refl Hq E). lia.
Qed.

Lemma candidates_spec mapBlockIndex start fuel p b : h !! p = Some b -> CBlockIndex.nHeight b < Z.of_nat fuel ->
  (forall x bx, h !! x = Some bx -> exists hash, CBlockIndex.phashBlock bx = Some hash /\ is_Some (mapBlockIndex !! hash)) ->
  candidates h mapBlockIndex fuel start (Some p) = Ok (Some (fresh_items (take_while (fun x => start <=? time_of h x) (ancestors p)))).
Proof.
  intros Hp Hf Hmap. revert p b Hp fuel Hf. refine (chain_ind _ _). intros p b Hp IH fuel Hf. rewrite (ancestors_step p b) by done.
  destruct (Hok p b Hp) as [Hh Hprev _]. destruct fuel as [|fuel]; [lia|]. cbn [candidates]. unfold deref. rewrite Hp.
  cbn [mbind result_bind take_while]. rewrite Z.geb_leb. replace (time_of h p) with (CBlockIndex.GetBlockTime b) by (unfold time_of; by rewrite Hp).
  destruct (start <=? CBlockIndex.GetBlockTime b); [|done]. destruct (Hmap p b Hp) as (hash & Eh & [y Hy]).
  unfold GetBlockHash. rewrite Eh. cbn [mbind result_bind]. rewrite Hy. destruct (CBlockIndex.pprev b) as [q|] eqn:Eq.
  - destruct Hprev as (bq & Hq & E). rewrite (IH q bq eq_refl Hq E) by lia. done.
  - destruct fuel; done.
Qed.
End ancestors.

(** ** The new modifier *)

Lemma StronglySorted_impl {A} (R1 R2 : A -> A -> Prop) l : (forall x y, R1 x y -> R2 x y) -> StronglySorted R1 l -> StronglySorted R2 l.
Proof. intros H. induction 1 as [|x l _ IH Hall]; constructor; [done|]. eapply Forall_impl; [exact Hall|]. auto. Qed.

Lemma pick_some f t stop R : R <> [] -> exists p, pick f t stop R = Some p /\ p ∈ R.
Proof.
  destruct R as [|r R]; [done|]. intros _. cbn. eexists. split; [done|]. rewrite elem_of_cons.
  destruct (argmin_elem f r (filter (fun q => t q <= stop) R)) as [->|H]; [by left|right]. by apply list_elem_of_filter in H as [_ H].
Qed.

Lemma filter_remove (R : list N) p : NoDup R -> p ∈ R -> S (length (filter (fun q => q <> p) R)) = length R.
Proof.
  intros Hd Hp. apply list_elem_of_split in Hp as (l1 & l2 & ->). apply NoDup_app in Hd as (D1 & D2 & D3%NoDup_cons).
  destruct D3 as [D3 D4]. rewrite filter_app, filter_cons_False by tauto.
  rewrite !filter_every; [rewrite !length_app; cbn; lia|..]; apply Forall_forall; intros q Hq ->; [done|].
  apply (D2 p Hq). by left.
Qed.

Lemma sorted_filter {A} (Rel : A -> A -> Prop) (P : A -> Prop) `{!forall x, Decision (P x)} l :
  StronglySorted Rel l -> StronglySorted Rel (filter P l).
Proof.
  induction 1 as [|x l _ IH Hall]; [constructor|]. rewrite filter_cons. destruct (decide (P x)); [|done].
  constructor; [done|]. apply Forall_forall. intros y [_ Hy]%list_elem_of_filter. by eapply Forall_forall in Hall.
Qed.

Lemma chosen_length be Hash h m sec n round stop R : NoDup R -> (n <= length R)%nat ->
  length (chosen be Hash h m sec n round stop R) = n.
Proof.
  revert round stop R. induction n as [|n IH]; intros round stop R Hd Hn; cbn [chosen]; [done|].
  destruct (pick_some (shash be Hash h m) (time_of h) (stop + sec round) R) as (p & -> & Hp); [by destruct R; [cbn in Hn; lia|]|].
  cbn [length]. f_equal. apply IH; [by apply NoDup_filter|]. pose proof (filter_remove R p Hd Hp). lia.
Qed.

Section generate.
Context (be : bool) (Hash : list Z -> list Z) (h : heap) (params : Params.t) (HH : forall x, blob_wf 32 (Hash x))
  (Hparams : 0 < Params.nStakeModifierInterval params < 2 ^ 32).

Lemma modifier_loop_spec m n round stop acc v : Forall (cached be Hash h m) v -> NoDup (remaining v) ->
  StronglySorted (fun p q => time_of h p <= time_of h q) (remaining v) -> (n <= length (remaining v))%nat ->
  0 <= round -> round + Z.of_nat n <= 64 -> 0 <= acc < 2 ^ round -> - 2 ^ 40 <= stop <= 2 ^ 40 + round * 2 ^ 32 ->
  modifier_loop be Hash params h n round stop m acc v
  = Ok (Some (acc + 2 ^ round * of_bits (map (entropy_of h) (chosen be Hash h m (section params) n round stop (remaining v))))).
Proof.
  revert round stop acc v. induction n as [|n IH]; intros round stop acc v Hc Hd Hs Hn H0 Hr Ha Hst; cbn [modifier_loop chosen].
  { cbn. by rewrite Z.mul_0_r, Z.add_0_r. }
  rewrite section_ok by lia. cbn [mbind result_bind]. pose proof (section_bounds params Hparams round ltac:(lia)) as Bs.
  assert (0 <= Params.nStakeModifierInterval params / 3) by (apply Z.div_pos; lia).
  rewrite swrap_small by (unfold is_s; lia).
  destruct (pick_some (shash be Hash h m) (time_of h) (stop + section params round) (remaining v)) as (p & Ep & Hp);
    [by destruct (remaining v); [cbn in Hn; lia|]|].
  destruct (SelectBlockFromCandidates_spec be Hash h HH m (stop + section params round) v p Hc Hd Hs Ep) as (v' & -> & C' & L' & R').
  cbn [mbind result_bind]. rewrite Ep. pose proof (filter_remove _ p Hd Hp) as Hlen.
  assert (indexed h p) as (b & hash & Hb & _).
  { apply list_elem_of_omap in Hp as ([o x] & Hin & Eo). cbn in Eo. subst o.
    exact (proj1 (proj1 (Forall_forall _ _) Hc _ Hin)). }
  unfold deref. rewrite Hb. cbn [mbind result_bind map of_bits foldr].
  fold (of_bits (map (entropy_of h) (chosen be Hash h m (section params) n (round + 1) (stop + section params round)
    (filter (fun q => q <> p) (remaining v))))).
  replace (CBlockIndex.GetStakeEntropyBit b) with (entropy_of h p) by (unfold entropy_of; by rewrite Hb).
  assert (0 < 2 ^ round) by lia. assert (2 ^ (round + 1) = 2 * 2 ^ round) as E2 by (rewrite Z.pow_add_r by lia; lia).
  assert (2 ^ round <= 2 ^ 63) by (apply Z.pow_le_mono_r; lia).
  assert (Z.lor acc (u64 (Z.shiftl (entropy_of h p) round)) = acc + 2 ^ round * entropy_of h p) as ->.
  { rewrite shiftl_mul by lia. rewrite uwrap_small by (destruct (entropy_bit h p) as [->| ->]; unfold is_u; lia).
    rewrite lor_disjoint_add' by lia. lia. }
  rewrite IH; [| done | rewrite R'; by apply NoDup_filter | rewrite R'; by apply sorted_filter | rewrite R'; lia | lia | lia | | lia ].
  - rewrite R', E2. do 2 f_equal. lia.
  - destruct (entropy_bit h p) as [->| ->]; lia.
Qed.
End generate.

(** What the heap holds in the index of blocks. *)
Record stake_index (h : heap) (mapBlockIndex : gmap (list Z) N) : Prop := {
  stake_tree : tree_ok h;
  stake_times : forall p b, h !! p = Some b -> is_u 32 (CBlockIndex.nTime b);
  stake_hashes : forall p b, h !! p = Some b -> exists hash, CBlockIndex.phashBlock b = Some hash /\ blob_wf 32 hash /\
    is_Some (mapBlockIndex !! hash);
  stake_root : forall p b, h !! p = Some b -> CBlockIndex.pprev b = None -> CBlockIndex.GeneratedStakeModifier b = true;
}.

Section main.
Context (be : bool) (Hash : list Z -> list Z) (h : heap) (params : Params.t) (mapBlockIndex : gmap (list Z) N)
  (HH : forall x, blob_wf 32 (Hash x)) (Hparams : 0 < Params.nStakeModifierInterval params < 2 ^ 32)
  (Hix : stake_index h mapBlockIndex).

Definition interval_of (t : Z) : Z := t / Params.nStakeModifierInterval params.

(** The selection interval before the interval of [t]. *)
Definition selection_start (t : Z) : Z := interval_of t * Params.nStakeModifierInterval params - sections params 64 0.

(** The blocks from [p] down of that interval. *)
Definition window (p : N) : list N :=
  take_while (fun x => selection_start (time_of h p) <=? time_of h x) (ancestors h p).

(** [m] is made from the chain that ends at [p], [last] being the modifier before. *)
Definition modifier_from (p : N) (last m : Z) : Prop :=
  exists l ps, l ≡ₚ window p /\ StronglySorted (precedes be h) l /\
    ps = chosen be Hash h last (section params) (Nat.min 64 (length l)) 0 (selection_start (time_of h p)) l /\
    length ps = Nat.min 64 (length l) /\ NoDup ps /\ m = of_bits (map (entropy_of h) ps).

Lemma all_indexed p b : h !! p = Some b -> indexed h p.
Proof. intros Hp. destruct (stake_hashes h _ Hix p b Hp) as (hash & Eh & W & _). by exists b, hash. Qed.

Lemma window_ok p b : h !! p = Some b -> CBlockIndex.nHeight b + 1 < 2 ^ 31 -> window p <> [] /\ Z.of_nat (length (window p)) < 2 ^ 31 /\
  Forall (indexed h) (window p) /\ NoDup (window p).
Proof.
  intros Hp Hmax. pose proof (stake_tree h _ Hix) as Hok. destruct (take_while_prefix (fun x => selection_start (time_of h p) <=? time_of h x) (ancestors h p)) as [l' E].
  fold (window p) in E. split_and!.
  - unfold window. rewrite (ancestors_step h Hok p b) by done. cbn [take_while].
    assert (selection_start (time_of h p) <= time_of h p) as H; [|by rewrite (proj2 (Z.leb_le _ _) H)].
    unfold selection_start, interval_of. pose proof (sections_bounds params Hparams 64 0 ltac:(lia) ltac:(lia)).
    pose proof (Z.mul_div_le (time_of h p) (Params.nStakeModifierInterval params) ltac:(lia)). lia.
  - pose proof (ancestors_length h Hok p b Hp) as L. rewrite E, length_app in L. lia.
  - apply Forall_forall. intros x Hx. destruct (ancestors_alive h Hok p b x Hp) as (bx & Hbx & _); [rewrite E; set_solver|].
    by apply (all_indexed x bx).
  - pose proof (ancestors_NoDup h Hok p b Hp) as D. rewrite E in D. by apply NoDup_app in D as [D _].
Qed.

Lemma generate_modifier_ok p b last : h !! p = Some b -> CBlockIndex.nHeight b + 1 < 2 ^ 31 ->
  exists m, generate_modifier be Hash params h mapBlockIndex p b last = Ok (Some m) /\ modifier_from p last m /\ is_u 64 m.
Proof.
  intros Hp Hmax. pose proof (stake_tree h _ Hix) as Hok. unfold generate_modifier. rewrite selection_interval_ok by done.
  cbn [mbind result_bind]. pose proof (stake_times h _ Hix p b Hp) as Ht. unfold is_u in Ht.
  pose proof (sections_bounds params Hparams 64 0 ltac:(lia) ltac:(lia)) as Bs.
  assert (CBlockIndex.GetBlockTime b = time_of h p) as Et by (unfold time_of; by rewrite Hp).
  assert (0 <= time_of h p < 2 ^ 32) as Hr by (rewrite <- Et; exact Ht).
  pose proof (Z.mul_div_le (time_of h p) (Params.nStakeModifierInterval params) ltac:(lia)) as Hm.
  pose proof (Z.div_pos (time_of h p) (Params.nStakeModifierInterval params) ltac:(lia) ltac:(lia)) as Hq.
  rewrite Et, Z.quot_div_nonneg by lia. rewrite swrap_small by (unfold is_s; nia).
  change (time_of h p / _ * _ - _) with (selection_start (time_of h p)).
  destruct (Hok p b Hp) as [Hh _ _].
  rewrite (candidates_spec h Hok _ _ _ p b) by (done || lia || (intros x bx Hx; destruct (stake_hashes h _ Hix x bx Hx) as (hash & ? & _ & ?); by exists hash)).
  cbn [mbind result_bind]. fold (window p).
  destruct (window_ok p b Hp Hmax) as (Hne & Hlen & Hi & Hd).
  assert (reverse (fresh_items (window p)) = fresh_items (reverse (window p))) as ->.
  { unfold fresh_items. symmetry. apply (fmap_reverse _ (window p)). }
  destruct (candidates_sorted be h (reverse (window p))) as (l & -> & P & S).
  { intros E. apply (f_equal reverse) in E. by rewrite reverse_involutive in E. }
  { by rewrite length_reverse. } { by apply Forall_reverse. }
  cbn [mbind result_bind]. rewrite reverse_Permutation in P.
  assert (length l = length (window p)) as Ll by (by rewrite P).
  assert (length (fresh_items l) = length l) as Lf by (unfold fresh_items; by rewrite length_map).
  rewrite Lf. rewrite (swrap_small 32) by (unfold is_s; lia).
  replace (Z.to_nat (Z.min 64 (Z.of_nat (length l)))) with (Nat.min 64 (length l)) by lia.
  assert (remaining (fresh_items l) = l) as Er.
  { unfold remaining, fresh_items. clear. induction l as [|x l IH]; [done|]. cbn. f_equal. exact IH. }
  assert (NoDup l) as Dl by (by rewrite P).
  assert (Forall (cached be Hash h last) (fresh_items l)) as Cl.
  { apply Forall_map, Forall_forall. intros x Hx. split; [|by left]. rewrite P in Hx. exact (proj1 (Forall_forall _ _) Hi x Hx). }
  assert (StronglySorted (fun p q => time_of h p <= time_of h q) l) as Sl.
  { revert S. apply StronglySorted_impl. unfold precedes. lia. }
  rewrite (modifier_loop_spec be Hash h params HH Hparams); [|done|by rewrite Er|by rewrite Er|rewrite Er; lia|lia|lia|lia|].
  2: { unfold selection_start, interval_of. lia. }
  rewrite Er, Z.mul_1_l, Z.add_0_l. eexists. split; [done|].
  pose proof (chosen_length be Hash h last (section params) (Nat.min 64 (length l)) 0 (selection_start (time_of h p)) l Dl ltac:(lia)) as Lc.
  split.
  - exists l. eexists. split_and!; [done|done|done|done|apply chosen_NoDup|done].
  - match goal with |- is_u 64 (of_bits ?x) => pose proof (of_bits_bound x) as Bo end.
    rewrite length_map, Lc in Bo. destruct Bo as [B1 B2]; [apply Forall_map, Forall_forall; intros; apply entropy_bit|].
    split; [done|]. eapply Z.lt_le_trans; [exact B2|]. apply Z.pow_le_mono_r; lia.
Qed.
End main.

(** The nearest block, from [p] down, that generated a modifier. *)
Definition last_generated (h : heap) (p : N) : option N := head (filter (fun x => generated h x = true) (ancestors h p)).

Definition modifier_at (h : heap) (p : N) : Z := from_option CBlockIndex.nStakeModifier 0 (h !! p).

Lemma last_generated_ok h mapBlockIndex p b : stake_index h mapBlockIndex -> h !! p = Some b ->
  exists q, last_generated h p = Some q /\ q ∈ ancestors h p /\
    GetLastStakeModifier h (Some p) = Ok (Some (modifier_at h q, time_of h q)).
Proof.
  intros Hix Hp. pose proof (stake_tree h _ Hix) as Hok.
  assert (exists r, r ∈ ancestors h p /\ generated h r = true) as (r & Hr & Gr).
  { revert p b Hp. refine (chain_ind h Hok _ _). intros p b Hp IH. rewrite (ancestors_step h Hok p b) by done.
    destruct (CBlockIndex.pprev b) as [q|] eqn:Eq.
    - destruct (Hok p b Hp) as [_ Hprev _]. rewrite Eq in Hprev. destruct Hprev as (bq & Hq & E).
      destruct (IH q bq eq_refl Hq E) as (r & Hr & Gr). exists r. split; [by right|done].
    - exists p. split; [by left|]. unfold generated. rewrite Hp. by apply (stake_root h _ Hix p b). }
  unfold last_generated. destruct (filter (fun x => generated h x = true) (ancestors h p)) as [|q l] eqn:Ef.
  { assert (r ∈ filter (fun x => generated h x = true) (ancestors h p)) as Hin by (by apply list_elem_of_filter).
    rewrite Ef in Hin. by apply not_elem_of_nil in Hin. }
  exists q. split; [done|]. split.
  - assert (q ∈ filter (fun x => generated h x = true) (ancestors h p)) as Hin by (rewrite Ef; by left).
    by apply list_elem_of_filter in Hin as [_ ?].
  - unfold GetLastStakeModifier, deref. rewrite Hp. cbn [mbind result_bind].
    destruct (Hok p b Hp) as [Hh _ _]. rewrite (last_modifier_spec h Hok p b) by (done || lia). by rewrite Ef.
Qed.

(** ** Example: a chain of four blocks over two intervals *)

Definition sample_digest (x : list Z) : list Z := take 32 (map u8 x ++ replicate 32 0).

Definition sample_entry (hash : Z) (pprev : option N) (height time flags : Z) : CBlockIndex.t :=
  let b := CBlockIndex.null in
  CBlockIndex.mk (Some (hash :: replicate 31 0)) pprev None height (CBlockIndex.nFile b) (CBlockIndex.nDataPos b)
    (CBlockIndex.nUndoPos b) (CBlockIndex.nChainTrust b) (CBlockIndex.nTx b) (CBlockIndex.nChainTx b) (CBlockIndex.nStatus b)
    (CBlockIndex.nVersion b) (CBlockIndex.hashMerkleRoot b) time (CBlockIndex.nBits b) (CBlockIndex.nNonce b)
    (CBlockIndex.nVersionMTP b) (CBlockIndex.mtpHashValue b) (CBlockIndex.nSequenceId b) (CBlockIndex.nTimeMax b)
    (CBlockIndex.nMint b) (CBlockIndex.nMoneySupply b) flags (CBlockIndex.nStakeModifier b)
    (CBlockIndex.nStakeModifierChecksum b) (CBlockIndex.prevoutStake b) (CBlockIndex.nStakeTime b) (CBlockIndex.hashProofOfStake b).

Definition chain_entry1 := sample_entry 1 None 0 1600000000 6.
Definition chain_entry2 := sample_entry 2 (Some 1%N) 1 1600000900 0.
Definition chain_entry3 := sample_entry 3 (Some 2%N) 2 1600000900 3.
Definition chain_entry4 := sample_entry 4 (Some 3%N) 3 1600002100 2.
Definition chain_entry5 := sample_entry 5 (Some 4%N) 4 1600002200 0.

Definition sample_chain : heap :=
  <[1%N := chain_entry1]> (<[2%N := chain_entry2]> (<[3%N := chain_entry3]> (<[4%N := chain_entry4]> (<[5%N := chain_entry5]> ∅)))).

Definition sample_map : gmap (list Z) N :=
  list_to_map (map (fun n => (Z.of_N n :: replicate 31 0, n)) [1%N; 2%N; 3%N; 4%N; 5%N]).

Lemma sample_chain_cases p b : sample_chain !! p = Some b ->
  (p, b) ∈ [(1%N, chain_entry1); (2%N, chain_entry2); (3%N, chain_entry3); (4%N, chain_entry4); (5%N, chain_entry5)].
Proof.
  unfold sample_chain. intros H.
  repeat (apply lookup_insert_Some in H as [[<- <-]|[_ H]]; [rewrite !elem_of_cons; auto 10|]).
  by rewrite lookup_empty in H.
Qed.

Ltac chain_case H := apply sample_chain_cases in H;
  repeat (apply elem_of_cons in H as [[= -> ->]|H]); [..|by apply not_elem_of_nil in H].

Lemma sample_index : stake_index sample_chain sample_map.
Proof.
  split.
  - intros p b Hp. chain_case Hp; (split; cbn;
      [lia | first [reflexivity | eexists; split; vm_compute; reflexivity] | intros q Hq; discriminate Hq]).
  - intros p b Hp. chain_case Hp; by_decide.
  - intros p b Hp. chain_case Hp; (eexists; split; [reflexivity|split; [by_decide|eexists; vm_compute; reflexivity]]).
  - intros p b Hp. chain_case Hp; intros Hq; first [discriminate Hq|reflexivity].
Qed.

Lemma sample_digest_ok x : blob_wf 32 (sample_digest x).
Proof.
  unfold sample_digest. split.
  - rewrite length_take, length_app, length_replicate. lia.
  - apply Forall_take, Forall_app. split; [|by apply Forall_replicate].
    apply Forall_map, Forall_forall. intros y _. by apply uwrap_range.
Qed.

(** ** Main results *)

(** C20: the stake modifier.  Let the index of blocks be a tree whose genesis block has a
    modifier.  Then [ComputeNextStakeModifier] succeeds, without following a null pointer, leaving a
    vector, overflowing or looping: for the genesis block the modifier is 0; for another block it is the one of the nearest
    ancestor that generated one, unless the parent, and from version 0.4 on the block too, lie in a later interval.
    In that case a modifier is generated: the blocks of the selection interval below the
    parent, put in order of time and hash, are each selected at most once, one per round; a
    round selects, among the first of the remaining blocks and those up to the end of its section, the
    first with the least selection hash (which for proof of stake is divided by 2^32); the
    entropy bits of the blocks, in the order of the rounds, are the bits of the modifier. *)
Theorem ComputeNextStakeModifier_correct (be : bool) (Hash : list Z -> list Z) (params : Params.t) (h : heap)
    (mapBlockIndex : gmap (list Z) N) (cur : N) (b : CBlockIndex.t) :
  (forall x, blob_wf 32 (Hash x)) -> 0 < Params.nStakeModifierInterval params < 2 ^ 32 -> stake_index h mapBlockIndex ->
  h !! cur = Some b ->
  exists m g, ComputeNextStakeModifier be Hash params h mapBlockIndex cur = Ok (Some (m, g)) /\
    match CBlockIndex.pprev b with
    | None => m = 0 /\ g = true
    | Some p =>
        exists q, last_generated h p = Some q /\
          let interval := interval_of params in
          (g = true <-> interval (time_of h q) < interval (time_of h p) /\
                        (interval (time_of h q) < interval (CBlockIndex.nTime b) \/ IsProtocolV04 (CBlockIndex.nTime b) = false)) /\
          (g = false -> m = modifier_at h q) /\
          (g = true -> modifier_from be Hash h params p (modifier_at h q) m /\ is_u 64 m)
    end.
Proof.
  intros HH Hp Hix Hcur. unfold ComputeNextStakeModifier, deref. rewrite Hcur. cbn [mbind result_bind].
  destruct (CBlockIndex.pprev b) as [p|] eqn:Ep; [|by exists 0, true].
  destruct (stake_tree h _ Hix cur b Hcur) as [Hh Hprev _]. rewrite Ep in Hprev. destruct Hprev as (bp & Hbp & Eh).
  destruct (last_generated_ok h mapBlockIndex p bp Hix Hbp) as (q & Eq & Hq & ->). cbn [mbind result_bind].
  rewrite Hbp. cbn [mbind result_bind].
  assert (forall x bx, h !! x = Some bx -> Z.quot (time_of h x) (Params.nStakeModifierInterval params) = interval_of params (time_of h x)
    /\ time_of h x = CBlockIndex.GetBlockTime bx) as Ht.
  { intros x bx Hx. pose proof (stake_times h _ Hix x bx Hx) as Hr. unfold time_of, is_u in *. rewrite Hx. cbn. split; [|done].
    apply Z.quot_div_nonneg; unfold CBlockIndex.GetBlockTime; lia. }
  destruct (ancestors_alive h (stake_tree h _ Hix) p bp q Hbp Hq) as (bq & Hbq & _).
  destruct (Ht q bq Hbq) as [Tq _]. destruct (Ht p bp Hbp) as [Tp Tp']. destruct (Ht cur b Hcur) as [Tc Tc'].
  unfold same_interval. rewrite Tq, <- Tp', <- Tc', Tp, Tc. change (CBlockIndex.nTime b) with (CBlockIndex.GetBlockTime b).
  rewrite <- Tc'.
  destruct (Z.geb_spec (interval_of params (time_of h q)) (interval_of params (time_of h p))) as [H1|H1].
  { exists (modifier_at h q), false. split; [done|]. exists q. split; [done|]. split; [|done]. split; [done|lia]. }
  destruct (Z.geb_spec (interval_of params (time_of h q)) (interval_of params (time_of h cur))) as [H2|H2];
    [destruct (IsProtocolV04 (time_of h cur)) eqn:EV|]; cbn [andb].
  { exists (modifier_at h q), false. split; [done|]. exists q. split; [done|]. split; [|done]. split; [done|]. intros [_ [?|?]]; [lia|done]. }
  all: destruct (generate_modifier_ok be Hash h params mapBlockIndex HH Hp Hix p bp (modifier_at h q) Hbp ltac:(lia)) as (m & -> & Hm & Hb).
  all: cbn [mbind result_bind]; exists m, true; split; [done|]; exists q; split; [done|]; split; [|done]; split; [|done].
  all: intros _; split; [done|]; first [by right|by left].
Qed.

Lemma ComputeNextStakeModifier_correct_witness :
  ComputeNextStakeModifier false sample_digest (main_params []) sample_chain sample_map 5 = Ok (Some (13, true)) /\
  modifier_from false sample_digest sample_chain (main_params []) 4 0 13.
Proof.
  destruct (ComputeNextStakeModifier_correct false sample_digest (main_params []) sample_chain sample_map 5 chain_entry5)
    as (m & g & E & q & Eq & Hg & _ & Hm).
  - exact sample_digest_ok.
  - cbn. lia.
  - exact sample_index.
  - vm_compute. reflexivity.
  - assert (E' := E). vm_compute in E'. injection E' as <- <-. vm_compute in Eq. injection Eq as <-.
    split; [exact E|]. destruct (Hm eq_refl) as [H _]. exact H.
Defined.
