(* ===== verification/HashMap.v ===== *)
(** * HashMap: the hash table of [uint256hm.h]

    Models the class template [uint256HashMap] of [src/src/uint256hm.h]: a table with open
    addressing, from 256-bit keys to values, whose cells are also linked in the order of their insertion.
    The proof-of-stake kernel keeps its cache of stake modifiers in such a table (Kernel).

    A cell's [next] is the position of the next cell of the list, [m_mask + 1] at the end of
    it, all ones for a cell that is free; the top bit marks a deleted cell.  Reading or
    writing outside the array is the fault [out_of_range], a loop that does not end
    [out_of_fuel].  The random seeds are parameters, and [dflt] is what the value of a new cell is. *)
From S2P Require Import Prelude Endian Uint256 Transaction Chain.

Definition EMPTY : Z := 2 ^ 32 - 1.
Definition DELETED : Z := 0x80000000.

Module uint256HashMap.

Record Data (V : Type) : Type := mk_data {
  value : V;
  key : list Z;
  next : Z;
}.
Arguments mk_data {V}.
Arguments value {V}.
Arguments key {V}.
Arguments next {V}.

Record t (V : Type) : Type := mk {
  m_head : Z;
  m_tail : Z;
  m_mask : Z;
  m_used : Z;
  m_deleted : Z;
  m_randseed : Z;
  m_data : option (list (Data V));
}.
Arguments mk {V}.
Arguments m_head {V}.
Arguments m_tail {V}.
Arguments m_mask {V}.
Arguments m_used {V}.
Arguments m_deleted {V}.
Arguments m_randseed {V}.
Arguments m_data {V}.

Section ops.
Context {V : Type} (be : bool) (dflt : V).

(** [Data()] *)
Definition empty_cell : Data V := mk_data dflt (Uint256.SetNull 32) EMPTY.

Definition set_next (n : Z) (c : Data V) : Data V := mk_data (value c) (key c) n.

(** The constructor; the fields it leaves alone are zero. *)
Definition new (randseed : Z) : t V := mk 0 0 0 0 0 randseed None.

(** [for(m_mask = 8; m_mask < size; m_mask <<= 1);] *)
Fixpoint double_until (fuel : nat) (mask size : Z) : Z :=
  match fuel with
  | O => mask
  | S fuel' => if mask <? size then double_until fuel' (u32 (Z.shiftl mask 1)) size else mask
  end.

Definition Set_ (size : Z) (m : t V) : t V :=
  if size =? 0 then mk (m_head m) (m_tail m) (m_mask m) (m_used m) (m_deleted m) (m_randseed m) None
  else match m_data m with
       | Some _ => m
       | None =>
           let size := if size >? Z.shiftl 1 29 then Z.shiftl 1 29 else size in
           let mask := double_until 27 8 size in
           mk mask mask (mask - 1) 0 0 (m_randseed m) (Some (replicate (Z.to_nat mask) empty_cell))
       end.

Definition size (m : t V) : Z := u32 (m_used m - m_deleted m).

Definition data (m : t V) : result fault (list (Data V)) :=
  match m_data m with Some d => Ok d | None => Err null_deref end.

Definition cell (d : list (Data V)) (pos : Z) : result fault (Data V) :=
  match d !! Z.to_nat pos with Some c => Ok c | None => Err out_of_range end.

Definition store (d : list (Data V)) (pos : Z) (c : Data V) : list (Data V) := <[Z.to_nat pos := c]> d.

(** The list from [m_head] on is freed. *)
Fixpoint clear_list (fuel : nat) (mask head : Z) (d : list (Data V)) : result fault (list (Data V)) :=
  if head <=? mask then
    match fuel with
    | O => Err out_of_fuel
    | S fuel' =>
        c ← cell d head;
        clear_list fuel' mask (Z.land (next c) 0x7fffffff) (store d head (set_next EMPTY c))
    end
  else mret d.

Definition clear (m : t V) : result fault (t V) :=
  d ← data m;
  d ← (if negb (m_deleted m =? 0) then mret (map (set_next EMPTY) d)
       else clear_list (S (length d)) (m_mask m) (m_head m) d);
  let e := m_mask m + 1 in
  mret (mk e e (m_mask m) 0 0 (m_randseed m) (Some d)).

(** ** Probing *)

Definition word (k : list Z) (i : nat) : Z := host_load be (take 4 (drop (4 * i) k)).

Definition step_of (seed : Z) (k : list Z) : Z := Z.lor (Z.lxor (word k 1) (u32 (word k 2 + seed))) 1.

(** The position of the cell with the key, or of one with [next >= stop]. *)
Fixpoint probe_loop (fuel : nat) (mask step stop : Z) (k : list Z) (d : list (Data V)) (pos : Z) : result fault Z :=
  match fuel with
  | O => Err out_of_fuel
  | S fuel' =>
      let pos := Z.land (u32 (pos + step)) mask in
      c ← cell d pos;
      if (next c <? stop) && negb (memcmp k (key c) =? 0) then probe_loop fuel' mask step stop k d pos
      else mret pos
  end.

Definition Lookup (k : list Z) (stop : Z) (m : t V) : result fault Z :=
  d ← data m;
  probe_loop (length d) (m_mask m) (step_of (m_randseed m) k) stop k d (word k 0).

Definition Search (k : list Z) (m : t V) : result fault (option Z) :=
  pos ← Lookup k EMPTY m;
  d ← data m;
  c ← cell d pos;
  mret (if flag_set (next c) DELETED then None else Some pos).

(** ** Iteration and deletion *)

Definition First (m : t V) : option Z := if m_head m >? m_mask m then None else Some (m_head m).

(** [(int32_t)cur->next < 0] is the top bit. *)
Fixpoint Next_loop (fuel : nat) (mask : Z) (d : list (Data V)) (cur : Z) : result fault (option Z) :=
  c ← cell d cur;
  if next c =? mask + 1 then mret None
  else
    let cur := Z.land (next c) 0x7fffffff in
    c ← cell d cur;
    if i32 (next c) <? 0 then match fuel with O => Err out_of_fuel | S fuel' => Next_loop fuel' mask d cur end
    else mret (Some cur).

Definition Next (cur : Z) (m : t V) : result fault (option Z) :=
  d ← data m; Next_loop (length d) (m_mask m) d cur.

(** [while(m_data[m_head].next & 0x80000000) m_head = m_data[m_head].next ^ 0x80000000;] *)
Fixpoint advance_head (fuel : nat) (d : list (Data V)) (head : Z) : result fault Z :=
  c ← cell d head;
  if flag_set (next c) DELETED then
    match fuel with O => Err out_of_fuel | S fuel' => advance_head fuel' d (Z.lxor (next c) DELETED) end
  else mret head.

Definition MarkDel (cur : Z) (m : t V) : result fault (t V) :=
  d ← data m;
  c ← cell d cur;
  if flag_set (next c) DELETED then mret m
  else
    let d := store d cur (set_next (Z.lor (next c) DELETED) c) in
    head ← advance_head (length d) d (m_head m);
    mret (mk head (if head >? m_mask m then head else m_tail m) (m_mask m) (m_used m) (u32 (m_deleted m + 1)) (m_randseed m) (Some d)).

(** ** Insertion *)

(** The insertion proper; the position of the cell and the table. *)
Definition insert_cell (k : list Z) (v : V) (m : t V) : result fault (Z * t V) :=
  pos ← Lookup k (Z.shiftl 1 29) m;
  d ← data m;
  c ← cell d pos;
  '(c, m) ← (if next c =? EMPTY then
               let c := set_next (m_mask m + 1) c in
               let d := store d pos c in
               let used := u32 (m_used m + 1) in
               if m_head m >? m_mask m then
                 mret (c, mk pos pos (m_mask m) used (m_deleted m) (m_randseed m) (Some d))
               else
                 last ← cell d (m_tail m);
                 let d := store d (m_tail m) (set_next pos last) in
                 c ← cell d pos;
                 mret (c, mk (m_head m) pos (m_mask m) used (m_deleted m) (m_randseed m) (Some d))
             else mret (c, m));
  let '(n, deleted) :=
    if flag_set (next c) DELETED then (Z.lxor (next c) DELETED, u32 (m_deleted m - 1)) else (next c, m_deleted m) in
  d ← data m;
  mret (pos, mk (m_head m) (m_tail m) (m_mask m) (m_used m) deleted (m_randseed m) (Some (store d pos (mk_data v k n)))).

(** The size of the table to move to; 0 to stay. *)
Definition new_size (m : t V) : Z :=
  let newsz := if m_deleted m >? Z.shiftr (m_mask m) 1 then m_mask m else 0 in
  if m_used m >=? m_mask m - Z.shiftr (m_mask m) 2 then u32 (Z.shiftl (m_mask m) 1) else newsz.

(** Insert the cells of [m] from [p] on with [ins]. *)
Fixpoint reinsert (ins : list Z -> V -> t V -> result fault (Z * t V)) (fuel : nat) (m : t V) (p : option Z) (r : t V)
    : result fault (t V) :=
  match p with
  | None => mret r
  | Some pos =>
      match fuel with
      | O => Err out_of_fuel
      | S fuel' =>
          d ← data m;
          c ← cell d pos;
          '(_, r) ← ins (key c) (value c) r;
          p' ← Next pos m;
          reinsert ins fuel' m p' r
      end
  end.

(** [rnd i] is the seed of the [i]th table made; a table made while moving is moved itself at
    most [depth] times. *)
Fixpoint Insert (depth : nat) (rnd : nat -> Z) (k : list Z) (v : V) (m : t V) : result fault (Z * t V) :=
  m ← (if new_size m =? 0 then mret m
       else match depth with
            | O => Err out_of_fuel
            | S depth' =>
                d ← data m;
                r ← reinsert (Insert depth' (fun i => rnd (S i))) (S (length d)) m (First m) (Set_ (new_size m) (new (rnd O)));
                mret (mk (m_head r) (m_tail r) (m_mask r) (m_used r) 0 (m_randseed r) (m_data r))
            end);
  insert_cell k v m.
End ops.
End uint256HashMap.

(** ** The invariant of a table without deletions *)

Module Facts.
Import uint256HashMap.

Section facts.
Context {V : Type} (be : bool) (dflt : V).
#[local] Abbreviation cells := (list (Data V)).

(** The [n]th position probed for a key. *)
Definition probe (seed K : Z) (k : list Z) (n : nat) : nat :=
  Z.to_nat ((word be k 0 + Z.of_nat (S n) * step_of be seed k) mod 2 ^ K).

Definition pair_at (d : cells) (i : nat) : list Z * V :=
  match d !! i with Some c => (key c, value c) | None => ([], dflt) end.

(** The table as a finite map; [l] are the positions in use. *)
Definition view (d : cells) (l : list nat) : gmap (list Z) V := list_to_map (map (pair_at d) l).

Definition first_of (e : Z) (l : list nat) : Z := match l with [] => e | i :: _ => Z.of_nat i end.
Definition last_of (e : Z) (l : list nat) : Z := match last l with None => e | Some i => Z.of_nat i end.

(** The cells of [l] are linked in this order, up to [e]. *)
Fixpoint linked (d : cells) (e : Z) (l : list nat) : Prop :=
  match l with
  | [] => True
  | i :: l' => (exists c, d !! i = Some c /\ next c = first_of e l') /\ linked d e l'
  end.

Record table (m : t V) (d : cells) (l : list nat) (K : Z) : Prop := {
  tb_data : m_data m = Some d;
  tb_K : 3 <= K <= 28;
  tb_length : Z.of_nat (length d) = 2 ^ K;
  tb_mask : m_mask m = 2 ^ K - 1;
  tb_deleted : m_deleted m = 0;
  tb_used : m_used m = Z.of_nat (length l);
  tb_nodup : NoDup l;
  tb_linked : linked d (2 ^ K) l;
  tb_head : m_head m = first_of (2 ^ K) l;
  tb_tail : m_tail m = last_of (2 ^ K) l;
  tb_free : forall i c, d !! i = Some c -> i ∉ l -> next c = EMPTY;
  tb_keys : Forall (fun kv => blob_wf 32 (fst kv)) (map (pair_at d) l);
  tb_distinct : NoDup (map (pair_at d) l).*1;
  tb_probe : forall i, i ∈ l -> exists n, probe (m_randseed m) K (fst (pair_at d i)) n = i /\
    forall n', (n' < n)%nat -> probe (m_randseed m) K (fst (pair_at d i)) n' ∈ l;
  tb_load : Z.of_nat (length l) <= 3 * 2 ^ (K - 2);
}.

Definition represents (m : t V) (M : gmap (list Z) V) : Prop := exists d l K, table m d l K /\ M = view d l.

(** ** Probing *)

Lemma step_odd seed k : exists x, step_of be seed k = 2 * x + 1.
Proof.
  apply Z.odd_spec. rewrite <- Z.bit0_odd. unfold step_of. rewrite Z.lor_spec. by rewrite orb_true_r.
Qed.

Lemma pow2_divide_odd n a x : (2 ^ Z.of_nat n | a * (2 * x + 1)) -> (2 ^ Z.of_nat n | a).
Proof.
  revert a. induction n as [|n IH]; intros a; [intros _; apply Z.divide_1_l|].
  rewrite Nat2Z.inj_succ, Z.pow_succ_r by lia. intros [q Hq].
  destruct (Z.Even_or_Odd a) as [[y ->]|[y ->]]; [|lia].
  apply Z.mul_divide_mono_l, IH. exists q. nia.
Qed.

Lemma probe_lt seed K k n : 0 <= K -> Z.of_nat (probe seed K k n) < 2 ^ K.
Proof. intros HK. unfold probe. pose proof (Z.mod_pos_bound (word be k 0 + Z.of_nat (S n) * step_of be seed k) (2 ^ K) ltac:(lia)). lia. Qed.

(** The step is odd and the size a power of two: no position comes twice in a round. *)
Lemma probe_inj seed K k n n' : 0 <= K -> (Z.of_nat n < 2 ^ K) -> Z.of_nat n' < 2 ^ K ->
  probe seed K k n = probe seed K k n' -> n = n'.
Proof.
  intros HK Hn Hn' E. unfold probe in E.
  pose proof (Z.mod_pos_bound (word be k 0 + Z.of_nat (S n) * step_of be seed k) (2 ^ K) ltac:(lia)).
  pose proof (Z.mod_pos_bound (word be k 0 + Z.of_nat (S n') * step_of be seed k) (2 ^ K) ltac:(lia)).
  assert ((word be k 0 + Z.of_nat (S n) * step_of be seed k) mod 2 ^ K = (word be k 0 + Z.of_nat (S n') * step_of be seed k) mod 2 ^ K) as E' by lia.
  destruct (step_odd seed k) as [x Ex].
  assert ((2 ^ K | (Z.of_nat n - Z.of_nat n') * step_of be seed k)) as Hd.
  { replace ((Z.of_nat n - Z.of_nat n') * step_of be seed k) with
      ((word be k 0 + Z.of_nat (S n) * step_of be seed k) - (word be k 0 + Z.of_nat (S n') * step_of be seed k)) by lia.
    apply Z.mod_divide; [lia|]. by rewrite Zminus_mod, E', Z.sub_diag, Z.mod_0_l by lia. }
  rewrite Ex in Hd. rewrite <- (Z2Nat.id K) in Hd by done. apply pow2_divide_odd in Hd as [q Hq]. rewrite Z2Nat.id in Hq by done.
  assert (q = 0) by nia. nia.
Qed.

(** A table that is not full has a free cell among the positions probed. *)
Lemma probe_free seed K k l : 0 <= K -> Z.of_nat (length l) < 2 ^ K -> exists n, Z.of_nat n < 2 ^ K /\ probe seed K k n ∉ l.
Proof.
  intros HK Hl. destruct (decide (Forall (fun n => probe seed K k n ∈ l) (seq 0 (Z.to_nat (2 ^ K))))) as [H|H].
  - assert (map (probe seed K k) (seq 0 (Z.to_nat (2 ^ K))) ⊆+ l) as Hs%submseteq_length.
    { apply NoDup_submseteq.
      - apply NoDup_fmap_2_strong; [|apply NoDup_seq]. intros x y Hx%elem_of_seq Hy%elem_of_seq. apply probe_inj; lia.
      - intros i (n & -> & Hn)%list_elem_of_fmap. by eapply Forall_forall in H. }
    rewrite length_map, length_seq in Hs. lia.
  - apply not_Forall_Exists in H; [|apply _]. apply Exists_exists in H as (n & Hn%elem_of_seq & Hp). exists n. split; [lia|done].
Qed.

Lemma probe_step seed K k n pos : 0 <= K <= 32 -> pos mod 2 ^ K = (word be k 0 + Z.of_nat n * step_of be seed k) mod 2 ^ K ->
  Z.land (u32 (pos + step_of be seed k)) (2 ^ K - 1) = Z.of_nat (probe seed K k n).
Proof.
  intros HK E. rewrite land_mask by lia. unfold uwrap, probe. rewrite Z.mod_mod_divide.
  2: { exists (2 ^ (32 - K)). rewrite <- Z.pow_add_r by lia. f_equal. lia. }
  rewrite Z2Nat.id by (apply Z.mod_pos_bound; lia). rewrite <- Z.add_mod_idemp_l, E, Z.add_mod_idemp_l by lia. f_equal. lia.
Qed.

Lemma probe_mod seed K k n : 0 <= K ->
  Z.of_nat (probe seed K k n) mod 2 ^ K = (word be k 0 + Z.of_nat (S n) * step_of be seed k) mod 2 ^ K.
Proof.
  intros HK. unfold probe. rewrite Z2Nat.id by (apply Z.mod_pos_bound; lia). by rewrite Z.mod_mod by lia.
Qed.

Lemma linked_lookup d e l i : linked d e l -> i ∈ l -> exists c, d !! i = Some c /\ (next c = e \/ exists j, j ∈ l /\ next c = Z.of_nat j).
Proof.
  induction l as [|x l IH]; [intros _ H; by apply not_elem_of_nil in H|]. intros [(c & Hc & En) Hl]. rewrite elem_of_cons. intros [->|Hi].
  - exists c. split; [done|]. destruct l as [|y l]; [by left|]. right. exists y. split; [by right; left|done].
  - destruct (IH Hl Hi) as (c' & Hc' & [E|(j & Hj & E)]); exists c'; (split; [done|]); [by left|right; exists j; split; [by right|done]].
Qed.

(** The [next] of a cell in use stays below the marks. *)
Lemma in_use m d l K i : table m d l K -> i ∈ l -> exists c, d !! i = Some c /\ 0 <= next c <= 2 ^ K /\ pair_at d i = (key c, value c).
Proof.
  intros T Hi. destruct (linked_lookup d (2 ^ K) l i (tb_linked _ _ _ _ T) Hi) as (c & Hc & Hn). exists c. split; [done|].
  split; [|unfold pair_at; by rewrite Hc]. destruct Hn as [->|(j & Hj & ->)]; [lia|].
  destruct (linked_lookup d (2 ^ K) l j (tb_linked _ _ _ _ T) Hj) as (cj & Hcj & _). apply lookup_lt_Some in Hcj.
  pose proof (tb_length _ _ _ _ T). lia.
Qed.

Lemma pow_bounds m d l K : table m d l K -> 8 <= 2 ^ K <= 2 ^ 28 /\ 2 ^ K = 4 * 2 ^ (K - 2).
Proof.
  intros T. pose proof (tb_K _ _ _ _ T). split; [split; [change 8 with (2 ^ 3)|]; apply Z.pow_le_mono_r; lia|].
  change 4 with (2 ^ 2). rewrite <- Z.pow_add_r by lia. f_equal. lia.
Qed.

(** What a lookup ends at: the cell of the key, or a free cell at which it can be inserted. *)
Definition found (m : t V) (d : cells) (l : list nat) (K : Z) (k : list Z) (i : nat) : Prop :=
  (i < length d)%nat /\
  exists n, probe (m_randseed m) K k n = i /\
    (forall n', (n' < n)%nat -> probe (m_randseed m) K k n' ∈ l /\ fst (pair_at d (probe (m_randseed m) K k n')) <> k) /\
    (i ∈ l -> fst (pair_at d i) = k).

Lemma probe_loop_spec m d l K k stop fuel n pos : table m d l K -> blob_wf 32 k -> 2 ^ 29 <= stop <= EMPTY ->
  (fuel + n = length d)%nat -> pos mod 2 ^ K = (word be k 0 + Z.of_nat n * step_of be (m_randseed m) k) mod 2 ^ K ->
  (forall n', (n' < n)%nat -> probe (m_randseed m) K k n' ∈ l /\ fst (pair_at d (probe (m_randseed m) K k n')) <> k) ->
  exists i, probe_loop fuel (m_mask m) (step_of be (m_randseed m) k) stop k d pos = Ok (Z.of_nat i) /\ found m d l K k i.
Proof.
  intros T Hk Hstop. revert n pos. pose proof (tb_length _ _ _ _ T) as Hlen. pose proof (tb_K _ _ _ _ T) as HK.
  destruct (pow_bounds m d l K T) as [HP HP'].
  induction fuel as [|fuel IH]; intros n pos Hf Hpos Hbefore; cbn [probe_loop].
  { destruct (probe_free (m_randseed m) K k l) as (n' & Hn' & Hfree); [lia|pose proof (tb_load _ _ _ _ T); lia|].
    destruct Hfree. apply Hbefore. lia. }
  rewrite (tb_mask _ _ _ _ T). rewrite (probe_step _ K k n) by (done || lia).
  set (i := probe (m_randseed m) K k n) in *. pose proof (probe_lt (m_randseed m) K k n ltac:(lia)) as Hi. fold i in Hi.
  destruct (lookup_lt_is_Some_2 d i) as [c Hc]; [lia|]. unfold cell. rewrite Nat2Z.id, Hc. cbn [mbind result_bind].
  destruct (decide (i ∈ l)) as [Hin|Hin].
  - destruct (in_use m d l K i T Hin) as (c' & Hc' & Hn & Ep). simplify_eq.
    rewrite (proj2 (Z.ltb_lt _ _)) by lia. cbn [andb].
    assert (length (key c) = 32%nat) as Lk.
    { pose proof (tb_keys _ _ _ _ T) as W. rewrite Forall_map, Forall_forall in W. specialize (W i Hin). rewrite Ep in W. apply W. }
    destruct (Z.eqb_spec (memcmp k (key c)) 0) as [E|E]; cbn [negb].
    + apply memcmp_eq in E; [|rewrite Lk; apply Hk]. exists i. split; [done|]. split; [lia|]. exists n. split_and!; [done..|].
      intros _. by rewrite Ep.
    + rewrite <- (tb_mask _ _ _ _ T). apply (IH (S n)); [lia|apply probe_mod; lia|]. intros n' Hn'.
      destruct (decide (n' = n)) as [->|]; [|apply Hbefore; lia]. fold i. split; [done|]. rewrite Ep. cbn. intros Ek. destruct E.
      apply memcmp_eq; [by rewrite Lk; apply Hk|by rewrite Ek].
  - rewrite (tb_free _ _ _ _ T i c Hc Hin). rewrite (proj2 (Z.ltb_ge _ _)) by lia. cbn [andb].
    exists i. split; [done|]. split; [lia|]. exists n. split_and!; [done..|]. done.
Qed.

Lemma Lookup_spec m d l K k stop : table m d l K -> blob_wf 32 k -> 2 ^ 29 <= stop <= EMPTY ->
  exists i, Lookup be k stop m = Ok (Z.of_nat i) /\ found m d l K k i.
Proof.
  intros T Hk Hs. unfold Lookup, data. rewrite (tb_data _ _ _ _ T). cbn [mbind result_bind].
  apply (probe_loop_spec m d l K k stop _ 0); [done..|lia| |lia]. f_equal. lia.
Qed.

(** A key in the table is found. *)
Lemma found_present m d l K k i j : table m d l K -> found m d l K k i -> j ∈ l -> fst (pair_at d j) = k -> i = j.
Proof.
  intros T (Hi & n & <- & Hb & Hf) Hj Ek. destruct (tb_probe _ _ _ _ T j Hj) as (n1 & Hn1 & Hb1). rewrite Ek in Hn1, Hb1.
  destruct (lt_eq_lt_dec n n1) as [[H|H]|H].
  - specialize (Hb1 n H). specialize (Hf Hb1). pose proof (tb_distinct _ _ _ _ T) as D.
    apply list_elem_of_lookup_1 in Hb1 as [x Hx]. apply list_elem_of_lookup_1 in Hj as [y Hy].
    assert (x = y) as ->; [|congruence]. eapply (NoDup_lookup _ x y k D).
    + change (map (pair_at d) l) with (pair_at d <$> l). rewrite !list_lookup_fmap, Hx. cbn. by rewrite Hf.
    + change (map (pair_at d) l) with (pair_at d <$> l). rewrite !list_lookup_fmap, Hy. cbn. by rewrite Ek.
  - congruence.
  - destruct (Hb n1 H) as [_ Hne]. rewrite Hn1, Ek in Hne. done.
Qed.

Lemma view_lookup m d l K k v : table m d l K -> view d l !! k = Some v <-> exists i, i ∈ l /\ pair_at d i = (k, v).
Proof.
  intros T. unfold view. rewrite <- elem_of_list_to_map by apply (tb_distinct _ _ _ _ T). rewrite list_elem_of_fmap.
  split; intros (i & H1 & H2); exists i; split; done.
Qed.

(** [Search] finds exactly the keys of the map, and their values. *)
Lemma Search_spec m M k : represents m M -> blob_wf 32 k ->
  exists r, Search be k m = Ok r /\
    match M !! k with
    | None => r = None
    | Some v => exists pos c d, r = Some pos /\ m_data m = Some d /\ cell d pos = Ok c /\ key c = k /\ value c = v
    end.
Proof.
  intros (d & l & K & T & ->) Hk. unfold Search.
  destruct (Lookup_spec m d l K k EMPTY T Hk) as (i & -> & F); [unfold EMPTY; lia|]. cbn [mbind result_bind].
  unfold data. rewrite (tb_data _ _ _ _ T). cbn [mbind result_bind]. pose proof F as [Hi (n & En & Hb & Hf)].
  destruct (lookup_lt_is_Some_2 d i Hi) as [c Hc]. unfold cell at 1. rewrite Nat2Z.id, Hc. cbn [mbind result_bind].
  destruct (pow_bounds m d l K T) as [HP _]. destruct (decide (i ∈ l)) as [Hin|Hin].
  - destruct (in_use m d l K i T Hin) as (c' & Hc' & Hn & Ep). assert (c' = c) as -> by congruence. specialize (Hf Hin). rewrite Ep in Hf. cbn in Hf. subst k.
    assert (flag_set (next c) DELETED = false) as ->.
    { unfold flag_set, DELETED. change 0x80000000 with (2 ^ 31). rewrite land_pow2 by lia.
      rewrite testbit_top by (cbn; lia). by rewrite (proj2 (Z.leb_gt _ _)) by lia. }
    eexists. split; [done|]. rewrite (proj2 (view_lookup m d l K (key c) (value c) T)) by (by exists i).
    exists (Z.of_nat i), c, d. split_and!; try done. unfold cell. by rewrite Nat2Z.id, Hc.
  - rewrite (tb_free _ _ _ _ T i c Hc Hin). exists None. split; [done|]. destruct (view d l !! k) as [v|] eqn:Ev; [|done].
    apply (view_lookup m d l K k v T) in Ev as (j & Hj & Ej).
    rewrite (found_present m d l K k i j T F Hj) in Hin; [done|]. by rewrite Ej.
Qed.

(** ** Insertion *)

Lemma linked_ext d d' e l : (forall x, x ∈ l -> next <$> d' !! x = next <$> d !! x) -> linked d e l -> linked d' e l.
Proof.
  induction l as [|x l IH]; [done|]. intros H [(c & Hc & En) Hl]. split.
  - specialize (H x ltac:(by left)). rewrite Hc in H. destruct (d' !! x) as [c'|]; [|done]. exists c'. split; [done|]. cbn in H. congruence.
  - apply IH; [|done]. intros y Hy. apply H. by right.
Qed.

Lemma linked_snoc d d' e l i : linked d e l -> NoDup l ->
  (forall x, x ∈ l -> last l <> Some x -> next <$> d' !! x = next <$> d !! x) ->
  (forall j, last l = Some j -> next <$> d' !! j = Some (Z.of_nat i)) -> next <$> d' !! i = Some e -> linked d' e (l ++ [i]).
Proof.
  intros Hl Hd Hsame Hlast Hi. induction l as [|x l IH]; cbn [app linked].
  { split; [|done]. destruct (d' !! i) as [c|]; [|done]. exists c. split; [done|]. by injection Hi. }
  destruct Hl as [(c & Hc & En) Hl]. apply NoDup_cons in Hd as [Hx Hd]. destruct l as [|y l].
  - specialize (Hlast x eq_refl). split; [|by apply IH; try done; intros ? ?%not_elem_of_nil].
    destruct (d' !! x) as [c'|]; [|done]. exists c'. split; [done|]. by injection Hlast.
  - assert (last (x :: y :: l) = last (y :: l)) as El by done. split.
    + assert (last (x :: y :: l) <> Some x) as Hne.
      { rewrite El. intros E. apply Hx. by apply last_Some_elem_of. }
      specialize (Hsame x ltac:(by left) Hne). rewrite Hc in Hsame. destruct (d' !! x) as [c'|]; [|done].
      exists c'. split; [done|]. cbn in Hsame |- *. injection Hsame as ->. done.
    + apply IH; [done|done| |].
      * intros z Hz Hne. apply Hsame; [by right|done].
      * intros j Hj. by apply Hlast.
Qed.

Lemma not_deleted K n : 0 <= n <= 2 ^ K -> 2 ^ K <= 2 ^ 28 -> flag_set n DELETED = false /\ (n =? EMPTY) = false.
Proof.
  intros Hn HK. split; [|apply Z.eqb_neq; unfold EMPTY; lia]. unfold flag_set, DELETED. change 0x80000000 with (2 ^ 31).
  rewrite land_pow2 by lia. rewrite testbit_top by (cbn; lia). by rewrite (proj2 (Z.leb_gt _ _)) by lia.
Qed.

(** The key is there: its value is replaced. *)
Lemma overwrite_table m d l K i c v : table m d l K -> i ∈ l -> d !! i = Some c ->
  let d' := <[i := mk_data v (key c) (next c)]> d in
  table (mk (m_head m) (m_tail m) (m_mask m) (m_used m) (m_deleted m) (m_randseed m) (Some d')) d' l K /\
  view d' l = <[key c := v]> (view d l).
Proof.
  intros T Hi Hc d'. pose proof (lookup_lt_Some _ _ _ Hc) as Hlt.
  assert (d' !! i = Some (mk_data v (key c) (next c))) as Hi' by (by apply list_lookup_insert_eq).
  assert (forall x, x <> i -> d' !! x = d !! x) as Hx' by (intros x Hne; by apply list_lookup_insert_ne).
  assert (forall x, fst (pair_at d' x) = fst (pair_at d x)) as Hfst.
  { intros x. unfold pair_at. destruct (decide (x = i)) as [->|]; [by rewrite Hi', Hc|by rewrite Hx']. }
  assert ((map (pair_at d') l).*1 = (map (pair_at d) l).*1) as Hkeys.
  { change (fst <$> (pair_at d' <$> l) = fst <$> (pair_at d <$> l)). rewrite <- !list_fmap_compose. apply list_fmap_ext. intros x y _. apply Hfst. }
  assert (table (mk (m_head m) (m_tail m) (m_mask m) (m_used m) (m_deleted m) (m_randseed m) (Some d')) d' l K) as T'.
  { destruct T as [T1 T2 T3 T4 T5 T6 T7 T8 T9 T10 T11 T12 T13 T14 T15]. split; cbn; try done.
    - unfold d'. by rewrite length_insert.
    - revert T8. apply linked_ext. intros x _. destruct (decide (x = i)) as [->|]; [by rewrite Hi', Hc|by rewrite Hx'].
    - intros x cx Hx Hn. rewrite Hx' in Hx by (intros ->; done). by apply (T11 x).
    - rewrite Forall_map in *. eapply Forall_impl; [exact T12|]. cbn. intros x. by rewrite Hfst.
    - by rewrite Hkeys.
    - intros x Hx. rewrite Hfst. by apply T14. }
  split; [done|]. apply map_eq. intros k'. apply option_eq. intros w. rewrite (view_lookup _ _ _ _ _ _ T').
  destruct (decide (k' = key c)) as [->|Hne].
  - rewrite lookup_insert_eq. split.
    + intros (x & Hx & Ex). assert (x = i) as ->.
      { pose proof (tb_distinct _ _ _ _ T) as D. apply list_elem_of_lookup_1 in Hx as [a Ha]. apply list_elem_of_lookup_1 in Hi as [b Hb].
        assert (a = b) as ->; [|congruence]. change (map (pair_at d) l) with (pair_at d <$> l) in D.
        apply (NoDup_lookup _ a b (key c) D); rewrite !list_lookup_fmap, ?Ha, ?Hb; cbn.
        - rewrite <- Hfst, Ex. done.
        - unfold pair_at. by rewrite Hc. }
      unfold pair_at in Ex. rewrite Hi' in Ex. cbn in Ex. congruence.
    + intros [= <-]. exists i. split; [done|]. unfold pair_at. by rewrite Hi'.
  - rewrite lookup_insert_ne by congruence. rewrite (view_lookup _ _ _ _ _ _ T). split; intros (x & Hx & Ex); exists x; (split; [done|]).
    + destruct (decide (x = i)) as [->|]; [unfold pair_at in Ex; rewrite Hi' in Ex; cbn in Ex; congruence|].
      unfold pair_at in *. by rewrite Hx' in Ex.
    + destruct (decide (x = i)) as [->|]; [unfold pair_at in Ex; rewrite Hc in Ex; cbn in Ex; congruence|].
      unfold pair_at in *. by rewrite Hx'.
Qed.

(** It is not: the cell is taken and appended to the list. *)
Lemma append_table m d l K i k v d' : table m d l K -> found m d l K k i -> i ∉ l -> blob_wf 32 k ->
  Z.of_nat (length l) < 3 * 2 ^ (K - 2) -> length d' = length d ->
  d' !! i = Some (mk_data v k (2 ^ K)) ->
  (forall j, last l = Some j -> next <$> d' !! j = Some (Z.of_nat i)) ->
  (forall x, x ∈ l -> last l <> Some x -> d' !! x = d !! x) ->
  (forall x, x ∈ l -> pair_at d' x = pair_at d x) -> (forall x, x ∉ l -> x <> i -> d' !! x = d !! x) ->
  table (mk (first_of (2 ^ K) (l ++ [i])) (Z.of_nat i) (m_mask m) (u32 (m_used m + 1)) (m_deleted m) (m_randseed m) (Some d')) d' (l ++ [i]) K /\
  view d' (l ++ [i]) = <[k := v]> (view d l).
Proof.
  intros T F Hi Hk Hload Hlen Hi' Hlast Hsame Hpair Hother. destruct (pow_bounds m d l K T) as [HP HP'].
  assert (k ∉ (map (pair_at d) l).*1) as Hfresh.
  { intros Hin. apply list_elem_of_fmap in Hin as ([k' w] & -> & Hin). apply list_elem_of_fmap in Hin as (j & Ej & Hj).
    apply Hi. erewrite (found_present m d l K _ i j T F Hj); [done|]. by rewrite <- Ej. }
  assert (map (pair_at d') (l ++ [i]) = map (pair_at d) l ++ [(k, v)]) as Emap.
  { rewrite map_app. f_equal; [|cbn; unfold pair_at; by rewrite Hi']. apply map_ext_in. intros x Hx. apply Hpair. by apply list_elem_of_In. }
  split.
  - destruct T as [T1 T2 T3 T4 T5 T6 T7 T8 T9 T10 T11 T12 T13 T14 T15]. split; cbn; try done.
    + by rewrite Hlen.
    + rewrite uwrap_small by (unfold is_u; lia). rewrite length_app. cbn. lia.
    + apply NoDup_app. split_and!; [done| |by apply NoDup_singleton]. intros x Hx ->%list_elem_of_singleton. done.
    + apply (linked_snoc d); [done|done| |done|by rewrite Hi']. intros x Hx Hn. by rewrite Hsame.
    + unfold last_of. by rewrite last_snoc.
    + intros x c Hx Hn. apply not_elem_of_app in Hn as [Hn1 Hn2]. rewrite list_elem_of_singleton in Hn2. rewrite Hother in Hx by done. by apply (T11 x).
    + rewrite Emap. apply Forall_app. split; [done|]. apply Forall_cons. split; [done|apply Forall_nil_2].
    + rewrite Emap, fmap_app. apply NoDup_app. split_and!; [done| |by apply NoDup_singleton]. intros x Hx ->%list_elem_of_singleton. done.
    + intros x Hx. apply elem_of_app in Hx as [Hx| ->%list_elem_of_singleton].
      * rewrite Hpair by done. destruct (T14 x Hx) as (n & Hn & Hb). exists n. split; [done|]. intros n' Hn'. apply elem_of_app. left. by apply Hb.
      * unfold pair_at. rewrite Hi'. cbn. destruct F as (_ & n & Hn & Hb & _). exists n. split; [done|]. intros n' Hn'. apply elem_of_app. left. by apply Hb.
    + rewrite length_app. cbn. lia.
  - unfold view. rewrite Emap. by apply list_to_map_snoc.
Qed.

Lemma cell_nat (d : cells) i c : d !! i = Some c -> cell d (Z.of_nat i) = Ok c.
Proof. intros Hc. unfold cell. by rewrite Nat2Z.id, Hc. Qed.

Lemma insert_cell_spec m d l K k v : table m d l K -> blob_wf 32 k -> Z.of_nat (length l) < 3 * 2 ^ (K - 2) ->
  exists pos m' d' l', insert_cell be k v m = Ok (pos, m') /\ table m' d' l' K /\ view d' l' = <[k := v]> (view d l) /\
    (length l' <= S (length l))%nat.
Proof.
  intros T Hk Hload. unfold insert_cell. destruct (pow_bounds m d l K T) as [HP HP'].
  destruct (Lookup_spec m d l K k (Z.shiftl 1 29) T Hk) as (i & -> & F); [change (Z.shiftl 1 29) with (2 ^ 29); unfold EMPTY; lia|]. cbn [mbind result_bind].
  unfold data. rewrite (tb_data _ _ _ _ T). cbn [mbind result_bind]. pose proof F as [Hi (n & En & Hb & Hf)].
  destruct (lookup_lt_is_Some_2 d i Hi) as [c Hc]. rewrite (cell_nat d i c Hc). cbn [mbind result_bind].
  destruct (decide (i ∈ l)) as [Hin|Hin].
  - destruct (in_use m d l K i T Hin) as (c' & Hc' & Hn & Ep). assert (c' = c) as -> by congruence.
    specialize (Hf Hin). rewrite Ep in Hf. cbn in Hf. subst k.
    destruct (not_deleted K (next c) Hn ltac:(lia)) as [E1 E2]. rewrite E2. cbn [mbind result_bind mret result_ret]. rewrite E1.
    rewrite (tb_data _ _ _ _ T). cbn [mbind result_bind]. unfold store. rewrite Nat2Z.id.
    destruct (overwrite_table m d l K i c v T Hin Hc) as [T' Ev]. eexists _, _, _, l. split; [done|]. split; [exact T'|]. split; [exact Ev|lia].
  - pose proof (tb_free _ _ _ _ T i c Hc Hin) as Ee. rewrite Ee, Z.eqb_refl.
    rewrite (tb_head _ _ _ _ T), (tb_tail _ _ _ _ T), (tb_mask _ _ _ _ T). replace (2 ^ K - 1 + 1) with (2 ^ K) by lia.
    destruct (not_deleted K (2 ^ K) ltac:(lia) ltac:(lia)) as [E1 _].
    destruct l as [|h l0] eqn:El.
    + cbn [first_of]. rewrite (proj2 (Z.gtb_lt _ _)) by lia. cbn [mbind result_bind mret result_ret set_next next]. rewrite E1.
      cbn [m_data mbind result_bind]. unfold store. rewrite Nat2Z.id. rewrite list_insert_insert_eq.
      set (d' := <[i:=mk_data v k (2 ^ K)]> d).
      destruct (append_table m d [] K i k v d' T F Hin Hk Hload) as [T' Ev].
      { unfold d'. by rewrite length_insert. } { by apply list_lookup_insert_eq. } { done. }
      { by intros x ?%not_elem_of_nil. } { by intros x ?%not_elem_of_nil. } { intros x _ Hne. by apply list_lookup_insert_ne. }
      cbn [app first_of] in T', Ev. rewrite (tb_mask _ _ _ _ T) in T'.
      eexists _, _, d', [i]. split; [done|]. split; [exact T'|]. split; [exact Ev|cbn; lia].
    + rewrite <- El in *. assert (exists j, last l = Some j) as [j Ej].
      { destruct (last l) as [j|] eqn:E; [by exists j|]. apply last_None in E. by rewrite El in E. }
      assert (j ∈ l) as Hj by (by apply last_Some_elem_of).
      destruct (in_use m d l K j T Hj) as (cj & Hcj & Hnj & Epj). pose proof (lookup_lt_Some _ _ _ Hcj) as Hjl.
      assert (j <> i) as Hji by (intros ->; done). pose proof (tb_length _ _ _ _ T) as Hlen.
      assert ((first_of (2 ^ K) l >? 2 ^ K - 1) = false) as ->.
      { rewrite El. cbn [first_of]. destruct (in_use m d l K h T ltac:(rewrite El; by left)) as (ch & Hch & _).
        apply lookup_lt_Some in Hch. rewrite Z.gtb_ltb. apply Z.ltb_ge. lia. }
      unfold last_of. rewrite Ej. unfold store. rewrite !Nat2Z.id. rewrite (cell_nat _ j cj) by (by rewrite list_lookup_insert_ne).
      cbn [mbind result_bind]. rewrite (cell_nat _ i (set_next (2 ^ K) c)) by (rewrite list_lookup_insert_ne by done; by apply list_lookup_insert_eq).
      cbn [mbind result_bind mret result_ret set_next next]. rewrite E1. cbn [m_data mbind result_bind]. rewrite list_insert_insert_ne, list_insert_insert_eq by done.
      set (d' := <[i:=mk_data v k (2 ^ K)]> (<[j:=set_next (Z.of_nat i) cj]> d)).
      assert (d' !! j = Some (set_next (Z.of_nat i) cj)) as Hj' by (unfold d'; rewrite list_lookup_insert_ne by done; by apply list_lookup_insert_eq).
      assert (forall x, x <> j -> x <> i -> d' !! x = d !! x) as Hx' by (intros x H1 H2; unfold d'; by rewrite !list_lookup_insert_ne).
      destruct (append_table m d l K i k v d' T F Hin Hk Hload) as [T' Ev].
      { unfold d'. by rewrite !length_insert. } { apply list_lookup_insert_eq. by rewrite length_insert. }
      { intros j' Hj''. assert (j' = j) as -> by congruence. by rewrite Hj'. }
      { intros x Hx Hne. apply Hx'; [congruence|intros ->; done]. }
      { intros x Hx. unfold pair_at. destruct (decide (x = j)) as [->|]; [by rewrite Hj', Hcj|]. by rewrite Hx' by (done || (intros ->; done)). }
      { intros x Hx Hne. apply Hx'; [intros ->; done|done]. }
      assert (first_of (2 ^ K) (l ++ [i]) = first_of (2 ^ K) l) as Ef by (by rewrite El).
      rewrite Ef, (tb_mask _ _ _ _ T) in T'.
      eexists _, _, d', (l ++ [i]). split; [done|]. split; [exact T'|]. split; [exact Ev|rewrite length_app; cbn; lia].
Qed.

(** ** New tables *)

Lemma double_until_spec fuel j size : 3 <= j <= 28 -> size <= 2 ^ 28 -> 28 - j <= Z.of_nat fuel ->
  exists K, j <= K <= 28 /\ double_until fuel (2 ^ j) size = 2 ^ K /\ size <= 2 ^ K.
Proof.
  revert j. induction fuel as [|fuel IH]; intros j Hj Hs Hf; cbn [double_until].
  - exists j. assert (j = 28) as -> by lia. split_and!; [lia|lia|done|lia].
  - destruct (Z.ltb_spec (2 ^ j) size) as [Hlt|Hge]; [|exists j; split_and!; lia || done].
    assert (j < 28) as Hj28 by (destruct (decide (j = 28)) as [->|]; lia).
    assert (2 ^ (j + 1) = 2 * 2 ^ j) as E by (rewrite Z.pow_add_r by lia; lia).
    assert (2 ^ (j + 1) <= 2 ^ 28) by (apply Z.pow_le_mono_r; lia).
    rewrite shiftl_mul by lia. rewrite uwrap_small by (unfold is_u; lia). change (2 ^ 1) with 2. rewrite Z.mul_comm, <- E.
    destruct (IH (j + 1)) as (K & H1 & H2 & H3); [lia|done|lia|]. exists K. split_and!; [lia|lia|done|done].
Qed.

Lemma empty_table seed sz : 0 < sz <= 2 ^ 28 -> exists K, table (Set_ dflt sz (new seed)) (replicate (Z.to_nat (2 ^ K)) (empty_cell dflt)) [] K /\ sz <= 2 ^ K.
Proof.
  intros Hs. unfold Set_. rewrite (proj2 (Z.eqb_neq _ _)) by lia. cbn [new m_data].
  assert ((sz >? Z.shiftl 1 29) = false) as -> by (change (Z.shiftl 1 29) with (2 ^ 29); rewrite Z.gtb_ltb; apply Z.ltb_ge; lia).
  change 8 with (2 ^ 3). destruct (double_until_spec 27 3 sz) as (K & HK & -> & HsK); [lia|lia|lia|].
  exists K. split; [|done]. assert (8 <= 2 ^ K) by (change 8 with (2 ^ 3); apply Z.pow_le_mono_r; lia). assert (0 < 2 ^ (K - 2)) by lia.
  split; cbn; try done; try lia.
  - rewrite length_replicate. lia.
  - apply NoDup_nil_2.
  - intros i c Hc _. apply lookup_replicate in Hc as [-> _]. done.
  - apply NoDup_nil_2.
  - intros i Hi. by apply not_elem_of_nil in Hi.
Qed.

(** ** Clearing *)

Lemma low_bits n : 0 <= n < 2 ^ 31 -> Z.land n 0x7fffffff = n.
Proof. intros Hn. change 0x7fffffff with (2 ^ 31 - 1). rewrite land_mask by lia. by apply Z.mod_small. Qed.

Lemma clear_list_spec fuel K l d : 3 <= K <= 28 -> Z.of_nat (length d) = 2 ^ K -> NoDup l -> linked d (2 ^ K) l ->
  (forall i c, d !! i = Some c -> i ∉ l -> next c = EMPTY) -> (length l < fuel)%nat ->
  exists d', clear_list fuel (2 ^ K - 1) (first_of (2 ^ K) l) d = Ok d' /\ length d' = length d /\
    forall i c, d' !! i = Some c -> next c = EMPTY.
Proof.
  intros HK. revert l d. induction fuel as [|fuel IH]; intros l d Hlen Hd Hl Hfree Hf; [lia|].
  assert (2 ^ K <= 2 ^ 28) by (apply Z.pow_le_mono_r; lia). cbn [clear_list]. destruct l as [|i l]; cbn [first_of].
  { rewrite (proj2 (Z.leb_gt _ _)) by lia. exists d. split_and!; [done|done|]. intros i c Hc. apply (Hfree i c Hc). apply not_elem_of_nil. }
  destruct Hl as [(c & Hc & En) Hl]. pose proof (lookup_lt_Some _ _ _ Hc) as Hi. rewrite (proj2 (Z.leb_le _ _)) by lia.
  rewrite (cell_nat d i c Hc). cbn [mbind result_bind]. apply NoDup_cons in Hd as [Hn Hd].
  assert (0 <= first_of (2 ^ K) l < 2 ^ 31) as Hb.
  { destruct l as [|j l]; cbn; [lia|]. destruct Hl as [(cj & Hcj & _) _]. apply lookup_lt_Some in Hcj. lia. }
  rewrite En, low_bits by done. unfold store. rewrite Nat2Z.id.
  destruct (IH l (<[i:=set_next EMPTY c]> d)) as (d' & E & L & H0).
  - by rewrite length_insert.
  - done.
  - revert Hl. apply linked_ext. intros x Hx. rewrite list_lookup_insert_ne; [done|]. intros ->. done.
  - intros x cx Hx Hxl. destruct (decide (x = i)) as [->|Hne].
    + rewrite list_lookup_insert_eq in Hx by done. injection Hx as <-. done.
    + rewrite list_lookup_insert_ne in Hx by done. apply (Hfree x cx Hx). rewrite elem_of_cons. tauto.
  - cbn in Hf. lia.
  - exists d'. split_and!; [done|by rewrite L, length_insert|done].
Qed.

Lemma clear_spec m M : represents m M -> exists m', clear m = Ok m' /\ represents m' ∅.
Proof.
  intros (d & l & K & T & ->). unfold clear, data. rewrite (tb_data _ _ _ _ T), (tb_deleted _ _ _ _ T). cbn [mbind result_bind Z.eqb negb].
  rewrite (tb_mask _ _ _ _ T), (tb_head _ _ _ _ T).
  destruct (pow_bounds m d l K T) as [HP HP']. pose proof (tb_length _ _ _ _ T) as Hlen. pose proof (tb_load _ _ _ _ T) as Hload.
  destruct (clear_list_spec (S (length d)) K l d) as (d' & -> & L & H0); [apply T|done|apply T|apply T|apply T|lia|].
  cbn [mbind result_bind]. eexists. split; [done|]. exists d', [], K. split; [|done]. pose proof (tb_K _ _ _ _ T).
  replace (2 ^ K - 1 + 1) with (2 ^ K) by lia.
  split; cbn; try done; try lia.
  - apply NoDup_nil_2.
  - intros i c Hc _. by apply (H0 i).
  - apply NoDup_nil_2.
  - intros i Hi. by apply not_elem_of_nil in Hi.
Qed.

(** ** Moving to a larger table *)

Lemma Next_spec m d l K p i l' : table m d l K -> l = p ++ i :: l' ->
  Next (Z.of_nat i) m = Ok (match l' with [] => None | j :: _ => Some (Z.of_nat j) end).
Proof.
  intros T El. unfold Next, data. rewrite (tb_data _ _ _ _ T). cbn [mbind result_bind]. destruct (pow_bounds m d l K T) as [HP _].
  assert (linked d (2 ^ K) (i :: l')) as [(c & Hc & En) Hl].
  { pose proof (tb_linked _ _ _ _ T) as Hl. rewrite El in Hl. clear -Hl. induction p as [|x p IH]; [done|]. apply IH, Hl. }
  pose proof (tb_length _ _ _ _ T) as Hlen. destruct (length d) as [|n] eqn:En'; [lia|]. cbn [Next_loop]. rewrite (cell_nat d i c Hc). cbn [mbind result_bind].
  rewrite (tb_mask _ _ _ _ T), En. replace (2 ^ K - 1 + 1) with (2 ^ K) by lia.
  destruct l' as [|j l']; cbn [first_of]; [by rewrite Z.eqb_refl|].
  destruct (in_use m d l K j T) as (cj & Hcj & Hn & _); [rewrite El; set_solver|].
  pose proof (lookup_lt_Some _ _ _ Hcj). rewrite (proj2 (Z.eqb_neq _ _)) by lia. rewrite low_bits by lia.
  rewrite (cell_nat d j cj Hcj). cbn [mbind result_bind]. rewrite swrap_small by (unfold is_s; lia).
  by rewrite (proj2 (Z.ltb_ge _ _)) by lia.
Qed.

Lemma new_size_spec m d l K : table m d l K ->
  new_size m = if decide (Z.of_nat (length l) < 3 * 2 ^ (K - 2)) then 0 else 2 * (2 ^ K - 1).
Proof.
  intros T. unfold new_size. destruct (pow_bounds m d l K T) as [HP HP']. rewrite (tb_deleted _ _ _ _ T), (tb_mask _ _ _ _ T), (tb_used _ _ _ _ T).
  rewrite !shiftr_div, shiftl_mul by lia. assert ((2 ^ K - 1) / 2 ^ 2 = 2 ^ (K - 2) - 1) as ->.
  { change (2 ^ 2) with 4. symmetry. apply Z.div_unique with 3; lia. }
  rewrite uwrap_small by (unfold is_u; lia). assert (0 <= (2 ^ K - 1) / 2 ^ 1) by (apply Z.div_pos; lia).
  assert ((0 >? (2 ^ K - 1) / 2 ^ 1) = false) as -> by (rewrite Z.gtb_ltb; apply Z.ltb_ge; lia).
  destruct (decide _) as [Hlt|Hge].
  - assert ((Z.of_nat (length l) >=? 2 ^ K - 1 - (2 ^ (K - 2) - 1)) = false) as ->; [|done]. rewrite Z.geb_leb. apply Z.leb_gt. lia.
  - rewrite (proj2 (Z.geb_le _ _)) by lia. lia.
Qed.

Definition insert_all (ps : list (list Z * V)) (M : gmap (list Z) V) : gmap (list Z) V := foldl (fun M kv => <[fst kv := snd kv]> M) M ps.

Lemma insert_all_map ps : NoDup ps.*1 -> insert_all ps ∅ = list_to_map ps.
Proof.
  induction ps as [|[k v] ps IH] using rev_ind; [done|]. rewrite fmap_app. intros (D1 & D2 & _)%NoDup_app.
  unfold insert_all in *. rewrite foldl_app. cbn. rewrite IH by done. symmetry. apply list_to_map_snoc.
  intros Hin. apply (D2 k Hin). by left.
Qed.

Lemma reinsert_spec depth rnd m d l K p s r dr lr Kr fuel : table m d l K -> l = p ++ s -> table r dr lr Kr ->
  Z.of_nat (length lr) + Z.of_nat (length s) <= 3 * 2 ^ (Kr - 2) -> (length s < fuel)%nat ->
  exists r' d' l', reinsert (Insert be dflt depth rnd) fuel m (match s with [] => None | j :: _ => Some (Z.of_nat j) end) r = Ok r' /\
    table r' d' l' Kr /\ view d' l' = insert_all (map (pair_at d) s) (view dr lr) /\ (length l' <= length lr + length s)%nat.
Proof.
  intros T. revert p s r dr lr. induction fuel as [|fuel IH]; intros p s r dr lr El Tr Hload Hf; [lia|]. cbn [reinsert].
  destruct s as [|i s]; [exists r, dr, lr; split_and!; try done; lia|].
  unfold data. rewrite (tb_data _ _ _ _ T). cbn [mbind result_bind].
  assert (i ∈ l) as Hin by (rewrite El; set_solver). destruct (in_use m d l K i T Hin) as (c & Hc & _ & Ep).
  rewrite (cell_nat d i c Hc). cbn [mbind result_bind].
  assert (blob_wf 32 (key c)) as Wk.
  { pose proof (tb_keys _ _ _ _ T) as W. rewrite Forall_map, Forall_forall in W. specialize (W i Hin). by rewrite Ep in W. }
  assert (Insert be dflt depth rnd (key c) (value c) r = insert_cell be (key c) (value c) r) as ->.
  { assert (new_size r = 0) as E0 by (rewrite (new_size_spec r dr lr Kr Tr); rewrite decide_True; [done|cbn in Hload; lia]).
    destruct depth; cbn [Insert]; by rewrite E0. }
  destruct (insert_cell_spec r dr lr Kr (key c) (value c) Tr Wk) as (pos & r1 & d1 & l1 & -> & T1 & E1 & L1); [cbn in Hload; lia|].
  cbn [mbind result_bind]. rewrite (Next_spec m d l K p i s T El). cbn [mbind result_bind].
  destruct (IH (p ++ [i]) s r1 d1 l1) as (r' & d' & l' & E & T' & E' & L'); [by rewrite <- app_assoc|done|cbn in Hload; lia|cbn in Hf; lia|].
  exists r', d', l'. split_and!; [done|done| |cbn; lia]. rewrite E', E1. cbn [map]. rewrite Ep. done.
Qed.

Lemma view_size m d l K : table m d l K -> base.size (view d l) = length l.
Proof.
  intros T. unfold view. rewrite map_size_list_to_map by apply (tb_distinct _ _ _ _ T). by rewrite length_map.
Qed.

(** [Insert] adds the pair, whether or not the table grows. *)
Lemma Insert_spec depth rnd m M k v : represents m M -> blob_wf 32 k -> Z.of_nat (base.size M) < 3 * 2 ^ 26 -> (1 <= depth)%nat ->
  exists pos m', Insert be dflt depth rnd k v m = Ok (pos, m') /\ represents m' (<[k := v]> M).
Proof.
  intros (d & l & K & T & ->) Hk Hsize Hd. rewrite (view_size m d l K T) in Hsize. destruct (pow_bounds m d l K T) as [HP HP'].
  destruct depth as [|depth]; [lia|]. cbn [Insert]. rewrite (new_size_spec m d l K T).
  destruct (decide _) as [Hlt|Hge].
  - cbn [Z.eqb mbind result_bind mret result_ret]. destruct (insert_cell_spec m d l K k v T Hk Hlt) as (pos & m' & d' & l' & -> & T' & E & _).
    exists pos, m'. split; [done|]. exists d', l', K. split; [done|]. by rewrite E.
  - rewrite (proj2 (Z.eqb_neq _ _)) by lia. unfold data. rewrite (tb_data _ _ _ _ T). cbn [mbind result_bind].
    pose proof (tb_K _ _ _ _ T) as HK. pose proof (tb_length _ _ _ _ T) as Hlen. pose proof (tb_load _ _ _ _ T) as Hload.
    assert (K < 28) as HK28.
    { destruct (decide (K = 28)) as [->|]; [|lia]. change (28 - 2) with 26 in Hge. lia. }
    assert (2 * 2 ^ K <= 2 ^ 28) by (rewrite <- Z.pow_succ_r by lia; apply Z.pow_le_mono_r; lia).
    destruct (empty_table (rnd 0%nat) (2 * (2 ^ K - 1))) as (Kr & Tr & Hr); [lia|].
    assert (3 * 2 ^ (K - 2) < 3 * 2 ^ (Kr - 2)) as Hgrow.
    { assert (K < Kr) as HKr; [|apply Z.mul_lt_mono_pos_l; [lia|]; apply Z.pow_lt_mono_r; lia].
      apply (Z.pow_lt_mono_r_iff 2); [lia|pose proof (tb_K _ _ _ _ Tr); lia|]. lia. }
    destruct (reinsert_spec depth (fun i => rnd (S i)) m d l K [] l _ _ _ _ (S (length d)) T eq_refl Tr) as (r & d' & l' & E & T' & Ev & L');
      [cbn; lia|lia|].
    assert (First m = match l with [] => None | j :: _ => Some (Z.of_nat j) end) as ->.
    { unfold First. rewrite (tb_head _ _ _ _ T), (tb_mask _ _ _ _ T). destruct l as [|j l0] eqn:El; cbn [first_of].
      - by rewrite (proj2 (Z.gtb_lt _ _)) by lia.
      - destruct (in_use m d _ K j T ltac:(by left)) as (cj & Hcj & _). apply lookup_lt_Some in Hcj.
        assert ((Z.of_nat j >? 2 ^ K - 1) = false) as ->; [|done]. rewrite Z.gtb_ltb. apply Z.ltb_ge. lia. }
    rewrite E. cbn [mbind result_bind mret result_ret].
    set (m1 := mk _ _ _ _ _ _ _).
    assert (table m1 d' l' Kr) as T1 by (destruct T'; by split).
    destruct (insert_cell_spec m1 d' l' Kr k v T1 Hk) as (pos & m' & d2 & l2 & -> & T2 & E2 & _); [cbn in L'; lia|].
    exists pos, m'. split; [done|]. exists d2, l2, Kr. split; [done|]. rewrite E2, Ev. cbn. unfold view.
    by rewrite insert_all_map by apply (tb_distinct _ _ _ _ T).
Qed.

(** ** Runs *)

Inductive op : Type :=
| search (k : list Z)
| insert_ (rnd : nat -> Z) (k : list Z) (v : V)
| clear_.

(** [Search] as its callers use it: the value of the cell found. *)
Definition search_value (k : list Z) (m : t V) : result fault (option V) :=
  r ← Search be k m;
  match r with
  | None => mret None
  | Some pos => d ← data m; c ← cell d pos; mret (Some (value c))
  end.

(** The answers to the searches of a run. *)
Fixpoint run (ops : list op) (m : t V) : result fault (list (option V)) :=
  match ops with
  | [] => mret []
  | search k :: ops' => r ← search_value k m; l ← run ops' m; mret (r :: l)
  | insert_ rnd k v :: ops' => '(_, m) ← Insert be dflt 1 rnd k v m; run ops' m
  | clear_ :: ops' => m ← clear m; run ops' m
  end.

(** The same on a finite map. *)
Fixpoint run_map (ops : list op) (M : gmap (list Z) V) : list (option V) :=
  match ops with
  | [] => []
  | search k :: ops' => M !! k :: run_map ops' M
  | insert_ _ k v :: ops' => run_map ops' (<[k := v]> M)
  | clear_ :: ops' => run_map ops' ∅
  end.

Definition key_ok (o : op) : Prop :=
  match o with search k => blob_wf 32 k | insert_ _ k _ => blob_wf 32 k | clear_ => True end.

Lemma search_value_spec m M k : represents m M -> blob_wf 32 k -> search_value k m = Ok (M !! k).
Proof.
  intros R Hk. unfold search_value. destruct (Search_spec m M k R Hk) as (r & -> & H). cbn [mbind result_bind].
  destruct (M !! k) as [v|]; [|by rewrite H]. destruct H as (pos & c & d & -> & Ed & Ec & _ & Ev). unfold data. rewrite Ed.
  cbn [mbind result_bind]. rewrite Ec. cbn [mbind result_bind]. by rewrite Ev.
Qed.

Lemma run_spec ops m M : represents m M -> Forall key_ok ops -> Z.of_nat (base.size M) + Z.of_nat (length ops) <= 3 * 2 ^ 26 ->
  run ops m = Ok (run_map ops M).
Proof.
  intros R Hk. revert m M R. induction Hk as [|o ops Ho _ IH]; intros m M R Hs; [done|]. destruct o as [k|rnd k v|]; cbn [run run_map].
  - rewrite (search_value_spec m M k R Ho). cbn [mbind result_bind]. rewrite (IH m M R) by (cbn in Hs; lia). done.
  - destruct (Insert_spec 1 rnd m M k v R Ho) as (pos & m' & -> & R'); [cbn in Hs; lia|lia|]. cbn [mbind result_bind].
    apply (IH m' _ R'). cbn [length] in Hs. rewrite map_size_insert. destruct (M !! k); cbn; lia.
  - destruct (clear_spec m M R) as (m' & -> & R'). cbn [mbind result_bind]. apply (IH m' _ R'). rewrite map_size_empty. cbn in Hs |- *. lia.
Qed.

(** The only cell in use cannot be deleted: [m_head] moves past the end of the array. *)
Lemma delete_only m d i K : table m d [i] K -> MarkDel (Z.of_nat i) m = Err out_of_range.
Proof.
  intros T. destruct (in_use m d [i] K i T ltac:(by left)) as (c & Hc & Hn & _). destruct (pow_bounds m d [i] K T) as [HP _].
  pose proof (tb_linked _ _ _ _ T) as [(c' & Hc' & En) _]. assert (c' = c) as -> by congruence. cbn [first_of] in En.
  pose proof (tb_length _ _ _ _ T) as Hlen. pose proof (tb_K _ _ _ _ T) as HK. pose proof (lookup_lt_Some _ _ _ Hc) as Hi.
  unfold MarkDel, data. rewrite (tb_data _ _ _ _ T). cbn [mbind result_bind]. rewrite (cell_nat d i c Hc). cbn [mbind result_bind].
  destruct (not_deleted K (next c) Hn ltac:(lia)) as [-> _]. rewrite (tb_head _ _ _ _ T). cbn [first_of]. unfold store. rewrite Nat2Z.id, length_insert.
  assert (Z.lor (next c) DELETED = 2 ^ 31 + 2 ^ K) as El.
  { rewrite En. unfold DELETED. change 0x80000000 with (1 * 2 ^ 31). rewrite Z.lor_comm, lor_disjoint_add by lia. lia. }
  destruct (length d) as [|n] eqn:Ed; [lia|]. cbn [advance_head]. rewrite (cell_nat _ i (set_next (Z.lor (next c) DELETED) c)) by (apply list_lookup_insert_eq; lia).
  cbn [mbind result_bind set_next next]. rewrite El.
  assert (flag_set (2 ^ 31 + 2 ^ K) DELETED = true) as ->.
  { unfold flag_set, DELETED. change 0x80000000 with (2 ^ 31). rewrite land_pow2 by lia.
    rewrite testbit_top by lia. by rewrite (proj2 (Z.leb_le _ _)) by lia. }
  assert (Z.lxor (2 ^ 31 + 2 ^ K) DELETED = 2 ^ K) as ->.
  { rewrite <- El, En. unfold DELETED. change 0x80000000 with (2 ^ 31). apply Z.bits_inj'. intros b Hb.
    rewrite Z.lxor_spec, Z.lor_spec, !Z.pow2_bits_eqb by lia.
    destruct (Z.eqb_spec K b), (Z.eqb_spec 31 b); subst; done || lia. }
  assert (forall fuel (d' : cells), length d' = length d -> advance_head fuel d' (2 ^ K) = Err out_of_range) as Hout.
  { intros fuel d' L. assert (cell d' (2 ^ K) = Err out_of_range) as E.
    { unfold cell. rewrite lookup_ge_None_2; [done|]. lia. }
    destruct fuel; cbn [advance_head]; by rewrite E. }
  rewrite Hout; [done|]. by rewrite length_insert.
Qed.
End facts.

(** ** Examples *)

Definition sample_key (a b : Z) : list Z := [a; 0; 0; 0; b] ++ replicate 27 0.

(** Insert two keys, mark the first deleted, insert it again, clear the table: it is still found. *)
Definition stale_after_clear : result fault (option Z) :=
  let m := Set_ 0 8 (new 0) in
  '(p1, m) ← Insert false 0 1 (fun _ => 0) (sample_key 1 0) 10 m;
  '(_, m) ← Insert false 0 1 (fun _ => 0) (sample_key 2 0) 20 m;
  m ← MarkDel p1 m;
  '(_, m) ← Insert false 0 1 (fun _ => 0) (sample_key 1 0) 30 m;
  m ← clear m;
  search_value false (sample_key 1 0) m.

(** ** Main results *)

(** C35: the hash table is a map.  From a new table of any size up to 2^28, with any random seeds, a run of insertions,
    searches and clearings, of fewer than 3 * 2^26 steps, ends, stays within the array, and
    answers every search as a finite map does, through all moves to larger tables: probing
    visits every cell since steps are odd and sizes powers of two, the load stays below three
    quarters, and no key is stored twice. *)
Theorem hashmap_refines_map {V : Type} (be : bool) (dflt : V) (seed sz : Z) (ops : list (@op V)) :
  0 < sz <= 2 ^ 28 -> Forall key_ok ops -> Z.of_nat (length ops) <= 3 * 2 ^ 26 ->
  run be dflt ops (Set_ dflt sz (new seed)) = Ok (run_map ops ∅).
Proof.
  intros Hs Hk Hn. destruct (empty_table be dflt seed sz Hs) as (K & T & _). apply run_spec; [|done|by rewrite map_size_empty].
  eexists _, [], K. by split.
Qed.

Lemma hashmap_refines_map_witness :
  run false 0 (map (fun n => insert_ (fun _ => n) (sample_key n 1) n) (seqZ 0 9) ++ [search (sample_key 7 1); search (sample_key 9 1); clear_; search (sample_key 7 1)])
    (Set_ 0 8 (new 5)) = Ok [Some 7; None; None].
Proof.
  rewrite (hashmap_refines_map false 0 5 8); [vm_compute; reflexivity|lia| |vm_compute; discriminate].
  apply Forall_app. split; [|repeat constructor; by_decide].
  apply Forall_map, Forall_forall. intros n Hn%elem_of_seqZ. split; [reflexivity|].
  unfold sample_key. apply Forall_app. split; [|by apply Forall_replicate]. repeat (constructor; [unfold is_u; lia|]). constructor.
Defined.

(** Deletion is not safe: marking the only entry of a table deleted reads beyond the array. *)
Theorem MarkDel_only_entry_faults {V : Type} (be : bool) (dflt : V) (m : t V) (d : list (Data V)) (i : nat) (K : Z) :
  table be dflt m d [i] K -> MarkDel (Z.of_nat i) m = Err out_of_range.
Proof. apply delete_only. Qed.

(** An entry that was deleted and inserted again survives [clear]. *)
Theorem deleted_entry_survives_clear : stale_after_clear = Ok (Some 30).
Proof. vm_compute. reflexivity. Qed.
End Facts.
