(* ===== verification/Kernel.v ===== *)
(** * Kernel: proof of stake

    Models the second half of [src/src/kernel.cpp]: the choice of the modifier for a stake
    ([GetKernelStakeModifierV05], [GetKernelStakeModifierV03] with its cache,
    [GetKernelStakeModifier]), [CheckStakeKernelHash], [CheckProofOfStake],
    [GetStakeModifierChecksum] and [CheckStakeModifierCheckpoints], and
    [CScriptCheck] and [ppcoinContextualBlockChecks] of [src/src/validation.cpp], which compose them.

    What is read from disk (the index of transactions, the block files), the memory pool and
    ECDSA are parameters.  Logging is left out; so is the cache of signatures, which
    changes no result. *)
From Stdlib Require Import String.
From S2P Require Import Prelude ArithUint256 Endian Uint256 Serialize ConsensusParams Amount Transaction Chain Script Standard.
From S2P Require Import Coins Interpreter SigHash VerifyScript Block TxCheck BlockIndex StakeModifier HashMap.

Import Header.

(** What can go wrong. *)
Inductive kernel_fault : Set :=
| memory (e : fault)               (** a null pointer, an index out of range, an assertion *)
| length_error                     (** [vector::reserve] with a negative size *)
| script_failure (e : failure)     (** an exception or undefined behaviour of the script code *)
| script_number (e : scriptnum_error).

Definition mem {A} (r : result fault A) : result kernel_fault A :=
  match r with Ok a => Ok a | Err e => Err (memory e) end.

(** A pointer that the code follows. *)
Definition not_null (p : option N) : result kernel_fault N :=
  match p with Some p => Ok p | None => Err (memory null_deref) end.

(** ** The modifier of a stake *)

Record StakeMod : Set := mk_StakeMod {
  sm_modifier : Z;
  sm_time : Z;
  sm_height : Z;
}.

(** The variables of [GetKernelStakeModifierV03] that persist; [None] is [initCache == false]. *)
Record KernelCache : Type := mk_cache {
  StakeModCache : option (uint256HashMap.t StakeMod);
  nClrHeight : Z;
}.

Definition initial_cache : KernelCache := mk_cache None 0.

Section kernel.
Context (be : bool) (Hash : list Z -> list Z) (params : Params.t) (genesis_nTime : Z).
Context (h : heap) (mapBlockIndex : gmap (list Z) N) (chainActive : CChain.t).

(** The loop of [GetKernelStakeModifierV05]; [None] when it reaches the genesis block. *)
Fixpoint modifier_walk (fuel : nat) (nInterval nTimeTx : Z) (pindex : N) (height time : Z) : result fault (option StakeMod) :=
  b ← deref h pindex;
  if i64 (time + Params.nStakeMinAge params - nInterval) >? nTimeTx then
    match CBlockIndex.pprev b with
    | None => mret None
    | Some q =>
        match fuel with
        | O => Err out_of_fuel
        | S fuel' =>
            bq ← deref h q;
            if CBlockIndex.GeneratedStakeModifier bq
            then modifier_walk fuel' nInterval nTimeTx q (CBlockIndex.nHeight bq) (CBlockIndex.GetBlockTime bq)
            else modifier_walk fuel' nInterval nTimeTx q height time
        end
    end
  else mret (Some (mk_StakeMod (CBlockIndex.nStakeModifier b) time height)).

Definition GetKernelStakeModifierV05 (pindexPrev : N) (nTimeTx : Z) : result fault (option StakeMod) :=
  b ← deref h pindexPrev;
  nInterval ← GetStakeModifierSelectionInterval params;
  let time := CBlockIndex.GetBlockTime b in
  if i64 (time + Params.nStakeMinAge params - nInterval) <=? nTimeTx then mret None
  else modifier_walk (Z.to_nat (CBlockIndex.nHeight b)) nInterval nTimeTx pindexPrev (CBlockIndex.nHeight b) time.

(** ** The modifier of a stake before version 0.5 *)

(** [for (int i=1; i<=nDepth && !chainActive.Contains(it); i++)], [n] rounds being left. *)
Fixpoint tmp_chain (n : nat) (it : option N) : result fault (list N) :=
  match n with
  | O => mret []
  | S n' =>
      match it with
      | None => Err null_deref
      | Some p =>
          c ← CChain.Contains h chainActive p;
          if (c : bool) then mret []
          else b ← deref h p; l ← tmp_chain n' (CBlockIndex.pprev b); mret (p :: l)
      end
  end.

(** The next block of the walk and the new [n]; [None] is [chainActive.Next] at the tip. *)
Definition next_block (tmpChain : list N) (n : nat) (pindex : N) : result fault (option N * nat) :=
  b ← deref h pindex;
  switch ← (match tmpChain with
            | [] => mret false
            | t :: _ => bt ← deref h t; mret (CBlockIndex.nHeight b >=? i32 (CBlockIndex.nHeight bt - 1))
            end);
  if (switch : bool) then
    match tmpChain !! n with
    | Some p => mret (Some p, S n)
    | None => Err Chain.out_of_range
    end
  else p ← CChain.Next h chainActive pindex; mret (p, n).

Fixpoint forward_walk (fuel : nat) (tmpChain : list N) (limit : Z) (n : nat) (pindex : N) (height time : Z)
    : result fault (option StakeMod) :=
  if time <? limit then
    match fuel with
    | O => Err out_of_fuel
    | S fuel' =>
        '(next, n) ← next_block tmpChain n pindex;
        if (length tmpChain <? n)%nat then mret None
        else match next with
             | None => mret None
             | Some p =>
                 b ← deref h p;
                 if CBlockIndex.GeneratedStakeModifier b
                 then forward_walk fuel' tmpChain limit n p (CBlockIndex.nHeight b) (CBlockIndex.GetBlockTime b)
                 else forward_walk fuel' tmpChain limit n p height time
             end
    end
  else b ← deref h pindex; mret (Some (mk_StakeMod (CBlockIndex.nStakeModifier b) time height)).

(** The function without its cache. *)
Definition modifier_v03 (pindexPrev : N) (hashBlockFrom : list Z) : result kernel_fault (option StakeMod) :=
  match mapBlockIndex !! hashBlockFrom with
  | None => mret None
  | Some pindexFrom =>
      from ← mem (deref h pindexFrom);
      nInterval ← mem (GetStakeModifierSelectionInterval params);
      prev ← mem (deref h pindexPrev);
      let nDepth := i32 (CBlockIndex.nHeight prev - (CBlockIndex.nHeight from - 1)) in
      if nDepth <? 0 then Err length_error
      else
        tmp ← mem (tmp_chain (Z.to_nat nDepth) (Some pindexPrev));
        let tmpChain := reverse tmp in
        mem (forward_walk (S (length chainActive + length tmpChain)) tmpChain
               (i64 (CBlockIndex.GetBlockTime from + nInterval)) 0 pindexFrom (CBlockIndex.nHeight from) (CBlockIndex.GetBlockTime from))
  end.

(** [cache_size] is what the table is created with, [seed] and [rnd] its random seeds. *)
Context (cache_size seed : Z) (rnd : nat -> Z).

Definition null_StakeMod : StakeMod := mk_StakeMod 0 0 0.

Definition the_cache (k : KernelCache) : uint256HashMap.t StakeMod :=
  match StakeModCache k with
  | Some m => m
  | None => uint256HashMap.Set_ null_StakeMod cache_size (uint256HashMap.new seed)
  end.

Definition GetKernelStakeModifierV03 (pindexPrev : N) (hashBlockFrom : list Z) (k : KernelCache)
    : result kernel_fault (option StakeMod * KernelCache) :=
  let m := the_cache k in
  prev ← mem (deref h pindexPrev);
  if negb (nClrHeight k =? CBlockIndex.nHeight prev) then
    m ← mem (uint256HashMap.clear m);
    r ← modifier_v03 pindexPrev hashBlockFrom;
    mret (r, mk_cache (Some m) (CBlockIndex.nHeight prev))
  else
    cached ← mem (Facts.search_value be hashBlockFrom m);
    match cached with
    | Some sm => mret (Some sm, mk_cache (Some m) (nClrHeight k))
    | None =>
        r ← modifier_v03 pindexPrev hashBlockFrom;
        match r with
        | None => mret (None, mk_cache (Some m) (nClrHeight k))
        | Some sm =>
            '(_, m) ← mem (uint256HashMap.Insert be null_StakeMod 1 rnd hashBlockFrom sm m);
            mret (Some sm, mk_cache (Some m) (nClrHeight k))
        end
    end.

Definition protocol_v05 (nTimeTx : Z) : bool := IsProtocolV05 nTimeTx genesis_nTime (Params.nStakeMinAge params).

Definition GetKernelStakeModifier (prev : option N) (hashBlockFrom : list Z) (nTimeTx : Z) (k : KernelCache)
    : result kernel_fault (option StakeMod * KernelCache) :=
  pindexPrev ← not_null prev;
  if protocol_v05 nTimeTx then r ← mem (GetKernelStakeModifierV05 pindexPrev nTimeTx); mret (r, k)
  else GetKernelStakeModifierV03 pindexPrev hashBlockFrom k.

(** ** The kernel hash *)

Definition lift_uint {A} (r : result uint_error A) : result kernel_fault A :=
  match r with Ok a => Ok a | Err _ => Err (memory uncaught_uint_error) end.

(** [arith_uint256(nValueIn) * nTimeWeight / COIN / (24 * 60 * 60)]; the product is the one
    with an [uint32_t]. *)
Definition coin_day_weight (nValueIn nTimeWeight : Z) : result kernel_fault (list Z) :=
  x ← lift_uint (op_div_assign (op_mul_assign_u32 (of_u64 (u64 nValueIn)) (u32 nTimeWeight)) (of_u64 COIN));
  lift_uint (op_div_assign x (of_u64 (24 * 60 * 60))).

(** The bytes that are hashed; [sm] is the modifier, from version 0.3 on. *)
Definition kernel_bytes (nBits : Z) (sm : option StakeMod) (nTimeBlockFrom nTxPrevOffset nTimeTxPrev n nTimeTx : Z) (prevHash : option (list Z))
    : list Z :=
  (match sm with
   | Some sm => bytes_of (ser_uint64 be) (sm_modifier sm)
   | None => bytes_of (ser_uint32 be) nBits
   end)
  ++ bytes_of (ser_uint32 be) nTimeBlockFrom ++ bytes_of (ser_uint32 be) nTxPrevOffset ++ bytes_of (ser_uint32 be) nTimeTxPrev
  ++ bytes_of (ser_uint32 be) n ++ bytes_of (ser_uint32 be) nTimeTx ++ default [] prevHash.

(** Whether there is a modifier, and the one that is hashed: none before version 0.3. *)
Definition kernel_modifier (pindexPrev : option N) (hashBlockFrom : list Z) (nTimeTx : Z) (k : KernelCache)
    : result kernel_fault (bool * option StakeMod * KernelCache) :=
  if IsProtocolV03 nTimeTx then
    '(r, k) ← GetKernelStakeModifier pindexPrev hashBlockFrom nTimeTx k;
    mret (bool_decide (is_Some r), r, k)
  else mret (true, None, k).

(** The hash of the previous block, which was part of the kernel from block 219831 until version 0.5. *)
Definition kernel_prevHash (pindexPrev : option N) (nTimeTx : Z) : result kernel_fault (option (list Z)) :=
  if (nTimeTx >=? 1489782503) && negb (protocol_v05 nTimeTx) then
    p ← not_null pindexPrev; prev ← mem (deref h p); x ← mem (StakeModifier.GetBlockHash prev); mret (Some x)
  else mret None.

(** The weight of the stake in time. *)
Definition time_weight (nTimeTxPrev nTimeTx : Z) : Z :=
  i64 (Z.min (i64 (nTimeTx - nTimeTxPrev)) (Params.nStakeMaxAge params)
       - (if IsProtocolV03 nTimeTx then Params.nStakeMinAge params else 0)).

(** The result and [hashProofOfStake], [None] when it is not set. *)
Definition CheckStakeKernelHash (nBits : Z) (pindexPrev : option N) (blockFrom : CBlockHeader) (nTxPrevOffset : Z) (txPrev : CTransaction)
    (prevout : COutPoint.t) (nTimeTx : Z) (k : KernelCache) : result kernel_fault (bool * option (list Z) * KernelCache) :=
  if nTimeTx <? Transaction.nTime txPrev then mret (false, None, k)
  else if i64 (Transaction.nTime txPrev + Params.nStakeMinAge params) >? nTimeTx then mret (false, None, k)
  else
    let nTimeBlockFrom := u32 (Header.GetBlockTime blockFrom) in
    let '(bnTargetPerCoinDay, _, _) := SetCompact nBits in
    o ← (match vout txPrev !! Z.to_nat (COutPoint.n prevout) with Some o => Ok o | None => Err (memory Chain.out_of_range) end);
    bnCoinDayWeight ← coin_day_weight (CTxOut.nValue o) (time_weight (Transaction.nTime txPrev) nTimeTx);
    '(ok, sm, k) ← kernel_modifier pindexPrev (block_hash be Hash blockFrom) nTimeTx k;
    if negb ok then mret (false, None, k)
    else
      prevHash ← kernel_prevHash pindexPrev nTimeTx;
      let hashProofOfStake :=
        Hash (kernel_bytes nBits sm nTimeBlockFrom nTxPrevOffset (Transaction.nTime txPrev) (COutPoint.n prevout) nTimeTx prevHash) in
      mret (negb (CompareTo (UintToArith256 be hashProofOfStake) (op_mul_assign bnCoinDayWeight bnTargetPerCoinDay) >? 0),
            Some hashProofOfStake, k).
End kernel.

(** ** The signature of the stake *)

Section scripts.
Context (be : bool) (Hash : list Z -> list Z) (CheckLowS : list Z -> bool) (Hs : Hashers) (Verify : list Z -> list Z -> list Z -> bool).

(** [CScriptCheck(coins, tx, nIn, flags, ...)()]: the output that is spent must be in the range of [coins.vout]. *)
Definition CScriptCheck (coins : CCoins.t) (tx : CTransaction) (nIn : nat) (flags : Z) : result kernel_fault bool :=
  i ← (match vin tx !! nIn with Some i => Ok i | None => Err (memory Chain.out_of_range) end);
  o ← (match CCoins.vout coins !! Z.to_nat (COutPoint.n (CTxIn.prevout i)) with Some o => Ok o | None => Err (memory Chain.out_of_range) end);
  scriptPubKey ← (if negb (Uint256.op_eq (COutPoint.hash (CTxIn.prevout i)) randpaytx) then mret (CTxOut.scriptPubKey o)
                  else if negb (COutPoint.n (CTxIn.prevout i) =? 0) then Err (memory assertion_failed)
                  else
                    o0 ← (match vout tx !! 0%nat with Some o => Ok o | None => Err (memory Chain.out_of_range) end);
                    match GenerateScriptForRandPay be (h_hash160 Hs) (CTxOut.scriptPubKey o0) with
                    | Ok s => Ok s
                    | Err e => Err (script_number e)
                    end);
  let checker := transaction_checker be Hash Verify
    {| tsc_txTo := tx; tsc_nIn := Z.of_nat nIn; tsc_amount := CTxOut.nValue o; tsc_txdata := Some (Precompute be Hash tx) |} in
  match VerifyScript be CheckLowS Hs checker (CTxIn.scriptSig i) scriptPubKey (Transaction.nVersion tx) (CTxIn.scriptWitness i) flags with
  | Ok _ => Ok true
  | Err (Return_false _) => Ok false
  | Err e => Err (script_failure e)
  end.
End scripts.

(** ** The proof of stake of a block *)

(** Entries: the fields of a proof of stake, and the checksum. *)
Module StakeEntry.
Import CBlockIndex.

Definition set_proof (prevout : COutPoint.t) (time : Z) (hash : list Z) (b : t) : t :=
  {| phashBlock := phashBlock b; pprev := pprev b; pskip := pskip b; nHeight := nHeight b;
     nFile := nFile b; nDataPos := nDataPos b; nUndoPos := nUndoPos b; nChainTrust := nChainTrust b; nTx := nTx b;
     nChainTx := nChainTx b; nStatus := nStatus b; nVersion := nVersion b;
     hashMerkleRoot := hashMerkleRoot b; nTime := nTime b; nBits := nBits b; nNonce := nNonce b;
     nVersionMTP := nVersionMTP b; mtpHashValue := mtpHashValue b; nSequenceId := nSequenceId b;
     nTimeMax := nTimeMax b; nMint := nMint b; nMoneySupply := nMoneySupply b; nFlags := nFlags b;
     nStakeModifier := nStakeModifier b; nStakeModifierChecksum := nStakeModifierChecksum b;
     prevoutStake := prevout; nStakeTime := time; hashProofOfStake := hash |}.

Definition set_checksum (checksum : Z) (b : t) : t :=
  {| phashBlock := phashBlock b; pprev := pprev b; pskip := pskip b; nHeight := nHeight b;
     nFile := nFile b; nDataPos := nDataPos b; nUndoPos := nUndoPos b; nChainTrust := nChainTrust b; nTx := nTx b;
     nChainTx := nChainTx b; nStatus := nStatus b; nVersion := nVersion b;
     hashMerkleRoot := hashMerkleRoot b; nTime := nTime b; nBits := nBits b; nNonce := nNonce b;
     nVersionMTP := nVersionMTP b; mtpHashValue := mtpHashValue b; nSequenceId := nSequenceId b;
     nTimeMax := nTimeMax b; nMint := nMint b; nMoneySupply := nMoneySupply b; nFlags := nFlags b;
     nStakeModifier := nStakeModifier b; nStakeModifierChecksum := checksum;
     prevoutStake := prevoutStake b; nStakeTime := nStakeTime b; hashProofOfStake := hashProofOfStake b |}.

(** [pindex->hashProofOfStake = hash] *)
Definition set_hashProofOfStake (hash : list Z) (b : t) : t := set_proof (prevoutStake b) (nStakeTime b) hash b.
End StakeEntry.

(** What the checks read and change besides the block index. *)
Record kernel_state : Type := mk_kernel {
  ks_index : state;
  ks_cache : KernelCache;
  ks_validation : CValidationState.t;
}.

Definition set_index (s : state) (ks : kernel_state) : kernel_state := mk_kernel s (ks_cache ks) (ks_validation ks).
Definition set_cache (k : KernelCache) (ks : kernel_state) : kernel_state := mk_kernel (ks_index ks) k (ks_validation ks).
(** [state.DoS(level, false, REJECT_INVALID, reason, false)] *)
Definition dos (level : Z) (reason : string) (ks : kernel_state) : kernel_state :=
  mk_kernel (ks_index ks) (ks_cache ks) (CValidationState.DoS level REJECT_INVALID reason false (ks_validation ks)).

(** Hard checkpoints of stake modifiers. *)
Definition mapStakeModifierCheckpoints : gmap Z Z := {[ 0 := 0xfd11f4e7 ]}.

Definition CheckStakeModifierCheckpoints (fMain : bool) (nHeight nStakeModifierChecksum : Z) : bool :=
  if negb fMain then true
  else match mapStakeModifierCheckpoints !! nHeight with
       | Some c => nStakeModifierChecksum =? c
       | None => true
       end.

Section stake.
Context (be : bool) (Hash : list Z -> list Z) (CheckLowS : list Z -> bool) (Hs : Hashers) (Verify : list Z -> list Z -> list Z -> bool).
Context (params : Params.t) (genesis_nTime : Z) (fMain : bool) (vEntropyBits : list Z) (vEntropyBits_number_of_blocks : Z).
(** The transaction index: whether there is one, a transaction of the memory pool or the index, the
    position of a transaction, and the header and the transaction read from there. *)
Context (fTxIndex : bool) (GetTransaction : list Z -> option CTransaction) (ReadTxIndex : list Z -> option (CDiskBlockPos.t * Z))
  (read_file : CDiskBlockPos.t * Z -> option (CBlockHeader * CTransaction)).
Context (cache_size seed : Z) (rnd : nat -> Z).

(** The result and the hash, [None] when it is not set. *)
Definition CheckProofOfStake (pindexPrev : option N) (tx : CTransaction) (nBits : Z) (ks : kernel_state)
    : result kernel_fault (bool * option (list Z) * kernel_state) :=
  if negb (IsCoinStake be tx) then mret (false, None, ks)
  else
    txin ← (match vin tx !! 0%nat with Some i => Ok i | None => Err (memory Chain.out_of_range) end);
    if negb fTxIndex then mret (false, None, ks)
    else
      let hash := COutPoint.hash (CTxIn.prevout txin) in
      match GetTransaction hash with
      | None => mret (false, None, dos 1 "prev-tx-not-found" ks)
      | Some txTmp =>
          ok ← CScriptCheck be Hash CheckLowS Hs Verify (CCoins.FromTx be txTmp 0) tx 0 SCRIPT_VERIFY_P2SH;
          if negb ok then mret (false, None, dos 100 "invalid-pos-script" ks)
          else
            match ReadTxIndex hash with
            | None => mret (false, None, ks)
            | Some postx =>
                match read_file postx with
                | None => mret (false, None, ks)
                | Some (header, txPrev) =>
                    if negb (Uint256.op_eq (GetHash Hash be txPrev) hash) then mret (false, None, ks)
                    else
                      '(ok, proof, k) ← CheckStakeKernelHash be Hash params genesis_nTime (entries (ks_index ks)) (mapBlockIndex (ks_index ks))
                           (chainActive (ks_index ks)) cache_size seed rnd nBits pindexPrev header
                           (u32 (snd postx + Header.NORMAL_SERIALIZE_SIZE)) txPrev (CTxIn.prevout txin) (Transaction.nTime tx) (ks_cache ks);
                      let ks := set_cache k ks in
                      if negb ok then mret (false, proof, dos 1 "invalid-stake-hash" ks) else mret (true, proof, ks)
                end
            end
      end.

(** Of the entry [b]. *)
Definition GetStakeModifierChecksum (h : heap) (b : CBlockIndex.t) : result fault Z :=
  prev ← (match CBlockIndex.pprev b with
          | Some q => bq ← deref h q; mret (bytes_of (ser_uint32 be) (CBlockIndex.nStakeModifierChecksum bq))
          | None => x ← StakeModifier.GetBlockHash b;
                    if Uint256.op_eq x (Params.hashGenesisBlock params) then mret [] else Err assertion_failed
          end);
  let ss := prev ++ bytes_of (ser_uint32 be) (CBlockIndex.nFlags b) ++ CBlockIndex.hashProofOfStake b
            ++ bytes_of (ser_uint64 be) (CBlockIndex.nStakeModifier b) in
  mret (u32 (GetLow64 (op_shr_assign (UintToArith256 be (Hash ss)) (256 - 32)))).

(** The entry after the checks. *)
Definition stake_entry (block : CBlock) (proof : list Z) (nEntropyBit nStakeModifier : Z) (fGenerated : bool) (checksum : Z) (b : CBlockIndex.t)
    : CBlockIndex.t :=
  let b := match vtx block with
           | _ :: t :: _ =>
               match vin t with
               | i :: _ => if Block.IsProofOfStake be block
                           then StakeEntry.set_proof (CTxIn.prevout i) (Transaction.nTime t) proof b else b
               | [] => b
               end
           | _ => b
           end in
  StakeEntry.set_checksum checksum
    (CBlockIndex.SetStakeModifier nStakeModifier fGenerated (snd (CBlockIndex.SetStakeEntropyBit nEntropyBit b))).

Definition ppcoinContextualBlockChecks (block : CBlock) (pindex : N) (fJustCheck : bool) (ks : kernel_state)
    : result kernel_fault (bool * kernel_state) :=
  b ← mem (deref (entries (ks_index ks)) pindex);
  '(ok, proof, ks) ← (if Block.IsProofOfStake be block then
                        t ← (match vtx block !! 1%nat with Some t => Ok t | None => Err (memory Chain.out_of_range) end);
                        CheckProofOfStake (CBlockIndex.pprev b) t (Header.nBits (header block)) ks
                      else mret (true, None, ks));
  if negb ok then mret (false, ks)
  else
    let hashProofOfStake := default (Uint256.SetNull 32) proof in
    let nEntropyBit := Block.GetStakeEntropyBit be Hash vEntropyBits vEntropyBits_number_of_blocks block (CBlockIndex.nHeight b) in
    let h := entries (ks_index ks) in
    r ← mem (ComputeNextStakeModifier be Hash params h (mapBlockIndex (ks_index ks)) pindex);
    match r with
    | None => mret (false, ks)
    | Some (nStakeModifier, fGeneratedStakeModifier) =>
        let '(ok, b1) := CBlockIndex.SetStakeEntropyBit nEntropyBit b in
        if negb ok then mret (false, ks)
        else
          let b1 := StakeEntry.set_hashProofOfStake hashProofOfStake
                      (CBlockIndex.SetStakeModifier nStakeModifier fGeneratedStakeModifier b1) in
          checksum ← mem (GetStakeModifierChecksum h b1);
          if negb (CheckStakeModifierCheckpoints fMain (CBlockIndex.nHeight b) checksum) then mret (false, ks)
          else if fJustCheck then mret (true, ks)
          else
            let b := stake_entry block hashProofOfStake nEntropyBit nStakeModifier fGeneratedStakeModifier checksum b in
            let s := set_entries (<[pindex := b]> h) (ks_index ks) in
            mret (true, set_index (set_setDirtyBlockIndex ({[pindex]} ∪ setDirtyBlockIndex s) s) ks)
    end.
End stake.

(** ** The modifier of a stake is that of an ancestor *)

Section v05.
Context (params : Params.t) (h : heap) (mapBlockIndex : gmap (list Z) N) (Hage : is_u 32 (Params.nStakeMinAge params))
  (Hix : stake_index h mapBlockIndex).

(** The selection interval. *)
Context (I : Z) (HI : 0 <= I <= 2 ^ 40).

(** A block that generated a modifier early enough for a stake at [nTimeTx]. *)
Definition early (nTimeTx : Z) (q : N) : bool :=
  generated h q && (time_of h q + Params.nStakeMinAge params - I <=? nTimeTx).

(** The nearest one below [p], unless [p] is itself too old. *)
Definition kernel_block (nTimeTx : Z) (p : N) : option N :=
  if time_of h p + Params.nStakeMinAge params - I <=? nTimeTx then None
  else head (filter (fun q => early nTimeTx q = true) (tail (ancestors h p))).

Definition stake_mod (q : N) : StakeMod := mk_StakeMod (modifier_at h q) (time_of h q) (height_of h q).

Lemma time_range p b : h !! p = Some b -> time_of h p = CBlockIndex.GetBlockTime b /\ is_u 32 (time_of h p).
Proof.
  intros Hp. pose proof (stake_times h _ Hix p b Hp). unfold time_of. by rewrite Hp.
Qed.

Lemma limit_ok t : is_u 32 t -> i64 (t + Params.nStakeMinAge params - I) = t + Params.nStakeMinAge params - I.
Proof.
  intros Ht. unfold is_u in *. apply swrap_small; [lia|]. unfold is_s. lia.
Qed.

Lemma modifier_walk_spec nTimeTx fuel p b height time : h !! p = Some b -> CBlockIndex.nHeight b <= Z.of_nat fuel -> is_u 32 time ->
  nTimeTx < time + Params.nStakeMinAge params - I ->
  modifier_walk params h fuel (I) nTimeTx p height time
  = Ok (stake_mod <$> head (filter (fun q => early nTimeTx q = true) (tail (ancestors h p)))).
Proof.
  pose proof (stake_tree h _ Hix) as Hok. intros Hp. revert p b Hp fuel height time. refine (chain_ind h Hok _ _).
  intros p b Hp IH fuel height time Hf Ht Hlim. rewrite (ancestors_step h Hok p b) by done. cbn [tail].
  destruct (Hok p b Hp) as [Hh Hprev _].
  destruct fuel as [|fuel]; cbn [modifier_walk]; unfold deref; rewrite Hp; cbn [mbind result_bind].
  all: rewrite limit_ok by done; rewrite (proj2 (Z.gtb_lt _ _)) by lia.
  all: destruct (CBlockIndex.pprev b) as [q|] eqn:Eq; [|done].
  all: destruct Hprev as (bq & Hq & E); destruct (Hok q bq Hq) as [Hhq _ _].
  { lia. }
  rewrite Hq. cbn [mbind result_bind]. destruct (time_range q bq Hq) as [Etq Htq].
  rewrite (ancestors_step h Hok q bq) by done.
  assert (forall t' h', is_u 32 t' -> nTimeTx < t' + Params.nStakeMinAge params - I ->
    modifier_walk params h fuel (I) nTimeTx q h' t' =
    Ok (stake_mod <$> head (filter (fun q => early nTimeTx q = true) (match CBlockIndex.pprev bq with Some q => ancestors h q | None => [] end)))) as Hnext.
  { intros t' h' H1 H2. rewrite (IH q bq eq_refl Hq E) by (done || lia). by rewrite (ancestors_step h Hok q bq). }
  assert (generated h q = CBlockIndex.GeneratedStakeModifier bq) as Eg by (unfold generated; by rewrite Hq).
  destruct (CBlockIndex.GeneratedStakeModifier bq).
  - destruct (Z.leb_spec (time_of h q + Params.nStakeMinAge params - I) nTimeTx) as [Hle|Hgt].
    + rewrite filter_cons_True by (unfold early; rewrite Eg; by rewrite (proj2 (Z.leb_le _ _))). cbn [head fmap option_fmap option_map].
      destruct fuel; cbn [modifier_walk]; unfold deref; rewrite Hq; cbn [mbind result_bind]; rewrite <- Etq, limit_ok by done;
        rewrite Z.gtb_ltb, (proj2 (Z.ltb_ge _ _)) by lia; unfold mret, result_ret, stake_mod, modifier_at, height_of; by rewrite Hq.
    + rewrite filter_cons_False by (unfold early; rewrite Eg, (proj2 (Z.leb_gt _ _)) by lia; done).
      apply Hnext; [by rewrite <- Etq|rewrite <- Etq; lia].
  - rewrite filter_cons_False by (unfold early; by rewrite Eg). by apply Hnext.
Qed.

(** It is below [p] in the chain. *)
Lemma kernel_block_ancestor p b nTimeTx q : h !! p = Some b -> kernel_block nTimeTx p = Some q ->
  q ∈ ancestors h p /\ q <> p /\ generated h q = true.
Proof.
  intros Hp. unfold kernel_block. destruct (_ <=? _); [done|]. intros Hq.
  assert (q ∈ filter (fun q => early nTimeTx q = true) (tail (ancestors h p))) as Hin.
  { destruct (filter _ _) as [|x l]; [done|]. injection Hq as ->. by left. }
  apply list_elem_of_filter in Hin as [He Hin]. pose proof (stake_tree h _ Hix) as Hok. rewrite (ancestors_step h Hok p b) in * by done. cbn [tail] in Hin.
  split_and!; [by right| |by apply andb_true_iff in He as [? _]]. intros ->.
  pose proof (ancestors_NoDup h Hok p b Hp) as D. rewrite (ancestors_step h Hok p b) in D by done. by apply NoDup_cons in D as [? _].
Qed.
End v05.

(** The selection interval of the network. *)
Definition selection_interval (params : Params.t) : Z := sections params 64 0.

Lemma selection_interval_bounds params : 0 < Params.nStakeModifierInterval params < 2 ^ 32 -> 0 <= selection_interval params <= 2 ^ 40.
Proof. intros H. pose proof (sections_bounds params H 64 0 ltac:(lia) ltac:(lia)). unfold selection_interval. lia. Qed.

Lemma GetKernelStakeModifierV05_interval params h mapBlockIndex p b nTimeTx I : GetStakeModifierSelectionInterval params = Ok I ->
  0 <= I <= 2 ^ 40 -> is_u 32 (Params.nStakeMinAge params) -> stake_index h mapBlockIndex -> h !! p = Some b ->
  GetKernelStakeModifierV05 params h p nTimeTx = Ok (stake_mod h <$> kernel_block params h I nTimeTx p).
Proof.
  intros E HI Hage Hix Hp. unfold GetKernelStakeModifierV05, deref. rewrite Hp, E. cbn [mbind result_bind].
  destruct (time_range h mapBlockIndex Hix p b Hp) as [Et Ht]. rewrite <- Et, limit_ok by done. unfold kernel_block.
  destruct (Z.leb_spec (time_of h p + Params.nStakeMinAge params - I) nTimeTx); [done|].
  destruct (stake_tree h _ Hix p b Hp) as [Hh _ _]. apply (modifier_walk_spec params h mapBlockIndex Hage Hix I HI nTimeTx _ p b); [done|lia|done|lia].
Qed.

Lemma GetKernelStakeModifierV05_spec params h mapBlockIndex p b nTimeTx : 0 < Params.nStakeModifierInterval params < 2 ^ 32 ->
  is_u 32 (Params.nStakeMinAge params) -> stake_index h mapBlockIndex -> h !! p = Some b ->
  GetKernelStakeModifierV05 params h p nTimeTx = Ok (stake_mod h <$> kernel_block params h (selection_interval params) nTimeTx p).
Proof.
  intros Hparams. eapply GetKernelStakeModifierV05_interval; [by apply selection_interval_ok|by apply selection_interval_bounds].
Qed.

(** ** The kernel hash *)

Definition coin_age_weight (params : Params.t) (nValue age : Z) : Z :=
  nValue * (Z.min age (Params.nStakeMaxAge params) - Params.nStakeMinAge params) / COIN / (24 * 60 * 60).

Definition target_of (nBits : Z) : Z := val (SetCompact nBits).1.1.

Lemma div_ok a d : wf a -> 0 < d < 2 ^ 64 -> exists q, lift_uint (op_div_assign a (of_u64 d)) = Ok q /\ wf q /\ val q = val a / d.
Proof.
  intros Ha Hd. destruct (of_u64_spec d ltac:(unfold is_u; lia)) as [W V].
  destruct (op_div_assign_rem_spec a (of_u64 d) Ha W ltac:(lia)) as (q & r & E & Wq & _ & Vq & _).
  exists q. unfold op_div_assign. rewrite E. split; [done|]. split; [done|]. by rewrite Vq, V.
Qed.

Lemma coin_day_weight_spec nValue w : 0 <= nValue < 2 ^ 63 -> is_u 32 w ->
  exists x, coin_day_weight nValue w = Ok x /\ wf x /\ val x = nValue * w / COIN / (24 * 60 * 60).
Proof.
  intros Hv Hw. unfold coin_day_weight. rewrite !uwrap_small by (done || (unfold is_u; lia)).
  destruct (of_u64_spec nValue ltac:(unfold is_u; lia)) as [W V]. destruct (op_mul_assign_u32_spec (of_u64 nValue) w W Hw) as [W1 V1].
  rewrite V, Z.mod_small in V1 by (unfold is_u in Hw; nia).
  destruct (div_ok _ COIN W1 ltac:(unfold COIN; lia)) as (q & -> & Wq & Vq). cbn [mbind result_bind].
  destruct (div_ok q (24 * 60 * 60) Wq ltac:(lia)) as (r & -> & Wr & Vr). exists r. split; [done|]. split; [done|]. by rewrite Vr, Vq, V1.
Qed.

(** What the rules need of the parameters of the network. *)
Record stake_params (params : Params.t) (genesis_nTime : Z) : Prop := {
  sp_interval : 0 < Params.nStakeModifierInterval params < 2 ^ 32;
  sp_ages : 0 <= Params.nStakeMinAge params <= Params.nStakeMaxAge params;
  sp_max : Params.nStakeMaxAge params < 2 ^ 32;
  sp_genesis : 1363800000 <= genesis_nTime;
}.

Lemma ok_bind {E A B} (f : A -> result E B) a : mbind f (Ok a) = f a.
Proof. done. Qed.

Section hash.
Context (be : bool) (Hash : list Z -> list Z) (params : Params.t) (genesis_nTime : Z) (h : heap) (mapBlockIndex : gmap (list Z) N)
  (chainActive : CChain.t) (cache_size seed : Z) (rnd : nat -> Z).
Context (HH : forall x, blob_wf 32 (Hash x)) (Hparams : stake_params params genesis_nTime) (Hix : stake_index h mapBlockIndex).

(** The hash of the stake, the modifier being that of the block [q]. *)
Definition kernel_hash (q : N) (blockFrom : CBlockHeader) (nTxPrevOffset : Z) (txPrev : CTransaction) (n nTimeTx : Z) : list Z :=
  Hash (bytes_of (ser_uint64 be) (modifier_at h q) ++ bytes_of (ser_uint32 be) (u32 (Header.GetBlockTime blockFrom))
        ++ bytes_of (ser_uint32 be) nTxPrevOffset ++ bytes_of (ser_uint32 be) (Transaction.nTime txPrev)
        ++ bytes_of (ser_uint32 be) n ++ bytes_of (ser_uint32 be) nTimeTx).

(** The stake meets its target: its coins are old enough, there is a modifier, and the hash
    is at most the product of the weight and the target, modulo 2^256. *)
Definition meets_target (nBits : Z) (p : N) (blockFrom : CBlockHeader) (nTxPrevOffset : Z) (txPrev : CTransaction) (o : CTxOut.t) (n nTimeTx : Z)
    (proof : list Z) : Prop :=
  Transaction.nTime txPrev + Params.nStakeMinAge params <= nTimeTx /\
  exists q, kernel_block params h (selection_interval params) nTimeTx p = Some q /\
    proof = kernel_hash q blockFrom nTxPrevOffset txPrev n nTimeTx /\
    le_val proof <= coin_age_weight params (CTxOut.nValue o) (nTimeTx - Transaction.nTime txPrev) * target_of nBits mod 2 ^ 256.

Lemma SetCompact_wf nBits : is_u 32 nBits -> wf (SetCompact nBits).1.1.
Proof.
  intros Hb. pose proof (SetCompact_val nBits Hb) as H. destruct (compact_fields nBits) as [[sz sign] w].
  destruct H as (a & fn & fo & E & W & _). by rewrite E.
Qed.

Lemma above x y : wf x -> wf y -> (CompareTo x y >? 0) = (val y <? val x).
Proof.
  intros Hx Hy. rewrite CompareTo_spec by done.
  destruct (Z.compare_spec (val x) (val y)); symmetry; rewrite ?Z.ltb_lt, ?Z.ltb_ge; lia.
Qed.

Lemma GetKernelStakeModifier_v05 p b hashBlockFrom nTimeTx k : h !! p = Some b -> protocol_v05 params genesis_nTime nTimeTx = true ->
  GetKernelStakeModifier be params genesis_nTime h mapBlockIndex chainActive cache_size seed rnd (Some p) hashBlockFrom nTimeTx k
  = Ok (stake_mod h <$> kernel_block params h (selection_interval params) nTimeTx p, k).
Proof.
  intros Hp V5. destruct Hparams as [HI Ha Hm _]. unfold GetKernelStakeModifier. cbn [not_null mbind result_bind]. rewrite V5.
  by rewrite (GetKernelStakeModifierV05_spec params h mapBlockIndex p b nTimeTx) by (done || (unfold is_u; lia)).
Qed.

Lemma CheckStakeKernelHash_young nBits p blockFrom nTxPrevOffset txPrev prevout nTimeTx k :
  (nTimeTx <? Transaction.nTime txPrev) || (i64 (Transaction.nTime txPrev + Params.nStakeMinAge params) >? nTimeTx) = true ->
  CheckStakeKernelHash be Hash params genesis_nTime h mapBlockIndex chainActive cache_size seed rnd nBits p blockFrom
      nTxPrevOffset txPrev prevout nTimeTx k = Ok (false, None, k).
Proof. intros H. unfold CheckStakeKernelHash. destruct (_ <? _); [done|]. cbn [orb] in H. by rewrite H. Qed.

Lemma v05_v03 nTimeTx : protocol_v05 params genesis_nTime nTimeTx = true -> IsProtocolV03 nTimeTx = true.
Proof.
  destruct Hparams as [_ ? _ ?]. unfold protocol_v05, IsProtocolV05, IsProtocolV03. rewrite !Z.geb_le. lia.
Qed.

Lemma kernel_modifier_v05 p b hashBlockFrom nTimeTx k : h !! p = Some b -> protocol_v05 params genesis_nTime nTimeTx = true ->
  kernel_modifier be params genesis_nTime h mapBlockIndex chainActive cache_size seed rnd (Some p) hashBlockFrom nTimeTx k
  = Ok (bool_decide (is_Some (kernel_block params h (selection_interval params) nTimeTx p)),
        stake_mod h <$> kernel_block params h (selection_interval params) nTimeTx p, k).
Proof.
  intros Hp V5. unfold kernel_modifier. rewrite v05_v03 by done. rewrite (GetKernelStakeModifier_v05 p b) by done.
  generalize (kernel_block params h (selection_interval params) nTimeTx p). by intros [q|].
Qed.

(** The part after the times and the target are known to be right. *)
Lemma CheckStakeKernelHash_step nBits p blockFrom nTxPrevOffset txPrev prevout o nTimeTx k target fn fo w ok sm :
  (nTimeTx <? Transaction.nTime txPrev) = false -> (i64 (Transaction.nTime txPrev + Params.nStakeMinAge params) >? nTimeTx) = false ->
  SetCompact nBits = (target, fn, fo) -> vout txPrev !! Z.to_nat (COutPoint.n prevout) = Some o ->
  coin_day_weight (CTxOut.nValue o) (time_weight params (Transaction.nTime txPrev) nTimeTx) = Ok w ->
  kernel_modifier be params genesis_nTime h mapBlockIndex chainActive cache_size seed rnd (Some p) (block_hash be Hash blockFrom) nTimeTx k = Ok (ok, sm, k) ->
  kernel_prevHash params genesis_nTime h (Some p) nTimeTx = Ok None ->
  CheckStakeKernelHash be Hash params genesis_nTime h mapBlockIndex chainActive cache_size seed rnd nBits (Some p) blockFrom
      nTxPrevOffset txPrev prevout nTimeTx k =
  if negb ok then Ok (false, None, k)
  else
    let x := Hash (kernel_bytes be nBits sm (u32 (Header.GetBlockTime blockFrom)) nTxPrevOffset (Transaction.nTime txPrev) (COutPoint.n prevout) nTimeTx None) in
    Ok (negb (CompareTo (UintToArith256 be x) (op_mul_assign w target) >? 0), Some x, k).
Proof.
  intros H1 H2 H3 H4 H5 H6 H7. unfold CheckStakeKernelHash. rewrite H1, H2, H3, H4, ok_bind, H5, ok_bind, H6, ok_bind.
  destruct ok; [|reflexivity]. cbv beta iota delta [negb]. by rewrite H7, ok_bind.
Qed.

Lemma CheckStakeKernelHash_spec nBits p b blockFrom nTxPrevOffset txPrev prevout o nTimeTx k :
  h !! p = Some b -> is_u 32 nBits -> is_u 32 nTimeTx -> is_u 32 (Transaction.nTime txPrev) ->
  vout txPrev !! Z.to_nat (COutPoint.n prevout) = Some o -> 0 <= CTxOut.nValue o < 2 ^ 63 ->
  protocol_v05 params genesis_nTime nTimeTx = true ->
  exists ok proof, CheckStakeKernelHash be Hash params genesis_nTime h mapBlockIndex chainActive cache_size seed rnd nBits (Some p) blockFrom
      nTxPrevOffset txPrev prevout nTimeTx k = Ok (ok, proof, k) /\
    (ok = true <-> exists x, proof = Some x /\ meets_target nBits p blockFrom nTxPrevOffset txPrev o (COutPoint.n prevout) nTimeTx x).
Proof.
  intros Hp Hb Ht Htp Ho Hv V5. destruct Hparams as [HI Ha Hm Hg]. unfold is_u in Ht, Htp.
  destruct (decide (nTimeTx < Transaction.nTime txPrev + Params.nStakeMinAge params)) as [H2|H2].
  { exists false, None. split; [|split; [done|by intros (x & ? & _)]]. apply CheckStakeKernelHash_young.
    rewrite swrap_small by (unfold is_s; lia). destruct (Z.ltb_spec nTimeTx (Transaction.nTime txPrev)); [done|]. apply Z.gtb_lt. lia. }
  destruct (SetCompact nBits) as [[target fn] fo] eqn:Ec.
  assert (wf target /\ val target = target_of nBits) as [Wt Vt].
  { unfold target_of. pose proof (SetCompact_wf nBits Hb) as W. rewrite Ec in *. by split. }
  destruct (coin_day_weight_spec (CTxOut.nValue o) (Z.min (nTimeTx - Transaction.nTime txPrev) (Params.nStakeMaxAge params) - Params.nStakeMinAge params))
    as (w & Ew & Ww & Vw); [done|unfold is_u; lia|].
  assert (kernel_prevHash params genesis_nTime h (Some p) nTimeTx = Ok None) as Eh by (unfold kernel_prevHash; by rewrite V5, andb_false_r).
  rewrite (CheckStakeKernelHash_step nBits p blockFrom nTxPrevOffset txPrev prevout o nTimeTx k target fn fo w _ _
    ltac:(by apply Z.ltb_ge; lia) ltac:(rewrite swrap_small by (unfold is_s; lia); rewrite Z.gtb_ltb; by apply Z.ltb_ge; lia) Ec Ho
    ltac:(unfold time_weight; rewrite (v05_v03 nTimeTx V5), (swrap_small 64 (nTimeTx - _)) by (unfold is_s; lia);
          rewrite swrap_small by (unfold is_s; lia); exact Ew)
    (kernel_modifier_v05 p b (block_hash be Hash blockFrom) nTimeTx k Hp V5) Eh).
  destruct (kernel_block params h (selection_interval params) nTimeTx p) as [q|] eqn:Eq; cbn [fmap option_fmap option_map].
  2: { exists false, None. split; [done|]. split; [done|]. by intros (x & ? & _). }
  unfold kernel_bytes. cbn [default sm_modifier stake_mod]. rewrite app_nil_r.
  fold (kernel_hash q blockFrom nTxPrevOffset txPrev (COutPoint.n prevout) nTimeTx).
  set (x := kernel_hash q blockFrom nTxPrevOffset txPrev (COutPoint.n prevout) nTimeTx).
  assert (blob_wf 32 x) as Wx by apply HH.
  destruct (ArithToUint256_UintToArith256 be x Wx) as [Wf _]. destruct (op_mul_assign_spec w target Ww Wt) as [Wm Vm].
  rewrite above, UintToArith256_val, Vm, Vw, Vt by done. eexists _, _. split; [done|].
  rewrite negb_true_iff, Z.ltb_ge. split.
  - intros Hle. exists x. split; [done|]. split; [lia|]. exists q. split_and!; [done|done|exact Hle].
  - intros (x' & [= <-] & _ & q' & Hq' & -> & Hle). assert (q' = q) as -> by congruence. exact Hle.
Qed.
End hash.

(** ** Accepted stakes *)

Lemma bind_inv_ok {E A B} (m : result E A) (f : A -> result E B) r : mbind f m = Ok r -> exists a, m = Ok a /\ f a = Ok r.
Proof. destruct m as [a|e]; intros H; [by exists a|discriminate H]. Qed.

(** Opens the first step of a computation that returned. *)
Ltac open_bind H a E := apply bind_inv_ok in H as (a & E & H).

(** An accepted stake spends an output of [txPrev]. *)
Lemma CheckStakeKernelHash_output be Hash params genesis_nTime h mapBlockIndex chainActive cache_size seed rnd nBits prev blockFrom
    nTxPrevOffset txPrev prevout nTimeTx k proof k' :
  CheckStakeKernelHash be Hash params genesis_nTime h mapBlockIndex chainActive cache_size seed rnd nBits prev blockFrom
    nTxPrevOffset txPrev prevout nTimeTx k = Ok (true, proof, k') -> is_Some (vout txPrev !! Z.to_nat (COutPoint.n prevout)).
Proof.
  unfold CheckStakeKernelHash. destruct (_ <? _); [discriminate|]. destruct (_ >? _); [discriminate|].
  destruct (SetCompact nBits) as [[target fn] fo]. destruct (vout txPrev !! _); [by eexists|discriminate].
Qed.

(** In any version of the protocol: the stake is old enough and the hash over the modifier and, for a time,
    the hash of the previous block, is at most the product of weight and target, modulo 2^256.  The weight
    counts the whole age before version 0.3 and the age beyond the minimum from then on; the modifier is
    looked up with the cache [k], which becomes [k']. *)
Definition kernel_met (be : bool) (Hash : list Z -> list Z) (params : Params.t) (genesis_nTime : Z) (h : heap) (mapBlockIndex : gmap (list Z) N)
    (chainActive : CChain.t) (cache_size seed : Z) (rnd : nat -> Z) (nBits : Z) (prev : option N) (blockFrom : CBlockHeader) (nTxPrevOffset : Z)
    (txPrev : CTransaction) (o : CTxOut.t) (n nTimeTx : Z) (k : KernelCache) (proof : list Z) (k' : KernelCache) : Prop :=
  Transaction.nTime txPrev + Params.nStakeMinAge params <= nTimeTx /\
  exists sm prevHash,
    kernel_modifier be params genesis_nTime h mapBlockIndex chainActive cache_size seed rnd prev (block_hash be Hash blockFrom) nTimeTx k
      = Ok (true, sm, k') /\
    kernel_prevHash params genesis_nTime h prev nTimeTx = Ok prevHash /\
    proof = Hash (kernel_bytes be nBits sm (u32 (Header.GetBlockTime blockFrom)) nTxPrevOffset (Transaction.nTime txPrev) n nTimeTx prevHash) /\
    le_val proof <= (CTxOut.nValue o * (Z.min (nTimeTx - Transaction.nTime txPrev) (Params.nStakeMaxAge params)
                                        - (if IsProtocolV03 nTimeTx then Params.nStakeMinAge params else 0)) / COIN / (24 * 60 * 60)
                     * target_of nBits) mod 2 ^ 256.

Lemma CheckStakeKernelHash_met be Hash params genesis_nTime h mapBlockIndex chainActive cache_size seed rnd nBits prev blockFrom
    nTxPrevOffset txPrev prevout o nTimeTx k proof k' :
  (forall x, blob_wf 32 (Hash x)) -> stake_params params genesis_nTime ->
  is_u 32 nBits -> is_u 32 nTimeTx -> is_u 32 (Transaction.nTime txPrev) ->
  vout txPrev !! Z.to_nat (COutPoint.n prevout) = Some o -> 0 <= CTxOut.nValue o < 2 ^ 63 ->
  CheckStakeKernelHash be Hash params genesis_nTime h mapBlockIndex chainActive cache_size seed rnd nBits prev blockFrom
    nTxPrevOffset txPrev prevout nTimeTx k = Ok (true, proof, k') ->
  exists x, proof = Some x /\
    kernel_met be Hash params genesis_nTime h mapBlockIndex chainActive cache_size seed rnd nBits prev blockFrom nTxPrevOffset txPrev o
      (COutPoint.n prevout) nTimeTx k x k'.
Proof.
  intros HH [_ Ha Hm _] Hb Ht Htp Ho Hv E. unfold is_u in Ht, Htp. unfold CheckStakeKernelHash in E.
  destruct (Z.ltb_spec nTimeTx (Transaction.nTime txPrev)) as [|Hn]; [discriminate|].
  rewrite swrap_small in E by (unfold is_s; lia). rewrite Z.gtb_ltb in E.
  destruct (Z.ltb_spec nTimeTx (Transaction.nTime txPrev + Params.nStakeMinAge params)) as [|Hage]; [discriminate|].
  assert (wf (SetCompact nBits).1.1 /\ val (SetCompact nBits).1.1 = target_of nBits) as [Wt Vt] by (split; [by apply SetCompact_wf|done]).
  destruct (SetCompact nBits) as [[target fn] fo]. cbn [fst] in Wt, Vt. rewrite Ho, ok_bind in E.
  set (w0 := Z.min (nTimeTx - Transaction.nTime txPrev) (Params.nStakeMaxAge params)
             - (if IsProtocolV03 nTimeTx then Params.nStakeMinAge params else 0)).
  assert (time_weight params (Transaction.nTime txPrev) nTimeTx = w0 /\ is_u 32 w0) as [Ew0 Hw0].
  { unfold time_weight, w0, is_u. destruct (IsProtocolV03 nTimeTx);
      rewrite (swrap_small 64 (nTimeTx - _)), swrap_small by (unfold is_s; lia); lia. }
  destruct (coin_day_weight_spec (CTxOut.nValue o) w0 Hv Hw0) as (w & Ew & Ww & Vw). rewrite Ew0, Ew, ok_bind in E.
  open_bind E x Ek. destruct x as [[ok sm] k2]. destruct ok; cbn [negb] in E; [|discriminate].
  open_bind E prevHash Eh. injection E as Ec <- <-. apply negb_true_iff in Ec.
  eexists. split; [reflexivity|]. split; [lia|]. exists sm, prevHash. split; [done|]. split; [done|]. split; [done|].
  set (y := Hash _) in *. destruct (ArithToUint256_UintToArith256 be y (HH _)) as [Wf _].
  destruct (op_mul_assign_spec w target Ww Wt) as [Wm Vm].
  rewrite above, UintToArith256_val, Vm, Vw, Vt in Ec by (done || apply HH). by apply Z.ltb_ge in Ec.
Qed.

Section accepted.
Context (be : bool) (Hash : list Z -> list Z) (CheckLowS : list Z -> bool) (Hs : Hashers) (Verify : list Z -> list Z -> list Z -> bool).
Context (params : Params.t) (genesis_nTime : Z) (fMain : bool) (vEntropyBits : list Z) (vEntropyBits_number_of_blocks : Z).
Context (fTxIndex : bool) (GetTransaction : list Z -> option CTransaction) (ReadTxIndex : list Z -> option (CDiskBlockPos.t * Z))
  (read_file : CDiskBlockPos.t * Z -> option (CBlockHeader * CTransaction)).
Context (cache_size seed : Z) (rnd : nat -> Z).

Abbreviation Check := (CheckProofOfStake be Hash CheckLowS Hs Verify params genesis_nTime fTxIndex GetTransaction ReadTxIndex read_file cache_size seed rnd).
Abbreviation Checks := (ppcoinContextualBlockChecks be Hash CheckLowS Hs Verify params genesis_nTime fMain vEntropyBits vEntropyBits_number_of_blocks
  fTxIndex GetTransaction ReadTxIndex read_file cache_size seed rnd).
Abbreviation Kernel s := (CheckStakeKernelHash be Hash params genesis_nTime (entries s) (mapBlockIndex s) (chainActive s) cache_size seed rnd).

(** The coinstake [tx] spends, with a script that verifies, the output of a transaction that is found in the block files, whose
    header and position are [header] and [postx]. *)
Record staked (tx : CTransaction) (i : CTxIn.t) (postx : CDiskBlockPos.t * Z) (blockFrom : CBlockHeader) (txPrev : CTransaction) : Prop := {
  st_coinstake : IsCoinStake be tx = true;
  st_input : vin tx !! 0%nat = Some i;
  st_script : exists txTmp, GetTransaction (COutPoint.hash (CTxIn.prevout i)) = Some txTmp /\
    CScriptCheck be Hash CheckLowS Hs Verify (CCoins.FromTx be txTmp 0) tx 0 SCRIPT_VERIFY_P2SH = Ok true;
  st_position : ReadTxIndex (COutPoint.hash (CTxIn.prevout i)) = Some postx;
  st_read : read_file postx = Some (blockFrom, txPrev);
  st_hash : Uint256.op_eq (GetHash Hash be txPrev) (COutPoint.hash (CTxIn.prevout i)) = true;
}.

Lemma CheckProofOfStake_true prev tx nBits ks proof ks' : Check prev tx nBits ks = Ok (true, proof, ks') ->
  exists i postx blockFrom txPrev k, staked tx i postx blockFrom txPrev /\ ks' = set_cache k ks /\
    Kernel (ks_index ks) nBits prev blockFrom (u32 (snd postx + Header.NORMAL_SERIALIZE_SIZE)) txPrev (CTxIn.prevout i) (Transaction.nTime tx) (ks_cache ks)
    = Ok (true, proof, k).
Proof.
  unfold CheckProofOfStake. destruct (IsCoinStake be tx) eqn:Ec; [|discriminate]. cbv beta iota delta [negb].
  destruct (vin tx !! 0%nat) as [i|] eqn:Ei; [|discriminate]. rewrite ok_bind. destruct fTxIndex; [|discriminate].
  destruct (GetTransaction _) as [txTmp|] eqn:Et; [|discriminate]. intros H. open_bind H ok Es. destruct ok; [|discriminate H].
  destruct (ReadTxIndex _) as [postx|] eqn:Ep; [|discriminate H]. destruct (read_file postx) as [[blockFrom txPrev]|] eqn:Er; [|discriminate H].
  destruct (Uint256.op_eq _ _) eqn:Eh; [|discriminate H]. cbv beta iota delta [negb] in H. open_bind H r Ek. destruct r as [[ok p] k].
  destruct ok; [|discriminate H]. injection H as <- <-. exists i, postx, blockFrom, txPrev, k. split; [|done]. split; eauto.
Qed.

Lemma CheckProofOfStake_index prev tx nBits ks ok proof ks' : Check prev tx nBits ks = Ok (ok, proof, ks') -> ks_index ks' = ks_index ks.
Proof.
  unfold CheckProofOfStake. destruct (IsCoinStake be tx); [|by intros [= _ _ <-]]. cbv beta iota delta [negb].
  destruct (vin tx !! 0%nat) as [i|]; [|discriminate]. rewrite ok_bind. destruct fTxIndex; [|by intros [= _ _ <-]].
  destruct (GetTransaction _) as [txTmp|]; [|by intros [= _ _ <-]]. intros H. open_bind H v Es. destruct v; [|by injection H as _ _ <-].
  destruct (ReadTxIndex _) as [postx|]; [|by injection H as _ _ <-]. destruct (read_file postx) as [[blockFrom txPrev]|]; [|by injection H as _ _ <-].
  destruct (Uint256.op_eq _ _); [|by injection H as _ _ <-]. cbv beta iota delta [negb] in H. open_bind H r Ek. destruct r as [[b p] k].
  destruct b; by injection H as _ _ <-.
Qed.

(** The checksum is over the fields of the entry that the checks have just computed. *)
Definition checked_entry (proof : list Z) (nEntropyBit nStakeModifier : Z) (fGenerated : bool) (b : CBlockIndex.t) : CBlockIndex.t :=
  StakeEntry.set_hashProofOfStake proof (CBlockIndex.SetStakeModifier nStakeModifier fGenerated (snd (CBlockIndex.SetStakeEntropyBit nEntropyBit b))).

Lemma ppcoinContextualBlockChecks_true block pindex b fJustCheck ks ks' : entries (ks_index ks) !! pindex = Some b ->
  Checks block pindex fJustCheck ks = Ok (true, ks') ->
  let bit := Block.GetStakeEntropyBit be Hash vEntropyBits vEntropyBits_number_of_blocks block (CBlockIndex.nHeight b) in
  exists proof k m g checksum,
    ComputeNextStakeModifier be Hash params (entries (ks_index ks)) (mapBlockIndex (ks_index ks)) pindex = Ok (Some (m, g)) /\
    fst (CBlockIndex.SetStakeEntropyBit bit b) = true /\
    (Block.IsProofOfStake be block = false -> proof = None /\ k = ks) /\
    (Block.IsProofOfStake be block = true -> exists t, vtx block !! 1%nat = Some t /\
       Check (CBlockIndex.pprev b) t (Header.nBits (header block)) ks = Ok (true, proof, k)) /\
    GetStakeModifierChecksum be Hash params (entries (ks_index ks)) (checked_entry (default (Uint256.SetNull 32) proof) bit m g b) = Ok checksum /\
    CheckStakeModifierCheckpoints fMain (CBlockIndex.nHeight b) checksum = true /\
    ks_cache ks' = ks_cache k /\ ks_validation ks' = ks_validation k /\
    ks_index ks' = if fJustCheck then ks_index ks
                   else set_setDirtyBlockIndex ({[pindex]} ∪ setDirtyBlockIndex (ks_index ks))
                          (set_entries (<[pindex := stake_entry be block (default (Uint256.SetNull 32) proof) bit m g checksum b]> (entries (ks_index ks))) (ks_index ks)).
Proof.
  intros Hb H bit. unfold ppcoinContextualBlockChecks, deref in H. rewrite Hb in H. cbn [mem] in H. rewrite ok_bind in H. fold bit in H.
  open_bind H r Er. destruct r as [[ok proof] k]. destruct ok; [|discriminate H]. cbv beta iota zeta delta [negb] in H.
  assert (ks_index k = ks_index ks /\ (Block.IsProofOfStake be block = false -> proof = None /\ k = ks) /\
    (Block.IsProofOfStake be block = true -> exists t, vtx block !! 1%nat = Some t /\
       Check (CBlockIndex.pprev b) t (Header.nBits (header block)) ks = Ok (true, proof, k))) as (Ei & Hw & Hst).
  { destruct (Block.IsProofOfStake be block); [|by injection Er as <- <-].
    destruct (vtx block !! 1%nat) as [t|] eqn:Et; [|discriminate Er]. rewrite ok_bind in Er. split; [by apply CheckProofOfStake_index in Er|].
    split; [done|]. intros _. by exists t. }
  rewrite Ei in H. open_bind H r Ec. destruct (ComputeNextStakeModifier _ _ _ _ _ _) as [r'|] eqn:Em; [|discriminate Ec]. injection Ec as ->.
  destruct r as [[m g]|]; [|discriminate H]. fold bit in H.
  destruct (CBlockIndex.SetStakeEntropyBit bit b) as [okb b1] eqn:Eb. destruct okb; [|discriminate H]. cbv beta iota zeta delta [negb] in H.
  open_bind H checksum Es.
  destruct (CheckStakeModifierCheckpoints fMain (CBlockIndex.nHeight b) checksum) eqn:Ek; [|discriminate H]. cbv beta iota zeta delta [negb] in H.
  assert (GetStakeModifierChecksum be Hash params (entries (ks_index ks)) (checked_entry (default (Uint256.SetNull 32) proof) bit m g b) = Ok checksum) as Es'.
  { unfold checked_entry. rewrite Eb. cbn [snd]. destruct (GetStakeModifierChecksum _ _ _ _ _); [by injection Es as <-|discriminate Es]. }
  exists proof, k, m, g, checksum. split_and!; try done; destruct fJustCheck; by injection H as <-.
Qed.
End accepted.

(** What the checks record in the entry of a block with a proof of stake: the coin that is staked, the
    time, the hash, the modifier, and a checksum that is the one of the entry itself. *)
Record stake_recorded (be : bool) (Hash : list Z -> list Z) (params : Params.t) (h : heap) (i : CTxIn.t) (t : CTransaction) (proof : list Z)
    (bit m : Z) (g : bool) (b b' : CBlockIndex.t) : Prop := {
  sr_prevout : CBlockIndex.prevoutStake b' = CTxIn.prevout i;
  sr_time : CBlockIndex.nStakeTime b' = Transaction.nTime t;
  sr_hash : CBlockIndex.hashProofOfStake b' = proof;
  sr_modifier : CBlockIndex.nStakeModifier b' = m;
  sr_flags : CBlockIndex.nFlags b' = Z.lor (Z.lor (CBlockIndex.nFlags b) (if bit =? 0 then 0 else BLOCK_STAKE_ENTROPY)) (if g then BLOCK_STAKE_MODIFIER else 0);
  sr_checksum : GetStakeModifierChecksum be Hash params h b' = Ok (CBlockIndex.nStakeModifierChecksum b');
  sr_place : CBlockIndex.pprev b' = CBlockIndex.pprev b /\ CBlockIndex.nHeight b' = CBlockIndex.nHeight b /\ CBlockIndex.phashBlock b' = CBlockIndex.phashBlock b;
}.

Lemma stake_entry_recorded be Hash params h block i t proof bit m g checksum b p pindex : Block.IsProofOfStake be block = true ->
  vtx block !! 1%nat = Some t -> vin t !! 0%nat = Some i -> fst (CBlockIndex.SetStakeEntropyBit bit b) = true ->
  CBlockIndex.pprev b = Some p -> p <> pindex ->
  GetStakeModifierChecksum be Hash params h (checked_entry proof bit m g b) = Ok checksum ->
  let b' := stake_entry be block proof bit m g checksum b in
  stake_recorded be Hash params (<[pindex := b']> h) i t proof bit m g b b'.
Proof.
  intros Hs Ht Hi Hb Hp Hne Hc. unfold stake_entry. rewrite Hs.
  destruct (vtx block) as [|t0 [|t1 l]]; [discriminate Ht..|]. injection Ht as ->. destruct (vin t) as [|i0 l']; [discriminate Hi|]. injection Hi as ->.
  cbv beta iota zeta. unfold GetStakeModifierChecksum, checked_entry, CBlockIndex.SetStakeEntropyBit in *. destruct (bit >? 1); [discriminate Hb|]. cbn [snd] in *.
  cbn in Hc. rewrite Hp in Hc. split; try reflexivity.
  - cbn. destruct (bit =? 0), g; by rewrite ?Z.lor_0_r.
  - cbn. rewrite Hp. unfold deref in *. by rewrite lookup_insert_ne.
  - by split_and!.
Qed.

(** ** A sample stake *)

Definition sample_Verify (_ _ _ : list Z) : bool := false.

(** The interval within which a stake on the sample chain has a modifier. *)
Definition stake_time : Z := 1600001000 + 60 * 60 * 24 * 14 - selection_interval (main_params []).

(** [value] coins, aged 15 days, which anyone can spend. *)
Definition sample_prevtx (value : Z) : CTransaction :=
  {| Transaction.nVersion := 1; Transaction.nTime := stake_time - 60 * 60 * 24 * 15; vin := [];
     vout := [CTxOut.mk (value * COIN) [0x51]]; nLockTime := 0 |}.
Definition sample_stake (value n : Z) : CTransaction :=
  {| Transaction.nVersion := 1; Transaction.nTime := stake_time;
     vin := [CTxIn.mk (COutPoint.mk (GetHash sample_digest false (sample_prevtx value)) n) [] 0 []];
     vout := [CTxOut.mk 0 []; CTxOut.mk (value * COIN) [0x51]]; nLockTime := 0 |}.
Definition stake_header (bits : Z) : CBlockHeader :=
  Header.mk 1 (SetNull 32) (SetNull 32) stake_time bits 0 0x1000 (SetNull 32) None None 0.
Definition stake_block (bits value n : Z) : CBlock := mk_block (stake_header bits) [sample_prevtx 0; sample_stake value n] [] false.
Definition sample_get (value : Z) (hash : list Z) : option CTransaction :=
  if Uint256.op_eq hash (GetHash sample_digest false (sample_prevtx value)) then Some (sample_prevtx value) else None.
Definition sample_position (hash : list Z) : option (CDiskBlockPos.t * Z) := Some (CDiskBlockPos.mk 0 8, 100).
Definition sample_read (value : Z) (postx : CDiskBlockPos.t * Z) : option (CBlockHeader * CTransaction) :=
  Some (stake_header 0x1e00ffff, sample_prevtx value).
Definition stake_state : kernel_state :=
  mk_kernel (mk_state sample_chain sample_map [] [] 1 (-1) zero256 [Some 1%N; Some 2%N; Some 3%N; Some 4%N] None None ∅ ∅) initial_cache CValidationState.new.
(** The checks on the sample block. *)
Definition sample_checks (bits value n : Z) (fJustCheck : bool) : result kernel_fault (bool * kernel_state) :=
  ppcoinContextualBlockChecks false sample_digest (fun _ => true) sample_hashers sample_Verify (main_params []) 1500000000 false [] 0
    true (sample_get value) sample_position (sample_read value) 16 0 (fun _ => 0) (stake_block bits value n) 5 fJustCheck stake_state.

Lemma stake_params_main : stake_params (main_params []) 1500000000.
Proof. split; cbn; lia. Qed.

Lemma sample_read_ok value postx hdr tx : 0 <= value <= 100 -> sample_read value postx = Some (hdr, tx) ->
  is_u 32 (Transaction.nTime tx) /\ Forall (fun o => 0 <= CTxOut.nValue o < 2 ^ 63) (vout tx).
Proof.
  intros Hv [= _ <-]. split; [by_decide|]. apply Forall_cons_2; [|apply Forall_nil_2]. cbn [CTxOut.nValue]. unfold COIN. lia.
Qed.

(** The weight times the target is reduced modulo 2^256: with the least difficulty of the main network, a stake of
    16 coin-days is accepted and the same stake with 17 coin-days is not. *)
Example stake_weight_overflow :
  let check value := CheckStakeKernelHash false (fun _ => replicate 31 0 ++ [0x80]) (main_params []) 1500000000 sample_chain sample_map [] 16 0 (fun _ => 0)
      0x200fffff (Some 4%N) (stake_header 0) 100 (sample_prevtx value) (COutPoint.mk [] 0) stake_time initial_cache in
  check 16 = Ok (true, Some (replicate 31 0 ++ [0x80]), initial_cache) /\ check 17 = Ok (false, Some (replicate 31 0 ++ [0x80]), initial_cache).
Proof. split; vm_compute; reflexivity. Qed.

(** A stake on an output that its transaction does not have is read out of the vector's range. *)
Example stake_output_out_of_range : sample_checks 0x1c00ffff 100 1 false = Err (memory Chain.out_of_range).
Proof. vm_compute. reflexivity. Qed.

(** The cache of modifiers before version 0.5 is emptied when the height of the previous block changes and
    not when that block does: on another branch at the same height the modifier of the first branch is used. *)
Lemma stale_modifier be params h map active cache_size seed rnd p b hash k m sm : h !! p = Some b ->
  StakeModCache k = Some m -> nClrHeight k = CBlockIndex.nHeight b -> Facts.search_value be hash m = Ok (Some sm) ->
  GetKernelStakeModifierV03 be params h map active cache_size seed rnd p hash k = Ok (Some sm, k).
Proof.
  intros Hp Hm Hh Hs. unfold GetKernelStakeModifierV03, the_cache, deref. rewrite Hp, Hm. cbn [mem]. rewrite ok_bind, Hh, Z.eqb_refl. cbn [negb]. rewrite Hs.
  cbn [mem]. rewrite ok_bind. destruct k as [? ?]. cbn in *. by subst.
Qed.

(** ** Main results *)

(** C22: the kernel of a stake.  Let the index of blocks be a tree whose genesis block has a modifier.  From version 0.5 on, [CheckStakeKernelHash]
    returns, without a fault, and its cache is left alone.  It accepts exactly when the coins have at least the minimum age,
    there is a modifier for the stake (the one of the nearest block below the tip that generated one early enough; the
    tip itself must be too late) and the hash, over that modifier, the time of the block and the place of the
    transaction that is spent, its time, the output, and the time of the stake, is at most the product of
    weight and target modulo 2^256.  The weight is the value in whole coins times the age in days beyond the minimum,
    which counts up to the maximum.  While the product is less than 2^256, it bounds the hash itself. *)
Theorem CheckStakeKernelHash_correct (be : bool) (Hash : list Z -> list Z) (params : Params.t) (genesis_nTime : Z) (h : heap) (mapBlockIndex : gmap (list Z) N)
    (chainActive : CChain.t) (cache_size seed : Z) (rnd : nat -> Z) (nBits : Z) (p : N) (b : CBlockIndex.t) (blockFrom : CBlockHeader)
    (nTxPrevOffset : Z) (txPrev : CTransaction) (prevout : COutPoint.t) (o : CTxOut.t) (nTimeTx : Z) (k : KernelCache) :
  (forall x, blob_wf 32 (Hash x)) -> stake_params params genesis_nTime -> stake_index h mapBlockIndex ->
  h !! p = Some b -> is_u 32 nBits -> is_u 32 nTimeTx -> is_u 32 (Transaction.nTime txPrev) ->
  vout txPrev !! Z.to_nat (COutPoint.n prevout) = Some o -> 0 <= CTxOut.nValue o < 2 ^ 63 -> protocol_v05 params genesis_nTime nTimeTx = true ->
  let limit := coin_age_weight params (CTxOut.nValue o) (nTimeTx - Transaction.nTime txPrev) * target_of nBits in
  exists ok proof, CheckStakeKernelHash be Hash params genesis_nTime h mapBlockIndex chainActive cache_size seed rnd nBits (Some p) blockFrom
      nTxPrevOffset txPrev prevout nTimeTx k = Ok (ok, proof, k) /\
    (ok = true <-> exists x, proof = Some x /\ meets_target be Hash params h nBits p blockFrom nTxPrevOffset txPrev o (COutPoint.n prevout) nTimeTx x) /\
    (ok = true -> limit < 2 ^ 256 -> exists x, proof = Some x /\ le_val x <= limit).
Proof.
  intros HH Hps Hix Hp Hb Ht Htp Ho Hv V5 limit.
  destruct (CheckStakeKernelHash_spec be Hash params genesis_nTime h mapBlockIndex chainActive cache_size seed rnd HH Hps Hix nBits p b blockFrom
    nTxPrevOffset txPrev prevout o nTimeTx k Hp Hb Ht Htp Ho Hv V5) as (ok & proof & E & Hok).
  exists ok, proof. split; [exact E|]. split; [exact Hok|]. intros Ha Hlim. destruct (proj1 Hok Ha) as (x & -> & Hage & q & _ & _ & Hle).
  exists x. split; [done|]. fold limit in Hle. rewrite Z.mod_small in Hle; [done|]. split; [|done].
  destruct Hps as [_ H1 H2 _]. apply Z.mul_nonneg_nonneg; [|apply (wf_val_bound _ (SetCompact_wf nBits Hb))].
  unfold coin_age_weight. do 2 (apply Z.div_pos; [|unfold COIN; lia]). nia.
Qed.

Lemma CheckStakeKernelHash_correct_witness :
  CheckStakeKernelHash false sample_digest (main_params []) 1500000000 sample_chain sample_map [] 16 0 (fun _ => 0)
      0x1c00ffff (Some 4%N) (stake_header 0) 100 (sample_prevtx 95) (COutPoint.mk [] 0) stake_time initial_cache
  = Ok (false, Some (kernel_hash false sample_digest sample_chain 1 (stake_header 0) 100 (sample_prevtx 95) 0 stake_time), initial_cache) /\
  meets_target false sample_digest (main_params []) sample_chain 0x1c00ffff 4 (stake_header 0) 100 (sample_prevtx 100) (CTxOut.mk (100 * COIN) [0x51]) 0 stake_time
    (kernel_hash false sample_digest sample_chain 1 (stake_header 0) 100 (sample_prevtx 100) 0 stake_time).
Proof.
  split; [vm_compute; reflexivity|].
  destruct (CheckStakeKernelHash_correct false sample_digest (main_params []) 1500000000 sample_chain sample_map [] 16 0 (fun _ => 0)
      0x1c00ffff 4 chain_entry4 (stake_header 0) 100 (sample_prevtx 100) (COutPoint.mk [] 0) (CTxOut.mk (100 * COIN) [0x51]) stake_time initial_cache
      sample_digest_ok stake_params_main sample_index ltac:(vm_compute; reflexivity) ltac:(by_decide) ltac:(by_decide) ltac:(by_decide)
      ltac:(vm_compute; reflexivity) ltac:(by_decide) ltac:(vm_compute; reflexivity)) as (ok & proof & E & Hok & _).
  assert (E' := E). vm_compute in E'. injection E' as <- <-. destruct (proj1 Hok eq_refl) as (x & Hx & Hm).
  injection Hx as <-. exact Hm.
Defined.

(** C21: the proof of stake of an accepted block.  Let [ppcoinContextualBlockChecks] accept a block that has a proof of stake, on an
    index of blocks that is a tree whose genesis block has a modifier.  Then the second transaction of the block spends, with
    a script that verifies, an output of a transaction that the index of transactions holds under that hash, and the
    stake meets its target: in every version of the protocol the hash, over the modifier that the version prescribes,
    is within the product of weight and target, modulo 2^256 ([kernel_met]); from version 0.5 on this is the condition of
    [CheckStakeKernelHash_correct] and the cache of modifiers is left alone, while before it the modifier comes
    through that cache, which may be stale ([stale_modifier]).  In the index exactly the entry of the block changes: it holds
    the coin, the time and the hash of the stake and the modifier of [ComputeNextStakeModifier], with its
    checksum recomputed from that entry; it is queued for writing.  The validation state is left alone. *)
Theorem accepted_stake_sound (be : bool) (Hash : list Z -> list Z) (CheckLowS : list Z -> bool) (Hs : Hashers) (Verify : list Z -> list Z -> list Z -> bool)
    (params : Params.t) (genesis_nTime : Z) (fMain : bool) (vEntropyBits : list Z) (vEntropyBits_number_of_blocks : Z)
    (fTxIndex : bool) (GetTransaction : list Z -> option CTransaction) (ReadTxIndex : list Z -> option (CDiskBlockPos.t * Z))
    (read_file : CDiskBlockPos.t * Z -> option (CBlockHeader * CTransaction)) (cache_size seed : Z) (rnd : nat -> Z)
    (block : CBlock) (t : CTransaction) (pindex p : N) (b : CBlockIndex.t) (ks ks' : kernel_state) :
  let h := entries (ks_index ks) in
  let bit := Block.GetStakeEntropyBit be Hash vEntropyBits vEntropyBits_number_of_blocks block (CBlockIndex.nHeight b) in
  (forall x, blob_wf 32 (Hash x)) -> stake_params params genesis_nTime -> stake_index h (mapBlockIndex (ks_index ks)) ->
  (forall postx hdr tx, read_file postx = Some (hdr, tx) ->
     is_u 32 (Transaction.nTime tx) /\ Forall (fun o => 0 <= CTxOut.nValue o < 2 ^ 63) (vout tx)) ->
  h !! pindex = Some b -> CBlockIndex.pprev b = Some p -> Block.IsProofOfStake be block = true -> vtx block !! 1%nat = Some t ->
  is_u 32 (Transaction.nTime t) -> is_u 32 (Header.nBits (header block)) ->
  ppcoinContextualBlockChecks be Hash CheckLowS Hs Verify params genesis_nTime fMain vEntropyBits vEntropyBits_number_of_blocks
    fTxIndex GetTransaction ReadTxIndex read_file cache_size seed rnd block pindex false ks = Ok (true, ks') ->
  exists i postx blockFrom txPrev o proof m g b',
    staked be Hash CheckLowS Hs Verify GetTransaction ReadTxIndex read_file t i postx blockFrom txPrev /\
    vout txPrev !! Z.to_nat (COutPoint.n (CTxIn.prevout i)) = Some o /\
    kernel_met be Hash params genesis_nTime h (mapBlockIndex (ks_index ks)) (chainActive (ks_index ks)) cache_size seed rnd
      (Header.nBits (header block)) (Some p) blockFrom (u32 (snd postx + Header.NORMAL_SERIALIZE_SIZE)) txPrev o
      (COutPoint.n (CTxIn.prevout i)) (Transaction.nTime t) (ks_cache ks) proof (ks_cache ks') /\
    (protocol_v05 params genesis_nTime (Transaction.nTime t) = true ->
     meets_target be Hash params h (Header.nBits (header block)) p blockFrom (u32 (snd postx + Header.NORMAL_SERIALIZE_SIZE)) txPrev o
       (COutPoint.n (CTxIn.prevout i)) (Transaction.nTime t) proof /\ ks_cache ks' = ks_cache ks) /\
    ComputeNextStakeModifier be Hash params h (mapBlockIndex (ks_index ks)) pindex = Ok (Some (m, g)) /\
    stake_recorded be Hash params (entries (ks_index ks')) i t proof bit m g b b' /\
    CheckStakeModifierCheckpoints fMain (CBlockIndex.nHeight b) (CBlockIndex.nStakeModifierChecksum b') = true /\
    ks_index ks' = set_setDirtyBlockIndex ({[pindex]} ∪ setDirtyBlockIndex (ks_index ks)) (set_entries (<[pindex := b']> h) (ks_index ks)) /\
    ks_validation ks' = ks_validation ks.
Proof.
  intros h bit HH Hps Hix Hread Hb Hp Hpos Ht Htt Hbits E.
  destruct (ppcoinContextualBlockChecks_true _ _ _ _ _ _ _ _ _ _ _ _ _ _ _ _ _ _ _ _ _ _ _ Hb E)
    as (proof & k & m & g & checksum & Hm & Hbit & _ & Hst & Hsum & Hcp & Hk & Hv & Hi).
  destruct (Hst Hpos) as (t' & Ht' & Ec). assert (t' = t) as -> by congruence. rewrite Hp in Ec. clear Hst E.
  destruct (CheckProofOfStake_true _ _ _ _ _ _ _ _ _ _ _ _ _ _ _ _ _ _ _ _ Ec) as (i & postx & blockFrom & txPrev & c & Hstaked & -> & Ek). clear Ec.
  destruct (Hread _ _ _ (st_read _ _ _ _ _ _ _ _ _ _ _ _ _ Hstaked)) as [Htp Houts].
  destruct (CheckStakeKernelHash_output _ _ _ _ _ _ _ _ _ _ _ _ _ _ _ _ _ _ _ _ Ek) as [o Ho].
  destruct (stake_tree h _ Hix pindex b Hb) as [_ Hprev _]. rewrite Hp in Hprev. destruct Hprev as (bp & Hbp & Eh).
  assert (p <> pindex) as Hne by (intros ->; rewrite Hb in Hbp; injection Hbp as <-; lia).
  assert (0 <= CTxOut.nValue o < 2 ^ 63) as Hval by exact (proj1 (Forall_lookup _ _) Houts _ _ Ho).
  destruct (CheckStakeKernelHash_met _ _ _ _ _ _ _ _ _ _ _ _ _ _ _ _ o _ _ _ _ HH Hps Hbits Htt Htp Ho Hval Ek) as (x & -> & Hmet).
  pose proof (CheckStakeKernelHash_spec be Hash params genesis_nTime h (mapBlockIndex (ks_index ks)) (chainActive (ks_index ks)) cache_size seed rnd HH Hps Hix
    (Header.nBits (header block)) p bp blockFrom (u32 (snd postx + Header.NORMAL_SERIALIZE_SIZE)) txPrev (CTxIn.prevout i) o (Transaction.nTime t) (ks_cache ks)
    Hbp Hbits Htt Htp Ho Hval) as Hspec.
  assert (protocol_v05 params genesis_nTime (Transaction.nTime t) = true ->
    meets_target be Hash params h (Header.nBits (header block)) p blockFrom (u32 (snd postx + Header.NORMAL_SERIALIZE_SIZE)) txPrev o
       (COutPoint.n (CTxIn.prevout i)) (Transaction.nTime t) x /\ c = ks_cache ks) as Hv5.
  { intros V5. destruct (Hspec V5) as (ok & pr & Ek' & Hok).
    assert (Ok (true, Some x, c) = Ok (ok, pr, ks_cache ks)) as Eq by (rewrite <- Ek; exact Ek'). injection Eq as <- <- ->.
    destruct (proj1 Hok eq_refl) as (x' & [= <-] & Hmeets). by split. }
  clear Hspec. cbn [default] in Hsum, Hi.
  pose proof (stake_entry_recorded be Hash params h block i t x bit m g checksum b p pindex Hpos Ht (st_input _ _ _ _ _ _ _ _ _ _ _ _ _ Hstaked)
    Hbit Hp Hne Hsum) as Hrec.
  exists i, postx, blockFrom, txPrev, o, x, m, g, (stake_entry be block x bit m g checksum b).
  rewrite Hi, Hk. cbn [set_cache ks_cache]. split_and!; done.
Qed.

(** The sample block: the coin, the time and the modifier are recorded. *)
Lemma accepted_stake_sound_witness :
  exists ks' b', sample_checks 0x1c00ffff 100 0 false = Ok (true, ks') /\ entries (ks_index ks') = <[5%N := b']> sample_chain /\
    CBlockIndex.nStakeTime b' = stake_time /\ CBlockIndex.nStakeModifier b' = 13 /\
    meets_target false sample_digest (main_params []) sample_chain 0x1c00ffff 4 (stake_header 0x1e00ffff) 216 (sample_prevtx 100)
      (CTxOut.mk (100 * COIN) [0x51]) 0 stake_time (CBlockIndex.hashProofOfStake b').
Proof.
  destruct (sample_checks 0x1c00ffff 100 0 false) as [[ok ks']|] eqn:E; [|exfalso; vm_compute in E; discriminate E].
  assert (ok = true) as -> by (vm_compute in E; injection E as <-; reflexivity).
  destruct (accepted_stake_sound false sample_digest (fun _ => true) sample_hashers sample_Verify (main_params []) 1500000000 false [] 0
    true (sample_get 100) sample_position (sample_read 100) 16 0 (fun _ => 0) (stake_block 0x1c00ffff 100 0) (sample_stake 100 0) 5 4 chain_entry5 stake_state ks'
    sample_digest_ok stake_params_main sample_index ltac:(intros; eapply sample_read_ok; [|eassumption]; lia)
    ltac:(vm_compute; reflexivity) ltac:(vm_compute; reflexivity) ltac:(vm_compute; reflexivity) ltac:(vm_compute; reflexivity)
    ltac:(by_decide) ltac:(by_decide) E)
    as (i & postx & blockFrom & txPrev & o & proof & m & g & b' & Hst & Ho & _ & Hv5 & Hm & Hrec & _ & Hi & _).
  destruct (Hv5 ltac:(vm_compute; reflexivity)) as [Hmeets _].
  exists ks', b'. split; [reflexivity|]. rewrite Hi. split; [reflexivity|].
  destruct Hst as [_ Hin _ Hpos Hrd _]. injection Hin as <-. injection Hpos as <-. injection Hrd as <- <-. injection Ho as <-.
  destruct Hrec as [_ -> -> -> _ _ _]. split; [reflexivity|]. split.
  - vm_compute in Hm. injection Hm as <- _. reflexivity.
  - exact Hmeets.
Defined.
