(* ===== verification/Base58.v ===== *)
(** * Base58: texts of addresses

    Models [src/src/base58.cpp] and [src/src/base58.h]: base 58, base 58 with a checksum,
    [CBase58Data] and [CBitcoinAddress].  Characters are numbers in [[0, 256)]; a C string ends
    at its first NUL.  The vector of digits that the code goes through from its end is kept in
    that order, the last digit first. *)
From S2P Require Import Prelude StrEncodings Endian Uint256 Script Standard.

(** "123456789ABCDEFGHJKLMNPQRSTUVWXYZabcdefghijkmnopqrstuvwxyz" *)
Definition pszBase58 : list Z :=
  [49; 50; 51; 52; 53; 54; 55; 56; 57; 65; 66; 67; 68; 69; 70; 71; 72; 74; 75; 76; 77; 78; 80; 81; 82; 83; 84; 85; 86; 87; 88; 89; 90;
   97; 98; 99; 100; 101; 102; 103; 104; 105; 106; 107; 109; 110; 111; 112; 113; 114; 115; 116; 117; 118; 119; 120; 121; 122].

(** A failed assertion, or [length_error] of a vector with a negative size. *)
Inductive base58_fault : Set := carry_left | negative_size.

(** [strchr(l, c) - l] *)
Fixpoint strchr (l : list Z) (c : Z) : option Z :=
  match l with
  | [] => None
  | x :: l' => if x =? c then Some 0 else Z.succ <$> strchr l' c
  end.

(** [c_str]: what a reader of the C string sees. *)
Fixpoint c_str (s : list Z) : list Z :=
  match s with
  | [] => []
  | c :: s' => if c =? 0 then [] else c :: c_str s'
  end.

(** The prefix of a value and what follows it. *)
Fixpoint skip (c : Z) (s : list Z) : nat * list Z :=
  match s with
  | x :: s' => if x =? c then let '(n, r) := skip c s' in (S n, r) else (O, s)
  | [] => (O, [])
  end.

(** One round of the conversion, "digits = digits * mul + carry" in base [base]: the digits, the carry that is
    left and [i]. *)
Fixpoint mul_add (base mul carry : Z) (length i : nat) (digits : list Z) : list Z * Z * nat :=
  match digits with
  | [] => ([], carry, i)
  | d :: digits' =>
      if negb (carry =? 0) || (i <? length)%nat then
        let carry := carry + mul * d in
        let '(r, c, k) := mul_add base mul (carry / base) length (S i) digits' in (carry mod base :: r, c, k)
      else (digits, carry, i)
  end.

(** The digits from the end of the vector, without leading zeroes, first digit first. *)
Definition significant (digits : list Z) (length : nat) : list Z := snd (skip 0 (reverse (take length digits))).

Definition new_vector (size : Z) : result base58_fault (list Z) :=
  if size <? 0 then Err negative_size else Ok (replicate (Z.to_nat size) 0).

(** ** Encoding *)

Fixpoint encode_loop (p : list Z) (b58 : list Z) (length : nat) : result base58_fault (list Z * nat) :=
  match p with
  | [] => mret (b58, length)
  | x :: p' =>
      let '(b58, carry, i) := mul_add 58 256 x length 0 b58 in
      if carry =? 0 then encode_loop p' b58 i else Err carry_left
  end.

Definition EncodeBase58 (vch : list Z) : result base58_fault (list Z) :=
  let '(zeroes, p) := skip 0 vch in
  b58 ← new_vector (i32 (i64 (Z.of_nat (length p) * 138) / 100 + 1));
  '(b58, n) ← encode_loop p b58 0;
  mret (replicate zeroes 49 ++ map (fun d => pszBase58 !!! Z.to_nat d) (significant b58 n)).

(** ** Decoding *)

(** [None] is a character that is not of the alphabet; otherwise also what follows. *)
Fixpoint decode_loop (psz : list Z) (b256 : list Z) (length : nat) : result base58_fault (option (list Z * nat * list Z)) :=
  match psz with
  | [] => mret (Some (b256, length, []))
  | c :: psz' =>
      if isspace c then mret (Some (b256, length, psz))
      else match strchr pszBase58 c with
           | None => mret None
           | Some ch =>
               let '(b256, carry, i) := mul_add 256 58 ch length 0 b256 in
               if carry =? 0 then decode_loop psz' b256 i else Err carry_left
           end
  end.

(** Of a C string; [None] is the result [false]. *)
Definition DecodeBase58_psz (psz : list Z) : result base58_fault (option (list Z)) :=
  let psz := skip_space psz in
  let '(zeroes, psz) := skip 49 psz in
  b256 ← new_vector (i32 (u64 (Z.of_nat (length psz) * 733) / 1000 + 1));
  r ← decode_loop psz b256 0;
  match r with
  | None => mret None
  | Some (b256, n, rest) =>
      match skip_space rest with
      | [] => mret (Some (replicate zeroes 0 ++ significant b256 n))
      | _ => mret None
      end
  end.

Definition DecodeBase58 (str : list Z) : result base58_fault (option (list Z)) := DecodeBase58_psz (c_str str).

(** ** Checksums *)

Section checksum.
Context (Hash : list Z -> list Z).

Definition EncodeBase58Check (vchIn : list Z) : result base58_fault (list Z) := EncodeBase58 (vchIn ++ take 4 (Hash vchIn)).

Definition DecodeBase58Check (str : list Z) : result base58_fault (option (list Z)) :=
  r ← DecodeBase58 str;
  match r with
  | None => mret None
  | Some vch =>
      if (length vch <? 4)%nat then mret None
      else
        let body := take (length vch - 4) vch in
        if bool_decide (take 4 (Hash body) = drop (length vch - 4) vch) then mret (Some body) else mret None
  end.

(** ** [CBase58Data] *)

Record CBase58Data : Type := mk_b58 { vchVersion : list Z; vchData : list Z }.

Definition empty_data : CBase58Data := mk_b58 [] [].

(** The result and the object. *)
Definition SetString (str : list Z) (nVersionBytes : nat) : result base58_fault (bool * CBase58Data) :=
  r ← DecodeBase58Check str;
  match r with
  | Some vch => if (length vch <? nVersionBytes)%nat then mret (false, empty_data)
                else mret (true, mk_b58 (take nVersionBytes vch) (drop nVersionBytes vch))
  | None => mret (false, empty_data)
  end.

Definition ToString (d : CBase58Data) : result base58_fault (list Z) := EncodeBase58Check (vchVersion d ++ vchData d).

(** [operator<] of vectors of bytes *)
Fixpoint vector_lt (a b : list Z) : bool :=
  match a, b with
  | _, [] => false
  | [], _ :: _ => true
  | x :: a', y :: b' => (x <? y) || ((x =? y) && vector_lt a' b')
  end.

Definition CompareTo (a b : CBase58Data) : Z :=
  if vector_lt (vchVersion a) (vchVersion b) then -1
  else if vector_lt (vchVersion b) (vchVersion a) then 1
  else if vector_lt (vchData a) (vchData b) then -1
  else if vector_lt (vchData b) (vchData a) then 1
  else 0.

(** ** [CBitcoinAddress] *)

(** [Base58Prefix] of the addresses of the network. *)
Context (PUBKEY_ADDRESS SCRIPT_ADDRESS : list Z).

(** [Set]: the object as it was for [CNoDestination]. *)
Definition set_destination (dest : CTxDestination) (a : CBase58Data) : bool * CBase58Data :=
  match dest with
  | CKeyID id => (true, mk_b58 PUBKEY_ADDRESS (take 20 id))
  | CScriptID id => (true, mk_b58 SCRIPT_ADDRESS (take 20 id))
  | CNoDestination => (false, a)
  end.

(** [CBitcoinAddress(dest)] *)
Definition CBitcoinAddress (dest : CTxDestination) : CBase58Data := snd (set_destination dest empty_data).

Definition IsValid (a : CBase58Data) : bool :=
  (length (vchData a) =? 20)%nat && (bool_decide (vchVersion a = PUBKEY_ADDRESS) || bool_decide (vchVersion a = SCRIPT_ADDRESS)).

Definition Get (a : CBase58Data) : CTxDestination :=
  if negb (IsValid a) then CNoDestination
  else if bool_decide (vchVersion a = PUBKEY_ADDRESS) then CKeyID (vchData a)
  else if bool_decide (vchVersion a = SCRIPT_ADDRESS) then CScriptID (vchData a)
  else CNoDestination.

Definition GetKeyID (a : CBase58Data) : option (list Z) :=
  if negb (IsValid a) || negb (bool_decide (vchVersion a = PUBKEY_ADDRESS)) then None else Some (vchData a).

Definition IsScript (a : CBase58Data) : bool := IsValid a && bool_decide (vchVersion a = SCRIPT_ADDRESS).
End checksum.

(** ** Digits *)

(** The value of digits, the last one first. *)
Definition dval (base : Z) (l : list Z) : Z := foldr (fun d a => d + base * a) 0 l.

(** The value of digits, the first one first. *)
Definition horner (base acc : Z) (l : list Z) : Z := fold_left (fun a d => base * a + d) l acc.

Definition is_digit (base d : Z) : Prop := 0 <= d < base.

(** No leading zero. *)
Definition canonical (l : list Z) : Prop := head l <> Some 0.

Lemma dval_app base a b : dval base (a ++ b) = dval base a + base ^ Z.of_nat (length a) * dval base b.
Proof.
  induction a as [|x a IH]; cbn [dval foldr app length]; [rewrite Z.pow_0_r; change (foldr (λ d a : Z, d + base * a) 0 b) with (dval base b); ring|]. fold (dval base (a ++ b)). fold (dval base a).
  rewrite IH, Nat2Z.inj_succ, Z.pow_succ_r by lia. ring.
Qed.

Lemma dval_zeros base l : Forall (eq 0) l -> dval base l = 0.
Proof. induction 1 as [|x l <- _ IH]; [done|]. cbn. fold (dval base l). lia. Qed.

Lemma dval_nonneg base l : 0 < base -> Forall (is_digit base) l -> 0 <= dval base l.
Proof. intros Hb. induction 1 as [|x l Hx _ IH]; [done|]. cbn. fold (dval base l). unfold is_digit in Hx. nia. Qed.

Lemma horner_reverse base l : horner base 0 (reverse l) = dval base l.
Proof.
  induction l as [|x l IH]; [done|]. unfold horner in *. rewrite reverse_cons, fold_left_app, IH. cbn [fold_left dval foldr].
  fold (dval base l). ring.
Qed.

Lemma horner_dval base l : horner base 0 l = dval base (reverse l).
Proof. by rewrite <- horner_reverse, reverse_involutive. Qed.

Lemma dval_inj base l : 0 < base -> Forall (is_digit base) l -> last l <> Some 0 ->
  forall l', Forall (is_digit base) l' -> last l' <> Some 0 -> dval base l = dval base l' -> l = l'.
Proof.
  intros Hb Hl. assert (forall t, Forall (is_digit base) t -> last t <> Some 0 -> dval base t = 0 -> t = []) as Z0.
  { intros t. induction t as [|d t IH]; [done|]. intros [Hd Ht]%Forall_cons Hlast E. cbn in E. fold (dval base t) in E. unfold is_digit in Hd.
    pose proof (dval_nonneg base t Hb Ht). assert (d = 0) as -> by nia. assert (dval base t = 0) as E' by nia.
    exfalso. destruct t as [|e t]; [done|]. rewrite last_cons_cons in Hlast. by specialize (IH Ht Hlast E'). }
  induction l as [|d l IH]; intros Hlast l' Hl' Hlast' E; [symmetry; by apply Z0|].
  destruct l' as [|d' l']; [by apply Z0|]. apply Forall_cons in Hl as [Hd Hl]. apply Forall_cons in Hl' as [Hd' Hl'].
  cbn in E. fold (dval base l) (dval base l') in E. unfold is_digit in Hd, Hd'.
  assert (d = d' /\ dval base l = dval base l') as [-> E'].
  { assert (dval base l = dval base l') by nia. nia. }
  f_equal. assert (forall x t, last (x :: t) <> Some 0 -> last t <> Some 0) as Hl0 by (intros x [|y t]; [done|by rewrite last_cons_cons]).
  apply IH; eauto.
Qed.

Lemma canonical_inj base l l' : 0 < base -> Forall (is_digit base) l -> Forall (is_digit base) l' -> canonical l -> canonical l' ->
  horner base 0 l = horner base 0 l' -> l = l'.
Proof.
  intros Hb Hl Hl' Hc Hc' E. rewrite !horner_dval in E. apply (inj reverse).
  eapply (dval_inj base); try done; try (by apply Forall_reverse); by rewrite last_reverse.
Qed.

Lemma skip_split c s : exists n r, skip c s = (n, r) /\ s = replicate n c ++ r /\ head r <> Some c.
Proof.
  induction s as [|x s (n & r & E & -> & Hr)]; cbn [skip]; [by exists 0%nat, []|]. destruct (Z.eqb_spec x c) as [->|Hx].
  - rewrite E. by exists (S n), r.
  - exists 0%nat. eexists. split_and!; [done..|]. cbn. congruence.
Qed.

Lemma skip_app c n r : head r <> Some c -> skip c (replicate n c ++ r) = (n, r).
Proof.
  intros Hr. induction n as [|n IH]; cbn [replicate app skip].
  - destruct r as [|x r]; [done|]. cbn. destruct (Z.eqb_spec x c) as [->|]; done.
  - by rewrite Z.eqb_refl, IH.
Qed.


(** One round multiplies and adds. *)
Lemma mul_add_spec base mul len ds : 0 < base -> 0 <= mul -> Forall (is_digit base) ds -> forall carry i, 0 <= carry ->
  Forall (eq 0) (drop (len - i) ds) ->
  exists r c k, mul_add base mul carry len i ds = (r, c, k) /\ length r = length ds /\ Forall (is_digit base) r /\ 0 <= c /\
    dval base r + base ^ Z.of_nat (length ds) * c = mul * dval base ds + carry /\ (i <= k)%nat /\ Forall (eq 0) (drop (k - i) r).
Proof.
  intros Hb Hm. induction 1 as [|d ds Hd Hds IH]; intros carry i Hc Hz; cbn [mul_add].
  { exists [], carry, i. split_and!; try done. - cbn [length dval foldr]. rewrite Z.pow_0_r. ring. - rewrite drop_nil. constructor. }
  destruct (negb (carry =? 0) || (i <? len)%nat) eqn:E.
  - unfold is_digit in Hd. destruct (IH ((carry + mul * d) / base) (S i)) as (r & c & k & -> & Hl & Hr & Hc' & Hv & Hk & Hz').
    { apply Z.div_pos; nia. }
    { destruct (decide (i < len)%nat) as [Hi|Hi].
      - replace (len - i)%nat with (S (len - S i)) in Hz by lia. exact Hz.
      - replace (len - i)%nat with 0%nat in Hz by lia. replace (len - S i)%nat with 0%nat by lia. by apply Forall_cons in Hz as [_ ?]. }
    exists ((carry + mul * d) mod base :: r), c, k. split_and!; try done.
    + cbn. by rewrite Hl.
    + constructor; [|done]. unfold is_digit. by apply Z.mod_pos_bound.
    + cbn [dval foldr length]. fold (dval base r) (dval base ds). rewrite Nat2Z.inj_succ, Z.pow_succ_r by lia.
      pose proof (Z.div_mod (carry + mul * d) base ltac:(lia)). nia.
    + lia.
    + replace (k - i)%nat with (S (k - S i)) by lia. exact Hz'.
  - apply orb_false_iff in E as [E1 E2]. apply negb_false_iff, Z.eqb_eq in E1 as ->. apply Nat.ltb_ge in E2.
    replace (len - i)%nat with 0%nat in Hz by lia. rewrite drop_0 in Hz.
    exists (d :: ds), 0, i. split_and!; try done; [by constructor|rewrite (dval_zeros base) by done; lia|].
    replace (i - i)%nat with 0%nat by lia. by rewrite drop_0.
Qed.

(** A vector of digits of which only the last [len] count. *)
Record digits_ok (base : Z) (ds : list Z) (len : nat) : Prop := {
  do_digits : Forall (is_digit base) ds;
  do_zeros : Forall (eq 0) (drop len ds);
}.

(** A round that has room leaves no carry. *)
Lemma round_ok base mul ds len x room : 0 < base -> 0 < mul -> is_digit mul x -> digits_ok base ds len -> 0 < room ->
  (dval base ds + 1) * (mul * room) <= base ^ Z.of_nat (length ds) ->
  exists r k, mul_add base mul x len 0 ds = (r, 0, k) /\ length r = length ds /\ digits_ok base r k /\
    dval base r = mul * dval base ds + x /\ (dval base r + 1) * room <= base ^ Z.of_nat (length r).
Proof.
  intros Hb Hm Hx [Hd Hz] Hr Hroom. unfold is_digit in Hx. pose proof (dval_nonneg base ds Hb Hd).
  destruct (mul_add_spec base mul len ds Hb ltac:(lia) Hd x 0 ltac:(lia)) as (r & c & k & E & Hl & Hr' & Hc & Hv & _ & Hz').
  { by rewrite Nat.sub_0_r. }
  pose proof (dval_nonneg base r Hb Hr'). assert (c = 0) as -> by nia. exists r, k. rewrite Nat.sub_0_r in Hz'.
  split_and!; try done; [lia|]. rewrite Hl. replace (dval base r) with (mul * dval base ds + x) by lia. nia.
Qed.

Lemma significant_spec base ds len : digits_ok base ds len ->
  canonical (significant ds len) /\ Forall (is_digit base) (significant ds len) /\ horner base 0 (significant ds len) = dval base ds.
Proof.
  intros [Hd Hz]. unfold significant. destruct (skip_split 0 (reverse (take len ds))) as (n & r & -> & E & Hr). cbn [snd].
  split; [exact Hr|]. assert (Forall (is_digit base) (reverse (take len ds))) as Hd' by (by apply Forall_reverse, Forall_take).
  rewrite E in Hd'. apply Forall_app in Hd' as [_ Hd']. split; [done|].
  rewrite <- (take_drop len ds), dval_app, (dval_zeros base (drop len ds)), Z.mul_0_r, Z.add_0_r by done.
  rewrite <- horner_reverse, E. unfold horner. rewrite fold_left_app. f_equal. clear.
  induction n as [|n IH]; [done|]. cbn [replicate fold_left]. by rewrite Z.mul_0_r.
Qed.

Lemma new_vector_ok size base : 0 <= size -> 0 < base -> exists ds, new_vector size = Ok ds /\ length ds = Z.to_nat size /\ digits_ok base ds 0 /\ dval base ds = 0.
Proof.
  intros Hs Hb. unfold new_vector. rewrite (proj2 (Z.ltb_ge _ _)) by lia. eexists. split; [done|]. rewrite length_replicate.
  assert (Forall (eq 0) (replicate (Z.to_nat size) 0)) as Hz by (by apply Forall_replicate). split; [done|]. split; [|by apply dval_zeros].
  split; [|by rewrite drop_0]. apply Forall_replicate. unfold is_digit. lia.
Qed.

(** ** The vectors are long enough *)

(** Checked for the remainders, it holds for all lengths. *)
Lemma room_enough (a b num den : Z) : 0 < a -> 0 < b -> 0 <= num -> 0 < den -> a ^ den <= b ^ num ->
  forallb (fun r => a ^ r <=? b ^ (r * num / den + 1)) (seqZ 0 den) = true ->
  forall n, 0 <= n -> a ^ n <= b ^ (n * num / den + 1).
Proof.
  intros Ha Hb Hm Hd Hbig Hsmall n Hn. rewrite (Z.div_mod n den) at 1 by lia. set (q := n / den). set (r := n mod den).
  assert (0 <= r < den) as Hr by (apply Z.mod_pos_bound; lia). assert (0 <= q) by (apply Z.div_pos; lia).
  rewrite forallb_forall in Hsmall. specialize (Hsmall r ltac:(apply list_elem_of_In, elem_of_seqZ; lia)). apply Z.leb_le in Hsmall.
  assert (0 <= r * num / den) by (apply Z.div_pos; nia).
  replace (n * num / den + 1) with (num * q + (r * num / den + 1)).
  2: { rewrite (Z.div_mod n den) at 1 by lia. fold q r. replace ((den * q + r) * num) with (num * q * den + r * num) by ring.
       rewrite Z.div_add_l by lia. lia. }
  rewrite (Z.pow_add_r a), (Z.pow_add_r b), !Z.pow_mul_r by nia.
  apply Z.mul_le_mono_nonneg; [apply Z.pow_nonneg; lia|apply Z.pow_le_mono_l; lia|apply Z.pow_nonneg; lia|done].
Qed.

Lemma room58 n : 0 <= n -> 256 ^ n <= 58 ^ (n * 138 / 100 + 1).
Proof.
  intros Hn. transitivity (58 ^ (n * 41 / 30 + 1)).
  - apply (room_enough 256 58 41 30); [lia..|vm_compute; discriminate|vm_compute; reflexivity|done].
  - apply Z.pow_le_mono_r; [lia|]. pose proof (Z.mul_div_le (n * 41) 30). pose proof (Z.div_le_lower_bound (n * 138) 100 (n * 41 / 30)). lia.
Qed.

Lemma room256 n : 0 <= n -> 58 ^ n <= 256 ^ (n * 733 / 1000 + 1).
Proof.
  intros Hn. transitivity (256 ^ (n * 52 / 71 + 1)).
  - apply (room_enough 58 256 52 71); [lia..|vm_compute; discriminate|vm_compute; reflexivity|done].
  - apply Z.pow_le_mono_r; [lia|]. pose proof (Z.mul_div_le (n * 52) 71). pose proof (Z.div_le_lower_bound (n * 733) 1000 (n * 52 / 71)). lia.
Qed.

(** ** The loops *)

Lemma encode_loop_spec p : Forall is_byte p -> forall ds len, digits_ok 58 ds len ->
  (dval 58 ds + 1) * 256 ^ Z.of_nat (length p) <= 58 ^ Z.of_nat (length ds) ->
  exists ds' len', encode_loop p ds len = Ok (ds', len') /\ length ds' = length ds /\ digits_ok 58 ds' len' /\
    dval 58 ds' = horner 256 (dval 58 ds) p.
Proof.
  induction 1 as [|x p Hx _ IH]; intros ds len Hd Hroom; cbn [encode_loop]; [by exists ds, len|].
  cbn [length] in Hroom. rewrite Nat2Z.inj_succ, Z.pow_succ_r in Hroom by lia.
  destruct (round_ok 58 256 ds len x (256 ^ Z.of_nat (length p))) as (r & k & -> & Hl & Hd' & Hv & Hroom'); [lia|lia|exact Hx|done|by apply Z.pow_pos_nonneg; lia|done|].
  cbn [Z.eqb]. destruct (IH r k Hd' Hroom') as (ds' & len' & E & Hl' & Hds' & Hv'). exists ds', len'. split_and!; [done|lia|done|]. rewrite Hv', Hv. done.
Qed.

(** The characters of the alphabet. *)
Definition char_of (d : Z) : Z := pszBase58 !!! Z.to_nat d.

Lemma strchr_spec l c : match strchr l c with
  | Some d => 0 <= d < Z.of_nat (length l) /\ l !!! Z.to_nat d = c
  | None => c ∉ l
  end.
Proof.
  induction l as [|x l IH]; cbn [strchr]; [apply not_elem_of_nil|]. destruct (Z.eqb_spec x c) as [->|Hx].
  - cbn. split; [lia|done].
  - destruct (strchr l c) as [d|]; cbn [fmap option_fmap option_map].
    + destruct IH as [Hd <-]. cbn [length]. split; [lia|]. rewrite Z2Nat.inj_succ by lia. done.
    + rewrite not_elem_of_cons. by split.
Qed.

Lemma alphabet_ok d : is_digit 58 d -> strchr pszBase58 (char_of d) = Some d /\ isspace (char_of d) = false /\ char_of d <> 0 /\ (char_of d = 49 <-> d = 0).
Proof.
  intros Hd. assert (forallb (fun d => bool_decide (strchr pszBase58 (char_of d) = Some d) && negb (isspace (char_of d))
    && negb (char_of d =? 0) && Bool.eqb (char_of d =? 49) (d =? 0)) (seqZ 0 58) = true) as H by (vm_compute; reflexivity).
  rewrite forallb_forall in H. specialize (H d ltac:(apply list_elem_of_In, elem_of_seqZ; unfold is_digit in Hd; lia)).
  rewrite !andb_true_iff, !negb_true_iff, bool_decide_eq_true, eqb_true_iff, Z.eqb_neq in H. destruct H as [[[H1 H2] H3] H4].
  split_and!; try done. rewrite <- (Z.eqb_eq (char_of d)), H4. apply Z.eqb_eq.
Qed.

Lemma decode_loop_spec psz : forall ds len, digits_ok 256 ds len ->
  (dval 256 ds + 1) * 58 ^ Z.of_nat (length psz) <= 256 ^ Z.of_nat (length ds) ->
  exists r, decode_loop psz ds len = Ok r /\
    match r with
    | None => exists c, (c ∈ psz) /\ (c ∉ pszBase58) /\ isspace c = false
    | Some (ds', len', rest) => exists l, psz = map char_of l ++ rest /\ Forall (is_digit 58) l /\ (forall c, head rest = Some c -> isspace c = true) /\
        length ds' = length ds /\ digits_ok 256 ds' len' /\ dval 256 ds' = horner 58 (dval 256 ds) l
    end.
Proof.
  induction psz as [|c psz IH]; intros ds len Hd Hroom; cbn [decode_loop]; [eexists; split; [done|]; by exists []|].
  destruct (isspace c) eqn:Es; [eexists; split; [done|]; exists []; split_and!; try done; by intros ? [= <-]|].
  pose proof (strchr_spec pszBase58 c) as Hc. destruct (strchr pszBase58 c) as [ch|].
  2: { eexists. split; [done|]. exists c. split_and!; [by left|done..]. }
  destruct Hc as [Hch <-]. cbn [length] in Hroom. rewrite Nat2Z.inj_succ, Z.pow_succ_r in Hroom by lia.
  destruct (round_ok 256 58 ds len ch (58 ^ Z.of_nat (length psz))) as (r & k & -> & Hl & Hd' & Hv & Hroom'); [lia|lia|exact Hch|done|by apply Z.pow_pos_nonneg; lia|done|].
  cbn [Z.eqb]. destruct (IH r k Hd' Hroom') as ([[[ds' len'] rest]|] & -> & Hr); eexists; (split; [done|]).
  - destruct Hr as (l & -> & Hl' & Hrest & Hlen & Hds' & Hv'). exists (ch :: l). split_and!; try done; [by constructor|lia|]. rewrite Hv', Hv. done.
  - destruct Hr as (x & Hx & ?). exists x. split; [by right|done].
Qed.

Lemma decode_loop_digits l : Forall (is_digit 58) l -> forall ds len, digits_ok 256 ds len ->
  (dval 256 ds + 1) * 58 ^ Z.of_nat (length l) <= 256 ^ Z.of_nat (length ds) ->
  exists ds' len', decode_loop (map char_of l) ds len = Ok (Some (ds', len', [])) /\ digits_ok 256 ds' len' /\ dval 256 ds' = horner 58 (dval 256 ds) l.
Proof.
  induction 1 as [|d l Hx _ IH]; intros ds len Hd Hroom; cbn [map decode_loop]; [by exists ds, len|].
  destruct (alphabet_ok d Hx) as (-> & -> & _). cbn [length] in Hroom. rewrite Nat2Z.inj_succ, Z.pow_succ_r in Hroom by lia.
  destruct (round_ok 256 58 ds len d (58 ^ Z.of_nat (length l))) as (r & k & -> & Hl & Hd' & Hv & Hroom'); [lia|lia|exact Hx|done|by apply Z.pow_pos_nonneg; lia|done|].
  cbn [Z.eqb]. destruct (IH r k Hd' Hroom') as (ds' & len' & E & Hds' & Hv'). exists ds', len'. split; [done|]. split; [done|]. rewrite Hv', Hv. done.
Qed.

(** ** Round trips *)

Lemma significant_length ds n : (length (significant ds n) <= length ds)%nat.
Proof.
  unfold significant. destruct (skip_split 0 (reverse (take n ds))) as (k & r & -> & E & _). cbn [snd].
  assert (length (reverse (take n ds)) = length (replicate k 0 ++ r)) as H by (by rewrite E).
  rewrite length_app, length_reverse, length_take in H. lia.
Qed.

Lemma size_ok n num den : 0 <= n -> 0 < num <= 1000 -> 0 < den -> n * num < den * (2 ^ 31 - 1) -> n <= 2 ^ 40 ->
  i32 (i64 (n * num) / den + 1) = n * num / den + 1 /\ i32 (u64 (n * num) / den + 1) = n * num / den + 1.
Proof.
  intros Hn Hnum Hden H H'. assert (0 <= n * num / den < 2 ^ 31 - 1) by (split; [apply Z.div_pos; nia|apply Z.div_lt_upper_bound; lia]).
  rewrite (swrap_small 64), uwrap_small, swrap_small by (unfold is_s, is_u; nia). done.
Qed.

(** The digits of the text of [v]. *)
Lemma EncodeBase58_digits z p : Forall is_byte p -> canonical p -> Z.of_nat (length p) <= 2 ^ 30 ->
  exists l, EncodeBase58 (replicate z 0 ++ p) = Ok (replicate z 49 ++ map char_of l) /\ canonical l /\ Forall (is_digit 58) l /\
    horner 58 0 l = horner 256 0 p /\ Z.of_nat (length l) <= Z.of_nat (length p) * 138 / 100 + 1.
Proof.
  intros Hp Hc Hlen. unfold EncodeBase58. rewrite skip_app by done.
  destruct (size_ok (Z.of_nat (length p)) 138 100) as [-> _]; [lia..|].
  assert (0 <= Z.of_nat (length p) * 138 / 100) as H0 by (apply Z.div_pos; lia).
  destruct (new_vector_ok (Z.of_nat (length p) * 138 / 100 + 1) 58) as (ds & -> & Hl & Hd & Hv); [lia..|]. cbn [mbind result_bind].
  destruct (encode_loop_spec p Hp ds 0 Hd) as (ds' & n & -> & Hl' & Hd' & Hv').
  { rewrite Hv, Hl, Z2Nat.id by lia. pose proof (room58 (Z.of_nat (length p)) ltac:(lia)). lia. }
  cbn [mbind result_bind]. destruct (significant_spec 58 ds' n Hd') as (S1 & S2 & S3).
  exists (significant ds' n). split_and!; try done.
  - by rewrite S3, Hv', Hv.
  - pose proof (significant_length ds' n). lia.
Qed.

Lemma text_chars z l : Forall (is_digit 58) l -> Forall (fun c => c ∈ pszBase58 /\ isspace c = false /\ c <> 0) (replicate z 49 ++ map char_of l).
Proof.
  intros Hl. apply Forall_app. split; [apply Forall_replicate; split_and!; [left|done|done]|].
  apply Forall_map. eapply Forall_impl; [exact Hl|]. intros d Hd. cbn. destruct (alphabet_ok d Hd) as (E & ? & ? & _). split_and!; [|done..].
  unfold char_of. apply list_elem_of_lookup_total_2. unfold is_digit in Hd. change (length pszBase58) with 58%nat. lia.
Qed.

Lemma c_str_id s : Forall (fun c => c <> 0) s -> c_str s = s.
Proof. induction 1 as [|c s Hc _ IH]; [done|]. cbn. rewrite (proj2 (Z.eqb_neq _ _)) by done. by rewrite IH. Qed.

Lemma skip_space_id s : (forall c, head s = Some c -> isspace c = false) -> skip_space s = s.
Proof. destruct s as [|c s]; [done|]. intros H. cbn. by rewrite H. Qed.

Lemma text_head z l c : Forall (is_digit 58) l -> head (replicate z 49 ++ map char_of l) = Some c -> isspace c = false.
Proof.
  intros Hl Hc. pose proof (text_chars z l Hl) as H. destruct (replicate z 49 ++ map char_of l) as [|x s]; [done|].
  injection Hc as ->. by apply Forall_cons in H as [(_ & ? & _) _].
Qed.

Lemma canonical_map l : Forall (is_digit 58) l -> head (map char_of l) <> Some 49 <-> canonical l.
Proof.
  unfold canonical. intros Hl. destruct Hl as [|d l Hd _]; [done|]. cbn. destruct (alphabet_ok d Hd) as (_ & _ & _ & H).
  split; intros Hn [= E]; apply Hn; f_equal; [by apply H|by apply H].
Qed.

Lemma DecodeBase58_digits z l : Forall (is_digit 58) l -> canonical l -> Z.of_nat (length l) <= 2 ^ 31 ->
  exists p, DecodeBase58 (replicate z 49 ++ map char_of l) = Ok (Some (replicate z 0 ++ p)) /\ canonical p /\ Forall is_byte p /\ horner 256 0 p = horner 58 0 l.
Proof.
  intros Hl Hc Hlen. unfold DecodeBase58, DecodeBase58_psz. rewrite c_str_id by (eapply Forall_impl; [by apply text_chars|]; cbn; tauto).
  rewrite skip_space_id by (intros c; by apply text_head). rewrite skip_app by (by apply canonical_map). rewrite length_map.
  destruct (size_ok (Z.of_nat (length l)) 733 1000) as [_ ->]; [lia..|].
  assert (0 <= Z.of_nat (length l) * 733 / 1000) as H0 by (apply Z.div_pos; lia).
  destruct (new_vector_ok (Z.of_nat (length l) * 733 / 1000 + 1) 256) as (ds & -> & Hl' & Hd & Hv); [lia..|]. cbn [mbind result_bind].
  destruct (decode_loop_digits l Hl ds 0 Hd) as (ds' & n & -> & Hd' & Hv').
  { rewrite Hv, Hl', Z2Nat.id by lia. pose proof (room256 (Z.of_nat (length l)) ltac:(lia)). lia. }
  cbn [mbind result_bind skip_space]. destruct (significant_spec 256 ds' n Hd') as (S1 & S2 & S3). exists (significant ds' n). split_and!; try done.
  by rewrite S3, Hv', Hv.
Qed.

Lemma canonical_split v : exists z p, v = replicate z 0 ++ p /\ canonical p.
Proof. destruct (skip_split 0 v) as (z & p & _ & -> & Hp). by exists z, p. Qed.

Lemma base58_inverse v : Forall is_byte v -> Z.of_nat (length v) <= 2 ^ 30 ->
  exists s, EncodeBase58 v = Ok s /\ Forall (fun c => c ∈ pszBase58) s /\ DecodeBase58 s = Ok (Some v).
Proof.
  intros Hv Hlen. destruct (canonical_split v) as (z & p & -> & Hc). apply Forall_app in Hv as [_ Hp]. rewrite length_app in Hlen.
  destruct (EncodeBase58_digits z p Hp Hc ltac:(lia)) as (l & -> & Hcl & Hl & E & Hll). eexists. split; [done|].
  split; [eapply Forall_impl; [by apply text_chars|]; cbn; tauto|].
  destruct (DecodeBase58_digits z l Hl Hcl) as (p' & -> & Hc' & Hp' & E').
  { pose proof (Z.div_le_upper_bound (Z.of_nat (length p) * 138) 100 (2 * 2 ^ 30 - 1)). lia. }
  do 3 f_equal. apply (canonical_inj 256); try done. congruence.
Qed.

(** The part of the string between spaces. *)
Fixpoint word (s : list Z) : list Z :=
  match s with
  | c :: s' => if isspace c then [] else c :: word s'
  | [] => []
  end.

Lemma word_app a b : Forall (fun c => isspace c = false) a -> word (a ++ b) = a ++ word b.
Proof. induction 1 as [|c a Hc _ IH]; [done|]. cbn. by rewrite Hc, IH. Qed.

Lemma DecodeBase58_inv s : Z.of_nat (length s) <= 2 ^ 30 -> exists r, DecodeBase58 s = Ok r /\
  forall v, r = Some v -> Forall is_byte v /\ EncodeBase58 v = Ok (word (skip_space (c_str s))).
Proof.
  intros Hlen. unfold DecodeBase58, DecodeBase58_psz. set (t := skip_space (c_str s)).
  assert (length t <= length s)%nat as Ht.
  { unfold t. transitivity (length (c_str s)).
    - generalize (c_str s). intros l. induction l as [|c l IH]; [done|]. cbn. destruct (isspace c); cbn; lia.
    - clear. induction s as [|c s IH]; [done|]. cbn. destruct (c =? 0); cbn; lia. }
  clearbody t. destruct (skip_split 49 t) as (z & q & -> & -> & Hq). rewrite length_app in Ht.
  destruct (size_ok (Z.of_nat (length q)) 733 1000) as [_ ->]; [lia..|].
  assert (0 <= Z.of_nat (length q) * 733 / 1000 <= 2 ^ 30 - 1) as H0 by (split; [apply Z.div_pos; lia|apply Z.div_le_upper_bound; lia]).
  destruct (new_vector_ok (Z.of_nat (length q) * 733 / 1000 + 1) 256) as (ds & -> & Hl' & Hd & Hv); [lia..|]. cbn [mbind result_bind].
  destruct (decode_loop_spec q ds 0 Hd) as ([[[ds' n] rest]|] & -> & H); [|..|by eexists].
  { rewrite Hv, Hl', Z2Nat.id by lia. pose proof (room256 (Z.of_nat (length q)) ltac:(lia)). lia. }
  cbn [mbind result_bind]. destruct H as (l & -> & Hl & Hrest & Hlen' & Hd' & Hv'). destruct (skip_space rest) as [|c r] eqn:Es; [|by eexists].
  eexists. split; [done|]. intros v [= <-]. destruct (significant_spec 256 ds' n Hd') as (S1 & S2 & S3).
  split; [apply Forall_app; split; [by apply Forall_replicate|exact S2]|].
  destruct (EncodeBase58_digits z (significant ds' n) S2 S1) as (l' & -> & Hc' & Hl'' & E & _).
  { pose proof (significant_length ds' n). lia. }
  assert (l' = l) as ->.
  { apply (canonical_inj 58); try done; [|by rewrite E, S3, Hv', Hv]. apply canonical_map; [done|].
    destruct l as [|d l]; [done|]. cbn in *. exact Hq. }
  f_equal. rewrite app_assoc, word_app by (eapply Forall_impl; [by apply text_chars|]; cbn; tauto).
  destruct rest as [|c r]; [by rewrite app_nil_r|]. cbn. rewrite (Hrest c eq_refl). by rewrite app_nil_r.
Qed.

(** ** Addresses *)

Section addresses.
Context (Hash : list Z -> list Z) (PUBKEY_ADDRESS SCRIPT_ADDRESS : list Z) (HH : forall x, blob_wf 32 (Hash x)).

Lemma check_bytes v : Forall is_byte v -> Forall is_byte (v ++ take 4 (Hash v)) /\ length (take 4 (Hash v)) = 4%nat.
Proof.
  intros Hv. destruct (HH v) as [Hl Hb]. split; [apply Forall_app; split; [done|by apply Forall_take]|]. rewrite length_take. lia.
Qed.

Lemma check_inverse v : Forall is_byte v -> Z.of_nat (length v) < 2 ^ 29 ->
  exists s, EncodeBase58Check Hash v = Ok s /\ Forall (fun c => c ∈ pszBase58) s /\ DecodeBase58Check Hash s = Ok (Some v).
Proof.
  intros Hv Hlen. destruct (check_bytes v Hv) as [Hb H4].
  destruct (base58_inverse (v ++ take 4 (Hash v)) Hb) as (s & E & Hs & D); [rewrite length_app; lia|].
  exists s. unfold EncodeBase58Check, DecodeBase58Check. split; [done|]. split; [done|]. rewrite D. cbn [mbind result_bind].
  rewrite length_app, H4, (proj2 (Nat.ltb_ge _ _)) by lia. replace (length v + 4 - 4)%nat with (length v) by lia.
  rewrite take_app_length, drop_app_length. by rewrite bool_decide_eq_true_2.
Qed.

(** What the decoder accepts is a text with its checksum. *)
Lemma check_inv s : Z.of_nat (length s) <= 2 ^ 30 -> exists r, DecodeBase58Check Hash s = Ok r /\
  forall v, r = Some v -> Forall is_byte v /\ EncodeBase58Check Hash v = Ok (word (skip_space (c_str s))).
Proof.
  intros Hlen. destruct (DecodeBase58_inv s Hlen) as (r & E & Hr). unfold DecodeBase58Check. rewrite E. cbn [mbind result_bind].
  destruct r as [v|]; [|by eexists]. destruct (Hr v eq_refl) as [Hb Henc]. destruct (Nat.ltb_spec (length v) 4); [by eexists|].
  destruct (bool_decide_reflect (take 4 (Hash (take (length v - 4) v)) = drop (length v - 4) v)) as [Hc|]; [|by eexists].
  eexists. split; [done|]. intros v' [= <-]. split; [by apply Forall_take|]. unfold EncodeBase58Check. by rewrite Hc, take_drop.
Qed.

(** Prefixes of one byte that tell the kinds of addresses apart. *)
Record prefixes_ok : Prop := {
  po_pubkey : length PUBKEY_ADDRESS = 1%nat /\ Forall is_byte PUBKEY_ADDRESS;
  po_script : length SCRIPT_ADDRESS = 1%nat /\ Forall is_byte SCRIPT_ADDRESS;
  po_distinct : PUBKEY_ADDRESS <> SCRIPT_ADDRESS;
}.

(** A key or a script with a hash of 20 bytes. *)
Definition addressable (dest : CTxDestination) : Prop :=
  match dest with CKeyID id | CScriptID id => blob_wf 20 id | CNoDestination => False end.

Abbreviation Address := (CBitcoinAddress PUBKEY_ADDRESS SCRIPT_ADDRESS).

Lemma address_fields dest : prefixes_ok -> addressable dest ->
  length (vchVersion (Address dest)) = 1%nat /\ length (vchData (Address dest)) = 20%nat /\
  Forall is_byte (vchVersion (Address dest) ++ vchData (Address dest)) /\
  IsValid PUBKEY_ADDRESS SCRIPT_ADDRESS (Address dest) = true /\ Get PUBKEY_ADDRESS SCRIPT_ADDRESS (Address dest) = dest.
Proof.
  intros [[P1 P2] [S1 S2] Hne] Hd. destruct dest as [|id|id]; cbn in Hd |- *; [done|..]; destruct Hd as [Hl Hb]; unfold Get, IsValid; cbn [vchVersion vchData].
  all: rewrite take_ge, Hl by lia; split_and!; try done; [by apply Forall_app|..]; cbn [Nat.eqb andb orb].
  - by rewrite bool_decide_eq_true_2.
  - by rewrite bool_decide_eq_true_2.
  - by rewrite (bool_decide_eq_true_2 (SCRIPT_ADDRESS = SCRIPT_ADDRESS)), orb_true_r.
  - rewrite (bool_decide_eq_true_2 (SCRIPT_ADDRESS = SCRIPT_ADDRESS)), orb_true_r, bool_decide_eq_false_2 by done. done.
Qed.

Lemma address_inverse dest : prefixes_ok -> addressable dest ->
  exists s, ToString Hash (Address dest) = Ok s /\ Forall (fun c => c ∈ pszBase58) s /\ SetString Hash s 1 = Ok (true, Address dest).
Proof.
  intros Hp Hd. destruct (address_fields dest Hp Hd) as (H1 & H20 & Hb & _).
  destruct (check_inverse (vchVersion (Address dest) ++ vchData (Address dest)) Hb) as (s & E & Hs & D); [rewrite length_app; lia|].
  exists s. split; [exact E|]. split; [done|]. unfold SetString. rewrite D. cbn [mbind result_bind].
  rewrite length_app, H1, H20. change (1 + 20 <? 1)%nat with false. cbv iota.
  rewrite <- H1, take_app_length, drop_app_length. by destruct (Address dest).
Qed.

Lemma valid_destination a : Forall is_byte (vchVersion a ++ vchData a) -> IsValid PUBKEY_ADDRESS SCRIPT_ADDRESS a = true ->
  addressable (Get PUBKEY_ADDRESS SCRIPT_ADDRESS a) /\ Address (Get PUBKEY_ADDRESS SCRIPT_ADDRESS a) = a.
Proof.
  intros Hb Hv. unfold Get. rewrite Hv. cbn [negb]. unfold IsValid in Hv. apply andb_true_iff in Hv as [Hl Hv]. apply Nat.eqb_eq in Hl.
  apply Forall_app in Hb as [_ Hb]. destruct (bool_decide_reflect (vchVersion a = PUBKEY_ADDRESS)) as [E|_].
  - split; [by split|]. cbn. rewrite take_ge by lia. destruct a as [ve d]. cbn in *. by subst.
  - cbn [orb] in Hv. rewrite Hv. apply bool_decide_eq_true in Hv. split; [by split|]. cbn. rewrite take_ge by lia. destruct a as [ve d]. cbn in *. by subst.
Qed.

(** The object that has no destination has a text all the same, made of the checksum of nothing. *)
Lemma no_destination_text : exists s, ToString Hash (Address CNoDestination) = Ok s /\ s <> [] /\
  (exists a, SetString Hash s 1 = Ok (false, a)).
Proof.
  destruct (check_inverse [] ltac:(done)) as (s & E & Hs & D); [cbn; lia|]. exists s. split; [exact E|]. split.
  - intros ->. cbn in D. discriminate D.
  - unfold SetString. rewrite D. cbn. by eexists.
Qed.
End addresses.

(** The prefixes of the main network. *)
Definition main_PUBKEY_ADDRESS : list Z := [51].
Definition main_SCRIPT_ADDRESS : list Z := [5].

Lemma main_prefixes_ok : prefixes_ok main_PUBKEY_ADDRESS main_SCRIPT_ADDRESS.
Proof. split; [split; [done|by_decide]..|discriminate]. Qed.

(** A digest for the examples. *)
Definition b58_digest (x : list Z) : list Z := take 32 (map u8 x ++ replicate 32 7).

Lemma b58_digest_ok x : blob_wf 32 (b58_digest x).
Proof.
  unfold b58_digest. split.
  - rewrite length_take, length_app, length_replicate. lia.
  - apply Forall_take, Forall_app. split; [|by apply Forall_replicate]. apply Forall_map, Forall_forall. intros y _. by apply uwrap_range.
Qed.

(** ** Main results *)

(** Base 58.  The vectors that the encoder and the decoder allocate are large enough: neither ever
    fails its assertion.  Encoding a vector of bytes gives characters of the alphabet, which decode to the vector;
    and what decodes to a vector is, without the spaces around it, the text of that vector: no two
    texts decode to the same bytes. *)
Theorem base58_roundtrip (v s : list Z) : Forall is_byte v -> Z.of_nat (length v) <= 2 ^ 30 -> Z.of_nat (length s) <= 2 ^ 30 ->
  (exists t, EncodeBase58 v = Ok t /\ Forall (fun c => c ∈ pszBase58) t /\ DecodeBase58 t = Ok (Some v)) /\
  (exists r, DecodeBase58 s = Ok r /\
     forall w, r = Some w -> Forall is_byte w /\ EncodeBase58 w = Ok (word (skip_space (c_str s)))).
Proof. intros Hv Hl Hs. split; [by apply base58_inverse|by apply DecodeBase58_inv]. Qed.

Lemma base58_roundtrip_witness :
  DecodeBase58 [49; 49; 76; 105; 65] = Ok (Some [0; 0; 1; 2; 255]) /\
  EncodeBase58 [0; 0; 1; 2; 255] = Ok (word (skip_space (c_str [32; 49; 49; 76; 105; 65; 10; 0; 33]))).
Proof.
  destruct (base58_roundtrip [0; 0; 1; 2; 255] [32; 49; 49; 76; 105; 65; 10; 0; 33] ltac:(by_decide) ltac:(cbn; lia) ltac:(cbn; lia))
    as [(t & E & _ & D) (r & E' & Hr)].
  vm_compute in E. injection E as <-. split; [exact D|]. vm_compute in E'. injection E' as <-. apply (Hr _ eq_refl).
Defined.

(** C26: addresses.  The text of the address of a key or a script, with prefixes of one byte that tell them apart, is
    made of characters of the alphabet; reading it gives the address back, which is valid and has that destination.
    Every text that is read as a valid address is, but for spaces around it, the text of the address of its destination. *)
Theorem address_roundtrip (Hash : list Z -> list Z) (PUBKEY_ADDRESS SCRIPT_ADDRESS : list Z) (dest : CTxDestination) (s : list Z) :
  (forall x, blob_wf 32 (Hash x)) -> prefixes_ok PUBKEY_ADDRESS SCRIPT_ADDRESS -> addressable dest -> Z.of_nat (length s) <= 2 ^ 30 ->
  let address := CBitcoinAddress PUBKEY_ADDRESS SCRIPT_ADDRESS in
  (exists t, ToString Hash (address dest) = Ok t /\ Forall (fun c => c ∈ pszBase58) t /\ SetString Hash t 1 = Ok (true, address dest) /\
     IsValid PUBKEY_ADDRESS SCRIPT_ADDRESS (address dest) = true /\ Get PUBKEY_ADDRESS SCRIPT_ADDRESS (address dest) = dest) /\
  (exists ok a, SetString Hash s 1 = Ok (ok, a) /\
     (ok = true -> IsValid PUBKEY_ADDRESS SCRIPT_ADDRESS a = true ->
      addressable (Get PUBKEY_ADDRESS SCRIPT_ADDRESS a) /\
      ToString Hash (address (Get PUBKEY_ADDRESS SCRIPT_ADDRESS a)) = Ok (word (skip_space (c_str s))))).
Proof.
  intros HH Hp Hd Hs address. split.
  - destruct (address_inverse Hash _ _ HH dest Hp Hd) as (t & E & Ht & D). destruct (address_fields _ _ dest Hp Hd) as (_ & _ & _ & V & G).
    exists t. by split_and!.
  - destruct (check_inv Hash s Hs) as (r & E & Hr). unfold SetString. rewrite E. cbn [mbind result_bind].
    destruct r as [v|]; [|by eexists _, _]. destruct (Hr v eq_refl) as [Hb Henc]. destruct (length v <? 1)%nat; [by eexists _, _|].
    eexists _, _. split; [done|]. intros _ Hv.
    destruct (valid_destination PUBKEY_ADDRESS SCRIPT_ADDRESS (mk_b58 (take 1 v) (drop 1 v))) as [Ha Heq]; [cbn [vchVersion vchData]; by rewrite take_drop|done|].
    split; [exact Ha|]. unfold address. rewrite Heq. unfold ToString. cbn [vchVersion vchData]. by rewrite take_drop.
Qed.

Lemma address_roundtrip_witness :
  exists t, ToString b58_digest (CBitcoinAddress main_PUBKEY_ADDRESS main_SCRIPT_ADDRESS (CScriptID (replicate 20 9))) = Ok t /\
    SetString b58_digest t 1 = Ok (true, mk_b58 [5] (replicate 20 9)).
Proof.
  destruct (address_roundtrip b58_digest main_PUBKEY_ADDRESS main_SCRIPT_ADDRESS (CScriptID (replicate 20 9)) [] b58_digest_ok main_prefixes_ok
    ltac:(by_decide) ltac:(cbn; lia)) as [(t & E & _ & D & _) _].
  exists t. split; [exact E|exact D].
Defined.
