(* ===== verification/Names.v ===== *)
(** * Names: the name service

    Models [src/src/namecoin.cpp] and [src/src/namecoin.h]: the records of names, the
    rules for name transactions ([CNamecoinHooks::CheckInputs]), their effect on the two
    databases ([ConnectBlock], [DisconnectInputs]), the fees, the pending names and the queries.

    The databases are stores of keys and values with the class [KeyValueStore]; the block files
    and the index of transactions are parameters.  Logging, the wallet's commands and the
    enumeration of all names are left out. *)
From Stdlib Require Import SpecFloat.
From S2P Require Import Prelude Endian Uint256 Serialize Amount Transaction Chain Script Standard Coins Pow Base58.

(** ** Databases *)

(** Berkeley DB, as [CDB] of [src/src/wallet/db.h] uses it: [put] and [del] may fail. *)
Class KeyValueStore (V DB : Type) : Type := {
  kv_read : list Z -> DB -> option V;
  kv_exists : list Z -> DB -> bool;
  kv_write : list Z -> V -> DB -> option DB;
  kv_erase : list Z -> DB -> option DB;
}.

Class KeyValueLaws (V DB : Type) {kv : KeyValueStore V DB} : Prop := {
  kv_exists_law k d : kv_exists k d = bool_decide (is_Some (kv_read k d));
  kv_write_law k v d d' : kv_write k v d = Some d' -> forall k', kv_read k' d' = if bool_decide (k' = k) then Some v else kv_read k' d;
  kv_erase_law k d d' : kv_erase k d = Some d' -> forall k', kv_read k' d' = if bool_decide (k' = k) then None else kv_read k' d;
}.

(** A finite map is such a store; it never fails. *)
#[export] Instance map_store {V} : KeyValueStore V (gmap (list Z) V) := {
  kv_read k d := d !! k;
  kv_exists k d := bool_decide (is_Some (d !! k));
  kv_write k v d := Some (<[k := v]> d);
  kv_erase k d := Some (delete k d);
}.

#[export] Instance map_store_laws {V} : KeyValueLaws V (gmap (list Z) V).
Proof.
  split.
  - done.
  - intros k v d d' [= <-] k'. cbn. destruct (bool_decide_reflect (k' = k)) as [->|]; [by rewrite lookup_insert_eq|by rewrite lookup_insert_ne].
  - intros k d d' [= <-] k'. cbn. destruct (bool_decide_reflect (k' = k)) as [->|]; [by rewrite lookup_delete_eq|by rewrite lookup_delete_ne].
Qed.

(** ** Records *)

Module CDiskTxPos.
Record t : Type := mk { block : CDiskBlockPos.t; nTxOffset : Z }.
Definition null : t := mk CDiskBlockPos.null 0.
Definition codec : Codec t :=
  ser_iso (fun p => (block p, nTxOffset p)) (fun p => mk p.1 p.2) (ser_pair CDiskBlockPos.codec (ser_varint 32)).
(** [operator==]: the one of the base class, so that the offset does not count. *)
Definition op_eq (a b : t) : bool := CDiskBlockPos.op_eq (block a) (block b).
End CDiskTxPos.

Record CNameIndex : Type := mk_name_index {
  ni_txPos : CDiskTxPos.t;
  ni_nHeight : Z;
  ni_op : Z;
  ni_value : list Z;
}.

Record CNameRecord : Type := mk_name_record {
  vtxPos : list CNameIndex;
  nExpiresAt : Z;
  nLastActiveChainIndex : Z;
}.

Definition new_record : CNameRecord := mk_name_record [] 0 0.

Definition deleted (r : CNameRecord) : bool :=
  match last (vtxPos r) with
  | Some x => ni_op x =? OP_NAME_DELETE
  | None => true
  end.

Section codecs.
Context (be : bool).

Definition name_index_codec : Codec CNameIndex :=
  ser_iso (fun x => (ni_txPos x, (ni_nHeight x, (ni_op x, ni_value x)))) (fun '(p, (h, (o, v))) => mk_name_index p h o v)
    (ser_pair CDiskTxPos.codec (ser_pair (ser_int32 be) (ser_pair (ser_int32 be) (ser_byte_vector be)))).

Definition name_record_codec : Codec CNameRecord :=
  ser_iso (fun r => (vtxPos r, (nExpiresAt r, nLastActiveChainIndex r))) (fun '(v, (e, l)) => mk_name_record v e l)
    (ser_pair (ser_vector be 48 name_index_codec) (ser_pair (ser_int32 be) (ser_int32 be))).
End codecs.

(** What can go wrong: an exception of a script number, an assertion, an index out of range,
    a null pointer of the block index, a fault of the address texts. *)
Inductive name_fault : Set :=
| name_exception (e : scriptnum_error)
| name_assertion
| name_out_of_range
| name_index (e : fault)
| name_address (e : base58_fault).

Definition script_step {A} (r : result scriptnum_error A) : result name_fault A :=
  match r with Ok a => Ok a | Err e => Err (name_exception e) end.
Definition index_step {A} (r : result fault A) : result name_fault A :=
  match r with Ok a => Ok a | Err e => Err (name_index e) end.
Definition address_step {A} (r : result base58_fault A) : result name_fault A :=
  match r with Ok a => Ok a | Err e => Err (name_address e) end.

(** [NameTxInfo] with the members that [DecodeNameTx] sets. *)
Record decoded_name : Type := mk_decoded {
  dn_info : NameTxInfo;
  dn_nOut : nat;
  dn_strAddress : list Z;
}.
Definition dn_name (d : decoded_name) : list Z := nti_name (dn_info d).
Definition dn_op (d : decoded_name) : Z := nti_op (dn_info d).
Definition dn_days (d : decoded_name) : Z := nti_nRentalDays (dn_info d).

(** The members after the constructor. *)
Definition null_decoded : decoded_name := mk_decoded {| nti_name := []; nti_value := []; nti_nRentalDays := -1; nti_op := -1 |} 0 [].

Definition INT_MAX : Z := 2 ^ 31 - 1.
Definition RELEASE_HEIGHT : Z := Z.shiftl 1 16.
Definition NAMEINDEX_CHAIN_SIZE : Z := 1000.

(** ** Fees *)

(** The [double]s of the fee: conversion from an integer, and to [int64_t], which gives the least integer for
    what is not a number. *)
Definition double_of (m : Z) : spec_float := binary_normalize 53 1024 m 0 false.
Definition int64_of (f : spec_float) : Z :=
  match f with
  | S754_zero _ => 0
  | S754_finite s m e =>
      let a := if 0 <=? e then Z.pos m * 2 ^ e else Z.pos m / 2 ^ (- e) in
      if s then - a else a
  | _ => - 2 ^ 63
  end.

(** [sqrt(x) * CENT] as a [CAmount] *)
Definition sqrt_cents (x : Z) : Z := int64_of (SFmul 53 1024 (SFsqrt 53 1024 (double_of x)) (double_of CENT)).

Section fees.
Context (h : heap).

(** The fee that a proof-of-work block with [nMint] asks for. *)
Definition name_fee (nMint nRentalDays op : Z) (name value : list Z) : Z :=
  let txMinFee := Z.quot (i64 (nRentalDays * nMint)) (365 * 100) in
  let txMinFee := if op =? OP_NAME_NEW then i64 (txMinFee + Z.quot nMint 100) else txMinFee in
  let txMinFee := sqrt_cents (Z.quot txMinFee CENT) in
  let txMinFee := i64 (txMinFee + i32 (Z.of_nat (length name + length value) / 128) * CENT) in
  let txMinFee := i64 (txMinFee + (CENT - 1)) in
  let txMinFee := i64 (Z.quot txMinFee CENT * CENT) in
  let txMinFee := Z.quot txMinFee 100 in
  Z.max txMinFee MIN_TX_FEE.

Definition GetNameOpFee (pindex : N) (nRentalDays op : Z) (name value : list Z) : result fault Z :=
  if op =? OP_NAME_DELETE then mret MIN_TX_FEE
  else
    lastPoW ← last_index h pindex false;
    b ← deref h lastPoW;
    mret (name_fee (CBlockIndex.nMint b) nRentalDays op name value).

Fixpoint fee_loop (n : nat) (nti : NameTxInfo) (txFee : Z) (lastPoW : N) : result fault bool :=
  match n with
  | O => mret false
  | S n' =>
      b ← deref h lastPoW;
      match CBlockIndex.pprev b with
      | None => mret false
      | Some q =>
          netFee ← GetNameOpFee lastPoW (nti_nRentalDays nti) (nti_op nti) (nti_name nti) (nti_value nti);
          if txFee >=? netFee then mret true
          else next ← last_index h q false; fee_loop n' nti txFee next
      end
  end.

Definition IsNameFeeEnough (nti : NameTxInfo) (pindexBlock : N) (txFee : Z) : result fault bool :=
  lastPoW ← last_index h pindexBlock false;
  fee_loop 10 nti txFee lastPoW.
End fees.

(** ** Name transactions *)

Section decode.
Context (be : bool) (Hash Hash160 : list Z -> list Z) (PUBKEY_ADDRESS SCRIPT_ADDRESS : list Z).

(** The text of the destination of the script after the name.  A script without a destination has a text
    as well: the empty one is overwritten. *)
Definition name_address_text (script : list Z) (pc : nat) : result name_fault (list Z) :=
  dest ← script_step (ExtractDestination be Hash160 (drop pc script));
  address_step (ToString Hash (CBitcoinAddress PUBKEY_ADDRESS SCRIPT_ADDRESS (default CNoDestination dest))).

Fixpoint decode_outputs (fExtractAddress : bool) (i : nat) (outs : list CTxOut.t) (found : option decoded_name)
    : result name_fault (option decoded_name) :=
  match outs with
  | [] => mret found
  | o :: outs' =>
      r ← script_step (DecodeNameScript be (CTxOut.scriptPubKey o) 0);
      match r with
      | None => decode_outputs fExtractAddress (S i) outs' found
      | Some (nti, pc) =>
          match found with
          | Some _ => mret None
          | None =>
              strAddress ← (if fExtractAddress then name_address_text (CTxOut.scriptPubKey o) pc else mret []);
              decode_outputs fExtractAddress (S i) outs' (Some (mk_decoded nti i strAddress))
          end
      end
  end.

(** [None] is the result [false].  Whether the address is the wallet's is left out. *)
Definition DecodeNameTx (tx : CTransaction) (fExtractAddress : bool) : result name_fault (option decoded_name) :=
  if negb (Transaction.nVersion tx =? NAMECOIN_TX_VERSION) then mret None
  else decode_outputs fExtractAddress 0 (vout tx) None.

(** [None] is the exception that there is no name. *)
Definition IndexOfNameOutput (tx : CTransaction) : result name_fault (option nat) :=
  d ← DecodeNameTx tx false; mret (match d with Some d => Some (dn_nOut d) | None => None end).

Definition IsNameScript (scr : list Z) : result name_fault bool :=
  r ← script_step (DecodeNameScript be scr 0); mret (bool_decide (is_Some r)).
End decode.

(** ** The two databases *)

Section store.
Context {D A : Type} `{names : KeyValueStore CNameRecord D} `{addresses : KeyValueStore (gset (list Z)) A}.

(** [CNameDB::ReadName]: [None] is the result [false]. *)
Definition ReadName (name : list Z) (d : D) : result name_fault (option CNameRecord) :=
  match kv_read name d with
  | None => mret None
  | Some rec =>
      let s := i32 (Z.of_nat (length (vtxPos rec))) in
      if (s >? 0) && (nLastActiveChainIndex rec >=? s) then Err name_assertion else mret (Some rec)
  end.

(** [if (dbName.ExistsName(name) && !dbName.ReadName(name, nameRec)) ...]: [None] when reading fails. *)
Definition read_or_new (name : list Z) (d : D) : result name_fault (option CNameRecord) :=
  if kv_exists name d then ReadName name d else mret (Some new_record).

(** [CNameAddressDB] *)
Definition WriteSingleName (address name : list Z) (a : A) : bool * A :=
  let names := default ∅ (kv_read address a) in
  if bool_decide (name ∈ names) then (false, a)
  else match kv_write address ({[name]} ∪ names) a with Some a' => (true, a') | None => (false, a) end.

Definition EraseSingleName (address name : list Z) (a : A) : bool * A :=
  match kv_read address a with
  | None => (false, a)
  | Some names =>
      if bool_decide (name ∈ names) then
        match kv_write address (names ∖ {[name]}) a with Some a' => (true, a') | None => (false, a) end
      else (false, a)
  end.

Definition MoveName (oldAddress newAddress name : list Z) (a : A) : bool * A :=
  if bool_decide (newAddress = oldAddress) then (true, a)
  else
    let '(ret, a) := if bool_decide (oldAddress = []) then (true, a) else EraseSingleName oldAddress name a in
    if bool_decide (newAddress = []) then (ret, a)
    else if ret then WriteSingleName newAddress name a else (false, a).
End store.

(** ** The hooks *)

(** The databases and the names that wait in the memory pool. *)
Record name_state (D A : Type) : Type := mk_names {
  ns_names : D;
  ns_addresses : A;
  mapNamePending : gmap (list Z) (gset (list Z));
}.
Arguments mk_names {D A}.
Arguments ns_names {D A}.
Arguments ns_addresses {D A}.
Arguments mapNamePending {D A}.

Record nameTempProxy : Type := mk_proxy {
  np_nTime : Z;
  np_name : list Z;
  np_op : Z;
  np_hash : list Z;
  np_ind : CNameIndex;
  np_address : list Z;
  np_prev_address : list Z;
}.

Section hooks.
Context (be : bool) (Hash Hash160 : list Z -> list Z) (PUBKEY_ADDRESS SCRIPT_ADDRESS : list Z).
(** The transaction at a position of the block files, the position of a transaction, the height of the
    active chain and the option [-nameindexchainsize]. *)
Context (GetTransaction : CDiskTxPos.t -> option CTransaction) (ReadTxIndex : list Z -> option CDiskTxPos.t)
  (chain_height maxSize : Z) (h : heap).
Context {D A : Type} `{names : KeyValueStore CNameRecord D} `{addresses : KeyValueStore (gset (list Z)) A}.

Abbreviation decode := (DecodeNameTx be Hash Hash160 PUBKEY_ADDRESS SCRIPT_ADDRESS).

(** The loop of [CalculateExpiresAt]: [None] when a transaction cannot be read or decoded. *)
Fixpoint rental_sum (l : list CNameIndex) (sum : Z) : result name_fault (option Z) :=
  match l with
  | [] => mret (Some sum)
  | x :: l' =>
      match GetTransaction (ni_txPos x) with
      | None => mret None
      | Some tx =>
          d ← decode tx false;
          match d with
          | None => mret None
          | Some nti => rental_sum l' (i64 (sum + i32 (dn_days nti * 175)))
          end
      end
  end.

(** The record with its [nExpiresAt]; [None] is the result [false]. *)
Definition CalculateExpiresAt (rec : CNameRecord) : result name_fault (option CNameRecord) :=
  if deleted rec then mret (Some (mk_name_record (vtxPos rec) 0 (nLastActiveChainIndex rec)))
  else
    let i := u32 (nLastActiveChainIndex rec) in
    r ← rental_sum (drop (Z.to_nat i) (vtxPos rec)) 0;
    match r with
    | None => mret None
    | Some sum =>
        match vtxPos rec !! Z.to_nat i with
        | None => Err name_out_of_range
        | Some x =>
            let sum := i64 (sum + ni_nHeight x) in
            mret (Some (mk_name_record (vtxPos rec) (if sum >? INT_MAX then INT_MAX else i32 sum) (nLastActiveChainIndex rec)))
        end
    end.

Definition NameActive (name : list Z) (currentBlockHeight : Z) (d : D) : result name_fault bool :=
  r ← ReadName name d;
  match r with
  | None => mret false
  | Some rec =>
      let height := if currentBlockHeight <? 0 then chain_height else currentBlockHeight in
      mret (negb (deleted rec) && (height <=? nExpiresAt rec))
  end.

Definition GetFirstTxOfName (name : list Z) (d : D) : result name_fault (option CTransaction) :=
  r ← ReadName name d;
  match r with
  | None => mret None
  | Some rec =>
      match vtxPos rec with
      | [] => mret None
      | _ =>
          match vtxPos rec !! Z.to_nat (u64 (nLastActiveChainIndex rec)) with
          | None => Err name_out_of_range
          | Some x => mret (GetTransaction (ni_txPos x))
          end
      end
  end.

Definition GetLastTxOfName (name : list Z) (d : D) : result name_fault (option (CTransaction * CNameRecord)) :=
  r ← ReadName name d;
  match r with
  | None => mret None
  | Some rec =>
      if deleted rec then mret None
      else match last (vtxPos rec) with
           | None => mret None
           | Some x => mret ((fun tx => (tx, rec)) <$> GetTransaction (ni_txPos x))
           end
  end.

(** Some input spends an output of the transaction with that hash. *)
Definition spends (tx : CTransaction) (hash : list Z) : bool :=
  existsb (fun i => Uint256.op_eq (COutPoint.hash (CTxIn.prevout i)) hash) (vin tx).

(** [found] and [prev_nti]: [None] when the last transaction of the name cannot be read or decoded. *)
Definition last_known (tx : CTransaction) (rec : CNameRecord) : result name_fault (option (bool * decoded_name)) :=
  match last (vtxPos rec) with
  | Some x =>
      if deleted rec then mret (Some (false, null_decoded))
      else
        match GetTransaction (ni_txPos x) with
        | None => mret None
        | Some lastKnownNameTx =>
            d ← decode lastKnownNameTx true;
            match d with
            | None => mret None
            | Some prev => mret (Some (spends tx (GetHash Hash be lastKnownNameTx), prev))
            end
        end
  | None => mret (Some (false, null_decoded))
  end.

(** The cases of the operation: the transaction is valid. *)
Definition check_op (nti : NameTxInfo) (found : bool) (prev : decoded_name) (pindexBlock : N) (nHeight txFee : Z) (d : D) : result name_fault bool :=
  let op := nti_op nti in
  if op =? OP_NAME_NEW then
    fee ← index_step (IsNameFeeEnough h nti pindexBlock txFee);
    if negb fee then mret false
    else active ← NameActive (nti_name nti) nHeight d; mret (negb active)
  else if (op =? OP_NAME_UPDATE) || (op =? OP_NAME_DELETE) then
    fee ← (if op =? OP_NAME_UPDATE then index_step (IsNameFeeEnough h nti pindexBlock txFee) else mret true);
    if negb fee then mret false
    else if negb found || (negb (dn_op prev =? OP_NAME_NEW) && negb (dn_op prev =? OP_NAME_UPDATE)) then mret false
    else if negb (bool_decide (dn_name prev = nti_name nti)) then mret false
    else NameActive (nti_name nti) nHeight d
  else mret false.

(** The result and [vName]. *)
Definition CheckInputs (tx : CTransaction) (pindexBlock : N) (pos : CDiskTxPos.t) (txFee : Z) (vName : list nameTempProxy) (d : D)
    : result name_fault (bool * list nameTempProxy) :=
  if negb (Transaction.nVersion tx =? NAMECOIN_TX_VERSION) then mret (false, vName)
  else
    r ← decode tx true;
    match r with
    | None => mret (false, vName)
    | Some nti =>
        b ← index_step (deref h pindexBlock);
        rec ← read_or_new (dn_name nti) d;
        match rec with
        | None => mret (false, vName)
        | Some rec =>
            r ← last_known tx rec;
            match r with
            | None => mret (false, vName)
            | Some (found, prev) =>
                ok ← check_op (dn_info nti) found prev pindexBlock (CBlockIndex.nHeight b) txFee d;
                if negb ok then mret (false, vName)
                else
                  let ind := mk_name_index pos (CBlockIndex.nHeight b) 0 (nti_value (dn_info nti)) in
                  mret (true, vName ++
                    [mk_proxy (Transaction.nTime tx) (dn_name nti) (dn_op nti) (GetHash Hash be tx) ind
                       (if negb (dn_op nti =? OP_NAME_DELETE) then dn_strAddress nti else [])
                       (if negb (dn_op prev =? OP_NAME_DELETE) then dn_strAddress prev else [])])
            end
        end
    end.

(** The loop of [ConnectBlock] of [src/src/validation.cpp] that collects the name transactions; the results are
    ignored. *)
Fixpoint collect_names (l : list (CTransaction * CDiskTxPos.t * Z)) (pindex : N) (vName : list nameTempProxy) (d : D)
    : result name_fault (list nameTempProxy) :=
  match l with
  | [] => mret vName
  | (tx, pos, fee) :: l' => '(_, vName) ← CheckInputs tx pindex pos fee vName d; collect_names l' pindex vName d
  end.

(** *** Connecting a block *)

Definition remove_pending (name hash : list Z) (m : gmap (list Z) (gset (list Z))) : gmap (list Z) (gset (list Z)) :=
  match m !! name with
  | None => m
  | Some s =>
      let s := s ∖ {[hash]} in
      if bool_decide (s = ∅) then delete name m else <[name := s]> m
  end.

(** [vtxPos.back().op = op] *)
Definition set_last_op (op : Z) (l : list CNameIndex) : list CNameIndex :=
  match last l with
  | Some x => take (length l - 1) l ++ [mk_name_index (ni_txPos x) (ni_nHeight x) op (ni_value x)]
  | None => l
  end.

(** The record with the operation added, before its expiration is computed. *)
Definition append_op (i : nameTempProxy) (rec : CNameRecord) : result name_fault CNameRecord :=
  let v := vtxPos rec ++ [np_ind i] in
  let size := Z.of_nat (length v) in
  let index := if np_op i =? OP_NAME_NEW then i32 (size - 1) else nLastActiveChainIndex rec in
  if (size >? maxSize) && (u64 (size - index + 1) <=? maxSize) then
    let d := i32 (size - maxSize) in
    let index := i32 (index - d) in
    if index >=? 0 then mret (mk_name_record (set_last_op (np_op i) (drop (Z.to_nat d) v)) (nExpiresAt rec) index)
    else Err name_assertion
  else mret (mk_name_record (set_last_op (np_op i) v) (nExpiresAt rec) index).

Fixpoint connect_loop (l : list nameTempProxy) (sNameNew : gset (list Z)) (s : name_state D A) : result name_fault (bool * name_state D A) :=
  match l with
  | [] => mret (true, s)
  | i :: l' =>
      let pending := remove_pending (np_name i) (np_hash i) (mapNamePending s) in
      let s := mk_names (ns_names s) (ns_addresses s) pending in
      r ← read_or_new (np_name i) (ns_names s);
      match r with
      | None => mret (false, s)
      | Some rec =>
          if (np_op i =? OP_NAME_NEW) && bool_decide (np_name i ∈ sNameNew) then connect_loop l' sNameNew s
          else
            rec ← append_op i rec;
            r ← CalculateExpiresAt rec;
            match r with
            | None => mret (false, s)
            | Some rec =>
                match kv_write (np_name i) rec (ns_names s) with
                | None => mret (false, s)
                | Some d =>
                    let '(ok, a) := MoveName (np_prev_address i) (np_address i) (np_name i) (ns_addresses s) in
                    let s := mk_names d a pending in
                    if negb ok then mret (false, s)
                    else connect_loop l' (if np_op i =? OP_NAME_NEW then {[np_name i]} ∪ sNameNew else sNameNew) s
                end
            end
      end
  end.

Definition ConnectBlock (vName : list nameTempProxy) (s : name_state D A) : result name_fault (bool * name_state D A) :=
  match vName with
  | [] => mret (true, s)
  | _ => connect_loop vName ∅ s
  end.

(** *** Disconnecting a transaction *)

(** Whether a position occurs before the last one. *)
Definition known_before (pos : CDiskTxPos.t) (l : list CNameIndex) : bool :=
  existsb (fun x => CDiskTxPos.op_eq pos (ni_txPos x)) (take (length l - 1) l).

(** The index of the last [OP_NAME_NEW], or what it was. *)
Fixpoint last_new (n : nat) (l : list CNameIndex) (index : Z) : Z :=
  match n with
  | O => index
  | S i => match l !! i with
           | Some x => if ni_op x =? OP_NAME_NEW then Z.of_nat i else last_new i l index
           | None => last_new i l index
           end
  end.

(** The record without its last operation, before its expiration is computed. *)
Definition pop_op (op : Z) (rec : CNameRecord) : CNameRecord :=
  let v := take (length (vtxPos rec) - 1) (vtxPos rec) in
  mk_name_record v (nExpiresAt rec) (if op =? OP_NAME_NEW then last_new (length v) v (nLastActiveChainIndex rec) else nLastActiveChainIndex rec).

(** The address of the last transaction of a record; [None] when it cannot be read or decoded. *)
Definition last_address (rec : CNameRecord) : result name_fault (option (list Z)) :=
  match last (vtxPos rec) with
  | None => mret (Some [])
  | Some x =>
      if deleted rec then mret (Some [])
      else match GetTransaction (ni_txPos x) with
           | None => mret None
           | Some prevTx =>
               d ← decode prevTx true;
               mret (match d with Some p => Some (dn_strAddress p) | None => None end)
           end
  end.

(** The record is taken back: it is written even when it has become empty and has been erased.  Whether that
    succeeds, and the database. *)
Definition write_popped (name : list Z) (op : Z) (rec : CNameRecord) (d : D) : result name_fault (bool * D) :=
  let rec := pop_op op rec in
  match (match vtxPos rec with [] => kv_erase name d | _ => Some d end) with
  | None => mret (false, d)
  | Some d =>
      r ← CalculateExpiresAt rec;
      mret (match r with
            | Some rec => match kv_write name rec d with Some d => (true, d) | None => (false, d) end
            | None => (false, d)
            end)
  end.

Definition DisconnectInputs (tx : CTransaction) (s : name_state D A) : result name_fault (bool * name_state D A) :=
  if negb (Transaction.nVersion tx =? NAMECOIN_TX_VERSION) then mret (false, s)
  else
    r ← decode tx true;
    match r with
    | None => mret (false, s)
    | Some nti =>
        r ← ReadName (dn_name nti) (ns_names s);
        match r with
        | None => mret (false, s)
        | Some rec =>
            match last (vtxPos rec) with
            | None =>
                match kv_erase (dn_name nti) (ns_names s) with
                | Some d => mret (true, mk_names d (ns_addresses s) (mapNamePending s))
                | None => mret (false, s)
                end
            | Some x =>
                match ReadTxIndex (GetHash Hash be tx) with
                | None => mret (false, s)
                | Some postx =>
                    if negb (CDiskTxPos.op_eq postx (ni_txPos x)) then
                      if known_before postx (vtxPos rec) then Err name_assertion else mret (false, s)
                    else
                      '(ok, d) ← write_popped (dn_name nti) (dn_op nti) rec (ns_names s);
                      let s := mk_names d (ns_addresses s) (mapNamePending s) in
                      if negb ok then mret (false, s)
                      else
                        let oldAddress := if negb (dn_op nti =? OP_NAME_DELETE) then dn_strAddress nti else [] in
                        r ← last_address (pop_op (dn_op nti) rec);
                        match r with
                        | None => mret (false, s)
                        | Some newAddress =>
                            let '(ok, a) := MoveName oldAddress newAddress (dn_name nti) (ns_addresses s) in
                            mret (ok, mk_names d a (mapNamePending s))
                        end
                end
            end
        end
    end.

(** *** Pending names *)

Context {V : Type} `{coins : CoinsView V}.

(** With the view of the coins, which may cache what it reads. *)
Definition CheckPendingNames (tx : CTransaction) (view : V) (s : name_state D A) : V * result name_fault bool :=
  let '(view, c) := GetCoins view (GetHash Hash be tx) in
  (view,
   match c, vout tx with
   | Some _, _ => mret false
   | None, [] => mret false
   | None, _ =>
       r ← decode tx false;
       mret (match r with
             | None => false
             | Some nti => negb (bool_decide (is_Some (mapNamePending s !! dn_name nti)))
             end)
   end).

Definition AddToPendingNames (tx : CTransaction) (view : V) (s : name_state D A) : V * result name_fault (name_state D A) :=
  let '(view, c) := GetCoins view (GetHash Hash be tx) in
  (view,
   match c, vout tx with
   | Some _, _ => mret s
   | None, [] => mret s
   | None, _ =>
       r ← decode tx false;
       mret (match r with
             | None => s
             | Some nti =>
                 let pending := mapNamePending s in
                 mk_names (ns_names s) (ns_addresses s)
                   (<[dn_name nti := {[GetHash Hash be tx]} ∪ default ∅ (pending !! dn_name nti)]> pending)
             end)
   end).

(** *** Queries *)

Definition getNameValue (name : list Z) (d : D) : result name_fault (option (list Z)) :=
  if negb (kv_exists name d) then mret None
  else
    r ← GetLastTxOfName name d;
    match r with
    | None => mret None
    | Some (tx, _) =>
        nti ← decode tx true;
        match nti with
        | None => mret None
        | Some nti => active ← NameActive name (-1) d; mret (if active : bool then Some (nti_value (dn_info nti)) else None)
        end
    end.

Definition GetNameValue (name : list Z) (d : D) : result name_fault (option (list Z)) :=
  active ← NameActive name (-1) d;
  if negb active then mret None
  else
    r ← ReadName name d;
    mret (match r with
          | None => None
          | Some rec => match last (vtxPos rec) with Some x => Some (ni_value x) | None => None end
          end).

Inductive address_error : Set := name_not_found | name_unreadable | invalid_address | name_expired.

Definition GetNameCurrentAddress (name : list Z) (d : D) : result name_fault (result address_error CBase58Data) :=
  if negb (kv_exists name d) then mret (Err name_not_found)
  else
    r ← GetLastTxOfName name d;
    match r with
    | None => mret (Err name_unreadable)
    | Some (tx, _) =>
        nti ← decode tx true;
        match nti with
        | None => mret (Err name_unreadable)
        | Some nti =>
            '(_, address) ← address_step (SetString Hash (dn_strAddress nti) 1);
            if negb (IsValid PUBKEY_ADDRESS SCRIPT_ADDRESS address) then mret (Err invalid_address)
            else active ← NameActive name (-1) d; mret (if active : bool then Ok address else Err name_expired)
        end
    end.
End hooks.
