(* ===== verification/NameFacts.v ===== *)
(** * NameFacts: what the name service guarantees

    Theorems on [Names]: records on disk, the shape of the records, the rules for name transactions, the
    agreement of the two databases when a block is connected, and the undoing of an operation. *)
From S2P Require Import Prelude Endian Uint256 Serialize Amount Transaction Chain Script Standard Coins Pow Base58 Names.

(** ** Records on disk *)

#[local] Instance varint_int_lawful : Lawful (is_u 31) CDiskBlockPos.ser_varint_int.
Proof.
  assert (forall n, is_u 31 n -> is_u 32 n) as Hu by (unfold is_u; lia).
  split.
  - intros t s Ht. apply (law_append (c := ser_varint 32)); by apply Hu.
  - intros t Ht. apply (law_bytes (c := ser_varint 32)); by apply Hu.
  - intros t s Ht. apply (law_size (c := ser_varint 32)); by apply Hu.
  - intros t rest Ht. pose proof (law_read (c := ser_varint 32) t rest (Hu t Ht)) as E.
    cbn [Unserialize CDiskBlockPos.ser_varint_int]. change (bytes_of CDiskBlockPos.ser_varint_int t) with (bytes_of (ser_varint 32) t).
    apply (bind_Ok (ReadVarInt 32)) with (f := fun n => mret (i32 n)) in E. rewrite E. unfold mret. cbn. rewrite swrap_small; [done|lia|]. unfold is_u, is_s in *. lia.
Qed.

Definition txpos_valid (p : CDiskTxPos.t) : Prop :=
  is_u 31 (CDiskBlockPos.nFile (CDiskTxPos.block p)) /\ is_u 32 (CDiskBlockPos.nPos (CDiskTxPos.block p)) /\ is_u 32 (CDiskTxPos.nTxOffset p).

#[local] Instance blockpos_lawful : Lawful (fun p => is_u 31 (CDiskBlockPos.nFile p) /\ is_u 32 (CDiskBlockPos.nPos p)) CDiskBlockPos.codec.
Proof. eapply iso_lawful_on; [apply _|]. by intros [f p] [? ?]. Qed.

#[export] Instance txpos_lawful : Lawful txpos_valid CDiskTxPos.codec.
Proof. eapply iso_lawful_on; [apply _|]. by intros [[f p] o] (? & ? & ?). Qed.

Definition name_index_valid (x : CNameIndex) : Prop :=
  txpos_valid (ni_txPos x) /\ is_s 32 (ni_nHeight x) /\ is_s 32 (ni_op x) /\ sized_valid (ni_value x).

#[export] Instance name_index_lawful be : Lawful name_index_valid (name_index_codec be).
Proof. eapply iso_lawful_on; [apply _|]. by intros [p h o v] (? & ? & ? & ?). Qed.

(** Records are read back from the database as they were written. *)
Definition name_record_valid (r : CNameRecord) : Prop :=
  elems_valid name_index_valid (vtxPos r) /\ is_s 32 (nExpiresAt r) /\ is_s 32 (nLastActiveChainIndex r).

#[export] Instance name_record_lawful be : Lawful name_record_valid (name_record_codec be).
Proof. eapply iso_lawful_on; [apply pair_lawful; [apply vector_lawful; [apply _|done]|apply _]|]. by intros [v e l] (? & ? & ?). Qed.

(** ** Records keep their shape *)

(** Earlier registrations, then the current one: a [name_new], updates, and possibly a [name_delete].
    [nLastActiveChainIndex] points to the [name_new]. *)
Record shape (r : CNameRecord) (pre : list CNameIndex) (first : CNameIndex) (ups tail : list CNameIndex) : Prop := {
  sh_list : vtxPos r = pre ++ first :: ups ++ tail;
  sh_index : nLastActiveChainIndex r = Z.of_nat (length pre);
  sh_first : ni_op first = OP_NAME_NEW;
  sh_ups : Forall (fun x => ni_op x = OP_NAME_UPDATE) ups;
  sh_tail : tail = [] \/ exists x, tail = [x] /\ ni_op x = OP_NAME_DELETE;
}.

Definition record_ok (r : CNameRecord) : Prop := vtxPos r = [] \/ exists pre first ups tail, shape r pre first ups tail.

Lemma set_last_op_app op l x : set_last_op op (l ++ [x]) = l ++ [mk_name_index (ni_txPos x) (ni_nHeight x) op (ni_value x)].
Proof.
  unfold set_last_op. rewrite last_snoc, length_app. cbn [length]. replace (length l + 1 - 1)%nat with (length l) by lia.
  by rewrite take_app_length.
Qed.

Lemma shape_deleted r pre first ups tail : shape r pre first ups tail -> deleted r = negb (bool_decide (tail = [])).
Proof.
  intros [El _ Hf Hu Ht]. unfold deleted. rewrite El. destruct Ht as [->|(x & -> & Hx)].
  - rewrite app_nil_r. rewrite bool_decide_eq_true_2 by done.
    destruct ups as [|u ups'] using rev_ind; [by rewrite last_snoc, Hf|].
    rewrite app_comm_cons, app_assoc, last_snoc. apply Forall_app in Hu as [_ [Hu _]%Forall_cons]. by rewrite Hu.
  - rewrite app_comm_cons, app_assoc, last_snoc, Hx. by rewrite bool_decide_eq_false_2.
Qed.

(** The entry that an operation adds. *)
Definition added (i : nameTempProxy) : CNameIndex :=
  mk_name_index (ni_txPos (np_ind i)) (ni_nHeight (np_ind i)) (np_op i) (ni_value (np_ind i)).

Definition is_name_op (op : Z) : Prop := op = OP_NAME_NEW \/ op = OP_NAME_UPDATE \/ op = OP_NAME_DELETE.

(** Adding an operation keeps the shape: the assertion on the index holds, and only entries of earlier registrations are
    forgotten. *)
Lemma append_op_ok maxSize i r : record_ok r -> 0 < maxSize < 2 ^ 31 -> Z.of_nat (length (vtxPos r)) < 2 ^ 31 - 1 -> is_name_op (np_op i) ->
  (np_op i <> OP_NAME_NEW -> deleted r = false) ->
  exists r' k, append_op maxSize i r = Ok r' /\ record_ok r' /\ vtxPos r' = drop k (vtxPos r) ++ [added i] /\
    (Z.of_nat (length (vtxPos r)) < maxSize -> k = 0%nat).
Proof.
  intros Hr Hmax Hlen Hop Hdel. unfold append_op. rewrite length_app. cbn [length].
  set (size := Z.of_nat (length (vtxPos r) + 1)). assert (size = Z.of_nat (length (vtxPos r)) + 1) as Hsize by (unfold size; lia).
  assert (exists pre first ups tail index, (if np_op i =? OP_NAME_NEW then i32 (size - 1) else nLastActiveChainIndex r) = Z.of_nat index /\
    vtxPos r ++ [added i] = pre ++ first :: ups ++ tail /\ index = length pre /\ ni_op first = OP_NAME_NEW /\
    Forall (fun x => ni_op x = OP_NAME_UPDATE) ups /\ (tail = [] \/ exists x, tail = [x] /\ ni_op x = OP_NAME_DELETE))
    as (pre & first & ups & tail & index & -> & El & -> & Hf & Hu & Ht).
  { destruct (Z.eqb_spec (np_op i) OP_NAME_NEW) as [E|E].
    - exists (vtxPos r), (added i), [], [], (length (vtxPos r)). split_and!; try done; [|by left].
      rewrite swrap_small by (unfold is_s; lia). lia.
    - specialize (Hdel E). destruct Hr as [Hr|(pre & first & ups & tail & Hs)]; [unfold deleted in Hdel; by rewrite Hr in Hdel|].
      rewrite (shape_deleted _ _ _ _ _ Hs) in Hdel. apply negb_false_iff, bool_decide_eq_true in Hdel as ->. destruct Hs as [El Hi Hf Hu _].
      rewrite app_nil_r in El. destruct Hop as [?|[Hop|Hop]]; [done|..].
      + exists pre, first, (ups ++ [added i]), [], (length pre). rewrite El, app_nil_r, <- app_assoc. split_and!; try done; [|by left].
        apply Forall_app. split; [done|]. by constructor.
      + exists pre, first, ups, [added i], (length pre). rewrite El, <- app_assoc. split_and!; try done. right. by exists (added i). }
  assert (length (vtxPos r ++ [added i]) = length (pre ++ first :: ups ++ tail)) as Hl by (by rewrite El).
  rewrite !length_app in Hl. cbn [length] in Hl.
  assert (forall k, (k <= length (vtxPos r))%nat -> set_last_op (np_op i) (drop k (vtxPos r ++ [np_ind i])) = drop k (vtxPos r ++ [added i])) as Hset.
  { intros k Hk. rewrite !drop_app_le by lia. by rewrite set_last_op_app. }
  destruct ((size >? maxSize) && (u64 (size - Z.of_nat (length pre) + 1) <=? maxSize)) eqn:Ep.
  - apply andb_true_iff in Ep as [E1 E2]. apply Z.gtb_lt in E1. apply Z.leb_le in E2. rewrite uwrap_small in E2 by (unfold is_u; lia).
    rewrite (swrap_small 32 (size - maxSize)) by (unfold is_s; lia). rewrite swrap_small by (unfold is_s; lia).
    rewrite (proj2 (Z.geb_le _ _)) by lia. eexists _, (Z.to_nat (size - maxSize)). split; [done|]. rewrite Hset by lia. cbn [vtxPos].
    split; [|split; [rewrite drop_app_le by lia; done|lia]]. right. rewrite El, drop_app_le by lia.
    exists (drop (Z.to_nat (size - maxSize)) pre), first, ups, tail. split; try done. cbn [nLastActiveChainIndex]. rewrite length_drop. lia.
  - eexists _, 0%nat. split; [done|]. cbn [vtxPos]. change (vtxPos r ++ [np_ind i]) with (drop 0 (vtxPos r ++ [np_ind i])). rewrite Hset by lia.
    rewrite !drop_0. split; [|done]. right. by exists pre, first, ups, tail.
Qed.

(** ** The index of addresses: moving a name *)

Section moving.
Context {A : Type} {addresses : KeyValueStore (gset (list Z)) A} {alaws : KeyValueLaws (gset (list Z)) A}
  (addresses_written : forall address s (a : A), is_Some (kv_write address s a)).

Definition names_at (address : list Z) (a : A) : gset (list Z) := default ∅ (kv_read address a).

Lemma names_at_write address s a a' address' : kv_write address s a = Some a' ->
  names_at address' a' = if bool_decide (address' = address) then s else names_at address' a.
Proof. intros Hw. unfold names_at. rewrite (kv_write_law _ _ _ _ Hw). by destruct (bool_decide _). Qed.

Lemma EraseSingleName_ok address name a : name ∈ names_at address a -> exists a', EraseSingleName address name a = (true, a') /\
  forall name' address', name' ∈ names_at address' a' <-> name' ∈ names_at address' a /\ ~ (name' = name /\ address' = address).
Proof.
  intros Hin. unfold EraseSingleName, names_at in *. destruct (kv_read address a) as [s|] eqn:E; [|set_solver].
  rewrite bool_decide_eq_true_2 by done. destruct (addresses_written address (s ∖ {[name]}) a) as [a' Hw]. rewrite Hw. exists a'. split; [done|].
  intros name' address'. fold (names_at address' a') (names_at address' a). rewrite (names_at_write _ _ _ _ address' Hw).
  destruct (bool_decide_reflect (address' = address)) as [->|]; [unfold names_at; rewrite E; set_solver|naive_solver].
Qed.

Lemma WriteSingleName_ok address name a : name ∉ names_at address a -> exists a', WriteSingleName address name a = (true, a') /\
  forall name' address', name' ∈ names_at address' a' <-> name' ∈ names_at address' a \/ (name' = name /\ address' = address).
Proof.
  intros Hin. unfold WriteSingleName. fold (names_at address a). rewrite bool_decide_eq_false_2 by done.
  destruct (addresses_written address ({[name]} ∪ names_at address a) a) as [a' Hw]. rewrite Hw. exists a'. split; [done|].
  intros name' address'. rewrite (names_at_write _ _ _ _ address' Hw). destruct (bool_decide_reflect (address' = address)) as [->|]; set_solver.
Qed.

(** Moving a name from where it is listed. *)
Lemma MoveName_ok old new name a : (forall address, address <> [] -> name ∈ names_at address a <-> address = old) ->
  exists a', MoveName old new name a = (true, a') /\
    forall name' address, address <> [] -> name' ∈ names_at address a' <-> if bool_decide (name' = name) then address = new else name' ∈ names_at address a.
Proof.
  intros Hold. unfold MoveName. destruct (bool_decide_reflect (new = old)) as [->|Hne].
  { exists a. split; [done|]. intros name' address Hna. destruct (bool_decide_reflect (name' = name)) as [->|]; [by apply Hold|done]. }
  assert (exists a1, (if bool_decide (old = []) then (true, a) else EraseSingleName old name a) = (true, a1) /\
    forall name' address, address <> [] -> name' ∈ names_at address a1 <-> name' <> name /\ name' ∈ names_at address a) as (a1 & -> & H1).
  { destruct (bool_decide_reflect (old = [])) as [->|Ho].
    - exists a. split; [done|]. intros name' address Hna. pose proof (Hold address Hna). destruct (decide (name' = name)) as [->|]; naive_solver.
    - destruct (EraseSingleName_ok old name a) as (a1 & -> & H1); [by apply Hold|]. exists a1. split; [done|]. intros name' address Hna.
      rewrite H1. pose proof (Hold address Hna). destruct (decide (name' = name)) as [->|]; naive_solver. }
  destruct (bool_decide_reflect (new = [])) as [->|Hn].
  { exists a1. split; [done|]. intros name' address Hna. rewrite H1 by done. destruct (bool_decide_reflect (name' = name)) as [->|]; naive_solver. }
  destruct (WriteSingleName_ok new name a1) as (a2 & -> & H2); [rewrite H1 by done; naive_solver|]. exists a2. split; [done|].
  intros name' address Hna. rewrite H2, H1 by done. destruct (bool_decide_reflect (name' = name)) as [->|]; naive_solver.
Qed.
End moving.

(** A computation that at most throws the exception of a script number. *)
Definition only_throws {A} (r : result name_fault A) (P : A -> Prop) : Prop :=
  match r with Ok a => P a | Err e => exists x, e = name_exception x end.

Lemma only_throws_bind {A B} (m : result name_fault A) (f : A -> result name_fault B) P Q :
  only_throws m P -> (forall a, P a -> only_throws (f a) Q) -> only_throws (mbind f m) Q.
Proof. destruct m as [a|e]; cbn; [intros Ha H; by apply H|done]. Qed.

Lemma only_throws_impl {A} (m : result name_fault A) (P Q : A -> Prop) : (forall a, P a -> Q a) -> only_throws m P -> only_throws m Q.
Proof. destruct m as [a|e]; cbn; eauto. Qed.

Section facts.
Context (be : bool) (Hash Hash160 : list Z -> list Z) (PUBKEY_ADDRESS SCRIPT_ADDRESS : list Z).
Context (GetTransaction : CDiskTxPos.t -> option CTransaction) (ReadTxIndex : list Z -> option CDiskTxPos.t) (chain_height maxSize : Z) (h : heap).
Context {D A : Type} {names : KeyValueStore CNameRecord D} {nlaws : KeyValueLaws CNameRecord D}
  {addresses : KeyValueStore (gset (list Z)) A} {alaws : KeyValueLaws (gset (list Z)) A}.

Abbreviation decode := (DecodeNameTx be Hash Hash160 PUBKEY_ADDRESS SCRIPT_ADDRESS).
Abbreviation expires := (CalculateExpiresAt be Hash Hash160 PUBKEY_ADDRESS SCRIPT_ADDRESS GetTransaction).
Abbreviation connect := (connect_loop be Hash Hash160 PUBKEY_ADDRESS SCRIPT_ADDRESS GetTransaction maxSize).
Abbreviation check := (CheckInputs be Hash Hash160 PUBKEY_ADDRESS SCRIPT_ADDRESS GetTransaction chain_height h).

Lemma decode_outputs_throws i outs found : only_throws (decode_outputs be Hash Hash160 PUBKEY_ADDRESS SCRIPT_ADDRESS false i outs found) (fun _ => True).
Proof.
  revert i found. induction outs as [|o outs IH]; intros i found; cbn [decode_outputs]; [done|].
  destruct (DecodeNameScript be (CTxOut.scriptPubKey o) 0) as [[[nti pc]|]|e]; cbn [script_step mbind result_bind]; [|apply IH|by exists e].
  destruct found; [done|]. apply IH.
Qed.

Lemma decode_throws tx : only_throws (decode tx false) (fun _ => True).
Proof. unfold DecodeNameTx. destruct (negb _); [done|]. apply decode_outputs_throws. Qed.

Lemma rental_sum_throws l sum : only_throws (rental_sum be Hash Hash160 PUBKEY_ADDRESS SCRIPT_ADDRESS GetTransaction l sum) (fun _ => True).
Proof.
  revert sum. induction l as [|x l IH]; intros sum; cbn [rental_sum]; [done|]. destruct (GetTransaction _) as [tx|]; [|done].
  eapply only_throws_bind; [apply decode_throws|]. intros [nti|] _; [apply IH|done].
Qed.

(** Only the expiration changes, and no entry out of range is read. *)
Lemma expires_throws r : record_ok r -> Z.of_nat (length (vtxPos r)) < 2 ^ 31 ->
  only_throws (expires r) (fun o => forall r', o = Some r' -> vtxPos r' = vtxPos r /\ nLastActiveChainIndex r' = nLastActiveChainIndex r /\ record_ok r').
Proof.
  intros Hr Hlen. assert (forall e, record_ok (mk_name_record (vtxPos r) e (nLastActiveChainIndex r))) as Hok.
  { intros e. destruct Hr as [Hr|(pre & first & ups & tail & [])]; [by left|]. right. by exists pre, first, ups, tail. }
  unfold CalculateExpiresAt. destruct (deleted r) eqn:Ed; [by intros r' [= <-]|].
  eapply only_throws_bind; [apply rental_sum_throws|]. intros [sum|] _; [|by intros r' ?].
  destruct Hr as [Hr|(pre & first & ups & tail & Hs)]; [unfold deleted in Ed; by rewrite Hr in Ed|]. destruct Hs as [El Hi _ _ _].
  rewrite El in Hlen. rewrite length_app in Hlen. cbn [length] in Hlen. rewrite Hi, uwrap_small, Nat2Z.id, El by (unfold is_u; lia).
  rewrite list_lookup_middle by done. intros r' [= <-]. rewrite <- El, <- Hi. by split_and!.
Qed.

(** ** The database of names *)

(** Every record has the shape, and at most [n] entries. *)
Definition names_inv (n : Z) (d : D) : Prop :=
  forall name r, kv_read name d = Some r -> record_ok r /\ Z.of_nat (length (vtxPos r)) <= n.

Lemma record_index_ok r : record_ok r -> Z.of_nat (length (vtxPos r)) < 2 ^ 31 ->
  ((i32 (Z.of_nat (length (vtxPos r))) >? 0) && (nLastActiveChainIndex r >=? i32 (Z.of_nat (length (vtxPos r))))) = false.
Proof.
  intros Hr Hlen. rewrite swrap_small by (unfold is_s; lia). destruct Hr as [->|(pre & first & ups & tail & [El Hi _ _ _])]; [done|].
  apply andb_false_iff. right. rewrite Hi, El, length_app. cbn [length]. rewrite Z.geb_leb. apply Z.leb_gt. lia.
Qed.

Lemma ReadName_ok n d name : names_inv n d -> n < 2 ^ 31 -> ReadName name d = Ok (kv_read name d).
Proof.
  intros Hinv Hn. unfold ReadName. destruct (kv_read name d) as [r|] eqn:E; [|done]. destruct (Hinv name r E) as [Hr Hl].
  by rewrite record_index_ok by (done || lia).
Qed.

(** What is known of a name: nothing is an empty record. *)
Definition record_of (name : list Z) (d : D) : CNameRecord := default new_record (kv_read name d).

Lemma read_or_new_ok n d name : names_inv n d -> n < 2 ^ 31 -> read_or_new name d = Ok (Some (record_of name d)).
Proof.
  intros Hinv Hn. unfold read_or_new, record_of. rewrite kv_exists_law, (ReadName_ok n) by done. destruct (kv_read name d) as [r|]; [|done].
  by rewrite bool_decide_eq_true_2 by (by eexists).
Qed.

Lemma record_of_ok n d name : 0 <= n -> names_inv n d -> record_ok (record_of name d) /\ Z.of_nat (length (vtxPos (record_of name d))) <= n.
Proof.
  intros Hn Hinv. unfold record_of. destruct (kv_read name d) as [r|] eqn:E; [by apply (Hinv name)|]. split; [by left|done].
Qed.

Lemma write_inv n d name r d' : names_inv n d -> record_ok r -> Z.of_nat (length (vtxPos r)) <= n -> kv_write name r d = Some d' -> names_inv n d'.
Proof.
  intros Hinv Hr Hl Hw name' r' Hr'. rewrite (kv_write_law _ _ _ _ Hw name') in Hr'.
  destruct (bool_decide_reflect (name' = name)) as [->|]; [by injection Hr' as <-|by apply (Hinv name')].
Qed.

Lemma names_inv_mono n n' d : n <= n' -> names_inv n d -> names_inv n' d.
Proof. intros Hn H name r Hr. destruct (H name r Hr). split; [done|lia]. Qed.

(** The operations of a block that it is allowed to connect: names are updated or deleted at most once, and only when they are
    registered and not deleted. *)
Definition is_change (i : nameTempProxy) : Prop := np_op i <> OP_NAME_NEW.

Record block_ops (d : D) (l : list nameTempProxy) : Prop := {
  bo_ops : Forall (fun i => is_name_op (np_op i)) l;
  bo_alive : Forall (fun i => is_change i -> deleted (record_of (np_name i) d) = false) l;
  bo_once : NoDup (np_name <$> filter is_change l);
}.

Lemma deleted_last r x l : vtxPos r = l ++ [x] -> deleted r = (ni_op x =? OP_NAME_DELETE).
Proof. intros E. unfold deleted. by rewrite E, last_snoc. Qed.

(** What is left of the operations after one of them. *)
Lemma block_ops_step d i l d' r k : block_ops d (i :: l) -> kv_write (np_name i) r d = Some d' ->
  vtxPos r = drop k (vtxPos (record_of (np_name i) d)) ++ [added i] -> block_ops d' l.
Proof.
  intros [Ho Ha Hn] Hw Hr. apply Forall_cons in Ho as [Hoi Ho]. apply Forall_cons in Ha as [Hai Ha]. split; [done|..].
  - apply Forall_forall. intros j Hj Hc. unfold record_of. rewrite (kv_write_law _ _ _ _ Hw (np_name j)).
    destruct (bool_decide_reflect (np_name j = np_name i)) as [E|].
    + change (default new_record (Some r)) with r. rewrite (deleted_last _ _ _ Hr). cbn [added ni_op]. apply Z.eqb_neq. intros Hdel.
      rewrite filter_cons_True in Hn by (unfold is_change; rewrite Hdel; discriminate). apply NoDup_cons in Hn as [Hnin _]. apply Hnin.
      rewrite <- E. apply list_elem_of_fmap. exists j. split; [done|]. by apply list_elem_of_filter.
    + by apply (proj1 (Forall_forall _ _) Ha j Hj).
  - rewrite filter_cons in Hn. destruct (decide (is_change i)); [|done]. by apply NoDup_cons in Hn as [_ ?].
Qed.

Lemma block_ops_skip d i l : block_ops d (i :: l) -> block_ops d l.
Proof.
  intros [Ho Ha Hn]. apply Forall_cons in Ho as [_ Ho]. apply Forall_cons in Ha as [_ Ha]. split; [done..|].
  rewrite filter_cons in Hn. destruct (decide (is_change i)); [|done]. by apply NoDup_cons in Hn as [_ ?].
Qed.

(** The history of a name is extended by operations of [l] on it, oldest entries being forgotten. *)
Definition extended_by (l : list nameTempProxy) (name : list Z) (d d' : D) : Prop :=
  exists k js, js `sublist_of` filter (fun i => np_name i = name) l /\
    vtxPos (record_of name d') = drop k (vtxPos (record_of name d)) ++ map added js.

Lemma extended_refl l name d d' : kv_read name d' = kv_read name d -> extended_by l name d d'.
Proof.
  intros E. exists 0%nat, []. split; [apply sublist_nil_l|]. unfold record_of. by rewrite E, drop_0, app_nil_r.
Qed.

Lemma extended_cons i l name d d1 d' r k : kv_write (np_name i) r d = Some d1 ->
  vtxPos r = drop k (vtxPos (record_of (np_name i) d)) ++ [added i] -> extended_by l name d1 d' -> extended_by (i :: l) name d d'.
Proof.
  intros Hw Hr (k' & js & Hjs & E). destruct (decide (np_name i = name)) as [<-|Hne].
  - assert (record_of (np_name i) d1 = r) as E1 by (unfold record_of; rewrite (kv_write_law _ _ _ _ Hw); by rewrite bool_decide_eq_true_2).
    rewrite E1, Hr, drop_app, drop_drop, <- app_assoc in E. eexists (k + k')%nat, (drop (k' - length (drop k (vtxPos (record_of (np_name i) d)))) [i] ++ js).
    split.
    + rewrite filter_cons_True by done. change (i :: filter (fun j => np_name j = np_name i) l) with ([i] ++ filter (fun j => np_name j = np_name i) l).
      apply sublist_app; [apply sublist_drop|done].
    + by rewrite E, map_app, <- skipn_map.
  - exists k', js. split; [by rewrite filter_cons_False|]. rewrite E. unfold record_of. rewrite (kv_write_law _ _ _ _ Hw name).
    by rewrite bool_decide_eq_false_2.
Qed.

Lemma extended_weaken i l name d d' : extended_by l name d d' -> extended_by (i :: l) name d d'.
Proof.
  intros (k & js & Hjs & E). exists k, js. split; [|done]. rewrite filter_cons. destruct (decide _); [by apply sublist_cons|done].
Qed.

Lemma connect_loop_inv l : 0 < maxSize < 2 ^ 31 -> forall n sn s, 0 <= n -> n + Z.of_nat (length l) < 2 ^ 31 - 1 ->
  names_inv n (ns_names s) -> block_ops (ns_names s) l ->
  only_throws (connect l sn s) (fun '(_, s') => names_inv (n + Z.of_nat (length l)) (ns_names s') /\
    forall name, extended_by l name (ns_names s) (ns_names s')).
Proof.
  intros Hmax. induction l as [|i l IH]; intros n sn s Hn Hlen Hinv Hops; cbn [connect_loop].
  { cbn. rewrite Z.add_0_r. split; [done|]. intros name. by apply extended_refl. }
  cbn [length] in Hlen. rewrite Nat2Z.inj_succ in Hlen. cbn [ns_names ns_addresses].
  assert (names_inv (n + Z.of_nat (length (i :: l))) (ns_names s)) as Hinv' by (eapply names_inv_mono; [|exact Hinv]; lia).
  rewrite (read_or_new_ok n) by (done || lia). cbn [mbind result_bind].
  destruct ((np_op i =? OP_NAME_NEW) && _).
  { eapply only_throws_impl; [|apply (IH n sn (mk_names (ns_names s) (ns_addresses s) _)); [done|lia|done|by apply (block_ops_skip _ i)]].
    intros [ok s'] [H1 H2]. split; [eapply names_inv_mono; [|exact H1]; cbn [length]; lia|]. intros name. by apply extended_weaken. }
  destruct (record_of_ok n _ (np_name i) Hn Hinv) as [Hr Hrl].
  destruct (append_op_ok maxSize i (record_of (np_name i) (ns_names s))) as (r' & k & -> & Hr' & Hv & _); try done.
  { lia. }
  { by destruct Hops as [[? _]%Forall_cons _ _]. }
  { by destruct Hops as [_ [? _]%Forall_cons _]. }
  cbn [mbind result_bind]. assert (Z.of_nat (length (vtxPos r')) <= n + 1) as Hrl' by (rewrite Hv, length_app, length_drop; cbn [length]; lia).
  assert (forall name, extended_by (i :: l) name (ns_names s) (ns_names s)) as Hrefl by (intros name; by apply extended_refl).
  eapply only_throws_bind; [apply (expires_throws r'); [done|lia]|]. intros [r''|] H; [|by split].
  destruct (H r'' eq_refl) as (Hv'' & Hi'' & Hr''). clear H. rewrite Hv in Hv''.
  destruct (kv_write (np_name i) r'' (ns_names s)) as [d|] eqn:Ew; [|by split].
  assert (names_inv (n + 1) d) as Hd.
  { eapply write_inv; [|exact Hr''| |exact Ew]; [eapply names_inv_mono; [|exact Hinv]; lia|]. rewrite Hv'', <- Hv. done. }
  destruct (MoveName _ _ _ _) as [ok a]. assert (forall name d', extended_by l name d d' -> extended_by (i :: l) name (ns_names s) d') as Hext
    by (intros name d'; eapply extended_cons; [exact Ew|exact Hv'']).
  destruct ok; cbn [negb].
  - eapply only_throws_impl; [|apply (IH (n + 1) _ (mk_names d a _)); [lia|lia|exact Hd|eapply block_ops_step; [exact Hops|exact Ew|exact Hv'']]].
    intros [ok s'] [H1 H2]. split; [eapply names_inv_mono; [|exact H1]; cbn [length]; lia|]. intros name. apply Hext, H2.
  - split; cbn [ns_names]; [eapply names_inv_mono; [|exact Hd]; cbn [length]; lia|]. intros name. apply Hext. by apply extended_refl.
Qed.

(** ** What the rules allow *)

Lemma NameActive_ok n d name height : names_inv n d -> n < 2 ^ 31 -> 0 <= height ->
  NameActive chain_height name height d =
  Ok (match kv_read name d with Some r => negb (deleted r) && (height <=? nExpiresAt r) | None => false end).
Proof.
  intros Hinv Hn Hh. unfold NameActive. rewrite (ReadName_ok n) by done. cbn [mbind result_bind].
  destruct (kv_read name d) as [r|]; [|done]. by rewrite (proj2 (Z.ltb_ge _ _)) by lia.
Qed.

(** A name is active: registered, not deleted, not expired. *)
Definition active_at (name : list Z) (height : Z) (d : D) : bool :=
  match kv_read name d with Some r => negb (deleted r) && (height <=? nExpiresAt r) | None => false end.

Abbreviation last_of := (last_known be Hash Hash160 PUBKEY_ADDRESS SCRIPT_ADDRESS GetTransaction).
Abbreviation address_of := (last_address be Hash Hash160 PUBKEY_ADDRESS SCRIPT_ADDRESS GetTransaction).

(** The transaction spends an output of the last transaction of the name. *)
Definition spends_name (tx : CTransaction) (name : list Z) (d : D) : Prop :=
  exists x t, last (vtxPos (record_of name d)) = Some x /\ GetTransaction (ni_txPos x) = Some t /\ spends tx (GetHash Hash be t) = true.

Definition fee_paid (nti : decoded_name) (pindex : N) (fee : Z) : Prop := IsNameFeeEnough h (dn_info nti) pindex fee = Ok true.

(** The rules for a name transaction: a registration pays the fee and the name is not active; an update pays the fee and
    spends the last transaction of the name, which is active; so does a deletion, without a fee. *)
Definition name_rules (tx : CTransaction) (nti : decoded_name) (pindex : N) (height fee : Z) (d : D) : Prop :=
  let op := dn_op nti in let name := dn_name nti in
  (op = OP_NAME_NEW /\ fee_paid nti pindex fee /\ active_at name height d = false) \/
  ((op = OP_NAME_UPDATE /\ fee_paid nti pindex fee \/ op = OP_NAME_DELETE) /\ active_at name height d = true /\ spends_name tx name d).

Lemma last_known_found tx r prev : last_of tx r = Ok (Some (true, prev)) ->
  exists x t, last (vtxPos r) = Some x /\ GetTransaction (ni_txPos x) = Some t /\ spends tx (GetHash Hash be t) = true.
Proof.
  unfold last_known. destruct (last (vtxPos r)) as [x|]; [|by intros [=]]. destruct (deleted r); [by intros [=]|].
  destruct (GetTransaction (ni_txPos x)) as [t|] eqn:Et; [|by intros [=]]. destruct (decode t true) as [[p|]|]; cbn [mbind result_bind]; [|by intros [=]..].
  intros [= Hs _]. by exists x, t.
Qed.

Lemma check_op_rules tx nti found prev pindex height fee d n : names_inv n d -> n < 2 ^ 31 -> 0 <= height ->
  last_of tx (record_of (dn_name nti) d) = Ok (Some (found, prev)) ->
  check_op chain_height h (dn_info nti) found prev pindex height fee d = Ok true -> name_rules tx nti pindex height fee d.
Proof.
  intros Hinv Hn Hh Hl. unfold check_op, name_rules, fee_paid. change (nti_op (dn_info nti)) with (dn_op nti). change (nti_name (dn_info nti)) with (dn_name nti).
  rewrite !(NameActive_ok n) by done. fold (active_at (dn_name nti) height d).
  destruct (Z.eqb_spec (dn_op nti) OP_NAME_NEW) as [E|_].
  { destruct (IsNameFeeEnough _ _ _ _) as [[]|]; cbn; [|by intros [=]..]. intros [= Ha%negb_true_iff]. by left. }
  destruct ((dn_op nti =? OP_NAME_UPDATE) || (dn_op nti =? OP_NAME_DELETE)) eqn:E2; [|by intros [=]]. intros H. right.
  assert ((dn_op nti = OP_NAME_UPDATE /\ IsNameFeeEnough h (dn_info nti) pindex fee = Ok true \/ dn_op nti = OP_NAME_DELETE) /\
    (if negb found || (negb (dn_op prev =? OP_NAME_NEW) && negb (dn_op prev =? OP_NAME_UPDATE)) then Ok false
     else if negb (bool_decide (dn_name prev = dn_name nti)) then Ok false else @Ok name_fault _ (active_at (dn_name nti) height d)) = Ok true) as [Hop H'].
  { destruct (Z.eqb_spec (dn_op nti) OP_NAME_UPDATE) as [E3|E3].
    - destruct (IsNameFeeEnough _ _ _ _) as [[]|]; cbn in H; [|discriminate H..]. split; [by left|exact H].
    - cbn [orb] in E2. apply Z.eqb_eq in E2. split; [by right|exact H]. }
  destruct found; [|discriminate H']. cbn [negb orb] in H'. destruct (negb (dn_op prev =? OP_NAME_NEW) && _); [discriminate H'|].
  destruct (bool_decide_reflect (dn_name prev = dn_name nti)); [|discriminate H']. injection H' as Ha.
  split; [done|]. split; [done|]. by apply (last_known_found _ _ prev).
Qed.

(** The data that is kept of an accepted transaction. *)
Record proxy_of (tx : CTransaction) (pos : CDiskTxPos.t) (nti : decoded_name) (height : Z) (d : D) (i : nameTempProxy) : Prop := {
  po_name : np_name i = dn_name nti;
  po_op : np_op i = dn_op nti;
  po_ind : np_ind i = mk_name_index pos height 0 (nti_value (dn_info nti));
  po_address : np_address i = if dn_op nti =? OP_NAME_DELETE then [] else dn_strAddress nti;
  po_prev : exists found prev, last_of tx (record_of (dn_name nti) d) = Ok (Some (found, prev)) /\
    np_prev_address i = if dn_op prev =? OP_NAME_DELETE then [] else dn_strAddress prev;
  po_hash : np_hash i = GetHash Hash be tx;
}.

Lemma CheckInputs_inv n d tx pindex b pos fee v ok v' : names_inv n d -> n < 2 ^ 31 -> h !! pindex = Some b -> 0 <= CBlockIndex.nHeight b ->
  check tx pindex pos fee v d = Ok (ok, v') ->
  if ok then exists nti i, decode tx true = Ok (Some nti) /\ name_rules tx nti pindex (CBlockIndex.nHeight b) fee d /\ v' = v ++ [i] /\
    proxy_of tx pos nti (CBlockIndex.nHeight b) d i
  else v' = v.
Proof.
  intros Hinv Hn Hb Hh. unfold CheckInputs. destruct (negb (Transaction.nVersion tx =? _)); [by intros [= <- <-]|].
  destruct (decode tx true) as [[nti|]|] eqn:Ed; cbn [mbind result_bind]; [|by intros [= <- <-]|by intros [=]].
  unfold deref. rewrite Hb. cbn [index_step mbind result_bind]. rewrite (read_or_new_ok n) by done. cbn [mbind result_bind].
  destruct (last_of tx (record_of (dn_name nti) d)) as [[[found prev]|]|] eqn:El; cbn [mbind result_bind]; [|by intros [= <- <-]|by intros [=]].
  destruct (check_op _ _ _ _ _ _ _ _ _) as [[]|] eqn:Ec; cbn [mbind result_bind negb]; [|by intros [= <- <-]|by intros [=]].
  intros [= <- <-]. eexists nti, _. split; [done|]. split; [by eapply check_op_rules|]. split; [done|].
  split; try done; cbn; [by destruct (dn_op nti =? OP_NAME_DELETE)|]. exists found, prev. split; [done|]. by destruct (dn_op prev =? OP_NAME_DELETE).
Qed.

(** Every operation that a block collects is of one of its transactions and obeys the rules. *)
Lemma collect_names_inv n d pindex b l : names_inv n d -> n < 2 ^ 31 -> h !! pindex = Some b -> 0 <= CBlockIndex.nHeight b -> forall v v',
  collect_names be Hash Hash160 PUBKEY_ADDRESS SCRIPT_ADDRESS GetTransaction chain_height h l pindex v d = Ok v' ->
  exists w, v' = v ++ w /\ (length w <= length l)%nat /\
    Forall (fun i => exists tx pos fee nti, (tx, pos, fee) ∈ l /\ decode tx true = Ok (Some nti) /\
      name_rules tx nti pindex (CBlockIndex.nHeight b) fee d /\ proxy_of tx pos nti (CBlockIndex.nHeight b) d i) w.
Proof.
  intros Hinv Hn Hb Hh. induction l as [|[[tx pos] fee] l IH]; intros v v'; cbn [collect_names].
  { intros [= <-]. exists []. rewrite app_nil_r. by split_and!. }
  destruct (check tx pindex pos fee v d) as [[ok v1]|] eqn:Ec; cbn [mbind result_bind]; [|by intros [=]]. intros H.
  apply (CheckInputs_inv n d tx pindex b) in Ec; try done. destruct (IH _ _ H) as (w & -> & Hl & Hw).
  assert (Forall (fun i => exists tx' pos' fee' nti, (tx', pos', fee') ∈ (tx, pos, fee) :: l /\ decode tx' true = Ok (Some nti) /\
      name_rules tx' nti pindex (CBlockIndex.nHeight b) fee' d /\ proxy_of tx' pos' nti (CBlockIndex.nHeight b) d i) w) as Hw'.
  { eapply Forall_impl; [exact Hw|]. intros i (t & p & f & nti & Hin & ?). exists t, p, f, nti. split; [by right|done]. }
  destruct ok; [|subst v1; exists w; split_and!; [done|cbn; lia|done]].
  destruct Ec as (nti & i & Ed & Hr & -> & Hp). exists (i :: w). rewrite <- app_assoc. split_and!; [done|cbn; lia|].
  constructor; [|done]. exists tx, pos, fee, nti. split; [by left|done].
Qed.

(** ** The history of a name is that of its transactions *)

(** The entry is of a transaction with an operation on the name. *)
Definition entry_ok (name : list Z) (x : CNameIndex) : Prop :=
  exists tx nti, GetTransaction (ni_txPos x) = Some tx /\ decode tx true = Ok (Some nti) /\ dn_name nti = name /\ dn_op nti = ni_op x.

Definition history_ok (d : D) : Prop := forall name r, kv_read name d = Some r -> Forall (entry_ok name) (vtxPos r).

Lemma decode_outputs_false outs : forall i f f' r,
  dn_info <$> f' = dn_info <$> f ->
  decode_outputs be Hash Hash160 PUBKEY_ADDRESS SCRIPT_ADDRESS true i outs f = Ok (Some r) ->
  exists r', decode_outputs be Hash Hash160 PUBKEY_ADDRESS SCRIPT_ADDRESS false i outs f' = Ok (Some r') /\ dn_info r' = dn_info r.
Proof.
  induction outs as [|o outs IH]; intros i f f' r Hf; cbn [decode_outputs].
  { intros [= ->]. destruct f' as [r'|]; [|done]. injection Hf as E. by exists r'. }
  destruct (DecodeNameScript be (CTxOut.scriptPubKey o) 0) as [[[nti pc]|]|e]; cbn [script_step mbind result_bind]; [|by apply IH|by intros [=]].
  destruct f as [f|], f' as [f'|]; [by intros [=]|discriminate Hf..|].
  destruct (name_address_text _ _ _ _ _ _ _) as [text|]; cbn [mbind result_bind]; [|by intros [=]]. by apply IH.
Qed.

Lemma decode_without_address tx nti : decode tx true = Ok (Some nti) -> exists nti', decode tx false = Ok (Some nti') /\ dn_info nti' = dn_info nti.
Proof. unfold DecodeNameTx. destruct (negb _); [by intros [=]|]. by apply decode_outputs_false. Qed.

Lemma rental_sum_total name l sum : Forall (entry_ok name) l ->
  exists s, rental_sum be Hash Hash160 PUBKEY_ADDRESS SCRIPT_ADDRESS GetTransaction l sum = Ok (Some s).
Proof.
  intros Hl. revert sum. induction Hl as [|x l (tx & nti & Et & Ed & _) _ IH]; intros sum; cbn [rental_sum]; [by eexists|].
  rewrite Et. destruct (decode_without_address tx nti Ed) as (nti' & -> & _). cbn [mbind result_bind]. apply IH.
Qed.

(** With a history of transactions the expiration is computed. *)
Lemma expires_total name r : record_ok r -> Z.of_nat (length (vtxPos r)) < 2 ^ 31 -> Forall (entry_ok name) (vtxPos r) ->
  exists r', expires r = Ok (Some r') /\ vtxPos r' = vtxPos r /\ nLastActiveChainIndex r' = nLastActiveChainIndex r /\ record_ok r'.
Proof.
  intros Hr Hlen Hh. pose proof (expires_throws r Hr Hlen) as H.
  assert (exists r', expires r = Ok (Some r')) as [r' E]; [|exists r'; rewrite E in H; split; [done|by apply H]].
  unfold CalculateExpiresAt. destruct (deleted r) eqn:Ed; [by eexists|].
  destruct (rental_sum_total name (drop (Z.to_nat (u32 (nLastActiveChainIndex r))) (vtxPos r)) 0) as [s ->]; [by apply Forall_drop|]. cbn [mbind result_bind].
  destruct Hr as [Hr|(pre & first & ups & tail & Hs)]; [unfold deleted in Ed; by rewrite Hr in Ed|]. destruct Hs as [El Hi _ _ _].
  rewrite El in Hlen. rewrite length_app in Hlen. cbn [length] in Hlen. rewrite Hi, uwrap_small, Nat2Z.id, El by (unfold is_u; lia).
  rewrite list_lookup_middle by done. by eexists.
Qed.

Lemma deleted_empty r : last (vtxPos r) = None -> deleted r = true.
Proof. unfold deleted. by intros ->. Qed.

(** The address that the rules saw is the one of the record. *)
Lemma last_known_address tx name r found prev : Forall (entry_ok name) (vtxPos r) -> last_of tx r = Ok (Some (found, prev)) ->
  address_of r = Ok (Some (if dn_op prev =? OP_NAME_DELETE then [] else dn_strAddress prev)).
Proof.
  intros Hh. unfold last_known, last_address. destruct (last (vtxPos r)) as [x|] eqn:El; [|by intros [= <- <-]].
  assert (deleted r = (ni_op x =? OP_NAME_DELETE)) as Edel by (unfold deleted; by rewrite El). rewrite Edel.
  destruct (Z.eqb_spec (ni_op x) OP_NAME_DELETE) as [|Hne]; [by intros [= <- <-]|].
  assert (entry_ok name x) as (t & nti & -> & -> & _ & Hop).
  { apply (proj1 (Forall_forall _ _) Hh). apply last_Some in El as [l ->]. apply elem_of_app. right. by left. }
  cbn [mbind result_bind]. intros [= <- <-]. rewrite Hop. by rewrite (proj2 (Z.eqb_neq _ _)).
Qed.

Lemma address_of_total name r : Forall (entry_ok name) (vtxPos r) -> exists a, address_of r = Ok (Some a).
Proof.
  intros Hh. unfold last_address. destruct (last (vtxPos r)) as [x|] eqn:El; [|by eexists]. destruct (deleted r); [by eexists|].
  assert (entry_ok name x) as (t & nti & -> & -> & _).
  { apply (proj1 (Forall_forall _ _) Hh). apply last_Some in El as [l ->]. apply elem_of_app. right. by left. }
  by eexists.
Qed.

(** The operation [i] is of the transaction at its position. *)
Definition proxy_ok (d : D) (i : nameTempProxy) : Prop :=
  entry_ok (np_name i) (added i) /\ is_name_op (np_op i) /\ (is_change i -> deleted (record_of (np_name i) d) = false) /\
  (exists tx nti, GetTransaction (ni_txPos (np_ind i)) = Some tx /\ decode tx true = Ok (Some nti) /\
     np_address i = if np_op i =? OP_NAME_DELETE then [] else dn_strAddress nti) /\
  address_of (record_of (np_name i) d) = Ok (Some (np_prev_address i)).

Lemma added_address r i l d : vtxPos r = l ++ [added i] -> proxy_ok d i -> address_of r = Ok (Some (np_address i)).
Proof.
  intros Er (_ & _ & _ & (tx & nti & Et & Ed & ->) & _). unfold last_address. rewrite (deleted_last _ _ _ Er), Er, last_snoc. cbn [added ni_op ni_txPos].
  destruct (np_op i =? OP_NAME_DELETE); [done|]. by rewrite Et, Ed.
Qed.

Lemma record_history d name : history_ok d -> Forall (entry_ok name) (vtxPos (record_of name d)).
Proof. intros H. unfold record_of. destruct (kv_read name d) as [r|] eqn:E; [by apply H|constructor]. Qed.

(** What the block collects is as the databases need it, the transactions being in the block files. *)
Lemma collected_ok n d pindex b l v : names_inv n d -> n < 2 ^ 31 -> history_ok d -> h !! pindex = Some b -> 0 <= CBlockIndex.nHeight b ->
  Forall (fun '(tx, pos, _) => GetTransaction pos = Some tx) l ->
  collect_names be Hash Hash160 PUBKEY_ADDRESS SCRIPT_ADDRESS GetTransaction chain_height h l pindex [] d = Ok v -> Forall (proxy_ok d) v.
Proof.
  intros Hinv Hn Hh Hb Hheight Hl Hc. destruct (collect_names_inv n d pindex b l Hinv Hn Hb Hheight [] v Hc) as (w & -> & _ & Hw). cbn [app].
  eapply Forall_impl; [exact Hw|]. intros i (tx & pos & fee & nti & Hin & Ed & Hr & Hp).
  pose proof (proj1 (Forall_forall _ _) Hl _ Hin) as Et. cbn in Et. destruct Hp as [Pn Po Pi Pa (found & prev & El & Pp) _].
  assert (is_name_op (np_op i)) as Hop.
  { rewrite Po. unfold is_name_op. destruct Hr as [(-> & _)|([[-> _]| ->] & _)]; auto. }
  unfold proxy_ok, entry_ok. unfold added. rewrite Pi, Pn, Po, Pa. cbn [ni_txPos ni_op]. rewrite Po in Hop. split_and!; try done.
  - by exists tx, nti.
  - unfold is_change. rewrite Po. intros Hne. destruct Hr as [(? & _)|(_ & Ha & _)]; [done|]. unfold active_at in Ha. unfold record_of.
    destruct (kv_read (dn_name nti) d) as [r|]; [|done]. apply andb_true_iff in Ha as [Ha _]. by apply negb_true_iff in Ha.
  - by exists tx, nti.
  - rewrite Pp. eapply last_known_address; [|exact El]. by apply record_history.
Qed.

(** ** The index of addresses *)

(** A name is listed under an address exactly when that is the address of its last transaction, which is not a deletion. *)
Definition addresses_inv (d : D) (a : A) : Prop :=
  forall name address, address <> [] -> name ∈ names_at address a <-> address_of (record_of name d) = Ok (Some address).

(** Writing does not fail. *)
Context (names_written : forall name r (d : D), is_Some (kv_write name r d)) (addresses_written : forall address s (a : A), is_Some (kv_write address s a)).

Lemma record_of_write name r d d' name' : kv_write name r d = Some d' -> record_of name' d' = if bool_decide (name' = name) then r else record_of name' d.
Proof. intros Hw. unfold record_of. rewrite (kv_write_law _ _ _ _ Hw). by destruct (bool_decide _). Qed.

(** A name whose record is written is moved to its new address. *)
Lemma addresses_step d a name r d' old new : addresses_inv d a -> address_of (record_of name d) = Ok (Some old) ->
  address_of r = Ok (Some new) -> (forall name', record_of name' d' = if bool_decide (name' = name) then r else record_of name' d) ->
  exists a', MoveName old new name a = (true, a') /\ addresses_inv d' a'.
Proof.
  intros Hinv Hold Hnew Hw. destruct (MoveName_ok addresses_written old new name a) as (a' & E & H).
  { intros address Hna. rewrite (Hinv name address Hna), Hold. split; [by intros [= ->]|by intros ->]. }
  exists a'. split; [done|]. intros name' address Hna. rewrite H, Hw by done.
  destruct (bool_decide_reflect (name' = name)) as [->|]; [rewrite Hnew; split; [by intros ->|by intros [= ->]]|by apply Hinv].
Qed.

Lemma history_write d name r d' : history_ok d -> Forall (entry_ok name) (vtxPos r) -> kv_write name r d = Some d' -> history_ok d'.
Proof.
  intros Hh Hr Hw name' r' Hr'. rewrite (kv_write_law _ _ _ _ Hw) in Hr'. destruct (bool_decide_reflect (name' = name)) as [->|].
  - by injection Hr' as <-.
  - by apply Hh.
Qed.

(** ** Connecting the names of a block *)

(** No name is both registered and changed. *)
Definition exclusive (l : list nameTempProxy) : Prop :=
  forall i j, i ∈ l -> j ∈ l -> np_op i = OP_NAME_NEW -> is_change j -> np_name i <> np_name j.

Definition pending_ok (sn : gset (list Z)) (d : D) (i : nameTempProxy) : Prop := (np_op i = OP_NAME_NEW /\ np_name i ∈ sn) \/ proxy_ok d i.

Lemma pending_step sn d i l d' r : kv_write (np_name i) r d = Some d' -> exclusive (i :: l) -> NoDup (np_name <$> filter is_change (i :: l)) ->
  Forall (pending_ok sn d) l ->
  Forall (pending_ok (if np_op i =? OP_NAME_NEW then {[np_name i]} ∪ sn else sn) d') l.
Proof.
  intros Hw Hex Hnd Hl. apply Forall_forall. intros j Hj. pose proof (proj1 (Forall_forall _ _) Hl j Hj) as [[H1 H2]|H].
  { left. split; [done|]. destruct (np_op i =? OP_NAME_NEW); [apply elem_of_union; by right|done]. }
  destruct (decide (np_name j = np_name i)) as [E|Hne].
  - destruct (Z.eqb_spec (np_op i) OP_NAME_NEW) as [Ei|Ei].
    + destruct (decide (np_op j = OP_NAME_NEW)) as [Ej|Ej]; [left; split; [done|apply elem_of_union; left; by apply elem_of_singleton]|].
      exfalso. apply (Hex i j); [by left|by right|done..].
    + destruct (decide (np_op j = OP_NAME_NEW)) as [Ej|Ej]; [exfalso; apply (Hex j i); [by right|by left|done..]|].
      rewrite filter_cons_True in Hnd by done. apply NoDup_cons in Hnd as [Hnin _]. exfalso. apply Hnin. rewrite <- E.
      apply list_elem_of_fmap. exists j. split; [done|]. by apply list_elem_of_filter.
  - right. destruct H as (? & ? & ? & ? & ?). unfold proxy_ok. rewrite (record_of_write _ _ _ _ (np_name j) Hw), bool_decide_eq_false_2 by done. by split_and!.
Qed.

Lemma connect_loop_total l : 0 < maxSize < 2 ^ 31 -> forall n sn s, 0 <= n -> n + Z.of_nat (length l) < 2 ^ 31 - 1 ->
  names_inv n (ns_names s) -> history_ok (ns_names s) -> addresses_inv (ns_names s) (ns_addresses s) ->
  Forall (pending_ok sn (ns_names s)) l -> exclusive l -> NoDup (np_name <$> filter is_change l) ->
  exists s', connect l sn s = Ok (true, s') /\ names_inv (n + Z.of_nat (length l)) (ns_names s') /\ history_ok (ns_names s') /\
    addresses_inv (ns_names s') (ns_addresses s').
Proof.
  intros Hmax. induction l as [|i l IH]; intros n sn s Hn Hlen Hinv Hh Ha Hl Hex Hnd; cbn [connect_loop].
  { exists s. cbn. by rewrite Z.add_0_r. }
  cbn [length] in Hlen |- *. rewrite Nat2Z.inj_succ in Hlen |- *. cbn [ns_names ns_addresses].
  assert (exclusive l) as Hex' by (intros x y Hx Hy; apply Hex; by right).
  assert (NoDup (np_name <$> filter is_change l)) as Hnd'.
  { rewrite filter_cons in Hnd. destruct (decide (is_change i)); [|done]. by apply NoDup_cons in Hnd as [_ ?]. }
  apply Forall_cons in Hl as [Hi Hl]. rewrite (read_or_new_ok n) by (done || lia). cbn [mbind result_bind].
  destruct ((np_op i =? OP_NAME_NEW) && bool_decide (np_name i ∈ sn)) eqn:Eskip.
  { destruct (IH n sn (mk_names (ns_names s) (ns_addresses s) (remove_pending (np_name i) (np_hash i) (mapNamePending s)))) as (s' & E & I & R); try done; [lia|].
    exists s'. split; [exact E|]. split; [eapply names_inv_mono; [|exact I]; lia|exact R]. }
  destruct Hi as [[E1 E2]|Hi]; [rewrite E1, Z.eqb_refl, bool_decide_eq_true_2 in Eskip by done; discriminate Eskip|].
  assert (Hi' := Hi). destruct Hi' as (Hentry & Hop & Hdel & _ & Hprev). destruct (record_of_ok n _ (np_name i) Hn Hinv) as [Hr Hrl].
  destruct (append_op_ok maxSize i (record_of (np_name i) (ns_names s)) Hr Hmax ltac:(lia) Hop Hdel) as (r' & k & -> & Hr' & Hv & _). cbn [mbind result_bind].
  assert (Z.of_nat (length (vtxPos r')) <= n + 1) as Hrl' by (rewrite Hv, length_app, length_drop; cbn [length]; lia).
  assert (Forall (entry_ok (np_name i)) (vtxPos r')) as Hh'.
  { rewrite Hv. apply Forall_app. split; [by apply Forall_drop, record_history|by constructor]. }
  destruct (expires_total (np_name i) r' Hr' ltac:(lia) Hh') as (r'' & -> & Hv'' & _ & Hr''). cbn [mbind result_bind]. rewrite <- Hv'' in Hh', Hrl'. rewrite Hv in Hv''.
  destruct (names_written (np_name i) r'' (ns_names s)) as [d Hw]. rewrite Hw.
  destruct (addresses_step (ns_names s) (ns_addresses s) (np_name i) r'' d _ _ Ha Hprev (added_address _ _ _ _ Hv'' Hi) (fun x => record_of_write _ _ _ _ x Hw)) as (a & -> & Ha'). cbn [negb].
  destruct (IH (n + 1) (if np_op i =? OP_NAME_NEW then {[np_name i]} ∪ sn else sn) (mk_names d a (remove_pending (np_name i) (np_hash i) (mapNamePending s)))) as (s' & E & I & R);
    try done; [lia|lia| | |by eapply pending_step|].
  - eapply write_inv; [|exact Hr''|exact Hrl'|exact Hw]. eapply names_inv_mono; [|exact Hinv]. lia.
  - by eapply history_write.
  - exists s'. split; [exact E|]. split; [eapply names_inv_mono; [|exact I]; lia|exact R].
Qed.

(** ** Disconnecting restores *)

(** The expiration that is stored is the one of the history. *)
Definition expires_inv (d : D) : Prop := forall name r, kv_read name d = Some r -> vtxPos r <> [] -> expires r = Ok (Some r).

Lemma append_op_plain i r : 0 < maxSize < 2 ^ 31 -> Z.of_nat (length (vtxPos r)) < maxSize ->
  append_op maxSize i r = Ok (mk_name_record (vtxPos r ++ [added i]) (nExpiresAt r)
    (if np_op i =? OP_NAME_NEW then Z.of_nat (length (vtxPos r)) else nLastActiveChainIndex r)).
Proof.
  intros Hmax Hlen. unfold append_op. rewrite length_app, set_last_op_app. cbn [length].
  replace (Z.of_nat (length (vtxPos r) + 1) - 1) with (Z.of_nat (length (vtxPos r))) by lia. rewrite swrap_small by (unfold is_s; lia).
  rewrite (Z.gtb_ltb _ maxSize), (proj2 (Z.ltb_ge _ _)) by lia. done.
Qed.

Lemma last_new_skip l suf z : Forall (fun x => ni_op x <> OP_NAME_NEW) suf -> last_new (length (l ++ suf)) (l ++ suf) z = last_new (length l) (l ++ suf) z.
Proof.
  intros Hs. rewrite length_app, Nat.add_comm. induction suf as [|x suf IH] using rev_ind; [done|].
  apply Forall_app in Hs as [Hs [Hx _]%Forall_cons].
  assert (forall k t, (k <= length (l ++ suf))%nat -> last_new k (l ++ suf ++ t) z = last_new k (l ++ suf) z) as Hext.
  { intros k t. induction k as [|k IHk]; [done|]. intros Hk. cbn [last_new]. rewrite app_assoc, lookup_app_l by lia.
    rewrite <- app_assoc, IHk by lia. done. }
  rewrite length_app. cbn [length]. replace (length suf + 1 + length l)%nat with (S (length suf + length l)) by lia. cbn [last_new].
  rewrite app_assoc, list_lookup_middle by (rewrite length_app; lia). rewrite (proj2 (Z.eqb_neq _ _)) by done. rewrite <- app_assoc.
  rewrite !Hext by (rewrite length_app; lia). by apply IH.
Qed.

Lemma last_new_shape r pre first ups tail z : shape r pre first ups tail -> last_new (length (vtxPos r)) (vtxPos r) z = nLastActiveChainIndex r.
Proof.
  intros [El Hi Hf Hu Ht]. rewrite El, Hi. replace (pre ++ first :: ups ++ tail) with ((pre ++ [first]) ++ ups ++ tail) by (by rewrite <- app_assoc).
  rewrite last_new_skip.
  - rewrite length_app, Nat.add_comm. cbn [length Nat.add last_new]. rewrite <- app_assoc. cbn [app]. rewrite list_lookup_middle by done. by rewrite Hf.
  - apply Forall_app. split; [eapply Forall_impl; [exact Hu|]; cbn; intros x ->; discriminate|].
    destruct Ht as [->|(x & -> & Hx)]; [constructor|]. constructor; [by rewrite Hx|constructor].
Qed.

Lemma expires_fields v e e' idx : expires (mk_name_record v e idx) = expires (mk_name_record v e' idx).
Proof. reflexivity. Qed.

Lemma record_eta r : mk_name_record (vtxPos r) (nExpiresAt r) (nLastActiveChainIndex r) = r.
Proof. by destruct r. Qed.

(** A record without the operation that was added is the old one, or empty. *)
Definition popped (r : CNameRecord) : CNameRecord := match vtxPos r with [] => new_record | _ => r end.

Lemma pop_added i r e idx : record_ok r -> (np_op i <> OP_NAME_NEW -> deleted r = false) ->
  (vtxPos r <> [] -> expires r = Ok (Some r)) ->
  idx = (if np_op i =? OP_NAME_NEW then Z.of_nat (length (vtxPos r)) else nLastActiveChainIndex r) ->
  let q := pop_op (np_op i) (mk_name_record (vtxPos r ++ [added i]) e idx) in
  vtxPos q = vtxPos r /\ expires q = Ok (Some (popped r)).
Proof.
  intros Hr Hdel He ->. unfold pop_op. cbn [vtxPos nLastActiveChainIndex nExpiresAt]. rewrite length_app. cbn [length].
  replace (length (vtxPos r) + 1 - 1)%nat with (length (vtxPos r)) by lia. rewrite take_app_length. split; [done|]. unfold popped.
  destruct Hr as [Hr|(pre & first & ups & tail & Hs)].
  - rewrite Hr. cbn [length last_new]. destruct (Z.eqb_spec (np_op i) OP_NAME_NEW) as [_|Hne]; [done|].
    exfalso. specialize (Hdel Hne). rewrite deleted_empty in Hdel by (by rewrite Hr). done.
  - destruct (vtxPos r) as [|x l] eqn:El; [by destruct Hs as [E _ _ _ _]; destruct pre; rewrite El in E|]. rewrite <- El in *.
    assert ((if np_op i =? OP_NAME_NEW then last_new (length (vtxPos r)) (vtxPos r) (if np_op i =? OP_NAME_NEW then Z.of_nat (length (vtxPos r)) else nLastActiveChainIndex r)
      else if np_op i =? OP_NAME_NEW then Z.of_nat (length (vtxPos r)) else nLastActiveChainIndex r) = nLastActiveChainIndex r) as ->.
    { destruct (np_op i =? OP_NAME_NEW); [by eapply last_new_shape|done]. }
    rewrite (expires_fields _ e (nExpiresAt r)), record_eta. apply He. by rewrite El.
Qed.

Lemma address_of_vtxPos r r' : vtxPos r = vtxPos r' -> address_of r = address_of r'.
Proof. intros E. unfold last_address, deleted. by rewrite E. Qed.

Lemma popped_vtxPos r : vtxPos (popped r) = vtxPos r.
Proof. unfold popped. by destruct (vtxPos r) eqn:E. Qed.

Context (names_erased : forall name (d : D), is_Some (kv_erase name d)).

Lemma write_popped_ok name op r r' d : expires (pop_op op r) = Ok (Some r') -> exists d', write_popped be Hash Hash160 PUBKEY_ADDRESS SCRIPT_ADDRESS GetTransaction name op r d = Ok (true, d') /\
    forall name', kv_read name' d' = if bool_decide (name' = name) then Some r' else kv_read name' d.
Proof.
  intros He. unfold write_popped.
  assert (exists d1, (match vtxPos (pop_op op r) with [] => kv_erase name d | _ => Some d end) = Some d1 /\
    forall name', name' <> name -> kv_read name' d1 = kv_read name' d) as (d1 & -> & H1).
  { destruct (vtxPos (pop_op op r)).
    - destruct (names_erased name d) as [d1 E]. exists d1. split; [done|]. intros name' Hne. rewrite (kv_erase_law _ _ _ E). by rewrite bool_decide_eq_false_2.
    - by exists d. }
  rewrite He. cbn [mbind result_bind]. destruct (names_written name r' d1) as [d' Hw]. rewrite Hw. exists d'. split; [done|].
  intros name'. rewrite (kv_write_law _ _ _ _ Hw). destruct (bool_decide_reflect (name' = name)); [done|by apply H1].
Qed.

(** A single operation is connected. *)
Lemma connect_one n s i : 0 < maxSize < 2 ^ 31 -> 0 <= n < maxSize -> names_inv n (ns_names s) -> history_ok (ns_names s) ->
  addresses_inv (ns_names s) (ns_addresses s) -> proxy_ok (ns_names s) i ->
  let old := record_of (np_name i) (ns_names s) in
  exists r d a, connect [i] ∅ s = Ok (true, mk_names d a (remove_pending (np_name i) (np_hash i) (mapNamePending s))) /\
    kv_write (np_name i) r (ns_names s) = Some d /\ addresses_inv d a /\ names_inv (n + 1) d /\ record_ok r /\ vtxPos r = vtxPos old ++ [added i] /\
    nLastActiveChainIndex r = if np_op i =? OP_NAME_NEW then Z.of_nat (length (vtxPos old)) else nLastActiveChainIndex old.
Proof.
  intros Hmax Hn Hinv Hh Ha Hi old. destruct (record_of_ok n _ (np_name i) ltac:(lia) Hinv) as [Hr Hrl].
  assert (Hi' := Hi). destruct Hi' as (Hentry & Hop & Hdel & _ & Hprev). cbn [connect_loop ns_names ns_addresses].
  rewrite (read_or_new_ok n) by (done || lia). cbn [mbind result_bind]. rewrite (bool_decide_eq_false_2 (np_name i ∈ ∅)) by apply not_elem_of_empty. rewrite andb_false_r.
  destruct (append_op_ok maxSize i old Hr Hmax ltac:(unfold old; lia) Hop Hdel) as (r' & k & E & Hr' & _).
  pose proof (append_op_plain i old Hmax ltac:(unfold old; lia)) as Ep. rewrite Ep in E. injection E as <-. fold old. rewrite Ep. cbn [mbind result_bind].
  match type of Hr' with record_ok ?q => set (r0 := q) in * end.
  assert (Forall (entry_ok (np_name i)) (vtxPos r0)) as Hh'.
  { apply Forall_app. split; [by apply record_history|by constructor]. }
  assert (Z.of_nat (length (vtxPos r0)) <= n + 1) as Hl by (unfold r0; cbn [vtxPos]; rewrite length_app; cbn [length]; unfold old; lia).
  destruct (expires_total (np_name i) r0 Hr' ltac:(lia) Hh') as (r & -> & Hv & Hx & Hrok). cbn [mbind result_bind].
  destruct (names_written (np_name i) r (ns_names s)) as [d Hw]. rewrite Hw.
  destruct (addresses_step (ns_names s) (ns_addresses s) (np_name i) r d _ _ Ha Hprev (added_address _ _ _ _ Hv Hi) (fun x => record_of_write _ _ _ _ x Hw)) as (a & -> & Ha').
  exists r, d, a. split_and!; try done. eapply write_inv; [|exact Hrok|by rewrite Hv|exact Hw]. eapply names_inv_mono; [|exact Hinv]. lia.
Qed.

(** Disconnecting it restores the record, or leaves an empty one, and the index of addresses. *)
Lemma disconnect_one n s i tx nti pos height : 0 < maxSize < 2 ^ 31 -> 0 <= n < maxSize -> names_inv n (ns_names s) -> history_ok (ns_names s) ->
  addresses_inv (ns_names s) (ns_addresses s) -> expires_inv (ns_names s) -> proxy_ok (ns_names s) i ->
  Transaction.nVersion tx = NAMECOIN_TX_VERSION -> decode tx true = Ok (Some nti) -> proxy_of tx pos nti height (ns_names s) i ->
  ReadTxIndex (GetHash Hash be tx) = Some pos ->
  exists s1, connect [i] ∅ s = Ok (true, s1) /\ exists s2,
    DisconnectInputs be Hash Hash160 PUBKEY_ADDRESS SCRIPT_ADDRESS GetTransaction ReadTxIndex tx s1 = Ok (true, s2) /\
    (forall name, kv_read name (ns_names s2) = if bool_decide (name = np_name i) then Some (popped (record_of name (ns_names s))) else kv_read name (ns_names s)) /\
    (forall address, address <> [] -> names_at address (ns_addresses s2) = names_at address (ns_addresses s)).
Proof.
  intros Hmax Hn Hinv Hh Ha He Hi Hver Ed Hp Hpos.
  destruct (connect_one n s i Hmax Hn Hinv Hh Ha Hi) as (r & d & a & Ec & Hw & Ha1 & Hinv1 & Hrok & Hv & Hx). set (old := record_of (np_name i) (ns_names s)) in *.
  destruct (record_of_ok n _ (np_name i) ltac:(lia) Hinv) as [Hr _]. fold old in Hr.
  destruct Hp as [Pn Po Pi Pa _ _]. assert (Hi' := Hi). destruct Hi' as (_ & _ & Hdel & _ & Hprev). fold old in Hdel, Hprev.
  eexists. split; [exact Ec|]. unfold DisconnectInputs. rewrite Hver, Z.eqb_refl. cbn [negb]. rewrite Ed. cbn [mbind result_bind]. rewrite <- Pn, <- Po.
  cbn [ns_names ns_addresses mapNamePending]. rewrite (ReadName_ok (n + 1)) by (done || lia). cbn [mbind result_bind].
  assert (kv_read (np_name i) d = Some r) as Er by (rewrite (kv_write_law _ _ _ _ Hw); by rewrite bool_decide_eq_true_2).
  rewrite Er, Hv, last_snoc, Hpos. cbn [added ni_txPos]. rewrite Pi. cbn [ni_txPos].
  assert (CDiskTxPos.op_eq pos pos = true) as -> by (unfold CDiskTxPos.op_eq, CDiskBlockPos.op_eq; by rewrite !Z.eqb_refl). cbn [negb].
  destruct (pop_added i old (nExpiresAt r) (nLastActiveChainIndex r) Hr Hdel) as [Hqv Hqe]; [|done|].
  { intros Hne. unfold old, record_of in *. destruct (kv_read (np_name i) (ns_names s)) as [r0|] eqn:E0; [by apply (He (np_name i))|done]. }
  rewrite <- Hv, record_eta in Hqv, Hqe.
  destruct (write_popped_ok (np_name i) (np_op i) r (popped old) d Hqe) as (d2 & -> & Hd2). cbn [mbind result_bind negb].
  rewrite (address_of_vtxPos (pop_op (np_op i) r) old Hqv), Hprev. cbn [mbind result_bind].
  assert (forall name', record_of name' d2 = if bool_decide (name' = np_name i) then popped old else record_of name' d) as Hrec2.
  { intros name'. unfold record_of. rewrite Hd2. by destruct (bool_decide _). }
  assert (record_of (np_name i) d = r) as Erd by (unfold record_of; by rewrite Er).
  destruct (addresses_step d a (np_name i) (popped old) d2 (np_address i) (np_prev_address i) Ha1) as (a2 & Em & Ha2).
  { rewrite Erd. eapply added_address; [exact Hv|exact Hi]. }
  { rewrite <- Hprev. apply address_of_vtxPos, popped_vtxPos. }
  { exact Hrec2. }
  replace (if negb (np_op i =? OP_NAME_DELETE) then dn_strAddress nti else []) with (np_address i) by (rewrite Pa, <- Po; by destruct (np_op i =? OP_NAME_DELETE)).
  rewrite Em. eexists. split; [reflexivity|]. cbn [ns_names ns_addresses]. split.
  - intros name. rewrite Hd2. destruct (bool_decide_reflect (name = np_name i)) as [->|]; [done|]. rewrite (kv_write_law _ _ _ _ Hw). by rewrite bool_decide_eq_false_2.
  - intros address Hna. apply set_eq. intros name. rewrite (Ha2 name address Hna), (Ha name address Hna), Hrec2.
    destruct (bool_decide_reflect (name = np_name i)) as [->|Hne].
    + fold old. by rewrite (address_of_vtxPos (popped old) old) by apply popped_vtxPos.
    + unfold record_of. rewrite (kv_write_law _ _ _ _ Hw). by rewrite bool_decide_eq_false_2.
Qed.
End facts.

(** ** Names of a block *)

Section blocks.
Context (be : bool) (Hash Hash160 : list Z -> list Z) (PUBKEY_ADDRESS SCRIPT_ADDRESS : list Z).
Context (GetTransaction : CDiskTxPos.t -> option CTransaction) (ReadTxIndex : list Z -> option CDiskTxPos.t) (chain_height maxSize : Z) (h : heap).
Context {D A : Type} {names : KeyValueStore CNameRecord D} {nlaws : KeyValueLaws CNameRecord D}
  {addresses : KeyValueStore (gset (list Z)) A}.

Abbreviation collect := (collect_names be Hash Hash160 PUBKEY_ADDRESS SCRIPT_ADDRESS GetTransaction chain_height h).
Abbreviation connect := (connect_loop be Hash Hash160 PUBKEY_ADDRESS SCRIPT_ADDRESS GetTransaction maxSize).

(** A name without an operation keeps its record. *)
Lemma connect_loop_other name l : name ∉ np_name <$> l -> forall sn (s : name_state D A) ok s', connect l sn s = Ok (ok, s') ->
  kv_read name (ns_names s') = kv_read name (ns_names s).
Proof using nlaws.
  induction l as [|i l IH]; intros Hni sn s ok s'; cbn [connect_loop]; [by intros [= _ <-]|]. rewrite fmap_cons, not_elem_of_cons in Hni. destruct Hni as [Hne Hni].
  cbn [ns_names ns_addresses]. destruct (read_or_new (np_name i) (ns_names s)) as [[r|]|]; cbn [mbind result_bind]; [|by intros [= _ <-]|by intros [=]].
  destruct (_ && _); [intros H; by apply IH in H|]. destruct (append_op maxSize i r) as [r1|]; cbn [mbind result_bind]; [|by intros [=]].
  destruct (CalculateExpiresAt _ _ _ _ _ _ r1) as [[r2|]|]; cbn [mbind result_bind]; [|by intros [= _ <-]|by intros [=]].
  destruct (kv_write (np_name i) r2 (ns_names s)) as [d|] eqn:Ew; [|by intros [= _ <-]].
  assert (kv_read name d = kv_read name (ns_names s)) as E by (rewrite (kv_write_law _ _ _ _ Ew); by rewrite bool_decide_eq_false_2).
  destruct (MoveName _ _ _ _) as [ok' a]. destruct ok'; cbn [negb]; [|by intros [= _ <-]]. intros H. apply IH in H; [|done]. by rewrite H.
Qed.

Lemma ConnectBlock_loop v (s : name_state D A) :
  ConnectBlock be Hash Hash160 PUBKEY_ADDRESS SCRIPT_ADDRESS GetTransaction maxSize v s = connect v ∅ s.
Proof. by destruct v. Qed.

(** A block cannot both register and change a name: it is active or not. *)
Lemma collected_exclusive n d pindex b l v : names_inv n d -> n < 2 ^ 31 -> h !! pindex = Some b -> 0 <= CBlockIndex.nHeight b ->
  collect l pindex [] d = Ok v -> exclusive v /\ (length v <= length l)%nat.
Proof.
  intros Hinv Hn Hb Hh Hc. destruct (collect_names_inv _ _ _ _ _ _ _ _ n d pindex b l Hinv Hn Hb Hh [] v Hc) as (w & -> & Hlen & Hw). split; [|done].
  cbn [app]. intros i j Hi Hj Ei Ej E. apply (proj1 (Forall_forall _ _) Hw) in Hi as (t & p & f & nti & _ & _ & Hr & [Pn Po _ _ _ _]).
  apply (proj1 (Forall_forall _ _) Hw) in Hj as (t' & p' & f' & nti' & _ & _ & Hr' & [Pn' Po' _ _ _]). unfold is_change in Ej.
  unfold name_rules in Hr, Hr'. rewrite <- Pn, <- Po in Hr. rewrite <- Pn', <- Po', <- E in Hr'.
  destruct Hr as [(_ & _ & Ha)|([[? _]|?] & _)]; [|unfold OP_NAME_NEW, OP_NAME_UPDATE, OP_NAME_DELETE in *; lia..]. destruct Hr' as [(? & _)|(_ & Ha' & _)]; congruence.
Qed.
End blocks.

(** ** Sample names *)

Definition name_entry (pprev : option N) (height : Z) : CBlockIndex.t :=
  let b := CBlockIndex.null in
  CBlockIndex.mk (CBlockIndex.phashBlock b) pprev None height (CBlockIndex.nFile b) (CBlockIndex.nDataPos b)
    (CBlockIndex.nUndoPos b) (CBlockIndex.nChainTrust b) (CBlockIndex.nTx b) (CBlockIndex.nChainTx b) (CBlockIndex.nStatus b)
    (CBlockIndex.nVersion b) (CBlockIndex.hashMerkleRoot b) (CBlockIndex.nTime b) (CBlockIndex.nBits b) (CBlockIndex.nNonce b)
    (CBlockIndex.nVersionMTP b) (CBlockIndex.mtpHashValue b) (CBlockIndex.nSequenceId b) (CBlockIndex.nTimeMax b)
    (CBlockIndex.nMint b) (CBlockIndex.nMoneySupply b) (CBlockIndex.nFlags b) (CBlockIndex.nStakeModifier b)
    (CBlockIndex.nStakeModifierChecksum b) (CBlockIndex.prevoutStake b) (CBlockIndex.nStakeTime b) (CBlockIndex.hashProofOfStake b).

(** A block at height 70000 on its parent. *)
Definition name_heap : heap := <[1%N := name_entry None 69999]> (<[2%N := name_entry (Some 1%N) 70000]> ∅).

Definition the_name : list Z := [100; 110; 115].

(** A transaction at the time [t] with the operation on the name, paying to the key hash of [k]s, and an output of change; its inputs are [ins]. *)
Definition name_tx (t op days k : Z) (ins : list COutPoint.t) : CTransaction :=
  {| Transaction.nVersion := NAMECOIN_TX_VERSION; Transaction.nTime := t; vin := map (fun o => CTxIn.mk o [] 0 []) ins;
     vout := [CTxOut.mk 10000 (default [] (createNameScript false [] the_name [1; 2] days op) ++ GetScriptForDestination false (CKeyID (replicate 20 k)));
              CTxOut.mk 5 []]; nLockTime := 0 |}.

Definition name_pos (file : Z) (offset : Z) : CDiskTxPos.t := CDiskTxPos.mk (CDiskBlockPos.mk file 8) offset.

Definition name_hash (tx : CTransaction) : list Z := GetHash b58_digest false tx.

(** A registration long ago, and one with an update in the block of file 1. *)
Definition old_new : CTransaction := name_tx 1 OP_NAME_NEW 2 7 [].
Definition tx_new : CTransaction := name_tx 2 OP_NAME_NEW 300 8 [].
Definition tx_update : CTransaction := name_tx 3 OP_NAME_UPDATE 10 9 [COutPoint.mk (name_hash tx_new) 0].
(** An update of the registration that spends its change. *)
Definition tx_change : CTransaction := name_tx 4 OP_NAME_UPDATE 10 9 [COutPoint.mk (name_hash old_new) 1].

(** An update of the registration that spends its name output. *)
Definition tx_holder : CTransaction := name_tx 5 OP_NAME_UPDATE 10 9 [COutPoint.mk (name_hash old_new) 0].

Definition name_file (pos : CDiskTxPos.t) : option CTransaction :=
  if CDiskBlockPos.nFile (CDiskTxPos.block pos) =? 0 then Some old_new
  else if CDiskTxPos.nTxOffset pos =? 1 then Some tx_new
  else if CDiskTxPos.nTxOffset pos =? 2 then Some tx_update
  else if CDiskTxPos.nTxOffset pos =? 4 then Some tx_holder
  else Some tx_change.
Definition name_txindex (hash : list Z) : option CDiskTxPos.t :=
  if bool_decide (hash = name_hash tx_new) then Some (name_pos 1 1)
  else if bool_decide (hash = name_hash tx_update) then Some (name_pos 1 2)
  else if bool_decide (hash = name_hash tx_change) then Some (name_pos 1 3)
  else None.

Definition old_entry (height : Z) : CNameIndex := mk_name_index (name_pos 0 1) height OP_NAME_NEW [1; 2].
(** The record of the registration, which was at that height. *)
Definition old_record (height : Z) : CNameRecord := mk_name_record [old_entry height] (height + 350) 0.

Abbreviation name_dbs := (name_state (gmap (list Z) CNameRecord) (gmap (list Z) (gset (list Z)))).

(** The text of the address of a key. *)
Definition key_text (k : Z) : list Z :=
  match ToString b58_digest (CBitcoinAddress main_PUBKEY_ADDRESS main_SCRIPT_ADDRESS (CKeyID (replicate 20 k))) with Ok s => s | Err _ => [] end.

Definition sample_names (height : Z) : name_dbs := mk_names {[ the_name := old_record height ]} {[ key_text 7 := {[ the_name ]} ]} ∅.

Definition sample_collect (l : list (CTransaction * CDiskTxPos.t * Z)) (s : name_dbs) : result name_fault (list nameTempProxy) :=
  collect_names false b58_digest b58_digest main_PUBKEY_ADDRESS main_SCRIPT_ADDRESS name_file 70000 name_heap l 2 [] (ns_names s).
Definition sample_connect (v : list nameTempProxy) (s : name_dbs) : result name_fault (bool * name_dbs) :=
  ConnectBlock false b58_digest b58_digest main_PUBKEY_ADDRESS main_SCRIPT_ADDRESS name_file 1000 v s.
Definition sample_disconnect (tx : CTransaction) (s : name_dbs) : result name_fault (bool * name_dbs) :=
  DisconnectInputs false b58_digest b58_digest main_PUBKEY_ADDRESS main_SCRIPT_ADDRESS name_file name_txindex tx s.

Lemma sample_names_inv height : names_inv 1 (ns_names (sample_names height)).
Proof.
  intros name r Hr. cbn in Hr. apply lookup_singleton_Some in Hr as [_ <-]. split; [|done]. right. exists [], (old_entry height), [], []. split; try done. by left.
Qed.

Lemma old_new_decoded : exists nti, DecodeNameTx false b58_digest b58_digest main_PUBKEY_ADDRESS main_SCRIPT_ADDRESS old_new true = Ok (Some nti) /\
  dn_name nti = the_name /\ dn_op nti = OP_NAME_NEW /\ dn_strAddress nti = key_text 7.
Proof.
  destruct (DecodeNameTx false b58_digest b58_digest main_PUBKEY_ADDRESS main_SCRIPT_ADDRESS old_new true) as [[nti|]|] eqn:E; vm_compute in E; [|discriminate E..].
  exists nti. injection E as <-. split_and!; [reflexivity|vm_compute; reflexivity..].
Qed.

Lemma sample_history height : history_ok false b58_digest b58_digest main_PUBKEY_ADDRESS main_SCRIPT_ADDRESS name_file (ns_names (sample_names height)).
Proof.
  intros name r Hr. cbn in Hr. apply lookup_singleton_Some in Hr as [<- <-]. constructor; [|constructor]. exists old_new.
  destruct old_new_decoded as (nti & E & E1 & E2 & _). exists nti. by split_and!.
Qed.

Lemma sample_addresses height :
  addresses_inv false b58_digest b58_digest main_PUBKEY_ADDRESS main_SCRIPT_ADDRESS name_file (ns_names (sample_names height)) (ns_addresses (sample_names height)).
Proof.
  intros name address Hna. unfold names_at, record_of. cbn [kv_read map_store sample_names ns_names ns_addresses].
  destruct old_new_decoded as (nti & Ed & _ & _ & E). revert E. generalize (key_text 7). intros text E.
  assert (default ∅ (({[text := {[the_name]}]} : gmap (list Z) (gset (list Z))) !! address) = (if bool_decide (address = text) then {[the_name]} else ∅ : gset (list Z))) as ->.
  { destruct (bool_decide_reflect (address = text)) as [->|]; [by rewrite lookup_singleton_eq|by rewrite lookup_singleton_ne]. }
  destruct (decide (name = the_name)) as [->|Hn].
  - rewrite lookup_singleton_eq. change (default new_record (Some (old_record height))) with (old_record height).
    unfold last_address, deleted. change (last (vtxPos (old_record height))) with (Some (old_entry height)). cbv iota.
    change (ni_op (old_entry height) =? OP_NAME_DELETE) with false. change (ni_txPos (old_entry height)) with (name_pos 0 1). cbv iota.
    assert (name_file (name_pos 0 1) = Some old_new) as -> by reflexivity. rewrite Ed. cbn [mbind result_bind mret result_ret]. rewrite E.
    clear Ed E.
    destruct (bool_decide_reflect (address = text)) as [->|Ha]; [split; [done|set_solver]|]. split; [set_solver|]. intros [= <-]. congruence.
  - clear Ed E. rewrite lookup_singleton_ne by done. split.
    + intros H. destruct (bool_decide (address = text)); [by apply elem_of_singleton in H|by apply not_elem_of_empty in H].
    + intros H. unfold last_address in H. cbn [default from_option id new_record vtxPos last] in H. by injection H as <-.
Qed.

Lemma sample_expires height : 0 <= height <= 2 ^ 20 ->
  expires_inv false b58_digest b58_digest main_PUBKEY_ADDRESS main_SCRIPT_ADDRESS name_file (ns_names (sample_names height)).
Proof.
  intros Hh name r Hr _. cbn in Hr. apply lookup_singleton_Some in Hr as [<- <-].
  assert (rental_sum false b58_digest b58_digest main_PUBKEY_ADDRESS main_SCRIPT_ADDRESS name_file [old_entry height] 0 = Ok (Some 350)) as E by (vm_compute; reflexivity).
  unfold CalculateExpiresAt. change (deleted (old_record height)) with false. cbv iota.
  change (drop (Z.to_nat (u32 (nLastActiveChainIndex (old_record height)))) (vtxPos (old_record height))) with [old_entry height]. rewrite E. cbn [mbind result_bind].
  change (vtxPos (old_record height) !! Z.to_nat (u32 (nLastActiveChainIndex (old_record height)))) with (Some (old_entry height)). cbv iota zeta.
  cbn [old_entry ni_nHeight]. rewrite swrap_small by (unfold is_s; lia). unfold INT_MAX. rewrite (Z.gtb_ltb _ (2 ^ 31 - 1)), (proj2 (Z.ltb_ge _ _)) by lia.
  rewrite swrap_small by (unfold is_s; lia). rewrite (Z.add_comm 350). reflexivity.
Qed.

(** The days of rent times 175 do not fit an [int]: a name registered for 55000 years expires at a negative height. *)
Example rent_overflow :
  CalculateExpiresAt false b58_digest b58_digest main_PUBKEY_ADDRESS main_SCRIPT_ADDRESS (fun _ => Some (name_tx 1 OP_NAME_NEW 20000000 7 []))
    (mk_name_record [old_entry 70000] 0 0) = Ok (Some (mk_name_record [old_entry 70000] (-794897296) 0)).
Proof. vm_compute. reflexivity. Qed.

(** A name that was registered and updated in one block, after an earlier registration has expired: when the block is
    disconnected, the update, which was not recorded, takes the registration back without moving the index, and the
    expiration is read out of the range of the history. *)
Example disconnect_out_of_range :
  let block := [(tx_new, name_pos 1 1, 1000000); (tx_update, name_pos 1 2, 1000000)] in
  (v ← sample_collect block (sample_names 60000); '(ok, _) ← sample_connect v (sample_names 60000); mret (map np_op v, ok)) = Ok ([OP_NAME_NEW], true) /\
  (v ← sample_collect block (sample_names 60000); '(_, s) ← sample_connect v (sample_names 60000); sample_disconnect tx_update s) = Err name_out_of_range.
Proof. split; vm_compute; reflexivity. Qed.

(** An update that spends the change of the last transaction of the name, and not its name output, is accepted. *)
Example change_updates_name :
  dn_nOut <$> match DecodeNameTx false b58_digest b58_digest main_PUBKEY_ADDRESS main_SCRIPT_ADDRESS old_new false with Ok d => d | Err _ => None end = Some 0%nat /\
  map (fun i => COutPoint.n (CTxIn.prevout i)) (vin tx_change) = [1] /\
  (v ← sample_collect [(tx_change, name_pos 1 3, 1000000)] (sample_names 69900); mret (map np_op v)) = Ok [OP_NAME_UPDATE].
Proof. split; [|split]; vm_compute; reflexivity. Qed.

(** Two updates of one name in a block, one that spends the name output of its last transaction and one that spends
    the change: both are collected, and connecting them fails half-way, when the address index is asked to move the name
    from its old address a second time.  The record has both updates; [ConnectBlock] of [validation.cpp] ignores the failure. *)
Example two_updates_fail :
  (v ← sample_collect [(tx_holder, name_pos 1 4, 1000000); (tx_change, name_pos 1 3, 1000000)] (sample_names 69900);
   '(ok, s) ← sample_connect v (sample_names 69900);
   mret (map np_op v, ok, (fun r => length (vtxPos r)) <$> kv_read the_name (ns_names s)))
  = Ok ([OP_NAME_UPDATE; OP_NAME_UPDATE], false, Some 3%nat).
Proof. vm_compute. reflexivity. Qed.

(** ** Main results *)

(** C24: the name databases.  Let every record be earlier registrations followed by the current one (a
    [name_new], updates, possibly a deletion) with the index at its start, let the entries be of transactions in the block files
    with these operations, and let the index of addresses list a name exactly under the address of its last transaction.  If a
    block's transactions are in the block files and no name is updated or deleted twice in the block, then connecting the name
    operations that its transactions are allowed succeeds, with no failed assertion, index out of range or missing name, and all of
    this holds again.  A block that changes a name twice is outside of this: [two_updates_fail]. *)
Theorem connect_block_keeps_names (be : bool) (Hash Hash160 : list Z -> list Z) (PUBKEY_ADDRESS SCRIPT_ADDRESS : list Z)
    (GetTransaction : CDiskTxPos.t -> option CTransaction) (chain_height maxSize : Z) (h : heap)
    {D A : Type} {names : KeyValueStore CNameRecord D} {nlaws : KeyValueLaws CNameRecord D}
    {addresses : KeyValueStore (gset (list Z)) A} {alaws : KeyValueLaws (gset (list Z)) A}
    (n : Z) (pindex : N) (b : CBlockIndex.t) (l : list (CTransaction * CDiskTxPos.t * Z)) (v : list nameTempProxy) (s : name_state D A) :
  (forall name r (d : D), is_Some (kv_write name r d)) -> (forall address x (a : A), is_Some (kv_write address x a)) ->
  0 < maxSize < 2 ^ 31 -> 0 <= n -> n + Z.of_nat (length l) < 2 ^ 31 - 1 -> h !! pindex = Some b -> 0 <= CBlockIndex.nHeight b ->
  let history := history_ok be Hash Hash160 PUBKEY_ADDRESS SCRIPT_ADDRESS GetTransaction in
  let listed := addresses_inv be Hash Hash160 PUBKEY_ADDRESS SCRIPT_ADDRESS GetTransaction in
  names_inv n (ns_names s) -> history (ns_names s) -> listed (ns_names s) (ns_addresses s) ->
  Forall (fun '(tx, pos, _) => GetTransaction pos = Some tx) l ->
  collect_names be Hash Hash160 PUBKEY_ADDRESS SCRIPT_ADDRESS GetTransaction chain_height h l pindex [] (ns_names s) = Ok v ->
  NoDup (np_name <$> filter is_change v) ->
  exists s', ConnectBlock be Hash Hash160 PUBKEY_ADDRESS SCRIPT_ADDRESS GetTransaction maxSize v s = Ok (true, s') /\
    names_inv (n + Z.of_nat (length l)) (ns_names s') /\ history (ns_names s') /\ listed (ns_names s') (ns_addresses s').
Proof.
  intros Nw Aw Hmax Hn Hlen Hb Hh history listed Hinv Hhist Hlist Hl Hc Hnd.
  destruct (collected_exclusive be Hash Hash160 PUBKEY_ADDRESS SCRIPT_ADDRESS GetTransaction chain_height h n (ns_names s) pindex b l v Hinv ltac:(lia) Hb Hh Hc) as [Hex Hlv].
  pose proof (collected_ok be Hash Hash160 PUBKEY_ADDRESS SCRIPT_ADDRESS GetTransaction chain_height h n (ns_names s) pindex b l v Hinv ltac:(lia) Hhist Hb Hh Hl Hc) as Hok.
  destruct (connect_loop_total be Hash Hash160 PUBKEY_ADDRESS SCRIPT_ADDRESS GetTransaction maxSize Nw Aw v Hmax n ∅ s Hn ltac:(lia) Hinv Hhist Hlist) as (s' & E & H1 & H2 & H3);
    [eapply Forall_impl; [exact Hok|]; intros i Hi; by right|done|done|].
  exists s'. rewrite ConnectBlock_loop. split; [exact E|]. split; [eapply names_inv_mono; [|exact H1]; lia|]. by split.
Qed.

Lemma connect_block_keeps_names_witness :
  exists v s', sample_collect [(tx_new, name_pos 1 1, 1000000); (tx_update, name_pos 1 2, 1000000)] (sample_names 60000) = Ok v /\
    sample_connect v (sample_names 60000) = Ok (true, s') /\ names_inv 3 (ns_names s').
Proof.
  destruct (sample_collect [(tx_new, name_pos 1 1, 1000000); (tx_update, name_pos 1 2, 1000000)] (sample_names 60000)) as [v|] eqn:E;
    [|exfalso; vm_compute in E; discriminate E].
  exists v. destruct (connect_block_keeps_names false b58_digest b58_digest main_PUBKEY_ADDRESS main_SCRIPT_ADDRESS name_file 70000 1000 name_heap
    1 2 (name_entry (Some 1%N) 70000) [(tx_new, name_pos 1 1, 1000000); (tx_update, name_pos 1 2, 1000000)] v (sample_names 60000)
    ltac:(intros; by eexists) ltac:(intros; by eexists) ltac:(lia) ltac:(lia) ltac:(cbn; lia) ltac:(vm_compute; reflexivity) ltac:(cbn; lia)
    (sample_names_inv 60000) (sample_history 60000) (sample_addresses 60000)
    ltac:(repeat constructor) E ltac:(vm_compute in E; injection E as <-; apply (bool_decide_unpack _); vm_compute; exact I)) as (s' & E' & H & _).
  exists s'. split; [reflexivity|]. split; [exact E'|exact H].
Defined.

(** C23: an active name is its holder's.  Whatever a block contains: if a name is active at its height (registered,
    not deleted, not expired), every operation on it that the block collects is an update or a deletion, and the very
    transaction it is collected from (the one with its hash, at its position in the block files, whose name script
    has this operation on this name) spends an output of the last transaction of the name; and if the block has no such
    transaction, connecting its names, even if it fails half-way, leaves the record of the name as it was. *)
Theorem active_name_protected (be : bool) (Hash Hash160 : list Z -> list Z) (PUBKEY_ADDRESS SCRIPT_ADDRESS : list Z)
    (GetTransaction : CDiskTxPos.t -> option CTransaction) (chain_height maxSize : Z) (h : heap)
    {D A : Type} {names : KeyValueStore CNameRecord D} {nlaws : KeyValueLaws CNameRecord D} {addresses : KeyValueStore (gset (list Z)) A}
    (n : Z) (pindex : N) (b : CBlockIndex.t) (l : list (CTransaction * CDiskTxPos.t * Z)) (v : list nameTempProxy) (s : name_state D A) (name : list Z) :
  names_inv n (ns_names s) -> n < 2 ^ 31 -> h !! pindex = Some b -> 0 <= CBlockIndex.nHeight b ->
  collect_names be Hash Hash160 PUBKEY_ADDRESS SCRIPT_ADDRESS GetTransaction chain_height h l pindex [] (ns_names s) = Ok v ->
  active_at name (CBlockIndex.nHeight b) (ns_names s) = true ->
  let holder tx := spends_name be Hash GetTransaction tx name (ns_names s) in
  let made_by i tx pos := np_hash i = GetHash Hash be tx /\ ni_txPos (np_ind i) = pos /\
    exists nti, DecodeNameTx be Hash Hash160 PUBKEY_ADDRESS SCRIPT_ADDRESS tx true = Ok (Some nti) /\ dn_name nti = np_name i /\ dn_op nti = np_op i in
  (forall i, i ∈ v -> np_name i = name -> np_op i <> OP_NAME_NEW /\
     exists tx pos fee, (tx, pos, fee) ∈ l /\ made_by i tx pos /\ holder tx) /\
  ((forall tx pos fee, (tx, pos, fee) ∈ l -> ~ holder tx) -> forall ok s',
   ConnectBlock be Hash Hash160 PUBKEY_ADDRESS SCRIPT_ADDRESS GetTransaction maxSize v s = Ok (ok, s') ->
   kv_read name (ns_names s') = kv_read name (ns_names s)).
Proof.
  intros Hinv Hn Hb Hh Hc Hact holder made_by.
  destruct (collect_names_inv be Hash Hash160 PUBKEY_ADDRESS SCRIPT_ADDRESS GetTransaction chain_height h n (ns_names s) pindex b l Hinv Hn Hb Hh [] v Hc)
    as (w & Ew & _ & Hw). cbn [app] in Ew. subst w.
  assert (forall i, i ∈ v -> np_name i = name -> np_op i <> OP_NAME_NEW /\
     exists tx pos fee, (tx, pos, fee) ∈ l /\ made_by i tx pos /\ holder tx) as Hops.
  { intros i Hi E. apply (proj1 (Forall_forall _ _) Hw) in Hi as (tx & pos & fee & nti & Hin & Hd & Hr & [Pn Po Pi _ _ Ph]). unfold name_rules in Hr.
    rewrite <- Pn, <- Po, E in Hr. destruct Hr as [(_ & _ & Ha)|(Hop & _ & Hs)]; [congruence|]. split;
      [|exists tx, pos, fee; split; [done|]; split; [|done]; split; [done|]; split; [by rewrite Pi|]; by exists nti].
    unfold OP_NAME_NEW, OP_NAME_UPDATE, OP_NAME_DELETE in *. lia. }
  split; [done|]. intros Hno ok s' Hcon. rewrite ConnectBlock_loop in Hcon. refine (connect_loop_other be Hash Hash160 PUBKEY_ADDRESS SCRIPT_ADDRESS GetTransaction maxSize name v _ ∅ s ok s' Hcon).
  intros Hin. apply list_elem_of_fmap in Hin as (i & E & Hi). destruct (Hops i Hi (eq_sym E)) as (_ & tx & pos & fee & Hl & _ & Hs). by apply (Hno tx pos fee).
Qed.

(** A stranger's registration, and the update by the holder. *)
Lemma active_name_protected_witness :
  sample_collect [(tx_new, name_pos 1 1, 1000000)] (sample_names 69900) = Ok [] /\
  (forall i, i ∈ ([] : list nameTempProxy) -> np_name i = the_name -> np_op i <> OP_NAME_NEW) /\
  (forall v, sample_collect [(tx_change, name_pos 1 3, 1000000)] (sample_names 69900) = Ok v -> forall i, i ∈ v -> np_name i = the_name -> np_op i <> OP_NAME_NEW).
Proof.
  assert (sample_collect [(tx_new, name_pos 1 1, 1000000)] (sample_names 69900) = Ok []) as E by (vm_compute; reflexivity).
  assert (forall l v, sample_collect l (sample_names 69900) = Ok v -> forall i, i ∈ v -> np_name i = the_name -> np_op i <> OP_NAME_NEW) as H.
  { intros l v Ev i Hi Hname.
    exact (proj1 (proj1 (active_name_protected false b58_digest b58_digest main_PUBKEY_ADDRESS main_SCRIPT_ADDRESS name_file 70000 1000 name_heap
      1 2 (name_entry (Some 1%N) 70000) l v (sample_names 69900) the_name
      (sample_names_inv 69900) ltac:(lia) ltac:(vm_compute; reflexivity) ltac:(cbn; lia) Ev ltac:(vm_compute; reflexivity)) i Hi Hname)). }
  split; [exact E|]. split; [exact (H _ _ E)|]. intros v Ev. exact (H _ v Ev).
Defined.

(** C25: a name operation can be undone.  When an accepted name transaction is connected alone, to databases in which the
    expirations are those of the histories and no history is as long as the limit, and then disconnected,
    both succeed; the record of the name is the one before, or an empty one if there was none, all others are untouched, and every address lists
    the names that it listed before. *)
Theorem disconnect_restores_name (be : bool) (Hash Hash160 : list Z -> list Z) (PUBKEY_ADDRESS SCRIPT_ADDRESS : list Z)
    (GetTransaction : CDiskTxPos.t -> option CTransaction) (ReadTxIndex : list Z -> option CDiskTxPos.t) (chain_height maxSize : Z) (h : heap)
    {D A : Type} {names : KeyValueStore CNameRecord D} {nlaws : KeyValueLaws CNameRecord D}
    {addresses : KeyValueStore (gset (list Z)) A} {alaws : KeyValueLaws (gset (list Z)) A}
    (n : Z) (pindex : N) (b : CBlockIndex.t) (tx : CTransaction) (pos : CDiskTxPos.t) (fee : Z) (v : list nameTempProxy) (s : name_state D A) :
  (forall name r (d : D), is_Some (kv_write name r d)) -> (forall name (d : D), is_Some (kv_erase name d)) ->
  (forall address x (a : A), is_Some (kv_write address x a)) ->
  0 < maxSize < 2 ^ 31 -> 0 <= n < maxSize -> h !! pindex = Some b -> 0 <= CBlockIndex.nHeight b ->
  names_inv n (ns_names s) -> history_ok be Hash Hash160 PUBKEY_ADDRESS SCRIPT_ADDRESS GetTransaction (ns_names s) ->
  addresses_inv be Hash Hash160 PUBKEY_ADDRESS SCRIPT_ADDRESS GetTransaction (ns_names s) (ns_addresses s) ->
  expires_inv be Hash Hash160 PUBKEY_ADDRESS SCRIPT_ADDRESS GetTransaction (ns_names s) ->
  GetTransaction pos = Some tx -> ReadTxIndex (GetHash Hash be tx) = Some pos ->
  CheckInputs be Hash Hash160 PUBKEY_ADDRESS SCRIPT_ADDRESS GetTransaction chain_height h tx pindex pos fee [] (ns_names s) = Ok (true, v) ->
  exists name s1, ConnectBlock be Hash Hash160 PUBKEY_ADDRESS SCRIPT_ADDRESS GetTransaction maxSize v s = Ok (true, s1) /\
    exists s2, DisconnectInputs be Hash Hash160 PUBKEY_ADDRESS SCRIPT_ADDRESS GetTransaction ReadTxIndex tx s1 = Ok (true, s2) /\
    (forall name', kv_read name' (ns_names s2) = if bool_decide (name' = name) then Some (popped (record_of name' (ns_names s))) else kv_read name' (ns_names s)) /\
    (forall address, address <> [] -> names_at address (ns_addresses s2) = names_at address (ns_addresses s)).
Proof.
  intros Nw Ne Aw Hmax Hn Hb Hh Hinv Hhist Hlist Hexp Htx Hpos Hc. assert (Hc' := Hc).
  apply (CheckInputs_inv be Hash Hash160 PUBKEY_ADDRESS SCRIPT_ADDRESS GetTransaction chain_height h n (ns_names s) tx pindex b) in Hc' as (nti & i & Ed & _ & -> & Hp); [|done|lia|done..].
  assert (Forall (proxy_ok be Hash Hash160 PUBKEY_ADDRESS SCRIPT_ADDRESS GetTransaction (ns_names s)) [i]) as [Hi _]%Forall_cons.
  { eapply (collected_ok be Hash Hash160 PUBKEY_ADDRESS SCRIPT_ADDRESS GetTransaction chain_height h n (ns_names s) pindex b [(tx, pos, fee)]); try done; [lia|by constructor|].
    cbn [collect_names]. by rewrite Hc. }
  assert (Transaction.nVersion tx = NAMECOIN_TX_VERSION) as Hver.
  { unfold DecodeNameTx in Ed. destruct (Z.eqb_spec (Transaction.nVersion tx) NAMECOIN_TX_VERSION); [done|discriminate Ed]. }
  destruct (disconnect_one be Hash Hash160 PUBKEY_ADDRESS SCRIPT_ADDRESS GetTransaction ReadTxIndex maxSize Nw Aw Ne n s i tx nti pos (CBlockIndex.nHeight b)
    Hmax Hn Hinv Hhist Hlist Hexp Hi Hver Ed Hp Hpos) as (s1 & E1 & s2 & E2 & H).
  exists (np_name i), s1. rewrite ConnectBlock_loop. split; [exact E1|]. exists s2. by split.
Qed.

Lemma disconnect_restores_name_witness :
  exists v s1 s2, CheckInputs false b58_digest b58_digest main_PUBKEY_ADDRESS main_SCRIPT_ADDRESS name_file 70000 name_heap tx_change 2 (name_pos 1 3) 1000000 []
      (ns_names (sample_names 69900)) = Ok (true, v) /\ sample_connect v (sample_names 69900) = Ok (true, s1) /\ sample_disconnect tx_change s1 = Ok (true, s2) /\
    forall address, address <> [] -> names_at address (ns_addresses s2) = names_at address (ns_addresses (sample_names 69900)).
Proof.
  destruct (CheckInputs false b58_digest b58_digest main_PUBKEY_ADDRESS main_SCRIPT_ADDRESS name_file 70000 name_heap tx_change 2 (name_pos 1 3) 1000000 []
    (ns_names (sample_names 69900))) as [[ok v]|] eqn:E; [|exfalso; vm_compute in E; discriminate E].
  assert (ok = true) as -> by (vm_compute in E; injection E as <- _; reflexivity).
  destruct (disconnect_restores_name false b58_digest b58_digest main_PUBKEY_ADDRESS main_SCRIPT_ADDRESS name_file name_txindex 70000 1000 name_heap
    1 2 (name_entry (Some 1%N) 70000) tx_change (name_pos 1 3) 1000000 v (sample_names 69900)
    ltac:(intros; by eexists) ltac:(intros; by eexists) ltac:(intros; by eexists) ltac:(lia) ltac:(lia) ltac:(vm_compute; reflexivity) ltac:(cbn; lia)
    (sample_names_inv 69900) (sample_history 69900) (sample_addresses 69900) (sample_expires 69900 ltac:(lia))
    ltac:(vm_compute; reflexivity) ltac:(vm_compute; reflexivity) E) as (name & s1 & E1 & s2 & E2 & _ & H).
  exists v, s1, s2. split; [reflexivity|]. split; [exact E1|]. split; [exact E2|exact H].
Defined.
