(* ===== verification/BlockFiles.v ===== *)
(** * BlockFiles: the files of blocks and of undo data

    Models the part of [src/src/validation.cpp] that keeps blocks on disk: choosing a place
    ([FindBlockPos], [FindUndoPos]), writing and reading ([WriteBlockToDisk],
    [ReadBlockFromDisk], [UndoWriteToDisk], [UndoReadFromDisk]), flushing and truncating
    ([FlushBlockFile]), and pruning ([PruneOneBlockFile], [FindFilesToPrune],
    [FindFilesToPruneManual], [UnlinkPrunedFiles]), with [TruncateFile] and
    [AllocateFileRange] of [src/src/util.cpp] (its version for Linux).  What starts pruning is
    [flush_prune], the part of [FlushStateToDisk], and the command [pruneblockchain] of
    [src/src/rpc/blockchain.cpp].

    A file is its size and its bytes.  What the operating system answers is a parameter:
    whether a file can be opened, whether a write succeeds, the space that is left.  Pruning
    changes the block index of [BlockIndex] as well.  The statistics of the files are the
    vector [vinfoBlockFile]; an index out of its range is a fault. *)
From S2P Require Import Prelude Endian Uint256 Serialize ConsensusParams Transaction Chain Coins Compressor CoinsCodec Block Pow BlockIndex.
Import Header.

Definition CLIENT_VERSION : Z := 1000000 * 0 + 10000 * 14 + 100 * 2 + 1 * 0.
Definition MAX_BLOCKFILE_SIZE : Z := 0x8000000.
Definition BLOCKFILE_CHUNK_SIZE : Z := 0x1000000.
Definition UNDOFILE_CHUNK_SIZE : Z := 0x100000.
Definition MIN_BLOCKS_TO_KEEP : Z := 288.
Definition nMinDiskSpace : Z := 52428800.

(** ** Files *)

Record file : Type := mk_file { f_at : Z -> Z; f_size : Z }.

Definition empty_file : file := mk_file (fun _ => 0) 0.

(** The byte at [i], 0 past the end. *)
Definition byte_at (f : file) (i : Z) : Z := if (0 <=? i) && (i <? f_size f) then f_at f i else 0.

(** [fwrite] at a position; a gap before it reads as zeros. *)
Definition write_at (pos : Z) (data : list Z) (f : file) : file :=
  let n := Z.of_nat (length data) in
  if n =? 0 then f
  else mk_file (fun i => if (pos <=? i) && (i <? pos + n) then default 0 (data !! Z.to_nat (i - pos)) else byte_at f i)
         (Z.max (f_size f) (pos + n)).

Definition TruncateFile (length : Z) (f : file) : file := mk_file (byte_at f) length.

(** With [posix_fallocate], as on Linux: the file has at least that size.  The versions for
    other systems are not modelled. *)
Definition AllocateFileRange (offset length : Z) (f : file) : file :=
  mk_file (byte_at f) (Z.max (f_size f) (offset + length)).

(** What a reader at a position has before it. *)
Definition bytes_from (pos : Z) (f : file) : list Z := map (f_at f) (seqZ pos (f_size f - pos)).

Inductive file_kind : Set := blk | rev.
#[export] Instance file_kind_eq_dec : EqDecision file_kind.
Proof. solve_decision. Defined.

(** ** The state *)

Record file_state : Type := mk_files {
  disk_blk : gmap Z file;
  disk_rev : gmap Z file;
  vinfoBlockFile : list CBlockFileInfo.t;
  nLastBlockFile : Z;
  setDirtyFileInfo : gset Z;
  fCheckForPruning : bool;
}.

Definition disk (k : file_kind) (s : file_state) : gmap Z file := match k with blk => disk_blk s | rev => disk_rev s end.

Definition set_file (k : file_kind) (n : Z) (f : file) (s : file_state) : file_state :=
  mk_files (match k with blk => <[n := f]> (disk_blk s) | rev => disk_blk s end)
    (match k with rev => <[n := f]> (disk_rev s) | blk => disk_rev s end)
    (vinfoBlockFile s) (nLastBlockFile s) (setDirtyFileInfo s) (fCheckForPruning s).
Definition remove_file (k : file_kind) (n : Z) (s : file_state) : file_state :=
  mk_files (match k with blk => delete n (disk_blk s) | rev => disk_blk s end)
    (match k with rev => delete n (disk_rev s) | blk => disk_rev s end)
    (vinfoBlockFile s) (nLastBlockFile s) (setDirtyFileInfo s) (fCheckForPruning s).
Definition set_vinfo (v : list CBlockFileInfo.t) (s : file_state) : file_state :=
  mk_files (disk_blk s) (disk_rev s) v (nLastBlockFile s) (setDirtyFileInfo s) (fCheckForPruning s).
Definition set_nLastBlockFile (n : Z) (s : file_state) : file_state :=
  mk_files (disk_blk s) (disk_rev s) (vinfoBlockFile s) n (setDirtyFileInfo s) (fCheckForPruning s).
Definition add_dirty_file (n : Z) (s : file_state) : file_state :=
  mk_files (disk_blk s) (disk_rev s) (vinfoBlockFile s) (nLastBlockFile s) ({[n]} ∪ setDirtyFileInfo s) (fCheckForPruning s).
Definition set_fCheckForPruning (b : bool) (s : file_state) : file_state :=
  mk_files (disk_blk s) (disk_rev s) (vinfoBlockFile s) (nLastBlockFile s) (setDirtyFileInfo s) b.

(** ** The monad: a failure leaves the changes made so far *)

Inductive file_error : Set :=
| no_space          (** [AbortNode] and [state.Error("out of disk space")] *)
| cannot_open       (** the file could not be opened: the function returned false *)
| write_failed      (** the exception of a stream *)
| unreadable_data   (** an exception while reading: the function returned false *)
| mismatch          (** what was read is not what was expected: the function returned false *)
| no_input          (** the proof of work looks at an input that is not there *)
| bad_index         (** an index outside of [vinfoBlockFile] *)
| never_ends.       (** the loop of [FindBlockPos] does not end *)

Definition fop (A : Type) : Type := file_state -> result file_error A * file_state.

#[export] Instance fop_ret : MRet fop := fun _ a s => (Ok a, s).
#[export] Instance fop_bind : MBind fop := fun _ _ f m s =>
  match m s with
  | (Ok a, s') => f a s'
  | (Err e, s') => (Err e, s')
  end.

Definition fail {A} (e : file_error) : fop A := fun s => (Err e, s).
Definition fget : fop file_state := fun s => (Ok s, s).
Definition fmodify (f : file_state -> file_state) : fop unit := fun s => (Ok tt, f s).

(** [vinfoBlockFile[n]] *)
Definition info (n : Z) : fop CBlockFileInfo.t := fun s =>
  match (if n <? 0 then None else vinfoBlockFile s !! Z.to_nat n) with
  | Some i => (Ok i, s)
  | None => (Err bad_index, s)
  end.
Definition set_info (n : Z) (i : CBlockFileInfo.t) : fop unit :=
  fmodify (fun s => set_vinfo (<[Z.to_nat n := i]> (vinfoBlockFile s)) s).

Definition with_nSize (v : Z) (i : CBlockFileInfo.t) : CBlockFileInfo.t :=
  CBlockFileInfo.mk (CBlockFileInfo.nBlocks i) v (CBlockFileInfo.nUndoSize i) (CBlockFileInfo.nHeightFirst i)
    (CBlockFileInfo.nHeightLast i) (CBlockFileInfo.nTimeFirst i) (CBlockFileInfo.nTimeLast i).
Definition with_nUndoSize (v : Z) (i : CBlockFileInfo.t) : CBlockFileInfo.t :=
  CBlockFileInfo.mk (CBlockFileInfo.nBlocks i) (CBlockFileInfo.nSize i) v (CBlockFileInfo.nHeightFirst i)
    (CBlockFileInfo.nHeightLast i) (CBlockFileInfo.nTimeFirst i) (CBlockFileInfo.nTimeLast i).

(** [if (vinfoBlockFile.size() <= nFile) vinfoBlockFile.resize(nFile + 1)] *)
Definition extend_vinfo (n : Z) : fop unit :=
  fmodify (fun s => set_vinfo (vinfoBlockFile s ++ replicate (Z.to_nat (n + 1) - length (vinfoBlockFile s)) CBlockFileInfo.null) s).

Section files.
(** The operating system: whether a file can be opened and written, and the space left. *)
Context (can_open : file_kind -> Z -> bool) (can_write : file_kind -> Z -> bool) (available : Z).
Context (fPruneMode : bool).

(** Whether there is enough space; otherwise the node is told to shut down. *)
Definition CheckDiskSpace (nAdditionalBytes : Z) : bool := negb (available <? u64 (nMinDiskSpace + nAdditionalBytes)).

(** Whether the file is open; it is created when it is opened for writing. *)
Definition OpenDiskFile (pos : CDiskBlockPos.t) (k : file_kind) (fReadOnly : bool) : fop bool := fun s =>
  let n := CDiskBlockPos.nFile pos in
  if CDiskBlockPos.IsNull pos || negb (can_open k n) then (Ok false, s)
  else match disk k s !! n with
       | Some _ => (Ok true, s)
       | None => if fReadOnly then (Ok false, s) else (Ok true, set_file k n empty_file s)
       end.

(** Changes an open file. *)
Definition change_file (k : file_kind) (n : Z) (f : file -> file) : fop unit :=
  fmodify (fun s => match disk k s !! n with Some x => set_file k n (f x) s | None => s end).

(** [fileout << ...] *)
Definition write_file (k : file_kind) (n pos : Z) (data : list Z) : fop unit :=
  if can_write k n then change_file k n (write_at pos data) else fail write_failed.

Definition FlushBlockFile (fFinalize : bool) : fop unit :=
  s ← fget;
  let n := nLastBlockFile s in
  let posOld := CDiskBlockPos.mk n 0 in
  fileOld ← OpenDiskFile posOld blk false;
  _ ← (if fileOld && fFinalize then i ← info n; change_file blk n (TruncateFile (CBlockFileInfo.nSize i)) else mret tt);
  fileOld ← OpenDiskFile posOld rev false;
  if fileOld && fFinalize then i ← info n; change_file rev n (TruncateFile (CBlockFileInfo.nUndoSize i)) else mret tt.

(** The search for a file with room; each round looks at a later file. *)
Fixpoint find_file (fuel : nat) (nAddSize nFile : Z) : fop Z :=
  i ← info nFile;
  if u32 (CBlockFileInfo.nSize i + nAddSize) >=? MAX_BLOCKFILE_SIZE then
    match fuel with
    | O => fail never_ends
    | S fuel => _ ← extend_vinfo (u32 (nFile + 1)); find_file fuel nAddSize (u32 (nFile + 1))
    end
  else mret nFile.

(** Space is set aside in chunks. *)
Definition preallocate (k : file_kind) (chunk : Z) (pos : CDiskBlockPos.t) (nNewSize : Z) : fop unit :=
  let nOldChunks := u32 (CDiskBlockPos.nPos pos + chunk - 1) / chunk in
  let nNewChunks := u32 (nNewSize + chunk - 1) / chunk in
  if nNewChunks >? nOldChunks then
    _ ← (if fPruneMode then fmodify (set_fCheckForPruning true) else mret tt);
    let n := u32 (nNewChunks * chunk - CDiskBlockPos.nPos pos) in
    if CheckDiskSpace n then
      file ← OpenDiskFile pos k false;
      if (file : bool) then change_file k (CDiskBlockPos.nFile pos) (AllocateFileRange (CDiskBlockPos.nPos pos) n) else mret tt
    else fail no_space
  else mret tt.

Definition FindBlockPos (pos : CDiskBlockPos.t) (nAddSize nHeight nTime : Z) (fKnown : bool) : fop CDiskBlockPos.t :=
  s ← fget;
  let nFile := if fKnown then u32 (CDiskBlockPos.nFile pos) else u32 (nLastBlockFile s) in
  _ ← extend_vinfo nFile;
  nFile ← (if fKnown then mret nFile else find_file (S (length (vinfoBlockFile s))) nAddSize nFile);
  i ← info nFile;
  let pos := if fKnown then pos else CDiskBlockPos.mk (i32 nFile) (CBlockFileInfo.nSize i) in
  _ ← (if negb (i32 nFile =? nLastBlockFile s) then
         _ ← FlushBlockFile (negb fKnown);
         fmodify (set_nLastBlockFile (i32 nFile))
       else mret tt);
  let i := CBlockFileInfo.AddBlock nHeight nTime i in
  let nSize := if fKnown then Z.max (u32 (CDiskBlockPos.nPos pos + nAddSize)) (CBlockFileInfo.nSize i)
               else u32 (CBlockFileInfo.nSize i + nAddSize) in
  _ ← set_info nFile (with_nSize nSize i);
  _ ← (if fKnown then mret tt else preallocate blk BLOCKFILE_CHUNK_SIZE pos nSize);
  _ ← fmodify (add_dirty_file (i32 nFile));
  mret pos.

Definition FindUndoPos (nFile nAddSize : Z) : fop CDiskBlockPos.t :=
  i ← info nFile;
  let pos := CDiskBlockPos.mk nFile (CBlockFileInfo.nUndoSize i) in
  let nNewSize := u32 (CBlockFileInfo.nUndoSize i + nAddSize) in
  _ ← set_info nFile (with_nUndoSize nNewSize i);
  _ ← fmodify (add_dirty_file nFile);
  _ ← preallocate rev UNDOFILE_CHUNK_SIZE pos nNewSize;
  mret pos.

(** ** Records: the network's magic bytes, a size, the data *)

Context (be : bool) (messageStart : list Z) (Hash : list Z -> list Z).

(** Writes the prefix and the data; the position of the data. *)
Definition write_record (k : file_kind) (pos : CDiskBlockPos.t) (nSize : Z) (data : list Z) : fop CDiskBlockPos.t :=
  file ← OpenDiskFile pos k false;
  if negb file then fail cannot_open
  else
    let n := CDiskBlockPos.nFile pos in
    _ ← write_file k n (CDiskBlockPos.nPos pos) (messageStart ++ bytes_of (ser_uint32 be) (u32 nSize));
    let at_ := CDiskBlockPos.nPos pos + Z.of_nat (length messageStart) + 4 in
    _ ← write_file k n at_ data;
    mret (CDiskBlockPos.mk n (u32 at_)).

Definition disk_block : Codec CBlock := block_codec be SER_DISK CLIENT_VERSION 0.

Definition WriteBlockToDisk (block : CBlock) (pos : CDiskBlockPos.t) : fop CDiskBlockPos.t :=
  write_record blk pos (GetSerializeSize disk_block block) (bytes_of disk_block block).

Context (verify : Z -> CBlockHeader -> list Z -> bool * list Z) (params : Params.t).

(** The bytes from a position of a file that is opened for reading. *)
Definition read_file (k : file_kind) (pos : CDiskBlockPos.t) : fop (list Z) :=
  file ← OpenDiskFile pos k true;
  if negb file then fail cannot_open
  else
    s ← fget;
    match disk k s !! CDiskBlockPos.nFile pos with
    | Some f => mret (bytes_from (CDiskBlockPos.nPos pos) f)
    | None => fail cannot_open
    end.

Definition ReadBlockFromDisk (pos : CDiskBlockPos.t) : fop CBlock :=
  bs ← read_file blk pos;
  match Unserialize disk_block bs with
  | Err _ => fail unreadable_data
  | Ok (block, _) =>
      if IsProofOfWork be block && negb (CheckMerkleTreeProof params verify (header block)) then fail mismatch
      else if IsProofOfWork be block then
        match CheckBlockProofOfWork be Hash params (header block) with
        | Some true => mret block
        | Some false => fail mismatch
        | None => fail no_input
        end
      else mret block
  end.

(** [ReadBlockFromDisk(block, pindex, params)], at the position and with the hash of the entry. *)
Definition ReadBlockFromDisk_index (pos : CDiskBlockPos.t) (hash : list Z) : fop CBlock :=
  block ← ReadBlockFromDisk pos;
  if Uint256.op_eq (block_hash be Hash (header block)) hash then mret block else fail mismatch.

Context (IsFullyValid : list Z -> bool) (PubKey_Decompress : list Z -> option (list Z)).
Definition disk_undo : Codec (list (list CTxInUndo.t)) := ser_blockundo be IsFullyValid PubKey_Decompress.

(** The checksum over the hash of the previous block and the undo data. *)
Definition undo_checksum (hashBlock : list Z) (undo : list (list CTxInUndo.t)) : list Z := Hash (hashBlock ++ bytes_of disk_undo undo).

Definition UndoWriteToDisk (undo : list (list CTxInUndo.t)) (pos : CDiskBlockPos.t) (hashBlock : list Z) : fop CDiskBlockPos.t :=
  write_record rev pos (GetSerializeSize disk_undo undo) (bytes_of disk_undo undo ++ undo_checksum hashBlock undo).

Definition UndoReadFromDisk (pos : CDiskBlockPos.t) (hashBlock : list Z) : fop (list (list CTxInUndo.t)) :=
  bs ← read_file rev pos;
  match ('(undo, bs) ← Unserialize disk_undo bs; '(sum, _) ← Serialize.read 32 bs; Ok (undo, sum)) with
  | Err _ => fail unreadable_data
  | Ok (undo, hashChecksum) => if Uint256.op_eq hashChecksum (undo_checksum hashBlock undo) then mret undo else fail mismatch
  end.

(** What [AcceptBlock] does to store a new block, with its size on the disk. *)
Definition store_block (block : CBlock) (nHeight : Z) : fop CDiskBlockPos.t :=
  let nBlockSize := GetSerializeSize disk_block block in
  pos ← FindBlockPos CDiskBlockPos.null (u32 (nBlockSize + 8)) nHeight (GetBlockTime (header block)) false;
  WriteBlockToDisk block pos.

(** What [AcceptBlock] does with a block that is in a file already. *)
Definition note_block (block : CBlock) (nHeight : Z) (dbp : CDiskBlockPos.t) : fop CDiskBlockPos.t :=
  FindBlockPos dbp (u32 (GetSerializeSize disk_block block + 8)) nHeight (GetBlockTime (header block)) true.

(** What [ConnectBlock] does to store the undo data of a block of the file [nFile]. *)
Definition store_undo (undo : list (list CTxInUndo.t)) (nFile : Z) (hashPrev : list Z) : fop CDiskBlockPos.t :=
  pos ← FindUndoPos nFile (u32 (GetSerializeSize disk_undo undo + 40));
  UndoWriteToDisk undo pos hashPrev.
End files.

(** ** Pruning *)

(** The loop over the block index. *)
Fixpoint prune_entries (fileNumber : Z) (l : list N) : op unit :=
  match l with
  | [] => mret tt
  | pindex :: l' =>
      b ← load pindex;
      _ ← (if CBlockIndex.nFile b =? fileNumber then
             let b' := Entry.clear_status CBlockIndex.BLOCK_HAVE_UNDO (Entry.clear_status CBlockIndex.BLOCK_HAVE_DATA b) in
             _ ← store pindex (Entry.set_data (CBlockIndex.nTx b) (CBlockIndex.nChainTx b) 0 0 0 b');
             _ ← mark_dirty pindex;
             modify (fun s => set_mapBlocksUnlinked
               (filter (fun kv => kv <> (CBlockIndex.pprev b, pindex)) (mapBlocksUnlinked s)) s)
           else mret tt);
      prune_entries fileNumber l'
  end.

Definition node_files : Type := state * file_state.

Definition PruneOneBlockFile (fileNumber : Z) (s : node_files) : result fault node_files :=
  '(_, x) ← prune_entries fileNumber (map snd (map_to_list (mapBlockIndex s.1))) s.1;
  if (fileNumber <? 0) || negb (Z.to_nat fileNumber <? length (vinfoBlockFile s.2))%nat then Err Chain.out_of_range
  else Ok (x, add_dirty_file fileNumber (set_vinfo (<[Z.to_nat fileNumber := CBlockFileInfo.null]> (vinfoBlockFile s.2)) s.2)).

(** Files without their names; one that is missing is no error. *)
Definition UnlinkPrunedFiles (setFilesToPrune : list Z) (s : file_state) : file_state :=
  foldl (fun s n => remove_file rev n (remove_file blk n s)) s setFilesToPrune.

Definition CalculateCurrentUsage (s : file_state) : Z :=
  foldl (fun retval i => u64 (retval + u32 (CBlockFileInfo.nSize i + CBlockFileInfo.nUndoSize i))) 0 (vinfoBlockFile s).

Definition info_of (s : file_state) (n : Z) : result fault CBlockFileInfo.t :=
  match (if n <? 0 then None else vinfoBlockFile s !! Z.to_nat n) with Some i => Ok i | None => Err Chain.out_of_range end.

(** The loop of [FindFilesToPruneManual]; the files that were pruned. *)
Fixpoint prune_manual_loop (nLastBlockWeCanPrune : Z) (files : list Z) (s : node_files) : result fault (node_files * list Z) :=
  match files with
  | [] => Ok (s, [])
  | fileNumber :: files' =>
      i ← info_of s.2 fileNumber;
      if (CBlockFileInfo.nSize i =? 0) || (CBlockFileInfo.nHeightLast i >? nLastBlockWeCanPrune)
      then prune_manual_loop nLastBlockWeCanPrune files' s
      else
        s ← PruneOneBlockFile fileNumber s;
        '(s, l) ← prune_manual_loop nLastBlockWeCanPrune files' s;
        Ok (s, fileNumber :: l)
  end.

(** The height of the tip, if there is one. *)
Definition tip_height (s : state) : result fault (option Z) :=
  match Tip s with
  | None => Ok None
  | Some p => b ← deref (entries s) p; Ok (Some (CBlockIndex.nHeight b))
  end.

Definition FindFilesToPruneManual (fPruneMode : bool) (nManualPruneHeight : Z) (s : node_files) : result fault (node_files * list Z) :=
  if negb (fPruneMode && (nManualPruneHeight >? 0)) then Err assertion_failed
  else
    tip ← tip_height s.1;
    match tip with
    | None => Ok (s, [])
    | Some h =>
        let nLastBlockWeCanPrune := Z.min (u32 nManualPruneHeight) (u32 (h - MIN_BLOCKS_TO_KEEP)) in
        prune_manual_loop nLastBlockWeCanPrune (seqZ 0 (nLastBlockFile s.2)) s
    end.

(** The loop of [FindFilesToPrune]. *)
Fixpoint prune_loop_files (nPruneTarget nBuffer nLastBlockWeCanPrune : Z) (files : list Z) (nCurrentUsage : Z) (s : node_files)
    : result fault (node_files * list Z) :=
  match files with
  | [] => Ok (s, [])
  | fileNumber :: files' =>
      i ← info_of s.2 fileNumber;
      let nBytesToPrune := u32 (CBlockFileInfo.nSize i + CBlockFileInfo.nUndoSize i) in
      if CBlockFileInfo.nSize i =? 0 then prune_loop_files nPruneTarget nBuffer nLastBlockWeCanPrune files' nCurrentUsage s
      else if u64 (nCurrentUsage + nBuffer) <? nPruneTarget then Ok (s, [])
      else if CBlockFileInfo.nHeightLast i >? nLastBlockWeCanPrune then prune_loop_files nPruneTarget nBuffer nLastBlockWeCanPrune files' nCurrentUsage s
      else
        s ← PruneOneBlockFile fileNumber s;
        '(s, l) ← prune_loop_files nPruneTarget nBuffer nLastBlockWeCanPrune files' (u64 (nCurrentUsage - nBytesToPrune)) s;
        Ok (s, fileNumber :: l)
  end.

Definition FindFilesToPrune (nPruneTarget nPruneAfterHeight : Z) (s : node_files) : result fault (node_files * list Z) :=
  tip ← tip_height s.1;
  match tip with
  | None => Ok (s, [])
  | Some h =>
      if (nPruneTarget =? 0) || (u64 h <=? nPruneAfterHeight) then Ok (s, [])
      else
        let nLastBlockWeCanPrune := u32 (h - MIN_BLOCKS_TO_KEEP) in
        let nCurrentUsage := CalculateCurrentUsage s.2 in
        let nBuffer := u32 (BLOCKFILE_CHUNK_SIZE + UNDOFILE_CHUNK_SIZE) in
        if u64 (nCurrentUsage + nBuffer) >=? nPruneTarget
        then prune_loop_files nPruneTarget nBuffer nLastBlockWeCanPrune (seqZ 0 (nLastBlockFile s.2)) nCurrentUsage s
        else Ok (s, [])
  end.

(** The pruning at the start of [FlushStateToDisk]; the files that are to be removed. *)
Definition flush_prune (fPruneMode fReindex : bool) (nManualPruneHeight nPruneTarget nPruneAfterHeight : Z) (s : node_files)
    : result fault (node_files * list Z) :=
  if fPruneMode && (fCheckForPruning s.2 || (nManualPruneHeight >? 0)) && negb fReindex then
    if nManualPruneHeight >? 0 then FindFilesToPruneManual fPruneMode nManualPruneHeight s
    else
      '(s, l) ← FindFilesToPrune nPruneTarget nPruneAfterHeight s;
      Ok ((s.1, set_fCheckForPruning false s.2), l)
  else Ok (s, []).

Inductive rpc_error : Set := RPC_METHOD_NOT_FOUND | RPC_INVALID_PARAMETER | RPC_INTERNAL_ERROR.

(** The command [pruneblockchain] of [rpc/blockchain.cpp]: an error, or the height and what
    [PruneBlockFilesManual] does. *)
Definition pruneblockchain (fPruneMode fReindex : bool) (heightParam nPruneTarget nPruneAfterHeight : Z) (s : node_files)
    : result fault (rpc_error + Z * (node_files * list Z)) :=
  if negb fPruneMode then Ok (inl RPC_METHOD_NOT_FOUND)
  else if heightParam <? 0 then Ok (inl RPC_INVALID_PARAMETER)
  else
    heightParam ← (if heightParam >? 1000000000 then
                     pindex ← CChain.FindEarliestAtLeast (entries s.1) (chainActive s.1) (heightParam - 7200);
                     match pindex with
                     | None => Ok None
                     | Some p => b ← deref (entries s.1) p; Ok (Some (CBlockIndex.nHeight b))
                     end
                   else Ok (Some heightParam));
    match heightParam with
    | None => Ok (inl RPC_INTERNAL_ERROR)
    | Some heightParam =>
        let height := u32 heightParam in
        let chainHeight := u32 (CChain.Height (chainActive s.1)) in
        if chainHeight <? nPruneAfterHeight then Ok (inl RPC_INTERNAL_ERROR)
        else if height >? chainHeight then Ok (inl RPC_INVALID_PARAMETER)
        else
          let height := if height >? u32 (chainHeight - MIN_BLOCKS_TO_KEEP) then u32 (chainHeight - MIN_BLOCKS_TO_KEEP) else height in
          x ← flush_prune fPruneMode fReindex (i32 height) nPruneTarget nPruneAfterHeight s;
          Ok (inr (height, x))
    end.

(** ** What a file holds *)

Definition recorded (k : file_kind) (i : CBlockFileInfo.t) : Z :=
  match k with blk => CBlockFileInfo.nSize i | rev => CBlockFileInfo.nUndoSize i end.

(** The size of a file according to its statistics. *)
Definition rec_size (s : file_state) (k : file_kind) (n : Z) : Z :=
  match (if n <? 0 then None else vinfoBlockFile s !! Z.to_nat n) with Some i => recorded k i | None => 0 end.

(** The bytes [bs] are in the file from position [a] on. *)
Definition has_bytes (s : file_state) (k : file_kind) (n a : Z) (bs : list Z) : Prop :=
  exists f, disk k s !! n = Some f /\ 0 <= a /\ a + Z.of_nat (length bs) <= f_size f /\
    forall j b, bs !! j = Some b -> f_at f (a + Z.of_nat j) = b.

(** ... and in the part that is in use. *)
Definition holds (s : file_state) (k : file_kind) (n a : Z) (bs : list Z) : Prop :=
  has_bytes s k n a bs /\ a + Z.of_nat (length bs) <= rec_size s k n.

(** What the files with number [n] hold stays. *)
Definition keeps (n : Z) (s s' : file_state) : Prop := forall k,
  rec_size s k n <= rec_size s' k n /\ forall a bs, holds s k n a bs -> has_bytes s' k n a bs.

Lemma keeps_refl n s : keeps n s s.
Proof. intros k. split; [lia|]. by intros a bs [? _]. Qed.

Lemma keeps_holds n s s' k a bs : keeps n s s' -> holds s k n a bs -> holds s' k n a bs.
Proof. intros Hk Hh. destruct (Hk k) as [Hr Hb]. split; [by apply Hb|]. destruct Hh as [_ ?]. lia. Qed.

Lemma keeps_trans n s s' s'' : keeps n s s' -> keeps n s' s'' -> keeps n s s''.
Proof.
  intros H1 H2 k. split; [destruct (H1 k), (H2 k); lia|]. intros a bs Hh. apply (H2 k). by eapply keeps_holds.
Qed.

Lemma byte_at_in f i : 0 <= i < f_size f -> byte_at f i = f_at f i.
Proof. intros Hi. unfold byte_at. by rewrite (proj2 (Z.leb_le _ _)), (proj2 (Z.ltb_lt _ _)) by lia. Qed.

Lemma bytes_from_prefix f a bs : 0 <= a -> a + Z.of_nat (length bs) <= f_size f ->
  (forall j b, bs !! j = Some b -> f_at f (a + Z.of_nat j) = b) -> exists rest, bytes_from a f = bs ++ rest.
Proof.
  intros Ha Hs Hb. unfold bytes_from. exists (drop (length bs) (map (f_at f) (seqZ a (f_size f - a)))).
  transitivity (take (length bs) (map (f_at f) (seqZ a (f_size f - a))) ++ drop (length bs) (map (f_at f) (seqZ a (f_size f - a))));
    [by rewrite take_drop|]. f_equal.
  apply list_eq. intros j. destruct (decide (j < length bs)%nat) as [Hj|Hj].
  - destruct (lookup_lt_is_Some_2 bs j Hj) as [b Eb]. rewrite lookup_take_lt, list_lookup_fmap, lookup_seqZ_lt, Eb by lia.
    cbn. f_equal. by apply Hb.
  - rewrite (lookup_ge_None_2 bs) by lia. apply lookup_take_ge. lia.
Qed.

Section frames.
Context (n : Z).

(** Operations that do not touch the files. *)
Lemma keeps_disk s s' : (forall k, disk k s' = disk k s) -> (forall k, rec_size s k n <= rec_size s' k n) -> keeps n s s'.
Proof. intros Hd Hr k. split; [done|]. intros a bs [(f & Ef & Hf) _]. exists f. by rewrite Hd. Qed.

Lemma disk_set_file k m f s k' : disk k' (set_file k m f s) = if decide (k' = k) then <[m := f]> (disk k s) else disk k' s.
Proof. destruct k, k'; done. Qed.

Lemma rec_set_file k m f s k' : rec_size (set_file k m f s) k' n = rec_size s k' n.
Proof. done. Qed.

(** A new version of a file that has the same bytes below [lim] keeps what is below. *)
Lemma has_bytes_set k m f g s k' a bs lim : disk k s !! m = Some f ->
  (k' = k -> m = n -> a + Z.of_nat (length bs) <= lim /\ lim <= f_size g \/ a + Z.of_nat (length bs) <= f_size g /\ a + Z.of_nat (length bs) <= lim) ->
  (forall i, 0 <= i < lim -> i < f_size f -> f_at g i = f_at f i) ->
  has_bytes s k' n a bs -> has_bytes (set_file k m g s) k' n a bs.
Proof.
  intros Ef Hl Hg (x & Ex & Ha & Hs & Hb). destruct (decide (k' = k /\ m = n)) as [[-> ->]|Hne].
  - rewrite Ef in Ex. injection Ex as <-. exists g. rewrite disk_set_file, decide_True, lookup_insert_eq by done.
    split_and!; [done|done| |]; [destruct (Hl eq_refl eq_refl); lia|].
    intros j b Ej. pose proof (lookup_lt_Some _ _ _ Ej). rewrite Hg; [by apply Hb|destruct (Hl eq_refl eq_refl); lia|lia].
  - exists x. rewrite disk_set_file. split; [|done]. case_decide; [|done]. subst k'. rewrite lookup_insert_ne by (intros ->; tauto). done.
Qed.

Lemma has_bytes_write k m pos data s k' a bs : 0 <= pos -> (k' = k -> m = n -> a + Z.of_nat (length bs) <= pos) ->
  has_bytes s k' n a bs -> has_bytes (change_file k m (write_at pos data) s).2 k' n a bs.
Proof.
  intros Hp Hl Hh. cbn. destruct (disk k s !! m) as [f|] eqn:Ef; [|done].
  unfold write_at. destruct (Z.eqb_spec (Z.of_nat (length data)) 0) as [E|E].
  - eapply (has_bytes_set k m f f s k' a bs (f_size f)); try done. intros -> ->. destruct Hh as (x & Ex & _ & Hs & _).
    rewrite Ef in Ex. injection Ex as <-. right. lia.
  - eapply (has_bytes_set k m f); [done| | |done].
    + intros -> ->. cbn [f_size]. right. split; [|exact (Hl eq_refl eq_refl)]. specialize (Hl eq_refl eq_refl). lia.
    + intros i Hi Hf. cbn [f_at]. rewrite (proj2 (Z.leb_gt pos i)) by lia. cbn [andb]. apply byte_at_in. lia.
Qed.

Lemma keeps_alloc k m offset len s : keeps n s (change_file k m (AllocateFileRange offset len) s).2.
Proof.
  intros k'. cbn. destruct (disk k s !! m) as [f|] eqn:Ef; [|split; [lia|]; by intros a bs [? _]].
  split; [by rewrite rec_set_file|]. intros a bs [Hh _].
  eapply (has_bytes_set k m f _ s k' a bs (f_size f)); [done| | |done].
  - intros -> ->. destruct Hh as (x & Ex & _ & Hs & _). rewrite Ef in Ex. injection Ex as <-. left. cbn [AllocateFileRange f_size]. lia.
  - intros i Hi Hf. cbn [AllocateFileRange f_at]. apply byte_at_in. lia.
Qed.

(** Truncation to the recorded size. *)
Lemma keeps_truncate k m len s : rec_size s k m <= len -> keeps n s (change_file k m (TruncateFile len) s).2.
Proof.
  intros Hl k'. cbn. destruct (disk k s !! m) as [f|] eqn:Ef; [|split; [lia|]; by intros a bs [? _]].
  split; [by rewrite rec_set_file|]. intros a bs [Hh Hr].
  eapply (has_bytes_set k m f _ s k' a bs (f_size f)); [done| | |done].
  - intros -> ->. destruct Hh as (x & Ex & _ & Hs & _). rewrite Ef in Ex. injection Ex as <-. right. cbn [TruncateFile f_size]. lia.
  - intros i Hi Hf. cbn [TruncateFile f_at]. apply byte_at_in. lia.
Qed.

Lemma keeps_open can_open pos k ro s : keeps n s (OpenDiskFile can_open pos k ro s).2.
Proof.
  unfold OpenDiskFile. destruct (_ || _); [apply keeps_refl|]. destruct (disk k s !! _) as [f|] eqn:Ef; [apply keeps_refl|].
  destruct ro; [apply keeps_refl|]. cbn [snd]. intros k'. split; [by rewrite rec_set_file|]. intros a bs [(f & E & Hf) _].
  exists f. split; [|done]. rewrite disk_set_file. case_decide; [|done]. subst k'. rewrite lookup_insert_ne; [done|congruence].
Qed.
End frames.

(** The states a computation in the monad passes through. *)
Lemma fop_bind_inv {A B} (m : fop A) (f : A -> fop B) s r s' : (m ≫= f) s = (r, s') ->
  (exists a s1, m s = (Ok a, s1) /\ f a s1 = (r, s')) \/ (exists e, m s = (Err e, s') /\ r = Err e).
Proof.
  unfold mbind, fop_bind. destruct (m s) as [[a|e] s1]; intros E; [left; by exists a, s1|].
  right. injection E as <- <-. by exists e.
Qed.

(** A computation that keeps what the files hold. *)
Definition harmless_op {A} (n : Z) (m : fop A) : Prop := forall s, keeps n s (m s).2.

Lemma harmless_bind {A B} n (m : fop A) (f : A -> fop B) : harmless_op n m -> (forall a, harmless_op n (f a)) -> harmless_op n (m ≫= f).
Proof.
  intros Hm Hf s. specialize (Hm s). unfold mbind, fop_bind. destruct (m s) as [[a|e] s1]; [|done]. eapply keeps_trans; [exact Hm|apply Hf].
Qed.
Lemma harmless_ret {A} n (a : A) : harmless_op n (mret a). Proof. intros s. apply keeps_refl. Qed.
Lemma harmless_fail {A} n e : harmless_op n (fail (A := A) e). Proof. intros s. apply keeps_refl. Qed.
Lemma harmless_get n : harmless_op n fget. Proof. intros s. apply keeps_refl. Qed.
Lemma harmless_info n m : harmless_op n (info m).
Proof. intros s. unfold info. destruct (if m <? 0 then _ else _); apply keeps_refl. Qed.
Lemma harmless_modify n f : (forall s k, disk k (f s) = disk k s) -> (forall s, vinfoBlockFile (f s) = vinfoBlockFile s) -> harmless_op n (fmodify f).
Proof. intros Hd Hv s. apply keeps_disk; [intros k; apply Hd|]. intros k. unfold rec_size. cbn. by rewrite Hv. Qed.
Lemma harmless_if {A} n (b : bool) (m1 m2 : fop A) : harmless_op n m1 -> harmless_op n m2 -> harmless_op n (if b then m1 else m2).
Proof. by destruct b. Qed.
Lemma harmless_open n can_open pos k ro : harmless_op n (OpenDiskFile can_open pos k ro).
Proof. intros s. apply keeps_open. Qed.
Lemma harmless_alloc n k m o l : harmless_op n (change_file k m (AllocateFileRange o l)).
Proof. intros s. apply keeps_alloc. Qed.
Create HintDb files.
#[export] Hint Resolve harmless_ret harmless_fail harmless_get harmless_info harmless_open harmless_alloc harmless_if : files.

Lemma harmless_extend n m : harmless_op n (extend_vinfo m).
Proof.
  intros s. apply keeps_disk; [by intros []|]. intros k. unfold rec_size. cbn. destruct (n <? 0); [lia|].
  destruct (vinfoBlockFile s !! Z.to_nat n) as [i|] eqn:E; [by rewrite (lookup_app_l_Some _ _ _ _ E)|].
  apply lookup_ge_None in E. rewrite lookup_app_r by lia.
  destruct (replicate _ _ !! _) as [i|] eqn:Ei; [|lia]. apply lookup_replicate in Ei as [-> _]. by destruct k.
Qed.

Lemma harmless_preallocate n can_open available prune k chunk pos size : harmless_op n (preallocate can_open available prune k chunk pos size).
Proof.
  unfold preallocate. apply harmless_if; [|auto with files]. apply harmless_bind; [|intros _; apply harmless_if; [apply harmless_bind|]; auto with files].
  apply harmless_if; [|auto with files]. by apply harmless_modify.
Qed.

Lemma harmless_find n fuel add m : harmless_op n (find_file fuel add m).
Proof.
  revert m. induction fuel as [|fuel IH]; intros m; cbn [find_file]; (apply harmless_bind; [auto with files|]); intros i; apply harmless_if; auto with files.
  apply harmless_bind; [apply harmless_extend|]. intros _. apply IH.
Qed.

Lemma harmless_flush n can_open fin : harmless_op n (FlushBlockFile can_open fin).
Proof.
  assert (forall k m sz, (forall i, recorded k i = sz i) -> harmless_op n (i ← info m; change_file k m (TruncateFile (sz i)))) as Ht.
  { intros k m sz Hsz s. unfold mbind, fop_bind, info. destruct (if m <? 0 then _ else _) as [i|] eqn:E; [|apply keeps_refl].
    apply keeps_truncate. unfold rec_size. rewrite E. by rewrite Hsz. }
  unfold FlushBlockFile. apply harmless_bind; [auto with files|]. intros s0. apply harmless_bind; [auto with files|]. intros o.
  apply harmless_bind; [apply harmless_if; [by apply (Ht blk)|auto with files]|]. intros _. apply harmless_bind; [auto with files|].
  intros o'. apply harmless_if; [by apply (Ht rev)|auto with files].
Qed.

(** ** Places for new records *)

(** The statistics stay as they are. *)
Definition same_info {A} (m : fop A) : Prop := forall s, vinfoBlockFile (m s).2 = vinfoBlockFile s.

Lemma same_bind {A B} (m : fop A) (f : A -> fop B) : same_info m -> (forall a, same_info (f a)) -> same_info (m ≫= f).
Proof.
  intros Hm Hf s. specialize (Hm s). unfold mbind, fop_bind. destruct (m s) as [[a|e] s1]; [|done]. cbn [snd] in Hm. rewrite <- Hm. apply Hf.
Qed.
Lemma same_if {A} (b : bool) (m1 m2 : fop A) : same_info m1 -> same_info m2 -> same_info (if b then m1 else m2).
Proof. by destruct b. Qed.
Lemma same_ret {A} (a : A) : same_info (mret a). Proof. done. Qed.
Lemma same_fail {A} e : same_info (fail (A := A) e). Proof. done. Qed.
Lemma same_get : same_info fget. Proof. done. Qed.
Lemma same_info_of n : same_info (info n). Proof. intros s. unfold info. by destruct (if n <? 0 then _ else _). Qed.
Lemma same_open can_open pos k ro : same_info (OpenDiskFile can_open pos k ro).
Proof. intros s. unfold OpenDiskFile. destruct (_ || _); [done|]. destruct (disk k s !! _); [done|]. by destruct ro, k. Qed.
Lemma same_change k n f : same_info (change_file k n f).
Proof. intros s. cbn. by destruct (disk k s !! n). Qed.
Lemma same_modify f : (forall s, vinfoBlockFile (f s) = vinfoBlockFile s) -> same_info (fmodify f). Proof. intros Hf s. apply Hf. Qed.
#[export] Hint Resolve same_ret same_fail same_get same_info_of same_open same_change same_if : files.

Lemma same_flush can_open fin : same_info (FlushBlockFile can_open fin).
Proof. unfold FlushBlockFile. repeat (apply same_bind; [auto with files|intros ?]); auto using same_bind with files. Qed.

Lemma same_preallocate can_open available prune k chunk pos size : same_info (preallocate can_open available prune k chunk pos size).
Proof.
  unfold preallocate. apply same_if; [|auto with files]. apply same_bind; [|intros _; apply same_if; [apply same_bind|]; auto with files].
  apply same_if; [|auto with files]. by apply same_modify.
Qed.

(** The state with as many new statistics. *)
Definition grown (k : nat) (s : file_state) : file_state := set_vinfo (vinfoBlockFile s ++ replicate k CBlockFileInfo.null) s.

Lemma grown_0 s : grown 0 s = s.
Proof. unfold grown. cbn [replicate]. rewrite app_nil_r. by destruct s. Qed.

Lemma extend_grown m s : exists k, extend_vinfo m s = (Ok tt, grown k s) /\ (m < Z.of_nat (length (vinfoBlockFile s) + k))%Z /\
  k = (Z.to_nat (m + 1) - length (vinfoBlockFile s))%nat.
Proof. exists (Z.to_nat (m + 1) - length (vinfoBlockFile s))%nat. split_and!; [done|lia|done]. Qed.

Lemma info_at m s i : 0 <= m -> vinfoBlockFile s !! Z.to_nat m = Some i -> info m s = (Ok i, s).
Proof. intros Hm E. unfold info. by rewrite (proj2 (Z.ltb_ge _ _)), E by lia. Qed.

Lemma rec_at m s i k : 0 <= m -> vinfoBlockFile s !! Z.to_nat m = Some i -> rec_size s k m = recorded k i.
Proof. intros Hm E. unfold rec_size. by rewrite (proj2 (Z.ltb_ge _ _)), E by lia. Qed.

Lemma rec_grown j s k n : rec_size (grown j s) k n = rec_size s k n.
Proof.
  unfold rec_size. destruct (n <? 0); [done|]. cbn. destruct (vinfoBlockFile s !! Z.to_nat n) as [i|] eqn:E; [by rewrite (lookup_app_l_Some _ _ _ _ E)|].
  apply lookup_ge_None in E. rewrite lookup_app_r by lia.
  destruct (replicate _ _ !! _) as [i|] eqn:Ei; [|done]. apply lookup_replicate in Ei as [-> _]. by destruct k.
Qed.

(** The numbers stay far from the limits of their types. *)
Record room (s : file_state) : Prop := {
  room_sizes : forall k n, 0 <= rec_size s k n < 2 ^ 31;
  room_files : Z.of_nat (length (vinfoBlockFile s)) < 2 ^ 29;
  room_last : 0 <= nLastBlockFile s < 2 ^ 29;
}.

Lemma find_file_spec fuel add m s : (forall k n, 0 <= rec_size s k n < 2 ^ 31) -> 0 <= add < MAX_BLOCKFILE_SIZE ->
  0 <= m < Z.of_nat (length (vinfoBlockFile s)) -> Z.of_nat (length (vinfoBlockFile s)) + Z.of_nat fuel < 2 ^ 31 ->
  (length (vinfoBlockFile s) - Z.to_nat m <= fuel)%nat \/ vinfoBlockFile s !! Z.to_nat m = Some CBlockFileInfo.null ->
  exists m' j i, find_file fuel add m s = (Ok m', grown j s) /\ 0 <= m' < 2 ^ 31 /\
    vinfoBlockFile (grown j s) !! Z.to_nat m' = Some i /\ CBlockFileInfo.nSize i + add < MAX_BLOCKFILE_SIZE.
Proof.
  revert m s. induction fuel as [|fuel IH]; intros m s Hr Ha Hm Hlen Hf; cbn [find_file];
    destruct (lookup_lt_is_Some_2 (vinfoBlockFile s) (Z.to_nat m) ltac:(lia)) as [i Ei];
    unfold mbind, fop_bind; rewrite (info_at m s i) by (done || lia);
    pose proof (rec_at m s i blk ltac:(lia) Ei) as Hi; specialize (Hr blk m) as Hri; rewrite Hi in Hri; cbn [recorded] in Hri;
    assert (MAX_BLOCKFILE_SIZE = 2 ^ 27) as HM by done;
    rewrite uwrap_small, Z.geb_leb by (unfold is_u; lia);
    destruct (Z.leb_spec MAX_BLOCKFILE_SIZE (CBlockFileInfo.nSize i + add)) as [Hfull|Hfit].
  - exfalso. destruct Hf as [?|E]; [lia|]. rewrite Ei in E. injection E as ->. cbn in Hfull. lia.
  - exists m, 0%nat, i. rewrite grown_0. split_and!; (done || lia).
  - assert (u32 (m + 1) = m + 1) as -> by (apply uwrap_small; unfold is_u; lia).
    destruct (extend_grown (m + 1) s) as (j & -> & Hj & Hje).
    destruct (IH (m + 1) (grown j s)) as (m' & j' & i' & E & Hm' & Ei' & Hfit).
    + intros k n. rewrite rec_grown. apply Hr.
    + done.
    + cbn. rewrite length_app, length_replicate. lia.
    + cbn. rewrite length_app, length_replicate. lia.
    + cbn. rewrite length_app, length_replicate. destruct (decide (m + 1 < Z.of_nat (length (vinfoBlockFile s)))) as [Hlt|Hge].
      * left. destruct Hf as [?|E]; [lia|]. rewrite Ei in E. injection E as ->. cbn in Hfull. lia.
      * right. rewrite lookup_app_r by lia. apply lookup_replicate_2. lia.
    + exists m', (j + j')%nat, i'. rewrite E. split_and!; try (done || lia).
      * f_equal. unfold grown, set_vinfo. cbn. f_equal. by rewrite <- app_assoc, replicate_add.
      * cbn in *. by rewrite replicate_add, app_assoc.
  - exists m, 0%nat, i. rewrite grown_0. split_and!; (done || lia).
Qed.

(** Changing the statistics of a file that only grows keeps everything. *)
Lemma set_info_spec n m i i' s : 0 <= m -> vinfoBlockFile s !! Z.to_nat m = Some i -> (forall k, recorded k i <= recorded k i') ->
  keeps n s (set_info m i' s).2 /\ rec_size (set_info m i' s).2 blk m = CBlockFileInfo.nSize i' /\ rec_size (set_info m i' s).2 rev m = CBlockFileInfo.nUndoSize i'.
Proof.
  intros Hm Ei Hr. pose proof (lookup_lt_Some _ _ _ Ei) as Hlt. split.
  - apply keeps_disk; [by intros []|]. intros k. unfold rec_size. cbn. destruct (Z.ltb_spec n 0); [done|].
    destruct (decide (n = m)) as [->|Hne]; [rewrite list_lookup_insert_eq by done; by rewrite Ei|].
    rewrite list_lookup_insert_ne by lia. lia.
  - unfold rec_size. cbn. rewrite (proj2 (Z.ltb_ge _ _)), list_lookup_insert_eq by (done || lia). done.
Qed.


Section places.
Context (can_open : file_kind -> Z -> bool) (available : Z) (prune : bool).

Lemma run_keeps {A} n (m : fop A) s r s' : harmless_op n m -> m s = (r, s') -> keeps n s s'.
Proof. intros Hm E. specialize (Hm s). by rewrite E in Hm. Qed.
Lemma run_same {A} (m : fop A) s r s' : same_info m -> m s = (r, s') -> vinfoBlockFile s' = vinfoBlockFile s.
Proof. intros Hm E. specialize (Hm s). by rewrite E in Hm. Qed.
Lemma rec_same s s' k n : vinfoBlockFile s' = vinfoBlockFile s -> rec_size s' k n = rec_size s k n.
Proof. intros E. unfold rec_size. by rewrite E. Qed.

(** The last steps of both searches: whatever the system answers nothing is lost, and after a
    success the statistics are the new ones. *)
Definition settle (m : Z) (i : CBlockFileInfo.t) (alloc : fop unit) (pos : CDiskBlockPos.t) : fop CDiskBlockPos.t :=
  _ ← set_info m i; _ ← alloc; _ ← fmodify (add_dirty_file m); mret pos.

Lemma settle_spec n m i i' alloc pos s r s' : 0 <= m -> vinfoBlockFile s !! Z.to_nat m = Some i -> (forall k, recorded k i <= recorded k i') ->
  harmless_op n alloc -> same_info alloc -> settle m i' alloc pos s = (r, s') ->
  keeps n s s' /\ forall p, r = Ok p -> p = pos /\ forall k, rec_size s' k m = recorded k i'.
Proof.
  intros Hm Ei Hr Ha Hs E. destruct (set_info_spec n m i i' s Hm Ei Hr) as (Hk & Hb & Hv).
  unfold settle in E. apply fop_bind_inv in E as [([] & s1 & E1 & E)|(e & E1 & ->)]; [|done].
  injection E1 as <-. change (set_vinfo _ s) with ((set_info m i' s).2) in E. set (s1 := (set_info m i' s).2) in *.
  apply fop_bind_inv in E as [([] & s2 & E2 & E)|(e & E2 & ->)].
  2:{ split; [|done]. eapply keeps_trans; [exact Hk|by eapply run_keeps]. }
  assert (keeps n s s2) as Hk2 by (eapply keeps_trans; [exact Hk|by eapply run_keeps]).
  injection E as <- <-. split.
  - eapply keeps_trans; [exact Hk2|]. apply keeps_disk; [by intros []|]. done.
  - intros p [= <-]. split; [done|]. intros k. transitivity (rec_size s2 k m); [done|]. rewrite (rec_same s1 s2) by (by eapply run_same).
    by destruct k.
Qed.

(** The steps of [FindBlockPos] after the file is chosen. *)
Definition place_block (s0 : file_state) (pos : CDiskBlockPos.t) (nAddSize nHeight nTime nFile : Z) (fKnown : bool) : fop CDiskBlockPos.t :=
  i ← info nFile;
  let pos := if fKnown then pos else CDiskBlockPos.mk (i32 nFile) (CBlockFileInfo.nSize i) in
  _ ← (if negb (i32 nFile =? nLastBlockFile s0) then
         _ ← FlushBlockFile can_open (negb fKnown);
         fmodify (set_nLastBlockFile (i32 nFile))
       else mret tt);
  let i := CBlockFileInfo.AddBlock nHeight nTime i in
  let nSize := if fKnown then Z.max (u32 (CDiskBlockPos.nPos pos + nAddSize)) (CBlockFileInfo.nSize i)
               else u32 (CBlockFileInfo.nSize i + nAddSize) in
  _ ← set_info nFile (with_nSize nSize i);
  _ ← (if fKnown then mret tt else preallocate can_open available prune blk BLOCKFILE_CHUNK_SIZE pos nSize);
  _ ← fmodify (add_dirty_file (i32 nFile));
  mret pos.

Lemma place_block_spec n s0 pos add h t m known s i r s' : 0 <= m < 2 ^ 31 -> vinfoBlockFile s !! Z.to_nat m = Some i ->
  (known = false -> 0 <= CBlockFileInfo.nSize i /\ 0 <= add /\ CBlockFileInfo.nSize i + add < 2 ^ 32) ->
  place_block s0 pos add h t m known s = (r, s') ->
  keeps n s s' /\ forall p, r = Ok p -> known = false ->
    p = CDiskBlockPos.mk m (CBlockFileInfo.nSize i) /\ rec_size s' blk m = CBlockFileInfo.nSize i + add.
Proof.
  intros Hm Ei Hadd E. unfold place_block in E. unfold mbind at 1, fop_bind at 1 in E. rewrite (info_at m s i) in E by (done || lia).
  rewrite (swrap_small 32 m) in E by (unfold is_s; lia).
  apply fop_bind_inv in E as [([] & s1 & E1 & E)|(e & E1 & ->)].
  2:{ split; [|done]. eapply run_keeps; [|exact E1]. apply harmless_if; [|auto with files].
      apply harmless_bind; [apply harmless_flush|]. intros _. by apply harmless_modify. }
  assert (keeps n s s1) as Hk1.
  { eapply run_keeps; [|exact E1]. apply harmless_if; [|auto with files]. apply harmless_bind; [apply harmless_flush|]. intros _. by apply harmless_modify. }
  assert (vinfoBlockFile s1 = vinfoBlockFile s) as Hv1.
  { eapply run_same; [|exact E1]. apply same_if; [|auto with files]. apply same_bind; [apply same_flush|]. intros _. by apply same_modify. }
  rewrite <- Hv1 in Ei. set (i' := with_nSize _ _) in E. set (p := if known then pos else _) in E. set (alloc := if known then _ else _) in E.
  assert (forall k, recorded k i <= recorded k i') as Hrec.
  { intros []; cbn [recorded i' with_nSize CBlockFileInfo.nSize CBlockFileInfo.nUndoSize]; [|done]. destruct known; [cbn; lia|].
    destruct (Hadd eq_refl) as (? & ? & ?). cbn. rewrite uwrap_small by (unfold is_u; lia). lia. }
  destruct (settle_spec n m i i' alloc p s1 r s' ltac:(lia) Ei Hrec) as [Hk2 Hp].
  - unfold alloc. apply harmless_if; [auto with files|apply harmless_preallocate].
  - unfold alloc. apply same_if; [auto with files|apply same_preallocate].
  - exact E.
  - split; [by eapply keeps_trans|]. intros q -> Hkn. destruct (Hp q eq_refl) as [-> Hs]. unfold p. rewrite Hkn. split; [done|].
    rewrite Hs. cbn [recorded i' with_nSize CBlockFileInfo.nSize]. rewrite Hkn. cbn. destruct (Hadd Hkn) as (? & ? & ?). apply uwrap_small. unfold is_u. lia.
Qed.

Lemma FindBlockPos_spec n pos add h t known s r s' : room s -> 0 <= add < MAX_BLOCKFILE_SIZE -> (known = true -> 0 <= CDiskBlockPos.nFile pos < 2 ^ 29) ->
  FindBlockPos can_open available prune pos add h t known s = (r, s') ->
  keeps n s s' /\ forall p, r = Ok p -> known = false -> 0 <= CDiskBlockPos.nFile p /\
    CDiskBlockPos.nPos p = rec_size s blk (CDiskBlockPos.nFile p) /\
    rec_size s' blk (CDiskBlockPos.nFile p) = CDiskBlockPos.nPos p + add.
Proof.
  intros [Hr Hl Hn] Ha Hp E. assert (MAX_BLOCKFILE_SIZE = 2 ^ 27) as HM by done.
  set (m := if known then u32 (CDiskBlockPos.nFile pos) else u32 (nLastBlockFile s)).
  assert (0 <= m < 2 ^ 29) as Hm.
  { unfold m. destruct known; [specialize (Hp eq_refl)|]; rewrite uwrap_small by (unfold is_u; lia); lia. }
  unfold FindBlockPos, fget in E. unfold mbind at 1, fop_bind at 1 in E. fold m in E.
  destruct (extend_grown m s) as (j & Ej & Hj & Hje). unfold mbind at 1, fop_bind at 1 in E. rewrite Ej in E.
  assert (keeps n s (grown j s)) as Hk0 by (pose proof (harmless_extend n m s) as H; by rewrite Ej in H).
  assert (vinfoBlockFile (grown j s) = vinfoBlockFile s ++ replicate j CBlockFileInfo.null) as Hvg by done.
  assert (length (vinfoBlockFile (grown j s)) = length (vinfoBlockFile s) + j)%nat as Hlg by (by rewrite Hvg, length_app, length_replicate).
  destruct known.
  - destruct (lookup_lt_is_Some_2 (vinfoBlockFile (grown j s)) (Z.to_nat m) ltac:(lia)) as [i Ei].
    change (place_block s pos add h t m true (grown j s) = (r, s')) in E.
    destruct (place_block_spec n s pos add h t m true (grown j s) i r s' ltac:(lia) Ei ltac:(done) E) as [Hk _].
    split; [by eapply keeps_trans|done].
  - destruct (find_file_spec (S (length (vinfoBlockFile s))) add m (grown j s)) as (m' & j' & i & Ef & Hm' & Ei & Hfit).
    + intros k q. rewrite rec_grown. apply Hr.
    + lia.
    + lia.
    + lia.
    + destruct (decide (m < Z.of_nat (length (vinfoBlockFile s)))) as [Hlt|Hge]; [left; lia|right].
      rewrite Hvg, lookup_app_r by lia. apply lookup_replicate_2. lia.
    + unfold mbind at 1, fop_bind at 1 in E. rewrite Ef in E. set (s2 := grown j' (grown j s)) in *.
      assert (keeps n s s2) as Hk2 by (eapply keeps_trans; [exact Hk0|eapply run_keeps; [apply harmless_find|exact Ef]]).
      assert (0 <= CBlockFileInfo.nSize i) as Hi0.
      { pose proof (rec_at m' s2 i blk ltac:(lia) Ei) as H. unfold s2 in H. rewrite !rec_grown in H. cbn [recorded] in H. rewrite <- H. apply Hr. }
      change (place_block s pos add h t m' false s2 = (r, s')) in E.
      destruct (place_block_spec n s pos add h t m' false s2 i r s' ltac:(lia) Ei ltac:(lia) E) as [Hk Hpos].
      split; [by eapply keeps_trans|]. intros p -> _. destruct (Hpos p eq_refl eq_refl) as [-> Hs]. cbn. split_and!; [lia| |done].
      pose proof (rec_at m' s2 i blk ltac:(lia) Ei) as H. unfold s2 in H. rewrite !rec_grown in H. by rewrite H.
Qed.
End places.

Lemma FindUndoPos_spec n can_open available prune m add s r s' : room s -> 0 <= m -> 0 <= add < 2 ^ 31 ->
  FindUndoPos can_open available prune m add s = (r, s') ->
  keeps n s s' /\ forall p, r = Ok p -> p = CDiskBlockPos.mk m (rec_size s rev m) /\ rec_size s' rev m = rec_size s rev m + add.
Proof.
  intros [Hr _ _] Hm Ha E. unfold FindUndoPos in E.
  destruct (vinfoBlockFile s !! Z.to_nat m) as [i|] eqn:Ei.
  2:{ unfold mbind, fop_bind, info in E. rewrite (proj2 (Z.ltb_ge _ _)), Ei in E by done. injection E as <- <-. split; [apply keeps_refl|done]. }
  unfold mbind at 1, fop_bind at 1 in E. rewrite (info_at m s i) in E by done.
  pose proof (rec_at m s i rev Hm Ei) as Hri. specialize (Hr rev m) as Hrb. rewrite Hri in Hrb. cbn [recorded] in Hri, Hrb.
  rewrite uwrap_small in E by (unfold is_u; lia). set (i' := with_nUndoSize _ _) in E. set (pos := CDiskBlockPos.mk _ _) in E.
  destruct (settle_spec n m i i' (_ ← fmodify (add_dirty_file m); preallocate can_open available prune rev UNDOFILE_CHUNK_SIZE pos (CBlockFileInfo.nUndoSize i + add)) pos s r (if r is Ok _ then add_dirty_file m s' else s')) as [Hk Hp].
  - done.
  - done.
  - intros []; cbn; lia.
  - apply harmless_bind; [by apply harmless_modify|intros _; apply harmless_preallocate].
  - apply same_bind; [by apply same_modify|intros _; apply same_preallocate].
  - unfold settle. unfold mbind, fop_bind in E |- *. cbn [set_info fmodify] in E |- *.
    destruct (preallocate _ _ _ _ _ _ _ _) as [[[]|e] s2]; injection E as <- <-; done.
  - destruct r as [p|e]; [|by split].
    split; [eapply keeps_trans; [exact Hk|]; apply keeps_disk; [by intros []|done]|].
    intros q [= <-]. destruct (Hp p eq_refl) as [-> Hs]. unfold pos. rewrite Hri. split; [done|].
    specialize (Hs rev). cbn [recorded i' with_nUndoSize CBlockFileInfo.nUndoSize] in Hs. done.
Qed.

(** ** Records *)

Lemma write_has k m pos data s f : disk k s !! m = Some f -> 0 <= pos -> (data = [] -> pos <= f_size f) ->
  has_bytes (change_file k m (write_at pos data) s).2 k m pos data /\
  exists f', disk k (change_file k m (write_at pos data) s).2 !! m = Some f' /\ pos + Z.of_nat (length data) <= f_size f'.
Proof.
  intros Ef Hp Hd. cbn. rewrite Ef, disk_set_file, decide_True, lookup_insert_eq by done.
  assert (pos + Z.of_nat (length data) <= f_size (write_at pos data f)) as Hsz.
  { unfold write_at. destruct (Z.eqb_spec (Z.of_nat (length data)) 0) as [E|E]; [|cbn; lia]. destruct data; [specialize (Hd eq_refl); cbn; lia|cbn in E; lia]. }
  split; [|by eexists]. eexists. rewrite disk_set_file, decide_True, lookup_insert_eq by done. split_and!; [done|done|done|].
  intros j b Ej. pose proof (lookup_lt_Some _ _ _ Ej) as Hj. unfold write_at. rewrite (proj2 (Z.eqb_neq _ _)) by lia. cbn [f_at].
  rewrite (proj2 (Z.leb_le _ _)), (proj2 (Z.ltb_lt _ _)) by lia. cbn [andb]. replace (Z.to_nat _) with j by lia. by rewrite Ej.
Qed.

Lemma keeps_write n k m pos data s0 s : keeps n s0 s -> 0 <= pos -> (m = n -> rec_size s0 k n <= pos) ->
  keeps n s0 (change_file k m (write_at pos data) s).2.
Proof.
  intros Hk Hp Hr k'. destruct (Hk k') as [Hs Hb]. split.
  - by rewrite (rec_same s (change_file k m (write_at pos data) s).2) by apply same_change.
  - intros a bs Hh. apply has_bytes_write; [done| |by apply Hb]. intros -> ->. destruct Hh as [_ ?]. specialize (Hr eq_refl). lia.
Qed.

Section records.
Context (can_open can_write : file_kind -> Z -> bool) (be : bool) (messageStart : list Z).

Lemma open_has pos k s s1 : OpenDiskFile can_open pos k false s = (Ok true, s1) -> exists f, disk k s1 !! CDiskBlockPos.nFile pos = Some f.
Proof.
  unfold OpenDiskFile. destruct (_ || _); [done|]. destruct (disk k s !! _) as [f|] eqn:Ef; intros [= <-]; [by exists f|].
  exists empty_file. by rewrite disk_set_file, decide_True, lookup_insert_eq.
Qed.

(** A record after the end of what a file holds is harmless, and is there afterwards. *)
Lemma write_record_spec n k pos sz data s0 s r s' : keeps n s0 s -> 0 <= CDiskBlockPos.nPos pos ->
  (CDiskBlockPos.nFile pos = n -> rec_size s0 k n <= CDiskBlockPos.nPos pos) ->
  CDiskBlockPos.nPos pos + Z.of_nat (length messageStart) + 4 < 2 ^ 32 ->
  write_record can_open can_write be messageStart k pos sz data s = (r, s') ->
  keeps n s0 s' /\ vinfoBlockFile s' = vinfoBlockFile s /\ forall p, r = Ok p ->
    p = CDiskBlockPos.mk (CDiskBlockPos.nFile pos) (CDiskBlockPos.nPos pos + Z.of_nat (length messageStart) + 4) /\
    has_bytes s' k (CDiskBlockPos.nFile pos) (CDiskBlockPos.nPos p) data.
Proof.
  intros Hk Hp Hr H32 E. unfold write_record in E. set (m := CDiskBlockPos.nFile pos) in *. set (a := CDiskBlockPos.nPos pos) in *.
  assert (length (bytes_of (ser_uint32 be) (u32 sz)) = 4%nat) as Hl4 by (cbn; apply length_host_store).
  apply fop_bind_inv in E as [([] & s1 & E1 & E)|(e & E1 & ->)].
  3:{ split_and!; [|by eapply run_same; [apply same_open|exact E1]|done]. eapply keeps_trans; [exact Hk|eapply run_keeps; [apply harmless_open|exact E1]]. }
  all: assert (keeps n s0 s1) as Hk1 by (eapply keeps_trans; [exact Hk|eapply run_keeps; [apply harmless_open|exact E1]]).
  all: assert (vinfoBlockFile s1 = vinfoBlockFile s) as Hv1 by (by eapply run_same; [apply same_open|exact E1]).
  2:{ injection E as <- <-. by split_and!. }
  cbn [negb] in E. unfold write_file in E. destruct (can_write k m); [|injection E as <- <-; by split_and!].
  destruct (open_has pos k s s1 E1) as [f Ef]. fold m in Ef.
  set (pre := messageStart ++ bytes_of (ser_uint32 be) (u32 sz)) in E. assert (length pre = length messageStart + 4)%nat as Hpre by (unfold pre; rewrite length_app; lia).
  unfold mbind at 1, fop_bind at 1 in E. destruct (change_file k m (write_at a pre) s1) as [r2 s2] eqn:E2.
  assert (r2 = Ok tt) as -> by (by injection E2). assert (s2 = (change_file k m (write_at a pre) s1).2) as Es2 by (by rewrite E2).
  destruct (write_has k m a pre s1 f Ef Hp) as [_ (f2 & Ef2 & Hsz2)]; [intros ->; cbn in Hpre; lia|]. rewrite <- Es2 in Ef2.
  assert (keeps n s0 s2) as Hk2 by (rewrite Es2; by apply keeps_write).
  assert (vinfoBlockFile s2 = vinfoBlockFile s) as Hv2 by (rewrite Es2, <- Hv1; apply same_change).
  set (b := a + Z.of_nat (length messageStart) + 4) in *.
  unfold mbind at 1, fop_bind at 1 in E. destruct (change_file k m (write_at b data) s2) as [r3 s3] eqn:E3.
  assert (r3 = Ok tt) as -> by (by injection E3). assert (s3 = (change_file k m (write_at b data) s2).2) as Es3 by (by rewrite E3).
  destruct (write_has k m b data s2 f2 Ef2) as [Hh _]; [lia|intros _; lia|]. injection E as <- <-. rewrite uwrap_small by (unfold is_u; lia).
  split_and!.
  - rewrite Es3. apply keeps_write; [done|lia|]. intros Em. specialize (Hr Em). lia.
  - rewrite Es3, <- Hv2. apply same_change.
  - intros p [= <-]. split; [done|]. cbn [CDiskBlockPos.nPos]. by rewrite Es3.
Qed.
End records.

(** ** Histories *)

(** What the operating system answers during an operation, and whether the node prunes. *)
Record os : Type := {
  os_open : file_kind -> Z -> bool;
  os_write : file_kind -> Z -> bool;
  os_available : Z;
  os_prune : bool;
}.

(** The operations on the files; [OpPrune] is the part of pruning that is about the files. *)
Inductive file_op : Type :=
| OpStoreBlock (e : os) (block : CBlock) (nHeight : Z)
| OpNoteBlock (e : os) (block : CBlock) (nHeight : Z) (dbp : CDiskBlockPos.t)
| OpStoreUndo (e : os) (undo : list (list CTxInUndo.t)) (nFile : Z) (hashPrev : list Z)
| OpFlush (e : os) (fFinalize : bool)
| OpPrune (nFile : Z).

Definition prune_file (n : Z) (s : file_state) : file_state :=
  UnlinkPrunedFiles [n] (add_dirty_file n (set_vinfo (<[Z.to_nat n := CBlockFileInfo.null]> (vinfoBlockFile s)) s)).

Section history.
Context (be : bool) (messageStart : list Z) (Hash : list Z -> list Z) (IsFullyValid : list Z -> bool) (PubKey_Decompress : list Z -> option (list Z)).

Definition run_op (o : file_op) (s : file_state) : file_state :=
  match o with
  | OpStoreBlock e block h => (store_block (os_open e) (os_write e) (os_available e) (os_prune e) be messageStart block h s).2
  | OpNoteBlock e block h dbp => (note_block (os_open e) (os_available e) (os_prune e) be block h dbp s).2
  | OpStoreUndo e undo n hash => (store_undo (os_open e) (os_write e) (os_available e) (os_prune e) be messageStart Hash IsFullyValid PubKey_Decompress undo n hash s).2
  | OpFlush e fin => (FlushBlockFile (os_open e) fin s).2
  | OpPrune n => prune_file n s
  end.

(** Numbers of the size the program meets; an operation may fail in between. *)
Definition op_ok (s : file_state) (o : file_op) : Prop :=
  room s /\
  match o with
  | OpStoreBlock _ block _ => block_wf SER_DISK CLIENT_VERSION 0 block /\ Z.of_nat (length (bytes_of (disk_block be) block)) + 8 < MAX_BLOCKFILE_SIZE
  | OpNoteBlock _ block _ dbp => block_wf SER_DISK CLIENT_VERSION 0 block /\ Z.of_nat (length (bytes_of (disk_block be) block)) + 8 < MAX_BLOCKFILE_SIZE /\
      0 <= CDiskBlockPos.nFile dbp < 2 ^ 29
  | OpStoreUndo _ undo n _ => 0 <= n /\ elems_valid (elems_valid undo_valid) undo /\
      Z.of_nat (length (bytes_of (disk_undo be IsFullyValid PubKey_Decompress) undo)) + 40 < 2 ^ 31
  | OpFlush _ _ => True
  | OpPrune n => 0 <= n
  end.

Fixpoint history_ok (s : file_state) (ops : list file_op) : Prop :=
  match ops with
  | [] => True
  | o :: ops' => op_ok s o /\ history_ok (run_op o s) ops'
  end.

Definition run_ops (ops : list file_op) (s : file_state) : file_state := foldl (fun s o => run_op o s) s ops.

Definition prunes (n : Z) (o : file_op) : bool := match o with OpPrune m => m =? n | _ => false end.
End history.

Section facts.
Context (be : bool) (messageStart : list Z) (Hash : list Z -> list Z) (IsFullyValid : list Z -> bool) (PubKey_Decompress : list Z -> option (list Z)).
Context (Hms : length messageStart = 4%nat) (HH : forall x, length (Hash x) = 32%nat).
Context (Decompress_valid : forall x y, length x = 32%nat -> length y = 32%nat -> Forall is_byte x -> Forall is_byte y ->
  IsFullyValid (0x04 :: x ++ y) = true -> PubKey_Decompress ((2 + Z.land (y !!! 31%nat) 0x01) :: x) = Some (0x04 :: x ++ y)).
#[local] Abbreviation ucodec := (disk_undo be IsFullyValid PubKey_Decompress).

Lemma disk_block_lawful : Lawful (block_wf SER_DISK CLIENT_VERSION 0) (disk_block be).
Proof. exact (block_lawful be SER_DISK CLIENT_VERSION 0 eq_refl). Qed.
Lemma disk_undo_lawful : Lawful (elems_valid (elems_valid undo_valid)) ucodec.
Proof. pose proof (undo_lawful _ _ Decompress_valid). unfold disk_undo, ser_blockundo, ser_txundo. apply _. Qed.

Lemma codec_size {T} (valid : T -> Prop) (c : Codec T) `{!Lawful valid c} t : valid t -> GetSerializeSize c t = u64 (Z.of_nat (length (bytes_of c t))).
Proof. intros Ht. unfold GetSerializeSize. by rewrite law_size. Qed.

Lemma store_block_spec n e block h s r s' : op_ok be IsFullyValid PubKey_Decompress s (OpStoreBlock e block h) ->
  store_block (os_open e) (os_write e) (os_available e) (os_prune e) be messageStart block h s = (r, s') ->
  keeps n s s' /\ forall p, r = Ok p -> 0 <= CDiskBlockPos.nFile p /\ holds s' blk (CDiskBlockPos.nFile p) (CDiskBlockPos.nPos p) (bytes_of (disk_block be) block).
Proof.
  intros [Hroom [Hb Hsz]] E. pose proof disk_block_lawful as Hl. assert (MAX_BLOCKFILE_SIZE = 2 ^ 27) as HM by done.
  unfold store_block in E. set (bs := bytes_of (disk_block be) block) in *.
  rewrite (codec_size _ _ _ Hb) in E. fold bs in E. rewrite (uwrap_small 64), (uwrap_small 32) in E by (unfold is_u; lia).
  assert (0 <= Z.of_nat (length bs) + 8 < MAX_BLOCKFILE_SIZE) as Hadd by lia.
  apply fop_bind_inv in E as [(pos & s1 & E1 & E)|(err & E1 & ->)].
  2:{ split; [|discriminate]. eapply (FindBlockPos_spec _ _ _ n); [exact Hroom|exact Hadd| |exact E1]. discriminate. }
  apply (FindBlockPos_spec _ _ _ n) in E1 as [Hk Hp]; [|exact Hroom|exact Hadd|discriminate].
  destruct (Hp pos eq_refl eq_refl) as (Hf & Hpos & Hrec). pose proof (room_sizes s Hroom blk (CDiskBlockPos.nFile pos)) as Hrs.
  unfold WriteBlockToDisk in E.
  destruct (write_record_spec _ _ be messageStart n blk pos _ _ s s1 r s' Hk ltac:(lia) ltac:(intros <-; lia) ltac:(lia) E) as (Hk' & Hv & Hw).
  split; [done|]. intros p ->. destruct (Hw p eq_refl) as [-> Hh]. split; [done|]. split; [exact Hh|].
  cbn [CDiskBlockPos.nFile CDiskBlockPos.nPos]. rewrite (rec_same s1 s') by done. rewrite Hrec. fold bs. lia.
Qed.

(** The undo data with its checksum. *)
Definition undo_record (undo : list (list CTxInUndo.t)) (hash : list Z) : list Z :=
  bytes_of ucodec undo ++ undo_checksum be Hash IsFullyValid PubKey_Decompress hash undo.

Lemma store_undo_spec n e undo m hash s r s' : op_ok be IsFullyValid PubKey_Decompress s (OpStoreUndo e undo m hash) ->
  store_undo (os_open e) (os_write e) (os_available e) (os_prune e) be messageStart Hash IsFullyValid PubKey_Decompress undo m hash s = (r, s') ->
  keeps n s s' /\ forall p, r = Ok p -> CDiskBlockPos.nFile p = m /\ holds s' rev m (CDiskBlockPos.nPos p) (undo_record undo hash).
Proof.
  intros [Hroom (Hm & Hu & Hsz)] E. pose proof disk_undo_lawful as Hl.
  unfold store_undo in E. rewrite (codec_size _ _ _ Hu) in E. set (bs := bytes_of ucodec undo) in *.
  rewrite (uwrap_small 64), (uwrap_small 32) in E by (unfold is_u; lia).
  assert (0 <= Z.of_nat (length bs) + 40 < 2 ^ 31) as Hadd by lia.
  apply fop_bind_inv in E as [(pos & s1 & E1 & E)|(err & E1 & ->)].
  2:{ split; [|discriminate]. eapply (FindUndoPos_spec n); [exact Hroom|exact Hm|exact Hadd|exact E1]. }
  destruct (FindUndoPos_spec n _ _ _ _ _ _ _ _ Hroom Hm Hadd E1) as [Hk Hp].
  destruct (Hp pos eq_refl) as (-> & Hrec). pose proof (room_sizes s Hroom rev m) as Hrs.
  unfold UndoWriteToDisk in E.
  destruct (write_record_spec _ _ be messageStart n rev (CDiskBlockPos.mk m (rec_size s rev m)) _ _ s s1 r s' Hk ltac:(cbn; lia) ltac:(cbn; intros <-; lia) ltac:(cbn; lia) E) as (Hk' & Hv & Hw).
  split; [done|]. intros p ->. destruct (Hw p eq_refl) as [-> Hh]. split; [done|]. split; [exact Hh|].
  cbn [CDiskBlockPos.nFile CDiskBlockPos.nPos]. rewrite (rec_same s1 s') by done. rewrite Hrec. unfold undo_record, undo_checksum. rewrite length_app, HH. fold bs. lia.
Qed.

(** Nothing is lost in a file that is not pruned. *)
Lemma run_op_keeps n o s : op_ok be IsFullyValid PubKey_Decompress s o -> prunes n o = false ->
  keeps n s (run_op be messageStart Hash IsFullyValid PubKey_Decompress o s).
Proof.
  destruct o as [e b h|e b h dbp|e u m hash|e fin|m]; intros Ho Hp; cbn [run_op].
  - destruct (store_block _ _ _ _ _ _ b h s) as [r s'] eqn:E. by eapply store_block_spec.
  - destruct Ho as [Hroom (Hb & Hsz & Hd)]. unfold note_block. pose proof disk_block_lawful as Hl. assert (MAX_BLOCKFILE_SIZE = 2 ^ 27) as HM by done.
    rewrite (codec_size _ _ _ Hb), (uwrap_small 64), (uwrap_small 32) by (unfold is_u; lia).
    assert (0 <= Z.of_nat (length (bytes_of (disk_block be) b)) + 8 < MAX_BLOCKFILE_SIZE) as Hadd by lia.
    destruct (FindBlockPos _ _ _ _ _ _ _ _ _) as [r s'] eqn:E. eapply (FindBlockPos_spec _ _ _ n); [exact Hroom|exact Hadd|intros _; exact Hd|exact E].
  - destruct (store_undo _ _ _ _ _ _ _ _ _ u m hash s) as [r s'] eqn:E. by eapply store_undo_spec.
  - apply harmless_flush.
  - cbn in Hp. apply Z.eqb_neq in Hp. destruct Ho as [_ Hm]. intros k. split.
    + unfold rec_size. cbn. destruct (Z.ltb_spec n 0); [lia|]. rewrite list_lookup_insert_ne by lia. lia.
    + intros a bs [(f & Ef & Hf) _]. exists f. split; [|done]. destruct k; cbn in *; by rewrite lookup_delete_ne.
Qed.

Lemma run_ops_keeps n ops s : history_ok be messageStart Hash IsFullyValid PubKey_Decompress s ops -> forallb (fun o => negb (prunes n o)) ops = true ->
  keeps n s (run_ops be messageStart Hash IsFullyValid PubKey_Decompress ops s).
Proof.
  revert s. induction ops as [|o ops IH]; intros s Ho Hp; [apply keeps_refl|]. destruct Ho as [Ho Hops]. cbn in Hp. apply andb_prop in Hp as [Hp Hps].
  apply negb_true_iff in Hp. eapply keeps_trans; [by apply run_op_keeps|]. by apply IH.
Qed.

Lemma read_file_holds can_open k n a bs s : can_open k n = true -> n <> -1 -> has_bytes s k n a bs ->
  exists rest, read_file can_open k (CDiskBlockPos.mk n a) s = (Ok (bs ++ rest), s).
Proof.
  intros Hc Hn (f & Ef & Ha & Hs & Hb). destruct (bytes_from_prefix f a bs Ha Hs Hb) as [rest Hr]. exists rest.
  unfold read_file, OpenDiskFile, mbind, fop_bind, CDiskBlockPos.IsNull. cbn [CDiskBlockPos.nFile CDiskBlockPos.nPos].
  rewrite (proj2 (Z.eqb_neq n (-1))), Hc, Ef by done. cbn. by rewrite Ef, Hr.
Qed.
End facts.

(** ** When the system cooperates *)

(** Files can be opened and written, and there is space for a chunk. *)
Record willing (e : os) : Prop := {
  will_open : forall k n, os_open e k n = true;
  will_write : forall k n, os_write e k n = true;
  will_have : nMinDiskSpace + 2 ^ 32 <= os_available e < 2 ^ 64;
}.

Definition succeeds {A} (m : fop A) (s : file_state) : Prop := exists a, (m s).1 = Ok a.

Lemma succeeds_bind {A B} (m : fop A) (f : A -> fop B) s : succeeds m s -> (forall a s', m s = (Ok a, s') -> succeeds (f a) s') -> succeeds (m ≫= f) s.
Proof.
  intros [a Ea] Hf. unfold succeeds, mbind, fop_bind. destruct (m s) as [r s1] eqn:E. cbn in Ea. subst r. by apply Hf.
Qed.
Lemma succeeds_ret {A} (a : A) s : succeeds (mret a) s. Proof. by exists a. Qed.
Lemma succeeds_modify f s : succeeds (fmodify f) s. Proof. by exists tt. Qed.

Section willing.
Context (e : os) (He : willing e).

Lemma open_willing pos k s : CDiskBlockPos.nFile pos <> -1 -> (OpenDiskFile (os_open e) pos k false s).1 = Ok true.
Proof.
  intros Hn. unfold OpenDiskFile, CDiskBlockPos.IsNull. rewrite (proj2 (Z.eqb_neq _ _)), (will_open e He) by done. cbn. by destruct (disk k s !! _).
Qed.

Lemma open_any pos k s : succeeds (OpenDiskFile (os_open e) pos k false) s.
Proof. unfold succeeds, OpenDiskFile. destruct (_ || _); [by eexists|]. destruct (disk k s !! _); by eexists. Qed.

Lemma preallocate_willing k chunk pos size s : succeeds (preallocate (os_open e) (os_available e) (os_prune e) k chunk pos size) s.
Proof.
  unfold preallocate. destruct (_ >? _); [|apply succeeds_ret]. apply succeeds_bind; [destruct (os_prune e); [apply succeeds_modify|apply succeeds_ret]|].
  intros _ s1 _. assert (forall n, CheckDiskSpace (os_available e) (u32 n) = true) as ->.
  { intros n. unfold CheckDiskSpace. pose proof (uwrap_range 32 n ltac:(lia)) as Hu. unfold is_u in Hu. pose proof (will_have e He) as Ha.
    assert (nMinDiskSpace = 52428800) as Hd by done. rewrite uwrap_small, (proj2 (Z.ltb_ge _ _)) by (unfold is_u; lia). done. }
  apply succeeds_bind; [apply open_any|]. intros o s2 _. destruct o; [apply succeeds_modify|apply succeeds_ret].
Qed.

Lemma info_succeeds n s i : 0 <= n -> vinfoBlockFile s !! Z.to_nat n = Some i -> succeeds (info n) s.
Proof. intros Hn Ei. exists i. by rewrite (info_at n s i). Qed.

Lemma flush_willing fin s i : 0 <= nLastBlockFile s -> vinfoBlockFile s !! Z.to_nat (nLastBlockFile s) = Some i -> succeeds (FlushBlockFile (os_open e) fin) s.
Proof.
  intros Hn Ei. unfold FlushBlockFile. apply succeeds_bind; [by eexists|]. intros s0 s' [= <- <-].
  assert (forall s1 k m sz, vinfoBlockFile s1 = vinfoBlockFile s -> m = nLastBlockFile s -> succeeds (i ← info m; change_file k m (TruncateFile (sz i))) s1) as Ht.
  { intros s1 k m sz E ->. apply succeeds_bind; [eapply info_succeeds; [done|by rewrite E]|]. intros ? ? _. apply succeeds_modify. }
  apply succeeds_bind; [apply open_any|]. intros o s1 E1. pose proof (run_same _ _ _ _ (same_open _ _ _ _) E1) as Hv1.
  apply succeeds_bind; [destruct (o && fin); [by apply Ht|apply succeeds_ret]|]. intros [] s2 E2.
  assert (vinfoBlockFile s2 = vinfoBlockFile s1) as Hv2 by (eapply run_same; [|exact E2]; auto using same_bind with files).
  apply succeeds_bind; [apply open_any|]. intros o' s3 E3. pose proof (run_same _ _ _ _ (same_open _ _ _ _) E3) as Hv3.
  destruct (o' && fin); [apply Ht; congruence|apply succeeds_ret].
Qed.

Lemma settle_willing m i alloc pos s : (forall s, succeeds alloc s) -> succeeds (settle m i alloc pos) s.
Proof.
  intros Ha. unfold settle. apply succeeds_bind; [apply succeeds_modify|]. intros _ s1 _. apply succeeds_bind; [apply Ha|].
  intros _ s2 _. apply succeeds_bind; [apply succeeds_modify|]. intros _ s3 _. apply succeeds_ret.
Qed.

Lemma FindBlockPos_willing pos add h t s : room s -> 0 <= add < MAX_BLOCKFILE_SIZE ->
  succeeds (FindBlockPos (os_open e) (os_available e) (os_prune e) pos add h t false) s.
Proof.
  intros [Hr Hl Hn] Ha. assert (MAX_BLOCKFILE_SIZE = 2 ^ 27) as HM by done. unfold FindBlockPos.
  apply succeeds_bind; [by eexists|]. intros s0 s1 [= <- <-]. rewrite uwrap_small by (unfold is_u; lia).
  destruct (extend_grown (nLastBlockFile s) s) as (j & Ej & Hj & Hje). apply succeeds_bind; [exists tt; by rewrite Ej|].
  intros [] s1 Es1. rewrite Ej in Es1. injection Es1 as <-.
  assert (length (vinfoBlockFile (grown j s)) = length (vinfoBlockFile s) + j)%nat as Hlg by (cbn; by rewrite length_app, length_replicate).
  destruct (find_file_spec (S (length (vinfoBlockFile s))) add (nLastBlockFile s) (grown j s)) as (m & j' & i & Ef & Hm & Ei & _); [|lia|lia|lia| |].
  { intros k q. rewrite rec_grown. apply Hr. }
  { destruct (decide (nLastBlockFile s < Z.of_nat (length (vinfoBlockFile s)))); [left; lia|right]. cbn. rewrite lookup_app_r by lia. apply lookup_replicate_2. lia. }
  apply succeeds_bind; [exists m; by rewrite Ef|]. intros m1 s2 Es2. rewrite Ef in Es2. injection Es2 as <- <-.
  set (s2 := grown j' (grown j s)) in *. destruct (lookup_lt_is_Some_2 (vinfoBlockFile s2) (Z.to_nat (nLastBlockFile s))) as [il Eil].
  { cbn. rewrite !length_app, !length_replicate. lia. }
  apply succeeds_bind; [eapply info_succeeds; [lia|exact Ei]|]. intros i0 s3 E3. rewrite (info_at m s2 i) in E3 by (done || lia). injection E3 as <- <-.
  apply succeeds_bind.
  { destruct (negb _); [|apply succeeds_ret]. apply succeeds_bind; [apply (flush_willing _ s2 il); [apply Hn|exact Eil]|]. intros _ s4 _. apply succeeds_modify. }
  intros _ s4 _. rewrite (swrap_small 32 m) by (unfold is_s; lia).
  eapply (settle_willing m _ (preallocate (os_open e) (os_available e) (os_prune e) blk BLOCKFILE_CHUNK_SIZE _ _)). intros s5. apply preallocate_willing.
Qed.

Lemma FindUndoPos_willing m add s i : 0 <= m -> vinfoBlockFile s !! Z.to_nat m = Some i ->
  succeeds (FindUndoPos (os_open e) (os_available e) (os_prune e) m add) s.
Proof.
  intros Hm Ei. unfold FindUndoPos. apply succeeds_bind; [by eapply info_succeeds|]. intros i' s1 _.
  apply succeeds_bind; [apply succeeds_modify|]. intros _ s2 _. apply succeeds_bind; [apply succeeds_modify|]. intros _ s3 _.
  apply succeeds_bind; [apply preallocate_willing|]. intros _ s4 _. apply succeeds_ret.
Qed.

Lemma write_record_willing be ms k pos sz data s : CDiskBlockPos.nFile pos <> -1 ->
  succeeds (write_record (os_open e) (os_write e) be ms k pos sz data) s.
Proof.
  intros Hn. unfold write_record, write_file. rewrite (will_write e He). apply succeeds_bind; [apply open_any|]. intros o s1 E1.
  pose proof (open_willing pos k s Hn) as Ho. rewrite E1 in Ho. injection Ho as ->. cbn [negb].
  apply succeeds_bind; [apply succeeds_modify|]. intros _ s2 _. apply succeeds_bind; [apply succeeds_modify|]. intros _ s3 _. apply succeeds_ret.
Qed.
End willing.

(** ** The theorems *)

Section theorems.
Context (be : bool) (messageStart : list Z) (Hash : list Z -> list Z) (IsFullyValid : list Z -> bool) (PubKey_Decompress : list Z -> option (list Z)).

(** The data of a key that decompression recovers. *)
Definition decompresses : Prop := forall x y, length x = 32%nat -> length y = 32%nat -> Forall is_byte x -> Forall is_byte y ->
  IsFullyValid (0x04 :: x ++ y) = true -> PubKey_Decompress ((2 + Z.land (y !!! 31%nat) 0x01) :: x) = Some (0x04 :: x ++ y).

(** The proof of work of a block, when it has one. *)
Definition proved (verify : Z -> CBlockHeader -> list Z -> bool * list Z) (params : Params.t) (block : CBlock) : Prop :=
  IsProofOfWork be block = true ->
  CheckMerkleTreeProof params verify (header block) = true /\ CheckBlockProofOfWork be Hash params (header block) = Some true.

Lemma op_eq_same x : Uint256.op_eq x x = true.
Proof. unfold Uint256.op_eq, Uint256.Compare. apply Z.eqb_eq. by apply memcmp_eq. Qed.

Lemma read_block_holds can_open verify params n a block s : can_open blk n = true -> n <> -1 -> block_wf SER_DISK CLIENT_VERSION 0 block ->
  proved verify params block -> has_bytes s blk n a (bytes_of (disk_block be) block) ->
  ReadBlockFromDisk can_open be Hash verify params (CDiskBlockPos.mk n a) s = (Ok block, s).
Proof.
  intros Hc Hn Hb Hp Hh. destruct (read_file_holds can_open blk n a _ s Hc Hn Hh) as [rest Er].
  unfold ReadBlockFromDisk. unfold mbind at 1, fop_bind at 1. rewrite Er.
  rewrite (law_read (Lawful := disk_block_lawful be) block rest Hb). unfold proved in Hp.
  destruct (IsProofOfWork be block); [|done]. destruct (Hp eq_refl) as [-> ->]. done.
Qed.

Lemma read_undo_holds can_open n a undo hash s : decompresses -> (forall x, length (Hash x) = 32%nat) -> can_open rev n = true -> n <> -1 ->
  elems_valid (elems_valid undo_valid) undo -> has_bytes s rev n a (undo_record be Hash IsFullyValid PubKey_Decompress undo hash) ->
  forall hash', UndoReadFromDisk can_open be Hash IsFullyValid PubKey_Decompress (CDiskBlockPos.mk n a) hash' s =
    (if Uint256.op_eq (undo_checksum be Hash IsFullyValid PubKey_Decompress hash undo) (undo_checksum be Hash IsFullyValid PubKey_Decompress hash' undo)
     then Ok undo else Err mismatch, s).
Proof.
  intros Hd HH Hc Hn Hu Hh hash'. destruct (read_file_holds can_open rev n a _ s Hc Hn Hh) as [rest Er].
  unfold UndoReadFromDisk. unfold mbind at 1, fop_bind at 1. rewrite Er. unfold undo_record. rewrite <- app_assoc.
  rewrite (law_read (Lawful := disk_undo_lawful be IsFullyValid PubKey_Decompress Hd) undo _ Hu). cbn [mbind result_bind].
  rewrite read_app by (unfold undo_checksum; by rewrite HH). cbn [mbind result_bind]. by destruct (Uint256.op_eq _ _).
Qed.
End theorems.

(** C5: blocks survive in the block files.  A block of less than 128 MiB can be stored
    whenever the system lets files be opened and written and has space; and once it is
    stored, the position returned leads to it after any further operations on the files,
    whether they succeed or fail half-way: storing other blocks and undo data, noting blocks
    that are there already, flushing, truncating and preallocating files, and pruning other
    files.  No operation writes over a record or cuts it off. *)
Theorem stored_block_survives (be : bool) (messageStart : list Z) (Hash : list Z -> list Z) (IsFullyValid : list Z -> bool)
    (PubKey_Decompress : list Z -> option (list Z)) (verify : Z -> CBlockHeader -> list Z -> bool * list Z) (params : Params.t)
    (e : os) (block : CBlock) (nHeight : Z) (s : file_state) :
  length messageStart = 4%nat -> (forall x, length (Hash x) = 32%nat) -> decompresses IsFullyValid PubKey_Decompress ->
  op_ok be IsFullyValid PubKey_Decompress s (OpStoreBlock e block nHeight) -> proved be Hash verify params block ->
  let store := store_block (os_open e) (os_write e) (os_available e) (os_prune e) be messageStart block nHeight s in
  (willing e -> exists pos, store.1 = Ok pos) /\
  forall pos s1 ops can_open, store = (Ok pos, s1) -> history_ok be messageStart Hash IsFullyValid PubKey_Decompress s1 ops ->
    forallb (fun o => negb (prunes (CDiskBlockPos.nFile pos) o)) ops = true -> can_open blk (CDiskBlockPos.nFile pos) = true ->
    let s2 := run_ops be messageStart Hash IsFullyValid PubKey_Decompress ops s1 in
    ReadBlockFromDisk can_open be Hash verify params pos s2 = (Ok block, s2).
Proof.
  intros Hms HH Hd Hok Hp store. split.
  - intros He. destruct Hok as [Hroom [Hb Hsz]]. pose proof (disk_block_lawful be) as Hl. assert (MAX_BLOCKFILE_SIZE = 2 ^ 27) as HM by done.
    unfold store, store_block. rewrite (codec_size _ _ _ Hb), (uwrap_small 64), (uwrap_small 32) by (unfold is_u; lia).
    set (add := Z.of_nat (length (bytes_of (disk_block be) block)) + 8) in *. assert (0 <= add < MAX_BLOCKFILE_SIZE) as Hadd by lia.
    apply succeeds_bind; [by apply FindBlockPos_willing|]. intros pos s1 E1. apply write_record_willing; [done|].
    apply (FindBlockPos_spec _ _ _ 0) in E1 as [_ Hpos]; [|exact Hroom|exact Hadd|discriminate]. destruct (Hpos pos eq_refl eq_refl). lia.
  - intros pos s1 ops can_open E Hh Hpr Hc s2. destruct Hok as [Hroom [Hb Hsz]].
    destruct (store_block_spec be messageStart IsFullyValid PubKey_Decompress Hms (CDiskBlockPos.nFile pos) e block nHeight s (Ok pos) s1
      (conj Hroom (conj Hb Hsz)) E) as [_ Hs]. destruct (Hs pos eq_refl) as [Hn Hholds].
    destruct pos as [n a]. apply (read_block_holds be Hash can_open verify params n a); try done; [cbn in Hn; lia|].
    eapply (run_ops_keeps be messageStart Hash IsFullyValid PubKey_Decompress Hms HH Hd n ops s1); [exact Hh|exact Hpr|exact Hholds].
Qed.

(** C6: undo data survives in its files, and is bound to its block.  Undo data can be stored
    for a block of an existing file when the system cooperates; after any further operations
    that do not prune the file, reading it with the hash it was stored with returns exactly it,
    and reading it with another hash of 32 bytes reports a mismatch, unless it exhibits a
    collision of the hash function. *)
Theorem stored_undo_survives (be : bool) (messageStart : list Z) (Hash : list Z -> list Z) (IsFullyValid : list Z -> bool)
    (PubKey_Decompress : list Z -> option (list Z)) (e : os) (undo : list (list CTxInUndo.t)) (nFile : Z) (hashPrev : list Z) (s : file_state) :
  length messageStart = 4%nat -> (forall x, length (Hash x) = 32%nat) -> decompresses IsFullyValid PubKey_Decompress ->
  op_ok be IsFullyValid PubKey_Decompress s (OpStoreUndo e undo nFile hashPrev) ->
  let store := store_undo (os_open e) (os_write e) (os_available e) (os_prune e) be messageStart Hash IsFullyValid PubKey_Decompress undo nFile hashPrev s in
  (willing e -> nFile < Z.of_nat (length (vinfoBlockFile s)) -> exists pos, store.1 = Ok pos) /\
  forall pos s1 ops can_open, store = (Ok pos, s1) -> history_ok be messageStart Hash IsFullyValid PubKey_Decompress s1 ops ->
    forallb (fun o => negb (prunes (CDiskBlockPos.nFile pos) o)) ops = true -> can_open rev (CDiskBlockPos.nFile pos) = true ->
    let s2 := run_ops be messageStart Hash IsFullyValid PubKey_Decompress ops s1 in
    let read := UndoReadFromDisk can_open be Hash IsFullyValid PubKey_Decompress pos in
    read hashPrev s2 = (Ok undo, s2) /\
    forall hash, length hash = 32%nat -> length hashPrev = 32%nat -> hash <> hashPrev ->
      read hash s2 = (Err mismatch, s2) \/ exists x y, x <> y /\ Hash x = Hash y.
Proof.
  intros Hms HH Hd Hok store. split.
  - intros He Hlt. destruct Hok as [Hroom (Hm & Hu & Hsz)]. unfold store, store_undo.
    destruct (lookup_lt_is_Some_2 (vinfoBlockFile s) (Z.to_nat nFile) ltac:(lia)) as [i Ei].
    apply succeeds_bind; [by eapply FindUndoPos_willing|]. intros pos s1 E1. apply write_record_willing; [done|].
    rewrite (codec_size _ _ (Lawful0 := disk_undo_lawful be IsFullyValid PubKey_Decompress Hd) _ Hu), (uwrap_small 64), (uwrap_small 32) in E1 by (unfold is_u; lia).
    eapply (FindUndoPos_spec 0) in E1 as [_ Hpos]; [|exact Hroom|exact Hm|lia]. destruct (Hpos pos eq_refl) as [-> _]. cbn. lia.
  - intros pos s1 ops can_open E Hh Hpr Hc s2 read. assert (op_ok be IsFullyValid PubKey_Decompress s (OpStoreUndo e undo nFile hashPrev)) as Hok' by done.
    destruct Hok as [Hroom (Hm & Hu & Hsz)].
    destruct (store_undo_spec be messageStart Hash IsFullyValid PubKey_Decompress Hms HH Hd (CDiskBlockPos.nFile pos) e undo nFile hashPrev s (Ok pos) s1
      Hok' E) as [_ Hs]. destruct (Hs pos eq_refl) as [Hn Hholds].
    destruct pos as [n a]. cbn in Hn. subst n.
    assert (has_bytes s2 rev nFile a (undo_record be Hash IsFullyValid PubKey_Decompress undo hashPrev)) as Hb.
    { eapply (run_ops_keeps be messageStart Hash IsFullyValid PubKey_Decompress Hms HH Hd nFile ops s1); [exact Hh|exact Hpr|exact Hholds]. }
    assert (nFile <> -1) as Hne by lia.
    pose proof (read_undo_holds be Hash IsFullyValid PubKey_Decompress can_open nFile a undo hashPrev s2 Hd HH Hc Hne Hu Hb) as Hread. split.
    + unfold read. rewrite Hread, op_eq_same. done.
    + intros hash Hlh Hlp Hneq. unfold read. rewrite Hread. destruct (Uint256.op_eq _ _) eqn:Eq; [right|by left].
      apply Z.eqb_eq, memcmp_eq in Eq; [|unfold undo_checksum; by rewrite !HH]. unfold undo_checksum in Eq.
      eexists _, _. split; [|exact Eq]. intros Ea. apply app_inj_1 in Ea as [? _]; [done|congruence].
Qed.

(** ** Pruning spares the blocks near the tip *)

(** What pruning a file makes of an entry. *)
Definition pruned_entry (n : Z) (b : CBlockIndex.t) : CBlockIndex.t :=
  if CBlockIndex.nFile b =? n then
    Entry.set_data (CBlockIndex.nTx b) (CBlockIndex.nChainTx b) 0 0 0
      (Entry.clear_status CBlockIndex.BLOCK_HAVE_UNDO (Entry.clear_status CBlockIndex.BLOCK_HAVE_DATA b))
  else b.

Lemma land_mask_idem x y : Z.land (Z.land x y) y = Z.land x y.
Proof. by rewrite <- Z.land_assoc, Z.land_diag. Qed.

Lemma pruned_no_data n b : CBlockIndex.nFile b = n -> Entry.have_data (pruned_entry n b) = false.
Proof.
  intros <-. unfold pruned_entry. rewrite Z.eqb_refl. unfold Entry.have_data, flag_set. cbn [CBlockIndex.nStatus Entry.set_data Entry.clear_status CBlockIndex.set_nStatus].
  apply negb_false_iff, Z.eqb_eq. rewrite <- !Z.land_assoc.
  replace (Z.land (CBlockIndex.not_mask CBlockIndex.BLOCK_HAVE_UNDO) CBlockIndex.BLOCK_HAVE_DATA) with CBlockIndex.BLOCK_HAVE_DATA by done.
  replace (Z.land _ CBlockIndex.BLOCK_HAVE_DATA) with 0 by done. apply Z.land_0_r.
Qed.

Lemma pruned_other n b : CBlockIndex.nFile b <> n -> pruned_entry n b = b.
Proof. intros H. unfold pruned_entry. by rewrite (proj2 (Z.eqb_neq _ _)). Qed.

(** Clearing the same bits and the position twice. *)
Lemma clear_twice m1 m2 b :
  let f b := Entry.set_data (CBlockIndex.nTx b) (CBlockIndex.nChainTx b) 0 0 0 (CBlockIndex.set_nStatus (Z.land (Z.land (CBlockIndex.nStatus b) m1) m2) b) in
  f (f b) = f b.
Proof.
  intros f. transitivity (Entry.set_data (CBlockIndex.nTx b) (CBlockIndex.nChainTx b) 0 0 0
    (CBlockIndex.set_nStatus (Z.land (Z.land (Z.land (Z.land (CBlockIndex.nStatus b) m1) m2) m1) m2) b)); [reflexivity|].
  replace (Z.land (Z.land (Z.land (Z.land (CBlockIndex.nStatus b) m1) m2) m1) m2) with (Z.land (Z.land (CBlockIndex.nStatus b) m1) m2); [reflexivity|].
  rewrite <- (Z.land_assoc (Z.land _ m1) m2 m1), (Z.land_comm m2 m1), Z.land_assoc, land_mask_idem. by rewrite land_mask_idem.
Qed.

Lemma pruned_idem n b : pruned_entry n (pruned_entry n b) = pruned_entry n b.
Proof.
  destruct (decide (CBlockIndex.nFile b = n)) as [E|E]; [|by rewrite !(pruned_other n b)].
  unfold pruned_entry at 2 3. rewrite (proj2 (Z.eqb_eq _ _) E). unfold pruned_entry.
  destruct (_ =? n); [|done]. apply (clear_twice (CBlockIndex.not_mask CBlockIndex.BLOCK_HAVE_DATA) (CBlockIndex.not_mask CBlockIndex.BLOCK_HAVE_UNDO)).
Qed.

(** The parts of the state pruning leaves alone. *)
Definition same_rest (s s' : state) : Prop :=
  mapBlockIndex s' = mapBlockIndex s /\ chainActive s' = chainActive s.

Lemma prune_entries_spec n l s : Forall (fun p => is_Some (entries s !! p)) l ->
  exists s', prune_entries n l s = Ok (tt, s') /\ same_rest s s' /\
    forall p, entries s' !! p = if decide (p ∈ l) then pruned_entry n <$> entries s !! p else entries s !! p.
Proof.
  revert s. induction l as [|q l IH]; intros s Hl; [by exists s|]. apply Forall_cons in Hl as [[b Eb] Hl]. cbn [prune_entries].
  assert (load q s = Ok (b, s)) as Hload by (unfold load, get, lift, deref, mbind, op_bind; by rewrite Eb).
  unfold mbind at 1, op_bind at 1. rewrite Hload.
  set (s1 := if CBlockIndex.nFile b =? n then
    set_mapBlocksUnlinked (filter (fun kv => kv <> (CBlockIndex.pprev b, q)) (mapBlocksUnlinked s))
      (set_setDirtyBlockIndex ({[q]} ∪ setDirtyBlockIndex s) (BlockIndex.set_entries (<[q := pruned_entry n b]> (entries s)) s)) else s).
  assert (same_rest s s1 /\ entries s1 = <[q := pruned_entry n b]> (entries s)) as [Hr He].
  { unfold s1. destruct (Z.eqb_spec (CBlockIndex.nFile b) n); [done|]. split; [done|]. rewrite pruned_other by done. by rewrite insert_id. }
  destruct (IH s1) as (s' & E & Hr' & Hs').
  { rewrite He. eapply Forall_impl; [exact Hl|]. intros p Hp. destruct (decide (q = p)) as [->|]; [rewrite lookup_insert_eq; by eexists|by rewrite lookup_insert_ne]. }
  exists s'. split.
  - rewrite <- E. unfold s1. unfold pruned_entry. by destruct (CBlockIndex.nFile b =? n).
  - split; [destruct Hr, Hr'; split; congruence|]. intros p. rewrite Hs', He. destruct (decide (q = p)) as [<-|Hne].
    + rewrite lookup_insert_eq, Eb, (decide_True (P := q ∈ q :: l)) by set_solver. cbn. case_decide; [by rewrite pruned_idem|done].
    + rewrite lookup_insert_ne by done. destruct (decide (p ∈ l)); [rewrite decide_True by set_solver|rewrite decide_False by set_solver]; done.
Qed.

(** The entries that the index reaches. *)
Definition indexed (s : state) (p : N) : Prop := exists hash, mapBlockIndex s !! hash = Some p.

(** The statistics of a file know the heights of the blocks in it. *)
Record covered (s : node_files) : Prop := {
  cov_alive : forall p, indexed s.1 p -> is_Some (entries s.1 !! p);
  cov_height : forall p b, indexed s.1 p -> entries s.1 !! p = Some b -> Entry.have_data b = true ->
    0 <= CBlockIndex.nFile b /\ exists i, vinfoBlockFile s.2 !! Z.to_nat (CBlockIndex.nFile b) = Some i /\ CBlockIndex.nHeight b <= CBlockFileInfo.nHeightLast i;
}.

Lemma PruneOneBlockFile_spec n s : covered s -> 0 <= n < Z.of_nat (length (vinfoBlockFile s.2)) ->
  exists s', PruneOneBlockFile n s = Ok s' /\ same_rest s.1 s'.1 /\ covered s' /\
    (forall p b, indexed s.1 p -> entries s.1 !! p = Some b -> entries s'.1 !! p = Some (pruned_entry n b)) /\
    vinfoBlockFile s'.2 = <[Z.to_nat n := CBlockFileInfo.null]> (vinfoBlockFile s.2) /\ nLastBlockFile s'.2 = nLastBlockFile s.2 /\
    forall k, disk k s'.2 = disk k s.2.
Proof.
  intros Hc Hn. unfold PruneOneBlockFile.
  destruct (prune_entries_spec n (map snd (map_to_list (mapBlockIndex s.1))) s.1) as (x & -> & [Hm Ha] & Hx).
  { apply Forall_forall. intros p Hp. apply list_elem_of_fmap in Hp as ([hash q] & -> & Hp). apply (cov_alive s Hc). exists hash. by apply elem_of_map_to_list. }
  cbn [mbind result_bind]. rewrite (proj2 (Z.ltb_ge _ _)), (proj2 (Nat.ltb_lt _ _)) by lia. cbn [orb negb].
  assert (forall p b, indexed s.1 p -> entries s.1 !! p = Some b -> entries x !! p = Some (pruned_entry n b)) as Hp.
  { intros p b [hash Hh] Eb. rewrite Hx, decide_True, Eb; [done|]. apply list_elem_of_fmap. exists (hash, p). split; [done|]. by apply elem_of_map_to_list. }
  eexists. split; [done|]. cbn [fst snd]. split; [by split|]. split; [|split_and!; [exact Hp|done|done|by intros []]].
  split; cbn [fst snd].
  - intros p [hash Hh]. rewrite Hm in Hh. destruct (cov_alive s Hc p) as [b Eb]; [by exists hash|]. exists (pruned_entry n b). apply Hp; [by exists hash|done].
  - intros p b' [hash Hh] Eb' Hd. rewrite Hm in Hh. destruct (cov_alive s Hc p) as [b Eb]; [by exists hash|].
    assert (indexed s.1 p) as Hi by (by exists hash). rewrite (Hp p b Hi Eb) in Eb'. injection Eb' as <-.
    destruct (decide (CBlockIndex.nFile b = n)) as [E|E]; [by rewrite pruned_no_data in Hd|]. rewrite pruned_other in * by done.
    destruct (cov_height s Hc p b Hi Eb Hd) as (Hf & i & Ei & Hh'). split; [done|]. exists i. split; [|done].
    cbn. rewrite list_lookup_insert_ne by lia. done.
Qed.

(** The effect of pruning the files [l], all of whose blocks are at most at height [L]. *)
Record spared (L : Z) (s s' : node_files) (l : list Z) : Prop := {
  sp_rest : same_rest s.1 s'.1;
  sp_covered : covered s';
  sp_files : length (vinfoBlockFile s'.2) = length (vinfoBlockFile s.2) /\ nLastBlockFile s'.2 = nLastBlockFile s.2;
  sp_disk : forall k, disk k s'.2 = disk k s.2;
  sp_kept : forall p b, indexed s.1 p -> entries s.1 !! p = Some b -> Entry.have_data b = true -> L < CBlockIndex.nHeight b ->
    entries s'.1 !! p = Some b /\ CBlockIndex.nFile b ∉ l;
  sp_gone : forall p b', indexed s.1 p -> entries s'.1 !! p = Some b' -> Entry.have_data b' = true ->
    entries s.1 !! p = Some b' /\ CBlockIndex.nFile b' ∉ l;
  sp_info : forall n, n ∉ l -> 0 <= n -> vinfoBlockFile s'.2 !! Z.to_nat n = vinfoBlockFile s.2 !! Z.to_nat n;
}.

Lemma spared_none L s : covered s -> spared L s s [].
Proof. intros Hc. split; try done; [intros; split; [done|set_solver]..]. Qed.

Lemma spared_one L s n i : covered s -> 0 <= n -> vinfoBlockFile s.2 !! Z.to_nat n = Some i -> CBlockFileInfo.nHeightLast i <= L ->
  exists s', PruneOneBlockFile n s = Ok s' /\ spared L s s' [n].
Proof.
  intros Hc Hn Ei Hl. pose proof (lookup_lt_Some _ _ _ Ei) as Hlt.
  destruct (PruneOneBlockFile_spec n s Hc ltac:(lia)) as (s' & E & Hr & Hc' & Hp & Hv & Hnl & Hd). exists s'. split; [done|]. split; try done.
  - split; [by rewrite Hv, length_insert|done].
  - intros p b Hi Eb Hb Hh. destruct (cov_height s Hc p b Hi Eb Hb) as (Hf & i' & Ei' & Hh').
    assert (CBlockIndex.nFile b <> n) as Hne by (intros En; rewrite En, Ei in Ei'; injection Ei' as <-; lia).
    rewrite (Hp p b Hi Eb), pruned_other by done. split; [done|]. set_solver.
  - intros p b' Hi Eb' Hb'. destruct (cov_alive s Hc p Hi) as [b Eb]. rewrite (Hp p b Hi Eb) in Eb'. injection Eb' as <-.
    destruct (decide (CBlockIndex.nFile b = n)) as [En|En]; [by rewrite pruned_no_data in Hb'|]. rewrite pruned_other in * by done. split; [done|]. set_solver.
  - intros m Hm Hm0. rewrite Hv. apply list_lookup_insert_ne. intros Heq. apply Hm. apply list_elem_of_singleton. lia.
Qed.

Lemma spared_trans L s s1 s2 n l : spared L s s1 [n] -> spared L s1 s2 l -> spared L s s2 (n :: l).
Proof.
  intros [[Hm Ha] Hc [Hf Hn] Hd Hk Hg Hi] [[Hm' Ha'] Hc' [Hf' Hn'] Hd' Hk' Hg' Hi'].
  assert (forall p, indexed s1.1 p <-> indexed s.1 p) as Hix by (intros p; unfold indexed; by rewrite Hm).
  split.
  - split; congruence.
  - done.
  - split; congruence.
  - intros k. by rewrite Hd'.
  - intros p b Hp Eb Hb Hh. destruct (Hk p b Hp Eb Hb Hh) as [E1 N1]. destruct (Hk' p b (proj2 (Hix p) Hp) E1 Hb Hh) as [E2 N2]. split; [done|]. set_solver.
  - intros p b Hp Eb Hb. destruct (Hg' p b (proj2 (Hix p) Hp) Eb Hb) as [E1 N1]. destruct (Hg p b Hp E1 Hb) as [E2 N2]. split; [done|]. set_solver.
  - intros m Hml Hm0. rewrite Hi', Hi by set_solver. done.
Qed.

(** Both loops stop only where the limit is above the height of the file. *)
Lemma prune_manual_loop_spec L files s : covered s -> Forall (fun n => 0 <= n < Z.of_nat (length (vinfoBlockFile s.2))) files ->
  exists s' l, prune_manual_loop L files s = Ok (s', l) /\ spared L s s' l /\ l ⊆ files.
Proof.
  revert s. induction files as [|n files IH]; intros s Hc Hf; [exists s, []; split_and!; [done|by apply spared_none|done]|].
  apply Forall_cons in Hf as [Hn Hf]. cbn [prune_manual_loop]. unfold info_of.
  destruct (lookup_lt_is_Some_2 (vinfoBlockFile s.2) (Z.to_nat n) ltac:(lia)) as [i Ei].
  rewrite (proj2 (Z.ltb_ge _ _)), Ei by lia. cbn [mbind result_bind].
  destruct (_ || _) eqn:Eo; [destruct (IH s Hc Hf) as (s' & l & ? & ? & ?); exists s', l; split_and!; [done|done|set_solver]|].
  apply orb_false_iff in Eo as [_ Eo]. rewrite Z.gtb_ltb in Eo. apply Z.ltb_ge in Eo.
  destruct (spared_one L s n i Hc ltac:(lia) Ei Eo) as (s1 & -> & Hs1). cbn [mbind result_bind].
  destruct (IH s1 (sp_covered _ _ _ _ Hs1)) as (s' & l & -> & Hs' & Hl); [by rewrite (proj1 (sp_files _ _ _ _ Hs1))|].
  cbn [mbind result_bind]. exists s', (n :: l). split_and!; [done|by eapply spared_trans|set_solver].
Qed.

Lemma prune_loop_files_spec target buffer L files usage s : covered s -> Forall (fun n => 0 <= n < Z.of_nat (length (vinfoBlockFile s.2))) files ->
  exists s' l, prune_loop_files target buffer L files usage s = Ok (s', l) /\ spared L s s' l /\ l ⊆ files.
Proof.
  revert s usage. induction files as [|n files IH]; intros s usage Hc Hf; [exists s, []; split_and!; [done|by apply spared_none|done]|].
  apply Forall_cons in Hf as [Hn Hf]. cbn [prune_loop_files]. unfold info_of.
  destruct (lookup_lt_is_Some_2 (vinfoBlockFile s.2) (Z.to_nat n) ltac:(lia)) as [i Ei].
  rewrite (proj2 (Z.ltb_ge n 0)), Ei by lia. cbn [mbind result_bind].
  destruct (_ =? 0); [destruct (IH s usage Hc Hf) as (s' & l & ? & ? & ?); exists s', l; split_and!; [done|done|set_solver]|].
  destruct (_ <? target); [exists s, []; split_and!; [done|by apply spared_none|set_solver]|].
  destruct (_ >? L) eqn:Eo; [destruct (IH s usage Hc Hf) as (s' & l & ? & ? & ?); exists s', l; split_and!; [done|done|set_solver]|].
  rewrite Z.gtb_ltb in Eo. apply Z.ltb_ge in Eo.
  destruct (spared_one L s n i Hc ltac:(lia) Ei Eo) as (s1 & -> & Hs1). cbn [mbind result_bind].
  destruct (IH s1 (u64 (usage - u32 (CBlockFileInfo.nSize i + CBlockFileInfo.nUndoSize i))) (sp_covered _ _ _ _ Hs1)) as (s' & l & -> & Hs' & Hl);
    [by rewrite (proj1 (sp_files _ _ _ _ Hs1))|].
  cbn [mbind result_bind]. exists s', (n :: l). split_and!; [done|by eapply spared_trans|set_solver].
Qed.

(** The files a run of pruning may remove. *)
Definition old_files (s : node_files) (l : list Z) : Prop := Forall (fun n => 0 <= n < nLastBlockFile s.2) l.

Section prune.
Context (s : node_files) (p : N) (bp : CBlockIndex.t).
Context (Hc : covered s) (Ht : Tip s.1 = Some p) (Ep : entries s.1 !! p = Some bp) (Hh : 0 <= CBlockIndex.nHeight bp < 2 ^ 31).
Context (Hl : nLastBlockFile s.2 <= Z.of_nat (length (vinfoBlockFile s.2))).
#[local] Abbreviation limit := (CBlockIndex.nHeight bp - MIN_BLOCKS_TO_KEEP).

Lemma prune_tip : tip_height s.1 = Ok (Some (CBlockIndex.nHeight bp)).
Proof. unfold tip_height. rewrite Ht. unfold deref. by rewrite Ep. Qed.

Lemma prune_limit : MIN_BLOCKS_TO_KEEP <= CBlockIndex.nHeight bp -> u32 limit = limit.
Proof. intros H. assert (MIN_BLOCKS_TO_KEEP = 288) by done. apply uwrap_small. unfold is_u. lia. Qed.

Lemma prune_candidates l : l ⊆ seqZ 0 (nLastBlockFile s.2) -> old_files s l.
Proof. intros H. apply Forall_forall. intros n Hn. apply H, elem_of_seqZ in Hn. lia. Qed.

Lemma prune_in_range : Forall (fun n => 0 <= n < Z.of_nat (length (vinfoBlockFile s.2))) (seqZ 0 (nLastBlockFile s.2)).
Proof. apply Forall_forall. intros n Hn. apply elem_of_seqZ in Hn. lia. Qed.

Lemma FindFilesToPrune_spares nPruneTarget nPruneAfterHeight : MIN_BLOCKS_TO_KEEP <= nPruneAfterHeight ->
  exists s' l, FindFilesToPrune nPruneTarget nPruneAfterHeight s = Ok (s', l) /\ spared limit s s' l /\ old_files s l.
Proof.
  intros Ha. unfold FindFilesToPrune. rewrite prune_tip. cbn [mbind result_bind]. assert (MIN_BLOCKS_TO_KEEP = 288) by done.
  destruct (nPruneTarget =? 0); [exists s, []; split_and!; [done|by apply spared_none|constructor]|]. cbn [orb].
  rewrite (uwrap_small 64) by (unfold is_u; lia).
  destruct (Z.leb_spec (CBlockIndex.nHeight bp) nPruneAfterHeight); [exists s, []; split_and!; [done|by apply spared_none|constructor]|].
  rewrite prune_limit by lia.
  destruct (_ >=? _); [|exists s, []; split_and!; [done|by apply spared_none|constructor]].
  destruct (prune_loop_files_spec nPruneTarget (u32 (BLOCKFILE_CHUNK_SIZE + UNDOFILE_CHUNK_SIZE)) limit _ (CalculateCurrentUsage s.2) s Hc prune_in_range) as (s' & l & E & Hs & Hsub).
  exists s', l. split_and!; [exact E|exact Hs|by apply prune_candidates].
Qed.

Lemma FindFilesToPruneManual_spares nManualPruneHeight : MIN_BLOCKS_TO_KEEP <= CBlockIndex.nHeight bp -> 0 < nManualPruneHeight < 2 ^ 31 ->
  exists s' l, FindFilesToPruneManual true nManualPruneHeight s = Ok (s', l) /\ spared (Z.min nManualPruneHeight limit) s s' l /\ old_files s l.
Proof.
  intros Hk Hm. unfold FindFilesToPruneManual. rewrite Z.gtb_ltb, (proj2 (Z.ltb_lt _ _)) by lia. cbn [andb negb]. rewrite prune_tip.
  cbn [mbind result_bind]. rewrite prune_limit, (uwrap_small 32 nManualPruneHeight) by (unfold is_u; lia).
  destruct (prune_manual_loop_spec (Z.min nManualPruneHeight limit) _ s Hc prune_in_range) as (s' & l & E & Hs & Hsub).
  exists s', l. split_and!; [exact E|exact Hs|by apply prune_candidates].
Qed.

(** Sparing more. *)
Lemma spared_weaken L L' s1 s2 l : spared L s1 s2 l -> L <= L' -> spared L' s1 s2 l.
Proof. intros [] HL. split; try done. intros q b Hq Eb Hb Hlt. eapply sp_kept0; try done. lia. Qed.

Lemma flush_prune_spares fReindex nManualPruneHeight nPruneTarget nPruneAfterHeight : MIN_BLOCKS_TO_KEEP <= nPruneAfterHeight ->
  nManualPruneHeight <= 0 \/ MIN_BLOCKS_TO_KEEP <= CBlockIndex.nHeight bp /\ nManualPruneHeight < 2 ^ 31 ->
  exists s' l, flush_prune true fReindex nManualPruneHeight nPruneTarget nPruneAfterHeight s = Ok (s', l) /\ spared limit s s' l /\ old_files s l.
Proof.
  intros Ha Hm. unfold flush_prune. destruct (_ && _); [|exists s, []; split_and!; [done|by apply spared_none|constructor]].
  rewrite Z.gtb_ltb. destruct (Z.ltb_spec 0 nManualPruneHeight).
  - destruct (FindFilesToPruneManual_spares nManualPruneHeight) as (s' & l & E & Hs & Ho); [lia..|]. exists s', l. split_and!; [exact E| |exact Ho].
    eapply spared_weaken; [exact Hs|lia].
  - destruct (FindFilesToPrune_spares nPruneTarget nPruneAfterHeight Ha) as (s' & l & -> & Hs & Ho). cbn [mbind result_bind].
    eexists _, l. split; [reflexivity|]. split; [|exact Ho]. destruct Hs as [H1 [H2 H3] H4 H5 H6 H7 H8]. split; try done.
Qed.
End prune.

(** Removing files leaves the others. *)
Lemma UnlinkPrunedFiles_other k n l s : n ∉ l -> disk k (UnlinkPrunedFiles l s) !! n = disk k s !! n.
Proof.
  unfold UnlinkPrunedFiles. revert s. induction l as [|m l IH]; intros s Hn; [done|]. cbn [foldl]. rewrite IH by set_solver.
  assert (m <> n) by set_solver. destruct k; cbn; by rewrite lookup_delete_ne.
Qed.

(** C12: pruning spares the blocks near the tip.  Let the statistics of the files know the
    heights of the blocks in them, and let the height up to which a network never prunes be at
    least 288, as it is for all of them.  Then, whatever the length of the chain, pruning ends
    without a fault, both the automatic pruning of [FlushStateToDisk] and the one by the
    command [pruneblockchain] (for a time instead of a height: unless the search for it
    faults).  Every block less than 288 blocks below the tip that had its data keeps its entry,
    and its files stay on the disk when the pruned ones are removed; every block that still has
    data afterwards has an unchanged entry and a file that stays; and what remains is again
    covered by the statistics. *)
Theorem pruning_spares_recent_blocks (s : node_files) (p : N) (bp : CBlockIndex.t) (fReindex : bool) (heightParam nPruneTarget nPruneAfterHeight : Z) :
  covered s -> Tip s.1 = Some p -> entries s.1 !! p = Some bp -> CBlockIndex.nHeight bp = CChain.Height (chainActive s.1) ->
  0 <= CBlockIndex.nHeight bp < 2 ^ 31 -> nLastBlockFile s.2 <= Z.of_nat (length (vinfoBlockFile s.2)) -> MIN_BLOCKS_TO_KEEP <= nPruneAfterHeight ->
  let limit := CBlockIndex.nHeight bp - MIN_BLOCKS_TO_KEEP in
  let safe s' l := spared limit s s' l /\ old_files s l /\
    forall q b k, indexed s.1 q -> entries s.1 !! q = Some b -> Entry.have_data b = true -> limit < CBlockIndex.nHeight b ->
      disk k (UnlinkPrunedFiles l s'.2) !! CBlockIndex.nFile b = disk k s.2 !! CBlockIndex.nFile b in
  (exists s' l, flush_prune true fReindex 0 nPruneTarget nPruneAfterHeight s = Ok (s', l) /\ safe s' l) /\
  (forall height s' l, pruneblockchain true fReindex heightParam nPruneTarget nPruneAfterHeight s = Ok (inr (height, (s', l))) -> safe s' l) /\
  (heightParam <= 1000000000 -> exists r, pruneblockchain true fReindex heightParam nPruneTarget nPruneAfterHeight s = Ok r).
Proof.
  intros Hc Ht Ep Eh Hh Hl Ha limit safe. assert (MIN_BLOCKS_TO_KEEP = 288) as H288 by done.
  assert (forall s' l, spared limit s s' l -> old_files s l -> safe s' l) as Hsafe.
  { intros s' l Hs Ho. split_and!; [done|done|]. intros q b k Hq Eb Hb Hlt. destruct (sp_kept _ _ _ _ Hs q b Hq Eb Hb Hlt) as [_ Hn].
    rewrite UnlinkPrunedFiles_other by done. by rewrite (sp_disk _ _ _ _ Hs). }
  assert (forall height, (u32 height >? u32 (CChain.Height (chainActive s.1))) = false -> (u32 (CChain.Height (chainActive s.1)) <? nPruneAfterHeight) = false ->
    let height := if u32 height >? u32 (u32 (CChain.Height (chainActive s.1)) - MIN_BLOCKS_TO_KEEP)
                  then u32 (u32 (CChain.Height (chainActive s.1)) - MIN_BLOCKS_TO_KEEP) else u32 height in
    exists s' l, flush_prune true fReindex (i32 height) nPruneTarget nPruneAfterHeight s = Ok (s', l) /\ spared limit s s' l /\ old_files s l) as Hman.
  { intros height E1 E2 height'. apply (flush_prune_spares s p bp Hc Ht Ep Hh Hl _ _ _ _ Ha). right.
    rewrite <- Eh, (uwrap_small 32 (CBlockIndex.nHeight bp)) in * by (unfold is_u; lia). split; [lia|].
    pose proof (swrap_range 32 height' ltac:(lia)) as Hr. unfold is_s in Hr. lia. }
  split_and!.
  - destruct (flush_prune_spares s p bp Hc Ht Ep Hh Hl fReindex 0 nPruneTarget nPruneAfterHeight Ha) as (s' & l & E & Hs & Ho); [left; lia|].
    exists s', l. split; [exact E|by apply Hsafe].
  - intros height s' l E. unfold pruneblockchain in E. cbn [negb] in E. destruct (heightParam <? 0); [done|].
    destruct (if heightParam >? 1000000000 then _ else _) as [hp|]; [|done]. cbn [mbind result_bind] in E.
    destruct hp as [hp|]; [|done]. destruct (_ <? nPruneAfterHeight) eqn:E2; [done|]. destruct (u32 hp >? _) eqn:E1; [done|].
    destruct (Hman hp ltac:(first [exact E1|reflexivity]) ltac:(first [exact E2|reflexivity])) as (s1 & l1 & E3 & Hs & Ho). rewrite E3 in E. cbn [mbind result_bind] in E. injection E as <- <- <-. by apply Hsafe.
  - intros Hp. unfold pruneblockchain. cbn [negb]. destruct (heightParam <? 0); [by eexists|].
    assert ((heightParam >? 1000000000) = false) as -> by (rewrite Z.gtb_ltb; apply Z.ltb_ge; lia). cbn [mbind result_bind].
    destruct (_ <? nPruneAfterHeight) eqn:E2; [by eexists|]. destruct (u32 heightParam >? _) eqn:E1; [by eexists|].
    destruct (Hman heightParam ltac:(first [exact E1|reflexivity]) ltac:(first [exact E2|reflexivity])) as (s1 & l1 & -> & _). by eexists.
Qed.

(** ** Samples *)

Definition filed_coinbase : CTransaction :=
  {| Transaction.nVersion := 1; Transaction.nTime := 1600000000; vin := [CTxIn.mk COutPoint.null [0x51; 0x51] 0xffffffff []];
     vout := [CTxOut.mk 0 []]; nLockTime := 0 |}.
Definition filed_coinstake : CTransaction :=
  {| Transaction.nVersion := 1; Transaction.nTime := 1600000000; vin := [CTxIn.mk (COutPoint.mk (replicate 32 7) 1) [0x51] 0xffffffff []];
     vout := [CTxOut.mk 0 []; CTxOut.mk 5000 [0x51]]; nLockTime := 0 |}.
Definition filed_block : CBlock := mk_block sample_parent [filed_coinbase; filed_coinstake] [1; 2] false.
Definition filed_undo : list (list CTxInUndo.t) := [[CTxInUndo.mk (CTxOut.mk 4000 [0x51]) true 7 1 false 1500000000]].
Definition sample_os : os := {| os_open := fun _ _ => true; os_write := fun _ _ => true; os_available := 2 ^ 40; os_prune := true |}.
Definition broken_os : os := {| os_open := fun _ _ => true; os_write := fun _ _ => false; os_available := 2 ^ 40; os_prune := true |}.

(** A node with a full first block file. *)
Definition sample_files : file_state :=
  mk_files {[ 0 := mk_file (fun i => i mod 256) 134217700 ]} {[ 0 := empty_file ]}
    [CBlockFileInfo.mk 100 134217700 0 0 99 1500000000 1500000099] 0 ∅ false.

Definition sample_history : list file_op :=
  [OpStoreUndo sample_os filed_undo 1 (replicate 32 4); OpStoreBlock broken_os filed_block 101; OpFlush sample_os true;
   OpPrune 0; OpStoreBlock sample_os filed_block 102].

Lemma filed_tx_wf : tx_wf filed_coinbase /\ tx_wf filed_coinstake.
Proof. split; split; by_decide. Qed.

Lemma filed_block_wf : block_wf SER_DISK CLIENT_VERSION 0 filed_block.
Proof.
  destruct filed_tx_wf as [Hcb Hcs]. split; [|split; [|split; [by_decide|done]]].
  - exists 0%nat. cbn [header_wf]. split; [exact (proj1 sample_prefix_valid)|done].
  - split; [|cbn; unfold MAX_SIZE; lia]. repeat constructor; done.
Qed.

Lemma filed_undo_valid : elems_valid (elems_valid undo_valid) filed_undo.
Proof.
  split; [|cbn; unfold MAX_SIZE; lia]. constructor; [|constructor]. split; [|cbn; unfold MAX_SIZE; lia]. constructor; [|constructor].
  split; [split; [by_decide|split; by_decide]|by_decide..].
Qed.

(** Room is a matter of the statistics. *)
Lemma room_of s : Forall (fun i => (0 <= CBlockFileInfo.nSize i < 2 ^ 31) /\ 0 <= CBlockFileInfo.nUndoSize i < 2 ^ 31) (vinfoBlockFile s) ->
  Z.of_nat (length (vinfoBlockFile s)) < 2 ^ 29 -> 0 <= nLastBlockFile s < 2 ^ 29 -> room s.
Proof.
  intros Hf Hl Hn. split; [|done|done]. intros k n. unfold rec_size. destruct (n <? 0); [lia|].
  destruct (vinfoBlockFile s !! Z.to_nat n) as [i|] eqn:E; [|lia]. apply (Forall_lookup_1 _ _ _ _ Hf) in E. destruct k; cbn; tauto.
Qed.

Lemma sample_decompresses : decompresses (fun _ => false) (fun _ => None).
Proof. intros x y _ _ _ _ E. discriminate E. Qed.

Lemma sample_block_op (e : os) (h : Z) s : room s -> op_ok false (fun _ => false) (fun _ => None) s (OpStoreBlock e filed_block h).
Proof. intros Hr. split; [exact Hr|]. split; [exact filed_block_wf|]. vm_compute. reflexivity. Qed.

Lemma sample_undo_op (e : os) hash s : room s -> op_ok false (fun _ => false) (fun _ => None) s (OpStoreUndo e filed_undo 1 hash).
Proof. intros Hr. split; [exact Hr|]. split; [lia|]. split; [exact filed_undo_valid|]. vm_compute. reflexivity. Qed.

Ltac solve_room := apply room_of; [by_decide|by_decide|by_decide].

Definition digest (x : list Z) : list Z := replicate 32 (Z.of_nat (length x) mod 256).
Definition magic : list Z := [0xf9; 0xbe; 0xb4; 0xd9].

Lemma sample_history_ok s1 : s1 = (store_block (os_open sample_os) (os_write sample_os) (os_available sample_os) (os_prune sample_os) false magic filed_block 100 sample_files).2 ->
  history_ok false magic digest (fun _ => false) (fun _ => None) s1 sample_history.
Proof.
  intros ->. split; [apply sample_undo_op; solve_room|]. split; [apply sample_block_op; solve_room|].
  split; [split; [solve_room|exact I]|]. split; [split; [solve_room|lia]|]. split; [apply sample_block_op; solve_room|exact I].
Qed.

Lemma stored_block_survives_witness : exists pos s1,
  store_block (os_open sample_os) (os_write sample_os) (os_available sample_os) (os_prune sample_os) false magic filed_block 100 sample_files = (Ok pos, s1) /\
  pos = CDiskBlockPos.mk 1 8 /\
  (ReadBlockFromDisk (fun _ _ => true) false digest (fun _ _ _ => (false, [])) (main_params []) pos
     (run_ops false magic digest (fun _ => false) (fun _ => None) sample_history s1)).1 = Ok filed_block.
Proof.
  destruct (store_block (os_open sample_os) (os_write sample_os) (os_available sample_os) (os_prune sample_os) false magic filed_block 100 sample_files) as [r s1] eqn:E.
  assert (r = Ok (CDiskBlockPos.mk 1 8)) as ->.
  { transitivity (store_block (os_open sample_os) (os_write sample_os) (os_available sample_os) (os_prune sample_os) false magic filed_block 100 sample_files).1;
      [rewrite E; reflexivity|vm_compute; reflexivity]. }
  exists (CDiskBlockPos.mk 1 8), s1. split; [reflexivity|]. split; [reflexivity|].
  assert (op_ok false (fun _ => false) (fun _ => None) sample_files (OpStoreBlock sample_os filed_block 100)) as Hop by (apply sample_block_op; solve_room).
  assert (proved false digest (fun _ _ _ => (false, [])) (main_params []) filed_block) as Hp by (unfold proved; intros H; vm_compute in H; discriminate H).
  destruct (stored_block_survives false magic digest (fun _ => false) (fun _ => None) (fun _ _ _ => (false, [])) (main_params []) sample_os filed_block 100 sample_files
    eq_refl (fun x => eq_refl) sample_decompresses Hop Hp) as [_ Hread].
  rewrite (Hread (CDiskBlockPos.mk 1 8) s1 sample_history (fun _ _ => true) E); [reflexivity| |reflexivity|reflexivity].
  apply sample_history_ok. rewrite E. reflexivity.
Defined.

Lemma stored_undo_survives_witness : exists pos s1,
  store_undo (os_open sample_os) (os_write sample_os) (os_available sample_os) (os_prune sample_os) false magic digest (fun _ => false) (fun _ => None)
    filed_undo 0 (replicate 32 4) sample_files = (Ok pos, s1) /\ pos = CDiskBlockPos.mk 0 8 /\
  (UndoReadFromDisk (fun _ _ => true) false digest (fun _ => false) (fun _ => None) pos (replicate 32 4)
     (run_ops false magic digest (fun _ => false) (fun _ => None) [OpFlush sample_os true] s1)).1 = Ok filed_undo.
Proof.
  destruct (store_undo (os_open sample_os) (os_write sample_os) (os_available sample_os) (os_prune sample_os) false magic digest (fun _ => false) (fun _ => None)
    filed_undo 0 (replicate 32 4) sample_files) as [r s1] eqn:E.
  assert (r = Ok (CDiskBlockPos.mk 0 8) /\ room s1) as [-> Hr].
  { assert ((r, s1) = store_undo (os_open sample_os) (os_write sample_os) (os_available sample_os) (os_prune sample_os) false magic digest (fun _ => false) (fun _ => None)
      filed_undo 0 (replicate 32 4) sample_files) as E' by (rewrite E; reflexivity).
    split; [apply (f_equal fst) in E'; vm_compute in E'; exact E'|]. apply (f_equal snd) in E'. cbn [snd] in E'. rewrite E'. solve_room. }
  exists (CDiskBlockPos.mk 0 8), s1. split; [reflexivity|]. split; [reflexivity|].
  destruct (stored_undo_survives false magic digest (fun _ => false) (fun _ => None) sample_os filed_undo 0 (replicate 32 4) sample_files
    eq_refl (fun x => eq_refl) sample_decompresses) as [_ Hread].
  { split; [solve_room|]. split; [lia|]. split; [exact filed_undo_valid|]. vm_compute. reflexivity. }
  destruct (Hread (CDiskBlockPos.mk 0 8) s1 [OpFlush sample_os true] (fun _ _ => true) E) as [H _]; [|reflexivity|reflexivity|rewrite H; reflexivity].
  split; [split; [exact Hr|exact I]|exact I].
Defined.

(** A chain of a thousand blocks in two files. *)
Definition pruned_entry_at (h file : Z) : CBlockIndex.t :=
  Entry.set_data 1 1 file 8 0 (Entry.add_status CBlockIndex.BLOCK_HAVE_DATA (sample_entry h (Some 0%N) h 1 0)).
Definition sample_node (tip : Z) : node_files :=
  (mk_state {[ 0%N := pruned_entry_at 10 0; 1%N := pruned_entry_at tip 1 ]} {[ replicate 32 1 := 0%N; replicate 32 2 := 1%N ]}
     [] [] 0 0 [] (replicate (Z.to_nat tip) (Some 0%N) ++ [Some 1%N]) None None ∅ ∅,
   mk_files ∅ ∅ [CBlockFileInfo.mk 1 134217700 0 10 10 0 0; CBlockFileInfo.mk 1 1000 0 tip tip 0 0; CBlockFileInfo.null] 2 ∅ true).

Lemma sample_covered tip : covered (sample_node tip).
Proof.
  assert (forall p, indexed (sample_node tip).1 p -> p = 0%N \/ p = 1%N) as Hix.
  { intros p [hash Hh]. cbn in Hh. apply lookup_insert_Some in Hh as [[_ <-]|[_ Hh]]; [by left|]. apply lookup_singleton_Some in Hh as [_ <-]. by right. }
  split; intros p.
  - intros [->| ->]%Hix; by eexists.
  - intros b [->| ->]%Hix Eb _; injection Eb as <-; (split; [vm_compute; discriminate|]); eexists; (split; [reflexivity|]); apply Z.le_refl.
Qed.

Lemma pruning_spares_recent_blocks_witness :
  (exists s' l, flush_prune true false 0 1000 300 (sample_node 1000) = Ok (s', l) /\ l = [0] /\ entries s'.1 !! 1%N = Some (pruned_entry_at 1000 1)) /\
  (forall height s' l, pruneblockchain true false 900 1000 300 (sample_node 1000) = Ok (inr (height, (s', l))) -> entries s'.1 !! 1%N = Some (pruned_entry_at 1000 1)).
Proof.
  destruct (pruning_spares_recent_blocks (sample_node 1000) 1%N (pruned_entry_at 1000 1) false 900 1000 300) as [(s' & l & E & Hs & _) [Hman _]];
    [apply sample_covered|reflexivity|reflexivity|by_decide|by_decide|by_decide|by_decide|]. split.
  - exists s', l. split; [exact E|]. split.
    + assert (Ok l = (r ← flush_prune true false 0 1000 300 (sample_node 1000); Ok r.2)) as E' by (rewrite E; reflexivity). vm_compute in E'. by injection E'.
    + apply (sp_kept _ _ _ _ Hs); [by exists (replicate 32 2)|reflexivity|reflexivity|vm_compute; reflexivity].
  - intros height s2 l2 E2. destruct (Hman height s2 l2 E2) as [Hs2 _].
    apply (sp_kept _ _ _ _ Hs2); [by exists (replicate 32 2)|reflexivity|reflexivity|vm_compute; reflexivity].
Defined.

(** On a chain of less than 288 blocks the limit of manual pruning wraps around: the file with
    the tip is removed. *)
Example short_chain_pruned : (r ← FindFilesToPruneManual true 200 (sample_node 150); Ok r.2) = Ok [0; 1].
Proof. vm_compute. reflexivity. Qed.
