(* ===== verification/CheckQueue.v ===== *)
(** * CheckQueue: verification by many threads

    Models [src/src/checkqueue.h]: the queue on which [ConnectBlock] puts the script checks
    of a block, to be run by worker threads and, in the end, by the thread that waits for the
    result (the master).

    What a thread does while it holds the mutex is one step; so is running one check, which
    needs no lock.  Threads are interleaved in any order.  [cond.wait] releases the mutex and
    waits; a notification makes one waiting thread (or all) able to go on, and a thread may
    also wake up without one, as the library allows.  The numbers are those of the class,
    [nTodo] an [unsigned int].
    A notification of [Add] may also reach nobody: what is shown does not depend on it. *)
From S2P Require Import Prelude.

Section queue.
Context {T : Type} (check : T -> bool) (nBatchSize : Z).

(** Where a thread is: not in the loop (the master), running the checks of its batch, of
    which the first [done_] are finished, waiting on its condition variable, or returned. *)
Inductive thread : Type :=
| Outside
| Busy (vChecks : list T) (done_ : nat) (fOk : bool)
| Waiting (notified : bool)
| Returned (fRet : bool).

Record CCheckQueue : Type := mk_queue {
  queue : list T;            (** the back is the end of the list *)
  nIdle : Z;
  nTotal : Z;
  fAllOk : bool;
  nTodo : Z;
  fQuit : bool;
  master : thread;
  workers : list thread;
}.

(** A queue with [n] workers that have been started. *)
Definition new_queue (n : nat) : CCheckQueue :=
  mk_queue [] 0 0 true 0 false Outside (replicate n (Busy [] 0 true)).

Definition wake (t : thread) : thread := match t with Waiting _ => Waiting true | _ => t end.

Definition set_thread (tid : option nat) (t : thread) (q : CCheckQueue) : CCheckQueue :=
  match tid with
  | None => mk_queue (queue q) (nIdle q) (nTotal q) (fAllOk q) (nTodo q) (fQuit q) t (workers q)
  | Some i => mk_queue (queue q) (nIdle q) (nTotal q) (fAllOk q) (nTodo q) (fQuit q) (master q) (<[i := t]> (workers q))
  end.
Definition get_thread (tid : option nat) (q : CCheckQueue) : option thread :=
  match tid with None => Some (master q) | Some i => workers q !! i end.
Definition is_master (tid : option nat) : bool := match tid with None => true | Some _ => false end.

(** The clean-up of the previous round, at the start of the critical section; a batch that was
    taken is not empty, so the first round is the one with an empty batch. *)
Definition clean_up (fMaster : bool) (nNow : Z) (fOk : bool) (q : CCheckQueue) : CCheckQueue :=
  if negb (nNow =? 0) then
    let n := u32 (nTodo q - nNow) in
    mk_queue (queue q) (nIdle q) (nTotal q) (fAllOk q && fOk) n (fQuit q)
      (if (n =? 0) && negb fMaster then wake (master q) else master q) (workers q)
  else mk_queue (queue q) (nIdle q) (nTotal q + 1) (fAllOk q) (nTodo q) (fQuit q) (master q) (workers q).

(** How many checks to take. *)
Definition batch_size (q : CCheckQueue) : Z :=
  Z.max 1 (Z.min nBatchSize (u32 (Z.of_nat (length (queue q))) / u32 (nTotal q + nIdle q + 1))).

(** The rest of the critical section: wait, return, or take a batch from the back.  Dividing by
    zero and popping from an empty vector are not allowed: there is no next state then. *)
Definition seek (tid : option nat) (q : CCheckQueue) : option CCheckQueue :=
  let fMaster := is_master tid in
  match queue q with
  | [] =>
      if (fMaster || fQuit q) && (nTodo q =? 0) then
        Some (set_thread tid (Returned (fAllOk q))
          (mk_queue [] (nIdle q) (nTotal q - 1) (if fMaster then true else fAllOk q) (nTodo q) (fQuit q) (master q) (workers q)))
      else Some (set_thread tid (Waiting false)
             (mk_queue [] (nIdle q + 1) (nTotal q) (fAllOk q) (nTodo q) (fQuit q) (master q) (workers q)))
  | _ =>
      if u32 (nTotal q + nIdle q + 1) =? 0 then None
      else
        let nNow := batch_size q in
        if nNow >? Z.of_nat (length (queue q)) then None
        else
          let k := (length (queue q) - Z.to_nat nNow)%nat in
          Some (set_thread tid (Busy (reverse (drop k (queue q))) 0 (fAllOk q))
            (mk_queue (take k (queue q)) (nIdle q) (nTotal q) (fAllOk q) (nTodo q) (fQuit q) (master q) (workers q)))
  end.

(** After [cond.wait] has returned. *)
Definition resume (tid : option nat) (q : CCheckQueue) : option CCheckQueue :=
  seek tid (mk_queue (queue q) (nIdle q - 1) (nTotal q) (fAllOk q) (nTodo q) (fQuit q) (master q) (workers q)).

(** The next step of a thread that is not waiting for a notification. *)
Definition run_thread (tid : option nat) (q : CCheckQueue) : option CCheckQueue :=
  t ← get_thread tid q;
  match t with
  | Busy vChecks done_ fOk =>
      match vChecks !! done_ with
      | Some c => Some (set_thread tid (Busy vChecks (S done_) (if fOk then check c else fOk)) q)
      | None => seek tid (clean_up (is_master tid) (Z.of_nat (length vChecks)) fOk q)
      end
  | Waiting true => resume tid q
  | _ => None
  end.

(** A waiting thread that wakes up without a notification. *)
Definition wake_up (tid : option nat) (q : CCheckQueue) : option CCheckQueue :=
  t ← get_thread tid q;
  match t with Waiting false => resume tid q | _ => None end.

(** [Add], with the worker that [notify_one] chooses. *)
Definition Add (vChecks : list T) (chosen : option nat) (q : CCheckQueue) : CCheckQueue :=
  let n := Z.of_nat (length vChecks) in
  let ws := if n =? 1 then match chosen with Some i => alter wake i (workers q) | None => workers q end
            else if n >? 1 then map wake (workers q) else workers q in
  mk_queue (queue q ++ vChecks) (nIdle q) (nTotal q) (fAllOk q) (u32 (nTodo q + n)) (fQuit q) (master q) ws.

Definition IsIdle (q : CCheckQueue) : bool := (nTotal q =? nIdle q) && (nTodo q =? 0) && fAllOk q.

(** What the master does from outside: add checks, wait, take the result. *)
Inductive event : Type :=
| Internal
| Added (vChecks : list T)
| Result (fRet : bool).

Inductive step : event -> CCheckQueue -> CCheckQueue -> Prop :=
| step_thread tid q q' : run_thread tid q = Some q' -> step Internal q q'
| step_spurious tid q q' : wake_up tid q = Some q' -> step Internal q q'
| step_add vChecks chosen q : master q = Outside -> step (Added vChecks) q (Add vChecks chosen q)
| step_wait q : master q = Outside -> step Internal q (set_thread None (Busy [] 0 true) q)
| step_result q b : master q = Returned b -> step (Result b) q (set_thread None Outside q).

(** The states that can be reached, with the checks that were added since the last result. *)
Inductive reachable (n : nat) : list T -> CCheckQueue -> Prop :=
| reach_start : reachable n [] (new_queue n)
| reach_step added q e q' : reachable n added q -> step e q q' ->
    (match e with Added cs => Z.of_nat (length added + length cs) < 2 ^ 32 | _ => True end) ->
    reachable n (match e with Internal => added | Added cs => added ++ cs | Result _ => [] end) q'.
End queue.

(** ** The invariant *)

Section invariant.
Context {T : Type} (check : T -> bool) (nBatchSize : Z).
#[local] Abbreviation th := (thread (T := T)).
#[local] Abbreviation cq := (CCheckQueue (T := T)).

Definition threads (q : cq) : list th := master q :: workers q.
Definition index (tid : option nat) : nat := match tid with None => 0 | Some i => S i end.

Lemma threads_set tid t (q : cq) : threads (set_thread tid t q) = <[index tid := t]> (threads q).
Proof. by destruct tid. Qed.
Lemma threads_get tid (q : cq) : get_thread tid q = threads q !! index tid.
Proof. by destruct tid. Qed.

(** What a thread holds, and how the class counts it. *)
Definition held (t : th) : list T := match t with Busy v _ _ => v | _ => [] end.
Definition load (t : th) : Z := Z.of_nat (length (held t)).
Definition counted (t : th) : Z := match t with Busy [] _ _ => 0 | Busy _ _ _ => 1 | Waiting _ => 1 | _ => 0 end.
Definition idle (t : th) : Z := match t with Waiting _ => 1 | _ => 0 end.

Definition total (f : th -> Z) (ts : list th) : Z := foldr (fun t z => f t + z) 0 ts.

Lemma total_insert f ts i t t' : ts !! i = Some t -> total f (<[i := t']> ts) = total f ts - f t + f t'.
Proof.
  revert i. induction ts as [|x ts IH]; intros [|i] Ei; try done; [injection Ei as <-; cbn; lia|].
  change (f x + total f (<[i := t']> ts) = f x + total f ts - f t + f t'). rewrite (IH i Ei). lia.
Qed.
Lemma sum_nonneg f ts : (forall t, 0 <= f t) -> 0 <= total f ts.
Proof. intros Hf. induction ts as [|t ts IH]; [done|]. change (0 <= f t + total f ts). specialize (Hf t). lia. Qed.
Lemma total_zero f ts : (forall t, 0 <= f t) -> total f ts = 0 -> Forall (fun t => f t = 0) ts.
Proof.
  intros Hf. induction ts as [|t ts IH]; intros Ht; [done|]. change (f t + total f ts = 0) in Ht.
  pose proof (Hf t). pose proof (sum_nonneg f ts Hf). constructor; [lia|]. apply IH. lia.
Qed.

Lemma load_nonneg t : 0 <= load t. Proof. unfold load. lia. Qed.
Lemma load_none t : held t = [] -> load t = 0. Proof. intros E. unfold load. by rewrite E. Qed.

(** All that is held, as one list. *)
Definition all_held (ts : list th) : list T := concat (map held ts).

Lemma held_insert ts i t t' : ts !! i = Some t -> held t = [] -> all_held (<[i := t']> ts) ≡ₚ held t' ++ all_held ts.
Proof.
  revert i. induction ts as [|x ts IH]; intros [|i] Ei Eh; try done.
  - injection Ei as ->. change (held t' ++ all_held ts ≡ₚ held t' ++ held t ++ all_held ts). by rewrite Eh.
  - change (held x ++ all_held (<[i := t']> ts) ≡ₚ held t' ++ held x ++ all_held ts). rewrite (IH i Ei Eh). by rewrite Permutation_app_swap_app.
Qed.
Lemma held_remove ts i t t' : ts !! i = Some t -> held t' = [] -> all_held ts ≡ₚ held t ++ all_held (<[i := t']> ts).
Proof.
  revert i. induction ts as [|x ts IH]; intros [|i] Ei Eh; try done.
  - injection Ei as ->. change (held t ++ all_held ts ≡ₚ held t ++ held t' ++ all_held ts). by rewrite Eh.
  - change (held x ++ all_held ts ≡ₚ held t ++ held x ++ all_held (<[i := t']> ts)). rewrite (IH i Ei Eh) at 1. by rewrite Permutation_app_swap_app.
Qed.
Lemma length_all_held ts : Z.of_nat (length (all_held ts)) = total load ts.
Proof.
  induction ts as [|t ts IH]; [done|]. change (Z.of_nat (length (held t ++ all_held ts)) = load t + total load ts).
  rewrite length_app. unfold load at 1. lia.
Qed.

Abbreviation passes := (fun c => check c = true).
Abbreviation fails := (fun c => check c = false).

(** The result of a batch is right so far. *)
Definition good (added : list T) (t : th) : Prop :=
  match t with
  | Busy v d ok => (d <= length v)%nat /\ (v = [] -> ok = true) /\
      if ok then Forall passes (take d v) else Exists fails added
  | _ => True
  end.

(** [r] is whether the master has returned and not yet been asked for its result; [k] counts a
    thread that holds the mutex. *)
Record core (added : list T) (q : cq) (ts : list th) (k : Z) (r : bool) : Prop := {
  c_quit : fQuit q = false;
  c_todo : nTodo q = Z.of_nat (length (queue q)) + total load ts;
  c_total : nTotal q = total counted ts + k;
  c_idle : nIdle q = total idle ts;
  c_perm : exists finished, added ≡ₚ queue q ++ all_held ts ++ finished /\ (r = false -> fAllOk q = true -> Forall passes finished);
  c_good : Forall (good added) ts;
  c_bad : fAllOk q = false -> Exists fails added;
  c_size : Z.of_nat (length added) < 2 ^ 32;
}.

Lemma core_bound added q ts k r : core added q ts k r -> 0 <= nTodo q < 2 ^ 32 /\ Z.of_nat (length (queue q)) <= nTodo q.
Proof.
  intros [_ Ht _ _ (f & Hp & _) _ _ Hs]. apply Permutation_length in Hp. rewrite !length_app in Hp. pose proof (length_all_held ts).
  pose proof (sum_nonneg load ts load_nonneg). lia.
Qed.

(** A thread with a finished batch, or one that wakes up, takes the mutex. *)
Lemma core_clean added q ts i v d ok m r : core added q ts 0 r -> ts !! i = Some (Busy v d ok) -> v !! d = None ->
  core added (clean_up m (Z.of_nat (length v)) ok q) (<[i := Outside]> ts) 1 r.
Proof.
  intros Hc Ei Ed. pose proof (core_bound _ _ _ _ _ Hc) as [Hb _]. destruct Hc as [Hq Ht Hn Hi (fin & Hp & Hf) Hg Hbad Hs].
  pose proof (Forall_lookup_1 _ _ _ _ Hg Ei) as (Hd & Hv & Hok). apply lookup_ge_None in Ed. assert (d = length v) as -> by lia.
  pose proof (total_insert load ts i _ Outside Ei) as Tl. pose proof (total_insert counted ts i _ Outside Ei) as Tc. pose proof (total_insert idle ts i _ Outside Ei) as Ti.
  pose proof (held_remove ts i _ Outside Ei eq_refl) as Hr. assert (Forall (good added) (<[i := Outside]> ts)) as Hg' by (by apply Forall_insert).
  unfold clean_up. destruct (Z.eqb_spec (Z.of_nat (length v)) 0) as [E0|E0]; cbn [negb].
  - destruct v; [|cbn in E0; lia]. cbn in *. rewrite !load_none in Tl by done. split; cbn; try done; try lia.
    exists fin. split; [|exact Hf]. rewrite Hp. by rewrite Hr.
  - destruct v as [|c v]; [done|]. set (w := c :: v) in *. change (load (Busy w (length w) ok)) with (Z.of_nat (length w)) in Tl.
    change (counted (Busy w (length w) ok)) with 1 in Tc. change (load Outside) with 0 in Tl. change (counted Outside) with 0 in Tc.
    change (held (Busy w (length w) ok)) with w in Hr. change (idle Outside) with 0 in Ti. change (idle (Busy w _ ok)) with 0 in Ti.
    pose proof (sum_nonneg load (<[i := Outside]> ts) load_nonneg).
    split; cbn [queue nIdle nTotal fAllOk nTodo fQuit]; try done; try lia.
    + rewrite uwrap_small by (unfold is_u; lia). lia.
    + exists (w ++ fin). split.
      * rewrite Hp, Hr. rewrite <- !app_assoc. f_equiv. by rewrite Permutation_app_swap_app.
      * intros Hrf [Ha ->]%andb_prop. apply Forall_app. split; [by rewrite firstn_all in Hok|by apply Hf].
    + intros [Ha|Ho]%andb_false_iff; [by apply Hbad|]. by rewrite Ho in Hok.
Qed.

Lemma core_resume added q ts i b r : core added q ts 0 r -> ts !! i = Some (Waiting b) ->
  core added (mk_queue (queue q) (nIdle q - 1) (nTotal q) (fAllOk q) (nTodo q) (fQuit q) (master q) (workers q)) (<[i := Outside]> ts) 1 r.
Proof.
  intros [Hq Ht Hn Hi (fin & Hp & Hf) Hg Hbad Hs] Ei.
  pose proof (total_insert load ts i _ Outside Ei) as Tl. pose proof (total_insert counted ts i _ Outside Ei) as Tc. pose proof (total_insert idle ts i _ Outside Ei) as Ti.
  pose proof (held_remove ts i _ Outside Ei eq_refl) as Hr. cbn in *. rewrite !load_none in Tl by done. split; cbn; try done; try lia; [|by apply Forall_insert].
  exists fin. split; [|exact Hf]. rewrite Hp. by rewrite Hr.
Qed.

(** A thread that holds the mutex takes a batch, waits, or returns. *)
Lemma core_take added q ts i : core added q ts 1 false -> ts !! i = Some Outside -> queue q <> [] ->
  let k := (length (queue q) - Z.to_nat (batch_size nBatchSize q))%nat in
  core added (mk_queue (take k (queue q)) (nIdle q) (nTotal q) (fAllOk q) (nTodo q) (fQuit q) (master q) (workers q))
    (<[i := Busy (reverse (drop k (queue q))) 0 (fAllOk q)]> ts) 0 false.
Proof.
  intros Hc Ei Hne k. pose proof (core_bound _ _ _ _ _ Hc) as [Hb Hql]. destruct Hc as [Hq Ht Hn Hi (fin & Hp & Hf) Hg Hbad Hs].
  set (t := Busy (reverse (drop k (queue q))) 0 (fAllOk q)).
  assert (0 < length (queue q))%nat as Hl by (destruct (queue q); [done|cbn; lia]).
  assert (1 <= batch_size nBatchSize q) as Hb1 by (unfold batch_size; lia).
  assert (held t = reverse (drop k (queue q))) as Hh by done. assert (held t <> []) as Hhn.
  { rewrite Hh. intros E. apply (f_equal length) in E. rewrite length_reverse, length_drop in E. cbn in E. lia. }
  assert (counted t = 1) as Hct by (unfold counted, t; cbn in Hhn; by destruct (reverse _)).
  pose proof (total_insert load ts i _ t Ei) as Tl. pose proof (total_insert counted ts i _ t Ei) as Tc. pose proof (total_insert idle ts i _ t Ei) as Ti.
  rewrite (load_none Outside) in Tl by done. change (counted Outside) with 0 in Tc. change (idle Outside) with 0 in Ti. change (idle t) with 0 in Ti.
  assert (load t = Z.of_nat (length (drop k (queue q)))) as Hlt by (unfold load; by rewrite Hh, length_reverse).
  assert (length (take k (queue q)) + length (drop k (queue q)) = length (queue q))%nat as Hsum by (rewrite <- length_app, take_drop; done).
  split; cbn [queue nIdle nTotal fAllOk nTodo fQuit]; try done; try lia.
  - exists fin. split; [|exact Hf]. rewrite (held_insert ts i _ t Ei eq_refl), Hh, reverse_Permutation, <- !app_assoc.
    rewrite (app_assoc (take k (queue q))), take_drop. exact Hp.
  - apply Forall_insert; [done|]. unfold t. cbn. split; [lia|]. split; [done|]. destruct (fAllOk q); [constructor|by apply Hbad].
Qed.

Lemma core_wait added q ts i r : core added q ts 1 r -> ts !! i = Some Outside ->
  core added (mk_queue (queue q) (nIdle q + 1) (nTotal q) (fAllOk q) (nTodo q) (fQuit q) (master q) (workers q)) (<[i := Waiting false]> ts) 0 r.
Proof.
  intros [Hq Ht Hn Hi (fin & Hp & Hf) Hg Hbad Hs] Ei.
  pose proof (total_insert load ts i _ (Waiting false) Ei) as Tl. pose proof (total_insert counted ts i _ (Waiting false) Ei) as Tc.
  pose proof (total_insert idle ts i _ (Waiting false) Ei) as Ti. rewrite !load_none in Tl by done. cbn in Tc, Ti.
  split; cbn [queue nIdle nTotal fAllOk nTodo fQuit]; try done; try lia; [|by apply Forall_insert].
  exists fin. split; [|exact Hf]. by rewrite (held_insert ts i _ (Waiting false) Ei eq_refl).
Qed.

(** With nothing left to do every check has been run. *)
Lemma core_result added q ts k : core added q ts k false -> nTodo q = 0 -> queue q = [] /\ fAllOk q = forallb check added.
Proof.
  intros Hc H0. pose proof (core_bound _ _ _ _ _ Hc) as [_ Hl]. destruct Hc as [_ Ht _ _ (fin & Hp & Hf) _ Hbad _].
  assert (queue q = []) as Eq by (destruct (queue q); [done|cbn in Hl; lia]). split; [done|].
  rewrite Eq in *. cbn in Ht, Hp. assert (all_held ts = []) as Eh.
  { pose proof (length_all_held ts). destruct (all_held ts); [done|cbn in *; lia]. }
  rewrite Eh in Hp. cbn in Hp. symmetry. destruct (fAllOk q).
  - apply List.forallb_forall. intros c Hc. apply list_elem_of_In in Hc. rewrite Hp in Hc. specialize (Hf eq_refl eq_refl).
    rewrite Forall_forall in Hf. by apply Hf.
  - specialize (Hbad eq_refl). apply Exists_exists in Hbad as (c & Hin & Hfc). apply not_true_is_false. rewrite List.forallb_forall. intros Ha.
    rewrite Ha in Hfc by (by apply list_elem_of_In). done.
Qed.

Lemma core_return added q ts i b : core added q ts 1 false -> ts !! i = Some Outside ->
  core added (mk_queue (queue q) (nIdle q) (nTotal q - 1) true (nTodo q) (fQuit q) (master q) (workers q)) (<[i := Returned b]> ts) 0 true.
Proof.
  intros [Hq Ht Hn Hi (fin & Hp & Hf) Hg Hbad Hs] Ei.
  pose proof (total_insert load ts i _ (Returned b) Ei) as Tl. pose proof (total_insert counted ts i _ (Returned b) Ei) as Tc.
  pose proof (total_insert idle ts i _ (Returned b) Ei) as Ti. rewrite !load_none in Tl by done. cbn in Tc, Ti.
  split; cbn [queue nIdle nTotal fAllOk nTodo fQuit]; try done; try lia; [|by apply Forall_insert].
  exists fin. split; [|done]. by rewrite (held_insert ts i _ (Returned b) Ei eq_refl).
Qed.

Definition returned (q : cq) : bool := match master q with Returned _ => true | _ => false end.
Definition in_loop (t : th) : Prop := match t with Busy _ _ _ | Waiting _ => True | _ => False end.
Definition master_ok (added : list T) (q : cq) : Prop :=
  match master q with
  | Waiting b => queue q = [] /\ (b = false -> 0 < nTodo q)
  | Returned b => queue q = [] /\ nTodo q = 0 /\ fAllOk q = true /\ b = forallb check added
  | _ => True
  end.

Record inv (added : list T) (q : cq) : Prop := {
  inv_core : core added q (threads q) 0 (returned q);
  inv_workers : Forall in_loop (workers q);
  inv_master : master_ok added q;
  inv_length : Z.of_nat (length (threads q)) < 2 ^ 30;
}.

(** The state of a thread that has the mutex. *)
Record locked (added : list T) (tid : option nat) (q : cq) : Prop := {
  lk_core : core added q (<[index tid := Outside]> (threads q)) 1 (match tid with None => false | Some _ => returned q end);
  lk_thread : (index tid < length (threads q))%nat;
  lk_workers : Forall in_loop (workers q);
  lk_master : match tid with None => True | Some _ => master_ok added q end;
  lk_length : Z.of_nat (length (threads q)) < 2 ^ 30;
}.

(** The invariant is about the fields the mutex protects and the threads given. *)
Lemma core_ext added q q' ts k r : queue q' = queue q -> nIdle q' = nIdle q -> nTotal q' = nTotal q -> fAllOk q' = fAllOk q ->
  nTodo q' = nTodo q -> fQuit q' = fQuit q -> core added q ts k r -> core added q' ts k r.
Proof. intros E1 E2 E3 E4 E5 E6 [Hq Ht Hn Hi Hp Hg Hb Hs]. split; rewrite ?E1, ?E2, ?E3, ?E4, ?E5, ?E6; done. Qed.

Lemma total_bound f ts : (forall t, 0 <= f t <= 1) -> 0 <= total f ts <= Z.of_nat (length ts).
Proof. intros Hf. induction ts as [|t ts IH]; [done|]. change (total f (t :: ts)) with (f t + total f ts). specialize (Hf t). cbn [length]. lia. Qed.

(** There is a batch to take when the queue is not empty. *)
Lemma batch_bound added tid q : locked added tid q -> queue q <> [] ->
  u32 (nTotal q + nIdle q + 1) <> 0 /\ 1 <= batch_size nBatchSize q <= Z.of_nat (length (queue q)).
Proof.
  intros Hk Hne. destruct Hk as [Hc Hi _ _ Hn]. pose proof (core_bound _ _ _ _ _ Hc) as [Hb Hl].
  pose proof (total_bound counted (<[index tid := Outside]> (threads q)) ltac:(intros [|[] ? ?| |]; cbn; lia)) as Hct.
  pose proof (total_bound idle (<[index tid := Outside]> (threads q)) ltac:(intros []; cbn; lia)) as Hid.
  rewrite length_insert in Hct, Hid. destruct Hc as [_ _ Ht Hid' _ _ _ _].
  assert (0 < length (queue q))%nat by (destruct (queue q); [done|cbn; lia]).
  unfold batch_size. rewrite !(uwrap_small 32) by (unfold is_u; lia). split; [lia|].
  set (n := Z.of_nat (length (queue q))) in *. set (m := nTotal q + nIdle q + 1) in *.
  assert (n / m <= n) by (apply Z.div_le_upper_bound; nia). lia.
Qed.

Lemma seek_inv added tid q : locked added tid q -> exists q', seek nBatchSize tid q = Some q' /\ inv added q'.
Proof.
  intros Hk. pose proof (batch_bound _ _ _ Hk) as Hbatch. destruct Hk as [Hc Hi Hw Hm Hn]. pose proof (core_bound _ _ _ _ _ Hc) as [Hb Hl].
  assert (<[index tid := Outside]> (threads q) !! index tid = Some Outside) as Eo by (by apply list_lookup_insert_eq).
  assert (forall t, <[index tid := t]> (<[index tid := Outside]> (threads q)) = <[index tid := t]> (threads q)) as Ei by (intros t; apply list_insert_insert_eq).
  unfold seek. destruct (queue q) as [|c l] eqn:Eq.
  - destruct ((is_master tid || fQuit q) && (nTodo q =? 0)) eqn:Er; rewrite (c_quit _ _ _ _ _ Hc), orb_false_r in Er; eexists; (split; [reflexivity|]).
    + apply andb_prop in Er as [Hma H0]. apply Z.eqb_eq in H0. destruct tid as [i|]; [done|]. clear Hma.
      destruct (core_result _ _ _ _ Hc H0) as [_ Ha]. pose proof (core_return added q _ _ (fAllOk q) Hc Eo) as Hr. rewrite Ei in Hr.
      split; [|done|cbn; by rewrite Ha|done]. eapply core_ext; [..|exact Hr]; done.
    + pose proof (core_wait added q _ _ _ Hc Eo) as Hr. rewrite Ei in Hr. destruct tid as [i|].
      * split; [rewrite threads_set; eapply core_ext; [..|exact Hr]; done|cbn; by apply Forall_insert| |by rewrite threads_set, length_insert].
        unfold master_ok in *. cbn in *. by rewrite Eq in Hm.
      * split; [eapply core_ext; [..|exact Hr]; done|done| |done]. cbn. split; [done|]. intros _. cbn in Er. apply Z.eqb_neq in Er. lia.
  - assert (queue q <> []) as Hne by (by rewrite Eq). destruct (Hbatch ltac:(done)) as [Hz Hlen]. rewrite <- Eq in *. clear c l Eq.
    rewrite (proj2 (Z.eqb_neq _ _) Hz), Z.gtb_ltb, (proj2 (Z.ltb_ge _ _)) by lia. eexists; split; [reflexivity|]. destruct tid as [i|].
    + unfold master_ok in Hm. assert (returned q = false) as Hret.
      { unfold returned. destruct (master q); try done. by destruct Hm. }
      rewrite Hret in Hc. pose proof (core_take added q _ _ Hc Eo Hne) as Hr. cbv zeta in Hr. rewrite Ei in Hr. split.
      * rewrite threads_set. unfold returned in *. cbn [set_thread master]. rewrite Hret. eapply core_ext; [..|exact Hr]; done.
      * cbn. by apply Forall_insert.
      * unfold master_ok. cbn. destruct (master q); try done; by destruct Hm.
      * by rewrite threads_set, length_insert.
    + pose proof (core_take added q _ _ Hc Eo Hne) as Hr. cbv zeta in Hr. rewrite Ei in Hr. split; [eapply core_ext; [..|exact Hr]; done|done|done|done].
Qed.

(** Notifications change nothing the invariant is about. *)
Definition woken (t t' : th) : Prop := t' = t \/ t' = wake t.

Lemma woken_same t t' : woken t t' -> held t' = held t /\ counted t' = counted t /\ idle t' = idle t /\ forall added, good added t -> good added t'.
Proof. intros [->| ->]; by destruct t. Qed.

Lemma total_woken f ts ts' : (forall t, f (wake t) = f t) -> Forall2 woken ts ts' -> total f ts' = total f ts.
Proof.
  intros Hf. induction 1 as [|t t' ts ts' Ht _ IH]; [done|]. change (f t' + total f ts' = f t + total f ts). rewrite IH.
  by destruct Ht as [->| ->]; rewrite ?Hf.
Qed.

Lemma core_woken added q ts ts' k r : Forall2 woken ts ts' -> core added q ts k r -> core added q ts' k r.
Proof.
  intros Hw [Hq Ht Hn Hi (fin & Hp & Hf) Hg Hb Hs].
  assert (all_held ts' = all_held ts) as Eh.
  { clear -check Hw. induction Hw as [|t t' ts ts' Ht _ IH]; [done|]. unfold all_held in *. cbn. rewrite IH. by rewrite (proj1 (woken_same _ _ Ht)). }
  split; rewrite ?(total_woken load ts ts'), ?(total_woken counted ts ts'), ?(total_woken idle ts ts') by (done || by intros []); try done.
  - exists fin. by rewrite Eh.
  - clear -check Hw Hg. induction Hw as [|t t' ts ts' Ht _ IH]; [done|]. apply Forall_cons in Hg as [H1 H2]. constructor; [|by apply IH].
    by apply (woken_same _ _ Ht).
Qed.

Lemma woken_refl ts : Forall2 woken ts ts.
Proof. induction ts; constructor; [by left|done]. Qed.
Lemma woken_head t ts : Forall2 woken (t :: ts) (wake t :: ts).
Proof. constructor; [by right|apply woken_refl]. Qed.
Lemma woken_insert i t ts ts' : Forall2 woken ts ts' -> Forall2 woken (<[i := t]> ts) (<[i := t]> ts').
Proof. intros H. apply Forall2_insert; [done|by left]. Qed.

(** A change of one thread that leaves what it holds and how it counts. *)
Lemma core_swap added q ts i t t' k r : core added q ts k r -> ts !! i = Some t -> held t' = held t -> counted t' = counted t ->
  idle t' = idle t -> good added t' -> core added q (<[i := t']> ts) k r.
Proof.
  intros [Hq Ht Hn Hi (fin & Hp & Hf) Hg Hb Hs] Ei E1 E2 E3 Hgt.
  pose proof (total_insert load ts i _ t' Ei) as Tl. pose proof (total_insert counted ts i _ t' Ei) as Tc. pose proof (total_insert idle ts i _ t' Ei) as Ti.
  assert (load t' = load t) by (unfold load; by rewrite E1).
  assert (all_held (<[i := t']> ts) = all_held ts) as Eh.
  { clear -check Ei E1. revert i Ei. induction ts as [|x ts IH]; intros [|i] Ei; try done; unfold all_held in *; cbn; [|by rewrite IH].
    injection Ei as ->. by rewrite E1. }
  split; try done; try lia; [exists fin; by rewrite Eh|by apply Forall_insert].
Qed.

(** A finished batch means that there was something to do. *)
Lemma core_load added q ts k r i t : core added q ts k r -> ts !! i = Some t -> load t <= nTodo q.
Proof.
  intros [_ Ht _ _ _ _ _ _] Ei. pose proof (total_insert load ts i t Outside Ei) as Tl. pose proof (sum_nonneg load (<[i := Outside]> ts) load_nonneg).
  rewrite (load_none Outside) in Tl by done. lia.
Qed.

Lemma clean_locked added tid q v d ok : inv added q -> get_thread tid q = Some (Busy v d ok) -> v !! d = None ->
  locked added tid (clean_up (is_master tid) (Z.of_nat (length v)) ok q).
Proof.
  intros [Hc Hw Hm Hn] Eg Ed. rewrite threads_get in Eg. set (q' := clean_up _ _ _ q).
  pose proof (core_clean _ _ _ _ _ _ _ (is_master tid) _ Hc Eg Ed) as Hc'. pose proof (lookup_lt_Some _ _ _ Eg) as Hlt.
  pose proof (core_load _ _ _ _ _ _ _ Hc Eg) as Hload. pose proof (core_bound _ _ _ _ _ Hc') as [Hb _]. fold q' in Hc', Hb.
  assert (workers q' = workers q) as Ew by (unfold q', clean_up; by destruct (negb _)).
  assert (master q' = master q \/ master q' = wake (master q)) as Em by (unfold q', clean_up; destruct (negb _); [|by left]; cbn [master]; destruct (_ && _); [by right|by left]).
  assert (Forall2 woken (threads q) (threads q')) as Hwk.
  { unfold threads. rewrite Ew. destruct Em as [-> | ->]; [apply woken_refl|apply woken_head]. }
  assert (returned q' = returned q) as Er by (unfold returned; destruct Em as [-> | ->]; [done|by destruct (master q)]).
  split.
  - eapply core_woken; [by apply woken_insert|]. destruct tid as [i|]; [by rewrite Er|].
    assert (returned q = false) as Hr by (unfold returned; cbn in Eg; injection Eg as ->; done). by rewrite <- Hr.
  - by rewrite <- (Forall2_length _ _ _ Hwk).
  - by rewrite Ew.
  - destruct tid as [i|]; [|done]. unfold master_ok in Hm |- *. unfold q', clean_up in *. destruct v as [|c v]; [done|]. set (w := c :: v) in *.
    assert (0 < Z.of_nat (length w)) as Hpos by (cbn; lia). change (load (Busy w d ok)) with (Z.of_nat (length w)) in Hload.
    rewrite (proj2 (Z.eqb_neq (Z.of_nat (length w)) 0)) in * by lia. cbn [negb is_master andb queue nTodo fAllOk master] in *. rewrite andb_true_r.
    destruct (Z.eqb_spec (u32 (nTodo q - Z.of_nat (length w))) 0) as [E0|E0]; destruct (master q) as [| |b|b]; cbn [wake]; try done; try lia;
      destruct Hm as [Hq Hm]; split; try done; intros; lia.
  - by rewrite <- (Forall2_length _ _ _ Hwk).
Qed.

Lemma resume_inv added tid q b : inv added q -> get_thread tid q = Some (Waiting b) -> exists q', resume nBatchSize tid q = Some q' /\ inv added q'.
Proof.
  intros [Hc Hw Hm Hn] Eg. rewrite threads_get in Eg. apply seek_inv.
  pose proof (core_resume _ _ _ _ _ _ Hc Eg) as Hc'. split; try done; [|by eapply lookup_lt_Some|].
  - destruct tid as [i|]; [exact Hc'|]. cbn in Eg. injection Eg as Em. assert (returned q = false) as Hr by (unfold returned; by rewrite Em).
    by rewrite Hr in Hc'.
  - by destruct tid.
Qed.

Lemma good_grows added more t : good added t -> good (added ++ more) t.
Proof. destruct t as [|v d ok| |]; try done. cbn. intros (? & ? & H). split_and!; try done. destruct ok; [done|]. apply Exists_app. by left. Qed.

Lemma core_add added q ts vs chosen : core added q ts 0 false -> Z.of_nat (length added + length vs) < 2 ^ 32 ->
  core (added ++ vs) (Add vs chosen q) ts 0 false.
Proof.
  intros Hc Hs'. pose proof (core_bound _ _ _ _ _ Hc) as [Hb _]. destruct Hc as [Hq Ht Hn Hi (fin & Hp & Hf) Hg Hbad Hs].
  assert (nTodo q <= Z.of_nat (length added)) as Hle.
  { apply Permutation_length in Hp. rewrite !length_app in Hp. pose proof (length_all_held ts). lia. }
  split; cbn [Add queue nIdle nTotal fAllOk nTodo fQuit]; try done.
  - rewrite uwrap_small by (unfold is_u; lia). rewrite length_app. lia.
  - exists fin. split; [|exact Hf]. rewrite Hp. rewrite <- !app_assoc. f_equiv. rewrite (app_assoc (all_held ts)). by rewrite Permutation_app_comm.
  - eapply Forall_impl; [exact Hg|]. intros t. apply good_grows.
  - intros Hb'. apply Exists_app. left. by apply Hbad.
  - rewrite length_app. lia.
Qed.

Lemma Add_woken vs chosen q : Forall2 woken (workers q) (workers (Add vs chosen q)).
Proof.
  cbn. destruct (_ =? 1); [|destruct (_ >? 1); [|apply woken_refl]].
  - destruct chosen as [i|]; [|apply woken_refl]. revert i. induction (workers q) as [|w ws IH]; intros [|i]; constructor;
      [by right|apply woken_refl|by left|apply IH].
  - induction (workers q); constructor; [by right|done].
Qed.

Lemma in_loop_woken ts ts' : Forall2 woken ts ts' -> Forall in_loop ts -> Forall in_loop ts'.
Proof.
  induction 1 as [|t t' ts ts' Ht _ IH]; intros Hl; [done|]. apply Forall_cons in Hl as [H1 H2]. constructor; [|by apply IH].
  by destruct Ht as [->| ->]; destruct t.
Qed.

Lemma held_none ts : Forall (fun t => held t = []) ts -> all_held ts = [].
Proof. induction 1 as [|t ts E _ IH]; [done|]. unfold all_held in *. cbn. by rewrite E. Qed.

Lemma held_elem ts i t c : ts !! i = Some t -> c ∈ held t -> c ∈ all_held ts.
Proof.
  revert i. induction ts as [|x ts IH]; intros [|i] Ei Hc; try done; change (c ∈ held x ++ all_held ts); apply elem_of_app.
  - injection Ei as ->. by left.
  - right. by eapply IH.
Qed.

(** A new round: the last result has been taken and nothing is left of its checks. *)
Lemma result_inv added q b : inv added q -> master q = Returned b -> inv [] (set_thread None Outside q).
Proof.
  intros [Hc Hw Hm Hn] Em. unfold master_ok, returned in *. rewrite Em in Hm. destruct Hm as (Hq0 & H0 & Ha & _).
  pose proof (core_swap _ _ _ 0 _ Outside _ _ Hc (eq_refl : threads q !! 0%nat = Some (master q))) as Hs. rewrite Em in Hs.
  specialize (Hs eq_refl eq_refl eq_refl I). split; try done.
  destruct Hs as [Hq Ht Htot Hi _ Hg _ _]. rewrite Hq0, H0 in Ht. cbn [length] in Ht. set (ts := <[0%nat := Outside]> (threads q)) in *.
  assert (Forall (fun t => load t = 0) ts) as Hz by (apply total_zero; [apply load_nonneg|lia]).
  assert (Forall (fun t => held t = []) ts) as Hz'.
  { eapply Forall_impl; [exact Hz|]. intros t E. unfold load in E. destruct (held t); [done|cbn in E; lia]. }
  split; cbn [set_thread queue nIdle nTotal fAllOk nTodo fQuit]; try done.
  - rewrite Hq0, H0. exact Ht.
  - exists []. split; [|constructor]. rewrite Hq0. change (threads (set_thread None Outside q)) with ts. cbn [app]. rewrite app_nil_r.
    by rewrite held_none.
  - change (threads (set_thread None Outside q)) with ts. apply Forall_forall. intros t Hin. rewrite Forall_forall in Hg, Hz'. specialize (Hg t Hin). specialize (Hz' t Hin).
    destruct t as [|v d ok| |]; try done. cbn in Hz'. subst v. destruct Hg as (Hd & Hok & _). split_and!; try done. rewrite Hok by done. by destruct d.
  - by rewrite Ha.
Qed.

(** What one step adds to the checks of the round. *)
Definition after (e : event) (added : list T) : list T := match e with Internal => added | Added cs => added ++ cs | Result _ => [] end.

Lemma run_thread_inv added tid q q' : inv added q -> run_thread check nBatchSize tid q = Some q' -> inv added q'.
Proof.
  intros Hi E. unfold run_thread in E. apply bind_Some in E as (t & Eg & E). destruct t as [|v d ok|[]|]; try done.
  - destruct (v !! d) as [c|] eqn:Ed.
    + injection E as <-. pose proof Hi as [Hc Hw Hm Hn]. rewrite threads_get in Eg.
      pose proof (Forall_lookup_1 _ _ _ _ (c_good _ _ _ _ _ Hc) Eg) as (Hd & Hv & Hok). pose proof (lookup_lt_Some _ _ _ Ed) as Hlt.
      assert (good added (Busy v (S d) (if ok then check c else ok))) as Hg.
      { split; [lia|]. split; [intros ->; done|]. destruct ok; [|exact Hok]. destruct (check c) eqn:Ec.
        - rewrite (take_S_r _ _ _ Ed). apply Forall_app. split; [done|]. by constructor.
        - destruct (c_perm _ _ _ _ _ Hc) as (fin & Hp & _). apply Exists_exists. exists c. split; [|done]. rewrite Hp, !elem_of_app. right; left.
          eapply held_elem; [exact Eg|]. by eapply list_elem_of_lookup_2. }
      assert (counted (Busy v (S d) (if ok then check c else ok)) = counted (Busy v d ok)) as Hct by (by destruct v).
      pose proof (core_swap _ _ _ _ _ (Busy v (S d) (if ok then check c else ok)) _ _ Hc Eg eq_refl Hct eq_refl Hg) as Hc'.
      assert (returned (set_thread tid (Busy v (S d) (if ok then check c else ok)) q) = returned q) as Er.
      { destruct tid as [i|]; [done|]. unfold returned. cbn in Eg. by injection Eg as ->. }
      split; [rewrite threads_set, Er; eapply core_ext; [..|exact Hc']; by destruct tid| | |by rewrite threads_set, length_insert].
      * destruct tid as [i|]; [cbn; by apply Forall_insert|done].
      * destruct tid as [i|]; done.
    + destruct (seek_inv added tid _ (clean_locked _ _ _ _ _ _ Hi Eg Ed)) as (q'' & Es & Hq). rewrite Es in E. by injection E as <-.
  - destruct (resume_inv added tid q true Hi Eg) as (q'' & Es & Hq). rewrite Es in E. by injection E as <-.
Qed.

Lemma step_inv added e q q' : inv added q -> step check nBatchSize e q q' ->
  match e with Added cs => Z.of_nat (length added + length cs) < 2 ^ 32 | _ => True end -> inv (after e added) q'.
Proof.
  intros Hi Hs Hle. destruct Hs as [tid q q' E|tid q q' E|vs chosen q Em|q Em|q b Em]; cbn [after].
  - by eapply run_thread_inv.
  - unfold wake_up in E. apply bind_Some in E as (t & Eg & E). destruct t as [| |[]|]; try done.
    destruct (resume_inv added tid q false Hi Eg) as (q'' & Es & Hq). rewrite Es in E. by injection E as <-.
  - destruct Hi as [Hc Hw Hm Hn]. pose proof (Add_woken vs chosen q) as Hwk. unfold returned in *. rewrite Em in Hc. split.
    + unfold returned. cbn [Add master]. rewrite Em. eapply core_woken; [|by apply core_add]. unfold threads. constructor; [by left|done].
    + by eapply in_loop_woken.
    + unfold master_ok. cbn [Add master]. by rewrite Em.
    + unfold threads in *. cbn [length] in *. by rewrite <- (Forall2_length _ _ _ Hwk).
  - destruct Hi as [Hc Hw Hm Hn]. split; try done. unfold returned in *. rewrite Em in Hc. cbn [set_thread master].
    eapply core_ext; [..|eapply (core_swap _ _ _ 0 _ (Busy [] 0 true) _ _ Hc)]; try done; by rewrite Em.
  - by eapply result_inv.
Qed.

Lemma start_inv n : Z.of_nat n + 1 < 2 ^ 30 -> inv [] (new_queue n).
Proof.
  intros Hn. split; [|by apply Forall_replicate|done|cbn; rewrite length_replicate; lia].
  assert (forall f : th -> Z, f Outside = 0 -> f (Busy [] 0 true) = 0 -> total f (threads (new_queue n)) = 0) as Hf.
  { intros f H1 H2. unfold threads. cbn. rewrite H1. clear -H2. induction n as [|n IH]; [done|]. cbn. rewrite H2. cbn in IH. lia. }
  split; rewrite ?Hf by done; try done.
  - exists []. split; [|constructor]. cbn. clear. induction n; done.
  - constructor; [done|]. by apply Forall_replicate.
Qed.

Lemma reachable_inv n added q : Z.of_nat n + 1 < 2 ^ 30 -> reachable check nBatchSize n added q -> inv added q.
Proof. intros Hn. induction 1 as [|added q e q' _ IH Hs Hle]; [by apply start_inv|]. by eapply (step_inv added e q q'). Qed.

(** ** Termination *)

Definition weight (t : th) : Z := match t with Busy v d _ => Z.of_nat (length v - d) + 3 | Waiting true => 2 | _ => 0 end.
Definition measure (q : cq) : Z := 4 * Z.of_nat (length (queue q)) + total weight (threads q).

Lemma weight_nonneg t : 0 <= weight t. Proof. destruct t as [| |[]|]; cbn; lia. Qed.

Lemma seek_measure tid q q' : (index tid < length (threads q))%nat -> seek nBatchSize tid q = Some q' ->
  measure q' <= 4 * Z.of_nat (length (queue q)) + total weight (<[index tid := Outside]> (threads q)).
Proof.
  intros Hi. set (ts := <[index tid := Outside]> (threads q)).
  assert (forall t, total weight (<[index tid := t]> (threads q)) = total weight ts + weight t) as Ht.
  { intros t. rewrite <- (list_insert_insert_eq (threads q) (index tid) t Outside). fold ts.
    rewrite (total_insert weight ts (index tid) Outside t); [cbn; lia|]. by apply list_lookup_insert_eq. }
  unfold seek, measure. destruct (queue q) as [|c l] eqn:Eq.
  - destruct (_ && _); intros [= <-]; rewrite threads_set; cbn [queue set_thread].
    + change (threads (mk_queue _ _ _ _ _ _ (master q) (workers q))) with (threads q). rewrite Ht. destruct tid; cbn; lia.
    + change (threads (mk_queue _ _ _ _ _ _ (master q) (workers q))) with (threads q). rewrite Ht. destruct tid; cbn; lia.
  - rewrite <- Eq. destruct (_ =? 0); [done|]. destruct (_ >? _) eqn:Eg; [done|]. rewrite Z.gtb_ltb in Eg. apply Z.ltb_ge in Eg.
    intros [= <-]. rewrite threads_set. change (threads (mk_queue _ _ _ _ _ _ (master q) (workers q))) with (threads q). rewrite Ht.
    assert (1 <= batch_size nBatchSize q) as Hb by (unfold batch_size; lia). set (m := batch_size nBatchSize q) in *.
    cbn [weight]. rewrite length_reverse, length_drop. destruct tid; cbn [queue set_thread]; rewrite length_take; lia.
Qed.

Lemma total_wake_head t ts : total weight (wake t :: ts) <= total weight (t :: ts) + 2.
Proof. change (weight (wake t) + total weight ts <= weight t + total weight ts + 2). destruct t as [| |[]|]; cbn [wake weight]; lia. Qed.

(** Every step but a spurious wake-up makes progress. *)
Lemma run_measure tid q q' : run_thread check nBatchSize tid q = Some q' -> measure q' < measure q.
Proof.
  intros E. unfold run_thread in E. apply bind_Some in E as (t & Eg & E). rewrite threads_get in Eg. pose proof (lookup_lt_Some _ _ _ Eg) as Hlt.
  destruct t as [|v d ok|[]|]; try done.
  - destruct (v !! d) as [c|] eqn:Ed.
    + injection E as <-. apply lookup_lt_Some in Ed. unfold measure. rewrite threads_set, (total_insert weight _ _ _ _ Eg).
      destruct tid; cbn [queue set_thread weight]; lia.
    + set (q1 := clean_up _ _ _ q) in *.
      assert (queue q1 = queue q /\ workers q1 = workers q /\ (master q1 = master q \/ (is_master tid = false /\ master q1 = wake (master q)))) as (Eq & Ew & Em).
      { unfold q1, clean_up. destruct (negb _); cbn [queue workers master]; [|by auto]. split_and!; try done. destruct (_ && _) eqn:Ea; [right|by left].
        split; [|done]. destruct (is_master tid); [|done]. by rewrite andb_false_r in Ea. }
      assert (length (threads q1) = length (threads q)) as El by (unfold threads; cbn [length]; by rewrite Ew).
      apply seek_measure in E; [|lia]. rewrite Eq in E. unfold measure at 2.
      pose proof (total_insert weight _ _ _ Outside Eg) as Ht. cbn [weight] in Ht.
      assert (total weight (<[index tid := Outside]> (threads q1)) <= total weight (<[index tid := Outside]> (threads q)) + 2); [|lia].
      unfold threads. rewrite Ew. destruct tid as [i|]; [|cbn; lia]. destruct Em as [->|[_ ->]]; [lia|]. cbn [index]. apply total_wake_head.
  - unfold resume in E. apply seek_measure in E; [|exact Hlt]. unfold measure at 2. cbn [queue] in E.
    pose proof (total_insert weight _ _ _ Outside Eg) as Ht. cbn [weight] in Ht.
    change (threads (mk_queue _ _ _ _ _ _ (master q) (workers q))) with (threads q) in E. lia.
Qed.

Lemma wake_up_measure tid q q' : wake_up nBatchSize tid q = Some q' -> measure q' <= measure q.
Proof.
  intros E. unfold wake_up in E. apply bind_Some in E as (t & Eg & E). rewrite threads_get in Eg. pose proof (lookup_lt_Some _ _ _ Eg) as Hlt.
  destruct t as [| |[]|]; try done. unfold resume in E. apply seek_measure in E; [|exact Hlt]. unfold measure at 2. cbn [queue] in E.
  pose proof (total_insert weight _ _ _ Outside Eg) as Ht. cbn [weight] in Ht.
  change (threads (mk_queue _ _ _ _ _ _ (master q) (workers q))) with (threads q) in E. lia.
Qed.

Lemma measure_bound added q : inv added q -> measure q <= 4 * Z.of_nat (length added) + 3 * Z.of_nat (length (threads q)).
Proof.
  intros [Hc _ _ _]. pose proof (core_bound _ _ _ _ _ Hc) as [_ Hl]. destruct Hc as [_ Ht _ _ (fin & Hp & _) _ _ _].
  assert (forall ts, total weight ts <= total load ts + 3 * Z.of_nat (length ts)) as Hw.
  { induction ts as [|t ts IH]; [done|]. change (weight t + total weight ts <= load t + total load ts + 3 * Z.of_nat (S (length ts))).
    assert (weight t <= load t + 3) by (destruct t as [| |[]|]; unfold load; cbn; lia). lia. }
  specialize (Hw (threads q)). pose proof (sum_nonneg load (threads q) load_nonneg). apply Permutation_length in Hp. rewrite !length_app in Hp.
  pose proof (length_all_held (threads q)). unfold measure. lia.
Qed.

(** Steps of the threads, of which the number counts those that are not spurious. *)
Inductive runs : nat -> cq -> cq -> Prop :=
| runs_none q : runs 0 q q
| runs_thread tid k q q1 q2 : run_thread check nBatchSize tid q = Some q1 -> runs k q1 q2 -> runs (S k) q q2
| runs_spurious tid k q q1 q2 : wake_up nBatchSize tid q = Some q1 -> runs k q1 q2 -> runs k q q2.

Lemma runs_measure k q q' : runs k q q' -> Z.of_nat k + measure q' <= measure q.
Proof. induction 1 as [|tid k q q1 q2 E _ IH|tid k q q1 q2 E _ IH]; [lia|apply run_measure in E; lia|apply wake_up_measure in E; lia]. Qed.

(** While it waits for the result, the master is in the loop or has returned. *)
Definition called (q : cq) : Prop := master q <> Outside.

Lemma seek_called tid q q' : seek nBatchSize tid q = Some q' -> called q \/ tid = None -> called q'.
Proof.
  unfold seek, called. intros E H. destruct (queue q); [destruct (_ && _)|destruct (_ =? 0); [done|]; destruct (_ >? _); [done|]];
    injection E as <-; destruct tid; cbn [set_thread master]; destruct H; done.
Qed.

Lemma run_called tid q q' : run_thread check nBatchSize tid q = Some q' -> called q -> called q'.
Proof.
  intros E Hc. unfold run_thread in E. apply bind_Some in E as (t & _ & E). destruct t as [|v d ok|[]|]; try done.
  - destruct (v !! d); [injection E as <-; by destruct tid|]. apply seek_called in E; [done|]. left. clear E. unfold clean_up, called in *.
    destruct (negb _); cbn [master]; [|done]. destruct (_ && _); [|exact Hc]. intros Ew. destruct (master q); discriminate || by apply Hc.
  - apply seek_called in E; [done|]. by left.
Qed.

Lemma wake_up_called tid q q' : wake_up nBatchSize tid q = Some q' -> called q -> called q'.
Proof.
  intros E Hc. unfold wake_up in E. apply bind_Some in E as (t & _ & E). destruct t as [| |[]|]; try done. apply seek_called in E; [done|]. by left.
Qed.

Lemma runs_keep added k q q' : runs k q q' -> inv added q -> called q -> inv added q' /\ called q'.
Proof.
  induction 1 as [|tid k q q1 q2 E _ IH|tid k q q1 q2 E _ IH]; intros Hi Hc; [done|..]; apply IH.
  - by eapply run_thread_inv.
  - by eapply run_called.
  - by apply (step_inv added Internal q q1 Hi (step_spurious _ _ _ _ _ E)).
  - by eapply wake_up_called.
Qed.

(** A thread that can go on without a notification does. *)
Lemma run_thread_able added tid q t : inv added q -> get_thread tid q = Some t -> (exists v d ok, t = Busy v d ok) \/ t = Waiting true ->
  exists q', run_thread check nBatchSize tid q = Some q'.
Proof.
  intros Hi Eg Ht. unfold run_thread. rewrite Eg. cbn [mbind option_bind]. destruct Ht as [(v & d & ok & ->)| ->].
  - destruct (v !! d) eqn:Ed; [by eexists|]. destruct (seek_inv _ _ _ (clean_locked _ _ _ _ _ _ Hi Eg Ed)) as (q' & E & _). by exists q'.
  - destruct (resume_inv _ _ _ _ Hi Eg) as (q' & E & _). by exists q'.
Qed.

(** No notification is lost: while the master is in the loop some thread can go on. *)
Lemma no_deadlock added q : inv added q -> in_loop (master q) -> exists tid q', run_thread check nBatchSize tid q = Some q'.
Proof.
  intros Hi Hm. destruct (master q) as [|v d ok|b|] eqn:Em; try done.
  - exists None. eapply run_thread_able; [exact Hi|cbn; by rewrite Em|left; eauto].
  - destruct b; [exists None; eapply run_thread_able; [exact Hi|cbn; by rewrite Em|by right]|].
    pose proof (inv_master _ _ Hi) as Hk. unfold master_ok in Hk. rewrite Em in Hk. destruct Hk as [Eq H0]. specialize (H0 eq_refl).
    pose proof (c_todo _ _ _ _ _ (inv_core _ _ Hi)) as Ht. rewrite Eq in Ht. cbn [length] in Ht. unfold threads in Ht. rewrite Em in Ht.
    change (nTodo q = Z.of_nat 0 + (0 + total load (workers q))) in Ht.
    destruct (decide (Exists (fun t => held t <> []) (workers q))) as [He|He].
    + apply Exists_exists in He as (t & Hin & Hne). apply list_elem_of_lookup in Hin as (i & Ei). exists (Some i). destruct t as [|v d ok| |]; try done.
      eapply run_thread_able; [exact Hi|exact Ei|left; eauto].
    + exfalso. assert (total load (workers q) = 0) as Hz; [|lia]. rewrite <- length_all_held, held_none; [done|].
      apply Forall_forall. intros t Hin. destruct (held t) eqn:Eh; [done|]. destruct He. apply Exists_exists. exists t. by rewrite Eh.
Qed.

Lemma idle_when_done added q : inv added q -> ~ in_loop (master q) -> nTodo q = 0 -> fAllOk q = true -> IsIdle q = true.
Proof.
  intros [Hc Hw _ _] Hm H0 Ha. destruct Hc as [_ Ht Hn Hi _ _ _ _]. unfold IsIdle. rewrite H0, Ha, Hn, Hi.
  assert (Forall (fun t => load t = 0) (threads q)) as Hz.
  { apply total_zero; [apply load_nonneg|]. pose proof (sum_nonneg load (threads q) load_nonneg). lia. }
  assert (total counted (threads q) = total idle (threads q)) as ->; [|by rewrite Z.add_0_r, Z.eqb_refl].
  clear -check Hz. induction Hz as [|t ts E _ IH]; [done|]. change (counted t + total counted ts = idle t + total idle ts). rewrite IH.
  enough (counted t = idle t) by lia. unfold load in E. destruct t as [|[|c v] d ok|b|b]; try reflexivity. cbn in E. lia.
Qed.

Lemma reachable_length n added q : reachable check nBatchSize n added q -> length (workers q) = n.
Proof.
  assert (forall tid (q q' : cq), seek nBatchSize tid q = Some q' -> length (workers q') = length (workers q)) as Hseek.
  { intros tid q0 q1 E. unfold seek in E. destruct (queue q0); [destruct (_ && _)|destruct (_ =? 0); [done|]; destruct (_ >? _); [done|]];
      injection E as <-; destruct tid; cbn; by rewrite ?length_insert. }
  induction 1 as [|added q e q' _ IH Hs _]; [cbn; apply length_replicate|]. rewrite <- IH.
  destruct Hs as [tid q q' E|tid q q' E|vs chosen q Em|q Em|q b Em]; try done.
  - unfold run_thread in E. apply bind_Some in E as (t & _ & E). destruct t as [|v d ok|[]|]; try done.
    + destruct (v !! d); [injection E as <-; destruct tid; cbn; by rewrite ?length_insert|]. rewrite (Hseek _ _ _ E). unfold clean_up. by destruct (negb _).
    + by rewrite (Hseek _ _ _ E).
  - unfold wake_up in E. apply bind_Some in E as (t & _ & E). destruct t as [| |[]|]; try done. by rewrite (Hseek _ _ _ E).
  - symmetry. apply (Forall2_length _ _ _ (Add_woken vs chosen q)).
Qed.
End invariant.

(** ** The theorems *)

(** C10: the result of a round.  Whatever the threads do and in whatever order, the result
    that [Wait] returns to the master is whether all checks added in this round succeed; and
    when the master has its result, or has not added anything yet, the queue is idle, so that
    the assertion of [CCheckQueueControl] holds. *)
Theorem check_queue_result {T : Type} (check : T -> bool) (nBatchSize : Z) (n : nat) (added : list T) (q : CCheckQueue) :
  Z.of_nat n + 1 < 2 ^ 30 -> reachable check nBatchSize n added q ->
  (forall b, master q = Returned b -> b = forallb check added /\ IsIdle q = true) /\
  (master q = Outside -> added = [] -> IsIdle q = true).
Proof.
  intros Hn Hr. pose proof (reachable_inv _ _ _ _ _ Hn Hr) as Hi. pose proof (inv_master _ _ _ Hi) as Hm. unfold master_ok in Hm. split.
  - intros b Em. rewrite Em in Hm. destruct Hm as (_ & H0 & Ha & Hb). split; [exact Hb|]. apply (idle_when_done check added q Hi); [rewrite Em; by intros []|done|done].
  - intros Em ->. pose proof (inv_core _ _ _ Hi) as Hc. apply (idle_when_done check [] q Hi); [rewrite Em; by intros []| |].
    + destruct Hc as [_ Ht _ _ (fin & Hp & _) _ _ _]. apply Permutation_length in Hp. rewrite !length_app in Hp. cbn [length] in Hp.
      pose proof (length_all_held (threads q)). lia.
    + destruct (fAllOk q) eqn:Ea; [done|]. pose proof (c_bad _ _ _ _ _ _ Hc Ea) as Hx. by apply Exists_nil in Hx.
Qed.

(** C11: waiting ends.  Once the master is in the loop, the threads make at most four steps
    for each check and three for each thread, not counting spurious wake-ups; and until the
    master has returned with its result, some thread can go on without one.  No notification
    is lost, no thread divides by zero or takes checks from an empty queue. *)
Theorem check_queue_terminates {T : Type} (check : T -> bool) (nBatchSize : Z) (n k : nat) (added : list T) (q q' : CCheckQueue) :
  Z.of_nat n + 1 < 2 ^ 30 -> reachable check nBatchSize n added q -> in_loop (master q) -> runs check nBatchSize k q q' ->
  Z.of_nat k <= 4 * Z.of_nat (length added) + 3 * (Z.of_nat n + 1) /\
  (master q' = Returned (forallb check added) \/ exists tid q'', run_thread check nBatchSize tid q' = Some q'').
Proof.
  intros Hn Hr Hm Hk. pose proof (reachable_inv _ _ _ _ _ Hn Hr) as Hi.
  destruct (runs_keep check nBatchSize added k q q' Hk Hi) as [Hi' Hc']; [unfold called; by destruct (master q)|]. split.
  - pose proof (runs_measure _ _ _ _ _ Hk) as Hle. pose proof (measure_bound _ _ _ Hi) as Hb. pose proof (reachable_length _ _ _ _ _ Hr) as Hl.
    assert (0 <= measure q') by (unfold measure; pose proof (sum_nonneg weight (threads q') weight_nonneg); lia).
    unfold threads in Hb. cbn [length] in Hb. lia.
  - destruct (master q') as [|v d ok|b|b] eqn:Em; [by destruct (Hc' Em)|..].
    + right. apply (no_deadlock check nBatchSize added q' Hi'). by rewrite Em.
    + right. apply (no_deadlock check nBatchSize added q' Hi'). by rewrite Em.
    + left. pose proof (inv_master _ _ _ Hi') as Ho. unfold master_ok in Ho. rewrite Em in Ho. f_equal. by destruct Ho as (_ & _ & _ & ->).
Qed.

(** ** A round with one worker *)

Fixpoint play {T : Type} (check : T -> bool) (nBatchSize : Z) (sched : list (option nat)) (q : CCheckQueue) : option CCheckQueue :=
  match sched with [] => Some q | tid :: sched' => q' ← run_thread check nBatchSize tid q; play check nBatchSize sched' q' end.

Lemma play_reachable {T : Type} (check : T -> bool) nBatchSize n added sched q q' :
  reachable check nBatchSize n added q -> play check nBatchSize sched q = Some q' -> reachable check nBatchSize n added q'.
Proof.
  revert q. induction sched as [|tid sched IH]; intros q Hr E; [by injection E as <-|]. apply bind_Some in E as (q1 & E1 & E).
  eapply IH; [|exact E]. exact (reach_step check nBatchSize n added q Internal q1 Hr (step_thread _ _ _ _ _ E1) I).
Qed.

Lemma play_runs {T : Type} (check : T -> bool) nBatchSize sched q q' :
  play check nBatchSize sched q = Some q' -> runs check nBatchSize (length sched) q q'.
Proof.
  revert q. induction sched as [|tid sched IH]; intros q E; [injection E as <-; constructor|]. apply bind_Some in E as (q1 & E1 & E).
  econstructor; [exact E1|]. by apply IH.
Qed.

(** The worker waits; five checks are added, which wakes it; the master joins. *)
Definition sample_idle : CCheckQueue := default (new_queue 1) (play (fun z => z <? 4) 128 [Some 0%nat] (new_queue 1)).
Definition sample_round : CCheckQueue := set_thread None (Busy [] 0 true) (Add [1; 2; 3; 4; 5] None sample_idle).
Definition sample_schedule : list (option nat) := [None; Some 0%nat] ++ replicate 8 None ++ [Some 0%nat; Some 0%nat; None].
Definition sample_waiting : CCheckQueue := default sample_round (play (fun z => z <? 4) 128 (take 10 sample_schedule) sample_round).
Definition sample_done : CCheckQueue := default sample_round (play (fun z => z <? 4) 128 sample_schedule sample_round).

Lemma sample_reachable : reachable (fun z => z <? 4) 128 1 [1; 2; 3; 4; 5] sample_round.
Proof.
  assert (reachable (fun z => z <? 4) 128 1 [] sample_idle) as H0 by (apply (play_reachable _ _ _ _ [Some 0%nat] _ _ (reach_start _ _ _)); vm_compute; reflexivity).
  pose proof (reach_step _ _ _ _ _ _ _ H0 (step_add (fun z => z <? 4) 128 [1; 2; 3; 4; 5] None sample_idle eq_refl) eq_refl) as H1.
  exact (reach_step _ _ _ _ _ _ _ H1 (step_wait _ _ (Add [1; 2; 3; 4; 5] None sample_idle) eq_refl) I).
Qed.

Lemma check_queue_result_witness : master sample_done = Returned (forallb (fun z => z <? 4) [1; 2; 3; 4; 5]) /\ IsIdle sample_done = true.
Proof.
  assert (reachable (fun z => z <? 4) 128 1 [1; 2; 3; 4; 5] sample_done) as H.
  { apply (play_reachable _ _ _ _ sample_schedule sample_round); [apply sample_reachable|vm_compute; reflexivity]. }
  split; [vm_compute; reflexivity|].
  destruct (check_queue_result (fun z => z <? 4) 128 1 [1; 2; 3; 4; 5] sample_done ltac:(lia) H) as [Hb _].
  destruct (Hb false ltac:(vm_compute; reflexivity)) as [_ Hidle]. exact Hidle.
Defined.

(** The master waits for a notification while the worker runs the last check. *)
Lemma check_queue_terminates_witness : master sample_waiting = Waiting false /\
  exists tid q'', run_thread (fun z => z <? 4) 128 tid sample_waiting = Some q''.
Proof.
  split; [vm_compute; reflexivity|].
  assert (Z.of_nat 1 + 1 < 2 ^ 30) as Hn by lia.
  assert (play (fun z => z <? 4) 128 (take 10 sample_schedule) sample_round = Some sample_waiting) as Ep by (vm_compute; reflexivity).
  apply play_runs in Ep. pose proof sample_reachable as Hr.
  destruct (check_queue_terminates (fun z => z <? 4) 128 1 _ [1; 2; 3; 4; 5] sample_round sample_waiting Hn Hr I Ep) as [_ [E|H]]; [|exact H].
  vm_compute in E. discriminate E.
Defined.
